(* ===== verification/_CoqProject ===== *)
-Q . S2P
Prelude.v
Dnp3Crc.v
Dnp3Link.v
Dnp3Transport.v
Dnp3App.v
Dnp3Outstation.v
Dnp3Master.v
Iec104Types.v
Iec104Time.v
Iec104Elements.v
Iec104Asdu.v
Iec104Frame.v
Iec104Session.v
Iec104SessionInv.v
GoLib.v
Iec104Procedure.v
Iec104File.v
Iec104FileCorrect.v
Iec104FileInv.v
Iec104FileClient.v
Iec104Client.v
Iec104ClientInv.v
Iec104ClientCorrect.v
FieldDevice.v
FieldDeviceInv.v
ModbusServer.v
ModbusMaster.v
PointMap.v
PointMapValid.v
StationClock.v
Rtu.v
RtuInv.v
RtuStation.v
RtuCorrect.v
ControlCentre.v
ControlCentreApi.v
ControlCentreInv.v
ControlCentreThread.v
ControlCentreCorrect.v
ControlCentreHttp.v
GoText.v
Lifecycle.v
LifecycleInv.v
LifecycleCorrect.v
LifecycleEngine.v
NetIP.v
Policy.v
PolicyCorrect.v
Plan.v
PlanIcs.v
PlanInv.v
PlanCorrect.v
PlanCompile.v
Manifest.v
ManifestCompose.v
ManifestCorrect.v
ManifestComposeCorrect.v
ManifestModes.v
ManifestTopology.v
LabValidate.v
LabCorrect.v
SimShared.v
SimModbus.v
RecloserSim.v
RelaySim.v
CapbankSim.v
RegulatorSim.v
SimCorrect.v
RtacSim.v
Substation.v
