(* ===== verification/Prelude.v ===== *)
(** * RangerDanger: verification of the range's protocols and stations

    RangerDanger is a cyber range for industrial control systems.  Its Go
    code falls into three layers:

    - two protocol libraries written for the range, [src/dnp3go] (DNP3 over
      TCP: outstation and master) and [src/iec104go] (IEC 60870-5-104);
    - the simulated devices and stations under [src/services], which register
      callbacks with, or drive sessions of, these libraries;
    - the backend under [src/backend], which validates lab packages, starts
      their containers and evaluates exercises.

    Every control action of the range passes through the protocol libraries,
    and they read octets from an untrusted network, so the development starts
    there; it goes on to the European substation, whose control actions run
    from an IEC 104 client through the remote terminal unit and its Modbus
    master to the server and the model of a field device, and to the control
    centre that operates it; to the backend's lifecycle, which decides which
    range runs, to the exercise plans, from which the firewall's policy is
    compiled, and to the validation of the packages: their manifests, their
    Compose models and their scenarios.  This file is the prelude: the outcome type of a fallible Go call,
    machine integers, slices, streams, the hint databases and tactics.

    ** Files and the code they model

    - [Dnp3Crc]: [dnp3go/crc.go], the checksum table and its users.
    - [Dnp3Link]: [dnp3go/datalink.go].  [ReadLinkFrame] scans an octet stream
      for the start octets, checks the header and block checksums and returns
      the frame with the rest of the stream; [WriteLinkFrame] prints one.
    - [Dnp3Transport]: [dnp3go/transport.go].  [TransportReader] is the
      reassembly state, [ProcessSegment] its transition.
    - [Dnp3App]: [dnp3go/application.go], the fragment parser [ParseAPDU] and
      the static-object and response builders.
    - [Dnp3Outstation]: [dnp3go/outstation.go].  What outlives
      a connection ([station]: the device and the restart flag), the state of
      one connection ([connState]: selections and sequence number, with the
      transport reader), each function-code handler and [handleConn], the loop
      over a connection's input.  The device is a
      parameter [D], reached only through the points' [Read] and [Operate].
    - [Dnp3Master]: [dnp3go/master.go], the integrity poll, against a peer that
      is a function from request octets to reply octets; the poll theorem
      instantiates it with the outstation of [Dnp3Outstation].
    - [Iec104Types]: [iec104go/types.go]; [Iec104Time]: [iec104go/time.go];
      [Iec104Elements]: [elements.go], [element_codec.go], [file_elements.go]
      and the element part of [file_codec.go].
    - [Iec104Asdu]: [asdu.go], [builder.go], [mirror.go] and the ASDU part of
      [file_codec.go].
    - [Iec104Frame]: [frame.go], the APCI codec and the stream reader.
    - [Iec104Session]: [session.go], [session_state.go], [session_timers.go]
      and the other [session_*.go] files, [options.go].  The state goroutine is
      one record; each handler of its select loop is a function in a
      state-and-error monad; the reader, writer, dispatcher and the
      application's calls are steps around it ([step]), so that every
      interleaving of the goroutines is a path of the step relation.
    - [Iec104SessionInv]: the session's invariant, its preservation by every
      step, and the theorems about all reachable sessions.

    - [GoLib]: what the services use of Go's library: durations and
      RFC 3339 times, binary64 numbers on the Standard Library's [SpecFloat];
      and the state-and-error monad of the stateful components.
    - [Iec104Procedure]: the transactions of a client and their legs
      ([procedure_wait.go], [procedure_wire.go]), the requests and matches of
      [procedures.go]: what runs under the locks, as functions on a store.
    - [Iec104File]: [file_options.go], [file_server.go], [file_client.go],
      [file_wait.go]: the station's file worker with its loop, the client's
      directory and download helpers as automata.  [Iec104FileCorrect]: the
      two sides joined; [Iec104FileInv]: the worker in every run;
      [Iec104FileClient]: the client against any peer.
    - [Iec104Client]: every helper of [procedures.go] and [file_client.go] as an
      automaton ([prepare], [react], [resume]), and a session with any number
      of calling goroutines, its reader, writer and actor, as a machine
      ([perform]) whose actions are the steps between two acquisitions of a
      lock.  [Iec104ClientInv], [Iec104ClientCorrect]: its invariant and the
      guarantees.
    - [FieldDevice], [FieldDeviceInv]: [services/devices/fielddevice], the
      breaker, ring main unit and tap changer behind one lock: switch and tap
      commands, operator actions, measurement samples with the protection
      function, the audit log; then the invariant of all reachable devices.
    - [ModbusServer]: [services/devices/modbus], the register map and the
      request handlers against an interface [device] with its laws
      [DeviceLaws], which the field device discharges.
    - [ModbusMaster]: [services/iec104/internal/modbus/master.go], and its
      composition with the server.
    - [PointMap], [PointMapValid]: [services/iec104/internal/pointmap], the
      loader of a station's point map from the tokens of the JSON decoder, and
      what an accepted map guarantees ([map_valid]).
    - [StationClock]: [services/iec104/internal/stationclock], the syntax and
      the value of a reported time, [Poll] and [Now], and their refinement of
      the last accepted sample.
    - [Rtu]: [services/iec104/internal/rtu], the remote terminal unit: the
      process image and its reports, interrogation, select-before-operate
      commands, connections, and the polling workers, which reach their master
      through the interface [Master_] with the law [MasterLaws].  [step] is one
      transition under the model lock, [run] the histories.
    - [RtuInv]: what each handler does to the state; [RtuStation]: the effect
      of every input, the station's invariant, what a history says about the
      pending command; [RtuCorrect]: the guarantees, the Modbus master as
      southbound master, and the composed system of station, master, server
      and breaker that the witnesses run.
    - [ControlCentre], [ControlCentreApi], [ControlCentreHttp]:
      [services/iec104/internal/controlcentre].  The cache of points, the
      journal, the reception of reports and the loop of the link; the API with
      the thread of a command (selection, execution, termination) and the
      publisher; the reader of an HTTP request.  [step_input] is one transition
      of the whole centre.  [ControlCentreInv]: the effect of every input and
      the invariant; [ControlCentreThread]: what a history says about the
      command in flight; [ControlCentreCorrect]: the guarantees.

    - [Lifecycle]: [backend/internal/lifecycle], the manager of the one running
      range: runtime record, status, generations with their registered work,
      the transition to a package, the routes, the reconciliation at start.
      Everything the manager calls is the class [Env].  [step] is one input of
      the running backend, a crash with its restart included.
    - [LifecycleInv]: a rely-guarantee logic for the jobs and the invariant of
      all reachable backends; [LifecycleCorrect]: the guarantees.
    - [LifecycleEngine]: [lifecycle/engine.go] and [compose.go], the Docker
      queries and the Compose command lines, as an instance of [Env]
      ([docker_env]), against the daemon's documented behaviour
      ([DockerLaws]).

    - [GoText]: what the backend uses of Go's strings and paths; [NetIP]:
      [net/netip], addresses and prefixes.
    - [Policy], [PolicyCorrect]: [backend/internal/labs/policy.go], the lint of
      a firewall policy: a walk over the document's keys and the check that the
      management network is left alone; then what a passing document is.
    - [Plan]: [labs/plan.go], [plan_ics.go], [plan_validate.go],
      [plan_compile.go] and [plan_evaluate.go]: the data of an exercise plan,
      its validation, the compilation of a team's chosen actions to an ordered
      rule list and a policy document, the first-match evaluation of proofs.
    - [PlanIcs]: a predicate survives marshalling; [PlanInv]: what a validated
      plan has and what compilation does with it; [PlanCorrect]: the compiled
      rules and their document; [PlanCompile]: the guarantees, and a small
      exercise on which the witnesses run.

    - [Manifest], [ManifestCompose]: [backend/internal/manifest], the manifest
      of a package: its loading and [Validate]; the checks against the
      platform's and the package's Compose models, the raw Compose file, the
      topology, the firewall's interface names, the other mode and another
      package.  [ManifestCorrect]: what [Validate] accepts;
      [ManifestComposeCorrect]: paths, raw files and deployments;
      [ManifestModes]: the comparison of two models; [ManifestTopology]: the
      topology and the firewall.  Their witnesses share one small range.
    - [LabValidate], [LabCorrect]: [backend/internal/labs/validate.go], the
      validation of scenarios, steps and actions, and what it accepts.
    - [SimShared]: [services/shared/types.go] (audit log, zones, commands), the
      conversions and texts the simulators use, and that serving DNP3 only
      operates points; [SimModbus]: the Modbus server every simulator has, over
      the handlers of one.
    - [RecloserSim], [RelaySim], [CapbankSim], [RegulatorSim]:
      [services/recloser-sim] and its siblings, each with its state, HTTP
      commands, Modbus writes, outstation points, the steps of its process and
      its invariants; the sleeping goroutines of the recloser are counted, and
      wake in any order.  [SimCorrect]: reads and connections.
    - [RtacSim]: [services/rtac-sim], over any network; [Substation]: the four
      devices as its network, and the whole as a step relation.  The result of
      a conversion from [float64] that its type cannot represent is left to the
      class [Conversions], as the language leaves it to the implementation.

    The order of requirement is the order of this list; the DNP3 and the
    IEC 104 halves share only this file.

    ** How Go is modelled

    A call that returns an error is an [outcome]; indexing and slicing outside
    the operand is [Panic], so that a theorem that a call is [safe] excludes
    run-time panics.  Integers are [Z] with the conversions written out
    ([u8], [u16], [u32], [signed]).  [float32] values are their bit
    patterns; [float64] values are those of [SpecFloat] at 53 and 1024.  A [time.Time] is a number
    of nanoseconds, or in the session an [option Z] whose [None] is the zero
    time.  A session's clock is an arbitrary sequence of readings.  Pointers
    the code compares or shares (queued writes, transfer generations) are
    indices into a store; slices the code copies to own its memory are values.
    In the field device a timer is identified by the token its callback
    compares; the audit context of a peer address is an argument.  In the
    remote terminal unit the monotonic clock and the station clock are
    arbitrary sequences of readings, connections are their identifiers, a
    [Send] is recorded and may fail, milliseconds are [Z] without the overflow
    of [int64], and the southbound transaction of a worker happens between two
    transitions, so that every other input can come in between.  A job of the
    lifecycle manager is a resumption ([prog]): a tree with one node for each
    call of the environment and each section under a lock, so that requests,
    workers and crashes come in between any two of them; its termination needs
    no fuel.  In the plans a JSON document is its tree with the keys in order
    and duplicates kept; decoding a document into a struct is a parameter; a Go
    map that is iterated is the list of its entries in an arbitrary order; an
    error is the format and the arguments it was made of; a slice is an
    [option] list where the code tells nil from empty.  The manifests are
    read in the same way; a map that the code builds is a [gmap].  In the
    control centre one input is one section under its lock or one wake-up of a
    thread, with the clock readings, the results of sends and the received
    messages as arguments.

    Loops are structural where the Go loop consumes a slice.  The others carry
    fuel and return [Diverge] without it.  [ParseAPDU]'s object loop, the
    block loops of the link layer and the connection loop get the length of
    what they consume, each iteration taking at least one octet of it; the
    master's extraction loops get one more than the length of the object's
    data; element decoding has depth two (a time-tagged type defers once to
    its base type); the session's [pump_loop] gets the length of the send
    queue plus one; the Modbus server's connection loop gets the length of the
    stream plus one; the JSON reader gets twice the number of tokens plus two,
    one unit for each value and each step of a loop; the sections of a file
    are cut into segments with the length of the data; a file dialogue
    ([converse]) gets two units for each section and four more, one for each
    request.  The totality, [safe] and round-trip theorems exclude
    [Diverge], so the fuel is enough on every input.

    ** What the theorems show

    - Octet level: the table-driven CRC is the bit-serial CRC-16/DNP and
      detects each error burst within two adjacent octets
      ([crcDNP_bitwise], [crcDNP_detects_burst]); a link frame is read
      back as written, and one with a corrupted octet is refused
      ([link_roundtrip], [link_corruption_detected]).
    - Fragments: transport reassembly delivers only in-order runs and delivers
      each of them ([transport_sound], [transport_reassembles]); the
      application parser is total and inverts printing ([ParseAPDU_total],
      [ParseAPDU_print]).
    - Outstation: OPERATE acts only on an unexpired matching selection, SELECT
      only arms, WRITE only clears the restart bit, every input stream is
      served without a panic ([operate_requires_select],
      [select_arms_only], [write_clears_restart], [outstation_total]).
    - Master: an integrity poll through all layers of both sides returns the
      device's values ([poll_reads_outstation]), and a poll of an arbitrary
      peer returns without a panic and trusts only a checked reply of the
      configured outstation ([poll_total]).
    - IEC 104 codec: element, ASDU, time and frame codecs are inverse in both
      directions and safe on every input; the incremental builder agrees with
      the encoder; mirrors differ from the original in the cause only
      ([element_roundtrip], [asdu_roundtrip], [cp56_roundtrip],
      [frame_roundtrip], [stream_roundtrip], [asdu_decode_safe],
      [builder_refines_encoder], [mirror_wire] and others).
    - IEC 104 session, for every reachable state: the k and w windows with
      their timers, the bounds of all queues, order and exactly-once
      transmission of admitted data, with nothing between it but the filter's
      rejections, numbering, acknowledgement, exactness of
      the deadline computation ([session_windows], [session_queues],
      [session_fifo], [session_numbering], [session_receive_window],
      [timers_exact], [reject_is_mirror]).
    - IEC 104 procedures, for every interleaving of callers, link and session:
      one helper at a time and no panic ([procedures_exclusive]); an execute
      only after a confirmed select ([select_before_execute]); success only for
      an exchange that took place after the request was written, for the file
      helpers a dialogue made of messages that this call read
      ([helper_success_confirmed]); no request after an uncertain outcome
      ([uncertain_outcome_fences]).
    - IEC 104 files: a download returns the served file
      ([download_returns_file]); from any peer, only what was delivered and
      confirmed, within the limits ([download_sound], [directory_sound]); the
      worker never fails on what a peer sends ([file_worker_safe]).
    - Field devices, for every reachable device: the interlocks and the
      validity of measurements, exactly when switches operate, taps move and
      protection trips, with the whole state that each leaves, and that the
      audit log is complete
      ([device_interlocks], [switch_operates], [tap_moves],
      [protection_trips], [audit_complete]).
    - Modbus: the server answers every stream with well-formed frames
      ([modbus_serves]); a call of the master through the server is the
      corresponding method of the device ([modbus_refines_device]).
    - Point maps: the loader returns, and what it accepts has the ranges,
      references and uniqueness the stations index by ([pointmap_loads]).
    - Remote terminal unit, for every run with any clients, clocks and field:
      every input returns ([rtu_total]); a field register is written only
      after a select and an execute with the same value, and once
      ([rtu_select_before_write]); a positive termination is sent by a
      tick only, to the connection of the pending command, whose write was
      confirmed and later seen in a poll ([rtu_termination_backed]); no
      command stays pending ([rtu_command_ends]); an interrogation gets every
      point once ([rtu_interrogation]).
    - Station clock: what it shows is the last accepted sample, extrapolated
      with the monotonic clock ([clock_refines], [clock_monotone]).
    - Control centre, for every run with any station, clients and clocks: a
      command is completed only when the station confirmed and reported it
      ([centre_completed_backed]); an execution follows the confirmed selection
      of the same command, once ([centre_execute_authorised]); cached points
      are marked as what they are ([centre_cache_honest]); every input returns,
      with one command at most and bounded queues ([centre_total]); a command
      ends ([centre_command_ends]); requests are framed alike however the
      stream is cut ([http_request_framing]).
    - Range lifecycle, for every environment and every interleaving: one range
      at a time, which serves only when ready ([range_exclusive]); the order of
      teardown, start and configuration ([range_replaced]) and that the
      teardown leaves nothing behind ([teardown_complete]); the phases
      ([lifecycle_phases]); jobs end ([jobs_end]); recovery from a crash at any
      point ([crash_recovers]).  Exclusion of two live generations holds as
      long as no write of the phase stopping fails ([clean]);
      [failed_save_leaks_generation] is a run in which one does.
    - Exercise plans: the lint accepts exactly the documents that leave the
      management network alone and have their predicates where the package's
      mode wants them ([lint_exact]); a compiled plan is the closed form of its
      selection, valid and without a duplicate identifier ([compile_exact]); it
      depends on the set of chosen actions only ([compile_canonical]); every
      selection compiles when the empty one does ([selections_compile]);
      choosing detections does not change a verdict ([detection_transparent]),
      unless one lays a monitor-mode predicate over a deciding rule
      ([monitor_overlay_changes_verdict]).
    - Packages: validation accepts exactly the manifests, deployments, pairs of
      modes, topologies and scenarios that satisfy their declarative
      specifications ([validate_exact], [compose_exact], [cross_mode_exact],
      [topology_exact], [lab_exact], [decision_exact]); desktops are isolated
      ([delivery_isolated]); the firewall's interfaces are pinned
      ([firewall_pinned]).  [mapped_address_accepted] and
      [empty_key_hides_difference] are two inputs on which a check is weaker
      than it means to be.
    - Substation simulators, for every interleaving of HTTP, Modbus, DNP3 and
      timers: the recloser's shots, lockout and position agree and only the
      right requests close or reset it ([recloser_interlocks]); a persistent
      fault ends in lockout, a cleared one freezes the position
      ([recloser_sequence]); the relay's lockout, the wear of the capacitor
      bank and the tap and alarm of the regulator ([relay_lockout],
      [capbank_wear], [regulator_range]); a Modbus read returns its window,
      panics or is refused, exactly ([sim_reads_exact],
      [read_request_crashes]); whole connections stay within these steps
      ([recloser_connections]).
    - The RTAC with its devices: every point of its Modbus and DNP3 images
      shows the polled devices ([rtac_mirrors]); automatic control keeps its limits
      ([rtac_auto_control]); when a Modbus poll succeeds
      ([rtac_poll_exact]).

    ** What is not modelled

    Sockets, goroutine scheduling below the level of one handler, logging
    (so an outstation serves the objects of one frame at one reading of the
    clock, which the code reads for each object, and the four requests of one
    poll cycle of the RTAC see one state of the field), memory ownership of copied slices; the outstation's listener, the masters'
    dialling and name resolution, the start and shutdown of the servers.  Of
    [iec104go], the registry of file workers, the client and server
    wrappers and the command line tool; the machine of [Iec104Client] takes the
    results of [admitLeg] and the fate of received payloads as choices, so it
    covers every behaviour of the session but is not composed with the model of
    [Iec104Session]; of the field devices, the zones file
    and the HTTP interface; of the lifecycle, the JSON form of the record, the
    checks of the wiring and the process runner; of the plans, the placement
    check over YAML with aliases and the resolution of policy files; of the
    control centre, the text of its documents, the write side of HTTP and the
    sockets; of the station clock, its worker and transport; of the packages,
    the decoding of JSON and YAML, URLs and the file system, which are
    parameters; of the simulators, the text of their JSON documents, the
    health and audit pages and the loop of the RTAC's DNP3 poller.  The loading
    of curricula, the GPS simulator, the power-flow service, the historians,
    the backend's HTTP server, database, firewall client and container calls
    are not modelled.

    The development is to be extended, in this order: the loading of curricula;
    the backend's validators of scenario results; the GPS simulator and the
    historians. *)
From stdpp Require Export base list list_numbers numbers gmap.
From Stdlib Require Export ZArith Lia.
From Stdlib Require Import Btauto.

#[global] Open Scope Z_scope.

(** ** Outcomes of a Go call

    A Go function that returns [(value, error)] is an [outcome]: a value
    ([Ok]), a non-nil error ([Err]) or a run-time panic ([Panic], an index
    or a slice bound outside its operand).  [Diverge] marks a loop that ran
    out of the fuel the definition gave it; each theorem that states a result
    shows it does not occur. *)
Inductive outcome (E A : Type) : Type :=
| Ok (a : A)
| Err (e : E)
| Panic
| Diverge.

Arguments Ok {E A} a.
Arguments Err {E A} e.
Arguments Panic {E A}.
Arguments Diverge {E A}.

Definition bind {E A B} (m : outcome E A) (k : A → outcome E B) : outcome E B :=
  match m with
  | Ok a => k a
  | Err e => Err e
  | Panic => Panic
  | Diverge => Diverge
  end.

Declare Scope go_scope.
Delimit Scope go_scope with go.
#[global] Open Scope go_scope.

Notation "'let!' x ':=' c 'in' k" := (bind c (λ x, k))
  (at level 10, x name, c at level 200, k at level 200,
   format "'let!'  x  ':='  c  'in' '//' k") : go_scope.
Notation "'let!' ' p ':=' c 'in' k" := (bind c (λ p, k))
  (at level 10, p strict pattern, c at level 200, k at level 200) : go_scope.

(** [guard_err e b k]: the Go idiom [if b { return nil, e }; k]. *)
Definition guard_err {E A} (e : E) (b : bool) (k : outcome E A) : outcome E A :=
  if b then Err e else k.

(** [safe m]: the call returns, with a value or with an error. *)
Definition safe {E A} (m : outcome E A) : Prop :=
  match m with Panic | Diverge => False | _ => True end.

(** [errs P m]: an error of the call satisfies [P]. *)
Definition errs {E A} (P : E → Prop) (m : outcome E A) : Prop :=
  match m with Err e => P e | _ => True end.

(** [returns m]: the call returns a value. *)
Definition returns {E A} (m : outcome E A) : Prop := ∃ a, m = Ok a.

Definition is_ok {E A} (m : outcome E A) : bool :=
  match m with Ok _ => true | _ => false end.

(** ** Machine integers

    A [w]-bit unsigned value is a [Z] in [0 .. 2^w - 1]; a conversion to the
    type is reduction modulo [2^w]. Signed values are the two's complement
    reading of the same residue. *)
Definition u8 (z : Z) : Z := z mod 256.
Definition u16 (z : Z) : Z := z mod 65536.
Definition u32 (z : Z) : Z := z mod 4294967296.
Definition u64 (z : Z) : Z := z mod 18446744073709551616.

Definition signed (w : Z) (z : Z) : Z :=
  let r := z mod 2 ^ w in if r <? 2 ^ (w - 1) then r else r - 2 ^ w.
Definition i8 (z : Z) : Z := signed 8 z.
Definition i16 (z : Z) : Z := signed 16 z.
Definition i32 (z : Z) : Z := signed 32 z.

(** Go's [x & mask != 0]. *)
Definition has (x mask : Z) : bool := negb (Z.land x mask =? 0).

Definition is_u8 (z : Z) : Prop := 0 ≤ z < 256.
Definition is_u16 (z : Z) : Prop := 0 ≤ z < 65536.
Definition is_u32 (z : Z) : Prop := 0 ≤ z < 4294967296.

(** A well-formed octet string. *)
Definition bytes_ok (b : list Z) : Prop := Forall is_u8 b.

Definition zlen {A} (l : list A) : Z := Z.of_nat (length l).

(** ** Slices

    [idx b i] is [b[i]], [slice b i j] is [b[i:j]] and [slice_from b i] is
    [b[i:]]; each panics outside the operand's length.  (Go lets a slice
    expression reach up to the capacity; reading the bound as the length is
    the stricter condition, so a call shown [safe] here neither panics nor
    sees octets behind the slice.) *)
Definition idx {E A} (b : list A) (i : nat) : outcome E A :=
  match b !! i with Some v => Ok v | None => Panic end.

Definition slice {E A} (b : list A) (i j : nat) : outcome E (list A) :=
  if ((i <=? j) && (j <=? length b))%nat then Ok (take (j - i) (drop i b)) else Panic.

Definition slice_from {E A} (b : list A) (i : nat) : outcome E (list A) :=
  if (i <=? length b)%nat then Ok (drop i b) else Panic.

(** [encoding/binary.LittleEndian]. *)
Definition PutUint16 (v : Z) : list Z := [u8 v; u8 (Z.shiftr v 8)].
Definition PutUint32 (v : Z) : list Z :=
  [u8 v; u8 (Z.shiftr v 8); u8 (Z.shiftr v 16); u8 (Z.shiftr v 24)].

Definition Uint16 {E} (b : list Z) : outcome E Z :=
  let! b1 := idx b 1 in
  let! b0 := idx b 0 in
  Ok (Z.lor b0 (Z.shiftl b1 8)).

Definition Uint32 {E} (b : list Z) : outcome E Z :=
  let! b3 := idx b 3 in
  let! b0 := idx b 0 in
  let! b1 := idx b 1 in
  let! b2 := idx b 2 in
  Ok (Z.lor (Z.lor (Z.lor b0 (Z.shiftl b1 8)) (Z.shiftl b2 16)) (Z.shiftl b3 24)).

(** ** Streams

    An [io.Reader] over a finite octet string that then reports end of file.
    [read_full n] is [io.ReadFull]: [EOF] when nothing was read,
    [UnexpectedEOF] after a partial read. [IOFailure] is any other failure of
    a transport. *)
Inductive io_error : Type := EOF | UnexpectedEOF | IOFailure.

Definition read_full (n : nat) (r : list Z) : (list Z * list Z) + io_error :=
  if (n <=? length r)%nat then inl (take n r, drop n r)
  else match r with [] => inr EOF | _ => inr UnexpectedEOF end.

(** ** The calendar *)
Definition leap (y : Z) : bool :=
  (y mod 4 =? 0) && (negb (y mod 100 =? 0) || (y mod 400 =? 0)).

Definition days_in (y m : Z) : Z :=
  if m =? 2 then (if leap y then 29 else 28)
  else if (m =? 4) || (m =? 6) || (m =? 9) || (m =? 11) then 30 else 31.

(** Reflexive transitive closure of a step relation. *)
Inductive star {A} (R : A → A → Prop) : A → A → Prop :=
| star_refl a : star R a a
| star_step a b c : R a b → star R b c → star R a c.

Lemma star_snoc {A} (R : A → A → Prop) a b c : star R a b → R b c → star R a c.
Proof. induction 1; intros; eauto using star_refl, star_step. Qed.

(** ** Automation *)
Create HintDb go discriminated.
Create Rewrite HintDb go_wire.
#[export] Hint Unfold is_u8 is_u16 is_u32 : go.
#[export] Hint Constructors star : go.

(** Split a boolean guard of the code into the facts it decides. *)
Ltac bool_facts :=
  repeat match goal with
  | H : _ && _ = true |- _ => apply andb_true_iff in H; destruct H
  | H : _ || _ = false |- _ => apply orb_false_iff in H; destruct H
  | H : negb _ = true |- _ => apply negb_true_iff in H
  | H : negb _ = false |- _ => apply negb_false_iff in H
  | H : (_ =? _) = true |- _ => apply Z.eqb_eq in H
  | H : (_ =? _) = false |- _ => apply Z.eqb_neq in H
  | H : (_ <? _) = true |- _ => apply Z.ltb_lt in H
  | H : (_ <? _) = false |- _ => apply Z.ltb_ge in H
  | H : (_ <=? _) = true |- _ => apply Z.leb_le in H
  | H : (_ <=? _) = false |- _ => apply Z.leb_gt in H
  | H : (_ <=? _)%nat = true |- _ => apply Nat.leb_le in H
  | H : (_ <=? _)%nat = false |- _ => apply Nat.leb_gt in H
  | H : (_ <? _)%nat = true |- _ => apply Nat.ltb_lt in H
  | H : (_ <? _)%nat = false |- _ => apply Nat.ltb_ge in H
  | H : (_ =? _)%nat = true |- _ => apply Nat.eqb_eq in H
  | H : (_ =? _)%nat = false |- _ => apply Nat.eqb_neq in H
  end.

(** Case on the innermost test a definition branches on. *)
Ltac case_if :=
  match goal with
  | |- context [if ?b then _ else _] => let E := fresh "Hif" in destruct b eqn:E
  end.

Ltac case_if_in H :=
  match type of H with
  | context [if ?b then _ else _] => let E := fresh "Hif" in destruct b eqn:E
  end.

Lemma bind_Ok {E A B} (m : outcome E A) (k : A → outcome E B) v :
  bind m k = Ok v ↔ ∃ a, m = Ok a ∧ k a = Ok v.
Proof. destruct m; naive_solver. Qed.

Lemma bind_safe {E A B} (m : outcome E A) (k : A → outcome E B) :
  safe m → (∀ a, m = Ok a → safe (k a)) → safe (bind m k).
Proof. destruct m; naive_solver. Qed.

Lemma bind_returns {E A B} (m : outcome E A) (k : A → outcome E B) :
  returns m → (∀ a, m = Ok a → returns (k a)) → returns (bind m k).
Proof. intros [a ->] Hk. by apply Hk. Qed.

Lemma Ok_returns {E A} (a : A) : returns (E := E) (Ok a).
Proof. by eexists. Qed.

Lemma guard_err_Ok {E A} (e : E) b (k : outcome E A) v :
  guard_err e b k = Ok v ↔ b = false ∧ k = Ok v.
Proof. destruct b; simpl; naive_solver. Qed.

Lemma guard_err_safe {E A} (e : E) b (k : outcome E A) :
  (b = false → safe k) → safe (guard_err e b k).
Proof. destruct b; simpl; naive_solver. Qed.

Lemma bind_errs {E A B} (P : E → Prop) (m : outcome E A) (k : A → outcome E B) :
  errs P m → (∀ a, m = Ok a → errs P (k a)) → errs P (bind m k).
Proof. destruct m; naive_solver. Qed.

Lemma guard_err_errs {E A} (P : E → Prop) (e : E) b (k : outcome E A) :
  P e → errs P k → errs P (guard_err e b k).
Proof. by destruct b. Qed.

Lemma idx_safe {E A} (b : list A) i : (i < length b)%nat → safe (E := E) (idx b i).
Proof. unfold idx. intros [x ->]%lookup_lt_is_Some. done. Qed.

Lemma slice_safe {E A} (b : list A) i j :
  (i ≤ j)%nat → (j ≤ length b)%nat → safe (E := E) (slice b i j).
Proof. intros. unfold slice. case_if; bool_facts; simpl; [done|].
  apply andb_false_iff in Hif as [?|?]; bool_facts; lia. Qed.

Lemma slice_from_safe {E A} (b : list A) i :
  (i ≤ length b)%nat → safe (E := E) (slice_from b i).
Proof. intros. unfold slice_from. case_if; bool_facts; simpl; [done|lia]. Qed.

Lemma slice_Ok {E A} (b : list A) i j v :
  slice (E := E) b i j = Ok v → v = take (j - i) (drop i b) ∧ (i ≤ j ≤ length b)%nat.
Proof. unfold slice. case_if; [|done]. bool_facts. naive_solver. Qed.

Lemma slice_from_Ok {E A} (b : list A) i v :
  slice_from (E := E) b i = Ok v → v = drop i b ∧ (i ≤ length b)%nat.
Proof. unfold slice_from. case_if; [|done]. bool_facts. naive_solver. Qed.

Lemma idx_Ok {E A} (b : list A) i v : idx (E := E) b i = Ok v ↔ b !! i = Some v.
Proof. unfold idx. destruct (b !! i); naive_solver. Qed.

Lemma idx_returns {E A} (b : list A) i : (i < length b)%nat → returns (E := E) (idx b i).
Proof. unfold idx. intros [x ->]%lookup_lt_is_Some. by eexists. Qed.

Lemma slice_returns {E A} (b : list A) i j :
  (i ≤ j)%nat → (j ≤ length b)%nat → returns (E := E) (slice b i j).
Proof. intros Hi Hj. pose proof (slice_safe (E := E) b i j Hi Hj) as H. unfold slice in *.
  case_if; [by eexists|done]. Qed.

(** Reads at a known position of a concatenation. *)
Lemma idx_at {E A} (pre : list A) x post i :
  i = length pre → idx (E := E) (pre ++ x :: post) i = Ok x.
Proof. intros ->. unfold idx. by rewrite list_lookup_middle. Qed.

Lemma idx_app {E A} (pre post : list A) i k :
  i = (length pre + k)%nat → idx (E := E) (pre ++ post) i = idx post k.
Proof. intros ->. unfold idx. rewrite lookup_app_r by lia.
  by replace (length pre + k - length pre)%nat with k by lia. Qed.

Lemma slice_at {E A} (pre mid post : list A) i j :
  i = length pre → j = (length pre + length mid)%nat →
  slice (E := E) (pre ++ mid ++ post) i j = Ok mid.
Proof.
  intros -> ->. unfold slice. rewrite !length_app.
  replace ((_ <=? _) && (_ <=? _))%nat with true
    by (symmetry; apply andb_true_iff; rewrite !Nat.leb_le; lia).
  rewrite drop_app_length, Nat.add_comm, Nat.add_sub. by rewrite take_app_length.
Qed.

Lemma slice_from_at {E A} (pre post : list A) i :
  i = length pre → slice_from (E := E) (pre ++ post) i = Ok post.
Proof.
  intros ->. unfold slice_from. rewrite length_app.
  replace (_ <=? _)%nat with true by (symmetry; apply Nat.leb_le; lia).
  by rewrite drop_app_length.
Qed.

(** [safe] of straight-line code: guards, branches and reads whose bounds
    follow from the guards. *)
Ltac safe_tac :=
  repeat (cbv zeta; lazymatch goal with
  | |- safe (guard_err _ _ _) => apply guard_err_safe; intros; bool_facts
  | |- safe (bind _ _) => apply bind_safe; [|intros]
  | |- safe (idx _ _) => apply idx_safe; lia
  | |- safe (slice _ _ _) => apply slice_safe; lia
  | |- safe (slice_from _ _) => apply slice_from_safe; lia
  | |- safe (if _ then _ else _) => case_if
  | |- safe (Ok _) => exact I
  | |- safe (Err _) => exact I
  | |- safe (let '(_, _) := ?p in _) => destruct p
  end).

Ltac returns_tac :=
  repeat (cbv zeta; lazymatch goal with
  | |- returns (bind _ _) => apply bind_returns; [|intros]
  | |- returns (idx _ _) => apply idx_returns; lia
  | |- returns (slice _ _ _) => apply slice_returns; lia
  | |- returns (if _ then _ else _) => case_if
  | |- returns (Ok _) => apply Ok_returns
  | |- returns (let '(_, _) := ?p in _) => destruct p
  end).

(** The errors of straight-line code. *)
Ltac errs_tac :=
  repeat (cbv zeta; lazymatch goal with
  | |- errs _ (guard_err _ _ _) => apply guard_err_errs
  | |- errs _ (bind _ _) => apply bind_errs; [|intros]
  | |- errs _ (idx ?b ?i) => unfold idx; destruct (b !! i); exact I
  | |- errs _ (slice _ _ _) => unfold slice
  | |- errs _ (slice_from _ _) => unfold slice_from
  | |- errs _ (if _ then _ else _) => case_if
  | |- errs _ (Ok _) => exact I
  | |- errs _ Panic => exact I
  | |- errs _ Diverge => exact I
  | |- errs _ (Err _) => cbn
  | |- errs _ (let '(_, _) := ?p in _) => destruct p
  end).

(** The rest of a call only builds its value. *)
Ltac ret := intros; repeat match goal with p : _ * _ |- _ => destruct p end; apply Ok_returns.

#[export] Hint Resolve idx_safe slice_safe slice_from_safe : go.

(** Peel the binds of a hypothesis [m = Ok v]. *)
Ltac inv_ok H :=
  repeat first
    [ apply bind_Ok in H as (? & ? & H)
    | apply guard_err_Ok in H as [? H] ].

(** ** Ranges *)
Lemma u8_range z : is_u8 (u8 z).
Proof. unfold u8, is_u8. apply Z.mod_pos_bound. lia. Qed.
Lemma u16_range z : is_u16 (u16 z).
Proof. unfold u16, is_u16. apply Z.mod_pos_bound. lia. Qed.
Lemma u32_range z : is_u32 (u32 z).
Proof. unfold u32, is_u32. apply Z.mod_pos_bound. lia. Qed.
Lemma u8_small z : is_u8 z → u8 z = z.
Proof. apply Z.mod_small. Qed.
Lemma u16_small z : is_u16 z → u16 z = z.
Proof. apply Z.mod_small. Qed.
#[export] Hint Resolve u8_range u16_range u32_range : go.

(** A property of every octet (of every value below [n]) checked by running it. *)
Lemma range_forall (n : Z) (P : Z → bool) :
  forallb P (seqZ 0 n) = true → ∀ z, 0 ≤ z < n → P z = true.
Proof.
  intros H z Hz. rewrite forallb_forall in H. apply H.
  apply list_elem_of_In, elem_of_seqZ. lia.
Qed.

Lemma bytes_ok_app a b : bytes_ok (a ++ b) ↔ bytes_ok a ∧ bytes_ok b.
Proof. apply Forall_app. Qed.
Lemma bytes_ok_take n b : bytes_ok b → bytes_ok (take n b).
Proof. apply Forall_take. Qed.
Lemma bytes_ok_drop n b : bytes_ok b → bytes_ok (drop n b).
Proof. apply Forall_drop. Qed.
Lemma bytes_ok_lookup b i v : bytes_ok b → b !! i = Some v → is_u8 v.
Proof. intros Hb Hi. by eapply Forall_lookup_1 in Hi. Qed.
#[export] Hint Resolve bytes_ok_take bytes_ok_drop bytes_ok_lookup : go.

(** Well-formedness of an octet string written out. *)
Ltac octets :=
  repeat first [ apply bytes_ok_app; split | apply Forall_nil_2 | apply Forall_cons_2 ];
  auto with go; try (unfold is_u8; lia); try (split; by vm_compute).

(** ** Bits *)
Lemma testbit_above z n i : 0 ≤ z < 2 ^ n → 0 ≤ n → n ≤ i → Z.testbit z i = false.
Proof.
  intros Hz Hn Hi. rewrite <- (Z.mod_small z (2 ^ n)) by done.
  apply Z.mod_pow2_bits_high. lia.
Qed.

Lemma land_shiftl_disjoint a b n :
  0 ≤ n → 0 ≤ a < 2 ^ n → Z.land a (Z.shiftl b n) = 0.
Proof.
  intros Hn Ha. apply Z.bits_inj'. intros i Hi.
  rewrite Z.land_spec, Z.bits_0.
  destruct (decide (i < n)).
  - rewrite (Z.shiftl_spec_low b n i) by lia. by rewrite andb_false_r.
  - by rewrite (testbit_above a n i) by lia.
Qed.

(** Disjoint fields: [a | b << n] is addition when [a] fits below bit [n]. *)
Lemma lor_shiftl_add a b n :
  0 ≤ n → 0 ≤ a < 2 ^ n → Z.lor a (Z.shiftl b n) = a + b * 2 ^ n.
Proof.
  intros Hn Ha. rewrite <- Z.shiftl_mul_pow2 by lia.
  rewrite <- Z.lxor_lor by by apply land_shiftl_disjoint.
  rewrite Z.add_nocarry_lxor; [done|by apply land_shiftl_disjoint].
Qed.

(** Linear arithmetic with [/] and [mod] by constants. *)
Ltac modlia := Z.div_mod_to_equations; lia.

(** ** Little-endian round trips *)
Definition le16 (b0 b1 : Z) : Z := Z.lor b0 (Z.shiftl b1 8).

Lemma le16_add b0 b1 : is_u8 b0 → le16 b0 b1 = b0 + b1 * 256.
Proof. intros. unfold le16. by rewrite lor_shiftl_add by (simpl; unfold is_u8 in *; lia). Qed.

Lemma le16_range b0 b1 : is_u8 b0 → is_u8 b1 → is_u16 (le16 b0 b1).
Proof. intros. rewrite le16_add by done. unfold is_u8, is_u16 in *. lia. Qed.

Lemma le16_bytes v : is_u16 v → le16 (u8 v) (u8 (Z.shiftr v 8)) = v.
Proof.
  intros Hv. rewrite le16_add by apply u8_range.
  unfold u8, is_u16 in *. rewrite Z.shiftr_div_pow2 by lia. change (2 ^ 8) with 256. modlia.
Qed.

Lemma le16_low b0 b1 : is_u8 b0 → u8 (le16 b0 b1) = b0.
Proof. intros. rewrite le16_add by done. unfold u8, is_u8 in *. modlia. Qed.

Lemma le16_high b0 b1 : is_u8 b0 → is_u8 b1 → u8 (Z.shiftr (le16 b0 b1) 8) = b1.
Proof.
  intros. rewrite le16_add, Z.shiftr_div_pow2 by (done || lia).
  unfold u8, is_u8 in *. change (2 ^ 8) with 256. modlia.
Qed.

Definition le32 (b0 b1 b2 b3 : Z) : Z :=
  Z.lor (Z.lor (Z.lor b0 (Z.shiftl b1 8)) (Z.shiftl b2 16)) (Z.shiftl b3 24).

Lemma le32_add b0 b1 b2 b3 : is_u8 b0 → is_u8 b1 → is_u8 b2 →
  le32 b0 b1 b2 b3 = b0 + b1 * 256 + b2 * 65536 + b3 * 16777216.
Proof.
  unfold is_u8, le32. intros.
  rewrite (lor_shiftl_add b0 b1 8) by (simpl; lia). change (2 ^ 8) with 256.
  rewrite (lor_shiftl_add _ b2 16) by (simpl; lia). change (2 ^ 16) with 65536.
  rewrite (lor_shiftl_add _ b3 24) by (simpl; lia). done.
Qed.

Lemma le32_bytes v : is_u32 v →
  le32 (u8 v) (u8 (Z.shiftr v 8)) (u8 (Z.shiftr v 16)) (u8 (Z.shiftr v 24)) = v.
Proof.
  intros Hv. rewrite le32_add by apply u8_range.
  unfold u8, is_u32 in *. rewrite !Z.shiftr_div_pow2 by lia.
  change (2 ^ 8) with 256. change (2 ^ 16) with 65536. change (2 ^ 24) with 16777216. modlia.
Qed.

Lemma le32_split b0 b1 b2 b3 :
  is_u8 b0 → is_u8 b1 → is_u8 b2 → is_u8 b3 →
  PutUint32 (le32 b0 b1 b2 b3) = [b0; b1; b2; b3].
Proof.
  intros. unfold PutUint32. rewrite le32_add by done. rewrite !Z.shiftr_div_pow2 by lia.
  unfold u8, is_u8 in *.
  change (2 ^ 8) with 256. change (2 ^ 16) with 65536. change (2 ^ 24) with 16777216.
  repeat f_equal; modlia.
Qed.

Lemma le32_range b0 b1 b2 b3 :
  is_u8 b0 → is_u8 b1 → is_u8 b2 → is_u8 b3 → is_u32 (le32 b0 b1 b2 b3).
Proof. intros. rewrite le32_add by done. unfold is_u8, is_u32 in *. lia. Qed.

Lemma le16_split b0 b1 : is_u8 b0 → is_u8 b1 → PutUint16 (le16 b0 b1) = [b0; b1].
Proof. intros. unfold PutUint16. by rewrite le16_low, le16_high. Qed.

Lemma PutUint16_ok v : bytes_ok (PutUint16 v).
Proof. repeat constructor; apply u8_range. Qed.
Lemma PutUint32_ok v : bytes_ok (PutUint32 v).
Proof. repeat constructor; apply u8_range. Qed.

Lemma Uint16_cons {E} b0 b1 rest : Uint16 (E := E) (b0 :: b1 :: rest) = Ok (le16 b0 b1).
Proof. done. Qed.
Lemma Uint32_cons {E} b0 b1 b2 b3 rest :
  Uint32 (E := E) (b0 :: b1 :: b2 :: b3 :: rest) = Ok (le32 b0 b1 b2 b3).
Proof. done. Qed.

#[export] Hint Resolve PutUint16_ok PutUint32_ok le16_range le32_range : go.
#[export] Hint Rewrite @Uint16_cons @Uint32_cons : go_wire.

(** ** Signed values *)
Lemma i16_u16 v : -32768 ≤ v < 32768 → i16 (u16 v) = v.
Proof.
  intros. unfold i16, u16, signed. change (2 ^ 16) with 65536. change (2 ^ (16 - 1)) with 32768.
  rewrite Zmod_mod. case_if; bool_facts; modlia.
Qed.
Lemma i32_u32 v : -2147483648 ≤ v < 2147483648 → i32 (u32 v) = v.
Proof.
  intros. unfold i32, u32, signed. change (2 ^ 32) with 4294967296.
  change (2 ^ (32 - 1)) with 2147483648.
  rewrite Zmod_mod. case_if; bool_facts; modlia.
Qed.
Lemma u16_i16 v : is_u16 v → u16 (i16 v) = v.
Proof.
  unfold is_u16, i16, u16, signed. change (2 ^ 16) with 65536. change (2 ^ (16 - 1)) with 32768.
  intros. case_if; bool_facts; modlia.
Qed.
Lemma u32_i32 v : is_u32 v → u32 (i32 v) = v.
Proof.
  unfold is_u32, i32, u32, signed. change (2 ^ 32) with 4294967296.
  change (2 ^ (32 - 1)) with 2147483648. intros. case_if; bool_facts; modlia.
Qed.

(** ** Streams *)
Lemma read_full_app a b : read_full (length a) (a ++ b) = inl (a, b).
Proof.
  unfold read_full. rewrite length_app.
  replace (length a <=? length a + length b)%nat with true by (symmetry; apply Nat.leb_le; lia).
  by rewrite take_app_length, drop_app_length.
Qed.

Lemma read_full_app' n a b : length a = n → read_full n (a ++ b) = inl (a, b).
Proof. intros <-. apply read_full_app. Qed.

Lemma read_full_inl n r a r' :
  read_full n r = inl (a, r') → r = a ++ r' ∧ length a = n.
Proof.
  unfold read_full. case_if; [|by destruct r]. bool_facts. intros [= <- <-].
  by rewrite take_drop, length_take_le.
Qed.
