(* ===== verification/Dnp3Crc.v ===== *)
(** * CRC-16/DNP (dnp3go/crc.go)

    The table the package's [init] builds, the table-driven checksum, and the
    append and verify helpers of the data link layer.  The checksum is shown
    equal to the bit-serial definition of the polynomial, and to detect every
    error confined to two adjacent octets. *)
From S2P Require Import Prelude.

(** [poly], the reflected form of 0x3D65. *)
Definition crc_poly : Z := 0xA6BC.

(** One round of the inner loop of [init]. *)
Definition crc_round (crc : Z) : Z :=
  if has crc 1 then Z.lxor (Z.shiftr crc 1) crc_poly else Z.shiftr crc 1.

(** The eight rounds that make the table entry of [i]. *)
Definition crc_entry (i : Z) : Z := Nat.iter 8 crc_round (u16 i).

Definition crcTable : list Z := crc_entry <$> seqZ 0 256.

(** [crc = (crc >> 8) ^ crcTable[byte(crc)^b]]. *)
Definition crc_update (crc b : Z) : Z :=
  Z.lxor (Z.shiftr crc 8) (crcTable !!! Z.to_nat (Z.lxor (u8 crc) b)).

Definition crcDNP (data : list Z) : Z :=
  Z.lxor (fold_left crc_update data 0) 0xFFFF.

Definition appendCRC (data : list Z) : list Z :=
  let c := crcDNP data in data ++ [u8 c; u8 (Z.shiftr c 8)].

Definition verifyCRC (data : list Z) : bool :=
  if (length data <? 3)%nat then false
  else
    let payload := take (length data - 2) data in
    let got := Z.lor (data !!! (length data - 2)%nat)
                     (Z.shiftl (data !!! (length data - 1)%nat) 8) in
    crcDNP payload =? got.

(** The bit-serial reference: shift the register eight times per octet. *)
Definition crc_serial (crc b : Z) : Z := Nat.iter 8 crc_round (Z.lxor crc b).

Definition crc_reference (data : list Z) : Z :=
  Z.lxor (fold_left crc_serial data 0) 0xFFFF.

Lemma fold_left_pair {A B} (f : A → B → A) x y a : fold_left f [x; y] a = f (f a x) y.
Proof. done. Qed.
Lemma fold_left_cons {A B} (f : A → B → A) x l a : fold_left f (x :: l) a = fold_left f l (f a x).
Proof. done. Qed.

(** ** The register is linear *)
Lemma has_1 x : has x 1 = Z.odd x.
Proof.
  unfold has. change 1 with (Z.ones 1). rewrite Z.land_ones by lia.
  change (2 ^ 1) with 2. rewrite Zmod_odd. by destruct (Z.odd x).
Qed.

Lemma crc_round_lxor x y : crc_round (Z.lxor x y) = Z.lxor (crc_round x) (crc_round y).
Proof.
  unfold crc_round. rewrite !has_1, <- !Z.bit0_odd, Z.lxor_spec, Z.shiftr_lxor.
  destruct (Z.testbit x 0), (Z.testbit y 0); simpl xorb; cbv iota.
  - rewrite (Z.lxor_assoc (Z.shiftr x 1)), <- (Z.lxor_assoc crc_poly), (Z.lxor_comm crc_poly).
    by rewrite Z.lxor_assoc, Z.lxor_nilpotent, Z.lxor_0_r.
  - by rewrite !Z.lxor_assoc, (Z.lxor_comm crc_poly).
  - by rewrite Z.lxor_assoc.
  - done.
Qed.

Lemma crc_rounds_lxor n x y :
  Nat.iter n crc_round (Z.lxor x y) = Z.lxor (Nat.iter n crc_round x) (Nat.iter n crc_round y).
Proof. induction n as [|n IH]; simpl; [done|]. by rewrite IH, crc_round_lxor. Qed.

(** A register whose low bits are zero is only shifted. *)
Lemma crc_round_shiftl h n : 0 ≤ n → crc_round (Z.shiftl h (n + 1)) = Z.shiftl h n.
Proof.
  intros. unfold crc_round. rewrite has_1, <- Z.bit0_odd, Z.shiftl_spec_low by lia.
  rewrite Z.shiftr_shiftl_l by lia. f_equal. lia.
Qed.

Lemma crc_rounds_shiftl_gen h n : Nat.iter n crc_round (Z.shiftl h (Z.of_nat n)) = h.
Proof.
  induction n as [|n IH]; [apply Z.shiftl_0_r|].
  rewrite Nat.iter_succ_r, Nat2Z.inj_succ, <- Z.add_1_r, crc_round_shiftl by lia. done.
Qed.

Lemma crc_rounds_shiftl h : Nat.iter 8 crc_round (Z.shiftl h 8) = h.
Proof. apply (crc_rounds_shiftl_gen h 8). Qed.

Lemma split_low_byte c : c = Z.lxor (u8 c) (Z.shiftl (Z.shiftr c 8) 8).
Proof.
  rewrite <- Z.add_nocarry_lxor.
  - unfold u8. rewrite Z.shiftl_mul_pow2, Z.shiftr_div_pow2 by lia. change (2 ^ 8) with 256. modlia.
  - apply land_shiftl_disjoint; [lia|]. apply u8_range.
Qed.

Lemma lxor_below n x y : 0 ≤ n → 0 ≤ x < 2 ^ n → 0 ≤ y < 2 ^ n → 0 ≤ Z.lxor x y < 2 ^ n.
Proof.
  intros Hn Hx Hy. split; [apply Z.lxor_nonneg; lia|].
  assert (Z.lxor x y mod 2 ^ n = Z.lxor x y) as <-; [|apply Z.mod_pos_bound; lia].
  apply Z.bits_inj'. intros i Hi. destruct (decide (i < n)).
  - by rewrite Z.mod_pow2_bits_low by lia.
  - by rewrite Z.mod_pow2_bits_high, Z.lxor_spec, !(testbit_above _ n) by lia.
Qed.

Lemma lxor_u8 x y : is_u8 x → is_u8 y → is_u8 (Z.lxor x y).
Proof. apply (lxor_below 8). lia. Qed.

Lemma crcTable_lookup i : is_u8 i → crcTable !!! Z.to_nat i = crc_entry i.
Proof.
  intros Hi. apply Z.eqb_eq.
  apply (range_forall 256 (λ i, crcTable !!! Z.to_nat i =? crc_entry i)); [|done].
  vm_compute. reflexivity.
Qed.

Lemma crc_entry_u8 i : is_u8 i → crc_entry i = Nat.iter 8 crc_round i.
Proof. intros Hi. unfold crc_entry. rewrite u16_small; [done|unfold is_u8, is_u16 in *; lia]. Qed.

Lemma crc_update_serial c b : is_u8 b → crc_update c b = crc_serial c b.
Proof.
  intros Hb. unfold crc_update, crc_serial.
  pose proof (lxor_u8 (u8 c) b (u8_range c) Hb).
  rewrite crcTable_lookup, crc_entry_u8 by done.
  rewrite (split_low_byte c) at 3.
  rewrite Z.lxor_assoc, (Z.lxor_comm (Z.shiftl _ _)), <- Z.lxor_assoc.
  by rewrite (crc_rounds_lxor 8 (Z.lxor _ _)), crc_rounds_shiftl, Z.lxor_comm.
Qed.

Lemma crc_fold_serial data c :
  bytes_ok data → fold_left crc_update data c = fold_left crc_serial data c.
Proof.
  intros Hd. revert c. induction Hd as [|b data Hb Hd IH]; intros c; simpl; [done|].
  by rewrite IH, crc_update_serial.
Qed.

(** ** The register is a permutation of the 16-bit values *)
Lemma crc_round_range x : is_u16 x → is_u16 (crc_round x).
Proof.
  intros Hx. unfold crc_round, is_u16 in *.
  assert (0 ≤ Z.shiftr x 1 < 65536)
    by (rewrite Z.shiftr_div_pow2 by lia; change (2 ^ 1) with 2; modlia).
  case_if; [|done]. apply (lxor_below 16); unfold crc_poly; lia.
Qed.

Lemma crc_rounds_range n x : is_u16 x → is_u16 (Nat.iter n crc_round x).
Proof. intros. induction n; simpl; auto using crc_round_range. Qed.

Lemma crc_round_bit15 x : is_u16 x → Z.testbit (crc_round x) 15 = Z.odd x.
Proof.
  intros Hx. unfold crc_round. rewrite has_1.
  assert (Z.testbit (Z.shiftr x 1) 15 = false) as Hs.
  { rewrite Z.shiftr_spec by lia. apply (testbit_above _ 16); unfold is_u16 in *; lia. }
  destruct (Z.odd x); [|done]. by rewrite Z.lxor_spec, Hs.
Qed.

Lemma crc_round_inj x y : is_u16 x → is_u16 y → crc_round x = crc_round y → x = y.
Proof.
  intros Hx Hy Heq.
  assert (Z.odd x = Z.odd y) as Hodd by (rewrite <- !crc_round_bit15, Heq; done).
  assert (Z.shiftr x 1 = Z.shiftr y 1) as Hs.
  { unfold crc_round in Heq. rewrite !has_1, <- Hodd in Heq. destruct (Z.odd x); [|done].
    apply (f_equal (λ z, Z.lxor z crc_poly)) in Heq.
    by rewrite !Z.lxor_assoc, Z.lxor_nilpotent, !Z.lxor_0_r in Heq. }
  rewrite !Z.shiftr_div_pow2 in Hs by lia. change (2 ^ 1) with 2 in Hs.
  rewrite (Z.div_mod x 2), (Z.div_mod y 2), !Zmod_odd, Hodd, Hs by lia. done.
Qed.

Lemma crc_rounds_inj n x y : is_u16 x → is_u16 y →
  Nat.iter n crc_round x = Nat.iter n crc_round y → x = y.
Proof.
  intros Hx Hy. induction n as [|n IH]; simpl; [done|]. intros Heq.
  apply IH, crc_round_inj; auto using crc_rounds_range.
Qed.

Lemma u8_u16 z : is_u8 z → is_u16 z.
Proof. unfold is_u8, is_u16. lia. Qed.
#[export] Hint Resolve u8_u16 : go.

Lemma lxor_u16 x y : is_u16 x → is_u16 y → is_u16 (Z.lxor x y).
Proof. apply (lxor_below 16). lia. Qed.

Lemma lxor_inj_l x y b : Z.lxor x b = Z.lxor y b → x = y.
Proof.
  intros Heq. apply (f_equal (λ z, Z.lxor z b)) in Heq.
  by rewrite !Z.lxor_assoc, Z.lxor_nilpotent, !Z.lxor_0_r in Heq.
Qed.

Lemma lxor_inj_r x a b : Z.lxor x a = Z.lxor x b → a = b.
Proof. rewrite !(Z.lxor_comm x). apply lxor_inj_l. Qed.

Lemma crc_serial_range c b : is_u16 c → is_u8 b → is_u16 (crc_serial c b).
Proof. intros. apply crc_rounds_range, lxor_u16; auto with go. Qed.

Lemma crc_serial_inj c c' b : is_u16 c → is_u16 c' → is_u8 b →
  crc_serial c b = crc_serial c' b → c = c'.
Proof.
  intros ??? Heq. apply (lxor_inj_l _ _ b), (crc_rounds_inj 8); auto using lxor_u16 with go.
Qed.

Lemma crc_fold_range data c :
  is_u16 c → bytes_ok data → is_u16 (fold_left crc_serial data c).
Proof.
  intros Hc Hd. revert c Hc. induction Hd; simpl; auto using crc_serial_range.
Qed.

Lemma crc_fold_inj data c c' : is_u16 c → is_u16 c' → bytes_ok data →
  fold_left crc_serial data c = fold_left crc_serial data c' → c = c'.
Proof.
  intros Hc Hc' Hd. revert c c' Hc Hc'. induction Hd as [|b data Hb Hd IH]; simpl; [done|].
  intros c c' Hc Hc' Heq. apply IH in Heq; auto using crc_serial_range.
  eauto using crc_serial_inj.
Qed.

Lemma crcDNP_range data : bytes_ok data → is_u16 (crcDNP data).
Proof.
  intros. unfold crcDNP. rewrite crc_fold_serial by done.
  apply lxor_u16; [apply crc_fold_range; [unfold is_u16; lia|done]|unfold is_u16; lia].
Qed.

Lemma crcDNP_fold_inj data data' : bytes_ok data → bytes_ok data' →
  crcDNP data = crcDNP data' → fold_left crc_serial data 0 = fold_left crc_serial data' 0.
Proof. intros ?? Heq. unfold crcDNP in Heq. rewrite !crc_fold_serial in Heq by done.
  by apply lxor_inj_l in Heq. Qed.

(** Two octets enter the register as one 16-bit value. *)
Lemma crc_serial_pair c b1 b2 : is_u8 b1 →
  crc_serial (crc_serial c b1) b2 = Nat.iter 16 crc_round (Z.lxor c (le16 b1 b2)).
Proof.
  intros Hb1. unfold crc_serial at 1.
  rewrite <- (crc_rounds_shiftl b2) at 1. unfold crc_serial.
  rewrite <- crc_rounds_lxor, <- Nat.iter_add. simpl Nat.add.
  f_equal. rewrite Z.lxor_assoc. f_equal. unfold le16.
  by rewrite Z.lxor_lor by (apply land_shiftl_disjoint; [lia|apply Hb1]).
Qed.

(** ** Checksums of a received block *)
Lemma appendCRC_length data : length (appendCRC data) = (length data + 2)%nat.
Proof. unfold appendCRC. by rewrite length_app. Qed.

Lemma verifyCRC_app p lo hi : p ≠ [] →
  verifyCRC (p ++ [lo; hi]) = (crcDNP p =? le16 lo hi).
Proof.
  intros Hp. unfold verifyCRC. rewrite length_app. simpl length.
  assert (length p ≠ 0%nat) by by destruct p.
  replace (length p + 2 <? 3)%nat with false by (symmetry; apply Nat.ltb_ge; lia).
  replace (length p + 2 - 2)%nat with (length p) by lia.
  replace (length p + 2 - 1)%nat with (length p + 1)%nat by lia.
  rewrite take_app_length, !list_lookup_total_alt, list_lookup_middle by done.
  rewrite lookup_app_r, Nat.add_comm, Nat.add_sub by lia. done.
Qed.

Lemma verify_appendCRC data : bytes_ok data → data ≠ [] → verifyCRC (appendCRC data) = true.
Proof.
  intros Hd Hne. unfold appendCRC. rewrite verifyCRC_app by done.
  rewrite le16_bytes by by apply crcDNP_range. apply Z.eqb_refl.
Qed.

(** The table-driven checksum of crc.go equals the bit-serial CRC of the
    reflected polynomial 0xA6BC (initial value 0, final complement) on every
    octet string. *)
Theorem crcDNP_bitwise (data : list Z) :
  bytes_ok data → crcDNP data = crc_reference data.
Proof. intros. unfold crcDNP, crc_reference. by rewrite crc_fold_serial. Qed.

Lemma crcDNP_bitwise_witness :
  crcDNP [5; 100; 5; 192; 1; 0; 0; 4] = crc_reference [5; 100; 5; 192; 1; 0; 0; 4].
Proof. apply crcDNP_bitwise. octets. Defined.

(** Two octet strings that differ only inside a window of two adjacent
    octets never have the same checksum: every error burst of up to two
    octets is visible to the receiver. *)
Theorem crcDNP_detects_burst (pre post : list Z) (a1 a2 b1 b2 : Z) :
  bytes_ok (pre ++ [a1; a2] ++ post) → bytes_ok (pre ++ [b1; b2] ++ post) →
  (a1, a2) ≠ (b1, b2) →
  crcDNP (pre ++ [a1; a2] ++ post) ≠ crcDNP (pre ++ [b1; b2] ++ post).
Proof.
  intros Ha Hb Hne Heq. apply crcDNP_fold_inj in Heq; [|done..].
  rewrite !fold_left_app in Heq.
  rewrite !bytes_ok_app in Ha, Hb. destruct Ha as (Hpre & Ha & Hpost), Hb as (_ & Hb & _).
  unfold bytes_ok in Ha, Hb. rewrite !Forall_cons in Ha, Hb.
  destruct Ha as (Ha1 & Ha2 & _), Hb as (Hb1 & Hb2 & _).
  assert (is_u16 (fold_left crc_serial pre 0)) as Hc
    by (apply crc_fold_range; [unfold is_u16; lia|done]).
  apply crc_fold_inj in Heq; [|apply crc_fold_range; [done|octets]..|done].
  rewrite !fold_left_pair, !crc_serial_pair in Heq by done.
  apply crc_rounds_inj in Heq; [|auto using lxor_u16, le16_range..].
  apply lxor_inj_r in Heq.
  apply Hne. f_equal.
  - rewrite <- (le16_low a1 a2) by done. rewrite Heq. by apply le16_low.
  - rewrite <- (le16_high a1 a2) by done. rewrite Heq. by apply le16_high.
Qed.

Lemma crcDNP_detects_burst_witness :
  crcDNP ([5] ++ [100; 5] ++ [192]) ≠ crcDNP ([5] ++ [101; 7] ++ [192]).
Proof. apply crcDNP_detects_burst; [octets..|done]. Defined.

(** One corrupted octet is a corrupted window, wherever it is. *)
Lemma crcDNP_single pre post a b :
  bytes_ok (pre ++ a :: post) → is_u8 b → a ≠ b →
  crcDNP (pre ++ a :: post) ≠ crcDNP (pre ++ b :: post).
Proof.
  intros Ha Hb Hne Heq. apply bytes_ok_app in Ha as [Hpre Ha].
  apply Forall_cons in Ha as [Ha Hpost].
  apply crcDNP_fold_inj in Heq;
    [|apply bytes_ok_app; split; [done|by constructor]..].
  rewrite !fold_left_app, !fold_left_cons in Heq.
  assert (is_u16 (fold_left crc_serial pre 0)) as Hc
    by (apply crc_fold_range; [unfold is_u16; lia|done]).
  apply crc_fold_inj in Heq; [|auto using crc_serial_range..].
  apply crc_rounds_inj in Heq; [|auto using lxor_u16 with go..].
  by apply lxor_inj_r in Heq.
Qed.

(** A block with its checksum, one octet of it replaced, does not verify. *)
Lemma appendCRC_corrupt data i v old :
  bytes_ok data → data ≠ [] → is_u8 v → appendCRC data !! i = Some old → old ≠ v →
  verifyCRC (<[i:=v]> (appendCRC data)) = false.
Proof.
  intros Hd Hne Hv Hi Hold. unfold appendCRC in *.
  destruct (decide (i < length data)%nat) as [Hlt|Hge].
  - rewrite insert_app_l by done. rewrite lookup_app_l in Hi by done.
    rewrite verifyCRC_app.
    2:{ intros Hnil. apply (f_equal length) in Hnil. rewrite length_insert in Hnil.
        by destruct data. }
    rewrite le16_bytes by by apply crcDNP_range.
    apply Z.eqb_neq. apply not_eq_sym.
    rewrite <- (take_drop_middle data i old) at 1 by done.
    rewrite (insert_take_drop data i v) by done.
    apply crcDNP_single; [by rewrite take_drop_middle|done..].
  - rewrite insert_app_r_alt by lia. rewrite lookup_app_r in Hi by lia.
    destruct (i - length data)%nat as [|[|k]] eqn:Hk; simpl in *; [..|by rewrite lookup_nil in Hi];
      injection Hi as <-; rewrite verifyCRC_app by done; apply Z.eqb_neq;
      intros Heq; apply Hold; rewrite Heq;
      [apply le16_low|apply le16_high]; auto with go.
Qed.
