(* ===== verification/Dnp3Link.v ===== *)
(** * DNP3 data link layer (dnp3go/datalink.go)

    Link frames: the scan for the start octets, the header and block
    checksums, reading and writing a frame on an octet stream. *)
From S2P Require Import Prelude Dnp3Crc.

Definition startByte1 : Z := 0x05.
Definition startByte2 : Z := 0x64.
Definition blockSize : nat := 16.
Definition ctrlDIR : Z := 0x80.
Definition ctrlPRM : Z := 0x40.
Definition ctrlFCUnconfirmedData : Z := 0x04.

Record LinkFrame : Type := mkLinkFrame {
  Control : Z;
  Dest : Z;
  Source : Z;
  Payload : list Z
}.

(** The package's error values, and the errors of the reader underneath. *)
Inductive dnp3_error : Type :=
| ErrBadStartBytes
| ErrBadHeaderCRC
| ErrBadBlockCRC
| ErrFrameTooShort
| ErrFrameTooLarge
| ErrIO (e : io_error).

(** [io.ReadFull(r, make([]byte, n))] inside a function that returns the
    reader's error. *)
Definition read_n (n : nat) (r : list Z) : outcome dnp3_error (list Z * list Z) :=
  match read_full n r with inl p => Ok p | inr e => Err (ErrIO e) end.

(** The scan loop of [ReadLinkFrame]: returns the stream behind the two
    start octets. *)
Fixpoint scan_start (r : list Z) : outcome dnp3_error (list Z) :=
  match r with
  | [] => Err (ErrIO EOF)
  | b :: r1 =>
      if negb (b =? startByte1) then scan_start r1
      else match r1 with
           | [] => Err (ErrIO EOF)
           | b' :: r2 => if b' =? startByte2 then Ok r2 else scan_start r2
           end
  end.

(** The block loop of [ReadLinkFrame]; [fuel] bounds the iterations. *)
Fixpoint read_blocks (fuel remaining : nat) (r payload : list Z)
    : outcome dnp3_error (list Z * list Z) :=
  if (remaining =? 0)%nat then Ok (payload, r)
  else match fuel with
  | O => Diverge
  | S fuel' =>
      let blockLen := if (blockSize <? remaining)%nat then blockSize else remaining in
      let! '(block, r') := read_n (blockLen + 2) r in
      guard_err ErrBadBlockCRC (negb (verifyCRC block))
        (let! chunk := slice block 0 blockLen in
         read_blocks fuel' (remaining - blockLen) r' (payload ++ chunk))
  end.

Definition ReadLinkFrame (r : list Z) : outcome dnp3_error (LinkFrame * list Z) :=
  let! r1 := scan_start r in
  let! '(hdrRest, r2) := read_n 8 r1 in
  let fullHeader := startByte1 :: startByte2 :: hdrRest in
  guard_err ErrBadHeaderCRC (negb (verifyCRC fullHeader))
    (let! length_ := idx fullHeader 2 in
     let! control := idx fullHeader 3 in
     let! d := slice fullHeader 4 6 in
     let! dest := Uint16 d in
     let! s := slice fullHeader 6 8 in
     let! source := Uint16 s in
     if length_ <? 5 then Ok (mkLinkFrame control dest source [], r2)
     else
       let userDataLen := Z.to_nat (length_ - 5) in
       let! '(payload, r3) := read_blocks userDataLen userDataLen r2 [] in
       Ok (mkLinkFrame control dest source payload, r3)).

(** The data blocks of [WriteLinkFrame], each followed by its checksum. *)
Fixpoint write_blocks (fuel : nat) (payload : list Z) : outcome dnp3_error (list Z) :=
  match payload with
  | [] => Ok []
  | _ =>
      match fuel with
      | O => Diverge
      | S fuel' =>
          let block := take blockSize payload in
          let c := crcDNP block in
          let! rest := write_blocks fuel' (drop blockSize payload) in
          Ok (block ++ [u8 c; u8 (Z.shiftr c 8)] ++ rest)
      end
  end.

(** The octets handed to the single [w.Write]. *)
Definition WriteLinkFrame (f : LinkFrame) : outcome dnp3_error (list Z) :=
  let userDataLen := length (Payload f) in
  guard_err ErrFrameTooLarge (250 <? userDataLen)%nat
    (let header :=
       [startByte1; startByte2; u8 (5 + Z.of_nat userDataLen); Control f]
       ++ PutUint16 (Dest f) ++ PutUint16 (Source f) in
     let! blocks := write_blocks userDataLen (Payload f) in
     Ok (appendCRC header ++ blocks)).

Definition IsFromMaster (f : LinkFrame) : bool :=
  has (Control f) ctrlDIR && has (Control f) ctrlPRM.

Definition MakeResponseControl : Z := Z.lor ctrlPRM ctrlFCUnconfirmedData.

(** A frame whose fields fit their Go types. *)
Definition frame_ok (f : LinkFrame) : Prop :=
  is_u8 (Control f) ∧ is_u16 (Dest f) ∧ is_u16 (Source f) ∧ bytes_ok (Payload f).

(** Octets of a frame with an [n]-octet payload: header, data, block checksums. *)
Definition wire_length (n : nat) : nat := 10 + n + 2 * ((n + 15) / 16).

(** ** Blocks *)
Lemma write_blocks_step fuel p : p ≠ [] →
  write_blocks (S fuel) p =
  let! rest := write_blocks fuel (drop blockSize p) in
  Ok (appendCRC (take blockSize p) ++ rest).
Proof.
  intros Hp. destruct p as [|b p]; [done|]. cbn [write_blocks].
  destruct (write_blocks fuel _); simpl bind; [|done..].
  f_equal. unfold appendCRC. by rewrite <- app_assoc.
Qed.

Lemma write_blocks_ok fuel p :
  (length p ≤ fuel)%nat → ∃ w, write_blocks fuel p = Ok w.
Proof.
  revert p. induction fuel as [|fuel IH]; intros p Hf; destruct p as [|b p];
    try by eexists. { simpl in Hf; lia. }
  rewrite write_blocks_step by done.
  destruct (IH (drop blockSize (b :: p))) as [w ->].
  { rewrite length_drop. unfold blockSize. simpl in *. lia. }
  by eexists.
Qed.

Lemma take_block_nonempty (p : list Z) : p ≠ [] → take blockSize p ≠ [].
Proof. by destruct p. Qed.

Lemma take_block_length (p : list Z) :
  length (take blockSize p) = if (blockSize <? length p)%nat then blockSize else length p.
Proof. rewrite length_take. case_if; bool_facts; lia. Qed.

Lemma read_n_app n a r : length a = n → read_n n (a ++ r) = Ok (a, r).
Proof. intros. unfold read_n. by rewrite read_full_app'. Qed.

(** One turn of the read loop over a block that carries its checksum. *)
Lemma read_blocks_step fuel p r acc : bytes_ok p → p ≠ [] →
  read_blocks (S fuel) (length p) (appendCRC (take blockSize p) ++ r) acc =
  read_blocks fuel (length (drop blockSize p)) r (acc ++ take blockSize p).
Proof.
  intros Hp Hne. cbn [read_blocks].
  replace (length p =? 0)%nat with false by by destruct p.
  rewrite <- take_block_length.
  rewrite read_n_app by apply appendCRC_length. cbn [bind].
  rewrite verify_appendCRC by auto using take_block_nonempty with go. cbn [negb guard_err].
  unfold slice. rewrite appendCRC_length.
  replace ((0 <=? _) && _)%nat with true
    by (symmetry; apply andb_true_iff; rewrite !Nat.leb_le; lia).
  cbn [bind]. rewrite drop_0, Nat.sub_0_r. unfold appendCRC at 1. rewrite take_app_length.
  replace (length p - length (take blockSize p))%nat with (length (drop blockSize p)); [done|].
  rewrite length_drop, length_take. lia.
Qed.

Lemma read_write_blocks fuel fuel' p w r acc :
  bytes_ok p → (length p ≤ fuel')%nat → write_blocks fuel p = Ok w →
  read_blocks fuel' (length p) (w ++ r) acc = Ok (acc ++ p, r).
Proof.
  revert fuel' p w acc. induction fuel as [|fuel IH]; intros fuel' p w acc Hp Hf Hw.
  { destruct p; [|done]. injection Hw as <-. rewrite app_nil_r. by destruct fuel'. }
  destruct (decide (p = [])) as [->|Hne].
  { injection Hw as <-. rewrite app_nil_r. by destruct fuel'. }
  destruct fuel' as [|fuel']; [by destruct p; simpl in *; [|lia]|].
  rewrite write_blocks_step in Hw by done. apply bind_Ok in Hw as (rest & Hrest & [= <-]).
  rewrite <- app_assoc, read_blocks_step by done.
  rewrite IH; [|eauto with go| |done].
  - by rewrite <- app_assoc, take_drop.
  - rewrite length_drop. unfold blockSize. destruct p; [done|]. simpl in *. lia.
Qed.

Lemma write_blocks_length fuel p w :
  write_blocks fuel p = Ok w → length w = (length p + 2 * ((length p + 15) / 16))%nat.
Proof.
  revert p w. induction fuel as [|fuel IH]; intros p w Hw;
    (destruct (decide (p = [])) as [->|Hne]; [by injection Hw as <-|]); [by destruct p|].
  rewrite write_blocks_step in Hw by done. apply bind_Ok in Hw as (rest & Hrest & [= <-]).
  rewrite length_app, appendCRC_length, length_take, (IH _ _ Hrest).
  rewrite length_drop. unfold blockSize.
  destruct (decide (length p ≤ 16)%nat).
  - replace (length p - 16)%nat with 0%nat by lia.
    assert ((length p + 15) / 16 = 1)%nat as ->; [|change ((0 + 15) / 16)%nat with 0%nat; lia].
    symmetry. apply (Nat.div_unique _ _ _ (length p - 1)); [lia|].
    destruct p; [done|]. simpl; lia.
  - replace (length p + 15)%nat with (length p - 16 + 15 + 1 * 16)%nat by lia.
    rewrite Nat.div_add by lia. lia.
Qed.

(** ** Headers *)
Definition header (f : LinkFrame) : list Z :=
  [startByte1; startByte2; u8 (5 + Z.of_nat (length (Payload f))); Control f]
  ++ PutUint16 (Dest f) ++ PutUint16 (Source f).

Lemma header_ok f : frame_ok f → bytes_ok (header f).
Proof. intros (Hc & _ & _ & _). unfold header. octets. Qed.

Lemma WriteLinkFrame_shape f w :
  WriteLinkFrame f = Ok w ↔
  (length (Payload f) ≤ 250)%nat ∧
  ∃ blocks, write_blocks (length (Payload f)) (Payload f) = Ok blocks ∧
            w = appendCRC (header f) ++ blocks.
Proof.
  unfold WriteLinkFrame. split.
  - intros H. inv_ok H. bool_facts. injection H as <-. eauto.
  - intros (Hlen & blocks & Hb & ->).
    replace (250 <? length (Payload f))%nat with false by (symmetry; apply Nat.ltb_ge; lia).
    cbn [guard_err]. by rewrite Hb.
Qed.

(** The read side after a verified header. *)
Lemma ReadLinkFrame_header f rest : frame_ok f → (length (Payload f) ≤ 250)%nat →
  ReadLinkFrame (appendCRC (header f) ++ rest) =
  let! '(payload, r3) := read_blocks (length (Payload f)) (length (Payload f)) rest [] in
  Ok (mkLinkFrame (Control f) (Dest f) (Source f) payload, r3).
Proof.
  intros Hf Hlen. pose proof (header_ok f Hf) as Hh.
  pose proof (verify_appendCRC _ Hh ltac:(done)) as Hv.
  unfold appendCRC in *. cbv zeta in *. revert Hv. generalize (crcDNP (header f)). intros c Hv.
  unfold ReadLinkFrame, header, PutUint16 in *. cbn [app] in *.
  cbn [scan_start]. rewrite !Z.eqb_refl. cbn [negb bind].
  unfold read_n, read_full. cbn [length Nat.leb take drop bind].
  rewrite take_0, drop_0.
  rewrite Hv. cbn [negb guard_err].
  unfold idx, slice. simpl length. cbn [lookup list_lookup Nat.leb andb bind take drop Nat.sub].
  rewrite !Uint16_cons. cbn [bind].
  destruct Hf as (_ & Hd & Hs & _). rewrite !le16_bytes by done.
  rewrite u8_small by (unfold is_u8; lia).
  replace (5 + _ <? 5) with false by (symmetry; apply Z.ltb_ge; lia).
  by replace (Z.to_nat (5 + Z.of_nat (length (Payload f)) - 5)) with (length (Payload f)) by lia.
Qed.

Lemma write_then_read (f : LinkFrame) (rest : list Z) :
  frame_ok f → (length (Payload f) ≤ 250)%nat →
  ∃ wire, WriteLinkFrame f = Ok wire ∧
          length wire = wire_length (length (Payload f)) ∧
          ReadLinkFrame (wire ++ rest) = Ok (f, rest).
Proof.
  intros Hf Hlen.
  destruct (write_blocks_ok (length (Payload f)) (Payload f)) as [blocks Hb]; [lia|].
  exists (appendCRC (header f) ++ blocks). split; [|split].
  - apply WriteLinkFrame_shape. eauto.
  - rewrite length_app, appendCRC_length. apply write_blocks_length in Hb. rewrite Hb.
    unfold wire_length, header. simpl. lia.
  - rewrite <- app_assoc, ReadLinkFrame_header by done.
    destruct Hf as (_ & _ & _ & Hp).
    erewrite (read_write_blocks _ _ _ blocks) by (done || lia). by destruct f.
Qed.

(** Every frame whose fields fit their types and whose payload has at
    most 250 octets is written, in exactly header + data + two octets per
    started block of 16, and reading the stream returns the same frame and
    leaves the octets that follow it. *)
Theorem link_roundtrip (f : LinkFrame) (rest : list Z) :
  frame_ok f → (length (Payload f) ≤ 250)%nat →
  ∃ wire, WriteLinkFrame f = Ok wire ∧
          length wire = wire_length (length (Payload f)) ∧
          ReadLinkFrame (wire ++ rest) = Ok (f, rest).
Proof. apply write_then_read. Qed.

Lemma link_roundtrip_witness :
  let f := mkLinkFrame 0xC4 1 100 [0xC0; 0xC0; 1; 60; 1; 6] in
  ∃ wire, WriteLinkFrame f = Ok wire ∧ length wire = wire_length 6 ∧
          ReadLinkFrame (wire ++ [5; 100]) = Ok (f, [5; 100]).
Proof.
  apply link_roundtrip; [|simpl; lia]. split; [unfold is_u8; simpl; lia|].
  split; [unfold is_u16; simpl; lia|]. split; [unfold is_u16; simpl; lia|]. simpl. octets.
Defined.

(** ** Corruption *)
Lemma read_blocks_corrupt_here fuel p r acc i v old :
  bytes_ok p → p ≠ [] → is_u8 v →
  appendCRC (take blockSize p) !! i = Some old → old ≠ v →
  read_blocks (S fuel) (length p) (<[i:=v]> (appendCRC (take blockSize p)) ++ r) acc
  = Err ErrBadBlockCRC.
Proof.
  intros Hp Hne Hv Hi Hold. cbn [read_blocks].
  replace (length p =? 0)%nat with false by by destruct p.
  rewrite <- take_block_length.
  rewrite read_n_app by (rewrite length_insert; apply appendCRC_length). cbn [bind].
  by erewrite appendCRC_corrupt by eauto using take_block_nonempty with go.
Qed.

Lemma read_blocks_corrupt fuel fuel' p w r acc i v old :
  bytes_ok p → (length p ≤ fuel')%nat → write_blocks fuel p = Ok w →
  is_u8 v → w !! i = Some old → old ≠ v →
  read_blocks fuel' (length p) (<[i:=v]> w ++ r) acc = Err ErrBadBlockCRC.
Proof.
  revert fuel' p w acc i. induction fuel as [|fuel IH];
    intros fuel' p w acc i Hp Hf Hw Hv Hi Hold;
    (destruct (decide (p = [])) as [->|Hne]; [by injection Hw as <-|]); [by destruct p|].
  destruct fuel' as [|fuel']; [by destruct p; simpl in *; [|lia]|].
  rewrite write_blocks_step in Hw by done. apply bind_Ok in Hw as (rest & Hrest & [= <-]).
  destruct (decide (i < length (appendCRC (take blockSize p)))%nat).
  - rewrite insert_app_l, <- app_assoc by done. rewrite lookup_app_l in Hi by done.
    eauto using read_blocks_corrupt_here.
  - rewrite insert_app_r_alt, <- app_assoc, read_blocks_step by (done || lia).
    rewrite lookup_app_r in Hi by lia. eapply IH; eauto with go.
    rewrite length_drop. unfold blockSize. destruct p; [done|]. simpl in *. lia.
Qed.

(** C37. Replace one octet of a written frame, anywhere behind the two start
    octets, by another value: the reader reports a checksum error (the
    header's below octet 10, a block's from there on) and delivers nothing. *)
Theorem link_corruption_detected (f : LinkFrame) (wire rest : list Z) (i : nat) (v old : Z) :
  frame_ok f → WriteLinkFrame f = Ok wire →
  is_u8 v → (2 ≤ i)%nat → wire !! i = Some old → old ≠ v →
  ReadLinkFrame (<[i:=v]> wire ++ rest)
  = Err (if (i <? 10)%nat then ErrBadHeaderCRC else ErrBadBlockCRC).
Proof.
  intros Hf Hw Hv Hi Hold Hne. apply WriteLinkFrame_shape in Hw as (Hlen & blocks & Hb & ->).
  assert (length (appendCRC (header f)) = 10%nat) as Hh by by rewrite appendCRC_length.
  destruct (i <? 10)%nat eqn:Hi10; bool_facts.
  - rewrite lookup_app_l in Hold by lia. rewrite insert_app_l, <- app_assoc by lia.
    assert (verifyCRC (<[i:=v]> (appendCRC (header f))) = false) as Hbad
      by (eapply appendCRC_corrupt; eauto using header_ok; done).
    destruct i as [|[|i]]; [lia..|]. clear Hold.
    set (tl := drop 2 (appendCRC (header f))).
    assert (appendCRC (header f) = startByte1 :: startByte2 :: tl) as Htl by done.
    rewrite Htl in *. clearbody tl.
    change (<[S (S i):=v]> (startByte1 :: startByte2 :: tl))
      with (startByte1 :: startByte2 :: <[i:=v]> tl) in *.
    unfold ReadLinkFrame. cbn [scan_start app]. rewrite !Z.eqb_refl. cbn [negb bind].
    rewrite read_n_app by (rewrite length_insert; simpl in Hh; lia). cbn [bind].
    by rewrite Hbad.
  - rewrite lookup_app_r in Hold by lia. rewrite insert_app_r_alt, <- app_assoc by lia.
    rewrite ReadLinkFrame_header by done. destruct Hf as (_ & _ & _ & Hp).
    by erewrite read_blocks_corrupt by (eauto || lia).
Qed.

Lemma link_corruption_detected_witness :
  let f := mkLinkFrame 0xC4 1 100 [0xC0; 0xC0; 1; 60; 1; 6] in
  match WriteLinkFrame f with
  | Ok wire => ReadLinkFrame (<[13%nat:=61]> wire ++ []) = Err ErrBadBlockCRC
  | _ => False
  end.
Proof.
  cbv zeta. destruct (WriteLinkFrame _) as [wire|e| |] eqn:Hw; [|vm_compute in Hw; discriminate..].
  apply (link_corruption_detected (mkLinkFrame 0xC4 1 100 [0xC0; 0xC0; 1; 60; 1; 6])
           wire [] 13 61 60); [|done|unfold is_u8; lia|lia| |lia].
  - split; [unfold is_u8; simpl; lia|]. split; [unfold is_u16; simpl; lia|].
    split; [unfold is_u16; simpl; lia|]. simpl. octets.
  - vm_compute in Hw. injection Hw as <-. reflexivity.
Defined.

(** ** Reading returns *)
Lemma read_n_Ok n r a r' : read_n n r = Ok (a, r') → r = a ++ r' ∧ length a = n.
Proof. unfold read_n. destruct (read_full n r) as [[]|] eqn:H; [|done].
  intros [= -> ->]. by apply read_full_inl. Qed.

Lemma read_n_safe n r : safe (read_n n r).
Proof. unfold read_n. by destruct (read_full n r). Qed.

Lemma scan_start_safe r : safe (scan_start r) ∧
  (∀ r', scan_start r = Ok r' → (length r' + 2 ≤ length r)%nat).
Proof.
  induction r as [r IH] using (induction_ltof1 _ length). unfold ltof in IH.
  destruct r as [|b r1]; [done|]. cbn [scan_start].
  destruct (b =? startByte1); cbn [negb].
  - destruct r1 as [|b' r2]; [done|]. destruct (b' =? startByte2).
    + split; [done|]. intros r' [= <-]. cbn; lia.
    + destruct (IH r2 ltac:(cbn; lia)) as [Hs Hl]. split; [done|].
      intros r' Hr. apply Hl in Hr. cbn; lia.
  - destruct (IH r1 ltac:(cbn; lia)) as [Hs Hl]. split; [done|].
    intros r' Hr. apply Hl in Hr. cbn; lia.
Qed.

Lemma read_blocks_safe fuel remaining r acc :
  (remaining ≤ fuel)%nat → safe (read_blocks fuel remaining r acc) ∧
  (∀ p r', read_blocks fuel remaining r acc = Ok (p, r') → (length r' ≤ length r)%nat).
Proof.
  revert remaining r acc. induction fuel as [|fuel IH]; intros remaining r acc Hf;
    cbn [read_blocks]; destruct (Nat.eqb_spec remaining 0); try lia;
    try (split; [done|]; intros p r' [= <- <-]; lia).
  set (bl := if (blockSize <? remaining)%nat then blockSize else remaining).
  assert (1 ≤ bl ≤ remaining)%nat.
  { subst bl. unfold blockSize. case_if; bool_facts; lia. }
  destruct (read_n (bl + 2) r) as [[block r']|e| |] eqn:Hr;
    [|done|by pose proof (read_n_safe (bl + 2) r) as Hs; rewrite Hr in Hs..].
  apply read_n_Ok in Hr as [-> Hb]. cbn [bind].
  destruct (verifyCRC block); cbn [negb guard_err]; [|done].
  unfold slice. replace ((0 <=? bl) && (bl <=? length block))%nat with true
    by (symmetry; apply andb_true_iff; rewrite !Nat.leb_le; lia).
  cbn [bind]. destruct (IH (remaining - bl)%nat r' (acc ++ take (bl - 0) (drop 0 block)))
    as [Hs Hl]; [lia|]. split; [done|].
  intros p r'' Hp. apply Hl in Hp. rewrite length_app. lia.
Qed.

(** Reading a frame returns, and a frame takes at least its ten header octets. *)
Lemma ReadLinkFrame_safe r : safe (ReadLinkFrame r) ∧
  (∀ f r', ReadLinkFrame r = Ok (f, r') → (length r' + 10 ≤ length r)%nat).
Proof.
  destruct (scan_start_safe r) as [Hs Hl]. unfold ReadLinkFrame.
  destruct (scan_start r) as [r1|e| |] eqn:H1; try done. cbn [bind].
  specialize (Hl _ eq_refl).
  pose proof (read_n_safe 8 r1) as Hn. destruct (read_n 8 r1) as [[h r2]|e| |] eqn:H2; try done.
  apply read_n_Ok in H2 as [-> Hh]. cbn [bind].
  do 8 (destruct h as [|? h]; [done|]). destruct h; [|done].
  destruct (verifyCRC _); cbn [negb guard_err]; [|done].
  unfold idx, slice. cbn [lookup list_lookup length Nat.leb andb bind take drop Nat.sub].
  rewrite !Uint16_cons. cbn [bind]. cbn [app length] in Hl. rewrite ?length_app in Hl.
  case_if. { split; [done|]. intros f r' [= <- <-]. cbn in Hl. lia. }
  match goal with |- context [read_blocks ?n ?n ?r ?a] =>
    destruct (read_blocks_safe n n r a) as [Hb Hbl]; [lia|];
    destruct (read_blocks n n r a) as [[p r3]|e| |]; try done
  end.
  split; [done|]. intros f r' [= <- <-]. specialize (Hbl _ _ eq_refl). cbn in Hl. lia.
Qed.

(** ** The payload of a frame that was read *)
Lemma read_blocks_payload fuel remaining r acc p r' :
  bytes_ok r → bytes_ok acc → read_blocks fuel remaining r acc = Ok (p, r') →
  bytes_ok p ∧ length p = (length acc + remaining)%nat.
Proof.
  revert remaining r acc. induction fuel as [|fuel IH]; intros remaining r acc Hro Ha;
    cbn [read_blocks]; destruct (Nat.eqb_spec remaining 0) as [->|Hr]; try done;
    try (intros [= <- <-]; split; [done|lia]).
  intros H. apply bind_Ok in H as ([block r1] & Hb & H). apply read_n_Ok in Hb as [-> Hb].
  apply bytes_ok_app in Hro as [Hbo Hro]. apply guard_err_Ok in H as [_ H].
  apply bind_Ok in H as (chunk & Hc & H). apply slice_Ok in Hc as [-> Hc].
  apply IH in H as [Hp Hl]; [|done|apply bytes_ok_app; auto with go].
  split; [done|]. rewrite length_app, length_take, length_drop in Hl.
  unfold blockSize in *. destruct (Nat.ltb_spec 16 remaining); lia.
Qed.

Lemma scan_start_bytes_ok r r' : bytes_ok r → scan_start r = Ok r' → bytes_ok r'.
Proof.
  induction r as [r IH] using (induction_ltof1 _ length). unfold ltof in IH.
  intros Hr. destruct r as [|b r1]; [done|]. apply Forall_cons in Hr as [_ Hr]. cbn [scan_start].
  destruct (b =? startByte1); cbn [negb]; [|apply IH; [cbn; lia|done]].
  destruct r1 as [|b' r2]; [done|]. apply Forall_cons in Hr as [_ Hr].
  destruct (b' =? startByte2); [by intros [= <-]|apply IH; [cbn; lia|done]].
Qed.

Lemma ReadLinkFrame_payload r f r' :
  bytes_ok r → ReadLinkFrame r = Ok (f, r') →
  bytes_ok (Payload f) ∧ (length (Payload f) ≤ 250)%nat.
Proof.
  unfold ReadLinkFrame. intros Hr H. apply bind_Ok in H as (r1 & H1 & H).
  apply scan_start_bytes_ok in H1; [|done].
  apply bind_Ok in H as ([hdr r2] & H2 & H). apply read_n_Ok in H2 as [-> Hlen].
  apply bytes_ok_app in H1 as [Hh Hr2]. apply guard_err_Ok in H as [_ H].
  apply bind_Ok in H as (len & Hl & H). apply idx_Ok in Hl. cbn in Hl.
  eapply bytes_ok_lookup in Hl; [|done].
  do 5 apply bind_Ok in H as (? & _ & H).
  case_if_in H; [injection H as <- <-; split; [constructor|cbn; lia]|].
  apply bind_Ok in H as ([p r3] & Hp & [= <- <-]).
  apply read_blocks_payload in Hp as [Hp Hlp]; [|done|constructor].
  split; [done|]. cbn in *. unfold is_u8 in Hl. lia.
Qed.

Lemma WriteLinkFrame_safe f : safe (WriteLinkFrame f).
Proof.
  unfold WriteLinkFrame. apply guard_err_safe. intros _.
  destruct (write_blocks_ok (length (Payload f)) (Payload f)) as [w ->]; [lia|done].
Qed.

(** ** Resynchronisation

    A start octet that is not followed by the second one is dropped together
    with its successor, so that a stray 0x05 in front of a frame hides the
    frame. *)
Lemma stray_start_hides_frame r :
  scan_start (startByte1 :: startByte1 :: startByte2 :: r) = scan_start r.
Proof. by destruct r. Qed.
