(* ===== verification/Dnp3Transport.v ===== *)
(** * DNP3 transport function (dnp3go/transport.go)

    Reassembly of application fragments from transport segments. *)
From S2P Require Import Prelude.

Definition tpFIN : Z := 0x80.
Definition tpFIR : Z := 0x40.
Definition tpSEQ : Z := 0x3F.

Record TransportReader : Type := mkTransportReader {
  buf : list Z;
  expectSeq : Z;
  active : bool
}.

(** The zero value, [&TransportReader{}]. *)
Definition newTransportReader : TransportReader := mkTransportReader [] 0 false.

(** The result [nil] is [None]; a completed message, also an empty one, is
    [Some]. *)
Definition ProcessSegment (t : TransportReader) (data : list Z)
    : TransportReader * option (list Z) :=
  match data with
  | [] => (t, None)
  | header :: payload =>
      let fir := has header tpFIR in
      let fin := has header tpFIN in
      let seq := Z.land header tpSEQ in
      let next := Z.land (u8 (seq + 1)) tpSEQ in
      let accepted :=
        if fir then Some (mkTransportReader payload next true)
        else if active t && (seq =? expectSeq t)
        then Some (mkTransportReader (buf t ++ payload) next (active t))
        else None in
      match accepted with
      | None => (mkTransportReader [] (expectSeq t) false, None)
      | Some t' =>
          if fin then (mkTransportReader [] (expectSeq t') false, Some (buf t'))
          else (t', None)
      end
  end.

Definition WrapTransport (appData : list Z) (seq : Z) : list Z :=
  Z.lor (Z.lor tpFIR tpFIN) (Z.land seq tpSEQ) :: appData.

(** Feeding segments in order; the results in order. *)
Fixpoint feed (t : TransportReader) (segs : list (list Z))
    : TransportReader * list (option (list Z)) :=
  match segs with
  | [] => (t, [])
  | s :: segs' =>
      let (t1, o) := ProcessSegment t s in
      let (t2, os) := feed t1 segs' in (t2, o :: os)
  end.

(** A sender that splits a message: the first segment carries FIR, the last
    FIN, sequence numbers are consecutive modulo 64. *)
Definition seg_header (fir fin : bool) (seq : Z) : Z :=
  (if fir then tpFIR else 0) + (if fin then tpFIN else 0) + seq.

Fixpoint segments (fir : bool) (seq : Z) (chunk : list Z) (more : list (list Z))
    : list (list Z) :=
  match more with
  | [] => [seg_header fir true seq :: chunk]
  | c :: more' =>
      (seg_header fir false seq :: chunk) :: segments false ((seq + 1) mod 64) c more'
  end.

(** A run of received segments that makes the message [m] so far: it opens
    with FIR, goes on without FIR in sequence, and [next] is the number
    expected next. *)
Inductive burst : list (list Z) → list Z → Z → Prop :=
| burst_first h p :
    has h tpFIR = true →
    burst [h :: p] p (Z.land (u8 (Z.land h tpSEQ + 1)) tpSEQ)
| burst_next segs m s h p :
    burst segs m s → has h tpFIR = false → Z.land h tpSEQ = s →
    burst (segs ++ [h :: p]) (m ++ p) (Z.land (u8 (s + 1)) tpSEQ)
| burst_empty segs m s :
    burst segs m s → burst (segs ++ [[]]) m s.

#[export] Hint Constructors burst : go.

(** ** Segment headers *)
Lemma seg_header_fields fir fin seq : 0 ≤ seq < 64 →
  let h := seg_header fir fin seq in
  has h tpFIR = fir ∧ has h tpFIN = fin ∧ Z.land h tpSEQ = seq ∧
  Z.land (u8 (Z.land h tpSEQ + 1)) tpSEQ = (seq + 1) mod 64.
Proof.
  intros Hs.
  assert (forallb (λ s,
    forallb (λ a, forallb (λ b,
      let h := seg_header a b s in
      eqb (has h tpFIR) a && eqb (has h tpFIN) b && (Z.land h tpSEQ =? s) &&
      (Z.land (u8 (Z.land h tpSEQ + 1)) tpSEQ =? (s + 1) mod 64))
      [true; false]) [true; false]) (seqZ 0 64) = true) as H by (vm_compute; reflexivity).
  pose proof (range_forall 64 _ H seq Hs) as Hq. cbv beta in Hq.
  rewrite forallb_forall in Hq. specialize (Hq fir ltac:(destruct fir; simpl; auto)).
  rewrite forallb_forall in Hq. specialize (Hq fin ltac:(destruct fin; simpl; auto)).
  cbv zeta in Hq. bool_facts. repeat match goal with H : eqb _ _ = true |- _ => apply eqb_prop in H end.
  cbv zeta. auto.
Qed.

Lemma ProcessSegment_header t fir fin seq p : 0 ≤ seq < 64 →
  (fir = true ∨ active t = true ∧ expectSeq t = seq) →
  ProcessSegment t (seg_header fir fin seq :: p) =
  let b := if fir then p else buf t ++ p in
  if fin then (mkTransportReader [] ((seq + 1) mod 64) false, Some b)
  else (mkTransportReader b ((seq + 1) mod 64) true, None).
Proof.
  intros Hs Hacc. pose proof (seg_header_fields fir fin seq Hs) as (Hfir & Hfin & Hseq & Hnext).
  unfold ProcessSegment. rewrite Hfir, Hfin, Hnext, Hseq.
  destruct Hacc as [->|[Ha He]]; [by destruct fin|].
  destruct fir; [by destruct fin|]. rewrite Ha, He, Z.eqb_refl. by destruct fin.
Qed.

Lemma feed_segments t fir seq c more : 0 ≤ seq < 64 →
  (fir = true ∨ active t = true ∧ expectSeq t = seq) →
  ∃ next, feed t (segments fir seq c more) =
    (mkTransportReader [] next false,
     replicate (length more) None ++
       [Some ((if fir then [] else buf t) ++ c ++ concat more)]).
Proof.
  revert t fir seq c. induction more as [|c' more IH]; intros t fir seq c Hs Hacc.
  - eexists. cbn [segments feed]. rewrite ProcessSegment_header by done. cbv zeta.
    cbn. rewrite app_nil_r. by destruct fir.
  - cbn [segments feed]. rewrite ProcessSegment_header by done. cbv zeta iota.
    edestruct (IH (mkTransportReader (if fir then c else buf t ++ c) ((seq + 1) mod 64) true)
                  false ((seq + 1) mod 64) c') as [next ->].
    { apply Z.mod_pos_bound. lia. }
    { by right. }
    eexists. cbn. do 4 f_equal. destruct fir; [done|]. by rewrite <- app_assoc.
Qed.

(** A message split over any number of segments, numbered consecutively
    modulo 64 from any start, is delivered once, by the last segment and
    unchanged, whatever state the reader was in. *)
Theorem transport_reassembles (t : TransportReader) (seq : Z) (c : list Z) (more : list (list Z)) :
  0 ≤ seq < 64 →
  ∃ t', feed t (segments true seq c more) =
    (t', replicate (length more) None ++ [Some (c ++ concat more)]) ∧ active t' = false.
Proof.
  intros Hs. destruct (feed_segments t true seq c more Hs) as [next ->]; [by left|].
  by eexists.
Qed.

Lemma transport_reassembles_witness :
  ∃ t', feed newTransportReader (segments true 63 [1; 2] [[3]; [4; 5]]) =
    (t', [None; None; Some [1; 2; 3; 4; 5]]) ∧ active t' = false.
Proof. apply (transport_reassembles newTransportReader 63 [1; 2] [[3]; [4; 5]]). lia. Defined.

(** The single-segment sender of the package is the one-chunk case. *)
Lemma WrapTransport_segments appData seq :
  WrapTransport appData seq = seg_header true true (Z.land seq tpSEQ) :: appData.
Proof.
  unfold WrapTransport, seg_header. f_equal.
  change (Z.lor tpFIR tpFIN) with 192. rewrite Z.lor_comm.
  assert (0 ≤ Z.land seq tpSEQ < 64).
  { change tpSEQ with (Z.ones 6). rewrite Z.land_ones by lia. apply Z.mod_pos_bound. lia. }
  change 192 with (Z.shiftl 3 6). rewrite lor_shiftl_add by (simpl; lia).
  unfold tpFIR, tpFIN. simpl. lia.
Qed.

Lemma ProcessSegment_Wrap t appData seq :
  ∃ next, ProcessSegment t (WrapTransport appData seq)
          = (mkTransportReader [] next false, Some appData).
Proof.
  rewrite WrapTransport_segments.
  rewrite ProcessSegment_header; [by eexists| |by left].
  change tpSEQ with (Z.ones 6). rewrite Z.land_ones by lia. apply Z.mod_pos_bound. lia.
Qed.

(** ** Soundness: only in-order runs are delivered *)
Definition tracks (hist : list (list Z)) (t : TransportReader) : Prop :=
  active t = true →
  ∃ pre segs, hist = pre ++ segs ∧ burst segs (buf t) (expectSeq t).

Lemma ProcessSegment_tracks hist t seg t' o :
  tracks hist t → ProcessSegment t seg = (t', o) →
  tracks (hist ++ [seg]) t' ∧
  (∀ m, o = Some m → ∃ pre segs next, hist ++ [seg] = pre ++ segs ∧ burst segs m next).
Proof.
  intros Ht Hp. destruct seg as [|h p]; cbn [ProcessSegment] in Hp; cbv zeta in Hp.
  { injection Hp as <- <-. split; [|done]. intros Ha.
    destruct (Ht Ha) as (pre & segs & -> & Hb). exists pre, (segs ++ [[]]).
    rewrite app_assoc. eauto with go. }
  destruct (has h tpFIR) eqn:Hfir.
  - assert (hist ++ [h :: p] = hist ++ [h :: p]) as Hh by done.
    destruct (has h tpFIN); injection Hp as <- <-; (split; [|]); try done.
    + intros m [= <-]. eauto 6 with go.
    + intros _. exists hist, [h :: p]. cbn. eauto with go.
  - destruct (active t && (Z.land h tpSEQ =? expectSeq t)) eqn:Hacc.
    + apply andb_true_iff in Hacc as [Ha Hs]. apply Z.eqb_eq in Hs.
      destruct (Ht Ha) as (pre & segs & -> & Hb).
      assert (burst (segs ++ [h :: p]) (buf t ++ p) (Z.land (u8 (Z.land h tpSEQ + 1)) tpSEQ))
        by (rewrite Hs; eauto with go).
      destruct (has h tpFIN); injection Hp as <- <-; (split; [|]); try done.
      * intros m [= <-]. exists pre, (segs ++ [h :: p]). rewrite app_assoc. eauto.
      * intros _. exists pre, (segs ++ [h :: p]). rewrite app_assoc. eauto.
    + injection Hp as <- <-. done.
Qed.

Lemma feed_app t a b :
  feed t (a ++ b) =
  let (t1, oa) := feed t a in let (t2, ob) := feed t1 b in (t2, oa ++ ob).
Proof.
  revert t. induction a as [|s a IH]; intros t; cbn [app feed]; [by destruct (feed t b)|].
  destruct (ProcessSegment t s) as [t1 o]. rewrite IH.
  destruct (feed t1 a) as [t2 oa]. by destruct (feed t2 b).
Qed.

Lemma feed_tracks segs t os :
  feed newTransportReader segs = (t, os) → tracks segs t.
Proof.
  revert t os. induction segs as [|s segs IH] using rev_ind; intros t os Hf.
  - by injection Hf as <- <-.
  - rewrite feed_app in Hf. destruct (feed newTransportReader segs) as [t1 oa] eqn:H1.
    cbn in Hf. destruct (ProcessSegment t1 s) as [t2 o] eqn:Hp. injection Hf as <- _.
    eapply ProcessSegment_tracks; eauto.
Qed.

(** From a fresh reader, whatever segments arrive, a message is delivered
    only when the segments just received are, in order, one that carries FIR
    followed by segments without FIR whose sequence numbers continue it; the
    message is the concatenation of exactly their payloads. *)
Theorem transport_sound (hist : list (list Z)) (seg : list Z) t os t' m :
  feed newTransportReader hist = (t, os) → ProcessSegment t seg = (t', Some m) →
  ∃ pre segs next, hist ++ [seg] = pre ++ segs ∧ burst segs m next.
Proof.
  intros Hf Hp. apply feed_tracks in Hf.
  destruct (ProcessSegment_tracks _ _ _ _ _ Hf Hp) as [_ H]. eauto.
Qed.

Lemma transport_sound_witness :
  ∃ pre segs next, [[0x45; 9]] ++ [[0x86; 8]] = pre ++ segs ∧ burst segs [9; 8] next.
Proof. eapply transport_sound; reflexivity. Defined.
