(* ===== verification/Dnp3App.v ===== *)
(** * DNP3 application layer (dnp3go/application.go)

    Parsing of application fragments and the response builders. A [float32]
    is its 32-bit pattern: the package only moves the bits
    ([math.Float32bits] and [math.Float32frombits]). *)
From S2P Require Import Prelude Dnp3Link.

Definition FCRead : Z := 0x01.
Definition FCWrite : Z := 0x02.
Definition FCSelect : Z := 0x03.
Definition FCOperate : Z := 0x04.
Definition FCDirectOperate : Z := 0x05.
Definition FCDirectOperateNoAck : Z := 0x06.
Definition FCResponse : Z := 0x81.

Definition acFIR : Z := 0x80.
Definition acFIN : Z := 0x40.
Definition acSEQ : Z := 0x0F.

Definition GroupBinaryInput : Z := 1.
Definition VarBIStatus : Z := 2.
Definition GroupBinaryOutput : Z := 10.
Definition VarBOStatus : Z := 2.
Definition GroupCROB : Z := 12.
Definition VarCROB : Z := 1.
Definition GroupAnalogInput : Z := 30.
Definition VarAIFloat : Z := 5.
Definition GroupAnalogOutput : Z := 40.
Definition VarAOFloat : Z := 3.
Definition GroupAnalogOutputCmd : Z := 41.
Definition VarAOCmdFloat : Z := 3.
Definition GroupClassData : Z := 60.
Definition VarClass0 : Z := 1.
Definition VarClass3 : Z := 4.

Definition QualStartStop8 : Z := 0x00.
Definition QualStartStop16 : Z := 0x01.
Definition QualAllPoints : Z := 0x06.
Definition QualCount8Pfx8 : Z := 0x17.
Definition QualCount16Pfx16 : Z := 0x28.

Definition CROBStatusSuccess : Z := 0x00.
Definition CROBStatusNoSelect : Z := 0x02.
Definition CROBStatusNotSupported : Z := 0x04.

Definition IIN1DeviceRestart : Z := 0x80.
Definition IIN2NoFuncCode : Z := 0x01.
Definition IIN2ObjectUnknown : Z := 0x02.
Definition IIN2ParamError : Z := 0x04.

Record PrefixedObject : Type := mkPrefixed {
  Index : Z;
  PData : list Z
}.

Record ObjectHeader : Type := mkObject {
  Group : Z;
  Variation : Z;
  Qualifier : Z;
  Start : Z;
  Stop : Z;
  Count : Z;
  PrefixedData : list PrefixedObject;
  Data : list Z
}.

Record APDU : Type := mkAPDU {
  AControl : Z;
  FuncCode : Z;
  IIN : Z;
  Objects : list ObjectHeader
}.

Definition objectDataSize (group variation : Z) : nat :=
  if (group =? GroupBinaryInput) && (variation =? VarBIStatus) then 1
  else if (group =? GroupBinaryOutput) && (variation =? VarBOStatus) then 1
  else if (group =? GroupCROB) && (variation =? VarCROB) then 11
  else if (group =? GroupAnalogInput) && (variation =? VarAIFloat) then 5
  else if (group =? GroupAnalogOutput) && (variation =? VarAOFloat) then 5
  else if (group =? GroupAnalogOutputCmd) && (variation =? VarAOCmdFloat) then 5
  else 0.

(** [uint16(data[offset])] or [binary.LittleEndian.Uint16(data[offset:])]. *)
Definition read_index (width : nat) (data : list Z) (offset : nat) : outcome dnp3_error Z :=
  if (width =? 1)%nat then idx data offset
  else let! tl := slice_from data offset in Uint16 tl.

(** The loops over the prefixed objects, qualifiers 0x17 ([width] 1) and
    0x28 ([width] 2). *)
Fixpoint parse_prefixed (width objSize count : nat) (data : list Z) (offset : nat)
    : outcome dnp3_error (list PrefixedObject * nat) :=
  match count with
  | O => Ok ([], offset)
  | S count' =>
      guard_err ErrFrameTooShort (length data <? offset + width + objSize)%nat
        (let! index := read_index width data offset in
         let! objData := slice data (offset + width) (offset + width + objSize) in
         let! '(more, offset') :=
           parse_prefixed width objSize count' data (offset + width + objSize) in
         Ok (mkPrefixed index objData :: more, offset'))
  end.

(** The number of inline octets of a start/stop object. *)
Definition range_octets (group variation start stop : Z) : nat :=
  let count := Z.to_nat (stop - start + 1) in
  if (group =? 80) && (variation =? 1) then ((count + 7) / 8)%nat
  else (count * objectDataSize group variation)%nat.

(** One object header with its data: the body of the parse loop. *)
Definition parse_object (funcCode : Z) (data : list Z) (offset0 : nat)
    : outcome dnp3_error (ObjectHeader * nat) :=
  guard_err ErrFrameTooShort (length data <? offset0 + 3)%nat
    (let! group := idx data offset0 in
     let! variation := idx data (offset0 + 1) in
     let! qualifier := idx data (offset0 + 2) in
     let offset := (offset0 + 3)%nat in
     if qualifier =? QualAllPoints then
       Ok (mkObject group variation qualifier 0 0 0 [] [], offset)
     else if (qualifier =? QualStartStop8) || (qualifier =? QualStartStop16) then
       let width := if qualifier =? QualStartStop16 then 2%nat else 1%nat in
       guard_err ErrFrameTooShort (length data <? offset + 2 * width)%nat
         (let! start := read_index width data offset in
          let! stop := read_index width data (offset + width) in
          let offset := (offset + 2 * width)%nat in
          guard_err ErrFrameTooShort (stop <? start)
            (if negb (funcCode =? FCRead) then
               let total := range_octets group variation start stop in
               guard_err ErrFrameTooShort (length data <? offset + total)%nat
                 (let! inline := slice data offset (offset + total) in
                  Ok (mkObject group variation qualifier start stop 0 [] inline,
                      (offset + total)%nat))
             else Ok (mkObject group variation qualifier start stop 0 [] [], offset)))
     else if (qualifier =? QualCount8Pfx8) || (qualifier =? QualCount16Pfx16) then
       let width := if qualifier =? QualCount16Pfx16 then 2%nat else 1%nat in
       guard_err ErrFrameTooShort (length data <? offset + width)%nat
         (let! count := read_index width data offset in
          let! '(objs, offset') :=
            parse_prefixed width (objectDataSize group variation) (Z.to_nat count)
                           data (offset + width) in
          Ok (mkObject group variation qualifier 0 0 count objs [], offset'))
     else Ok (mkObject group variation qualifier 0 0 0 [] [], offset)).

Fixpoint parse_objects (fuel : nat) (funcCode : Z) (data : list Z) (offset : nat)
    : outcome dnp3_error (list ObjectHeader) :=
  if (offset <? length data)%nat then
    match fuel with
    | O => Diverge
    | S fuel' =>
        let! '(oh, offset') := parse_object funcCode data offset in
        let! more := parse_objects fuel' funcCode data offset' in
        Ok (oh :: more)
    end
  else Ok [].

Definition ParseAPDU (data : list Z) : outcome dnp3_error APDU :=
  guard_err ErrFrameTooShort (length data <? 2)%nat
    (let! control := idx data 0 in
     let! funcCode := idx data 1 in
     if 0x81 <=? funcCode then
       guard_err ErrFrameTooShort (length data <? 4)%nat
         (let! d2 := idx data 2 in
          let! d3 := idx data 3 in
          let iin := Z.lor (Z.shiftl d2 8) d3 in
          let! objs := parse_objects (length data) funcCode data 4 in
          Ok (mkAPDU control funcCode iin objs))
     else
       let! objs := parse_objects (length data) funcCode data 2 in
       Ok (mkAPDU control funcCode 0 objs)).

(** ** Response builders *)
Definition BuildResponse (reqSeq iin : Z) (objects : list Z) : list Z :=
  [Z.lor (Z.lor acFIR acFIN) (Z.land reqSeq acSEQ); FCResponse; u8 (Z.shiftr iin 8); u8 iin]
  ++ objects.

(** The five octets in front of the point values. *)
Definition static_header (group variation startIdx : Z) (n : nat) : list Z :=
  let stopIdx := u16 (startIdx + u16 (Z.of_nat n) - 1) in
  [group; variation; QualStartStop8; u8 startIdx; u8 stopIdx].

Definition flag_octet (v : bool) : Z := if v then Z.lor 0x01 0x80 else 0x01.

Definition encode_bools (group variation startIdx : Z) (values : list bool) : list Z :=
  match values with
  | [] => []
  | _ => static_header group variation startIdx (length values) ++ (flag_octet <$> values)
  end.

Definition float_octets (v : Z) : list Z := 0x01 :: PutUint32 v.

Definition encode_floats (group variation startIdx : Z) (values : list Z) : list Z :=
  match values with
  | [] => []
  | _ => static_header group variation startIdx (length values) ++ concat (float_octets <$> values)
  end.

Definition EncodeBinaryInputs := encode_bools GroupBinaryInput VarBIStatus.
Definition EncodeBinaryOutputStatus := encode_bools GroupBinaryOutput VarBOStatus.
Definition EncodeAnalogInputs := encode_floats GroupAnalogInput VarAIFloat.
Definition EncodeAnalogOutputStatus := encode_floats GroupAnalogOutput VarAOFloat.

Definition encodeCommandResponse (group variation index : Z) (object : list Z) (status : Z)
    : list Z :=
  let head :=
    if 255 <? index
    then [group; variation; QualCount16Pfx16; 1; 0; u8 index; u8 (Z.shiftr index 8)]
    else [group; variation; QualCount8Pfx8; 1; u8 index] in
  let buf := head ++ object in
  <[(length buf - 1)%nat := status]> buf.

Definition EncodeCROBResponse (index : Z) (request : list Z) (status : Z) : list Z :=
  if negb (length request =? 11)%nat then []
  else encodeCommandResponse GroupCROB VarCROB index request status.

Definition EncodeAnalogOutputResponse (index value status : Z) : list Z :=
  encodeCommandResponse GroupAnalogOutputCmd VarAOCmdFloat index (PutUint32 value ++ [0]) status.

Definition ParseCROB (data : list Z) : outcome dnp3_error (Z * bool) :=
  if (length data <? 11)%nat then Ok (0, false)
  else let! c := idx data 0 in Ok (c, true).

Definition ParseAnalogOutputCmd (data : list Z) : outcome dnp3_error (Z * bool) :=
  if (length data <? 5)%nat then Ok (0, false)
  else let! d := slice data 0 4 in let! bits := Uint32 d in Ok (bits, true).

(** ** The wire form of an object, as a specification *)
Definition index_octets (width : nat) (v : Z) : list Z :=
  if (width =? 1)%nat then [v] else PutUint16 v.

Definition prefixed_octets (width : nat) (p : PrefixedObject) : list Z :=
  index_octets width (Index p) ++ PData p.

Definition object_octets (oh : ObjectHeader) : list Z :=
  [Group oh; Variation oh; Qualifier oh] ++
  (if (Qualifier oh =? QualStartStop8) || (Qualifier oh =? QualStartStop16) then
     let w := if Qualifier oh =? QualStartStop16 then 2%nat else 1%nat in
     index_octets w (Start oh) ++ index_octets w (Stop oh) ++ Data oh
   else if (Qualifier oh =? QualCount8Pfx8) || (Qualifier oh =? QualCount16Pfx16) then
     let w := if Qualifier oh =? QualCount16Pfx16 then 2%nat else 1%nat in
     index_octets w (Count oh) ++ concat (prefixed_octets w <$> PrefixedData oh)
   else []).

Definition index_ok (width : nat) (v : Z) : Prop :=
  if (width =? 1)%nat then is_u8 v else is_u16 v.

(** What a parsed object of a fragment with function code [fc] satisfies. *)
Definition object_ok (fc : Z) (oh : ObjectHeader) : Prop :=
  if (Qualifier oh =? QualStartStop8) || (Qualifier oh =? QualStartStop16) then
    let w := if Qualifier oh =? QualStartStop16 then 2%nat else 1%nat in
    index_ok w (Start oh) ∧ index_ok w (Stop oh) ∧ Start oh ≤ Stop oh ∧
    Count oh = 0 ∧ PrefixedData oh = [] ∧
    length (Data oh) =
      (if fc =? FCRead then 0%nat
       else range_octets (Group oh) (Variation oh) (Start oh) (Stop oh))
  else if (Qualifier oh =? QualCount8Pfx8) || (Qualifier oh =? QualCount16Pfx16) then
    let w := if Qualifier oh =? QualCount16Pfx16 then 2%nat else 1%nat in
    index_ok w (Count oh) ∧ Count oh = zlen (PrefixedData oh) ∧
    Start oh = 0 ∧ Stop oh = 0 ∧ Data oh = [] ∧
    Forall (λ p, index_ok w (Index p) ∧
                 length (PData p) = objectDataSize (Group oh) (Variation oh))
           (PrefixedData oh)
  else Start oh = 0 ∧ Stop oh = 0 ∧ Count oh = 0 ∧ PrefixedData oh = [] ∧ Data oh = [].

Definition apdu_octets (a : APDU) : list Z :=
  [AControl a; FuncCode a] ++
  (if 0x81 <=? FuncCode a then [u8 (Z.shiftr (IIN a) 8); u8 (IIN a)] else []) ++
  concat (object_octets <$> Objects a).

Definition apdu_ok (a : APDU) : Prop :=
  (if 0x81 <=? FuncCode a then is_u16 (IIN a) else IIN a = 0) ∧
  Forall (object_ok (FuncCode a)) (Objects a).

(** ** Parsing returns *)
Lemma read_index_safe width data offset : (1 ≤ width ≤ 2)%nat →
  (offset + width ≤ length data)%nat → safe (read_index width data offset).
Proof.
  intros Hw Ho. unfold read_index. destruct (Nat.eqb_spec width 1); [safe_tac|].
  apply bind_safe; [safe_tac|]. intros tl [-> _]%slice_from_Ok.
  unfold Uint16. assert (2 ≤ length (drop offset data))%nat by (rewrite length_drop; lia). safe_tac.
Qed.

Lemma parse_prefixed_safe width objSize count data offset : (1 ≤ width ≤ 2)%nat →
  safe (parse_prefixed width objSize count data offset).
Proof.
  intros Hw. revert offset. induction count as [|count IH]; intros offset; [done|].
  cbn [parse_prefixed]. safe_tac; [apply read_index_safe; lia|apply IH].
Qed.

Lemma parse_prefixed_offset width objSize count data offset objs offset' :
  (offset ≤ length data)%nat →
  parse_prefixed width objSize count data offset = Ok (objs, offset') →
  (offset ≤ offset' ≤ length data)%nat.
Proof.
  revert offset objs offset'. induction count as [|count IH]; intros offset objs offset' Ho Hp.
  - injection Hp as <- <-. lia.
  - cbn [parse_prefixed] in Hp. apply guard_err_Ok in Hp as [Hg Hp].
    apply bind_Ok in Hp as (i & _ & Hp). apply bind_Ok in Hp as (d & _ & Hp).
    apply bind_Ok in Hp as ([more o] & Hm & [= <- <-]). bool_facts.
    apply IH in Hm; lia.
Qed.

Lemma parse_object_safe fc data offset : safe (parse_object fc data offset).
Proof.
  unfold parse_object.
  safe_tac; first [apply read_index_safe; case_if; lia | apply parse_prefixed_safe; case_if; lia].
Qed.

(** Every parsed object moves the offset by at least its three header octets. *)
Lemma parse_object_offset fc data offset oh offset' :
  parse_object fc data offset = Ok (oh, offset') →
  (offset + 3 ≤ offset' ≤ length data)%nat.
Proof.
  unfold parse_object. intros H. apply guard_err_Ok in H as [Hg H]. bool_facts.
  do 3 apply bind_Ok in H as (? & _ & H). cbv zeta in H.
  case_if_in H; [injection H as <- <-; lia|].
  case_if_in H.
  { apply guard_err_Ok in H as [Hw H]. do 2 apply bind_Ok in H as (? & _ & H).
    apply guard_err_Ok in H as [_ H]. bool_facts. case_if_in H.
    - apply guard_err_Ok in H as [Ht H]. bool_facts. apply bind_Ok in H as (? & _ & [= <- <-]). lia.
    - injection H as <- <-. lia. }
  case_if_in H; [|injection H as <- <-; lia].
  apply guard_err_Ok in H as [Hw H]. apply bind_Ok in H as (? & _ & H).
  apply bind_Ok in H as ([objs o] & Hp & [= <- <-]). bool_facts.
  apply parse_prefixed_offset in Hp; lia.
Qed.

Lemma parse_objects_safe fuel fc data offset :
  (length data ≤ offset + fuel)%nat → safe (parse_objects fuel fc data offset).
Proof.
  revert offset. induction fuel as [|fuel IH]; intros offset Hf; cbn [parse_objects];
    destruct (Nat.ltb_spec offset (length data)); try done; [lia|].
  apply bind_safe; [apply parse_object_safe|]. intros [oh o] Ho.
  apply parse_object_offset in Ho. apply bind_safe; [apply IH; lia|]. done.
Qed.

Lemma ParseAPDU_safe (data : list Z) : safe (ParseAPDU data).
Proof. unfold ParseAPDU. safe_tac; apply parse_objects_safe; lia. Qed.

(** [ParseAPDU] returns on every octet string, with a fragment or with an
    error: no index or slice leaves the input and the object loop ends within
    as many rounds as there are octets. *)
Theorem ParseAPDU_total (data : list Z) : safe (ParseAPDU data).
Proof. apply ParseAPDU_safe. Qed.

(** ** Parsing a printed fragment *)
Lemma length_index_octets width v : (1 ≤ width ≤ 2)%nat → length (index_octets width v) = width.
Proof. unfold index_octets. destruct (Nat.eqb_spec width 1); simpl; lia. Qed.

Lemma read_index_at width pre v post i :
  index_ok width v → i = length pre →
  read_index width (pre ++ index_octets width v ++ post) i = Ok v.
Proof.
  unfold read_index, index_ok, index_octets. destruct (width =? 1)%nat; intros Hv ->.
  - by apply idx_at.
  - rewrite slice_from_at by done. cbn [bind app PutUint16]. by rewrite Uint16_cons, le16_bytes.
Qed.

Lemma parse_prefixed_at width objSize objs pre post i : (1 ≤ width ≤ 2)%nat →
  Forall (λ p, index_ok width (Index p) ∧ length (PData p) = objSize) objs → i = length pre →
  parse_prefixed width objSize (length objs)
    (pre ++ concat (prefixed_octets width <$> objs) ++ post) i
  = Ok (objs, (i + length (concat (prefixed_octets width <$> objs)))%nat).
Proof.
  intros Hw Hobjs. revert pre i. induction Hobjs as [|[v d] objs [Hv Hd] _ IH]; intros pre i ->.
  { cbn. by rewrite Nat.add_0_r. }
  cbn [length fmap list_fmap concat parse_prefixed]. cbn [Index PData] in *.
  unfold prefixed_octets at 1 3 5 7. cbn [Index PData].
  set (tail := concat (prefixed_octets width <$> objs) ++ post).
  rewrite <- !app_assoc. fold tail.
  assert (length (index_octets width v) = width) as Hl by by apply length_index_octets.
  replace (_ <? _)%nat with false.
  2:{ symmetry. apply Nat.ltb_ge. rewrite !length_app. lia. }
  cbn [guard_err]. rewrite read_index_at by done. cbn [bind].
  rewrite (app_assoc pre), slice_at by (rewrite length_app; lia). cbn [bind].
  rewrite (app_assoc _ d tail). subst tail.
  rewrite IH by (rewrite !length_app; lia). cbn [bind]. do 2 f_equal.
  rewrite !length_app. unfold prefixed_octets at 2. rewrite length_app. cbn [Index PData]. lia.
Qed.

Lemma idx3_at {E} (pre : list Z) a b c post i : i = length pre →
  idx (E := E) (pre ++ a :: b :: c :: post) i = Ok a ∧
  idx (E := E) (pre ++ a :: b :: c :: post) (i + 1) = Ok b ∧
  idx (E := E) (pre ++ a :: b :: c :: post) (i + 2) = Ok c.
Proof.
  intros ->. split; [by apply idx_at|]. split.
  - rewrite (cons_middle a), app_assoc. apply idx_at. rewrite length_app. simpl; lia.
  - rewrite (cons_middle a), (cons_middle b), !app_assoc. apply idx_at.
    rewrite !length_app. simpl; lia.
Qed.

Lemma ltb_len_false a b : (b ≤ a)%nat → (a <? b)%nat = false.
Proof. apply Nat.ltb_ge. Qed.

Lemma qual_width_range (q c : Z) : (1 ≤ (if (q =? c)%Z then 2 else 1) ≤ 2)%nat.
Proof. case_if; lia. Qed.

Lemma cons3_app {A} (a b c : A) l : a :: b :: c :: l = [a; b; c] ++ l.
Proof. done. Qed.

(** A start/stop object reads back. *)
Lemma parse_range_at fc pre oh post i : i = length pre →
  (Qualifier oh =? QualStartStop8) || (Qualifier oh =? QualStartStop16) = true →
  object_ok fc oh →
  parse_object fc (pre ++ object_octets oh ++ post) i
  = Ok (oh, (i + length (object_octets oh))%nat).
Proof.
  intros -> Hq Hok. unfold object_ok in Hok. rewrite Hq in Hok.
  destruct oh as [g v q start stop count pd d]; cbn [Group Variation Qualifier Start Stop Count PrefixedData Data] in *.
  unfold object_octets. cbn [Group Variation Qualifier Start Stop Count PrefixedData Data]. rewrite Hq.
  destruct Hok as (Hs & He & Hle & -> & -> & Hd).
  unfold parse_object. set (w := if q =? QualStartStop16 then 2%nat else 1%nat) in *.
  assert (1 ≤ w ≤ 2)%nat as Hw by apply qual_width_range.
  cbv zeta. cbn [app].
  destruct (idx3_at (E := dnp3_error) pre g v q
              ((index_octets w start ++ index_octets w stop ++ d) ++ post) _ eq_refl)
    as (H0 & H1 & H2). rewrite H0, H1, H2. cbn [bind]. clear H0 H1 H2.
  rewrite (ltb_len_false _ (length pre + 3)) by (rewrite length_app; simpl; lia).
  assert (q =? QualAllPoints = false) as ->.
  { apply orb_true_iff in Hq as [Hq|Hq]; apply Z.eqb_eq in Hq as ->; done. }
  cbn [guard_err]. rewrite Hq.
  pose proof (length_index_octets w start Hw). pose proof (length_index_octets w stop Hw).
  rewrite ltb_len_false by (rewrite !length_app; cbn [length]; rewrite !length_app; lia).
  cbn [guard_err]. rewrite <- !app_assoc.
  rewrite cons3_app, (app_assoc pre [g; v; q]).
  rewrite read_index_at by (done || (rewrite length_app; simpl; lia)).
  cbn [bind]. rewrite (app_assoc _ (index_octets w start)), read_index_at
    by (done || (rewrite !length_app; simpl; lia)). cbn [bind].
  rewrite (proj2 (Z.ltb_ge stop start) Hle). cbn [guard_err].
  rewrite (app_assoc _ (index_octets w stop)).
  destruct (Z.eqb_spec fc FCRead) as [->|Hfc]; cbn [negb].
  - destruct d; [|done]. do 2 f_equal. cbn [length]. rewrite !length_app. simpl; lia.
  - rewrite ltb_len_false by (rewrite !length_app; cbn [length]; lia). cbn [guard_err].
    rewrite slice_at by (rewrite !length_app; simpl; lia). cbn [bind].
    do 2 f_equal. cbn [length]. rewrite !length_app. lia.
Qed.

(** A counted object with index prefixes reads back. *)
Lemma parse_counted_at fc pre oh post i : i = length pre →
  (Qualifier oh =? QualStartStop8) || (Qualifier oh =? QualStartStop16) = false →
  (Qualifier oh =? QualCount8Pfx8) || (Qualifier oh =? QualCount16Pfx16) = true →
  object_ok fc oh →
  parse_object fc (pre ++ object_octets oh ++ post) i
  = Ok (oh, (i + length (object_octets oh))%nat).
Proof.
  intros -> Hr Hq Hok. unfold object_ok in Hok. rewrite Hr, Hq in Hok.
  destruct oh as [g v q start stop count pd d]; cbn [Group Variation Qualifier Start Stop Count PrefixedData Data] in *.
  unfold object_octets. cbn [Group Variation Qualifier Start Stop Count PrefixedData Data]. rewrite Hr, Hq.
  destruct Hok as (Hc & Hcount & -> & -> & -> & Hpd).
  unfold parse_object. set (w := if q =? QualCount16Pfx16 then 2%nat else 1%nat) in *.
  assert (1 ≤ w ≤ 2)%nat as Hw by apply qual_width_range.
  cbv zeta. cbn [app].
  destruct (idx3_at (E := dnp3_error) pre g v q
              ((index_octets w count ++ concat (prefixed_octets w <$> pd)) ++ post) _ eq_refl)
    as (H0 & H1 & H2). rewrite H0, H1, H2. cbn [bind]. clear H0 H1 H2.
  rewrite (ltb_len_false _ (length pre + 3)) by (rewrite length_app; simpl; lia).
  assert (q =? QualAllPoints = false) as ->.
  { apply orb_true_iff in Hq as [Hq|Hq]; apply Z.eqb_eq in Hq as ->; done. }
  cbn [guard_err]. rewrite Hr, Hq.
  pose proof (length_index_octets w count Hw).
  rewrite ltb_len_false by (rewrite !length_app; cbn [length]; rewrite !length_app; lia).
  cbn [guard_err]. rewrite <- !app_assoc.
  rewrite cons3_app, (app_assoc pre [g; v; q]).
  rewrite read_index_at by (done || (rewrite length_app; simpl; lia)). cbn [bind].
  rewrite (app_assoc _ (index_octets w count)).
  replace (Z.to_nat count) with (length pd) by (unfold zlen in *; lia).
  rewrite parse_prefixed_at by (done || (rewrite !length_app; simpl; lia)). cbn [bind].
  do 2 f_equal. cbn [length]. rewrite !length_app. lia.
Qed.

Lemma parse_object_at fc pre oh post i : i = length pre → object_ok fc oh →
  parse_object fc (pre ++ object_octets oh ++ post) i
  = Ok (oh, (i + length (object_octets oh))%nat).
Proof.
  intros Hi Hok.
  destruct ((Qualifier oh =? QualStartStop8) || (Qualifier oh =? QualStartStop16)) eqn:Hr;
    [by apply parse_range_at|].
  destruct ((Qualifier oh =? QualCount8Pfx8) || (Qualifier oh =? QualCount16Pfx16)) eqn:Hq;
    [by apply parse_counted_at|].
  unfold object_ok in Hok. rewrite Hr, Hq in Hok. unfold object_octets. rewrite Hr, Hq. subst i.
  destruct oh as [g v q start stop count pd d]; cbn [Group Variation Qualifier Start Stop Count PrefixedData Data] in *.
  destruct Hok as (-> & -> & -> & -> & ->).
  unfold parse_object. cbn [app].
  destruct (idx3_at (E := dnp3_error) pre g v q post _ eq_refl) as (H0 & H1 & H2).
  rewrite H0, H1, H2. cbn [bind].
  rewrite ltb_len_false by (rewrite length_app; simpl; lia). cbn [guard_err]. rewrite Hr, Hq.
  by case_if.
Qed.

Lemma parse_objects_at fuel fc pre objs i :
  (length objs ≤ fuel)%nat → i = length pre → Forall (object_ok fc) objs →
  parse_objects fuel fc (pre ++ concat (object_octets <$> objs)) i = Ok objs.
Proof.
  intros Hf Hi Hobjs. revert fuel pre i Hf Hi.
  induction Hobjs as [|oh objs Hoh _ IH]; intros fuel pre i Hf ->.
  { cbn [fmap list_fmap concat]. rewrite app_nil_r. destruct fuel; cbn [parse_objects]; by rewrite Nat.ltb_irrefl. }
  destruct fuel as [|fuel]; [simpl in Hf; lia|].
  cbn [fmap list_fmap concat parse_objects].
  replace (length pre <? _)%nat with true.
  2:{ symmetry. apply Nat.ltb_lt. rewrite !length_app. unfold object_octets. simpl. lia. }
  rewrite parse_object_at by done. cbn [bind]. rewrite app_assoc.
  rewrite IH; [done|simpl in Hf; lia|]. by rewrite length_app.
Qed.

Lemma length_objects_le objs :
  (length objs ≤ length (concat (object_octets <$> objs)))%nat.
Proof. induction objs; cbn; [lia|]. rewrite length_app. lia. Qed.

(** Apply [parse_objects_at] behind a fixed fragment header. *)
Ltac parse_body fc pre objs i :=
  match goal with
  | |- context [parse_objects ?fuel _ _ _] =>
      let Hp := fresh in
      pose proof (parse_objects_at fuel fc pre objs i) as Hp;
      cbn [app] in Hp; rewrite Hp by (done || (simpl; lia)); clear Hp
  end.

Lemma parse_print (a : APDU) : apdu_ok a → ParseAPDU (apdu_octets a) = Ok a.
Proof.
  destruct a as [c fc iin objs]. intros [Hiin Hobjs]. cbn [FuncCode IIN Objects] in *.
  unfold ParseAPDU, apdu_octets. cbn [AControl FuncCode IIN Objects].
  pose proof (length_objects_le objs) as Hlen.
  destruct (0x81 <=? fc) eqn:Hfc.
  - rewrite ltb_len_false by (simpl; lia). cbn [guard_err]. unfold idx.
    cbn [app lookup list_lookup bind]. rewrite Hfc.
    rewrite ltb_len_false by (simpl; lia). cbn [guard_err bind].
    parse_body fc [c; fc; u8 (Z.shiftr iin 8); u8 iin] objs 4%nat.
    cbn [bind]. rewrite Z.lor_comm. change (Z.lor _ _) with (le16 (u8 iin) (u8 (Z.shiftr iin 8))).
    by rewrite le16_bytes.
  - rewrite ltb_len_false by (simpl; lia). cbn [guard_err]. unfold idx.
    cbn [app lookup list_lookup bind]. rewrite Hfc.
    parse_body fc [c; fc] objs 2%nat. by subst iin.
Qed.

(** Parsing inverts printing: the octets of any well-formed fragment
    (request or response, every qualifier the package knows, indices of both
    widths) parse to that fragment. *)
Theorem ParseAPDU_print (a : APDU) : apdu_ok a → ParseAPDU (apdu_octets a) = Ok a.
Proof. apply parse_print. Qed.

Definition sample_apdu : APDU :=
  mkAPDU 0xC3 FCSelect 0
    [mkObject 12 1 QualCount8Pfx8 0 0 1 [mkPrefixed 4 [3; 1; 0; 0; 0; 0; 0; 0; 0; 0; 0]] [];
     mkObject 80 1 QualStartStop16 7 7 0 [] [0]].

Lemma ParseAPDU_print_witness : ParseAPDU (apdu_octets sample_apdu) = Ok sample_apdu.
Proof.
  apply ParseAPDU_print. split; [done|]. repeat apply Forall_cons_2; [| |apply Forall_nil_2].
  - cbn. repeat split; try (unfold is_u8; lia).
    repeat apply Forall_cons_2; [cbn; unfold is_u8; lia|apply Forall_nil_2].
  - cbn. unfold is_u16. repeat split; lia.
Defined.

(** ** Encoders as printed objects *)
Definition static_object (group variation start : Z) (n : nat) (d : list Z) : ObjectHeader :=
  mkObject group variation QualStartStop8 start (start + Z.of_nat n - 1) 0 [] d.

Lemma static_header_octets g v start n d :
  0 ≤ start → (0 < n)%nat → start + Z.of_nat n ≤ 256 →
  static_header g v start n ++ d = object_octets (static_object g v start n d).
Proof.
  intros Hs Hn Hle. unfold static_header, object_octets, static_object, index_octets.
  cbn. rewrite (u16_small (Z.of_nat n)), u16_small, !u8_small by (unfold is_u8, is_u16 in *; lia).
  done.
Qed.

Lemma length_float_octets vs : length (concat (float_octets <$> vs)) = (5 * length vs)%nat.
Proof. induction vs as [|v vs IH]; cbn; [done|]. cbn in IH. lia. Qed.

(** Prefixed data has the size of its object type. *)
Definition sized (oh : ObjectHeader) : Prop :=
  Forall (λ p, length (PData p) = objectDataSize (Group oh) (Variation oh)) (PrefixedData oh).

Lemma parse_prefixed_sized width objSize count data offset objs offset' :
  parse_prefixed width objSize count data offset = Ok (objs, offset') →
  Forall (λ p, length (PData p) = objSize) objs.
Proof.
  revert offset objs offset'. induction count as [|count IH]; intros offset objs offset' Hp.
  - injection Hp as <- <-. constructor.
  - cbn [parse_prefixed] in Hp. apply guard_err_Ok in Hp as [Hg Hp].
    apply bind_Ok in Hp as (i & _ & Hp). apply bind_Ok in Hp as (d & Hd & Hp).
    apply bind_Ok in Hp as ([more o] & Hm & [= <- <-]). constructor; [|by eapply IH].
    apply slice_Ok in Hd as [-> ?]. cbn [PData]. rewrite length_take, length_drop. lia.
Qed.

Lemma parse_object_sized fc data offset oh offset' :
  parse_object fc data offset = Ok (oh, offset') → sized oh.
Proof.
  unfold parse_object, sized. intros H. apply guard_err_Ok in H as [_ H].
  do 3 apply bind_Ok in H as (? & _ & H). cbv zeta in H.
  case_if_in H; [injection H as <- <-; constructor|].
  case_if_in H.
  { apply guard_err_Ok in H as [_ H]. do 2 apply bind_Ok in H as (? & _ & H).
    apply guard_err_Ok in H as [_ H]. case_if_in H.
    - apply guard_err_Ok in H as [_ H]. apply bind_Ok in H as (? & _ & [= <- <-]). constructor.
    - injection H as <- <-. constructor. }
  case_if_in H; [|injection H as <- <-; constructor].
  apply guard_err_Ok in H as [_ H]. apply bind_Ok in H as (? & _ & H).
  apply bind_Ok in H as ([objs o] & Hp & [= <- <-]). cbn. by eapply parse_prefixed_sized.
Qed.

Lemma parse_objects_sized fuel fc data offset objs :
  parse_objects fuel fc data offset = Ok objs → Forall sized objs.
Proof.
  revert offset objs. induction fuel as [|fuel IH]; intros offset objs;
    cbn [parse_objects]; case_if; try done; intros H; try (injection H as <-; constructor).
  apply bind_Ok in H as ([oh o] & Ho & H). apply bind_Ok in H as (more & Hm & [= <-]).
  constructor; eauto using parse_object_sized.
Qed.

Lemma ParseAPDU_sized data a : ParseAPDU data = Ok a → Forall sized (Objects a).
Proof.
  unfold ParseAPDU. intros H. apply guard_err_Ok in H as [_ H].
  do 2 apply bind_Ok in H as (? & _ & H). case_if_in H.
  - apply guard_err_Ok in H as [_ H]. do 2 apply bind_Ok in H as (? & _ & H).
    apply bind_Ok in H as (objs & Ho & [= <-]). by eapply parse_objects_sized.
  - apply bind_Ok in H as (objs & Ho & [= <-]). by eapply parse_objects_sized.
Qed.

(** ** What the parser stores in an object header *)
Lemma read_index_u16 width data offset v :
  bytes_ok data → read_index width data offset = Ok v → is_u16 v.
Proof.
  unfold read_index. intros Hd H. case_if_in H.
  - apply idx_Ok in H. eapply bytes_ok_lookup in H; [|done]. unfold is_u8, is_u16 in *. lia.
  - apply bind_Ok in H as (tl & Hs & H). apply slice_from_Ok in Hs as [-> _].
    unfold Uint16 in H. apply bind_Ok in H as (b1 & H1 & H). apply bind_Ok in H as (b0 & H0 & H).
    apply idx_Ok in H0, H1. injection H as <-. apply le16_range; by eapply bytes_ok_lookup; [apply bytes_ok_drop|].
Qed.

(** The inline data is part of the fragment, the range is of [uint16]. *)
Definition inline_ok (n : nat) (oh : ObjectHeader) : Prop :=
  (length (Data oh) ≤ n)%nat ∧ is_u16 (Start oh).

Lemma inline_ok_nil n g v q c pd : inline_ok n (mkObject g v q 0 0 c pd []).
Proof. split; cbn; [lia|unfold is_u16; lia]. Qed.

Lemma parse_object_inline fc data offset oh offset' :
  bytes_ok data → parse_object fc data offset = Ok (oh, offset') → inline_ok (length data) oh.
Proof.
  unfold parse_object. intros Hd H. apply guard_err_Ok in H as [_ H].
  do 3 apply bind_Ok in H as (? & _ & H). cbv zeta in H.
  case_if_in H; [injection H as <- <-; apply inline_ok_nil|].
  case_if_in H.
  { apply guard_err_Ok in H as [_ H]. apply bind_Ok in H as (start & Hs & H).
    apply bind_Ok in H as (stop & _ & H). apply read_index_u16 in Hs; [|done].
    apply guard_err_Ok in H as [_ H]. case_if_in H.
    - apply guard_err_Ok in H as [_ H]. apply bind_Ok in H as (? & Hi & [= <- <-]).
      apply slice_Ok in Hi as [-> Hi]. split; [|done]. cbn [Data]. rewrite length_take, length_drop. lia.
    - injection H as <- <-. split; [cbn; lia|done]. }
  case_if_in H; [|injection H as <- <-; apply inline_ok_nil].
  apply guard_err_Ok in H as [_ H]. apply bind_Ok in H as (? & _ & H).
  apply bind_Ok in H as ([objs o] & Hp & [= <- <-]). apply inline_ok_nil.
Qed.

Lemma parse_objects_inline fuel fc data offset objs :
  bytes_ok data → parse_objects fuel fc data offset = Ok objs →
  Forall (inline_ok (length data)) objs.
Proof.
  intros Hd. revert offset objs. induction fuel as [|fuel IH]; intros offset objs;
    cbn [parse_objects]; case_if; try done; intros H; try (injection H as <-; constructor).
  apply bind_Ok in H as ([oh o] & Ho & H). apply bind_Ok in H as (more & Hm & [= <-]).
  constructor; eauto using parse_object_inline.
Qed.

Lemma ParseAPDU_inline data a :
  bytes_ok data → ParseAPDU data = Ok a → Forall (inline_ok (length data)) (Objects a).
Proof.
  unfold ParseAPDU. intros Hd H. apply guard_err_Ok in H as [_ H].
  do 2 apply bind_Ok in H as (? & _ & H). case_if_in H.
  - apply guard_err_Ok in H as [_ H]. do 2 apply bind_Ok in H as (? & _ & H).
    apply bind_Ok in H as (objs & Ho & [= <-]). by eapply parse_objects_inline.
  - apply bind_Ok in H as (objs & Ho & [= <-]). by eapply parse_objects_inline.
Qed.

(** ** Point numbers above 255

    The builders print the range with one octet per index, so that a block
    that starts 256 points later looks the same on the wire. *)
Lemma EncodeBinaryInputs_truncates start vs :
  EncodeBinaryInputs (start + 256) vs = EncodeBinaryInputs start vs.
Proof.
  unfold EncodeBinaryInputs, encode_bools, static_header. destruct vs as [|v vs]; [done|].
  set (n := u16 (Z.of_nat (length (v :: vs)))). cbv zeta.
  replace (u8 (start + 256)) with (u8 start) by (unfold u8; modlia).
  replace (u8 (u16 (start + 256 + n - 1))) with (u8 (u16 (start + n - 1)))
    by (unfold u8, u16; modlia). done.
Qed.
