(* ===== verification/Dnp3Outstation.v ===== *)
(** * DNP3 outstation (dnp3go/outstation.go)

    The function-code handlers and the connection loop.  The device behind
    the points is a parameter: its state [D] is read by the points' [Read]
    functions and changed by their [Operate] functions, which are the
    callbacks the simulators register.  Times are nanoseconds; the clock is
    read once per received frame: the code reads it for each object of a SELECT
    or OPERATE, and the objects of one frame are taken as served at one
    instant. *)
From S2P Require Import Prelude Dnp3Link Dnp3Transport Dnp3App.

Section Outstation.
Context {D : Type}.

Record BinaryPoint : Type := mkBP {
  BP_Index : Z;
  BP_Read : D → bool
}.

Record BinaryOutputPoint : Type := mkBOP {
  BOP_Index : Z;
  BOP_Read : D → bool;
  BOP_Operate : Z → D → Z * D
}.

Record AnalogPoint : Type := mkAP {
  AP_Index : Z;
  AP_Read : D → Z
}.

Record AnalogOutputPoint : Type := mkAOP {
  AOP_Index : Z;
  AOP_Read : D → Z;
  AOP_Operate : Z → D → Z * D
}.

Record OutstationConfig : Type := mkOutstationConfig {
  OutstationAddr : Z;
  AcceptAnyMaster : bool;
  MasterAddr : Z;
  BinaryInputs : list BinaryPoint;
  BinaryOutputs : list BinaryOutputPoint;
  AnalogInputs : list AnalogPoint;
  AnalogOutputs : list AnalogOutputPoint
}.

Record sboEntry : Type := mkSbo {
  sbo_group : Z;
  sbo_index : Z;
  sbo_data : list Z;
  sbo_expires : Z
}.

Record connState : Type := mkConnState {
  pending : list sboEntry;
  txSeq : Z
}.

(** What outlives a connection: the device and the restart indication. *)
Record station : Type := mkStation {
  device : D;
  restartCleared : bool
}.

Fixpoint takeSelection (p : list sboEntry) (group index : Z)
    : option sboEntry * list sboEntry :=
  match p with
  | [] => (None, [])
  | e :: p' =>
      if (sbo_group e =? group) && (sbo_index e =? index) then (Some e, p')
      else let (r, q) := takeSelection p' group index in (r, e :: q)
  end.

Fixpoint operateBinaryOutput (pts : list BinaryOutputPoint) (index controlCode : Z) (d : D)
    : Z * D :=
  match pts with
  | [] => (CROBStatusNotSupported, d)
  | p :: pts' =>
      if BOP_Index p =? index then BOP_Operate p controlCode d
      else operateBinaryOutput pts' index controlCode d
  end.

Fixpoint operateAnalogOutput (pts : list AnalogOutputPoint) (index value : Z) (d : D)
    : Z * D :=
  match pts with
  | [] => (CROBStatusNotSupported, d)
  | p :: pts' =>
      if AOP_Index p =? index then AOP_Operate p value d
      else operateAnalogOutput pts' index value d
  end.

(** ** Reads *)
Definition rangeForQualifier (oh : ObjectHeader) (maxPoints : nat) : Z * Z :=
  if Qualifier oh =? QualAllPoints then
    if (maxPoints =? 0)%nat then (1, 0) else (0, u16 (Z.of_nat maxPoints - 1))
  else if (Qualifier oh =? QualStartStop8) || (Qualifier oh =? QualStartStop16)
  then (Start oh, Stop oh)
  else (0, u16 (Z.of_nat maxPoints - 1)).

(** The points of a list inside [start..stop], read in list order. *)
Definition read_range {P V} (index : P → Z) (read : P → D → V) (pts : list P) (d : D)
    (start stop : Z) : list V :=
  (λ p, read p d) <$> filter (λ p, (start <=? index p) && (index p <=? stop) = true) pts.

Definition readBinaryInputs (cfg : OutstationConfig) (d : D) (oh : ObjectHeader) : list Z :=
  let (start, stop) := rangeForQualifier oh (length (BinaryInputs cfg)) in
  if stop <? start then []
  else EncodeBinaryInputs start (read_range BP_Index BP_Read (BinaryInputs cfg) d start stop).

Definition readBinaryOutputs (cfg : OutstationConfig) (d : D) (oh : ObjectHeader) : list Z :=
  let (start, stop) := rangeForQualifier oh (length (BinaryOutputs cfg)) in
  if stop <? start then []
  else EncodeBinaryOutputStatus start
         (read_range BOP_Index BOP_Read (BinaryOutputs cfg) d start stop).

Definition readAnalogInputs (cfg : OutstationConfig) (d : D) (oh : ObjectHeader) : list Z :=
  let (start, stop) := rangeForQualifier oh (length (AnalogInputs cfg)) in
  if stop <? start then []
  else EncodeAnalogInputs start (read_range AP_Index AP_Read (AnalogInputs cfg) d start stop).

Definition readAnalogOutputs (cfg : OutstationConfig) (d : D) (oh : ObjectHeader) : list Z :=
  let (start, stop) := rangeForQualifier oh (length (AnalogOutputs cfg)) in
  if stop <? start then []
  else EncodeAnalogOutputStatus start
         (read_range AOP_Index AOP_Read (AnalogOutputs cfg) d start stop).

Definition encodeAllStatic (cfg : OutstationConfig) (d : D) : list Z :=
  match BinaryInputs cfg with
  | [] => []
  | p :: _ => EncodeBinaryInputs (BP_Index p) ((λ q, BP_Read q d) <$> BinaryInputs cfg)
  end ++
  match BinaryOutputs cfg with
  | [] => []
  | p :: _ => EncodeBinaryOutputStatus (BOP_Index p) ((λ q, BOP_Read q d) <$> BinaryOutputs cfg)
  end ++
  match AnalogInputs cfg with
  | [] => []
  | p :: _ => EncodeAnalogInputs (AP_Index p) ((λ q, AP_Read q d) <$> AnalogInputs cfg)
  end ++
  match AnalogOutputs cfg with
  | [] => []
  | p :: _ => EncodeAnalogOutputStatus (AOP_Index p) ((λ q, AOP_Read q d) <$> AnalogOutputs cfg)
  end.

(** The loop body of [handleRead]: octets to append and indications to set. *)
Definition read_object (cfg : OutstationConfig) (d : D) (oh : ObjectHeader) : list Z * Z :=
  if (Group oh =? GroupClassData) && (VarClass0 <=? Variation oh) && (Variation oh <=? VarClass3)
  then ((if Variation oh =? VarClass0 then encodeAllStatic cfg d else []), 0)
  else if Group oh =? GroupBinaryInput then (readBinaryInputs cfg d oh, 0)
  else if Group oh =? GroupBinaryOutput then (readBinaryOutputs cfg d oh, 0)
  else if Group oh =? GroupAnalogInput then (readAnalogInputs cfg d oh, 0)
  else if Group oh =? GroupAnalogOutput then (readAnalogOutputs cfg d oh, 0)
  else ([], IIN2ObjectUnknown).

Definition handleRead (cfg : OutstationConfig) (d : D) (apdu : APDU) : list Z * Z :=
  fold_left
    (λ '(out, iin) oh, let (o, i) := read_object cfg d oh in (out ++ o, Z.lor iin i))
    (Objects apdu) ([], 0).

(** ** Controls *)
Fixpoint direct_crob (cfg : OutstationConfig) (pos : list PrefixedObject) (d : D) (out : list Z)
    : outcome dnp3_error (list Z * D) :=
  match pos with
  | [] => Ok (out, d)
  | po :: pos' =>
      let! '(cc, ok) := ParseCROB (PData po) in
      if negb ok then direct_crob cfg pos' d out
      else
        let (status, d') := operateBinaryOutput (BinaryOutputs cfg) (Index po) cc d in
        direct_crob cfg pos' d' (out ++ EncodeCROBResponse (Index po) (PData po) status)
  end.

Fixpoint direct_analog (cfg : OutstationConfig) (pos : list PrefixedObject) (d : D) (out : list Z)
    : outcome dnp3_error (list Z * D) :=
  match pos with
  | [] => Ok (out, d)
  | po :: pos' =>
      let! '(val, ok) := ParseAnalogOutputCmd (PData po) in
      if negb ok then direct_analog cfg pos' d out
      else
        let (status, d') := operateAnalogOutput (AnalogOutputs cfg) (Index po) val d in
        direct_analog cfg pos' d' (out ++ EncodeAnalogOutputResponse (Index po) val status)
  end.

Fixpoint direct_objects (cfg : OutstationConfig) (objs : list ObjectHeader) (d : D)
    (out : list Z) (iin : Z) : outcome dnp3_error (list Z * Z * D) :=
  match objs with
  | [] => Ok (out, iin, d)
  | oh :: objs' =>
      if (Group oh =? GroupCROB) && (Variation oh =? VarCROB) then
        let! '(out', d') := direct_crob cfg (PrefixedData oh) d out in
        direct_objects cfg objs' d' out' iin
      else if (Group oh =? GroupAnalogOutputCmd) && (Variation oh =? VarAOCmdFloat) then
        let! '(out', d') := direct_analog cfg (PrefixedData oh) d out in
        direct_objects cfg objs' d' out' iin
      else direct_objects cfg objs' d out (Z.lor iin IIN2ObjectUnknown)
  end.

Definition handleDirectOperate (cfg : OutstationConfig) (d : D) (apdu : APDU)
    : outcome dnp3_error (list Z * Z * D) :=
  direct_objects cfg (Objects apdu) d [] 0.

Definition sbo_timeout : Z := 5 * 1000000000.

(** The point exists: the two search loops of the select branch. *)
Definition sbo_found (cfg : OutstationConfig) (group index : Z) : bool :=
  if group =? GroupCROB
  then existsb (λ p, BOP_Index p =? index) (BinaryOutputs cfg)
  else existsb (λ p, AOP_Index p =? index) (AnalogOutputs cfg).

(** The control of one object, by its group. *)
Definition sbo_operate (cfg : OutstationConfig) (group : Z) (po : PrefixedObject) (d : D)
    : outcome dnp3_error (Z * D) :=
  if group =? GroupCROB then
    let! cc := idx (PData po) 0 in
    Ok (operateBinaryOutput (BinaryOutputs cfg) (Index po) cc d)
  else
    let! '(value, _) := ParseAnalogOutputCmd (PData po) in
    Ok (operateAnalogOutput (AnalogOutputs cfg) (Index po) value d).

(** One prefixed object of [handleSBO]: its status, and the new selections
    and device. *)
Definition sbo_object (cfg : OutstationConfig) (now : Z) (selectOnly : bool) (group : Z)
    (po : PrefixedObject) (p : list sboEntry) (d : D)
    : outcome dnp3_error (Z * list sboEntry * D) :=
  if selectOnly then
    if sbo_found cfg group (Index po)
    then Ok (CROBStatusSuccess,
             p ++ [mkSbo group (Index po) (PData po) (now + sbo_timeout)], d)
    else Ok (CROBStatusNotSupported, p, d)
  else
    let (sel, p') := takeSelection p group (Index po) in
    match sel with
    | Some e =>
        if bool_decide (sbo_data e = PData po) && (now <? sbo_expires e) then
          let! '(status, d') := sbo_operate cfg group po d in Ok (status, p', d')
        else Ok (CROBStatusNoSelect, p', d)
    | None => Ok (CROBStatusNoSelect, p', d)
    end.

Fixpoint sbo_prefixed (cfg : OutstationConfig) (now : Z) (selectOnly : bool)
    (group variation : Z) (pos : list PrefixedObject) (p : list sboEntry) (d : D) (out : list Z)
    : outcome dnp3_error (list Z * list sboEntry * D) :=
  match pos with
  | [] => Ok (out, p, d)
  | po :: pos' =>
      let! '(status, p', d') := sbo_object cfg now selectOnly group po p d in
      sbo_prefixed cfg now selectOnly group variation pos' p' d'
        (out ++ encodeCommandResponse group variation (Index po) (PData po) status)
  end.

Fixpoint sbo_objects (cfg : OutstationConfig) (now : Z) (selectOnly : bool)
    (objs : list ObjectHeader) (p : list sboEntry) (d : D) (out : list Z) (iin : Z)
    : outcome dnp3_error (list Z * Z * list sboEntry * D) :=
  match objs with
  | [] => Ok (out, iin, p, d)
  | oh :: objs' =>
      if (negb (Group oh =? GroupCROB) || negb (Variation oh =? VarCROB)) &&
         (negb (Group oh =? GroupAnalogOutputCmd) || negb (Variation oh =? VarAOCmdFloat))
      then sbo_objects cfg now selectOnly objs' p d out (Z.lor iin IIN2ObjectUnknown)
      else
        let! '(out', p', d') :=
          sbo_prefixed cfg now selectOnly (Group oh) (Variation oh) (PrefixedData oh) p d out in
        sbo_objects cfg now selectOnly objs' p' d' out' iin
  end.

(** [handleSBO], on the connection's selections and the device. *)
Definition handleSBO (cfg : OutstationConfig) (now : Z) (selectOnly : bool) (cs : connState)
    (d : D) (apdu : APDU) : outcome dnp3_error (list Z * Z * connState * D) :=
  let! '(out, iin, p, d') := sbo_objects cfg now selectOnly (Objects apdu) (pending cs) d [] 0 in
  Ok (out, iin, mkConnState p (txSeq cs), d').

Definition handleSelect (cfg : OutstationConfig) (now : Z) (cs : connState) (d : D) (apdu : APDU)
    : outcome dnp3_error (list Z * Z * connState * D) :=
  handleSBO cfg now true (mkConnState [] (txSeq cs)) d apdu.

Definition handleOperate (cfg : OutstationConfig) (now : Z) (cs : connState) (d : D) (apdu : APDU)
    : outcome dnp3_error (list Z * Z * connState * D) :=
  let! '(out, iin, cs', d') := handleSBO cfg now false cs d apdu in
  Ok (out, iin, mkConnState [] (txSeq cs'), d').

(** The validation loop of [handleWrite]: [None] when every object clears
    Device Restart, the indication to return otherwise. *)
Fixpoint write_check (objs : list ObjectHeader) : outcome dnp3_error (option Z) :=
  match objs with
  | [] => Ok None
  | oh :: objs' =>
      if negb (Group oh =? 80) || negb (Variation oh =? 1) then Ok (Some IIN2ObjectUnknown)
      else if (negb (Qualifier oh =? QualStartStop8) && negb (Qualifier oh =? QualStartStop16))
           || negb (Start oh =? 7) || negb (Stop oh =? 7) || negb (length (Data oh) =? 1)%nat
      then Ok (Some IIN2ParamError)
      else
        let! d0 := idx (Data oh) 0 in
        if negb (d0 =? 0) then Ok (Some IIN2ParamError) else write_check objs'
  end.

Definition handleWrite (st : station) (apdu : APDU) : outcome dnp3_error (Z * station) :=
  match Objects apdu with
  | [] => Ok (IIN2ParamError, st)
  | objs =>
      let! bad := write_check objs in
      match bad with
      | Some iin => Ok (iin, st)
      | None => Ok (0, mkStation (device st) true)
      end
  end.

(** ** The connection *)
Record conn : Type := mkConn {
  c_station : station;
  c_state : connState;
  c_transport : TransportReader
}.

(** What a served frame does to the connection: go on (with or without a
    response on the wire) or close it. *)
Inductive verdict : Type :=
| Continue
| Respond (wire : list Z)
| CloseConn.

Definition newConn (st : station) : conn :=
  mkConn st (mkConnState [] 0) newTransportReader.

(** The dispatch on the function code: [None] when no response is due. *)
Definition dispatch (cfg : OutstationConfig) (now : Z) (st : station) (cs : connState)
    (apdu : APDU) (parse_failed : bool)
    : outcome dnp3_error (option (list Z * Z) * station * connState) :=
  let fc := FuncCode apdu in
  if fc =? FCRead then
    Ok (Some (handleRead cfg (device st) apdu), st, cs)
  else if fc =? FCDirectOperate then
    let! '(out, iin, d) := handleDirectOperate cfg (device st) apdu in
    Ok (Some (out, iin), mkStation d (restartCleared st), cs)
  else if fc =? FCDirectOperateNoAck then
    let! '(_, _, d) := handleDirectOperate cfg (device st) apdu in
    Ok (None, mkStation d (restartCleared st), cs)
  else if fc =? FCSelect then
    let! '(out, iin, cs', d) := handleSelect cfg now cs (device st) apdu in
    Ok (Some (out, iin), mkStation d (restartCleared st), cs')
  else if fc =? FCOperate then
    let! '(out, iin, cs', d) := handleOperate cfg now cs (device st) apdu in
    Ok (Some (out, iin), mkStation d (restartCleared st), cs')
  else if fc =? FCWrite then
    if parse_failed then Ok (Some ([], IIN2ParamError), st, cs)
    else
      let! '(iin, st') := handleWrite st apdu in
      Ok (Some ([], iin), st', cs)
  else Ok (Some ([], IIN2NoFuncCode), st, cs).

(** The response frame to a request. *)
Definition response_frame (cfg : OutstationConfig) (frame : LinkFrame) (st : station)
    (cs : connState) (apdu : APDU) (respObjects : list Z) (iin0 : Z) : LinkFrame :=
  let iin := if restartCleared st then iin0 else Z.lor iin0 (Z.shiftl IIN1DeviceRestart 8) in
  let respAPDU := BuildResponse (Z.land (AControl apdu) acSEQ) iin respObjects in
  mkLinkFrame MakeResponseControl (Source frame) (OutstationAddr cfg)
              (WrapTransport respAPDU (txSeq cs)).

(** Everything the loop of [handleConn] does after reading one frame. *)
Definition serve_frame (cfg : OutstationConfig) (now : Z) (c : conn) (frame : LinkFrame)
    : outcome dnp3_error (conn * verdict) :=
  if negb (Dest frame =? OutstationAddr cfg) && negb (Dest frame =? 0xFFFF) then Ok (c, Continue)
  else if negb (AcceptAnyMaster cfg) && negb (Source frame =? MasterAddr cfg)
  then Ok (c, Continue)
  else
    let (tr, msg) := ProcessSegment (c_transport c) (Payload frame) in
    let c1 := mkConn (c_station c) (c_state c) tr in
    match msg with
    | None => Ok (c1, Continue)
    | Some appData =>
        let request :=
          match ParseAPDU appData with
          | Ok apdu => Ok (Some (apdu, false))
          | Err _ =>
              if (length appData <? 2)%nat then Ok None
              else
                let! fc := idx appData 1 in
                if negb (fc =? FCWrite) then Ok None
                else let! control := idx appData 0 in
                     Ok (Some (mkAPDU control FCWrite 0 [], true))
          | Panic => Panic
          | Diverge => Diverge
          end in
        let! req := request in
        match req with
        | None => Ok (c1, Continue)
        | Some (apdu, failed) =>
            let! '(resp, st', cs') := dispatch cfg now (c_station c) (c_state c) apdu failed in
            match resp with
            | None => Ok (mkConn st' cs' tr, Continue)
            | Some (respObjects, iin) =>
                let respFrame := response_frame cfg frame st' cs' apdu respObjects iin in
                let c2 := mkConn st' (mkConnState (pending cs') (Z.land (u8 (txSeq cs' + 1)) tpSEQ))
                                 tr in
                match WriteLinkFrame respFrame with
                | Ok wire => Ok (c2, Respond wire)
                | Err _ => Ok (c2, CloseConn)
                | Panic => Panic
                | Diverge => Diverge
                end
            end
        end
    end.

(** [handleConn] on a whole input stream: the station left behind and the
    responses written. [clock n] is the time at which frame [n] is served. *)
Fixpoint handleConn (fuel : nat) (cfg : OutstationConfig) (clock : nat → Z) (n : nat)
    (c : conn) (r : list Z) : outcome dnp3_error (station * list (list Z)) :=
  match ReadLinkFrame r with
  | Err _ => Ok (c_station c, [])
  | Panic => Panic
  | Diverge => Diverge
  | Ok (frame, r') =>
      match fuel with
      | O => Diverge
      | S fuel' =>
          let! '(c', v) := serve_frame cfg (clock n) c frame in
          match v with
          | Continue => handleConn fuel' cfg clock (S n) c' r'
          | Respond wire =>
              let! '(st, ws) := handleConn fuel' cfg clock (S n) c' r' in Ok (st, wire :: ws)
          | CloseConn => Ok (c_station c', [])
          end
      end
  end.

End Outstation.

Arguments BinaryPoint D : clear implicits.
Arguments BinaryOutputPoint D : clear implicits.
Arguments AnalogPoint D : clear implicits.
Arguments AnalogOutputPoint D : clear implicits.
Arguments OutstationConfig D : clear implicits.
Arguments station D : clear implicits.
Arguments conn D : clear implicits.

Section Facts.
Context {D : Type}.
Implicit Types (cfg : OutstationConfig D) (d : D).

(** ** Select before operate *)

(** The device after operating the selections [es] in order. *)
Inductive controls (cfg : OutstationConfig D) : D → list sboEntry → D → Prop :=
| controls_nil d : controls cfg d [] d
| controls_cons d e status d1 es d2 :
    sbo_operate cfg (sbo_group e) (mkPrefixed (sbo_index e) (sbo_data e)) d = Ok (status, d1) →
    controls cfg d1 es d2 → controls cfg d (e :: es) d2.

(** The request names the selection's point and repeats its octets. *)
Definition requested (objs : list ObjectHeader) (e : sboEntry) : Prop :=
  ∃ oh po, oh ∈ objs ∧ po ∈ PrefixedData oh ∧ Group oh = sbo_group e ∧
           Index po = sbo_index e ∧ PData po = sbo_data e.

Lemma controls_app cfg d es1 d1 es2 d2 :
  controls cfg d es1 d1 → controls cfg d1 es2 d2 → controls cfg d (es1 ++ es2) d2.
Proof. induction 1; [done|]. intros. econstructor; eauto. Qed.

Lemma requested_weaken objs objs' e : objs ⊆ objs' → requested objs e → requested objs' e.
Proof. intros Hsub (oh & po & Hin & Hpo & Hrest). exists oh, po. split; [by apply Hsub|done]. Qed.

Lemma takeSelection_spec p g i e q :
  takeSelection p g i = (e, q) →
  match e with
  | Some e => p ≡ₚ e :: q ∧ sbo_group e = g ∧ sbo_index e = i
  | None => q = p
  end.
Proof.
  revert e q. induction p as [|x p IH]; intros e q; cbn [takeSelection].
  - by intros [= <- <-].
  - case_if; [intros [= <- <-]; bool_facts; auto|].
    destruct (takeSelection p g i) as [r q'] eqn:Ht. intros [= <- <-].
    specialize (IH _ _ eq_refl). destruct r as [e|]; [|by subst].
    destruct IH as (HP & ? & ?). split; [|done]. rewrite HP. apply Permutation_swap.
Qed.

(** What one loop over objects may do: use up some matching, unexpired
    selections, each once, and nothing else. *)
Definition sbo_effect cfg (now : Z) (objs : list ObjectHeader) (p : list sboEntry) d
    (p' : list sboEntry) d' : Prop :=
  ∃ used, used ++ p' ⊆+ p ∧
          Forall (λ e, now < sbo_expires e ∧ requested objs e) used ∧ controls cfg d used d'.

Lemma sbo_effect_refl cfg now objs p d : sbo_effect cfg now objs p d p d.
Proof. exists []. split; [done|]. split; [constructor|constructor]. Qed.

Lemma sbo_effect_trans cfg now objs p d p1 d1 p2 d2 :
  sbo_effect cfg now objs p d p1 d1 → sbo_effect cfg now objs p1 d1 p2 d2 →
  sbo_effect cfg now objs p d p2 d2.
Proof.
  intros (u1 & Hs1 & Hf1 & Hc1) (u2 & Hs2 & Hf2 & Hc2). exists (u1 ++ u2).
  split; [|split; [by apply Forall_app|eauto using controls_app]].
  rewrite <- app_assoc. etrans; [|exact Hs1]. by apply submseteq_app.
Qed.

Lemma sbo_effect_weaken cfg now objs objs' p d p' d' :
  objs ⊆ objs' → sbo_effect cfg now objs p d p' d' → sbo_effect cfg now objs' p d p' d'.
Proof.
  intros Hsub (u & Hs & Hf & Hc). exists u. split; [done|]. split; [|done].
  eapply Forall_impl; [exact Hf|]. intros e [? ?]. eauto using requested_weaken.
Qed.

Lemma sbo_object_effect cfg now oh po p d status p' d' :
  po ∈ PrefixedData oh →
  sbo_object cfg now false (Group oh) po p d = Ok (status, p', d') →
  sbo_effect cfg now [oh] p d p' d'.
Proof.
  intros Hpo. unfold sbo_object.
  destruct (takeSelection p (Group oh) (Index po)) as [sel q] eqn:Ht.
  apply takeSelection_spec in Ht. destruct sel as [e|].
  2:{ subst q. intros [= <- <- <-]. apply sbo_effect_refl. }
  destruct Ht as (HP & Hg & Hi). case_if.
  - bool_facts. apply bool_decide_eq_true in H. intros Hop.
    apply bind_Ok in Hop as ([st d1] & Hop & [= <- <- <-]).
    exists [e]. split; [by rewrite HP|]. split.
    + constructor; [|constructor]. split; [done|]. exists oh, po.
      split; [by apply list_elem_of_singleton|done].
    + econstructor; [|constructor]. rewrite Hg, Hi, H. by destruct po.
  - intros [= <- <- <-]. exists []. split; [|split; constructor].
    rewrite HP. by apply submseteq_cons.
Qed.

Lemma sbo_prefixed_effect cfg now oh pos p d out out' p' d' :
  pos ⊆ PrefixedData oh →
  sbo_prefixed cfg now false (Group oh) (Variation oh) pos p d out = Ok (out', p', d') →
  sbo_effect cfg now [oh] p d p' d'.
Proof.
  revert p d out. induction pos as [|po pos IH]; intros p d out Hsub; cbn [sbo_prefixed].
  - intros [= <- <- <-]. apply sbo_effect_refl.
  - intros H. apply bind_Ok in H as ([[status p1] d1] & H1 & H2).
    eapply sbo_effect_trans.
    + eapply sbo_object_effect; [|done]. apply Hsub, list_elem_of_here.
    + eapply IH; [|done]. intros x Hx. apply Hsub. by apply list_elem_of_further.
Qed.

Lemma sbo_objects_effect cfg now objs p d out iin out' iin' p' d' :
  sbo_objects cfg now false objs p d out iin = Ok (out', iin', p', d') →
  sbo_effect cfg now objs p d p' d'.
Proof.
  revert p d out iin. induction objs as [|oh objs IH]; intros p d out iin; cbn [sbo_objects].
  - intros [= <- <- <- <-]. apply sbo_effect_refl.
  - assert (objs ⊆ oh :: objs) by (intros x; apply list_elem_of_further).
    case_if; intros H'; [by eapply sbo_effect_weaken; [|eapply IH]|].
    apply bind_Ok in H' as ([[out1 p1] d1] & H1 & H2).
    eapply sbo_effect_trans; [|by eapply sbo_effect_weaken; [|eapply IH]].
    eapply sbo_effect_weaken; [|by eapply sbo_prefixed_effect].
    intros x ->%list_elem_of_singleton. apply list_elem_of_here.
Qed.

(** C1. OPERATE changes the device only by the controls of selections of this
    connection: each used selection is pending (and is used at most once), has
    not expired, and is repeated octet for octet by an object of the request;
    afterwards no selection is left. *)
Theorem operate_requires_select cfg (now : Z) (cs cs' : connState) d d' (apdu : APDU) out iin :
  handleOperate cfg now cs d apdu = Ok (out, iin, cs', d') →
  pending cs' = [] ∧
  ∃ used, used ⊆+ pending cs ∧
          Forall (λ e, now < sbo_expires e ∧ requested (Objects apdu) e) used ∧
          controls cfg d used d'.
Proof.
  unfold handleOperate, handleSBO. intros H.
  apply bind_Ok in H as ([[[out1 iin1] cs1] d1] & H & [= <- <- <- <-]). split; [done|].
  apply bind_Ok in H as ([[[out2 iin2] p2] d2] & H & [= <- <- <- <-]).
  apply sbo_objects_effect in H as (used & Hs & Hf & Hc). exists used.
  split; [|done]. etrans; [|exact Hs]. by apply submseteq_inserts_r.
Qed.

(** ** Selecting *)

(** A pending selection a request puts in place. *)
Definition armed cfg (now : Z) (objs : list ObjectHeader) (e : sboEntry) : Prop :=
  requested objs e ∧ sbo_found cfg (sbo_group e) (sbo_index e) = true ∧
  sbo_expires e = now + sbo_timeout.

Lemma select_prefixed cfg now all oh pos p d out :
  oh ∈ all → pos ⊆ PrefixedData oh → Forall (armed cfg now all) p →
  ∃ out' p', sbo_prefixed cfg now true (Group oh) (Variation oh) pos p d out = Ok (out', p', d) ∧
             Forall (armed cfg now all) p'.
Proof.
  intros Hoh. revert p out. induction pos as [|po pos IH]; intros p out Hsub Hp;
    cbn [sbo_prefixed]; [eauto|].
  assert (pos ⊆ PrefixedData oh) by (intros x Hx; apply Hsub; by apply list_elem_of_further).
  unfold sbo_object. case_if; cbn [bind]; apply IH; try done.
  apply Forall_app. split; [done|]. constructor; [|constructor]. split; [|done].
  exists oh, po. split; [done|]. split; [|done]. apply Hsub, list_elem_of_here.
Qed.

Lemma select_objects cfg now all objs p d out iin :
  objs ⊆ all → Forall (armed cfg now all) p →
  ∃ out' iin' p', sbo_objects cfg now true objs p d out iin = Ok (out', iin', p', d) ∧
                  Forall (armed cfg now all) p'.
Proof.
  revert p out iin. induction objs as [|oh objs IH]; intros p out iin Hsub Hp; cbn [sbo_objects].
  { eauto. }
  assert (objs ⊆ all) by (intros x Hx; apply Hsub; by apply list_elem_of_further).
  case_if; [by apply IH|].
  destruct (select_prefixed cfg now all oh (PrefixedData oh) p d out)
    as (out1 & p1 & -> & Hp1); [apply Hsub, list_elem_of_here|done..|].
  cbn [bind]. by apply IH.
Qed.

(** SELECT always answers, never touches the device, forgets the earlier
    selections of the connection, and arms only points the outstation has,
    with the octets of the request and an expiry five seconds ahead. *)
Theorem select_arms_only cfg (now : Z) (cs : connState) d (apdu : APDU) :
  ∃ out iin cs', handleSelect cfg now cs d apdu = Ok (out, iin, cs', d) ∧
                 txSeq cs' = txSeq cs ∧ Forall (armed cfg now (Objects apdu)) (pending cs').
Proof.
  unfold handleSelect, handleSBO. cbn [pending txSeq].
  destruct (select_objects cfg now (Objects apdu) (Objects apdu) [] d [] 0)
    as (out & iin & p & -> & Hp); [done|constructor|].
  by repeat eexists.
Qed.

(** ** Device Restart *)

(** An object that clears Device Restart: g80v1, index 7 only, value 0. *)
Definition clears_restart (oh : ObjectHeader) : Prop :=
  Group oh = 80 ∧ Variation oh = 1 ∧
  (Qualifier oh = QualStartStop8 ∨ Qualifier oh = QualStartStop16) ∧
  Start oh = 7 ∧ Stop oh = 7 ∧ Data oh = [0].

Lemma write_check_spec objs :
  ∃ bad, write_check objs = Ok bad ∧
         match bad with
         | None => Forall clears_restart objs
         | Some iin => (iin = IIN2ObjectUnknown ∨ iin = IIN2ParamError) ∧
                       ¬ Forall clears_restart objs
         end.
Proof.
  induction objs as [|oh objs (bad & IH & Hbad)]; cbn [write_check]; [by exists None|].
  case_if.
  { eexists. split; [done|]. split; [auto|]. intros Hf.
    apply Forall_cons in Hf as [(Hg & Hv & _) _]. by rewrite Hg, Hv in Hif. }
  case_if.
  { eexists. split; [done|]. split; [auto|]. intros Hf.
    apply Forall_cons in Hf as [(_ & _ & [Hq|Hq] & H1 & H2 & Hd) _];
      by rewrite Hq, H1, H2, Hd in Hif0. }
  bool_facts.
  destruct (Data oh) as [|d0 [|]] eqn:Hd; try done. cbn.
  destruct (Z.eqb_spec d0 0) as [->|Hd0]; cbn [negb].
  - rewrite IH. eexists. split; [done|].
    assert (clears_restart oh).
    { split; [done|]. split; [done|]. split; [|done].
      destruct (Z.eqb_spec (Qualifier oh) QualStartStop8); [by left|].
      destruct (Z.eqb_spec (Qualifier oh) QualStartStop16); [by right|done]. }
    destruct bad; [|by constructor]. destruct Hbad as [? Hn]. split; [done|].
    intros Hf. apply Hn. by apply Forall_cons in Hf as [_ ?].
  - eexists. split; [done|]. split; [auto|]. intros Hf.
    apply Forall_cons in Hf as [(_ & _ & _ & _ & _ & Hz) _]. congruence.
Qed.

Lemma handleWrite_spec (st : station D) (apdu : APDU) :
  ∃ iin st', handleWrite st apdu = Ok (iin, st') ∧
    ((Objects apdu ≠ [] ∧ Forall clears_restart (Objects apdu) ∧
      iin = 0 ∧ st' = mkStation (device st) true) ∨
     (¬ (Objects apdu ≠ [] ∧ Forall clears_restart (Objects apdu)) ∧ iin ≠ 0 ∧ st' = st)).
Proof.
  unfold handleWrite. destruct (Objects apdu) as [|oh objs] eqn:Ho.
  { do 2 eexists. split; [done|]. right. split; [naive_solver|done]. }
  destruct (write_check_spec (oh :: objs)) as (bad & -> & Hbad). cbn [bind].
  destruct bad as [iin|]; do 2 eexists; (split; [done|]).
  - right. destruct Hbad as [Hi Hn]. split; [naive_solver|]. split; [|done].
    by destruct Hi as [-> | ->].
  - by left.
Qed.

(** WRITE answers every request; it clears the restart indication exactly
    when the request has an object and every object is g80v1, index 7, value
    0, and otherwise reports an error and leaves the station unchanged. *)
Theorem write_clears_restart (st : station D) (apdu : APDU) :
  ∃ iin st', handleWrite st apdu = Ok (iin, st') ∧
    ((Objects apdu ≠ [] ∧ Forall clears_restart (Objects apdu) ∧
      iin = 0 ∧ st' = mkStation (device st) true) ∨
     (¬ (Objects apdu ≠ [] ∧ Forall clears_restart (Objects apdu)) ∧ iin ≠ 0 ∧ st' = st)).
Proof. apply handleWrite_spec. Qed.

(** ** The server returns *)
Lemma ParseCROB_returns data : returns (ParseCROB data).
Proof. unfold ParseCROB. returns_tac. bool_facts. apply idx_returns. lia. Qed.

Lemma ParseAnalogOutputCmd_returns data : returns (ParseAnalogOutputCmd data).
Proof.
  unfold ParseAnalogOutputCmd. case_if; [ret|]. bool_facts.
  apply bind_returns; [returns_tac|]. intros b [-> _]%slice_Ok.
  apply bind_returns; [|ret].
  assert (length (take (4 - 0) (drop 0 data)) = 4%nat) by (rewrite length_take, length_drop; lia).
  unfold Uint32. returns_tac.
Qed.

Lemma direct_crob_returns cfg pos d out : returns (direct_crob cfg pos d out).
Proof.
  revert d out. induction pos as [|po pos IH]; intros d out; cbn [direct_crob]; [ret|].
  apply bind_returns; [apply ParseCROB_returns|]. intros [cc ok] _. destruct ok; cbn [negb]; [|apply IH].
  destruct (operateBinaryOutput _ _ _ _). apply IH.
Qed.

Lemma direct_analog_returns cfg pos d out : returns (direct_analog cfg pos d out).
Proof.
  revert d out. induction pos as [|po pos IH]; intros d out; cbn [direct_analog]; [ret|].
  apply bind_returns; [apply ParseAnalogOutputCmd_returns|]. intros [v ok] _.
  destruct ok; cbn [negb]; [|apply IH]. destruct (operateAnalogOutput _ _ _ _). apply IH.
Qed.

Lemma direct_objects_returns cfg objs d out iin : returns (direct_objects cfg objs d out iin).
Proof.
  revert d out iin. induction objs as [|oh objs IH]; intros d out iin; cbn [direct_objects]; [ret|].
  case_if; [|case_if; [|apply IH]]; (apply bind_returns; [|intros [] _; apply IH]);
    [apply direct_crob_returns|apply direct_analog_returns].
Qed.

Lemma sbo_operate_returns cfg g po d :
  (0 < length (PData po))%nat → returns (sbo_operate cfg g po d).
Proof.
  intros. unfold sbo_operate. case_if.
  - apply bind_returns; [by apply idx_returns|ret].
  - apply bind_returns; [apply ParseAnalogOutputCmd_returns|]. ret.
Qed.

Lemma sbo_prefixed_returns cfg now sel g v pos p d out :
  Forall (λ po, 0 < length (PData po))%nat pos →
  returns (sbo_prefixed cfg now sel g v pos p d out).
Proof.
  intros Hpos. revert p d out. induction Hpos as [|po pos Hpo _ IH]; intros p d out;
    cbn [sbo_prefixed]; [ret|].
  apply bind_returns; [|intros [[] ] _; apply IH].
  unfold sbo_object. destruct sel; [case_if; apply Ok_returns|].
  destruct (takeSelection _ _ _) as [[e|] q]; [|ret]. case_if; [|ret].
  apply bind_returns; [by apply sbo_operate_returns|]. ret.
Qed.

Lemma sbo_objects_returns cfg now sel objs p d out iin :
  Forall sized objs → returns (sbo_objects cfg now sel objs p d out iin).
Proof.
  intros Hs. revert p d out iin. induction Hs as [|oh objs Hoh _ IH]; intros p d out iin;
    cbn [sbo_objects]; [ret|].
  destruct (_ && _) eqn:Hguard; [apply IH|].
  apply bind_returns; [|intros [[] ] _; apply IH]. apply sbo_prefixed_returns.
  eapply Forall_impl; [exact Hoh|]. cbv beta. intros po ->.
  apply andb_false_iff in Hguard as [H|H]; bool_facts; rewrite H, H0; unfold objectDataSize; cbn; lia.
Qed.

Lemma dispatch_returns cfg now st cs apdu failed :
  Forall sized (Objects apdu) → returns (dispatch cfg now st cs apdu failed).
Proof.
  intros Hs. unfold dispatch.
  assert (∀ sel cs', returns (handleSBO cfg now sel cs' (device st) apdu)) as Hsbo.
  { intros. unfold handleSBO. apply bind_returns; [by apply sbo_objects_returns|]. ret. }
  returns_tac; try apply direct_objects_returns; try apply Hsbo.
  - unfold handleOperate. apply bind_returns; [apply Hsbo|]. ret.
  - destruct (handleWrite_spec st apdu) as (? & ? & -> & _). ret.
Qed.

Lemma serve_frame_returns cfg now c frame : returns (serve_frame cfg now c frame).
Proof.
  unfold serve_frame. case_if; [ret|]. case_if; [ret|].
  destruct (ProcessSegment _ _) as [tr [m|]]; [|ret].
  apply bind_returns.
  - pose proof (ParseAPDU_safe m). destruct (ParseAPDU m); try done; [ret|].
    case_if; [ret|]. bool_facts. returns_tac.
  - intros [[apdu failed]|] Hreq; [|ret]. apply bind_returns.
    + apply dispatch_returns. destruct (ParseAPDU m) as [a| | |] eqn:Hp; try done.
      * injection Hreq as <- <-. by apply ParseAPDU_sized in Hp.
      * case_if_in Hreq; [done|]. apply bind_Ok in Hreq as (fc & _ & Hreq).
        case_if_in Hreq; [done|]. apply bind_Ok in Hreq as (ctl & _ & [= <- <-]). constructor.
    + intros [[[[ro iin]|] st'] cs'] _; [|ret].
      pose proof (WriteLinkFrame_safe (response_frame cfg frame st' cs' apdu ro iin)).
      destruct (WriteLinkFrame _); (done || ret).
Qed.

Lemma handleConn_returns fuel cfg clock n c r :
  (length r ≤ fuel)%nat → returns (handleConn fuel cfg clock n c r).
Proof.
  revert n c r. induction fuel as [|fuel IH]; intros n c r Hf; cbn [handleConn];
    destruct (ReadLinkFrame_safe r) as [Hs Hl];
    destruct (ReadLinkFrame r) as [[frame r']|e| |]; try done; try ret;
    specialize (Hl _ _ eq_refl); [lia|].
  apply bind_returns; [apply serve_frame_returns|]. intros [c' v] _.
  destruct v; [apply IH; lia| |ret].
  apply bind_returns; [apply IH; lia|]. ret.
Qed.

(** Whatever octets a peer sends, serving the connection returns: the
    outstation never panics (every index it takes into a request is in
    range) and its loops end within as many rounds as there are octets. *)
Theorem outstation_total cfg (clock : nat → Z) (st : station D) (r : list Z) :
  ∃ st' ws, handleConn (length r) cfg clock 0 (newConn st) r = Ok (st', ws).
Proof.
  destruct (handleConn_returns (length r) cfg clock 0 (newConn st) r) as [[st' ws] H]; [lia|].
  eauto.
Qed.

End Facts.

(** ** A concrete outstation: one latching output, one set-point *)
Definition demo_cfg : OutstationConfig (Z * Z) :=
  mkOutstationConfig 1 true 0
    [mkBP 0 (λ d, d.1 =? 3)]
    [mkBOP 0 (λ d, d.1 =? 3) (λ c d, (CROBStatusSuccess, (c, d.2)))]
    [mkAP 0 (λ d, d.2)]
    [mkAOP 0 (λ d, d.2) (λ v d, (CROBStatusSuccess, (d.1, v)))].

Definition demo_crob : list Z := [3; 1; 100; 0; 0; 0; 0; 0; 0; 0; 0].

Definition demo_request (fc : Z) : APDU :=
  mkAPDU 0xC1 fc 0 [mkObject GroupCROB VarCROB QualCount8Pfx8 0 0 1 [mkPrefixed 0 demo_crob] []].

Definition demo_selected : connState := mkConnState [mkSbo GroupCROB 0 demo_crob 5000000000] 0.

Lemma operate_requires_select_witness :
  pending (mkConnState [] 0) = [] ∧
  ∃ used, used ⊆+ pending demo_selected ∧
          Forall (λ e, 4999999999 < sbo_expires e ∧
                       requested (Objects (demo_request FCOperate)) e) used ∧
          controls demo_cfg (0, 7) used (3, 7).
Proof.
  eapply (operate_requires_select demo_cfg 4999999999 demo_selected (mkConnState [] 0)
            (0, 7) (3, 7) (demo_request FCOperate)).
  vm_compute. reflexivity.
Defined.

(** ** Numbering of a range read

    The answer to a range read is labelled from the requested start even when
    the first point inside the range has a higher index: point 5 answers a
    read of 0..9 as point 0. *)
Example range_read_numbering :
  readBinaryInputs
    (mkOutstationConfig 1 true 0 [mkBP 5 (λ d : unit, true)] [] [] []) tt
    (mkObject GroupBinaryInput VarBIStatus QualStartStop8 0 9 0 [] [])
  = EncodeBinaryInputs 0 [true].
Proof. by vm_compute. Qed.
