(* ===== verification/Dnp3Master.v ===== *)
(** * DNP3 master (dnp3go/master.go)

    The integrity poll: request, response checks and the extraction of the
    point values.  The TCP connection is a parameter of the model: [None] when
    the dial fails, otherwise the octets the peer answers to a request. *)
From S2P Require Import Prelude Dnp3Link Dnp3Transport Dnp3App Dnp3Outstation.

Record MasterConfig : Type := mkMasterConfig {
  M_MasterAddr : Z;
  M_OutstationAddr : Z
}.

Inductive poll_error : Type :=
| PollConnect
| PollWrite (e : dnp3_error)
| PollRead (e : dnp3_error)
| PollAddressMismatch (destination source : Z)
| PollUnexpectedControl (control : Z)
| PollIncompleteTransport
| PollParse (e : dnp3_error)
| PollUnexpectedFunction (funcCode control : Z).

Record PollResult : Type := mkPollResult {
  R_BinaryInputs : gmap Z bool;
  R_BinaryOutputs : gmap Z bool;
  R_AnalogInputs : gmap Z Z;
  R_AnalogOutputs : gmap Z Z;
  R_IIN : Z;
  R_Error : option poll_error
}.

Definition emptyResult : PollResult := mkPollResult ∅ ∅ ∅ ∅ 0 None.

Definition fail_poll (r : PollResult) (e : poll_error) : PollResult :=
  mkPollResult (R_BinaryInputs r) (R_BinaryOutputs r) (R_AnalogInputs r) (R_AnalogOutputs r)
               (R_IIN r) (Some e).

(** The loop of [parseInlineBinary]; the index is a [uint16] and wraps. *)
Fixpoint inline_binary (fuel : nat) (data : list Z) (i start stop : Z) (out : gmap Z bool)
    : outcome dnp3_error (gmap Z bool) :=
  if i <=? stop then
    match fuel with
    | O => Diverge
    | S fuel' =>
        let offset := Z.to_nat (u16 (i - start)) in
        if (length data <=? offset)%nat then Ok out
        else
          let! b := idx data offset in
          inline_binary fuel' data (u16 (i + 1)) start stop (<[i := has b 0x80]> out)
    end
  else Ok out.

Definition parseInlineBinary (oh : ObjectHeader) (out : gmap Z bool) (start stop : Z)
    : outcome dnp3_error (gmap Z bool) :=
  if (length (Data oh) =? 0)%nat then Ok out
  else inline_binary (S (length (Data oh))) (Data oh) start start stop out.

(** The loop of [parseInlineAnalog]. *)
Fixpoint inline_analog (fuel : nat) (data : list Z) (offset : nat) (i stop : Z) (out : gmap Z Z)
    : outcome dnp3_error (gmap Z Z) :=
  if i <=? stop then
    match fuel with
    | O => Diverge
    | S fuel' =>
        if (length data <? offset + 5)%nat then Ok out
        else
          let offset1 := (offset + 1)%nat in
          if (length data <? offset1 + 4)%nat then Ok out
          else
            let! b0 := idx data offset1 in
            let! b1 := idx data (offset1 + 1) in
            let! b2 := idx data (offset1 + 2) in
            let! b3 := idx data (offset1 + 3) in
            inline_analog fuel' data (offset1 + 4) (u16 (i + 1)) stop
              (<[i := Z.lor (Z.lor (Z.lor b0 (Z.shiftl b1 8)) (Z.shiftl b2 16)) (Z.shiftl b3 24)]>
                 out)
    end
  else Ok out.

Definition parseInlineAnalog (oh : ObjectHeader) (out : gmap Z Z) (start stop : Z)
    : outcome dnp3_error (gmap Z Z) :=
  if (length (Data oh) =? 0)%nat then Ok out
  else inline_analog (S (length (Data oh))) (Data oh) 0 start stop out.

(** One response object: the switch of the extraction loop. *)
Definition extract (r : PollResult) (oh : ObjectHeader) : outcome dnp3_error PollResult :=
  let '(mkPollResult bi bo ai ao iin err) := r in
  if (Group oh =? GroupBinaryInput) && (Variation oh =? VarBIStatus) then
    let! m := parseInlineBinary oh bi (Start oh) (Stop oh) in Ok (mkPollResult m bo ai ao iin err)
  else if (Group oh =? GroupBinaryOutput) && (Variation oh =? VarBOStatus) then
    let! m := parseInlineBinary oh bo (Start oh) (Stop oh) in Ok (mkPollResult bi m ai ao iin err)
  else if (Group oh =? GroupAnalogInput) && (Variation oh =? VarAIFloat) then
    let! m := parseInlineAnalog oh ai (Start oh) (Stop oh) in Ok (mkPollResult bi bo m ao iin err)
  else if (Group oh =? GroupAnalogOutput) && (Variation oh =? VarAOFloat) then
    let! m := parseInlineAnalog oh ao (Start oh) (Stop oh) in Ok (mkPollResult bi bo ai m iin err)
  else Ok r.

Fixpoint extract_all (r : PollResult) (objs : list ObjectHeader) : outcome dnp3_error PollResult :=
  match objs with
  | [] => Ok r
  | oh :: objs' => let! r' := extract r oh in extract_all r' objs'
  end.

(** Read FC01, group 60 variation 1, all points. *)
Definition integrity_poll : list Z :=
  [Z.lor acFIR acFIN; FCRead; GroupClassData; VarClass0; QualAllPoints].

Definition poll_request (cfg : MasterConfig) : LinkFrame :=
  mkLinkFrame (Z.lor (Z.lor ctrlDIR ctrlPRM) ctrlFCUnconfirmedData)
              (M_OutstationAddr cfg) (M_MasterAddr cfg) (WrapTransport integrity_poll 0).

Definition Poll (cfg : MasterConfig) (conn : option (list Z → list Z))
    : outcome dnp3_error PollResult :=
  match conn with
  | None => Ok (fail_poll emptyResult PollConnect)
  | Some peer =>
      match WriteLinkFrame (poll_request cfg) with
      | Panic => Panic
      | Diverge => Diverge
      | Err e => Ok (fail_poll emptyResult (PollWrite e))
      | Ok wire =>
          match ReadLinkFrame (peer wire) with
          | Panic => Panic
          | Diverge => Diverge
          | Err e => Ok (fail_poll emptyResult (PollRead e))
          | Ok (resp, _) =>
              if negb (Dest resp =? M_MasterAddr cfg) || negb (Source resp =? M_OutstationAddr cfg)
              then Ok (fail_poll emptyResult (PollAddressMismatch (Dest resp) (Source resp)))
              else if negb (Control resp =? MakeResponseControl)
              then Ok (fail_poll emptyResult (PollUnexpectedControl (Control resp)))
              else
                let (_, msg) := ProcessSegment newTransportReader (Payload resp) in
                match msg with
                | None => Ok (fail_poll emptyResult PollIncompleteTransport)
                | Some appData =>
                    match ParseAPDU appData with
                    | Panic => Panic
                    | Diverge => Diverge
                    | Err e => Ok (fail_poll emptyResult (PollParse e))
                    | Ok apdu =>
                        if negb (FuncCode apdu =? FCResponse) ||
                           negb (AControl apdu =? Z.lor acFIR acFIN)
                        then Ok (fail_poll emptyResult
                                   (PollUnexpectedFunction (FuncCode apdu) (AControl apdu)))
                        else extract_all (mkPollResult ∅ ∅ ∅ ∅ (IIN apdu) None) (Objects apdu)
                    end
                end
          end
      end
  end.

(** [m] holds exactly the values [vs], at consecutive indices from [base]. *)
Definition reads_as {V} (m : gmap Z V) (base : Z) (vs : list V) : Prop :=
  ∀ z, m !! z = if z <? base then None else vs !! Z.to_nat (z - base).

(** ** Extraction of a run of points *)
Fixpoint insert_run {V} (base : Z) (vs : list V) (m : gmap Z V) : gmap Z V :=
  match vs with
  | [] => m
  | v :: vs' => insert_run (base + 1) vs' (<[base := v]> m)
  end.

Lemma insert_run_lookup {V} base (vs : list V) m z :
  insert_run base vs m !! z =
  if (base <=? z) && (z <? base + zlen vs) then vs !! Z.to_nat (z - base) else m !! z.
Proof.
  revert base m. induction vs as [|v vs IH]; intros base m; cbn [insert_run].
  { unfold zlen. cbn. case_if; [|done]. bool_facts. lia. }
  rewrite IH. unfold zlen. cbn [length].
  destruct (Z.eq_dec z base) as [->|Hne].
  - replace (base + 1 <=? base) with false by (symmetry; apply Z.leb_gt; lia). cbn.
    rewrite lookup_insert_eq.
    replace ((base <=? base) && _) with true
      by (symmetry; apply andb_true_iff; rewrite Z.leb_le, Z.ltb_lt; lia).
    by rewrite Z.sub_diag.
  - rewrite lookup_insert_ne by done.
    assert ((base + 1 <=? z) && (z <? base + 1 + Z.of_nat (length vs)) =
            (base <=? z) && (z <? base + Z.of_nat (S (length vs)))) as Hb.
    { apply eq_bool_prop_intro. rewrite !Is_true_true, !andb_true_iff, !Z.leb_le, !Z.ltb_lt. lia. }
    rewrite Hb. case_if; [|done]. bool_facts.
    replace (Z.to_nat (z - base)) with (S (Z.to_nat (z - (base + 1)))) by lia. done.
Qed.

Lemma insert_run_reads_as {V} base (vs : list V) : reads_as (insert_run base vs ∅) base vs.
Proof.
  intros z. rewrite insert_run_lookup, lookup_empty.
  destruct (Z.ltb_spec z base); destruct (Z.leb_spec base z); try lia; cbn [andb]; [done|].
  case_if; bool_facts; [done|]. symmetry. apply lookup_ge_None. unfold zlen in *. lia.
Qed.

Lemma flag_octet_value v : has (flag_octet v) 0x80 = v.
Proof. by destruct v. Qed.

Lemma inline_binary_run base (done_ : list bool) vs m fuel :
  0 ≤ base → base + zlen (done_ ++ vs) ≤ 256 → (length vs < fuel)%nat →
  inline_binary fuel (flag_octet <$> done_ ++ vs) (base + zlen done_) base
    (base + zlen (done_ ++ vs) - 1) m
  = Ok (insert_run (base + zlen done_) vs m).
Proof.
  intros Hb. revert done_ m fuel. induction vs as [|v vs IH]; intros done_ m fuel Hle Hf.
  - destruct fuel as [|fuel]; [lia|]. cbn [inline_binary]. rewrite app_nil_r.
    by replace (_ <=? _) with false by (symmetry; apply Z.leb_gt; lia).
  - destruct fuel as [|fuel]; [cbn in Hf; lia|]. cbn [inline_binary].
    unfold zlen in *. rewrite length_app in *. cbn [length] in *.
    replace (_ <=? _) with true by (symmetry; apply Z.leb_le; lia).
    rewrite (u16_small (_ - base)) by (unfold is_u16; lia).
    replace (Z.to_nat (base + Z.of_nat (length done_) - base)) with (length done_) by lia.
    rewrite length_fmap, length_app. cbn [length].
    replace (_ <=? _)%nat with false by (symmetry; apply Nat.leb_gt; lia).
    rewrite fmap_app, fmap_cons, idx_at by by rewrite length_fmap. cbn [bind].
    rewrite flag_octet_value, u16_small by (unfold is_u16; lia).
    specialize (IH (done_ ++ [v]) (<[base + Z.of_nat (length done_):=v]> m) fuel).
    rewrite <- app_assoc, !length_app in IH. cbn [app length] in IH.
    rewrite fmap_app, fmap_cons in IH. cbn [insert_run].
    replace (base + Z.of_nat (length done_) + 1) with (base + Z.of_nat (length done_ + 1)) by lia.
    apply IH; lia.
Qed.

Lemma inline_analog_run base (done_ : list Z) vs m fuel :
  0 ≤ base → base + zlen (done_ ++ vs) ≤ 256 → Forall is_u32 vs → (length vs < fuel)%nat →
  inline_analog fuel (concat (float_octets <$> done_ ++ vs)) (5 * length done_)
    (base + zlen done_) (base + zlen (done_ ++ vs) - 1) m
  = Ok (insert_run (base + zlen done_) vs m).
Proof.
  intros Hb Hle Hvs. revert done_ m fuel Hle.
  induction Hvs as [|v vs Hv _ IH]; intros done_ m fuel Hle Hf.
  - destruct fuel as [|fuel]; [lia|]. cbn [inline_analog]. rewrite app_nil_r.
    by replace (_ <=? _) with false by (symmetry; apply Z.leb_gt; lia).
  - destruct fuel as [|fuel]; [cbn in Hf; lia|]. cbn [inline_analog].
    unfold zlen in *. rewrite length_app in *. cbn [length] in *.
    replace (_ <=? _) with true by (symmetry; apply Z.leb_le; lia).
    pose proof (length_float_octets done_) as Hd.
    rewrite length_float_octets, length_app. cbn [length].
    rewrite !ltb_len_false by lia.
    rewrite fmap_app, fmap_cons, concat_app. cbn [concat].
    set (pre := concat (float_octets <$> done_)) in *.
    set (post := concat (float_octets <$> vs)) in *.
    rewrite (idx_app pre _ _ 1), (idx_app pre _ _ 2), (idx_app pre _ _ 3), (idx_app pre _ _ 4) by lia.
    unfold float_octets at 1 2 3 4, PutUint32, idx. cbn [app lookup list_lookup bind].
    match goal with |- context [<[_ := ?x]> _] =>
      change x with (le32 (u8 v) (u8 (Z.shiftr v 8)) (u8 (Z.shiftr v 16)) (u8 (Z.shiftr v 24))) end.
    rewrite le32_bytes, u16_small by (done || unfold is_u16; lia).
    specialize (IH (done_ ++ [v]) (<[base + Z.of_nat (length done_):=v]> m) fuel).
    rewrite <- app_assoc, !length_app in IH. cbn [app length] in IH.
    rewrite fmap_app, fmap_cons, concat_app in IH. cbn [concat insert_run] in *.
    replace (base + Z.of_nat (length done_) + 1) with (base + Z.of_nat (length done_ + 1)) by lia.
    replace (5 * length done_ + 1 + 4)%nat with (5 * (length done_ + 1))%nat by lia.
    apply IH; lia.
Qed.

(** ** The static response *)
Definition static_list (g v base : Z) (n : nat) (d : list Z) : list ObjectHeader :=
  if (n =? 0)%nat then [] else [static_object g v base n d].

Lemma encode_bools_octets g v base vals : 0 ≤ base → base + zlen vals ≤ 256 →
  encode_bools g v base vals =
  concat (object_octets <$> static_list g v base (length vals) (flag_octet <$> vals)).
Proof.
  intros Hb Hle. unfold encode_bools, static_list. destruct vals as [|x vals]; [done|].
  cbn [length Nat.eqb fmap list_fmap concat]. rewrite app_nil_r.
  apply static_header_octets; unfold zlen in *; cbn [length] in *; lia.
Qed.

Lemma encode_floats_octets g v base vals : 0 ≤ base → base + zlen vals ≤ 256 →
  encode_floats g v base vals =
  concat (object_octets <$> static_list g v base (length vals) (concat (float_octets <$> vals))).
Proof.
  intros Hb Hle. unfold encode_floats, static_list. destruct vals as [|x vals]; [done|].
  cbn [length Nat.eqb]. rewrite fmap_cons. cbn [fmap list_fmap concat]. rewrite app_nil_r.
  apply static_header_octets; unfold zlen in *; cbn [length] in *; lia.
Qed.

Lemma static_list_ok g v base n d :
  0 ≤ base → base + Z.of_nat n ≤ 256 → (g =? 80) = false →
  length d = (n * objectDataSize g v)%nat →
  Forall (object_ok FCResponse) (static_list g v base n d).
Proof.
  intros Hb Hle Hg Hd. unfold static_list. destruct (Nat.eqb_spec n 0); [constructor|].
  constructor; [|constructor]. unfold object_ok, static_object. cbn. unfold is_u8, range_octets.
  rewrite Hg. cbn [andb]. repeat split; try lia; try (rewrite Hd; f_equal; lia).
Qed.

(** Consecutive points from the first one's index, all below 256. *)
Definition consecutive {P} (index : P → Z) (pts : list P) : Prop :=
  ∀ p0 i p, pts !! 0%nat = Some p0 → pts !! i = Some p →
            0 ≤ index p0 ∧ index p0 + zlen pts ≤ 256 ∧ index p = index p0 + Z.of_nat i.

(** [m] holds the current value of every point, under its index, and nothing else. *)
Definition holds_points {D P V} (m : gmap Z V) (index : P → Z) (read : P → D → V)
    (pts : list P) (d : D) : Prop :=
  ∀ z v, m !! z = Some v ↔ ∃ p, p ∈ pts ∧ index p = z ∧ read p d = v.

Definition base_of {P} (index : P → Z) (pts : list P) : Z :=
  match pts with [] => 0 | p :: _ => index p end.

Lemma consecutive_base {P} (index : P → Z) pts :
  consecutive index pts → 0 ≤ base_of index pts ∧ base_of index pts + zlen pts ≤ 256.
Proof.
  intros Hc. destruct pts as [|p pts]; [unfold zlen; cbn; lia|].
  destruct (Hc p 0%nat p eq_refl eq_refl) as (? & ? & _). done.
Qed.

Lemma insert_run_holds {D P V} (index : P → Z) (read : P → D → V) pts d :
  consecutive index pts →
  holds_points (insert_run (base_of index pts) ((λ p, read p d) <$> pts) ∅) index read pts d.
Proof.
  intros Hc z v. rewrite insert_run_reads_as, list_lookup_fmap. split.
  - case_if; [done|]. bool_facts. intros (p & Hp & ->)%fmap_Some.
    exists p. split; [by eapply list_elem_of_lookup_2|]. split; [|done].
    destruct pts as [|p0 pts]; [done|]. cbn [base_of] in *.
    destruct (Hc p0 _ p eq_refl Hp) as (_ & _ & ->). lia.
  - intros (p & (i & Hp)%list_elem_of_lookup & <- & <-).
    destruct pts as [|p0 pts]; [done|]. cbn [base_of] in *.
    destruct (Hc p0 _ p eq_refl Hp) as (? & ? & ->).
    replace (_ <? _) with false by (symmetry; apply Z.ltb_ge; lia).
    replace (Z.to_nat _) with i by lia. by rewrite Hp.
Qed.

Section Poll.
Context {D : Type}.
Implicit Types (cfg : OutstationConfig D) (d : D).

(** The objects of the class 0 response. *)
Definition class0 cfg d : list ObjectHeader :=
  static_list GroupBinaryInput VarBIStatus (base_of BP_Index (BinaryInputs cfg))
    (length (BinaryInputs cfg)) (flag_octet <$> ((λ q, BP_Read q d) <$> BinaryInputs cfg)) ++
  static_list GroupBinaryOutput VarBOStatus (base_of BOP_Index (BinaryOutputs cfg))
    (length (BinaryOutputs cfg)) (flag_octet <$> ((λ q, BOP_Read q d) <$> BinaryOutputs cfg)) ++
  static_list GroupAnalogInput VarAIFloat (base_of AP_Index (AnalogInputs cfg))
    (length (AnalogInputs cfg)) (concat (float_octets <$> ((λ q, AP_Read q d) <$> AnalogInputs cfg))) ++
  static_list GroupAnalogOutput VarAOFloat (base_of AOP_Index (AnalogOutputs cfg))
    (length (AnalogOutputs cfg)) (concat (float_octets <$> ((λ q, AOP_Read q d) <$> AnalogOutputs cfg))).

(** The points are numbered consecutively in each table and read values that
    fit a [float32]. *)
Definition points_ok cfg d : Prop :=
  consecutive BP_Index (BinaryInputs cfg) ∧ consecutive BOP_Index (BinaryOutputs cfg) ∧
  consecutive AP_Index (AnalogInputs cfg) ∧ consecutive AOP_Index (AnalogOutputs cfg) ∧
  Forall (λ p, is_u32 (AP_Read p d)) (AnalogInputs cfg) ∧
  Forall (λ p, is_u32 (AOP_Read p d)) (AnalogOutputs cfg).

Lemma zlen_fmap {A B} (f : A → B) l : zlen (f <$> l) = zlen l.
Proof. unfold zlen. by rewrite length_fmap. Qed.

Lemma encodeAllStatic_octets cfg d : points_ok cfg d →
  encodeAllStatic cfg d = concat (object_octets <$> class0 cfg d).
Proof.
  intros (H1 & H2 & H3 & H4 & _ & _).
  apply consecutive_base in H1 as [? ?], H2 as [? ?], H3 as [? ?], H4 as [? ?].
  unfold class0. rewrite !fmap_app, !concat_app. unfold encodeAllStatic.
  unfold EncodeBinaryInputs, EncodeBinaryOutputStatus, EncodeAnalogInputs, EncodeAnalogOutputStatus.
  f_equal; [|f_equal; [|f_equal]].
  - destruct (BinaryInputs cfg) as [|p l] eqn:E; [done|].
    rewrite encode_bools_octets by (rewrite ?zlen_fmap; done). by rewrite length_fmap.
  - destruct (BinaryOutputs cfg) as [|p l] eqn:E; [done|].
    rewrite encode_bools_octets by (rewrite ?zlen_fmap; done). by rewrite length_fmap.
  - destruct (AnalogInputs cfg) as [|p l] eqn:E; [done|].
    rewrite encode_floats_octets by (rewrite ?zlen_fmap; done). by rewrite length_fmap.
  - destruct (AnalogOutputs cfg) as [|p l] eqn:E; [done|].
    rewrite encode_floats_octets by (rewrite ?zlen_fmap; done). by rewrite length_fmap.
Qed.

Lemma class0_ok cfg d : points_ok cfg d → Forall (object_ok FCResponse) (class0 cfg d).
Proof.
  intros (H1 & H2 & H3 & H4 & _ & _).
  apply consecutive_base in H1 as [? ?], H2 as [? ?], H3 as [? ?], H4 as [? ?].
  unfold class0. rewrite !Forall_app. unfold zlen in *.
  repeat split; apply static_list_ok; try done;
    rewrite ?length_float_octets, ?length_fmap; cbn; lia.
Qed.

(** ** Reading the response *)
Lemma extract_all_app r a b :
  extract_all r (a ++ b) = let! r' := extract_all r a in extract_all r' b.
Proof.
  revert r. induction a as [|oh a IH]; intros r; cbn [app extract_all]; [done|].
  destruct (extract r oh); cbn [bind]; [apply IH|done..].
Qed.

Lemma parse_static_binary g v base vals (m : gmap Z bool) :
  0 ≤ base → base + zlen vals ≤ 256 → vals ≠ [] →
  let oh := static_object g v base (length vals) (flag_octet <$> vals) in
  parseInlineBinary oh m (Start oh) (Stop oh) = Ok (insert_run base vals m).
Proof.
  intros Hb Hle Hne. unfold parseInlineBinary, static_object. cbn [Data Start Stop].
  rewrite length_fmap. destruct vals as [|x vals]; [done|]. cbn [Nat.eqb length].
  pose proof (inline_binary_run base [] (x :: vals) m (S (S (length vals)))) as H.
  unfold zlen in *. cbn [length app] in *. rewrite Z.add_0_r in H. apply H; lia.
Qed.

Lemma parse_static_analog g v base vals (m : gmap Z Z) :
  0 ≤ base → base + zlen vals ≤ 256 → Forall is_u32 vals → vals ≠ [] →
  let oh := static_object g v base (length vals) (concat (float_octets <$> vals)) in
  parseInlineAnalog oh m (Start oh) (Stop oh) = Ok (insert_run base vals m).
Proof.
  intros Hb Hle Hvs Hne. unfold parseInlineAnalog, static_object. cbn [Data Start Stop].
  rewrite length_float_octets. destruct vals as [|x vals]; [done|].
  replace (_ =? 0)%nat with false by (symmetry; apply Nat.eqb_neq; cbn; lia).
  pose proof (inline_analog_run base [] (x :: vals) m (S (5 * length (x :: vals)))) as H.
  unfold zlen in *. cbn [length app Nat.mul] in *. rewrite Z.add_0_r in H. apply H; (done || lia).
Qed.

(** One table of the response, by the lemma [lem] on its inline data. *)
Ltac extract_static lem :=
  intros;
  match goal with
  | |- extract_all _ (static_list ?g ?v ?base (length ?vals) _) = _ =>
      let x := fresh in destruct vals as [|x vals]; [done|];
      let Hp := fresh "Hp" in pose proof (lem g v base (x :: vals) ∅) as Hp;
      unfold static_list; cbv zeta in Hp; cbn [length Nat.eqb extract_all] in *;
      let oh := fresh "oh" in set (oh := static_object g v base _ _) in *;
      let Hg := fresh in assert (Group oh = g) as Hg by done;
      let Hv := fresh in assert (Variation oh = v) as Hv by done;
      clearbody oh; unfold extract; rewrite Hg, Hv; cbn -[parseInlineBinary parseInlineAnalog zlen] in *;
      by rewrite Hp
  end.

Lemma extract_bi base vals bo ai ao iin : 0 ≤ base → base + zlen vals ≤ 256 →
  extract_all (mkPollResult ∅ bo ai ao iin None)
    (static_list GroupBinaryInput VarBIStatus base (length vals) (flag_octet <$> vals))
  = Ok (mkPollResult (insert_run base vals ∅) bo ai ao iin None).
Proof. extract_static parse_static_binary. Qed.

Lemma extract_bo base vals bi ai ao iin : 0 ≤ base → base + zlen vals ≤ 256 →
  extract_all (mkPollResult bi ∅ ai ao iin None)
    (static_list GroupBinaryOutput VarBOStatus base (length vals) (flag_octet <$> vals))
  = Ok (mkPollResult bi (insert_run base vals ∅) ai ao iin None).
Proof. extract_static parse_static_binary. Qed.

Lemma extract_ai base vals bi bo ao iin :
  0 ≤ base → base + zlen vals ≤ 256 → Forall is_u32 vals →
  extract_all (mkPollResult bi bo ∅ ao iin None)
    (static_list GroupAnalogInput VarAIFloat base (length vals) (concat (float_octets <$> vals)))
  = Ok (mkPollResult bi bo (insert_run base vals ∅) ao iin None).
Proof. extract_static parse_static_analog. Qed.

Lemma extract_ao base vals bi bo ai iin :
  0 ≤ base → base + zlen vals ≤ 256 → Forall is_u32 vals →
  extract_all (mkPollResult bi bo ai ∅ iin None)
    (static_list GroupAnalogOutput VarAOFloat base (length vals) (concat (float_octets <$> vals)))
  = Ok (mkPollResult bi bo ai (insert_run base vals ∅) iin None).
Proof. extract_static parse_static_analog. Qed.

Lemma class0_extract cfg d iin : points_ok cfg d →
  extract_all (mkPollResult ∅ ∅ ∅ ∅ iin None) (class0 cfg d) =
  Ok (mkPollResult
        (insert_run (base_of BP_Index (BinaryInputs cfg)) ((λ q, BP_Read q d) <$> BinaryInputs cfg) ∅)
        (insert_run (base_of BOP_Index (BinaryOutputs cfg)) ((λ q, BOP_Read q d) <$> BinaryOutputs cfg) ∅)
        (insert_run (base_of AP_Index (AnalogInputs cfg)) ((λ q, AP_Read q d) <$> AnalogInputs cfg) ∅)
        (insert_run (base_of AOP_Index (AnalogOutputs cfg)) ((λ q, AOP_Read q d) <$> AnalogOutputs cfg) ∅)
        iin None).
Proof.
  intros (H1 & H2 & H3 & H4 & Hai & Hao).
  apply consecutive_base in H1 as [? ?], H2 as [? ?], H3 as [? ?], H4 as [? ?].
  unfold class0.
  rewrite <- (length_fmap (λ q, BP_Read q d) (BinaryInputs cfg)).
  rewrite <- (length_fmap (λ q, BOP_Read q d) (BinaryOutputs cfg)).
  rewrite <- (length_fmap (λ q, AP_Read q d) (AnalogInputs cfg)).
  rewrite <- (length_fmap (λ q, AOP_Read q d) (AnalogOutputs cfg)).
  rewrite extract_all_app, extract_bi by (rewrite ?zlen_fmap; done). cbn [bind].
  rewrite extract_all_app, extract_bo by (rewrite ?zlen_fmap; done). cbn [bind].
  rewrite extract_all_app, extract_ai by (rewrite ?zlen_fmap, ?Forall_fmap; done). cbn [bind].
  by rewrite extract_ao by (rewrite ?zlen_fmap, ?Forall_fmap; done).
Qed.

(** ** Poll against an outstation *)

(** The peer of a poll is an outstation that serves the connection. *)
Definition outstation_peer cfg (clock : nat → Z) (st : station D) (req : list Z) : list Z :=
  match handleConn (length req) cfg clock 0 (newConn st) req with
  | Ok (_, responses) => concat responses
  | _ => []
  end.

(** The outstation takes frames of this master, and both addresses are 16-bit. *)
Definition peers (mcfg : MasterConfig) cfg : Prop :=
  M_OutstationAddr mcfg = OutstationAddr cfg ∧
  (AcceptAnyMaster cfg = true ∨ MasterAddr cfg = M_MasterAddr mcfg) ∧
  is_u16 (M_MasterAddr mcfg) ∧ is_u16 (M_OutstationAddr mcfg).

(** The frame an outstation answers to an integrity poll. *)
Definition poll_response (mcfg : MasterConfig) cfg (st : station D) : LinkFrame :=
  mkLinkFrame MakeResponseControl (M_MasterAddr mcfg) (OutstationAddr cfg)
    (WrapTransport
       (BuildResponse 0 (if restartCleared st then 0 else 0x8000) (encodeAllStatic cfg (device st)))
       0).

Definition poll_apdu : APDU :=
  mkAPDU 0xC0 FCRead 0 [mkObject GroupClassData VarClass0 QualAllPoints 0 0 0 [] []].

Lemma integrity_poll_parses : ParseAPDU integrity_poll = Ok poll_apdu.
Proof. vm_compute. reflexivity. Qed.

Lemma dispatch_poll cfg now (st : station D) cs :
  dispatch cfg now st cs poll_apdu false = Ok (Some (encodeAllStatic cfg (device st), 0), st, cs).
Proof. done. Qed.

Lemma serve_poll mcfg cfg now (st : station D) wire :
  peers mcfg cfg → WriteLinkFrame (poll_response mcfg cfg st) = Ok wire →
  ∃ c, serve_frame cfg now (newConn st) (poll_request mcfg) = Ok (c, Respond wire).
Proof.
  intros (Ha & Hm & _ & _) Hw. unfold serve_frame.
  replace (negb (Dest _ =? _) && _) with false by (cbn; by rewrite Ha, Z.eqb_refl).
  replace (negb (AcceptAnyMaster cfg) && _) with false
    by (cbn; destruct Hm as [-> | ->]; rewrite ?Z.eqb_refl, ?andb_false_r; done).
  destruct (ProcessSegment_Wrap (c_transport (newConn st)) integrity_poll 0) as [next Hseg].
  change (Payload (poll_request mcfg)) with (WrapTransport integrity_poll 0).
  rewrite Hseg, integrity_poll_parses. cbn [bind]. rewrite dispatch_poll. cbn [bind].
  assert (response_frame cfg (poll_request mcfg) (c_station (newConn st)) (c_state (newConn st))
            poll_apdu (encodeAllStatic cfg (device st)) 0 = poll_response mcfg cfg st) as Hr.
  { unfold response_frame, poll_response. cbn [c_station newConn]. by destruct (restartCleared st). }
  cbn [c_station newConn] in *. rewrite Hr, Hw. by eexists.
Qed.

Lemma poll_request_ok mcfg cfg : peers mcfg cfg → frame_ok (poll_request mcfg).
Proof.
  intros (_ & _ & ? & ?). split; [split; by vm_compute|]. split; [done|]. split; [done|].
  cbn [Payload poll_request]. unfold WrapTransport, integrity_poll. octets.
Qed.

Lemma encode_octets_ok cfg d : points_ok cfg d → bytes_ok (encodeAllStatic cfg d).
Proof.
  intros _. unfold encodeAllStatic.
  assert (∀ g v base vals, is_u8 g → is_u8 v → bytes_ok (encode_bools g v base vals)) as Hb.
  { intros g v base vals Hg Hv. unfold encode_bools. destruct vals as [|x vals]; [constructor|].
    apply bytes_ok_app. split; [unfold static_header; octets|].
    apply Forall_fmap, Forall_true. intros []; split; by vm_compute. }
  assert (∀ g v base vals, is_u8 g → is_u8 v → bytes_ok (encode_floats g v base vals)) as Hf.
  { intros g v base vals Hg Hv. unfold encode_floats. destruct vals as [|x vals]; [constructor|].
    apply bytes_ok_app. split; [unfold static_header; octets|].
    induction (x :: vals); cbn [fmap list_fmap concat]; [constructor|].
    apply bytes_ok_app. split; [|done]. unfold float_octets. octets. }
  rewrite !bytes_ok_app.
  split; [|split; [|split]]; (case_match; [constructor|]); (apply Hb || apply Hf); split; by vm_compute.
Qed.

Lemma poll_response_ok mcfg cfg (st : station D) :
  peers mcfg cfg → points_ok cfg (device st) → frame_ok (poll_response mcfg cfg st).
Proof.
  intros (Ha & _ & ? & Ho) Hp. split; [split; by vm_compute|]. split; [done|].
  split; [cbn; by rewrite <- Ha|]. cbn [Payload poll_response].
  unfold WrapTransport, BuildResponse. apply Forall_cons_2; [split; by vm_compute|].
  apply bytes_ok_app. split; [octets|by apply encode_octets_ok].
Qed.

Lemma response_apdu_octets cfg d iin : points_ok cfg d →
  BuildResponse 0 iin (encodeAllStatic cfg d) =
  apdu_octets (mkAPDU 0xC0 FCResponse iin (class0 cfg d)).
Proof. intros Hp. unfold BuildResponse, apdu_octets. by rewrite encodeAllStatic_octets. Qed.

(** C36. An integrity poll, by a master whose addresses match the outstation's,
    of point tables that are numbered consecutively below 256, with analog
    values of 32 bits, and whose class 0 data fits one frame (245 octets),
    succeeds and returns exactly the outstation's points: under every index the value
    the point reads now, nothing else, and the restart indication. *)
Theorem poll_reads_outstation (mcfg : MasterConfig) cfg (clock : nat → Z) (st : station D) :
  peers mcfg cfg → points_ok cfg (device st) →
  (length (encodeAllStatic cfg (device st)) ≤ 245)%nat →
  ∃ r, Poll mcfg (Some (outstation_peer cfg clock st)) = Ok r ∧
       R_Error r = None ∧ R_IIN r = (if restartCleared st then 0 else 0x8000) ∧
       holds_points (R_BinaryInputs r) BP_Index BP_Read (BinaryInputs cfg) (device st) ∧
       holds_points (R_BinaryOutputs r) BOP_Index BOP_Read (BinaryOutputs cfg) (device st) ∧
       holds_points (R_AnalogInputs r) AP_Index AP_Read (AnalogInputs cfg) (device st) ∧
       holds_points (R_AnalogOutputs r) AOP_Index AOP_Read (AnalogOutputs cfg) (device st).
Proof.
  intros Hpeers Hpts Hlen.
  destruct (write_then_read (poll_request mcfg) []) as (req & Hreq & _ & Hrd);
    [by eapply poll_request_ok|cbn; lia|].
  destruct (write_then_read (poll_response mcfg cfg st) []) as (wire & Hwire & _ & Hwrd);
    [by apply poll_response_ok|cbn [Payload poll_response]; cbn; lia|].
  rewrite app_nil_r in Hrd, Hwrd.
  assert (outstation_peer cfg clock st req = wire) as Hpeer.
  { unfold outstation_peer. destruct (ReadLinkFrame_safe req) as [_ Hl].
    specialize (Hl _ _ Hrd). destruct (length req) as [|n] eqn:Hn; [cbn in Hl; lia|].
    cbn [handleConn]. rewrite Hrd.
    destruct (serve_poll mcfg cfg (clock 0%nat) st wire) as [c ->]; [done..|]. cbn [bind].
    assert (handleConn n cfg clock 1 c [] = Ok (c_station c, [])) as -> by by destruct n.
    cbn. apply app_nil_r. }
  unfold Poll. rewrite Hreq, Hpeer, Hwrd.
  destruct Hpeers as (Ha & _ & _ & _). cbn [Dest Source Control Payload poll_response].
  rewrite Ha, !Z.eqb_refl. cbn [negb orb].
  destruct (ProcessSegment_Wrap newTransportReader
    (BuildResponse 0 (if restartCleared st then 0 else 0x8000) (encodeAllStatic cfg (device st))) 0)
    as [next ->].
  rewrite response_apdu_octets by done. rewrite parse_print.
  2:{ split; [cbn; destruct (restartCleared st); unfold is_u16; lia|by apply class0_ok]. }
  cbn [FuncCode AControl IIN Objects]. change (negb _ || negb _) with false. cbv iota.
  rewrite class0_extract by done. eexists. split; [done|]. cbn.
  destruct Hpts as (? & ? & ? & ? & _). repeat split; try done;
    intros; by apply insert_run_holds.
Qed.

End Poll.

Lemma demo_points_ok : points_ok demo_cfg (3, 7).
Proof.
  assert (∀ P (index : P → Z) (x : P), index x = 0 → consecutive index [x]) as Hc.
  { intros P index x Hx p0 i p [= <-] Hp. destruct i as [|i]; [|done]. injection Hp as <-.
    rewrite Hx. unfold zlen. cbn. lia. }
  split; [by apply Hc|]. split; [by apply Hc|]. split; [by apply Hc|]. split; [by apply Hc|].
  split; apply Forall_singleton; cbn; unfold is_u32; lia.
Qed.

Lemma poll_reads_outstation_witness :
  ∃ r, Poll (mkMasterConfig 100 1)
         (Some (outstation_peer demo_cfg (λ _, 0) (mkStation (3, 7) false))) = Ok r ∧
       R_Error r = None ∧ R_IIN r = 0x8000 ∧
       holds_points (R_BinaryInputs r) BP_Index BP_Read (BinaryInputs demo_cfg) (3, 7) ∧
       holds_points (R_BinaryOutputs r) BOP_Index BOP_Read (BinaryOutputs demo_cfg) (3, 7) ∧
       holds_points (R_AnalogInputs r) AP_Index AP_Read (AnalogInputs demo_cfg) (3, 7) ∧
       holds_points (R_AnalogOutputs r) AOP_Index AOP_Read (AnalogOutputs demo_cfg) (3, 7).
Proof.
  apply (poll_reads_outstation (mkMasterConfig 100 1) demo_cfg (λ _, 0) (mkStation (3, 7) false)).
  - split; [done|]. split; [by left|]. cbn. unfold is_u16. lia.
  - apply demo_points_ok.
  - vm_compute. lia.
Defined.

(** ** Polling an arbitrary peer *)
Lemma inline_binary_returns fuel data start stop out k :
  (length data ≤ 250)%nat → 0 ≤ start < 65536 → (k ≤ length data)%nat →
  (length data < fuel + k)%nat →
  returns (inline_binary fuel data (u16 (start + Z.of_nat k)) start stop out).
Proof.
  intros Hd Hs. revert k out. induction fuel as [|fuel IH]; intros k out Hk Hf; [lia|].
  cbn [inline_binary]. case_if; [|ret].
  assert (Z.to_nat (u16 (u16 (start + Z.of_nat k) - start)) = k) as ->.
  { unfold u16. rewrite Zminus_mod_idemp_l. replace (start + Z.of_nat k - start) with (Z.of_nat k) by lia.
    rewrite Z.mod_small by lia. lia. }
  destruct (Nat.leb_spec (length data) k); [ret|].
  destruct (lookup_lt_is_Some_2 data k) as [b Hb]; [lia|].
  unfold idx. rewrite Hb. cbn [bind].
  replace (u16 (u16 (start + Z.of_nat k) + 1)) with (u16 (start + Z.of_nat (S k))).
  { apply IH; lia. }
  unfold u16. rewrite Zplus_mod_idemp_l. f_equal. lia.
Qed.

Lemma inline_analog_returns fuel data offset i stop out :
  (offset ≤ length data)%nat → (length data < offset + fuel)%nat →
  returns (inline_analog fuel data offset i stop out).
Proof.
  revert offset i out. induction fuel as [|fuel IH]; intros offset i out Ho Hf; [lia|].
  cbn [inline_analog]. case_if; [|ret].
  destruct (Nat.ltb_spec (length data) (offset + 5)); [ret|].
  destruct (Nat.ltb_spec (length data) (offset + 1 + 4)); [ret|].
  assert (∀ j, (j < offset + 5)%nat → returns (idx (E := dnp3_error) data j)) as Hidx.
  { intros j Hj. destruct (lookup_lt_is_Some_2 data j) as [b Hb]; [lia|].
    unfold idx. rewrite Hb. ret. }
  do 4 (apply bind_returns; [apply Hidx; lia|]; intros ? _). apply IH; lia.
Qed.

Lemma extract_returns r oh :
  inline_ok 250 oh →
  ∃ r', extract r oh = Ok r' ∧ R_Error r' = R_Error r.
Proof.
  intros [Hd Hs]. destruct r as [bi bo ai ao iin err]. cbn [extract].
  assert (∀ out, returns (parseInlineBinary oh out (Start oh) (Stop oh))) as Hb.
  { intros out. unfold parseInlineBinary. case_if; [ret|].
    pose proof (inline_binary_returns (S (length (Data oh))) (Data oh) (Start oh) (Stop oh) out 0) as H.
    rewrite Z.add_0_r in H. unfold u16 in H. rewrite Z.mod_small in H by done. apply H; lia || done. }
  assert (∀ out, returns (parseInlineAnalog oh out (Start oh) (Stop oh))) as Ha.
  { intros out. unfold parseInlineAnalog. case_if; [ret|]. apply inline_analog_returns; lia. }
  repeat case_if; eauto;
    (edestruct Hb as [m ->] || edestruct Ha as [m ->]); cbn; eauto.
Qed.

Lemma extract_all_returns r objs :
  Forall (inline_ok 250) objs →
  ∃ r', extract_all r objs = Ok r' ∧ R_Error r' = R_Error r.
Proof.
  intros H. revert r. induction H as [|oh objs Ho _ IH]; intros r; [eauto|].
  cbn [extract_all]. destruct (extract_returns r oh Ho) as (r' & -> & He). cbn [bind].
  destruct (IH r') as (r'' & -> & He'). eexists. split; [done|congruence].
Qed.

Lemma ProcessSegment_bounded payload t msg n :
  ProcessSegment newTransportReader payload = (t, Some msg) →
  bytes_ok payload → (length payload ≤ n)%nat → bytes_ok msg ∧ (length msg ≤ n)%nat.
Proof.
  destruct payload as [|h p]; cbn; [done|]. intros H [_ Hp]%Forall_cons Hl.
  repeat case_if_in H; try done; injection H as <- <-; split; (done || lia).
Qed.

(** The checks a reply has passed when the poll reports no error. *)
Definition answered (cfg : MasterConfig) (conn : option (list Z → list Z)) : Prop :=
  ∃ peer wire f rest,
    conn = Some peer ∧ WriteLinkFrame (poll_request cfg) = Ok wire ∧
    ReadLinkFrame (peer wire) = Ok (f, rest) ∧
    Dest f = M_MasterAddr cfg ∧ Source f = M_OutstationAddr cfg ∧ Control f = MakeResponseControl.

(** Whatever octets the peer answers, [Poll] returns: no reply makes it
    panic or loop, although the range of an object may end at 65535, where
    the loop index wraps.  A result with an error holds no point and no
    indication, and a result without one stems from an intact reply frame of
    the configured outstation to this master. *)
Theorem poll_total (cfg : MasterConfig) (conn : option (list Z → list Z)) :
  (∀ peer req, conn = Some peer → bytes_ok (peer req)) →
  ∃ r, Poll cfg conn = Ok r ∧
       (R_Error r = None → answered cfg conn) ∧
       (∀ e, R_Error r = Some e → r = fail_poll emptyResult e).
Proof.
  intros Hbytes. unfold Poll.
  assert (∀ e, ∃ r, Ok (E := dnp3_error) (fail_poll emptyResult e) = Ok r ∧
            (R_Error r = None → answered cfg conn) ∧
            (∀ e', R_Error r = Some e' → r = fail_poll emptyResult e')) as Hfail.
  { intros e. eexists. split; [done|]. split; [done|]. by intros e' [= ->]. }
  destruct conn as [peer|]; [|apply Hfail].
  pose proof (WriteLinkFrame_safe (poll_request cfg)) as Hw.
  destruct (WriteLinkFrame (poll_request cfg)) as [wire|e| |] eqn:Hwire; try done.
  destruct (ReadLinkFrame_safe (peer wire)) as [Hr _].
  destruct (ReadLinkFrame (peer wire)) as [[f rest]|e| |] eqn:Hread; try done.
  apply ReadLinkFrame_payload in Hread as Hp; [|by apply Hbytes]. destruct Hp as [Hpo Hpl].
  case_if; [apply Hfail|]. case_if; [apply Hfail|]. bool_facts.
  destruct (ProcessSegment newTransportReader (Payload f)) as [t [msg|]] eqn:Hseg; [|apply Hfail].
  eapply ProcessSegment_bounded in Hseg as [Hmo Hml]; [|done..].
  pose proof (ParseAPDU_safe msg) as Hs.
  destruct (ParseAPDU msg) as [a|e| |] eqn:Hparse; try done.
  case_if; [apply Hfail|]. apply ParseAPDU_inline in Hparse; [|done].
  destruct (extract_all_returns (mkPollResult ∅ ∅ ∅ ∅ (IIN a) None) (Objects a)) as (r & -> & Hnone).
  { eapply Forall_impl; [exact Hparse|]. intros oh [? ?]. split; [lia|done]. }
  exists r. cbn in Hnone. split; [done|]. split; [|by rewrite Hnone].
  intros _. exists peer, wire, f, rest. done.
Qed.

(** A peer that answers every request with a frame whose only object claims
    the range 65534..65535. *)
Definition wrap_peer (_ : list Z) : list Z :=
  match WriteLinkFrame (mkLinkFrame MakeResponseControl 100 1
          (WrapTransport [0xC0; FCResponse; 0; 0; 1; 2; 1; 0xFE; 0xFF; 0xFF; 0xFF; 0x81; 0x01] 0)) with
  | Ok w => w
  | _ => []
  end.

Lemma poll_total_witness :
  ∃ r, Poll (mkMasterConfig 100 1) (Some wrap_peer) = Ok r ∧
       (R_Error r = None → answered (mkMasterConfig 100 1) (Some wrap_peer)) ∧
       (∀ e, R_Error r = Some e → r = fail_poll emptyResult e).
Proof.
  apply (poll_total (mkMasterConfig 100 1) (Some wrap_peer)).
  intros peer req [= <-]. apply (bool_decide_unpack _). by vm_compute.
Defined.

(** The points of that reply: the index does not wrap into point 0. *)
Example wrap_peer_points :
  match Poll (mkMasterConfig 100 1) (Some wrap_peer) with
  | Ok r => R_BinaryInputs r !! 65534 = Some true ∧ R_BinaryInputs r !! 65535 = Some false ∧
            size (R_BinaryInputs r) = 2%nat
  | _ => False
  end.
Proof. vm_compute. done. Qed.
