(* ===== verification/Iec104Types.v ===== *)
(** * IEC 60870-5-104 identifiers (iec104go/types.go, file_elements.go, options.go)

    Type identifications, causes of transmission, their mnemonics and the
    element size table. Both are [uint8] in the source, so every value of the
    type is a possible argument. *)
From S2P Require Import Prelude.
From Stdlib Require Import String.
From Stdlib Require Import DecimalString DecimalNat.

(** The package's sentinel errors; the text added by [fmt.Errorf] is dropped.
    [ErrContext] is the error of a cancelled context, [ErrStream] one of the
    transport. *)
Inductive iec_error : Type :=
| ErrMalformed
| ErrUnsupportedType
| ErrFull
| ErrConnectionGone
| ErrNotStarted
| ErrQueueFull
| ErrProtocol
| ErrT1
| ErrClosed
| ErrEventQueueFull
| ErrContext
| ErrStream (e : io_error).

Definition M_SP_NA_1 : Z := 1.
Definition M_DP_NA_1 : Z := 3.
Definition M_ST_NA_1 : Z := 5.
Definition M_BO_NA_1 : Z := 7.
Definition M_ME_NA_1 : Z := 9.
Definition M_ME_NB_1 : Z := 11.
Definition M_ME_NC_1 : Z := 13.
Definition M_IT_NA_1 : Z := 15.
Definition M_PS_NA_1 : Z := 20.
Definition M_ME_ND_1 : Z := 21.
Definition M_SP_TB_1 : Z := 30.
Definition M_DP_TB_1 : Z := 31.
Definition M_ST_TB_1 : Z := 32.
Definition M_BO_TB_1 : Z := 33.
Definition M_ME_TD_1 : Z := 34.
Definition M_ME_TE_1 : Z := 35.
Definition M_ME_TF_1 : Z := 36.
Definition M_IT_TB_1 : Z := 37.
Definition M_EP_TD_1 : Z := 38.
Definition M_EP_TE_1 : Z := 39.
Definition M_EP_TF_1 : Z := 40.
Definition C_SC_NA_1 : Z := 45.
Definition C_DC_NA_1 : Z := 46.
Definition C_RC_NA_1 : Z := 47.
Definition C_SE_NA_1 : Z := 48.
Definition C_SE_NB_1 : Z := 49.
Definition C_SE_NC_1 : Z := 50.
Definition C_BO_NA_1 : Z := 51.
Definition C_SC_TA_1 : Z := 58.
Definition C_DC_TA_1 : Z := 59.
Definition C_RC_TA_1 : Z := 60.
Definition C_SE_TA_1 : Z := 61.
Definition C_SE_TB_1 : Z := 62.
Definition C_SE_TC_1 : Z := 63.
Definition C_BO_TA_1 : Z := 64.
Definition M_EI_NA_1 : Z := 70.
Definition C_IC_NA_1 : Z := 100.
Definition C_CI_NA_1 : Z := 101.
Definition C_RD_NA_1 : Z := 102.
Definition C_CS_NA_1 : Z := 103.
Definition C_RP_NA_1 : Z := 105.
Definition C_TS_TA_1 : Z := 107.
Definition P_ME_NA_1 : Z := 110.
Definition P_ME_NB_1 : Z := 111.
Definition P_ME_NC_1 : Z := 112.
Definition P_AC_NA_1 : Z := 113.
Definition F_FR_NA_1 : Z := 120.
Definition F_SR_NA_1 : Z := 121.
Definition F_SC_NA_1 : Z := 122.
Definition F_LS_NA_1 : Z := 123.
Definition F_AF_NA_1 : Z := 124.
Definition F_SG_NA_1 : Z := 125.
Definition F_DR_TA_1 : Z := 126.
Definition F_SC_NB_1 : Z := 127.

Definition typeNames : list (Z * string) :=
  [(M_SP_NA_1, "M_SP_NA_1"%string);
   (M_DP_NA_1, "M_DP_NA_1"%string);
   (M_ST_NA_1, "M_ST_NA_1"%string);
   (M_BO_NA_1, "M_BO_NA_1"%string);
   (M_ME_NA_1, "M_ME_NA_1"%string);
   (M_ME_NB_1, "M_ME_NB_1"%string);
   (M_ME_NC_1, "M_ME_NC_1"%string);
   (M_IT_NA_1, "M_IT_NA_1"%string);
   (M_PS_NA_1, "M_PS_NA_1"%string);
   (M_ME_ND_1, "M_ME_ND_1"%string);
   (M_SP_TB_1, "M_SP_TB_1"%string);
   (M_DP_TB_1, "M_DP_TB_1"%string);
   (M_ST_TB_1, "M_ST_TB_1"%string);
   (M_BO_TB_1, "M_BO_TB_1"%string);
   (M_ME_TD_1, "M_ME_TD_1"%string);
   (M_ME_TE_1, "M_ME_TE_1"%string);
   (M_ME_TF_1, "M_ME_TF_1"%string);
   (M_IT_TB_1, "M_IT_TB_1"%string);
   (M_EP_TD_1, "M_EP_TD_1"%string);
   (M_EP_TE_1, "M_EP_TE_1"%string);
   (M_EP_TF_1, "M_EP_TF_1"%string);
   (C_SC_NA_1, "C_SC_NA_1"%string);
   (C_DC_NA_1, "C_DC_NA_1"%string);
   (C_RC_NA_1, "C_RC_NA_1"%string);
   (C_SE_NA_1, "C_SE_NA_1"%string);
   (C_SE_NB_1, "C_SE_NB_1"%string);
   (C_SE_NC_1, "C_SE_NC_1"%string);
   (C_BO_NA_1, "C_BO_NA_1"%string);
   (C_SC_TA_1, "C_SC_TA_1"%string);
   (C_DC_TA_1, "C_DC_TA_1"%string);
   (C_RC_TA_1, "C_RC_TA_1"%string);
   (C_SE_TA_1, "C_SE_TA_1"%string);
   (C_SE_TB_1, "C_SE_TB_1"%string);
   (C_SE_TC_1, "C_SE_TC_1"%string);
   (C_BO_TA_1, "C_BO_TA_1"%string);
   (M_EI_NA_1, "M_EI_NA_1"%string);
   (C_IC_NA_1, "C_IC_NA_1"%string);
   (C_CI_NA_1, "C_CI_NA_1"%string);
   (C_RD_NA_1, "C_RD_NA_1"%string);
   (C_CS_NA_1, "C_CS_NA_1"%string);
   (C_RP_NA_1, "C_RP_NA_1"%string);
   (C_TS_TA_1, "C_TS_TA_1"%string);
   (P_ME_NA_1, "P_ME_NA_1"%string);
   (P_ME_NB_1, "P_ME_NB_1"%string);
   (P_ME_NC_1, "P_ME_NC_1"%string);
   (P_AC_NA_1, "P_AC_NA_1"%string);
   (F_FR_NA_1, "F_FR_NA_1"%string);
   (F_SR_NA_1, "F_SR_NA_1"%string);
   (F_SC_NA_1, "F_SC_NA_1"%string);
   (F_LS_NA_1, "F_LS_NA_1"%string);
   (F_AF_NA_1, "F_AF_NA_1"%string);
   (F_SG_NA_1, "F_SG_NA_1"%string);
   (F_DR_TA_1, "F_DR_TA_1"%string);
   (F_SC_NB_1, "F_SC_NB_1"%string)].

Definition elementSizes : list (Z * nat) :=
  [(M_SP_NA_1, 1%nat);
   (M_DP_NA_1, 1%nat);
   (M_ST_NA_1, 2%nat);
   (M_BO_NA_1, 5%nat);
   (M_ME_NA_1, 3%nat);
   (M_ME_NB_1, 3%nat);
   (M_ME_NC_1, 5%nat);
   (M_IT_NA_1, 5%nat);
   (M_PS_NA_1, 5%nat);
   (M_ME_ND_1, 2%nat);
   (M_SP_TB_1, 8%nat);
   (M_DP_TB_1, 8%nat);
   (M_ST_TB_1, 9%nat);
   (M_BO_TB_1, 12%nat);
   (M_ME_TD_1, 10%nat);
   (M_ME_TE_1, 10%nat);
   (M_ME_TF_1, 12%nat);
   (M_IT_TB_1, 12%nat);
   (M_EP_TD_1, 10%nat);
   (M_EP_TE_1, 11%nat);
   (M_EP_TF_1, 11%nat);
   (C_SC_NA_1, 1%nat);
   (C_DC_NA_1, 1%nat);
   (C_RC_NA_1, 1%nat);
   (C_SE_NA_1, 3%nat);
   (C_SE_NB_1, 3%nat);
   (C_SE_NC_1, 5%nat);
   (C_BO_NA_1, 4%nat);
   (C_SC_TA_1, 8%nat);
   (C_DC_TA_1, 8%nat);
   (C_RC_TA_1, 8%nat);
   (C_SE_TA_1, 10%nat);
   (C_SE_TB_1, 10%nat);
   (C_SE_TC_1, 12%nat);
   (C_BO_TA_1, 11%nat);
   (M_EI_NA_1, 1%nat);
   (C_IC_NA_1, 1%nat);
   (C_CI_NA_1, 1%nat);
   (C_RD_NA_1, 0%nat);
   (C_CS_NA_1, 7%nat);
   (C_RP_NA_1, 1%nat);
   (C_TS_TA_1, 9%nat);
   (P_ME_NA_1, 3%nat);
   (P_ME_NB_1, 3%nat);
   (P_ME_NC_1, 5%nat);
   (P_AC_NA_1, 1%nat);
   (F_FR_NA_1, 6%nat);
   (F_SR_NA_1, 7%nat);
   (F_SC_NA_1, 4%nat);
   (F_LS_NA_1, 5%nat);
   (F_AF_NA_1, 4%nat);
   (F_DR_TA_1, 13%nat);
   (F_SC_NB_1, 16%nat)].

(** Reading a Go map keyed by a small integer. *)
Fixpoint assoc {V} (k : Z) (l : list (Z * V)) : option V :=
  match l with
  | [] => None
  | (k', v) :: l' => if k =? k' then Some v else assoc k l'
  end.

(** [fmt.Sprintf("%d", n)] for an unsigned value. *)
Definition decimal (n : Z) : string := NilZero.string_of_uint (Nat.to_uint (Z.to_nat n)).

Definition TypeID_String (t : Z) : string :=
  match assoc t typeNames with
  | Some s => s
  | None => "TypeID(" ++ decimal t ++ ")"
  end%string.

Definition ElementSize (t : Z) : nat * bool :=
  match assoc t elementSizes with Some n => (n, true) | None => (0%nat, false) end.

Definition Supported (t : Z) : bool := snd (ElementSize t) || (t =? F_SG_NA_1).

Definition Periodic : Z := 1.
Definition Background : Z := 2.
Definition Spontaneous : Z := 3.
Definition Initialized : Z := 4.
Definition Request : Z := 5.
Definition Activation : Z := 6.
Definition ActivationCon : Z := 7.
Definition Deactivation : Z := 8.
Definition DeactivationCon : Z := 9.
Definition ActivationTerm : Z := 10.
Definition ReturnRemote : Z := 11.
Definition ReturnLocal : Z := 12.
Definition FileTransfer : Z := 13.
Definition InterrogatedStation : Z := 20.
Definition CounterStation : Z := 37.
Definition UnknownType : Z := 44.
Definition UnknownCause : Z := 45.
Definition UnknownCA : Z := 46.
Definition UnknownIOA : Z := 47.

Definition cotNames : list (Z * string) :=
  [(Periodic, "per/cyc"%string);
   (Background, "back"%string);
   (Spontaneous, "spont"%string);
   (Initialized, "init"%string);
   (Request, "req"%string);
   (Activation, "act"%string);
   (ActivationCon, "actcon"%string);
   (Deactivation, "deact"%string);
   (DeactivationCon, "deactcon"%string);
   (ActivationTerm, "actterm"%string);
   (ReturnRemote, "retrem"%string);
   (ReturnLocal, "retloc"%string);
   (FileTransfer, "file"%string);
   (InterrogatedStation, "inrogen"%string);
   (CounterStation, "reqcogen"%string);
   (UnknownType, "unknown_type"%string);
   (UnknownCause, "unknown_cause"%string);
   (UnknownCA, "unknown_asdu_address"%string);
   (UnknownIOA, "unknown_object_address"%string)].

Definition COT_String (c : Z) : string :=
  match assoc c cotNames with
  | Some s => s
  | None =>
      if (21 <=? c) && (c <=? 36) then ("inro" ++ decimal (c - 20))%string
      else if (38 <=? c) && (c <=? 41) then ("reqco" ++ decimal (c - 37))%string
      else ("COT(" ++ decimal c ++ ")")%string
  end.

Definition isFileType (id : Z) : bool := (F_FR_NA_1 <=? id) && (id <=? F_SC_NB_1).

(** ** Facts by enumeration *)

(** No two octets share a mnemonic, decided over all pairs. *)
Fixpoint all_distinct (l : list string) : bool :=
  match l with
  | [] => true
  | x :: l' => negb (existsb (String.eqb x) l') && all_distinct l'
  end.

Lemma all_distinct_NoDup l : all_distinct l = true → NoDup l.
Proof.
  induction l as [|x l IH]; cbn [all_distinct]; intros H; [constructor|]. bool_facts.
  constructor; [|by apply IH]. intros Hin.
  assert (existsb (String.eqb x) l = true); [|congruence].
  apply existsb_exists. exists x. split; [by apply list_elem_of_In|apply String.eqb_refl].
Qed.

Lemma distinct_names_inj (name : Z → string) a b :
  all_distinct (name <$> seqZ 0 256) = true → is_u8 a → is_u8 b → name a = name b → a = b.
Proof.
  intros Hd%all_distinct_NoDup Ha Hb Heq.
  assert (∀ z, is_u8 z → (name <$> seqZ 0 256) !! Z.to_nat z = Some (name z)) as Hl.
  { intros z Hz. unfold is_u8 in Hz. rewrite list_lookup_fmap, lookup_seqZ_lt by lia.
    cbn. do 2 f_equal. lia. }
  pose proof (Hl a Ha) as H1. pose proof (Hl b Hb) as H2. rewrite <- Heq in H2.
  pose proof (NoDup_lookup _ _ _ _ Hd H1 H2). unfold is_u8 in *. lia.
Qed.

(** The mnemonics of the 256 type identifications are pairwise different,
    so are those of the causes; and a type has a proper name exactly when its
    typed encoding is supported. *)
Theorem mnemonics_unambiguous (a b : Z) :
  is_u8 a → is_u8 b →
  (TypeID_String a = TypeID_String b → a = b) ∧
  (COT_String a = COT_String b → a = b) ∧
  (Supported a = true ↔ is_Some (assoc a typeNames)).
Proof.
  intros Ha Hb. split; [|split].
  - apply distinct_names_inj; [vm_compute; reflexivity|done..].
  - apply distinct_names_inj; [vm_compute; reflexivity|done..].
  - assert (Supported a = match assoc a typeNames with Some _ => true | None => false end) as ->.
    { apply eqb_prop.
      apply (range_forall 256 (λ a, Bool.eqb (Supported a)
        match assoc a typeNames with Some _ => true | None => false end));
        [vm_compute; reflexivity|done]. }
    destruct (assoc a typeNames); split; try done.
Qed.

Lemma mnemonics_unambiguous_witness :
  (TypeID_String 1 = TypeID_String 200 → 1 = 200) ∧
  (COT_String 1 = COT_String 200 → 1 = 200) ∧
  (Supported 1 = true ↔ is_Some (assoc 1 typeNames)).
Proof. apply mnemonics_unambiguous; unfold is_u8; lia. Defined.
