(* ===== verification/Iec104Time.v ===== *)
(** * Time tags (iec104go/time.go)

    CP16Time2a intervals and CP56Time2a calendar tags.  A [time.Time] is its
    broken-down UTC value, the only view of it the source takes; [time.Date]
    is modelled on the arguments [Time] can pass it, where only the day can
    be out of range. *)
From S2P Require Import Prelude Iec104Types.

(** ** CP16Time2a *)
Definition CP16_MarshalBinary (c : Z) : outcome iec_error (list Z) := Ok (PutUint16 c).

Definition DecodeCP16Time2a (b : list Z) : outcome iec_error Z :=
  guard_err ErrMalformed (negb (length b =? 2)%nat) (Uint16 b).

(** ** CP56Time2a *)
Record CP56Time2a : Type := mkCP56 {
  Milliseconds : Z;
  Minute : Z;
  TInvalid : bool;
  RES1 : bool;
  Hour : Z;
  SummerTime : bool;
  HourReserved : Z;
  Day : Z;
  DayOfWeek : Z;
  Month : Z;
  MonthReserved : Z;
  Year : Z;
  YearReserved : bool
}.

Definition flag (b : bool) (mask : Z) : Z := if b then mask else 0.

Definition CP56_MarshalBinary (c : CP56Time2a) : outcome iec_error (list Z) :=
  guard_err ErrMalformed
    ((63 <? Minute c) || (31 <? Hour c) || has (HourReserved c) (255 - 0x60) || (31 <? Day c) ||
     (7 <? DayOfWeek c) || (15 <? Month c) || has (MonthReserved c) (255 - 0xf0) || (127 <? Year c))
    (Ok (PutUint16 (Milliseconds c) ++
         [Z.lor (Z.lor (Minute c) (flag (TInvalid c) 0x80)) (flag (RES1 c) 0x40);
          Z.lor (Z.lor (Hour c) (HourReserved c)) (flag (SummerTime c) 0x80);
          Z.lor (Day c) (u8 (Z.shiftl (DayOfWeek c) 5));
          Z.lor (Month c) (MonthReserved c);
          Z.lor (Year c) (flag (YearReserved c) 0x80)])).

Definition DecodeCP56Time2a (b : list Z) : outcome iec_error CP56Time2a :=
  guard_err ErrMalformed (negb (length b =? 7)%nat)
    (let! ms := Uint16 b in
     let! b2 := idx b 2 in
     let! b3 := idx b 3 in
     let! b4 := idx b 4 in
     let! b5 := idx b 5 in
     let! b6 := idx b 6 in
     Ok (mkCP56 ms (Z.land b2 63) (has b2 0x80) (has b2 0x40)
           (Z.land b3 31) (has b3 0x80) (Z.land b3 0x60)
           (Z.land b4 31) (Z.shiftr b4 5)
           (Z.land b5 15) (Z.land b5 0xf0)
           (Z.land b6 127) (has b6 0x80))).

(** ** Calendar *)
Record civil : Type := mkCivil {
  cyear : Z;
  cmonth : Z;
  cday : Z;
  chour : Z;
  cminute : Z;
  csecond : Z;
  cnanosecond : Z
}.

(** [time.Date] with every argument but the day in range and a day of at most
    31: a day past the end of the month runs over into the next one. *)
Definition time_Date (y m d h mi s ns : Z) : civil :=
  if d <=? days_in y m then mkCivil y m d h mi s ns
  else if m =? 12 then mkCivil (y + 1) 1 (d - days_in y m) h mi s ns
  else mkCivil y (m + 1) (d - days_in y m) h mi s ns.

Definition CP56FromTime (t : civil) (invalid : bool) : CP56Time2a :=
  mkCP56 (u16 (csecond t * 1000 + cnanosecond t / 1000000)) (u8 (cminute t)) invalid false
    (u8 (chour t)) false 0 (u8 (cday t)) 0 (u8 (cmonth t)) 0
    (u8 (Z.rem (Z.rem (cyear t) 100 + 100) 100)) false.

Definition CP56_Time (c : CP56Time2a) : option civil :=
  if (60000 <=? Milliseconds c) || (59 <? Minute c) || (23 <? Hour c) || (Day c <? 1) ||
     (31 <? Day c) || (Month c <? 1) || (12 <? Month c) || (99 <? Year c) || (7 <? DayOfWeek c)
  then None
  else
    let t := time_Date (2000 + Year c) (Month c) (Day c) (Hour c) (Minute c)
               (Milliseconds c / 1000) (Milliseconds c mod 1000 * 1000000) in
    if negb (cday t =? Day c) || negb (cmonth t =? Month c) then None else Some t.

(** A tag whose fields fit their Go types. *)
Definition cp56_typed (c : CP56Time2a) : Prop :=
  is_u16 (Milliseconds c) ∧ is_u8 (Minute c) ∧ is_u8 (Hour c) ∧ is_u8 (HourReserved c) ∧
  is_u8 (Day c) ∧ is_u8 (DayOfWeek c) ∧ is_u8 (Month c) ∧ is_u8 (MonthReserved c) ∧ is_u8 (Year c).

(** A date of the calendar in 2000..2099. *)
Definition civil_ok (t : civil) : Prop :=
  2000 ≤ cyear t ≤ 2099 ∧ 1 ≤ cmonth t ≤ 12 ∧ 1 ≤ cday t ≤ days_in (cyear t) (cmonth t) ∧
  0 ≤ chour t ≤ 23 ∧ 0 ≤ cminute t ≤ 59 ∧ 0 ≤ csecond t ≤ 59 ∧ 0 ≤ cnanosecond t < 1000000000.

Definition truncate_ms (t : civil) : civil :=
  mkCivil (cyear t) (cmonth t) (cday t) (chour t) (cminute t) (csecond t)
          (cnanosecond t / 1000000 * 1000000).

(** ** Bit fields by enumeration *)
Lemma range_forall2 (n m : Z) (P : Z → Z → bool) :
  forallb (λ x, forallb (P x) (seqZ 0 m)) (seqZ 0 n) = true →
  ∀ x y, 0 ≤ x < n → 0 ≤ y < m → P x y = true.
Proof.
  intros H x y Hx Hy. apply (range_forall m (P x)); [|done].
  by apply (range_forall n (λ x, forallb (P x) (seqZ 0 m))).
Qed.

Definition bools : list bool := [true; false].
Lemma in_bools (b : bool) : In b bools.
Proof. destruct b; cbn; auto. Qed.

Lemma forall_bools (P : bool → bool) : forallb P bools = true → ∀ b, P b = true.
Proof. rewrite forallb_forall. intros H b. apply H, in_bools. Qed.

(** Turn a conjunction of decided equations into equations. *)
Ltac decided H :=
  cbv beta zeta in H; bool_facts;
  repeat match goal with E : Bool.eqb _ _ = true |- _ => apply eqb_prop in E end.

Lemma minute_octet m i r : 0 ≤ m ≤ 63 →
  let b := Z.lor (Z.lor m (flag i 0x80)) (flag r 0x40) in
  is_u8 b ∧ Z.land b 63 = m ∧ has b 0x80 = i ∧ has b 0x40 = r.
Proof.
  intros Hm.
  pose proof (range_forall 64 (λ m, forallb (λ i, forallb (λ r,
    let b := Z.lor (Z.lor m (flag i 0x80)) (flag r 0x40) in
    (0 <=? b) && (b <? 256) && (Z.land b 63 =? m) && Bool.eqb (has b 0x80) i &&
    Bool.eqb (has b 0x40) r) bools) bools) ltac:(vm_compute; reflexivity) m ltac:(lia)) as H.
  pose proof (forall_bools _ (forall_bools _ H i) r) as H'. decided H'.
  unfold is_u8. cbv zeta. auto.
Qed.

Lemma hour_octet h r s : 0 ≤ h ≤ 31 → is_u8 r → has r (255 - 0x60) = false →
  let b := Z.lor (Z.lor h r) (flag s 0x80) in
  is_u8 b ∧ Z.land b 31 = h ∧ has b 0x80 = s ∧ Z.land b 0x60 = r.
Proof.
  intros Hh Hr Hres.
  pose proof (range_forall2 32 256 (λ h r, forallb (λ s,
    let b := Z.lor (Z.lor h r) (flag s 0x80) in
    has r (255 - 0x60) || ((0 <=? b) && (b <? 256) && (Z.land b 31 =? h) &&
      Bool.eqb (has b 0x80) s && (Z.land b 0x60 =? r))) bools)
    ltac:(vm_compute; reflexivity) h r ltac:(lia) Hr) as H.
  pose proof (forall_bools _ H s) as H'. cbv beta zeta in H'. rewrite Hres in H'. cbn [orb] in H'.
  decided H'. unfold is_u8. cbv zeta. auto.
Qed.

Lemma day_octet d w : 0 ≤ d ≤ 31 → 0 ≤ w ≤ 7 →
  let b := Z.lor d (u8 (Z.shiftl w 5)) in
  is_u8 b ∧ Z.land b 31 = d ∧ Z.shiftr b 5 = w.
Proof.
  intros Hd Hw.
  pose proof (range_forall2 32 8 (λ d w, let b := Z.lor d (u8 (Z.shiftl w 5)) in
    (0 <=? b) && (b <? 256) && (Z.land b 31 =? d) && (Z.shiftr b 5 =? w))
    ltac:(vm_compute; reflexivity) d w ltac:(lia) ltac:(lia)) as H.
  decided H. unfold is_u8. cbv zeta. auto.
Qed.

Lemma month_octet m r : 0 ≤ m ≤ 15 → is_u8 r → has r (255 - 0xf0) = false →
  let b := Z.lor m r in is_u8 b ∧ Z.land b 15 = m ∧ Z.land b 0xf0 = r.
Proof.
  intros Hm Hr Hres.
  pose proof (range_forall2 16 256 (λ m r, let b := Z.lor m r in
    has r (255 - 0xf0) || ((0 <=? b) && (b <? 256) && (Z.land b 15 =? m) && (Z.land b 0xf0 =? r)))
    ltac:(vm_compute; reflexivity) m r ltac:(lia) Hr) as H.
  cbv beta zeta in H. rewrite Hres in H. cbn [orb] in H. decided H. unfold is_u8. cbv zeta. auto.
Qed.

Lemma year_octet y r : 0 ≤ y ≤ 127 →
  let b := Z.lor y (flag r 0x80) in is_u8 b ∧ Z.land b 127 = y ∧ has b 0x80 = r.
Proof.
  intros Hy.
  pose proof (range_forall 128 (λ y, forallb (λ r, let b := Z.lor y (flag r 0x80) in
    (0 <=? b) && (b <? 256) && (Z.land b 127 =? y) && Bool.eqb (has b 0x80) r) bools)
    ltac:(vm_compute; reflexivity) y ltac:(lia)) as H.
  pose proof (forall_bools _ H r) as H'. decided H'. unfold is_u8. cbv zeta. auto.
Qed.

(** Every octet splits into its fields and is rebuilt from them. *)
Lemma octet_fields b : is_u8 b →
  (0 ≤ Z.land b 63 ≤ 63 ∧ Z.lor (Z.lor (Z.land b 63) (flag (has b 0x80) 0x80)) (flag (has b 0x40) 0x40) = b) ∧
  (0 ≤ Z.land b 31 ≤ 31 ∧ is_u8 (Z.land b 0x60) ∧ has (Z.land b 0x60) (255 - 0x60) = false ∧
   Z.lor (Z.lor (Z.land b 31) (Z.land b 0x60)) (flag (has b 0x80) 0x80) = b) ∧
  (0 ≤ Z.shiftr b 5 ≤ 7 ∧ Z.lor (Z.land b 31) (u8 (Z.shiftl (Z.shiftr b 5) 5)) = b) ∧
  (0 ≤ Z.land b 15 ≤ 15 ∧ is_u8 (Z.land b 0xf0) ∧ has (Z.land b 0xf0) (255 - 0xf0) = false ∧
   Z.lor (Z.land b 15) (Z.land b 0xf0) = b) ∧
  (0 ≤ Z.land b 127 ≤ 127 ∧ Z.lor (Z.land b 127) (flag (has b 0x80) 0x80) = b).
Proof.
  intros Hb. unfold is_u8 in *.
  assert (bool_decide (
    (0 ≤ Z.land b 63 ≤ 63 ∧ Z.lor (Z.lor (Z.land b 63) (flag (has b 0x80) 0x80)) (flag (has b 0x40) 0x40) = b) ∧
    (0 ≤ Z.land b 31 ≤ 31 ∧ 0 ≤ Z.land b 0x60 < 256 ∧ has (Z.land b 0x60) (255 - 0x60) = false ∧
     Z.lor (Z.lor (Z.land b 31) (Z.land b 0x60)) (flag (has b 0x80) 0x80) = b) ∧
    (0 ≤ Z.shiftr b 5 ≤ 7 ∧ Z.lor (Z.land b 31) (u8 (Z.shiftl (Z.shiftr b 5) 5)) = b) ∧
    (0 ≤ Z.land b 15 ≤ 15 ∧ 0 ≤ Z.land b 0xf0 < 256 ∧ has (Z.land b 0xf0) (255 - 0xf0) = false ∧
     Z.lor (Z.land b 15) (Z.land b 0xf0) = b) ∧
    (0 ≤ Z.land b 127 ≤ 127 ∧ Z.lor (Z.land b 127) (flag (has b 0x80) 0x80) = b)) = true) as H;
    [|by apply bool_decide_eq_true in H].
  match goal with |- ?t = true =>
    let f := eval pattern b in t in
    match f with ?P _ => apply (range_forall 256 P); [|done] end
  end.
  vm_compute. reflexivity.
Qed.

(** ** Round trips *)
Lemma DecodeCP56_cons b0 b1 b2 b3 b4 b5 b6 :
  DecodeCP56Time2a [b0; b1; b2; b3; b4; b5; b6] =
  Ok (mkCP56 (le16 b0 b1) (Z.land b2 63) (has b2 0x80) (has b2 0x40)
        (Z.land b3 31) (has b3 0x80) (Z.land b3 0x60) (Z.land b4 31) (Z.shiftr b4 5)
        (Z.land b5 15) (Z.land b5 0xf0) (Z.land b6 127) (has b6 0x80)).
Proof. done. Qed.

Lemma CP56_encode_decode c b :
  cp56_typed c → CP56_MarshalBinary c = Ok b →
  bytes_ok b ∧ length b = 7%nat ∧ DecodeCP56Time2a b = Ok c.
Proof.
  destruct c as [ms mi iv r1 h su hr d w mo mr y yr].
  intros (Hms & Hmi & Hh & Hhr & Hd & Hw & Hmo & Hmr & Hy) H.
  cbn [Milliseconds Minute TInvalid RES1 Hour SummerTime HourReserved Day DayOfWeek Month
       MonthReserved Year YearReserved] in *.
  unfold CP56_MarshalBinary in H.
  cbn [Milliseconds Minute TInvalid RES1 Hour SummerTime HourReserved Day DayOfWeek Month
       MonthReserved Year YearReserved] in H.
  apply guard_err_Ok in H as [Hg [= <-]]. bool_facts. unfold is_u8 in *.
  destruct (minute_octet mi iv r1) as (U2 & A1 & A2 & A3); [lia|].
  destruct (hour_octet h hr su) as (U3 & B1 & B2 & B3); [lia|done..|].
  destruct (day_octet d w) as (U4 & C1 & C2); [lia..|].
  destruct (month_octet mo mr) as (U5 & D1 & D2); [lia|done..|].
  destruct (year_octet y yr) as (U6 & E1 & E2); [lia|].
  split; [octets|]. split; [done|].
  unfold PutUint16. cbn [app]. rewrite DecodeCP56_cons, le16_bytes by done.
  cbv zeta in *. by rewrite A1, A2, A3, B1, B2, B3, C1, C2, D1, D2, E1, E2.
Qed.

Lemma DecodeCP56_length b c : DecodeCP56Time2a b = Ok c → length b = 7%nat.
Proof. unfold DecodeCP56Time2a. intros H. apply guard_err_Ok in H as [H _]. by bool_facts. Qed.

Lemma CP56_decode_encode b c :
  bytes_ok b → DecodeCP56Time2a b = Ok c → cp56_typed c ∧ CP56_MarshalBinary c = Ok b.
Proof.
  intros Hb H. pose proof (DecodeCP56_length _ _ H) as Hl.
  destruct b as [|b0 [|b1 [|b2 [|b3 [|b4 [|b5 [|b6 [|]]]]]]]]; try done.
  rewrite DecodeCP56_cons in H. injection H as <-.
  apply Forall_cons in Hb as [H0 Hb]. apply Forall_cons in Hb as [H1 Hb].
  apply Forall_cons in Hb as [H2 Hb]. apply Forall_cons in Hb as [H3 Hb].
  apply Forall_cons in Hb as [H4 Hb]. apply Forall_cons in Hb as [H5 Hb].
  apply Forall_cons in Hb as [H6 _].
  destruct (octet_fields b2 H2) as ((M1 & M2) & _).
  destruct (octet_fields b3 H3) as (_ & (A1 & A2 & A3 & A4) & _).
  destruct (octet_fields b4 H4) as (_ & (D1 & _) & (D2 & D3) & _).
  destruct (octet_fields b5 H5) as (_ & _ & _ & (E1 & E2 & E3 & E4) & _).
  destruct (octet_fields b6 H6) as (_ & _ & _ & _ & (F1 & F2)).
  split.
  - unfold cp56_typed. cbn [Milliseconds Minute Hour HourReserved Day DayOfWeek Month
      MonthReserved Year]. split; [by apply le16_range|]. unfold is_u8 in *. lia.
  - unfold CP56_MarshalBinary.
    cbn [Milliseconds Minute TInvalid RES1 Hour SummerTime HourReserved Day DayOfWeek Month
         MonthReserved Year YearReserved].
    rewrite !(proj2 (Z.ltb_ge _ _)) by lia. rewrite A3, E3. cbn [orb guard_err].
    rewrite le16_split, M2, A4, D3, E4, F2 by done. done.
Qed.

(** CP56 tags round-trip in both directions: a tag that encodes decodes
    to itself, whatever its reserved bits, and every seven octets decode to a
    tag that encodes to the same octets. *)
Theorem cp56_roundtrip :
  (∀ c b, cp56_typed c → CP56_MarshalBinary c = Ok b → DecodeCP56Time2a b = Ok c) ∧
  (∀ b, bytes_ok b → length b = 7%nat →
        ∃ c, DecodeCP56Time2a b = Ok c ∧ CP56_MarshalBinary c = Ok b).
Proof.
  split.
  - intros c b Hc H. by apply CP56_encode_decode in H as (_ & _ & H).
  - intros b Hb Hl. destruct (DecodeCP56Time2a b) as [c|e| |] eqn:H;
      [exists c; split; [done|by apply CP56_decode_encode]|exfalso..];
      do 7 (destruct b as [|? b]; [done|]); destruct b; done.
Qed.

(** ** The calendar *)
Lemma days_in_range y m : 28 ≤ days_in y m ≤ 31.
Proof. unfold days_in. repeat case_if; lia. Qed.

(** [Time] inverts [CP56FromTime] on every instant of 2000..2099, to the
    millisecond, and the tag is accepted by the encoder. *)
Theorem cp56_time_inverse (t : civil) (invalid : bool) :
  civil_ok t →
  CP56_Time (CP56FromTime t invalid) = Some (truncate_ms t) ∧
  is_ok (CP56_MarshalBinary (CP56FromTime t invalid)) = true.
Proof.
  destruct t as [y mo d h mi s ns]. intros (Hy & Hmo & Hd & Hh & Hmi & Hs & Hns).
  cbn [cyear cmonth cday chour cminute csecond cnanosecond] in *.
  pose proof (days_in_range y mo).
  assert (0 ≤ ns / 1000000 < 1000) as Hq by modlia.
  assert (Z.rem (Z.rem y 100 + 100) 100 = y - 2000) as Hyear.
  { rewrite !Z.rem_mod_nonneg by (rewrite ?Z.rem_mod_nonneg by lia; modlia). modlia. }
  unfold CP56FromTime. cbn [cyear cmonth cday chour cminute csecond cnanosecond].
  rewrite Hyear, u16_small, !u8_small by (unfold is_u8, is_u16; lia).
  split.
  - unfold CP56_Time.
    cbn [Milliseconds Minute TInvalid RES1 Hour SummerTime HourReserved Day DayOfWeek Month
         MonthReserved Year YearReserved].
    rewrite !(proj2 (Z.ltb_ge _ _)), (proj2 (Z.leb_gt _ _)) by lia. cbn [orb].
    replace (2000 + (y - 2000)) with y by lia. unfold time_Date.
    rewrite (proj2 (Z.leb_le _ _)) by lia. cbn. rewrite !Z.eqb_refl. cbn.
    f_equal. unfold truncate_ms. cbn. f_equal; modlia.
  - unfold CP56_MarshalBinary.
    cbn [Milliseconds Minute TInvalid RES1 Hour SummerTime HourReserved Day DayOfWeek Month
         MonthReserved Year YearReserved].
    rewrite !(proj2 (Z.ltb_ge _ _)) by lia. done.
Qed.

Lemma cp56_time_inverse_witness :
  CP56_Time (CP56FromTime (mkCivil 2024 2 29 23 59 59 999999999) true)
    = Some (mkCivil 2024 2 29 23 59 59 999000000) ∧
  is_ok (CP56_MarshalBinary (CP56FromTime (mkCivil 2024 2 29 23 59 59 999999999) true)) = true.
Proof.
  apply (cp56_time_inverse (mkCivil 2024 2 29 23 59 59 999999999) true).
  repeat split; vm_compute; congruence.
Defined.
