(* ===== verification/Iec104Elements.v ===== *)
(** * Information elements (iec104go/elements.go, element_codec.go,
    file_elements.go, file_codec.go)

    The element values, their descriptors and the per-type codec.  A
    [float32] is its bit pattern.  [OtherElement] stands for the interface
    values that are not one of the package's value types (nil, pointers). *)
From S2P Require Import Prelude Iec104Types Iec104Time.

(** ** Descriptors *)
Definition Overflow : Z := 0x01.
Definition Blocked : Z := 0x10.
Definition Substituted : Z := 0x20.
Definition NotTopical : Z := 0x40.
Definition Invalid : Z := 0x80.

Definition SIQ_State (s : Z) : bool := has s 1.
Definition SIQ_Quality (s : Z) : Z := Z.land s 0xf0.
Definition DIQ_State (s : Z) : Z := Z.land s 3.
Definition DIQ_Quality (s : Z) : Z := Z.land s 0xf0.

Definition VTI_Position (v : Z) : Z := Z.shiftr (i8 (u8 (Z.shiftl v 1))) 1.
Definition VTI_Transient (v : Z) : bool := has v 0x80.
Definition NewVTI (position : Z) (transient : bool) : outcome iec_error Z :=
  guard_err ErrMalformed ((position <? -64) || (63 <? position))
    (let v := Z.land (u8 position) 127 in
     Ok (if transient then Z.lor v 128 else v)).

Definition CQ_State (q : Z) : Z := Z.land q 3.
Definition CQ_Select (q : Z) : bool := has q 128.
Definition CQ_QU (q : Z) : Z := Z.land (Z.shiftr q 2) 31.
Definition NewCommandQualifier (state qu : Z) (selectCommand : bool) : outcome iec_error Z :=
  guard_err ErrMalformed ((3 <? state) || (31 <? qu))
    (let q := Z.lor state (u8 (Z.shiftl qu 2)) in
     Ok (if selectCommand then Z.lor q 128 else q)).

Definition SQ_QL (q : Z) : Z := Z.land q 127.
Definition SQ_Select (q : Z) : bool := has q 128.

(** ** Elements *)
Inductive Element : Type :=
| SinglePoint (SIQ : Z)
| DoublePoint (DIQ : Z)
| StepPosition (Value Quality : Z)
| Bitstring32 (Value Quality : Z)
| Normalized (Value Quality : Z)
| Scaled (Value Quality : Z)
| Float (Value Quality : Z)
| Counter (Value Flags : Z)
| PackedStatus (Status Change Quality : Z)
| NormalizedNoQuality (Value : Z)
| ProtectionEvent (SEP Elapsed : Z)
| ProtectionStart (SPE QDP Elapsed : Z)
| ProtectionOutput (OCI QDP Elapsed : Z)
| SingleCommand (Qualifier : Z)
| DoubleCommand (Qualifier : Z)
| RegulatingCommand (Qualifier : Z)
| SetpointNormalized (Value Qualifier : Z)
| SetpointScaled (Value Qualifier : Z)
| SetpointFloat (Value Qualifier : Z)
| BitstringCommand (Value : Z)
| Initialization (COI : Z)
| Interrogation (QOI : Z)
| CounterInterrogation (QCC : Z)
| ReadCommand
| ClockSync (Time : CP56Time2a)
| ResetProcess (QRP : Z)
| TestCommand (Sequence : Z) (Time : CP56Time2a)
| ParameterNormalized (Value QPM : Z)
| ParameterScaled (Value QPM : Z)
| ParameterFloat (Value QPM : Z)
| ParameterActivation (QPA : Z)
| Timed (Value : Element) (Time : CP56Time2a)
| FileReady (Name Length Qualifier : Z)
| SectionReady (Name Section_ Length Qualifier : Z)
| FileCall (Name Section_ Qualifier : Z)
| FileLast (Name Section_ Qualifier Checksum : Z)
| FileACK (Name Section_ Qualifier : Z)
| FileSegment (Name Section_ : Z) (Data : list Z)
| FileDirectory (Name Length Status : Z) (Time : CP56Time2a)
| QueryLog (Name : Z) (Start Stop : CP56Time2a)
| OtherElement.

Definition timedType (v : Element) : Z :=
  match v with
  | SinglePoint _ => M_SP_TB_1
  | DoublePoint _ => M_DP_TB_1
  | StepPosition _ _ => M_ST_TB_1
  | Bitstring32 _ _ => M_BO_TB_1
  | Normalized _ _ => M_ME_TD_1
  | Scaled _ _ => M_ME_TE_1
  | Float _ _ => M_ME_TF_1
  | Counter _ _ => M_IT_TB_1
  | ProtectionEvent _ _ => M_EP_TD_1
  | ProtectionStart _ _ _ => M_EP_TE_1
  | ProtectionOutput _ _ _ => M_EP_TF_1
  | SingleCommand _ => C_SC_TA_1
  | DoubleCommand _ => C_DC_TA_1
  | RegulatingCommand _ => C_RC_TA_1
  | SetpointNormalized _ _ => C_SE_TA_1
  | SetpointScaled _ _ => C_SE_TB_1
  | SetpointFloat _ _ => C_SE_TC_1
  | BitstringCommand _ => C_BO_TA_1
  | _ => 0
  end.

Definition elementType (v : Element) : Z :=
  match v with
  | SinglePoint _ => M_SP_NA_1
  | DoublePoint _ => M_DP_NA_1
  | StepPosition _ _ => M_ST_NA_1
  | Bitstring32 _ _ => M_BO_NA_1
  | Normalized _ _ => M_ME_NA_1
  | Scaled _ _ => M_ME_NB_1
  | Float _ _ => M_ME_NC_1
  | Counter _ _ => M_IT_NA_1
  | PackedStatus _ _ _ => M_PS_NA_1
  | NormalizedNoQuality _ => M_ME_ND_1
  | ProtectionEvent _ _ => 0
  | ProtectionStart _ _ _ => 0
  | ProtectionOutput _ _ _ => 0
  | SingleCommand _ => C_SC_NA_1
  | DoubleCommand _ => C_DC_NA_1
  | RegulatingCommand _ => C_RC_NA_1
  | SetpointNormalized _ _ => C_SE_NA_1
  | SetpointScaled _ _ => C_SE_NB_1
  | SetpointFloat _ _ => C_SE_NC_1
  | BitstringCommand _ => C_BO_NA_1
  | Initialization _ => M_EI_NA_1
  | Interrogation _ => C_IC_NA_1
  | CounterInterrogation _ => C_CI_NA_1
  | ReadCommand => C_RD_NA_1
  | ClockSync _ => C_CS_NA_1
  | ResetProcess _ => C_RP_NA_1
  | TestCommand _ _ => C_TS_TA_1
  | ParameterNormalized _ _ => P_ME_NA_1
  | ParameterScaled _ _ => P_ME_NB_1
  | ParameterFloat _ _ => P_ME_NC_1
  | ParameterActivation _ => P_AC_NA_1
  | Timed v _ => timedType v
  | FileReady _ _ _ => F_FR_NA_1
  | SectionReady _ _ _ _ => F_SR_NA_1
  | FileCall _ _ _ => F_SC_NA_1
  | FileLast _ _ _ _ => F_LS_NA_1
  | FileACK _ _ _ => F_AF_NA_1
  | FileSegment _ _ _ => F_SG_NA_1
  | FileDirectory _ _ _ _ => F_DR_TA_1
  | QueryLog _ _ _ => F_SC_NB_1
  | OtherElement => 0
  end.

Definition timedBases : list (Z * Z) :=
  [(M_SP_TB_1, M_SP_NA_1); (M_DP_TB_1, M_DP_NA_1); (M_ST_TB_1, M_ST_NA_1);
   (M_BO_TB_1, M_BO_NA_1); (M_ME_TD_1, M_ME_NA_1); (M_ME_TE_1, M_ME_NB_1);
   (M_ME_TF_1, M_ME_NC_1); (M_IT_TB_1, M_IT_NA_1);
   (C_SC_TA_1, C_SC_NA_1); (C_DC_TA_1, C_DC_NA_1); (C_RC_TA_1, C_RC_NA_1);
   (C_SE_TA_1, C_SE_NA_1); (C_SE_TB_1, C_SE_NB_1); (C_SE_TC_1, C_SE_NC_1);
   (C_BO_TA_1, C_BO_NA_1)].

(** ** Addresses *)
Fixpoint appendAddress (b : list Z) (a : Z) (width : nat) : list Z :=
  match width with
  | O => b
  | S w => appendAddress b a w ++ [u8 (Z.shiftr a (8 * Z.of_nat w))]
  end.

Fixpoint readAddress (b : list Z) (width : nat) : outcome iec_error Z :=
  match width with
  | O => Ok 0
  | S w =>
      let! a := readAddress b w in
      let! o := idx b w in
      Ok (Z.lor a (Z.shiftl o (8 * Z.of_nat w)))
  end.

Definition maxAddress (width : nat) : Z := Z.shiftl 1 (8 * Z.of_nat width) - 1.

(** ** File elements *)
Definition elementLength (id : Z) (b : list Z) : outcome iec_error nat :=
  let! n :=
    if id =? F_SG_NA_1 then
      guard_err ErrMalformed (length b <? 4)%nat
        (let! los := idx b 3 in Ok (4 + Z.to_nat los)%nat)
    else Ok (fst (ElementSize id)) in
  guard_err ErrMalformed (length b <? n)%nat (Ok n).

(** The local closure [length] of [encodeFileElement]. *)
Definition append_length (b : list Z) (n q : Z) : outcome iec_error (list Z) :=
  guard_err ErrMalformed (0xffffff <? n) (Ok (appendAddress b n 3 ++ [q])).

Definition encodeFileElement (v : Element) : outcome iec_error (list Z) :=
  match v with
  | FileReady name len q => append_length (PutUint16 name) len q
  | SectionReady name sec len q => append_length (PutUint16 name ++ [sec]) len q
  | FileCall name sec q => Ok (PutUint16 name ++ [sec; q])
  | FileLast name sec q chs => Ok (PutUint16 name ++ [sec; q; chs])
  | FileACK name sec q => Ok (PutUint16 name ++ [sec; q])
  | FileSegment name sec data =>
      guard_err ErrMalformed (255 <? length data)%nat
        (Ok (PutUint16 name ++ [sec; u8 (zlen data)] ++ data))
  | FileDirectory name len status time =>
      let! b := append_length (PutUint16 name) len status in
      let! tag := CP56_MarshalBinary time in
      Ok (b ++ tag)
  | QueryLog name start stop =>
      let! start_ := CP56_MarshalBinary start in
      let! stop_ := CP56_MarshalBinary stop in
      Ok (PutUint16 name ++ start_ ++ stop_)
  | _ => Err ErrMalformed
  end.

Definition decodeFileElement (id : Z) (b : list Z) : outcome iec_error Element :=
  let! n := elementLength id b in
  guard_err ErrMalformed (negb (length b =? n)%nat)
    (let! name0 := readAddress b 2 in
     let name := u16 name0 in
     if id =? F_FR_NA_1 then
       let! tl := slice_from b 2 in let! len := readAddress tl 3 in
       let! q := idx b 5 in Ok (FileReady name len q)
     else if id =? F_SR_NA_1 then
       let! sec := idx b 2 in
       let! tl := slice_from b 3 in let! len := readAddress tl 3 in
       let! q := idx b 6 in Ok (SectionReady name sec len q)
     else if id =? F_SC_NA_1 then
       let! sec := idx b 2 in let! q := idx b 3 in Ok (FileCall name sec q)
     else if id =? F_LS_NA_1 then
       let! sec := idx b 2 in let! q := idx b 3 in let! chs := idx b 4 in
       Ok (FileLast name sec q chs)
     else if id =? F_AF_NA_1 then
       let! sec := idx b 2 in let! q := idx b 3 in Ok (FileACK name sec q)
     else if id =? F_SG_NA_1 then
       let! sec := idx b 2 in let! data := slice_from b 4 in Ok (FileSegment name sec data)
     else if id =? F_DR_TA_1 then
       let! t := slice_from b 6 in let! tag := DecodeCP56Time2a t in
       let! tl := slice_from b 2 in let! len := readAddress tl 3 in
       let! status := idx b 5 in Ok (FileDirectory name len status tag)
     else if id =? F_SC_NB_1 then
       let! s := slice b 2 9 in let! start := DecodeCP56Time2a s in
       let! e := slice_from b 9 in let! stop := DecodeCP56Time2a e in
       Ok (QueryLog name start stop)
     else Err ErrUnsupportedType).

Definition fileElementName (e : Element) : Z * bool :=
  match e with
  | FileReady name _ _ | SectionReady name _ _ _ | FileCall name _ _ | FileLast name _ _ _
  | FileACK name _ _ | FileSegment name _ _ | FileDirectory name _ _ _ | QueryLog name _ _ =>
      (name, true)
  | _ => (0, false)
  end.

Definition FileChecksum (data : list Z) : Z := fold_left (λ sum b, u8 (sum + b)) data 0.

(** ** Process and command elements *)
Definition encodePayload (v : Element) : outcome iec_error (list Z) :=
  match v with
  | SinglePoint siq => Ok [siq]
  | DoublePoint diq => Ok [diq]
  | StepPosition value q => Ok [value; q]
  | Bitstring32 value q => Ok (PutUint32 value ++ [q])
  | Normalized value q => Ok (PutUint16 (u16 value) ++ [q])
  | Scaled value q => Ok (PutUint16 (u16 value) ++ [q])
  | Float value q => Ok (PutUint32 value ++ [q])
  | Counter value flags => Ok (PutUint32 (u32 value) ++ [flags])
  | PackedStatus status change q => Ok ((PutUint16 status ++ PutUint16 change) ++ [q])
  | NormalizedNoQuality value => Ok (PutUint16 (u16 value))
  | ProtectionEvent sep elapsed => Ok ([sep] ++ PutUint16 elapsed)
  | ProtectionStart spe qdp elapsed => Ok ([spe; qdp] ++ PutUint16 elapsed)
  | ProtectionOutput oci qdp elapsed => Ok ([oci; qdp] ++ PutUint16 elapsed)
  | SingleCommand q => Ok [q]
  | DoubleCommand q => Ok [q]
  | RegulatingCommand q => Ok [q]
  | SetpointNormalized value q => Ok (PutUint16 (u16 value) ++ [q])
  | SetpointScaled value q => Ok (PutUint16 (u16 value) ++ [q])
  | SetpointFloat value q => Ok (PutUint32 value ++ [q])
  | BitstringCommand value => Ok (PutUint32 value)
  | Initialization coi => Ok [coi]
  | Interrogation qoi => Ok [qoi]
  | CounterInterrogation qcc => Ok [qcc]
  | ReadCommand => Ok []
  | ClockSync time => CP56_MarshalBinary time
  | ResetProcess qrp => Ok [qrp]
  | TestCommand seq time =>
      let! b := CP56_MarshalBinary time in Ok (PutUint16 seq ++ b)
  | ParameterNormalized value qpm => Ok (PutUint16 (u16 value) ++ [qpm])
  | ParameterScaled value qpm => Ok (PutUint16 (u16 value) ++ [qpm])
  | ParameterFloat value qpm => Ok (PutUint32 value ++ [qpm])
  | ParameterActivation qpa => Ok [qpa]
  | _ => encodeFileElement v
  end.

Definition encodeElement (v : Element) : outcome iec_error (Z * list Z) :=
  match v with
  | Timed value time =>
      let id := timedType value in
      guard_err ErrMalformed (id =? 0)
        (let! b := encodePayload value in
         let! tag := CP56_MarshalBinary time in
         Ok (id, b ++ tag))
  | _ =>
      let! b := encodePayload v in
      let id := elementType v in
      guard_err ErrMalformed (negb (Supported id)) (Ok (id, b))
  end.

(** The protection-event case of [decodeElement]. *)
Definition decode_protection (id : Z) (n : nat) (b : list Z) : outcome iec_error Element :=
  let! t := slice_from b (n - 7) in
  let! tag := DecodeCP56Time2a t in
  let! el := slice b (n - 9) (n - 7) in
  let! elapsed := DecodeCP16Time2a el in
  let! b0 := idx b 0 in
  if id =? M_EP_TD_1 then Ok (Timed (ProtectionEvent b0 elapsed) tag)
  else
    let! b1 := idx b 1 in
    if id =? M_EP_TE_1 then Ok (Timed (ProtectionStart b0 b1 elapsed) tag)
    else Ok (Timed (ProtectionOutput b0 b1 elapsed) tag).

(** The final switch of [decodeElement]. *)
Definition decode_plain (id : Z) (n : nat) (b : list Z) : outcome iec_error Element :=
  if id =? M_SP_NA_1 then let! b0 := idx b 0 in Ok (SinglePoint b0)
  else if id =? M_DP_NA_1 then let! b0 := idx b 0 in Ok (DoublePoint b0)
  else if id =? M_ST_NA_1 then
    let! b0 := idx b 0 in let! b1 := idx b 1 in Ok (StepPosition b0 b1)
  else if id =? M_BO_NA_1 then
    let! v := Uint32 b in let! q := idx b 4 in Ok (Bitstring32 v q)
  else if id =? M_ME_NA_1 then
    let! v := Uint16 b in let! q := idx b 2 in Ok (Normalized (i16 v) q)
  else if id =? M_ME_NB_1 then
    let! v := Uint16 b in let! q := idx b 2 in Ok (Scaled (i16 v) q)
  else if id =? M_ME_NC_1 then
    let! v := Uint32 b in let! q := idx b 4 in Ok (Float v q)
  else if id =? M_IT_NA_1 then
    let! v := Uint32 b in let! f := idx b 4 in Ok (Counter (i32 v) f)
  else if id =? M_PS_NA_1 then
    let! s := Uint16 b in let! tl := slice_from b 2 in let! c := Uint16 tl in
    let! q := idx b 4 in Ok (PackedStatus s c q)
  else if id =? M_ME_ND_1 then let! v := Uint16 b in Ok (NormalizedNoQuality (i16 v))
  else if (id =? M_EP_TD_1) || (id =? M_EP_TE_1) || (id =? M_EP_TF_1) then
    decode_protection id n b
  else if id =? C_SC_NA_1 then let! q := idx b 0 in Ok (SingleCommand q)
  else if id =? C_DC_NA_1 then let! q := idx b 0 in Ok (DoubleCommand q)
  else if id =? C_RC_NA_1 then let! q := idx b 0 in Ok (RegulatingCommand q)
  else if id =? C_SE_NA_1 then
    let! v := Uint16 b in let! q := idx b 2 in Ok (SetpointNormalized (i16 v) q)
  else if id =? C_SE_NB_1 then
    let! v := Uint16 b in let! q := idx b 2 in Ok (SetpointScaled (i16 v) q)
  else if id =? C_SE_NC_1 then
    let! v := Uint32 b in let! q := idx b 4 in Ok (SetpointFloat v q)
  else if id =? C_BO_NA_1 then let! v := Uint32 b in Ok (BitstringCommand v)
  else if id =? M_EI_NA_1 then let! x := idx b 0 in Ok (Initialization x)
  else if id =? C_IC_NA_1 then let! x := idx b 0 in Ok (Interrogation x)
  else if id =? C_CI_NA_1 then let! x := idx b 0 in Ok (CounterInterrogation x)
  else if id =? C_RD_NA_1 then Ok ReadCommand
  else if id =? C_CS_NA_1 then let! tag := DecodeCP56Time2a b in Ok (ClockSync tag)
  else if id =? C_RP_NA_1 then let! x := idx b 0 in Ok (ResetProcess x)
  else if id =? C_TS_TA_1 then
    let! t := slice_from b 2 in let! tag := DecodeCP56Time2a t in
    let! s := Uint16 b in Ok (TestCommand s tag)
  else if id =? P_ME_NA_1 then
    let! v := Uint16 b in let! q := idx b 2 in Ok (ParameterNormalized (i16 v) q)
  else if id =? P_ME_NB_1 then
    let! v := Uint16 b in let! q := idx b 2 in Ok (ParameterScaled (i16 v) q)
  else if id =? P_ME_NC_1 then
    let! v := Uint32 b in let! q := idx b 4 in Ok (ParameterFloat v q)
  else if id =? P_AC_NA_1 then let! x := idx b 0 in Ok (ParameterActivation x)
  else Err ErrUnsupportedType.

(** [decodeElement] calls itself once, on the base type of a timed type;
    [fuel] bounds that recursion. *)
Fixpoint decode_element (fuel : nat) (id : Z) (b : list Z) : outcome iec_error Element :=
  match fuel with
  | O => Diverge
  | S fuel' =>
      if isFileType id then decodeFileElement id b
      else
        let (n, ok) := ElementSize id in
        guard_err ErrUnsupportedType (negb ok)
          (guard_err ErrMalformed (negb (length b =? n)%nat)
             (match assoc id timedBases with
              | Some base =>
                  let! bb := slice b 0 (n - 7) in
                  let! e := decode_element fuel' base bb in
                  let! t := slice_from b (n - 7) in
                  let! tag := DecodeCP56Time2a t in
                  Ok (Timed e tag)
              | None => decode_plain id n b
              end))
  end.

Definition decodeElement (id : Z) (b : list Z) : outcome iec_error Element :=
  decode_element 2 id b.

(** ** Elements whose fields fit their Go types *)
Definition is_i16 (z : Z) : Prop := -32768 ≤ z < 32768.
Definition is_i32 (z : Z) : Prop := -2147483648 ≤ z < 2147483648.

Fixpoint element_typed (e : Element) : Prop :=
  match e with
  | SinglePoint x | DoublePoint x | SingleCommand x | DoubleCommand x | RegulatingCommand x
  | Initialization x | Interrogation x | CounterInterrogation x | ResetProcess x
  | ParameterActivation x => is_u8 x
  | StepPosition v q => is_u8 v ∧ is_u8 q
  | Bitstring32 v q | Float v q | SetpointFloat v q | ParameterFloat v q => is_u32 v ∧ is_u8 q
  | Normalized v q | Scaled v q | SetpointNormalized v q | SetpointScaled v q
  | ParameterNormalized v q | ParameterScaled v q => is_i16 v ∧ is_u8 q
  | Counter v q => is_i32 v ∧ is_u8 q
  | PackedStatus s c q => is_u16 s ∧ is_u16 c ∧ is_u8 q
  | NormalizedNoQuality v => is_i16 v
  | ProtectionEvent x t => is_u8 x ∧ is_u16 t
  | ProtectionStart x q t | ProtectionOutput x q t => is_u8 x ∧ is_u8 q ∧ is_u16 t
  | BitstringCommand v => is_u32 v
  | ReadCommand => True
  | ClockSync t => cp56_typed t
  | TestCommand s t => is_u16 s ∧ cp56_typed t
  | Timed v t => element_typed v ∧ cp56_typed t
  | FileReady n l q => is_u16 n ∧ is_u32 l ∧ is_u8 q
  | SectionReady n s l q => is_u16 n ∧ is_u8 s ∧ is_u32 l ∧ is_u8 q
  | FileCall n s q | FileACK n s q => is_u16 n ∧ is_u8 s ∧ is_u8 q
  | FileLast n s q c => is_u16 n ∧ is_u8 s ∧ is_u8 q ∧ is_u8 c
  | FileSegment n s d => is_u16 n ∧ is_u8 s ∧ bytes_ok d
  | FileDirectory n l s t => is_u16 n ∧ is_u32 l ∧ is_u8 s ∧ cp56_typed t
  | QueryLog n a b => is_u16 n ∧ cp56_typed a ∧ cp56_typed b
  | OtherElement => True
  end.

(** ** Addresses round-trip *)
Lemma appendAddress_app b a w : appendAddress b a w = b ++ appendAddress [] a w.
Proof.
  induction w as [|w IH]; cbn [appendAddress]; [by rewrite app_nil_r|].
  rewrite IH. by rewrite <- app_assoc.
Qed.

Lemma length_appendAddress a w : length (appendAddress [] a w) = w.
Proof. induction w as [|w IH]; cbn [appendAddress]; [done|]. rewrite length_app, IH. cbn; lia. Qed.

Lemma appendAddress_ok a w : bytes_ok (appendAddress [] a w).
Proof. induction w; cbn [appendAddress]; octets. Qed.
#[export] Hint Resolve appendAddress_ok : go.

Lemma pow_8_succ w : 2 ^ (8 * Z.of_nat (S w)) = 2 ^ (8 * Z.of_nat w) * 256.
Proof. replace (8 * Z.of_nat (S w)) with (8 * Z.of_nat w + 8) by lia. by rewrite Z.pow_add_r by lia. Qed.

Lemma readAddress_append a w rest : 0 ≤ a →
  readAddress (appendAddress [] a w ++ rest) w = Ok (a mod 2 ^ (8 * Z.of_nat w)).
Proof.
  intros Ha. revert rest. induction w as [|w IH]; intros rest.
  { cbn. by rewrite Z.mod_1_r. }
  cbn [appendAddress readAddress]. rewrite <- app_assoc. rewrite IH. cbn [bind app].
  rewrite idx_at by by rewrite length_appendAddress. cbn [bind]. f_equal.
  rewrite lor_shiftl_add by (try apply Z.mod_pos_bound; lia).
  rewrite pow_8_succ, Z.rem_mul_r by lia.
  unfold u8. rewrite Z.shiftr_div_pow2 by lia. lia.
Qed.

Lemma maxAddress_pow w : maxAddress w = 2 ^ (8 * Z.of_nat w) - 1.
Proof. unfold maxAddress. by rewrite Z.shiftl_1_l. Qed.

Lemma readAddress_append_small a w rest : 0 ≤ a ≤ maxAddress w →
  readAddress (appendAddress [] a w ++ rest) w = Ok a.
Proof. rewrite maxAddress_pow. intros. rewrite readAddress_append by lia. f_equal. apply Z.mod_small. lia. Qed.

Lemma readAddress_returns b w : (w ≤ length b)%nat → returns (readAddress b w).
Proof.
  induction w as [|w IH]; intros Hl; cbn [readAddress]; [ret|].
  apply bind_returns; [apply IH; lia|]. intros. returns_tac.
Qed.

(** Higher octets do not change the lower ones. *)
Lemma appendAddress_high a o w k : (k ≤ w)%nat →
  appendAddress [] (a + o * 2 ^ (8 * Z.of_nat w)) k = appendAddress [] a k.
Proof.
  intros Hk. induction k as [|k IH]; cbn [appendAddress]; [done|].
  rewrite IH by lia. do 2 f_equal. unfold u8. rewrite !Z.shiftr_div_pow2 by lia.
  replace (8 * Z.of_nat w) with (8 * Z.of_nat k + (8 + 8 * (Z.of_nat w - Z.of_nat k - 1))) by lia.
  rewrite !Z.pow_add_r by lia.
  set (p := 2 ^ (8 * Z.of_nat k)). assert (0 < p) by (apply Z.pow_pos_nonneg; lia).
  set (q := 2 ^ (8 * (Z.of_nat w - Z.of_nat k - 1))). change (2 ^ 8) with 256.
  replace (a + o * (p * (256 * q))) with (a + o * q * 256 * p) by ring.
  rewrite Z.div_add by lia. by rewrite Z_mod_plus_full.
Qed.

(** What is read is in range and is written back as the same octets. *)
Lemma readAddress_inv b w a : bytes_ok b → readAddress b w = Ok a →
  0 ≤ a ≤ maxAddress w ∧ (w ≤ length b)%nat ∧ appendAddress [] a w = take w b.
Proof.
  intros Hb. rewrite maxAddress_pow. revert a.
  induction w as [|w IH]; intros a H; cbn [readAddress] in H.
  { injection H as <-. cbn. split; [lia|]. split; [lia|done]. }
  apply bind_Ok in H as (a' & Ha' & H). apply bind_Ok in H as (o & Ho & [= <-]).
  apply IH in Ha' as (Hr & Hl & Happ). apply idx_Ok in Ho.
  pose proof (bytes_ok_lookup _ _ _ Hb Ho) as Hou. pose proof (lookup_lt_Some _ _ _ Ho).
  rewrite lor_shiftl_add, pow_8_succ by lia. unfold is_u8 in Hou.
  split; [nia|]. split; [lia|]. rewrite (take_S_r b w o) by done. cbn [appendAddress].
  rewrite appendAddress_high, Happ by done.
  f_equal. f_equal. unfold u8. rewrite Z.shiftr_div_pow2, Z.div_add by lia.
  rewrite (Z.div_small a') by lia. apply Z.mod_small. lia.
Qed.

Lemma appendAddress_2 v : appendAddress [] v 2 = PutUint16 v.
Proof. done. Qed.

Lemma name_read v rest : is_u16 v → readAddress (PutUint16 v ++ rest) 2 = Ok v.
Proof. intros. rewrite <- appendAddress_2. apply readAddress_append_small.
  change (maxAddress 2) with 65535. unfold is_u16 in *. lia. Qed.

(** ** Encoded elements decode to themselves *)

(** Replace [v] on the right of the goal by [x], which rewrites back to [v]. *)
Ltac rhs_as v x :=
  match goal with |- ?l = ?r =>
    let r' := eval pattern v in r in
    match r' with ?P _ => transitivity (P x); [cbv beta|cbv beta; f_equal] end
  end.

(** What the codec promises for one encoded element. *)
Definition element_ok (e : Element) (id : Z) (b : list Z) : Prop :=
  bytes_ok b ∧ decodeElement id b = Ok e ∧ ∀ rest, elementLength id (b ++ rest) = Ok (length b).

Lemma CP56_encode_shape c b : cp56_typed c → CP56_MarshalBinary c = Ok b →
  ∃ t0 t1 t2 t3 t4 t5 t6, b = [t0; t1; t2; t3; t4; t5; t6] ∧ bytes_ok b ∧
    DecodeCP56Time2a [t0; t1; t2; t3; t4; t5; t6] = Ok c.
Proof.
  intros Hc H. apply CP56_encode_decode in H as (Hb & Hl & Hd); [|done].
  destruct b as [|t0 [|t1 [|t2 [|t3 [|t4 [|t5 [|t6 [|]]]]]]]]; try done.
  by exists t0, t1, t2, t3, t4, t5, t6.
Qed.

Ltac cp56_shape H :=
  let Ht := fresh "Ht" in let Hb := fresh "Hb" in
  apply CP56_encode_shape in H as (? & ? & ? & ? & ? & ? & ? & -> & Hb & Ht);
  [|by auto].

(** The value a decoder reads from the octets of a typed field. *)
Ltac field_values :=
  repeat match goal with
  | H : is_i16 ?v |- _ = Ok _ =>
      rhs_as v (i16 (le16 (u8 (u16 v)) (u8 (Z.shiftr (u16 v) 8))));
      [clear H|by rewrite le16_bytes, i16_u16 by (auto with go)]
  | H : is_i32 ?v |- _ = Ok _ =>
      rhs_as v (i32 (le32 (u8 (u32 v)) (u8 (Z.shiftr (u32 v) 8)) (u8 (Z.shiftr (u32 v) 16))
                     (u8 (Z.shiftr (u32 v) 24))));
      [clear H|by rewrite le32_bytes, i32_u32 by (auto with go)]
  | H : is_u16 ?v |- _ = Ok _ =>
      rhs_as v (le16 (u8 v) (u8 (Z.shiftr v 8))); [clear H|by rewrite le16_bytes]
  | H : is_u32 ?v |- _ = Ok _ =>
      rhs_as v (le32 (u8 v) (u8 (Z.shiftr v 8)) (u8 (Z.shiftr v 16)) (u8 (Z.shiftr v 24)));
      [clear H|by rewrite le32_bytes]
  end.

Ltac split_typed :=
  repeat match goal with H : _ ∧ _ |- _ => destruct H end.

(** Elements without a time tag: every octet is a field of the element. *)
Lemma plain_encode_decode e b :
  (match e with
   | ProtectionEvent _ _ | ProtectionStart _ _ _ | ProtectionOutput _ _ _
   | ClockSync _ | TestCommand _ _ | Timed _ _ | OtherElement => False
   | _ => fileElementName e = (0, false) end) →
  element_typed e → encodePayload e = Ok b → element_ok e (elementType e) b.
Proof.
  intros Hk He H.
  destruct e; cbn in Hk; try done; cbn [element_typed elementType] in *;
    injection H as <-; split_typed; (split; [octets|split; [|done]]);
    field_values; reflexivity.
Qed.

(** Read the tag on the right of the goal from its octets. *)
Ltac rhs_tag :=
  match goal with
  | H : DecodeCP56Time2a ?l = Ok ?t |- _ = ?r =>
      let r' := eval pattern t in r in
      match r' with ?P _ =>
        transitivity (bind (E := iec_error) (DecodeCP56Time2a l) P); [clear H|by rewrite H] end
  end.

(** Elements with a time tag. *)
Lemma timed_encode_decode v t b tag :
  timedType v ≠ 0 → element_typed v → cp56_typed t →
  encodePayload v = Ok b → CP56_MarshalBinary t = Ok tag →
  element_ok (Timed v t) (timedType v) (b ++ tag).
Proof.
  intros Hk Hv Ht H Htag. cp56_shape Htag.
  destruct v; cbn [timedType] in Hk; try done; cbn [element_typed timedType] in *;
    injection H as <-; split_typed;
    (split; [apply bytes_ok_app; split; [octets|done]|split; [|done]]);
    rhs_tag.
  all: match goal with |- _ = bind ?d (λ tag, Ok (Timed ?e tag)) =>
      assert (∀ e', Ok (E := iec_error) e' = Ok e →
        bind d (λ tag, Ok (E := iec_error) (Timed e' tag)) = bind d (λ tag, Ok (Timed e tag))) as Hcong
        by (by intros e' [= ->]);
      etransitivity; [|apply Hcong; field_values; reflexivity] end; reflexivity.
Qed.

Lemma clock_encode_decode t b : cp56_typed t → CP56_MarshalBinary t = Ok b →
  element_ok (ClockSync t) C_CS_NA_1 b.
Proof. intros Ht H. cp56_shape H. split; [done|]. split; [|done]. by rhs_tag. Qed.

Lemma test_encode_decode s t b : is_u16 s → cp56_typed t → CP56_MarshalBinary t = Ok b →
  element_ok (TestCommand s t) C_TS_TA_1 (PutUint16 s ++ b).
Proof.
  intros Hs Ht H. cp56_shape H. split; [by apply bytes_ok_app; auto with go|]. split; [|done].
  field_values. by rhs_tag.
Qed.

(** File elements. *)
Lemma append_length_inv b n q b' : append_length b n q = Ok b' →
  n ≤ maxAddress 3 ∧ b' = b ++ appendAddress [] n 3 ++ [q].
Proof.
  unfold append_length. intros H. apply guard_err_Ok in H as [? H]. bool_facts.
  assert (b' = appendAddress b n 3 ++ [q]) as -> by congruence.
  split; [done|]. by rewrite (appendAddress_app b), <- app_assoc.
Qed.

Lemma length_read n rest : is_u32 n → n ≤ maxAddress 3 →
  readAddress (appendAddress [] n 3 ++ rest) 3 = Ok n.
Proof. intros. apply readAddress_append_small. unfold is_u32 in *. lia. Qed.

Lemma segment_length name s d rest : (length d ≤ 255)%nat →
  elementLength F_SG_NA_1 ((PutUint16 name ++ [s; u8 (zlen d)] ++ d) ++ rest) =
  Ok (length (PutUint16 name ++ [s; u8 (zlen d)] ++ d)).
Proof.
  intros Hd. set (b := PutUint16 name ++ [s; u8 (zlen d)] ++ d).
  transitivity (guard_err ErrMalformed (length (b ++ rest) <? 4 + Z.to_nat (u8 (zlen d)))%nat
                  (Ok (4 + Z.to_nat (u8 (zlen d)))%nat)); [reflexivity|].
  rewrite (u8_small (zlen d)) by (unfold is_u8, zlen; lia).
  assert (length b = 4 + length d)%nat as Hb by done.
  rewrite length_app, Hb. unfold zlen. rewrite Nat2Z.id.
  by rewrite (proj2 (Nat.ltb_ge _ _)) by lia.
Qed.

(** Evaluate the address reads of a decoded file element. *)
Ltac read_fields :=
  rewrite ?name_read, ?length_read by done; cbn [bind]; by rewrite ?u16_small by done.

Lemma segment_encode_decode name s d b : is_u16 name → is_u8 s → bytes_ok d →
  encodeFileElement (FileSegment name s d) = Ok b → element_ok (FileSegment name s d) F_SG_NA_1 b.
Proof.
  cbn [encodeFileElement]. intros Hn Hs Hd H. apply guard_err_Ok in H as [Hl H]. bool_facts.
  assert (b = PutUint16 name ++ [s; u8 (zlen d)] ++ d) as -> by congruence.
  split; [octets|]. pose proof (segment_length name s d) as He. split; [|by intros; apply He].
  unfold decodeElement. cbn [decode_element]. change (isFileType F_SG_NA_1) with true.
  cbn match. unfold decodeFileElement. rewrite <- (app_nil_r (_ ++ _)) at 1.
  rewrite He by done. cbn [bind]. rewrite Nat.eqb_refl. cbn [negb guard_err].
  rewrite name_read by done. cbn [bind]. by rewrite u16_small by done.
Qed.

Lemma file_encode_decode e b :
  snd (fileElementName e) = true →
  element_typed e → encodeFileElement e = Ok b → element_ok e (elementType e) b.
Proof.
  intros Hk He H.
  destruct e; cbn in Hk; try done; cbn [element_typed elementType] in *; split_typed;
    [..|by apply segment_encode_decode| |]; cbn [encodeFileElement] in H.
  - apply append_length_inv in H as [Hn ->]. split; [octets|].
    split; [|done].
    transitivity (let! name0 := readAddress (PutUint16 Name ++ appendAddress [] Length 3 ++ [Qualifier]) 2 in
      let! len := readAddress (appendAddress [] Length 3 ++ [Qualifier]) 3 in
      Ok (E := iec_error) (FileReady (u16 name0) len Qualifier)); [reflexivity|read_fields].
  - apply append_length_inv in H as [Hn ->]. split; [octets|].
    split; [|done]. rewrite <- app_assoc.
    transitivity (let! name0 := readAddress (PutUint16 Name ++ [Section_] ++ appendAddress [] Length 3 ++ [Qualifier]) 2 in
      let! len := readAddress (appendAddress [] Length 3 ++ [Qualifier]) 3 in
      Ok (E := iec_error) (SectionReady (u16 name0) Section_ len Qualifier)); [reflexivity|read_fields].
  - injection H as <-. split; [octets|]. split; [|done].
    transitivity (let! name0 := readAddress (PutUint16 Name ++ [Section_; Qualifier]) 2 in
      Ok (E := iec_error) (FileCall (u16 name0) Section_ Qualifier)); [reflexivity|read_fields].
  - injection H as <-. split; [octets|]. split; [|done].
    transitivity (let! name0 := readAddress (PutUint16 Name ++ [Section_; Qualifier; Checksum]) 2 in
      Ok (E := iec_error) (FileLast (u16 name0) Section_ Qualifier Checksum)); [reflexivity|read_fields].
  - injection H as <-. split; [octets|]. split; [|done].
    transitivity (let! name0 := readAddress (PutUint16 Name ++ [Section_; Qualifier]) 2 in
      Ok (E := iec_error) (FileACK (u16 name0) Section_ Qualifier)); [reflexivity|read_fields].
  - apply bind_Ok in H as (b1 & H & H'). apply append_length_inv in H as [Hn ->].
    apply bind_Ok in H' as (tag & Ht & H'). cp56_shape Ht.
    match type of H' with Ok ?x = _ => assert (b = x) as -> by congruence end.
    split; [rewrite !bytes_ok_app; split_and!; auto with go; octets|]. split; [|done].
    rewrite <- !app_assoc. set (tag := [_; _; _; _; _; _; _]) in *.
    transitivity (let! name0 := readAddress (PutUint16 Name ++ appendAddress [] Length 3 ++ [Status] ++ tag) 2 in
      let! t := DecodeCP56Time2a tag in
      let! len := readAddress (appendAddress [] Length 3 ++ [Status] ++ tag) 3 in
      Ok (E := iec_error) (FileDirectory (u16 name0) len Status t)); [reflexivity|].
    rewrite Ht0. read_fields.
  - apply bind_Ok in H as (s & Hs & H). apply bind_Ok in H as (p & Hp & H).
    cp56_shape Hs. cp56_shape Hp.
    match type of H with Ok ?x = _ => assert (b = x) as -> by congruence end.
    split; [rewrite !bytes_ok_app; split_and!; auto with go|]. split; [|done].
    match type of Ht with DecodeCP56Time2a ?l = _ => set (sl := l) in * end.
    match type of Ht0 with DecodeCP56Time2a ?l = _ => set (pl := l) in * end.
    transitivity (let! name0 := readAddress (PutUint16 Name ++ sl ++ pl) 2 in
      let! s := DecodeCP56Time2a sl in let! p := DecodeCP56Time2a pl in
      Ok (E := iec_error) (QueryLog (u16 name0) s p)); [reflexivity|].
    rewrite Ht, Ht0. read_fields.
Qed.

Lemma element_encode_decode e id b :
  element_typed e → encodeElement e = Ok (id, b) → element_ok e id b.
Proof.
  intros He H.
  destruct e; cbn [encodeElement] in H;
    lazymatch type of H with
    | guard_err _ (timedType _ =? 0) _ = _ =>
        apply guard_err_Ok in H as [? H]; bool_facts;
        apply bind_Ok in H as (p & Hp & H); apply bind_Ok in H as (tag & Ht & H);
        destruct He; injection H as <- <-; by apply timed_encode_decode
    | _ =>
        apply bind_Ok in H as (p & Hp & H); apply guard_err_Ok in H as [Hs H];
        injection H as <- <-;
        first [by apply plain_encode_decode | by apply file_encode_decode | idtac]
    end.
  all: cbn [encodePayload elementType element_typed] in *; try done; try by vm_compute in Hs.
  all: try by apply clock_encode_decode.
  apply bind_Ok in Hp as (tag & Ht & Hp). destruct He. injection Hp as <-. by apply test_encode_decode.
Qed.

(** ** Decoded elements encode to the octets they were read from *)
Definition supported_ids : list Z := F_SG_NA_1 :: (fst <$> elementSizes).

Lemma assoc_elem {V} k (l : list (Z * V)) v : assoc k l = Some v → k ∈ fst <$> l.
Proof.
  induction l as [|[k' v'] l IH]; cbn [assoc]; [done|].
  case_if; bool_facts; cbn; rewrite elem_of_cons; naive_solver.
Qed.

Lemma decodeElement_supported id b e : decodeElement id b = Ok e → id ∈ supported_ids.
Proof.
  unfold decodeElement, supported_ids. cbn [decode_element]. rewrite elem_of_cons.
  destruct (isFileType id) eqn:Hf.
  - intros _. unfold isFileType, F_FR_NA_1, F_SC_NB_1 in Hf. bool_facts.
    assert (id = 120 ∨ id = 121 ∨ id = 122 ∨ id = 123 ∨ id = 124 ∨ id = 125 ∨ id = 126 ∨ id = 127) as Hid by lia.
    destruct (decide (id = 125)); [by left|right].
    apply list_elem_of_In. cbn. unfold F_FR_NA_1. naive_solver.
  - unfold ElementSize. destruct (assoc id elementSizes) eqn:Ha; [|done].
    intros _. right. by eapply assoc_elem.
Qed.

Lemma decode_fixed_length id n b e : isFileType id = false → ElementSize id = (n, true) →
  decodeElement id b = Ok e → length b = n.
Proof.
  unfold decodeElement. cbn [decode_element]. intros -> -> H.
  inv_ok H. by bool_facts.
Qed.

(** Known-length octet strings, written out. *)
Lemma length_0_inv (b : list Z) : length b = 0%nat → b = [].
Proof. by destruct b. Qed.
Lemma length_S_inv (b : list Z) n : length b = S n → ∃ x b', b = x :: b' ∧ length b' = n.
Proof. destruct b; naive_solver. Qed.

Ltac explicit Hl :=
  repeat (let x := fresh "x" in let b' := fresh "b" in
          apply length_S_inv in Hl as (x & b' & -> & Hl));
  apply length_0_inv in Hl; subst.

(** Evaluate a decoder on octets written out, up to the field conversions. *)
Ltac run_decode H :=
  lazy -[Z.lor Z.shiftl i16 i32 u16 DecodeCP56Time2a readAddress] in H.

Ltac octet_facts Hb :=
  repeat (let H := fresh "Hx" in apply Forall_cons in Hb as [H Hb]).

Lemma i16_range v : is_i16 (i16 v).
Proof.
  unfold is_i16, i16, signed. change (2 ^ 16) with 65536. change (2 ^ (16 - 1)) with 32768.
  case_if; bool_facts; modlia.
Qed.
Lemma i32_range v : is_i32 (i32 v).
Proof.
  unfold is_i32, i32, signed. change (2 ^ 32) with 4294967296.
  change (2 ^ (32 - 1)) with 2147483648. case_if; bool_facts; modlia.
Qed.
#[export] Hint Resolve i16_range i32_range : go.

Lemma PutUint16_i16 a b : is_u8 a → is_u8 b → PutUint16 (u16 (i16 (le16 a b))) = [a; b].
Proof. intros. rewrite u16_i16, le16_split by auto with go. done. Qed.
Lemma PutUint32_i32 a b c d : is_u8 a → is_u8 b → is_u8 c → is_u8 d →
  PutUint32 (u32 (i32 (le32 a b c d))) = [a; b; c; d].
Proof. intros. rewrite u32_i32, le32_split by auto with go. done. Qed.

Ltac fold_le :=
  repeat match goal with
  | |- context [Z.lor (Z.lor (Z.lor ?a (Z.shiftl ?b 8)) (Z.shiftl ?c 16)) (Z.shiftl ?d 24)] =>
      change (Z.lor (Z.lor (Z.lor a (Z.shiftl b 8)) (Z.shiftl c 16)) (Z.shiftl d 24)) with (le32 a b c d)
  | |- context [Z.lor ?a (Z.shiftl ?b 8)] => change (Z.lor a (Z.shiftl b 8)) with (le16 a b)
  end.

(** Case on a tag read in [H] and learn that it encodes to the octets read. *)
Ltac read_tags H :=
  repeat match type of H with
  | context [DecodeCP56Time2a ?l] =>
      let tg := fresh "tag" in let Ht := fresh "Htag" in let Hc := fresh "Hc" in
      destruct (DecodeCP56Time2a l) as [tg|?| |] eqn:Ht; [|discriminate H..];
      apply CP56_decode_encode in Ht as [Hc Ht]; [|by octets]
  end.

(** The encoder on a decoded element. *)
Ltac encode_back :=
  fold_le; split; [cbn [element_typed]; auto 10 with go|];
  cbn [encodeElement encodePayload encodeFileElement bind timedType];
  repeat match goal with H : CP56_MarshalBinary _ = Ok _ |- _ => rewrite H; clear H end;
  cbn [bind];
  rewrite ?PutUint16_i16, ?PutUint32_i32, ?le16_split, ?le32_split by done; reflexivity.

Lemma plain_decode_encode id n b e :
  bytes_ok b → isFileType id = false → ElementSize id = (n, true) →
  decodeElement id b = Ok e → element_typed e ∧ encodeElement e = Ok (id, b).
Proof.
  intros Hb Hf Hn H. pose proof (decode_fixed_length _ _ _ _ Hf Hn H) as Hl.
  pose proof (decodeElement_supported _ _ _ H) as Hid.
  unfold supported_ids in Hid.
  repeat (apply elem_of_cons in Hid as [->|Hid]); try (by vm_compute in Hf);
    try (by apply not_elem_of_nil in Hid);
    vm_compute in Hn; injection Hn as <-; explicit Hl; run_decode H; octet_facts Hb;
    read_tags H; injection H as <-; encode_back.
Qed.

Lemma elementLength_fixed id b n : id ≠ F_SG_NA_1 → elementLength id b = Ok n →
  n = fst (ElementSize id) ∧ (n ≤ length b)%nat.
Proof.
  unfold elementLength. intros Hid H. rewrite (proj2 (Z.eqb_neq _ _) Hid) in H. cbn [bind] in H.
  apply guard_err_Ok in H as [Hl H]. injection H as <-. by bool_facts.
Qed.

Lemma elementLength_segment b n : elementLength F_SG_NA_1 b = Ok n →
  ∃ los, b !! 3%nat = Some los ∧ n = (4 + Z.to_nat los)%nat ∧ (n ≤ length b)%nat.
Proof.
  unfold elementLength. rewrite Z.eqb_refl. intros H. apply bind_Ok in H as (m & Hm & H).
  apply guard_err_Ok in Hm as [_ Hm]. apply bind_Ok in Hm as (los & Hlos & Hm).
  apply idx_Ok in Hlos. injection Hm as <-. apply guard_err_Ok in H as [Hl H]. injection H as <-.
  bool_facts. eauto.
Qed.

(** The addresses of a file element, as the encoder writes them. *)
Lemma name_inv b a : bytes_ok b → readAddress b 2 = Ok a → is_u16 a ∧ PutUint16 a = take 2 b.
Proof.
  intros Hb H. apply readAddress_inv in H as (Hr & _ & H); [|done].
  change (maxAddress 2) with 65535 in Hr. split; [unfold is_u16; lia|by rewrite <- appendAddress_2].
Qed.

Lemma append_length_read pre b n q : bytes_ok b → readAddress b 3 = Ok n →
  is_u32 n ∧ append_length pre n q = Ok (pre ++ take 3 b ++ [q]).
Proof.
  intros Hb H. apply readAddress_inv in H as (Hr & _ & H); [|done].
  change (maxAddress 3) with 0xffffff in Hr. split; [unfold is_u32; lia|].
  unfold append_length. rewrite (proj2 (Z.ltb_ge _ _)) by lia.
  cbn [guard_err]. by rewrite appendAddress_app, H, <- app_assoc.
Qed.

(** Case on a length read in [H] and learn that it is written back. *)
Ltac read_length H :=
  try match type of H with
  | context [readAddress ?l 3] =>
      let n := fresh "len" in let Hn := fresh "Hlen" in
      destruct (readAddress l 3) as [n|?| |] eqn:Hn; [|discriminate H..];
      let Hr := fresh "Hr" in
      assert (is_u32 n) as Hr by (eapply (append_length_read [] _ _ 0); [|exact Hn]; octets);
      assert (∀ pre q, append_length pre n q = Ok (pre ++ take 3 l ++ [q])) as ?
        by (intros; eapply append_length_read; [|exact Hn]; octets)
  end.

Lemma segment_decode_encode b e :
  bytes_ok b → decodeFileElement F_SG_NA_1 b = Ok e →
  element_typed e ∧ encodeFileElement e = Ok b ∧ elementType e = F_SG_NA_1.
Proof.
  intros Hb H. unfold decodeFileElement in H.
  apply bind_Ok in H as (n & Hn & H). apply guard_err_Ok in H as [Hl H]. bool_facts.
  apply bind_Ok in H as (name & Hname & H). cbv zeta in H.
  apply name_inv in Hname as [Hu Hname]; [|done]. rewrite (u16_small name Hu) in H.
  apply elementLength_segment in Hn as (los & H3 & -> & _). cbn in H.
  destruct b as [|x0 [|x1 [|x2 [|x3 d]]]]; try done. cbn in H3, Hl, Hname, H.
  injection H3 as ->. injection H as <-. octet_facts Hb.
  rewrite drop_0. assert (length d = Z.to_nat los) as Hd by lia. unfold is_u8 in Hx2.
  split; [cbn [element_typed]; by auto|]. split; [|done].
  cbn [encodeFileElement]. rewrite (proj2 (Nat.ltb_ge _ _)) by lia. cbn [guard_err].
  rewrite Hname. cbn [app]. rewrite u8_small by (unfold is_u8, zlen; lia).
  unfold zlen. by rewrite Hd, Z2Nat.id by lia.
Qed.

Lemma file_decode_encode id b e :
  bytes_ok b → isFileType id = true → decodeFileElement id b = Ok e →
  element_typed e ∧ encodeFileElement e = Ok b ∧ elementType e = id.
Proof.
  intros Hb Hf H. destruct (decide (id = F_SG_NA_1)) as [->|Hsg].
  { by apply segment_decode_encode. }
  unfold decodeFileElement in H.
  apply bind_Ok in H as (n & Hn & H). apply guard_err_Ok in H as [Hl H]. bool_facts.
  apply bind_Ok in H as (name & Hname & H). cbv zeta in H.
  apply name_inv in Hname as [Hu Hname]; [|done]. rewrite (u16_small name Hu) in H.
  unfold isFileType, F_FR_NA_1, F_SC_NB_1 in Hf. bool_facts.
  apply elementLength_fixed in Hn as [-> _]; [|done].
  assert (id = 120 ∨ id = 121 ∨ id = 122 ∨ id = 123 ∨ id = 124 ∨ id = 126 ∨ id = 127) as Hid
    by (unfold F_SG_NA_1 in *; lia).
  destruct Hid as [->|[->|[->|[->|[->|[->| ->]]]]]]; vm_compute in Hl; explicit Hl;
    run_decode H; octet_facts Hb; cbn [take] in Hname; read_tags H; read_length H;
    injection H as <-; (split; [cbn [element_typed]; by auto 10|]); (split; [|done]);
    cbn [encodeFileElement]; rewrite ?Hname;
    repeat match goal with H : ∀ pre q, append_length _ _ _ = _ |- _ => rewrite H; clear H end;
    cbn [bind];
    repeat match goal with H : CP56_MarshalBinary _ = Ok _ |- _ => rewrite H; clear H; cbn [bind] end;
    reflexivity.
Qed.

Lemma element_decode_encode id b e :
  bytes_ok b → decodeElement id b = Ok e → element_typed e ∧ encodeElement e = Ok (id, b).
Proof.
  intros Hb H. destruct (isFileType id) eqn:Hf.
  - unfold decodeElement in H. cbn [decode_element] in H. rewrite Hf in H.
    apply file_decode_encode in H as (Ht & He & <-); [|done..]. split; [done|].
    assert (Supported (elementType e) = true) as Hs
      by (destruct e; try (by vm_compute in Hf); try done; destruct v; by vm_compute in Hf).
    destruct e; try done; cbn [encodeElement encodePayload];
      try (rewrite He; cbn [bind]; by rewrite Hs).
  - destruct (ElementSize id) as [n ok] eqn:Hs. destruct ok; [by eapply plain_decode_encode|].
    unfold decodeElement in H. cbn [decode_element] in H. by rewrite Hf, Hs in H.
Qed.

(** ** The decoder never panics *)
Lemma DecodeCP56_safe b : safe (DecodeCP56Time2a b).
Proof. unfold DecodeCP56Time2a. apply guard_err_safe. intros. bool_facts.
  unfold Uint16. safe_tac. Qed.

Lemma readAddress_safe b w : (w ≤ length b)%nat → safe (readAddress b w).
Proof. intros [a ->]%readAddress_returns. done. Qed.

#[export] Hint Resolve DecodeCP56_safe readAddress_safe : go.

Lemma elementLength_safe id b : safe (elementLength id b).
Proof. unfold elementLength. safe_tac. Qed.

Lemma elementLength_bound id b n : elementLength id b = Ok n → (n ≤ length b)%nat.
Proof.
  destruct (decide (id = F_SG_NA_1)) as [->|Hid].
  - by intros (? & _ & _ & ?)%elementLength_segment.
  - by intros [_ ?]%elementLength_fixed.
Qed.

Lemma decodeFileElement_safe id b : isFileType id = true → safe (decodeFileElement id b).
Proof.
  intros Hf. unfold decodeFileElement.
  apply bind_safe; [apply elementLength_safe|]. intros n Hn.
  apply guard_err_safe. intros. bool_facts. subst n.
  destruct (decide (id = F_SG_NA_1)) as [->|Hsg].
  - apply elementLength_segment in Hn as (los & _ & Hl & _).
    apply bind_safe; [apply readAddress_safe; lia|]. intros. cbn. safe_tac.
  - apply elementLength_fixed in Hn as [Hl _]; [|done].
    unfold isFileType, F_FR_NA_1, F_SC_NB_1 in Hf. bool_facts.
    assert (id = 120 ∨ id = 121 ∨ id = 122 ∨ id = 123 ∨ id = 124 ∨ id = 126 ∨ id = 127) as Hid
      by (unfold F_SG_NA_1 in *; lia).
    destruct Hid as [->|[->|[->|[->|[->|[->| ->]]]]]]; vm_compute in Hl; explicit Hl; cbn;
      repeat (apply bind_safe; [by auto with go|intros; cbn]); done.
Qed.

Lemma plain_safe id n b : isFileType id = false → ElementSize id = (n, true) → length b = n →
  safe (decodeElement id b).
Proof.
  intros Hf Hn Hl. assert (id ∈ fst <$> elementSizes) as Hid.
  { unfold ElementSize in Hn. destruct (assoc id elementSizes) eqn:Ha; [|done]. by eapply assoc_elem. }
  subst n. repeat (apply elem_of_cons in Hid as [->|Hid]); try (by vm_compute in Hf);
    try (by apply not_elem_of_nil in Hid); vm_compute in Hn; injection Hn as Hl;
    symmetry in Hl; explicit Hl;
    lazy -[Z.lor Z.shiftl i16 i32 u16 DecodeCP56Time2a readAddress]; try done.
  all: match goal with |- context [DecodeCP56Time2a ?l] =>
         pose proof (DecodeCP56_safe l); by destruct (DecodeCP56Time2a l) end.
Qed.

Lemma encodeElement_safe e : safe (encodeElement e).
Proof.
  assert (∀ c, safe (CP56_MarshalBinary c)) as Hcp
    by (intros; unfold CP56_MarshalBinary; safe_tac).
  assert (∀ v, safe (encodeFileElement v)) as Hf.
  { intros v; destruct v; cbn [encodeFileElement]; unfold append_length; try exact I;
      repeat (first [apply Hcp | exact I | apply guard_err_safe; intros _ | apply bind_safe; [|intros ? _]]). }
  assert (∀ v, safe (encodePayload v)) as Hp.
  { intros v; destruct v; cbn [encodePayload]; try exact I; try apply Hcp; try apply Hf;
      (apply bind_safe; [apply Hcp|intros; exact I]). }
  destruct e; cbn [encodeElement];
    repeat (first [apply Hp | apply Hcp | exact I | apply guard_err_safe; intros _ | apply bind_safe; [|intros ? _]]).
Qed.

Lemma decodeElement_safe id b : safe (decodeElement id b).
Proof.
  destruct (isFileType id) eqn:Hf.
  { unfold decodeElement. cbn [decode_element]. rewrite Hf. by apply decodeFileElement_safe. }
  destruct (decide (ElementSize id = (length b, true))) as [Hs|Hs].
  { by eapply plain_safe. }
  unfold decodeElement. cbn [decode_element]. rewrite Hf.
  destruct (ElementSize id) as [n ok]. apply guard_err_safe. intros Hok. bool_facts.
  apply guard_err_safe. intros Hn. bool_facts. congruence.
Qed.

(** ** The errors of the decoder *)
Definition codec_error (e : iec_error) : Prop := e = ErrMalformed ∨ e = ErrUnsupportedType.

Lemma malformed_codec : codec_error ErrMalformed.
Proof. by left. Qed.
Lemma unsupported_codec : codec_error ErrUnsupportedType.
Proof. by right. Qed.
#[export] Hint Resolve malformed_codec unsupported_codec : go.

Lemma CP56_errs b : errs codec_error (DecodeCP56Time2a b).
Proof. unfold DecodeCP56Time2a, Uint16. errs_tac; auto with go. Qed.

Lemma readAddress_errs b n : errs codec_error (readAddress b n).
Proof. induction n; cbn [readAddress]; errs_tac; auto with go. Qed.

Lemma elementLength_errs id b : errs codec_error (elementLength id b).
Proof. unfold elementLength. errs_tac; auto with go. Qed.

Lemma decodeFileElement_errs id b : errs codec_error (decodeFileElement id b).
Proof.
  unfold decodeFileElement. errs_tac;
    auto using elementLength_errs, readAddress_errs, CP56_errs with go.
Qed.

Lemma decode_plain_errs id n b : errs codec_error (decode_plain id n b).
Proof.
  unfold decode_plain, decode_protection, Uint16, Uint32, DecodeCP16Time2a, Uint16.
  errs_tac; auto using CP56_errs with go.
Qed.

Lemma decode_element_errs fuel id b : errs codec_error (decode_element fuel id b).
Proof.
  revert id b. induction fuel as [|fuel IH]; intros id b; [done|]. cbn [decode_element].
  case_if; [apply decodeFileElement_errs|]. destruct (ElementSize id) as [n ok].
  errs_tac; auto with go. destruct (assoc id timedBases); [|apply decode_plain_errs].
  errs_tac; auto using CP56_errs.
Qed.

(** ** Properties *)

(** Every information element round-trips through its type's codec, in
    both directions: a value the encoder accepts decodes, under the type the
    encoder chose, to the same value, and the decoder finds its extent in
    front of any further octets; octets the decoder accepts are encoded back
    unchanged, under the same type. *)
Theorem element_roundtrip :
  (∀ e id b, element_typed e → encodeElement e = Ok (id, b) →
     bytes_ok b ∧ decodeElement id b = Ok e ∧
     ∀ rest, elementLength id (b ++ rest) = Ok (length b)) ∧
  (∀ id b e, bytes_ok b → decodeElement id b = Ok e →
     element_typed e ∧ encodeElement e = Ok (id, b)).
Proof.
  split; [intros; by apply element_encode_decode|intros; by apply element_decode_encode].
Qed.

Lemma element_roundtrip_witness :
  decodeElement C_SE_TA_1 [0x18; 0xfc; 0x85; 0xdc; 0x05; 0x1e; 0x0c; 0x6f; 0x03; 0x18] =
    Ok (Timed (SetpointNormalized (-1000) 0x85) (mkCP56 1500 30 false false 12 false 0 15 3 3 0 24 false)) ∧
  encodeElement (FileSegment 7 1 [1; 2; 3]) = Ok (F_SG_NA_1, [7; 0; 1; 3; 1; 2; 3]).
Proof.
  split.
  - eapply (proj1 element_roundtrip); [|reflexivity].
    repeat split; vm_compute; congruence.
  - eapply (proj2 element_roundtrip); [|reflexivity].
    repeat constructor; vm_compute; congruence.
Defined.

(** The qualifier constructors accept exactly the documented ranges, and
    the accessors recover what was put in: a step position in -64..63 with its
    transient flag, a command state in 0..3 with its QU in 0..31 and its select
    flag; anything else is an error. *)
Theorem qualifier_roundtrip :
  (∀ position transient, -64 ≤ position ≤ 63 →
     ∃ v, NewVTI position transient = Ok v ∧ is_u8 v ∧
          VTI_Position v = position ∧ VTI_Transient v = transient) ∧
  (∀ position transient, ¬ (-64 ≤ position ≤ 63) → NewVTI position transient = Err ErrMalformed) ∧
  (∀ state qu sel, 0 ≤ state ≤ 3 → 0 ≤ qu ≤ 31 →
     ∃ q, NewCommandQualifier state qu sel = Ok q ∧ is_u8 q ∧
          CQ_State q = state ∧ CQ_QU q = qu ∧ CQ_Select q = sel) ∧
  (∀ state qu sel, 3 < state ∨ 31 < qu → NewCommandQualifier state qu sel = Err ErrMalformed).
Proof.
  split_and!.
  - intros p tr Hp.
    pose proof (range_forall 128 (λ k, forallb (λ tr,
      match NewVTI (k - 64) tr with
      | Ok v => (0 <=? v) && (v <? 256) && (VTI_Position v =? k - 64) && Bool.eqb (VTI_Transient v) tr
      | _ => false end) bools) ltac:(vm_compute; reflexivity) (p + 64) ltac:(lia)) as H.
    pose proof (forall_bools _ H tr) as H'. cbv beta in H'. rewrite Z.add_simpl_r in H'.
    destruct (NewVTI p tr) as [v|?| |]; try done. decided H'. exists v. unfold is_u8. auto.
  - intros p tr Hp. unfold NewVTI.
    assert ((p <? -64) || (63 <? p) = true) as -> by (apply orb_true_iff; lia). done.
  - intros s q sel Hs Hq.
    pose proof (range_forall2 4 32 (λ s q, forallb (λ sel,
      match NewCommandQualifier s q sel with
      | Ok v => (0 <=? v) && (v <? 256) && (CQ_State v =? s) && (CQ_QU v =? q) && Bool.eqb (CQ_Select v) sel
      | _ => false end) bools) ltac:(vm_compute; reflexivity) s q ltac:(lia) ltac:(lia)) as H.
    pose proof (forall_bools _ H sel) as H'. cbv beta in H'.
    destruct (NewCommandQualifier s q sel) as [v|?| |]; try done. decided H'. exists v. unfold is_u8. auto 6.
  - intros s q sel Hs. unfold NewCommandQualifier.
    assert ((3 <? s) || (31 <? q) = true) as -> by (apply orb_true_iff; lia). done.
Qed.

Lemma qualifier_roundtrip_witness :
  (∃ v, NewVTI (-64) true = Ok v ∧ is_u8 v ∧ VTI_Position v = -64 ∧ VTI_Transient v = true) ∧
  NewVTI 64 false = Err ErrMalformed ∧
  (∃ q, NewCommandQualifier 2 31 true = Ok q ∧ is_u8 q ∧
        CQ_State q = 2 ∧ CQ_QU q = 31 ∧ CQ_Select q = true) ∧
  NewCommandQualifier 4 0 false = Err ErrMalformed.
Proof.
  destruct qualifier_roundtrip as (A & B & C & D).
  split; [apply A; lia|]. split; [apply B; lia|]. split; [apply C; lia|]. apply D; lia.
Defined.
