(* ===== verification/Iec104Asdu.v ===== *)
(** * ASDUs (iec104go/asdu.go, builder.go, mirror.go, file_codec.go)

    The envelope, the object list and the codec over both; the builder that
    packs objects up to the size limit; the mirror used for negative
    confirmations.  Values are immutable here, so the copies the source makes
    to own its memory are the identity; a Go [int] width is a [Z]. *)
From S2P Require Import Prelude Iec104Types Iec104Time Iec104Elements.

Definition MaxASDUSize : nat := 249.

Record Params : Type := mkParams { COTSize : Z; CASize : Z; IOASize : Z }.
Definition DefaultParams : Params := mkParams 2 2 3.

Definition Params_Validate (p : Params) : option iec_error :=
  if (COTSize p <? 1) || (2 <? COTSize p) || (CASize p <? 1) || (2 <? CASize p) ||
     (IOASize p <? 1) || (3 <? IOASize p)
  then Some ErrMalformed else None.

Definition headerSize (p : Params) : nat := Z.to_nat (2 + COTSize p + CASize p).

(** The octets of an address field. *)
Definition ca_width (p : Params) : nat := Z.to_nat (CASize p).
Definition ioa_width (p : Params) : nat := Z.to_nat (IOASize p).

Record Header : Type := mkHeader {
  Type_ : Z;
  Sequence : bool;
  Count : Z;
  Cause : Z;
  Negative : bool;
  Test : bool;
  Originator : Z;
  CommonAddress : Z
}.

Record Object : Type := mkObject { Address : Z; Element_ : Element }.

Record ASDU : Type := mkASDU { AHeader : Header; Objects : list Object }.

Record RawASDU : Type := mkRaw { RHeader : Header; Payload : list Z; DecodeError : option iec_error }.

(** A [Message] holds an [ASDU] or a [RawASDU]; [NilMessage] is a nil
    interface or a nil pointer. *)
Inductive Message : Type :=
| ASDUMessage (a : ASDU)
| RawMessage (r : RawASDU)
| NilMessage.

Definition set_Count (n : Z) (h : Header) : Header :=
  mkHeader (Type_ h) (Sequence h) n (Cause h) (Negative h) (Test h) (Originator h) (CommonAddress h).
Definition set_Sequence (s : bool) (h : Header) : Header :=
  mkHeader (Type_ h) s (Count h) (Cause h) (Negative h) (Test h) (Originator h) (CommonAddress h).
Definition set_Cause (c : Z) (negative : bool) (h : Header) : Header :=
  mkHeader (Type_ h) (Sequence h) (Count h) c negative (Test h) (Originator h) (CommonAddress h).

Definition ASDU_GetHeader (a : ASDU) : Header := set_Count (u8 (zlen (Objects a))) (AHeader a).

Definition fileStructure (h : Header) : option iec_error :=
  if negb (isFileType (Type_ h)) then None
  else if Type_ h =? F_DR_TA_1 then (if Sequence h then None else Some ErrMalformed)
  else if negb (Sequence h) && (Count h =? 1) then None
  else Some ErrMalformed.

Definition objectAddress (id first : Z) (index : nat) : Z :=
  if id =? F_DR_TA_1 then first else u32 (first + u32 (Z.of_nat index)).

Definition vsq_octet (h : Header) : Z := if Sequence h then Z.lor (Count h) 128 else Count h.
Definition cause_octet (h : Header) : Z :=
  let cause := if Negative h then Z.lor (Cause h) 64 else Cause h in
  if Test h then Z.lor cause 128 else cause.

Definition encodeHeader (p : Params) (h : Header) : outcome iec_error (list Z) :=
  match Params_Validate p with
  | Some e => Err e
  | None =>
      guard_err ErrMalformed
        ((127 <? Count h) || (63 <? Cause h) || (maxAddress (ca_width p) <? CommonAddress h) ||
         ((COTSize p =? 1) && negb (Originator h =? 0)))
        (let b := [Type_ h; vsq_octet h; cause_octet h] in
         let b := if COTSize p =? 2 then b ++ [Originator h] else b in
         Ok (appendAddress b (CommonAddress h) (ca_width p)))
  end.

(** The loop of [ASDU.MarshalBinary] over the objects from index [i]. *)
Fixpoint marshal_objects (p : Params) (h : Header) (first : Z) (i : nat) (objects : list Object)
    (b : list Z) : outcome iec_error (list Z) :=
  match objects with
  | [] => Ok b
  | o :: objects' =>
      guard_err ErrMalformed (maxAddress (ioa_width p) <? Address o)
        (guard_err ErrMalformed
           (Sequence h && (0 <? i)%nat && negb (Address o =? objectAddress (Type_ h) first i))
           (let! '(id, payload) := encodeElement (Element_ o) in
            guard_err ErrMalformed (negb (id =? Type_ h))
              (let b1 := if negb (Sequence h) || (i =? 0)%nat
                         then appendAddress b (Address o) (ioa_width p) else b in
               let b2 := b1 ++ payload in
               guard_err ErrFull (MaxASDUSize <? length b2)%nat
                 (marshal_objects p h first (S i) objects' b2))))
  end.

(** The address of the first object ([a.Objects[0].Address], read only past it). *)
Definition first_address (objects : list Object) : Z :=
  match objects with [] => 0 | o :: _ => Address o end.

Definition ASDU_MarshalBinary (p : Params) (a : ASDU) : outcome iec_error (list Z) :=
  guard_err ErrMalformed (127 <? length (Objects a))%nat
    (match fileStructure (ASDU_GetHeader a), Objects a with
     | Some e, _ :: _ => Err e
     | _, _ =>
         let! b := encodeHeader p (ASDU_GetHeader a) in
         marshal_objects p (AHeader a) (first_address (Objects a)) 0 (Objects a) b
     end).

Definition Raw_MarshalBinary (p : Params) (a : RawASDU) : outcome iec_error (list Z) :=
  guard_err ErrMalformed ((Count (RHeader a) =? 0) && negb (length (Payload a) =? 0)%nat)
    (let! b := encodeHeader p (RHeader a) in
     guard_err ErrFull (MaxASDUSize - length b <? length (Payload a))%nat
       (Ok (b ++ Payload a))).

Definition Message_MarshalBinary (p : Params) (m : Message) : outcome iec_error (list Z) :=
  match m with
  | ASDUMessage a => ASDU_MarshalBinary p a
  | RawMessage r => Raw_MarshalBinary p r
  | NilMessage => Panic
  end.

Definition Message_GetHeader (m : Message) : outcome iec_error Header :=
  match m with
  | ASDUMessage a => Ok (ASDU_GetHeader a)
  | RawMessage r => Ok (RHeader r)
  | NilMessage => Panic
  end.

(** The envelope [DecodeASDU] reads. *)
Definition decode_header (p : Params) (b : list Z) : outcome iec_error Header :=
  let! b0 := idx b 0 in
  let! b1 := idx b 1 in
  let! b2 := idx b 2 in
  let! oa := if COTSize p =? 2 then idx b 3 else Ok 0 in
  let! tl := slice_from b (Z.to_nat (2 + COTSize p)) in
  let! ca := readAddress tl (ca_width p) in
  Ok (mkHeader b0 (has b1 128) (Z.land b1 127) (Z.land b2 63) (has b2 64) (has b2 128) oa (u16 ca)).

(** The object loop of [DecodeASDU]: [n] objects left from index [i]. *)
Fixpoint decode_objects (p : Params) (h : Header) (n i : nat) (first : Z) (payload : list Z)
    : outcome iec_error (list Object * list Z) :=
  match n with
  | O => Ok ([], payload)
  | S n' =>
      let! '(address, first, payload) :=
        if negb (Sequence h) || (i =? 0)%nat then
          guard_err ErrMalformed (length payload <? ioa_width p)%nat
            (let! address := readAddress payload (ioa_width p) in
             let! payload' := slice_from payload (ioa_width p) in
             Ok (address, address, payload'))
        else Ok (objectAddress (Type_ h) first i, first, payload) in
      guard_err ErrMalformed (maxAddress (ioa_width p) <? address)
        (let! size := elementLength (Type_ h) payload in
         let! eb := slice payload 0 size in
         let! e := decodeElement (Type_ h) eb in
         let! payload' := slice_from payload size in
         let! '(objects, rest) := decode_objects p h n' (S i) first payload' in
         Ok (mkObject address e :: objects, rest))
  end.

Definition DecodeASDU (b : list Z) (p : Params) : outcome iec_error Message :=
  match Params_Validate p with
  | Some e => Err e
  | None =>
      let hs := headerSize p in
      guard_err ErrMalformed ((length b <? hs) || (MaxASDUSize <? length b))%nat
        (let! h := decode_header p b in
         let! payload := slice_from b hs in
         guard_err ErrMalformed ((Count h =? 0) && negb (length payload =? 0)%nat)
           (if negb (Supported (Type_ h)) then
              Ok (RawMessage (mkRaw h payload (Some ErrUnsupportedType)))
            else if Count h =? 0 then Ok (ASDUMessage (mkASDU h []))
            else
              let h := if isFileType (Type_ h) && (Count h =? 1)
                       then set_Sequence (Type_ h =? F_DR_TA_1) h else h in
              match fileStructure h with
              | Some e => Err e
              | None =>
                  let! '(objects, rest) := decode_objects p h (Z.to_nat (Count h)) 0 0 payload in
                  guard_err ErrMalformed (negb (length rest =? 0)%nat)
                    (Ok (ASDUMessage (mkASDU h objects)))
              end))
  end.

(** ** Builder *)
Record Builder : Type := mkBuilder { bparams : Params; basdu : ASDU; bsize : nat }.

Definition NewBuilder (p : Params) (h : Header) : outcome iec_error Builder :=
  let h := set_Count 1 h in
  let! _b := encodeHeader p h in
  guard_err ErrUnsupportedType (negb (Supported (Type_ h)))
    (match fileStructure h with
     | Some e => Err e
     | None => Ok (mkBuilder p (mkASDU (set_Count 0 h) []) (headerSize p))
     end).

(** [Append] on success returns the builder it updated in place; an error
    leaves it as it was. *)
Definition Append (b : Builder) (o : Object) : outcome iec_error Builder :=
  let h := AHeader (basdu b) in
  let objects := Objects (basdu b) in
  let! '(id, payload) := encodeElement (Element_ o) in
  guard_err ErrMalformed (negb (id =? Type_ h))
    (guard_err ErrMalformed (maxAddress (ioa_width (bparams b)) <? Address o)
       (let count := length objects in
        guard_err ErrMalformed
          (Sequence h && (0 <? count)%nat &&
           negb (Address o =? objectAddress id (first_address objects) count))
          (let size := (length payload +
             (if negb (Sequence h) || (count =? 0)%nat then ioa_width (bparams b) else 0))%nat in
           guard_err ErrFull
             ((count =? 127)%nat || (isFileType id && negb (id =? F_DR_TA_1) && (count =? 1)%nat) ||
              (MaxASDUSize <? bsize b + size)%nat)
             (Ok (mkBuilder (bparams b) (mkASDU h (objects ++ [o])) (bsize b + size)))))).

(** [Builder.ASDU]: the snapshot. *)
Definition Builder_ASDU (b : Builder) : ASDU :=
  mkASDU (ASDU_GetHeader (basdu b)) (Objects (basdu b)).

(** ** Mirror *)
Definition cloneASDU (a : ASDU) : outcome iec_error Message :=
  let! _u := (fix check (objects : list Object) : outcome iec_error unit :=
    match objects with
    | [] => Ok tt
    | o :: objects' => let! _e := encodeElement (Element_ o) in check objects'
    end) (Objects a) in
  Ok (ASDUMessage (mkASDU (ASDU_GetHeader a) (Objects a))).

Definition cloneMessage (m : Message) : outcome iec_error Message :=
  match m with
  | ASDUMessage a => cloneASDU a
  | RawMessage r => Ok (RawMessage r)
  | NilMessage => Err ErrMalformed
  end.

Definition Mirror (m : Message) (cot : Z) (negative : bool) : outcome iec_error Message :=
  guard_err ErrMalformed (63 <? cot)
    (let! copy := cloneMessage m in
     match copy with
     | ASDUMessage a => Ok (ASDUMessage (mkASDU (set_Cause cot negative (AHeader a)) (Objects a)))
     | RawMessage r =>
         Ok (RawMessage (mkRaw (set_Cause cot negative (RHeader r)) (Payload r) (DecodeError r)))
     | NilMessage => Ok copy
     end).

(** ** Values of the Go types *)
Definition header_typed (h : Header) : Prop :=
  is_u8 (Type_ h) ∧ is_u8 (Count h) ∧ is_u8 (Cause h) ∧ is_u8 (Originator h) ∧
  is_u16 (CommonAddress h).
Definition object_typed (o : Object) : Prop := is_u32 (Address o) ∧ element_typed (Element_ o).
Definition asdu_typed (a : ASDU) : Prop := header_typed (AHeader a) ∧ Forall object_typed (Objects a).
Definition raw_typed (r : RawASDU) : Prop := header_typed (RHeader r) ∧ bytes_ok (Payload r).

(** ** The envelope *)
Definition params_ok (p : Params) : Prop :=
  (COTSize p = 1 ∨ COTSize p = 2) ∧ (CASize p = 1 ∨ CASize p = 2) ∧
  (IOASize p = 1 ∨ IOASize p = 2 ∨ IOASize p = 3).

Lemma Validate_ok p : Params_Validate p = None ↔ params_ok p.
Proof.
  unfold Params_Validate, params_ok. case_if.
  - split; [done|]. intros (? & ? & ?).
    repeat (apply orb_true_iff in Hif as [Hif|Hif]); bool_facts; lia.
  - bool_facts. split; [|done]. intros _. lia.
Qed.

Lemma vsq_octet_spec h : 0 ≤ Count h ≤ 127 →
  is_u8 (vsq_octet h) ∧ has (vsq_octet h) 128 = Sequence h ∧ Z.land (vsq_octet h) 127 = Count h.
Proof.
  unfold vsq_octet. generalize (Count h) (Sequence h). intros c s Hc.
  pose proof (range_forall 128 (λ c, forallb (λ s, let v := if s : bool then Z.lor c 128 else c in
    (0 <=? v) && (v <? 256) && Bool.eqb (has v 128) s && (Z.land v 127 =? c)) bools)
    ltac:(vm_compute; reflexivity) c ltac:(lia)) as H.
  pose proof (forall_bools _ H s) as H'. decided H'. unfold is_u8. auto.
Qed.

Lemma cause_octet_spec h : 0 ≤ Cause h ≤ 63 →
  is_u8 (cause_octet h) ∧ Z.land (cause_octet h) 63 = Cause h ∧
  has (cause_octet h) 64 = Negative h ∧ has (cause_octet h) 128 = Test h.
Proof.
  unfold cause_octet. generalize (Cause h) (Negative h) (Test h). intros c n t Hc.
  pose proof (range_forall 64 (λ c, forallb (λ n, forallb (λ t,
    let v := if n : bool then Z.lor c 64 else c in let v := if t : bool then Z.lor v 128 else v in
    (0 <=? v) && (v <? 256) && (Z.land v 63 =? c) && Bool.eqb (has v 64) n && Bool.eqb (has v 128) t)
    bools) bools) ltac:(vm_compute; reflexivity) c ltac:(lia)) as H.
  pose proof (forall_bools _ (forall_bools _ H n) t) as H'. decided H'. cbv zeta. unfold is_u8. auto.
Qed.

Lemma octet_rebuild b : is_u8 b →
  (0 ≤ Z.land b 127 ≤ 127 ∧ (if has b 128 then Z.lor (Z.land b 127) 128 else Z.land b 127) = b) ∧
  (0 ≤ Z.land b 63 ≤ 63 ∧
   let cause := if has b 64 then Z.lor (Z.land b 63) 64 else Z.land b 63 in
   (if has b 128 then Z.lor cause 128 else cause) = b).
Proof.
  intros Hb.
  pose proof (range_forall 256 (λ b,
    (0 <=? Z.land b 127) && (Z.land b 127 <=? 127) &&
    ((if has b 128 then Z.lor (Z.land b 127) 128 else Z.land b 127) =? b) &&
    (0 <=? Z.land b 63) && (Z.land b 63 <=? 63) &&
    (let cause := if has b 64 then Z.lor (Z.land b 63) 64 else Z.land b 63 in
     (if has b 128 then Z.lor cause 128 else cause) =? b)) ltac:(vm_compute; reflexivity) b Hb) as H.
  decided H. cbv zeta. auto.
Qed.

(** What [encodeHeader] checks and writes. *)
Definition header_octets (p : Params) (h : Header) : list Z :=
  [Type_ h; vsq_octet h; cause_octet h] ++ (if COTSize p =? 2 then [Originator h] else []) ++
  appendAddress [] (CommonAddress h) (ca_width p).

Definition header_fits (p : Params) (h : Header) : Prop :=
  Count h ≤ 127 ∧ Cause h ≤ 63 ∧ CommonAddress h ≤ maxAddress (ca_width p) ∧
  (COTSize p = 1 → Originator h = 0).

Lemma encodeHeader_Ok p h b :
  encodeHeader p h = Ok b ↔ params_ok p ∧ header_fits p h ∧ b = header_octets p h.
Proof.
  rewrite <- Validate_ok. unfold encodeHeader.
  destruct (Params_Validate p) eqn:Hv; [naive_solver|].
  assert ((if COTSize p =? 2 then [Type_ h; vsq_octet h; cause_octet h] ++ [Originator h]
           else [Type_ h; vsq_octet h; cause_octet h]) =
          [Type_ h; vsq_octet h; cause_octet h] ++ (if COTSize p =? 2 then [Originator h] else [])) as Hh
    by (by case_if).
  cbv zeta. rewrite Hh, appendAddress_app, <- app_assoc. fold (header_octets p h).
  rewrite guard_err_Ok. unfold header_fits. split.
  - intros [Hg [= <-]]. bool_facts. split; [done|]. split; [|done].
    repeat (split; [done|]). intros Hc. apply andb_false_iff in H0 as [?|?]; bool_facts; congruence.
  - intros (_ & (Hc & Hca & Hcm & Ho) & ->). split; [|done].
    rewrite !(proj2 (Z.ltb_ge _ _)) by lia. cbn [orb].
    destruct (COTSize p =? 1) eqn:E; [|done]. bool_facts. by rewrite Ho.
Qed.

Lemma length_header_octets p h : params_ok p → length (header_octets p h) = headerSize p.
Proof.
  intros (Hc & Hca & _). unfold header_octets, headerSize, ca_width.
  rewrite !length_app, length_appendAddress. cbn [length].
  destruct Hc as [-> | ->]; cbn; lia.
Qed.

Lemma header_octets_ok p h : header_typed h → header_fits p h → bytes_ok (header_octets p h).
Proof.
  intros (Ht & Hc & Hca & Ho & Hcm) (Hc' & Hca' & _). unfold is_u8 in Hc, Hca. unfold header_octets.
  rewrite !bytes_ok_app. split_and!; [|case_if; octets|auto with go].
  repeat constructor; [apply Ht..| | | |]; try apply vsq_octet_spec; try apply cause_octet_spec; lia.
Qed.

Lemma headerSize_bounds p : params_ok p → (4 ≤ headerSize p ≤ 6)%nat.
Proof. intros (? & ? & _). unfold headerSize. lia. Qed.

Lemma decode_header_octets p h rest : params_ok p → header_typed h → header_fits p h →
  decode_header p (header_octets p h ++ rest) = Ok h.
Proof.
  intros Hp (Ht & Hc & Hca & Ho & Hcm) (Hc' & Hca' & Hcm' & Ho').
  unfold is_u8 in Hc, Hca. unfold is_u16 in Hcm.
  destruct (vsq_octet_spec h) as (_ & V1 & V2); [lia|].
  destruct (cause_octet_spec h) as (_ & C1 & C2 & C3); [lia|].
  assert (readAddress (appendAddress [] (CommonAddress h) (ca_width p) ++ rest) (ca_width p)
          = Ok (CommonAddress h)) as Hr by (apply readAddress_append_small; lia).
  assert (u16 (CommonAddress h) = CommonAddress h) as Hu by (by apply u16_small).
  unfold header_octets, decode_header. rewrite <- !app_assoc.
  set (tl := appendAddress _ _ _ ++ rest) in *.
  transitivity (let! ca := readAddress tl (ca_width p) in
    Ok (E := iec_error) (mkHeader (Type_ h) (has (vsq_octet h) 128) (Z.land (vsq_octet h) 127)
      (Z.land (cause_octet h) 63) (has (cause_octet h) 64) (has (cause_octet h) 128)
      (if COTSize p =? 2 then Originator h else 0) (u16 ca))).
  - by destruct Hp as ([-> | ->] & _).
  - rewrite Hr. cbn [bind]. rewrite V1, V2, C1, C2, C3, Hu. destruct h. cbn in *.
    destruct Hp as ([Hcot|Hcot] & _); rewrite Hcot in *; cbn; [by rewrite Ho'|done].
Qed.

(** What is decoded is written back as the octets it came from. *)
Lemma decode_header_inv p b h : params_ok p → bytes_ok b → decode_header p b = Ok h →
  header_typed h ∧ header_fits p h ∧ header_octets p h = take (headerSize p) b.
Proof.
  intros Hp Hb H. unfold decode_header in H.
  apply bind_Ok in H as (b0 & H0 & H). apply bind_Ok in H as (b1 & H1 & H).
  apply bind_Ok in H as (b2 & H2 & H). apply bind_Ok in H as (oa & Hoa & H).
  apply bind_Ok in H as (tl & Htl & H). apply bind_Ok in H as (ca & Hca & H).
  apply slice_from_Ok in Htl as [-> Hlen]. apply idx_Ok in H0, H1, H2.
  apply readAddress_inv in Hca as (Hr & Hw & Ha); [|by auto with go].
  pose proof (bytes_ok_lookup _ _ _ Hb H0) as U0. pose proof (bytes_ok_lookup _ _ _ Hb H1) as U1.
  pose proof (bytes_ok_lookup _ _ _ Hb H2) as U2.
  destruct (octet_rebuild b1 U1) as ((R1 & R2) & _). destruct (octet_rebuild b2 U2) as (_ & R3 & R4).
  assert (maxAddress (ca_width p) ≤ 65535) as Hm.
  { unfold ca_width. by destruct Hp as (_ & [-> | ->] & _). }
  rewrite (u16_small ca) in H by (unfold is_u16; lia).
  assert (is_u8 oa ∧ (COTSize p = 1 → oa = 0) ∧
          (if COTSize p =? 2 then [oa] else []) = take (Z.to_nat (COTSize p) - 1) (drop 3 b)) as (U3 & Hz & Hoas).
  { destruct Hp as ([Hc|Hc] & _); rewrite Hc in *; cbn in Hoa |- *.
    - injection Hoa as <-. split; [done|]. split; [done|]. by rewrite take_0.
    - apply idx_Ok in Hoa. split; [by eapply bytes_ok_lookup|]. split; [done|].
      by rewrite (drop_S b oa 3). }
  assert (h = mkHeader b0 (has b1 128) (Z.land b1 127) (Z.land b2 63) (has b2 64) (has b2 128) oa ca)
    as -> by congruence. clear H.
  split; [|split].
  - unfold header_typed. cbn [Type_ Count Cause Originator CommonAddress]. unfold is_u8, is_u16 in *. lia.
  - unfold header_fits. cbn [Type_ Count Cause Originator CommonAddress]. split_and!; (lia || done).
  - unfold header_octets, vsq_octet, cause_octet.
    cbn [Type_ Count Cause Originator CommonAddress Sequence Negative Test].
    rewrite R2, R4, Hoas, Ha.
    rewrite length_drop in Hw. clear -Hp H0 H1 H2 Hlen.
    destruct b as [|x0 [|x1 [|x2 b]]]; try done. cbn in H0, H1, H2.
    injection H0 as ->. injection H1 as ->. injection H2 as ->.
    unfold headerSize, ca_width. destruct Hp as (Hc & Hca & _).
    destruct Hc as [-> | ->], Hca as [-> | ->]; cbn; destruct b as [|? [|? b]]; try done.
Qed.

(** ** The object list *)

(** The address of an object is written for every object without SQ, and for
    the first one with it. *)
Definition addressed (h : Header) (i : nat) : bool := negb (Sequence h) || (i =? 0)%nat.

Definition object_octets (p : Params) (h : Header) (i : nat) (o : Object) (payload : list Z) : list Z :=
  (if addressed h i then appendAddress [] (Address o) (ioa_width p) else []) ++ payload.

Definition object_fits (p : Params) (h : Header) (first : Z) (i : nat) (o : Object)
    (payload : list Z) : Prop :=
  Address o ≤ maxAddress (ioa_width p) ∧
  (addressed h i = false → Address o = objectAddress (Type_ h) first i) ∧
  encodeElement (Element_ o) = Ok (Type_ h, payload).

Lemma addressed_guard h i o first :
  Sequence h && (0 <? i)%nat && negb (Address o =? objectAddress (Type_ h) first i) = false ↔
  (addressed h i = false → Address o = objectAddress (Type_ h) first i).
Proof.
  unfold addressed. destruct (Sequence h), i as [|i]; cbn; try naive_solver.
  rewrite negb_false_iff, Z.eqb_eq. naive_solver.
Qed.

Lemma marshal_objects_cons p h first i o os b b' :
  marshal_objects p h first i (o :: os) b = Ok b' ↔
  ∃ payload, object_fits p h first i o payload ∧
    (length (b ++ object_octets p h i o payload) ≤ MaxASDUSize)%nat ∧
    marshal_objects p h first (S i) os (b ++ object_octets p h i o payload) = Ok b'.
Proof.
  cbn [marshal_objects]. fold (addressed h i).
  assert (∀ payload, (if addressed h i then appendAddress b (Address o) (ioa_width p) else b) ++ payload
            = b ++ object_octets p h i o payload) as Hoct.
  { intros. unfold object_octets. case_if; [|done].
    by rewrite (appendAddress_app b), <- !app_assoc. }
  rewrite !guard_err_Ok, addressed_guard. unfold object_fits. split.
  - intros (Ha & Hs & H). apply bind_Ok in H as ([id payload] & He & H).
    apply guard_err_Ok in H as [Hid H]. apply guard_err_Ok in H as [Hl H]. bool_facts. subst id.
    rewrite Hoct in *. by exists payload.
  - intros (payload & (Ha & Hs & He) & Hl & H). split; [by apply Z.ltb_ge|]. split; [done|].
    rewrite He. cbn [bind]. rewrite Z.eqb_refl. cbn [negb guard_err]. rewrite Hoct.
    by rewrite (proj2 (Nat.ltb_ge _ _)).
Qed.

Lemma decode_objects_octets p h first first' n i o payload rest :
  is_u32 (Address o) → element_typed (Element_ o) → object_fits p h first i o payload →
  (addressed h i = false → first' = first) →
  decode_objects p h (S n) i first' (object_octets p h i o payload ++ rest) =
  let! '(objects, rest) :=
    decode_objects p h n (S i) (if addressed h i then Address o else first') rest in
  Ok (o :: objects, rest).
Proof.
  intros Hu He (Ha & Hs & Hp) Hf. cbn [decode_objects]. fold (addressed h i).
  apply element_encode_decode in Hp as (_ & Hd & Hl); [|done].
  assert ((if addressed h i then
     guard_err ErrMalformed (length (object_octets p h i o payload ++ rest) <? ioa_width p)%nat
       (let! address := readAddress (object_octets p h i o payload ++ rest) (ioa_width p) in
        let! payload' := slice_from (object_octets p h i o payload ++ rest) (ioa_width p) in
        Ok (address, address, payload'))
     else Ok (objectAddress (Type_ h) first' i, first', object_octets p h i o payload ++ rest))
    = Ok (E := iec_error) (Address o, if addressed h i then Address o else first', payload ++ rest)) as ->.
  { unfold object_octets. destruct (addressed h i).
    - rewrite <- app_assoc, readAddress_append_small by (unfold is_u32 in Hu; lia).
      rewrite slice_from_at by by rewrite length_appendAddress.
      rewrite (proj2 (Nat.ltb_ge _ _)); [done|]. rewrite length_app, length_appendAddress. lia.
    - by rewrite Hf, Hs. }
  cbn [bind]. rewrite (proj2 (Z.ltb_ge _ _)) by done. cbn [guard_err].
  rewrite Hl. cbn [bind]. rewrite (slice_at [] payload rest) by done. cbn [bind].
  rewrite Hd. cbn [bind]. rewrite slice_from_at by done. cbn [bind]. by destruct o.
Qed.

Lemma marshal_decode_objects p h first os i b b' :
  Forall object_typed os → marshal_objects p h first i os b = Ok b' →
  (i = 0%nat → first_address os = first ∨ os = []) →
  (length b ≤ MaxASDUSize)%nat →
  ∃ tl, b' = b ++ tl ∧ bytes_ok tl ∧ (length b' ≤ MaxASDUSize)%nat ∧
    ∀ first' rest, (addressed h i = false → first' = first) →
      decode_objects p h (length os) i first' (tl ++ rest) = Ok (os, rest).
Proof.
  revert i b. induction os as [|o os IH]; intros i b Ht H Hf Hb.
  { exists []. rewrite app_nil_r. injection H as <-. split; [done|]. split; [constructor|]. done. }
  apply Forall_cons in Ht as [[Hu He] Ht].
  apply marshal_objects_cons in H as (payload & Hfit & Hl & H).
  pose proof Hfit as (Ha & _ & Henc).
  apply IH in H as (tl & -> & Htl & Hl' & Hd); [|done..].
  exists (object_octets p h i o payload ++ tl).
  split; [by rewrite app_assoc|]. split; [|split; [done|]].
  - rewrite bytes_ok_app. split; [|done]. unfold object_octets. rewrite bytes_ok_app.
    split; [case_if; octets|]. by eapply element_encode_decode.
  - intros first' rest Hf'. cbn [length]. rewrite <- app_assoc.
    erewrite decode_objects_octets by done. rewrite Hd; [done|].
    unfold addressed. cbn. rewrite orb_false_r. intros Hseq. bool_facts.
    destruct i as [|i]; rewrite Hseq; cbn.
    + by destruct Hf as [?|?].
    + apply Hf'. unfold addressed. by rewrite Hseq.
Qed.

Lemma maxAddress_ioa p : params_ok p → maxAddress (ioa_width p) ≤ 0xffffff.
Proof. intros (_ & _ & H). unfold ioa_width. by destruct H as [-> | [-> | ->]]. Qed.

(** One object read by the decoder. *)
Lemma decode_objects_inv p h n i first b objects rest :
  params_ok p → is_u32 first → bytes_ok b → decode_objects p h (S n) i first b = Ok (objects, rest) →
  ∃ o payload b' objects',
    objects = o :: objects' ∧ b = object_octets p h i o payload ++ b' ∧ object_typed o ∧
    object_fits p h first i o payload ∧
    decode_objects p h n (S i) (if addressed h i then Address o else first) b' = Ok (objects', rest).
Proof.
  intros Hp Hfst Hb H. cbn [decode_objects] in H. fold (addressed h i) in H.
  apply bind_Ok in H as ([[address first'] payload0] & Ha & H). cbn match in H.
  apply guard_err_Ok in H as [Hmax H]. bool_facts.
  apply bind_Ok in H as (size & Hsize & H). apply bind_Ok in H as (eb & Heb & H).
  apply bind_Ok in H as (e & He & H). apply bind_Ok in H as (b' & Hb' & H).
  apply bind_Ok in H as ([objects' rest'] & Hrec & H). injection H as <- <-.
  apply slice_Ok in Heb as [-> Hsz]. apply slice_from_Ok in Hb' as [-> _].
  rewrite Nat.sub_0_r, drop_0 in He.
  assert (bytes_ok payload0 ∧ is_u32 address ∧ first' = (if addressed h i then address else first) ∧
    b = (if addressed h i then appendAddress [] address (ioa_width p) else []) ++ payload0 ∧
    (addressed h i = false → address = objectAddress (Type_ h) first i)) as (Hp0 & Hua & -> & -> & Hoa).
  { destruct (addressed h i).
    - apply guard_err_Ok in Ha as [_ Ha]. apply bind_Ok in Ha as (a & Hr & Ha).
      apply bind_Ok in Ha as (pl & Hpl & Ha). apply slice_from_Ok in Hpl as [-> _].
      injection Ha as <- <- <-. apply readAddress_inv in Hr as (Hr & _ & Hw); [|done].
      pose proof (maxAddress_ioa p Hp). rewrite Hw, take_drop. unfold is_u32.
      split; [by auto with go|]. split; [lia|]. done.
    - injection Ha as <- <- <-. split; [done|]. split; [|done].
      unfold objectAddress. case_if; auto with go. }
  apply element_decode_encode in He as [Het Henc]; [|by auto with go].
  exists (mkObject address e), (take size payload0), (drop size payload0), objects'.
  unfold object_octets, object_fits, object_typed. cbn [Address Element_].
  rewrite <- app_assoc, take_drop. done.
Qed.

Lemma decode_marshal_objects p h n i first first0 b objects rest :
  params_ok p → is_u32 first → bytes_ok b →
  decode_objects p h n i first b = Ok (objects, rest) →
  (if (i =? 0)%nat then first0 = first_address objects else addressed h i = false → first0 = first) →
  Forall object_typed objects ∧ length objects = n ∧
  ∃ tl, b = tl ++ rest ∧
    ∀ pre, (length pre + length tl ≤ MaxASDUSize)%nat →
      marshal_objects p h first0 i objects pre = Ok (pre ++ tl).
Proof.
  intros Hp. revert i first b objects. induction n as [|n IH]; intros i first b objects Hfst Hb H Hf0.
  { injection H as <- <-. split; [constructor|]. split; [done|]. exists [].
    split; [done|]. intros. by rewrite app_nil_r. }
  apply decode_objects_inv in H as (o & payload & b' & objects' & -> & -> & Ho & Hfit & H); [|done..].
  apply bytes_ok_app in Hb as [_ Hb']. pose proof Ho as [Hu _].
  apply IH in H as (Hty & Hlen & tl & -> & Hm); [|by case_if|done|].
  2:{ cbn. intros Hs. unfold addressed in Hs. cbn in Hs. rewrite orb_false_r in Hs. bool_facts.
      unfold addressed in *. rewrite Hs in *. destruct i; cbn in *; [done|by apply Hf0]. }
  split; [by constructor|]. split; [cbn; lia|].
  exists (object_octets p h i o payload ++ tl). split; [by rewrite app_assoc|].
  intros pre Hl. rewrite length_app in Hl. apply marshal_objects_cons.
  exists payload. split.
  { destruct Hfit as (Ha & Hs & He). split; [done|]. split; [|done]. intros Had.
    destruct i; [unfold addressed in Had; by rewrite orb_true_r in Had|].
    rewrite (Hf0 Had). auto. }
  split; [rewrite length_app; lia|]. rewrite Hm by (rewrite length_app; lia).
  by rewrite app_assoc.
Qed.

(** ** Whole ASDUs *)

(** The normalisation of a decoded single-object file ASDU is the identity on
    what the encoder accepts. *)
Lemma normalise_id h : fileStructure h = None →
  (if isFileType (Type_ h) && (Count h =? 1) then set_Sequence (Type_ h =? F_DR_TA_1) h else h) = h.
Proof.
  unfold fileStructure. destruct (isFileType (Type_ h)); [|done]. cbn.
  destruct (Count h =? 1); [|done].
  destruct (Type_ h =? F_DR_TA_1), (Sequence h) eqn:Hs; cbn; try done; intros _; destruct h; cbn in *;
    by rewrite Hs.
Qed.

Lemma ASDU_marshal_inv p a b : ASDU_MarshalBinary p a = Ok b →
  (length (Objects a) ≤ 127)%nat ∧ params_ok p ∧ header_fits p (ASDU_GetHeader a) ∧
  (Objects a = [] ∨ fileStructure (ASDU_GetHeader a) = None) ∧
  marshal_objects p (AHeader a) (first_address (Objects a)) 0 (Objects a)
    (header_octets p (ASDU_GetHeader a)) = Ok b.
Proof.
  unfold ASDU_MarshalBinary. intros H. apply guard_err_Ok in H as [Hl H]. bool_facts.
  split; [done|].
  assert ((let! b := encodeHeader p (ASDU_GetHeader a) in
           marshal_objects p (AHeader a) (first_address (Objects a)) 0 (Objects a) b) = Ok b ∧
          (Objects a = [] ∨ fileStructure (ASDU_GetHeader a) = None)) as [H' Hf].
  { destruct (fileStructure (ASDU_GetHeader a)), (Objects a); try done; auto. }
  apply bind_Ok in H' as (hb & Hh & H'). apply encodeHeader_Ok in Hh as (Hp & Hfit & ->). done.
Qed.

(** The codec looks only at the fields of the header that the count does not change. *)
Lemma marshal_objects_count p h n first i os b :
  marshal_objects p (set_Count n h) first i os b = marshal_objects p h first i os b.
Proof.
  revert i b. induction os as [|o os IH]; intros i b; [done|].
  cbn [marshal_objects set_Count Sequence Type_]. destruct (encodeElement (Element_ o)) as [[id pl]|?| |];
    cbn [bind]; [|done..]. by rewrite IH.
Qed.

Lemma decode_objects_count p h n k i first b :
  decode_objects p (set_Count n h) k i first b = decode_objects p h k i first b.
Proof.
  revert i first b. induction k as [|k IH]; intros i first b; [done|].
  cbn [decode_objects set_Count Sequence Type_].
  match goal with |- bind ?m _ = bind ?m _ => destruct m as [[[address f] pl]|?| |]; [|done..] end.
  cbn [bind]. unfold guard_err. case_if; [done|].
  repeat match goal with |- bind ?m _ = bind ?m _ => destruct m; cbn [bind]; [|done..] end.
  by rewrite IH.
Qed.

Lemma encodeElement_supported e id b : encodeElement e = Ok (id, b) → Supported id = true.
Proof.
  destruct e; cbn [encodeElement]; intros H;
    try (apply bind_Ok in H as (? & _ & H); apply guard_err_Ok in H as [Hs H]; bool_facts;
         by injection H as <- _).
  apply guard_err_Ok in H as [Hid H]. bool_facts.
  apply bind_Ok in H as (? & _ & H). apply bind_Ok in H as (? & _ & H). injection H as <- _.
  by destruct e.
Qed.

Lemma asdu_encode_decode p a b :
  asdu_typed a → ASDU_MarshalBinary p a = Ok b →
  (length b ≤ MaxASDUSize)%nat ∧ bytes_ok b ∧
  DecodeASDU b p = Ok (if Supported (Type_ (AHeader a))
                       then ASDUMessage (mkASDU (ASDU_GetHeader a) (Objects a))
                       else RawMessage (mkRaw (ASDU_GetHeader a) [] (Some ErrUnsupportedType))).
Proof.
  intros [Hh Ho] H. apply ASDU_marshal_inv in H as (Hl & Hp & Hfit & Hfs & H).
  pose proof H as Hm. set (h := ASDU_GetHeader a) in *.
  assert (Count h = zlen (Objects a)) as Hcnt by (apply u8_small; unfold is_u8, zlen; lia).
  assert (header_typed h) as Hht.
  { destruct Hh as (? & ? & ? & ? & ?). split_and!; [done|apply u8_range|done..]. }
  pose proof (headerSize_bounds p Hp) as Hhs.
  pose proof (length_header_octets p h Hp) as Hhl.
  apply marshal_decode_objects in H as (tl & -> & Htl & Hlb & Hd);
    [|done|by left|rewrite Hhl; unfold MaxASDUSize; lia].
  split; [done|]. split; [apply bytes_ok_app; split; [by apply header_octets_ok|done]|].
  unfold DecodeASDU. rewrite (proj2 (Validate_ok p)) by done. rewrite length_app in Hlb.
  rewrite (proj2 (Nat.ltb_ge _ _)), (proj2 (Nat.ltb_ge _ _)) by (rewrite ?length_app; lia).
  cbn [orb guard_err]. rewrite decode_header_octets by done. cbn [bind].
  rewrite slice_from_at by done. cbn [bind]. change (Type_ h) with (Type_ (AHeader a)).
  destruct (Objects a) as [|o os] eqn:Hos.
  - specialize (Hd 0 [] ltac:(done)). rewrite app_nil_r in Hd. injection Hd as ->.
    assert (Count h =? 0 = true) as -> by (by rewrite Hcnt).
    cbn [andb length negb Nat.eqb guard_err]. by destruct (Supported _).
  - rewrite <- Hos in *. assert (Objects a ≠ []) as Hne by congruence.
    destruct Hfs as [?|Hfs]; [done|].
    assert (Supported (Type_ (AHeader a)) = true) as ->.
    { rewrite Hos in Hm. apply marshal_objects_cons in Hm as (pl & (_ & _ & He) & _).
      by apply encodeElement_supported in He. }
    assert (Count h =? 0 = false) as -> by (rewrite Hcnt, Hos; apply Z.eqb_neq; unfold zlen; cbn; lia).
    cbn [andb guard_err negb]. change (Type_ (AHeader a)) with (Type_ h).
    rewrite normalise_id, Hfs by done.
    rewrite Hcnt at 1. unfold zlen. rewrite Nat2Z.id.
    unfold h at 1. unfold ASDU_GetHeader at 1. rewrite decode_objects_count.
    specialize (Hd 0 [] ltac:(unfold addressed; by rewrite orb_true_r)).
    rewrite app_nil_r in Hd. by rewrite Hd.
Qed.

Lemma raw_encode_decode p r b :
  raw_typed r → Supported (Type_ (RHeader r)) = false → DecodeError r = Some ErrUnsupportedType →
  Raw_MarshalBinary p r = Ok b →
  (length b ≤ MaxASDUSize)%nat ∧ bytes_ok b ∧ DecodeASDU b p = Ok (RawMessage r).
Proof.
  intros [Hh Hb] Hs He H. unfold Raw_MarshalBinary in H. apply guard_err_Ok in H as [Hc H].
  apply bind_Ok in H as (hb & Hhb & H). apply encodeHeader_Ok in Hhb as (Hp & Hfit & ->).
  apply guard_err_Ok in H as [Hl H].
  assert (b = header_octets p (RHeader r) ++ Payload r) as -> by congruence. apply Nat.ltb_ge in Hl.
  pose proof (headerSize_bounds p Hp) as Hhs. pose proof (length_header_octets p (RHeader r) Hp) as Hhl.
  unfold MaxASDUSize in *. split; [rewrite length_app; lia|].
  split; [apply bytes_ok_app; split; [by apply header_octets_ok|done]|].
  unfold DecodeASDU, MaxASDUSize. rewrite (proj2 (Validate_ok p)), length_app by done.
  rewrite (proj2 (Nat.ltb_ge _ _)), (proj2 (Nat.ltb_ge _ _)) by lia.
  cbn [orb guard_err]. rewrite decode_header_octets by done. cbn [bind].
  rewrite slice_from_at by done. cbn [bind]. rewrite Hc, Hs. cbn [guard_err negb].
  destruct r; cbn in *. by rewrite He.
Qed.

(** ** What the decoder accepts *)

(** The octets of a single-object file ASDU with the SQ bit of the sending
    profile; every other ASDU as it is. *)
Definition canonical (b : list Z) : list Z :=
  match b with
  | id :: vsq :: rest =>
      if isFileType id && (Z.land vsq 127 =? 1)
      then id :: (if id =? F_DR_TA_1 then 129 else 1) :: rest else b
  | _ => b
  end.

Definition message_typed (m : Message) : Prop :=
  match m with
  | ASDUMessage a => asdu_typed a ∧ Count (AHeader a) = zlen (Objects a)
  | RawMessage r => raw_typed r
  | NilMessage => False
  end.

Lemma canonical_header p h rest : header_typed h → Count h ≤ 127 →
  canonical (header_octets p h ++ rest) =
  header_octets p (if isFileType (Type_ h) && (Count h =? 1)
                   then set_Sequence (Type_ h =? F_DR_TA_1) h else h) ++ rest.
Proof.
  intros (_ & Hc & _) Hc'. destruct (vsq_octet_spec h) as (_ & _ & Hv); [unfold is_u8 in *; lia|].
  unfold header_octets, canonical. cbn [app]. rewrite Hv.
  destruct (_ && _) eqn:E; [|done]. bool_facts. cbn [Type_ set_Sequence Originator CommonAddress].
  assert (vsq_octet (set_Sequence (Type_ h =? F_DR_TA_1) h) = if Type_ h =? F_DR_TA_1 then 129 else 1) as ->.
  { unfold vsq_octet. cbn. rewrite H0. by case_if. }
  done.
Qed.

Lemma isFile_supported id : isFileType id = true → Supported id = true.
Proof.
  unfold isFileType, F_FR_NA_1, F_SC_NB_1. intros. bool_facts.
  assert (id = 120 ∨ id = 121 ∨ id = 122 ∨ id = 123 ∨ id = 124 ∨ id = 125 ∨ id = 126 ∨ id = 127) as Hid by lia.
  by destruct Hid as [->|[->|[->|[->|[->|[->|[->| ->]]]]]]].
Qed.

(** A raw message is encoded as its header and its payload. *)
Lemma raw_marshal p r : params_ok p → header_fits p (RHeader r) →
  (Count (RHeader r) = 0 → Payload r = []) → (headerSize p + length (Payload r) ≤ MaxASDUSize)%nat →
  Raw_MarshalBinary p r = Ok (header_octets p (RHeader r) ++ Payload r).
Proof.
  intros Hp Hfit Hz Hl. unfold Raw_MarshalBinary.
  assert ((Count (RHeader r) =? 0) && negb (length (Payload r) =? 0)%nat = false) as ->.
  { destruct (Count (RHeader r) =? 0) eqn:E; [|done]. bool_facts. by rewrite Hz. }
  cbn [guard_err]. rewrite (proj2 (encodeHeader_Ok p _ _)) by done. cbn [bind].
  rewrite length_header_octets by done. by rewrite (proj2 (Nat.ltb_ge _ _)) by lia.
Qed.

Lemma asdu_marshal p a : params_ok p → (length (Objects a) ≤ 127)%nat →
  header_fits p (ASDU_GetHeader a) → (Objects a = [] ∨ fileStructure (ASDU_GetHeader a) = None) →
  ASDU_MarshalBinary p a = marshal_objects p (AHeader a) (first_address (Objects a)) 0 (Objects a)
    (header_octets p (ASDU_GetHeader a)).
Proof.
  intros Hp Hl Hfit Hfs. unfold ASDU_MarshalBinary.
  rewrite (proj2 (Nat.ltb_ge _ _)) by lia. cbn [guard_err].
  rewrite (proj2 (encodeHeader_Ok p _ _)) by done.
  destruct Hfs as [-> | ->]; [by destruct fileStructure|done].
Qed.

Lemma decode_encode_asdu p b m :
  bytes_ok b → DecodeASDU b p = Ok m →
  message_typed m ∧ Message_MarshalBinary p m = Ok (canonical b).
Proof.
  intros Hb H. unfold DecodeASDU in H. destruct (Params_Validate p) eqn:Hv; [done|].
  apply Validate_ok in Hv as Hp. apply guard_err_Ok in H as [Hl H].
  apply bind_Ok in H as (h & Hh & H). apply bind_Ok in H as (payload & Hpl & H).
  apply slice_from_Ok in Hpl as [-> _]. apply guard_err_Ok in H as [Hz H]. bool_facts.
  apply decode_header_inv in Hh as (Hht & Hfit & Hho); [|done..].
  pose proof Hht as (_ & Hcu & _). pose proof Hfit as (Hc127 & _). unfold is_u8 in Hcu.
  rewrite <- (take_drop (headerSize p) b), <- Hho.
  rewrite canonical_header by done.
  set (payload := drop (headerSize p) b) in *.
  assert (length payload + headerSize p = length b)%nat as Hlp by (unfold payload; rewrite length_drop; lia).
  assert (bytes_ok payload) as Hbp by (by apply bytes_ok_drop).
  assert (Count h = 0 → payload = []) as Hzero.
  { intros Hc. rewrite Hc in Hz. cbn in Hz. bool_facts. by apply length_0_inv. }
  destruct (Supported (Type_ h)) eqn:Hsup; cbn [negb] in H.
  2:{ injection H as <-. split; [done|]. cbn [Message_MarshalBinary].
      destruct (isFileType (Type_ h)) eqn:Hf; [by rewrite isFile_supported in Hsup|].
      cbn [andb]. by rewrite raw_marshal by (cbn; done || lia). }
  destruct (Count h =? 0) eqn:Hc0.
  { bool_facts. injection H as <-. rewrite Hc0, Hzero, andb_false_r by done.
    split; [split; [split; [done|constructor]|done]|]. cbn [Message_MarshalBinary].
    rewrite asdu_marshal; cbn [Objects AHeader length]; [|done|lia| |by left].
    - cbn [marshal_objects]. rewrite app_nil_r. unfold ASDU_GetHeader. cbn [Objects AHeader].
      destruct h; cbn in *. by rewrite Hc0.
    - unfold ASDU_GetHeader. cbn. destruct h; cbn in *. by subst. }
  set (h' := if isFileType (Type_ h) && (Count h =? 1) then set_Sequence (Type_ h =? F_DR_TA_1) h else h) in *.
  assert (Type_ h' = Type_ h ∧ Count h' = Count h ∧ header_typed h' ∧ header_fits p h') as (Ht' & Hc' & Hht' & Hfit').
  { unfold h'. case_if; by destruct h. }
  cbv zeta in H. destruct (fileStructure h') eqn:Hfs; [done|].
  apply bind_Ok in H as ([objects rest] & Hd & H). apply guard_err_Ok in H as [Hr H].
  injection H as <-. bool_facts. apply length_0_inv in Hr as ->.
  apply (decode_marshal_objects _ _ _ _ _ (first_address objects)) in Hd
    as (Hty & Hlen & tl & Htl & Hm); [|done..]. rewrite app_nil_r in Htl. subst tl.
  assert (ASDU_GetHeader (mkASDU h' objects) = h') as Hgh.
  { unfold ASDU_GetHeader. cbn [Objects AHeader]. unfold zlen. rewrite Hlen, Hc', Z2Nat.id by lia.
    rewrite u8_small by done. rewrite <- Hc'. by destruct h'. }
  split.
  { split; [done|]. cbn [Objects AHeader]. unfold zlen. lia. }
  cbn [Message_MarshalBinary]. rewrite asdu_marshal; rewrite ?Hgh; cbn [Objects AHeader]; [|done|lia|done|by right].
  apply Hm. rewrite length_header_octets by done. lia.
Qed.

(** ** The decoder never panics *)
Lemma decode_header_safe p b : params_ok p → (headerSize p ≤ length b)%nat → safe (decode_header p b).
Proof.
  intros Hp Hl. pose proof (headerSize_bounds p Hp). unfold decode_header, headerSize, ca_width in *.
  destruct Hp as (Hc & Hca & _). safe_tac; try lia. apply readAddress_safe.
  apply slice_from_Ok in H4 as [-> _]. rewrite length_drop. lia.
Qed.

Lemma decode_objects_safe p h n i first b : safe (decode_objects p h n i first b).
Proof.
  revert i first b. induction n as [|n IH]; intros i first b; [done|]. cbn [decode_objects].
  apply bind_safe.
  { case_if; [|done]. apply guard_err_safe. intros. bool_facts.
    apply bind_safe; [by apply readAddress_safe|]. intros. safe_tac. }
  intros [[address f] payload] _. apply guard_err_safe. intros _.
  apply bind_safe; [apply elementLength_safe|]. intros size Hs. apply elementLength_bound in Hs.
  apply bind_safe; [apply slice_safe; lia|]. intros. apply bind_safe; [apply decodeElement_safe|].
  intros. apply bind_safe; [by apply slice_from_safe|]. intros. apply bind_safe; [apply IH|].
  by intros [? ?] _.
Qed.

Lemma DecodeASDU_safe b p : safe (DecodeASDU b p).
Proof.
  unfold DecodeASDU. destruct (Params_Validate p) eqn:Hv; [done|]. apply Validate_ok in Hv.
  cbv zeta. apply guard_err_safe. intros. bool_facts.
  apply bind_safe; [by apply decode_header_safe|]. intros h _.
  apply bind_safe; [by apply slice_from_safe|]. intros payload _.
  apply guard_err_safe. intros _. case_if; [done|]. case_if; [done|].
  destruct (fileStructure _); [done|]. apply bind_safe; [apply decode_objects_safe|].
  intros [? ?] _. by apply guard_err_safe.
Qed.

(** ** The builder *)

(** What an object list encodes to, without the size limit. *)
Fixpoint objects_code (p : Params) (h : Header) (first : Z) (i : nat) (os : list Object)
    (tl : list Z) : Prop :=
  match os with
  | [] => tl = []
  | o :: os' => ∃ payload tl', object_fits p h first i o payload ∧
      tl = object_octets p h i o payload ++ tl' ∧ objects_code p h first (S i) os' tl'
  end.

Lemma marshal_objects_spec p h first i os b b' :
  marshal_objects p h first i os b = Ok b' ↔
  ∃ tl, objects_code p h first i os tl ∧ b' = b ++ tl ∧ (os = [] ∨ (length b' ≤ MaxASDUSize)%nat).
Proof.
  revert i b. induction os as [|o os IH]; intros i b.
  - cbn. split.
    + intros [= <-]. exists []. rewrite app_nil_r. auto.
    + intros (tl & -> & -> & _). by rewrite app_nil_r.
  - rewrite marshal_objects_cons. cbn [objects_code]. split.
    + intros (payload & Hfit & Hl & H). apply IH in H as (tl & Hc & -> & Hl').
      exists (object_octets p h i o payload ++ tl). rewrite <- app_assoc.
      split; [by exists payload, tl|]. split; [done|]. right.
      destruct Hl' as [->|?]; [|by rewrite app_assoc].
      cbn in Hc. subst. by rewrite app_nil_r.
    + intros (tl & (payload & tl' & Hfit & -> & Hc) & -> & Hl). destruct Hl as [?|Hl]; [done|].
      exists payload. split; [done|]. rewrite app_assoc, length_app in Hl. split; [lia|].
      apply IH. exists tl'. split; [done|]. split; [by rewrite app_assoc|]. right.
      rewrite app_assoc, length_app. lia.
Qed.

Lemma objects_code_snoc p h first i os o tl :
  objects_code p h first i (os ++ [o]) tl ↔
  ∃ tl' payload, objects_code p h first i os tl' ∧
    object_fits p h first (i + length os) o payload ∧
    tl = tl' ++ object_octets p h (i + length os) o payload.
Proof.
  revert i tl. induction os as [|x os IH]; intros i tl; cbn [app objects_code length].
  - rewrite Nat.add_0_r. split.
    + intros (payload & tl' & Hf & -> & ->). rewrite app_nil_r. by exists [], payload.
    + intros (tl' & payload & -> & Hf & ->). exists payload, []. by rewrite app_nil_r.
  - setoid_rewrite IH. replace (S i + length os)%nat with (i + S (length os))%nat by lia. split.
    + intros (px & tl' & Hx & -> & tl'' & po & Hos & Ho & ->).
      exists (object_octets p h i x px ++ tl''), po. rewrite app_assoc. split; [by exists px, tl''|done].
    + intros (tl'' & po & (px & tl' & Hx & -> & Hos) & Ho & ->).
      exists px, (tl' ++ object_octets p h (i + S (length os)) o po). rewrite app_assoc.
      split; [done|]. split; [done|]. by exists tl', po.
Qed.

(** The address of the first object matters only to the objects behind it. *)
Lemma objects_code_first p h first first' os tl :
  (length os ≤ 1)%nat → objects_code p h first 0 os tl → objects_code p h first' 0 os tl.
Proof.
  destruct os as [|o [|? ?]]; cbn; [done| |lia]. intros _ (pl & tl' & (Ha & _ & He) & Ht).
  exists pl, tl'. split; [|done]. split; [done|]. split; [|done].
  unfold addressed. by rewrite orb_true_r.
Qed.

(** The state of a builder between calls. *)
Definition builder_inv (b : Builder) : Prop :=
  let p := bparams b in let h := AHeader (basdu b) in let os := Objects (basdu b) in
  params_ok p ∧ Count h = 0 ∧ header_fits p h ∧ fileStructure (set_Count 1 h) = None ∧
  (length os ≤ 127)%nat ∧
  (isFileType (Type_ h) && negb (Type_ h =? F_DR_TA_1) = true → (length os ≤ 1)%nat) ∧
  (bsize b ≤ MaxASDUSize)%nat ∧
  ∃ tl, objects_code p h (first_address os) 0 os tl ∧ bsize b = (headerSize p + length tl)%nat.

Lemma header_fits_count p h n : n ≤ 127 → header_fits p h → header_fits p (set_Count n h).
Proof. unfold header_fits. cbn. naive_solver. Qed.

Lemma NewBuilder_inv p h b : NewBuilder p h = Ok b →
  builder_inv b ∧ bparams b = p ∧ AHeader (basdu b) = set_Count 0 h ∧ Objects (basdu b) = [].
Proof.
  unfold NewBuilder. intros H. apply bind_Ok in H as (hb & Hh & H).
  apply encodeHeader_Ok in Hh as (Hp & Hfit & _). apply guard_err_Ok in H as [_ H].
  destruct (fileStructure (set_Count 1 h)) eqn:Hf; [done|]. injection H as <-.
  split; [|done]. pose proof (headerSize_bounds p Hp). unfold builder_inv. cbn [bparams basdu AHeader Objects bsize].
  split; [done|]. split; [done|]. split; [by apply (header_fits_count _ _ 0) in Hfit|].
  split; [by destruct h|]. cbn [length]. split; [lia|]. split; [lia|].
  split; [unfold MaxASDUSize; lia|]. exists []. cbn. split; [done|lia].
Qed.

(** [fileStructure] of a builder's header with one object more. *)
Lemma fileStructure_more h n : fileStructure (set_Count 1 h) = None →
  fileStructure (set_Count (Z.of_nat (S n)) h) = None ↔
  isFileType (Type_ h) && negb (Type_ h =? F_DR_TA_1) && (1 <=? n)%nat = false.
Proof.
  unfold fileStructure. cbn [Type_ Sequence Count set_Count].
  destruct (isFileType (Type_ h)); [|done]. cbn [negb andb].
  destruct (Type_ h =? F_DR_TA_1); cbn [negb andb]; [done|].
  destruct (Sequence h); cbn [negb andb]; [done|]. intros _. destruct n as [|n]; [done|].
  cbn [Nat.leb]. split; [|done]. rewrite (proj2 (Z.eqb_neq _ _)); [done|lia].
Qed.

(** What [Append] checks. *)
Definition fits_next (b : Builder) (o : Object) (payload : list Z) : Prop :=
  let p := bparams b in let h := AHeader (basdu b) in let os := Objects (basdu b) in
  object_fits p h (first_address os) (length os) o payload ∧ (length os < 127)%nat ∧
  isFileType (Type_ h) && negb (Type_ h =? F_DR_TA_1) && (1 <=? length os)%nat = false ∧
  (bsize b + length (object_octets p h (length os) o payload) ≤ MaxASDUSize)%nat.

Lemma length_object_octets p h i o payload :
  length (object_octets p h i o payload) =
  (length payload + (if addressed h i then ioa_width p else 0))%nat.
Proof.
  unfold object_octets. rewrite length_app. case_if; rewrite ?length_appendAddress; cbn; lia.
Qed.

Lemma Append_Ok b o b' : builder_inv b →
  Append b o = Ok b' ↔ ∃ payload, fits_next b o payload ∧
    b' = mkBuilder (bparams b) (mkASDU (AHeader (basdu b)) (Objects (basdu b) ++ [o]))
           (bsize b + length (object_octets (bparams b) (AHeader (basdu b)) (length (Objects (basdu b))) o payload)).
Proof.
  intros (_ & _ & _ & _ & Hn & Hfile & _). unfold Append, fits_next, object_fits.
  set (h := AHeader (basdu b)) in *. set (os := Objects (basdu b)) in *.
  setoid_rewrite length_object_octets. fold (addressed h (length os)).
  assert ((1 <=? length os)%nat = (length os =? 1)%nat ∨
          isFileType (Type_ h) && negb (Type_ h =? F_DR_TA_1) = false) as H1.
  { destruct (isFileType (Type_ h) && negb (Type_ h =? F_DR_TA_1)); [left|by right].
    specialize (Hfile eq_refl). destruct (length os) as [|[|n]]; [done..|lia]. }
  assert (isFileType (Type_ h) && negb (Type_ h =? F_DR_TA_1) && (1 <=? length os)%nat =
          isFileType (Type_ h) && negb (Type_ h =? F_DR_TA_1) && (length os =? 1)%nat) as ->
    by (destruct H1 as [-> | ->]; done).
  split.
  - intros H. apply bind_Ok in H as ([id payload] & He & H). cbn match in H.
    apply guard_err_Ok in H as [Hid H]. bool_facts. subst id.
    apply guard_err_Ok in H as [Ha H]. cbv zeta in H.
    apply guard_err_Ok in H as [Hs H]. rewrite addressed_guard in Hs.
    apply guard_err_Ok in H as [Hg H]. apply orb_false_iff in Hg as [Hg Hsz].
    apply orb_false_iff in Hg as [Hc Hf]. bool_facts.
    exists payload. split; [|congruence]. split_and!; (done || lia).
  - intros (payload & ((Ha & Hs & He) & Hc & Hf & Hsz) & ->). rewrite He. cbn [bind].
    rewrite Z.eqb_refl. cbn [negb guard_err]. rewrite (proj2 (Z.ltb_ge _ _)) by done. cbn [guard_err].
    rewrite (proj2 (addressed_guard h (length os) o (first_address os))) by done. cbn [guard_err].
    rewrite Hf, (proj2 (Nat.ltb_ge _ _)) by lia. rewrite (proj2 (Nat.eqb_neq _ _)) by lia. done.
Qed.

Lemma Mirror_safe m cot negative : safe (Mirror m cot negative).
Proof.
  unfold Mirror. apply guard_err_safe. intros _. apply bind_safe; [|by intros []].
  destruct m as [a|r|]; [|exact I|exact I]. cbn [cloneMessage]. unfold cloneASDU. apply bind_safe; [|done].
  induction (Objects a) as [|o os IH]; [exact I|]. apply bind_safe; [apply encodeElement_safe|done].
Qed.

(** Object lists of the same objects encode to the same octets. *)
Lemma objects_code_det p h first i os tl1 tl2 :
  objects_code p h first i os tl1 → objects_code p h first i os tl2 → tl1 = tl2.
Proof.
  revert i tl1 tl2. induction os as [|o os IH]; intros i tl1 tl2; cbn [objects_code]; [congruence|].
  intros (p1 & t1 & (_ & _ & E1) & -> & H1) (p2 & t2 & (_ & _ & E2) & -> & H2).
  assert (p1 = p2) as -> by congruence. by rewrite (IH (S i) t1 t2).
Qed.

(** The code of the extended list, in terms of the code of the builder's list. *)
Lemma objects_code_more p h os o tl tl2 :
  objects_code p h (first_address os) 0 os tl →
  objects_code p h (first_address (os ++ [o])) 0 (os ++ [o]) tl2 ↔
  ∃ payload, object_fits p h (first_address os) (length os) o payload ∧
             tl2 = tl ++ object_octets p h (length os) o payload.
Proof.
  intros Hc.
  assert (objects_code p h (first_address (os ++ [o])) 0 (os ++ [o]) tl2 ↔
          objects_code p h (first_address os) 0 (os ++ [o]) tl2) as ->.
  { destruct os as [|x os]; [|done]. split; by apply objects_code_first; cbn; lia. }
  rewrite objects_code_snoc. split.
  - intros (tl' & payload & Hc' & Hf & ->). exists payload. split; [done|].
    by rewrite (objects_code_det _ _ _ _ _ _ _ Hc Hc').
  - intros (payload & Hf & ->). by exists tl, payload.
Qed.

(** The same checks decide whether the extended ASDU has an encoding. *)
Lemma marshal_more b o bytes : builder_inv b →
  ASDU_MarshalBinary (bparams b) (mkASDU (AHeader (basdu b)) (Objects (basdu b) ++ [o])) = Ok bytes ↔
  ∃ payload, fits_next b o payload ∧
    ∃ tl, objects_code (bparams b) (AHeader (basdu b)) (first_address (Objects (basdu b) ++ [o])) 0
            (Objects (basdu b) ++ [o]) tl ∧
      bytes = header_octets (bparams b) (set_Count (Z.of_nat (S (length (Objects (basdu b))))) (AHeader (basdu b))) ++ tl ∧
      length tl = (bsize b - headerSize (bparams b) +
        length (object_octets (bparams b) (AHeader (basdu b)) (length (Objects (basdu b))) o payload))%nat.
Proof.
  intros (Hp & Hc0 & Hfit & Hfs & Hn & Hfile & Hsz & tl & Hcode & Hsize).
  unfold fits_next. set (p := bparams b) in *. set (h := AHeader (basdu b)) in *.
  set (os := Objects (basdu b)) in *. set (a := mkASDU h (os ++ [o])).
  assert (length (os ++ [o]) = S (length os)) as Hlen by (rewrite length_app; cbn; lia).
  assert ((length os < 127)%nat → ASDU_GetHeader a = set_Count (Z.of_nat (S (length os))) h) as Hgh.
  { intros. unfold ASDU_GetHeader, a. cbn [Objects AHeader]. unfold zlen. rewrite Hlen.
    by rewrite u8_small by (unfold is_u8; lia). }
  split.
  - intros H. apply ASDU_marshal_inv in H as (Hl & _ & _ & Hf & H).
    change (Objects a) with (os ++ [o]) in *. change (AHeader a) with h in H.
    rewrite Hlen in Hl. rewrite Hgh in * by lia.
    destruct Hf as [Hf|Hf]; [by apply app_nil in Hf as [_ ?]|].
    apply marshal_objects_spec in H as (tl2 & Hcode2 & -> & Hb).
    destruct Hb as [Hb|Hb]; [by apply app_nil in Hb as [_ ?]|].
    pose proof Hcode2 as Hc2. rewrite (objects_code_more _ _ _ _ _ _ Hcode) in Hc2.
    destruct Hc2 as (payload & Hof & ->).
    rewrite !length_app, length_header_octets in Hb by done.
    exists payload. split; [|exists (tl ++ object_octets p h (length os) o payload)].
    + split; [done|]. split; [lia|]. split; [by apply fileStructure_more|lia].
    + split; [done|]. split; [done|]. rewrite length_app. lia.
  - intros (payload & (Hof & Hlt & Hff & Hle) & tl2 & Hc2 & -> & Hl2). 
    rewrite asdu_marshal.
    + rewrite Hgh by done. apply marshal_objects_spec. exists tl2. split; [done|]. split; [done|]. right.
      rewrite length_app, length_header_octets by done. pose proof (headerSize_bounds p Hp). lia.
    + done.
    + change (Objects a) with (os ++ [o]). lia.
    + rewrite Hgh by done. apply header_fits_count; [lia|done].
    + right. rewrite Hgh by done. by apply fileStructure_more.
Qed.

Lemma Append_inv b o b' : builder_inv b → Append b o = Ok b' →
  builder_inv b' ∧ bparams b' = bparams b ∧ AHeader (basdu b') = AHeader (basdu b) ∧
  Objects (basdu b') = Objects (basdu b) ++ [o].
Proof.
  intros Hinv H. apply Append_Ok in H as (payload & (Hof & Hlt & Hff & Hle) & ->); [|done].
  split; [|done]. destruct Hinv as (Hp & Hc0 & Hfit & Hfs & Hn & Hfile & Hsz & tl & Hcode & Hsize).
  unfold builder_inv. cbn [bparams basdu AHeader Objects bsize].
  split; [done|]. split; [done|]. split; [done|]. split; [done|].
  rewrite length_app. cbn [length]. split; [lia|]. split.
  { intros Hf. rewrite Hf in Hff. cbn in Hff. destruct (length (Objects (basdu b))); [lia|done]. }
  split; [done|]. eexists. split; [apply (objects_code_more _ _ _ _ _ _ Hcode); by exists payload|].
  rewrite length_app. lia.
Qed.

(** A run of appends; an error leaves the builder as it was. *)
Definition try_append (b : Builder) (o : Object) : Builder :=
  match Append b o with Ok b' => b' | _ => b end.

Lemma appends_inv os b0 : builder_inv b0 → let b := fold_left try_append os b0 in
  builder_inv b ∧ bparams b = bparams b0 ∧ AHeader (basdu b) = AHeader (basdu b0).
Proof.
  revert b0. induction os as [|o os IH]; intros b0 H0; [done|]. cbn [fold_left].
  assert (builder_inv (try_append b0 o) ∧ bparams (try_append b0 o) = bparams b0 ∧
          AHeader (basdu (try_append b0 o)) = AHeader (basdu b0)) as (H1 & Hp & Hh).
  { unfold try_append. destruct (Append b0 o) eqn:E; try done. by apply Append_inv in E as (? & ? & ? & _). }
  destruct (IH _ H1) as (? & Hp' & Hh'). split; [done|]. by rewrite Hp', Hh', Hp, Hh.
Qed.

(** A builder's snapshot encodes to as many octets as it has counted. *)
Lemma builder_marshal b : builder_inv b →
  ∃ bytes, ASDU_MarshalBinary (bparams b) (Builder_ASDU b) = Ok bytes ∧ length bytes = bsize b.
Proof.
  intros (Hp & Hc0 & Hfit & Hfs & Hn & Hfile & Hsz & tl & Hcode & Hsize).
  set (p := bparams b) in *. set (h := AHeader (basdu b)) in *. set (os := Objects (basdu b)) in *.
  assert (ASDU_GetHeader (Builder_ASDU b) = set_Count (zlen os) h) as Hgh.
  { unfold ASDU_GetHeader, Builder_ASDU. cbn [Objects AHeader]. fold os.
    rewrite u8_small by (unfold is_u8, zlen; lia). by unfold ASDU_GetHeader. }
  exists (header_octets p (set_Count (zlen os) h) ++ tl).
  rewrite length_app, length_header_octets by done. split; [|lia].
  rewrite asdu_marshal; rewrite ?Hgh; [|done|done| |].
  - change (AHeader (Builder_ASDU b)) with (set_Count (u8 (zlen os)) h). rewrite marshal_objects_count.
    change (Objects (Builder_ASDU b)) with os. apply marshal_objects_spec.
    exists tl. split; [done|]. split; [done|]. right. rewrite length_app, length_header_octets by done. lia.
  - apply header_fits_count; [unfold zlen; lia|done].
  - change (Objects (Builder_ASDU b)) with os. destruct os as [|x os'] eqn:Eos; [by left|right].
    change (zlen (x :: os')) with (Z.of_nat (S (length os'))). apply fileStructure_more; [done|].
    destruct (isFileType (Type_ h) && negb (Type_ h =? F_DR_TA_1)) eqn:E; [|done].
    specialize (Hfile eq_refl). cbn in Hfile |- *. destruct os'; [done|cbn in Hfile; lia].
Qed.

(** ** The mirror *)
Lemma cloneASDU_Ok a m : cloneASDU a = Ok m → m = ASDUMessage (mkASDU (ASDU_GetHeader a) (Objects a)).
Proof. unfold cloneASDU. intros H. apply bind_Ok in H as (? & _ & H). congruence. Qed.

Lemma cloneASDU_encodable a :
  (∀ o, o ∈ Objects a → is_ok (encodeElement (Element_ o)) = true) →
  cloneASDU a = Ok (ASDUMessage (mkASDU (ASDU_GetHeader a) (Objects a))).
Proof.
  unfold cloneASDU. intros H.
  match goal with |- bind ?m _ = _ => assert (m = Ok tt) as ->; [|done] end.
  induction (Objects a) as [|o os IH]; [done|].
  pose proof (H o ltac:(by left)) as Ho. destruct (encodeElement (Element_ o)); try done. cbn [bind].
  apply IH. intros x Hx. apply H. by right.
Qed.

Lemma objects_code_encodable p h first i os tl : objects_code p h first i os tl →
  ∀ o, o ∈ os → is_ok (encodeElement (Element_ o)) = true.
Proof.
  revert i tl. induction os as [|x os IH]; intros i tl H o Ho; [by apply not_elem_of_nil in Ho|].
  destruct H as (pl & tl' & (_ & _ & He) & _ & Hc).
  apply elem_of_cons in Ho as [->|Ho]; [by rewrite He|by eapply IH].
Qed.

(** The cause octet of a confirmation: the test flag is kept. *)
Definition mirrored_cause (octet cot : Z) (negative : bool) : Z :=
  Z.lor (Z.lor cot (flag negative 64)) (Z.land octet 128).

Lemma mirrored_cause_octet h cot negative : 0 ≤ Cause h ≤ 63 → 0 ≤ cot ≤ 63 →
  cause_octet (set_Cause cot negative h) = mirrored_cause (cause_octet h) cot negative.
Proof.
  intros Hc Hcot. unfold cause_octet, mirrored_cause. cbn [Cause Negative Test set_Cause].
  assert (Z.land (if Test h then Z.lor (if Negative h then Z.lor (Cause h) 64 else Cause h) 128
                  else (if Negative h then Z.lor (Cause h) 64 else Cause h)) 128 = flag (Test h) 128) as ->.
  { pose proof (range_forall 64 (λ c, forallb (λ n, forallb (λ t,
      Z.land (if t : bool then Z.lor (if n : bool then Z.lor c 64 else c) 128
              else (if n then Z.lor c 64 else c)) 128 =? flag t 128) bools) bools)
      ltac:(vm_compute; reflexivity) (Cause h) ltac:(lia)) as H.
    pose proof (forall_bools _ (forall_bools _ H (Negative h)) (Test h)) as H'. by decided H'. }
  destruct negative, (Test h); cbn [flag]; by rewrite ?Z.lor_0_r.
Qed.

Lemma header_octets_cause p h cot negative :
  header_octets p (set_Cause cot negative h) =
  <[2%nat := cause_octet (set_Cause cot negative h)]> (header_octets p h).
Proof. unfold header_octets. cbn. done. Qed.

Lemma marshal_objects_cause p h cot negative first i os b :
  marshal_objects p (set_Cause cot negative h) first i os b = marshal_objects p h first i os b.
Proof.
  revert i b. induction os as [|o os IH]; intros i b; [done|].
  cbn [marshal_objects set_Cause Sequence Type_]. destruct (encodeElement (Element_ o)) as [[id pl]|?| |];
    cbn [bind]; [|done..]. by rewrite IH.
Qed.

Lemma header_fits_cause p h cot negative : cot ≤ 63 → header_fits p h →
  header_fits p (set_Cause cot negative h).
Proof. unfold header_fits. cbn. naive_solver. Qed.

Lemma mirror_header_octets p h cot negative tl : header_typed h → header_fits p h → 0 ≤ cot ≤ 63 →
  header_octets p (set_Cause cot negative h) ++ tl =
  <[2%nat := mirrored_cause ((header_octets p h ++ tl) !!! 2%nat) cot negative]> (header_octets p h ++ tl).
Proof.
  intros (_ & _ & Hc & _) (_ & Hc' & _) Hcot. unfold is_u8 in Hc.
  rewrite header_octets_cause, mirrored_cause_octet by lia. done.
Qed.

Lemma mirror_marshal p m cot negative bytes :
  message_typed m → Message_MarshalBinary p m = Ok bytes → 0 ≤ cot ≤ 63 →
  ∃ m', Mirror m cot negative = Ok m' ∧
    Message_MarshalBinary p m' = Ok (<[2%nat := mirrored_cause (bytes !!! 2%nat) cot negative]> bytes).
Proof.
  intros Hm H Hcot. unfold Mirror. rewrite (proj2 (Z.ltb_ge _ _)) by lia. cbn [guard_err].
  destruct m as [a|r|]; [| |done]; cbn [Message_MarshalBinary cloneMessage message_typed] in *.
  - destruct Hm as [[Hh _] _]. apply ASDU_marshal_inv in H as (Hl & Hp & Hfit & Hfs & H).
    apply marshal_objects_spec in H as (tl & Hc & -> & Hsz).
    rewrite cloneASDU_encodable by (by eapply objects_code_encodable). cbn [bind].
    eexists. split; [done|]. cbn [Message_MarshalBinary AHeader Objects].
    set (h := ASDU_GetHeader a) in *.
    assert (header_typed h) as Hht.
    { destruct Hh as (? & ? & ? & ? & ?). split_and!; [done|apply u8_range|done..]. }
    rewrite asdu_marshal; [|done|done| |].
    + cbn [Objects AHeader]. rewrite marshal_objects_cause. unfold h at 1, ASDU_GetHeader at 1.
      rewrite marshal_objects_count. change (ASDU_GetHeader (mkASDU (set_Cause cot negative h) (Objects a)))
        with (set_Cause cot negative h).
      rewrite <- mirror_header_octets by done. apply marshal_objects_spec. exists tl.
      split; [done|]. split; [done|]. rewrite length_app, length_header_octets in * by done. done.
    + change (ASDU_GetHeader (mkASDU (set_Cause cot negative h) (Objects a))) with (set_Cause cot negative h).
      apply header_fits_cause; [lia|done].
    + change (ASDU_GetHeader (mkASDU (set_Cause cot negative h) (Objects a))) with (set_Cause cot negative h).
      by destruct Hfs; [left|right].
  - destruct Hm as [Hh _]. unfold Raw_MarshalBinary in H.
    apply guard_err_Ok in H as [Hz H]. apply bind_Ok in H as (hb & Hhb & H).
    apply encodeHeader_Ok in Hhb as (Hp & Hfit & ->). apply guard_err_Ok in H as [Hl H].
    assert (bytes = header_octets p (RHeader r) ++ Payload r) as -> by congruence. cbn [bind].
    eexists. split; [done|]. cbn [Message_MarshalBinary]. apply Nat.ltb_ge in Hl.
    rewrite length_header_octets in Hl by done. pose proof (headerSize_bounds p Hp).
    rewrite raw_marshal; [|done| | |]; cbn [RHeader Payload set_Cause Count].
    + by rewrite mirror_header_octets.
    + apply header_fits_cause; [lia|done].
    + intros Hc. rewrite Hc in Hz. cbn in Hz. bool_facts. by apply length_0_inv.
    + unfold MaxASDUSize in *. lia.
Qed.

(** ** The errors of the decoder *)
Lemma decode_objects_errs p h n i first b : errs codec_error (decode_objects p h n i first b).
Proof.
  revert i first b. induction n as [|n IH]; intros i first b; [done|]. cbn [decode_objects].
  apply bind_errs.
  { errs_tac; auto using readAddress_errs with go. }
  intros [[address f] payload] _.
  errs_tac; auto using elementLength_errs with go. apply decode_element_errs.
Qed.

Lemma DecodeASDU_errs b p : errs codec_error (DecodeASDU b p).
Proof.
  unfold DecodeASDU. destruct (Params_Validate p) eqn:Hv.
  { unfold Params_Validate in Hv. case_if_in Hv; [|done]. injection Hv as <-. cbn. auto with go. }
  errs_tac; auto with go.
  - unfold decode_header. errs_tac; auto using readAddress_errs.
  - match goal with |- context [fileStructure ?h] => destruct (fileStructure h) as [e|] eqn:Hf end.
    + unfold fileStructure in Hf. repeat case_if_in Hf; try done; injection Hf as <-; cbn; auto with go.
    + apply bind_errs; [apply decode_objects_errs|]. intros [? ?] _. errs_tac; auto with go.
Qed.

(** [DecodeASDU] never delivers a nil message. *)
Lemma DecodeASDU_message b p m : DecodeASDU b p = Ok m → m ≠ NilMessage.
Proof.
  unfold DecodeASDU. destruct (Params_Validate p); [done|]. cbv zeta. intros H.
  apply guard_err_Ok in H as [_ H]. apply bind_Ok in H as (h & _ & H).
  apply bind_Ok in H as (pl & _ & H). apply guard_err_Ok in H as [_ H].
  case_if_in H; [congruence|]. case_if_in H; [congruence|].
  match type of H with context [fileStructure ?h] => destruct (fileStructure h); [done|] end.
  apply bind_Ok in H as ([? ?] & _ & H). apply guard_err_Ok in H as [_ H]. congruence.
Qed.

(** ** Properties *)

(** C39. Encoding and decoding ASDUs are inverse to each other. An encoded
    ASDU is at most 249 octets and decodes to the same header (its count
    derived from the objects) and the same objects; an encoded raw ASDU of an
    unsupported type decodes to itself; and whatever the decoder accepts
    encodes to the octets it read, up to the SQ bit of a single-object file
    ASDU, which is set to the sending profile. *)
Theorem asdu_roundtrip (p : Params) :
  (∀ a b, asdu_typed a → Supported (Type_ (AHeader a)) = true → ASDU_MarshalBinary p a = Ok b →
     (length b ≤ MaxASDUSize)%nat ∧ bytes_ok b ∧
     DecodeASDU b p = Ok (ASDUMessage (mkASDU (ASDU_GetHeader a) (Objects a)))) ∧
  (∀ r b, raw_typed r → Supported (Type_ (RHeader r)) = false →
     DecodeError r = Some ErrUnsupportedType → Raw_MarshalBinary p r = Ok b →
     (length b ≤ MaxASDUSize)%nat ∧ bytes_ok b ∧ DecodeASDU b p = Ok (RawMessage r)) ∧
  (∀ b m, bytes_ok b → DecodeASDU b p = Ok m →
     message_typed m ∧ Message_MarshalBinary p m = Ok (canonical b)).
Proof.
  split_and!.
  - intros a b Ha Hs H. apply asdu_encode_decode in H; [|done]. by rewrite Hs in H.
  - intros. by apply raw_encode_decode.
  - intros. by apply decode_encode_asdu.
Qed.

Definition sample_asdu : ASDU :=
  mkASDU (mkHeader M_ME_NB_1 true 0 Spontaneous false true 5 0x1234)
    [mkObject 4096 (Scaled (-7) 0); mkObject 4097 (Scaled 300 Invalid)].
Definition sample_octets : list Z :=
  [11; 130; 131; 5; 0x34; 0x12; 0; 16; 0; 249; 255; 0; 44; 1; 128].

Lemma asdu_roundtrip_witness :
  DecodeASDU sample_octets DefaultParams =
    Ok (ASDUMessage (mkASDU (ASDU_GetHeader sample_asdu) (Objects sample_asdu))) ∧
  DecodeASDU [200; 1; 6; 0; 1; 0; 9; 9] DefaultParams =
    Ok (RawMessage (mkRaw (mkHeader 200 false 1 6 false false 0 1) [9; 9] (Some ErrUnsupportedType))) ∧
  Message_MarshalBinary DefaultParams
    (ASDUMessage (mkASDU (mkHeader F_SC_NA_1 false 1 13 false false 0 1) [mkObject 0 (FileCall 1 2 3)]))
    = Ok [122; 1; 13; 0; 1; 0; 0; 0; 0; 1; 0; 2; 3].
Proof.
  split_and!.
  - eapply (proj1 (asdu_roundtrip DefaultParams)); [|reflexivity|reflexivity].
    split; [|repeat constructor]; repeat split; vm_compute; congruence.
  - eapply (proj1 (proj2 (asdu_roundtrip DefaultParams))); [|reflexivity|reflexivity|reflexivity].
    split; [|repeat constructor]; repeat split; vm_compute; congruence.
  - apply (proj2 (proj2 (asdu_roundtrip DefaultParams)) [122; 129; 13; 0; 1; 0; 0; 0; 0; 1; 0; 2; 3]);
      [|reflexivity]. repeat constructor; vm_compute; congruence.
Defined.

(** [DecodeASDU] returns, with a message or with an error, on every
    octet string and every profile: no index or slice it takes is out of
    range. *)
Theorem asdu_decode_safe (b : list Z) (p : Params) : safe (DecodeASDU b p).
Proof. apply DecodeASDU_safe. Qed.

(** The builder refines the encoder. However many objects were offered
    (an error leaves the builder unchanged), its snapshot encodes, to exactly
    the number of octets the builder has counted; and it accepts the next
    object exactly when the ASDU with that object appended still has an
    encoding. *)
Theorem builder_refines_encoder (p : Params) (h : Header) (b0 : Builder) (os : list Object) :
  NewBuilder p h = Ok b0 →
  let b := fold_left try_append os b0 in
  (∃ bytes, ASDU_MarshalBinary p (Builder_ASDU b) = Ok bytes ∧ length bytes = bsize b ∧
            (bsize b ≤ MaxASDUSize)%nat) ∧
  ∀ o, (∃ b', Append b o = Ok b' ∧ Objects (basdu b') = Objects (basdu b) ++ [o]) ↔
       (∃ bytes, ASDU_MarshalBinary p (mkASDU (set_Count 0 h) (Objects (basdu b) ++ [o])) = Ok bytes).
Proof.
  intros H0. apply NewBuilder_inv in H0 as (Hinv & Hp & Hh & _).
  destruct (appends_inv os b0 Hinv) as (Hb & Hpb & Hhb). set (b := fold_left try_append os b0) in *.
  rewrite Hp in Hpb. rewrite Hh in Hhb. split.
  - destruct (builder_marshal b Hb) as (bytes & Hm & Hl). rewrite Hpb in Hm. exists bytes.
    split; [done|]. split; [done|]. by destruct Hb as (_ & _ & _ & _ & _ & _ & ? & _).
  - intros o. rewrite <- Hpb, <- Hhb. split.
    + intros (b' & H & _). apply Append_Ok in H as (payload & Hfit & ->); [|done].
      pose proof Hb as (_ & _ & _ & _ & _ & _ & _ & tl & Hcode & Hsize).
      eexists. apply marshal_more; [done|]. exists payload. split; [done|].
      eexists. split; [apply (objects_code_more _ _ _ _ _ _ Hcode); exists payload; split; [by apply Hfit|done]|].
      split; [done|]. rewrite length_app. lia.
    + intros (bytes & H). apply marshal_more in H as (payload & Hfit & _); [|done].
      eexists. split; [apply Append_Ok; [done|by exists payload]|done].
Qed.

Lemma builder_refines_encoder_witness :
  let b := fold_left try_append
    [mkObject 10 (SinglePoint 1); mkObject 12 (SinglePoint 0); mkObject 11 (SinglePoint 0)]
    (mkBuilder DefaultParams (mkASDU (mkHeader M_SP_NA_1 true 0 20 false false 0 1) []) 6) in
  length (Objects (basdu b)) = 2%nat ∧
  ∃ bytes, ASDU_MarshalBinary DefaultParams (Builder_ASDU b) = Ok bytes ∧ length bytes = bsize b ∧
           (bsize b ≤ MaxASDUSize)%nat.
Proof.
  split; [reflexivity|].
  exact (proj1 (builder_refines_encoder DefaultParams (mkHeader M_SP_NA_1 true 0 20 false false 0 1)
    (mkBuilder DefaultParams (mkASDU (mkHeader M_SP_NA_1 true 0 20 false false 0 1) []) 6)
    [mkObject 10 (SinglePoint 1); mkObject 12 (SinglePoint 0); mkObject 11 (SinglePoint 0)] eq_refl)).
Defined.

(** [Mirror] of a received ASDU succeeds for every cause of at most 63 and
    changes only the cause octet on the wire: the new cause and the negative
    flag replace the old ones, the test flag and every other octet stay as
    they were received (up to the SQ normalisation of the decoder). A larger
    cause is an error. *)
Theorem mirror_wire (p : Params) (b : list Z) (m : Message) (cot : Z) (negative : bool) :
  bytes_ok b → DecodeASDU b p = Ok m → is_u8 cot →
  if 63 <? cot then Mirror m cot negative = Err ErrMalformed
  else ∃ m', Mirror m cot negative = Ok m' ∧
    Message_MarshalBinary p m' =
      Ok (<[2%nat := mirrored_cause (canonical b !!! 2%nat) cot negative]> (canonical b)).
Proof.
  intros Hb H Hc. apply decode_encode_asdu in H as [Ht Hm]; [|done]. unfold is_u8 in Hc.
  case_if; bool_facts.
  - unfold Mirror. by rewrite (proj2 (Z.ltb_lt _ _)) by lia.
  - apply mirror_marshal; [done..|lia].
Qed.

Lemma mirror_wire_witness :
  ∃ m', Mirror (ASDUMessage (mkASDU (ASDU_GetHeader sample_asdu) (Objects sample_asdu))) UnknownCause true = Ok m' ∧
    Message_MarshalBinary DefaultParams m' =
      Ok [11; 130; 237; 5; 0x34; 0x12; 0; 16; 0; 249; 255; 0; 44; 1; 128].
Proof.
  apply (mirror_wire DefaultParams sample_octets _ UnknownCause true);
    [repeat constructor; vm_compute; congruence|reflexivity|split; vm_compute; congruence].
Defined.
