(* ===== verification/Iec104Frame.v ===== *)
(** * APCI framing (iec104go/frame.go)

    The three control formats, the frame codec and the reader that cuts a
    byte stream into frames. *)
From S2P Require Import Prelude Iec104Types Iec104Time Iec104Elements Iec104Asdu.

(** [UnknownKind] stands for the other values of the [uint8] type. *)
Inductive FrameKind : Type := IFrame | SFrame | UFrame | UnknownKind (k : Z).

Definition StartDTAct : Z := 0x07.
Definition StartDTCon : Z := 0x0b.
Definition StopDTAct : Z := 0x13.
Definition StopDTCon : Z := 0x23.
Definition TestFRAct : Z := 0x43.
Definition TestFRCon : Z := 0x83.

Definition UFunction_valid (u : Z) : bool :=
  (u =? StartDTAct) || (u =? StartDTCon) || (u =? StopDTAct) || (u =? StopDTCon) ||
  (u =? TestFRAct) || (u =? TestFRCon).

Record Frame : Type := mkFrame {
  Kind : FrameKind;
  Send : Z;
  Receive : Z;
  Function_ : Z;
  FASDU : list Z
}.

(** [b[0] = 0x68], the four control octets and the ASDU; [b[1]] is patched last. *)
Definition apdu (control asdu : list Z) : list Z :=
  let b := [0x68; 0] ++ control ++ asdu in <[1%nat := u8 (zlen b - 2)]> b.

Definition Frame_MarshalBinary (f : Frame) : outcome iec_error (list Z) :=
  guard_err ErrMalformed ((32767 <? Send f) || (32767 <? Receive f))
    (match Kind f with
     | IFrame =>
         guard_err ErrMalformed
           (negb (Function_ f =? 0) || (length (FASDU f) =? 0)%nat || (MaxASDUSize <? length (FASDU f))%nat)
           (Ok (apdu (PutUint16 (u16 (Z.shiftl (Send f) 1)) ++ PutUint16 (u16 (Z.shiftl (Receive f) 1)))
                     (FASDU f)))
     | SFrame =>
         guard_err ErrMalformed
           (negb (Send f =? 0) || negb (Function_ f =? 0) || negb (length (FASDU f) =? 0)%nat)
           (Ok (apdu ([1; 0] ++ PutUint16 (u16 (Z.shiftl (Receive f) 1))) []))
     | UFrame =>
         guard_err ErrMalformed
           (negb (Send f =? 0) || negb (Receive f =? 0) || negb (length (FASDU f) =? 0)%nat ||
            negb (UFunction_valid (Function_ f)))
           (Ok (apdu [Function_ f; 0; 0; 0] []))
     | UnknownKind _ => Err ErrMalformed
     end).

Definition DecodeFrame (b : list Z) : outcome iec_error Frame :=
  guard_err ErrMalformed (length b <? 6)%nat
    (let! b0 := idx b 0 in
     let! b1 := idx b 1 in
     guard_err ErrMalformed
       (negb (b0 =? 0x68) || (b1 <? 4) || (253 <? b1) || negb (b1 + 2 =? zlen b))
       (let! b2 := idx b 2 in
        let! b3 := idx b 3 in
        let! b4 := idx b 4 in
        let! b5 := idx b 5 in
        let! s2 := slice_from b 2 in
        let! s4 := slice_from b 4 in
        let! send := Uint16 s2 in
        let! receive := Uint16 s4 in
        let! asdu := slice_from b 6 in
        if Z.land b2 1 =? 0 then
          guard_err ErrMalformed ((length b =? 6)%nat || negb (Z.land b4 1 =? 0))
            (Ok (mkFrame IFrame (Z.shiftr send 1) (Z.shiftr receive 1) 0 asdu))
        else
          guard_err ErrMalformed (negb (length b =? 6)%nat)
            (if (b2 =? 1) && (b3 =? 0) && (Z.land b4 1 =? 0) then
               Ok (mkFrame SFrame 0 (Z.shiftr receive 1) 0 [])
             else if UFunction_valid b2 && (b3 =? 0) && (b4 =? 0) && (b5 =? 0) then
               Ok (mkFrame UFrame 0 0 b2 [])
             else Err ErrMalformed))).

(** [APDUReader.ReadFrame]: one frame and the rest of the stream. *)
Definition ReadFrame (r : list Z) : outcome iec_error (Frame * list Z) :=
  match read_full 2 r with
  | inr e => Err (ErrStream e)
  | inl (prefix, r') =>
      let! b0 := idx prefix 0 in
      let! b1 := idx prefix 1 in
      guard_err ErrMalformed (negb (b0 =? 0x68) || (b1 <? 4) || (253 <? b1))
        (match read_full (Z.to_nat b1) r' with
         | inr _ => Err (ErrStream UnexpectedEOF)
         | inl (body, r'') =>
             let! f := DecodeFrame (prefix ++ body) in
             Ok (f, r'')
         end)
  end.

Definition frame_typed (f : Frame) : Prop :=
  is_u16 (Send f) ∧ is_u16 (Receive f) ∧ is_u8 (Function_ f) ∧ bytes_ok (FASDU f).

(** ** Counters *)
Lemma counter_octets v : 0 ≤ v ≤ 32767 →
  u16 (Z.shiftl v 1) = 2 * v ∧ PutUint16 (u16 (Z.shiftl v 1)) = [u8 (2 * v); u8 (Z.shiftr (2 * v) 8)] ∧
  Z.land (u8 (2 * v)) 1 = 0 ∧
  Z.shiftr (le16 (u8 (2 * v)) (u8 (Z.shiftr (2 * v) 8))) 1 = v.
Proof.
  intros Hv. assert (u16 (Z.shiftl v 1) = 2 * v) as Hs.
  { rewrite Z.shiftl_mul_pow2 by lia. rewrite u16_small; [lia|unfold is_u16; lia]. }
  split; [done|]. rewrite Hs. split; [done|]. split.
  - rewrite (Z.land_ones _ 1) by lia. unfold u8. change (2 ^ 1) with 2. modlia.
  - rewrite le16_bytes by (unfold is_u16; lia). rewrite Z.shiftr_div_pow2 by lia. modlia.
Qed.

Lemma counter_back b0 b1 : is_u8 b0 → is_u8 b1 → Z.land b0 1 = 0 →
  0 ≤ Z.shiftr (le16 b0 b1) 1 ≤ 32767 ∧
  PutUint16 (u16 (Z.shiftl (Z.shiftr (le16 b0 b1) 1) 1)) = [b0; b1].
Proof.
  intros H0 H1 He. rewrite (Z.land_ones _ 1) in He by lia. change (2 ^ 1) with 2 in He.
  pose proof (le16_range b0 b1 H0 H1) as Hr. unfold is_u16, is_u8 in *.
  rewrite Z.shiftr_div_pow2, Z.shiftl_mul_pow2 by lia. change (2 ^ 1) with 2.
  assert (le16 b0 b1 mod 2 = 0) as Hm by (rewrite le16_add by done; modlia).
  split; [modlia|]. replace (le16 b0 b1 / 2 * 2) with (le16 b0 b1) by modlia.
  rewrite u16_small by done. by apply le16_split.
Qed.

(** A frame decoded from its octets written out. *)
Lemma DecodeFrame_cons b1 b2 b3 b4 b5 asdu :
  DecodeFrame (0x68 :: b1 :: b2 :: b3 :: b4 :: b5 :: asdu) =
  guard_err ErrMalformed ((b1 <? 4) || (253 <? b1) || negb (b1 + 2 =? 6 + zlen asdu))
    (if Z.land b2 1 =? 0 then
       guard_err ErrMalformed ((length asdu =? 0)%nat || negb (Z.land b4 1 =? 0))
         (Ok (mkFrame IFrame (Z.shiftr (le16 b2 b3) 1) (Z.shiftr (le16 b4 b5) 1) 0 asdu))
     else
       guard_err ErrMalformed (negb (length asdu =? 0)%nat)
         (if (b2 =? 1) && (b3 =? 0) && (Z.land b4 1 =? 0) then
            Ok (mkFrame SFrame 0 (Z.shiftr (le16 b4 b5) 1) 0 [])
          else if UFunction_valid b2 && (b3 =? 0) && (b4 =? 0) && (b5 =? 0) then
            Ok (mkFrame UFrame 0 0 b2 [])
          else Err ErrMalformed)).
Proof.
  unfold DecodeFrame. replace (6 + zlen asdu) with (zlen (0x68 :: b1 :: b2 :: b3 :: b4 :: b5 :: asdu))
    by (unfold zlen; cbn [length]; lia).
  cbn -[Z.land Z.ltb zlen Z.add u8 Z.shiftr UFunction_valid]. rewrite drop_0. done.
Qed.

Lemma apdu_octets c2 c3 c4 c5 asdu :
  apdu [c2; c3; c4; c5] asdu = 0x68 :: u8 (4 + zlen asdu) :: c2 :: c3 :: c4 :: c5 :: asdu.
Proof. unfold apdu, zlen. cbn -[u8]. do 3 f_equal. lia. Qed.

(** The octets of a frame of each kind. *)
Lemma marshal_I send receive fn asdu b : is_u16 send → is_u16 receive →
  Frame_MarshalBinary (mkFrame IFrame send receive fn asdu) = Ok b →
  0 ≤ send ≤ 32767 ∧ 0 ≤ receive ≤ 32767 ∧ fn = 0 ∧ (0 < length asdu ≤ 249)%nat ∧
  b = 0x68 :: u8 (4 + zlen asdu) :: u8 (2 * send) :: u8 (Z.shiftr (2 * send) 8)
      :: u8 (2 * receive) :: u8 (Z.shiftr (2 * receive) 8) :: asdu.
Proof.
  unfold Frame_MarshalBinary. cbn [Kind Send Receive Function_ FASDU]. unfold is_u16. intros Hs Hr H.
  apply guard_err_Ok in H as [Hc H]. apply guard_err_Ok in H as [Hg H]. bool_facts.
  unfold MaxASDUSize in *. destruct (counter_octets send) as (_ & S1 & _); [lia|].
  destruct (counter_octets receive) as (_ & R1 & _); [lia|].
  rewrite S1, R1 in H. cbn [app] in H. rewrite apdu_octets in H.
  split_and!; try lia. congruence.
Qed.

Lemma length_octet (asdu : list Z) : (length asdu ≤ 249)%nat → u8 (4 + zlen asdu) = 4 + zlen asdu.
Proof. intros. apply u8_small. unfold is_u8, zlen. lia. Qed.

Lemma DecodeFrame_length asdu b2 b3 b4 b5 : (length asdu ≤ 249)%nat →
  DecodeFrame (0x68 :: u8 (4 + zlen asdu) :: b2 :: b3 :: b4 :: b5 :: asdu) =
    (if Z.land b2 1 =? 0 then
       guard_err ErrMalformed ((length asdu =? 0)%nat || negb (Z.land b4 1 =? 0))
         (Ok (mkFrame IFrame (Z.shiftr (le16 b2 b3) 1) (Z.shiftr (le16 b4 b5) 1) 0 asdu))
     else
       guard_err ErrMalformed (negb (length asdu =? 0)%nat)
         (if (b2 =? 1) && (b3 =? 0) && (Z.land b4 1 =? 0) then
            Ok (mkFrame SFrame 0 (Z.shiftr (le16 b4 b5) 1) 0 [])
          else if UFunction_valid b2 && (b3 =? 0) && (b4 =? 0) && (b5 =? 0) then
            Ok (mkFrame UFrame 0 0 b2 [])
          else Err ErrMalformed)).
Proof.
  intros Hl. rewrite DecodeFrame_cons, length_octet by done. unfold zlen.
  rewrite !(proj2 (Z.ltb_ge _ _)) by lia. rewrite (proj2 (Z.eqb_eq _ _)) by lia. done.
Qed.

Lemma UFunction_valid_cases u : UFunction_valid u = true →
  u = 0x07 ∨ u = 0x0b ∨ u = 0x13 ∨ u = 0x23 ∨ u = 0x43 ∨ u = 0x83.
Proof.
  unfold UFunction_valid. intros H.
  repeat (apply orb_true_iff in H as [H|H]); bool_facts; auto 7.
Qed.

Lemma frame_encode_decode f b : frame_typed f → Frame_MarshalBinary f = Ok b →
  bytes_ok b ∧ (6 ≤ length b ≤ 255)%nat ∧ DecodeFrame b = Ok f ∧
  ∃ body, b = 0x68 :: zlen body :: body ∧ (4 ≤ length body ≤ 253)%nat.
Proof.
  destruct f as [k send receive fn asdu]. intros (Hs & Hr & Hf & Ha) H.
  cbn [Send Receive Function_ FASDU] in *. destruct k as [| | |k].
  - apply marshal_I in H as (Hs' & Hr' & -> & Hl & ->); [|done..].
    destruct (counter_octets send) as (_ & _ & S2 & S3); [lia|].
    destruct (counter_octets receive) as (_ & _ & R2 & R3); [lia|].
    split; [octets|]. split; [cbn; lia|]. split.
    + rewrite DecodeFrame_length by lia. rewrite S2, S3, R2, R3.
      cbn [Z.eqb negb]. rewrite orb_false_r, (proj2 (Nat.eqb_neq _ _)) by lia. done.
    + rewrite length_octet by lia. eexists (_ :: _ :: _ :: _ :: asdu).
      split; [|cbn [length]; lia]. do 2 f_equal. unfold zlen; cbn [length]; lia.
  - unfold Frame_MarshalBinary in H. cbn [Kind Send Receive Function_ FASDU] in H.
    apply guard_err_Ok in H as [Hc H]. apply guard_err_Ok in H as [Hg H]. unfold is_u16 in *. bool_facts.
    destruct (counter_octets receive) as (_ & R1 & R2 & R3); [lia|]. rewrite R1 in H.
    match goal with Hl : length _ = 0%nat |- _ => apply length_0_inv in Hl as -> end. subst. cbn [app] in H. rewrite apdu_octets in H.
    assert (b = 0x68 :: u8 (4 + zlen (A := Z) []) :: 1 :: 0 :: u8 (2 * receive) :: u8 (Z.shiftr (2 * receive) 8) :: [])
      as -> by congruence.
    split; [octets|]. split; [cbn; lia|]. split; [|by eexists [_; _; _; _]; split; [done|cbn; lia]].
    rewrite DecodeFrame_length by (cbn; lia). rewrite R2, R3. done.
  - unfold Frame_MarshalBinary in H. cbn [Kind Send Receive Function_ FASDU] in H.
    apply guard_err_Ok in H as [Hc H]. apply guard_err_Ok in H as [Hg H]. bool_facts.
    match goal with Hl : length _ = 0%nat |- _ => apply length_0_inv in Hl as -> end. subst. injection H as <-.
    split; [octets|]. split; [cbn; lia|]. split; [|by eexists [_; _; _; _]; split; [done|cbn; lia]].
    match goal with Hu : UFunction_valid _ = true |- _ => apply UFunction_valid_cases in Hu as Hc' end.
      by destruct Hc' as [->|[->|[->|[->|[->| ->]]]]].
  - unfold Frame_MarshalBinary in H. apply guard_err_Ok in H as [_ H]. done.
Qed.

Lemma frame_decode_encode b f : bytes_ok b → DecodeFrame b = Ok f →
  frame_typed f ∧ Frame_MarshalBinary f = Ok b.
Proof.
  intros Hb H.
  assert (∃ b1 b2 b3 b4 b5 asdu, b = 0x68 :: b1 :: b2 :: b3 :: b4 :: b5 :: asdu) as
    (b1 & b2 & b3 & b4 & b5 & asdu & ->).
  { unfold DecodeFrame in H. apply guard_err_Ok in H as [Hl H]. bool_facts.
    destruct b as [|b0 [|b1 [|b2 [|b3 [|b4 [|b5 asdu]]]]]]; cbn in Hl; try lia.
    apply bind_Ok in H as (x0 & H0 & H). apply bind_Ok in H as (x1 & _ & H).
    apply guard_err_Ok in H as [Hg _]. injection H0 as ->. bool_facts. subst. by repeat eexists. }
  rewrite DecodeFrame_cons in H. apply guard_err_Ok in H as [Hg H]. unfold zlen in Hg. bool_facts.
  apply Forall_cons in Hb as [_ Hb]. apply Forall_cons in Hb as [U1 Hb].
  apply Forall_cons in Hb as [U2 Hb]. apply Forall_cons in Hb as [U3 Hb].
  apply Forall_cons in Hb as [U4 Hb]. apply Forall_cons in Hb as [U5 Ha].
  assert (u8 (4 + zlen asdu) = b1) as Hb1 by (rewrite length_octet by lia; unfold zlen; lia).
  destruct (Z.land b2 1 =? 0) eqn:Hk.
  - apply guard_err_Ok in H as [Hg' H]. bool_facts.
    destruct (counter_back b2 b3 U2 U3 Hk) as [S1 S2].
    destruct (counter_back b4 b5 U4 U5) as [R1 R2]; [done|].
    assert (f = mkFrame IFrame (Z.shiftr (le16 b2 b3) 1) (Z.shiftr (le16 b4 b5) 1) 0 asdu) as -> by congruence.
    split; [repeat split; cbn; unfold is_u16; try lia; done|].
    unfold Frame_MarshalBinary. cbn [Kind Send Receive Function_ FASDU].
    rewrite !(proj2 (Z.ltb_ge _ _)) by lia. cbn [orb guard_err]. unfold MaxASDUSize.
    rewrite (proj2 (Nat.eqb_neq _ _)), (proj2 (Nat.ltb_ge _ _)) by lia. cbn [Z.eqb negb orb guard_err].
    rewrite S2, R2. cbn [app]. by rewrite apdu_octets, Hb1.
  - apply guard_err_Ok in H as [Hg' H]. bool_facts. apply length_0_inv in Hg' as ->.
    case_if_in H; [|case_if_in H; [|done]]; bool_facts; subst.
    + destruct (counter_back b4 b5 U4 U5) as [R1 R2]; [done|].
      assert (f = mkFrame SFrame 0 (Z.shiftr (le16 b4 b5) 1) 0 []) as -> by congruence.
      split; [repeat split; cbn; unfold is_u16; try lia; constructor|].
      unfold Frame_MarshalBinary. cbn [Kind Send Receive Function_ FASDU].
      rewrite !(proj2 (Z.ltb_ge _ _)) by lia. cbn [orb guard_err Z.eqb negb length Nat.eqb].
      rewrite R2. done.
    + injection H as <-. split; [repeat split; cbn; try lia; try constructor; apply U2|].
      match goal with Hu : UFunction_valid _ = true |- _ => apply UFunction_valid_cases in Hu as Hc' end.
      by destruct Hc' as [->|[->|[->|[->|[->| ->]]]]].
Qed.

(** ** The stream *)
Lemma ReadFrame_app f b rest : frame_typed f → Frame_MarshalBinary f = Ok b →
  ReadFrame (b ++ rest) = Ok (f, rest).
Proof.
  intros Hf H. apply frame_encode_decode in H as (_ & _ & Hd & body & -> & Hl); [|done].
  unfold ReadFrame. change ((0x68 :: zlen body :: body) ++ rest) with ([0x68; zlen body] ++ (body ++ rest)).
  rewrite (read_full_app' 2) by done. unfold zlen in *. cbn -[Z.ltb read_full].
  rewrite !(proj2 (Z.ltb_ge _ _)) by lia. cbn [orb guard_err].
  rewrite Nat2Z.id, read_full_app. by rewrite Hd.
Qed.

(** A stream that ends inside a frame. *)
Lemma ReadFrame_prefix f b part : frame_typed f → Frame_MarshalBinary f = Ok b →
  part `prefix_of` b → part ≠ b →
  ReadFrame part = Err (ErrStream (if (length part =? 0)%nat then EOF else UnexpectedEOF)).
Proof.
  intros Hf H [k ->] Hne. apply frame_encode_decode in H as (_ & _ & _ & body & Hb & Hl); [|done].
  assert (k ≠ []) as Hk by (intros ->; by rewrite app_nil_r in Hne).
  destruct part as [|x0 [|x1 part]]; [done..|].
  injection Hb as -> -> Hb. unfold ReadFrame.
  change (0x68 :: zlen body :: part) with ([0x68; zlen body] ++ part).
  rewrite (read_full_app' 2) by done. unfold zlen in *. cbn -[Z.ltb read_full].
  rewrite !(proj2 (Z.ltb_ge _ _)) by lia. cbn [orb guard_err]. rewrite Nat2Z.id.
  assert (length part < length body)%nat.
  { rewrite <- Hb, length_app. destruct k; [done|cbn; lia]. }
  unfold read_full. rewrite (proj2 (Nat.leb_gt _ _)) by done. by destruct part.
Qed.

Lemma DecodeFrame_safe b : safe (DecodeFrame b).
Proof.
  destruct b as [|b0 [|b1 [|b2 [|b3 [|b4 [|b5 asdu]]]]]]; try done.
  destruct (Z.eq_dec b0 0x68) as [->|Hn].
  - rewrite DecodeFrame_cons. repeat first [apply guard_err_safe; intros _ | case_if | done].
  - unfold DecodeFrame. cbn [length Nat.ltb Nat.leb guard_err].
    cbn [idx lookup list_lookup bind]. unfold idx. cbn [lookup list_lookup bind].
    by rewrite (proj2 (Z.eqb_neq _ _) Hn).
Qed.

Lemma ReadFrame_safe r : safe (ReadFrame r).
Proof.
  unfold ReadFrame. destruct (read_full 2 r) as [[prefix r']|] eqn:Hr; [|done].
  assert (length prefix = 2%nat) as Hl.
  { unfold read_full in Hr. case_if_in Hr; [|by destruct r]. injection Hr as <- _. bool_facts.
    rewrite length_take. lia. }
  apply bind_safe; [apply idx_safe; lia|]. intros b0 _.
  apply bind_safe; [apply idx_safe; lia|]. intros b1 _. apply guard_err_safe. intros _.
  destruct (read_full _ r') as [[body r'']|]; [|done].
  apply bind_safe; [apply DecodeFrame_safe|done].
Qed.

(** The frames a reader takes from a stream until it reports an error. *)
Fixpoint read_frames (fuel : nat) (r : list Z) : list Frame * option iec_error :=
  match fuel with
  | O => ([], None)
  | S fuel' =>
      match ReadFrame r with
      | Ok (f, r') => let (fs, e) := read_frames fuel' r' in (f :: fs, e)
      | Err e => ([], Some e)
      | _ => ([], None)
      end
  end.

Lemma read_frames_step n r f r' : ReadFrame r = Ok (f, r') →
  read_frames (S n) r = let (fs, e) := read_frames n r' in (f :: fs, e).
Proof. intros H. cbn [read_frames]. by rewrite H. Qed.

(** ** Properties *)

(** Frames round-trip in both directions: a frame the encoder accepts is
    6 to 255 octets and decodes to itself, and octets the decoder accepts are
    encoded back unchanged. *)
Theorem frame_roundtrip :
  (∀ f b, frame_typed f → Frame_MarshalBinary f = Ok b →
     bytes_ok b ∧ (6 ≤ length b ≤ 255)%nat ∧ DecodeFrame b = Ok f) ∧
  (∀ b f, bytes_ok b → DecodeFrame b = Ok f → frame_typed f ∧ Frame_MarshalBinary f = Ok b).
Proof.
  split.
  - intros f b Hf H. by apply frame_encode_decode in H as (? & ? & ? & _).
  - apply frame_decode_encode.
Qed.

Lemma frame_roundtrip_witness :
  DecodeFrame [0x68; 6; 0xfe; 0xff; 2; 0; 45; 1] = Ok (mkFrame IFrame 32767 1 0 [45; 1]) ∧
  Frame_MarshalBinary (mkFrame UFrame 0 0 TestFRCon []) = Ok [0x68; 4; 0x83; 0; 0; 0].
Proof.
  split.
  - eapply (proj1 frame_roundtrip); [|reflexivity].
    split_and!; cbn; try (split; vm_compute; congruence). repeat constructor; vm_compute; congruence.
  - apply (proj2 frame_roundtrip [0x68; 4; 0x83; 0; 0; 0]); [|reflexivity].
    repeat constructor; vm_compute; congruence.
Defined.

(** The reader cuts a stream at the frame boundaries: from the
    concatenation of the encodings of a list of frames followed by a strict
    prefix of another, it takes exactly those frames in order, then reports a
    clean end of file when nothing is left and an unexpected one when it stops
    inside a frame. On any stream it returns without a panic. *)
Theorem stream_roundtrip (fs : list Frame) (bs : list (list Z)) (f : Frame) (b part : list Z) :
  Forall frame_typed fs → Forall2 (λ f b, Frame_MarshalBinary f = Ok b) fs bs →
  frame_typed f → Frame_MarshalBinary f = Ok b → part `prefix_of` b → part ≠ b →
  read_frames (S (length fs)) (concat bs ++ part) =
    (fs, Some (ErrStream (if (length part =? 0)%nat then EOF else UnexpectedEOF))) ∧
  ∀ r, safe (ReadFrame r).
Proof.
  intros Hfs Hbs Hf Hb Hpart Hne. split; [|apply ReadFrame_safe].
  induction Hbs as [|g gb fs bs Hg Hbs IH].
  - cbn [concat app length read_frames]. by rewrite (ReadFrame_prefix f b part) by done.
  - apply Forall_cons in Hfs as [Hgt Hfs]. cbn [concat length].
    rewrite <- app_assoc. rewrite (read_frames_step _ _ g (concat bs ++ part)) by by apply ReadFrame_app.
    by rewrite IH.
Qed.

Lemma stream_roundtrip_witness :
  read_frames 3 [0x68; 4; 0x43; 0; 0; 0; 0x68; 5; 0; 0; 2; 0; 9; 0x68; 4; 1] =
    ([mkFrame UFrame 0 0 TestFRAct []; mkFrame IFrame 0 1 0 [9]], Some (ErrStream UnexpectedEOF)).
Proof.
  refine (proj1 (stream_roundtrip [mkFrame UFrame 0 0 TestFRAct []; mkFrame IFrame 0 1 0 [9]]
    [[0x68; 4; 0x43; 0; 0; 0]; [0x68; 5; 0; 0; 2; 0; 9]] (mkFrame SFrame 0 7 0 [])
    [0x68; 4; 1; 0; 14; 0] [0x68; 4; 1] _ _ _ _ _ _)).
  - repeat constructor; vm_compute; congruence.
  - repeat constructor.
  - split_and!; cbn; try constructor; vm_compute; congruence.
  - reflexivity.
  - by exists [0; 14; 0].
  - discriminate.
Defined.
