(* ===== verification/Iec104Session.v ===== *)
(** * The APCI session (iec104go/session*.go, options.go)

    The state goroutine of a session, as functions on the session's state; the
    reader, the writer, the callback dispatcher and the application's [Send]
    and [RequestClose] as steps around it.

    The state joins the fields of [sessionState] and of [Session]. A pointer
    to a [wireWrite] is an index into [wires], the store of every queued
    APDU in allocation order, so that the queue and [pendingTestCon] may name
    the same one; a [transferGeneration] is an index into [generations], which
    holds whether it was cancelled. A [time.Time] is an [option Z], [None]
    being the zero time. [clock] is the sequence of readings of the session's
    clock, in the order the state goroutine takes them, and is not restricted.
    [replies], [observed] and [wire] record what left the session: answers to
    the callers of [StartDT] and [StopDT], received ASDUs offered to the
    procedure layer, and APDUs written to the transport; [admitted] records
    what entered through admission, and [rejected] the received requests the
    filter refused, with the cause and whether the answer was sent at once. *)
From S2P Require Import Prelude Iec104Types Iec104Time Iec104Elements Iec104Asdu Iec104Frame.

(** ** Options *)
Record APCI : Type := mkAPCI { K : Z; W : Z; T0 : Z; T1 : Z; T2 : Z; T3 : Z }.

Definition second : Z := 1000000000.
Definition DefaultAPCI : APCI :=
  mkAPCI 12 8 (30 * second) (15 * second) (10 * second) (20 * second).

Definition APCI_Validate (a : APCI) : option iec_error :=
  if (K a <? 1) || (32767 <? K a) || (W a <? 1) || (32767 <? W a) ||
     (T0 a <=? 0) || (T1 a <=? 0) || (T2 a <=? 0) || (T3 a <=? 0)
  then Some ErrMalformed else None.

Record ReceiveFilter : Type := mkFilter { CommonAddresses : list Z; ApplicationTypes : list Z }.

(** The options a session consults. *)
Record Options : Type := mkOptions {
  oAPCI : APCI;
  oFilter : ReceiveFilter;
  oParams : Params;
  SendQueue : nat;
  EventQueue : nat
}.

Inductive Role : Type := ClientRole | ServerRole.
Inductive EventKind : Type := Opened | Started | Stopped | ASDUReceived | Closed.

(** An event without the constant identity of its session. *)
Record Event : Type := mkEvent {
  eKind : EventKind;
  eASDU : option Message;
  eErr : option iec_error;
  eTransfer : option nat
}.

Record queuedASDU : Type := mkQueued { qbytes : list Z; qleg : option nat }.

Record wireWrite : Type := mkWire {
  wbytes : list Z;
  wcloseAfter : bool;
  wleg : option nat;
  wreceiveCount : Z
}.

(** Where the writer goroutine is: waiting for [s.out]; holding a pointer it
    has received but not claimed; inside [conn.Write]; or delivering its
    result. *)
Inductive Writer : Type :=
| WIdle
| WTaken (ptr : nat)
| WWriting (w : wireWrite) (at_ : Z)
| WDone (err : option io_error) (closeAfter : bool) (at_ : Z)
| WExited.

#[local] Set Primitive Projections.
Record Session : Type := mkSession {
  (* sessionState *)
  sent : Z;
  received : Z;
  acked : Z;
  pending : Z;
  started : bool;
  peerStop : bool;
  localStop : bool;
  startWait : list nat;
  stopWait : list nat;
  u : gmap Z Z;
  t1 : option Z;
  t2 : option Z;
  idle : option Z;
  drain : option Z;
  closeAfter : option iec_error;
  (* Session: the writer's queue and the receive accounting *)
  wires : list wireWrite;
  out : list nat;
  pendingTestCon : option nat;
  receivedCount : Z;
  acknowledgedCount : Z;
  transportFailed : bool;
  (* Session: admission, guarded by its mutex *)
  accepting : bool;
  gone : bool;
  generation : option nat;
  generations : list bool;
  reason : option iec_error;
  sends : list queuedASDU;
  (* Session: the event queue *)
  events : list Event;
  terminal : option Event;
  (* what the other parties have seen *)
  replies : list (nat * option iec_error);
  observed : list (list Z * option nat);
  ticks : nat;
  writer : Writer;
  wire : list (list Z);
  admitted : list (list Z);
  rejected : list (list Z * Z * bool)
}.
#[local] Unset Primitive Projections.

Definition fields (s : Session) : Session :=
  mkSession (sent s) (received s) (acked s) (pending s) (started s) (peerStop s) (localStop s)
    (startWait s) (stopWait s) (u s) (t1 s) (t2 s) (idle s) (drain s) (closeAfter s) (wires s)
    (out s) (pendingTestCon s) (receivedCount s) (acknowledgedCount s) (transportFailed s)
    (accepting s) (gone s) (generation s) (generations s) (reason s) (sends s) (events s)
    (terminal s) (replies s) (observed s) (ticks s) (writer s) (wire s) (admitted s)
    (rejected s).

(** [set_f v s]: the assignment [s.f = v]. *)
Ltac assign proj v s :=
  let e := eval cbv delta [fields] beta in (fields s) in
  match e with context C [proj s] => let e' := context C [v] in exact e' end.

Definition set_sent (v : Z) (s : Session) : Session := ltac:(assign sent v s).
Definition set_received (v : Z) (s : Session) : Session := ltac:(assign received v s).
Definition set_acked (v : Z) (s : Session) : Session := ltac:(assign acked v s).
Definition set_pending (v : Z) (s : Session) : Session := ltac:(assign pending v s).
Definition set_started (v : bool) (s : Session) : Session := ltac:(assign started v s).
Definition set_peerStop (v : bool) (s : Session) : Session := ltac:(assign peerStop v s).
Definition set_localStop (v : bool) (s : Session) : Session := ltac:(assign localStop v s).
Definition set_startWait (v : list nat) (s : Session) : Session := ltac:(assign startWait v s).
Definition set_stopWait (v : list nat) (s : Session) : Session := ltac:(assign stopWait v s).
Definition set_u (v : gmap Z Z) (s : Session) : Session := ltac:(assign u v s).
Definition set_t1 (v : option Z) (s : Session) : Session := ltac:(assign t1 v s).
Definition set_t2 (v : option Z) (s : Session) : Session := ltac:(assign t2 v s).
Definition set_idle (v : option Z) (s : Session) : Session := ltac:(assign idle v s).
Definition set_drain (v : option Z) (s : Session) : Session := ltac:(assign drain v s).
Definition set_closeAfter (v : option iec_error) (s : Session) : Session := ltac:(assign closeAfter v s).
Definition set_wires (v : list wireWrite) (s : Session) : Session := ltac:(assign wires v s).
Definition set_out (v : list nat) (s : Session) : Session := ltac:(assign out v s).
Definition set_pendingTestCon (v : option nat) (s : Session) : Session := ltac:(assign pendingTestCon v s).
Definition set_receivedCount (v : Z) (s : Session) : Session := ltac:(assign receivedCount v s).
Definition set_acknowledgedCount (v : Z) (s : Session) : Session := ltac:(assign acknowledgedCount v s).
Definition set_transportFailed (v : bool) (s : Session) : Session := ltac:(assign transportFailed v s).
Definition set_accepting (v : bool) (s : Session) : Session := ltac:(assign accepting v s).
Definition set_gone (v : bool) (s : Session) : Session := ltac:(assign gone v s).
Definition set_generation (v : option nat) (s : Session) : Session := ltac:(assign generation v s).
Definition set_generations (v : list bool) (s : Session) : Session := ltac:(assign generations v s).
Definition set_reason (v : option iec_error) (s : Session) : Session := ltac:(assign reason v s).
Definition set_sends (v : list queuedASDU) (s : Session) : Session := ltac:(assign sends v s).
Definition set_events (v : list Event) (s : Session) : Session := ltac:(assign events v s).
Definition set_terminal (v : option Event) (s : Session) : Session := ltac:(assign terminal v s).
Definition set_replies (v : list (nat * option iec_error)) (s : Session) : Session := ltac:(assign replies v s).
Definition set_observed (v : list (list Z * option nat)) (s : Session) : Session := ltac:(assign observed v s).
Definition set_ticks (v : nat) (s : Session) : Session := ltac:(assign ticks v s).
Definition set_writer (v : Writer) (s : Session) : Session := ltac:(assign writer v s).
Definition set_wire (v : list (list Z)) (s : Session) : Session := ltac:(assign wire v s).
Definition set_admitted (v : list (list Z)) (s : Session) : Session := ltac:(assign admitted v s).
Definition set_rejected (v : list (list Z * Z * bool)) (s : Session) : Session := ltac:(assign rejected v s).

(** ** The session monad *)
Definition M (A : Type) : Type := Session → outcome iec_error A * Session.

Definition sret {A} (a : A) : M A := λ s, (Ok a, s).
Definition sfail {A} (e : iec_error) : M A := λ s, (Err e, s).
Definition sbind {A B} (m : M A) (k : A → M B) : M B :=
  λ s, match m s with
       | (Ok a, s') => k a s'
       | (Err e, s') => (Err e, s')
       | (Panic, s') => (Panic, s')
       | (Diverge, s') => (Diverge, s')
       end.
Definition lift {A} (m : outcome iec_error A) : M A := λ s, (m, s).
Definition get {A} (f : Session → A) : M A := λ s, (Ok (f s), s).
Definition assign_ (f : Session → Session) : M unit := λ s, (Ok tt, f s).

Declare Scope session_scope.
Delimit Scope session_scope with session.
#[global] Open Scope session_scope.
Notation "'let*' x ':=' m 'in' k" := (sbind m (λ x, k))
  (at level 10, x name, m at level 200, k at level 200,
   format "'let*'  x  ':='  m  'in' '//' k") : session_scope.
Notation "'do*' m 'in' k" := (sbind m (λ _ : unit, k))
  (at level 10, m at level 200, k at level 200, format "'do*'  m  'in' '//' k") : session_scope.

Definition when (b : bool) (m : M unit) : M unit := if b then m else sret tt.

(** ** Sequence numbers *)
Definition seqDistance (a b : Z) : Z := Z.land (u16 (b - a)) 32767.
Definition outstanding (s : Session) : Z := seqDistance (acked s) (sent s).

(** ** Deadlines *)
Definition earlier (a b : option Z) : option Z :=
  match a, b with
  | None, _ => b
  | _, None => a
  | Some x, Some y => if x <? y then a else b
  end.

Definition due (now : Z) (deadline : option Z) : bool :=
  match deadline with None => false | Some d => negb (now <? d) end.

Definition nextDeadline (s : Session) : option Z :=
  map_fold (λ _ deadline next, earlier next (Some deadline))
    (earlier (idle s) (earlier (t1 s) (earlier (t2 s) (drain s)))) (u s).

Definition is_some {A} (x : option A) : bool := match x with Some _ => true | None => false end.

(** [ReceiveFilter.reject]. *)
Definition contains (l : list Z) (x : Z) : bool := existsb (Z.eqb x) l.

Definition filter_reject (f : ReceiveFilter) (h : Header) : Z :=
  if negb (length (CommonAddresses f) =? 0)%nat && negb (contains (CommonAddresses f) (CommonAddress h))
  then UnknownCA
  else if negb (isFileType (Type_ h)) && negb (length (ApplicationTypes f) =? 0)%nat &&
          negb (contains (ApplicationTypes f) (Type_ h))
  then UnknownType
  else 0.

Section Session.
Context (o : Options) (role : Role) (clock : nat → Z).

(** [s.opts.Clock.Now()]. *)
Definition Now : M Z := λ s, (Ok (clock (ticks s)), set_ticks (S (ticks s)) s).

(** [s.opts.Clock.Now().Add(d)]. *)
Definition in_ (d : Z) : M (option Z) := let* now := Now in sret (Some (now + d)).

(** ** Admission and events *)
Definition admission (v : bool) : M unit :=
  let* acc := get (λ s, accepting s) in
  let* gen := get (λ s, generation s) in
  do* (if v && negb acc then
         let* gs := get (λ s, generations s) in
         do* assign_ (set_generations (gs ++ [false])) in
         assign_ (set_generation (Some (length gs)))
       else match gen with
            | Some g => when (negb v) (let* gs := get (λ s, generations s) in
                                       assign_ (set_generations (<[g := true]> gs)))
            | None => sret tt
            end) in
  assign_ (set_accepting v).

Definition admitLocked (b : list Z) (leg : option nat) : M unit :=
  let* s := get id in
  if gone s then sfail ErrConnectionGone
  else if negb (accepting s) then sfail ErrNotStarted
  else if (length (sends s) =? SendQueue o)%nat then sfail ErrQueueFull
  else
    do* assign_ (set_sends (sends s ++ [mkQueued b leg])) in
    assign_ (set_admitted (admitted s ++ [b])).

Definition Session_admit (b : list Z) : M unit := admitLocked b None.

(** [admitFileLocked]: admission for work of one transfer generation;
    [ctxErr] is the error of the caller's context. *)
Definition admitFileLocked (ctxErr : option iec_error) (g : option nat) (b : list Z) : M unit :=
  let* s := get id in
  if gone s then sfail ErrConnectionGone
  else match g with
       | None => sfail ErrNotStarted
       | Some i =>
           match generation s with
           | Some j =>
               if negb (i =? j)%nat || default true (generations s !! i) then sfail ErrNotStarted
               else match ctxErr with
                    | Some e => sfail e
                    | None => admitLocked b None
                    end
           | None => sfail ErrNotStarted
           end
       end.

(** [Session.Send]. *)
Definition Session_Send (m : Message) : M unit :=
  let* g := get (λ s, gone s) in
  if g then sfail ErrConnectionGone
  else
    let* owned := lift (cloneMessage m) in
    let* b := lift (Message_MarshalBinary (oParams o) owned) in
    Session_admit b.

Definition queueEvent (e : Event) : M bool :=
  let* s := get id in
  let e := match eKind e with
           | ASDUReceived => mkEvent (eKind e) (eASDU e) (eErr e) (generation s)
           | _ => e
           end in
  let overflow := (EventQueue o <=? length (events s))%nat in
  do* assign_ (set_events (events s ++ [e])) in
  sret (negb overflow).

(** [if !s.queueEvent(e) { return ErrEventQueueFull }]. *)
Definition queueEvent_or_fail (e : Event) : M unit :=
  let* ok := queueEvent e in
  if ok then sret tt else sfail ErrEventQueueFull.

(** ** The writer's queue *)
Definition is_testcon (f : Frame) : bool :=
  match Kind f with UFrame => Function_ f =? TestFRCon | _ => false end.

Definition enqueueWire (f : Frame) (closeAfter : bool) (leg : option nat) : M unit :=
  let* b := lift (Frame_MarshalBinary f) in
  let* s := get id in
  match is_testcon f, pendingTestCon s with
  | true, Some ptr =>
      match wires s !! ptr with
      | Some w =>
          assign_ (set_wires (<[ptr := mkWire b (wcloseAfter w || closeAfter) (wleg w) (wreceiveCount w)]>
                              (wires s)))
      | None => lift Panic
      end
  | slot, _ =>
      let count := match Kind f with IFrame | SFrame => receivedCount s | _ => 0 end in
      if (length (out s) <? SendQueue o + 8)%nat then
        do* assign_ (set_wires (wires s ++ [mkWire b closeAfter leg count])) in
        do* assign_ (set_out (out s ++ [length (wires s)])) in
        when slot (assign_ (set_pendingTestCon (Some (length (wires s)))))
      else sfail ErrQueueFull
  end.

Definition emitLeg (f : Frame) (closeAfter : bool) (leg : option nat) : M unit :=
  do* enqueueWire f closeAfter leg in
  let* deadline := in_ (T3 (oAPCI o)) in
  assign_ (set_idle deadline).

Definition emit (f : Frame) (closeAfter : bool) : M unit := emitLeg f closeAfter None.

Definition activity (at_ : Z) : M unit :=
  let deadline := at_ + T3 (oAPCI o) in
  let* i := get (λ s, idle s) in
  match i with
  | Some d => when (d <? deadline) (assign_ (set_idle (Some deadline)))
  | None => assign_ (set_idle (Some deadline))
  end.

(** [st.u[f] = Clock.Now().Add(T1)]. *)
Definition supervise (f : Z) : M unit :=
  let* now := Now in
  let* m := get (λ s, u s) in
  assign_ (set_u (<[f := now + T1 (oAPCI o)]> m)).

Definition sendU (f : Z) : M unit :=
  do* emit (mkFrame UFrame 0 0 f []) false in
  if f =? StartDTAct then supervise StartDTCon
  else if f =? StopDTAct then supervise StopDTCon
  else if f =? TestFRAct then supervise TestFRCon
  else sret tt.

Definition ack (closeAfter : bool) : M unit :=
  let* r := get (λ s, received s) in
  do* emit (mkFrame SFrame 0 r 0 []) closeAfter in
  do* assign_ (set_pending 0) in
  assign_ (set_t2 None).

Definition acknowledge (n : Z) : M unit :=
  let* s := get id in
  let distance := seqDistance (acked s) n in
  if outstanding s <? distance then sfail ErrProtocol
  else if distance =? 0 then sret tt
  else
    do* assign_ (set_acked n) in
    do* assign_ (set_t1 None) in
    let* left := get outstanding in
    when (0 <? left) (let* deadline := in_ (T1 (oAPCI o)) in assign_ (set_t1 deadline)).

Definition sendI (b : list Z) (leg : option nat) : M unit :=
  let* s := get id in
  do* emitLeg (mkFrame IFrame (sent s) (received s) 0 b) false leg in
  do* when (outstanding s =? 0) (let* deadline := in_ (T1 (oAPCI o)) in assign_ (set_t1 deadline)) in
  do* assign_ (set_sent (Z.land (u16 (sent s + 1)) 32767)) in
  do* assign_ (set_pending 0) in
  assign_ (set_t2 None).

(** ** Timers *)
Definition expire : M unit :=
  let* now := Now in
  let* s := get id in
  if due now (t1 s) || due now (drain s) then sfail ErrT1
  else if existsb (λ '(_, deadline), due now (Some deadline)) (map_to_list (u s)) then sfail ErrT1
  else
    do* when (due now (t2 s)) (ack false) in
    let* s := get id in
    if due now (idle s) then
      if is_some (u s !! TestFRCon) then assign_ (set_idle (Some (now + T3 (oAPCI o))))
      else sendU TestFRAct
    else sret tt.

(** ** Sending *)
Fixpoint pump_loop (fuel : nat) : M unit :=
  match fuel with
  | O => lift Diverge
  | S fuel' =>
      let* s := get id in
      if negb (outstanding s <? K (oAPCI o)) then sret tt
      else if (SendQueue o <=? length (out s))%nat then sret tt
      else match sends s with
           | [] => sret tt
           | payload :: rest =>
               do* assign_ (set_sends rest) in
               do* sendI (qbytes payload) (qleg payload) in
               pump_loop fuel'
           end
  end.

Definition pump : M unit :=
  let* s := get id in
  if is_some (closeAfter s) || negb (started s) then sret tt
  else
    do* pump_loop (S (length (sends s))) in
    let* s := get id in
    let empty := (length (sends s) =? 0)%nat in
    do* when (localStop s && empty && negb (is_some (u s !! StopDTCon))) (sendU StopDTAct) in
    let* s := get id in
    when (peerStop s && empty && (outstanding s =? 0))
      (do* when (0 <? pending s) (ack false) in
       do* sendU StopDTCon in
       do* assign_ (set_peerStop false) in
       do* assign_ (set_drain None) in
       do* assign_ (set_started false) in
       queueEvent_or_fail (mkEvent Stopped None None None)).

(** ** Local transfer operations *)
Definition reply (w : nat) (r : option iec_error) : M unit :=
  let* rs := get (λ s, replies s) in assign_ (set_replies (rs ++ [(w, r)])).

Definition operation (start : bool) (result : nat) : M unit :=
  let* s := get id in
  if start then
    if localStop s || peerStop s then reply result (Some ErrNotStarted)
    else if started s then reply result None
    else
      do* assign_ (set_startWait (startWait s ++ [result])) in
      when (length (startWait s ++ [result]) =? 1)%nat (sendU StartDTAct)
  else
    if (0 <? length (startWait s))%nat then reply result (Some ErrNotStarted)
    else if negb (started s) then reply result None
    else
      do* admission false in
      do* assign_ (set_localStop true) in
      do* assign_ (set_stopWait (stopWait s ++ [result])) in
      match drain s with
      | None => let* deadline := in_ (T1 (oAPCI o)) in assign_ (set_drain deadline)
      | Some _ => sret tt
      end.

(** ** Receiving *)
Definition reject (request : list Z) (cause : Z) : M unit :=
  let* r2 := lift (idx request 2) in
  let mirror := <[2%nat := Z.lor (Z.lor (Z.land r2 0x80) 0x40) cause]> request in
  let* s := get id in
  do* assign_ (set_rejected (rejected s ++ [(request, cause, outstanding s <? K (oAPCI o))])) in
  if outstanding s <? K (oAPCI o) then sendI mirror None
  else
    do* ack false in
    Session_admit mirror.

(** [for _, w := range waiters { w <- r }]. *)
Definition reply_all (ws : list nat) (r : option iec_error) : M unit :=
  let* rs := get (λ s, replies s) in assign_ (set_replies (rs ++ ((λ w, (w, r)) <$> ws))).

Definition receive_transfer_con (f : Z) : M unit :=
  let* s := get id in
  match role with
  | ServerRole => sfail ErrProtocol
  | ClientRole =>
      if negb (is_some (u s !! f)) then sfail ErrProtocol
      else
        do* assign_ (set_u (delete f (u s))) in
        if f =? StartDTCon then
          do* assign_ (set_started true) in
          do* admission true in
          do* queueEvent_or_fail (mkEvent Started None None None) in
          do* reply_all (startWait s) None in
          assign_ (set_startWait [])
        else if negb (outstanding s =? 0) then sfail ErrProtocol
        else
          do* when (0 <? pending s) (ack false) in
          do* assign_ (set_started false) in
          do* assign_ (set_localStop false) in
          do* assign_ (set_drain None) in
          do* queueEvent_or_fail (mkEvent Stopped None None None) in
          do* reply_all (stopWait s) None in
          assign_ (set_stopWait [])
  end.

Definition receiveU (f : Z) : M unit :=
  let* s := get id in
  if f =? TestFRAct then sendU TestFRCon
  else if f =? TestFRCon then
    if negb (is_some (u s !! f)) then sfail ErrProtocol
    else assign_ (set_u (delete f (u s)))
  else if f =? StartDTAct then
    match role, peerStop s with
    | ServerRole, false =>
        do* sendU StartDTCon in
        when (negb (started s))
          (do* assign_ (set_started true) in
           do* admission true in
           queueEvent_or_fail (mkEvent Started None None None))
    | _, _ => sfail ErrProtocol
    end
  else if f =? StopDTAct then
    match role, peerStop s with
    | ServerRole, false =>
        if negb (started s) then sendU StopDTCon
        else
          do* admission false in
          do* assign_ (set_peerStop true) in
          do* (let* deadline := in_ (T1 (oAPCI o)) in assign_ (set_drain deadline)) in
          when (0 <? pending s) (ack false)
    | _, _ => sfail ErrProtocol
    end
  else if (f =? StartDTCon) || (f =? StopDTCon) then receive_transfer_con f
  else sret tt.

(** [s.observe]: the ASDU is offered to the procedure layer. *)
Definition observe (b : list Z) (leg : option nat) : M unit :=
  let* os := get (λ s, observed s) in assign_ (set_observed (os ++ [(b, leg)])).

Definition receiveI (f : Frame) (leg : option nat) : M unit :=
  let* s := get id in
  if negb (Send f =? received s) then
    if pending s =? 0 then sfail ErrProtocol
    else
      do* assign_ (set_closeAfter (Some ErrProtocol)) in
      do* admission false in
      do* (let* deadline := in_ (T1 (oAPCI o)) in assign_ (set_drain deadline)) in
      ack true
  else
    let* m := lift (DecodeASDU (FASDU f) (oParams o)) in
    do* assign_ (set_received (Z.land (u16 (received s + 1)) 32767)) in
    do* assign_ (set_receivedCount (u64 (receivedCount s + 1))) in
    do* when (pending s =? 0) (let* deadline := in_ (T2 (oAPCI o)) in assign_ (set_t2 deadline)) in
    do* assign_ (set_pending (pending s + 1)) in
    let* h := lift (Message_GetHeader m) in
    let cause := match role with ServerRole => filter_reject (oFilter o) h | ClientRole => 0 end in
    if negb (cause =? 0) then reject (FASDU f) cause
    else
      do* when (W (oAPCI o) <=? pending s + 1) (ack false) in
      do* observe (FASDU f) leg in
      queueEvent_or_fail (mkEvent ASDUReceived (Some m) None None).

Definition receive (f : Frame) (leg : option nat) : M unit :=
  match Kind f with
  | UFrame => receiveU (Function_ f)
  | IFrame | SFrame =>
      let* st := get (λ s, started s) in
      if negb st then sfail ErrProtocol
      else
        do* acknowledge (Receive f) in
        match Kind f with
        | SFrame => sret tt
        | _ => receiveI f leg
        end
  | UnknownKind _ => sret tt
  end.

(** ** The select loop *)
Inductive incoming : Type :=
| InFrame (f : Frame) (at_ : Z) (leg : option nat)
| InError (e : iec_error).

Definition input (i : incoming) : M unit :=
  let* ca := get (λ s, closeAfter s) in
  if is_some ca then sret tt
  else match i with
       | InError e => sfail e
       | InFrame f at_ leg => do* activity at_ in receive f leg
       end.

(** The receive case is enabled only below the queue limit and inside the
    receive window. *)
Definition receiving (s : Session) : bool :=
  negb ((SendQueue o <=? length (out s))%nat ||
        (W (oAPCI o) <=? u64 (receivedCount s - acknowledgedCount s))).

(** The cases of the select statement. *)
Inductive event : Type :=
| EvDone
| EvStop (flushed : bool)
| EvWake
| EvOperation (start : bool) (result : nat)
| EvInput (i : incoming)
| EvWritten
| EvTimer.

(** [writeAPDU] after a successful [conn.Write]. *)
Definition written (w : wireWrite) : M unit :=
  let* l := get (λ s, wire s) in
  do* assign_ (set_wire (l ++ [wbytes w])) in
  when (negb (wreceiveCount w =? 0)) (assign_ (set_acknowledgedCount (wreceiveCount w))).

Definition writeFinalACK : M unit :=
  let* s := get id in
  let count := receivedCount s in
  if transportFailed s || (count =? acknowledgedCount s) then sret tt
  else
    let* b := lift (Frame_MarshalBinary (mkFrame SFrame 0 (Z.land (u16 count) 32767) 0 [])) in
    written (mkWire b false None count).

(** [flushClose]; [flushed] tells whether the writer finished before the
    close limit, the cancellation or a failure. *)
Definition flushClose (flushed : bool) : M unit :=
  do* admission false in
  let* s := get id in
  if transportFailed s || (receivedCount s =? acknowledgedCount s) then sret tt
  else when flushed writeFinalACK.

Definition handle (ev : event) : M unit :=
  match ev with
  | EvDone => sfail ErrContext
  | EvStop flushed =>
      let* ca := get (λ s, closeAfter s) in
      do* when (negb (is_some ca)) (flushClose flushed) in
      sfail ErrClosed
  | EvWake => sret tt
  | EvOperation start result => operation start result
  | EvInput i => input i
  | EvWritten =>
      let* s := get id in
      match writer s with
      | WDone (Some e) _ _ =>
          do* assign_ (set_writer WExited) in sfail (ErrStream e)
      | WDone None true _ =>
          do* assign_ (set_writer WIdle) in
          sfail (match closeAfter s with Some e => e | None => ErrClosed end)
      | WDone None false at_ =>
          do* assign_ (set_writer WIdle) in activity at_
      | _ => sret tt
      end
  | EvTimer => expire
  end.

(** [finish], with the waiters of the run loop's deferred function. *)
Definition finish (failure : iec_error) (s : Session) : Session :=
  let s := set_replies (replies s ++ ((λ w, (w, Some failure)) <$> startWait s) ++
                        ((λ w, (w, Some failure)) <$> stopWait s)) s in
  let s := set_gone true s in
  let s := set_accepting false s in
  let s := set_reason (Some failure) s in
  let s := set_sends [] s in
  let s := match generation s with
           | Some g => set_generations (<[g := true]> (generations s)) s
           | None => s
           end in
  set_terminal (Some (mkEvent Closed None (Some failure) None)) s.

(** The top of the loop. *)
Definition loop_head : M unit := do* expire in pump.

(** One iteration: the chosen case, then the top of the loop again. *)
Definition iterate (ev : event) : M unit := do* handle ev in loop_head.

Definition newSession : Session :=
  mkSession 0 0 0 0 false false false [] [] ∅ None None (Some (clock 0 + T3 (oAPCI o))) None None
    [] [] None 0 0 false false false None [] None [] [mkEvent Opened None None None] None
    [] [] 1 WIdle [] [] [].

(** ** Steps

    Between two selections of the state goroutine the other goroutines run:
    the application sends, the writer takes, claims and writes an APDU, the
    dispatcher takes an event, the reader meets an error. *)
Definition claimWire (ptr : nat) (w : wireWrite) (at_ : Z) (s : Session) : Session :=
  set_writer (WWriting w at_)
    (set_pendingTestCon (if decide (pendingTestCon s = Some ptr) then None else pendingTestCon s) s).

(** A frame as the reader delivers it. *)
Definition readable (f : Frame) : Prop := frame_typed f ∧ is_ok (Frame_MarshalBinary f) = true.

(** The errors of [ReadFrame]. *)
Definition reader_error (e : iec_error) : Prop := e = ErrMalformed ∨ ∃ x, e = ErrStream x.

Definition enabled (s : Session) (ev : event) : Prop :=
  match ev with
  | EvOperation _ _ => role = ClientRole
  | EvInput (InFrame f _ _) => receiving s = true ∧ readable f
  | EvInput (InError e) => receiving s = true ∧ reader_error e
  | EvWritten => ∃ e c at_, writer s = WDone e c at_
  | EvStop true => ∀ w at_, writer s ≠ WWriting w at_
  | _ => True
  end.

(** A message whose fields are values of their Go types. *)
Definition sendable (m : Message) : Prop :=
  match m with
  | ASDUMessage a => asdu_typed a
  | RawMessage r => raw_typed r
  | NilMessage => True
  end.

(** An ASDU handed to admission by the encoder. *)
Definition encoded (b : list Z) : Prop :=
  ∃ m, sendable m ∧ Message_MarshalBinary (oParams o) m = Ok b.

Inductive step : Session → Session → Prop :=
| step_iterate ev s s' :
    gone s = false → enabled s ev → iterate ev s = (Ok tt, s') → step s s'
| step_fail ev s e s' :
    gone s = false → enabled s ev → iterate ev s = (Err e, s') → step s (finish e s')
| step_Send m s r s' : sendable m → Session_Send m s = (r, s') → step s s'
| step_admitFile ctxErr g b s r s' :
    encoded b → admitFileLocked ctxErr g b s = (r, s') → step s s'
| step_take s ptr rest :
    gone s = false → writer s = WIdle → out s = ptr :: rest →
    step s (set_writer (WTaken ptr) (set_out rest s))
| step_claim s ptr w at_ :
    gone s = false → writer s = WTaken ptr → wires s !! ptr = Some w →
    step s (claimWire ptr w at_ s)
| step_written s w at_ s' :
    gone s = false → writer s = WWriting w at_ → written w s = (Ok tt, s') →
    step s (set_writer (WDone None (wcloseAfter w) at_) s')
| step_write_error s w at_ e :
    gone s = false → writer s = WWriting w at_ →
    step s (set_transportFailed true (set_writer (WDone (Some e) (wcloseAfter w) at_) s))
| step_read_error s : gone s = false → step s (set_transportFailed true s)
| step_dispatch s e rest : events s = e :: rest → step s (set_events rest s).

Definition reachable (s : Session) : Prop := star step newSession s.

(** The options [normalized] accepts. *)
Definition options_ok : Prop :=
  APCI_Validate (oAPCI o) = None ∧ Params_Validate (oParams o) = None ∧
  (1 ≤ SendQueue o)%nat ∧ (1 ≤ EventQueue o)%nat.

End Session.
