(* ===== verification/Iec104SessionInv.v ===== *)
(** * Properties of the APCI session

    The invariant of a running session (windows, timers, transfer states,
    queues, numbering, acknowledgement accounting and the order of admitted
    data) and its preservation by every step, with the theorems read off it. *)
From S2P Require Import Prelude Iec104Types Iec104Time Iec104Elements Iec104Asdu Iec104Frame Iec104Session.
From stdpp Require Import sorting.
From Stdlib Require Import Sorted.

#[local] Open Scope Z_scope.

(** ** Reasoning about handlers *)
Definition wp {A} (m : M A) (Q : A → Session → Prop) (E : iec_error → Session → Prop) (s : Session) : Prop :=
  match m s with
  | (Ok a, s') => Q a s'
  | (Err e, s') => E e s'
  | _ => False
  end.

Lemma wp_bind {A B} (m : M A) (k : A → M B) Q E s :
  wp m (λ a, wp (k a) Q E) E s → wp (sbind m k) Q E s.
Proof. unfold wp, sbind. by destruct (m s) as [[] ?]. Qed.

Lemma wp_mono {A} (m : M A) (Q Q' : A → Session → Prop) (E E' : iec_error → Session → Prop) s :
  wp m Q E s → (∀ a s', Q a s' → Q' a s') → (∀ e s', E e s' → E' e s') → wp m Q' E' s.
Proof. unfold wp. destruct (m s) as [[] ?]; naive_solver. Qed.

Lemma wp_eq {A} (m : M A) Q E s a s' : m s = (Ok a, s') → Q a s' → wp m Q E s.
Proof. unfold wp. by intros ->. Qed.

Lemma wp_ret {A} (a : A) (Q : A → Session → Prop) E s : Q a s → wp (sret a) Q E s.
Proof. done. Qed.
Lemma wp_fail {A} e (Q : A → Session → Prop) (E : iec_error → Session → Prop) s : E e s → wp (sfail e) Q E s.
Proof. done. Qed.
Lemma wp_get {A} (f : Session → A) (Q : A → Session → Prop) E s : Q (f s) s → wp (get f) Q E s.
Proof. done. Qed.
Lemma wp_assign f (Q : unit → Session → Prop) E s : Q tt (f s) → wp (assign_ f) Q E s.
Proof. done. Qed.

(** ** Interleavings

    [interleaving l1 l2 l]: [l] has the elements of [l1] and of [l2], each list
    in its order and each element once. *)
Inductive interleaving {A} : list A → list A → list A → Prop :=
| il_nil : interleaving [] [] []
| il_left x l1 l2 l : interleaving l1 l2 l → interleaving (l1 ++ [x]) l2 (l ++ [x])
| il_right x l1 l2 l : interleaving l1 l2 l → interleaving l1 (l2 ++ [x]) (l ++ [x]).

Lemma interleaving_perm {A} (l1 l2 l : list A) : interleaving l1 l2 l → Permutation l (l1 ++ l2).
Proof.
  induction 1 as [|x l1 l2 l _ IH|x l1 l2 l _ IH]; [done|rewrite IH..].
  - rewrite <- !app_assoc. apply Permutation_app_head, Permutation_app_comm.
  - by rewrite app_assoc.
Qed.

Lemma interleaving_one {A} (l1 l : list A) : interleaving l1 [] l → l = l1.
Proof.
  intros H. remember [] as l2 eqn:E. induction H as [|x l1 l2 l _ IH|x l1 l2 l _ _]; [done|by rewrite (IH E)|].
  by destruct l2.
Qed.

(** ** Queue and wire history *)
Definition testcon_frame : Frame := mkFrame UFrame 0 0 TestFRCon [].
Definition testcon_bytes : list Z := [0x68; 4; TestFRCon; 0; 0; 0].

(** The frame a queued APDU carries, and the receive count behind its N(R). *)
Definition wire_ok (w : wireWrite) : Prop :=
  0 ≤ wreceiveCount w < 2 ^ 64 ∧
  ∃ f, frame_typed f ∧ Frame_MarshalBinary f = Ok (wbytes w) ∧
    match Kind f with
    | IFrame | SFrame => Receive f = wreceiveCount w mod 32768
    | _ => wreceiveCount w = 0
    end.

(** N(S) and payload of the I frames among the queued APDUs. *)
Definition wire_iframe (w : wireWrite) : option (Z * list Z) :=
  match DecodeFrame (wbytes w) with
  | Ok f => match Kind f with IFrame => Some (Send f, FASDU f) | _ => None end
  | _ => None
  end.
Definition iframes (ws : list wireWrite) : list (Z * list Z) := omap wire_iframe ws.

Definition numbered (ws : list wireWrite) (next : Z) : Prop :=
  fst <$> iframes ws = (λ i, Z.of_nat i mod 32768) <$> seq 0 (length (iframes ws)) ∧
  next = Z.of_nat (length (iframes ws)) mod 32768.

(** What the writer holds. *)
Definition in_flight (ws : list wireWrite) (wr : Writer) : list wireWrite :=
  match wr with
  | WTaken ptr => option_list (ws !! ptr)
  | WWriting w _ => [w]
  | _ => []
  end.

(** The APDU of the writer that has left the queue and is not on the wire. *)
Definition unwritten (wr : Writer) : nat :=
  match wr with WTaken _ | WWriting _ _ | WDone (Some _) _ _ => 1 | _ => 0 end.

(** Receive counts not yet on the wire: what acknowledgements still have to
    cover, in the order they will. *)
Definition lag (rc c : Z) : Z := u64 (rc - c).
Definition counts (ws : list wireWrite) (wr : Writer) (q : list nat) : list Z :=
  filter (λ c, c ≠ 0) (wreceiveCount <$> (in_flight ws wr ++ omap (λ p, ws !! p) q)).

Record queue_ok (ws : list wireWrite) (q : list nat) (ptc : option nat) (wr : Writer)
    (rc ac : Z) (written : list (list Z)) (w : Z) : Prop := {
  q_fifo : q = seq (length ws - length q) (length q);
  q_len : (length written + unwritten wr + length q = length ws)%nat;
  q_wires : Forall wire_ok ws;
  q_taken : match wr with
            | WTaken p => p = length written
            | WWriting w _ => wbytes <$> ws !! length written = Some (wbytes w) ∧ 0 ≤ wreceiveCount w < 2 ^ 64
            | _ => True end;
  q_written : written = take (length written) (wbytes <$> ws);
  q_testcon : ∀ p, ptc = Some p →
    (length written ≤ p)%nat ∧ (∀ w at_, wr = WWriting w at_ → (length written < p)%nat) ∧
    ∃ w, ws !! p = Some w ∧ wbytes w = testcon_bytes ∧ wcloseAfter w = false;
  q_counts : 0 ≤ rc < 2 ^ 64 ∧ 0 ≤ ac < 2 ^ 64 ∧ lag rc ac ≤ w;
  q_sorted : StronglySorted (λ a b, lag rc b ≤ lag rc a) (ac :: counts ws wr q)
}.

Lemma u64_range z : 0 ≤ u64 z < 2 ^ 64.
Proof. apply Z.mod_pos_bound. lia. Qed.

Lemma lag_self rc : lag rc rc = 0.
Proof. unfold lag. by rewrite Z.sub_diag. Qed.

Lemma lag_succ rc c : lag rc c < 2 ^ 64 - 1 → lag (u64 (rc + 1)) c = lag rc c + 1.
Proof. unfold lag, u64. change (2 ^ 64) with 18446744073709551616. intros. modlia. Qed.

(** ** Numbering *)
Lemma iframes_app ws w : iframes (ws ++ [w]) = iframes ws ++ option_list (wire_iframe w).
Proof. unfold iframes. rewrite omap_app. cbn. by destruct (wire_iframe w). Qed.

Lemma wire_iframe_frame f b ca leg c : frame_typed f → Frame_MarshalBinary f = Ok b →
  wire_iframe (mkWire b ca leg c) = match Kind f with IFrame => Some (Send f, FASDU f) | _ => None end.
Proof.
  intros Hf H. unfold wire_iframe. cbn [wbytes].
  by apply frame_encode_decode in H as (_ & _ & -> & _).
Qed.

Lemma numbered_other ws w next : wire_iframe w = None → numbered ws next → numbered (ws ++ [w]) next.
Proof. unfold numbered. intros Hw. by rewrite iframes_app, Hw, app_nil_r. Qed.

Lemma numbered_next ws w next payload : 0 ≤ next → wire_iframe w = Some (next, payload) →
  numbered ws next → numbered (ws ++ [w]) (Z.land (u16 (next + 1)) 32767).
Proof.
  unfold numbered. intros Hn Hw [Hs He]. rewrite iframes_app, Hw. cbn [option_list].
  rewrite length_app, fmap_app, Hs. cbn [length fmap list_fmap fst]. rewrite Nat.add_comm.
  cbn [Nat.add]. rewrite seq_S, fmap_app. cbn [fmap list_fmap Nat.add]. rewrite <- He.
  split; [done|]. rewrite (Z.land_ones _ 15) by lia. unfold u16. change (2 ^ 15) with 32768.
  rewrite Nat2Z.inj_succ. modlia.
Qed.

(** ** The writer's queue *)
Lemma counts_push ws wr q w : match wr with WTaken p => (p < length ws)%nat | _ => True end →
  Forall (λ p, (p < length ws)%nat) q →
  counts (ws ++ [w]) wr (q ++ [length ws]) =
  counts ws wr q ++ (if decide (wreceiveCount w = 0) then [] else [wreceiveCount w]).
Proof.
  intros Hwr Hq. unfold counts.
  assert (in_flight (ws ++ [w]) wr = in_flight ws wr) as ->.
  { destruct wr; cbn; try done. by rewrite lookup_app_l. }
  assert (omap (λ p, (ws ++ [w]) !! p) (q ++ [length ws]) = omap (λ p, ws !! p) q ++ [w]) as ->.
  { rewrite omap_app. f_equal.
    - apply list_omap_ext. apply Forall2_same_length_lookup_2; [done|].
      intros i p p' Hp Hp'. simplify_eq. rewrite lookup_app_l; [done|]. exact (Forall_lookup_1 _ _ _ _ Hq Hp).
    - cbn. by rewrite list_lookup_middle. }
  rewrite app_assoc, fmap_app, filter_app. cbn. f_equal.
  unfold filter, list_filter. repeat case_decide; done.
Qed.

Lemma queue_bounds ws q ptc wr rc ac wn w : queue_ok ws q ptc wr rc ac wn w →
  Forall (λ p, (p < length ws)%nat) q ∧
  match wr with WTaken p => (p < length ws)%nat | _ => True end.
Proof.
  intros [Hf Hl _ Ht _ _ _ _]. split.
  - rewrite Hf. apply Forall_forall. intros p Hp. apply elem_of_seq in Hp. lia.
  - destruct wr; cbn in *; try done. lia.
Qed.

(** A new APDU at the end of the queue. *)
Lemma queue_push ws q ptc wr rc ac wn wd w :
  queue_ok ws q ptc wr rc ac wn wd → wire_ok w → wreceiveCount w = 0 ∨ wreceiveCount w = rc →
  queue_ok (ws ++ [w]) (q ++ [length ws]) ptc wr rc ac wn wd.
Proof.
  intros Hq Hw Hc. pose proof (queue_bounds _ _ _ _ _ _ _ _ Hq) as [Hb Hb'].
  destruct Hq as [Hf Hl Hws Ht Hwr Hp Hcn Hs]. split.
  - rewrite !length_app. cbn [length].
    replace (length ws + 1 - (length q + 1))%nat with (length ws - length q)%nat by lia.
    rewrite (Nat.add_comm (length q)). cbn [Nat.add]. rewrite seq_S, <- Hf. do 2 f_equal. lia.
  - rewrite !length_app. cbn. lia.
  - apply Forall_app. split; [done|by constructor].
  - destruct wr; try done. destruct Ht as [Ht ?]. split; [|done]. rewrite <- Ht.
    rewrite lookup_app_l; [done|]. cbn in Hl. lia.
  - rewrite fmap_app, take_app_le; [done|]. rewrite length_fmap. lia.
  - intros p Hp'. destruct (Hp p Hp') as (? & ? & w' & Hw' & ?). split; [done|]. split; [done|].
    exists w'. split; [|done]. by apply lookup_app_l_Some.
  - done.
  - rewrite counts_push by done. case_decide; [by rewrite app_nil_r|].
    rewrite app_comm_cons. apply StronglySorted_app_2; [|done|by constructor; constructor].
    intros a b _ Hb2. apply list_elem_of_singleton in Hb2 as ->.
    destruct Hc as [Hc|Hc]; [done|]. rewrite Hc, lag_self. unfold lag. apply u64_range.
Qed.

(** The new APDU is a pending TESTFR confirmation. *)
Lemma queue_slot ws q ptc wr rc ac wn wd w :
  queue_ok (ws ++ [w]) (q ++ [length ws]) ptc wr rc ac wn wd →
  wbytes w = testcon_bytes → wcloseAfter w = false →
  queue_ok (ws ++ [w]) (q ++ [length ws]) (Some (length ws)) wr rc ac wn wd.
Proof.
  intros [Hf Hl Hws Ht Hwr Hp Hcn Hs] Hb Hca. split; try done.
  rewrite !length_app in Hl. cbn in Hl. intros p [= <-].
  split; [lia|]. split; [intros ? ? ->; cbn in Hl; lia|].
  exists w. by rewrite list_lookup_middle.
Qed.

(** One more accepted receive. *)
Lemma queue_receive ws q ptc wr rc ac wn wd wd' :
  queue_ok ws q ptc wr rc ac wn wd → lag rc ac + 1 ≤ wd' → wd' ≤ 32767 →
  queue_ok ws q ptc wr (u64 (rc + 1)) ac wn wd'.
Proof.
  intros [Hf Hl Hws Ht Hwr Hp (Hrc & Hac & Hw) Hs] Hlag Hwd.
  assert (∀ c, lag rc c ≤ lag rc ac → lag (u64 (rc + 1)) c = lag rc c + 1) as Hsucc.
  { intros c Hc. apply lag_succ. change (2 ^ 64) with 18446744073709551616. lia. }
  split; try done.
  - split; [apply u64_range|]. split; [done|]. rewrite Hsucc; lia.
  - apply StronglySorted_cons in Hs as [Hall Hs]. apply StronglySorted_cons.
    assert (Forall (λ c, lag rc c ≤ lag rc ac) (counts ws wr q)) as Hall' by done. split.
    + eapply Forall_impl; [exact Hall'|]. intros c Hc. cbv beta in *. rewrite !Hsucc by (done || lia). lia.
    + clear Hall. induction Hs as [|c cs Hs IH Hc]; [constructor|].
      apply Forall_cons in Hall' as [Hc' Hcs']. constructor; [by apply IH|].
      apply Forall_forall. intros x Hx. rewrite Forall_forall in Hc, Hcs'.
      rewrite !Hsucc by auto. specialize (Hc x Hx). cbv beta in Hc. lia.
Qed.

(** The head of the queue goes to the writer. *)
Lemma queue_take ws p q ptc rc ac wn wd :
  queue_ok ws (p :: q) ptc WIdle rc ac wn wd → queue_ok ws q ptc (WTaken p) rc ac wn wd.
Proof.
  intros [Hf Hl Hws Ht Hwr Hp Hcn Hs]. cbn in Hl, Hf. injection Hf as Hp0 Hf.
  split; cbn [unwritten]; try done; try lia.
  - rewrite Hf at 1. f_equal. lia.
  - intros p' Hp'. destruct (Hp p' Hp') as (? & _ & ?). split; [done|]. by split.
  - unfold counts in *. cbn in *. destruct (ws !! p); exact Hs.
Qed.

(** The writer reads what the pointer holds and gives up the shared slot. *)
Lemma queue_claim ws q ptc p w at_ rc ac wn wd :
  queue_ok ws q ptc (WTaken p) rc ac wn wd → ws !! p = Some w →
  queue_ok ws q (if decide (ptc = Some p) then None else ptc) (WWriting w at_) rc ac wn wd.
Proof.
  intros [Hf Hl Hws Ht Hwr Hp Hcn Hs] Hw. subst p. split; try done.
  - split; [by rewrite Hw|]. rewrite Forall_forall in Hws. apply Hws.
    by eapply list_elem_of_lookup_2.
  - intros p' Hp'. case_decide; [done|]. destruct (Hp p' Hp') as (? & _ & ?). split; [done|]. split; [|done].
    intros _ _ _. assert (p' ≠ length wn) by congruence. lia.
  - unfold counts in *. cbn in *. by rewrite Hw in Hs.
Qed.

(** The write succeeds. *)
Lemma queue_written ws q ptc w at_ at' ca rc ac wn wd :
  queue_ok ws q ptc (WWriting w at_) rc ac wn wd →
  queue_ok ws q ptc (WDone None ca at') rc (if wreceiveCount w =? 0 then ac else wreceiveCount w)
    (wn ++ [wbytes w]) wd.
Proof.
  intros [Hf Hl Hws [Ht Hc] Hwr Hp (Hrc & Hac & Hlag) Hs]. cbn in Hl. split; cbn [unwritten]; try done.
  - rewrite length_app. cbn. lia.
  - rewrite length_app. cbn [length]. rewrite Nat.add_1_r.
    rewrite (take_S_r _ _ (wbytes w)); [by rewrite <- Hwr|]. by rewrite list_lookup_fmap.
  - intros p Hp'. destruct (Hp p Hp') as (? & H2 & ?). specialize (H2 w at_ eq_refl).
    rewrite length_app. cbn. split; [lia|]. done.
  - unfold counts in Hs. cbn in Hs. split; [done|]. case_if; bool_facts; [done|]. split; [done|].
    rewrite (decide_True (P := wreceiveCount w ≠ 0)) in Hs by done.
    apply StronglySorted_cons in Hs as [Hall _]. apply Forall_cons in Hall as [? _]. lia.
  - unfold counts in *. cbn in *. apply StronglySorted_cons in Hs as [Hall Hs].
    case_if; bool_facts.
    + rewrite (decide_False (P := wreceiveCount w ≠ 0)) in Hall, Hs by (intros []; done).
      by apply StronglySorted_cons.
    + by rewrite (decide_True (P := wreceiveCount w ≠ 0)) in Hs by done.
Qed.

(** The write fails, or its result is taken. *)
Lemma queue_write_error ws q ptc w at_ at' e ca rc ac wn wd :
  queue_ok ws q ptc (WWriting w at_) rc ac wn wd →
  queue_ok ws q ptc (WDone (Some e) ca at') rc ac wn wd.
Proof.
  intros [Hf Hl Hws [Ht Hc] Hwr Hp Hcn Hs]. split; try done.
  - intros p Hp'. destruct (Hp p Hp') as (? & _ & ?). split; [done|]. done.
  - unfold counts in *. cbn in *. apply StronglySorted_cons in Hs as [Hall Hs]. apply StronglySorted_cons.
    case_decide; [apply Forall_cons in Hall as [_ Hall]; apply StronglySorted_cons in Hs as [_ Hs]|]; done.
Qed.

Lemma queue_result ws q ptc ca at_ rc ac wn wd :
  queue_ok ws q ptc (WDone None ca at_) rc ac wn wd → queue_ok ws q ptc WIdle rc ac wn wd.
Proof.
  intros [Hf Hl Hws Ht Hwr Hp Hcn Hs]. split; try done.
  intros p Hp'. destruct (Hp p Hp') as (? & _ & ?). done.
Qed.

(** ** The invariant *)
Section Invariant.
Context (o : Options) (role : Role) (clock : nat → Z).

#[local] Notation k := (K (oAPCI o)).
#[local] Notation w := (W (oAPCI o)).

Definition payload_ok (b : list Z) : Prop := bytes_ok b ∧ (0 < length b ≤ MaxASDUSize)%nat.

(** No received ASDU can be rejected by the filter. *)
Definition unfiltered : Prop :=
  role = ClientRole ∨ (CommonAddresses (oFilter o) = [] ∧ ApplicationTypes (oFilter o) = []).

(** A recorded rejection is one the filter of a server demands for a request
    that was received. *)
Definition rejection_ok (x : list Z * Z * bool) : Prop :=
  let '(request, cause, _) := x in
  role = ServerRole ∧ ∃ m h, DecodeASDU request (oParams o) = Ok m ∧ Message_GetHeader m = Ok h ∧
    cause = filter_reject (oFilter o) h ∧ cause ≠ 0.

(** The octets of a rejection, and those of the rejections sent at once. *)
Definition rejection (request : list Z) (cause : Z) : list Z :=
  match request !! 2%nat with
  | Some r2 => <[2%nat := Z.lor (Z.lor (Z.land r2 0x80) 0x40) cause]> request
  | None => request
  end.
Definition at_once (x : list Z * Z * bool) : option (list Z) :=
  let '(request, cause, now) := x in if now then Some (rejection request cause) else None.

(** Admitted data leaves in order: what was admitted is what went out as
    I frames, followed by what still waits; the other I frames are the
    rejections sent at once, in order. *)
Definition in_order (adm : list (list Z)) (waiting : list queuedASDU) (ws : list wireWrite)
    (rej : list (list Z * Z * bool)) : Prop :=
  ∃ pumped, adm = pumped ++ (qbytes <$> waiting) ∧
    interleaving pumped (omap at_once rej) (snd <$> iframes ws).

(** The invariant, with the bound on unacknowledged receives as a parameter:
    inside the receive handler it is exceeded by one. *)
Record core (n : Z) (s : Session) : Prop := {
  i_sent : 0 ≤ sent s < 32768;
  i_received : 0 ≤ received s < 32768;
  i_acked : 0 ≤ acked s < 32768;
  i_window : outstanding s ≤ k;
  i_t1 : t1 s = None ↔ outstanding s = 0;
  i_pending : 0 ≤ pending s ≤ n;
  i_t2 : t2 s = None ↔ pending s = 0;
  i_stopped : started s = false →
    outstanding s = 0 ∧ pending s = 0 ∧ sends s = [] ∧ peerStop s = false ∧ localStop s = false;
  i_accepting : accepting s =
    started s && negb (peerStop s) && negb (localStop s) && negb (is_some (closeAfter s));
  i_server : role = ServerRole →
    startWait s = [] ∧ localStop s = false ∧ u s !! StartDTCon = None ∧ u s !! StopDTCon = None;
  i_client : role = ClientRole → peerStop s = false;
  i_starting : is_some (u s !! StartDTCon) = negb (bool_decide (startWait s = []));
  i_starting' : is_some (u s !! StartDTCon) = true → started s = false;
  i_stopping : is_some (u s !! StopDTCon) = true → localStop s = true ∧ sends s = [];
  i_sends : (length (sends s) ≤ SendQueue o)%nat;
  i_payloads : Forall (λ q, payload_ok (qbytes q)) (sends s);
  i_events : (length (events s) ≤ EventQueue o)%nat;
  i_alive : gone s = false;
  i_closing : closeAfter s = None ∨ closeAfter s = Some ErrProtocol;
  i_count : received s = receivedCount s mod 32768;
  i_queue : queue_ok (wires s) (out s) (pendingTestCon s) (writer s)
              (receivedCount s) (acknowledgedCount s) (wire s) w;
  i_numbered : numbered (wires s) (sent s);
  i_order : in_order (admitted s) (sends s) (wires s) (rejected s);
  i_rejected : Forall rejection_ok (rejected s)
}.

(** Compare invariants field by field. *)
Ltac core_fields H :=
  destruct H; unfold outstanding in *; cbn in *; split; unfold outstanding; cbn; try done.

(** Control frames the session may still queue before it next receives. *)
Definition b2n (b : bool) : nat := if b then 1 else 0.
Definition budget (s : Session) : nat :=
  (b2n (0 <? pending s)%Z + b2n (negb (is_some (u s !! TestFRCon))) +
   b2n (negb (is_some (u s !! StartDTCon))) + b2n (negb (is_some (u s !! StopDTCon))) +
   b2n (peerStop s))%nat.

Definition room (s : Session) : Prop := (length (out s) + budget s ≤ SendQueue o + 5)%nat.

Definition Inv (s : Session) : Prop := core (w - 1) s ∧ room s.

Lemma budget_le s : (budget s ≤ 5)%nat.
Proof. unfold budget, b2n. repeat case_if; lia. Qed.

Lemma room_short s : (length (out s) ≤ SendQueue o)%nat → room s.
Proof. pose proof (budget_le s). unfold room. lia. Qed.

(** ** Emitting a frame *)
Definition pushed (b : list Z) (ca : bool) (leg : option nat) (count : Z) (s : Session) : Session :=
  set_out (out s ++ [length (wires s)]) (set_wires (wires s ++ [mkWire b ca leg count]) s).

Definition tick (s : Session) : Session := set_ticks (S (ticks s)) s.

(** The session after an emission that needs a new slot. *)
Definition emitted (b : list Z) (ca : bool) (leg : option nat) (count : Z) (s : Session) : Session :=
  set_idle (Some (clock (ticks s) + T3 (oAPCI o))) (tick (pushed b ca leg count s)).

Lemma emitLeg_eq f ca leg b s : Frame_MarshalBinary f = Ok b → is_testcon f = false →
  (length (out s) < SendQueue o + 8)%nat →
  emitLeg o clock f ca leg s =
  (Ok tt, emitted b ca leg (match Kind f with IFrame | SFrame => receivedCount s | _ => 0 end) s).
Proof.
  intros Hb Ht Hl. unfold emitLeg, enqueueWire, sbind, lift, get. rewrite Hb, Ht. cbn [id].
  rewrite (proj2 (Nat.ltb_lt _ _)) by done. done.
Qed.

(** What an emission keeps. *)
Lemma core_emitted n b ca leg f s :
  core n s → frame_typed f → Frame_MarshalBinary f = Ok b →
  match Kind f with IFrame => False | SFrame => Receive f = received s | UFrame => True | _ => False end →
  core n (emitted b ca leg (match Kind f with IFrame | SFrame => receivedCount s | _ => 0 end) s).
Proof.
  intros H Hf Hb Hk. core_fields H.
  - pose proof i_queue0 as Hq. destruct i_queue0 as [_ _ _ _ _ _ (Hrc & _) _].
    apply queue_push; [done| |destruct (Kind f); auto].
    split; cbn [wreceiveCount wbytes]; [destruct (Kind f); lia|].
    exists f. split; [done|]. split; [done|]. destruct (Kind f); try done. congruence.
  - apply numbered_other; [|done]. erewrite wire_iframe_frame by done. by destruct (Kind f).
  - destruct i_order0 as (pumped & ? & ?). exists pumped. rewrite iframes_app.
    erewrite wire_iframe_frame by done. by destruct (Kind f); try done; cbn; rewrite app_nil_r.
Qed.

(** ** Sequence arithmetic *)
Lemma land_u16 z : Z.land (u16 z) 32767 = z mod 32768.
Proof. rewrite (Z.land_ones _ 15) by lia. unfold u16. change (2 ^ 15) with 32768. modlia. Qed.

Lemma seqDistance_mod a b : seqDistance a b = (b - a) mod 32768.
Proof. apply land_u16. Qed.

Lemma outstanding_mod s : outstanding s = (sent s - acked s) mod 32768.
Proof. apply seqDistance_mod. Qed.

Lemma core_weaken n m s : n ≤ m → core n s → core m s.
Proof. intros Hnm H. core_fields H. lia. Qed.

(** ** Acknowledging received data *)
Definition after_ack (b : list Z) (ca : bool) (s : Session) : Session :=
  set_t2 None (set_pending 0 (emitted b ca None (receivedCount s) s)).

Lemma S_frame r : 0 ≤ r < 32768 →
  ∃ b, Frame_MarshalBinary (mkFrame SFrame 0 r 0 []) = Ok b ∧ frame_typed (mkFrame SFrame 0 r 0 []).
Proof.
  intros Hr. eexists. split.
  - unfold Frame_MarshalBinary. cbn [Send Receive Kind]. rewrite (proj2 (Z.ltb_ge 32767 r)) by lia. done.
  - repeat split; cbn; try lia; try constructor; unfold is_u16; lia.
Qed.

Lemma ack_eq n ca s : core n s → (length (out s) < SendQueue o + 8)%nat →
  ∃ b, ack o clock ca s = (Ok tt, after_ack b ca s) ∧ core 0 (after_ack b ca s).
Proof.
  intros H Hl. destruct (S_frame (received s)) as (b & Hb & Hf); [apply H|].
  exists b. split.
  - unfold ack, emit, sbind, get. rewrite (emitLeg_eq _ _ _ b) by done. done.
  - assert (core n (emitted b ca None (receivedCount s) s)) as He
      by exact (core_emitted n b ca None _ s H Hf Hb eq_refl).
    core_fields He. intros Hs. by destruct (i_stopped0 Hs) as (? & _ & ?).
Qed.

Lemma room_ack b ca s : room s → 0 < pending s → room (after_ack b ca s).
Proof.
  unfold room, budget. cbn. rewrite length_app. cbn.
  intros Hr Hp. rewrite (proj2 (Z.ltb_lt _ _)) in Hr by lia. cbn in Hr. lia.
Qed.

(** ** Unnumbered frames *)
Lemma U_frame f : UFunction_valid f = true →
  Frame_MarshalBinary (mkFrame UFrame 0 0 f []) = Ok [0x68; 4; f; 0; 0; 0] ∧
  frame_typed (mkFrame UFrame 0 0 f []).
Proof.
  intros Hv. split.
  - unfold Frame_MarshalBinary. cbn. by rewrite Hv.
  - apply UFunction_valid_cases in Hv.
    repeat split; cbn; try lia; try constructor; unfold is_u8; lia.
Qed.

Lemma core_U n f s : core n s → UFunction_valid f = true → f ≠ TestFRCon →
  core n (emitted [0x68; 4; f; 0; 0; 0] false None 0 s).
Proof.
  intros H Hv Hn. destruct (U_frame f Hv) as [Hb Hf].
  exact (core_emitted n _ false None _ s H Hf Hb I).
Qed.

Lemma emitU_eq f s : UFunction_valid f = true → f ≠ TestFRCon → (length (out s) < SendQueue o + 8)%nat →
  emit o clock (mkFrame UFrame 0 0 f []) false s = (Ok tt, emitted [0x68; 4; f; 0; 0; 0] false None 0 s).
Proof.
  intros Hv Hn Hl. apply (emitLeg_eq (mkFrame UFrame 0 0 f [])); [by apply U_frame| |done].
  cbn. by apply Z.eqb_neq.
Qed.

(** The session after an act whose confirmation is supervised. *)
Definition after_act (f con : Z) (s : Session) : Session :=
  let e := emitted [0x68; 4; f; 0; 0; 0] false None 0 s in
  set_u (<[con := clock (ticks e) + T1 (oAPCI o)]> (u (tick e))) (tick e).

Definition act_con (f con : Z) : Prop :=
  (f = StartDTAct ∧ con = StartDTCon) ∨ (f = StopDTAct ∧ con = StopDTCon) ∨
  (f = TestFRAct ∧ con = TestFRCon).

Lemma sendU_act f con s : act_con f con → (length (out s) < SendQueue o + 8)%nat →
  sendU o clock f s = (Ok tt, after_act f con s).
Proof.
  intros Hc Hl. unfold sendU, sbind.
  rewrite emitU_eq; [|destruct Hc as [[-> _]|[[-> _]|[-> _]]]; done..|done].
  assert (supervise o clock con (emitted [104; 4; f; 0; 0; 0] false None 0 s) = (Ok tt, after_act f con s)) as Hs
    by reflexivity.
  by destruct Hc as [[-> ->]|[[-> ->]|[-> ->]]]; cbn -[supervise emitted after_act]; rewrite Hs.
Qed.

Lemma sendU_con f s : f = StartDTCon ∨ f = StopDTCon → (length (out s) < SendQueue o + 8)%nat →
  sendU o clock f s = (Ok tt, emitted [0x68; 4; f; 0; 0; 0] false None 0 s).
Proof.
  intros Hc Hl. unfold sendU, sbind.
  rewrite emitU_eq; [|destruct Hc as [-> | ->]; done..|done].
  destruct Hc as [-> | ->]; reflexivity.
Qed.

(** A TESTFR confirmation takes a slot of its own or shares the unsent one. *)
Lemma sendU_testcon n s : core n s → (length (out s) < SendQueue o + 8)%nat →
  ∃ s', sendU o clock TestFRCon s = (Ok tt, s') ∧ core n s' ∧
        (length (out s') ≤ S (length (out s)))%nat.
Proof.
  intros H Hl. destruct (U_frame TestFRCon) as [Hb Hf]; [done|].
  unfold sendU, emit, emitLeg, enqueueWire, sbind, lift, get. rewrite Hb.
  change (is_testcon (mkFrame UFrame 0 0 TestFRCon [])) with true. cbn [id].
  destruct (pendingTestCon s) as [p|] eqn:Hp.
  - pose proof (i_queue n s H) as Hq. destruct (q_testcon _ _ _ _ _ _ _ _ Hq p Hp) as (_ & _ & x & Hx & Hxb & Hxc).
    rewrite Hx. eexists. split; [reflexivity|]. split; [|cbn; lia].
    assert (<[p := mkWire testcon_bytes (wcloseAfter x || false) (wleg x) (wreceiveCount x)]> (wires s) = wires s) as Hid.
    { apply list_insert_id. rewrite Hx, orb_false_r, <- Hxb. by destruct x. }
    core_fields H; unfold testcon_bytes in Hid; rewrite Hid; done.
  - rewrite (proj2 (Nat.ltb_lt _ _)) by done. eexists. split; [reflexivity|].
    split; [|cbn; rewrite length_app; cbn; lia].
    pose proof (core_emitted n _ false None _ s H Hf Hb I) as He. core_fields He.
    by apply (queue_slot _ _ (pendingTestCon s)).
Qed.

(** ** Numbered frames *)
Context (Hopt : options_ok o).

Lemma opt_bounds : 1 ≤ k ≤ 32767 ∧ 1 ≤ w ≤ 32767 ∧ (1 ≤ SendQueue o)%nat ∧ (1 ≤ EventQueue o)%nat.
Proof.
  destruct Hopt as (Ha & _ & Hs & He). unfold APCI_Validate in Ha. case_if_in Ha; [done|].
  bool_facts. lia.
Qed.

Definition after_sendI (b : list Z) (leg : option nat) (s : Session) : Session :=
  let e := emitted b false leg (receivedCount s) s in
  let e := if outstanding s =? 0 then set_t1 (Some (clock (ticks e) + T1 (oAPCI o))) (tick e) else e in
  set_t2 None (set_pending 0 (set_sent (Z.land (u16 (sent s + 1)) 32767) e)).

Lemma I_frame ns nr p : 0 ≤ ns < 32768 → 0 ≤ nr < 32768 → payload_ok p →
  ∃ b, Frame_MarshalBinary (mkFrame IFrame ns nr 0 p) = Ok b ∧ frame_typed (mkFrame IFrame ns nr 0 p).
Proof.
  intros Hs Hr [Hp Hl]. eexists. split.
  - unfold Frame_MarshalBinary. cbn [Send Receive Kind Function_ FASDU].
    rewrite !(proj2 (Z.ltb_ge 32767 _)) by lia. cbn [orb guard_err].
    rewrite (proj2 (Nat.eqb_neq _ _)), (proj2 (Nat.ltb_ge _ _)) by lia. done.
  - repeat split; cbn; unfold is_u16; try lia; done.
Qed.

Lemma sendI_eq p leg s : 0 ≤ sent s < 32768 → 0 ≤ received s < 32768 → payload_ok p →
  (length (out s) < SendQueue o + 8)%nat →
  ∃ b, Frame_MarshalBinary (mkFrame IFrame (sent s) (received s) 0 p) = Ok b ∧
       sendI o clock p leg s = (Ok tt, after_sendI b leg s).
Proof.
  intros Hs Hr Hp Hl. destruct (I_frame (sent s) (received s) p) as (b & Hb & _); [done..|].
  exists b. split; [done|]. unfold sendI, sbind, get, when. cbn [id].
  rewrite (emitLeg_eq _ _ _ b) by done. cbn [Kind]. unfold after_sendI.
  by destruct (outstanding s =? 0).
Qed.

Lemma sublist_Forall {A} (P : A → Prop) l1 l2 : l1 `sublist_of` l2 → Forall P l2 → Forall P l1.
Proof. induction 1; intros Hl; [done|..]; apply Forall_cons in Hl as [? ?]; auto. Qed.

(** Sending one payload, with [rest] what still waits for admission and [rej]
    the record of rejections. *)
Lemma core_sendI n s p leg b rest rej :
  core n s → started s = true → outstanding s < k → payload_ok p →
  Frame_MarshalBinary (mkFrame IFrame (sent s) (received s) 0 p) = Ok b →
  sublist rest (sends s) →
  in_order (admitted s) rest (wires s ++ [mkWire b false leg (receivedCount s)]) rej → Forall rejection_ok rej →
  core 0 (after_sendI b leg (set_rejected rej (set_sends rest s))).
Proof.
  intros H Hst Ho Hp Hb Hrest Hord Hrej. pose proof opt_bounds as (Hk & _).
  rewrite outstanding_mod in Ho.
  assert (frame_typed (mkFrame IFrame (sent s) (received s) 0 p)) as Hf.
  { destruct (I_frame (sent s) (received s) p) as (? & _ & ?); [apply H|apply H|done|done]. }
  unfold after_sendI. cbv zeta. rewrite outstanding_mod.
  change (sent (set_rejected rej (set_sends rest s))) with (sent s).
  change (acked (set_rejected rej (set_sends rest s))) with (acked s).
  set (d := (sent s - acked s) mod 32768) in *.
  assert (((sent s + 1) mod 32768 - acked s) mod 32768 = d + 1) as Hd.
  { unfold d in *. destruct H. modlia. }
  assert (0 ≤ d) as Hd0 by (unfold d; modlia).
  pose proof (i_t1 _ _ H) as Ht1. rewrite outstanding_mod in Ht1. fold d in Ht1.
  set (x := mkWire b false leg (receivedCount s)) in *.
  assert (queue_ok (wires s ++ [x]) (out s ++ [length (wires s)]) (pendingTestCon s) (writer s)
            (receivedCount s) (acknowledgedCount s) (wire s) w) as Hq.
  { pose proof (i_queue _ _ H) as Hq. apply queue_push; [done| |by right].
    split; [apply Hq|]. eexists. split; [done|]. split; [done|]. apply H. }
  assert (numbered (wires s ++ [x]) ((sent s + 1) mod 32768)) as Hn.
  { rewrite <- land_u16. eapply numbered_next; [apply H|exact (wire_iframe_frame _ b false leg _ Hf Hb)|apply H]. }
  assert (is_some (u s !! StopDTCon) = true → localStop s = true ∧ rest = []) as Hstop.
  { intros Hu. destruct (i_stopping _ _ H Hu) as [? Hs]. split; [done|].
    rewrite Hs in Hrest. by apply sublist_nil_r in Hrest. }
  assert (length rest ≤ SendQueue o)%nat as Hlen.
  { pose proof (i_sends _ _ H). apply sublist_length in Hrest. lia. }
  assert (Forall (λ q, payload_ok (qbytes q)) rest) as Hpay
    by (by eapply sublist_Forall; [|apply H]).
  destruct H. unfold outstanding in *; cbn in *. rewrite Hst in *.
  destruct (d =? 0) eqn:Ed; bool_facts; split; rewrite ?outstanding_mod, ?land_u16; cbn;
    rewrite ?land_u16, ?Hst; try done; try lia; try modlia; rewrite Hd.
  - split; [done|lia].
  - rewrite Ht1. lia.
Qed.

(** A failure for want of room is the admission queue's, never the writer's. *)
Definition fails (e : iec_error) (s : Session) : Prop :=
  e = ErrQueueFull → length (sends s) = SendQueue o.

Lemma room_out s : room s → (length (out s) < SendQueue o + 8)%nat.
Proof. unfold room. lia. Qed.

(** Symbolic execution of a handler. *)
Ltac steps :=
  repeat (lazymatch goal with
          | |- wp (sbind _ _) _ _ _ => apply wp_bind
          | |- wp (sret _) _ _ _ => apply wp_ret
          | |- wp (sfail _) _ _ _ => apply wp_fail
          | |- wp (get _) _ _ _ => apply wp_get
          | |- wp (assign_ _) _ _ _ => apply wp_assign
          | |- wp (when _ _) _ _ _ => unfold when
          end; cbv beta; cbn [id]).

Lemma core_test n s : core n s → core n (after_act TestFRAct TestFRCon s).
Proof.
  intros H. pose proof (core_U n TestFRAct s H eq_refl ltac:(done)) as He.
  core_fields He; rewrite !lookup_insert_ne by done; done.
Qed.

Lemma room_test s : room s → is_some (u s !! TestFRCon) = false →
  room (after_act TestFRAct TestFRCon s).
Proof.
  unfold room, budget. cbn. rewrite length_app. intros Hr Hu. rewrite Hu in Hr.
  rewrite lookup_insert_eq, !lookup_insert_ne by done. cbn in *. lia.
Qed.

Lemma core_stopact n s : core n s → localStop s = true → sends s = [] →
  core n (after_act StopDTAct StopDTCon s).
Proof.
  intros H Hl Hs. pose proof (core_U n StopDTAct s H eq_refl ltac:(done)) as He.
  assert (role = ClientRole) as Hrole.
  { destruct role eqn:E; [done|]. destruct (i_server _ _ H E) as (_ & Hl' & _). congruence. }
  core_fields He; rewrite ?lookup_insert_eq, ?(lookup_insert_ne _ StopDTCon StartDTCon) by done; try done.
  rewrite Hrole. done.
Qed.

Lemma room_stopact s : room s → is_some (u s !! StopDTCon) = false →
  room (after_act StopDTAct StopDTCon s).
Proof.
  unfold room, budget. cbn. rewrite length_app. intros Hr Hu. rewrite Hu in Hr.
  rewrite lookup_insert_eq, !lookup_insert_ne by done. cbn in *. lia.
Qed.

Lemma core_tick n s : core n s → core n (tick s).
Proof. intros H. core_fields H. Qed.
Lemma core_idle n v s : core n s → core n (set_idle v s).
Proof. intros H. core_fields H. Qed.
Lemma core_replies n v s : core n s → core n (set_replies v s).
Proof. intros H. core_fields H. Qed.

Lemma wp_ack (Q : unit → Session → Prop) E n ca s :
  core n s → (length (out s) < SendQueue o + 8)%nat →
  (∀ b, core 0 (after_ack b ca s) → Q tt (after_ack b ca s)) → wp (ack o clock ca) Q E s.
Proof. intros H Hl HQ. destruct (ack_eq n ca s H Hl) as (b & He & Hc). eapply wp_eq; [done|auto]. Qed.

Lemma wp_expire s : Inv s → wp (expire o clock) (λ _, Inv) fails s.
Proof.
  intros [Hc Hr]. pose proof opt_bounds as (_ & Hw & _).
  unfold expire. apply wp_bind. unfold wp at 1, Now.
  generalize (clock (ticks s)). intros now. change (set_ticks (S (ticks s)) s) with (tick s).
  assert (core (w - 1) (tick s) ∧ room (tick s)) as [Hc' Hr'] by (split; [by apply core_tick|done]).
  revert Hc' Hr'. generalize (tick s). clear s Hc Hr. intros s Hc Hr. steps.
  case_if; [done|]. case_if; [done|]. apply wp_bind.
  assert (wp (when (due now (t2 s)) (ack o clock false)) (λ _, Inv) fails s) as Hack.
  { unfold when. case_if; [|by split].
    assert (0 < pending s) as Hp.
    { destruct (i_t2 _ _ Hc) as [_ H2]. pose proof (i_pending _ _ Hc).
      destruct (decide (pending s = 0)) as [E|]; [|lia]. by rewrite (H2 E) in *. }
    eapply wp_ack; [done|by apply room_out|]. intros b Hb. split.
    - eapply core_weaken; [|done]. lia.
    - by apply room_ack. }
  eapply wp_mono; [exact Hack| |done]. intros _ s' [Hc' Hr']. steps.
  case_if; [|by split]. case_if; steps.
  - split; [by apply core_idle|done].
  - eapply wp_eq; [apply (sendU_act TestFRAct TestFRCon)|].
    + by right; right.
    + by apply room_out.
    + split; [by apply core_test|by apply room_test].
Qed.

(** ** Sending *)
Lemma in_order_pump adm q rest ws x ns rej : wire_iframe x = Some (ns, qbytes q) →
  in_order adm (q :: rest) ws rej → in_order adm rest (ws ++ [x]) rej.
Proof.
  intros Hx (pumped & -> & Hil). exists (pumped ++ [qbytes q]).
  rewrite iframes_app, Hx, fmap_app. cbn. split; [by rewrite <- app_assoc|]. by apply il_left.
Qed.

Lemma wp_pump_loop fuel s : (length (sends s) < fuel)%nat → Inv s → started s = true →
  wp (pump_loop o clock fuel) (λ _ s', Inv s' ∧ started s' = true) fails s.
Proof.
  revert s. induction fuel as [|fuel IH]; intros s Hfuel [Hc Hr] Hst; [lia|].
  pose proof opt_bounds as (_ & Hw & _). cbn [pump_loop]. steps.
  case_if; [by steps|]. case_if; [by steps|].
  destruct (sends s) as [|q rest] eqn:Hs; [by steps|]. bool_facts. steps.
  pose proof (i_payloads _ _ Hc) as Hpay. rewrite Hs in Hpay. apply Forall_cons in Hpay as [Hq _].
  destruct (sendI_eq (qbytes q) (qleg q) (set_sends rest s)) as (b & Hb & He);
    [apply Hc|apply Hc|done|cbn; lia|].
  eapply wp_eq; [exact He|]. cbn [sent received set_sends] in Hb.
  assert (frame_typed (mkFrame IFrame (sent s) (received s) 0 (qbytes q))) as Hf.
  { destruct (I_frame (sent s) (received s) (qbytes q)) as (? & _ & ?); [apply Hc|apply Hc|done|done]. }
  apply IH.
  - unfold after_sendI. cbv zeta. cbn. case_if; cbn; cbn in Hfuel; lia.
  - split.
    + eapply (core_weaken 0); [lia|].
      change (set_sends rest s) with (set_rejected (rejected s) (set_sends rest s)).
      eapply core_sendI; try done; [|..|apply Hc].
      * rewrite Hs. apply sublist_cons. done.
      * eapply in_order_pump; [exact (wire_iframe_frame _ b false _ _ Hf Hb)|]. rewrite <- Hs. apply Hc.
    + apply room_short. unfold after_sendI. cbv zeta. case_if; cbn; rewrite length_app; cbn; lia.
  - unfold after_sendI. cbv zeta. by case_if.
Qed.

(** ** Events *)
Lemma wp_queueEvent ev (Q : unit → Session → Prop) s :
  (∀ e', (length (events s ++ [e']) ≤ EventQueue o)%nat → Q tt (set_events (events s ++ [e']) s)) →
  wp (queueEvent_or_fail o ev) Q fails s.
Proof.
  intros HQ. unfold queueEvent_or_fail, queueEvent. steps.
  destruct (EventQueue o <=? length (events s))%nat eqn:E; cbn [negb]; steps; [by intros|].
  apply HQ. bool_facts. rewrite length_app. cbn. lia.
Qed.

(** ** The end of a transfer on the controlled station *)
Lemma wp_pump s : Inv s → wp (pump o clock) (λ _, Inv) fails s.
Proof.
  intros HI. pose proof opt_bounds as (_ & Hw & _). unfold pump. steps. case_if; [by steps|].
  apply orb_false_iff in Hif as [_ Hst]. bool_facts. apply wp_bind.
  eapply wp_mono; [apply wp_pump_loop; [lia|done|done]| |done].
  clear s HI Hst. intros _ s [[Hc Hr] Hst]. steps.
  assert (wp (when (localStop s && (length (sends s) =? 0)%nat && negb (is_some (u s !! StopDTCon)))
              (sendU o clock StopDTAct))
            (λ _ s', Inv s' ∧ started s' = true ∧ sends s' = sends s) fails s) as Hla.
  { unfold when. case_if; [|by steps]. bool_facts. eapply wp_eq.
    - apply (sendU_act StopDTAct StopDTCon); [by right; left|by apply room_out].
    - split; [|done]. assert (sends s = []) by by apply length_zero_iff_nil.
      split; [by apply core_stopact|by apply room_stopact]. }
  eapply wp_mono; [exact Hla| |done].
  intros _ s2 ([Hc2 Hr2] & Hst2 & Hs2). steps. case_if; [|by steps; split]. bool_facts.
  assert (sends s2 = []) as He2 by (rewrite Hs2; by apply length_zero_iff_nil).
  assert (peerStop s2 = true) as Hps2 by done. assert (outstanding s2 = 0) as Ho2 by done.
  clear -Hopt Hw Hc2 Hr2 He2 Hps2 Ho2. rename s2 into s, Hc2 into Hc, Hr2 into Hr.
  apply wp_bind.
  assert (wp (when (0 <? pending s) (ack o clock false))
            (λ _ s', core 0 s' ∧ room s' ∧ peerStop s' = true ∧ sends s' = [] ∧ outstanding s' = 0) fails s) as Hack.
  { unfold when. case_if; bool_facts.
    - eapply wp_ack; [done|by apply room_out|]. intros b Hb. split; [done|].
      split; [by apply room_ack|]. done.
    - steps. split; [|done]. pose proof (i_pending _ _ Hc). core_fields Hc. lia. }
  eapply wp_mono; [exact Hack| |done]. clear -Hopt Hw.
  intros _ s (Hc & Hr & Hps & He & Ho). apply wp_bind. eapply wp_eq.
  { apply sendU_con; [by right|by apply room_out]. }
  pose proof (core_U 0 StopDTCon s Hc eq_refl ltac:(done)) as HU.
  assert (role = ServerRole ∧ localStop s = false ∧ is_some (u s !! StartDTCon) = false ∧
          is_some (u s !! StopDTCon) = false) as (Hrole & Hl & Hu1 & Hu2).
  { destruct role eqn:E; [rewrite (i_client _ _ Hc E) in Hps; done|].
    destruct (i_server _ _ Hc E) as (_ & ? & -> & ->). done. }
  assert (accepting s = false) as Hacc by (rewrite (i_accepting _ _ Hc), Hps; by destruct (started s)).
  steps. apply wp_queueEvent. intros e' Hev. split.
  - eapply (core_weaken 0); [lia|]. core_fields HU.
    intros _. split; [done|]. split; [lia|]. done.
  - unfold room, budget in *. rewrite Hps in Hr. cbn in *. rewrite length_app. cbn. lia.
Qed.

(** A deadline is some time ahead of a reading of the clock. *)
Lemma wp_in d (Q : option Z → Session → Prop) E s :
  (∀ t, Q (Some t) (tick s)) → wp (in_ clock d) Q E s.
Proof. intros HQ. unfold in_, wp, sbind, Now, sret. apply HQ. Qed.

(** ** Acknowledgements from the peer *)

(** An acknowledgement changes the send window and its timer only. *)
Definition window_only (s s' : Session) : Prop :=
  out s' = out s ∧ u s' = u s ∧ pending s' = pending s ∧ peerStop s' = peerStop s ∧
  localStop s' = localStop s ∧ started s' = started s ∧ received s' = received s ∧
  receivedCount s' = receivedCount s ∧ acknowledgedCount s' = acknowledgedCount s ∧
  closeAfter s' = closeAfter s ∧ sends s' = sends s.

Lemma core_acked n v t s : core n s → 0 ≤ v < 32768 → (t = None ↔ (sent s - v) mod 32768 = 0) →
  (sent s - v) mod 32768 ≤ k → (started s = false → (sent s - v) mod 32768 = 0) →
  core n (set_t1 t (set_acked v s)).
Proof.
  intros H Hv Ht Hk Hst. core_fields H; rewrite ?seqDistance_mod; try done.
  intros Hs. destruct (i_stopped0 Hs) as (_ & ?). by split; [apply Hst|].
Qed.

Lemma wp_acknowledge n v s : core n s → 0 ≤ v < 32768 →
  wp (acknowledge o clock v) (λ _ s', core n s' ∧ window_only s s') fails s.
Proof.
  intros H Hv. pose proof (i_window _ _ H) as Hk. rewrite outstanding_mod in Hk.
  unfold acknowledge. steps. rewrite outstanding_mod, seqDistance_mod. case_if; [by steps; intros|].
  bool_facts. case_if; [by steps|]. steps. rewrite outstanding_mod. cbn [sent acked set_acked set_t1].
  assert ((sent s - v) mod 32768 ≤ (sent s - acked s) mod 32768) as Hle.
  { destruct H. bool_facts. modlia. }
  assert (started s = false → (sent s - v) mod 32768 = 0) as Hst.
  { intros Hs. destruct (i_stopped _ _ H Hs) as (Ho & _). rewrite outstanding_mod in Ho.
    assert (0 ≤ (sent s - v) mod 32768) by modlia. lia. }
  assert (0 ≤ (sent s - v) mod 32768) as H0 by modlia.
  destruct (0 <? (sent s - v) mod 32768) eqn:E; bool_facts.
  - apply wp_bind, wp_in. intros t. steps. split; [|done].
    change (set_t1 (Some t) _) with (tick (set_t1 (Some t) (set_acked v s))).
    apply core_tick, core_acked; try done; try lia. split; [done|lia].
  - steps. split; [|done]. apply core_acked; try done; try lia. split; [intros _; lia|done].
Qed.

(** ** Local transfer operations *)
Lemma wp_admission v s (Q : unit → Session → Prop) E :
  (∀ g gs, Q tt (set_accepting v (set_generation g (set_generations gs s)))) →
  wp (admission v) Q E s.
Proof.
  intros HQ. unfold admission. steps. case_if; steps.
  - apply (HQ (Some _) _).
  - destruct (generation s) eqn:Hg; steps; [case_if; steps|].
    + apply (HQ (generation s) (<[n := true]> (generations s))).
    + apply (HQ (generation s) (generations s)).
    + apply (HQ (generation s) (generations s)).
Qed.

Lemma core_start s r : core (w - 1) s → started s = false → startWait s = [] → role = ClientRole →
  core (w - 1) (after_act StartDTAct StartDTCon (set_startWait [r] s)).
Proof.
  intros H Hst Hsw Hrole.
  assert (core (w - 1) (set_startWait (startWait s) (emitted [104; 4; StartDTAct; 0; 0; 0] false None 0 s))) as He
    by exact (core_U _ StartDTAct s H eq_refl ltac:(done)).
  core_fields He; rewrite ?lookup_insert_eq, ?(lookup_insert_ne _ StartDTCon StopDTCon) by done; try done.
  by rewrite Hrole.
Qed.

Lemma core_startWait n s r0 ws r : core n s → startWait s = r0 :: ws → role = ClientRole →
  core n (set_startWait (r0 :: ws ++ [r]) s).
Proof.
  intros H Hs Hr. core_fields H.
  - intros E. congruence.
  - rewrite i_starting0, Hs. done.
Qed.

Lemma wp_operation start r s : role = ClientRole → Inv s →
  wp (operation o clock start r) (λ _, Inv) fails s.
Proof.
  intros Hrole [Hc Hr]. unfold operation, reply. steps. destruct start.
  - case_if; steps; [by split; [apply core_replies|]|].
    case_if; steps; [by split; [apply core_replies|]|].
    destruct (startWait s) as [|r0 ws] eqn:Hw; cbn [app length Nat.eqb].
    + eapply wp_eq; [apply (sendU_act StartDTAct StartDTCon); [by left|by apply room_out]|].
      split; [by apply core_start|].
      assert (is_some (u s !! StartDTCon) = false) as Hu by (rewrite (i_starting _ _ Hc), Hw; done).
      unfold room, budget in *. rewrite Hu in Hr. cbn in *. rewrite length_app.
      rewrite lookup_insert_eq, !lookup_insert_ne by done. cbn. lia.
    + rewrite length_app. cbn. rewrite Nat.add_1_r. cbn. steps.
      split; [|done]. by apply core_startWait.
  - case_if; steps; [by split; [apply core_replies|]|].
    case_if; steps; [by split; [apply core_replies|]|]. bool_facts.
    apply wp_admission. intros g gs. steps.
    assert (∀ d ws, core (w - 1) (set_drain d (set_stopWait ws (set_localStop true
             (set_accepting false (set_generation g (set_generations gs s))))))) as Hcore.
    { intros d ws. core_fields Hc.
      - intros E. congruence.
      - by rewrite andb_false_r.
      - intros E. congruence.
      - intros E. destruct (i_stopping0 E). done. }
    cbn. destruct (drain s) as [d|] eqn:Hd; cbn.
    + steps. split; [|done]. specialize (Hcore (drain s) (stopWait s ++ [r])). exact Hcore.
    + split; [|done].
      exact (core_tick _ _ (Hcore (Some (clock (ticks s) + T1 (oAPCI o))) (stopWait s ++ [r]))).
Qed.

(** ** Receiving *)

(** The receive case is selected with room for the answer. *)
Definition short (s : Session) : Prop := (length (out s) < SendQueue o)%nat.

Lemma short_out s : short s → (length (out s) < SendQueue o + 8)%nat.
Proof. unfold short. lia. Qed.

Lemma core_started n s g gs e : core n s → started s = false → closeAfter s = None →
  is_some (u s !! StartDTCon) = false → startWait s = [] → (length (events s ++ [e]) ≤ EventQueue o)%nat →
  core n (set_events (events s ++ [e])
    (set_accepting true (set_generation g (set_generations gs (set_started true s))))).
Proof.
  intros H Hst Hca Hu Hsw Hev. destruct (i_stopped _ _ H Hst) as (? & ? & ? & Hp & Hl).
  core_fields H.
  - by rewrite Hp, Hl, Hca.
  - by rewrite Hu.
Qed.

Lemma wp_startdt s : core (w - 1) s → short s → closeAfter s = None → role = ServerRole → peerStop s = false →
  wp (do* sendU o clock StartDTCon in
      when (negb (started s))
        (do* assign_ (set_started true) in
         do* admission true in
         queueEvent_or_fail o (mkEvent Started None None None))) (λ _, Inv) fails s.
Proof.
  intros Hc Hs Hca Hrole Hps. apply wp_bind.
  eapply wp_eq; [apply sendU_con; [by left|by apply short_out]|].
  pose proof (core_U _ StartDTCon s Hc eq_refl ltac:(done)) as HU.
  set (s1 := emitted _ _ _ _ s) in *.
  assert (length (out s1) ≤ SendQueue o)%nat as Hl1 by (cbn; rewrite length_app; cbn; unfold short in Hs; lia).
  assert (closeAfter s1 = None ∧ started s1 = started s) as [Hca1 Hst1] by done.
  clearbody s1. unfold when. case_if; steps; [|by split; [|apply room_short]].
  apply wp_admission. intros g gs. apply wp_queueEvent. cbn. intros e Hev. bool_facts.
  destruct (i_server _ _ HU Hrole) as (Hsw & _ & Hu & _).
  split; [|by apply room_short]. apply core_started; try done; [congruence|by rewrite Hu].
Qed.

Lemma core_peerStop n s g gs d : core n s → started s = true → role = ServerRole →
  core n (set_drain d (tick (set_peerStop true (set_accepting false (set_generation g (set_generations gs s)))))).
Proof.
  intros H Hst Hrole. core_fields H.
  - intros E. congruence.
  - by rewrite andb_false_r.
  - intros E. congruence.
Qed.

Lemma wp_stopdt s : core (w - 1) s → short s → role = ServerRole → started s = true →
  wp (do* admission false in
      do* assign_ (set_peerStop true) in
      do* (let* deadline := in_ clock (T1 (oAPCI o)) in assign_ (set_drain deadline)) in
      when (0 <? pending s) (ack o clock false)) (λ _, Inv) fails s.
Proof.
  intros Hc Hs Hrole Hst. apply wp_bind, wp_admission. intros g gs. steps.
  apply wp_in. intros t. steps.
  pose proof (core_peerStop _ s g gs (Some t) Hc Hst Hrole) as H1.
  match type of H1 with core _ ?x => set (s1 := x) in * end.
  assert (out s1 = out s) as Ho by done. assert (pending s1 = pending s) as Hp by done. clearbody s1.
  case_if; [|steps; split; [done|]; apply room_short; rewrite Ho; unfold short in Hs; lia].
  eapply wp_ack; [exact H1|rewrite Ho; by apply short_out|]. intros b Hb.
  pose proof opt_bounds as (_ & Hw & _).
  split; [eapply core_weaken; [|done]; lia|]. apply room_short. cbn. rewrite Ho, length_app. cbn.
  unfold short in Hs. lia.
Qed.

Lemma core_startcon s g gs e rs : core (w - 1) s → role = ClientRole → closeAfter s = None →
  is_some (u s !! StartDTCon) = true → (length (events s ++ [e]) ≤ EventQueue o)%nat →
  core (w - 1) (set_startWait [] (set_replies rs (set_events (events s ++ [e])
    (set_accepting true (set_generation g (set_generations gs (set_started true
      (set_u (delete StartDTCon (u s)) s)))))))).
Proof.
  intros H Hrole Hca Hu Hev. pose proof (i_starting' _ _ H Hu) as Hst.
  destruct (i_stopped _ _ H Hst) as (? & ? & ? & Hp & Hl).
  core_fields H; rewrite ?lookup_delete_eq, ?(lookup_delete_ne _ StartDTCon StopDTCon) by done; try done.
  - by rewrite Hp, Hl, Hca.
  - by rewrite Hrole.
Qed.

Lemma core_stopcon s e rs ws : core 0 s → role = ClientRole → localStop s = true → sends s = [] →
  outstanding s = 0 → is_some (u s !! StopDTCon) = false → (length (events s ++ [e]) ≤ EventQueue o)%nat →
  core 0 (set_stopWait ws (set_replies rs (set_events (events s ++ [e])
    (set_drain None (set_localStop false (set_started false s)))))).
Proof.
  intros H Hrole Hl Hs Ho Hu Hev. pose proof (i_client _ _ H Hrole) as Hp.
  assert (accepting s = false) as Ha.
  { rewrite (i_accepting _ _ H), Hl. cbn. by rewrite andb_false_r. }
  core_fields H.
  - intros _. unfold outstanding in Ho. split; [done|]. split; [lia|]. done.
  - by rewrite Hrole.
  - by rewrite Hu.
Qed.

Lemma core_delete_stop n s : core n s → role = ClientRole → core n (set_u (delete StopDTCon (u s)) s).
Proof.
  intros H Hrole.
  core_fields H; rewrite ?lookup_delete_eq, ?(lookup_delete_ne _ StopDTCon StartDTCon) by done; try done.
  by rewrite Hrole.
Qed.

Lemma wp_transfer_con f s : core (w - 1) s → short s → closeAfter s = None → f = StartDTCon ∨ f = StopDTCon →
  wp (receive_transfer_con o role clock f) (λ _, Inv) fails s.
Proof.
  intros Hc Hs Hca Hf. pose proof opt_bounds as (_ & Hw & _). unfold receive_transfer_con. steps.
  destruct role eqn:Hrole; [|by steps].
  case_if; [by steps|]. bool_facts. steps.
  destruct Hf as [-> | ->]; cbn [Z.eqb Pos.eqb StartDTCon StopDTCon].
  - steps. apply wp_admission. intros g gs. steps. apply wp_queueEvent. cbn. intros e Hev.
    unfold reply_all. steps. split; [by apply core_startcon|].
    apply room_short. cbn. unfold short in Hs. lia.
  - case_if; [by steps|]. bool_facts. steps.
    destruct (i_stopping _ _ Hc Hif) as [Hl Hse].
    pose proof (core_delete_stop _ s Hc Hrole) as Hd.
    match type of Hd with core _ ?x => set (s1 := x) in * end.
    assert (wp (when (0 <? pending s) (ack o clock false))
              (λ _ s', core 0 s' ∧ (length (out s') ≤ SendQueue o)%nat ∧ localStop s' = true ∧ sends s' = [] ∧
                       outstanding s' = 0 ∧ is_some (u s' !! StopDTCon) = false) fails s1) as Hack.
    { unfold when. case_if; bool_facts.
      - eapply wp_ack; [exact Hd|by apply short_out|]. intros b Hb. split; [done|].
        split; [cbn; rewrite length_app; cbn; unfold short in Hs; lia|]. cbn.
        by rewrite lookup_delete_eq.
      - steps. split; [pose proof (i_pending _ _ Hd); core_fields Hd; lia|].
        split; [unfold short in Hs; cbn; lia|]. cbn. by rewrite lookup_delete_eq. }
    eapply wp_mono; [exact Hack| |done]. clear -Hopt Hw Hrole.
    intros _ s2 (Hc & Hl & Hls & Hse & Ho & Hu). steps.
    apply wp_queueEvent. cbn. intros e Hev. unfold reply_all. steps.
    split; [|by apply room_short].
    eapply core_weaken; [|by apply core_stopcon]. lia.
Qed.

Lemma core_delete_test n s : core n s → core n (set_u (delete TestFRCon (u s)) s).
Proof. intros H. core_fields H; rewrite !lookup_delete_ne by done; done. Qed.

Lemma wp_receiveU f s : core (w - 1) s → short s → closeAfter s = None →
  wp (receiveU o role clock f) (λ _, Inv) fails s.
Proof.
  intros Hc Hs Hca. unfold receiveU. steps.
  case_if.
  { destruct (sendU_testcon _ s Hc (short_out _ Hs)) as (s' & He & Hc' & Hl).
    eapply wp_eq; [exact He|]. split; [done|]. apply room_short. unfold short in Hs. lia. }
  case_if.
  { bool_facts. subst f. case_if; steps; [done|]. split; [by apply core_delete_test|].
    apply room_short. cbn. unfold short in Hs. lia. }
  case_if.
  { destruct role eqn:Hrole; [by steps|]. destruct (peerStop s) eqn:Hps; [by steps|].
    by apply wp_startdt. }
  case_if.
  { destruct role eqn:Hrole; [by steps|]. destruct (peerStop s) eqn:Hps; [by steps|].
    case_if; bool_facts; [|by apply wp_stopdt].
    eapply wp_eq; [apply sendU_con; [by right|by apply short_out]|].
    split; [by apply core_U|]. apply room_short. cbn. rewrite length_app. cbn. unfold short in Hs. lia. }
  case_if; [|steps; split; [done|]; apply room_short; unfold short in Hs; lia].
  apply wp_transfer_con; try done. apply orb_true_iff in Hif3 as [?|?]; bool_facts; auto.
Qed.

Lemma wp_lift {A} (m : outcome iec_error A) (Q : A → Session → Prop) (E : iec_error → Session → Prop) s :
  safe m → errs (λ e, E e s) m → (∀ a, m = Ok a → Q a s) → wp (lift m) Q E s.
Proof. unfold wp, lift. destruct m; cbn; auto. Qed.

Lemma codec_fails {A} (m : outcome iec_error A) s : errs codec_error m → errs (λ e, fails e s) m.
Proof. destruct m; cbn; try done. intros [-> | ->]; done. Qed.

(** *** Admission *)
Lemma core_admit n s b leg : core n s → accepting s = true → (length (sends s) < SendQueue o)%nat →
  payload_ok b →
  core n (set_admitted (admitted s ++ [b]) (set_sends (sends s ++ [mkQueued b leg]) s)).
Proof.
  intros H Ha Hl Hb.
  assert (started s = true ∧ localStop s = false) as [Hst Hls].
  { rewrite (i_accepting _ _ H) in Ha. by destruct (started s), (peerStop s), (localStop s). }
  core_fields H.
  - by rewrite Hst.
  - intros E. destruct (i_stopping0 E). congruence.
  - rewrite length_app. cbn. lia.
  - apply Forall_app. split; [done|]. by constructor.
  - destruct i_order0 as (pumped & -> & ?). exists pumped. rewrite fmap_app. cbn.
    by rewrite app_assoc.
Qed.

Lemma wp_admit n s b leg : core n s → payload_ok b →
  wp (admitLocked o b leg) (λ _ s', core n s' ∧ out s' = out s) fails s.
Proof.
  intros H Hb. unfold admitLocked. steps. rewrite (i_alive _ _ H).
  destruct (accepting s) eqn:Ha; cbn [negb]; [|by steps].
  case_if; bool_facts; [steps; by intros _|]. steps. split; [|done].
  apply core_admit; try done. pose proof (i_sends _ _ H). lia.
Qed.

(** *** Rejection *)
Lemma filter_reject_cases f h : filter_reject f h = 0 ∨
  (filter_reject f h = UnknownCA ∨ filter_reject f h = UnknownType) ∧
  ¬ (CommonAddresses f = [] ∧ ApplicationTypes f = []).
Proof.
  unfold filter_reject. case_if; [|case_if; [|by left]]; bool_facts; right; split; try auto;
    intros [E1 E2]; rewrite ?E1, ?E2 in *; done.
Qed.

Lemma mirror_payload request r2 cause : payload_ok request → request !! 2%nat = Some r2 →
  cause = UnknownCA ∨ cause = UnknownType →
  payload_ok (<[2%nat := Z.lor (Z.lor (Z.land r2 0x80) 0x40) cause]> request).
Proof.
  intros [Hb Hl] Hr Hc. split; [|by rewrite length_insert].
  apply Forall_insert; [done|]. pose proof (bytes_ok_lookup _ _ _ Hb Hr) as Hu.
  pose proof (range_forall 256 (λ b, (0 <=? Z.lor (Z.lor (Z.land b 0x80) 0x40) UnknownCA) &&
    (Z.lor (Z.lor (Z.land b 0x80) 0x40) UnknownCA <? 256) &&
    (0 <=? Z.lor (Z.lor (Z.land b 0x80) 0x40) UnknownType) &&
    (Z.lor (Z.lor (Z.land b 0x80) 0x40) UnknownType <? 256)) ltac:(vm_compute; reflexivity) r2 Hu) as H.
  cbv beta in H. bool_facts. unfold is_u8. destruct Hc as [-> | ->]; lia.
Qed.

Lemma in_order_reject adm q ws x ns request cause rej : wire_iframe x = Some (ns, rejection request cause) →
  in_order adm q ws rej → in_order adm q (ws ++ [x]) (rej ++ [(request, cause, true)]).
Proof.
  intros Hx (pumped & ? & Hil). exists pumped. split; [done|].
  rewrite iframes_app, fmap_app, omap_app, Hx. cbn. by apply il_right.
Qed.

Lemma core_deferred n s request cause : core n s → rejection_ok (request, cause, false) →
  core n (set_rejected (rejected s ++ [(request, cause, false)]) s).
Proof.
  intros H Hx. core_fields H; [|apply Forall_app; split; [done|by apply Forall_singleton]].
  destruct i_order0 as (pumped & ? & ?). exists pumped. rewrite omap_app. cbn. by rewrite app_nil_r.
Qed.

Lemma wp_reject s request cause : core w s → short s → started s = true →
  (∀ now, rejection_ok (request, cause, now)) →
  payload_ok request → (2 < length request)%nat → cause = UnknownCA ∨ cause = UnknownType →
  wp (reject o clock request cause) (λ _, Inv) fails s.
Proof.
  intros Hc Hs Hst Hu Hp Hl Hcause. pose proof opt_bounds as (_ & Hw & _). unfold reject. steps.
  destruct (lookup_lt_is_Some_2 request 2 Hl) as [r2 Hr2].
  apply wp_lift; [by apply idx_safe|unfold idx; by rewrite Hr2|]. intros r Hr. apply idx_Ok in Hr.
  steps. pose proof (mirror_payload _ _ _ Hp Hr Hcause) as Hm. set (mirror := insert _ _ _) in *.
  assert (mirror = rejection request cause) as Hmir by (unfold rejection; by rewrite Hr).
  case_if; bool_facts.
  - set (rj := rejected s ++ _).
    destruct (sendI_eq mirror None (set_rejected rj s)) as (b & Hb & He); [apply Hc|apply Hc|done|by apply short_out|].
    eapply wp_eq; [exact He|]. cbn [sent received set_rejected] in Hb.
    assert (frame_typed (mkFrame IFrame (sent s) (received s) 0 mirror)) as Hf.
    { destruct (I_frame (sent s) (received s) mirror) as (? & _ & ?); [apply Hc|apply Hc|done|done]. }
    split.
    + eapply (core_weaken 0); [lia|].
      change (set_rejected rj s) with (set_rejected rj (set_sends (sends s) s)).
      eapply core_sendI; try done; [|apply Forall_app; split; [apply Hc|by apply Forall_singleton]].
      eapply in_order_reject; [|apply Hc]. rewrite <- Hmir. exact (wire_iframe_frame _ b false None _ Hf Hb).
    + apply room_short. unfold short in Hs. unfold after_sendI. cbv zeta. case_if; cbn; rewrite length_app; cbn; lia.
  - steps. eapply wp_ack; [by apply core_deferred|by apply short_out|]. intros b Hb.
    eapply wp_mono; [by apply (wp_admit 0)| |done]. intros _ s' [Hc' Ho'].
    split; [eapply core_weaken; [|done]; lia|]. apply room_short. rewrite Ho'. cbn.
    rewrite length_app. unfold short in Hs. cbn. lia.
Qed.

(** *** An accepted I frame *)
Lemma received_count r rc : r = rc mod 32768 → 0 ≤ rc < 2 ^ 64 →
  Z.land (u16 (r + 1)) 32767 = u64 (rc + 1) mod 32768.
Proof.
  intros -> Hrc. rewrite land_u16. unfold u64.
  change 18446744073709551616 with (32768 * 562949953421312).
  rewrite Z.rem_mul_r by lia. rewrite Z.mul_comm, Z_mod_plus_full, Zmod_mod.
  by rewrite Zplus_mod_idemp_l.
Qed.

Definition accepted (t : option Z) (s : Session) : Session :=
  set_pending (pending s + 1) (set_t2 t (set_receivedCount (u64 (receivedCount s + 1))
    (set_received (Z.land (u16 (received s + 1)) 32767) s))).

Lemma core_accepted t s : core (w - 1) s → started s = true →
  u64 (receivedCount s - acknowledgedCount s) < w → t ≠ None → core w (accepted t s).
Proof.
  intros H Hst Hw Ht. pose proof opt_bounds as (_ & Hw' & _).
  pose proof (i_queue _ _ H) as Hq. pose proof (q_counts _ _ _ _ _ _ _ _ Hq) as (Hrc & _).
  pose proof (received_count _ _ (i_count _ _ H) Hrc) as Hn.
  unfold accepted. rewrite Hn.
  assert (0 ≤ u64 (receivedCount s + 1) mod 32768 < 32768) as Hr by (apply Z.mod_pos_bound; lia).
  pose proof (queue_receive _ _ _ _ _ _ _ _ w Hq ltac:(unfold lag; lia) ltac:(lia)) as Hq'.
  destruct H. unfold outstanding in *. split; unfold outstanding; cbn; try done; try lia.
  - split; [done|lia].
  - by rewrite Hst.
Qed.

Lemma wp_receiveI f leg s : core (w - 1) s → short s → started s = true →
  u64 (receivedCount s - acknowledgedCount s) < w → payload_ok (FASDU f) →
  wp (receiveI o role clock f leg) (λ _, Inv) fails s.
Proof.
  intros Hc Hs Hst Hwin Hp. pose proof opt_bounds as (_ & Hw & _). unfold receiveI. steps.
  destruct (negb (Send f =? received s)).
  { case_if; [by steps|]. steps. apply wp_admission. intros g gs. steps. apply wp_in. intros t. steps.
    assert (core (w - 1) (set_drain (Some t) (tick (set_accepting false (set_generation g
              (set_generations gs (set_closeAfter (Some ErrProtocol) s))))))) as H1.
    { core_fields Hc; [by rewrite andb_false_r|by right]. }
    eapply wp_ack; [exact H1|by apply short_out|]. intros b Hb.
    split; [eapply core_weaken; [|done]; lia|]. apply room_short. cbn. rewrite length_app.
    unfold short in Hs. cbn. lia. }
  steps. apply wp_lift; [apply DecodeASDU_safe|apply codec_fails, DecodeASDU_errs|]. intros m Hm. steps.
  pose proof (DecodeASDU_message _ _ _ Hm) as Hnil.
  assert (2 < length (FASDU f))%nat as Hlen.
  { unfold DecodeASDU in Hm. destruct (Params_Validate (oParams o)) eqn:Hv; [done|].
    apply Validate_ok, headerSize_bounds in Hv. apply guard_err_Ok in Hm as [Hg _]. bool_facts. lia. }
  match goal with |- wp ?m _ _ ?st =>
    assert (wp m (λ _ s1, core w (set_pending (pending s + 1) s1) ∧ out s1 = out s ∧ started s1 = true)
              fails st) as Ht end.
  { case_if; bool_facts.
    - steps. apply wp_in. intros t. steps. split; [|done].
      apply (core_tick _ (accepted (Some t) s)). by apply core_accepted.
    - steps. split; [|done]. apply (core_accepted (t2 s)); try done.
      rewrite (i_t2 _ _ Hc). done. }
  eapply wp_mono; [exact Ht| |done]. clear Ht. intros _ s1 (H1 & Ho1 & Hst1). steps.
  set (s2 := set_pending (pending s + 1) s1) in *.
  assert (out s2 = out s) as Ho2 by done. assert (started s2 = true) as Hst2 by done.
  assert (pending s2 = pending s + 1) as Hp2 by done. clearbody s2. clear s1 Ho1 Hst1.
  assert (short s2) as Hs2 by (unfold short in *; by rewrite Ho2).
  apply wp_lift; [by destruct m|by destruct m|]. intros h Hh. steps.
  set (cause := match role with ServerRole => filter_reject (oFilter o) h | ClientRole => 0 end).
  destruct (cause =? 0) eqn:Hcz; cbn [negb].
  2:{ bool_facts. assert ((cause = UnknownCA ∨ cause = UnknownType) ∧ ∀ now, rejection_ok (FASDU f, cause, now)) as [Hcause Hu].
      { unfold cause, rejection_ok in *. destruct role eqn:Hrole; [done|].
        destruct (filter_reject_cases (oFilter o) h) as [?|[? Hf]]; [done|].
        split; [done|]. intros now. split; [done|]. by exists m, h. }
      by apply wp_reject. }
  assert (wp (when (w <=? pending s + 1) (ack o clock false))
            (λ _ s', core (w - 1) s' ∧ (length (out s') ≤ SendQueue o)%nat) fails s2) as Hack.
  { unfold short in Hs2. unfold when. case_if; bool_facts.
    - eapply wp_ack; [exact H1|lia|]. intros b Hb. split; [eapply core_weaken; [|done]; lia|].
      cbn. rewrite length_app. cbn. lia.
    - steps. split; [|lia]. core_fields H1. lia. }
  apply wp_bind. eapply wp_mono; [exact Hack| |done]. intros _ s3 [H3 Hl3].
  unfold observe. steps. apply wp_queueEvent. cbn. intros e He.
  split; [core_fields H3|by apply room_short].
Qed.

Lemma readable_I f : readable f → Kind f = IFrame → payload_ok (FASDU f).
Proof.
  intros [(_ & _ & _ & Hb) Hm] Hk. unfold Frame_MarshalBinary in Hm. rewrite Hk in Hm.
  destruct ((32767 <? Send f) || (32767 <? Receive f)); [done|]. cbn [guard_err] in Hm.
  destruct (_ || _) eqn:E; [done|]. bool_facts. split; [done|lia].
Qed.

Lemma readable_receive f : readable f → 0 ≤ Receive f < 32768.
Proof.
  intros [(_ & Hr & _) Hm]. unfold Frame_MarshalBinary in Hm. unfold is_u16 in Hr.
  destruct ((32767 <? Send f) || (32767 <? Receive f)) eqn:E; [done|]. bool_facts. lia.
Qed.

Lemma receiving_inv s : receiving o s = true →
  short s ∧ u64 (receivedCount s - acknowledgedCount s) < w.
Proof. unfold receiving, short. intros H. bool_facts. done. Qed.

Lemma wp_receive f leg s : core (w - 1) s → receiving o s = true → closeAfter s = None → readable f →
  wp (receive o role clock f leg) (λ _, Inv) fails s.
Proof.
  intros Hc Hrv Hca Hf. apply receiving_inv in Hrv as [Hs Hwin]. unfold receive.
  assert (Kind f = IFrame ∨ Kind f = SFrame →
    wp (let* st := get (λ s, started s) in
        if negb st then sfail ErrProtocol
        else do* acknowledge o clock (Receive f) in
             match Kind f with SFrame => sret tt | _ => receiveI o role clock f leg end)
       (λ _, Inv) fails s) as Hnum.
  { intros Hk. steps. destruct (started s) eqn:Hst; cbn [negb]; [|by steps]. steps.
    eapply wp_mono; [apply wp_acknowledge; [done|by apply readable_receive]| |done].
    intros _ s' (Hc' & Ho & _ & _ & _ & _ & Hst' & _ & Hrc & Hac & _).
    assert (short s') as Hs' by (unfold short in *; by rewrite Ho).
    destruct Hk as [Hk|Hk]; rewrite Hk.
    - apply wp_receiveI; try done; [congruence|by rewrite Hrc, Hac|by apply readable_I].
    - steps. split; [done|]. apply room_short. unfold short in Hs'. lia. }
  destruct (Kind f) eqn:Hk.
  - apply Hnum. by left.
  - apply Hnum. by right.
  - by apply wp_receiveU.
  - steps. split; [done|]. apply room_short. unfold short in Hs. lia.
Qed.

(** ** The select loop *)
Lemma wp_activity at_ (Q : unit → Session → Prop) E s :
  (∀ v, Q tt (set_idle v s)) → wp (activity o at_) Q E s.
Proof.
  intros HQ. unfold activity. steps. destruct (idle s) eqn:Hi; [|steps; apply HQ].
  unfold when. case_if; steps; [apply HQ|]. exact (HQ (idle s)).
Qed.

Lemma wp_input i s : Inv s → enabled o role s (EvInput i) → wp (input o role clock i) (λ _, Inv) fails s.
Proof.
  intros [Hc Hr] He. unfold input. steps. destruct (closeAfter s) eqn:Hca; cbn [is_some]; [by steps|].
  destruct i as [f at_ leg|e]; cbn in He.
  - destruct He as [Hrv Hf]. steps. apply wp_activity. intros v.
    apply wp_receive; try done. by apply core_idle.
  - destruct He as [_ [-> | [x ->]]]; by steps.
Qed.

Lemma wp_written x (Q : unit → Session → Prop) E s :
  (∀ c l, Q tt (set_acknowledgedCount c (set_wire l s))) → wp (written x) Q E s.
Proof.
  intros HQ. unfold written. steps. case_if; steps; [apply HQ|].
  exact (HQ (acknowledgedCount s) (wire s ++ [wbytes x])).
Qed.

Lemma wp_flushClose flushed (Q : unit → Session → Prop) E s : (∀ s', Q tt s') → wp (flushClose flushed) Q E s.
Proof.
  intros HQ. unfold flushClose. apply wp_bind, wp_admission. intros g gs. steps.
  case_if; steps; [apply HQ|]. case_if; [|steps; apply HQ].
  unfold writeFinalACK. steps. case_if; steps; [apply HQ|].
  rewrite land_u16. match goal with |- context [mkFrame SFrame 0 (?c mod 32768)] =>
    destruct (S_frame (c mod 32768)) as (b & Hb & _); [apply Z.mod_pos_bound; lia|] end.
  apply wp_lift; [by rewrite Hb|by rewrite Hb|]. intros. by apply wp_written.
Qed.

Lemma core_result n s c at_ : core n s → writer s = WDone None c at_ → core n (set_writer WIdle s).
Proof.
  intros H Hw. core_fields H. rewrite Hw in i_queue0. by eapply queue_result.
Qed.

Lemma wp_handle ev s : Inv s → enabled o role s ev → wp (handle o role clock ev) (λ _, Inv) fails s.
Proof.
  intros HI He. destruct ev as [|flushed| |start r|i| |]; cbn [handle]; steps.
  - done.
  - assert (wp (when (negb (is_some (closeAfter s))) (flushClose flushed)) (λ _ _, True) fails s) as Hf.
    { unfold when. case_if; [by apply wp_flushClose|by steps]. }
    eapply wp_mono; [exact Hf| |done]. intros. by steps.
  - done.
  - by apply wp_operation.
  - by apply wp_input.
  - destruct (writer s) as [| | |e c at_|] eqn:Hw; try (by steps).
    destruct e; steps; [done|]. destruct c; steps.
    + destruct HI as [Hc _]. destruct (i_closing _ _ Hc) as [-> | ->]; done.
    + apply wp_activity. intros v. destruct HI as [Hc Hr]. split; [|done].
      apply core_idle. by eapply core_result.
  - by apply wp_expire.
Qed.

Lemma wp_iterate ev s : Inv s → enabled o role s ev → wp (iterate o role clock ev) (λ _, Inv) fails s.
Proof.
  intros HI He. unfold iterate, loop_head. apply wp_bind.
  eapply wp_mono; [by apply wp_handle| |done]. intros [] s1 H1. apply wp_bind.
  eapply wp_mono; [by apply wp_expire| |done]. intros [] s2 H2. by apply wp_pump.
Qed.

(** ** The other goroutines *)
Lemma marshal_length p m b : Message_MarshalBinary p m = Ok b → (4 ≤ length b)%nat.
Proof.
  intros H. destruct m as [a|r|]; [| |done]; cbn in H.
  - apply ASDU_marshal_inv in H as (_ & Hp & _ & _ & H).
    apply marshal_objects_spec in H as (tl & Hcode & -> & Hsz). pose proof (headerSize_bounds p Hp).
    rewrite length_app, length_header_octets by done. lia.
  - unfold Raw_MarshalBinary in H. apply guard_err_Ok in H as [_ H].
    apply bind_Ok in H as (hb & Hhb & H). apply encodeHeader_Ok in Hhb as (Hp & Hfit & ->).
    apply guard_err_Ok in H as [_ H]. pose proof (headerSize_bounds p Hp).
    assert (b = header_octets p (RHeader r) ++ Payload r) as -> by congruence.
    rewrite length_app, length_header_octets by done. lia.
Qed.

Lemma marshal_payload p m b : sendable m → Message_MarshalBinary p m = Ok b → payload_ok b.
Proof.
  intros Hm H. destruct m as [a|r|]; [| |done]; cbn in Hm, H.
  - apply asdu_encode_decode in H as Hd; [|done]. destruct Hd as (Hl & Hb & _). split; [done|].
    apply (marshal_length p (ASDUMessage a)) in H. lia.
  - destruct Hm as [Hh Hb]. unfold Raw_MarshalBinary in H. apply guard_err_Ok in H as [_ H].
    apply bind_Ok in H as (hb & Hhb & H). apply encodeHeader_Ok in Hhb as (Hp & Hfit & ->).
    apply guard_err_Ok in H as [Hl H]. pose proof (headerSize_bounds p Hp). apply Nat.ltb_ge in Hl.
    assert (b = header_octets p (RHeader r) ++ Payload r) as -> by congruence.
    pose proof (length_header_octets p (RHeader r) Hp).
    split; [apply bytes_ok_app; split; [by apply header_octets_ok|done]|].
    rewrite length_app. unfold MaxASDUSize in *. lia.
Qed.

Lemma clone_sendable m m' : sendable m → cloneMessage m = Ok m' → sendable m'.
Proof.
  destruct m as [a|r|]; cbn; [| |done].
  - intros [Hh Ho] H. apply cloneASDU_Ok in H as ->. destruct Hh as (? & ? & ? & ? & ?).
    split; [|done]. split_and!; try done. apply u8_range.
  - intros Hr [= <-]. done.
Qed.

(** Admission keeps the invariant, whatever it answers. *)
Lemma Inv_admit b leg s r s' : Inv s → payload_ok b → admitLocked o b leg s = (r, s') → Inv s'.
Proof.
  intros [Hc Hr] Hb H. unfold admitLocked, sbind, get, sfail, assign_ in H. cbn [id] in H.
  rewrite (i_alive _ _ Hc) in H. destruct (accepting s) eqn:Ha; cbn [negb] in H; [|by simplify_eq].
  case_if_in H; simplify_eq; [done|]. bool_facts. pose proof (i_sends _ _ Hc).
  split; [apply core_admit; try done; lia|done].
Qed.

Lemma Inv_Send m s r s' : Inv s → sendable m → Session_Send o m s = (r, s') → Inv s'.
Proof.
  intros HI Hm H. unfold Session_Send, sbind, get, lift, sfail in H.
  destruct (gone s); [by simplify_eq|].
  destruct (cloneMessage m) as [m'|?| |] eqn:Hcl; try by simplify_eq.
  destruct (Message_MarshalBinary (oParams o) m') as [b|?| |] eqn:Hb; try by simplify_eq.
  eapply Inv_admit; [done| |exact H]. eapply marshal_payload; [|done]. by eapply clone_sendable.
Qed.

Lemma Inv_admitFile c g b s r s' : Inv s → encoded o b → admitFileLocked o c g b s = (r, s') → Inv s'.
Proof.
  intros HI (m & Hm & Hb) H. unfold admitFileLocked, sbind, get, sfail in H. cbn [id] in H.
  destruct (gone s); [by simplify_eq|]. destruct g; [|by simplify_eq].
  destruct (generation s); [|by simplify_eq]. case_if_in H; [by simplify_eq|].
  destruct c; [by simplify_eq|]. eapply Inv_admit; [done| |exact H]. by eapply marshal_payload.
Qed.

(** The writer and the dispatcher keep it too. *)
Lemma Inv_take s ptr rest : Inv s → writer s = WIdle → out s = ptr :: rest →
  Inv (set_writer (WTaken ptr) (set_out rest s)).
Proof.
  intros [Hc Hr] Hw Ho. split.
  - core_fields Hc. rewrite Hw, Ho in i_queue0. by apply queue_take.
  - unfold room, budget in *. rewrite Ho in Hr. cbn in *. lia.
Qed.

Lemma Inv_claim s ptr x at_ : Inv s → writer s = WTaken ptr → wires s !! ptr = Some x →
  Inv (claimWire ptr x at_ s).
Proof.
  intros [Hc Hr] Hw Hx. split; [|done]. unfold claimWire. core_fields Hc.
  rewrite Hw in i_queue0. by eapply queue_claim.
Qed.

Lemma Inv_written s x at_ s' : Inv s → writer s = WWriting x at_ → written x s = (Ok tt, s') →
  Inv (set_writer (WDone None (wcloseAfter x) at_) s').
Proof.
  intros [Hc Hr] Hw H. unfold written, sbind, get, assign_, when, sret in H.
  pose proof (i_queue _ _ Hc) as Hq. rewrite Hw in Hq.
  pose proof (queue_written _ _ _ _ _ at_ (wcloseAfter x) _ _ _ _ Hq) as Hq'.
  destruct (wreceiveCount x =? 0); cbn [negb] in H; injection H as <-.
  - split; [core_fields Hc|exact Hr].
  - split; [core_fields Hc|exact Hr].
Qed.

Lemma Inv_write_error s x at_ e : Inv s → writer s = WWriting x at_ →
  Inv (set_transportFailed true (set_writer (WDone (Some e) (wcloseAfter x) at_) s)).
Proof.
  intros [Hc Hr] Hw. split; [|exact Hr]. core_fields Hc. rewrite Hw in i_queue0.
  by eapply queue_write_error.
Qed.

Lemma Inv_dispatch s e rest : Inv s → events s = e :: rest → Inv (set_events rest s).
Proof.
  intros [Hc Hr] He. split; [|exact Hr]. core_fields Hc. rewrite He in i_events0. cbn in *. lia.
Qed.

Lemma Inv_newSession : Inv (newSession o clock).
Proof.
  pose proof opt_bounds as (Hk & Hw & Hs & He). split.
  - split; try done; cbn; try lia.
    + change (outstanding (newSession o clock)) with 0. lia.
    + by left.
    + split; try done; cbn; try lia.
      * split; [lia|]. split; [lia|]. rewrite lag_self. lia.
      * constructor; constructor.
    + exists []. split; [done|constructor].
  - apply room_short. cbn. lia.
Qed.

(** Every running session satisfies the invariant. *)
Lemma step_Inv s s' : gone s = false → Inv s → step o role clock s s' → gone s' = false → Inv s'.
Proof.
  intros Hg HI Hstep Hg'. destruct Hstep.
  - pose proof (wp_iterate ev s HI H0) as Hwp. unfold wp in Hwp. by rewrite H1 in Hwp.
  - exfalso. revert Hg'. unfold finish. cbn. by destruct (generation s').
  - by eapply Inv_Send.
  - by eapply Inv_admitFile.
  - by apply Inv_take.
  - by apply Inv_claim.
  - by eapply Inv_written.
  - by apply Inv_write_error.
  - destruct HI as [Hc Hr]. split; [core_fields Hc|exact Hr].
  - by eapply Inv_dispatch.
Qed.

(** A closed session stays closed. *)
Lemma step_gone s s' : gone s = true → step o role clock s s' → gone s' = true.
Proof.
  intros Hg Hstep. destruct Hstep as [| |m s r s' _ H|c g b s r s' _ H| | | | | |]; try congruence.
  - unfold Session_Send, sbind, get, sfail in H. rewrite Hg in H. by simplify_eq.
  - unfold admitFileLocked, sbind, get, sfail in H. cbn [id] in H. rewrite Hg in H. by simplify_eq.
  - done.
Qed.

Lemma reachable_Inv s : reachable o role clock s → gone s = false → Inv s.
Proof.
  unfold reachable. generalize Inv_newSession. generalize (newSession o clock). intros s0 H0 Hstar.
  induction Hstar as [|a b c Hab Hbc IH]; intros Hg; [done|].
  assert (gone b = false) as Hb.
  { destruct (gone b) eqn:E; [|done]. exfalso. clear IH H0 Hab. induction Hbc; [congruence|].
    apply IHHbc; [done|]. by eapply step_gone. }
  assert (gone a = false) as Ha.
  { destruct (gone a) eqn:E; [|done]. rewrite (step_gone a b) in Hb; done. }
  apply IH; [|done]. by eapply step_Inv.
Qed.

(** ** Every received ASDU is delivered or rejected, once *)
Definition tally (s : Session) := (receivedCount s, observed s, rejected s).
Definition steady {A} (m : M A) : Prop := ∀ s, tally (m s).2 = tally s.
Definition counted (s : Session) : Prop :=
  receivedCount s = u64 (Z.of_nat (length (observed s) + length (rejected s))).

Lemma steady_ret {A} (a : A) : steady (sret a).
Proof. done. Qed.
Lemma steady_fail {A} e : steady (sfail e : M A).
Proof. done. Qed.
Lemma steady_lift {A} (x : outcome iec_error A) : steady (lift x).
Proof. done. Qed.
Lemma steady_get {A} (f : Session → A) : steady (get f).
Proof. done. Qed.
Lemma steady_assign f : (∀ s, tally (f s) = tally s) → steady (assign_ f).
Proof. intros H s. apply H. Qed.
Lemma steady_Now : steady (Now clock).
Proof. done. Qed.
Lemma steady_bind {A B} (m : M A) (f : A → M B) : steady m → (∀ a, steady (f a)) → steady (sbind m f).
Proof.
  intros Hm Hf s. unfold sbind. specialize (Hm s). destruct (m s) as [[a|e| |] s1]; try exact Hm.
  cbn in Hm. rewrite <- Hm. apply Hf.
Qed.
#[local] Opaque steady.

Ltac steady_step := first
  [ apply steady_ret | apply steady_fail | apply steady_lift | apply steady_get | apply steady_Now
  | apply steady_assign; intros; done
  | apply steady_bind; [|intros ?]
  | case_match ].
Ltac steady := repeat steady_step.

Lemma steady_admission v : steady (admission v).
Proof. unfold admission, when. steady. Qed.
Lemma steady_admit b leg : steady (admitLocked o b leg).
Proof. unfold admitLocked. steady. Qed.
Lemma steady_queueEvent e : steady (queueEvent_or_fail o e).
Proof. unfold queueEvent_or_fail, queueEvent. steady. Qed.
Lemma steady_emitLeg f ca leg : steady (emitLeg o clock f ca leg).
Proof. unfold emitLeg, enqueueWire, in_, when. steady. Qed.
Lemma steady_activity t : steady (activity o t).
Proof. unfold activity, when. steady. Qed.
Lemma steady_sendU f : steady (sendU o clock f).
Proof. unfold sendU, emit, supervise. repeat first [apply steady_emitLeg|steady_step]. Qed.
Lemma steady_ack ca : steady (ack o clock ca).
Proof. unfold ack, emit. repeat first [apply steady_emitLeg|steady_step]. Qed.
Lemma steady_acknowledge n : steady (acknowledge o clock n).
Proof. unfold acknowledge, in_, when. steady. Qed.
Lemma steady_sendI b leg : steady (sendI o clock b leg).
Proof. unfold sendI, in_, when. repeat first [apply steady_emitLeg|steady_step]. Qed.
Ltac calm := repeat first [apply steady_ack|apply steady_sendU|apply steady_sendI|apply steady_admission
  |apply steady_queueEvent|apply steady_admit|apply steady_activity|steady_step].
Lemma steady_expire : steady (expire o clock).
Proof. unfold expire, when. calm. Qed.
Lemma steady_pump_loop fuel : steady (pump_loop o clock fuel).
Proof. induction fuel as [|fuel IH]; cbn [pump_loop]; [calm|]. repeat first [exact IH|apply steady_sendI|steady_step]. Qed.
Lemma steady_pump : steady (pump o clock).
Proof. unfold pump, when. repeat first [apply steady_pump_loop|apply steady_ack|apply steady_sendU|apply steady_queueEvent|steady_step]. Qed.
Lemma steady_operation start r : steady (operation o clock start r).
Proof. unfold operation, when, reply, in_. calm. Qed.
Lemma steady_receiveU f : steady (receiveU o role clock f).
Proof. unfold receiveU, receive_transfer_con, reply_all, in_, when. calm. Qed.
Lemma steady_written x : steady (written x).
Proof. unfold written, when. steady. Qed.
Lemma steady_flushClose b : steady (flushClose b).
Proof. unfold flushClose, writeFinalACK, when. repeat first [apply steady_admission|apply steady_written|steady_step]. Qed.
Lemma steady_Send m : steady (Session_Send o m).
Proof. unfold Session_Send, Session_admit. calm. Qed.
Lemma steady_admitFile c g b : steady (admitFileLocked o c g b).
Proof. unfold admitFileLocked. calm. Qed.

Lemma steady_counted {A} (m : M A) r s s' : steady m → m s = (r, s') → counted s → counted s'.
Proof.
  intros Hm H Hc. pose proof (Hm s) as Ht. rewrite H in Ht. unfold tally in Ht. cbn in Ht. injection Ht as H1 H2 H3.
  unfold counted. by rewrite H1, H2, H3.
Qed.

(** The successful runs of an operation keep the count. *)
Definition keeps_count {A} (m : M A) : Prop := ∀ s a s', m s = (Ok a, s') → counted s → counted s'.
Lemma keeps_count_steady {A} (m : M A) : steady m → keeps_count m.
Proof. intros Hm s a s' H. by eapply steady_counted. Qed.
Lemma keeps_count_bind {A B} (m : M A) (f : A → M B) : keeps_count m → (∀ a, keeps_count (f a)) → keeps_count (sbind m f).
Proof.
  intros Hm Hf s b s' H Hc. unfold sbind in H. destruct (m s) as [[a|e| |] s1] eqn:Hs; try done.
  eapply Hf; [exact H|]. by eapply Hm.
Qed.

(** The state of a session between the acceptance of an ASDU and its delivery
    or rejection. *)
Definition owing (s : Session) : Prop := receivedCount s = u64 (Z.of_nat (S (length (observed s) + length (rejected s)))).
Definition settles {A} (m : M A) : Prop := ∀ s a s', m s = (Ok a, s') → owing s → counted s'.
Lemma settles_bind {A B} (m : M A) (f : A → M B) : steady m → (∀ a, settles (f a)) → settles (sbind m f).
Proof.
  intros Hm Hf s b s' H Hc. unfold sbind in H. pose proof (Hm s) as Ht. destruct (m s) as [[a|e| |] s1] eqn:Hs; try done.
  eapply Hf; [exact H|]. unfold tally in Ht. cbn in Ht. injection Ht as H1 H2 H3. unfold owing. by rewrite H1, H2, H3.
Qed.
Lemma settles_assign {B} f (k : unit → M B) : (∀ s, owing s → counted (f s)) → (∀ a, keeps_count (k a)) → settles (sbind (assign_ f) k).
Proof. intros Hf Hk s b s' H Ho. eapply Hk; [exact H|]. by apply Hf. Qed.

Lemma settles_reject request cause : settles (reject o clock request cause).
Proof.
  unfold reject. apply settles_bind; [apply steady_lift|intros r2]. intros s a s' H Ho. unfold sbind at 1, get in H. cbn [id] in H.
  revert s' H. unfold sbind at 1, assign_. intros s' H.
  assert (counted (set_rejected (rejected s ++ [(request, cause, outstanding s <? K (oAPCI o))]) s)) as Hc.
  { unfold owing, counted in *. cbn. rewrite length_app, Ho. do 2 f_equal. cbn. lia. }
  revert H Hc. case_if; intros H Hc; (eapply steady_counted; [|exact H|exact Hc]).
  - apply steady_sendI.
  - apply steady_bind; [apply steady_ack|intros _; apply steady_admit].
Qed.

Lemma settles_deliver m b leg : settles (do* observe b leg in queueEvent_or_fail o (mkEvent ASDUReceived (Some m) None None)).
Proof.
  intros s a s' H Ho. unfold observe, sbind at 1 2, get, assign_ in H.
  eapply steady_counted; [apply steady_queueEvent|exact H|]. unfold owing, counted in *. cbn. rewrite length_app, Ho. do 2 f_equal. cbn. lia.
Qed.

Lemma keeps_receiveI f leg : keeps_count (receiveI o role clock f leg).
Proof.
  intros s a s' H Hc. unfold receiveI, sbind at 1, get in H. cbn [id] in H. revert H. case_if; intros H.
  { eapply steady_counted; [|exact H|exact Hc]. unfold in_. calm. }
  revert H. unfold sbind at 1, lift. destruct (DecodeASDU (FASDU f) (oParams o)) as [m|e| |]; try done. intros H.
  unfold sbind at 1, assign_ in H. revert H. unfold sbind at 1, assign_. intros H.
  match type of H with ?op ?st = _ => assert (owing st) as Ho; [|assert (settles op) as Hs; [|by eapply Hs]] end.
  { unfold owing. cbn. unfold counted in Hc. rewrite Hc. unfold u64. rewrite Zplus_mod_idemp_l. f_equal. lia. }
  unfold in_, when. apply settles_bind; [steady|intros _]. apply settles_bind; [steady|intros _].
  apply settles_bind; [steady|intros h]. cbv zeta.
  match goal with |- settles (if ?b then _ else _) => destruct b end; [apply settles_reject|].
  apply settles_bind; [destruct (_ <=? _); [apply steady_ack|apply steady_ret]|intros _]. apply settles_deliver.
Qed.

Lemma keeps_iterate ev : keeps_count (iterate o role clock ev).
Proof.
  unfold iterate. apply keeps_count_bind; [|intros _; apply keeps_count_steady; unfold loop_head; apply steady_bind; [apply steady_expire|intros _; apply steady_pump]].
  destruct ev as [|fl| |start r|i| |]; cbn [handle].
  - apply keeps_count_steady. calm.
  - apply keeps_count_steady. unfold when. repeat first [apply steady_flushClose|steady_step].
  - apply keeps_count_steady. calm.
  - apply keeps_count_steady, steady_operation.
  - unfold input. apply keeps_count_bind; [apply keeps_count_steady, steady_get|intros ca]. destruct (is_some ca); [apply keeps_count_steady, steady_ret|].
    destruct i as [f at_ leg|e]; [|apply keeps_count_steady, steady_fail]. apply keeps_count_bind; [apply keeps_count_steady, steady_activity|intros _].
    unfold receive. destruct (Kind f) eqn:Hk; try (apply keeps_count_steady, steady_ret); try (apply keeps_count_steady, steady_receiveU).
    all: apply keeps_count_bind; [apply keeps_count_steady, steady_get|intros st]; destruct (negb st); [apply keeps_count_steady, steady_fail|].
    all: apply keeps_count_bind; [apply keeps_count_steady, steady_acknowledge|intros _]; first [apply keeps_receiveI|apply keeps_count_steady, steady_ret].
  - apply keeps_count_steady. calm.
  - apply keeps_count_steady, steady_expire.
Qed.

Lemma step_counted s s' : step o role clock s s' → gone s' = false → counted s → counted s'.
Proof.
  intros Hstep Hg' Hc. destruct Hstep as [ev s s' _ _ H|ev s e s' _ _ H|m s r s' _ H|c g b s r s' _ H| | |s x at_ s' _ _ H| | |]; try done.
  - by eapply keeps_iterate.
  - exfalso. revert Hg'. unfold finish. cbn. by destruct (generation s').
  - eapply steady_counted; [apply steady_Send|exact H|exact Hc].
  - eapply steady_counted; [apply steady_admitFile|exact H|exact Hc].
  - exact (steady_counted _ _ _ _ (steady_written x) H Hc).
Qed.

Lemma reachable_counted s : reachable o role clock s → gone s = false → counted s.
Proof.
  unfold reachable. assert (counted (newSession o clock)) as H0 by done. revert H0. generalize (newSession o clock). intros s0 H0 Hstar.
  induction Hstar as [|a b c Hab Hbc IH]; intros Hg; [done|]. apply IH; [|done]. eapply step_counted; [exact Hab| |done].
  destruct (gone b) eqn:E; [|done]. exfalso. clear IH H0 Hab. induction Hbc; [congruence|].
  apply IHHbc; [done|]. by eapply step_gone.
Qed.

(** ** Timers *)
Lemma due_earlier now a b : due now (earlier a b) = due now a || due now b.
Proof.
  destruct a as [x|], b as [y|]; cbn; [|by rewrite orb_false_r|done|done].
  destruct (x <? y) eqn:E; cbn; bool_facts;
    destruct (now <? x) eqn:E1, (now <? y) eqn:E2; bool_facts; try done; lia.
Qed.

Lemma due_nextDeadline now s : due now (nextDeadline s) = true ↔
  due now (idle s) = true ∨ due now (t1 s) = true ∨ due now (t2 s) = true ∨ due now (drain s) = true ∨
  ∃ f x, u s !! f = Some x ∧ due now (Some x) = true.
Proof.
  unfold nextDeadline. generalize (u s). intros m.
  apply (map_fold_weak_ind (λ r m, due now r = true ↔
    due now (idle s) = true ∨ due now (t1 s) = true ∨ due now (t2 s) = true ∨ due now (drain s) = true ∨
    ∃ f x, m !! f = Some x ∧ due now (Some x) = true)).
  - rewrite !due_earlier, !orb_true_iff. split; [|intros H].
    + naive_solver.
    + destruct H as [?|[?|[?|[?|(f & x & Hx & _)]]]]; auto. by rewrite lookup_empty in Hx.
  - intros i x m' r Hi IH. rewrite due_earlier, orb_true_iff, IH. split.
    + intros [[?|[?|[?|[?|(f & y & Hy & ?)]]]]|?]; auto.
      * do 4 right. exists f, y. split; [|done]. rewrite lookup_insert_ne by congruence. done.
      * do 4 right. exists i, x. by rewrite lookup_insert_eq.
    + intros [?|[?|[?|[?|(f & y & Hy & ?)]]]]; auto 6.
      destruct (decide (f = i)) as [->|Hf].
      * rewrite lookup_insert_eq in Hy. injection Hy as ->. by right.
      * rewrite lookup_insert_ne in Hy by done. left. do 4 right. eauto.
Qed.

Lemma supervised_due now s :
  existsb (λ '(_, deadline), due now (Some deadline)) (map_to_list (u s)) = true ↔
  ∃ f x, u s !! f = Some x ∧ due now (Some x) = true.
Proof.
  rewrite existsb_exists. split.
  - intros ([f x] & Hin & Hd). apply list_elem_of_In, elem_of_map_to_list in Hin. eauto.
  - intros (f & x & Hu & Hd). exists (f, x). split; [|done].
    by apply list_elem_of_In, elem_of_map_to_list.
Qed.

(** [expire] after its clock reading. *)
Definition expire_at (now : Z) : M unit :=
  let* s := get id in
  if due now (t1 s) || due now (drain s) then sfail ErrT1
  else if existsb (λ '(_, deadline), due now (Some deadline)) (map_to_list (u s)) then sfail ErrT1
  else
    do* when (due now (t2 s)) (ack o clock false) in
    let* s := get id in
    if due now (idle s) then
      if is_some (u s !! TestFRCon) then assign_ (set_idle (Some (now + T3 (oAPCI o))))
      else sendU o clock TestFRAct
    else sret tt.

Lemma expire_idle now s : due now (nextDeadline s) = false → expire_at now s = (Ok tt, s).
Proof.
  intros H. pose proof (due_nextDeadline now s) as Hd. rewrite H in Hd.
  assert (due now (idle s) = false ∧ due now (t1 s) = false ∧ due now (t2 s) = false ∧
          due now (drain s) = false) as (Hi & H1 & H2 & H3).
  { destruct (due now (idle s)), (due now (t1 s)), (due now (t2 s)), (due now (drain s)); naive_solver. }
  assert (existsb (λ '(_, deadline), due now (Some deadline)) (map_to_list (u s)) = false) as H4.
  { apply not_true_iff_false. rewrite supervised_due. intros Hs. destruct Hd as [_ Hd].
    by specialize (Hd ltac:(auto 6)). }
  unfold expire_at, sbind, get, when, sret. cbn [id]. rewrite H1, H3, H4, H2. cbn. by rewrite Hi.
Qed.

Lemma expire_T1 now s : Inv s →
  fst (expire_at now s) = Err ErrT1 ↔
  due now (t1 s) = true ∨ due now (drain s) = true ∨ ∃ f x, u s !! f = Some x ∧ due now (Some x) = true.
Proof.
  intros [Hc Hr]. rewrite <- supervised_due. unfold expire_at.
  destruct (due now (t1 s) || due now (drain s)) eqn:E1.
  { unfold sbind, get. cbn [id]. rewrite E1. apply orb_true_iff in E1. naive_solver. }
  destruct (existsb _ _) eqn:E2.
  { unfold sbind, get. cbn [id]. rewrite E1, E2. naive_solver. }
  apply orb_false_iff in E1 as [E1 E1']. rewrite E1, E1'.
  split; [|naive_solver]. intros H. exfalso. revert H.
  unfold sbind at 1, get. cbn [id]. rewrite E1, E1', E2. cbn [orb].
  assert (wp (do* when (due now (t2 s)) (ack o clock false) in
              let* s := get id in
              if due now (idle s) then
                if is_some (u s !! TestFRCon) then assign_ (set_idle (Some (now + T3 (oAPCI o))))
                else sendU o clock TestFRAct
              else sret tt) (λ _ _, True) (λ _ _, False) s) as Hwp; [|unfold wp in Hwp].
  { steps. assert (wp (when (due now (t2 s)) (ack o clock false)) (λ _, room) (λ _ _, False) s) as Hack.
    { unfold when. case_if; [|by steps].
      eapply wp_ack; [done|by apply room_out|]. intros b _. apply room_ack; [done|].
      pose proof (i_pending _ _ Hc). destruct (i_t2 _ _ Hc) as [_ Ht2].
      destruct (decide (pending s = 0)) as [E|]; [|lia]. by rewrite (Ht2 E) in *. }
    eapply wp_mono; [exact Hack| |done]. intros [] s' Hr'. steps. case_if; [|by steps].
    case_if; [by steps|]. eapply wp_eq; [apply (sendU_act TestFRAct TestFRCon)|done].
    - by right; right.
    - by apply room_out. }
  destruct (sbind _ _ s) as [[] ?]; done.
Qed.

End Invariant.

(** ** Properties *)

(** A controlled station that was started and was given one ASDU to send. *)
Definition demo_options : Options := mkOptions DefaultAPCI (mkFilter [1] []) DefaultParams 64 256.
Definition demo_clock (n : nat) : Z := Z.of_nat n.
Definition demo_start : event := EvInput (InFrame (mkFrame UFrame 0 0 StartDTAct []) 0 None).
Definition demo_message : Message := ASDUMessage sample_asdu.
Definition demo_started : Session :=
  snd (iterate demo_options ServerRole demo_clock demo_start (newSession demo_options demo_clock)).
Definition demo_admitted : Session := snd (Session_Send demo_options demo_message demo_started).
Definition demo : Session := snd (iterate demo_options ServerRole demo_clock EvWake demo_admitted).

Lemma demo_options_ok : options_ok demo_options.
Proof. repeat split; vm_compute; lia. Qed.

Lemma demo_reachable : reachable demo_options ServerRole demo_clock demo.
Proof.
  apply (star_step _ _ demo_started).
  { apply (step_iterate _ _ _ demo_start); [done| |done]. split; [done|].
    split; [|done]. repeat split; vm_compute; try congruence; constructor. }
  apply (star_step _ _ demo_admitted).
  { apply (step_Send _ _ _ demo_message _ (Ok tt)); [|done].
    split; [|repeat constructor]; repeat split; vm_compute; congruence. }
  apply (star_step _ _ demo); [|constructor].
  by apply (step_iterate _ _ _ EvWake).
Qed.

(** C23. Windows, timers and transfer states of a running session. At most k
    I frames are unacknowledged, and t1 runs exactly while there are some;
    fewer than w receives wait for an acknowledgement, and t2 runs exactly
    while there are some. In STOPPED nothing is outstanding, pending or
    queued, so stopping has drained both directions. Admission is open exactly
    when transfer is started and neither side is stopping or failing. *)
Theorem session_windows (o : Options) (role : Role) (clock : nat → Z) (s : Session) :
  options_ok o → reachable o role clock s → gone s = false →
  0 ≤ outstanding s ≤ K (oAPCI o) ∧ (t1 s = None ↔ outstanding s = 0) ∧
  0 ≤ pending s < W (oAPCI o) ∧ (t2 s = None ↔ pending s = 0) ∧
  (started s = false → outstanding s = 0 ∧ pending s = 0 ∧ sends s = []) ∧
  accepting s = started s && negb (peerStop s) && negb (localStop s) && negb (is_some (closeAfter s)).
Proof.
  intros Ho Hr Hg. destruct (reachable_Inv o role clock Ho s Hr Hg) as [[] _].
  split_and!; try done; try lia.
  - rewrite outstanding_mod. apply Z.mod_pos_bound. lia.
  - intros Hs. by destruct (i_stopped0 Hs) as (? & ? & ? & _).
Qed.

Lemma session_windows_witness :
  outstanding demo = 1 ∧ (t1 demo = None ↔ outstanding demo = 0).
Proof.
  split; [vm_compute; reflexivity|].
  apply (session_windows demo_options ServerRole demo_clock demo demo_options_ok demo_reachable eq_refl).
Defined.

(** C24. Every queue of a running session stays within its bound, and no
    iteration of its loop panics. The writer's queue never overflows: at most
    five control frames join the data frames, so the eight reserved slots are
    enough, and a session that ends with a full queue had a full admission
    queue. *)
Theorem session_queues (o : Options) (role : Role) (clock : nat → Z) (s : Session) (ev : event) :
  options_ok o → reachable o role clock s → gone s = false → enabled o role s ev →
  (length (sends s) ≤ SendQueue o)%nat ∧ (length (out s) ≤ SendQueue o + 5)%nat ∧
  (length (events s) ≤ EventQueue o)%nat ∧
  safe (fst (iterate o role clock ev s)) ∧
  ∀ s', iterate o role clock ev s = (Err ErrQueueFull, s') → length (sends s') = SendQueue o.
Proof.
  intros Ho Hr Hg He. pose proof (reachable_Inv o role clock Ho s Hr Hg) as HI.
  pose proof (wp_iterate o role clock Ho ev s HI He) as Hwp. unfold wp in Hwp.
  destruct HI as [Hc Hroom]. split_and!; try apply Hc.
  - unfold room in Hroom. lia.
  - by destruct (iterate o role clock ev s) as [[] ?].
  - intros s' H. rewrite H in Hwp. by apply Hwp.
Qed.

Lemma session_queues_witness :
  safe (fst (iterate demo_options ServerRole demo_clock EvTimer demo)).
Proof.
  apply (session_queues demo_options ServerRole demo_clock demo EvTimer demo_options_ok demo_reachable
           eq_refl I).
Defined.

(** Numbering. The I frames a session queues carry N(S) = 0, 1, 2, ...
    modulo 32768 without a gap, the next being V(S); every I and S frame
    carries as N(R) the number of I frames accepted when it was queued; and
    the octets on the wire are the queued frames in their order. *)
Theorem session_numbering (o : Options) (role : Role) (clock : nat → Z) (s : Session) :
  options_ok o → reachable o role clock s → gone s = false →
  (∀ i ns payload, iframes (wires s) !! i = Some (ns, payload) → ns = Z.of_nat i mod 32768) ∧
  sent s = Z.of_nat (length (iframes (wires s))) mod 32768 ∧
  Forall wire_ok (wires s) ∧
  wire s = take (length (wire s)) (wbytes <$> wires s).
Proof.
  intros Ho Hr Hg. destruct (reachable_Inv o role clock Ho s Hr Hg) as [Hc _].
  destruct (i_numbered _ _ _ _ Hc) as [Hn Hs]. pose proof (i_queue _ _ _ _ Hc) as Hq.
  split_and!; [|done|apply Hq|apply Hq].
  intros i ns payload Hi. pose proof (lookup_lt_Some _ _ _ Hi) as Hl.
  assert ((fst <$> iframes (wires s)) !! i = Some ns) as Hf by (by rewrite list_lookup_fmap, Hi).
  rewrite Hn, list_lookup_fmap, lookup_seq_lt in Hf by done. by injection Hf as <-.
Qed.

Lemma session_numbering_witness :
  length (iframes (wires demo)) = 1%nat ∧ sent demo = Z.of_nat (length (iframes (wires demo))) mod 32768.
Proof.
  split; [vm_compute; reflexivity|].
  apply (session_numbering demo_options ServerRole demo_clock demo demo_options_ok demo_reachable eq_refl).
Defined.

(** C25. Admitted data goes out in order, once each, and nothing else does but
    rejections.  What was admitted (by [Send], for the file worker, or as a
    rejection outside the send window) is what went out as I frames followed
    by what still waits; the I frames are exactly an interleaving of the former
    with the rejections sent at once, each list in its order.  Each rejection
    answers a request that decodes and that the filter of a server refuses,
    with the filter's cause; the ASDUs accepted in sequence are as many as
    those delivered and those rejected; and without a filter, or on a client,
    there are no rejections. *)
Theorem session_fifo (o : Options) (role : Role) (clock : nat → Z) (s : Session) :
  options_ok o → reachable o role clock s → gone s = false →
  (∃ pumped, admitted s = pumped ++ (qbytes <$> sends s) ∧
     interleaving pumped (omap at_once (rejected s)) (snd <$> iframes (wires s))) ∧
  Forall (rejection_ok o role) (rejected s) ∧
  receivedCount s = u64 (Z.of_nat (length (observed s) + length (rejected s))) ∧
  (unfiltered o role → rejected s = [] ∧ admitted s = (snd <$> iframes (wires s)) ++ (qbytes <$> sends s)).
Proof.
  intros Ho Hr Hg. destruct (reachable_Inv o role clock Ho s Hr Hg) as [Hc _].
  pose proof (i_order _ _ _ _ Hc) as (pumped & Ha & Hil). pose proof (i_rejected _ _ _ _ Hc) as Hrej.
  split; [by exists pumped|]. split; [done|]. split; [by eapply reachable_counted|]. intros Hu.
  assert (rejected s = []) as E.
  { destruct (rejected s) as [|[[request cause] now] rest]; [done|]. apply Forall_cons in Hrej as [(Hsrv & m & h & _ & _ & Hcause & Hne) _].
    exfalso. apply Hne. rewrite Hcause. destruct (filter_reject_cases (oFilter o) h) as [->|[_ Hf]]; [done|].
    destruct Hu as [?|?]; [congruence|done]. }
  split; [done|]. rewrite E in Hil. cbn in Hil. by rewrite (interleaving_one _ _ Hil).
Qed.

(** A request that the filter refuses is answered between two admitted ASDUs. *)
Definition demo_request : Frame :=
  mkFrame IFrame 0 1 0 [100; 1; 6; 0; 77; 0; 0; 0; 0; 20].
Definition demo_refused : Session :=
  snd (iterate demo_options ServerRole demo_clock (EvInput (InFrame demo_request 0 None)) demo).
Definition demo_again : Session := snd (Session_Send demo_options demo_message demo_refused).
Definition demo_mixed : Session := snd (iterate demo_options ServerRole demo_clock EvWake demo_again).

Lemma demo_mixed_reachable : reachable demo_options ServerRole demo_clock demo_mixed.
Proof.
  apply (star_snoc _ _ demo_again); [|by apply (step_iterate _ _ _ EvWake)].
  apply (star_snoc _ _ demo_refused).
  - apply (star_snoc _ _ demo); [apply demo_reachable|].
    apply (step_iterate _ _ _ (EvInput (InFrame demo_request 0 None))); [done| |vm_compute; reflexivity]. split; [done|].
    split; [|done]. repeat split; vm_compute; try congruence; repeat constructor; congruence.
  - apply (step_Send _ _ _ demo_message _ (Ok tt)); [|vm_compute; reflexivity].
    split; [|repeat constructor]; repeat split; vm_compute; congruence.
Qed.

Lemma session_fifo_witness :
  admitted demo_mixed = [sample_octets; sample_octets] ∧
  snd <$> iframes (wires demo_mixed) = [sample_octets; rejection (FASDU demo_request) UnknownCA; sample_octets] ∧
  Forall (rejection_ok demo_options ServerRole) (rejected demo_mixed) ∧
  ∃ pumped, admitted demo_mixed = pumped ++ (qbytes <$> sends demo_mixed) ∧
    interleaving pumped (omap at_once (rejected demo_mixed)) (snd <$> iframes (wires demo_mixed)).
Proof.
  split; [vm_compute; reflexivity|]. split; [vm_compute; reflexivity|].
  destruct (session_fifo demo_options ServerRole demo_clock demo_mixed demo_options_ok demo_mixed_reachable eq_refl) as (H1 & H2 & _).
  split; [exact H2|exact H1].
Defined.

(** Receive accounting. At most w accepted I frames are not covered by an
    acknowledgement on the wire, whatever the writer does; V(R) is the number
    accepted modulo 32768; and the S frame written on a local close
    acknowledges exactly what was accepted. *)
Theorem session_receive_window (o : Options) (role : Role) (clock : nat → Z) (s : Session) :
  options_ok o → reachable o role clock s → gone s = false →
  u64 (receivedCount s - acknowledgedCount s) ≤ W (oAPCI o) ∧
  received s = receivedCount s mod 32768 ∧
  ∀ s', writeFinalACK s = (Ok tt, s') → wire s' = wire s ∨
    ∃ b, Frame_MarshalBinary (mkFrame SFrame 0 (received s) 0 []) = Ok b ∧ wire s' = wire s ++ [b] ∧
         (receivedCount s ≠ 0 → acknowledgedCount s' = receivedCount s).
Proof.
  intros Ho Hr Hg. destruct (reachable_Inv o role clock Ho s Hr Hg) as [Hc _].
  pose proof (i_count _ _ _ _ Hc) as Hn.
  destruct (q_counts _ _ _ _ _ _ _ _ (i_queue _ _ _ _ Hc)) as (_ & _ & Hl).
  split; [done|]. split; [done|]. intros s' H.
  unfold writeFinalACK, sbind, get, lift, written, assign_, when, sret in H. cbn [id] in H.
  rewrite land_u16, <- Hn in H. case_if_in H; [left; by injection H as <-|]. right.
  destruct (Frame_MarshalBinary (mkFrame SFrame 0 (received s) 0 [])) as [b|?| |] eqn:Hb; try done.
  exists b. cbn [wreceiveCount wbytes] in H. split; [done|].
  case_if_in H; injection H as <-; bool_facts; split; try done.
Qed.

Lemma session_receive_window_witness :
  u64 (receivedCount demo - acknowledgedCount demo) ≤ W (oAPCI demo_options).
Proof.
  apply (session_receive_window demo_options ServerRole demo_clock demo demo_options_ok demo_reachable eq_refl).
Defined.

(** The octets a session sends to reject a request are the encoding of
    its [Mirror] with the filter's cause and the negative flag: sent at once
    inside the send window, and admitted behind an acknowledgement outside it.
    (The request is in the canonical SQ form; otherwise the rejection keeps
    the SQ bit it received.) *)
Theorem reject_is_mirror (o : Options) (clock : nat → Z) (request : list Z) (m : Message)
    (cause : Z) (s : Session) :
  bytes_ok request → DecodeASDU request (oParams o) = Ok m → canonical request = request →
  cause = UnknownCA ∨ cause = UnknownType →
  ∃ m' bytes, Mirror m cause true = Ok m' ∧ Message_MarshalBinary (oParams o) m' = Ok bytes ∧
    let s' := set_rejected (rejected s ++ [(request, cause, outstanding s <? K (oAPCI o))]) s in
    reject o clock request cause s =
      (if outstanding s <? K (oAPCI o) then sendI o clock bytes None s'
       else (do* ack o clock false in Session_admit o bytes) s').
Proof.
  intros Hb Hd Hcan Hc. apply decode_encode_asdu in Hd as [Ht Hm]; [|done]. rewrite Hcan in Hm.
  assert (0 ≤ cause ≤ 63) as Hcr by (destruct Hc as [-> | ->]; vm_compute; split; congruence).
  destruct (mirror_marshal _ _ cause true _ Ht Hm Hcr) as (m' & Hmir & Hbytes).
  eexists m', _. split; [done|]. split; [exact Hbytes|].
  assert (2 < length request)%nat as Hl. by (apply marshal_length in Hm; lia).
  destruct (lookup_lt_is_Some_2 request 2 Hl) as [r2 Hr2].
  rewrite (list_lookup_total_correct _ _ _ Hr2).
  unfold reject, sbind at 1, lift, idx. rewrite Hr2.
  replace (mirrored_cause r2 cause true) with (Z.lor (Z.lor (Z.land r2 0x80) 0x40) cause)
    by (unfold mirrored_cause, flag; rewrite Z.lor_comm, (Z.lor_comm (Z.land r2 _)); apply Z.lor_assoc).
  unfold sbind at 1, get. cbn [id]. unfold sbind at 1, assign_. by case_if.
Qed.

Lemma reject_is_mirror_witness :
  ∃ m' bytes, Mirror (ASDUMessage (mkASDU (ASDU_GetHeader sample_asdu) (Objects sample_asdu))) UnknownCA true = Ok m' ∧
    Message_MarshalBinary DefaultParams m' = Ok bytes ∧
    reject demo_options demo_clock sample_octets UnknownCA demo =
    sendI demo_options demo_clock bytes None (set_rejected [(sample_octets, UnknownCA, true)] demo).
Proof.
  exact (reject_is_mirror demo_options demo_clock sample_octets
    (ASDUMessage (mkASDU (ASDU_GetHeader sample_asdu) (Objects sample_asdu))) UnknownCA demo
    ltac:(repeat constructor; vm_compute; congruence) eq_refl eq_refl (or_introl eq_refl)).
Defined.

(** Timer supervision is exact. The deadline the loop sleeps to is due
    exactly when one of the session's deadlines is; before it, [expire]
    changes nothing but the clock reading; and [expire] reports the loss of
    the peer exactly when t1, a supervised confirmation or the drain limit is
    due. *)
Theorem timers_exact (o : Options) (role : Role) (clock : nat → Z) (s : Session) :
  options_ok o → reachable o role clock s → gone s = false →
  let now := clock (ticks s) in
  (due now (nextDeadline s) = true ↔
     due now (idle s) = true ∨ due now (t1 s) = true ∨ due now (t2 s) = true ∨ due now (drain s) = true ∨
     ∃ f x, u s !! f = Some x ∧ due now (Some x) = true) ∧
  (due now (nextDeadline s) = false → expire o clock s = (Ok tt, set_ticks (S (ticks s)) s)) ∧
  (fst (expire o clock s) = Err ErrT1 ↔
     due now (t1 s) = true ∨ due now (drain s) = true ∨
     ∃ f x, u s !! f = Some x ∧ due now (Some x) = true).
Proof.
  intros Ho Hr Hg now. split; [apply due_nextDeadline|].
  assert (expire o clock s = expire_at o clock now (tick s)) as He by done. split.
  - intros Hd. rewrite He. exact (expire_idle o clock now (tick s) Hd).
  - rewrite He. destruct (reachable_Inv o role clock Ho s Hr Hg) as [Hc Hroom].
    refine (expire_T1 o role clock now (tick s) _). split; [by apply core_tick|done].
Qed.

Lemma timers_exact_witness :
  expire demo_options demo_clock demo = (Ok tt, set_ticks (S (ticks demo)) demo).
Proof.
  apply (timers_exact demo_options ServerRole demo_clock demo demo_options_ok demo_reachable eq_refl).
  vm_compute. reflexivity.
Defined.
