(* ===== verification/GoLib.v ===== *)
(** * Parts of Go's library used by the field devices

    A state-and-error monad for methods of a mutex-guarded object; [float64]
    as the IEEE 754 binary64 of [SpecFloat]; durations; RFC 3339 times. *)
From S2P Require Import Prelude.
From stdpp Require Export strings.
From Stdlib Require Import SpecFloat.
From Stdlib Require Export Ascii.

#[local] Open Scope Z_scope.

(** ** Methods on a guarded object

    A method body under the object's lock takes the state and returns an
    outcome and the state it leaves, also when it panics. *)
Definition stM (S E A : Type) : Type := S → outcome E A * S.

Definition st_ret {S E A} (a : A) : stM S E A := λ s, (Ok a, s).
Definition st_bind {S E A B} (m : stM S E A) (k : A → stM S E B) : stM S E B :=
  λ s, match m s with
       | (Ok a, s') => k a s'
       | (Err e, s') => (Err e, s')
       | (Panic, s') => (Panic, s')
       | (Diverge, s') => (Diverge, s')
       end.
Definition st_get {S E} : stM S E S := λ s, (Ok s, s).
Definition st_upd {S E} (f : S → S) : stM S E unit := λ s, (Ok tt, f s).

(** [*p] on a pointer that may be nil. *)
Definition deref {S E A} (p : option A) : stM S E A :=
  λ s, (match p with Some a => Ok a | None => Panic end, s).

Definition st_when {S E} (b : bool) (m : stM S E unit) : stM S E unit :=
  if b then m else st_ret tt.

Declare Scope state_scope.
Delimit Scope state_scope with state.
#[global] Open Scope state_scope.
Notation "'let?' x ':=' m 'in' k" := (st_bind m (λ x, k))
  (at level 10, x name, m at level 200, k at level 200,
   format "'let?'  x  ':='  m  'in' '//' k") : state_scope.
Notation "'let?' ' p ':=' m 'in' k" := (st_bind m (λ p, k))
  (at level 10, p strict pattern, m at level 200, k at level 200) : state_scope.
Notation "'do?' m 'in' k" := (st_bind m (λ _ : unit, k))
  (at level 10, m at level 200, k at level 200, format "'do?'  m  'in' '//' k") : state_scope.

(** ** Binary64 *)
Definition float64 : Type := spec_float.

Definition f64_of (m e : Z) : float64 := binary_normalize 53 1024 m e false.

Definition fadd : float64 → float64 → float64 := SFadd 53 1024.
Definition fmul : float64 → float64 → float64 := SFmul 53 1024.
Definition fdiv : float64 → float64 → float64 := SFdiv 53 1024.
Definition fsqrt : float64 → float64 := SFsqrt 53 1024.

Definition IsNaN (x : float64) : bool := match x with S754_nan => true | _ => false end.
Definition IsInf (x : float64) : bool := match x with S754_infinity _ => true | _ => false end.

(** The largest finite binary32, [math.MaxFloat32]. *)
Definition MaxFloat32 : float64 := f64_of (2 ^ 24 - 1) 104.

(** [math.Hypot]. *)
Definition Hypot (p q : float64) : float64 :=
  let p := SFabs p in
  let q := SFabs q in
  if IsInf p || IsInf q then S754_infinity false
  else if IsNaN p || IsNaN q then S754_nan
  else
    let '(p, q) := if SFltb p q then (q, p) else (p, q) in
    if SFeqb p (S754_zero false) then S754_zero false
    else
      let q := fdiv q p in
      fmul p (fsqrt (fadd (f64_of 1 0) (fmul q q))).

(** [math.Round] followed by the saturating conversion [uint16(min(65535, x))]
    of a value that is not negative: halves go up. *)
Definition round_half_up (m : positive) (e : Z) : Z :=
  if 0 <=? e then Z.shiftl (Z.pos m) e
  else Z.shiftr (Z.pos m + Z.shiftl 1 (- e - 1)) (- e).

(** [math.Float32bits(float32(x))]: rounding to binary32, then the encoding. *)
Definition to_float32 (x : float64) : spec_float :=
  match x with
  | S754_finite s m e => binary_normalize 24 128 (if s then Z.neg m else Z.pos m) e s
  | _ => x
  end.

Definition Float32bits (x : spec_float) : Z :=
  match x with
  | S754_nan => 0x7FC00000
  | S754_zero s => if s then 0x80000000 else 0
  | S754_infinity s => if s then 0xFF800000 else 0x7F800000
  | S754_finite s m e =>
      let sign := if s then 0x80000000 else 0 in
      if Z.pos m <? 2 ^ 23 then sign + Z.pos m
      else sign + (e + 150) * 2 ^ 23 + (Z.pos m - 2 ^ 23)
  end.

(** ** Times and durations

    A [time.Time] is a number of nanoseconds since 1970, a [time.Duration] one
    of nanoseconds in an [int64]; [Sub] saturates. *)
Definition nanosecond : Z := 1.
Definition millisecond : Z := 1000000.
Definition maxDuration : Z := 2 ^ 63 - 1.
Definition minDuration : Z := - 2 ^ 63.

Definition time_Sub (t u : Z) : Z := Z.max minDuration (Z.min maxDuration (t - u)).

(** The zero [time.Time], 1 January of the year 1. *)
Definition zero_time : Z := -62135596800 * 1000000000.

(** Days from 1 January 1970 to the first day of a year, and from there to
    the first day of a month. *)
Definition days_to_year (y : Z) : Z :=
  365 * (y - 1970) + ((y - 1) / 4 - 492) - ((y - 1) / 100 - 19) + ((y - 1) / 400 - 4).

Definition days_to_month (y m : Z) : Z :=
  foldr (λ k acc, days_in y k + acc) 0 (seqZ 1 (m - 1)).

Definition unix_nano (y m d h mi s ns : Z) : Z :=
  ((((days_to_year y + days_to_month y m + (d - 1)) * 24 + h) * 60 + mi) * 60 + s) * 1000000000 + ns.

(** ** RFC 3339

    [time.Parse(time.RFC3339Nano, s)] on the strings the source lets pass:
    ending in Z, with [T] and the colons in their columns and without a comma,
    for which Go's parser accepts exactly
    [YYYY-MM-DDTHH:MM:SSZ] with an optional [.digits] in front of the [Z].  The fraction counts to the
    nanosecond, further digits are dropped. *)
Definition digit (c : ascii) : option Z :=
  let n := Z.of_nat (nat_of_ascii c) in
  if (48 <=? n) && (n <=? 57) then Some (n - 48) else None.

Fixpoint number (acc : Z) (s : list ascii) : option Z :=
  match s with
  | [] => Some acc
  | c :: s' => match digit c with Some d => number (10 * acc + d) s' | None => None end
  end.

Fixpoint fraction (weight acc : Z) (s : list ascii) : option Z :=
  match s with
  | [] => Some acc
  | c :: s' =>
      match digit c with Some d => fraction (weight / 10) (acc + d * weight) s' | None => None end
  end.

(** The nanoseconds behind the seconds, up to the final [Z]. *)
Definition parse_fraction (s : list ascii) : option Z :=
  match s with
  | [] => None
  | c :: tail =>
      match rev tail with
      | [] => if Ascii.eqb c "Z" then Some 0 else None
      | z :: r =>
          if Ascii.eqb z "Z" && Ascii.eqb c "." && negb (length r =? 0)%nat
          then fraction 100000000 0 (rev r) else None
      end
  end.

Definition parse_RFC3339 (s : string) : option Z :=
  match String.list_ascii_of_string s with
  | y1 :: y2 :: y3 :: y4 :: c1 :: m1 :: m2 :: c2 :: d1 :: d2 :: t :: h1 :: h2 :: c3
    :: i1 :: i2 :: c4 :: s1 :: s2 :: rest =>
      if Ascii.eqb c1 "-" && Ascii.eqb c2 "-" && Ascii.eqb t "T" && Ascii.eqb c3 ":" &&
         Ascii.eqb c4 ":"
      then
        y ← number 0 [y1; y2; y3; y4];
        m ← number 0 [m1; m2];
        d ← number 0 [d1; d2];
        h ← number 0 [h1; h2];
        i ← number 0 [i1; i2];
        sec ← number 0 [s1; s2];
        ns ← parse_fraction rest;
        if (1 <=? m) && (m <=? 12) && (1 <=? d) && (d <=? days_in y m) &&
           (h <? 24) && (i <? 60) && (sec <? 60)
        then Some (unix_nano y m d h i sec ns) else None
      else None
  | _ => None
  end.

Example epoch : parse_RFC3339 "1970-01-01T00:00:00Z" = Some 0.
Proof. by vm_compute. Qed.
Example leap_day : parse_RFC3339 "2024-02-29T12:30:15.25Z" = Some 1709209815250000000.
Proof. by vm_compute. Qed.
Example no_leap_day : parse_RFC3339 "2023-02-29T12:30:15Z" = None.
Proof. by vm_compute. Qed.
Example year_zero : parse_RFC3339 "0000-01-01T00:00:00Z" = Some (-62167219200 * 1000000000).
Proof. by vm_compute. Qed.
Example thousandth : fdiv (f64_of 1 0) (f64_of 1000 0) = S754_finite false 4611686018427388 (-62).
Proof. by vm_compute. Qed.
Example hypot_3_4 : Hypot (f64_of 3 0) (f64_of (-4) 0) = f64_of 5 0.
Proof. by vm_compute. Qed.
Example bits_1_5 : Float32bits (to_float32 (f64_of 3 (-1))) = 0x3FC00000.
Proof. by vm_compute. Qed.
Example bits_max : Float32bits (to_float32 MaxFloat32) = 0x7F7FFFFF.
Proof. by vm_compute. Qed.

(** ** Weakest preconditions

    [wp m Q s]: from [s] the method returns a value that satisfies [Q] with
    the state it leaves; it neither fails nor panics. *)
Section WP.
Context {S E : Type}.

Definition wp {A} (m : stM S E A) (Q : A → S → Prop) (s : S) : Prop :=
  match m s with
  | (Ok a, s') => Q a s'
  | _ => False
  end.

Lemma st_wp_ret {A} (a : A) Q s : Q a s → wp (st_ret a) Q s.
Proof. done. Qed.
Lemma st_wp_bind {A B} (m : stM S E A) (k : A → stM S E B) Q s :
  wp m (λ a, wp (k a) Q) s → wp (st_bind m k) Q s.
Proof. unfold wp, st_bind. by destruct (m s) as [[a| e | |] s']. Qed.
Lemma st_wp_get Q s : Q s s → wp st_get Q s.
Proof. done. Qed.
Lemma st_wp_upd f Q s : Q tt (f s) → wp (st_upd f) Q s.
Proof. done. Qed.
Lemma st_wp_deref {A} (p : option A) (a : A) Q s : p = Some a → Q a s → wp (deref p) Q s.
Proof. by intros ->. Qed.
Lemma st_wp_when (b : bool) m Q s :
  (b = true → wp m Q s) → (b = false → Q tt s) → wp (st_when b m) Q s.
Proof. destruct b; intros H1 H2; [by apply H1|by apply H2]. Qed.
Lemma st_wp_mono {A} (m : stM S E A) (Q R : A → S → Prop) s :
  wp m Q s → (∀ a s', Q a s' → R a s') → wp m R s.
Proof. unfold wp. destruct (m s) as [[a| e | |] s']; auto. Qed.
Lemma st_wp_elim {A} (m : stM S E A) Q s :
  wp m Q s → ∃ a s', m s = (Ok a, s') ∧ Q a s'.
Proof. unfold wp. destruct (m s) as [[a| e | |] s'] eqn:H; try done. eauto. Qed.
End WP.
