(* ===== verification/Iec104Procedure.v ===== *)
(** * Procedures of a controlling station (iec104go/procedures.go,
    procedure_wait.go, procedure_wire.go, file_options.go, file_wait.go)

    The requests a client sends and the messages it takes for their answers;
    the transaction that collects the answers, with one leg for each request
    and its write boundary; the functions that run under the locks of the
    session and of the transaction.

    A pointer to a transaction or to a leg is an index into a store.  [wake] is
    whether the channel of that name, of capacity one, holds a value.  A
    message is never nil here: it comes from [DecodeASDU]. *)
From S2P Require Import Prelude Iec104Types Iec104Time Iec104Elements Iec104Asdu.

(** ** Errors *)
Inductive proc_error : Type :=
| ErrProcedureBusy
| ErrProcedureUncertain
| ErrNegativeResponse (cause : Z)
| ErrProcedureOrder
| Canceled
| DeadlineExceeded
| NoDeadline
| ErrFileChecksum
| ErrFileAborted
| FileResponseError (code qualifier : Z)
| Iec (e : iec_error).
#[export] Instance io_error_eq_dec : EqDecision io_error.
Proof. solve_decision. Defined.
#[export] Instance iec_error_eq_dec : EqDecision iec_error.
Proof. solve_decision. Defined.
#[export] Instance proc_error_eq_dec : EqDecision proc_error.
Proof. solve_decision. Defined.

Notation P := (outcome proc_error).

Definition iec {A} (m : outcome iec_error A) : P A :=
  match m with Ok a => Ok a | Err e => Err (Iec e) | Panic => Panic | Diverge => Diverge end.

(** ** Messages *)
Definition zero_header : Header := mkHeader 0 false 0 0 false false 0 0.
Definition GetHeader (m : Message) : Header :=
  match m with ASDUMessage a => ASDU_GetHeader a | RawMessage r => RHeader r | NilMessage => zero_header end.

Definition request (ca oa id address : Z) (e : Element) : ASDU :=
  mkASDU (mkHeader id false 0 Activation false false oa ca) [mkObject address e].

Definition envelopeMatch (req : ASDU) (m : Message) : bool :=
  let h := GetHeader m in
  let want := ASDU_GetHeader req in
  (CommonAddress h =? CommonAddress want) && (Originator h =? Originator want) && Bool.eqb (Test h) (Test want).

(** One step of the loop of [echoed] over the objects. *)
Definition same_object (o want : Object) : bool :=
  (Address o =? Address want) &&
  match encodeElement (Element_ o), encodeElement (Element_ want) with
  | Ok (_, got), Ok (_, expected) => bool_decide (got = expected)
  | _, _ => false
  end.
Fixpoint same_objects (l want : list Object) : bool :=
  match l, want with
  | [], [] => true
  | o :: l', w :: want' => same_object o w && same_objects l' want'
  | _, _ => false
  end.
Definition echoed (req : ASDU) (m : Message) : bool :=
  envelopeMatch req m && (Type_ (GetHeader m) =? Type_ (AHeader req)) &&
  match m with ASDUMessage a => same_objects (Objects a) (Objects req) | _ => false end.

Definition responseError (m : Message) : option proc_error :=
  let h := GetHeader m in
  if Negative h || ((UnknownType <=? Cause h) && (Cause h <=? UnknownIOA)) then Some (ErrNegativeResponse (Cause h)) else None.

(** ** Select and execute *)
Definition select_bit (selecting : bool) (q : Z) : Z := Z.lor (Z.land q 127) (if selecting then 128 else 0).
Definition no_qualifier {A} : P A := Err (Iec ErrMalformed).

(** [setSelection] of an element that is not [Timed]. *)
Definition set_plain (e : Element) (selecting : bool) : P Element :=
  match e with
  | SingleCommand q => Ok (SingleCommand (select_bit selecting q))
  | DoubleCommand q => Ok (DoubleCommand (select_bit selecting q))
  | RegulatingCommand q => Ok (RegulatingCommand (select_bit selecting q))
  | SetpointNormalized v q => Ok (SetpointNormalized v (select_bit selecting q))
  | SetpointScaled v q => Ok (SetpointScaled v (select_bit selecting q))
  | SetpointFloat v q => Ok (SetpointFloat v (select_bit selecting q))
  | BitstringCommand v => if selecting then no_qualifier else Ok (BitstringCommand v)
  | _ => no_qualifier
  end.
Definition setSelection (e : Element) (selecting : bool) : P Element :=
  match e with
  | Timed v t =>
      match v with
      | Timed _ _ => no_qualifier
      | _ => let! inner := set_plain v selecting in Ok (Timed inner t)
      end
  | _ => set_plain e selecting
  end.

Definition commandSelection (req : ASDU) (selecting : bool) : P ASDU :=
  match Objects req with
  | [o] =>
      let! e := setSelection (Element_ o) selecting in
      Ok (mkASDU (set_Cause Activation false (AHeader req)) [mkObject (Address o) e])
  | _ => Err (Iec ErrMalformed)
  end.

(** ** Matching *)
Definition confirm_match (req : ASDU) (m : Message) : bool := echoed req m.
Definition interrogate_match (req : ASDU) (qoi : Z) (m : Message) : bool :=
  envelopeMatch req m && (echoed req m || (Cause (GetHeader m) =? qoi)).
Definition counter_match (req : ASDU) (m : Message) : bool :=
  envelopeMatch req m && (echoed req m || ((37 <=? Cause (GetHeader m)) && (Cause (GetHeader m) <=? 41))).
Definition read_match (req : ASDU) (address : Z) (m : Message) : bool :=
  envelopeMatch req m &&
  (echoed req m ||
   match m with
   | ASDUMessage a => (Cause (AHeader a) =? Request) && existsb (λ o, Address o =? address) (Objects a)
   | _ => false
   end).

(** ** Files *)
Record FileKey : Type := mkKey { K_CommonAddress : Z; K_Originator : Z; K_Address : Z; K_Name : Z }.
#[export] Instance FileKey_eq_dec : EqDecision FileKey.
Proof. solve_decision. Defined.

Definition fileMessage (k : FileKey) (e : Element) (cot : Z) : ASDU :=
  mkASDU (mkHeader (elementType e) (elementType e =? F_DR_TA_1) 0 cot false false (K_Originator k) (K_CommonAddress k))
    [mkObject (K_Address k) e].

Definition fileMatch (k : FileKey) (m : Message) : bool :=
  let h := GetHeader m in
  if (Type_ h =? F_DR_TA_1) && negb (Cause h =? Request) then false
  else match m with
       | ASDUMessage a =>
           (CommonAddress h =? K_CommonAddress k) && (Originator h =? K_Originator k) && negb (Test h) &&
           (isFileType (Type_ h) || ((UnknownType <=? Cause h) && (Cause h <=? UnknownIOA))) &&
           match Objects a with o :: _ => Address o =? K_Address k | [] => false end
       | _ => false
       end.

(** ** Transactions *)
Record fileTransaction : Type := mkFileTx { called : bool; cleanEnd : bool; file_uncertain : bool }.

Record transaction : Type := mkTx {
  t_match : Message → bool;
  responses : list Message;
  consumed : nat;
  wake : bool;
  t_err : option proc_error;
  limit : nat;
  streaming : bool;
  t_file : option fileTransaction;
  t_leg : option nat
}.

(** [procedureLeg]: its transaction and the boundaries of its write. *)
Record procedureLeg : Type := mkLeg { leg_tx : nat; begun : bool; leg_written : bool }.

(** The fields of [Session] that belong to the procedures, and the stores. *)
Record procs : Type := mkProcs {
  s_gone : bool;
  s_procedure : option nat;
  procedureUncertain : bool;
  txs : list transaction;
  legs : list procedureLeg
}.

Definition with_err (e : proc_error) (t : transaction) : transaction :=
  mkTx (t_match t) (responses t) (consumed t) (wake t) (Some e) (limit t) (streaming t) (t_file t) (t_leg t).
Definition with_wake (b : bool) (t : transaction) : transaction :=
  mkTx (t_match t) (responses t) (consumed t) b (t_err t) (limit t) (streaming t) (t_file t) (t_leg t).
Definition with_responses (l : list Message) (n : nat) (t : transaction) : transaction :=
  mkTx (t_match t) l n (wake t) (t_err t) (limit t) (streaming t) (t_file t) (t_leg t).
Definition with_file (f : option fileTransaction) (t : transaction) : transaction :=
  mkTx (t_match t) (responses t) (consumed t) (wake t) (t_err t) (limit t) (streaming t) f (t_leg t).
Definition with_leg (l : nat) (match_ : Message → bool) (t : transaction) : transaction :=
  mkTx match_ (responses t) (length (responses t)) (wake t) (t_err t) (limit t) (streaming t) (t_file t) (Some l).

Definition set_tx (i : nat) (t : transaction) (s : procs) : procs :=
  mkProcs (s_gone s) (s_procedure s) (procedureUncertain s) (<[i := t]> (txs s)) (legs s).
Definition set_leg (l : nat) (g : procedureLeg) (s : procs) : procs :=
  mkProcs (s_gone s) (s_procedure s) (procedureUncertain s) (txs s) (<[l := g]> (legs s)).

(** An operation on a transaction of the store; there is no dangling pointer. *)
Definition on_tx {A} (i : nat) (s : procs) (f : transaction → P A) : P A :=
  match txs s !! i with Some t => f t | None => Panic end.
Definition on_leg {A} (l : nat) (s : procs) (f : procedureLeg → P A) : P A :=
  match legs s !! l with Some g => f g | None => Panic end.

Definition first_err (e : proc_error) (t : transaction) : transaction :=
  match t_err t with None => with_err e t | Some _ => t end.
(** [transaction.fail]. *)
Definition tx_fail (e : proc_error) (t : transaction) : transaction := with_wake true (first_err e t).

(** The part of [observe] under the transaction's lock. *)
Definition offer (m : Message) (leg : option nat) (t : transaction) : transaction :=
  if negb (bool_decide (leg ≠ None)) || negb (bool_decide (leg = t_leg t)) || negb (t_match t m) then t
  else with_wake true
         (if (limit t <=? length (responses t))%nat then with_err (Iec ErrQueueFull) t
          else with_responses (responses t ++ [m]) (consumed t) t).

Section Session.
Context (params : Params) (eventQueue : nat).

Definition observe (payload : list Z) (leg : option nat) (s : procs) : P procs :=
  match s_procedure s with
  | None => Ok s
  | Some i =>
      on_tx i s (λ t,
        match DecodeASDU payload params with
        | Err e => Ok (set_tx i (tx_fail (Iec e) t) s)
        | Ok m => Ok (set_tx i (offer m leg t) s)
        | _ => Panic
        end)
  end.

Definition begin (match_ : Message → bool) (file : bool) (s : procs) : P (nat * procs) :=
  if s_gone s then Err (Iec ErrConnectionGone)
  else match s_procedure s with
       | Some _ => Err ErrProcedureBusy
       | None =>
           if procedureUncertain s then Err ErrProcedureUncertain
           else
             let t := mkTx match_ [] 0 false None eventQueue file
                        (if file then Some (mkFileTx false false false) else None) None in
             Ok (length (txs s),
                 mkProcs (s_gone s) (Some (length (txs s))) (procedureUncertain s) (txs s ++ [t]) (legs s))
       end.

(** [errors.Is] of the sentinels that leave an exchange open; a cancelled
    session reports [ErrContext]. *)
Definition is_canceled (e : proc_error) : bool :=
  match e with Canceled | DeadlineExceeded | Iec ErrContext => true | _ => false end.
Definition leaves_open (e : option proc_error) : bool :=
  match e with
  | Some e => is_canceled e || bool_decide (e = Iec ErrQueueFull) || bool_decide (e = ErrProcedureOrder)
  | None => false
  end.

(** [fileOutcome]: the error and whether the dialogue is unresolved. *)
Definition fileOutcome (f : fileTransaction) (t : transaction) (err : option proc_error) : option proc_error * bool :=
  match t_err t with
  | Some e => (Some e, true)
  | None =>
      if negb (bool_decide (responses t = [])) && (bool_decide (err = None) || cleanEnd f) then (Some ErrProcedureOrder, true)
      else match err with
           | None => (None, false)
           | Some e =>
               if is_canceled e || bool_decide (e = ErrProcedureOrder) then (err, true)
               else (err, negb (cleanEnd f) && called f)
           end
  end.

Definition complete (i : nat) (err : option proc_error) (admitted : bool) (s : procs)
    : P (list Message * option proc_error * procs) :=
  on_tx i s (λ t,
    let err := match t_err t with Some e => Some e | None => err end in
    let '(err, uncertain, t') :=
      match t_file t with
      | None => (err, leaves_open err, t)
      | Some f =>
          let (err, uncertain) := fileOutcome f t err in
          (err, uncertain, with_file (Some (mkFileTx (called f) (cleanEnd f) (admitted && uncertain))) t)
      end in
    Ok (responses t, err,
        mkProcs (s_gone s) (if bool_decide (s_procedure s = Some i) then None else s_procedure s)
          (procedureUncertain s || (admitted && uncertain)) (<[i := t']> (txs s)) (legs s))).

(** One pass of the loop of [next]: an error or a message, or [None] to wait. *)
Definition next_locked (i : nat) (s : procs) : P (option (proc_error + Message) * procs) :=
  on_tx i s (λ t,
    match t_err t with
    | Some e => Ok (Some (inl e), s)
    | None =>
        match t_leg t with
        | None => Ok (None, s)
        | Some l =>
            on_leg l s (λ g,
              match responses t !! consumed t with
              | Some m =>
                  if leg_written g then
                    Ok (Some (inr m),
                        set_tx i (if streaming t then with_responses (drop 1 (responses t)) (consumed t) t
                                  else with_responses (responses t) (S (consumed t)) t) s)
                  else Ok (None, s)
              | None => Ok (None, s)
              end)
        end
    end).

(** ** Legs *)
Definition beginWrite (l : nat) (s : procs) : P procs :=
  on_leg l s (λ g, Ok (set_leg l (mkLeg (leg_tx g) true (leg_written g)) s)).

Definition endWrite (l : nat) (err : option iec_error) (s : procs) : P procs :=
  on_leg l s (λ g,
    let s := set_leg l (mkLeg (leg_tx g) (begun g) (bool_decide (err = None))) s in
    on_tx (leg_tx g) s (λ t,
      let t := match err with Some e => first_err (Iec e) t | None => t end in
      Ok (set_tx (leg_tx g) (with_wake true t) s))).

Definition receivingLeg (s : procs) : P (option nat) :=
  match s_procedure s with
  | None => Ok None
  | Some i =>
      on_tx i s (λ t,
        match t_leg t with
        | None => Ok None
        | Some l => on_leg l s (λ g, Ok (if begun g then Some l else None))
        end)
  end.

(** [sendProcedure] up to its call of [admitLeg]: the octets and the leg. *)
Definition sendProcedure (i : nat) (req : ASDU) (match_ : Message → bool) (s : procs) : P (list Z * nat * procs) :=
  let! b := iec (ASDU_MarshalBinary params req) in
  on_tx i s (λ t,
    match t_err t with
    | Some e => Err e
    | None =>
        if streaming t && negb (bool_decide (responses t = [])) then Err ErrProcedureOrder
        else
          let l := length (legs s) in
          Ok (b, l, mkProcs (s_gone s) (s_procedure s) (procedureUncertain s) (<[i := with_leg l match_ t]> (txs s))
                      (legs s ++ [mkLeg i false false]))
    end).

(** The part of [Session.finish] that concerns the procedures. *)
Definition finish_session (e : iec_error) (s : procs) : P procs :=
  let s := mkProcs true (s_procedure s) (procedureUncertain s) (txs s) (legs s) in
  match s_procedure s with
  | None => Ok s
  | Some i => on_tx i s (λ t, Ok (set_tx i (tx_fail (Iec e) t) s))
  end.
End Session.
