(* ===== verification/Iec104File.v ===== *)
(** * File transfer (iec104go/file_options.go, file_server.go, file_client.go,
    file_wait.go)

    The controlled station's file worker, as functions on its state that
    record what they send; and the client's download and directory helpers, as
    an automaton that reacts to one message at a time.

    The provider of files is an argument of each call, so that it may answer
    differently every time.  [results] are the results of the worker's sends,
    in order; a send beyond them succeeds.  The deadline of one exchange is not
    a number here: an exchange may expire at any point where the code waits. *)
From S2P Require Import Prelude GoLib Iec104Types Iec104Time Iec104Elements Iec104Asdu Iec104Procedure.

#[local] Open Scope Z_scope.

(** ** Options and content *)
Record FileOptions : Type := mkFileOptions {
  FTimeout : Z;
  SectionRetries : Z;
  MaxFileSize : Z;
  DirectoryLimit : Z;
  SegmentSize : Z
}.
Definition DefaultFileOptions : FileOptions := mkFileOptions (30 * 1000000000) 0 0xffffff 4096 0.

Definition normalized (o : FileOptions) : P FileOptions :=
  let d := DefaultFileOptions in
  let o := mkFileOptions (if FTimeout o =? 0 then FTimeout d else FTimeout o) (SectionRetries o)
             (if MaxFileSize o =? 0 then MaxFileSize d else MaxFileSize o)
             (if DirectoryLimit o =? 0 then DirectoryLimit d else DirectoryLimit o) (SegmentSize o) in
  guard_err (Iec ErrMalformed)
    ((FTimeout o <? 0) || (SectionRetries o <? 0) || (10 <? SectionRetries o) || (0xffffff <? MaxFileSize o) ||
     (DirectoryLimit o <? 1) || (SegmentSize o <? 0)) (Ok o).

(** The largest segment the parameters leave room for, and the one used. *)
Definition max_segment (p : Params) : Z := Z.of_nat MaxASDUSize - Z.of_nat (headerSize p) - IOASize p - 4.
Definition segmentSize (o : FileOptions) (p : Params) : Z :=
  if negb (SegmentSize o =? 0) then SegmentSize o else max_segment p.

(** The part of [Options.normalized] that concerns files. *)
Definition normalize_files (o : FileOptions) (p : Params) : P FileOptions :=
  let! o := normalized o in
  match Params_Validate p with
  | Some e => Err (Iec e)
  | None => guard_err (Iec ErrMalformed) (max_segment p <? SegmentSize o) (Ok o)
  end.

Record FileSection : Type := mkSection { Number : Z; SData : list Z }.
Notation File := (list FileSection).

(** The loop of [fileLength] from the length [n], after the sections [seen]. *)
Fixpoint file_length (max n : Z) (seen : list Z) (l : File) : P Z :=
  match l with
  | [] => Ok n
  | s :: l' =>
      guard_err (Iec ErrMalformed)
        ((Number s =? 0) || bool_decide (Number s ∈ seen) || (zlen (SData s) =? 0) || (max <? n + zlen (SData s)))
      (file_length max (u32 (n + zlen (SData s))) (Number s :: seen) l')
  end.
Definition fileLength (f : File) (max : Z) : P Z :=
  match f with [] => Err (Iec ErrMalformed) | _ => file_length max 0 [] f end.

(** Operations, acknowledgements and errors (file_elements.go). *)
Definition SelectFile : Z := 1.
Definition CallFile : Z := 2.
Definition DeactivateFile : Z := 3.
Definition CallSection : Z := 6.
Definition PositiveFileACK : Z := 1.
Definition NegativeFileACK : Z := 2.
Definition PositiveSectionACK : Z := 3.
Definition NegativeSectionACK : Z := 4.
Definition FileMemoryUnavailable : Z := 1.
Definition FileChecksumFailure : Z := 2.
Definition FileUnexpectedService : Z := 3.
Definition FileUnknownName : Z := 4.
Definition FileUnknownSection : Z := 5.

Definition low (q : Z) : Z := Z.land q 15.
Definition high (q : Z) : Z := Z.shiftr q 4.
(** [op | code<<4] on octets. *)
Definition with_code (op code : Z) : Z := Z.lor op (u8 (Z.shiftl code 4)).

Record FileEntry : Type := mkEntry { D_Name : Z; D_Length : Z; D_Status : Z; D_Time : CP56Time2a }.
Definition entry_element (d : FileEntry) : Element := FileDirectory (D_Name d) (D_Length d) (D_Status d) (D_Time d).

Record FileProvider : Type := mkProvider {
  Directory : FileKey → P (list FileEntry);
  Open : FileKey → P File
}.

(** ** The worker *)
Record fileServing : Type := mkServing {
  w_key : FileKey;
  w_file : File;
  w_total : Z;
  w_index : nat;
  w_state : Z;
  w_retries : Z;
  w_generation : option nat
}.

(** The worker, what it has sent and the results of the sends to come. *)
Record serving : Type := mkServe { worker : fileServing; sent : list ASDU; results : list (option proc_error) }.
Notation W A := (stM serving proc_error A).

Definition get_worker : W fileServing := let? s := st_get in st_ret (worker s).
Definition upd_worker (f : fileServing → fileServing) : W unit := st_upd (λ s, mkServe (f (worker s)) (sent s) (results s)).
Definition w_lift {A} (m : P A) : W A := λ s, (m, s).

Definition reset_worker (w : fileServing) : fileServing := mkServing (w_key w) [] 0 0 0 0 (w_generation w).
Definition reset : W unit := upd_worker reset_worker.
Definition set_state (n : Z) : W unit :=
  upd_worker (λ w, mkServing (w_key w) (w_file w) (w_total w) (w_index w) n (w_retries w) (w_generation w)).
Definition set_index (i : nat) (retries n : Z) : W unit :=
  upd_worker (λ w, mkServing (w_key w) (w_file w) (w_total w) i n retries (w_generation w)).

Section Serving.
Context (params : Params) (files : FileOptions).

(** [fileSend]: the result of the admission is the next of [results]. *)
Definition sendMessage (m : ASDU) : W unit :=
  let? owned := w_lift (iec (cloneASDU m)) in
  let? _b := w_lift (iec (Message_MarshalBinary params owned)) in
  λ s, match results s with
       | Some e :: rest => (Err e, mkServe (worker s) (sent s) rest)
       | _ => (Ok tt, mkServe (worker s) (sent s ++ [m]) (drop 1 (results s)))
       end.
Definition send (k : FileKey) (e : Element) (cot : Z) : W unit := sendMessage (fileMessage k e cot).

Definition current_section : W FileSection :=
  let? w := get_worker in w_lift (idx (w_file w) (w_index w)).

Definition abort : W unit :=
  let? w := get_worker in
  if w_state w =? 0 then st_ret tt
  else
    let? section := (match w_file w with
                     | [] => st_ret 0
                     | _ => let? s := current_section in st_ret (Number s)
                     end) in
    do? reset in
    send (w_key w) (FileLast (K_Name (w_key w)) section 2 0) FileTransfer.

(** [negative] of a call with the section and the qualifier given. *)
Definition negative (k : FileKey) (section qualifier code cot : Z) : W unit :=
  send k (FileCall (K_Name k) section (with_code (low qualifier) code)) cot.

Definition selectFile (pv : FileProvider) (k : FileKey) (section qualifier : Z) : W unit :=
  if negb (section =? 0) then negative k section qualifier FileUnknownSection FileTransfer
  else
    match Open pv k with
    | Ok f =>
        match fileLength f (MaxFileSize files) with
        | Ok n =>
            do? upd_worker (λ w, mkServing k f n 0 1 0 (w_generation w)) in
            send k (FileReady (K_Name k) n 0) FileTransfer
        | Err _ =>
            do? upd_worker (λ w, mkServing (w_key w) (w_file w) 0 (w_index w) (w_state w) (w_retries w) (w_generation w)) in
            send k (FileReady (K_Name k) 0 128) FileTransfer
        | Panic => w_lift Panic
        | Diverge => w_lift Diverge
        end
    | Err _ => send k (FileReady (K_Name k) 0 128) FileTransfer
    | Panic => w_lift Panic
    | Diverge => w_lift Diverge
    end.

Definition offer_section : W unit :=
  let? w := get_worker in
  let? s := current_section in
  send (w_key w) (SectionReady (K_Name (w_key w)) (Number s) (u32 (zlen (SData s))) 0) FileTransfer.

(** The segments of the data, at most [n] octets each. *)
Fixpoint segments (fuel n : nat) (data : list Z) : list (list Z) :=
  match fuel, data with
  | S fuel', _ :: _ => take n data :: segments fuel' n (drop n data)
  | _, _ => []
  end.
Fixpoint send_segments (k : FileKey) (number : Z) (l : list (list Z)) : W unit :=
  match l with
  | [] => st_ret tt
  | d :: l' => do? send k (FileSegment (K_Name k) number d) FileTransfer in send_segments k number l'
  end.
Definition section : W unit :=
  let? w := get_worker in
  let? s := current_section in
  let k := w_key w in
  do? send_segments k (Number s) (segments (length (SData s)) (Z.to_nat (segmentSize files params)) (SData s)) in
  do? set_state 3 in
  send k (FileLast (K_Name k) (Number s) 3 (FileChecksum (SData s))) FileTransfer.

(** [d.Status &^= 0x20], then [|= 0x20] on the last entry. *)
Definition mark_entry (last : bool) (d : FileEntry) : FileEntry :=
  let status := Z.ldiff (D_Status d) 0x20 in
  mkEntry (D_Name d) (D_Length d) (if last then Z.lor status 0x20 else status) (D_Time d).
Definition append_entry (k : FileKey) (h : Header) (last : bool) (b : Builder) (d : FileEntry) : W Builder :=
  let o := mkObject (K_Address k) (entry_element (mark_entry last d)) in
  match Append b o with
  | Err ErrFull =>
      do? sendMessage (Builder_ASDU b) in
      let? b := w_lift (iec (NewBuilder params h)) in
      w_lift (iec (Append b o))
  | m => w_lift (iec m)
  end.
Fixpoint append_entries (k : FileKey) (h : Header) (b : Builder) (l : list FileEntry) : W Builder :=
  match l with
  | [] => st_ret b
  | d :: l' => let? b := append_entry k h (bool_decide (l' = [])) b d in append_entries k h b l'
  end.
Definition directory (pv : FileProvider) (k : FileKey) : W unit :=
  let refuse := negative k 0 0 FileMemoryUnavailable Request in
  match Directory pv k with
  | Ok entries =>
      if (zlen entries =? 0) || (DirectoryLimit files <? zlen entries) then refuse
      else if existsb (λ d, MaxFileSize files <? D_Length d) entries then refuse
      else
        let h := mkHeader F_DR_TA_1 true 0 Request false false (K_Originator k) (K_CommonAddress k) in
        let? b := w_lift (iec (NewBuilder params h)) in
        let? b := append_entries k h b entries in
        sendMessage (Builder_ASDU b)
  | Err _ => refuse
  | Panic => w_lift Panic
  | Diverge => w_lift Diverge
  end.

Definition with_name (k : FileKey) (name : Z) : FileKey :=
  mkKey (K_CommonAddress k) (K_Originator k) (K_Address k) name.

(** The cases of [handle] for a select-and-call and for an acknowledgement. *)
Definition handle_call (pv : FileProvider) (k : FileKey) (cause name sec q : Z) : W unit :=
  let k := with_name k name in
  let? w := get_worker in
  if cause =? Request then
    if negb (w_state w =? 0) || negb (q =? 0) then negative k sec q FileUnexpectedService Request else directory pv k
  else if negb (cause =? FileTransfer) || negb (high q =? 0) then negative k sec q FileUnexpectedService FileTransfer
  else if negb (bool_decide (q ∈ [SelectFile; CallFile; CallSection; DeactivateFile]))
  then negative k sec q FileUnexpectedService FileTransfer
  else if (q =? SelectFile) && (w_state w =? 0) then selectFile pv k sec q
  else if q =? SelectFile then negative k sec q FileUnexpectedService FileTransfer
  else if (w_state w =? 0) || negb (bool_decide (k = w_key w)) then negative k sec q FileUnknownName FileTransfer
  else if q =? DeactivateFile then do? reset in send k (FileReady (K_Name k) 0 0) FileTransfer
  else if q =? CallFile then
    if negb (w_state w =? 1) || negb (sec =? 0) then negative k sec q FileUnexpectedService FileTransfer
    else do? set_state 2 in offer_section
  else
    let? s := current_section in
    if negb (sec =? Number s) then negative k sec q FileUnknownSection FileTransfer
    else if negb (w_state w =? 2) then negative k sec q FileUnexpectedService FileTransfer
    else section.

Definition file_checksum (f : File) : Z := fold_left (λ sum s, u8 (sum + FileChecksum (SData s))) f 0.

Definition handle_ack (k : FileKey) (name sec q : Z) : W unit :=
  let k := with_name k name in
  let? w := get_worker in
  if (w_state w =? 0) || negb (bool_decide (k = w_key w)) then negative k 0 0 FileUnknownName FileTransfer
  else
    let? s := current_section in
    if negb (sec =? Number s) then negative k 0 0 FileUnknownSection FileTransfer
    else if (w_state w =? 3) && (q =? PositiveSectionACK) then
      if (S (w_index w) <? length (w_file w))%nat then do? set_index (S (w_index w)) 0 2 in offer_section
      else do? set_state 4 in send k (FileLast (K_Name k) sec 1 (file_checksum (w_file w))) FileTransfer
    else if (w_state w =? 4) && (q =? PositiveFileACK) then reset
    else if (w_state w =? 3) && (q =? with_code NegativeSectionACK FileChecksumFailure) && (w_retries w <? SectionRetries files)
    then set_index (w_index w) (w_retries w + 1) 2
    else if ((w_state w =? 3) && (low q =? NegativeSectionACK)) || ((w_state w =? 4) && (low q =? NegativeFileACK)) then abort
    else negative k 0 0 FileUnexpectedService FileTransfer.

Definition handle (pv : FileProvider) (m : Message) : W unit :=
  match m with
  | ASDUMessage a =>
      match Objects a with
      | [] => st_ret tt
      | o :: _ =>
          let h := AHeader a in
          let k := mkKey (CommonAddress h) (Originator h) (Address o) (fst (fileElementName (Element_ o))) in
          if Test h || Negative h then st_ret tt
          else if Type_ h =? F_SC_NB_1 then send k (FileReady (K_Name k) 0 128) FileTransfer
          else if Type_ h =? F_SC_NA_1 then
            match Element_ o with
            | FileCall name sec q => handle_call pv k (Cause h) name sec q
            | _ => w_lift Panic
            end
          else if (Type_ h =? F_AF_NA_1) && (Cause h =? FileTransfer) then
            match Element_ o with
            | FileACK name sec q => handle_ack k name sec q
            | _ => w_lift Panic
            end
          else negative k 0 0 FileUnexpectedService FileTransfer
      end
  | _ => st_ret tt
  end.
End Serving.

(** ** The loop of the worker *)
Record server : Type := mkServer { sv : fileServing; armed : bool; exited : bool; closing : bool }.

(** The cases of the loop's [select]: the session's context, the end of the
    transfer generation, the idle timer, a received message with the generation
    it was received in. *)
Inductive wevent : Type :=
| WDone
| WStopped
| WTimer
| WIn (m : Message) (transfer : option nat).

Section Run.
Context (params : Params) (files : FileOptions).

(** What follows the [select]; [cancelled] tells which generations have ended. *)
Definition conclude (cancelled : nat → bool) (r : P unit) (w : serving) : P (server * list ASDU) :=
  let drop_generation := mkServer (mkServing (w_key (worker w)) [] 0 0 0 0 None) false false false in
  match r with
  | Ok _ => Ok (mkServer (worker w) (negb (w_state (worker w) =? 0)) false false, sent w)
  | Err e =>
      if bool_decide (e = Iec ErrNotStarted) then Ok (drop_generation, sent w)
      else match w_generation (worker w) with
           | None => Panic
           | Some g => if cancelled g then Ok (drop_generation, sent w)
                       else Ok (mkServer (worker w) false true true, sent w)
           end
  | Panic => Panic
  | Diverge => Diverge
  end.

Definition run_step (pv : FileProvider) (cancelled cancelled' : nat → bool) (rs : list (option proc_error))
    (ev : wevent) (s : server) : P (server * list ASDU) :=
  let w := sv s in
  match ev with
  | WDone => Ok (mkServer (reset_worker w) (armed s) true (closing s), [])
  | WStopped => Ok (mkServer (mkServing (w_key w) [] 0 0 0 0 None) false false (closing s), [])
  | WTimer =>
      match w_generation w with
      | None => Panic
      | Some _ => let '(r, w') := abort params (mkServe w [] rs) in conclude cancelled' r w'
      end
  | WIn m transfer =>
      match transfer with
      | None => Ok (mkServer w false false (closing s), [])
      | Some g =>
          if cancelled g then Ok (mkServer w false false (closing s), [])
          else
            let w := if bool_decide (w_generation w = Some g) then w
                     else mkServing (w_key w) [] 0 0 0 0 (Some g) in
            let '(r, w') := handle params files pv m (mkServe w [] rs) in
            conclude cancelled' r w'
      end
  end.
End Run.

(** ** The client's automata

    What a helper does with a message it was waiting for: wait for another,
    send a request and wait, or end, with whether the dialogue ended cleanly. *)
Inductive reaction (S : Type) : Type :=
| Continue (s : S)
| SendNext (req : ASDU) (match_ : Message → bool) (s : S)
| Finish (err : option proc_error) (clean : bool) (s : S).
Arguments Continue {S} s.
Arguments SendNext {S} req match_ s.
Arguments Finish {S} err clean s.

(** The variables of [DownloadFile]'s loop. *)
Record download : Type := mkDownload { d_length : Z; d_sections : File; d_total : Z; d_sum : Z }.

Inductive file_stage : Type :=
| DirWait (entries : list FileEntry)
| Selecting
| Loop (d : download)
| Content (d : download) (sec len attempt : Z) (data : list Z)
| Nacked (d : download) (sec len attempt : Z)
| FinalNack (d : download)
| FinalAck (d : download).

(** [fileReceiver]: the key, the element last sent and where the helper is. *)
Record receiver : Type := mkReceiver { r_key : FileKey; r_last : Element; r_stage : file_stage }.


Definition correlatedNegative (r : receiver) (e : Element) : bool :=
  let '(name, ok) := fileElementName e in
  if negb ok || negb (name =? K_Name (r_key r)) then false
  else
    match e with
    | FileCall _ sec q =>
        match r_last r with
        | FileCall _ sec' q' => (sec =? sec') && (low q =? low q')
        | FileACK _ _ _ => (sec =? 0) && (low q =? 0)
        | _ => false
        end
    | FileReady _ _ _ => match r_last r with FileCall _ _ q' => q' =? SelectFile | _ => false end
    | SectionReady _ _ _ _ => match r_last r with FileCall _ _ q' => q' =? CallFile | _ => false end
    | FileACK _ sec q =>
        match r_last r with
        | FileACK _ sec' q' => (sec' =? sec) && ((low q =? q') || (low q =? u8 (q' + 1)))
        | _ => false
        end
    | FileLast _ _ q _ => q =? 2
    | _ => false
    end.

Section Receiving.
Context (files : FileOptions).

Definition order (r : receiver) : reaction receiver := Finish (Some ErrProcedureOrder) false r.

Definition headerNegative (r : receiver) (m : Message) (err : proc_error) : reaction receiver :=
  match m with
  | ASDUMessage a =>
      match Objects a with
      | [o] => if correlatedNegative r (Element_ o) then Finish (Some err) true r else order r
      | _ => order r
      end
  | _ => order r
  end.

(** The switch of [fileReceiver.next] over the element's kind. *)
Definition negative_error (e : Element) : option proc_error :=
  match e with
  | FileCall _ _ q => if negb (high q =? 0) then Some (FileResponseError (high q) q) else None
  | FileACK _ _ q =>
      if (low q =? NegativeFileACK) || (low q =? NegativeSectionACK) then Some (FileResponseError (high q) q) else None
  | FileReady _ _ q => if has q 128 then Some (FileResponseError 0 q) else None
  | SectionReady _ _ _ q => if has q 128 then Some (FileResponseError 0 q) else None
  | _ => None
  end.

(** [fileReceiver.next] of a message: an element, or the end; the assertion
    [m.( *ASDU )] panics on any other message. *)
Definition file_next (r : receiver) (m : Message) : P (Element + reaction receiver) :=
  match responseError m with
  | Some e => Ok (inr (headerNegative r m e))
  | None =>
      match m with
      | ASDUMessage a =>
          match Objects a with
          | [o] =>
              if negb (Cause (AHeader a) =? FileTransfer) then Ok (inr (order r))
              else
                let e := Element_ o in
                let '(name, ok) := fileElementName e in
                if negb ok || negb (name =? K_Name (r_key r)) then Ok (inr (order r))
                else
                  match e with
                  | FileLast _ _ 2 _ => Ok (inr (Finish (Some ErrFileAborted) true r))
                  | FileLast _ _ 4 _ => Ok (inr (Finish (Some ErrFileAborted) false r))
                  | _ =>
                      match negative_error e with
                      | Some err => Ok (inr (if correlatedNegative r e then Finish (Some err) true r else order r))
                      | None => Ok (inl e)
                      end
                  end
          | _ => Ok (inr (order r))
          end
      | _ => Panic
      end
  end.

(** [exchange]: the next request, remembered as the last element sent. *)
Definition exchange (r : receiver) (e : Element) (st : file_stage) : reaction receiver :=
  SendNext (fileMessage (r_key r) e FileTransfer) (fileMatch (r_key r)) (mkReceiver (r_key r) e st).
Definition at_stage (r : receiver) (st : file_stage) : receiver := mkReceiver (r_key r) (r_last r) st.

Definition name_of (r : receiver) : Z := K_Name (r_key r).

Definition react_loop (r : receiver) (d : download) (e : Element) : reaction receiver :=
  match e with
  | SectionReady _ sec len q =>
      if negb (q =? 0) || (sec =? 0) || bool_decide (sec ∈ Number <$> d_sections d) || (len =? 0) ||
         (d_length d <? d_total d + len) then order r
      else exchange r (FileCall (name_of r) sec CallSection) (Content d sec len 0 [])
  | FileLast _ _ q chs =>
      match last (d_sections d) with
      | None => order r
      | Some s =>
          if negb (q =? 1) || negb (d_total d =? d_length d) then order r
          else if negb (chs =? d_sum d)
          then exchange r (FileACK (name_of r) (Number s) (with_code NegativeFileACK FileChecksumFailure)) (FinalNack d)
          else exchange r (FileACK (name_of r) (Number s) PositiveFileACK) (FinalAck d)
      end
  | _ => order r
  end.

Definition react_content (r : receiver) (d : download) (sec len attempt : Z) (data : list Z) (e : Element)
    : reaction receiver :=
  match e with
  | FileSegment _ s chunk =>
      if negb (s =? sec) || (zlen chunk =? 0) || (len <? zlen data + zlen chunk) then order r
      else Continue (at_stage r (Content d sec len attempt (data ++ chunk)))
  | FileLast _ s q chs =>
      if negb (s =? sec) || negb (q =? 3) || negb (u32 (zlen data) =? len) then order r
      else if negb (FileChecksum data =? chs)
      then exchange r (FileACK (name_of r) sec (with_code NegativeSectionACK FileChecksumFailure)) (Nacked d sec len attempt)
      else
        let d' := mkDownload (d_length d) (d_sections d ++ [mkSection sec data]) (u32 (d_total d + u32 (zlen data)))
                    (u8 (d_sum d + FileChecksum data)) in
        exchange r (FileACK (name_of r) sec PositiveSectionACK) (Loop d')
  | _ => order r
  end.

Definition react_ready (r : receiver) (e : Element) : reaction receiver :=
  match e with
  | FileReady _ len q =>
      if negb (q =? 0) || (len =? 0) || (MaxFileSize files <? len) then order r
      else exchange r (FileCall (name_of r) 0 CallFile) (Loop (mkDownload len [] 0 0))
  | _ => order r
  end.

(** The loop of [Directory] over the objects of one message; an element that
    is no directory entry would panic. *)
Fixpoint take_entries (entries : list FileEntry) (l : list Object) : P (list FileEntry + option proc_error * list FileEntry) :=
  match l with
  | [] => Ok (inl entries)
  | o :: l' =>
      match Element_ o with
      | FileDirectory name len status time =>
          let entries := entries ++ [mkEntry name len status time] in
          if DirectoryLimit files <? zlen entries then Ok (inr (Some (Iec ErrQueueFull), entries))
          else if has status 0x20 then
            Ok (inr (if bool_decide (l' = []) then None else Some ErrProcedureOrder, entries))
          else take_entries entries l'
      | _ => Panic
      end
  end.

Definition react_directory (r : receiver) (entries : list FileEntry) (m : Message) : P (reaction receiver) :=
  match responseError m with
  | Some e => Ok (headerNegative r m e)
  | None =>
      match m with
      | ASDUMessage a =>
          let h := AHeader a in
          let others :=
            if negb (Type_ h =? F_DR_TA_1) || negb (Cause h =? Request) then Ok (order r)
            else
              let! x := take_entries entries (Objects a) in
              Ok (match x with
                  | inl entries => Continue (at_stage r (DirWait entries))
                  | inr (err, entries) => Finish err false (at_stage r (DirWait entries))
                  end) in
          if (Type_ h =? F_SC_NA_1) && (Cause h =? Request) then
            match Objects a with
            | o :: _ =>
                match Element_ o with
                | FileCall _ _ q as call =>
                    if negb (high q =? 0) then
                      Ok (if correlatedNegative r call then Finish (Some (FileResponseError (high q) q)) true r else order r)
                    else others
                | _ => Panic
                end
            | [] => Panic
            end
          else others
      | _ => Panic
      end
  end.

Definition react_file (r : receiver) (m : Message) : P (reaction receiver) :=
  match r_stage r with
  | DirWait entries => react_directory r entries m
  | st =>
      let! x := file_next r m in
      Ok (match x with
          | inr y => y
          | inl e =>
              match st with
              | Selecting => react_ready r e
              | Loop d => react_loop r d e
              | Content d sec len attempt data => react_content r d sec len attempt data e
              | _ => order r
              end
          end)
  end.

(** What follows once the request just sent has been written. *)
Definition resume_file (r : receiver) : reaction receiver :=
  match r_stage r with
  | Nacked d sec len attempt =>
      if SectionRetries files <=? attempt then Finish (Some ErrFileChecksum) false r
      else exchange r (FileCall (name_of r) sec CallSection) (Content d sec len (attempt + 1) [])
  | FinalNack _ => Finish (Some ErrFileChecksum) false r
  | FinalAck _ => Finish None false r
  | _ => Continue r
  end.

(** [DownloadFile] and [Directory] up to their first request. *)
Definition start_download (k : FileKey) : reaction receiver :=
  exchange (mkReceiver k OtherElement Selecting) (FileCall (K_Name k) 0 SelectFile) Selecting.
Definition start_directory (k : FileKey) : reaction receiver :=
  let k := mkKey (K_CommonAddress k) (K_Originator k) (K_Address k) 0 in
  SendNext (fileMessage k (FileCall 0 0 0) Request) (fileMatch k) (mkReceiver k (FileCall 0 0 0) (DirWait [])).
End Receiving.
