(* ===== verification/Iec104FileCorrect.v ===== *)
(** * File transfer: a download returns the served file

    The client's automaton and the station's worker, joined by a link that
    loses nothing and encodes every message: the file that is offered arrives
    unchanged, in one dialogue of two requests for each section. *)
From S2P Require Import Prelude GoLib Iec104Types Iec104Time Iec104Elements Iec104Asdu Iec104Procedure Iec104File.

#[local] Open Scope Z_scope.

(** ** The dialogue *)
Definition wire (p : Params) (a : ASDU) : P Message :=
  let! b := iec (ASDU_MarshalBinary p a) in iec (DecodeASDU b p).

Section Dialogue.
Context (params : Params) (served received_ : FileOptions).

(** The client takes the messages of one answer until it acts. *)
Fixpoint feed (r : receiver) (l : list ASDU) : P (reaction receiver * list ASDU) :=
  match l with
  | [] => Ok (Continue r, [])
  | a :: l' =>
      let! m := wire params a in
      if negb (fileMatch (r_key r) m) then feed r l'
      else
        let! x := react_file received_ r m in
        match x with
        | Continue r' => feed r' l'
        | _ => Ok (x, l')
        end
  end.

(** Requests and answers in turn; what arrives before the client sends must
    have been taken, as [sendProcedure] and [fileOutcome] demand. *)
Fixpoint converse (fuel : nat) (pv : FileProvider) (x : reaction receiver) (w : fileServing)
    : P (option proc_error * receiver * fileServing) :=
  match fuel, x with
  | _, Finish err _ r => Ok (err, r, w)
  | S fuel', SendNext req _ r =>
      let! m := wire params req in
      match handle params served pv m (mkServe w [] []) with
      | (Ok _, s) =>
          match resume_file received_ r with
          | Continue r' =>
              let! '(x', rest) := feed r' (sent s) in
              if bool_decide (rest = []) then converse fuel' pv x' (worker s) else Err ErrProcedureOrder
          | x' => if bool_decide (sent s = []) then converse fuel' pv x' (worker s) else Err ErrProcedureOrder
          end
      | (Err e, _) => Err e
      | (Panic, _) => Panic
      | (Diverge, _) => Diverge
      end
  | _, _ => Diverge
  end.
End Dialogue.

(** ** Messages on the wire *)
Record key_ok (p : Params) (k : FileKey) : Prop := {
  ko_ca : is_u16 (K_CommonAddress k) ∧ K_CommonAddress k ≤ maxAddress (ca_width p);
  ko_oa : is_u8 (K_Originator k) ∧ (COTSize p = 1 → K_Originator k = 0);
  ko_ioa : is_u32 (K_Address k) ∧ K_Address k ≤ maxAddress (ioa_width p);
  ko_name : is_u16 (K_Name k)
}.

(** The elements the two sides exchange, as far as they can be encoded. *)
Definition sendable (p : Params) (e : Element) : Prop :=
  element_typed e ∧
  match e with
  | FileReady _ len _ | SectionReady _ _ len _ => len ≤ 0xffffff
  | FileCall _ _ _ | FileLast _ _ _ _ | FileACK _ _ _ => True
  | FileSegment _ _ d => zlen d ≤ max_segment p
  | _ => False
  end.

Lemma max_segment_bound p : params_ok p → 236 ≤ max_segment p ≤ 240.
Proof.
  intros (H1 & H2 & H3). unfold max_segment, headerSize, MaxASDUSize. destruct H1 as [-> | ->], H2 as [-> | ->], H3 as [-> |[-> | ->]]; cbn; lia.
Qed.

Lemma encode_sendable p e : params_ok p → sendable p e → ∃ b, encodeElement e = Ok (elementType e, b) ∧
  Z.of_nat (length b) ≤ 4 + max_segment p.
Proof.
  intros Hp [_ Hs]. pose proof (max_segment_bound p Hp).
  destruct e; try done; unfold encodeElement, encodePayload, encodeFileElement, append_length;
    rewrite ?(proj2 (Z.ltb_ge _ _)) by lia; cbn [guard_err bind]; try (eexists; split; [reflexivity|cbn; lia]).
  rewrite (proj2 (Nat.ltb_ge _ _)) by (unfold zlen in *; lia). cbn [guard_err bind].
  eexists. split; [reflexivity|]. rewrite !length_app. cbn. unfold zlen in *. lia.
Qed.

(** What is read of a message of the dialogue. *)
Definition received (k : FileKey) (e : Element) (cot : Z) : ASDU :=
  mkASDU (mkHeader (elementType e) false 1 cot false false (K_Originator k) (K_CommonAddress k)) [mkObject (K_Address k) e].

Lemma sendable_type p e : sendable p e → elementType e =? F_DR_TA_1 = false ∧ isFileType (elementType e) = true ∧
  Supported (elementType e) = true ∧ is_u8 (elementType e) ∧ snd (fileElementName e) = true.
Proof. intros [_ Hs]. destruct e; try done; split_and!; done. Qed.

Lemma message_marshal p k e cot : params_ok p → key_ok p k → 0 ≤ cot ≤ 63 → sendable p e →
  ∃ b, ASDU_MarshalBinary p (fileMessage k e cot) = Ok b ∧ DecodeASDU b p = Ok (ASDUMessage (received k e cot)).
Proof.
  intros Hp [[Hca Hca'] [Hoa Hoa'] [Hio Hio'] _] Hcot Hs.
  destruct (sendable_type p e Hs) as (Hd & Hf & Hsup & Htype & _). destruct (encode_sendable p e Hp Hs) as (pl & He & Hl).
  assert (ASDU_GetHeader (fileMessage k e cot) = AHeader (received k e cot)) as Hget.
  { unfold fileMessage. rewrite Hd. reflexivity. }
  assert (header_fits p (ASDU_GetHeader (fileMessage k e cot))) as Hfit by (rewrite Hget; split_and!; cbn; (lia || done)).
  assert (fileStructure (ASDU_GetHeader (fileMessage k e cot)) = None) as Hfs.
  { rewrite Hget. unfold fileStructure. cbn [received AHeader Type_ Sequence Count]. by rewrite Hf, Hd. }
  assert (∃ b, ASDU_MarshalBinary p (fileMessage k e cot) = Ok b) as [b Hb].
  { rewrite asdu_marshal; [|done|cbn; lia|done|by right]. eexists. apply marshal_objects_spec.
    eexists. split; [|split; [reflexivity|right]].
    - eexists pl, []. split; [split_and!|split; [reflexivity|done]]; [exact Hio'| |exact He].
      unfold addressed. by rewrite orb_true_r.
    - rewrite length_app, length_header_octets, app_nil_r by done. unfold object_octets, addressed. cbn [Address].
      rewrite orb_true_r, length_app, length_appendAddress. unfold max_segment, MaxASDUSize in *. unfold ioa_width. destruct Hp as (_ & _ & ?). lia. }
  exists b. split; [done|]. apply asdu_encode_decode in Hb as (_ & _ & Hdec).
  - cbn [fileMessage AHeader Type_] in Hdec. rewrite Hsup in Hdec. rewrite Hdec, Hget. reflexivity.
  - split; [|apply Forall_singleton; split; [done|apply Hs]]. unfold fileMessage, header_typed. cbn [AHeader Type_ Count Cause Originator CommonAddress]. unfold is_u8, is_u16 in *. lia.
Qed.

Lemma wire_message p k e cot : params_ok p → key_ok p k → 0 ≤ cot ≤ 63 → sendable p e →
  wire p (fileMessage k e cot) = Ok (ASDUMessage (received k e cot)).
Proof. intros. destruct (message_marshal p k e cot) as (b & Hb & Hd); [done..|]. unfold wire. rewrite Hb. cbn [iec bind]. by rewrite Hd. Qed.

Lemma send_ok p k e cot w l : params_ok p → key_ok p k → 0 ≤ cot ≤ 63 → sendable p e →
  send p k e cot (mkServe w l []) = (Ok tt, mkServe w (l ++ [fileMessage k e cot]) []).
Proof.
  intros Hp Hk Hc Hs. unfold send, sendMessage, st_bind, w_lift.
  destruct (encode_sendable p e Hp Hs) as (pl & He & _). destruct (message_marshal p k e cot) as (b & Hb & _); [done..|].
  assert (cloneASDU (fileMessage k e cot) = Ok (ASDUMessage (received k e cot))) as ->.
  { unfold cloneASDU, fileMessage. cbn [Objects Element_]. rewrite He. cbn [bind]. unfold ASDU_GetHeader, received. cbn.
    by rewrite (proj1 (sendable_type p e Hs)). }
  cbn [iec Message_MarshalBinary].
  assert (ASDU_MarshalBinary p (received k e cot) = Ok b) as ->; [|done].
  rewrite <- Hb. unfold ASDU_MarshalBinary. cbn [Objects received fileMessage].
  unfold fileMessage. rewrite (proj1 (sendable_type p e Hs)). reflexivity.
Qed.

(** ** One message at the client *)
Definition names (k : FileKey) (e : Element) : Prop := fileElementName e = (K_Name k, true).

Lemma match_received p k e cot : sendable p e → fileMatch k (ASDUMessage (received k e cot)) = true.
Proof.
  intros Hs. destruct (sendable_type p e Hs) as (Hd & Hf & _). unfold fileMatch, received.
  cbn [GetHeader ASDU_GetHeader set_Count AHeader Type_ Cause CommonAddress Originator Test Objects Address].
  rewrite Hd. cbn [andb]. by rewrite Hf, !Z.eqb_refl.
Qed.

(** An element that is neither negative nor the end of a transfer. *)
Definition positive (e : Element) : bool :=
  match negative_error e, e with
  | Some _, _ => false
  | None, FileLast _ _ q _ => negb (q =? 2) && negb (q =? 4)
  | None, _ => true
  end.

Lemma next_received r e : names (r_key r) e → positive e = true →
  file_next r (ASDUMessage (received (r_key r) e FileTransfer)) = Ok (inl e).
Proof.
  intros Hn Hp. unfold file_next, responseError, received.
  cbn [GetHeader ASDU_GetHeader set_Count AHeader Negative Cause orb Objects]. cbn -[fileElementName negative_error correlatedNegative].
  rewrite Hn. cbn [negb orb]. rewrite Z.eqb_refl. cbn [negb]. unfold positive in Hp. destruct (negative_error e) eqn:He; [done|].
  destruct e; try done. cbn in *.
  repeat match goal with |- context [match ?q with _ => _ end] => is_var q; destruct q; cbn in *; try done end.
Qed.

Section Client.
Context (params : Params) (files : FileOptions).

Definition react_element (r : receiver) (e : Element) : reaction receiver :=
  match r_stage r with
  | Selecting => react_ready files r e
  | Loop d => react_loop r d e
  | Content d sec len attempt data => react_content r d sec len attempt data e
  | _ => order r
  end.

Lemma feed_step r e l : params_ok params → key_ok params (r_key r) → sendable params e → names (r_key r) e → positive e = true →
  (∀ es, r_stage r ≠ DirWait es) →
  feed params files r (fileMessage (r_key r) e FileTransfer :: l) =
  match react_element r e with Continue r' => feed params files r' l | x => Ok (x, l) end.
Proof.
  intros Hp Hk Hs Hn Hpos Hst. cbn [feed]. rewrite wire_message by done. cbn [bind]. rewrite (match_received params) by done. cbn [negb].
  unfold react_file, react_element. destruct (r_stage r) eqn:Hr; try by destruct (Hst entries).
  all: rewrite next_received by done; cbn [bind]; match goal with |- match ?x with Continue _ => _ | _ => _ end = _ => by destruct x end.
Qed.

(** The segments of a section arrive as its content. *)
Lemma feed_file_segments k last d sec len attempt chunks l : params_ok params → key_ok params k → is_u8 sec →
  ∀ data, Forall (λ c, c ≠ [] ∧ bytes_ok c ∧ zlen c ≤ max_segment params) chunks →
  zlen data + zlen (mjoin chunks) ≤ len →
  feed params files (mkReceiver k last (Content d sec len attempt data))
    (((λ c, fileMessage k (FileSegment (K_Name k) sec c) FileTransfer) <$> chunks) ++ l) =
  feed params files (mkReceiver k last (Content d sec len attempt (data ++ mjoin chunks))) l.
Proof.
  intros Hp Hk Hsec. induction chunks as [|c chunks IH]; intros data Hc Hlen; cbn [fmap list_fmap app].
  { change (mjoin (@nil (list Z))) with (@nil Z). by rewrite app_nil_r. }
  change (mjoin (c :: chunks)) with (c ++ mjoin chunks).
  apply Forall_cons in Hc as [(Hne & Hb & Hs) Hc]. change (mjoin (c :: chunks)) with (c ++ mjoin chunks) in Hlen. unfold zlen in *. rewrite length_app in Hlen.
  rewrite (feed_step (mkReceiver k last _)); [|done|done|split; [split_and!; [apply Hk|done|done]|unfold zlen; lia]|done|done|done].
  unfold react_element, react_content. cbn [r_stage]. rewrite Z.eqb_refl. unfold zlen. cbn [negb orb].
  assert (length c ≠ 0%nat) by (by destruct c).
  rewrite (proj2 (Z.eqb_neq _ _)), (proj2 (Z.ltb_ge _ _)) by lia. cbn [orb]. unfold at_stage. cbn [r_key r_last].
  rewrite IH; [|done|rewrite length_app; lia]. by rewrite <- app_assoc.
Qed.
End Client.

(** ** Files *)
Fixpoint total (f : File) : Z := match f with [] => 0 | s :: f' => zlen (SData s) + total f' end.
Lemma total_app f g : total (f ++ g) = total f + total g.
Proof. induction f as [|s f IH]; [done|]. cbn. rewrite IH. lia. Qed.
Lemma total_nonneg f : 0 ≤ total f.
Proof. induction f as [|s f IH]; [done|]. cbn. unfold zlen. lia. Qed.

Definition section_ok (s : FileSection) : Prop := Number s ≠ 0 ∧ SData s ≠ [].

Lemma file_length_ok max f : max ≤ 0xffffff → ∀ n seen m, 0 ≤ n ≤ max → file_length max n seen f = Ok m →
  m = n + total f ∧ m ≤ max ∧ Forall section_ok f ∧ NoDup (Number <$> f) ∧ ∀ x, x ∈ (Number <$> f) → x ∉ seen.
Proof.
  intros Hmax. induction f as [|s f IH]; intros n seen m Hn H; cbn [file_length] in H.
  { injection H as <-. cbn. split_and!; [lia|lia|constructor|constructor|]. intros x Hx. by apply elem_of_nil in Hx. }
  apply guard_err_Ok in H as [Hg H]. apply orb_false_iff in Hg as [Hg H4]. apply orb_false_iff in Hg as [Hg H3].
  apply orb_false_iff in Hg as [H1 H2]. apply Z.eqb_neq in H1, H3. apply Z.ltb_ge in H4. apply bool_decide_eq_false in H2.
  unfold u32 in H. rewrite Z.mod_small in H by (unfold zlen in *; lia).
  apply IH in H as (-> & Hm & Hf & Hnd & Hseen); [|unfold zlen in *; lia]. cbn [total fmap list_fmap]. split_and!.
  - lia.
  - lia.
  - constructor; [|done]. split; [done|]. intros He. by rewrite He in H3.
  - constructor; [|done]. intros Hx. apply (Hseen _ Hx). by left.
  - intros x [->|Hx]%elem_of_cons; [done|]. intros Hin. apply (Hseen _ Hx). by right.
Qed.

Lemma fileLength_ok f max n : max ≤ 0xffffff → fileLength f max = Ok n →
  f ≠ [] ∧ n = total f ∧ n ≤ max ∧ Forall section_ok f ∧ NoDup (Number <$> f).
Proof.
  intros Hm H. unfold fileLength in H. destruct f as [|s f]; [done|].
  assert (0 ≤ max).
  { cbn [file_length] in H. apply guard_err_Ok in H as [Hg _]. apply orb_false_iff in Hg as [_ Hg]. apply Z.ltb_ge in Hg. unfold zlen in Hg. lia. }
  apply file_length_ok in H as (-> & H1 & H2 & H3 & _); [|lia..].
  split_and!; [done|lia|lia|done|done].
Qed.

Lemma checksum_snoc f s : file_checksum (f ++ [s]) = u8 (file_checksum f + FileChecksum (SData s)).
Proof. unfold file_checksum. by rewrite fold_left_app. Qed.

Lemma segments_join n data : (0 < n)%nat → ∀ fuel, (length data ≤ fuel)%nat → mjoin (segments fuel n data) = data.
Proof.
  intros Hn fuel. revert data. induction fuel as [|fuel IH]; intros data Hl; [by destruct data; cbn in *; [|lia]|].
  destruct data as [|x data]; [done|]. cbn [segments mjoin list_join]. rewrite IH; [by rewrite take_drop|]. rewrite length_drop. cbn in *. lia.
Qed.
Lemma segments_chunks n : (0 < n)%nat → ∀ fuel data, bytes_ok data → Forall (λ c, c ≠ [] ∧ bytes_ok c ∧ (length c ≤ n)%nat) (segments fuel n data).
Proof.
  intros Hn fuel. induction fuel as [|fuel IH]; intros data Hb; [constructor|]. destruct data as [|x data]; [constructor|].
  cbn [segments]. constructor.
  - split_and!; [by destruct n; [lia|]|by apply Forall_take|rewrite length_take; lia].
  - apply IH. by apply Forall_drop.
Qed.

(** ** The station's side *)
Section Station.
Context (params : Params) (served : FileOptions) (pv : FileProvider) (k : FileKey) (f : File) (n : Z) (gen : option nat).
Context (Hp : params_ok params) (Hk : key_ok params k).
Context (Hseg : 0 < segmentSize served params ≤ max_segment params).
Context (Hmax : MaxFileSize served ≤ 0xffffff) (Hn : fileLength f (MaxFileSize served) = Ok n).
Context (Htyped : Forall (λ s, is_u8 (Number s) ∧ bytes_ok (SData s)) f).

Definition at_ (i : nat) (st : Z) : fileServing := mkServing k f n i st 0 gen.
Definition msg (e : Element) : ASDU := fileMessage k e FileTransfer.
Notation run m w := (handle params served pv (ASDUMessage m) (mkServe w [] [])).

Lemma key_same : with_name k (K_Name k) = k.
Proof. by destruct k. Qed.

Lemma run_call sec q w : run (received k (FileCall (K_Name k) sec q) FileTransfer) w =
  handle_call params served pv k FileTransfer (K_Name k) sec q (mkServe w [] []).
Proof. unfold handle. cbn -[handle_call]. by destruct k. Qed.
Lemma run_ack sec q w : run (received k (FileACK (K_Name k) sec q) FileTransfer) w =
  handle_ack params served k (K_Name k) sec q (mkServe w [] []).
Proof. unfold handle. cbn -[handle_ack]. by destruct k. Qed.

Lemma send_k e w l : sendable params e → send params k e FileTransfer (mkServe w l []) = (Ok tt, mkServe w (l ++ [msg e]) []).
Proof. intros. by apply send_ok. Qed.

Lemma total_bound s i : f !! i = Some s → 0 < zlen (SData s) ≤ 0xffffff.
Proof.
  intros Hi. destruct (fileLength_ok _ _ _ Hmax Hn) as (_ & Ht & Hle & Hok & _).
  rewrite Forall_lookup in Hok. destruct (Hok _ _ Hi) as [_ Hne].
  assert (f = take i f ++ s :: drop (S i) f) as Hsplit by (symmetry; by apply take_drop_middle).
  rewrite Hsplit, total_app in Ht. cbn [total] in Ht. pose proof (total_nonneg (take i f)). pose proof (total_nonneg (drop (S i) f)).
  destruct (SData s); [done|]. unfold zlen in *. cbn in *. lia.
Qed.

Lemma typed_section s i : f !! i = Some s → is_u8 (Number s) ∧ bytes_ok (SData s).
Proof. intros Hi. rewrite Forall_lookup in Htyped. by apply (Htyped i). Qed.

Lemma checksum_u8 l : is_u8 (FileChecksum l).
Proof.
  unfold FileChecksum. assert (∀ a, is_u8 a → is_u8 (fold_left (λ sum b, u8 (sum + b)) l a)) as H; [|by apply H].
  induction l as [|x l IH]; intros a Ha; [done|]. cbn. apply IH. apply u8_range.
Qed.
Lemma file_checksum_u8 g : is_u8 (file_checksum g).
Proof.
  unfold file_checksum. assert (∀ a, is_u8 a → is_u8 (fold_left (λ sum s, u8 (sum + FileChecksum (SData s))) g a)) as H; [|by apply H].
  induction g as [|x g IH]; intros a Ha; [done|]. cbn. apply IH. apply u8_range.
Qed.

Lemma known_call q : q ∈ [SelectFile; CallFile; CallSection; DeactivateFile] →
  negb (bool_decide (q ∈ [SelectFile; CallFile; CallSection; DeactivateFile])) = false.
Proof. intros. by rewrite bool_decide_eq_true_2. Qed.
Lemma same_key : negb (bool_decide (k = k)) = false.
Proof. by rewrite bool_decide_eq_true_2. Qed.

Ltac open_call := rewrite run_call; unfold handle_call; rewrite key_same, known_call by (rewrite !elem_of_cons; tauto);
  match goal with |- context [high ?q] => change (high q) with 0 end;
  unfold get_worker, st_bind at 1, st_bind at 1, st_get, st_ret; cbn [worker at_ w_state w_key w_file w_index].

Lemma serve_select w : Open pv k = Ok f → w_state w = 0 → w_generation w = gen →
  run (received k (FileCall (K_Name k) 0 SelectFile) FileTransfer) w = (Ok tt, mkServe (at_ 0 1) [msg (FileReady (K_Name k) n 0)] []).
Proof.
  intros Ho Hw Hg. open_call. rewrite Hw. cbn -[selectFile]. unfold selectFile. cbn -[fileLength send]. rewrite Ho.
  cbn -[fileLength send]. rewrite Hn. cbn -[send]. unfold st_bind, upd_worker, st_upd. cbn -[send]. rewrite Hg. rewrite send_k; [done|].
  destruct (fileLength_ok _ _ _ Hmax Hn) as (_ & -> & ? & _). pose proof (total_nonneg f).
  split; [|lia]. split_and!; [apply Hk|unfold is_u32; lia|done].
Qed.

Lemma serve_offer i s : f !! i = Some s →
  offer_section params (mkServe (at_ i 2) [] []) =
  (Ok tt, mkServe (at_ i 2) [msg (SectionReady (K_Name k) (Number s) (zlen (SData s)) 0)] []).
Proof.
  intros Hi. unfold offer_section, get_worker, current_section, w_lift, idx, st_bind, st_get, st_ret. cbn -[lookup send u32].
  rewrite Hi. cbn -[lookup send u32]. pose proof (total_bound s i Hi). destruct (typed_section s i Hi).
  assert (u32 (zlen (SData s)) = zlen (SData s)) as -> by (apply Z.mod_small; unfold zlen in *; lia). rewrite send_k; [done|].
  split; [|lia]. split_and!; [apply Hk|done|unfold is_u32; lia|done].
Qed.

Lemma serve_call s : f !! 0%nat = Some s →
  run (received k (FileCall (K_Name k) 0 CallFile) FileTransfer) (at_ 0 1) =
  (Ok tt, mkServe (at_ 0 2) [msg (SectionReady (K_Name k) (Number s) (zlen (SData s)) 0)] []).
Proof.
  intros Hs. open_call. cbn -[lookup offer_section bool_decide]. rewrite same_key. cbn -[lookup offer_section].
  unfold st_bind, set_state, upd_worker, st_upd. cbn -[lookup offer_section]. by apply (serve_offer 0).
Qed.

Definition chunks (s : FileSection) : list (list Z) :=
  segments (length (SData s)) (Z.to_nat (segmentSize served params)) (SData s).

Lemma chunks_ok s i : f !! i = Some s → mjoin (chunks s) = SData s ∧
  Forall (λ c, c ≠ [] ∧ bytes_ok c ∧ zlen c ≤ max_segment params) (chunks s).
Proof.
  intros Hi. split; [apply segments_join; lia|]. eapply Forall_impl; [apply segments_chunks; [lia|by apply (typed_section s i)]|].
  intros c (H1 & H2 & H3). split_and!; [done|done|]. unfold zlen. lia.
Qed.

Lemma serve_segments number l w out : is_u8 number → Forall (λ c, c ≠ [] ∧ bytes_ok c ∧ zlen c ≤ max_segment params) l →
  send_segments params k number l (mkServe w out []) =
  (Ok tt, mkServe w (out ++ ((λ c, msg (FileSegment (K_Name k) number c)) <$> l)) []).
Proof.
  intros Hnum Hl. revert out. induction Hl as [|c l (_ & Hb & Hc) _ IH]; intros out; cbn [send_segments fmap list_fmap].
  { by rewrite app_nil_r. }
  unfold st_bind. rewrite send_k by (split; [split_and!; [apply Hk|done|done]|done]). rewrite IH, <- app_assoc. done.
Qed.

Lemma serve_section i s : f !! i = Some s →
  run (received k (FileCall (K_Name k) (Number s) CallSection) FileTransfer) (at_ i 2) =
  (Ok tt, mkServe (at_ i 3) (((λ c, msg (FileSegment (K_Name k) (Number s) c)) <$> chunks s) ++
    [msg (FileLast (K_Name k) (Number s) 3 (FileChecksum (SData s)))]) []).
Proof.
  intros Hi. destruct (typed_section s i Hi) as [Hnum Hb]. open_call. cbn -[lookup section bool_decide current_section]. rewrite same_key.
  cbn -[lookup section current_section]. unfold st_bind, current_section, get_worker, w_lift, idx, st_bind, st_get, st_ret. cbn -[lookup section]. rewrite Hi.
  rewrite Z.eqb_refl. cbn -[lookup section]. unfold section, get_worker, current_section, w_lift, idx, st_bind, st_get, st_ret.
  cbn -[lookup send send_segments segments]. rewrite Hi. fold (chunks s). rewrite serve_segments by (done || apply (chunks_ok s i Hi)).
  unfold set_state, upd_worker, st_upd. cbn -[lookup send FileChecksum]. rewrite send_k; [done|]. split; [|done].
  split_and!; [apply Hk|done|done|apply checksum_u8].
Qed.

Ltac open_ack Hi := rewrite run_ack; unfold handle_ack; rewrite key_same;
  unfold get_worker, st_bind at 1, st_bind at 1, st_get, st_ret; cbn [worker at_ w_state w_key w_file w_index]; rewrite same_key;
  cbn -[lookup Nat.ltb current_section bool_decide offer_section]; unfold st_bind at 1, current_section, get_worker, w_lift, idx, st_bind, st_get, st_ret;
  cbn -[lookup Nat.ltb offer_section send]; rewrite Hi, Z.eqb_refl; cbn -[lookup Nat.ltb offer_section send].

Lemma serve_ack i s s' : f !! i = Some s → f !! S i = Some s' →
  run (received k (FileACK (K_Name k) (Number s) PositiveSectionACK) FileTransfer) (at_ i 3) =
  (Ok tt, mkServe (at_ (S i) 2) [msg (SectionReady (K_Name k) (Number s') (zlen (SData s')) 0)] []).
Proof.
  intros Hi Hi'. open_ack Hi. rewrite (proj2 (Nat.ltb_lt _ _)) by (by eapply lookup_lt_Some).
  unfold set_index, upd_worker, st_upd. cbn -[lookup Nat.ltb offer_section]. by apply serve_offer.
Qed.

Lemma serve_last_ack i s : f !! i = Some s → f !! S i = None →
  run (received k (FileACK (K_Name k) (Number s) PositiveSectionACK) FileTransfer) (at_ i 3) =
  (Ok tt, mkServe (at_ i 4) [msg (FileLast (K_Name k) (Number s) 1 (file_checksum f))] []).
Proof.
  intros Hi Hi'. open_ack Hi. rewrite (proj2 (Nat.ltb_ge _ _)) by (by apply lookup_ge_None).
  unfold set_state, upd_worker, st_upd. cbn -[lookup Nat.ltb send file_checksum]. rewrite send_k; [done|]. destruct (typed_section s i Hi). split; [|done].
  split_and!; [apply Hk|done|done|apply file_checksum_u8].
Qed.

Lemma serve_file_ack i s : f !! i = Some s →
  run (received k (FileACK (K_Name k) (Number s) PositiveFileACK) FileTransfer) (at_ i 4) =
  (Ok tt, mkServe (mkServing k [] 0 0 0 0 gen) [] []).
Proof. intros Hi. open_ack Hi. done. Qed.

(** ** The client's side *)
Context (taken : FileOptions) (Htaken : n ≤ MaxFileSize taken).

Definition down (i : nat) : download := mkDownload n (take i f) (total (take i f)) (file_checksum (take i f)).
Definition asks (e : Element) (st : file_stage) : reaction receiver := SendNext (msg e) (fileMatch k) (mkReceiver k e st).
Notation feed r l := (feed params taken r l).

Lemma take_total i s : f !! i = Some s → total (take (S i) f) = total (take i f) + zlen (SData s) ∧ total (take (S i) f) ≤ n ∧ n ≤ 0xffffff.
Proof.
  intros Hi. destruct (fileLength_ok _ _ _ Hmax Hn) as (_ & Ht & Hle & _). rewrite (take_S_r _ _ _ Hi), total_app. cbn [total].
  assert (f = take i f ++ s :: drop (S i) f) as Hsplit by (symmetry; by apply take_drop_middle).
  rewrite Hsplit, total_app in Ht. cbn [total] in Ht. pose proof (total_nonneg (drop (S i) f)). lia.
Qed.

Lemma total_positive : 0 < n ≤ 0xffffff.
Proof.
  destruct (fileLength_ok _ _ _ Hmax Hn) as (Hne & Ht & Hle & _). destruct (f !! 0%nat) as [s|] eqn:H0.
  - destruct (take_total 0 s H0) as (Ht0 & Hle0 & _). pose proof (total_bound s 0 H0). rewrite take_0 in Ht0. cbn [total] in Ht0. lia.
  - by destruct f.
Qed.

Lemma client_ready last : feed (mkReceiver k last Selecting) [msg (FileReady (K_Name k) n 0)] =
  Ok (asks (FileCall (K_Name k) 0 CallFile) (Loop (down 0)), []).
Proof.
  pose proof total_positive. unfold msg. rewrite (feed_step params taken (mkReceiver k last Selecting)); [|done|done| |done|done|done].
  - unfold react_element, react_ready. cbn [r_stage]. rewrite (proj2 (Z.eqb_neq n 0)), (proj2 (Z.ltb_ge _ _)) by lia. done.
  - split; [|lia]. split_and!; [apply Hk|unfold is_u32; lia|done].
Qed.

Lemma client_offer last i s : f !! i = Some s →
  feed (mkReceiver k last (Loop (down i))) [msg (SectionReady (K_Name k) (Number s) (zlen (SData s)) 0)] =
  Ok (asks (FileCall (K_Name k) (Number s) CallSection) (Content (down i) (Number s) (zlen (SData s)) 0 []), []).
Proof.
  intros Hi. destruct (typed_section s i Hi) as [Hnum _]. pose proof (total_bound s i Hi). destruct (take_total i s Hi) as (Ht & Hle & _).
  destruct (fileLength_ok _ _ _ Hmax Hn) as (_ & _ & _ & Hok & Hnd). rewrite Forall_lookup in Hok. destruct (Hok _ _ Hi) as [Hz _].
  unfold msg. rewrite (feed_step params taken (mkReceiver k last _)); [|done|done| |done|done|done].
  - unfold react_element, react_loop. cbn [r_stage down d_sections d_length d_total].
    rewrite (proj2 (Z.eqb_neq (Number s) 0)), (proj2 (Z.eqb_neq (zlen _) 0)), (proj2 (Z.ltb_ge _ _)) by lia.
    rewrite bool_decide_eq_false_2; [done|]. rewrite fmap_take. intros (j & Hj)%list_elem_of_lookup.
    rewrite lookup_take_Some in Hj. destruct Hj as [Hj Hlt]. assert ((Number <$> f) !! i = Some (Number s)) as Hi' by by rewrite list_lookup_fmap, Hi.
    pose proof (NoDup_lookup _ _ _ _ Hnd Hj Hi'). lia.
  - split; [|lia]. split_and!; [apply Hk|done|unfold is_u32; lia|done].
Qed.

Lemma client_section last i s : f !! i = Some s →
  feed (mkReceiver k last (Content (down i) (Number s) (zlen (SData s)) 0 []))
    (((λ c, msg (FileSegment (K_Name k) (Number s) c)) <$> chunks s) ++ [msg (FileLast (K_Name k) (Number s) 3 (FileChecksum (SData s)))]) =
  Ok (asks (FileACK (K_Name k) (Number s) PositiveSectionACK) (Loop (down (S i))), []).
Proof.
  intros Hi. destruct (typed_section s i Hi) as [Hnum _]. pose proof (total_bound s i Hi). destruct (take_total i s Hi) as (Ht & Hle & Hn').
  destruct (chunks_ok s i Hi) as [Hj Hc]. unfold msg. rewrite feed_file_segments; [|done|done|done|done|rewrite Hj; unfold zlen; cbn; lia].
  rewrite Hj. cbn [app]. rewrite (feed_step params taken (mkReceiver k last _)); [|done|done| |done|done|done].
  - unfold react_element, react_content. cbn [r_stage]. assert (u32 (zlen (SData s)) = zlen (SData s)) as -> by (apply Z.mod_small; lia).
    rewrite !Z.eqb_refl. cbn [negb orb Z.eqb]. change (3 =? 3) with true. cbn [negb orb]. unfold exchange, asks. cbn [r_key name_of].
    unfold down. cbn [d_length d_sections d_total d_sum]. rewrite (take_S_r _ _ _ Hi), total_app, checksum_snoc. cbn [total].
    pose proof (total_nonneg (take i f)). rewrite (take_S_r _ _ _ Hi), total_app in Hle. cbn [total] in Hle.
    assert (u32 (total (take i f) + zlen (SData s)) = total (take i f) + (zlen (SData s) + 0)) as ->; [|by destruct s].
    rewrite Z.add_0_r. apply Z.mod_small. lia.
  - split; [|done]. split_and!; [apply Hk|done|done|apply checksum_u8].
Qed.

Lemma client_last last i s : f !! i = Some s → f !! S i = None →
  feed (mkReceiver k last (Loop (down (S i)))) [msg (FileLast (K_Name k) (Number s) 1 (file_checksum f))] =
  Ok (asks (FileACK (K_Name k) (Number s) PositiveFileACK) (FinalAck (down (S i))), []).
Proof.
  intros Hi Hi'. destruct (typed_section s i Hi) as [Hnum _]. apply lookup_ge_None in Hi'.
  destruct (fileLength_ok _ _ _ Hmax Hn) as (_ & Ht & _). unfold msg.
  rewrite (feed_step params taken (mkReceiver k last _)); [|done|done| |done|done|done].
  - unfold react_element, react_loop. cbn [r_stage down d_sections].
    assert (list.last (take (S i) f) = Some s) as -> by (by rewrite (take_S_r _ _ _ Hi), last_snoc).
    cbn [down d_total d_length d_sum]. rewrite take_ge by done. rewrite <- Ht, !Z.eqb_refl. done.
  - split; [|done]. split_and!; [apply Hk|done|done|apply file_checksum_u8].
Qed.

(** ** The dialogue *)
Notation converse fuel x w := (converse params served taken fuel pv x w).

Lemma converse_asks fuel e st w s x : sendable params e → run (received k e FileTransfer) w = (Ok tt, s) →
  feed (mkReceiver k e st) (sent s) = Ok (x, []) → resume_file taken (mkReceiver k e st) = Continue (mkReceiver k e st) →
  converse (S fuel) (asks e st) w = converse fuel x (worker s).
Proof.
  intros He Hr Hf Hres. cbn [Iec104FileCorrect.converse asks]. unfold msg. rewrite wire_message by done. cbn [bind].
  rewrite Hr, Hres, Hf. cbn [bind]. by rewrite bool_decide_eq_true_2.
Qed.

Lemma call_sendable sec q : is_u8 sec → is_u8 q → sendable params (FileCall (K_Name k) sec q).
Proof. intros. split; [|done]. split_and!; [apply Hk|done|done]. Qed.
Lemma ack_sendable sec q : is_u8 sec → is_u8 q → sendable params (FileACK (K_Name k) sec q).
Proof. intros. split; [|done]. split_and!; [apply Hk|done|done]. Qed.

Definition finished : P (option proc_error * receiver * fileServing) → Prop := λ r,
  ∃ last, r = Ok (None, mkReceiver k last (FinalAck (down (length f))), mkServing k [] 0 0 0 0 gen).

Lemma converse_sections j : ∀ i s fuel, f !! i = Some s → length f = (i + S j)%nat → (2 * j + 4 ≤ fuel)%nat →
  finished (converse fuel (asks (FileCall (K_Name k) (Number s) CallSection) (Content (down i) (Number s) (zlen (SData s)) 0 [])) (at_ i 2)).
Proof.
  induction j as [|j IH]; intros i s fuel Hi Hl Hfuel; destruct (typed_section s i Hi) as [Hnum _];
    destruct fuel as [|[|fuel]]; try lia.
  - rewrite (converse_asks _ _ _ _ _ _ (call_sendable (Number s) CallSection Hnum ltac:(done)) (serve_section i s Hi) (client_section _ i s Hi) eq_refl).
    assert (f !! S i = None) as Hi' by (apply lookup_ge_None; lia).
    rewrite (converse_asks _ _ _ _ _ _ (ack_sendable (Number s) PositiveSectionACK Hnum ltac:(done)) (serve_last_ack i s Hi Hi') (client_last _ i s Hi Hi') eq_refl).
    destruct fuel as [|[|fuel]]; [lia..|]. eexists. cbn [Iec104FileCorrect.converse asks worker]. unfold msg.
    rewrite wire_message by (done || by apply ack_sendable). cbn [bind]. rewrite (serve_file_ack i s Hi). cbn [resume_file r_stage sent].
    rewrite bool_decide_eq_true_2 by done. rewrite Hl, Nat.add_1_r. done.
  - destruct (f !! S i) as [s'|] eqn:Hi'; [|apply lookup_ge_None in Hi'; lia].
    rewrite (converse_asks _ _ _ _ _ _ (call_sendable (Number s) CallSection Hnum ltac:(done)) (serve_section i s Hi) (client_section _ i s Hi) eq_refl).
    rewrite (converse_asks _ _ _ _ _ _ (ack_sendable (Number s) PositiveSectionACK Hnum ltac:(done)) (serve_ack i s s' Hi Hi') (client_offer _ (S i) s' Hi') eq_refl).
    apply IH; [done|lia|lia].
Qed.

Lemma converse_all w fuel : Open pv k = Ok f → w_state w = 0 → w_generation w = gen → (2 * length f + 4 ≤ fuel)%nat →
  finished (converse fuel (start_download k) w).
Proof.
  intros Ho Hw Hg Hfuel. destruct (fileLength_ok _ _ _ Hmax Hn) as (Hne & _). destruct (f !! 0%nat) as [s|] eqn:H0; [|by destruct f].
  destruct fuel as [|[|fuel]]; [lia..|].
  change (start_download k) with (asks (FileCall (K_Name k) 0 SelectFile) Selecting).
  rewrite (converse_asks _ _ _ _ _ _ (call_sendable 0 SelectFile ltac:(done) ltac:(done)) (serve_select w Ho Hw Hg) (client_ready _) eq_refl).
  rewrite (converse_asks _ _ _ _ _ _ (call_sendable 0 CallFile ltac:(done) ltac:(done)) (serve_call s H0) (client_offer _ 0 s H0) eq_refl).
  assert (0 < length f)%nat by (by destruct f; [|cbn; lia]). apply (converse_sections (length f - 1)); [done|lia|lia].
Qed.
End Station.

Lemma normalized_ok o p o' : normalize_files o p = Ok o' →
  params_ok p ∧ 0 < segmentSize o' p ≤ max_segment p ∧ MaxFileSize o' ≤ 0xffffff ∧ 0 ≤ SectionRetries o' ≤ 10 ∧ 1 ≤ DirectoryLimit o'.
Proof.
  unfold normalize_files, normalized. intros H. apply bind_Ok in H as (x & Hx & H). apply guard_err_Ok in Hx as [Hg Hx].
  injection Hx as <-. destruct (Params_Validate p) eqn:Hv; [done|]. apply Validate_ok in Hv. apply guard_err_Ok in H as [Hs H].
  injection H as <-. cbn [SegmentSize FTimeout SectionRetries MaxFileSize DirectoryLimit] in *. bool_facts. split; [done|].
  pose proof (max_segment_bound p Hv). unfold segmentSize. cbn [SegmentSize]. destruct (Z.eqb_spec (SegmentSize o) 0); cbn [negb];
    destruct (MaxFileSize o =? 0), (DirectoryLimit o =? 0); split_and!; lia.
Qed.

(** C26. A download returns the served file.  When the provider opens a file
    that the worker can offer and that is not longer than the client's limit,
    the client's and the worker's sides, with any options, key and content and
    every message encoded and decoded on the way, end in a dialogue of at most
    two requests for each section and four more: without an error, with exactly
    the sections of the file in order, and the worker idle again. *)
Theorem download_returns_file params o o' served taken pv k f n w fuel :
  normalize_files o params = Ok served → normalize_files o' params = Ok taken → key_ok params k →
  Forall (λ s, is_u8 (Number s) ∧ bytes_ok (SData s)) f → Open pv k = Ok f →
  fileLength f (MaxFileSize served) = Ok n → n ≤ MaxFileSize taken →
  w_state w = 0 → (2 * length f + 4 ≤ fuel)%nat →
  ∃ r d w', converse params served taken fuel pv (start_download k) w = Ok (None, r, w') ∧
    r_stage r = FinalAck d ∧ d_sections d = f ∧ w_state w' = 0.
Proof.
  intros Ho Ho' Hk Hf Hopen Hn Hle Hw Hfuel. apply normalized_ok in Ho as (Hp & Hseg & Hmax & _).
  destruct (converse_all params served pv k f n (w_generation w) Hp Hk Hseg Hmax Hn Hf taken Hle w fuel Hopen Hw eq_refl Hfuel) as [last ->].
  eexists _, _, _. split_and!; [reflexivity|reflexivity| |done]. cbn. by rewrite take_ge.
Qed.

Definition sample_file : File := [mkSection 1 (Z.of_nat <$> seq 0 250); mkSection 7 [255; 2]].
Definition sample_key : FileKey := mkKey 12 0 4096 3.
Definition sample_provider : FileProvider := mkProvider (λ _, Err (Iec ErrMalformed)) (λ _, Ok sample_file).
Definition idle_worker : fileServing := mkServing (mkKey 0 0 0 0) [] 0 0 0 0 None.

Lemma download_returns_file_witness : ∃ r d w',
  converse DefaultParams DefaultFileOptions DefaultFileOptions 8 sample_provider (start_download sample_key) idle_worker = Ok (None, r, w') ∧
  r_stage r = FinalAck d ∧ d_sections d = sample_file ∧ w_state w' = 0.
Proof.
  apply (download_returns_file DefaultParams DefaultFileOptions DefaultFileOptions _ _ _ _ _ 252);
    [reflexivity|reflexivity| | |reflexivity|vm_compute; reflexivity|vm_compute; discriminate|reflexivity|cbn; lia].
  - constructor; apply (bool_decide_unpack _); vm_compute; exact I.
  - apply (bool_decide_unpack _). vm_compute. exact I.
Defined.
