(* ===== verification/Iec104FileInv.v ===== *)
(** * File transfer: what holds in every dialogue

    The worker's state in every run of its loop, whatever the provider, the
    peer and the session do; and the client's download against a peer that may
    send anything: what the client has taken so far, and what it returns. *)
From S2P Require Import Prelude GoLib Iec104Types Iec104Time Iec104Elements Iec104Asdu Iec104Procedure Iec104File Iec104FileCorrect.

#[local] Open Scope Z_scope.

(** ** Messages that were decoded

    The elements of a decoded message have the type its header names, so that
    the type assertions of the code succeed. *)
Definition conforming (m : Message) : Prop :=
  match m with
  | ASDUMessage a => Forall (λ o, ∃ b, encodeElement (Element_ o) = Ok (Type_ (AHeader a), b)) (Objects a) ∧
                     Forall object_typed (Objects a)
  | _ => True
  end.

Lemma objects_code_types p h first os : ∀ i tl, objects_code p h first i os tl →
  Forall (λ o, ∃ b, encodeElement (Element_ o) = Ok (Type_ h, b)) os.
Proof.
  induction os as [|o os IH]; intros i tl H; [constructor|]. destruct H as (payload & tl' & Hfit & -> & H).
  constructor; [|by eapply IH]. destruct Hfit as (_ & _ & He). eauto.
Qed.

Lemma decoded_conforming p b m : bytes_ok b → DecodeASDU b p = Ok m → conforming m.
Proof.
  intros Hb H. apply decode_encode_asdu in H as [Ht H]; [|done]. destruct m as [a| |]; try done. cbn [conforming].
  destruct Ht as [[_ Hobj] _]. split; [|done]. cbn [Message_MarshalBinary] in H. unfold ASDU_MarshalBinary in H.
  apply guard_err_Ok in H as [_ H]. destruct (Objects a) as [|o os] eqn:Ho; [constructor|].
  destruct (fileStructure _); [done|]. apply bind_Ok in H as (hb & _ & H).
  apply marshal_objects_spec in H as (tl & Hc & _). by eapply objects_code_types.
Qed.

Lemma encoded_type e id b : encodeElement e = Ok (id, b) → id = match e with Timed v _ => timedType v | _ => elementType e end.
Proof.
  destruct e; unfold encodeElement; intros H;
    repeat (apply bind_Ok in H as (? & ? & H) || apply guard_err_Ok in H as [? H]); congruence.
Qed.
Lemma timed_no_file v : isFileType (timedType v) = false.
Proof. by destruct v. Qed.
Ltac by_type := let H := fresh in intros H%encoded_type; match type of H with _ = match ?e with _ => _ end => destruct e end;
  try discriminate H; eauto; apply (f_equal isFileType) in H; rewrite timed_no_file in H; discriminate H.
Lemma encoded_call e b : encodeElement e = Ok (F_SC_NA_1, b) → ∃ name sec q, e = FileCall name sec q.
Proof. by_type. Qed.
Lemma encoded_ack e b : encodeElement e = Ok (F_AF_NA_1, b) → ∃ name sec q, e = FileACK name sec q.
Proof. by_type. Qed.
Lemma encoded_entry e b : encodeElement e = Ok (F_DR_TA_1, b) → ∃ name len status time, e = FileDirectory name len status time.
Proof. by_type. Qed.

(** ** The worker *)
Create HintDb file.
Section WorkerInv.
Context (params : Params) (files : FileOptions).

(** Idle with nothing selected, or in a transfer of a valid file at one of its
    sections. *)
Definition worker_ok (g : option nat) (w : fileServing) : Prop :=
  w_generation w = g ∧ 0 ≤ w_retries w ≤ SectionRetries files ∧
  (w_state w = 0 ∧ w_file w = [] ∧ w_total w = 0 ∧ w_index w = 0%nat ∨
   1 ≤ w_state w ≤ 4 ∧ fileLength (w_file w) (MaxFileSize files) = Ok (w_total w) ∧ (w_index w < length (w_file w))%nat ∧
   (w_state w = 1 → w_index w = 0%nat) ∧ (w_state w = 4 → S (w_index w) = length (w_file w))).

(** [keeps m s]: from [s] the method returns, with or without an error, and
    the worker it leaves is as it must be. *)
Definition keeps {A} (g : option nat) (m : W A) : Prop :=
  ∀ s, worker_ok g (worker s) → match m s with (Ok _, s') | (Err _, s') => worker_ok g (worker s') | _ => False end.

Lemma keeps_bind {A B} g (m : W A) (k : A → W B) : keeps g m → (∀ a, keeps g (k a)) → keeps g (st_bind m k).
Proof. intros Hm Hk s Hs. unfold st_bind. specialize (Hm s Hs). destruct (m s) as [[a|e| |] s']; try done. by apply Hk. Qed.
Lemma keeps_ret {A} g (a : A) : keeps g (st_ret a).
Proof. by intros s. Qed.
Lemma keeps_lift {A} g (m : P A) : safe m → keeps g (w_lift m).
Proof. intros H s Hs. unfold w_lift. by destruct m. Qed.
Lemma keeps_let {A B} g (m : outcome iec_error A) (k : A → W B) : safe m → (∀ a, m = Ok a → keeps g (k a)) →
  keeps g (st_bind (w_lift (iec m)) k).
Proof. intros Hm Hk s Hs. unfold st_bind, w_lift. destruct m as [a|e| |]; try done. by apply (Hk a eq_refl). Qed.
Lemma keeps_get {B} g (k : fileServing → W B) : (∀ w s, worker_ok g w → worker s = w →
  match k w s with (Ok _, s') | (Err _, s') => worker_ok g (worker s') | _ => False end) → keeps g (st_bind get_worker k).
Proof. intros H s Hs. by apply H. Qed.
Lemma keeps_upd g f : (∀ w, worker_ok g w → worker_ok g (f w)) → keeps g (upd_worker f).
Proof. intros H s Hs. by apply H. Qed.
Lemma keeps_at {A} g (m : W A) s : keeps g m → worker_ok g (worker s) →
  match m s with (Ok _, s') | (Err _, s') => worker_ok g (worker s') | _ => False end.
Proof. intros H. apply H. Qed.

(** The encoder never panics. *)
Lemma cloneASDU_safe a : safe (cloneASDU a).
Proof.
  unfold cloneASDU. apply bind_safe; [|done]. induction (Objects a) as [|o os IH]; [exact I|].
  apply bind_safe; [apply encodeElement_safe|done].
Qed.
Lemma encodeHeader_safe p h : safe (encodeHeader p h).
Proof. unfold encodeHeader. destruct (Params_Validate p); [done|]. safe_tac. Qed.
Lemma marshal_safe p a : safe (ASDU_MarshalBinary p a).
Proof.
  unfold ASDU_MarshalBinary. apply guard_err_safe. intros _.
  assert (∀ h first os i b, safe (marshal_objects p h first i os b)) as Hm.
  { intros h first os. induction os as [|o os IH]; intros i b; cbn [marshal_objects]; [exact I|].
    do 2 (apply guard_err_safe; intros _). apply bind_safe; [apply encodeElement_safe|]. intros [id payload] _.
    do 2 (apply guard_err_safe; intros _). apply IH. }
  destruct (fileStructure _), (Objects a); try done; (apply bind_safe; [apply encodeHeader_safe|intros; apply Hm]).
Qed.

Lemma keeps_sendMessage g m : keeps g (sendMessage params m).
Proof.
  unfold sendMessage. apply keeps_let; [apply cloneASDU_safe|]. intros owned ->%cloneASDU_Ok.
  apply keeps_let; [apply marshal_safe|]. intros _ _ s Hs. by destruct (results s) as [|[e|] rest].
Qed.
Lemma keeps_send g k e cot : keeps g (send params k e cot).
Proof. apply keeps_sendMessage. Qed.
Lemma keeps_negative g k section q code cot : keeps g (negative params k section q code cot).
Proof. apply keeps_send. Qed.
Hint Resolve keeps_send keeps_negative keeps_sendMessage keeps_ret : file.

(** [keeps] from the workers that satisfy a condition. *)
Definition keeps_if {A} (g : option nat) (Pre : fileServing → Prop) (m : W A) : Prop :=
  ∀ s, worker_ok g (worker s) → Pre (worker s) →
  match m s with (Ok _, s') | (Err _, s') => worker_ok g (worker s') | _ => False end.

Definition transferring (w : fileServing) : Prop := w_state w ≠ 0.

Lemma keeps_weaken {A} g Pre (m : W A) : keeps g m → keeps_if g Pre m.
Proof. intros H s Hs _. by apply H. Qed.
Lemma keeps_always {A} g (m : W A) : keeps_if g (λ _, True) m → keeps g m.
Proof. intros H s Hs. by apply H. Qed.
Lemma keeps_read {B} g Pre (k : fileServing → W B) :
  (∀ w, worker_ok g w → Pre w → keeps_if g (eq w) (k w)) → keeps_if g Pre (st_bind get_worker k).
Proof. intros H s Hs Hp. by apply (H (worker s)). Qed.
Lemma keeps_section {B} g w (k : FileSection → W B) : worker_ok g w → transferring w →
  (∀ s, w_file w !! w_index w = Some s → keeps_if g (eq w) (k s)) → keeps_if g (eq w) (st_bind current_section k).
Proof.
  intros (Hg & Hr & Hw) Ht H s Hs ->. destruct Hw as [Hw|(_ & _ & Hi & _)]; [by destruct Ht, Hw|].
  destruct (lookup_lt_is_Some_2 _ _ Hi) as [x Hx]. specialize (H x Hx s Hs eq_refl).
  unfold st_bind, current_section, get_worker, w_lift, st_bind, st_get, st_ret, idx. by rewrite Hx.
Qed.
Lemma keeps_set {B} g (Pre Post : fileServing → Prop) f (k : W B) :
  (∀ w, worker_ok g w → Pre w → worker_ok g (f w) ∧ Post (f w)) → keeps_if g Post k → keeps_if g Pre (do? upd_worker f in k).
Proof. intros Hf Hk s Hs Hp. destruct (Hf _ Hs Hp). by apply Hk. Qed.

Lemma keeps_upd_if g (Pre : fileServing → Prop) f : (∀ w, worker_ok g w → Pre w → worker_ok g (f w)) → keeps_if g Pre (upd_worker f).
Proof. intros Hf s Hs Hp. by apply Hf. Qed.
Lemma keeps_assoc {A B C} g Pre (m : W A) (k : A → W B) (h : B → W C) :
  keeps_if g Pre (st_bind m (λ a, st_bind (k a) h)) → keeps_if g Pre (st_bind (st_bind m k) h).
Proof. intros H s Hs Hp. specialize (H s Hs Hp). unfold st_bind in *. destruct (m s) as [[a|e| |] s']; done. Qed.

Lemma reset_ok g w : worker_ok g w → worker_ok g (reset_worker w).
Proof. intros (? & ? & _). split; [done|]. split; [cbn; lia|]. by left. Qed.

Lemma keeps_reset g : keeps g reset.
Proof. apply keeps_upd. by apply reset_ok. Qed.

Lemma keeps_abort g : keeps g (abort params).
Proof.
  apply keeps_always. unfold abort. apply keeps_read. intros w Hw _. destruct (w_state w =? 0) eqn:Hs; [apply keeps_weaken, keeps_ret|]. bool_facts.
  destruct (w_file w) as [|x f] eqn:Hf.
  - apply keeps_weaken, keeps_bind; [apply keeps_ret|]. intros sec. apply keeps_bind; [apply keeps_reset|intros _; apply keeps_send].
  - apply keeps_assoc, keeps_section; [done..|]. intros y _. apply keeps_weaken, keeps_bind; [apply keeps_ret|]. intros sec.
    apply keeps_bind; [apply keeps_reset|intros _; apply keeps_send].
Qed.

Lemma fileLength_safe f max : safe (fileLength f max).
Proof.
  assert (∀ l n seen, safe (file_length max n seen l)) as H.
  { intros l. induction l as [|x l IH]; intros n seen; [exact I|]. cbn [file_length]. apply guard_err_safe. intros _. apply IH. }
  unfold fileLength. destruct f; [exact I|apply H].
Qed.
Lemma NewBuilder_safe p h : safe (NewBuilder p h).
Proof.
  unfold NewBuilder. cbv zeta. apply bind_safe; [apply encodeHeader_safe|]. intros _ _. apply guard_err_safe. intros _. by destruct (fileStructure _).
Qed.
Lemma Append_safe b o : safe (Append b o).
Proof.
  unfold Append. cbv zeta. apply bind_safe; [apply encodeElement_safe|]. intros [id payload] _. by repeat (apply guard_err_safe; intros _).
Qed.

(** A change of the state, the section or the retries within a transfer. *)
Lemma move_ok g w i st retries : worker_ok g w → transferring w → 1 ≤ st ≤ 4 → (i < length (w_file w))%nat → 0 ≤ retries ≤ SectionRetries files →
  (st = 1 → i = 0%nat) → (st = 4 → S i = length (w_file w)) →
  worker_ok g (mkServing (w_key w) (w_file w) (w_total w) i st retries (w_generation w)).
Proof.
  intros (? & ? & [[? _]|(? & ? & _)]) Ht; [by destruct Ht|]. intros. split; [done|]. split; [done|]. right. done.
Qed.
Lemma section_index_ok g w : worker_ok g w → transferring w → (w_index w < length (w_file w))%nat.
Proof. intros (_ & _ & [[? _]|(? & _ & ? & _)]) Ht; [by destruct Ht|done]. Qed.

Lemma keeps_offer g : keeps_if g transferring (offer_section params).
Proof. unfold offer_section. apply keeps_read. intros w Hw Ht. apply keeps_section; [done..|]. intros. apply keeps_weaken, keeps_send. Qed.

Lemma keeps_segments g k number l : keeps g (send_segments params k number l).
Proof. induction l as [|d l IH]; [apply keeps_ret|]. cbn [send_segments]. apply keeps_bind; [apply keeps_send|done]. Qed.

(** What is sent leaves the worker alone. *)
Definition unmoved {A} (m : W A) : Prop := ∀ s, worker (snd (m s)) = worker s.
Lemma unmoved_bind {A B} (m : W A) (k : A → W B) : unmoved m → (∀ a, unmoved (k a)) → unmoved (st_bind m k).
Proof. intros Hm Hk s. unfold st_bind. specialize (Hm s). destruct (m s) as [[a|e| |] s']; cbn in *; try done. by rewrite Hk. Qed.
Lemma unmoved_lift {A} (m : P A) : unmoved (w_lift m).
Proof. done. Qed.
Lemma unmoved_sendMessage m : unmoved (sendMessage params m).
Proof.
  unfold sendMessage. do 2 (apply unmoved_bind; [apply unmoved_lift|intros ?]). intros s. by destruct (results s) as [|[e|] rest].
Qed.
Lemma unmoved_segments k number l : unmoved (send_segments params k number l).
Proof. induction l as [|d l IH]; [done|]. cbn [send_segments]. apply unmoved_bind; [apply unmoved_sendMessage|done]. Qed.
Lemma keeps_frame {A B} g Pre (m : W A) (k : A → W B) : keeps g m → unmoved m → (∀ a, keeps_if g Pre (k a)) → keeps_if g Pre (st_bind m k).
Proof.
  intros Hm Hu Hk s Hs Hp. unfold st_bind. specialize (Hm s Hs). specialize (Hu s). destruct (m s) as [[a|e| |] s']; try done.
  cbn in Hu. apply Hk; [done|by rewrite Hu].
Qed.

Lemma keeps_serve_section g : keeps_if g transferring (section params files).
Proof.
  unfold section. apply keeps_read. intros w Hw Ht. apply keeps_section; [done..|]. intros x _.
  apply keeps_frame; [apply keeps_segments|apply unmoved_segments|intros _].
  apply (keeps_set g _ (λ _, True)); [|apply keeps_weaken, keeps_send]. intros ? _ <-. split; [|done].
  apply move_ok; [done|done|lia|by eapply section_index_ok|apply Hw|done|done].
Qed.

Lemma keeps_select g pv k sec q : 0 ≤ SectionRetries files → (∀ k, safe (Open pv k)) →
  keeps_if g (λ w, w_state w = 0) (selectFile params files pv k sec q).
Proof.
  intros Hret Hopen. unfold selectFile. case_if; [apply keeps_weaken, keeps_negative|]. specialize (Hopen k).
  destruct (Open pv k) as [f|e| |]; try done; [|apply keeps_weaken, keeps_send].
  destruct (fileLength f (MaxFileSize files)) as [n|e| |] eqn:Hn.
  - apply (keeps_set g _ (λ _, True)); [|apply keeps_weaken, keeps_send]. intros w (Hg & _) _. split; [|done].
    split; [done|]. split; [cbn; lia|]. right. cbn. split_and!; [lia|lia|done| |done|lia]. destruct f; [done|cbn; lia].
  - apply (keeps_set g _ (λ _, True)); [|apply keeps_weaken, keeps_send]. intros w (Hg & Hr & Hw) Hs. split; [|done].
    split; [done|]. split; [done|]. destruct Hw as [?|?]; [left; cbn; intuition|lia].
  - by pose proof (fileLength_safe f (MaxFileSize files)) as H; rewrite Hn in H.
  - by pose proof (fileLength_safe f (MaxFileSize files)) as H; rewrite Hn in H.
Qed.

Lemma keeps_entry g k h last b d : keeps g (append_entry params k h last b d).
Proof.
  unfold append_entry. set (o := mkObject _ _). pose proof (Append_safe b o) as Ha. assert (keeps g (w_lift (iec (Append b o)))) as Hb.
  { apply keeps_lift. by destruct (Append b o). }
  destruct (Append b o) as [b'|e| |] eqn:Hap; try done. destruct e; try done. apply keeps_bind; [apply keeps_sendMessage|intros _].
  apply keeps_let; [apply NewBuilder_safe|]. intros b' _. apply keeps_lift. pose proof (Append_safe b' o). by destruct (Append b' o).
Qed.
Lemma keeps_entries g k h l : ∀ b, keeps g (append_entries params k h b l).
Proof. induction l as [|d l IH]; intros b; [apply keeps_ret|]. cbn [append_entries]. apply keeps_bind; [apply keeps_entry|done]. Qed.
Lemma keeps_directory g pv k : (∀ k, safe (Directory pv k)) → keeps g (directory params files pv k).
Proof.
  intros Hdir. unfold directory. specialize (Hdir k). destruct (Directory pv k) as [l|e| |]; try done; [|apply keeps_negative].
  case_if; [apply keeps_negative|]. case_if; [apply keeps_negative|]. apply keeps_let; [apply NewBuilder_safe|]. intros b _.
  apply keeps_bind; [apply keeps_entries|]. intros. apply keeps_sendMessage.
Qed.

(** A provider whose calls return. *)
Definition provider_safe (pv : FileProvider) : Prop := ∀ k, safe (Directory pv k) ∧ safe (Open pv k).

Ltac refuse := match goal with
  | |- keeps_if _ _ (negative _ _ _ _ _ _) => apply keeps_weaken, keeps_negative
  | |- keeps_if _ _ (send _ _ _ _) => apply keeps_weaken, keeps_send
  end.

Lemma keeps_call g pv k cause name sec q : 0 ≤ SectionRetries files → provider_safe pv →
  keeps g (handle_call params files pv k cause name sec q).
Proof.
  intros Hret Hpv. unfold handle_call. cbv zeta. apply keeps_always, keeps_read. intros w Hw _.
  case_if; [case_if; [refuse|apply keeps_weaken, keeps_directory; apply Hpv]|].
  case_if; [refuse|]. case_if; [refuse|]. destruct ((q =? SelectFile) && (w_state w =? 0)) eqn:Hsel.
  { bool_facts. intros s Hs ->. apply keeps_select; [done|apply Hpv|done|done]. }
  case_if; [refuse|]. destruct ((w_state w =? 0) || _) eqn:Hk; [refuse|]. bool_facts.
  case_if; [apply keeps_weaken, keeps_bind; [apply keeps_reset|intros _; apply keeps_send]|].
  case_if.
  - destruct (negb (w_state w =? 1) || negb (sec =? 0)) eqn:Hc; [refuse|]. bool_facts.
    apply (keeps_set g _ transferring); [|apply keeps_offer]. intros ? _ <-. split; [|done].
    apply move_ok; [done|done|lia|by eapply section_index_ok|apply Hw|done|done].
  - apply keeps_section; [done|done|]. intros x _. case_if; [refuse|]. case_if; [refuse|].
    intros s Hs ->. by apply keeps_serve_section.
Qed.

Lemma keeps_ack g k name sec q : keeps g (handle_ack params files k name sec q).
Proof.
  unfold handle_ack. cbv zeta. apply keeps_always, keeps_read. intros w Hw _.
  destruct ((w_state w =? 0) || _) eqn:Hk; [refuse|]. bool_facts. assert (transferring w) as Ht by done.
  pose proof (section_index_ok g w Hw Ht) as Hi. pose proof Hw as (_ & Hr & _).
  apply keeps_section; [done..|]. intros x _. case_if; [refuse|].
  case_if; [case_if; bool_facts|].
  - apply (keeps_set g _ transferring); [|apply keeps_offer]. intros ? _ <-. split; [|done]. apply move_ok; (done || lia).
  - apply (keeps_set g _ (λ _, True)); [|refuse]. intros ? _ <-. split; [|done]. apply move_ok; (done || lia).
  - case_if; [apply keeps_weaken, keeps_reset|]. destruct (_ && _ && _) eqn:Hn.
    { bool_facts. apply keeps_upd_if. intros ? _ <-. apply move_ok; (done || lia). }
    case_if; [apply keeps_weaken, keeps_abort|refuse].
Qed.

Lemma keeps_handle g pv m : 0 ≤ SectionRetries files → provider_safe pv → conforming m → keeps g (handle params files pv m).
Proof.
  intros Hret Hpv Hm. unfold handle. destruct m as [a| |]; [|apply keeps_ret..]. destruct Hm as [Hm _].
  destruct (Objects a) as [|o os]; [apply keeps_ret|]. apply Forall_cons in Hm as [[b Hb] _]. cbv zeta.
  case_if; [apply keeps_ret|]. case_if; [apply keeps_send|].
  destruct (Type_ (AHeader a) =? F_SC_NA_1) eqn:Hsc.
  { bool_facts. rewrite Hsc in Hb. apply encoded_call in Hb as (name & sec & q & ->). by apply keeps_call. }
  destruct ((Type_ (AHeader a) =? F_AF_NA_1) && _) eqn:Haf; [|apply keeps_negative].
  bool_facts. rewrite H in Hb. apply encoded_ack in Hb as (name & sec & q & ->). apply keeps_ack.
Qed.

(** ** Every run of the loop *)
Definition server_ok (s : server) : Prop :=
  worker_ok (w_generation (sv s)) (sv s) ∧ (w_state (sv s) ≠ 0 → is_Some (w_generation (sv s))) ∧
  (armed s = true → exited s = false → w_state (sv s) ≠ 0).

(** The events that can occur: a transfer generation that ends, a timer that
    was set, a message that was decoded. *)
Definition enabled (s : server) (ev : wevent) : Prop :=
  match ev with
  | WDone => True
  | WStopped => is_Some (w_generation (sv s))
  | WTimer => armed s = true
  | WIn m _ => ∃ b, bytes_ok b ∧ DecodeASDU b params = Ok m
  end.

Lemma conclude_ok g cancelled r w : worker_ok (Some g) (worker w) → 0 ≤ SectionRetries files → safe r →
  ∃ s', conclude cancelled r w = Ok (s', sent w) ∧ server_ok s'.
Proof.
  intros Hw Hret Hr. pose proof Hw as (Hg & Hrt & _).
  assert (server_ok (mkServer (mkServing (w_key (worker w)) [] 0 0 0 0 None) false false false)) as Hnone.
  { split; [|done]. split; [done|]. split; [done|by left]. }
  unfold conclude. destruct r as [u|e| |]; try done.
  - eexists. split; [reflexivity|]. split; [cbn; by rewrite Hg|]. split; cbn; [by rewrite Hg|].
    intros Ha _ Hz. by rewrite Hz in Ha.
  - case_if; [by eexists|]. rewrite Hg. case_if; [by eexists|]. eexists. split; [reflexivity|].
    split; [cbn; by rewrite Hg|]. split; [cbn; by rewrite Hg|done].
Qed.

Lemma keeps_conclude g (m : W unit) s cancelled : 0 ≤ SectionRetries files → keeps (Some g) m → worker_ok (Some g) (worker s) →
  ∃ s' out, (let '(r, w') := m s in conclude cancelled r w') = Ok (s', out) ∧ server_ok s'.
Proof.
  intros Hret Hm Hs. specialize (Hm s Hs). destruct (m s) as [r w']. destruct (conclude_ok g cancelled r w') as (s' & Hc & Hok); [by destruct r|done|by destruct r|eauto].
Qed.

Lemma reset_server_ok w o a e c : 0 ≤ SectionRetries files → (a = true → e = true) → server_ok (mkServer (mkServing (w_key w) [] 0 0 0 0 o) a e c).
Proof. intros Hret Ha. split; [|split; [done|]]; [split; [done|split; [cbn; lia|by left]]|]. cbn. intros ->%Ha. done. Qed.

Lemma run_step_ok pv cancelled cancelled' rs ev s : 0 ≤ SectionRetries files → provider_safe pv → server_ok s → exited s = false → enabled s ev →
  ∃ s' out, run_step params files pv cancelled cancelled' rs ev s = Ok (s', out) ∧ server_ok s'.
Proof.
  intros Hret Hpv (Hw & Hgen & Harm) Hex Hev. destruct ev as [| | |m transfer]; cbn [run_step].
  - eexists _, _. split; [reflexivity|]. by apply reset_server_ok.
  - eexists _, _. split; [reflexivity|]. by apply reset_server_ok.
  - destruct (Hgen (Harm Hev Hex)) as [g Hg]. rewrite Hg. rewrite Hg in Hw. apply (keeps_conclude g); [done|apply keeps_abort|done].
  - destruct Hev as (b & Hb & Hm). assert (server_ok (mkServer (sv s) false false (closing s))) as Hstale by done.
    destruct transfer as [g|]; [|by eexists _, _]. destruct (cancelled g); [by eexists _, _|].
    apply (keeps_conclude g); [done|apply keeps_handle; [done..|by eapply decoded_conforming]|]. cbn [worker].
    destruct (bool_decide _) eqn:Hg; [apply bool_decide_eq_true in Hg; by rewrite Hg in Hw|]. split; [done|]. split; [cbn; lia|by left].
Qed.
End WorkerInv.

(** The states of a worker, from its start, through any events, any answers of
    the provider and any results of its sends. *)
Inductive serves (params : Params) (files : FileOptions) : server → Prop :=
| ServesStart k : serves params files (mkServer (mkServing k [] 0 0 0 0 None) false false false)
| ServesStep s pv cancelled cancelled' rs ev s' out :
    serves params files s → exited s = false → provider_safe pv → enabled params s ev →
    run_step params files pv cancelled cancelled' rs ev s = Ok (s', out) → serves params files s'.

Lemma serves_ok params files s : 0 ≤ SectionRetries files → serves params files s → server_ok files s.
Proof.
  intros Hret. induction 1 as [k|s pv c c' rs ev s' out _ IH Hex Hpv Hev Hs]; [by apply (reset_server_ok files (mkServing k [] 0 0 0 0 None))|].
  destruct (run_step_ok params files pv c c' rs ev s Hret Hpv IH Hex Hev) as (s2 & out2 & Hs2 & Hok). rewrite Hs2 in Hs. by injection Hs as <- _.
Qed.

(** The file worker never fails on what its peer sends.  In every state its
    loop reaches, whatever events arrive, whatever the provider returns and
    however the session answers its sends, the next event is handled without a
    panic; the worker is idle with no file, or it holds a file that passes the
    check of [fileLength], with the section it is at inside that file, no more
    retries of it than configured, a transfer generation, and the file's last
    section when it waits for the file's acknowledgement. *)
Theorem file_worker_safe params o files s : normalize_files o params = Ok files → serves params files s → exited s = false →
  (∀ pv cancelled cancelled' rs ev, provider_safe pv → enabled params s ev →
     ∃ s' out, run_step params files pv cancelled cancelled' rs ev s = Ok (s', out)) ∧
  let w := sv s in
  0 ≤ w_retries w ≤ SectionRetries files ∧
  (w_state w = 0 ∧ w_file w = [] ∨
   1 ≤ w_state w ≤ 4 ∧ fileLength (w_file w) (MaxFileSize files) = Ok (w_total w) ∧ is_Some (w_file w !! w_index w) ∧
   is_Some (w_generation w) ∧ (w_state w = 4 → S (w_index w) = length (w_file w))).
Proof.
  intros (_ & _ & _ & Hret & _)%normalized_ok Hs Hex. assert (server_ok files s) as Hok by (by apply (serves_ok params); [lia|]).
  split.
  { intros pv c c' rs ev Hpv Hev. destruct (run_step_ok params files pv c c' rs ev s) as (s' & out & H & _); [lia|done..|eauto]. }
  destruct Hok as ((Hg & Hr & Hw) & Hgen & _). cbv zeta. split; [done|].
  destruct Hw as [(? & ? & _)|(Hst & Hl & Hi & _ & Hlast)]; [by left|right]. split_and!; [lia|lia|done|by apply lookup_lt_is_Some_2|apply Hgen; lia|done].
Qed.

(** ** A worker that has offered a file *)
Definition select_octets : list Z :=
  match ASDU_MarshalBinary DefaultParams (fileMessage sample_key (FileCall 3 0 SelectFile) FileTransfer) with Ok b => b | _ => [] end.
Definition select_message : Message := ASDUMessage (received sample_key (FileCall 3 0 SelectFile) FileTransfer).
Definition offering_server : server := mkServer (mkServing sample_key sample_file 252 0 1 0 (Some 0%nat)) true false false.

Lemma offering_reached : serves DefaultParams DefaultFileOptions offering_server.
Proof.
  eapply (ServesStep _ _ _ sample_provider (λ _, false) (λ _, false) [] (WIn select_message (Some 0%nat))); [apply (ServesStart _ _ (mkKey 0 0 0 0))|done| | |].
  - by intros k.
  - exists select_octets. split; [apply (bool_decide_unpack _); vm_compute; exact I|vm_compute; reflexivity].
  - vm_compute. reflexivity.
Qed.

(** The idle timer ends the transfer of the offered file. *)
Lemma file_worker_safe_witness : w_state (sv offering_server) = 1 ∧
  (∃ s' out, run_step DefaultParams DefaultFileOptions sample_provider (λ _, false) (λ _, false) [] WTimer offering_server = Ok (s', out)) ∧
  is_Some (w_file (sv offering_server) !! w_index (sv offering_server)).
Proof.
  split; [done|]. destruct (file_worker_safe DefaultParams DefaultFileOptions DefaultFileOptions offering_server eq_refl offering_reached eq_refl) as [Hstep Hw].
  split.
  - apply Hstep; [by intros k|done].
  - destruct Hw as [_ [[Hz _]|(_ & _ & Hi & _)]]; [discriminate Hz|exact Hi].
Defined.
