(* ===== verification/Iec104FileClient.v ===== *)
(** * File transfer: what a client takes from any peer

    The client's helpers in every dialogue: the peer may send any message that
    can be decoded, in any order, and any send or wait may fail. *)
From S2P Require Import Prelude GoLib Iec104Types Iec104Time Iec104Elements Iec104Asdu Iec104Procedure Iec104File Iec104FileCorrect Iec104FileInv.

#[local] Open Scope Z_scope.

(** Where a helper is: its last request is on its way, it waits for a message,
    it has ended. *)
Inductive client_state : Type :=
| Sending (r : receiver)
| Waiting (r : receiver)
| Ended (err : option proc_error) (clean : bool) (r : receiver).

Definition after (x : reaction receiver) : client_state :=
  match x with
  | Continue r => Waiting r
  | SendNext _ _ r => Sending r
  | Finish err clean r => Ended err clean r
  end.

(** The elements of a message. *)
Definition content (m : Message) : list Element := match m with ASDUMessage a => Element_ <$> Objects a | _ => [] end.

Section Client.
Context (params : Params) (files : FileOptions).

(** The states a helper reaches, with the elements it has been given. *)
Inductive takes (start : reaction receiver) : list Element → client_state → Prop :=
| TakesStart : takes start [] (after start)
| TakesWritten l r : takes start l (Sending r) → takes start l (after (resume_file files r))
| TakesMessage l r b m x :
    takes start l (Waiting r) → bytes_ok b → DecodeASDU b params = Ok m → fileMatch (r_key r) m = true →
    react_file files r m = Ok x → takes start (l ++ content m) (after x)
| TakesSendFailure l r e : takes start l (Sending r) → takes start l (Ended (Some e) false r)
| TakesWaitFailure l r e : takes start l (Waiting r) → takes start l (Ended (Some e) false r).

(** ** Downloads *)

(** A section of the trace: the segments of the data and a checksum of it. *)
Definition delivered (name : Z) (l : list Element) (s : FileSection) : Prop :=
  ∃ pre chunks post, l = pre ++ (FileSegment name (Number s) <$> chunks) ++ FileLast name (Number s) 3 (FileChecksum (SData s)) :: post ∧
    SData s = mjoin chunks.

Definition download_ok (name : Z) (l : list Element) (d : download) : Prop :=
  0 < d_length d ≤ MaxFileSize files ∧ FileReady name (d_length d) 0 ∈ l ∧
  d_total d = total (d_sections d) ∧ d_total d ≤ d_length d ∧ d_sum d = file_checksum (d_sections d) ∧
  Forall section_ok (d_sections d) ∧ NoDup (Number <$> d_sections d) ∧ Forall (delivered name l) (d_sections d).

(** A section on its way, with what was received of it. *)
Definition incoming (name : Z) (l : list Element) (d : download) (sec len attempt : Z) (data : list Z) : Prop :=
  download_ok name l d ∧ sec ≠ 0 ∧ sec ∉ (Number <$> d_sections d) ∧ 0 < len ∧ d_total d + len ≤ d_length d ∧
  0 ≤ attempt ≤ SectionRetries files ∧ zlen data ≤ len ∧
  ∃ pre chunks, l = pre ++ (FileSegment name sec <$> chunks) ∧ data = mjoin chunks.

Definition stage_ok (name : Z) (l : list Element) (st : file_stage) : Prop :=
  match st with
  | DirWait _ => False
  | Selecting => True
  | Loop d => download_ok name l d
  | Content d sec len attempt data => incoming name l d sec len attempt data
  | Nacked d sec len attempt => ∃ data, incoming name l d sec len attempt data
  | FinalNack d => download_ok name l d
  | FinalAck d => download_ok name l d ∧ d_sections d ≠ [] ∧ d_total d = d_length d ∧
                  ∃ sec, FileLast name sec 1 (file_checksum (d_sections d)) ∈ l
  end.

Definition client_ok (k : FileKey) (l : list Element) (c : client_state) : Prop :=
  match c with
  | Sending r | Waiting r => r_key r = k ∧ stage_ok (K_Name k) l (r_stage r)
  | Ended err _ r => r_key r = k ∧ match err with
                                   | None => ∃ d, r_stage r = FinalAck d ∧ stage_ok (K_Name k) l (FinalAck d)
                                   | Some _ => True
                                   end
  end.

Lemma delivered_more name l l' s : delivered name l s → delivered name (l ++ l') s.
Proof. intros (pre & chunks & post & -> & Hd). exists pre, chunks, (post ++ l'). split; [|done]. by rewrite <- !app_assoc. Qed.
Lemma download_more name l l' d : download_ok name l d → download_ok name (l ++ l') d.
Proof.
  intros (? & ? & ? & ? & ? & ? & ? & Hd). split_and!; try done; [lia|lia|apply elem_of_app; by left|].
  eapply Forall_impl; [exact Hd|]. intros s. apply delivered_more.
Qed.

Definition refused (r : receiver) (x : reaction receiver) : Prop := ∃ e clean, x = Finish (Some e) clean r.
Lemma refused_header r m e : refused r (headerNegative r m e).
Proof. unfold headerNegative, order, refused. destruct m as [a| |]; eauto. destruct (Objects a) as [|o [|]]; eauto. case_if; eauto. Qed.

(** A file helper is given only typed messages. *)
Lemma matched_asdu k m : fileMatch k m = true → ∃ a, m = ASDUMessage a.
Proof. unfold fileMatch. destruct (_ && negb _); [done|]. destruct m; try done. eauto. Qed.

Lemma file_next_inv r m : fileMatch (r_key r) m = true → ∃ x, file_next r m = Ok x ∧ match x with
  | inl e => content m = [e] ∧ names (r_key r) e
  | inr y => refused r y
  end.
Proof.
  intros [a ->]%matched_asdu. unfold file_next. destruct (responseError _); [eexists; split; [done|apply refused_header]|].
  assert (∃ x : Element + reaction receiver, Ok (inr (order r)) = (Ok x : P _) ∧ match x with
    | inl e => content (ASDUMessage a) = [e] ∧ names (r_key r) e
    | inr y => refused r y
    end) as Hord by (eexists; split; [done|by eexists _, _]).
  destruct (Objects a) as [|o [|]] eqn:Ho; [exact Hord| |exact Hord].
  case_if; [exact Hord|]. destruct (fileElementName (Element_ o)) as [name ok] eqn:Hn.
  destruct (negb ok || negb (name =? K_Name (r_key r))) eqn:Hk; [exact Hord|]. bool_facts. subst.
  assert (content (ASDUMessage a) = [Element_ o]) as Hc by (cbn; by rewrite Ho).
  assert (∃ x : Element + reaction receiver, match negative_error (Element_ o) with
     | Some err => Ok (inr (if correlatedNegative r (Element_ o) then Finish (Some err) true r else order r))
     | None => Ok (inl (Element_ o))
     end = (Ok x : P _) ∧ match x with inl e => content (ASDUMessage a) = [e] ∧ names (r_key r) e | inr y => refused r y end) as Hneg.
  { destruct (negative_error _); [|by eexists]. eexists. split; [done|]. case_if; by eexists _, _. }
  destruct (Element_ o) eqn:He; try exact Hneg.
  repeat match goal with |- context [match ?q with _ => _ end] => is_var q; destruct q end; try exact Hneg.
  all: eexists; split; [done|by eexists _, _].
Qed.

Lemma order_reaction_ok k l r : r_key r = k → client_ok k l (after (order r)).
Proof. done. Qed.
Hint Resolve order_reaction_ok : file.

Lemma names_eq k e : names k e → match e with
  | FileReady n _ _ | SectionReady n _ _ _ | FileCall n _ _ | FileLast n _ _ _ | FileACK n _ _ | FileSegment n _ _ => n = K_Name k
  | _ => True
  end.
Proof. unfold names. intros H. destruct e; cbn in H; by simplify_eq. Qed.

Section Reactions.
Context (k : FileKey) (l : list Element) (r : receiver) (e : Element).
Context (Hk : r_key r = k) (Hn : names k e) (Ht : element_typed e) (Hmax : MaxFileSize files ≤ 0xffffff) (Hret : 0 ≤ SectionRetries files).

Lemma ready_ok : client_ok k (l ++ [e]) (after (react_ready files r e)).
Proof.
  apply names_eq in Hn. unfold react_ready. destruct e; auto with file. case_if; auto with file. bool_facts. subst.
  split; [done|]. destruct Ht as (_ & [? _] & _). split_and!; cbn; try done; [lia|apply elem_of_app; right; by left|constructor..].
Qed.

Lemma section_ready_ok d : download_ok (K_Name k) l d → client_ok k (l ++ [e]) (after (react_loop r d e)).
Proof.
  intros Hd. apply names_eq in Hn. unfold react_loop. destruct e; auto with file.
  - case_if; auto with file. bool_facts. subst. split; [done|]. cbn [after exchange r_stage stage_ok].
    match goal with H : bool_decide _ = false |- _ => apply bool_decide_eq_false in H end. destruct Ht as (_ & _ & [? _] & _).
    split; [by apply download_more|]. split_and!; try done; try lia. exists (l ++ [SectionReady (K_Name (r_key r)) Section_ Length 0]), []. by rewrite app_nil_r.
  - destruct (last (d_sections d)) as [s|] eqn:Hl; auto with file. case_if; auto with file. bool_facts. subst.
    case_if; (split; [done|]); cbn [after exchange r_stage stage_ok]; [by apply download_more|]. bool_facts. subst.
    split; [by apply download_more|]. split; [by intros Hd0; rewrite Hd0 in Hl|]. split; [done|].
    exists Section_. apply elem_of_app. right. pose proof Hd as (_ & _ & _ & _ & -> & _). by left.
Qed.

Lemma content_ok d sec len attempt data : incoming (K_Name k) l d sec len attempt data →
  client_ok k (l ++ [e]) (after (react_content r d sec len attempt data e)).
Proof.
  intros Hin. pose proof Hin as (Hd & Hz & Hnew & Hlen & Htot & Hatt & Hdata & pre & chunks & -> & Hj). apply names_eq in Hn.
  unfold react_content. destruct e; auto with file.
  - case_if; auto with file. bool_facts. subst.
    assert (u32 (zlen (mjoin chunks)) = zlen (mjoin chunks)) as Hu.
    { apply Z.mod_small. destruct Hd as (? & _ & ? & _). pose proof (total_nonneg (d_sections d)). unfold zlen in *. lia. }
    rewrite Hu in *. case_if; (split; [done|]); cbn [after exchange r_stage stage_ok].
    { exists []. split; [by apply download_more|]. split_and!; try done; try lia; [change (zlen (@nil Z)) with 0; lia|]. eexists _, []. by rewrite app_nil_r. }
    bool_facts. subst. destruct Hd as (Hmaxd & Hready & Hsum & Hle & Hchk & Hok & Hnd & Hdel).
    pose proof (total_nonneg (d_sections d)). assert (u32 (d_total d + zlen (mjoin chunks)) = d_total d + zlen (mjoin chunks)) as -> by (apply Z.mod_small; lia).
    split_and!; cbn [d_length d_sections d_total d_sum]; try lia.
    + apply elem_of_app. by left.
    + rewrite total_app. cbn. lia.
    + by rewrite checksum_snoc, Hchk.
    + apply Forall_app. split; [done|]. apply Forall_singleton. split; [done|]. cbn. intros Hnil. by rewrite Hnil in Hlen.
    + rewrite fmap_app. apply NoDup_app. split; [done|]. split; [|apply NoDup_singleton]. intros x Hx ->%list_elem_of_singleton. done.
    + apply Forall_app. split; [eapply Forall_impl; [exact Hdel|]; intros s; apply delivered_more|]. apply Forall_singleton.
      exists pre, chunks, []. by rewrite <- app_assoc.
  - case_if; auto with file. bool_facts. subst. split; [done|]. cbn [after at_stage r_stage stage_ok].
    split; [by apply download_more|]. split_and!; try done; try lia; [unfold zlen in *; rewrite length_app; lia|].
    exists pre, (chunks ++ [Data]). rewrite fmap_app, <- app_assoc, join_app. split; [done|]. cbn. by rewrite app_nil_r.
Qed.
End Reactions.

Lemma resume_ok k l r : 0 ≤ SectionRetries files → r_key r = k → stage_ok (K_Name k) l (r_stage r) → client_ok k l (after (resume_file files r)).
Proof.
  intros Hret Hk Hs. unfold resume_file. destruct (r_stage r) as [| | | |d sec len attempt| |d] eqn:Hst; try done; try (by rewrite <- Hst in Hs).
  - case_if; [done|]. bool_facts. split; [done|]. cbn [after exchange r_stage stage_ok]. destruct Hs as (data & Hd & ? & ? & ? & ? & ? & ? & _).
    split; [done|]. split_and!; try done; try lia; [change (zlen (@nil Z)) with 0; lia|]. exists l, []. by rewrite app_nil_r.
  - split; [done|]. by exists d.
Qed.

Lemma takes_ok k l c : MaxFileSize files ≤ 0xffffff → 0 ≤ SectionRetries files → takes (start_download k) l c → client_ok k l c.
Proof.
  intros Hmax Hret. induction 1 as [|l r _ [Hk Hs]|l r b m x _ [Hk Hs] Hb Hm Hmt Hx|l r e _ [Hk _]|l r e _ [Hk _]]; [done|by apply resume_ok| |done|done].
  assert (∀ e, content m = [e] → element_typed e) as Ht.
  { intros e He. apply decoded_conforming in Hm; [|done]. destruct m as [a| |]; try done. destruct Hm as [_ Ho]. cbn in He.
    destruct (Objects a) as [|o [|]]; try done. injection He as <-. by apply Forall_cons in Ho as [[_ ?] _]. }
  unfold react_file in Hx. destruct (file_next_inv r m Hmt) as (y & Hy & Hnext). rewrite Hy in Hx. cbn [bind] in Hx.
  destruct (r_stage r) eqn:Hst; try done; destruct y as [e|y]; try (destruct Hnext as (? & ? & ->); by simplify_eq).
  all: destruct Hnext as [Hc Hn]; rewrite Hc; rewrite Hk in Hn; injection Hx as <-; try done.
  all: first [apply ready_ok|apply section_ready_ok|apply content_ok]; auto.
Qed.

Lemma download_reacts name l r m : fileMatch (r_key r) m = true → stage_ok name l (r_stage r) →
  ∃ x, react_file files r m = Ok x.
Proof.
  intros (y & Hy & _)%file_next_inv Hs. unfold react_file. rewrite Hy. destruct (r_stage r); try done; cbn [bind]; eauto.
Qed.

(** A file helper keeps its key, sends what it remembers as its last element,
    and answers the end of the file with a positive acknowledgement. *)
Definition in_directory (st : file_stage) : bool := match st with DirWait _ => true | _ => false end.
Definition sends_last (r : receiver) (req : ASDU) : Prop :=
  req = fileMessage (r_key r) (r_last r) (if in_directory (r_stage r) then Request else FileTransfer).
Definition acknowledges (r : receiver) : Prop :=
  ∀ d, r_stage r = FinalAck d → ∃ sec, r_last r = FileACK (K_Name (r_key r)) sec PositiveFileACK.
Definition own (r : receiver) (x : reaction receiver) : Prop :=
  match x with
  | Continue r' | Finish _ _ r' =>
      r_key r' = r_key r ∧ (∀ req, sends_last r req → sends_last r' req) ∧ (acknowledges r → acknowledges r')
  | SendNext req mt r' => mt = fileMatch (r_key r') ∧ r_key r' = r_key r ∧ sends_last r' req ∧ acknowledges r'
  end.

Lemma own_same r err clean : own r (Finish err clean r).
Proof. done. Qed.
Lemma own_refused r x : refused r x → own r x.
Proof. by intros (? & ? & ->). Qed.
Lemma own_exchange r e st : in_directory st = false → (∀ d, st = FinalAck d → ∃ sec, e = FileACK (K_Name (r_key r)) sec PositiveFileACK) → own r (exchange r e st).
Proof. intros Hd H. split_and!; [done|done|unfold sends_last; cbn; by rewrite Hd|exact H]. Qed.
Hint Resolve own_same own_refused : file.

Lemma react_own r m x : fileMatch (r_key r) m = true → react_file files r m = Ok x → own r x.
Proof.
  unfold react_file. intros Hm H. destruct (r_stage r) as [entries| |d|d sec len attempt data| | |] eqn:Hst.
  1:{ unfold react_directory in H. destruct (responseError m); [injection H as <-; apply own_refused, refused_header|].
      destruct m as [a| |]; try done. cbv zeta in H.
      assert (∀ x, (if negb (Type_ (AHeader a) =? F_DR_TA_1) || negb (Cause (AHeader a) =? Request) then Ok (order r)
        else let! x := take_entries files entries (Objects a) in Ok match x with
             | inl entries => Continue (at_stage r (DirWait entries)) | inr (err, entries) => Finish err false (at_stage r (DirWait entries)) end) = Ok x → own r x) as Ho.
      { intros y Hy. destruct (_ || _); [by injection Hy as <-|]. apply bind_Ok in Hy as (z & _ & Hy). injection Hy as <-.
        unfold own, sends_last. rewrite Hst. by destruct z as [|[]]. }
      destruct ((Type_ (AHeader a) =? F_SC_NA_1) && _); [|by apply Ho]. destruct (Objects a) as [|o os]; [done|]. destruct (Element_ o); try done.
      destruct (negb (high _ =? 0)); [|by apply Ho]. injection H as <-. by case_if. }
  all: destruct (file_next_inv r m Hm) as (y & Hy & Hn); rewrite Hy in H; cbn [bind] in H; destruct y as [e|y]; injection H as <-;
    try (by apply own_refused); try done.
  - unfold react_ready, order. destruct e; try done. case_if; [done|by apply own_exchange].
  - unfold react_loop, order. destruct e; try done; [case_if; [done|by apply own_exchange]|]. destruct (last (d_sections d)); [|done].
    case_if; [done|]. case_if; apply own_exchange; try done. intros d' _. by eexists.
  - unfold react_content, order. destruct e; try done; [case_if; [done|]; case_if; by apply own_exchange|]. case_if; [done|].
    unfold own, sends_last, acknowledges. by rewrite Hst.
Qed.
Lemma resume_own r : own r (resume_file files r).
Proof. unfold resume_file. destruct (r_stage r); try done. case_if; [done|by apply own_exchange]. Qed.

Lemma takes_acknowledges k l c : takes (start_download k) l c →
  match c with Sending r | Waiting r | Ended _ _ r => acknowledges r end.
Proof.
  assert (∀ r x, own r x → acknowledges r → match after x with Sending r | Waiting r | Ended _ _ r => acknowledges r end) as Hown.
  { intros r [r'|req mt r'|err clean r'] Ho Ha; cbn in *; destruct Ho as (_ & _ & Ho); [by apply Ho|apply Ho|by apply Ho]. }
  induction 1 as [|l r _ IH|l r b m x _ IH _ _ Hmt Hx|l r e _ IH|l r e _ IH]; try done.
  - by apply (Hown r); [apply resume_own|].
  - by apply (Hown r); [by eapply react_own|].
Qed.

(** ** Directories *)
Definition is_last (d : FileEntry) : bool := has (D_Status d) 0x20.

Definition listing_ok (l : list Element) (entries : list FileEntry) : Prop :=
  entry_element <$> entries = l ∧ zlen entries ≤ DirectoryLimit files.

Definition dir_ok (k : FileKey) (l : list Element) (c : client_state) : Prop :=
  match c with
  | Sending r | Waiting r => r_key r = k ∧ ∃ entries, r_stage r = DirWait entries ∧ listing_ok l entries ∧ Forall (λ d, is_last d = false) entries
  | Ended None _ r => ∃ entries d, r_stage r = DirWait (entries ++ [d]) ∧ listing_ok l (entries ++ [d]) ∧
                      Forall (λ d, is_last d = false) entries ∧ is_last d = true
  | Ended (Some _) _ _ => True
  end.

Lemma take_entries_ok os : ∀ l entries, Forall (λ o, ∃ b, encodeElement (Element_ o) = Ok (F_DR_TA_1, b)) os →
  listing_ok l entries → Forall (λ d, is_last d = false) entries →
  ∃ x, take_entries files entries os = Ok x ∧
    match x with
    | inl entries' => listing_ok (l ++ (Element_ <$> os)) entries' ∧ Forall (λ d, is_last d = false) entries'
    | inr (None, entries') => ∃ before d, entries' = before ++ [d] ∧ listing_ok (l ++ (Element_ <$> os)) entries' ∧
                              Forall (λ d, is_last d = false) before ∧ is_last d = true
    | inr (Some _, _) => True
    end.
Proof.
  induction os as [|o os IH]; intros l entries Hos Hl Hf; cbn [take_entries].
  { eexists. split; [done|]. cbn. by rewrite app_nil_r. }
  apply Forall_cons in Hos as [[b (name & len & status & time & He)%encoded_entry] Hos]. rewrite He. cbv zeta. set (d := mkEntry name len status time).
  case_if; [by eexists|]. bool_facts.
  assert (listing_ok (l ++ [Element_ o]) (entries ++ [d])) as Hl'.
  { destruct Hl as [<- _]. split; [|done]. by rewrite fmap_app, He. }
  case_if.
  - destruct os as [|o' os]; [|by eexists]. eexists. split; [done|]. by exists entries, d.
  - apply IH with (l := l ++ [Element_ o]) in Hl' as (x & Hx & Hpost); [|done|by apply Forall_app; split; [|apply Forall_singleton]].
    exists x. split; [done|]. cbn [fmap list_fmap]. by rewrite <- app_assoc in Hpost.
Qed.

Lemma directory_react_ok k l r entries m b : r_key r = k → r_stage r = DirWait entries → listing_ok l entries → Forall (λ d, is_last d = false) entries →
  bytes_ok b → DecodeASDU b params = Ok m → fileMatch (r_key r) m = true →
  ∃ x, react_file files r m = Ok x ∧ dir_ok k (l ++ content m) (after x).
Proof.
  intros Hk Hst Hl Hf Hb Hm Hmatch. unfold react_file. rewrite Hst. unfold react_directory. apply decoded_conforming in Hm; [|done].
  destruct (responseError m).
  { eexists. split; [done|]. destruct (refused_header r m p) as (e & clean & ->). done. }
  destruct m as [a| |]; try (unfold fileMatch in Hmatch; by destruct (_ && negb _) in Hmatch). destruct Hm as [Hm _]. cbv zeta.
  match goal with |- context [if negb (Type_ (AHeader a) =? F_DR_TA_1) || ?c then ?y else ?z] => set (others := if negb (Type_ (AHeader a) =? F_DR_TA_1) || c then y else z) end.
  assert (∃ x, others = Ok x ∧ dir_ok k (l ++ content (ASDUMessage a)) (after x)) as Hothers.
  { unfold others. destruct (negb (Type_ (AHeader a) =? F_DR_TA_1)) eqn:Htype; [by eexists|]. cbn [orb]. case_if; [by eexists|]. bool_facts. rewrite Htype in Hm.
    destruct (take_entries_ok _ l entries Hm Hl Hf) as (x & -> & Hx). cbn [bind]. eexists. split; [done|].
    destruct x as [entries'|[[e|] entries']]; [|done|].
    - split; [done|]. by exists entries'.
    - destruct Hx as (before & d & -> & Hx). by exists before, d. }
  destruct (_ && _) eqn:Hsc; [|done]. bool_facts. rewrite H in Hm. unfold fileMatch in Hmatch. destruct (Objects a) as [|o os].
  { destruct (_ && negb _) in Hmatch; [done|]. bool_facts. done. }
  apply Forall_cons in Hm as [[b' (name & sec & q & ->)%encoded_call] _]. case_if; [|done]. eexists. split; [done|]. by case_if.
Qed.

Lemma takes_directory k l c : 1 ≤ DirectoryLimit files → takes (start_directory k) l c → dir_ok (mkKey (K_CommonAddress k) (K_Originator k) (K_Address k) 0) l c.
Proof.
  intros Hlim. induction 1 as [|l r _ (Hk & entries & Hst & Hl & Hf)|l r b m x _ (Hk & entries & Hst & Hl & Hf) Hb Hm Hmatch Hx|l r e _ _|l r e _ _]; try done.
  - split; [done|]. exists []. split_and!; [done|split; [done|change (zlen (@nil FileEntry)) with 0; lia]|constructor].
  - unfold resume_file. rewrite Hst. split; [done|]. by exists entries.
  - destruct (directory_react_ok _ l r entries m b Hk Hst Hl Hf Hb Hm Hmatch) as (x' & Hx' & Hok). rewrite Hx' in Hx. by injection Hx as <-.
Qed.
End Client.

(** A file of nonempty sections with different numbers has a length. *)
Lemma file_length_complete max f : max ≤ 0xffffff → ∀ n seen, 0 ≤ n → n + total f ≤ max → Forall section_ok f → NoDup (Number <$> f) →
  (∀ x, x ∈ (Number <$> f) → x ∉ seen) → file_length max n seen f = Ok (n + total f).
Proof.
  intros Hmax. induction f as [|s f IH]; intros n seen Hn Ht Hok Hnd Hseen; cbn [file_length total] in *; [by rewrite Z.add_0_r|].
  apply Forall_cons in Hok as [[Hz Hne] Hok]. cbn [fmap list_fmap] in *. apply NoDup_cons in Hnd as [Hs Hnd]. pose proof (total_nonneg f).
  assert (0 < zlen (SData s)) by (unfold zlen; destruct (SData s); [done|cbn; lia]).
  rewrite (proj2 (Z.eqb_neq (Number s) 0)), (proj2 (Z.eqb_neq (zlen _) 0)), (proj2 (Z.ltb_ge _ _)) by lia.
  rewrite bool_decide_eq_false_2 by (apply Hseen; by left). cbn [orb guard_err].
  assert (u32 (n + zlen (SData s)) = n + zlen (SData s)) as -> by (apply Z.mod_small; lia). rewrite IH; [f_equal; lia|lia|lia|done|done|].
  intros x Hx [->|Hin]%elem_of_cons; [done|]. apply (Hseen x); [by right|done].
Qed.

Lemma fileLength_complete max f : max ≤ 0xffffff → f ≠ [] → total f ≤ max → Forall section_ok f → NoDup (Number <$> f) →
  fileLength f max = Ok (total f).
Proof.
  intros. unfold fileLength. destruct f as [|s f]; [done|]. apply (file_length_complete max (s :: f)); try done.
  intros x _ Hx. by apply elem_of_nil in Hx.
Qed.

(** The octets of the file a download holds. *)
Definition held (st : file_stage) : Z :=
  match st with
  | DirWait _ | Selecting => 0
  | Loop d | Nacked d _ _ _ | FinalNack d | FinalAck d => total (d_sections d)
  | Content d _ _ _ data => total (d_sections d) + zlen data
  end.

Lemma normalized_size o p o' : is_u32 (MaxFileSize o) → normalize_files o p = Ok o' → 0 ≤ MaxFileSize o'.
Proof.
  unfold normalize_files, normalized. intros [Ho _] H. apply bind_Ok in H as (x & Hx & H). apply guard_err_Ok in Hx as [_ Hx].
  injection Hx as <-. destruct (Params_Validate p); [done|]. apply guard_err_Ok in H as [_ H]. injection H as <-. cbn. by case_if.
Qed.
Lemma stage_held files name l st : 0 ≤ MaxFileSize files → stage_ok files name l st → held st ≤ MaxFileSize files.
Proof.
  intros Hm. destruct st; cbn; try done.
  - intros (? & _ & ? & ? & _). lia.
  - intros ((? & _ & ? & ? & _) & _ & _ & ? & ? & _ & ? & _). lia.
  - intros (data & (? & _ & ? & ? & _) & _). lia.
  - intros (? & _ & ? & ? & _). lia.
  - intros ((? & _ & ? & ? & _) & _). lia.
Qed.

(** C27. A download returns nothing that was not delivered and confirmed.
    Against any peer, whatever decodable messages it sends and wherever the
    download fails: the client does not panic on any message that passes its
    filter [fileMatch], the only messages a transaction hands to it; it never
    holds more octets than the configured limit; and it ends without an error only with a
    file whose sections are valid, whose length is the one the peer announced,
    each section the content of consecutive segments that end with the checksum
    of that content, and the whole confirmed by the checksum of the file. *)
Theorem download_sound params o files k l c :
  is_u32 (MaxFileSize o) → normalize_files o params = Ok files → takes params files (start_download k) l c →
  match c with
  | Sending r => held (r_stage r) ≤ MaxFileSize files
  | Waiting r => held (r_stage r) ≤ MaxFileSize files ∧
      ∀ m, fileMatch (r_key r) m = true → ∃ x, react_file files r m = Ok x
  | Ended None _ r => ∃ d sec, r_stage r = FinalAck d ∧
      fileLength (d_sections d) (MaxFileSize files) = Ok (d_length d) ∧ FileReady (K_Name k) (d_length d) 0 ∈ l ∧
      Forall (delivered (K_Name k) l) (d_sections d) ∧ FileLast (K_Name k) sec 1 (file_checksum (d_sections d)) ∈ l
  | Ended (Some _) _ _ => True
  end.
Proof.
  intros Ho Hf Ht. assert (0 ≤ MaxFileSize files) as Hpos by (by eapply normalized_size).
  apply normalized_ok in Hf as (_ & _ & Hmax & Hret & Hlim). apply takes_ok in Ht; [|lia..].
  destruct c as [r|r|[e|] clean r]; [|split| |].
  - by apply (stage_held files (K_Name k) l); [|apply Ht].
  - by apply (stage_held files (K_Name k) l); [|apply Ht].
  - intros m Hm. destruct Ht as [_ Hs]. eapply download_reacts; [exact Hm|exact Hs].
  - done.
  - destruct Ht as (_ & d & Hst & (Hd & Hne & Htot & sec & Hlast)). destruct Hd as (Hlen & Hready & Hsum & _ & _ & Hok & Hnd & Hdel).
    exists d, sec. split_and!; try done. rewrite <- Htot, Hsum. apply fileLength_complete; try done; lia.
Qed.

(** A directory is returned whole or not at all.  Against any peer,
    whatever decodable messages it sends: the client never panics on a message
    that answers its request, it never holds more entries than the configured
    limit, and it ends without an error only with every entry it was given, in
    order, of which the last and no other is marked as the last. *)
Theorem directory_sound params o files k l c :
  normalize_files o params = Ok files → takes params files (start_directory k) l c →
  match c with
  | Sending r => ∃ entries, r_stage r = DirWait entries ∧ zlen entries ≤ DirectoryLimit files
  | Waiting r => ∃ entries, r_stage r = DirWait entries ∧ zlen entries ≤ DirectoryLimit files ∧
      ∀ b m, bytes_ok b → DecodeASDU b params = Ok m → fileMatch (r_key r) m = true → ∃ x, react_file files r m = Ok x
  | Ended None _ r => ∃ entries d, r_stage r = DirWait (entries ++ [d]) ∧ entry_element <$> (entries ++ [d]) = l ∧
      zlen (entries ++ [d]) ≤ DirectoryLimit files ∧ Forall (λ d, is_last d = false) entries ∧ is_last d = true
  | Ended (Some _) _ _ => True
  end.
Proof.
  intros (_ & _ & _ & _ & Hlim)%normalized_ok Ht. pose proof Ht as Hok%takes_directory; [|done]. destruct c as [r|r|[e|] clean r].
  - destruct Hok as (Hk & entries & Hst & Hl & Hf). exists entries. split; [done|apply Hl].
  - destruct Hok as (Hk & entries & Hst & Hl & Hf). exists entries. split; [done|]. split; [apply Hl|]. intros b m Hb Hm Hmatch.
    destruct (directory_react_ok params files _ l r entries m b Hk Hst Hl Hf Hb Hm Hmatch) as (x & Hx & _). eauto.
  - done.
  - destruct Hok as (entries & d & Hst & [Hl Hlen] & Hf & Hd). by exists entries, d.
Qed.

(** ** Two dialogues *)
Section Replay.
Context (params : Params) (files : FileOptions).

(** The client against a peer that sends the given octets; it stops at a
    message that is not taken. *)
Fixpoint replay (n : nat) (bs : list (list Z)) (l : list Element) (c : client_state) : list Element * client_state :=
  match n, c, bs with
  | S n', Sending r, _ => replay n' bs l (after (resume_file files r))
  | S n', Waiting r, b :: bs' =>
      match DecodeASDU b params with
      | Ok m =>
          if fileMatch (r_key r) m
          then match react_file files r m with Ok x => replay n' bs' (l ++ content m) (after x) | _ => (l, c) end
          else (l, c)
      | _ => (l, c)
      end
  | _, _, _ => (l, c)
  end.

Lemma replay_takes start n : ∀ bs l c, Forall bytes_ok bs → takes params files start l c →
  takes params files start (fst (replay n bs l c)) (snd (replay n bs l c)).
Proof.
  induction n as [|n IH]; intros bs l c Hb Hc; [done|]. cbn [replay]. destruct c as [r|r|]; [apply IH; [done|by apply TakesWritten]| |done].
  destruct bs as [|b bs]; [done|]. apply Forall_cons in Hb as [Hb Hbs].
  destruct (DecodeASDU b params) as [m| | |] eqn:Hm; try done. destruct (fileMatch (r_key r) m) eqn:Hf; [|done].
  destruct (react_file files r m) as [x| | |] eqn:Hx; try done. apply IH; [done|by eapply TakesMessage].
Qed.
End Replay.

Definition octets_of (a : ASDU) : list Z := match ASDU_MarshalBinary DefaultParams a with Ok b => b | _ => [] end.

Definition small_answers : list Element :=
  [FileReady 3 3 0; SectionReady 3 4 3 0; FileSegment 3 4 [9; 255]; FileSegment 3 4 [7]; FileLast 3 4 3 15; FileLast 3 4 1 15].
Definition small_end : receiver :=
  mkReceiver sample_key (FileACK 3 4 PositiveFileACK) (FinalAck (mkDownload 3 [mkSection 4 [9; 255; 7]] 3 15)).

Lemma small_download : takes DefaultParams DefaultFileOptions (start_download sample_key) small_answers (Ended None false small_end).
Proof.
  pose proof (replay_takes DefaultParams DefaultFileOptions (start_download sample_key) 12
    ((λ e, octets_of (fileMessage sample_key e FileTransfer)) <$> small_answers) [] (after (start_download sample_key))) as H.
  apply H; [apply (bool_decide_unpack _); vm_compute; exact I|constructor].
Qed.

Lemma download_sound_witness : ∃ d sec, r_stage small_end = FinalAck d ∧
  fileLength (d_sections d) 0xffffff = Ok (d_length d) ∧ FileReady 3 (d_length d) 0 ∈ small_answers ∧
  Forall (delivered 3 small_answers) (d_sections d) ∧ FileLast 3 sec 1 (file_checksum (d_sections d)) ∈ small_answers.
Proof.
  apply (download_sound DefaultParams DefaultFileOptions DefaultFileOptions sample_key small_answers (Ended None false small_end));
    [apply (bool_decide_unpack _); vm_compute; exact I|reflexivity|apply small_download].
Defined.

Definition dir_time : CP56Time2a := mkCP56 1500 30 false false 12 false 0 15 3 3 0 26 false.
Definition dir_entries : list FileEntry := [mkEntry 5 100 0 dir_time; mkEntry 6 7 0x20 dir_time].
Definition dir_end : receiver := mkReceiver (mkKey 12 0 4096 0) (FileCall 0 0 0) (DirWait dir_entries).

Lemma small_directory : takes DefaultParams DefaultFileOptions (start_directory sample_key) (entry_element <$> dir_entries) (Ended None false dir_end).
Proof.
  pose proof (replay_takes DefaultParams DefaultFileOptions (start_directory sample_key) 4
    ((λ d, octets_of (fileMessage sample_key (entry_element d) Request)) <$> dir_entries) [] (after (start_directory sample_key))) as H.
  apply H; [apply (bool_decide_unpack _); vm_compute; exact I|constructor].
Qed.

Lemma directory_sound_witness : ∃ entries d, r_stage dir_end = DirWait (entries ++ [d]) ∧
  entry_element <$> (entries ++ [d]) = entry_element <$> dir_entries ∧
  zlen (entries ++ [d]) ≤ 4096 ∧ Forall (λ d, is_last d = false) entries ∧ is_last d = true.
Proof.
  apply (directory_sound DefaultParams DefaultFileOptions DefaultFileOptions sample_key _ (Ended None false dir_end)); [reflexivity|apply small_directory].
Defined.
