(* ===== verification/Iec104Client.v ===== *)
(** * A client's procedures on one session (iec104go/procedures.go,
    procedure_wait.go, procedure_wire.go, file_client.go)

    The helpers of a client, as automata that react to the messages they wait
    for; and a session on which any number of goroutines call helpers, as a
    machine whose actions are the steps between two acquisitions of a lock.

    A goroutine is a thread of the machine.  The writer takes the admitted
    legs in order; the reader tags each payload with the leg it belongs to and
    queues it; the session's actor delivers the queue.  What the link, the
    clock and the callers do is the choice of the next action.  [history]
    records what happened and is read by no action. *)
From S2P Require Import Prelude GoLib Iec104Types Iec104Time Iec104Elements Iec104Asdu Iec104Procedure Iec104File.

#[local] Open Scope Z_scope.

(** ** The helpers *)
Inductive helper : Type :=
| Interrogate (ca oa qoi : Z)
| CounterInterrogate (ca oa qcc : Z)
| Read (ca oa address : Z)
| SyncClock (ca oa : Z) (tag : CP56Time2a)
| TestLink (ca oa sequence : Z) (tag : CP56Time2a)
| Reset (ca oa qrp : Z)
| Command (req : ASDU)
| SelectExecute (req : ASDU)
| ReadDirectory (k : FileKey)
| DownloadFile (k : FileKey).

(** Where a helper is in its exchange: in [awaitConfirmation], with what is
    sent when it returns; in the function [Read] waits with; in a file dialogue. *)
Inductive waiting : Type :=
| Await (termination confirmed : bool) (expected : ASDU) (execute : option ASDU)
| AwaitData
| AwaitFile (r : receiver).

Definition order_error (w : waiting) : reaction waiting := Finish (Some ErrProcedureOrder) false w.

(** [awaitConfirmation] has returned without an error. *)
Definition confirmation_done (w : waiting) (execute : option ASDU) : reaction waiting :=
  match execute with
  | None => Finish None false w
  | Some req => SendNext req (confirm_match req) (Await true false req None)
  end.

Definition react_await (termination confirmed : bool) (expected : ASDU) (execute : option ASDU) (m : Message) : reaction waiting :=
  let w := Await termination confirmed expected execute in
  match responseError m with
  | Some e => Finish (Some e) false w
  | None =>
      let cause := Cause (GetHeader m) in
      if cause =? ActivationCon then
        if negb (echoed expected m) then order_error w
        else if confirmed then order_error w
        else if termination then Continue (Await termination true expected execute)
        else confirmation_done (Await termination true expected execute) execute
      else if cause =? ActivationTerm then
        if negb confirmed || negb (echoed expected m) then order_error w else confirmation_done w execute
      else if negb confirmed || (Type_ (GetHeader m) =? Type_ (AHeader expected)) then order_error w
      else Continue w
  end.

Definition react_data (m : Message) : reaction waiting :=
  match responseError m with
  | Some e => Finish (Some e) false AwaitData
  | None =>
      if negb (Cause (GetHeader m) =? Request) || (Type_ (GetHeader m) =? C_RD_NA_1) then order_error AwaitData
      else Finish None false AwaitData
  end.

Definition lift_file (x : reaction receiver) : reaction waiting :=
  match x with
  | Continue r => Continue (AwaitFile r)
  | SendNext req match_ r => SendNext req match_ (AwaitFile r)
  | Finish err clean r => Finish err clean (AwaitFile r)
  end.

Definition react (files : FileOptions) (w : waiting) (m : Message) : P (reaction waiting) :=
  match w with
  | Await termination confirmed expected execute => Ok (react_await termination confirmed expected execute m)
  | AwaitData => Ok (react_data m)
  | AwaitFile r => let! x := react_file files r m in Ok (lift_file x)
  end.

(** What follows the complete write of a request: a file helper goes on there. *)
Definition resume (files : FileOptions) (w : waiting) : reaction waiting :=
  match w with AwaitFile r => lift_file (resume_file files r) | _ => Continue w end.

Definition is_file (w : waiting) : bool := match w with AwaitFile _ => true | _ => false end.

(** What a helper sends first, the messages it then takes, and how it waits;
    the errors it returns before it does anything. *)
Definition set_cause (cot : Z) (a : ASDU) : ASDU := mkASDU (set_Cause cot (Negative (AHeader a)) (AHeader a)) (Objects a).
Definition confirm_only (req : ASDU) : P (ASDU * (Message → bool) * waiting) :=
  Ok (req, confirm_match req, Await false false req None).
Definition prepare (h : helper) : P (ASDU * (Message → bool) * waiting) :=
  match h with
  | Interrogate ca oa qoi =>
      guard_err (Iec ErrMalformed) ((qoi <? 20) || (36 <? qoi))
        (let req := request ca oa C_IC_NA_1 0 (Interrogation qoi) in
         Ok (req, interrogate_match req qoi, Await true false req None))
  | CounterInterrogate ca oa qcc =>
      let req := request ca oa C_CI_NA_1 0 (CounterInterrogation qcc) in
      Ok (req, counter_match req, Await true false req None)
  | Read ca oa address =>
      let req := set_cause Iec104Types.Request (request ca oa C_RD_NA_1 address ReadCommand) in
      Ok (req, read_match req address, AwaitData)
  | SyncClock ca oa tag => confirm_only (request ca oa C_CS_NA_1 0 (ClockSync tag))
  | TestLink ca oa sequence tag => confirm_only (request ca oa C_TS_TA_1 0 (TestCommand sequence tag))
  | Reset ca oa qrp => confirm_only (request ca oa C_RP_NA_1 0 (ResetProcess qrp))
  | Command req =>
      let! req := commandSelection req false in
      Ok (req, confirm_match req, Await true false req None)
  | SelectExecute req =>
      let! select := commandSelection req true in
      let! execute := commandSelection req false in
      Ok (select, confirm_match select, Await false false select (Some execute))
  | ReadDirectory k =>
      match start_directory k with
      | SendNext req match_ r => Ok (req, match_, AwaitFile r)
      | _ => Panic
      end
  | DownloadFile k =>
      match start_download k with
      | SendNext req match_ r => Ok (req, match_, AwaitFile r)
      | _ => Panic
      end
  end.

(** ** The machine *)
Inductive thread : Type :=
| TSend (tx : nat) (req : ASDU) (match_ : Message → bool) (w : waiting) (admitted : bool)
| TAdmit (tx leg : nat) (req : ASDU) (w : waiting) (admitted : bool)
| TWrite (tx leg : nat) (w : waiting)
| TWait (tx : nat) (w : waiting)
| TEnd (tx : nat) (err : option proc_error) (admitted : bool) (w : waiting)
| TDone (msgs : list Message) (err : option proc_error) (admitted : bool) (w : option waiting).

(** What has happened: a thread's leg was admitted with its request, its write began,
    its write was complete, a payload was read while the leg was current. *)
Inductive happening : Type :=
| Accepted (c leg : nat) (req : ASDU)
| Begun (leg : nat)
| Wrote (leg : nat)
| GotPayload (leg : option nat) (payload : list Z)
| Deactivated (k : FileKey).

Record machine : Type := mkMachine {
  procs_ : procs;
  calls : list helper;
  threads : list thread;
  outgoing : list nat;
  incoming_ : list (list Z * option nat);
  history : list happening
}.

Inductive action : Type :=
| ACall (h : helper) (ctx : option proc_error)
| ASend (c : nat) (ctx : option proc_error)
| AAdmit (c : nat) (result : option proc_error)
| ABegin
| AWritten (err : option iec_error)
| ARead (payload : list Z)
| AObserve
| ADrop
| ANext (c : nat)
| AExpire (c : nat) (e : proc_error)
| AComplete (c : nat)
| AGone (e : iec_error).

Definition set_procs (p : procs) (s : machine) : machine := mkMachine p (calls s) (threads s) (outgoing s) (incoming_ s) (history s).
Definition set_thread (c : nat) (t : thread) (s : machine) : machine :=
  mkMachine (procs_ s) (calls s) (<[c := t]> (threads s)) (outgoing s) (incoming_ s) (history s).
Definition push_thread (h : helper) (t : thread) (s : machine) : machine :=
  mkMachine (procs_ s) (calls s ++ [h]) (threads s ++ [t]) (outgoing s) (incoming_ s) (history s).
Definition record (e : happening) (s : machine) : machine :=
  mkMachine (procs_ s) (calls s) (threads s) (outgoing s) (incoming_ s) (history s ++ [e]).

(** [fileReceiver.send] and [cleanEnd] mark the dialogue of a file. *)
Definition file_calls (w : waiting) : bool :=
  match w with
  | AwaitFile r => match r_last r with FileCall _ _ q => (q =? CallFile) || (q =? CallSection) | _ => false end
  | _ => false
  end.
Definition mark_called (t : transaction) : transaction :=
  with_file (match t_file t with Some f => Some (mkFileTx true (cleanEnd f) (file_uncertain f)) | None => None end) t.
Definition mark_clean (t : transaction) : transaction :=
  with_file (match t_file t with Some f => Some (mkFileTx (called f) true (file_uncertain f)) | None => None end) t.
Definition update_tx (i : nat) (f : transaction → transaction) (p : procs) : procs :=
  match txs p !! i with Some t => set_tx i (f t) p | None => p end.

Section Machine.
Context (params : Params) (eventQueue : nat) (files : FileOptions).

(** A thread after a reaction of its helper. *)
Definition proceed (tx : nat) (x : reaction waiting) (p : procs) : thread * procs :=
  match x with
  | Continue w => (TWait tx w, p)
  | SendNext req match_ w => (TSend tx req match_ w true, p)
  | Finish err clean w => (TEnd tx err true w, if clean then update_tx tx mark_clean p else p)
  end.

(** [procedure] and [beginFile] up to the first request; [ctx] is what the
    context's checks report. *)
Definition call (h : helper) (ctx : option proc_error) (s : machine) : P machine :=
  match prepare h with
  | Err e => Ok (push_thread h (TDone [] (Some e) false None) s)
  | Ok (req, match_, w) =>
      match ctx with
      | Some e => Ok (push_thread h (TDone [] (Some e) false None) s)
      | None =>
          match begin eventQueue match_ (is_file w) (procs_ s) with
          | Ok (tx, p) => Ok (push_thread h (TSend tx req match_ w false) (set_procs p s))
          | Err e => Ok (push_thread h (TDone [] (Some e) false None) s)
          | _ => Panic
          end
      end
  | _ => Panic
  end.

(** [sendProcedure] up to [admitLeg]; a file helper first looks at its context. *)
Definition do_send (c tx : nat) (req : ASDU) (match_ : Message → bool) (w : waiting) (admitted : bool) (ctx : option proc_error) (s : machine) : P machine :=
  match (if is_file w then ctx else None) with
  | Some e => Ok (set_thread c (TEnd tx (Some e) admitted w) s)
  | None =>
      match sendProcedure params tx req match_ (procs_ s) with
      | Ok (_b, leg, p) => Ok (set_thread c (TAdmit tx leg req w admitted) (set_procs p s))
      | Err e => Ok (set_thread c (TEnd tx (Some e) admitted w) s)
      | _ => Panic
      end
  end.

(** The result of [admitLeg]; a file helper waits for the write of its leg. *)
Definition do_admit (c tx leg : nat) (req : ASDU) (w : waiting) (admitted : bool) (result : option proc_error) (s : machine) : machine :=
  match result with
  | Some e => set_thread c (TEnd tx (Some e) admitted w) s
  | None =>
      let s := mkMachine (if file_calls w then update_tx tx mark_called (procs_ s) else procs_ s) (calls s) (threads s) (outgoing s ++ [leg]) (incoming_ s)
                 (history s ++ [Accepted c leg req]) in
      set_thread c (if is_file w then TWrite tx leg w else TWait tx w) s
  end.

(** One pass of the loop of [send] that waits for the write, of the loop of [next]. *)
Definition await_write (c tx leg : nat) (w : waiting) (s : machine) : P machine :=
  on_tx tx (procs_ s) (λ t,
    match t_err t with
    | Some e => Ok (set_thread c (TEnd tx (Some e) true w) s)
    | None =>
        on_leg leg (procs_ s) (λ g,
          if leg_written g then
            let '(th, p) := proceed tx (resume files w) (procs_ s) in Ok (set_thread c th (set_procs p s))
          else Ok s)
    end).
Definition await_message (c tx : nat) (w : waiting) (s : machine) : P machine :=
  let! '(x, p) := next_locked tx (procs_ s) in
  match x with
  | None => Ok s
  | Some (inl e) => Ok (set_thread c (TEnd tx (Some e) true w) (set_procs p s))
  | Some (inr m) =>
      let! y := react files w m in
      let '(th, p) := proceed tx y p in Ok (set_thread c th (set_procs p s))
  end.

(** [complete], and what [fileReceiver.finish] adds. *)
Definition do_complete (c tx : nat) (err : option proc_error) (admitted : bool) (w : waiting) (s : machine) : P machine :=
  let! '(msgs, err, p) := complete tx err admitted (procs_ s) in
  let s := set_thread c (TDone msgs err admitted (Some w)) (set_procs p s) in
  match w with
  | AwaitFile r =>
      on_tx tx p (λ t, Ok (match t_file t with
                           | Some f => if file_uncertain f then record (Deactivated (r_key r)) s else s
                           | None => s
                           end))
  | _ => Ok s
  end.

(** The action, or [None] where it cannot occur. *)
Definition perform (a : action) (s : machine) : P (option machine) :=
  let some (m : P machine) := let! s := m in Ok (Some s) in
  match a with
  | ACall h ctx => some (call h ctx s)
  | ASend c ctx => match threads s !! c with
                   | Some (TSend tx req match_ w admitted) => some (do_send c tx req match_ w admitted ctx s)
                   | _ => Ok None
                   end
  | AAdmit c result => match threads s !! c with
                       | Some (TAdmit tx leg req w admitted) => Ok (Some (do_admit c tx leg req w admitted result s))
                       | _ => Ok None
                       end
  | ABegin =>
      match outgoing s with
      | leg :: _ =>
          on_leg leg (procs_ s) (λ g,
            if begun g then Ok None
            else some (let! p := beginWrite leg (procs_ s) in Ok (record (Begun leg) (set_procs p s))))
      | [] => Ok None
      end
  | AWritten err =>
      match outgoing s with
      | leg :: rest =>
          on_leg leg (procs_ s) (λ g,
            if begun g then
              let! p := endWrite leg err (procs_ s) in
              Ok (Some (mkMachine p (calls s) (threads s) rest (incoming_ s)
                          (history s ++ (if bool_decide (err = None) then [Wrote leg] else []))))
            else Ok None)
      | [] => Ok None
      end
  | ARead payload =>
      let! leg := receivingLeg (procs_ s) in
      Ok (Some (mkMachine (procs_ s) (calls s) (threads s) (outgoing s) (incoming_ s ++ [(payload, leg)]) (history s ++ [GotPayload leg payload])))
  | AObserve =>
      match incoming_ s with
      | (payload, leg) :: rest =>
          some (let! p := observe params payload leg (procs_ s) in
                Ok (mkMachine p (calls s) (threads s) (outgoing s) rest (history s)))
      | [] => Ok None
      end
  | ADrop => Ok (match incoming_ s with
                 | _ :: rest => Some (mkMachine (procs_ s) (calls s) (threads s) (outgoing s) rest (history s))
                 | [] => None
                 end)
  | ANext c => match threads s !! c with
               | Some (TWrite tx leg w) => some (await_write c tx leg w s)
               | Some (TWait tx w) => some (await_message c tx w s)
               | _ => Ok None
               end
  | AExpire c e => match threads s !! c with
                   | Some (TWrite tx _ w) | Some (TWait tx w) =>
                       if is_canceled e then Ok (Some (set_thread c (TEnd tx (Some e) true w) s)) else Ok None
                   | _ => Ok None
                   end
  | AComplete c => match threads s !! c with
                   | Some (TEnd tx err admitted w) => some (do_complete c tx err admitted w s)
                   | _ => Ok None
                   end
  | AGone e => some (let! p := finish_session e (procs_ s) in Ok (set_procs p s))
  end.

Definition initial : machine := mkMachine (mkProcs false None false [] []) [] [] [] [] [].

(** What is read are octets. *)
Definition octets (a : action) : Prop := match a with ARead payload => bytes_ok payload | _ => True end.

Inductive reaches : machine → Prop :=
| ReachesInitial : reaches initial
| ReachesStep s a s' : reaches s → octets a → perform a s = Ok (Some s') → reaches s'.
End Machine.
