(* ===== verification/Iec104ClientInv.v ===== *)
(** * What holds of a client's procedures

    The invariant of the machine of [Iec104Client]: every message a helper
    takes was read after the write of its own request had begun; at most one
    helper is in an exchange; and what each helper has established so far. *)
From S2P Require Import Prelude GoLib Iec104Types Iec104Time Iec104Elements Iec104Asdu Iec104Procedure Iec104File Iec104FileCorrect Iec104FileInv Iec104FileClient Iec104Client.

#[local] Open Scope Z_scope.

Section Inv.
Context (params : Params) (eventQueue : nat) (files : FileOptions).

(** ** The transactions and the legs *)

(** The message was read while the leg was the current one. *)
Definition got (h : list happening) (l : nat) (m : Message) : Prop :=
  ∃ b, GotPayload (Some l) b ∈ h ∧ bytes_ok b ∧ DecodeASDU b params = Ok m.

Definition tx_ok (h : list happening) (gs : list procedureLeg) (i : nat) (t : transaction) : Prop :=
  (∀ l, t_leg t = Some l → ∃ g, gs !! l = Some g ∧ leg_tx g = i) ∧
  (∀ j m, (consumed t ≤ j)%nat → responses t !! j = Some m → ∃ l, t_leg t = Some l ∧ got h l m ∧ t_match t m = true).
Definition leg_ok (h : list happening) (n l : nat) (g : procedureLeg) : Prop :=
  (leg_tx g < n)%nat ∧ (begun g = true → Begun l ∈ h) ∧ (leg_written g = true → Wrote l ∈ h).

Record procs_ok (h : list happening) (p : procs) : Prop := {
  po_tx : ∀ i t, txs p !! i = Some t → tx_ok h (legs p) i t;
  po_leg : ∀ l g, legs p !! l = Some g → leg_ok h (length (txs p)) l g;
  po_current : ∀ i, s_procedure p = Some i → (i < length (txs p))%nat
}.

Lemma got_more h h' l m : got h l m → got (h ++ h') l m.
Proof. intros (b & Hb & ?). exists b. split; [apply elem_of_app; by left|done]. Qed.
Lemma tx_more h h' gs i t : tx_ok h gs i t → tx_ok (h ++ h') gs i t.
Proof. intros [Hl Hr]. split; [done|]. intros j m Hj Hm. destruct (Hr j m Hj Hm) as (l & ? & ? & ?). exists l. split_and!; [done|by apply got_more|done]. Qed.
Lemma leg_more h h' n l g : leg_ok h n l g → leg_ok (h ++ h') n l g.
Proof. intros (? & ? & ?). split_and!; [done|intros; apply elem_of_app; left; auto..]. Qed.
Lemma procs_more h h' p : procs_ok h p → procs_ok (h ++ h') p.
Proof. intros [Ht Hl Hc]. split; [intros; by apply tx_more, Ht|intros; by apply leg_more, Hl|done]. Qed.

(** The current leg and the match of a transaction, and their preservation. *)
Definition waits_on (p : procs) (tx l : nat) (match_ : Message → bool) : Prop :=
  ∃ t, txs p !! tx = Some t ∧ t_leg t = Some l ∧ t_match t = match_.
Definition tx_file (t : transaction) : bool := match t_file t with Some _ => true | None => false end.
Definition has_file (p : procs) (i : nat) : bool := match txs p !! i with Some t => tx_file t | None => false end.
Definition frame (p p' : procs) : Prop :=
  length (txs p) = length (txs p') ∧ s_procedure p' = s_procedure p ∧ procedureUncertain p' = procedureUncertain p ∧
  length (legs p) = length (legs p') ∧ (∀ i, has_file p' i = has_file p i) ∧
  ∀ tx l match_, waits_on p tx l match_ → waits_on p' tx l match_.

Lemma frame_refl p : frame p p.
Proof. done. Qed.

(** A change of one transaction that keeps its leg and its match. *)
Lemma set_tx_ok h p i t t' : procs_ok h p → txs p !! i = Some t → t_leg t' = t_leg t → t_match t' = t_match t → tx_file t' = tx_file t →
  (∀ j m, (consumed t' ≤ j)%nat → responses t' !! j = Some m →
     (∃ j', (consumed t ≤ j')%nat ∧ responses t !! j' = Some m) ∨ ∃ l, t_leg t = Some l ∧ got h l m ∧ t_match t m = true) →
  procs_ok h (set_tx i t' p) ∧ frame p (set_tx i t' p).
Proof.
  intros [Htx Hleg Hc] Hi Hl Hm Hfl Hr. pose proof (Htx i t Hi) as [Htl Htr]. assert (i < length (txs p))%nat as Hlt by by eapply lookup_lt_Some.
  split; [split|].
  - intros j u Hj. cbn in Hj. destruct (decide (i = j)) as [<-|Hne].
    + rewrite list_lookup_insert_eq in Hj by done. injection Hj as <-. split; cbn; [by rewrite Hl|]. intros k m Hk Hkm. rewrite Hl, Hm.
      destruct (Hr k m Hk Hkm) as [(j' & Hj' & Hjm)|?]; [by eapply Htr|done].
    + rewrite list_lookup_insert_ne in Hj by done. by apply Htx.
  - intros l g Hg. cbn. rewrite length_insert. by apply Hleg.
  - intros j Hj. cbn. rewrite length_insert. by apply Hc.
  - split_and!; [cbn; by rewrite length_insert|done|done|done| |].
    { intros j. unfold has_file. cbn. destruct (decide (i = j)) as [<-|Hne]; [by rewrite list_lookup_insert_eq, Hi by done|by rewrite list_lookup_insert_ne]. }
    intros tx l match_ (u & Hu & Hul & Hum). unfold waits_on. cbn.
    destruct (decide (i = tx)) as [<-|Hne]; [|rewrite list_lookup_insert_ne by done; eauto].
    rewrite list_lookup_insert_eq by done. exists t'. assert (u = t) as -> by congruence. split_and!; [done|congruence|congruence].
Qed.

Definition preserves (h : list happening) (p : procs) (m : P procs) : Prop := ∃ p', m = Ok p' ∧ procs_ok h p' ∧ frame p p'.

Lemma preserves_set h p i t t' : procs_ok h p → txs p !! i = Some t → t_leg t' = t_leg t → t_match t' = t_match t → tx_file t' = tx_file t →
  (∀ j m, (consumed t' ≤ j)%nat → responses t' !! j = Some m →
     (∃ j', (consumed t ≤ j')%nat ∧ responses t !! j' = Some m) ∨ ∃ l, t_leg t = Some l ∧ got h l m ∧ t_match t m = true) →
  preserves h p (Ok (set_tx i t' p)).
Proof. intros. eexists. split; [done|]. by eapply set_tx_ok. Qed.
Ltac same_responses := let j := fresh in let m := fresh in intros j m ? ?; left; by exists j.

Lemma current_tx h p i : procs_ok h p → s_procedure p = Some i → ∃ t, txs p !! i = Some t.
Proof. intros Hp Hi. apply lookup_lt_is_Some_2. by eapply po_current. Qed.

Lemma fail_ok h p i t e : procs_ok h p → txs p !! i = Some t → preserves h p (Ok (set_tx i (tx_fail e t) p)).
Proof. intros Hp Hi. eapply preserves_set; [done|done|..]; unfold tx_fail, first_err; destruct (t_err t); try done; same_responses. Qed.

Lemma observe_ok h p b leg : procs_ok h p → bytes_ok b → (∀ l, leg = Some l → GotPayload (Some l) b ∈ h) → preserves h p (observe params b leg p).
Proof.
  intros Hp Hb Hl. unfold observe. destruct (s_procedure p) as [i|] eqn:Hi; [|eexists; split; [done|split; [done|apply frame_refl]]].
  destruct (current_tx h p i Hp Hi) as [t Ht]. unfold on_tx. rewrite Ht. pose proof (DecodeASDU_safe b params) as Hs.
  destruct (DecodeASDU b params) as [m|e| |] eqn:Hm; try done; [|by eapply fail_ok].
  eapply preserves_set; [done|done|..]; unfold offer; case_if; try done; try case_if; try done; try same_responses.
  bool_facts. apply bool_decide_eq_true in H1. intros j m' Hj Hm'. cbn in Hm'. apply lookup_app_Some in Hm' as [Hm'|[Hge Hm']]; [left; by exists j|].
  right. apply list_lookup_singleton_Some in Hm' as [_ <-]. destruct leg as [l|]; [|done]. exists l.
  split_and!; [done|exists b; split_and!; [by apply Hl|done|done]|done].
Qed.

Lemma finish_ok h p e : procs_ok h p → ∃ p', finish_session e p = Ok p' ∧ procs_ok h p' ∧ frame p p'.
Proof.
  intros Hp. unfold finish_session. set (p1 := mkProcs true _ _ _ _). assert (procs_ok h p1) as Hp1 by (by destruct Hp).
  change (s_procedure p1) with (s_procedure p). destruct (s_procedure p) as [i|] eqn:Hi; [|by eexists].
  destruct (current_tx h p1 i Hp1 eq_refl) as [t Ht]. unfold on_tx. rewrite Ht. destruct (fail_ok h p1 i t (Iec e) Hp1 Ht) as (p' & Heq & Hok & ? & Hcur & ? & ? & ? & Hw).
  exists p'. do 3 (split; [done|]). split; [by rewrite Hcur, Hi|]. by split_and!.
Qed.

Lemma next_ok h p i t : procs_ok h p → txs p !! i = Some t → ∃ x p', next_locked i p = Ok (x, p') ∧ procs_ok h p' ∧ frame p p' ∧
  match x with
  | Some (inr m) => ∃ l, t_leg t = Some l ∧ got h l m ∧ t_match t m = true ∧ Wrote l ∈ h
  | _ => p' = p
  end.
Proof.
  intros Hp Hi. unfold next_locked, on_tx. rewrite Hi. destruct (t_err t); [eexists _, _; split; [done|split; [done|split; [apply frame_refl|done]]]|].
  pose proof (po_tx _ _ Hp i t Hi) as [Hl Hr].
  destruct (t_leg t) as [l|] eqn:Htl; [|eexists _, _; split; [done|split; [done|split; [apply frame_refl|done]]]].
  destruct (Hl l eq_refl) as (g & Hg & Hgi). unfold on_leg. rewrite Hg.
  destruct (responses t !! consumed t) as [m|] eqn:Hm; [|eexists _, _; split; [done|split; [done|split; [apply frame_refl|done]]]].
  destruct (leg_written g) eqn:Hw; [|eexists _, _; split; [done|split; [done|split; [apply frame_refl|done]]]].
  assert (preserves h p (Ok (set_tx i (if streaming t then with_responses (drop 1 (responses t)) (consumed t) t
     else with_responses (responses t) (S (consumed t)) t) p))) as (p' & [= <-] & Hp' & Hf).
  { eapply preserves_set; [done|done|..]; try case_if; try done; intros j m' Hj Hm'; left; cbn in *; [rewrite lookup_drop in Hm'; exists (1 + j)%nat|exists j]; split; [lia|done|lia|done]. }
  eexists _, _. split; [done|]. split; [done|]. split; [done|]. destruct (Hr _ m (le_n _) Hm) as (l' & Hl' & Hgot & Hmt). exists l'.
  injection Hl' as <-. split_and!; [done|done|done|]. by apply (po_leg _ _ Hp l g Hg).
Qed.

Lemma set_leg_ok h p l g g' : procs_ok h p → legs p !! l = Some g → leg_tx g' = leg_tx g → leg_ok h (length (txs p)) l g' →
  procs_ok h (set_leg l g' p) ∧ frame p (set_leg l g' p).
Proof.
  intros [Ht Hl Hc] Hg Htx Hg'. assert (l < length (legs p))%nat by by eapply lookup_lt_Some. split; [split|].
  - intros i t Hi. destruct (Ht i t Hi) as [Htl Htr]. split; [|done]. intros l' Hl'. destruct (Htl l' Hl') as (g1 & Hg1 & Hgi). cbn.
    destruct (decide (l = l')) as [<-|Hne]; [rewrite list_lookup_insert_eq by done; exists g'; split; congruence|rewrite list_lookup_insert_ne by done; eauto].
  - intros l' g1 Hg1. cbn in Hg1. destruct (decide (l = l')) as [<-|Hne].
    + rewrite list_lookup_insert_eq in Hg1 by done. by injection Hg1 as <-.
    + rewrite list_lookup_insert_ne in Hg1 by done. by apply Hl.
  - done.
  - split_and!; try done. cbn. by rewrite length_insert.
Qed.

Lemma frame_trans p q r : frame p q → frame q r → frame p r.
Proof. intros (? & ? & ? & ? & Hf & Hw) (? & ? & ? & ? & Hf' & Hw'). split_and!; try congruence. intros. by apply Hw', Hw. Qed.

Lemma beginWrite_ok h p l g : procs_ok h p → legs p !! l = Some g → preserves (h ++ [Begun l]) p (beginWrite l p).
Proof.
  intros Hp Hg. unfold beginWrite, on_leg. rewrite Hg. eexists. split; [done|]. destruct (po_leg _ _ Hp l g Hg) as (H1 & H2 & H3).
  eapply set_leg_ok; [by apply procs_more|done|done|]. split_and!; [done|intros _; apply elem_of_app; right; by left|intros; apply elem_of_app; left; auto].
Qed.

Lemma endWrite_ok h p l g err : procs_ok h p → legs p !! l = Some g →
  preserves (h ++ (if bool_decide (err = None) then [Wrote l] else [])) p (endWrite l err p).
Proof.
  intros Hp Hg. unfold endWrite, on_leg. rewrite Hg. destruct (po_leg _ _ Hp l g Hg) as (H1 & H2 & H3). cbv zeta.
  set (g' := mkLeg _ _ _). set (h' := h ++ _).
  destruct (set_leg_ok h' p l g g') as [Hp1 Hf1]; [by apply procs_more|done|done| |].
  { split_and!; [done|intros; apply elem_of_app; left; auto|]. cbn. intros Hw. apply elem_of_app. right. rewrite Hw. by left. }
  set (p1 := set_leg l g' p) in *. destruct (lookup_lt_is_Some_2 (txs p1) (leg_tx g)) as [t Ht]; [done|]. unfold on_tx. rewrite Ht.
  destruct (preserves_set h' p1 (leg_tx g) t (with_wake true (match err with Some e => first_err (Iec e) t | None => t end))) as (p' & Heq & Hp' & Hf'); try done.
  - destruct err; [unfold first_err; by destruct (t_err t)|done].
  - destruct err; [unfold first_err; by destruct (t_err t)|done].
  - destruct err; [unfold first_err; by destruct (t_err t)|done].
  - destruct err; [unfold first_err; destruct (t_err t)|]; same_responses.
  - exists p'. split; [done|]. split; [done|]. by eapply frame_trans.
Qed.

Lemma update_ok h p i f : procs_ok h p → (∀ t, tx_file (f t) = tx_file t ∧ t_leg (f t) = t_leg t ∧ t_match (f t) = t_match t ∧ consumed (f t) = consumed t ∧ responses (f t) = responses t) →
  procs_ok h (update_tx i f p) ∧ frame p (update_tx i f p).
Proof.
  intros Hp Hf. unfold update_tx. destruct (txs p !! i) as [t|] eqn:Hi; [|by split; [|apply frame_refl]]. destruct (Hf t) as (? & ? & ? & Hc & Hr).
  eapply set_tx_ok; [done|done|done|done|done|]. rewrite Hc, Hr. same_responses.
Qed.

Lemma begin_ok h p match_ file tx p' : procs_ok h p → begin eventQueue match_ file p = Ok (tx, p') →
  s_procedure p = None ∧ procedureUncertain p = false ∧ procs_ok h p' ∧ s_procedure p' = Some tx ∧ procedureUncertain p' = false ∧ tx = length (txs p) ∧
  length (legs p) = length (legs p') ∧ has_file p' tx = file.
Proof.
  intros Hp. unfold begin. destruct (s_gone p); [done|]. destruct (s_procedure p); [done|]. destruct (procedureUncertain p); [done|].
  intros [= <- <-]. split_and!; try done; [|unfold has_file; cbn; rewrite lookup_app_r, Nat.sub_diag by done; by destruct file]. destruct Hp as [Ht Hl Hc]. split.
  - intros i t Hi. cbn in Hi. apply lookup_app_Some in Hi as [Hi|[_ Hi]]; [by apply Ht|]. apply list_lookup_singleton_Some in Hi as [_ <-].
    split; [done|]. intros j m _ Hj. cbn in Hj. by rewrite lookup_nil in Hj.
  - intros l g Hg. cbn. destruct (Hl l g Hg) as (? & ? & ?). split; [rewrite length_app; cbn; lia|done].
  - intros i [= <-]. cbn. rewrite length_app. cbn. lia.
Qed.

Lemma sendProcedure_ok h p i t req match_ : procs_ok h p → txs p !! i = Some t →
  match sendProcedure params i req match_ p with
  | Ok (_, l, p') => procs_ok h p' ∧ waits_on p' i l match_ ∧ s_procedure p' = s_procedure p ∧ procedureUncertain p' = procedureUncertain p ∧
      l = length (legs p) ∧ length (legs p') = S l ∧ has_file p' i = has_file p i
  | Err _ => True
  | _ => False
  end.
Proof.
  intros [Ht Hl Hc] Hi. unfold sendProcedure. pose proof (marshal_safe params req) as Hm.
  destruct (ASDU_MarshalBinary params req) as [b| | |]; try done. cbn [iec bind]. unfold on_tx. rewrite Hi.
  destruct (t_err t); [done|]. case_if; [done|]. assert (i < length (txs p))%nat by by eapply lookup_lt_Some. split_and!; try done.
  - split.
    + intros j u Hj. cbn in Hj. destruct (decide (i = j)) as [<-|Hne].
      * rewrite list_lookup_insert_eq in Hj by done. injection Hj as <-. split.
        -- intros l [= <-]. eexists. cbn. rewrite lookup_app_r, Nat.sub_diag by done. done.
        -- intros k m Hk Hm'. cbn in *. apply lookup_lt_Some in Hm'. lia.
      * rewrite list_lookup_insert_ne in Hj by done. destruct (Ht j u Hj) as [Hul Hur]. split; [|done].
        intros l Hlu. destruct (Hul l Hlu) as (g & Hg & ?). exists g. cbn. by rewrite (lookup_app_l_Some _ _ _ _ Hg).
    + intros l g Hg. cbn in Hg. cbn. rewrite length_insert. apply lookup_app_Some in Hg as [Hg|[_ Hg]]; [by apply Hl|].
      apply list_lookup_singleton_Some in Hg as [_ <-]. done.
    + intros j Hj. cbn. rewrite length_insert. by apply Hc.
  - eexists. cbn. by rewrite list_lookup_insert_eq.
  - cbn. rewrite length_app. cbn. lia.
  - unfold has_file. cbn. by rewrite list_lookup_insert_eq, Hi.
Qed.

(** The errors after which it is open what became of a request.  A file helper
    also reports a directory over its limit by the error of a full queue. *)
Definition uncertain_error (file : bool) (e : proc_error) : bool :=
  is_canceled e || bool_decide (e = ErrProcedureOrder) || (negb file && bool_decide (e = Iec ErrQueueFull)).
Lemma uncertain_open e : uncertain_error false e = true → leaves_open (Some e) = true.
Proof. unfold uncertain_error, leaves_open. cbn. by destruct (is_canceled e), (bool_decide _), (bool_decide _). Qed.
Lemma uncertain_file f t err e : (fileOutcome f t err).1 = Some e → uncertain_error true e = true → (fileOutcome f t err).2 = true.
Proof.
  unfold fileOutcome, uncertain_error. cbn. rewrite orb_false_r. intros H He. destruct (t_err t); [done|]. case_if; [done|].
  destruct err as [e'|]; [|done]. case_if; [done|]. cbn in H. injection H as ->. congruence.
Qed.

Lemma transaction_complete_ok h p i t err admitted : procs_ok h p → txs p !! i = Some t → s_procedure p = Some i →
  ∃ msgs err' p' t', complete i err admitted p = Ok (msgs, err', p') ∧ procs_ok h p' ∧ s_procedure p' = None ∧ txs p' !! i = Some t' ∧
    length (legs p) = length (legs p') ∧ (err' = None → err = None) ∧
    (procedureUncertain p = true → procedureUncertain p' = true) ∧
    (∀ e, err' = Some e → admitted = true → uncertain_error (tx_file t) e = true → procedureUncertain p' = true) ∧ (is_Some (t_file t') ↔ is_Some (t_file t)).
Proof.
  intros Hp Hi Hcur. unfold complete, on_tx. rewrite Hi. rewrite bool_decide_eq_true_2 by done.
  assert (∀ u t', t_leg t' = t_leg t → t_match t' = t_match t → consumed t' = consumed t → responses t' = responses t → tx_file t' = tx_file t →
    procs_ok h (mkProcs (s_gone p) None u (<[i := t']> (txs p)) (legs p))) as Hset.
  { intros u t' H1 H2 H3 H4 H5. destruct (set_tx_ok h p i t t' Hp Hi H1 H2 H5) as [[Ht Hl Hc] _]; [rewrite H3, H4; same_responses|]. by split. }
  assert (i < length (txs p))%nat by by eapply lookup_lt_Some.
  destruct (t_file t) as [f|] eqn:Hf.
  - destruct (fileOutcome f t _) as [err' unc] eqn:Ho. do 4 eexists. split; [done|]. split; [apply Hset; try done; unfold tx_file; by rewrite Hf|]. split; [done|].
    split; [cbn; by rewrite list_lookup_insert_eq|]. split_and!; try done; [|cbn; intros ->; by destruct (admitted && unc)|].
    2:{ intros e -> -> He. unfold tx_file in He. rewrite Hf in He.
        assert (unc = true) as ->; [|cbn; by rewrite orb_true_r]. pose proof (uncertain_file f t (match t_err t with Some e => Some e | None => err end) e) as Hu. rewrite Ho in Hu. by apply Hu. }
    intros ->. unfold fileOutcome in Ho. destruct (t_err t); [done|].
    destruct (negb _ && _); [done|]. destruct err as [e|]; [|done]. by destruct (_ || _).
  - do 4 eexists. split; [done|]. split; [by apply Hset|]. split; [done|]. split; [cbn; by rewrite list_lookup_insert_eq|].
    split_and!; try done; [by destruct (t_err t)|by intros ->| |by rewrite Hf].
    cbn. intros e -> -> He. unfold tx_file in He. rewrite Hf in He. apply uncertain_open in He. rewrite He. by rewrite orb_true_r.
Qed.

(** ** What a helper has established *)
Definition answered (h : list happening) (l : nat) (req : ASDU) (cause : Z) : Prop :=
  Wrote l ∈ h ∧ ∃ m, got h l m ∧ responseError m = None ∧ Cause (GetHeader m) = cause ∧ echoed req m = true.
Notation confirmed_ h l req := (answered h l req ActivationCon).
Notation terminated h l req := (answered h l req ActivationTerm).

Definition start_of (hp : helper) : option (reaction receiver) :=
  match hp with
  | ReadDirectory k => Some (start_directory k)
  | DownloadFile k => Some (start_download k)
  | _ => None
  end.

(** The exchange an [Await] belongs to: the helper's first request, or the
    execute request once the select request was confirmed. *)
Definition phase (c : nat) (hp : helper) (h : list happening) (termination : bool) (expected : ASDU) (execute : option ASDU) : Prop :=
  (∃ mt, prepare hp = Ok (expected, mt, Await termination false expected execute)) ∨
  (termination = true ∧ execute = None ∧ ∃ sel mt l, prepare hp = Ok (sel, mt, Await false false sel (Some expected)) ∧
     Accepted c l sel ∈ h ∧ confirmed_ h l sel).

(** The message was read for a request that the call [c] had admitted and the
    writer had written; a file helper has come to [st] with such messages. *)
Definition read_by (c : nat) (h : list happening) (m : Message) : Prop :=
  ∃ l req, Accepted c l req ∈ h ∧ Wrote l ∈ h ∧ got h l m.
Definition dialogue (c : nat) (hp : helper) (h : list happening) (st : client_state) : Prop :=
  ∃ start ms, start_of hp = Some start ∧ takes params files start (mjoin (content <$> ms)) st ∧ Forall (read_by c h) ms.

Definition asks (c : nat) (hp : helper) (h : list happening) (w : waiting) (req : ASDU) (mt : Message → bool) : Prop :=
  match w with
  | Await termination confirmed e x => confirmed = false ∧ req = e ∧ phase c hp h termination e x
  | AwaitData => prepare hp = Ok (req, mt, AwaitData)
  | AwaitFile r => mt = fileMatch (r_key r) ∧ dialogue c hp h (Sending r) ∧ sends_last r req
  end.
Definition awaits (c : nat) (hp : helper) (h : list happening) (l : nat) (w : waiting) (req : ASDU) (mt : Message → bool) : Prop :=
  match w with
  | Await termination confirmed e x => req = e ∧ phase c hp h termination e x ∧ (confirmed = true → confirmed_ h l e)
  | AwaitData => prepare hp = Ok (req, mt, AwaitData)
  | AwaitFile r => mt = fileMatch (r_key r) ∧ dialogue c hp h (Waiting r) ∧ sends_last r req
  end.
Definition accomplished (c : nat) (hp : helper) (h : list happening) (w : waiting) : Prop :=
  match w with
  | Await termination _ e x => x = None ∧ phase c hp h termination e None ∧
      ∃ l, Accepted c l e ∈ h ∧ confirmed_ h l e ∧ (termination = true → terminated h l e)
  | AwaitData => ∃ l req mt m, prepare hp = Ok (req, mt, AwaitData) ∧ Accepted c l req ∈ h ∧ Wrote l ∈ h ∧ got h l m ∧ mt m = true ∧
      responseError m = None ∧ Cause (GetHeader m) = Request ∧ Type_ (GetHeader m) ≠ C_RD_NA_1
  | AwaitFile r => ∃ clean l req, dialogue c hp h (Ended None clean r) ∧ Accepted c l req ∈ h ∧ Wrote l ∈ h ∧ sends_last r req
  end.

Definition thread_ok (c : nat) (hp : helper) (h : list happening) (p : procs) (th : thread) : Prop :=
  match th with
  | TSend tx req mt w _ => (tx < length (txs p))%nat ∧ asks c hp h w req mt
  | TAdmit tx l req w _ => ∃ mt, waits_on p tx l mt ∧ asks c hp h w req mt
  | TWrite tx l w => is_file w = true ∧ ∃ mt req, waits_on p tx l mt ∧ Accepted c l req ∈ h ∧ asks c hp h w req mt
  | TWait tx w => ∃ l mt req, waits_on p tx l mt ∧ Accepted c l req ∈ h ∧ awaits c hp h l w req mt
  | TEnd tx err _ w => (tx < length (txs p))%nat ∧ (err = None → accomplished c hp h w)
  | TDone _ err _ w => err = None → ∃ w', w = Some w' ∧ accomplished c hp h w'
  end.

Lemma elem_more {A} (x : A) h h' : x ∈ h → x ∈ h ++ h'.
Proof. intros. apply elem_of_app. by left. Qed.
Hint Resolve elem_more got_more : file.

Lemma answered_more h h' l req cause : answered h l req cause → answered (h ++ h') l req cause.
Proof. intros (Hw & m & Hg & ?). split; [by auto with file|]. exists m. split; [by auto with file|done]. Qed.
Hint Resolve answered_more : file.
Lemma phase_more c hp h h' t e x : phase c hp h t e x → phase c hp (h ++ h') t e x.
Proof. intros [?|(? & ? & sel & mt & l & ? & ? & ?)]; [by left|right]. split_and!; try done. exists sel, mt, l. auto with file. Qed.
Hint Resolve phase_more : file.
Lemma dialogue_more c hp h h' st : dialogue c hp h st → dialogue c hp (h ++ h') st.
Proof.
  intros (start & ms & ? & ? & Hf). exists start, ms. split_and!; [done|done|]. eapply Forall_impl; [exact Hf|].
  intros m (l & req & ? & ? & ?). exists l, req. auto with file.
Qed.
Hint Resolve dialogue_more : file.
Lemma asks_more c hp h h' w req mt : asks c hp h w req mt → asks c hp (h ++ h') w req mt.
Proof. destruct w; [|done|]; intros (? & ? & ?); split_and!; auto with file. Qed.
Lemma awaits_more c hp h h' l w req mt : awaits c hp h l w req mt → awaits c hp (h ++ h') l w req mt.
Proof. destruct w; [|done|]; intros (? & ? & ?); split_and!; auto with file. Qed.
Lemma accomplished_more c hp h h' w : accomplished c hp h w → accomplished c hp (h ++ h') w.
Proof.
  destruct w.
  - intros (? & ? & l & ? & ? & ?). split_and!; auto with file. exists l. auto with file.
  - intros (l & req & mt & m & ? & ? & ? & ? & ?). exists l, req, mt, m. split_and!; auto with file; naive_solver.
  - intros (clean & l & req & ? & ? & ? & ?). exists clean, l, req. split_and!; auto with file.
Qed.
Hint Resolve asks_more awaits_more accomplished_more : file.

Lemma thread_more c hp h h' p p' th : frame p p' → thread_ok c hp h p th → thread_ok c hp (h ++ h') p' th.
Proof.
  intros (Hlen & _ & _ & _ & _ & Hw). destruct th; cbn; rewrite <- ?Hlen.
  - intros [? ?]. auto with file.
  - intros (mt & ? & ?). exists mt. auto with file.
  - intros (? & mt & req & ? & ? & ?). split; [done|]. exists mt, req. auto with file.
  - intros (l & mt & req & ? & ? & ?). exists l, mt, req. auto with file.
  - intros [? ?]. auto with file.
  - intros Hd He. destruct (Hd He) as (w' & -> & ?). eauto with file.
Qed.

(** ** Reactions *)
Context (Hmax : MaxFileSize files ≤ 0xffffff) (Hret : 0 ≤ SectionRetries files) (Hlim : 1 ≤ DirectoryLimit files).

Lemma dialogue_react c hp h r m : dialogue c hp h (Waiting r) → read_by c h m → fileMatch (r_key r) m = true →
  ∃ x, react_file files r m = Ok x ∧ dialogue c hp h (after x) ∧ own r x.
Proof.
  intros (start & ms & Hs & Ht & Hms) Hread Hf. pose proof Hread as (_ & _ & _ & _ & b & _ & Hb & Hm).
  assert (∃ x, react_file files r m = Ok x) as [x Hx].
  { destruct hp; try done; injection Hs as <-.
    - apply takes_directory in Ht as (Hk & entries & Hst & Hl & Hlast); [|done].
      destruct (directory_react_ok params files _ _ r entries m b Hk Hst Hl Hlast Hb Hm Hf) as (x & Hx & _). eauto.
    - apply takes_ok in Ht as [_ Hst]; [|done..]. by eapply download_reacts. }
  exists x. split; [done|]. split; [|by eapply react_own]. exists start, (ms ++ [m]). split; [done|]. split.
  - rewrite fmap_app, join_app. cbn [fmap list_fmap]. change (mjoin [content m]) with (content m ++ []). rewrite app_nil_r. by eapply TakesMessage.
  - apply Forall_app. split; [done|by apply Forall_singleton].
Qed.
Lemma dialogue_resume c hp h r : dialogue c hp h (Sending r) → dialogue c hp h (after (resume_file files r)).
Proof. intros (start & ms & Hs & Ht & Hms). exists start, ms. split_and!; [done|by apply TakesWritten|done]. Qed.

(** The thread that follows a reaction of a file helper. *)
Lemma proceed_file c hp h tx l req r x p : waits_on p tx l (fileMatch (r_key r)) → Accepted c l req ∈ h → Wrote l ∈ h → sends_last r req →
  procs_ok h p → dialogue c hp h (after x) → own r x →
  let '(th, p') := proceed tx (lift_file x) p in thread_ok c hp h p' th ∧ procs_ok h p' ∧ frame p p'.
Proof.
  intros Hw Ha Hwr Hlast Hp Hd Ho. assert (tx < length (txs p))%nat by (destruct Hw as (t & ? & _); by eapply lookup_lt_Some).
  destruct x as [r'|req' mt r'|err clean r']; cbn [lift_file proceed after] in *.
  - split; [|split; [done|apply frame_refl]]. exists l, (fileMatch (r_key r)), req. split_and!; [done|done|].
    destruct Ho as (Hk & Hl & _). cbn. rewrite Hk. split_and!; [done|done|by apply Hl].
  - split; [|split; [done|apply frame_refl]]. destruct Ho as (-> & _ & Ho & _). by split.
  - assert (∀ p', frame p p' → thread_ok c hp h p' (TEnd tx err true (AwaitFile r'))) as Hth.
    { intros p' (Hlen & _). cbn. rewrite <- Hlen. split; [done|]. intros ->. destruct Ho as (Hk & Hl & _).
      exists clean, l, req. split_and!; [done|done|done|by apply Hl]. }
    destruct clean; [|by split; [apply Hth, frame_refl|]]. destruct (update_ok h p tx mark_clean Hp) as [Hp' Hf]; [intros t; unfold tx_file; split_and!; try done; cbn; by destruct (t_file t)|]. split; [by apply Hth|done].
Qed.

Definition proceeds (c : nat) (hp : helper) (h : list happening) (tx : nat) (p : procs) (y : reaction waiting) : Prop :=
  let '(th, p') := proceed tx y p in thread_ok c hp h p' th ∧ procs_ok h p' ∧ frame p p'.
Lemma proceeds_error c hp h tx p e w : procs_ok h p → (tx < length (txs p))%nat → proceeds c hp h tx p (Finish (Some e) false w).
Proof. intros. split; [done|]. split; [done|apply frame_refl]. Qed.

Lemma proceeds_done c hp h tx p l t e x : procs_ok h p → (tx < length (txs p))%nat → phase c hp h t e x → Accepted c l e ∈ h → confirmed_ h l e →
  (t = true → terminated h l e) → (t = true → x = None) → proceeds c hp h tx p (confirmation_done (Await t true e x) x).
Proof.
  intros Hp Htx Hph Ha Hc Ht Hx. unfold confirmation_done. destruct x as [req|].
  - split; [|split; [done|apply frame_refl]]. split; [done|]. split; [done|]. split; [done|]. right. split_and!; try done.
    destruct Hph as [[mt Hpr]|(_ & ? & _)]; [|done]. destruct t; [by discriminate (Hx eq_refl)|]. by exists e, mt, l.
  - split; [|split; [done|apply frame_refl]]. split; [done|]. intros _. split; [done|]. split; [done|]. by exists l.
Qed.

Lemma phase_execute c hp h e x : phase c hp h true e x → x = None.
Proof.
  intros [[mt H]|(_ & ? & _)]; [|done].
  destruct hp; unfold prepare in H; repeat (apply bind_Ok in H as (? & _ & H) || apply guard_err_Ok in H as [_ H]); unfold confirm_only in H; by simplify_eq.
Qed.

Lemma react_ok c hp h tx l w req mt m p : awaits c hp h l w req mt → waits_on p tx l mt → Accepted c l req ∈ h → procs_ok h p →
  got h l m → mt m = true → Wrote l ∈ h → ∃ y, react files w m = Ok y ∧ proceeds c hp h tx p y.
Proof.
  intros Haw Hon Hadm Hp Hgot Hmt Hw. assert (tx < length (txs p))%nat as Htx by (destruct Hon as (t & ? & _); by eapply lookup_lt_Some).
  destruct w as [t cf e x| |r]; cbn [react].
  - eexists. split; [done|]. destruct Haw as (-> & Hph & Hcf). unfold react_await. cbv zeta.
    destruct (responseError m) eqn:Hre; [by apply proceeds_error|].
    destruct (Z.eqb_spec (Cause (GetHeader m)) ActivationCon) as [Hc|Hc].
    { destruct (echoed e m) eqn:He; [|by apply proceeds_error]. cbn [negb]. destruct cf; [by apply proceeds_error|].
      assert (confirmed_ h l e) as Hcon by (split; [done|]; by exists m). destruct t.
      - split; [|split; [done|apply frame_refl]]. by exists l, mt, e.
      - by apply (proceeds_done _ _ _ _ _ l). }
    destruct (Z.eqb_spec (Cause (GetHeader m)) ActivationTerm) as [Ht|Ht].
    { destruct cf; [|by apply proceeds_error]. destruct (echoed e m) eqn:He; [|by apply proceeds_error]. cbn [negb orb].
      apply (proceeds_done _ _ _ _ _ l); auto; [intros _; split; [done|]; by exists m|]. intros ->. by eapply phase_execute. }
    destruct cf; [|by apply proceeds_error]. cbn [negb orb]. case_if; [by apply proceeds_error|].
    split; [|split; [done|apply frame_refl]]. by exists l, mt, e.
  - eexists. split; [done|]. unfold react_data. destruct (responseError m) eqn:Hre; [by apply proceeds_error|]. case_if; [by apply proceeds_error|].
    bool_facts. split; [|split; [done|apply frame_refl]]. split; [done|]. intros _. by exists l, req, mt, m.
  - destruct Haw as (-> & Hd & Hlast). destruct (dialogue_react c hp h r m Hd) as (x & -> & Hx & Ho); [by exists l, req|done|].
    eexists. split; [done|]. by apply (proceed_file c hp h tx l req r).
Qed.
End Inv.
