(* ===== verification/Iec104ClientCorrect.v ===== *)
(** * A client's procedures are exclusive and confirmed

    The invariant of the whole machine, preserved by every action, and what it
    says of the requests a session carries and of the results helpers return. *)
From S2P Require Import Prelude GoLib Iec104Types Iec104Time Iec104Elements Iec104Asdu Iec104Procedure Iec104File Iec104FileCorrect Iec104FileInv Iec104FileClient Iec104Client Iec104ClientInv.

#[local] Open Scope Z_scope.

(** The transaction of a thread that is in an exchange, and where it waits. *)
Definition active (th : thread) : option nat :=
  match th with TSend tx _ _ _ _ | TAdmit tx _ _ _ _ | TWrite tx _ _ | TWait tx _ | TEnd tx _ _ _ => Some tx | TDone _ _ _ _ => None end.
Definition waits_in (th : thread) : option waiting :=
  match th with TSend _ _ _ w _ | TAdmit _ _ _ w _ | TWrite _ _ w | TWait _ w | TEnd _ _ _ w => Some w | TDone _ _ _ w => w end.
Definition files_thread (th : thread) : bool := match waits_in th with Some w => is_file w | None => false end.

Lemma snoc_split {A} (h h1 h2 : list A) e x : h ++ [e] = h1 ++ x :: h2 →
  (h2 = [] ∧ e = x ∧ h = h1) ∨ ∃ h2', h2 = h2' ++ [e] ∧ h = h1 ++ x :: h2'.
Proof.
  destruct h2 as [|y h2 _] using rev_ind; intros H.
  - apply app_inj_tail in H as [-> ->]. by left.
  - right. exists h2. rewrite app_comm_cons, app_assoc in H. apply app_inj_tail in H as [-> ->]. done.
Qed.

Section Correct.
Context (params : Params) (eventQueue : nat) (files : FileOptions).

(** A payload is attributed to a leg only after its write has begun. *)
Definition order_ok (h : list happening) : Prop := ∀ h1 l b h2, h = h1 ++ GotPayload (Some l) b :: h2 → Begun l ∈ h1.

(** What a thread may send: its helper's first request, the execute request
    after a confirmed select, or the requests of a file dialogue. *)
Definition may_send (c : nat) (hp : helper) (h : list happening) (req : ASDU) : Prop :=
  ∃ req0 mt w0, prepare hp = Ok (req0, mt, w0) ∧
    (is_file w0 = true ∨ req = req0 ∨
     w0 = Await false false req0 (Some req) ∧ ∃ l, Accepted c l req0 ∈ h ∧ answered params h l req0 ActivationCon).
Definition sent_ok (cs : list helper) (h : list happening) : Prop :=
  ∀ h1 c l req h2, h = h1 ++ Accepted c l req :: h2 → ∃ hp, cs !! c = Some hp ∧ may_send c hp h1 req.

Record machine_ok (s : machine) : Prop := {
  mo_procs : procs_ok params (history s) (procs_ s);
  mo_in : Forall (λ x, bytes_ok (fst x) ∧ ∀ l, snd x = Some l → GotPayload (Some l) (fst x) ∈ history s) (incoming_ s);
  mo_out : Forall (λ l, l < length (legs (procs_ s)))%nat (outgoing s);
  mo_order : order_ok (history s);
  mo_sent : sent_ok (calls s) (history s);
  mo_calls : length (calls s) = length (threads s);
  mo_threads : ∀ c hp th, calls s !! c = Some hp → threads s !! c = Some th → thread_ok params files c hp (history s) (procs_ s) th;
  mo_active : ∀ c th tx, threads s !! c = Some th → active th = Some tx →
    s_procedure (procs_ s) = Some tx ∧ procedureUncertain (procs_ s) = false ∧ has_file (procs_ s) tx = files_thread th;
  mo_unique : ∀ c c' th th', threads s !! c = Some th → threads s !! c' = Some th' → active th ≠ None → active th' ≠ None → c = c';
  mo_fence : ∀ c msgs e w, threads s !! c = Some (TDone msgs (Some e) true (Some w)) → uncertain_error (is_file w) e = true →
    procedureUncertain (procs_ s) = true
}.

Lemma order_snoc h e : order_ok h → (∀ l b, e = GotPayload (Some l) b → Begun l ∈ h) → order_ok (h ++ [e]).
Proof. intros Hh He h1 l b h2 [(_ & -> & <-)|(h2' & _ & ->)]%snoc_split; [by eapply He|by eapply Hh]. Qed.
Lemma sent_snoc cs h e : sent_ok cs h → (∀ c l req, e = Accepted c l req → ∃ hp, cs !! c = Some hp ∧ may_send c hp h req) → sent_ok cs (h ++ [e]).
Proof. intros Hh He h1 c l req h2 [(_ & -> & <-)|(h2' & _ & ->)]%snoc_split; [by eapply He|by eapply Hh]. Qed.
Lemma sent_calls cs cs' h : sent_ok cs h → sent_ok (cs ++ cs') h.
Proof. intros Hh h1 c l req h2 H. destruct (Hh _ _ _ _ _ H) as (hp & Hc & ?). exists hp. split; [by apply lookup_app_l_Some|done]. Qed.

(** An event of the record that needs no justification. *)
Definition plain (e : happening) : bool := match e with Accepted _ _ _ | GotPayload (Some _) _ => false | _ => true end.
Lemma order_plain h l : order_ok h → forallb plain l = true → order_ok (h ++ l).
Proof.
  revert h. induction l as [|e l IH]; intros h Hh Hl; [by rewrite app_nil_r|]. cbn in Hl. bool_facts. rewrite cons_middle, app_assoc.
  apply IH; [|done]. apply order_snoc; [done|]. by intros ? ? ->.
Qed.
Lemma sent_plain cs h l : sent_ok cs h → forallb plain l = true → sent_ok cs (h ++ l).
Proof.
  revert h. induction l as [|e l IH]; intros h Hh Hl; [by rewrite app_nil_r|]. cbn in Hl. bool_facts. rewrite cons_middle, app_assoc.
  apply IH; [|done]. apply sent_snoc; [done|]. by intros ? ? ? ->.
Qed.

(** ** Actions of the link and of the session *)
Lemma machine_frame s p out inc l : machine_ok s → frame (procs_ s) p → procs_ok params (history s ++ l) p →
  order_ok (history s ++ l) → sent_ok (calls s) (history s ++ l) →
  Forall (λ x, bytes_ok (fst x) ∧ ∀ i, snd x = Some i → GotPayload (Some i) (fst x) ∈ history s ++ l) inc →
  Forall (λ i, i < length (legs p))%nat out →
  machine_ok (mkMachine p (calls s) (threads s) out inc (history s ++ l)).
Proof.
  intros [] Hf Hp Ho Hs Hi Hout. pose proof Hf as (_ & Hcur & Hun & _ & Hfile & _). split; cbn; try done.
  - intros c hp th Hc Ht. eapply thread_more; [done|]. by apply mo_threads0.
  - intros c th tx Ht Ha. rewrite Hcur, Hun, Hfile. by eapply mo_active0.
  - intros. rewrite Hun. by eapply mo_fence0.
Qed.

Lemma in_more h l (inc : list (list Z * option nat)) : Forall (λ x, bytes_ok (fst x) ∧ ∀ i, snd x = Some i → GotPayload (Some i) (fst x) ∈ h) inc →
  Forall (λ x, bytes_ok (fst x) ∧ ∀ i, snd x = Some i → GotPayload (Some i) (fst x) ∈ h ++ l) inc.
Proof. intros H. eapply Forall_impl; [exact H|]. intros x [? Hx]. split; [done|]. intros i Hi. apply elem_of_app. left. by apply Hx. Qed.

(** The action occurs without a panic and keeps the invariant. *)
Definition stays (m : P (option machine)) : Prop := ∃ x, m = Ok x ∧ ∀ s, x = Some s → machine_ok s.
Lemma stays_none : stays (Ok None).
Proof. by eexists. Qed.
Lemma stays_some s : machine_ok s → stays (Ok (Some s)).
Proof. intros. eexists. split; [done|]. by intros ? [= <-]. Qed.

Lemma out_more (n m : nat) out : n = m → Forall (λ i, i < n)%nat out → Forall (λ i, i < m)%nat out.
Proof. by intros ->. Qed.

Ltac link_step Hf := match type of Hf with frame ?p ?p' => pose proof Hf as (_ & _ & _ & ? & _) end.

Lemma begin_stays s : machine_ok s → stays (perform params eventQueue files ABegin s).
Proof.
  intros Hs. cbn [perform]. destruct (outgoing s) as [|l rest] eqn:Ho; [apply stays_none|]. pose proof (mo_out s Hs) as Hout. rewrite Ho in Hout.
  pose proof Hout as [Hl _]%Forall_cons. destruct (lookup_lt_is_Some_2 _ _ Hl) as [g Hg]. unfold on_leg. rewrite Hg. case_if; [apply stays_none|].
  destruct (beginWrite_ok params (history s) (procs_ s) l g (mo_procs s Hs) Hg) as (p' & -> & Hp & Hf). cbn [bind]. apply stays_some.
  unfold record, set_procs. cbn. link_step Hf. rewrite Ho.
  apply machine_frame; try done; [by apply order_plain, eq_refl; apply Hs|by apply sent_plain, eq_refl; apply Hs|by apply in_more, Hs|by eapply out_more].
Qed.

Lemma written_stays s err : machine_ok s → stays (perform params eventQueue files (AWritten err) s).
Proof.
  intros Hs. cbn [perform]. destruct (outgoing s) as [|l rest] eqn:Ho; [apply stays_none|]. pose proof (mo_out s Hs) as Hout. rewrite Ho in Hout.
  apply Forall_cons in Hout as [Hl Hrest]. destruct (lookup_lt_is_Some_2 _ _ Hl) as [g Hg]. unfold on_leg. rewrite Hg. case_if; [|apply stays_none].
  destruct (endWrite_ok params (history s) (procs_ s) l g err (mo_procs s Hs) Hg) as (p' & -> & Hp & Hf). cbn [bind]. apply stays_some. link_step Hf.
  assert (forallb plain (if bool_decide (err = None) then [Wrote l] else []) = true) by (by case_if).
  apply machine_frame; try done; [by apply order_plain; [apply Hs|]|by apply sent_plain; [apply Hs|]|by apply in_more, Hs|by eapply out_more].
Qed.

Lemma receiving_ok h p : procs_ok params h p → ∃ leg, receivingLeg p = Ok leg ∧ ∀ l, leg = Some l → Begun l ∈ h.
Proof.
  intros Hp. unfold receivingLeg. destruct (s_procedure p) as [i|] eqn:Hi; [|by eexists]. destruct (current_tx params h p i Hp Hi) as [t Ht].
  unfold on_tx. rewrite Ht. destruct (t_leg t) as [l|] eqn:Hl; [|by eexists]. destruct (proj1 (po_tx _ _ _ Hp i t Ht) l Hl) as (g & Hg & _).
  unfold on_leg. rewrite Hg. eexists. split; [done|]. intros l'. case_if; [|done]. intros [= <-]. by apply (po_leg _ _ _ Hp l g Hg).
Qed.

Lemma read_stays s b : machine_ok s → bytes_ok b → stays (perform params eventQueue files (ARead b) s).
Proof.
  intros Hs Hb. cbn [perform]. destruct (receiving_ok _ _ (mo_procs s Hs)) as (leg & -> & Hleg). cbn [bind]. apply stays_some.
  apply machine_frame; [done|apply frame_refl|by apply procs_more, Hs|..].
  - apply order_snoc; [apply Hs|]. intros l b' [= -> ->]. by apply Hleg.
  - apply sent_snoc; [apply Hs|done].
  - apply Forall_app. split; [by apply in_more, Hs|]. apply Forall_singleton. split; [done|]. cbn. intros l ->. apply elem_of_app. right. by left.
  - apply Hs.
Qed.

Lemma machine_same s p out inc : machine_ok s → frame (procs_ s) p → procs_ok params (history s) p →
  Forall (λ x, bytes_ok (fst x) ∧ ∀ i, snd x = Some i → GotPayload (Some i) (fst x) ∈ history s) inc → out = outgoing s →
  machine_ok (mkMachine p (calls s) (threads s) out inc (history s)).
Proof.
  intros Hs Hf Hp Hi ->. pose proof (machine_frame s p (outgoing s) inc [] Hs Hf) as H. rewrite app_nil_r in H. link_step Hf.
  apply H; try done; [apply Hs|apply Hs|eapply out_more; [done|apply Hs]].
Qed.

Lemma observe_stays s : machine_ok s → stays (perform params eventQueue files AObserve s).
Proof.
  intros Hs. cbn [perform]. pose proof (mo_in s Hs) as Hin. destruct (incoming_ s) as [|[b leg] rest]; [apply stays_none|].
  apply Forall_cons in Hin as [[Hb Hl] Hin]. cbn in Hb, Hl. destruct (observe_ok params _ _ b leg (mo_procs s Hs) Hb Hl) as (p' & -> & Hp & Hf).
  cbn [bind]. apply stays_some. by apply machine_same.
Qed.
Lemma drop_stays s : machine_ok s → stays (perform params eventQueue files ADrop s).
Proof.
  intros Hs. cbn [perform]. pose proof (mo_in s Hs) as Hin. destruct (incoming_ s) as [|[b leg] rest]; [apply stays_none|].
  apply Forall_cons in Hin as [_ Hin]. apply stays_some, machine_same; try done. apply Hs.
Qed.
Lemma gone_stays s e : machine_ok s → stays (perform params eventQueue files (AGone e) s).
Proof.
  intros Hs. cbn [perform]. destruct (finish_ok params _ _ e (mo_procs s Hs)) as (p' & -> & Hp & Hf). cbn [bind]. apply stays_some.
  apply machine_same; try done. apply Hs.
Qed.

(** ** Actions of a thread

    While a thread is in an exchange every other one has returned. *)
Lemma thread_done c hp h h' p p' th : active th = None → thread_ok params files c hp h p th → thread_ok params files c hp (h ++ h') p' th.
Proof. destruct th; try done. intros _ Hd He. destruct (Hd He) as (w' & -> & ?). exists w'. split; [done|]. by apply accomplished_more. Qed.

Lemma machine_thread s c hp th th' p out l : machine_ok s → calls s !! c = Some hp → threads s !! c = Some th → active th ≠ None →
  procs_ok params (history s ++ l) p → thread_ok params files c hp (history s ++ l) p th' →
  (∀ tx, active th' = Some tx → s_procedure p = Some tx ∧ procedureUncertain p = false ∧ has_file p tx = files_thread th') →
  Forall (λ i, i < length (legs p))%nat out → order_ok (history s ++ l) → sent_ok (calls s) (history s ++ l) →
  (∀ msgs e w, th' = TDone msgs (Some e) true (Some w) → uncertain_error (is_file w) e = true → procedureUncertain p = true) →
  machine_ok (mkMachine p (calls s) (<[c := th']> (threads s)) out (incoming_ s) (history s ++ l)).
Proof.
  intros Hs Hc Hth Hact Hp Hok Hcur Hout Ho Hsent Hfence. assert (c < length (threads s))%nat as Hlt by by eapply lookup_lt_Some.
  assert (∀ c' th1, c ≠ c' → threads s !! c' = Some th1 → active th1 = None) as Hother.
  { intros c' th1 Hne H1. destruct (active th1) eqn:Ha; [|done]. destruct Hne. eapply (mo_unique s Hs); [done|done|done|by rewrite Ha]. }
  assert (∀ c' x, <[c := th']> (threads s) !! c' = Some x → (c = c' ∧ x = th') ∨ (c ≠ c' ∧ threads s !! c' = Some x)) as Hlook.
  { intros c' x Hx. destruct (decide (c = c')) as [<-|Hne]; [left|right; by rewrite list_lookup_insert_ne in Hx].
    rewrite list_lookup_insert_eq in Hx by done. by injection Hx as <-. }
  split; cbn; try done.
  - by apply in_more, Hs.
  - rewrite length_insert. apply Hs.
  - intros c' hp' x Hc' [[<- ->]|[Hne Hx]]%Hlook; [by assert (hp' = hp) as -> by congruence|].
    eapply thread_done; [by eapply Hother|by eapply (mo_threads s Hs)].
  - intros c' x tx [[<- ->]|[Hne Hx]]%Hlook Ha; [by apply Hcur|]. by rewrite (Hother _ _ Hne Hx) in Ha.
  - intros c1 c2 x1 x2 [[<- ->]|[Hne1 Hx1]]%Hlook [[<- ->]|[Hne2 Hx2]]%Hlook Ha1 Ha2; [done| | |].
    + by rewrite (Hother _ _ Hne2 Hx2) in Ha2.
    + by rewrite (Hother _ _ Hne1 Hx1) in Ha1.
    + by rewrite (Hother _ _ Hne1 Hx1) in Ha1.
  - intros c' msgs e w [[<- Heq]|[Hne Hx]]%Hlook Hw; [by eapply Hfence|].
    pose proof (mo_fence s Hs _ _ _ _ Hx Hw) as Hf. destruct (active th) as [tx|] eqn:Ha; [|done].
    destruct (mo_active s Hs c th tx Hth Ha) as (_ & Hf' & _). congruence.
Qed.

(** The thread goes on in its exchange without a new event. *)
Lemma machine_proceeds s c hp th tx p th' : machine_ok s → calls s !! c = Some hp → threads s !! c = Some th → active th = Some tx →
  procs_ok params (history s) p → thread_ok params files c hp (history s) p th' → active th' = Some tx → files_thread th' = files_thread th →
  s_procedure p = s_procedure (procs_ s) → procedureUncertain p = procedureUncertain (procs_ s) → has_file p tx = has_file (procs_ s) tx →
  (length (legs (procs_ s)) ≤ length (legs p))%nat →
  machine_ok (mkMachine p (calls s) (<[c := th']> (threads s)) (outgoing s) (incoming_ s) (history s)).
Proof.
  intros Hs Hc Hth Ha Hp Hok Ha' Hft Hcur Hun Hfile Hlen. pose proof (machine_thread s c hp th th' p (outgoing s) [] Hs Hc Hth) as H. rewrite app_nil_r in H.
  apply H; try done; [by rewrite Ha| | |apply Hs|apply Hs|].
  - intros tx' Htx'. assert (tx' = tx) as -> by congruence. rewrite Hcur, Hun, Hfile, Hft. by eapply (mo_active s Hs).
  - eapply Forall_impl; [apply Hs|]. cbn. intros. lia.
  - intros msgs e w ->. done.
Qed.
Lemma machine_ends s c hp th tx err admitted w : machine_ok s → calls s !! c = Some hp → threads s !! c = Some th → active th = Some tx → waits_in th = Some w →
  (tx < length (txs (procs_ s)))%nat → (err = None → accomplished params files c hp (history s) w) →
  machine_ok (set_thread c (TEnd tx err admitted w) s).
Proof.
  intros Hs Hc Hth Ha Hw Htx Herr. eapply machine_proceeds; try done; [apply Hs|]. unfold files_thread. cbn. by rewrite Hw.
Qed.

Context (Hmax : MaxFileSize files ≤ 0xffffff) (Hret : 0 ≤ SectionRetries files) (Hlim : 1 ≤ DirectoryLimit files).

Lemma caller s c th : machine_ok s → threads s !! c = Some th → ∃ hp, calls s !! c = Some hp ∧ thread_ok params files c hp (history s) (procs_ s) th.
Proof.
  intros Hs Ht. destruct (lookup_lt_is_Some_2 (calls s) c) as [hp Hc]; [rewrite (mo_calls s Hs); by eapply lookup_lt_Some|].
  exists hp. split; [done|]. by eapply (mo_threads s Hs).
Qed.

Lemma waits_lt p tx l mt : waits_on p tx l mt → (tx < length (txs p))%nat.
Proof. intros (t & ? & _). by eapply lookup_lt_Some. Qed.

Lemma send_stays s c ctx : machine_ok s → stays (perform params eventQueue files (ASend c ctx) s).
Proof.
  intros Hs. cbn [perform]. destruct (threads s !! c) as [th|] eqn:Hth; [|apply stays_none]. destruct th as [tx req mt w adm| | | | |]; try apply stays_none.
  destruct (caller s c _ Hs Hth) as (hp & Hc & Htx & Hasks). unfold do_send.
  assert (∀ e, stays (Ok (Some (set_thread c (TEnd tx (Some e) adm w) s)))) as Hend by (intros e; apply stays_some; by eapply machine_ends).
  destruct (if is_file w then ctx else None) as [e|]; [apply Hend|].
  destruct (lookup_lt_is_Some_2 _ _ Htx) as [t Ht]. pose proof (sendProcedure_ok params _ _ tx t req mt (mo_procs s Hs) Ht) as Hsend.
  destruct (sendProcedure params tx req mt (procs_ s)) as [[[b l] p]|e| |]; try done; [|apply Hend].
  destruct Hsend as (Hp & Hon & Hcur & Hun & Hl & Hlen & Hfile). cbn [bind]. apply stays_some. eapply (machine_proceeds s); try done; [by exists mt|cbn [procs_ set_procs]; lia].
Qed.

Lemma mark_called_ok t : tx_file (mark_called t) = tx_file t ∧ t_leg (mark_called t) = t_leg t ∧ t_match (mark_called t) = t_match t ∧
  consumed (mark_called t) = consumed t ∧ responses (mark_called t) = responses t.
Proof. unfold tx_file. split_and!; try done. cbn. by destruct (t_file t). Qed.

Lemma asks_sends c hp h w req mt : asks params files c hp h w req mt → may_send c hp h req.
Proof.
  unfold may_send. destruct w as [t cf e x| |r]; cbn.
  - intros (_ & -> & [[mt' H]|(_ & _ & sel & mt' & l & Hpr & Ha & Hc)]); [eexists _, _, _; split; [done|]; by right; left|].
    eexists _, _, _. split; [done|]. right. right. split; [done|]. by exists l.
  - intros H. eexists _, _, _. split; [done|]. right. by left.
  - intros (_ & (start & ms & Hs & _) & _). destruct hp; try done; (eexists _, _, _; split; [done|by left]).
Qed.

Lemma admit_stays s c result : machine_ok s → stays (perform params eventQueue files (AAdmit c result) s).
Proof.
  intros Hs. cbn [perform]. destruct (threads s !! c) as [th|] eqn:Hth; [|apply stays_none]. destruct th as [|tx l req w adm| | | |]; try apply stays_none.
  destruct (caller s c _ Hs Hth) as (hp & Hc & mt & Hon & Hasks). apply stays_some. unfold do_admit.
  destruct result as [e|]; [eapply machine_ends; try done; by eapply waits_lt|].
  set (p := if file_calls w then _ else _).
  assert (procs_ok params (history s) p ∧ frame (procs_ s) p) as [Hp Hf].
  { unfold p. case_if; [|by split; [apply Hs|apply frame_refl]]. apply update_ok; [apply Hs|apply mark_called_ok]. }
  pose proof Hf as (_ & Hcur & Hun & Hlen & Hfile & Hwait). unfold set_thread. cbn.
  assert (Accepted c l req ∈ history s ++ [Accepted c l req]) as Hadm by (apply elem_of_app; right; by left).
  destruct (mo_active s Hs c _ tx Hth eq_refl) as (Hcur0 & Hun0 & Hfile0).
  eapply machine_thread; try done; [by apply procs_more| | | | | |].
  - destruct (is_file w) eqn:Hw.
    + split; [done|]. exists mt, req. split_and!; [by apply Hwait|done|by apply asks_more].
    + exists l, mt, req. split_and!; [by apply Hwait|done|]. apply awaits_more. destruct w; [|done|done]. destruct Hasks as (-> & -> & ?). done.
  - intros tx' Htx'. assert (tx' = tx) as -> by (by destruct (is_file w); injection Htx' as <-). rewrite Hcur, Hun, Hfile. split_and!; [done|done|].
    rewrite Hfile0. by destruct (is_file w) eqn:Hw.
  - apply Forall_app. split; [eapply out_more; [done|apply Hs]|]. apply Forall_singleton. rewrite <- Hlen.
    destruct Hon as (t & Ht & Htl & _). destruct (proj1 (po_tx _ _ _ (mo_procs s Hs) tx t Ht) l Htl) as (g & Hg & _). by eapply lookup_lt_Some.
  - apply order_snoc; [apply Hs|done].
  - apply sent_snoc; [apply Hs|]. intros ? ? ? [= <- <- <-]. exists hp. split; [done|]. by eapply asks_sends.
  - intros msgs e w'. by destruct (is_file w).
Qed.

(** A helper's kind does not change. *)
Definition state_of (y : reaction waiting) : waiting := match y with Continue w | SendNext _ _ w | Finish _ _ w => w end.
Lemma lift_kind x : is_file (state_of (lift_file x)) = true.
Proof. by destruct x. Qed.
Lemma react_kind w m y : react files w m = Ok y → is_file (state_of y) = is_file w.
Proof.
  destruct w as [t cf e x| |r]; cbn [react].
  - intros [= <-]. unfold react_await, order_error, confirmation_done. cbv zeta. destruct (responseError m); [done|].
    repeat case_if; try done; by destruct x.
  - intros [= <-]. unfold react_data, order_error. destruct (responseError m); [done|]. by case_if.
  - intros (x & _ & [= <-])%bind_Ok. apply lift_kind.
Qed.
Lemma proceed_thread tx y p th p' : proceed tx y p = (th, p') → active th = Some tx ∧ waits_in th = Some (state_of y).
Proof. destruct y; intros [= <- <-]; done. Qed.

(** The thread goes on after a reaction. *)
Lemma proceeds_stays s c hp th tx w y p : machine_ok s → calls s !! c = Some hp → threads s !! c = Some th → active th = Some tx → waits_in th = Some w →
  frame (procs_ s) p → proceeds params files c hp (history s) tx p y → is_file (state_of y) = is_file w →
  stays (let! s0 := (let '(th', p') := proceed tx y p in Ok (set_thread c th' (set_procs p' s))) in Ok (Some s0)).
Proof.
  intros Hs Hc Hth Ha Hw Hf Hpr Hk. unfold proceeds in Hpr. destruct (proceed tx y p) as [th' p'] eqn:Heq. destruct Hpr as (Hok & Hp & Hf').
  destruct (proceed_thread _ _ _ _ _ Heq) as [Ha' Hw']. destruct (frame_trans _ _ _ Hf Hf') as (_ & Hcur & Hun & Hlen & Hfile & _). cbn [bind]. apply stays_some.
  eapply (machine_proceeds s); try done; [unfold files_thread; by rewrite Hw, Hw'|cbn [procs_ set_procs]; by rewrite Hlen].
Qed.

Lemma next_stays s c : machine_ok s → stays (perform params eventQueue files (ANext c) s).
Proof.
  intros Hs. cbn [perform]. destruct (threads s !! c) as [th|] eqn:Hth; [|apply stays_none]. destruct th as [| |tx l w|tx w| |]; try apply stays_none.
  - destruct (caller s c _ Hs Hth) as (hp & Hc & Hfile & mt & req & Hon & Hadm & Hasks). destruct w as [| |r]; try done. destruct Hasks as (-> & Hd & Hlast).
    unfold await_write, on_tx. pose proof Hon as (t & Ht & Htl & _). rewrite Ht.
    destruct (t_err t) as [e|]; [apply stays_some; eapply machine_ends; try done; by eapply waits_lt|].
    destruct (proj1 (po_tx _ _ _ (mo_procs s Hs) tx t Ht) l Htl) as (g & Hg & _). unfold on_leg. rewrite Hg. case_if; [|by apply stays_some].
    pose proof (proj2 (proj2 (po_leg _ _ _ (mo_procs s Hs) l g Hg)) Hif) as Hwr.
    eapply proceeds_stays; try done; [|apply lift_kind]. apply (proceed_file params files c hp (history s) tx l req r); try done; [apply Hs|by apply dialogue_resume|apply resume_own].
  - destruct (caller s c _ Hs Hth) as (hp & Hc & l & mt & req & Hon & Hadm & Haw). unfold await_message. pose proof Hon as (t & Ht & Htl & Htm).
    destruct (next_ok params _ _ tx t (mo_procs s Hs) Ht) as (x & p & -> & Hp & Hf & Hx). cbn [bind]. destruct x as [[e|m]|].
    + subst p. apply stays_some. eapply (machine_ends s); try done. by eapply waits_lt.
    + destruct Hx as (l' & Hl' & Hgot & Hmt & Hwr). assert (l' = l) as -> by congruence. subst mt.
      destruct (react_ok params files Hmax Hret Hlim c hp (history s) tx l w req (t_match t) m p) as (y & Hy & Hpr); try done; [by apply Hf|].
      rewrite Hy. cbn [bind]. eapply proceeds_stays; try done. by eapply react_kind.
    + subst p. by apply stays_some.
Qed.

Lemma expire_stays s c e : machine_ok s → stays (perform params eventQueue files (AExpire c e) s).
Proof.
  intros Hs. cbn [perform]. destruct (threads s !! c) as [th|] eqn:Hth; [|apply stays_none]. destruct th as [| |tx l w|tx w| |]; try apply stays_none.
  - case_if; [|apply stays_none]. destruct (caller s c _ Hs Hth) as (hp & Hc & _ & mt & req & Hon & _). apply stays_some. eapply machine_ends; try done. by eapply waits_lt.
  - case_if; [|apply stays_none]. destruct (caller s c _ Hs Hth) as (hp & Hc & l & mt & req & Hon & _). apply stays_some. eapply machine_ends; try done. by eapply waits_lt.
Qed.

Lemma complete_stays s c : machine_ok s → stays (perform params eventQueue files (AComplete c) s).
Proof.
  intros Hs. cbn [perform]. destruct (threads s !! c) as [th|] eqn:Hth; [|apply stays_none]. destruct th as [| | | |tx err adm w|]; try apply stays_none.
  destruct (caller s c _ Hs Hth) as (hp & Hc & Htx & Hacc). destruct (mo_active s Hs c _ tx Hth eq_refl) as (Hcur & Hun & Hfile).
  destruct (lookup_lt_is_Some_2 _ _ Htx) as [t Ht]. unfold do_complete.
  destruct (transaction_complete_ok params _ _ tx t err adm (mo_procs s Hs) Ht Hcur) as (msgs & err' & p & t' & -> & Hp & Hnone & Ht' & Hlen & Herr & _ & Hopen & _).
  cbn [bind].
  assert (∀ l, forallb plain l = true → machine_ok (mkMachine p (calls s) (<[c := TDone msgs err' adm (Some w)]> (threads s)) (outgoing s) (incoming_ s) (history s ++ l))) as Hdone.
  { intros l Hl. eapply machine_thread; try done; [by apply procs_more| |eapply out_more; [done|apply Hs]|by apply order_plain; [apply Hs|]|by apply sent_plain; [apply Hs|]|].
    - intros He. exists w. split; [done|]. apply accomplished_more. auto.
    - intros msgs' e w' [= -> -> -> <-] Hw. apply (Hopen e); [done|done|]. unfold has_file in Hfile. rewrite Ht in Hfile. unfold files_thread in Hfile. cbn in Hfile.
      by rewrite Hfile. }
  pose proof (Hdone [] eq_refl) as Hdone0. rewrite app_nil_r in Hdone0.
  destruct w as [| |r]; try (by apply stays_some). unfold on_tx. cbn [bind]. rewrite Ht'. cbn [bind]. destruct (t_file t') as [f|]; [|by apply stays_some].
  case_if; [|by apply stays_some]. apply stays_some. by apply (Hdone [Deactivated (r_key r)]).
Qed.

Lemma setSelection_safe e selecting : safe (setSelection e selecting).
Proof.
  assert (∀ e, safe (set_plain e selecting)) as H by (intros []; try exact I; by destruct selecting).
  unfold setSelection. destruct e as [| | | | | | | | | | | | | | | | | | | | | | | | | | | | | | |v t| | | | | | | | |]; try apply H.
  destruct v; try exact I; (apply bind_safe; [apply H|done]).
Qed.
Lemma commandSelection_safe req selecting : safe (commandSelection req selecting).
Proof.
  unfold commandSelection. destruct (Objects req) as [|o [|]]; try exact I. apply bind_safe; [apply setSelection_safe|done].
Qed.
Lemma prepare_safe hp : safe (prepare hp).
Proof.
  destruct hp; cbn [prepare]; try exact I; [apply guard_err_safe; done|..]; (apply bind_safe; [apply commandSelection_safe|]; intros ? _; try exact I).
  apply bind_safe; [apply commandSelection_safe|done].
Qed.

Lemma prepare_asks c hp h req mt w : prepare hp = Ok (req, mt, w) → asks params files c hp h w req mt.
Proof.
  intros H. assert (w = AwaitData ∨ (∃ t x, w = Await t false req x) ∨ (∃ r, w = AwaitFile r ∧ mt = fileMatch (r_key r) ∧ dialogue params files c hp h (Sending r) ∧ sends_last r req)) as Hw.
  { destruct hp; unfold prepare in H; repeat (apply bind_Ok in H as (? & _ & H) || apply guard_err_Ok in H as [_ H]); unfold confirm_only in H;
      injection H as <- <- <-; try (right; left; by eexists _, _); [by left|right; right..].
    all: eexists; split; [done|]; split; [done|]; split; [|done]; eexists _, []; split; [done|]; split; [by apply TakesStart|done]. }
  destruct Hw as [->|[(t & x & ->)|(r & -> & Hmt & Hd)]]; [done| |done]. split_and!; [done|done|]. left. eauto.
Qed.

Lemma call_stays s hp ctx : machine_ok s → stays (perform params eventQueue files (ACall hp ctx) s).
Proof.
  intros Hs. cbn [perform]. unfold call. pose proof (prepare_safe hp) as Hsafe.
  assert (∀ p th, procs_ok params (history s) p → length (legs (procs_ s)) = length (legs p) →
    (active th = None → p = procs_ s) → (∀ tx, active th = Some tx → s_procedure (procs_ s) = None ∧ s_procedure p = Some tx ∧ procedureUncertain (procs_ s) = false ∧ procedureUncertain p = false ∧
       has_file p tx = files_thread th) → (∀ msgs e w, th ≠ TDone msgs (Some e) true (Some w)) →
    thread_ok params files (length (threads s)) hp (history s) p th → machine_ok (push_thread hp th (set_procs p s))) as Hpush.
  { intros p th Hp Hlen Hsame Hact Hnd Hok.
    assert (∀ c x, (threads s ++ [th]) !! c = Some x → threads s !! c = Some x ∨ (c = length (threads s) ∧ x = th)) as Hlook.
    { intros c x [Hx|[Hge Hx]]%lookup_app_Some; [by left|right]. apply list_lookup_singleton_Some in Hx as [? <-]. split; [lia|done]. }
    assert (∀ c x tx tx', threads s !! c = Some x → active x = Some tx → active th = Some tx' → False) as Hno.
    { intros c x tx tx' Hx Hax Hat. destruct (Hact tx' Hat) as (Hnone & _). destruct (mo_active s Hs c x tx Hx Hax). congruence. }
    split; cbn; try apply Hs; try done.
    - eapply out_more; [done|apply Hs].
    - apply sent_calls, Hs.
    - rewrite !length_app. cbn. by rewrite (mo_calls s Hs).
    - intros c hp' x Hc [Hx|[-> ->]]%Hlook.
      + apply lookup_app_Some in Hc as [Hc|[Hge _]]; [|apply lookup_lt_Some in Hx; rewrite (mo_calls s Hs) in Hge; lia].
        pose proof (mo_threads s Hs c hp' x Hc Hx) as Hthr. destruct (active th) as [tx|] eqn:Ha; [|by rewrite (Hsame eq_refl)].
        rewrite <- (app_nil_r (history s)). eapply thread_done; [|done]. destruct (active x) eqn:Hax; [by destruct (Hno c x n tx)|done].
      + rewrite <- (mo_calls s Hs), lookup_app_r, Nat.sub_diag in Hc by done. injection Hc as <-. done.
    - intros c x tx [Hx|[-> ->]]%Hlook Ha.
      + destruct (active th) as [tx'|] eqn:Ht; [by destruct (Hno c x tx tx')|]. rewrite (Hsame eq_refl). by eapply (mo_active s Hs).
      + destruct (Hact tx Ha) as (_ & ? & _ & ? & ?). done.
    - intros c c' x x' [Hx|[-> ->]]%Hlook [Hx'|[-> ->]]%Hlook Ha Ha'; [by eapply (mo_unique s Hs)| | |done].
      + destruct (active x) eqn:E; [|done]. destruct (active th) eqn:E'; [|done]. by destruct (Hno c x n n0).
      + destruct (active x') eqn:E; [|done]. destruct (active th) eqn:E'; [|done]. by destruct (Hno c' x' n n0).
    - intros c msgs e w [Hx|[-> Hx]]%Hlook Hw; [|by destruct (Hnd msgs e w)]. pose proof (mo_fence s Hs c msgs e w Hx Hw) as Hun.
      destruct (active th) as [tx|] eqn:Ha; [destruct (Hact tx eq_refl) as (_ & _ & ? & _); congruence|by rewrite (Hsame eq_refl)]. }
  assert (∀ e, stays (let! s0 := Ok (push_thread hp (TDone [] (Some e) false None) s) in Ok (Some s0))) as Herr.
  { intros e. apply stays_some. pose proof (Hpush (procs_ s) (TDone [] (Some e) false None)) as H. destruct s. apply H; try done. apply Hs. }
  destruct (prepare hp) as [[[req mt] w]|e| |] eqn:Hpr; [|apply Herr|done|done]. destruct ctx as [e|]; [apply Herr|].
  destruct (begin eventQueue mt (is_file w) (procs_ s)) as [[tx p]|e| |] eqn:Hb; [|apply Herr|..].
  - apply begin_ok with (h := history s) (params := params) in Hb as (Hnone & Hun & Hp & Hcur & Hun' & Htx & Hlen & Hfile); [|apply Hs].
    cbn [bind]. apply stays_some, Hpush; try done; [by intros tx' [= <-]|]. split; [by apply (po_current _ _ _ Hp)|]. by apply prepare_asks.
  - unfold begin in Hb. by repeat case_match.
  - unfold begin in Hb. by repeat case_match.
Qed.

Lemma perform_stays s a : machine_ok s → octets a → stays (perform params eventQueue files a s).
Proof.
  intros Hs Ha. destruct a; [by apply call_stays|by apply send_stays|by apply admit_stays|by apply begin_stays|by apply written_stays|by apply read_stays|
    by apply observe_stays|by apply drop_stays|by apply next_stays|by apply expire_stays|by apply complete_stays|by apply gone_stays].
Qed.

Lemma initial_ok : machine_ok initial.
Proof.
  split; cbn; try done; [intros [|? ?] ? ? ? ?; done|intros [|? ?] ? ? ? ? ?; done].
Qed.

Lemma reaches_ok s : reaches params eventQueue files s → machine_ok s.
Proof.
  induction 1 as [|s a s' _ IH Ha Hs]; [apply initial_ok|]. destruct (perform_stays s a IH Ha) as (x & Hx & Hok). rewrite Hx in Hs. injection Hs as ->. by apply Hok.
Qed.
End Correct.

(** ** Select and execute *)
Lemma select_bits q : select_bit true q ≠ select_bit false q.
Proof.
  intros H. apply (f_equal (λ z, Z.testbit z 7)) in H. unfold select_bit in H. rewrite !Z.lor_spec, Z.land_spec in H. cbn in H. by rewrite andb_false_r in H.
Qed.
Lemma plain_differs e a b : set_plain e true = Ok a → set_plain e false = Ok b → a ≠ b.
Proof. destruct e; cbn; try done; intros [= <-] [= <-] [=]; by eapply select_bits. Qed.
Lemma selection_differs e a b : setSelection e true = Ok a → setSelection e false = Ok b → a ≠ b.
Proof.
  assert (∀ v (t : CP56Time2a) a b, (let! inner := set_plain v true in Ok (Timed inner t)) = Ok a → (let! inner := set_plain v false in Ok (Timed inner t)) = Ok b → a ≠ b) as Ht.
  { intros v t x y (i & Hi & [= <-])%bind_Ok (j & Hj & [= <-])%bind_Ok [= Heq]. by apply (plain_differs v i j). }
  unfold setSelection. destruct e; try apply plain_differs. destruct e; try apply Ht; done.
Qed.
Lemma select_differs req sel exe : commandSelection req true = Ok sel → commandSelection req false = Ok exe → sel ≠ exe.
Proof.
  unfold commandSelection. destruct (Objects req) as [|o [|]]; try done. intros (x & Hx & [= <-])%bind_Ok (y & Hy & [= <-])%bind_Ok [= Heq].
  by apply (selection_differs _ _ _ Hx Hy).
Qed.

(** The request was written, and a positive answer to it with the given cause
    was read after its write had begun. *)
Definition confirmed_by (params : Params) (h : list happening) (l : nat) (req : ASDU) (cause : Z) : Prop :=
  Wrote l ∈ h ∧ ∃ h1 b h2 m, h = h1 ++ GotPayload (Some l) b :: h2 ∧ Begun l ∈ h1 ∧ DecodeASDU b params = Ok m ∧
    responseError m = None ∧ Cause (GetHeader m) = cause ∧ echoed req m = true.

Lemma answered_by params h l req cause : order_ok h → answered params h l req cause → confirmed_by params h l req cause.
Proof.
  intros Ho (Hw & m & (b & Hb & _ & Hm) & ?). split; [done|]. apply list_elem_of_split in Hb as (h1 & h2 & ->).
  exists h1, b, h2, m. split; [done|]. split; [by eapply Ho|]. tauto.
Qed.
Lemma order_prefix h h' : order_ok (h ++ h') → order_ok h.
Proof. intros Ho h1 l b h2 ->. eapply Ho. by rewrite <- app_assoc. Qed.

(** C10. A command is executed only after its selection was confirmed.  In
    every run of a session, with any number of concurrent helpers, any peer
    and any failures: when the execute request of a select-before-operate
    command is admitted, the select request of the same call was admitted
    before, its write was complete, and a positive activation confirmation that
    echoes it was read after its write had begun.  The call sends no other
    request. *)
Theorem select_before_execute params eventQueue o files s c req sel exe :
  normalize_files o params = Ok files → reaches params eventQueue files s → calls s !! c = Some (SelectExecute req) →
  commandSelection req true = Ok sel → commandSelection req false = Ok exe →
  (∀ l a, Accepted c l a ∈ history s → a = sel ∨ a = exe) ∧
  ∀ h1 l h2, history s = h1 ++ Accepted c l exe :: h2 →
    ∃ l0, Accepted c l0 sel ∈ h1 ∧ confirmed_by params h1 l0 sel ActivationCon.
Proof.
  intros (_ & _ & Hmax & Hret & Hlim)%normalized_ok Hs Hc Hsel Hexe. apply reaches_ok in Hs; [|lia..].
  assert (prepare (SelectExecute req) = Ok (sel, confirm_match sel, Await false false sel (Some exe))) as Hpr by (cbn [prepare]; by rewrite Hsel, Hexe).
  assert (∀ h1 l a h2, history s = h1 ++ Accepted c l a :: h2 → a = sel ∨ a = exe ∧ ∃ l, Accepted c l sel ∈ h1 ∧ answered params h1 l sel ActivationCon) as Hsent.
  { intros h1 l a h2 Hh. destruct (mo_sent _ _ s Hs _ _ _ _ _ Hh) as (hp & Hc' & req0 & mt & w0 & Hpr' & Hcase).
    assert (hp = SelectExecute req) as -> by congruence. rewrite Hpr in Hpr'. injection Hpr' as <- <- <-.
    destruct Hcase as [?|[->|([= <-] & l0 & ? & ?)]]; [done|by left|right]. split; [done|]. by exists l0. }
  split.
  - intros l a (h1 & h2 & Hh)%list_elem_of_split. destruct (Hsent _ _ _ _ Hh) as [?|[? _]]; auto.
  - intros h1 l h2 Hh. destruct (Hsent _ _ _ _ Hh) as [Heq|(_ & l0 & Hadm & Hans)]; [by destruct (select_differs req sel exe)|].
    exists l0. split; [done|]. apply answered_by; [|done]. eapply order_prefix. rewrite <- Hh. apply Hs.
Qed.

(** ** Results *)

(** The request whose answers a helper reports, and whether it must be
    terminated as well as confirmed. *)
Definition demanded (hp : helper) : option (ASDU * bool) :=
  match prepare hp with
  | Ok (req, _, Await termination _ _ None) => Some (req, termination)
  | Ok (_, _, Await _ _ _ (Some execute)) => Some (execute, true)
  | _ => None
  end.

(** C11. A helper reports success only for an exchange that took place.  In
    every run of a session: when an interrogation, a synchronisation, a test, a
    reset or a command returns without an error, its request (the execute
    request of a select-before-operate command) was admitted by this call and
    written, and after its write had begun a positive confirmation that echoes
    it was read and, where the procedure has one, its termination; when a read
    returns, data of the object asked for was read.  When a file helper returns,
    what it returns comes from messages each of which was read for a request of
    this call that had been written: a directory is exactly the entries of these
    messages, in order, of which the last and no other is marked as the last; a
    download is a valid file of the length announced in one of them, each
    section delivered by consecutive segments and confirmed by its checksum, the
    file by the checksum of the whole, and its final acknowledgement was admitted
    by this call and written. *)
Theorem helper_success_confirmed params eventQueue o files s c hp msgs admitted w :
  normalize_files o params = Ok files → reaches params eventQueue files s →
  calls s !! c = Some hp → threads s !! c = Some (TDone msgs None admitted w) →
  match hp with
  | Read ca oa address =>
      ∃ l m, Accepted c l (set_cause Request (request ca oa C_RD_NA_1 address ReadCommand)) ∈ history s ∧ Wrote l ∈ history s ∧
        got params (history s) l m ∧ responseError m = None ∧ Cause (GetHeader m) = Request ∧
        match m with ASDUMessage a => existsb (λ x, Address x =? address) (Objects a) = true | _ => False end
  | ReadDirectory k => ∃ r ms entries d, w = Some (AwaitFile r) ∧ Forall (read_by params c (history s)) ms ∧
      r_stage r = DirWait (entries ++ [d]) ∧ entry_element <$> (entries ++ [d]) = mjoin (content <$> ms) ∧
      zlen (entries ++ [d]) ≤ DirectoryLimit files ∧ Forall (λ e, is_last e = false) entries ∧ is_last d = true
  | DownloadFile k => ∃ r ms d sec l sec', w = Some (AwaitFile r) ∧ Forall (read_by params c (history s)) ms ∧
      r_stage r = FinalAck d ∧ fileLength (d_sections d) (MaxFileSize files) = Ok (d_length d) ∧
      FileReady (K_Name k) (d_length d) 0 ∈ mjoin (content <$> ms) ∧
      Forall (delivered (K_Name k) (mjoin (content <$> ms))) (d_sections d) ∧
      FileLast (K_Name k) sec 1 (file_checksum (d_sections d)) ∈ mjoin (content <$> ms) ∧
      Accepted c l (fileMessage k (FileACK (K_Name k) sec' PositiveFileACK) FileTransfer) ∈ history s ∧ Wrote l ∈ history s
  | _ => ∃ req termination l, demanded hp = Some (req, termination) ∧ Accepted c l req ∈ history s ∧
           confirmed_by params (history s) l req ActivationCon ∧ (termination = true → confirmed_by params (history s) l req ActivationTerm)
  end.
Proof.
  intros (_ & _ & Hmax & Hret & Hlim)%normalized_ok Hs Hc Hth. apply reaches_ok in Hs; [|lia..].
  destruct (mo_threads _ _ s Hs c hp _ Hc Hth eq_refl) as (w' & -> & Hacc). pose proof (mo_order _ _ s Hs) as Ho.
  destruct w' as [t cf e x| |r].
  - destruct Hacc as (-> & Hph & l & Hadm & Hcon & Hterm).
    assert (demanded hp = Some (e, t)) as Hd.
    { unfold demanded. destruct Hph as [[mt ->]|(-> & _ & sel & mt & l0 & -> & _)]; done. }
    assert (∃ req termination l, demanded hp = Some (req, termination) ∧ Accepted c l req ∈ history s ∧
      confirmed_by params (history s) l req ActivationCon ∧ (termination = true → confirmed_by params (history s) l req ActivationTerm)) as Hgoal.
    { exists e, t, l. split_and!; [done|done|by apply answered_by|]. intros. apply answered_by; auto. }
    destruct hp; try exact Hgoal; unfold demanded in Hd; cbn in Hd; discriminate Hd.
  - destruct Hacc as (l & req & mt & m & Hpr & Hadm & Hw & Hgot & Hmt & Hre & Hcause & Htype).
    destruct hp; try (exfalso; unfold prepare, confirm_only in Hpr; repeat (apply bind_Ok in Hpr as (? & _ & Hpr) || apply guard_err_Ok in Hpr as [_ Hpr]); discriminate Hpr).
    injection Hpr as <- <-. exists l, m. split_and!; try done. unfold read_match in Hmt. bool_facts. apply orb_true_iff in H0 as [He|Ha].
    { unfold echoed in He. bool_facts. done. }
    destruct m as [a| |]; try done. by bool_facts.
  - destruct Hacc as (clean & l & req & (start & ms & Hst & Ht & Hms) & Ha & Hw & Hlast). destruct hp as [| | | | | | | |k|k]; try done; injection Hst as <-.
    + apply takes_directory in Ht as (entries & d & Hst & [Hl Hlen] & Hf & Hd); [|lia]. by exists r, ms, entries, d.
    + pose proof (takes_acknowledges _ _ _ _ _ Ht) as Hack. apply takes_ok in Ht as (Hk & d & Hst & Hd & Hne & Htot & sec & Hend); [|lia..].
      destruct (Hack d Hst) as [sec' Hr]. destruct Hd as (Hlen & Hready & Hsum & _ & _ & Hok & Hnd & Hdel).
      exists r, ms, d, sec, l, sec'. unfold sends_last in Hlast. rewrite Hr, Hk, Hst in Hlast. subst req. split_and!; try done.
      rewrite <- Htot, Hsum. apply fileLength_complete; try done; lia.
Qed.

(** ** Exclusion and the fence *)

(** At most one helper is in an exchange, and no action panics.  In every
    run of a session, whatever the callers, the link and the clock do, every
    next action is carried out without a panic or a dangling reference; of all
    the threads at most one is in an exchange, its transaction is the session's
    current one, and every payload that is attributed to a request was read
    after the write of that request had begun. *)
Theorem procedures_exclusive params eventQueue o files s :
  normalize_files o params = Ok files → reaches params eventQueue files s →
  (∀ a, octets a → ∃ x, perform params eventQueue files a s = Ok x) ∧
  (∀ c c' th th' tx tx', threads s !! c = Some th → threads s !! c' = Some th' → active th = Some tx → active th' = Some tx' →
     c = c' ∧ s_procedure (procs_ s) = Some tx) ∧
  (∀ h1 l b h2, history s = h1 ++ GotPayload (Some l) b :: h2 → Begun l ∈ h1).
Proof.
  intros (_ & _ & Hmax & Hret & Hlim)%normalized_ok Hs. apply reaches_ok in Hs; [|lia..]. split_and!.
  - intros a Ha. destruct (perform_stays params eventQueue files Hmax ltac:(lia) ltac:(lia) s a Hs Ha) as (x & Hx & _). eauto.
  - intros c c' th th' tx tx' Hc Hc' Ha Ha'. split; [|by destruct (mo_active _ _ s Hs c th tx Hc Ha)]. eapply (mo_unique _ _ s Hs); [done|done|by rewrite Ha|by rewrite Ha'].
  - apply Hs.
Qed.

Definition steps (params : Params) (eventQueue : nat) (files : FileOptions) : machine → machine → Prop :=
  rtc (λ s s', ∃ a, octets a ∧ perform params eventQueue files a s = Ok (Some s')).

(** A fenced session stays fenced and admits nothing. *)
Definition admissions (s : machine) : list happening := List.filter (λ e, match e with Accepted _ _ _ => true | _ => false end) (history s).

Lemma fenced_frame s p l s' : procedureUncertain (procs_ s) = true → frame (procs_ s) p →
  procs_ s' = p ∧ history s' = history s ++ l → List.filter (λ e, match e with Accepted _ _ _ => true | _ => false end) l = [] →
  procedureUncertain (procs_ s') = true ∧ admissions s' = admissions s.
Proof.
  intros Hun (_ & _ & Hf & _) [-> Hh] Hl. split; [congruence|]. unfold admissions. by rewrite Hh, List.filter_app, Hl, app_nil_r.
Qed.

Lemma fenced_step params eventQueue files s a s' : machine_ok params files s → procedureUncertain (procs_ s) = true →
  perform params eventQueue files a s = Ok (Some s') → procedureUncertain (procs_ s') = true ∧ admissions s' = admissions s.
Proof.
  intros Hs Hun H.
  assert (∀ c th, threads s !! c = Some th → active th = None) as Hidle.
  { intros c th Hth. destruct (active th) as [tx|] eqn:Ha; [|done]. destruct (mo_active _ _ s Hs c th tx Hth Ha) as (_ & ? & _). congruence. }
  destruct a as [hp ctx|c ctx|c r| |err|b| | |c|c e|c|e]; cbn [perform] in H.
  all: try (destruct (threads s !! c) as [th|] eqn:Hth; [|done]; specialize (Hidle c th Hth); by destruct th).
  - apply bind_Ok in H as (s1 & H & [= <-]). unfold call in H. assert (∀ th, procedureUncertain (procs_ (push_thread hp th s)) = true ∧ admissions (push_thread hp th s) = admissions s) as Hp by done.
    destruct (prepare hp) as [[[req mt] w]| | |]; try done; [|by injection H as <-]. destruct ctx; [by injection H as <-|].
    unfold begin in H. rewrite Hun in H. destruct (s_gone _); [by injection H as <-|]. by destruct (s_procedure _); injection H as <-.
  - destruct (outgoing s) as [|l rest] eqn:Ho; [done|]. pose proof (mo_out _ _ s Hs) as Hout. rewrite Ho in Hout. apply Forall_cons in Hout as [Hl _].
    destruct (lookup_lt_is_Some_2 _ _ Hl) as [g Hg]. unfold on_leg in H. rewrite Hg in H. destruct (begun g); [done|].
    destruct (beginWrite_ok params _ _ l g (mo_procs _ _ s Hs) Hg) as (p & Hp & _ & Hf). rewrite Hp in H. injection H as <-. eapply fenced_frame; [done|done|done|done].
  - destruct (outgoing s) as [|l rest] eqn:Ho; [done|]. pose proof (mo_out _ _ s Hs) as Hout. rewrite Ho in Hout. apply Forall_cons in Hout as [Hl _].
    destruct (lookup_lt_is_Some_2 _ _ Hl) as [g Hg]. unfold on_leg in H. rewrite Hg in H. destruct (begun g); [|done].
    destruct (endWrite_ok params _ _ l g err (mo_procs _ _ s Hs) Hg) as (p & Hp & _ & Hf). rewrite Hp in H. injection H as <-.
    eapply fenced_frame; [done|done|done|]. by case_if.
  - destruct (receiving_ok params _ _ (mo_procs _ _ s Hs)) as (leg & Hl & _). rewrite Hl in H. injection H as <-. eapply fenced_frame; [done|apply frame_refl|done|done].
  - pose proof (mo_in _ _ s Hs) as Hin. destruct (incoming_ s) as [|[b leg] rest]; [done|]. apply Forall_cons in Hin as [[Hb Hl] _].
    destruct (observe_ok params _ _ b leg (mo_procs _ _ s Hs) Hb Hl) as (p & Hp & _ & Hf). rewrite Hp in H. injection H as <-.
    eapply (fenced_frame s p []); [done|done|by rewrite app_nil_r|done].
  - destruct (incoming_ s) as [|[b leg] rest]; [done|]. by injection H as <-.
  - destruct (finish_ok params _ _ e (mo_procs _ _ s Hs)) as (p & Hp & _ & Hf). rewrite Hp in H. injection H as <-.
    eapply (fenced_frame s p []); [done|done|by rewrite app_nil_r|done].
Qed.

(** C12. An uncertain outcome closes the session to further requests.  When a
    helper that had a request admitted, a file helper included, returned because
    its context ended or an answer came out of order, or when a helper other
    than a file helper returned because its queue overflowed (a file helper
    reports a directory over its limit, which is no uncertain outcome, by the
    same error), then in every later state of the session no helper is in an
    exchange and not one more request has been admitted: a late answer cannot
    be taken for the answer to another request. *)
Theorem uncertain_outcome_fences params eventQueue o files s s' c msgs e w :
  normalize_files o params = Ok files → reaches params eventQueue files s →
  threads s !! c = Some (TDone msgs (Some e) true (Some w)) →
  e ∈ [Canceled; DeadlineExceeded; ErrProcedureOrder] ∨ e = Iec ErrQueueFull ∧ is_file w = false →
  steps params eventQueue files s s' →
  admissions s' = admissions s ∧ ∀ c' th, threads s' !! c' = Some th → active th = None.
Proof.
  intros (_ & _ & Hmax & Hret & Hlim)%normalized_ok Hs Hth He Hsteps. apply reaches_ok in Hs; [|lia..].
  assert (uncertain_error (is_file w) e = true) as Ho.
  { rewrite !elem_of_cons, elem_of_nil in He. unfold uncertain_error. destruct He as [[->|[->|[->|[]]]]|[-> ->]]; reflexivity. }
  pose proof (mo_fence _ _ s Hs c msgs e w Hth Ho) as Hun. clear Hth.
  assert (admissions s' = admissions s ∧ machine_ok params files s' ∧ procedureUncertain (procs_ s') = true) as (Hadm & Hs' & Hun').
  { induction Hsteps as [s|s s1 s2 (a & Ha & Hp) _ IH]; [done|]. destruct (fenced_step _ _ _ _ _ _ Hs Hun Hp) as [Hun1 Hadm1].
    destruct (perform_stays params eventQueue files Hmax ltac:(lia) ltac:(lia) s a Hs Ha) as (x & Hx & Hok). rewrite Hx in Hp. injection Hp as ->.
    destruct (IH (Hok s1 eq_refl) Hun1) as (-> & ? & ?). done. }
  split; [done|]. intros c' th Hc'. destruct (active th) as [tx|] eqn:Hact; [|done].
  destruct (mo_active _ _ s' Hs' c' th tx Hc' Hact) as (_ & Hf & _). congruence.
Qed.

(** ** Two sessions *)
Section Runs.
Context (params : Params) (eventQueue : nat) (files : FileOptions).

Fixpoint runs (l : list action) (s : machine) : machine :=
  match l with
  | [] => s
  | a :: l' => match perform params eventQueue files a s with Ok (Some s') => runs l' s' | _ => s end
  end.
Lemma runs_steps l : ∀ s, Forall octets l → steps params eventQueue files s (runs l s).
Proof.
  induction l as [|a l IH]; intros s Hl; [done|]. apply Forall_cons in Hl as [Ha Hl]. cbn [runs].
  destruct (perform params eventQueue files a s) as [[s1|]| | |] eqn:Hp; try done. eapply rtc_l; [by exists a|by apply IH].
Qed.
Lemma steps_reach s s' : reaches params eventQueue files s → steps params eventQueue files s s' → reaches params eventQueue files s'.
Proof. intros Hs. induction 1 as [|s s1 s2 (a & Ha & Hp) _ IH]; [done|]. by apply IH, (ReachesStep _ _ _ s a). Qed.
Lemma runs_reach l : Forall octets l → reaches params eventQueue files (runs l initial).
Proof. intros. eapply steps_reach; [constructor|by apply runs_steps]. Qed.
End Runs.

Definition breaker : ASDU := mkASDU (mkHeader C_SC_NA_1 false 0 Activation false false 0 12) [mkObject 6000 (SingleCommand 1)].
Definition selected (q cause : Z) : list Z :=
  match ASDU_MarshalBinary DefaultParams (mkASDU (mkHeader C_SC_NA_1 false 0 cause false false 0 12) [mkObject 6000 (SingleCommand q)]) with Ok b => b | _ => [] end.
Definition exchange_actions (answers : list (list Z)) : list action :=
  [ASend 0 None; AAdmit 0 None; ABegin; AWritten None] ++ mjoin ((λ b, [ARead b; AObserve; ANext 0]) <$> answers).

(** A command is selected, executed and terminated. *)
Definition operated : machine :=
  runs DefaultParams 64 DefaultFileOptions
    (ACall (SelectExecute breaker) None :: exchange_actions [selected 129 ActivationCon] ++
     exchange_actions [selected 1 ActivationCon; selected 1 ActivationTerm] ++ [AComplete 0]) initial.
(** The select request is written and its caller gives up. *)
Definition abandoned : machine :=
  runs DefaultParams 64 DefaultFileOptions
    (ACall (SelectExecute breaker) None :: exchange_actions [] ++ [AExpire 0 DeadlineExceeded; AComplete 0]) initial.

Lemma operated_reached : reaches DefaultParams 64 DefaultFileOptions operated.
Proof. apply runs_reach. repeat constructor; apply (bool_decide_unpack _); vm_compute; exact I. Qed.
Lemma abandoned_reached : reaches DefaultParams 64 DefaultFileOptions abandoned.
Proof. apply runs_reach. repeat constructor; apply (bool_decide_unpack _); vm_compute; exact I. Qed.

Definition execute_request : ASDU := mkASDU (mkHeader C_SC_NA_1 false 0 Activation false false 0 12) [mkObject 6000 (SingleCommand 1)].
Definition select_request : ASDU := mkASDU (mkHeader C_SC_NA_1 false 0 Activation false false 0 12) [mkObject 6000 (SingleCommand 129)].

Lemma select_before_execute_witness : history operated !! 4%nat = Some (Accepted 0 1 execute_request) ∧
  ∃ l0, Accepted 0 l0 select_request ∈ take 4 (history operated) ∧ confirmed_by DefaultParams (take 4 (history operated)) l0 select_request ActivationCon.
Proof.
  split; [vm_compute; reflexivity|].
  destruct (select_before_execute DefaultParams 64 DefaultFileOptions DefaultFileOptions operated 0 breaker select_request execute_request) as [_ H].
  - reflexivity.
  - apply operated_reached.
  - vm_compute. reflexivity.
  - vm_compute. reflexivity.
  - vm_compute. reflexivity.
  - apply (H (take 4 (history operated)) 1%nat (drop 5 (history operated))). vm_compute. reflexivity.
Defined.

Lemma helper_success_confirmed_witness : ∃ req termination l, demanded (SelectExecute breaker) = Some (req, termination) ∧
  Accepted 0 l req ∈ history operated ∧ confirmed_by DefaultParams (history operated) l req ActivationCon ∧
  (termination = true → confirmed_by DefaultParams (history operated) l req ActivationTerm).
Proof.
  apply (helper_success_confirmed DefaultParams 64 DefaultFileOptions DefaultFileOptions operated 0 (SelectExecute breaker)
    (match threads operated !! 0%nat with Some (TDone msgs _ _ _) => msgs | _ => [] end) true
    (match threads operated !! 0%nat with Some th => waits_in th | None => None end)).
  - reflexivity.
  - apply operated_reached.
  - vm_compute. reflexivity.
  - vm_compute. reflexivity.
Defined.

Lemma procedures_exclusive_witness : ∃ x, perform DefaultParams 64 DefaultFileOptions (ACall (SelectExecute breaker) None) operated = Ok x.
Proof.
  apply (procedures_exclusive DefaultParams 64 DefaultFileOptions DefaultFileOptions operated eq_refl operated_reached). exact I.
Defined.

(** After the abandoned selection a second call is refused. *)
Lemma uncertain_outcome_fences_witness :
  admissions (runs DefaultParams 64 DefaultFileOptions [ACall (Interrogate 12 0 20) None; ASend 1 None; AAdmit 1 None] abandoned) = admissions abandoned ∧
  length (admissions abandoned) = 1%nat.
Proof.
  split; [|vm_compute; reflexivity].
  apply (uncertain_outcome_fences DefaultParams 64 DefaultFileOptions DefaultFileOptions abandoned _ 0
    [] DeadlineExceeded (Await false false select_request (Some execute_request))).
  - reflexivity.
  - apply abandoned_reached.
  - vm_compute. reflexivity.
  - left. by right; left.
  - apply runs_steps. repeat constructor.
Defined.
