(* ===== verification/FieldDevice.v ===== *)
(** * Field devices (services/devices/fielddevice)

    The model of a breaker, a ring main unit or a tap changer: its truth,
    measurements, protection and audit log, and every operation that runs
    under the model's lock.  An operation is a function in the state monad of
    [GoLib]; a nil pointer dereference is a panic.  [clock] is the sequence of
    readings of the injected clock, in the order the operations take them, and
    is not restricted; [wall] is the reading of [time.Now] used for audit
    entries without a time.  [AfterFunc] callbacks are recorded in [timers] by
    the token they captured; the runtime may run any of them at any time, so
    a stopped timer whose callback already waits for the lock is included.
    Values reached through pointers are never changed after they are stored,
    so pointers are options and the copies the source makes are the identity. *)
From S2P Require Import Prelude GoLib.
From Stdlib Require Import SpecFloat.

#[local] Open Scope string_scope.
#[local] Open Scope Z_scope.

(** ** Data *)
Definition MeasurementValidity : Z := 3 * 1000 * millisecond.
Definition MotionDuration : Z := 2 * 1000 * millisecond.
Definition AuditCapacity : nat := 500.

(** The other constructors stand for the remaining values of the string types. *)
Inductive Kind : Type := Breaker | RMU | OLTC | OtherKind (s : string).
Inductive Position : Type := PositionOpen | PositionClosed | OtherPosition (s : string).

#[export] Instance Kind_eq_dec : EqDecision Kind.
Proof. solve_decision. Defined.
#[export] Instance Position_eq_dec : EqDecision Position.
Proof. solve_decision. Defined.

Record AuditContext : Type := mkContext { Peer : string; Protocol : string; Zone : string }.

Inductive RequestResult : Type :=
| RequestNone | RequestAccepted | RequestNotRemote | RequestNotAuto | RequestMoving
| RequestNotAdjacent | RequestLimit | RequestBlocked | RequestUnarmed | RequestNotEnergized.

#[export] Instance RequestResult_eq_dec : EqDecision RequestResult.
Proof. solve_decision. Defined.

Definition RequestResult_String (r : RequestResult) : string :=
  match r with
  | RequestNone => "none" | RequestAccepted => "accepted" | RequestNotRemote => "not_remote"
  | RequestNotAuto => "not_auto" | RequestMoving => "moving"
  | RequestNotAdjacent => "not_adjacent" | RequestLimit => "limit"
  | RequestBlocked => "blocked" | RequestUnarmed => "unarmed"
  | RequestNotEnergized => "not_energized"
  end.

(** [set_f x r]: the record [r] after the assignment [r.f = x]. *)
Ltac assign eta proj x r :=
  let e := eval cbv delta [eta] beta in (eta r) in
  match e with context C [proj r] => let e' := context C [x] in exact e' end.

Record Truth : Type := mkTruth {
  Schema : Z;
  DeviceID : string;
  TKind : Kind;
  Generation : Z;
  Revision : Z;
  EventSeq : Z;
  ChangedAt : Z;
  RemoteEnabled : bool;
  TPosition : Position;
  Lockout : bool;
  ProtectionTripped : bool;
  EarthClosed : bool;
  FaultPassage : bool;
  Tap : Z;
  TargetTap : Z;
  Moving : bool;
  Auto : bool;
  Blocked : bool;
  Armed : bool
}.

Definition Truth_eta (t : Truth) : Truth :=
  mkTruth (Schema t) (DeviceID t) (TKind t) (Generation t) (Revision t) (EventSeq t) (ChangedAt t) (RemoteEnabled t) (TPosition t) (Lockout t) (ProtectionTripped t) (EarthClosed t) (FaultPassage t) (Tap t) (TargetTap t) (Moving t) (Auto t) (Blocked t) (Armed t).

Definition set_Revision (x : Z) (t : Truth) : Truth := ltac:(assign Truth_eta Revision x t).
Definition set_EventSeq (x : Z) (t : Truth) : Truth := ltac:(assign Truth_eta EventSeq x t).
Definition set_ChangedAt (x : Z) (t : Truth) : Truth := ltac:(assign Truth_eta ChangedAt x t).
Definition set_RemoteEnabled (x : bool) (t : Truth) : Truth := ltac:(assign Truth_eta RemoteEnabled x t).
Definition set_TPosition (x : Position) (t : Truth) : Truth := ltac:(assign Truth_eta TPosition x t).
Definition set_Lockout (x : bool) (t : Truth) : Truth := ltac:(assign Truth_eta Lockout x t).
Definition set_ProtectionTripped (x : bool) (t : Truth) : Truth := ltac:(assign Truth_eta ProtectionTripped x t).
Definition set_EarthClosed (x : bool) (t : Truth) : Truth := ltac:(assign Truth_eta EarthClosed x t).
Definition set_FaultPassage (x : bool) (t : Truth) : Truth := ltac:(assign Truth_eta FaultPassage x t).
Definition set_Tap (x : Z) (t : Truth) : Truth := ltac:(assign Truth_eta Tap x t).
Definition set_TargetTap (x : Z) (t : Truth) : Truth := ltac:(assign Truth_eta TargetTap x t).
Definition set_Moving (x : bool) (t : Truth) : Truth := ltac:(assign Truth_eta Moving x t).
Definition set_Auto (x : bool) (t : Truth) : Truth := ltac:(assign Truth_eta Auto x t).
Definition set_Blocked (x : bool) (t : Truth) : Truth := ltac:(assign Truth_eta Blocked x t).
Definition set_Armed (x : bool) (t : Truth) : Truth := ltac:(assign Truth_eta Armed x t).
#[export] Instance Truth_eq_dec : EqDecision Truth.
Proof. solve_decision. Defined.

Record Measurements : Type := mkMeasurements {
  Valid : bool;
  CurrentA : option float64;
  VoltageKV : option float64;
  SourceKV : option float64;
  SectionLive : option bool;
  SourceLive : option bool;
  PMW : option float64;
  QMvar : option float64;
  PF : option float64;
  SolverEpoch : option string;
  SolveSeq : option Z;
  SolvedAt : option Z;
  ReceivedAt : option Z
}.

Definition Measurements_eta (m : Measurements) : Measurements :=
  mkMeasurements (Valid m) (CurrentA m) (VoltageKV m) (SourceKV m) (SectionLive m) (SourceLive m) (PMW m) (QMvar m) (PF m) (SolverEpoch m) (SolveSeq m) (SolvedAt m) (ReceivedAt m).

Definition set_Valid (x : bool) (m : Measurements) : Measurements := ltac:(assign Measurements_eta Valid x m).
Definition set_PMW (x : option float64) (m : Measurements) : Measurements := ltac:(assign Measurements_eta PMW x m).
Definition set_QMvar (x : option float64) (m : Measurements) : Measurements := ltac:(assign Measurements_eta QMvar x m).
Definition set_PF (x : option float64) (m : Measurements) : Measurements := ltac:(assign Measurements_eta PF x m).

Record Protection : Type := mkProtection {
  Function_ : string;
  PickupA : float64;
  DelayMS : Z;
  InstantaneousA : option float64;
  PickedUp : bool;
  PickedUpSince : option Z;
  LastTripCurrentA : option float64
}.

Definition Protection_eta (p : Protection) : Protection :=
  mkProtection (Function_ p) (PickupA p) (DelayMS p) (InstantaneousA p) (PickedUp p) (PickedUpSince p) (LastTripCurrentA p).

Definition set_PickedUp (x : bool) (p : Protection) : Protection := ltac:(assign Protection_eta PickedUp x p).
Definition set_PickedUpSince (x : option Z) (p : Protection) : Protection := ltac:(assign Protection_eta PickedUpSince x p).
Definition set_LastTripCurrentA (x : option float64) (p : Protection) : Protection := ltac:(assign Protection_eta LastTripCurrentA x p).

Record ProtectionSettings : Type := mkSettings {
  sPickupA : float64;
  sDelayMS : Z;
  sInstantaneousA : option float64;
  sMaxGapMS : Z
}.

Record Snapshot : Type := mkSnapshot {
  STruth : Truth;
  SProtection : Protection;
  SMeasurements : Measurements;
  PLCRequestResult : RequestResult;
  Heartbeat : Z;
  LastRequest : Z
}.

(** The values the source stores in the [any] of an entry's detail. *)
Inductive Detail : Type :=
| DString (s : string)
| DFirstSolve (revision : Z) (epoch : string) (seq solved : Z) (current : float64)
| DCurrent (current : float64).

Record AuditEntry : Type := mkEntry {
  Seq : Z;
  At : Z;
  Operation : string;
  Result : string;
  EDetail : Detail;
  Before : Snapshot;
  After : Snapshot;
  EContext : AuditContext
}.

Record AuditLog : Type := mkAuditLog { entries : list AuditEntry; nextSeq : Z; capacity : nat }.

(** The fields of the model; [ticks] counts the clock readings taken. *)
Record Model : Type := mkModel {
  protection : Protection;
  maxGap : Z;
  protectionGeneration : Z;
  truth : Truth;
  normal : Position;
  measurements : Measurements;
  receivedMono : Z;
  hasSolve : bool;
  firstSolveRevision : Z;
  started : Z;
  motion : option Z;
  motionToken : Z;
  lastRequest : Z;
  requestResult : RequestResult;
  lastIgnored : RequestResult;
  localContext : AuditContext;
  processContext : AuditContext;
  audit : AuditLog;
  ticks : nat;
  timers : list Z
}.

Definition Model_eta (m : Model) : Model :=
  mkModel (protection m) (maxGap m) (protectionGeneration m) (truth m) (normal m) (measurements m) (receivedMono m) (hasSolve m) (firstSolveRevision m) (started m) (motion m) (motionToken m) (lastRequest m) (requestResult m) (lastIgnored m) (localContext m) (processContext m) (audit m) (ticks m) (timers m).

Definition set_protection (x : Protection) (m : Model) : Model := ltac:(assign Model_eta protection x m).
Definition set_protectionGeneration (x : Z) (m : Model) : Model := ltac:(assign Model_eta protectionGeneration x m).
Definition set_truth (x : Truth) (m : Model) : Model := ltac:(assign Model_eta truth x m).
Definition set_measurements (x : Measurements) (m : Model) : Model := ltac:(assign Model_eta measurements x m).
Definition set_receivedMono (x : Z) (m : Model) : Model := ltac:(assign Model_eta receivedMono x m).
Definition set_hasSolve (x : bool) (m : Model) : Model := ltac:(assign Model_eta hasSolve x m).
Definition set_firstSolveRevision (x : Z) (m : Model) : Model := ltac:(assign Model_eta firstSolveRevision x m).
Definition set_motion (x : option Z) (m : Model) : Model := ltac:(assign Model_eta motion x m).
Definition set_motionToken (x : Z) (m : Model) : Model := ltac:(assign Model_eta motionToken x m).
Definition set_lastRequest (x : Z) (m : Model) : Model := ltac:(assign Model_eta lastRequest x m).
Definition set_requestResult (x : RequestResult) (m : Model) : Model := ltac:(assign Model_eta requestResult x m).
Definition set_lastIgnored (x : RequestResult) (m : Model) : Model := ltac:(assign Model_eta lastIgnored x m).
Definition set_audit (x : AuditLog) (m : Model) : Model := ltac:(assign Model_eta audit x m).
Definition set_ticks (x : nat) (m : Model) : Model := ltac:(assign Model_eta ticks x m).
Definition set_timers (x : list Z) (m : Model) : Model := ltac:(assign Model_eta timers x m).

Record CommandResult : Type := mkResult {
  Accepted : bool;
  Changed : bool;
  Reason : string;
  Exception : Z
}.

Record MeasurementInput : Type := mkInput {
  iSchema : Z;
  iDeviceID : string;
  iGeneration : Z;
  iRevision : Z;
  iSolverEpoch : string;
  iSolveSeq : Z;
  iSolvedAt : string;
  iCurrentA : float64;
  iVoltageKV : float64;
  iSourceKV : float64;
  iSectionLive : bool;
  iSourceLive : bool;
  iPMW : float64;
  iQMvar : float64
}.

Record Config : Type := mkConfig {
  cProtection : option ProtectionSettings;
  cKind : Kind;
  cDeviceID : string;
  cRMUNormal : Position;
  cGeneration : Z;
  cLocalContext : AuditContext;
  cProcessContext : AuditContext
}.

(** ** The audit log *)
Definition NewAuditLog (capacity : nat) : AuditLog :=
  mkAuditLog [] 0 (if (capacity <? 1)%nat then 1%nat else capacity).

Definition AuditLog_Add (wall : Z) (a : AuditLog) (e : AuditEntry) : AuditLog :=
  let seq := u64 (nextSeq a + 1) in
  let at_ := if At e =? zero_time then wall else At e in
  let e := mkEntry seq at_ (Operation e) (Result e) (EDetail e) (Before e) (After e) (EContext e) in
  let es := (entries a ++ [e])%list in
  mkAuditLog (if (capacity a <? length es)%nat then drop (length es - capacity a) es else es)
             seq (capacity a).

(** The entries after a sequence number, the latest and the oldest one. *)
Definition AuditLog_After (a : AuditLog) (after : Z) : list AuditEntry * option Z * option Z :=
  match entries a with
  | [] => ([], None, None)
  | e :: _ =>
      (filter (λ e, after < Seq e) (entries a), Seq <$> last (entries a), Some (Seq e))
  end.

(** ** Settings *)
Definition finiteSetting (v : float64) : bool := negb (IsNaN v) && negb (IsInf v).

Definition fzero : float64 := S754_zero false.

Definition DefaultProtection (kind : Kind) : ProtectionSettings :=
  match kind with
  | Breaker => mkSettings (f64_of 400 0) 1000 (Some (f64_of 2000 0)) 2500
  | RMU => mkSettings (f64_of 300 0) 0 None 2500
  | OLTC => mkSettings (f64_of 866 0) 0 None 2500
  | OtherKind _ => mkSettings fzero 0 None 2500
  end.

Definition maxDurationMS : Z := maxDuration / millisecond.

Definition settings_invalid (s : ProtectionSettings) : bool :=
  (maxDurationMS <? sDelayMS s) || (maxDurationMS <? sMaxGapMS s) ||
  negb (finiteSetting (sPickupA s)) || SFleb (sPickupA s) fzero ||
  (sDelayMS s <? 0) || (sMaxGapMS s <=? 0) ||
  match sInstantaneousA s with
  | Some i => negb (finiteSetting i) || SFltb i (sPickupA s)
  | None => false
  end.

(** The checks of [NewModel] on the kind, the identity and the position. *)
Definition config_error (cfg : Config) : option string :=
  match cKind cfg with
  | Breaker =>
      if negb (cDeviceID cfg =? "feeder-breaker")%string && negb (cDeviceID cfg =? "f2-breaker")%string
      then Some "breaker DEVICE_ID must be feeder-breaker or f2-breaker" else None
  | RMU =>
      if negb (cDeviceID cfg =? "rmu-1")%string && negb (cDeviceID cfg =? "rmu-2")%string
      then Some "RMU DEVICE_ID must be rmu-1 or rmu-2"
      else match cRMUNormal cfg with
           | PositionOpen | PositionClosed => None
           | OtherPosition _ => Some "DEVICE_RMU_NORMAL must be closed or open"
           end
  | OLTC => if negb (cDeviceID cfg =? "oltc-1")%string then Some "OLTC DEVICE_ID must be oltc-1" else None
  | OtherKind _ => Some "DEVICE_KIND must be breaker, rmu or oltc"
  end.

Definition function_name (k : Kind) : string :=
  match k with
  | Breaker => "overcurrent" | RMU => "fpi" | OLTC => "oltc_block" | OtherKind _ => ""
  end.

Definition no_measurements : Measurements :=
  mkMeasurements false None None None None None None None None None None None None.

Definition initialLocked (m : Model) : Model :=
  let m := set_truth (set_RemoteEnabled true (truth m)) m in
  let t := truth m in
  match TKind t with
  | Breaker =>
      set_truth (set_ProtectionTripped false (set_Lockout false (set_TPosition PositionClosed t))) m
  | RMU =>
      set_truth (set_FaultPassage false (set_EarthClosed false (set_TPosition (normal m) t))) m
  | OLTC =>
      let t := set_Armed false (set_Blocked false (set_Auto true (set_Moving false
                 (set_TargetTap 0 (set_Tap 0 t))))) in
      set_lastIgnored RequestNone (set_requestResult RequestNone (set_lastRequest 0 (set_truth t m)))
  | OtherKind _ => m
  end.

Section Device.
Context (clock : nat → Z) (wall : Z).

Definition NewModel (cfg : Config) : Model + string :=
  match config_error cfg with
  | Some e => inr e
  | None =>
      let local := if (Protocol (cLocalContext cfg) =? "")%string
                   then mkContext "protection" "local-protection" "field" else cLocalContext cfg in
      let process := if (Protocol (cProcessContext cfg) =? "")%string
                     then mkContext "measurement-validity" "process" "process" else cProcessContext cfg in
      let settings := match cProtection cfg with
                      | Some s => s
                      | None => DefaultProtection (cKind cfg)
                      end in
      if settings_invalid settings then inr "invalid protection settings"
      else
        let now := clock 0%nat in
        let t := mkTruth 3 (cDeviceID cfg) (cKind cfg) (cGeneration cfg) 1 0 now true
                   (OtherPosition "") false false false false 0 0 false false false false in
        let p := mkProtection (function_name (cKind cfg)) (sPickupA settings) (sDelayMS settings)
                   (sInstantaneousA settings) false None None in
        inl (initialLocked
          (mkModel p (sMaxGapMS settings * millisecond) (cGeneration cfg) t (cRMUNormal cfg)
             no_measurements zero_time false 0 now None 0 0 RequestNone RequestNone
             local process (NewAuditLog AuditCapacity) 1 []))
  end.

Definition D (A : Type) : Type := stM Model Empty_set A.

(** [m.clock.Now()]. *)
Definition Now : D Z := λ m, (Ok (clock (ticks m)), set_ticks (S (ticks m)) m).

(** [m.truth.f = x] and the like. *)
Definition upd_truth (f : Truth → Truth) : D unit := st_upd (λ m, set_truth (f (truth m)) m).
Definition upd_protection (f : Protection → Protection) : D unit :=
  st_upd (λ m, set_protection (f (protection m)) m).

(** ** Snapshots and the audit trail *)
Definition snapshotLocked : D Snapshot :=
  let? m := st_get in
  let? now := Now in
  let ms := measurements m in
  let ms := if Valid ms then ms else set_PF None (set_QMvar None (set_PMW None ms)) in
  st_ret (mkSnapshot (truth m) (protection m) ms (requestResult m)
            (u16 (Z.quot (time_Sub now (started m)) (250 * millisecond))) (lastRequest m)).

Definition changedLocked : D unit :=
  do? upd_truth (λ t, set_EventSeq (u64 (EventSeq t + 1)) (set_Revision (u64 (Revision t + 1)) t)) in
  let? now := Now in
  do? upd_truth (set_ChangedAt now) in
  st_upd (λ m, set_measurements (set_Valid false (measurements m)) m).

Definition recordLocked (operation result : string) (detail : Detail) (before : Snapshot)
    (actor : AuditContext) : D unit :=
  let? at_ := Now in
  let? after := snapshotLocked in
  st_upd (λ m, set_audit (AuditLog_Add wall (audit m)
                            (mkEntry 0 at_ operation result detail before after actor)) m).

Definition resetPickupLocked : D unit :=
  upd_protection (λ p, set_PickedUpSince None (set_PickedUp false p)).

Definition is_nil {A} (x : option A) : bool := match x with None => true | Some _ => false end.

Definition expireLocked (now : Z) : D unit :=
  let? m := st_get in
  if negb (hasSolve m) ||
     (negb (Valid (measurements m)) && is_nil (PickedUpSince (protection m))) ||
     (time_Sub now (receivedMono m) <? MeasurementValidity)
  then st_ret tt
  else
    let? before := snapshotLocked in
    do? st_upd (λ m, set_measurements (set_Valid false (measurements m)) m) in
    do? resetPickupLocked in
    recordLocked "measurements_invalid" "accepted" (DString "validity_expired") before
      (processContext m).

(** [Model.Snapshot]. *)
Definition Model_Snapshot : D Snapshot :=
  let? now := Now in
  do? expireLocked now in
  snapshotLocked.

Definition MeasurementStatus : D (bool * option Z) :=
  let? now := Now in
  do? expireLocked now in
  let? m := st_get in
  if negb (hasSolve m) then st_ret (false, None)
  else st_ret (Valid (measurements m),
               Some (Z.max 0 (Z.quot (time_Sub now (receivedMono m)) millisecond))).

(** ** Lab actions *)
Inductive ActionErr : Type :=
| ActionContext (e : string)
| ActionError (reason : string).

(** The switch over the kind and the action: the reason of a rejection, or
    [None] after the assignments. *)
Definition action_effect (action : string) : D (option string) :=
  let? m := st_get in
  let accept := λ f, do? upd_truth f in st_ret None in
  let reject := λ reason : string, st_ret (Some reason) in
  match TKind (truth m) with
  | Breaker =>
      if negb (action =? "reset_lockout")%string then reject "unknown_action"
      else accept (λ t, set_ProtectionTripped false (set_Lockout false (set_TPosition PositionOpen t)))
  | RMU =>
      if (action =? "set_local")%string then accept (set_RemoteEnabled false)
      else if (action =? "set_remote")%string then accept (set_RemoteEnabled true)
      else if (action =? "earth_close")%string then
        if negb (bool_decide (TPosition (truth m) = PositionOpen)) then reject "way_closed"
        else if negb (Valid (measurements m)) then reject "no_measurement"
        else
          let? live := deref (SectionLive (measurements m)) in
          if live : bool then reject "section_live" else accept (set_EarthClosed true)
      else if (action =? "earth_open")%string then accept (set_EarthClosed false)
      else if (action =? "reset_fault_passage")%string then accept (set_FaultPassage false)
      else reject "unknown_action"
  | OLTC =>
      if (action =? "set_local")%string then accept (λ t, set_Armed false (set_RemoteEnabled false t))
      else if (action =? "set_remote")%string then
        accept (λ t, set_RemoteEnabled true
                       (if negb (RemoteEnabled t) && Auto t then set_Armed false t else t))
      else if (action =? "block")%string then accept (set_Blocked true)
      else if (action =? "unblock")%string then accept (set_Blocked false)
      else reject "unknown_action"
  | OtherKind _ => st_ret None
  end.

Definition Action (ctxErr : option string) (action : string) (actor : AuditContext)
    : D (Snapshot * option ActionErr) :=
  match ctxErr with
  | Some e => let? s := Model_Snapshot in st_ret (s, Some (ActionContext e))
  | None =>
      let? now := Now in
      do? expireLocked now in
      let? before := snapshotLocked in
      let? rejected :=
        (if (action =? "reset")%string then
           do? st_upd (λ m, set_motion None (set_motionToken (u64 (motionToken m + 1)) m)) in
           do? resetPickupLocked in
           do? upd_protection (set_LastTripCurrentA None) in
           do? st_upd initialLocked in
           st_ret None
         else action_effect action) in
      match rejected with
      | Some reason =>
          do? recordLocked action "rejected" (DString reason) before actor in
          let? s := snapshotLocked in
          st_ret (s, Some (ActionError reason))
      | None =>
          let? m := st_get in
          let changed := (action =? "reset")%string || negb (bool_decide (truth m = STruth before)) in
          do? st_when changed changedLocked in
          do? recordLocked action "accepted" (DString (if changed then "" else "no_op")) before actor in
          let? s := snapshotLocked in
          st_ret (s, None)
      end
  end.

(** ** Measurements *)
Inductive MeasurementErr : Type :=
| MeasurementContext (e : string)
| MeasurementStaleTruth
| MeasurementReplay
| MeasurementInvalid.

Definition MeasurementErr_String (e : MeasurementErr) : string :=
  match e with
  | MeasurementContext e => e
  | MeasurementStaleTruth => "stale_truth"
  | MeasurementReplay => "replay"
  | MeasurementInvalid => "invalid"
  end.

Definition char_at (s : string) (i : nat) (c : ascii) : bool :=
  match String.get i s with Some d => Ascii.eqb d c | None => false end.

Definition magnitude_invalid (v : float64) : bool :=
  IsNaN v || IsInf v || SFltb v fzero || SFltb MaxFloat32 v.

Definition flow_invalid (v : float64) : bool :=
  negb (finiteSetting v) || SFltb MaxFloat32 (SFabs v).

(** The solve time, or [None] for [MeasurementInvalid]. *)
Definition validMeasurement (input : MeasurementInput) : option Z :=
  let s := iSolvedAt input in
  if negb (iSchema input =? 3) || (iDeviceID input =? "")%string ||
     (iSolverEpoch input =? "")%string || (iSolveSeq input =? 0)
  then None
  else if existsb magnitude_invalid [iCurrentA input; iVoltageKV input; iSourceKV input] then None
  else if existsb flow_invalid [iPMW input; iQMvar input] then None
  else match parse_RFC3339 s with
       | None => None
       | Some solved =>
           if negb (char_at s (String.length s - 1) "Z") || (String.length s <? 20)%nat ||
              (40 <? String.length s)%nat || negb (char_at s 10 "T") || negb (char_at s 13 ":") ||
              negb (char_at s 16 ":") ||
              existsb (λ c, Ascii.eqb c ",") (String.list_ascii_of_string s)
           then None else Some solved
       end.

(** [0.001]. *)
Definition milli : float64 := S754_finite false 4611686018427388 (-62).

Definition power_factor (p q : float64) : option float64 :=
  let apparent := Hypot p q in
  if SFleb milli apparent then Some (fdiv (SFabs p) apparent) else None.

(** [t.After(u)]. *)
Definition time_After (t u : Z) : bool := u <? t.

(** The protection effect on the truth. *)
Definition protection_effect (input : MeasurementInput) : D unit :=
  let? beforeEffect := snapshotLocked in
  let? m := st_get in
  match TKind (truth m) with
  | Breaker =>
      st_when (bool_decide (TPosition (truth m) = PositionClosed))
        (do? upd_protection (set_LastTripCurrentA (Some (iCurrentA input))) in
         do? upd_truth (λ t, set_ProtectionTripped true (set_Lockout true (set_TPosition PositionOpen t))) in
         do? changedLocked in
         recordLocked "local_protection_trip" "accepted" (DCurrent (iCurrentA input)) beforeEffect
           (localContext m))
  | RMU =>
      st_when (negb (FaultPassage (truth m)))
        (do? upd_truth (set_FaultPassage true) in
         do? changedLocked in
         recordLocked "fault_passage" "accepted" (DCurrent (iCurrentA input)) beforeEffect
           (localContext m))
  | _ => st_ret tt
  end.

(** The replay test against the stored solve. *)
Definition is_replay (input : MeasurementInput) (solved : Z) : D bool :=
  let? m := st_get in
  if negb (hasSolve m) then st_ret false
  else
    let? epoch := deref (SolverEpoch (measurements m)) in
    if negb (iSolverEpoch input =? epoch)%string then st_ret false
    else
      let? seq := deref (SolveSeq (measurements m)) in
      if iSolveSeq input <=? seq then st_ret true
      else
        let? prev := deref (SolvedAt (measurements m)) in
        st_ret (negb (time_After solved prev)).

(** Whether an accepted sample does not continue the pick-up period. *)
Definition pickup_gap (input : MeasurementInput) (solved : Z) : D bool :=
  let? m := st_get in
  if negb (hasSolve m) then st_ret false
  else
    let? epoch := deref (SolverEpoch (measurements m)) in
    if negb (iSolverEpoch input =? epoch)%string then st_ret true
    else if negb (iGeneration input =? protectionGeneration m) then st_ret true
    else
      let? prev := deref (SolvedAt (measurements m)) in
      st_ret (maxGap m <? time_Sub solved prev).

(** Whether the protection operates: at once above the instantaneous
    threshold, otherwise after the delay above the pick-up threshold. *)
Definition operates (input : MeasurementInput) (solved : Z) : D bool :=
  let? m := st_get in
  let p := protection m in
  let instantaneous := match InstantaneousA p with
                       | Some i => SFleb i (iCurrentA input)
                       | None => false
                       end in
  if instantaneous then st_ret true
  else if PickedUp p then
    let? since := deref (PickedUpSince p) in
    st_ret (DelayMS p * millisecond <=? time_Sub solved since)
  else st_ret false.

Definition accept_sample (input : MeasurementInput) (solved now : Z) (before : Snapshot)
    (actor : AuditContext) : D unit :=
  let? m := st_get in
  let becameValid := negb (Valid (measurements m)) in
  do? st_upd (set_measurements
        (mkMeasurements true (Some (iCurrentA input)) (Some (iVoltageKV input)) (Some (iSourceKV input))
           (Some (iSectionLive input)) (Some (iSourceLive input)) (Some (iPMW input))
           (Some (iQMvar input)) (power_factor (iPMW input) (iQMvar input))
           (Some (iSolverEpoch input)) (Some (iSolveSeq input)) (Some solved) (Some now))) in
  do? st_upd (λ m, set_receivedMono now (set_hasSolve true m)) in
  do? st_when (negb (firstSolveRevision m =? Revision (truth m)))
        (do? st_upd (set_firstSolveRevision (Revision (truth m))) in
         recordLocked "first_solve" "accepted"
           (DFirstSolve (iRevision input) (iSolverEpoch input) (iSolveSeq input) solved (iCurrentA input))
           before actor) in
  st_when becameValid (recordLocked "measurements_valid" "accepted" (DString "") before actor).

Definition pick_up (input : MeasurementInput) (solved : Z) : D unit :=
  do? upd_protection (λ p, set_PickedUp (SFleb (PickupA p) (iCurrentA input)) p) in
  let? m := st_get in
  if negb (PickedUp (protection m)) then resetPickupLocked
  else if is_nil (PickedUpSince (protection m))
       then upd_protection (set_PickedUpSince (Some solved))
       else st_ret tt.

Definition ApplyMeasurements (ctxErr : option string) (input : MeasurementInput)
    (actor : AuditContext) : D (Snapshot * option MeasurementErr) :=
  match ctxErr with
  | Some e => let? s := Model_Snapshot in st_ret (s, Some (MeasurementContext e))
  | None =>
      let? now := Now in
      let? before := snapshotLocked in
      let reject := λ reason,
        do? recordLocked "measurements" "rejected" (DString (MeasurementErr_String reason)) before actor in
        let? s := snapshotLocked in
        st_ret (s, Some reason) in
      let? m := st_get in
      match validMeasurement input with
      | None => reject MeasurementInvalid
      | Some solved =>
          if negb (iDeviceID input =? DeviceID (truth m))%string then reject MeasurementInvalid
          else if negb (iGeneration input =? Generation (truth m)) ||
                  negb (iRevision input =? Revision (truth m))
          then reject MeasurementStaleTruth
          else
            let? replay := is_replay input solved in
            if replay : bool then reject MeasurementReplay
            else
              do? expireLocked now in
              let? gap := pickup_gap input solved in
              do? st_when gap resetPickupLocked in
              do? st_upd (set_protectionGeneration (iGeneration input)) in
              do? accept_sample input solved now before actor in
              do? pick_up input solved in
              let? trip := operates input solved in
              do? st_when trip (protection_effect input) in
              let? s := snapshotLocked in
              st_ret (s, None)
      end
  end.

(** ** The tap changer *)
Definition energizedLocked : D bool :=
  let? m := st_get in
  if negb (Valid (measurements m)) then st_ret false else deref (SectionLive (measurements m)).

Definition startMotionLocked (target : Z) : D unit :=
  do? upd_truth (λ t, set_Moving true (set_TargetTap target t)) in
  do? changedLocked in
  st_upd (λ m, let token := u64 (motionToken m + 1) in
               set_timers (timers m ++ [token]) (set_motion (Some token) (set_motionToken token m))).

(** The callback of [startMotionLocked], with the token it captured. *)
Definition motionDone (token : Z) : D unit :=
  let? m := st_get in
  if negb (token =? motionToken m) || negb (Moving (truth m)) then st_ret tt
  else
    let? now := Now in
    do? expireLocked now in
    let? before := snapshotLocked in
    do? upd_truth (λ t, set_Moving false (set_Tap (TargetTap t) t)) in
    do? st_upd (set_motion None) in
    do? changedLocked in
    recordLocked "motion_complete" "accepted" (DString "") before
      (mkContext "actuator" "local" (Zone (localContext m))).

(** The switch of [plcRequestLocked] over the reasons to ignore a request. *)
Definition plc_verdict (target : Z) : D RequestResult :=
  let? m := st_get in
  let t := truth m in
  if negb (RemoteEnabled t) then st_ret RequestNotRemote
  else if negb (Auto t) then st_ret RequestNotAuto
  else if Moving t then st_ret RequestMoving
  else if Blocked t || PickedUp (protection m) then st_ret RequestBlocked
  else if negb (Armed t) then st_ret RequestUnarmed
  else
    let? energized := energizedLocked in
    if negb energized then st_ret RequestNotEnergized
    else if negb (i16 (target - Tap t) =? 1) && negb (i16 (target - Tap t) =? -1)
    then st_ret RequestNotAdjacent
    else st_ret RequestAccepted.

Definition plcRequestLocked (value : Z) (actor : AuditContext) (before : Snapshot)
    : D CommandResult :=
  do? st_upd (set_lastRequest value) in
  if value =? 0 then
    do? st_upd (set_requestResult RequestNone) in
    let? m := st_get in
    do? st_when (RemoteEnabled (truth m) && Auto (truth m) && negb (Armed (truth m)))
          (do? upd_truth (set_Armed true) in
           do? changedLocked in
           recordLocked "plc_arm" "accepted" (DString "") before actor) in
    let? m := st_get in
    st_ret (mkResult true (negb (Revision (truth m) =? Revision (STruth before))) "" 0)
  else
    let target := i16 (i16 value - 100) in
    let? m := st_get in
    let t := truth m in
    if (target =? Tap t) || (Moving t && (target =? TargetTap t)) then
      do? st_upd (set_requestResult RequestNone) in
      st_ret (mkResult true false "" 0)
    else
      let? result := plc_verdict target in
      do? st_upd (set_requestResult result) in
      if negb (bool_decide (result = RequestAccepted)) then
        do? st_when (negb (bool_decide (result = lastIgnored m)))
              (recordLocked "plc_request" "ignored" (DString (RequestResult_String result)) before actor) in
        do? st_upd (set_lastIgnored result) in
        st_ret (mkResult true false (RequestResult_String result) 0)
      else
        do? st_upd (set_lastIgnored RequestNone) in
        do? startMotionLocked target in
        do? recordLocked "plc_request" "accepted" (DString "") before actor in
        st_ret (mkResult true true "" 0).

(** [reject := func(reason string) CommandResult] of the write handlers. *)
Definition reject_write (operation reason : string) (before : Snapshot) (actor : AuditContext)
    : D CommandResult :=
  do? recordLocked operation "rejected" (DString reason) before actor in
  st_ret (mkResult false false reason 0).

Definition writeMode (value : Z) (actor : AuditContext) (before : Snapshot) : D CommandResult :=
  let? m := st_get in
  let auto := value =? 2 in
  if Bool.eqb (Auto (truth m)) auto then
    do? recordLocked "mode" "accepted" (DString "no_op") before actor in
    st_ret (mkResult true false "" 0)
  else
    do? upd_truth (λ t, let t := set_Auto auto t in if auto then set_Armed false t else t) in
    do? changedLocked in
    do? recordLocked "mode" "accepted" (DString "") before actor in
    st_ret (mkResult true true "" 0).

Definition manualStep (value : Z) (actor : AuditContext) (before : Snapshot) : D CommandResult :=
  let? m := st_get in
  let t := truth m in
  let reject := λ reason, reject_write "manual_step" reason before actor in
  if Auto t then reject "not_manual"
  else if Moving t then reject "moving"
  else if Blocked t || PickedUp (protection m) then reject "blocked"
  else
    let? energized := energizedLocked in
    if negb energized then reject "not_energized"
    else
      let target := if value =? 2 then i16 (Tap t + 1) else i16 (Tap t - 1) in
      if (target <? -8) || (8 <? target) then reject "limit"
      else
        do? startMotionLocked target in
        do? recordLocked "manual_step" "accepted" (DString "") before actor in
        st_ret (mkResult true true "" 0).

Definition writeOLTCLocked (address value : Z) (actor : AuditContext) (before : Snapshot)
    : D CommandResult :=
  if 2 <? address then st_ret (mkResult false false "invalid_address" 2)
  else if address =? 1 then
    if negb (value =? 0) && ((value <? 92) || (108 <? value))
    then st_ret (mkResult false false "invalid_value" 3)
    else plcRequestLocked value actor before
  else if negb (value =? 1) && negb (value =? 2) then st_ret (mkResult false false "invalid_value" 3)
  else
    let operation := if address =? 2 then "mode" else "manual_step" in
    let? m := st_get in
    if negb (RemoteEnabled (truth m)) then reject_write operation "not_remote" before actor
    else if address =? 2 then writeMode value actor before
    else manualStep value actor before.

(** ** Switches *)

(** The reason for which a switch refuses to close or to open. *)
Definition close_refusal : D (option string) :=
  let? m := st_get in
  let t := truth m in
  if bool_decide (TKind t = Breaker) && Lockout t then st_ret (Some "lockout")
  else if PickedUp (protection m) then st_ret (Some "picked_up")
  else if bool_decide (TKind t = RMU) && EarthClosed t then st_ret (Some "earth_closed")
  else if negb (Valid (measurements m)) then st_ret (Some "no_measurement")
  else
    let? source := deref (SourceLive (measurements m)) in
    if negb source then st_ret None
    else
      let? section := deref (SectionLive (measurements m)) in
      if section : bool then st_ret (Some "live_live") else st_ret None.

Definition open_refusal : D (option string) :=
  let? m := st_get in
  if bool_decide (TKind (truth m) = RMU) then
    if negb (Valid (measurements m)) then st_ret (Some "no_measurement")
    else if PickedUp (protection m) then st_ret (Some "picked_up")
    else st_ret None
  else st_ret None.

Definition writeSwitch (address value : Z) (actor : AuditContext) (before : Snapshot)
    : D CommandResult :=
  if negb (address =? 0) then st_ret (mkResult false false "invalid_address" 2)
  else if negb (value =? 1) && negb (value =? 2) then st_ret (mkResult false false "invalid_value" 3)
  else
    let operation := if value =? 2 then "close" else "open" in
    let target := if value =? 2 then PositionClosed else PositionOpen in
    let? m := st_get in
    if negb (RemoteEnabled (truth m)) then reject_write operation "not_remote" before actor
    else
      let? refusal := (if value =? 2 then close_refusal else open_refusal) in
      match refusal with
      | Some reason => reject_write operation reason before actor
      | None =>
          if bool_decide (TPosition (truth m) = target) then
            do? recordLocked operation "accepted" (DString "no_op") before actor in
            st_ret (mkResult true false "" 0)
          else
            do? upd_truth (set_TPosition target) in
            do? changedLocked in
            do? recordLocked operation "accepted" (DString "") before actor in
            st_ret (mkResult true true "" 0)
      end.

Definition WriteHolding (ctxErr : option string) (address value : Z) (actor : AuditContext)
    : D CommandResult :=
  match ctxErr with
  | Some e => st_ret (mkResult false false e 0)
  | None =>
      let? now := Now in
      do? expireLocked now in
      let? before := snapshotLocked in
      let? m := st_get in
      if bool_decide (TKind (truth m) = OLTC) then writeOLTCLocked address value actor before
      else writeSwitch address value actor before
  end.

(** ** Steps

    The operations callers and the runtime perform, in any order. *)
Inductive step : Model → Model → Prop :=
| step_Snapshot m r m' : Model_Snapshot m = (r, m') → step m m'
| step_Status m r m' : MeasurementStatus m = (r, m') → step m m'
| step_Action ctxErr action actor m r m' : Action ctxErr action actor m = (r, m') → step m m'
| step_Measurements ctxErr input actor m r m' :
    ApplyMeasurements ctxErr input actor m = (r, m') → step m m'
| step_Write ctxErr address value actor m r m' :
    0 ≤ address < 65536 → 0 ≤ value < 65536 →
    WriteHolding ctxErr address value actor m = (r, m') → step m m'
| step_motion token m r m' :
    token ∈ timers m → motionDone token m = (r, m') → step m m'.

Definition reachable (cfg : Config) (m : Model) : Prop :=
  ∃ m0, NewModel cfg = inl m0 ∧ star step m0 m.

End Device.
