(* ===== verification/FieldDeviceInv.v ===== *)
(** * Properties of the field devices

    The interlock invariant and its preservation by every operation, the
    conditions under which switches and taps move and protection trips, and
    the completeness of the audit trail. *)
From S2P Require Import Prelude GoLib FieldDevice.
From Stdlib Require Import SpecFloat.

#[local] Open Scope string_scope.
#[local] Open Scope Z_scope.

(** ** The audit log *)

(** At most 500 entries, numbered consecutively up to [nextSeq]. *)
Definition audit_ok (a : AuditLog) : Prop :=
  capacity a = AuditCapacity ∧ (length (entries a) ≤ capacity a)%nat ∧
  ∀ i e, entries a !! i = Some e →
         Seq e = u64 (nextSeq a - (zlen (entries a) - 1 - Z.of_nat i)).

(** The newest entry reports the transition from [before] to the truth [t]. *)
Definition recorded (a : AuditLog) (before : Snapshot) (t : Truth) : Prop :=
  ∃ e, last (entries a) = Some e ∧ Before e = before ∧ STruth (After e) = t.

Lemma AuditLog_Add_ok wall a e :
  audit_ok a → audit_ok (AuditLog_Add wall a e).
Proof.
  intros (Hc & Hl & Hs). unfold AuditLog_Add.
  set (e' := mkEntry _ _ _ _ _ _ _ _). set (seq := u64 (nextSeq a + 1)) in *.
  assert (∀ i x, (entries a ++ [e'])%list !! i = Some x →
            Seq x = u64 (seq - (zlen (entries a) - Z.of_nat i))) as Hx.
  { intros i x Hi. apply lookup_app_Some in Hi as [Hi|[Hle Hi]].
    - rewrite (Hs _ _ Hi). subst seq. unfold u64, zlen. rewrite Zminus_mod_idemp_l. f_equal. lia.
    - apply list_lookup_singleton_Some in Hi as [Hi <-]. cbn. unfold zlen.
      replace (Z.of_nat i) with (Z.of_nat (length (entries a))) by lia.
      rewrite Z.sub_diag, Z.sub_0_r. subst seq. unfold u64. by rewrite Z.mod_mod. }
  split; [done|]. cbn [entries capacity nextSeq].
  assert (length (entries a ++ [e'])%list = S (length (entries a))) as Hlen
    by (rewrite length_app; cbn; lia).
  destruct (Nat.ltb_spec (capacity a) (length (entries a ++ [e'])%list)).
  - split; [rewrite length_drop; lia|]. intros i x Hi. rewrite lookup_drop in Hi.
    apply Hx in Hi as ->. f_equal. unfold zlen. rewrite length_drop. lia.
  - split; [lia|]. intros i x Hi. apply Hx in Hi as ->. f_equal. unfold zlen. lia.
Qed.

Lemma AuditLog_Add_recorded wall a e :
  audit_ok a → recorded (AuditLog_Add wall a e) (Before e) (STruth (After e)).
Proof.
  intros [Hc _]. assert (1 ≤ capacity a)%nat by (rewrite Hc; unfold AuditCapacity; lia).
  unfold AuditLog_Add, recorded. cbn [entries].
  eexists (mkEntry _ _ _ _ _ _ _ _). split; [|done].
  case_if; [|apply last_snoc].
  rewrite last_lookup, lookup_drop, length_drop, length_app. cbn.
  rewrite lookup_app_r by (rewrite length_app in *; cbn in *; lia).
  apply list_lookup_singleton_Some. split; [|done]. rewrite length_app in *; cbn in *; lia.
Qed.

#[local] Opaque u64.

(** ** What the bookkeeping changes *)

(** [frame m a n]: [m] with another audit log and clock position. *)
Definition frame (m : Model) (a : AuditLog) (n : nat) : Model := set_audit a (set_ticks n m).

Lemma frame_id m : frame m (audit m) (ticks m) = m.
Proof. by destruct m. Qed.

Definition stale (now : Z) (m : Model) : bool :=
  hasSolve m && (Valid (measurements m) || negb (is_nil (PickedUpSince (protection m)))) &&
  negb (time_Sub now (receivedMono m) <? MeasurementValidity).

(** The effect of [expireLocked] on the rest of the model. *)
Definition expired (now : Z) (m : Model) : Model :=
  if stale now m then
    set_protection (set_PickedUpSince None (set_PickedUp false (protection m)))
      (set_measurements (set_Valid false (measurements m)) m)
  else m.

(** ** The invariant *)
Definition switch_position (p : Position) : Prop := p = PositionOpen ∨ p = PositionClosed.

(** The interlocks of each kind: a locked-out breaker is open and tripped; an
    earthed way is open; taps stay within the eight steps on either side, a
    motion goes to an adjacent tap and only a remote-controlled tap changer is
    armed. *)
Definition truth_ok (normal : Position) (t : Truth) : Prop :=
  match TKind t with
  | Breaker =>
      switch_position (TPosition t) ∧ EarthClosed t = false ∧ Moving t = false ∧
      (Lockout t = true → TPosition t = PositionOpen ∧ ProtectionTripped t = true)
  | RMU =>
      switch_position (TPosition t) ∧ switch_position normal ∧ Lockout t = false ∧ Moving t = false ∧
      (EarthClosed t = true → TPosition t = PositionOpen)
  | OLTC =>
      -8 ≤ Tap t ≤ 8 ∧
      (Moving t = true → -8 ≤ TargetTap t ≤ 8 ∧ (TargetTap t = Tap t + 1 ∨ TargetTap t = Tap t - 1)) ∧
      (Armed t = true → RemoteEnabled t = true)
  | OtherKind _ => False
  end.

(** A moving tap changer waits for the callback with the current token. *)
Definition motion_ok (t : Truth) (motion : option Z) (token : Z) : Prop :=
  Moving t = true → motion = Some token.

(** The pointers of a stored solve are set, and measurements are valid only
    for the present revision of the truth. *)
Definition meas_ok (hasSolve : bool) (firstRevision revision : Z) (ms : Measurements) : Prop :=
  (hasSolve = true → is_Some (SectionLive ms) ∧ is_Some (SourceLive ms) ∧
     is_Some (SolverEpoch ms) ∧ is_Some (SolveSeq ms) ∧ is_Some (SolvedAt ms)) ∧
  (Valid ms = true → hasSolve = true ∧ firstRevision = revision).

Definition pickup_ok (p : Protection) : Prop := PickedUp p = true ↔ is_Some (PickedUpSince p).

Definition Inv (m : Model) : Prop :=
  truth_ok (normal m) (truth m) ∧ motion_ok (truth m) (motion m) (motionToken m) ∧
  meas_ok (hasSolve m) (firstSolveRevision m) (Revision (truth m)) (measurements m) ∧
  pickup_ok (protection m) ∧ is_u16 (lastRequest m) ∧ audit_ok (audit m).

(** [Good m m']: the invariant holds in [m'], and a change of the truth since
    [m] is reported by the newest audit entry. *)
Definition Good (m m' : Model) : Prop :=
  Inv m' ∧
  (truth m' = truth m ∨
   ∃ before, STruth before = truth m ∧ recorded (audit m') before (truth m')).

Lemma Inv_audit m : Inv m → audit_ok (audit m).
Proof. by intros (_ & _ & _ & _ & _ & H). Qed.
#[local] Hint Resolve Inv_audit : go.

Lemma Inv_frame m a n : Inv m → audit_ok a → Inv (frame m a n).
Proof. intros (Ht & Hm & Hs & Hp & Hl & _) Ha. exact (conj Ht (conj Hm (conj Hs (conj Hp (conj Hl Ha))))). Qed.

Lemma Good_same m m' : Inv m' → truth m' = truth m → Good m m'.
Proof. intros ? ?. split; [done|by left]. Qed.

Lemma Good_from m m1 m' : truth m1 = truth m → Good m1 m' → Good m m'.
Proof. unfold Good. by intros ->. Qed.

Lemma Good_recorded m m1 a n before :
  Inv m1 → audit_ok a → STruth before = truth m → recorded a before (truth m1) →
  Good m (frame m1 a n).
Proof.
  intros HI Ha Hb Hr. split; [exact (Inv_frame _ _ _ HI Ha)|]. right. exists before.
  split; [exact Hb|exact Hr].
Qed.

Lemma Good_frame m m1 a n : Inv m1 → audit_ok a → truth m1 = truth m → Good m (frame m1 a n).
Proof. intros HI Ha Ht. split; [exact (Inv_frame _ _ _ HI Ha)|left; exact Ht]. Qed.

Lemma meas_invalid h f f' r r' ms : meas_ok h f r ms → meas_ok h f' r' (set_Valid false ms).
Proof. intros [H _]. by split. Qed.

Lemma pickup_reset p : pickup_ok (set_PickedUpSince None (set_PickedUp false p)).
Proof. split; [done|by intros [? [=]]]. Qed.

Lemma Inv_expired now m : Inv m → Inv (expired now m).
Proof.
  intros HI. unfold expired. destruct (stale now m); [|done].
  destruct HI as (Ht & Hm & Hs & _ & Hl & Ha).
  exact (conj Ht (conj Hm (conj (meas_invalid _ _ _ _ _ _ Hs) (conj (pickup_reset _) (conj Hl Ha))))).
Qed.

Lemma truth_expired now m : truth (expired now m) = truth m.
Proof. unfold expired. by destruct (stale now m). Qed.

(** What [changedLocked] leaves. *)
Definition bumped (now : Z) (m : Model) : Model :=
  set_measurements (set_Valid false (measurements m))
    (set_truth (set_ChangedAt now (set_EventSeq (u64 (EventSeq (truth m) + 1))
                  (set_Revision (u64 (Revision (truth m) + 1)) (truth m))))
       (set_ticks (S (ticks m)) m)).

Lemma Inv_bumped now m f r :
  truth_ok (normal m) (truth m) → motion_ok (truth m) (motion m) (motionToken m) →
  meas_ok (hasSolve m) f r (measurements m) → pickup_ok (protection m) →
  is_u16 (lastRequest m) → audit_ok (audit m) → Inv (bumped now m).
Proof.
  intros Ht Hm Hs Hp Hl Ha.
  exact (conj Ht (conj Hm (conj (meas_invalid _ _ _ _ _ _ Hs) (conj Hp (conj Hl Ha))))).
Qed.

Section Device.
Context (clock : nat → Z) (wall : Z).
Implicit Types (m : Model).

Lemma wp_Now Q m : Q (clock (ticks m)) (set_ticks (S (ticks m)) m) → wp (Now clock) Q m.
Proof. done. Qed.

Lemma wp_snapshot Q m :
  (∀ s n, STruth s = truth m → SProtection s = protection m → Q s (frame m (audit m) n)) →
  wp (snapshotLocked clock) Q m.
Proof.
  intros H. unfold snapshotLocked. apply st_wp_bind, st_wp_get, st_wp_bind, wp_Now, st_wp_ret.
  apply (H _ (S (ticks m))); done.
Qed.

Lemma wp_record op res d before actor Q m :
  audit_ok (audit m) →
  (∀ a n, audit_ok a → recorded a before (truth m) → Q tt (frame m a n)) →
  wp (recordLocked clock wall op res d before actor) Q m.
Proof.
  intros Ha H. unfold recordLocked. apply st_wp_bind, wp_Now, st_wp_bind, wp_snapshot.
  intros s n Hs _. apply st_wp_upd.
  set (e := mkEntry _ _ _ _ _ _ _ _).
  apply (H (AuditLog_Add wall (audit m) e) n).
  - by apply AuditLog_Add_ok.
  - pose proof (AuditLog_Add_recorded wall (audit m) e) as Hr. subst e. cbn in Hr.
    rewrite Hs in Hr. apply Hr, Ha.
Qed.

Lemma wp_expireLocked now Q m :
  audit_ok (audit m) → (∀ a n, audit_ok a → Q tt (frame (expired now m) a n)) →
  wp (expireLocked clock wall now) Q m.
Proof.
  intros Ha H. unfold expireLocked, expired, stale in *. apply st_wp_bind, st_wp_get.
  destruct (hasSolve m), (Valid (measurements m)), (is_nil (PickedUpSince (protection m))),
    (time_Sub now (receivedMono m) <? MeasurementValidity); cbn [negb andb orb] in *;
    try (apply st_wp_ret; rewrite <- (frame_id m); by apply H);
    (apply st_wp_bind, wp_snapshot; intros s n _ _; apply st_wp_bind, st_wp_upd, st_wp_bind, st_wp_upd;
     apply wp_record; [done|]; intros a n' Ha' _; exact (H a n' Ha')).
Qed.

Lemma wp_changed Q m :
  Q tt (bumped (clock (ticks m)) m) → wp (changedLocked clock) Q m.
Proof. done. Qed.

(** ** Switches *)

(** The measurements are valid and not older than their validity. *)
Definition fresh (now : Z) m : Prop :=
  Valid (measurements m) = true ∧ time_Sub now (receivedMono m) < MeasurementValidity.

Definition may_close (valid : Prop) m : Prop :=
  ¬ (TKind (truth m) = Breaker ∧ Lockout (truth m) = true) ∧
  ¬ (TKind (truth m) = RMU ∧ EarthClosed (truth m) = true) ∧
  PickedUp (protection m) = false ∧ valid ∧
  ¬ (SourceLive (measurements m) = Some true ∧ SectionLive (measurements m) = Some true).

Definition may_open (valid : Prop) m : Prop :=
  TKind (truth m) = RMU → valid ∧ PickedUp (protection m) = false.

Lemma Inv_pointers m : Inv m → Valid (measurements m) = true →
  hasSolve m = true ∧ ∃ src sec, SourceLive (measurements m) = Some src ∧
                                 SectionLive (measurements m) = Some sec.
Proof.
  intros (_ & _ & [Hp Hv] & _) H. apply Hv in H as [H _]. split; [done|].
  apply Hp in H as ([sec ?] & [src ?] & _). eauto.
Qed.

Lemma wp_close_refusal m : Inv m →
  wp close_refusal (λ r m', m' = m ∧ (r = None ↔ may_close (Valid (measurements m) = true) m)) m.
Proof.
  intros HI. unfold close_refusal, may_close. apply st_wp_bind, st_wp_get.
  case_bool_decide as Hb; case_bool_decide as Hr; try congruence;
    destruct (Lockout (truth m)), (EarthClosed (truth m)), (PickedUp (protection m)); cbn [andb];
    try (apply st_wp_ret; naive_solver);
    (destruct (Valid (measurements m)) eqn:Hv; cbn [negb]; [|apply st_wp_ret; naive_solver];
     destruct (Inv_pointers m HI Hv) as (_ & [] & sec & Hsrc & Hsec); rewrite Hsrc, Hsec;
     apply st_wp_bind; (eapply st_wp_deref; [done|]); cbn [negb]; [|apply st_wp_ret; naive_solver];
     apply st_wp_bind; (eapply st_wp_deref; [done|]); destruct sec; apply st_wp_ret; naive_solver).
Qed.

Lemma wp_open_refusal m :
  wp open_refusal (λ r m', m' = m ∧ (r = None ↔ may_open (Valid (measurements m) = true) m)) m.
Proof.
  unfold open_refusal, may_open. apply st_wp_bind, st_wp_get.
  case_bool_decide; [|apply st_wp_ret; naive_solver].
  destruct (Valid (measurements m)) eqn:Hv; cbn [negb]; [|apply st_wp_ret; naive_solver].
  case_if; apply st_wp_ret; naive_solver.
Qed.

(** The position a register value asks for. *)
Definition asked (value : Z) : Position := if value =? 2 then PositionClosed else PositionOpen.

(** The whole state after a write to a switch in the state [base]: apart from
    the audit log and the clock position it is [base], with the new position
    and the bookkeeping of a change (revision, void measurements) when the
    write changed something. *)
Definition switch_state (base : Model) (value : Z) (changed : bool) m' : Prop :=
  ∃ k a n, m' = frame (if changed
                       then bumped (clock k) (set_truth (set_TPosition (asked value) (truth base)) base)
                       else base) a n.

(** What a write to a switch does: the position it asks for is taken exactly
    when the write is accepted, and nothing else changes. *)
Definition switch_post (base : Model) (valid : Prop) (address value : Z) m (r : CommandResult) m' : Prop :=
  (Accepted r = true ↔
     address = 0 ∧ RemoteEnabled (truth m) = true ∧
     (value = 1 ∧ may_open valid m ∨ value = 2 ∧ may_close valid m)) ∧
  TPosition (truth m') = (if Accepted r then asked value else TPosition (truth m)) ∧
  (Changed r = true ↔ TPosition (truth m') ≠ TPosition (truth m)) ∧
  switch_state base value (Changed r) m' ∧ 0 ≤ Exception r < 256.

Lemma switch_refused valid address value m reason exc a n :
  0 ≤ exc < 256 →
  ¬ (address = 0 ∧ RemoteEnabled (truth m) = true ∧
     (value = 1 ∧ may_open valid m ∨ value = 2 ∧ may_close valid m)) →
  switch_post m valid address value m (mkResult false false reason exc) (frame m a n).
Proof.
  intros He Hn. unfold switch_post. cbn.
  split; [split; [done|by intros Hx; destruct (Hn Hx)]|].
  split; [done|]. split; [split; [done|by intros Hx; destruct Hx]|]. split; [|done]. by exists 0%nat, a, n.
Qed.

Lemma switch_taken valid value m (changed : bool) m' :
  RemoteEnabled (truth m) = true →
  (value = 1 ∧ may_open valid m ∨ value = 2 ∧ may_close valid m) →
  (changed = true ↔ TPosition (truth m) ≠ asked value) →
  switch_state m value changed m' →
  switch_post m valid 0 value m (mkResult true changed "" 0) m'.
Proof.
  intros Hr Hv Hc Hs. unfold switch_post. cbn. split; [done|].
  assert (TPosition (truth m') = asked value) as Hp.
  { destruct Hs as (k & a & n & ->). destruct changed; [done|]. cbn.
    destruct (decide (TPosition (truth m) = asked value)) as [|Hn]; [done|]. by apply Hc in Hn. }
  rewrite Hp. split; [done|]. split; [rewrite Hc; by split; apply not_eq_sym|]. split; [done|lia].
Qed.

(** Moving a switch to another position keeps the invariant. *)
Lemma Inv_switched target now m :
  Inv m → (TKind (truth m) = Breaker ∨ TKind (truth m) = RMU) → switch_position target →
  (target = PositionClosed → may_close (Valid (measurements m) = true) m) →
  Inv (bumped now (set_truth (set_TPosition target (truth m)) m)).
Proof.
  intros (Ht & Hm & Hs & Hp & Hl & Ha) Hk Hpos Hc.
  eapply Inv_bumped; [|exact Hm|exact Hs|exact Hp|exact Hl|exact Ha].
  unfold truth_ok, may_close in *. cbn.
  destruct Hk as [Hk|Hk]; rewrite Hk in *; cbn.
  - destruct Ht as (_ & He & Hmv & Hlk). split; [done|]. repeat (split; [done|]). intros HL.
    destruct Hpos as [->| ->]; [by split; [|apply Hlk]|].
    destruct (Hc eq_refl) as (Hn & _). by destruct Hn.
  - destruct Ht as (_ & Hn & Hlk & Hmv & He). split; [done|]. repeat (split; [done|]). intros HE.
    destruct Hpos as [->| ->]; [done|].
    destruct (Hc eq_refl) as (_ & Hne & _). by destruct Hne.
Qed.

(** The part of [writeSwitch] behind the interlocks. *)
Lemma wp_switch_move operation value actor before m :
  Inv m → (TKind (truth m) = Breaker ∨ TKind (truth m) = RMU) → STruth before = truth m →
  RemoteEnabled (truth m) = true →
  (value = 1 ∧ may_open (Valid (measurements m) = true) m ∨
   value = 2 ∧ may_close (Valid (measurements m) = true) m) →
  let target := asked value in
  wp (if bool_decide (TPosition (truth m) = target) then
        do? recordLocked clock wall operation "accepted" (DString "no_op") before actor in
        st_ret (mkResult true false "" 0)
      else
        do? upd_truth (set_TPosition target) in
        do? changedLocked clock in
        do? recordLocked clock wall operation "accepted" (DString "") before actor in
        st_ret (mkResult true true "" 0))
     (λ r m', Good m m' ∧ switch_post m (Valid (measurements m) = true) 0 value m r m') m.
Proof.
  intros HI Hk Hb Hr Hv target. case_bool_decide as Hp.
  - apply st_wp_bind, wp_record; [auto with go|]. intros a n Ha _. apply st_wp_ret.
    split; [by apply Good_frame|]. apply switch_taken; [done..| |by exists 0%nat, a, n].
    split; [done|by intros []].
  - apply st_wp_bind, st_wp_upd, st_wp_bind, wp_changed, st_wp_bind.
    assert (Inv (bumped (clock (ticks m)) (set_truth (set_TPosition target (truth m)) m))) as HI'.
    { apply Inv_switched; [done|done|subst target; unfold asked; case_if; [by right|by left]|].
      intros Ht. destruct Hv as [[-> _]|[_ ?]]; [done|done]. }
    apply wp_record; [exact (Inv_audit _ HI')|]. intros a n Ha Hrec. apply st_wp_ret. split.
    + exact (Good_recorded _ _ _ _ _ HI' Ha Hb Hrec).
    + apply switch_taken; [done..| |by eexists _, a, n]. by split.
Qed.

Lemma wp_writeSwitch address value actor before m :
  Inv m → (TKind (truth m) = Breaker ∨ TKind (truth m) = RMU) → STruth before = truth m →
  wp (writeSwitch clock wall address value actor before)
     (λ r m', Good m m' ∧ switch_post m (Valid (measurements m) = true) address value m r m') m.
Proof.
  intros HI Hk Hb. unfold writeSwitch.
  assert (Good m m) as Hg by by apply Good_same.
  destruct (Z.eqb_spec address 0) as [->|Ha]; cbn [negb].
  2:{ apply st_wp_ret. split; [done|]. rewrite <- (frame_id m) at 4.
      apply switch_refused; [lia|by intros [? _]]. }
  destruct (negb (value =? 1) && negb (value =? 2)) eqn:Hv.
  { bool_facts. apply st_wp_ret. split; [done|]. rewrite <- (frame_id m) at 4.
    apply switch_refused; [lia|]. intros (_ & _ & [[? _]|[? _]]); congruence. }
  assert (value = 1 ∨ value = 2) as Hval.
  { destruct (Z.eqb_spec value 1), (Z.eqb_spec value 2); auto; done. }
  assert (∀ op reason, ¬ (RemoteEnabled (truth m) = true ∧
      (value = 1 ∧ may_open (Valid (measurements m) = true) m ∨
       value = 2 ∧ may_close (Valid (measurements m) = true) m)) →
    wp (reject_write clock wall op reason before actor)
      (λ r m', Good m m' ∧ switch_post m (Valid (measurements m) = true) 0 value m r m') m) as Hrej.
  { intros op reason Hn. apply st_wp_bind, wp_record; [auto with go|]. intros a n Haud _. apply st_wp_ret.
    split; [by apply Good_frame|]. apply switch_refused; [lia|by intros [_ ?]]. }
  apply st_wp_bind, st_wp_get. destruct (RemoteEnabled (truth m)) eqn:Hr; cbn [negb];
    [|apply Hrej; by intros [? _]].
  apply st_wp_bind.
  destruct Hval as [-> | ->]; cbn [Z.eqb Pos.eqb];
    (eapply st_wp_mono; [(apply wp_open_refusal || by apply wp_close_refusal)|]);
    intros [reason|] m1 [-> Hiff].
  - apply Hrej. intros [_ [[_ H]|[? _]]]; [by apply Hiff in H|done].
  - apply (wp_switch_move _ 1); try done. left. split; [done|by apply Hiff].
  - apply Hrej. intros [_ [[? _]|[_ H]]]; [done|by apply Hiff in H].
  - apply (wp_switch_move _ 2); try done. right. split; [done|by apply Hiff].
Qed.

(** ** Taps *)
Lemma i16_small z : -32768 ≤ z < 32768 → i16 z = z.
Proof.
  intros Hz. unfold i16, signed. change (2 ^ 16) with 65536. change (2 ^ (16 - 1)) with 32768. cbv zeta.
  destruct (Z.ltb_spec (z mod 65536) 32768) as [H|H]; Z.div_mod_to_equations; lia.
Qed.

(** The conditions for any motion, and a request for the tap [target] by the
    manual step register or by the controller's request register. *)
Definition may_move (valid : Prop) m : Prop :=
  RemoteEnabled (truth m) = true ∧ Moving (truth m) = false ∧ Blocked (truth m) = false ∧
  PickedUp (protection m) = false ∧ valid ∧ SectionLive (measurements m) = Some true.

Definition requested m (address value target : Z) : Prop :=
  -8 ≤ target ≤ 8 ∧
  (address = 0 ∧ Auto (truth m) = false ∧
     (value = 1 ∧ target = Tap (truth m) - 1 ∨ value = 2 ∧ target = Tap (truth m) + 1) ∨
   address = 1 ∧ Auto (truth m) = true ∧ Armed (truth m) = true ∧ value = target + 100 ∧
     (target = Tap (truth m) - 1 ∨ target = Tap (truth m) + 1)).

Definition tap_post (valid : Prop) (address value : Z) m (r : CommandResult) m' : Prop :=
  Tap (truth m') = Tap (truth m) ∧
  (∀ target, Moving (truth m) = false ∧ Moving (truth m') = true ∧ TargetTap (truth m') = target ↔
             may_move valid m ∧ requested m address value target) ∧
  (Moving (truth m) = true → Moving (truth m') = true ∧ TargetTap (truth m') = TargetTap (truth m)) ∧
  0 ≤ Exception r < 256.

Lemma tap_stays valid address value m r m' :
  Tap (truth m') = Tap (truth m) → Moving (truth m') = Moving (truth m) →
  TargetTap (truth m') = TargetTap (truth m) → 0 ≤ Exception r < 256 →
  (∀ target, ¬ (may_move valid m ∧ requested m address value target)) →
  tap_post valid address value m r m'.
Proof.
  intros Ht Hm Hg He Hn. split; [done|]. split; [|by rewrite Hm, Hg].
  intros target. rewrite Hm. split; [intros (? & ? & _); congruence|].
  intros H. by destruct (Hn target).
Qed.

(** The state [startMotionLocked] leaves. *)
Definition moving_to (target now : Z) m : Model :=
  let m' := bumped now (set_truth (set_Moving true (set_TargetTap target (truth m))) m) in
  let token := u64 (motionToken m + 1) in
  set_timers (timers m ++ [token]) (set_motion (Some token) (set_motionToken token m')).

Lemma wp_startMotion target Q m :
  Q tt (moving_to target (clock (ticks m)) m) → wp (startMotionLocked clock target) Q m.
Proof. done. Qed.

Lemma Inv_moving_to target now m :
  Inv m → TKind (truth m) = OLTC → -8 ≤ target ≤ 8 →
  (target = Tap (truth m) - 1 ∨ target = Tap (truth m) + 1) → Inv (moving_to target now m).
Proof.
  intros (Ht & Hm & Hs & Hp & Hl & Ha) Hk Hr Hadj. unfold truth_ok in Ht. rewrite Hk in Ht.
  destruct Ht as (Htap & _ & Harm).
  assert (truth_ok (normal m) (set_Moving true (set_TargetTap target (truth m)))) as Ht'.
  { unfold truth_ok. cbn. rewrite Hk. split; [done|]. split; [|done]. intros _. split; [done|lia]. }
  unfold Inv, moving_to. generalize (u64 (motionToken m + 1)). intros token. cbn -[u64].
  split; [exact Ht'|]. split; [by intros _|]. split; [by eapply meas_invalid|]. done.
Qed.

(** Start of a motion with its audit entry. *)
Lemma wp_start_recorded valid address value target op d before actor m0 m :
  Inv m → TKind (truth m) = OLTC → truth m = truth m0 → STruth before = truth m0 →
  may_move valid m0 → requested m0 address value target →
  wp (do? startMotionLocked clock target in
      do? recordLocked clock wall op "accepted" d before actor in
      st_ret (mkResult true true "" 0))
     (λ r m', Good m0 m' ∧ tap_post valid address value m0 r m') m.
Proof.
  intros HI Hk Ht Hb Hmay Hreq. apply st_wp_bind, wp_startMotion. cbv beta. apply st_wp_bind.
  assert (Inv (moving_to target (clock (ticks m)) m)) as HI'.
  { apply Inv_moving_to; [done|done|apply Hreq|].
    rewrite Ht. destruct Hreq as [_ [(_ & _ & ?)|(_ & _ & _ & _ & ?)]]; intuition. }
  apply wp_record; [exact (Inv_audit _ HI')|]. intros a n Ha Hrec. apply st_wp_ret.
  split; [exact (Good_recorded _ _ _ _ _ HI' Ha Hb Hrec)|].
  assert (requested m0 address value target) as Hreq' by done.
  unfold tap_post. cbn. rewrite Ht. split; [done|].
  destruct Hmay as (? & Hmv & Hmay). split; [|split; [congruence|lia]].
  intros x. split.
  - intros (_ & _ & <-). done.
  - intros (_ & Hx). split; [done|]. split; [done|].
    destruct Hreq' as [_ Hq], Hx as [_ Hx].
    destruct Hq as [(? & ? & Hq)|(? & ? & ? & ? & ?)], Hx as [(? & ? & Hx)|(? & ? & ? & ? & ?)];
      try lia; congruence.
Qed.

Lemma wp_energized m : Inv m →
  wp energizedLocked (λ b m', m' = m ∧
    (b = true ↔ Valid (measurements m) = true ∧ SectionLive (measurements m) = Some true)) m.
Proof.
  intros HI. unfold energizedLocked. apply st_wp_bind, st_wp_get.
  destruct (Valid (measurements m)) eqn:Hv; cbn [negb]; [|apply st_wp_ret; naive_solver].
  destruct (Inv_pointers m HI Hv) as (_ & src & sec & _ & ->).
  eapply st_wp_deref; [done|]. naive_solver.
Qed.

Lemma Inv_oltc m : Inv m → TKind (truth m) = OLTC →
  -8 ≤ Tap (truth m) ≤ 8 ∧ (Armed (truth m) = true → RemoteEnabled (truth m) = true).
Proof. intros (Ht & _) Hk. unfold truth_ok in Ht. rewrite Hk in Ht. naive_solver. Qed.

(** An entry that leaves the taps alone. *)
Lemma wp_record_stays valid address value op res d before actor r m0 m :
  Inv m → truth m = truth m0 → 0 ≤ Exception r < 256 →
  (∀ target, ¬ (may_move valid m0 ∧ requested m0 address value target)) →
  wp (do? recordLocked clock wall op res d before actor in st_ret r)
     (λ r m', Good m0 m' ∧ tap_post valid address value m0 r m') m.
Proof.
  intros HI Ht He Hn. apply st_wp_bind, wp_record; [auto with go|]. intros a n Ha _. apply st_wp_ret.
  split; [by apply Good_frame|]. apply tap_stays; cbn; [by rewrite Ht..|done|done].
Qed.

Lemma wp_manualStep value actor before m :
  Inv m → TKind (truth m) = OLTC → STruth before = truth m → RemoteEnabled (truth m) = true →
  value = 1 ∨ value = 2 →
  wp (manualStep clock wall value actor before)
     (λ r m', Good m m' ∧ tap_post (Valid (measurements m) = true) 0 value m r m') m.
Proof.
  intros HI Hk Hb Hr Hv. destruct (Inv_oltc m HI Hk) as [Htap _].
  unfold manualStep, reject_write. apply st_wp_bind, st_wp_get. cbv zeta.
  destruct (Auto (truth m)) eqn:Hauto.
  { apply wp_record_stays; [done..|cbn; lia|].
    intros x [_ [_ [(_ & ? & _)|(? & _)]]]; [congruence|lia]. }
  destruct (Moving (truth m)) eqn:Hmv.
  { apply wp_record_stays; [done..|cbn; lia|]. intros x [(_ & ? & _) _]. congruence. }
  destruct (Blocked (truth m)) eqn:Hbl; cbn [orb].
  { apply wp_record_stays; [done..|cbn; lia|]. intros x [(_ & _ & ? & _) _]. congruence. }
  destruct (PickedUp (protection m)) eqn:Hpk; cbn [orb].
  { apply wp_record_stays; [done..|cbn; lia|]. intros x [(_ & _ & _ & ? & _) _]. congruence. }
  apply st_wp_bind. eapply st_wp_mono; [by apply wp_energized|]. intros en m1 [-> Hen].
  destruct en; cbn [negb].
  2:{ apply wp_record_stays; [done..|cbn; lia|].
      intros x [(_ & _ & _ & _ & Hx) _]. apply Hen in Hx. done. }
  assert (may_move (Valid (measurements m) = true) m) as Hmay
    by (split; [done|]; do 3 (split; [done|]); by apply Hen).
  assert (∀ z, -9 ≤ z ≤ 9 → i16 z = z) as Hi by (intros; apply i16_small; lia).
  destruct Hv as [->| ->]; cbn [Z.eqb Pos.eqb]; rewrite Hi by lia; case_if.
  1,3: apply wp_record_stays; [done..|cbn; lia|];
       intros x [_ [Hx [(_ & _ & [[? ->]|[? ->]])|(? & _)]]]; try lia;
       apply orb_true_iff in Hif; bool_facts; lia.
  all: bool_facts; eapply wp_start_recorded; try done; (split; [lia|]); left; naive_solver.
Qed.

(** An assignment to the truth that keeps the interlocks, with its entry. *)
Lemma wp_record_bumped (f : Truth → Truth) now op res d before actor (Q : unit → Model → Prop) m0 m :
  Inv m → truth m = truth m0 → STruth before = truth m0 →
  truth_ok (normal m) (f (truth m)) → (Moving (f (truth m)) = true → Moving (truth m) = true) →
  (∀ a n, let m' := frame (bumped now (set_truth (f (truth m)) m)) a n in Good m0 m' → Q tt m') →
  wp (recordLocked clock wall op res d before actor) Q (bumped now (set_truth (f (truth m)) m)).
Proof.
  intros (Ht & Hm & Hs & Hp & Hl & Ha) Htm Hb Htr Hmv HQ.
  assert (Inv (bumped now (set_truth (f (truth m)) m))) as HI'.
  { eapply Inv_bumped; [exact Htr|exact (λ H, Hm (Hmv H))|exact Hs|exact Hp|exact Hl|exact Ha]. }
  apply wp_record; [exact (Inv_audit _ HI')|]. intros a n Haud Hrec.
  apply HQ. by eapply Good_recorded.
Qed.

Lemma wp_writeMode value actor before m :
  Inv m → TKind (truth m) = OLTC → STruth before = truth m →
  wp (writeMode clock wall value actor before)
     (λ r m', Good m m' ∧ tap_post (Valid (measurements m) = true) 2 value m r m') m.
Proof.
  intros HI Hk Hb. unfold writeMode. apply st_wp_bind, st_wp_get. cbv zeta.
  assert (∀ x, ¬ (may_move (Valid (measurements m) = true) m ∧ requested m 2 value x)) as Hn.
  { intros x [_ [_ [[? _]|[? _]]]]; lia. }
  case_if; [by apply wp_record_stays; [..|cbn; lia|]|].
  apply st_wp_bind, st_wp_upd. cbv beta. apply st_wp_bind, wp_changed. cbv beta. apply st_wp_bind.
  eapply (wp_record_bumped (λ t, let t := set_Auto (value =? 2) t in
    if value =? 2 then set_Armed false t else t)); [done..| | |].
  - destruct HI as (Ht & _). unfold truth_ok in *. rewrite Hk in Ht. case_if; cbn; rewrite Hk;
      destruct Ht as (? & ? & ?); (split; [done|]); (split; [done|]); done.
  - by case_if.
  - intros a n m' Hg. apply st_wp_ret. split; [done|]. subst m'.
    apply tap_stays; [cbn; by case_if..|cbn; lia|done].
Qed.

Lemma wp_plc_verdict target m :
  Inv m → TKind (truth m) = OLTC → -8 ≤ target ≤ 8 →
  wp (plc_verdict target) (λ r m', m' = m ∧
    (r = RequestAccepted ↔ may_move (Valid (measurements m) = true) m ∧
                           requested m 1 (target + 100) target)) m.
Proof.
  intros HI Hk Hr. destruct (Inv_oltc m HI Hk) as [Htap _].
  unfold plc_verdict, may_move, requested. apply st_wp_bind, st_wp_get. cbv zeta.
  destruct (RemoteEnabled (truth m)); cbn [negb]; [|apply st_wp_ret; naive_solver].
  destruct (Auto (truth m)); cbn [negb]; [|apply st_wp_ret; split; [done|]; split; [done|];
    intros [_ [_ [(? & _)|(_ & ? & _)]]]; congruence].
  destruct (Moving (truth m)); [apply st_wp_ret; naive_solver|].
  destruct (Blocked (truth m)); cbn [orb]; [apply st_wp_ret; naive_solver|].
  destruct (PickedUp (protection m)); [apply st_wp_ret; naive_solver|].
  destruct (Armed (truth m)); cbn [negb]; [|apply st_wp_ret; split; [done|]; split; [done|];
    intros [_ [_ [(? & _)|(_ & _ & ? & _)]]]; congruence].
  apply st_wp_bind. eapply st_wp_mono; [by apply wp_energized|]. intros [] m1 [-> Hen]; cbn [negb].
  2:{ apply st_wp_ret. split; [done|]. split; [done|]. intros [(_ & _ & _ & _ & H) _]. by apply Hen in H. }
  rewrite i16_small by lia.
  destruct (Z.eqb_spec (target - Tap (truth m)) 1), (Z.eqb_spec (target - Tap (truth m)) (-1));
    cbn [negb andb]; apply st_wp_ret; (split; [done|]).
  1-3: split; [intros _|done]; split; [do 4 (split; [done|]); by apply Hen|]; split; [done|];
       right; repeat (split; [done|]); lia.
  split; [done|]. intros [_ [_ [(? & _)|(_ & _ & _ & _ & ?)]]]; lia.
Qed.

Lemma Inv_lastRequest v m : is_u16 v → Inv m → Inv (set_lastRequest v m).
Proof.
  intros Hv (Ht & Hm & Hs & Hp & _ & Ha). exact (conj Ht (conj Hm (conj Hs (conj Hp (conj Hv Ha))))).
Qed.
Lemma Inv_requestResult r m : Inv m → Inv (set_requestResult r m).
Proof. done. Qed.
(** Writing 0 to the request register arms the automatic control. *)
Lemma wp_plc_arm actor before m :
  Inv m → TKind (truth m) = OLTC → STruth before = truth m →
  wp (plcRequestLocked clock wall 0 actor before)
     (λ r m', Good m m' ∧ tap_post (Valid (measurements m) = true) 1 0 m r m') m.
Proof.
  intros HI Hk Hb.
  assert (∀ x, ¬ (may_move (Valid (measurements m) = true) m ∧ requested m 1 0 x)) as Hn.
  { intros x [_ [Hx [[? _]|(_ & _ & _ & ? & _)]]]; lia. }
  apply (Inv_lastRequest 0) in HI; [|done]. apply (Inv_requestResult RequestNone) in HI.
  unfold plcRequestLocked. apply st_wp_bind, st_wp_upd. cbv beta. cbn [Z.eqb].
  apply st_wp_bind, st_wp_upd. cbv beta. apply st_wp_bind, st_wp_get. apply st_wp_bind, st_wp_when; intros Hc.
  - apply st_wp_bind, st_wp_upd. cbv beta. apply st_wp_bind, wp_changed. cbv beta.
    eapply (wp_record_bumped (set_Armed true)); [exact HI|done|done| |done|].
    + destruct HI as (Ht & _). unfold truth_ok in *. cbn in *. rewrite Hk in *.
      bool_facts. destruct Ht as (? & ? & ?). done.
    + intros a n m' Hg. apply st_wp_bind, st_wp_get, st_wp_ret. split; [exact Hg|]. by apply tap_stays; [..|cbn; lia|].
  - apply st_wp_bind, st_wp_get, st_wp_ret. split; [by apply Good_same|]. by apply tap_stays; [..|cbn; lia|].
Qed.

Lemma wp_plcRequest value actor before m :
  Inv m → TKind (truth m) = OLTC → STruth before = truth m → 92 ≤ value ≤ 108 →
  wp (plcRequestLocked clock wall value actor before)
     (λ r m', Good m m' ∧ tap_post (Valid (measurements m) = true) 1 value m r m') m.
Proof.
  intros HI Hk Hb Hv. destruct (Inv_oltc m HI Hk) as [Htap _].
  pose proof (Inv_lastRequest value m ltac:(unfold is_u16; lia) HI) as HI1.
  unfold plcRequestLocked. apply st_wp_bind, st_wp_upd. cbv beta.
  rewrite (proj2 (Z.eqb_neq value 0)) by lia. rewrite (i16_small value), i16_small by lia. cbv zeta.
  set (target := value - 100). assert (value = target + 100) as Hval by lia.
  apply st_wp_bind, st_wp_get. cbn [truth set_lastRequest].
  assert (∀ r m1, truth m1 = truth m → Inv m1 → 0 ≤ Exception r < 256 →
    ¬ (may_move (Valid (measurements m) = true) m ∧ requested m 1 value target) →
    Good m m1 ∧ tap_post (Valid (measurements m) = true) 1 value m r m1) as Hstay.
  { intros r m1 Ht HIm He Hn. split; [by apply Good_same|]. apply tap_stays; [by rewrite Ht..|done|].
    intros x [Hmay Hx]. apply Hn. split; [done|].
    assert (x = target) as <- by (destruct Hx as [_ [[? _]|(_ & _ & _ & ? & _)]]; lia). done. }
  destruct ((target =? Tap (truth m)) || (Moving (truth m) && (target =? TargetTap (truth m)))) eqn:Hsame.
  { apply st_wp_bind, st_wp_upd, st_wp_ret. apply Hstay; [done|exact HI1|cbn; lia|].
    intros [(_ & Hmv & _) [_ [[? _]|(_ & _ & _ & _ & ?)]]]; [lia|].
    rewrite Hmv in Hsame. cbn [andb] in Hsame. rewrite orb_false_r in Hsame. bool_facts. lia. }
  apply st_wp_bind. eapply st_wp_mono.
  { apply (wp_plc_verdict target); [exact HI1|exact Hk|lia]. }
  intros result m1 [-> Hres]. apply st_wp_bind, st_wp_upd. cbv beta. rewrite <- Hval in Hres.
  case_bool_decide as Hacc; cbn [negb].
  - apply Hres in Hacc as [Hmay Hreq]. apply st_wp_bind, st_wp_upd. cbv beta.
    eapply (wp_start_recorded (Valid (measurements m) = true) 1 value);
      [exact HI1|exact Hk|done|done|exact Hmay|exact Hreq].
  - assert (¬ (may_move (Valid (measurements m) = true) m ∧ requested m 1 value target)) as Hn
      by (intros H; apply Hacc, Hres; exact H).
    apply st_wp_bind, st_wp_when; intros _.
    + apply wp_record; [exact (Inv_audit _ HI1)|]. intros a n Ha _. cbv beta.
      apply st_wp_bind, st_wp_upd, st_wp_ret. apply Hstay; [done| |cbn; lia|done].
      exact (Inv_frame _ a n HI1 Ha).
    + apply st_wp_bind, st_wp_upd, st_wp_ret. apply Hstay; [done|exact HI1|cbn; lia|done].
Qed.

Lemma wp_writeOLTC address value actor before m :
  Inv m → TKind (truth m) = OLTC → STruth before = truth m → 0 ≤ address →
  wp (writeOLTCLocked clock wall address value actor before)
     (λ r m', Good m m' ∧ tap_post (Valid (measurements m) = true) address value m r m') m.
Proof.
  intros HI Hk Hb Ha. unfold writeOLTCLocked.
  assert (∀ exc reason, 0 ≤ exc < 256 →
    (∀ x, ¬ (may_move (Valid (measurements m) = true) m ∧ requested m address value x)) →
    wp (st_ret (mkResult false false reason exc) : D CommandResult)
      (λ r m', Good m m' ∧ tap_post (Valid (measurements m) = true) address value m r m') m) as Hexc.
  { intros exc reason He Hn. apply st_wp_ret. split; [by apply Good_same|]. by apply tap_stays. }
  destruct (Z.ltb_spec 2 address).
  { apply Hexc; [lia|]. intros x [_ [_ [[? _]|[? _]]]]; lia. }
  destruct (Z.eqb_spec address 1) as [->|Ha1].
  { case_if.
    - apply Hexc; [lia|]. intros x [_ [Hx [[? _]|(_ & _ & _ & ? & _)]]]; [lia|].
      apply andb_true_iff in Hif as [_ Hif]. apply orb_true_iff in Hif. destruct Hif; bool_facts; lia.
    - destruct (Z.eq_dec value 0) as [->|Hv]; [by apply wp_plc_arm|]. apply wp_plcRequest; try done.
      rewrite (proj2 (Z.eqb_neq value 0)) in Hif by done. cbn [negb andb] in Hif. bool_facts. lia. }
  destruct (negb (value =? 1) && negb (value =? 2)) eqn:Hv.
  { bool_facts. apply Hexc; [lia|]. intros x [_ [_ [(_ & _ & [[? _]|[? _]])|(? & _)]]]; lia. }
  assert (value = 1 ∨ value = 2) as Hval.
  { destruct (Z.eqb_spec value 1), (Z.eqb_spec value 2); auto; done. }
  apply st_wp_bind, st_wp_get. destruct (RemoteEnabled (truth m)) eqn:Hr; cbn [negb].
  2:{ apply wp_record_stays; [done..|cbn; lia|]. intros x [(? & _) _]. congruence. }
  destruct (Z.eqb_spec address 2) as [->|Ha2]; [by apply wp_writeMode|].
  replace address with 0 by lia. by apply wp_manualStep.
Qed.

(** ** Writes *)
Lemma fresh_expired now m : fresh now m → expired now m = m.
Proof.
  intros [_ Hf]. unfold expired, stale. rewrite (proj2 (Z.ltb_lt _ _) Hf).
  by rewrite andb_false_r.
Qed.

Lemma expired_valid now m : Inv m → Valid (measurements (expired now m)) = true ↔ fresh now m.
Proof.
  intros HI. split; [|intros Hf; rewrite fresh_expired by done; apply Hf].
  unfold expired. destruct (stale now m) eqn:Hs; [done|]. intros Hv. split; [done|].
  destruct (Inv_pointers m HI Hv) as [Hh _].
  unfold stale in Hs. rewrite Hh, Hv in Hs. cbn in Hs. by bool_facts.
Qed.

(** The conditions read after the expiry are those of a fresh measurement. *)
Lemma may_close_expired now m : Inv m →
  may_close (Valid (measurements (expired now m)) = true) (expired now m) ↔ may_close (fresh now m) m.
Proof.
  intros HI. unfold may_close. rewrite (expired_valid now m HI).
  split; intros (H1 & H2 & H3 & Hf & H4); rewrite (fresh_expired now m Hf) in *; done.
Qed.

Lemma may_open_expired now m : Inv m →
  may_open (Valid (measurements (expired now m)) = true) (expired now m) ↔ may_open (fresh now m) m.
Proof.
  intros HI. unfold may_open. rewrite (expired_valid now m HI), truth_expired.
  split; intros H Hk; destruct (H Hk) as [Hf Hp]; rewrite (fresh_expired now m Hf) in *; done.
Qed.

Lemma may_move_expired now m : Inv m →
  may_move (Valid (measurements (expired now m)) = true) (expired now m) ↔ may_move (fresh now m) m.
Proof.
  intros HI. unfold may_move. rewrite (expired_valid now m HI).
  split; intros (H1 & H2 & H3 & H4 & Hf & H5); rewrite (fresh_expired now m Hf) in *; done.
Qed.

Lemma frame_expired now m k a n n' :
  frame (frame (expired now (set_ticks k m)) a n) a n' = frame (expired now m) a n'.
Proof.
  assert (stale now (set_ticks k m) = stale now m) as Hs by done.
  unfold expired. rewrite Hs. by destruct (stale now m).
Qed.

(** What a device operation does first: expiry, then a snapshot. *)
Lemma wp_prologue {A} (k : Snapshot → D A) Q m :
  Inv m →
  (∀ before a n, let m1 := frame (expired (clock (ticks m)) m) a n in
     Inv m1 → STruth before = truth m1 → wp (k before) Q m1) →
  wp (let? now := Now clock in
      do? expireLocked clock wall now in
      let? before := snapshotLocked clock in k before) Q m.
Proof.
  intros HI Hk. apply st_wp_bind, wp_Now. cbv beta. apply st_wp_bind, wp_expireLocked; [exact (Inv_audit _ HI)|].
  intros a n Ha. cbv beta. apply st_wp_bind, wp_snapshot. intros before n' Hb _.
  change (audit (frame ?m' ?b ?c)) with b. rewrite frame_expired. apply Hk.
  - apply Inv_frame; [|done]. by apply Inv_expired.
  - rewrite Hb. change (truth (frame ?m' ?b ?c)) with (truth m'). by rewrite !truth_expired.
Qed.

Lemma Inv_kind m : Inv m →
  TKind (truth m) = Breaker ∨ TKind (truth m) = RMU ∨ TKind (truth m) = OLTC.
Proof. intros (Ht & _). unfold truth_ok in Ht. destruct (TKind (truth m)); auto. done. Qed.

Lemma wp_WriteHolding address value actor m :
  Inv m → 0 ≤ address →
  let now := clock (ticks m) in
  wp (WriteHolding clock wall None address value actor)
     (λ r m', Good m m' ∧
        (TKind (truth m) ≠ OLTC → switch_post (expired now m) (fresh now m) address value m r m') ∧
        (TKind (truth m) = OLTC → tap_post (fresh now m) address value m r m') ∧
        0 ≤ Exception r < 256) m.
Proof.
  intros HI Ha now. unfold WriteHolding. apply wp_prologue; [done|]. intros before a n m1 HI1 Hb.
  assert (truth m1 = truth m) as Ht by apply truth_expired.
  apply st_wp_bind, st_wp_get. rewrite Ht. case_bool_decide as Hk.
  - eapply st_wp_mono; [apply wp_writeOLTC; [done|by rewrite Ht|done|done]|].
    intros r m' [Hg Hp]. split; [by eapply Good_from|]. split; [done|]. split; [intros _|apply Hp].
    destruct Hp as (H1 & H2 & H3 & H4). unfold requested in H2. rewrite Ht in *.
    split; [done|]. split; [|done]. intros x. rewrite H2, <- may_move_expired by done. done.
  - eapply st_wp_mono; [apply wp_writeSwitch; [done|rewrite Ht; destruct (Inv_kind m HI) as [|[|]]; auto; done|done]|].
    intros r m' [Hg Hp]. split; [by eapply Good_from|]. split; [intros _|split; [done|apply Hp]].
    destruct Hp as (H1 & H2 & H3 & (k & a' & n' & H4) & H5). rewrite Ht in *.
    refine (conj _ (conj H2 (conj H3 (conj _ H5)))); [|exists k, a', n'; rewrite H4, truth_expired; by destruct (Changed r)]. rewrite H1, <- may_close_expired, <- may_open_expired by done. done.
Qed.

Lemma WriteHolding_good ctxErr address value actor m :
  Inv m → 0 ≤ address →
  wp (WriteHolding clock wall ctxErr address value actor) (λ r m', Good m m' ∧ 0 ≤ Exception r < 256) m.
Proof.
  intros HI Ha. destruct ctxErr as [e|]; [split; [by apply Good_same|cbn; lia]|].
  eapply st_wp_mono; [by apply wp_WriteHolding|]. intros r m' (Hg & _ & _ & He). done.
Qed.

(** ** The motion callback *)
Lemma Inv_arrived now m : Inv m → Moving (truth m) = true →
  Inv (bumped now (set_motion None (set_truth
         (set_Moving false (set_Tap (TargetTap (truth m)) (truth m))) m))).
Proof.
  intros (Ht & Hm & Hs & Hp & Hl & Ha) Hmv.
  eapply Inv_bumped; [|by intros ?|exact Hs|exact Hp|exact Hl|exact Ha].
  unfold truth_ok in *. cbn in *. destruct (TKind (truth m)); [naive_solver..| |done].
  destruct Ht as (? & H & Harm). specialize (H Hmv). split; [apply H|]. done.
Qed.

(** The callback moves the tap to its target when its token is current and a
    motion is under way, and does nothing otherwise. *)
Lemma wp_motionDone token m :
  Inv m →
  wp (motionDone clock wall token)
     (λ _ m', Good m m' ∧
        if (token =? motionToken m) && Moving (truth m)
        then Tap (truth m') = TargetTap (truth m) ∧ Moving (truth m') = false
        else m' = m) m.
Proof.
  intros HI. unfold motionDone. apply st_wp_bind, st_wp_get.
  destruct (token =? motionToken m); cbn [negb orb andb];
    [|apply st_wp_ret; split; [by apply Good_same|done]].
  destruct (Moving (truth m)) eqn:Hmv; cbn [negb];
    [|apply st_wp_ret; split; [by apply Good_same|done]].
  apply wp_prologue; [done|]. intros before a n m1 HI1 Hb.
  assert (truth m1 = truth m) as Ht by apply truth_expired.
  apply st_wp_bind, st_wp_upd. cbv beta. apply st_wp_bind, st_wp_upd. cbv beta.
  apply st_wp_bind, wp_changed. cbv beta.
  pose proof (Inv_arrived (clock (ticks m1)) m1 HI1 ltac:(by rewrite Ht)) as HI2.
  apply wp_record; [exact (Inv_audit _ HI2)|]. intros a' n' Ha' Hrec. split.
  - apply (Good_from _ m1); [done|]. exact (Good_recorded _ _ _ _ _ HI2 Ha' Hb Hrec).
  - split; [|done]. change (TargetTap (truth m1) = TargetTap (truth m)). by rewrite Ht.
Qed.

(** ** Reads and lab actions *)
Lemma Model_Snapshot_good m : Inv m →
  wp (Model_Snapshot clock wall) (λ s m', Good m m' ∧ truth m' = truth m ∧ STruth s = truth m) m.
Proof.
  intros HI. apply st_wp_bind, wp_Now. cbv beta. apply st_wp_bind, wp_expireLocked; [exact (Inv_audit _ HI)|].
  intros a n Ha. cbv beta. apply wp_snapshot. intros s n' Hs _.
  assert (truth (expired (clock (ticks m)) (set_ticks (S (ticks m)) m)) = truth m) as Ht
    by by rewrite truth_expired.
  split; [|split; [exact Ht|by rewrite Hs]]. rewrite frame_expired.
  apply Good_frame; [by apply Inv_expired|done|by rewrite truth_expired].
Qed.

Lemma MeasurementStatus_good m : Inv m → wp (MeasurementStatus clock wall) (λ _ m', Good m m') m.
Proof.
  intros HI. apply st_wp_bind, wp_Now. cbv beta. apply st_wp_bind, wp_expireLocked; [exact (Inv_audit _ HI)|].
  intros a n Ha. cbv beta. apply st_wp_bind, st_wp_get.
  assert (Good m (frame (expired (clock (ticks m)) (set_ticks (S (ticks m)) m)) a n)) as Hg.
  { apply Good_frame; [by apply Inv_expired|done|by rewrite truth_expired]. }
  case_if; by apply st_wp_ret.
Qed.

(** An assignment to the truth that changes neither the revision nor a motion. *)
Lemma Inv_assign t' m :
  Inv m → truth_ok (normal m) t' → (Moving t' = true → Moving (truth m) = true) →
  Revision t' = Revision (truth m) → Inv (set_truth t' m).
Proof.
  intros (_ & Hm & Hs & Hp & Hl & Ha) Ht Hmv Hr.
  refine (conj Ht (conj (λ H, Hm (Hmv H)) (conj _ (conj Hp (conj Hl Ha))))).
  cbn. by rewrite Hr.
Qed.

(** The assignment [f] is one the actions perform. *)
Definition action_step (f : Truth → Truth) m : Prop :=
  truth_ok (normal m) (f (truth m)) ∧ Moving (f (truth m)) = Moving (truth m) ∧
  Revision (f (truth m)) = Revision (truth m) ∧ Tap (f (truth m)) = Tap (truth m).

Lemma wp_action_effect action m :
  Inv m →
  wp (action_effect action)
     (λ r m', Inv m' ∧ Tap (truth m') = Tap (truth m) ∧ (is_Some r → m' = m)) m.
Proof.
  intros HI. unfold action_effect. apply st_wp_bind, st_wp_get. cbv zeta.
  assert (∀ f, action_step f m →
    wp (do? upd_truth f in st_ret None : D (option string))
       (λ r m', Inv m' ∧ Tap (truth m') = Tap (truth m) ∧ (is_Some r → m' = m)) m) as Hacc.
  { intros f (Ht & Hmv & Hr & Htap). apply st_wp_bind, st_wp_upd, st_wp_ret.
    split; [by apply Inv_assign; [..|rewrite Hmv|]|]. split; [done|by intros [? [=]]]. }
  assert (∀ reason, wp (st_ret (Some reason) : D (option string))
       (λ r m', Inv m' ∧ Tap (truth m') = Tap (truth m) ∧ (is_Some r → m' = m)) m) as Hrej by done.
  pose proof (proj1 HI) as Ht. unfold action_step, truth_ok in *.
  destruct (TKind (truth m)) eqn:Hk; [| | |done]; cbn in Ht.
  - case_if; [apply Hrej|]. apply Hacc. cbn. rewrite Hk. destruct Ht as (_ & He & Hmv & _).
    split; [|done]. split; [by left|]. done.
  - destruct Ht as (Hpos & Hn & Hl & Hmv & He).
    assert (∀ f, TKind (f (truth m)) = RMU → TPosition (f (truth m)) = TPosition (truth m) →
      Lockout (f (truth m)) = false → Moving (f (truth m)) = Moving (truth m) →
      (EarthClosed (f (truth m)) = true → TPosition (truth m) = PositionOpen) →
      Revision (f (truth m)) = Revision (truth m) → Tap (f (truth m)) = Tap (truth m) →
      wp (do? upd_truth f in st_ret None : D (option string))
         (λ r m', Inv m' ∧ Tap (truth m') = Tap (truth m) ∧ (is_Some r → m' = m)) m) as Hrmu.
    { intros f Hfk Hfp Hfl Hfm Hfe Hfr Hft. apply Hacc. rewrite Hfk, Hfp, Hfl, Hfm. done. }
    case_if; [by apply Hrmu|]. case_if; [by apply Hrmu|]. case_if.
    { case_bool_decide as Hp; cbn [negb]; [|apply Hrej].
      destruct (Valid (measurements m)) eqn:Hv; cbn [negb]; [|apply Hrej].
      destruct (Inv_pointers m HI Hv) as (_ & src & sec & _ & Hsec).
      apply st_wp_bind. eapply st_wp_deref; [exact Hsec|]. destruct sec; [apply Hrej|by apply Hrmu]. }
    case_if; [by apply Hrmu|]. case_if; [by apply Hrmu|apply Hrej].
  - destruct Ht as (Htap & Hmv & Harm).
    assert (∀ f, TKind (f (truth m)) = OLTC → Tap (f (truth m)) = Tap (truth m) →
      TargetTap (f (truth m)) = TargetTap (truth m) → Moving (f (truth m)) = Moving (truth m) →
      (Armed (f (truth m)) = true → RemoteEnabled (f (truth m)) = true) →
      Revision (f (truth m)) = Revision (truth m) →
      wp (do? upd_truth f in st_ret None : D (option string))
         (λ r m', Inv m' ∧ Tap (truth m') = Tap (truth m) ∧ (is_Some r → m' = m)) m) as Holtc.
    { intros f Hfk Hft Hfg Hfm Hfa Hfr. apply Hacc. rewrite Hfk, Hft, Hfg, Hfm. done. }
    case_if; [by apply Holtc|]. case_if; [apply Holtc; by case_if|].
    case_if; [by apply Holtc|]. case_if; [by apply Holtc|apply Hrej].
Qed.

(** ** Reset *)
Lemma initialLocked_truth m : truth_ok (normal m) (truth m) →
  truth_ok (normal m) (truth (initialLocked m)) ∧ Moving (truth (initialLocked m)) = false ∧
  Revision (truth (initialLocked m)) = Revision (truth m) ∧
  (Tap (truth (initialLocked m)) = Tap (truth m) ∨ Tap (truth (initialLocked m)) = 0).
Proof.
  intros Ht. unfold truth_ok in *. unfold initialLocked. cbn.
  destruct (TKind (truth m)) eqn:Hk; cbn; [| | |done]; rewrite Hk.
  - destruct Ht as (_ & He & Hmv & _). split; [split; [by right|done]|]. auto.
  - destruct Ht as (_ & Hn & Hlk & Hmv & _). split; [split; [done|]; split; [done|done]|]. auto.
  - split; [split; [lia|done]|]. auto.
Qed.

Lemma initialLocked_rest m :
  normal (initialLocked m) = normal m ∧ measurements (initialLocked m) = measurements m ∧
  protection (initialLocked m) = protection m ∧ hasSolve (initialLocked m) = hasSolve m ∧
  firstSolveRevision (initialLocked m) = firstSolveRevision m ∧ audit (initialLocked m) = audit m ∧
  (lastRequest (initialLocked m) = lastRequest m ∨ lastRequest (initialLocked m) = 0).
Proof. unfold initialLocked. cbn. destruct (TKind (truth m)); cbn; repeat (split; [done|]); auto. Qed.

Lemma Inv_initial m :
  truth_ok (normal m) (truth m) →
  meas_ok (hasSolve m) (firstSolveRevision m) (Revision (truth m)) (measurements m) →
  pickup_ok (protection m) → is_u16 (lastRequest m) → audit_ok (audit m) → Inv (initialLocked m).
Proof.
  intros Ht Hs Hp Hl Ha. destruct (initialLocked_truth m Ht) as (Ht' & Hm & Hr & _).
  unfold Inv. destruct (initialLocked_rest m) as (-> & -> & -> & -> & -> & -> & Hreq).
  split; [done|]. split; [intros H; congruence|]. rewrite Hr. split; [done|]. split; [done|].
  split; [|done]. destruct Hreq as [-> | ->]; [done|]. unfold is_u16. lia.
Qed.

Definition action_post (action : string) m m' : Prop :=
  Tap (truth m') = Tap (truth m) ∨ action = "reset" ∧ Tap (truth m') = 0.

Lemma Action_good ctxErr action actor m :
  Inv m →
  wp (Action clock wall ctxErr action actor) (λ _ m', Good m m' ∧ action_post action m m') m.
Proof.
  intros HI. destruct ctxErr as [e|]; unfold Action.
  { apply st_wp_bind. eapply st_wp_mono; [by apply Model_Snapshot_good|]. intros s m' (Hg & Ht & _).
    apply st_wp_ret. split; [done|]. left. by rewrite Ht. }
  apply wp_prologue; [done|]. intros before a n m1 HI1 Hb.
  assert (truth m1 = truth m) as Ht by apply truth_expired.
  apply st_wp_bind. eapply (st_wp_mono _ (λ r m2, Inv m2 ∧ action_post action m1 m2 ∧ (is_Some r → m2 = m1))).
  - case_if; [|].
    + apply String.eqb_eq in Hif. do 4 (apply st_wp_bind, st_wp_upd; cbv beta). apply st_wp_ret.
      match goal with |- Inv (initialLocked ?x) ∧ _ => set (m2 := x) end.
      split; [|split; [|by intros [? [=]]]].
      * destruct HI1 as (H1 & _ & H2 & _ & H3 & H4).
        apply Inv_initial; [exact H1|exact H2|apply (pickup_reset (protection m1))|exact H3|exact H4].
      * destruct (initialLocked_truth m2) as (_ & _ & _ & [Htap|Htap]); [apply HI1|by left|by right].
    + eapply st_wp_mono; [by apply wp_action_effect|]. intros r m2 (H1 & H2 & H3). split; [done|].
      split; [by left|done].
  - intros r m2 (HI2 & Hpost & Hsame).
    assert (action_post action m m2) as Hpost' by (unfold action_post in *; by rewrite <- Ht).
    destruct r as [reason|].
    { pose proof (Hsame ltac:(by eexists)) as ->. apply st_wp_bind, wp_record; [exact (Inv_audit _ HI1)|].
      intros a' n' Ha' _. apply st_wp_bind, wp_snapshot. intros s n'' _ _. apply st_wp_ret.
      split; [exact (Good_frame m m1 a' n'' HI1 Ha' Ht)|exact Hpost']. }
    apply st_wp_bind, st_wp_get. cbv zeta. apply st_wp_bind, st_wp_when; intros Hc.
    + apply wp_changed. apply st_wp_bind.
      assert (Inv (bumped (clock (ticks m2)) m2)) as HI3.
      { destruct HI2 as (? & ? & ? & ? & ? & ?). by eapply Inv_bumped. }
      apply wp_record; [exact (Inv_audit _ HI3)|]. intros a' n' Ha' Hrec.
      apply st_wp_bind, wp_snapshot. intros s n'' _ _. apply st_wp_ret.
      split; [|exact Hpost'].
      refine (Good_recorded m _ a' n'' before HI3 Ha' _ Hrec). by rewrite Hb.
    + apply orb_false_iff in Hc as [_ Hc]. apply negb_false_iff, bool_decide_eq_true in Hc.
      apply st_wp_bind, wp_record; [exact (Inv_audit _ HI2)|]. intros a' n' Ha' _.
      apply st_wp_bind, wp_snapshot. intros s n'' _ _. apply st_wp_ret.
      split; [|exact Hpost'].
      refine (Good_frame m m2 a' n'' HI2 Ha' _). by rewrite Hc, Hb.
Qed.

(** ** Measurements *)

(** The sample repeats or precedes the stored solve of its epoch. *)
Definition replayed (input : MeasurementInput) (solved : Z) m : bool :=
  hasSolve m &&
  match SolverEpoch (measurements m), SolveSeq (measurements m), SolvedAt (measurements m) with
  | Some epoch, Some seq, Some prev =>
      (iSolverEpoch input =? epoch)%string && ((iSolveSeq input <=? seq) || (solved <=? prev))
  | _, _, _ => false
  end.

(** The sample does not continue the series of the stored solve. *)
Definition interrupted (input : MeasurementInput) (solved : Z) m : bool :=
  hasSolve m &&
  match SolverEpoch (measurements m), SolvedAt (measurements m) with
  | Some epoch, Some prev =>
      negb (iSolverEpoch input =? epoch)%string ||
      negb (iGeneration input =? protectionGeneration m) || (maxGap m <? time_Sub solved prev)
  | _, _ => false
  end.

Definition accepted (input : MeasurementInput) (solved : Z) m : Prop :=
  validMeasurement input = Some solved ∧ iDeviceID input = DeviceID (truth m) ∧
  iGeneration input = Generation (truth m) ∧ iRevision input = Revision (truth m) ∧
  replayed input solved m = false.

Lemma Inv_solve m : Inv m → hasSolve m = true →
  ∃ epoch seq prev, SolverEpoch (measurements m) = Some epoch ∧
    SolveSeq (measurements m) = Some seq ∧ SolvedAt (measurements m) = Some prev.
Proof. intros (_ & _ & [Hp _] & _) H. apply Hp in H as (_ & _ & [? ?] & [? ?] & [? ?]). by do 3 eexists. Qed.

Lemma wp_is_replay input solved m : Inv m →
  wp (is_replay input solved) (λ b m', m' = m ∧ b = replayed input solved m) m.
Proof.
  intros HI. unfold is_replay, replayed. apply st_wp_bind, st_wp_get.
  destruct (hasSolve m) eqn:Hh; cbn [negb andb]; [|by apply st_wp_ret].
  destruct (Inv_solve m HI Hh) as (epoch & seq & prev & -> & -> & ->).
  apply st_wp_bind. eapply st_wp_deref; [done|]. case_if; bool_facts.
  { apply st_wp_ret. by rewrite Hif. }
  rewrite Hif. cbn [andb].
  apply st_wp_bind. eapply st_wp_deref; [done|]. case_if; [by apply st_wp_ret|].
  apply st_wp_bind. eapply st_wp_deref; [done|]. apply st_wp_ret. split; [done|].
  unfold time_After. cbn [orb]. by rewrite <- Z.leb_antisym.
Qed.

Lemma wp_pickup_gap input solved m : Inv m →
  wp (pickup_gap input solved) (λ b m', m' = m ∧ b = interrupted input solved m) m.
Proof.
  intros HI. unfold pickup_gap, interrupted. apply st_wp_bind, st_wp_get.
  destruct (hasSolve m) eqn:Hh; cbn [negb andb]; [|by apply st_wp_ret].
  destruct (Inv_solve m HI Hh) as (epoch & seq & prev & -> & _ & ->).
  apply st_wp_bind. eapply st_wp_deref; [done|]. case_if; [by apply st_wp_ret|]. case_if; [by apply st_wp_ret|].
  apply st_wp_bind. eapply st_wp_deref; [done|]. by apply st_wp_ret.
Qed.

(** The model after an accepted sample, before protection. *)
Definition sampled (input : MeasurementInput) (solved now : Z) m : Model :=
  set_firstSolveRevision (Revision (truth m))
    (set_receivedMono now (set_hasSolve true (set_measurements
       (mkMeasurements true (Some (iCurrentA input)) (Some (iVoltageKV input)) (Some (iSourceKV input))
          (Some (iSectionLive input)) (Some (iSourceLive input)) (Some (iPMW input))
          (Some (iQMvar input)) (power_factor (iPMW input) (iQMvar input))
          (Some (iSolverEpoch input)) (Some (iSolveSeq input)) (Some solved) (Some now)) m))).

Lemma wp_accept_sample input solved now before actor (Q : unit → Model → Prop) m :
  audit_ok (audit m) →
  (∀ a n, audit_ok a → Q tt (frame (sampled input solved now m) a n)) →
  wp (accept_sample clock wall input solved now before actor) Q m.
Proof.
  intros Ha HQ. unfold accept_sample. apply st_wp_bind, st_wp_get.
  apply st_wp_bind, st_wp_upd. cbv beta. apply st_wp_bind, st_wp_upd. cbv beta.
  match goal with |- wp _ _ ?x => set (m1 := x) end.
  assert (∀ a n m2, audit m2 = a → frame m2 a n = frame (sampled input solved now m) a n →
    audit_ok a → wp (st_when (negb (Valid (measurements m)))
      (recordLocked clock wall "measurements_valid" "accepted" (DString "") before actor)) Q m2) as Hlast.
  { intros a n m2 Ea Hm2 Haud. subst a. apply st_wp_when; intros _.
    - apply wp_record; [done|]. intros a' n' Ha' _.
      replace (frame m2 a' n') with (frame (frame m2 (audit m2) n) a' n') by done.
      rewrite Hm2. exact (HQ a' n' Ha').
    - rewrite <- (frame_id m2). replace (frame m2 (audit m2) (ticks m2)) with
        (frame (frame m2 (audit m2) n) (audit m2) (ticks m2)) by done. rewrite Hm2.
      exact (HQ _ (ticks m2) Haud). }
  apply st_wp_bind, st_wp_when; intros Hc.
  - apply st_wp_bind, st_wp_upd. cbv beta. apply wp_record; [exact Ha|]. intros a n Haud _.
    by eapply (Hlast a n).
  - apply negb_false_iff, Z.eqb_eq in Hc. eapply (Hlast (audit m) (ticks m)); [done| |exact Ha].
    subst m1. unfold sampled. rewrite <- Hc. by destruct m.
Qed.

Definition reset_pickup (p : Protection) : Protection := set_PickedUpSince None (set_PickedUp false p).

(** The pick-up state after a sample. *)
Definition picked (input : MeasurementInput) (solved : Z) (p : Protection) : Protection :=
  if SFleb (PickupA p) (iCurrentA input)
  then set_PickedUpSince (Some (default solved (PickedUpSince p))) (set_PickedUp true p)
  else reset_pickup p.

Lemma wp_pick_up input solved (Q : unit → Model → Prop) m :
  Q tt (set_protection (picked input solved (protection m)) m) → wp (pick_up input solved) Q m.
Proof.
  intros HQ. unfold pick_up, picked in *. apply st_wp_bind, st_wp_upd. cbv beta. apply st_wp_bind, st_wp_get.
  cbn [protection set_protection PickedUp set_PickedUp PickedUpSince].
  destruct (SFleb (PickupA (protection m)) (iCurrentA input)) eqn:Hc; cbn [negb].
  - destruct (PickedUpSince (protection m)) as [since|] eqn:Hs; cbn [is_nil default] in *.
    + apply st_wp_ret. cbn [default] in HQ.
      assert (set_PickedUpSince (Some since) (set_PickedUp true (protection m)) =
              set_PickedUp true (protection m)) as E.
      { unfold set_PickedUpSince, set_PickedUp. cbn. by rewrite <- Hs. }
      rewrite <- E. exact HQ.
    + apply st_wp_upd. exact HQ.
  - apply st_wp_upd. exact HQ.
Qed.

Lemma picked_ok input solved p : pickup_ok (picked input solved p).
Proof. unfold picked. case_if; [|apply pickup_reset]. split; [by eexists|done]. Qed.

(** The protection operates on a sample. *)
Definition trips (input : MeasurementInput) (solved : Z) (p : Protection) : bool :=
  match InstantaneousA p with Some i => SFleb i (iCurrentA input) | None => false end ||
  match PickedUpSince p with
  | Some since => DelayMS p * millisecond <=? time_Sub solved since
  | None => false
  end.

Lemma wp_operates input solved m : pickup_ok (protection m) →
  wp (operates input solved) (λ b m', m' = m ∧ b = trips input solved (protection m)) m.
Proof.
  intros Hp. unfold operates, trips. apply st_wp_bind, st_wp_get. cbv zeta. case_if; [by apply st_wp_ret|].
  cbn [orb]. destruct (PickedUp (protection m)) eqn:Hu.
  - apply Hp in Hu as [since ->]. apply st_wp_bind. eapply st_wp_deref; [done|]. by apply st_wp_ret.
  - apply st_wp_ret. split; [done|]. destruct (PickedUpSince (protection m)) as [s|] eqn:Hs; [|done].
    assert (PickedUp (protection m) = true) by (apply Hp; by rewrite Hs). congruence.
Qed.

(** What the protection does to the truth. *)
Definition effect_post m m' : Prop :=
  Tap (truth m') = Tap (truth m) ∧ PickedUp (protection m') = PickedUp (protection m) ∧
  PickedUpSince (protection m') = PickedUpSince (protection m) ∧
  match TKind (truth m) with
  | Breaker =>
      if bool_decide (TPosition (truth m) = PositionClosed) then
        TPosition (truth m') = PositionOpen ∧ Lockout (truth m') = true ∧
        ProtectionTripped (truth m') = true ∧ Valid (measurements m') = false
      else truth m' = truth m ∧ measurements m' = measurements m
  | RMU => FaultPassage (truth m') = true ∧ TPosition (truth m') = TPosition (truth m)
  | _ => truth m' = truth m
  end.

Lemma wp_protection_effect input m0 m :
  Inv m → truth m = truth m0 →
  wp (protection_effect clock wall input) (λ _ m', Good m0 m' ∧ effect_post m m') m.
Proof.
  intros HI Ht. unfold protection_effect, effect_post. apply st_wp_bind, wp_snapshot.
  intros before n Hb _. apply st_wp_bind, st_wp_get.
  pose proof (Inv_frame m (audit m) n HI (Inv_audit _ HI)) as HI1.
  assert (Good m0 (frame m (audit m) n)) as Hsame by by apply Good_same.
  set (m1 := frame m (audit m) n) in *. change (truth m) with (truth m1) in *.
  change (measurements m) with (measurements m1). change (protection m) with (protection m1).
  clearbody m1. pose proof (proj1 HI1) as Htr. unfold truth_ok in Htr.
  destruct (TKind (truth m1)) eqn:Hk; [| |by apply st_wp_ret|done].
  - case_bool_decide as Hp; cbn [st_when]; [|by apply st_wp_ret].
    apply st_wp_bind, st_wp_upd. cbv beta. apply st_wp_bind, st_wp_upd. cbv beta. apply st_wp_bind, wp_changed. cbv beta.
    eapply (wp_record_bumped (λ t, set_ProtectionTripped true (set_Lockout true
              (set_TPosition PositionOpen t))) _ _ _ _ _ _ _ m0
              (set_protection (set_LastTripCurrentA (Some (iCurrentA input)) (protection m1)) m1));
      [exact HI1|exact Ht|by rewrite Hb| |done|].
    + unfold truth_ok. cbn. rewrite Hk. destruct Htr as (_ & He & Hmv & _). split; [by left|]. done.
    + intros a n' m' Hg. split; [exact Hg|]. done.
  - apply st_wp_when; intros Hf.
    + apply st_wp_bind, st_wp_upd. cbv beta. apply st_wp_bind, wp_changed. cbv beta.
      eapply (wp_record_bumped (set_FaultPassage true) _ _ _ _ _ _ _ m0 m1);
        [exact HI1|exact Ht|by rewrite Hb| |done|].
      * unfold truth_ok. cbn. by rewrite Hk.
      * intros a n' m' Hg. split; [exact Hg|]. done.
    + bool_facts. by split.
Qed.

(** The pick-up state a sample continues. *)
Definition carried (now : Z) (input : MeasurementInput) (solved : Z) m : Protection :=
  if stale now m || interrupted input solved m then reset_pickup (protection m) else protection m.

Definition apply_post (now : Z) (input : MeasurementInput) (solved : Z) m (s : option MeasurementErr) m'
    : Prop :=
  let p := picked input solved (carried now input solved m) in
  s = None ∧ PickedUp (protection m') = PickedUp p ∧ PickedUpSince (protection m') = PickedUpSince p ∧
  Tap (truth m') = Tap (truth m) ∧
  if trips input solved p then
    match TKind (truth m) with
    | Breaker =>
        if bool_decide (TPosition (truth m) = PositionClosed) then
          TPosition (truth m') = PositionOpen ∧ Lockout (truth m') = true ∧
          ProtectionTripped (truth m') = true ∧ Valid (measurements m') = false
        else truth m' = truth m ∧ Valid (measurements m') = true
    | RMU => FaultPassage (truth m') = true ∧ TPosition (truth m') = TPosition (truth m)
    | _ => truth m' = truth m
    end
  else truth m' = truth m ∧ Valid (measurements m') = true.

Lemma Inv_sampled input solved now m p :
  Inv m → pickup_ok p → Inv (set_protection p (sampled input solved now m)).
Proof.
  intros (Ht & Hm & _ & _ & Hl & Ha) Hp.
  refine (conj Ht (conj Hm (conj _ (conj Hp (conj Hl Ha))))).
  split; [intros _; cbn; repeat split; by eexists|done].
Qed.

Lemma expired_protection now m :
  protection (expired now m) = if stale now m then reset_pickup (protection m) else protection m.
Proof. unfold expired. by destruct (stale now m). Qed.

Lemma interrupted_expired input solved now m a n :
  interrupted input solved (frame (expired now m) a n) = interrupted input solved m.
Proof. unfold interrupted, expired. by destruct (stale now m). Qed.

(** From the expiry on, an accepted sample. *)
Lemma wp_accepted input solved now before actor m0 m :
  Inv m → truth m = truth m0 →
  wp (do? expireLocked clock wall now in
      let? gap := pickup_gap input solved in
      do? st_when gap resetPickupLocked in
      do? st_upd (set_protectionGeneration (iGeneration input)) in
      do? accept_sample clock wall input solved now before actor in
      do? pick_up input solved in
      let? trip := operates input solved in
      do? st_when trip (protection_effect clock wall input) in
      let? s := snapshotLocked clock in
      st_ret (s, None))
     (λ r m', Good m0 m' ∧ apply_post now input solved m r.2 m') m.
Proof.
  intros HI Ht. apply st_wp_bind, wp_expireLocked; [exact (Inv_audit _ HI)|]. intros a n Ha. cbv beta.
  pose proof (Inv_frame _ a n (Inv_expired now m HI) Ha) as HI1.
  apply st_wp_bind. eapply st_wp_mono; [by apply wp_pickup_gap|]. intros gap m1 [-> Hgap]. cbv beta.
  rewrite interrupted_expired in Hgap.
  set (m1 := frame (expired now m) a n) in *.
  assert (truth m1 = truth m) as Et by apply truth_expired.
  apply st_wp_bind. eapply (st_wp_mono _ (λ _ m2, m2 = set_protection (carried now input solved m) m1)).
  { assert (protection m1 = if stale now m then reset_pickup (protection m) else protection m) as Ep
      by apply expired_protection.
    unfold carried. apply st_wp_when; intros ->; symmetry in Hgap; rewrite Hgap.
    - rewrite orb_true_r. apply st_wp_upd. cbv beta. f_equal. rewrite Ep. by case_if.
    - rewrite orb_false_r, <- Ep. by destruct m1. }
  intros [] m2 ->. apply st_wp_bind, st_wp_upd. cbv beta.
  apply st_wp_bind, wp_accept_sample; [exact Ha|]. intros a' n' Ha'. cbv beta.
  apply st_wp_bind, wp_pick_up. cbv beta.
  match goal with |- wp _ _ (set_protection ?p _) => set (p1 := p) end.
  assert (p1 = picked input solved (carried now input solved m)) as Hp1 by done.
  match goal with |- wp _ _ ?x => set (m3 := x) end.
  assert (Inv m3) as HI3.
  { refine (Inv_frame (set_protection p1 (sampled input solved now m1)) a' n' _ Ha').
    apply Inv_sampled; [exact HI1|apply picked_ok]. }
  assert (protection m3 = p1) as Ep3 by done.
  assert (Valid (measurements m3) = true) as Hv3 by done.
  assert (truth m3 = truth m) as Et3 by exact Et.
  clearbody m3. clearbody p1. subst p1.
  apply st_wp_bind. eapply st_wp_mono; [apply wp_operates; by destruct HI3 as (_ & _ & _ & ? & _)|].
  intros trip m4 [-> Htrip]. cbv beta. rewrite Ep3 in Htrip. apply st_wp_bind.
  eapply (st_wp_mono _ (λ _ m', Good m0 m' ∧ apply_post now input solved m None m')).
  - unfold apply_post. rewrite <- Htrip. apply st_wp_when; intros ->.
    + eapply st_wp_mono; [apply (wp_protection_effect input m0); [done|by rewrite Et3]|].
      intros _ m' [Hg Hpost]. split; [done|]. unfold effect_post in Hpost. rewrite Et3, Ep3 in Hpost.
      destruct Hpost as (Htap & Hpu & Hps & Hk). do 4 (split; [done|]).
      destruct (TKind (truth m)); try done. case_bool_decide; [done|].
      destruct Hk as [Hk ->]. done.
    + split; [by apply Good_same; [|rewrite Et3]|]. rewrite Ep3, Et3. done.
  - intros [] m' [Hg Hpost]. apply st_wp_bind, wp_snapshot. intros s n'' _ _. apply st_wp_ret.
    split; [|exact Hpost]. destruct Hg as [HI' Hc]. split; [|exact Hc].
    exact (Inv_frame _ _ _ HI' (Inv_audit _ HI')).
Qed.

(** A refused sample: an error, and the state as it was but for the audit log
    and the clock position. *)
Definition refused_post m (r : option MeasurementErr) m' : Prop :=
  is_Some r ∧ ∃ a n, m' = frame m a n.

Lemma wp_refuse reason before actor m0 k :
  Inv m0 →
  wp (do? recordLocked clock wall "measurements" "rejected" (DString (MeasurementErr_String reason))
            before actor in
      let? s := snapshotLocked clock in
      st_ret (s, Some reason))
     (λ r m', Good m0 m' ∧ refused_post m0 r.2 m') (frame m0 (audit m0) k).
Proof.
  intros HI. apply st_wp_bind, wp_record; [exact (Inv_audit _ HI)|]. intros a n Ha _.
  apply st_wp_bind, wp_snapshot. intros s n' _ _. apply st_wp_ret.
  split; [exact (Good_frame m0 m0 a n' HI Ha eq_refl)|]. split; [by eexists|by exists a, n'].
Qed.

Lemma wp_ApplyMeasurements input actor m :
  Inv m →
  wp (ApplyMeasurements clock wall None input actor)
     (λ r m', Good m m' ∧
        ((∃ solved, accepted input solved m ∧ apply_post (clock (ticks m)) input solved m r.2 m') ∨
         (∀ solved, ¬ accepted input solved m) ∧ refused_post m r.2 m')) m.
Proof.
  intros HI. unfold ApplyMeasurements. apply st_wp_bind, wp_Now. cbv beta.
  apply st_wp_bind, wp_snapshot. intros before n _ _. cbv zeta. apply st_wp_bind, st_wp_get.
  change (frame (set_ticks (S (ticks m)) m) (audit (set_ticks (S (ticks m)) m)) n)
    with (frame m (audit m) n).
  pose proof (Inv_frame m (audit m) n HI (Inv_audit _ HI)) as HI1.
  assert (∀ reason, (∀ solved, ¬ accepted input solved m) →
    wp (do? recordLocked clock wall "measurements" "rejected" (DString (MeasurementErr_String reason))
              before actor in
        let? s := snapshotLocked clock in st_ret (s, Some reason))
       (λ r m', Good m m' ∧
        ((∃ solved, accepted input solved m ∧ apply_post (clock (ticks m)) input solved m r.2 m') ∨
         (∀ solved, ¬ accepted input solved m) ∧ refused_post m r.2 m')) (frame m (audit m) n)) as Href.
  { intros reason Hn. eapply st_wp_mono; [by apply wp_refuse|]. intros r m' [Hg Hr]. split; [done|by right]. }
  destruct (validMeasurement input) as [solved|] eqn:Hvm.
  2:{ apply Href. intros solved (Hx & _). congruence. }
  assert (∀ s, accepted input s m → accepted input solved m) as Hacc.
  { intros s (Hs & Hrest). assert (s = solved) as -> by congruence. done. }
  cbn [truth frame set_audit set_ticks].
  case_if.
  { apply Href. intros s (_ & Hd & _). apply negb_true_iff, String.eqb_neq in Hif. done. }
  apply negb_false_iff, String.eqb_eq in Hif. case_if.
  { apply Href. intros s (_ & _ & Hg & Hr & _). rewrite Hg, Hr, !Z.eqb_refl in Hif0. done. }
  bool_facts. apply st_wp_bind. eapply st_wp_mono; [by apply wp_is_replay|]. intros b m1 [-> Hb]. cbv beta.
  change (replayed input solved (frame m (audit m) n)) with (replayed input solved m) in Hb.
  destruct b.
  { apply Href. intros s Hs%Hacc. destruct Hs as (_ & _ & _ & _ & Hs). congruence. }
  eapply st_wp_mono; [by apply (wp_accepted _ _ _ _ _ m)|]. intros r m' [Hg Hp]. split; [done|].
  left. exists solved. done.
Qed.

Lemma ApplyMeasurements_good ctxErr input actor m :
  Inv m →
  wp (ApplyMeasurements clock wall ctxErr input actor)
     (λ _ m', Good m m' ∧ Tap (truth m') = Tap (truth m)) m.
Proof.
  intros HI. destruct ctxErr as [e|].
  { apply st_wp_bind. eapply st_wp_mono; [by apply Model_Snapshot_good|]. intros s m' (Hg & Ht & _).
    apply st_wp_ret. by rewrite Ht. }
  eapply st_wp_mono; [by apply wp_ApplyMeasurements|]. intros r m' [Hg [(s & _ & Hp)|[_ Hp]]]; (split; [done|]).
  - apply Hp.
  - by destruct Hp as (_ & a & n & ->).
Qed.

(** ** Every operation *)
Lemma step_good m m' : Inv m → step clock wall m m' → Good m m'.
Proof.
  intros HI Hs.
  assert (∀ {A} (op : D A) (Q : A → Model → Prop) r m1, wp op Q m → op m = (r, m1) →
    (∀ x y, Q x y → Good m y) → Good m m1) as Hrun.
  { intros A op Q r m1 Hw He HQ. unfold wp in Hw. rewrite He in Hw. destruct r; try done. by eapply HQ. }
  destruct Hs as [m r m' H|m r m' H|c a x m r m' H|c i x m r m' H|c ad v x m r m' Ha Hv H|tok m r m' _ H].
  - eapply Hrun; [by apply Model_Snapshot_good|exact H|]. by intros ? ? [? _].
  - eapply Hrun; [by apply MeasurementStatus_good|exact H|]. done.
  - eapply Hrun; [by apply Action_good|exact H|]. by intros ? ? [? _].
  - eapply Hrun; [by apply ApplyMeasurements_good|exact H|]. by intros ? ? [? _].
  - eapply Hrun; [apply (WriteHolding_good c ad v x); [done|lia]|exact H|]. by intros ? ? [? _].
  - eapply Hrun; [by apply wp_motionDone|exact H|]. by intros ? ? [? _].
Qed.

Lemma NewModel_Inv cfg m : NewModel clock cfg = inl m → Inv m.
Proof.
  unfold NewModel. destruct (config_error cfg) eqn:Hcfg; [done|]. case_if; [done|].
  intros [= <-]. unfold config_error in Hcfg.
  assert (audit_ok (NewAuditLog AuditCapacity)) as Ha.
  { split; [done|]. split; [cbn; lia|done]. }
  match goal with |- Inv (initialLocked (mkModel _ _ _ _ _ _ _ _ _ _ _ _ _ _ _ ?l ?c _ _ _)) =>
    generalize l c; intros local process end.
  assert (∀ t norm p g s now, truth_ok norm t → Moving t = false → pickup_ok p →
    Inv (mkModel p g (cGeneration cfg) t norm no_measurements zero_time false 0 now None 0 0
           RequestNone RequestNone local process (NewAuditLog AuditCapacity) s [])) as Hinit.
  { intros t norm p g s now Ht Hm Hp. split; [done|]. split; [intros H; cbn in H; congruence|].
    split; [by split|]. split; [done|]. split; [split; cbn; lia|done]. }
  unfold initialLocked. cbn [truth TKind set_truth set_RemoteEnabled].
  destruct (cKind cfg) eqn:Hk; [| | |done].
  - apply Hinit; [|done|by split; [|intros [? [=]]]]. split; [by right|done].
  - apply Hinit; [|done|by split; [|intros [? [=]]]].
    case_if_in Hcfg; [done|]. destruct (cRMUNormal cfg) eqn:Hn; [| |done]; cbn; unfold truth_ok, switch_position;
      cbn; repeat split; first [by left|by right|done].
  - apply Hinit; [|done|by split; [|intros [? [=]]]]. cbn. split; [lia|done].
Qed.

Lemma device_Inv cfg m : reachable clock wall cfg m → Inv m.
Proof.
  intros (m0 & H0 & Hs). apply NewModel_Inv in H0. induction Hs as [|a b c Hab _ IH]; [done|].
  apply IH. by apply (step_good a b).
Qed.

(** A step changes the tap only by completing a motion or by a reset. *)
Lemma step_taps m m' : Inv m → TKind (truth m) = OLTC → step clock wall m m' → Tap (truth m') ≠ Tap (truth m) →
  Moving (truth m) = true ∧ Tap (truth m') = TargetTap (truth m) ∨ Tap (truth m') = 0.
Proof.
  intros HI Hkind Hs Hn.
  assert (∀ {A} (op : D A) (Q : A → Model → Prop) r m1, wp op Q m → op m = (r, m1) →
    (∀ x y, Q x y → Tap (truth y) ≠ Tap (truth m) →
       Moving (truth m) = true ∧ Tap (truth y) = TargetTap (truth m) ∨ Tap (truth y) = 0) →
    Tap (truth m1) ≠ Tap (truth m) →
    Moving (truth m) = true ∧ Tap (truth m1) = TargetTap (truth m) ∨ Tap (truth m1) = 0) as Hrun.
  { intros A op Q r m1 Hw He HQ. unfold wp in Hw. rewrite He in Hw. destruct r; try done. by eapply HQ. }
  destruct Hs as [m r m' H|m r m' H|c a x m r m' H|c i x m r m' H|c ad v x m r m' Ha Hv H|tok m r m' _ H].
  - eapply Hrun; [by apply Model_Snapshot_good|exact H| |done]. intros ? ? (_ & -> & _). done.
  - eapply (Hrun _ _ (λ _ y, truth y = truth m)); [|exact H|by intros ? ? ->|done].
    apply st_wp_bind, wp_Now. cbv beta. apply st_wp_bind, wp_expireLocked; [exact (Inv_audit _ HI)|].
    intros a n Ha. cbv beta. apply st_wp_bind, st_wp_get. case_if; apply st_wp_ret; exact (truth_expired _ _).
  - eapply Hrun; [by apply Action_good|exact H| |done]. intros ? y [_ [?|[_ ?]]]; [done|by right].
  - eapply Hrun; [by apply ApplyMeasurements_good|exact H| |done]. by intros ? y [_ ?].
  - destruct c as [e|]; [by injection H as _ <-|].
    eapply Hrun; [apply (wp_WriteHolding ad v x); [done|lia]|exact H| |done].
    intros r' y (_ & _ & Htap & _) Hy. by destruct (Htap Hkind).
  - eapply Hrun; [by apply (wp_motionDone tok)|exact H| |done]. intros ? y [_ Hy] Hne.
    destruct ((tok =? motionToken m) && Moving (truth m)) eqn:Hc; [|by subst].
    apply andb_true_iff in Hc as [_ Hmv]. left. split; [done|apply Hy].
Qed.

(** ** Claims *)

(** C2. In every reachable state of a field device the interlocks hold (an
    earthed way is open, a locked-out breaker is open and tripped, taps stay
    within eight steps and move one step at a time, only a remotely controlled
    tap changer is armed), measurements are valid only for the present
    revision of the truth, and every operation returns: no nil pointer is
    dereferenced. *)
Theorem device_interlocks cfg m :
  reachable clock wall cfg m →
  truth_ok (normal m) (truth m) ∧ motion_ok (truth m) (motion m) (motionToken m) ∧
  (Valid (measurements m) = true → firstSolveRevision m = Revision (truth m)) ∧
  (∃ r m', Model_Snapshot clock wall m = (Ok r, m')) ∧
  (∃ r m', MeasurementStatus clock wall m = (Ok r, m')) ∧
  (∀ ctxErr action actor, ∃ r m', Action clock wall ctxErr action actor m = (Ok r, m')) ∧
  (∀ ctxErr input actor, ∃ r m', ApplyMeasurements clock wall ctxErr input actor m = (Ok r, m')) ∧
  (∀ ctxErr address value actor, is_u16 address →
     ∃ r m', WriteHolding clock wall ctxErr address value actor m = (Ok r, m')) ∧
  (∀ token, ∃ r m', motionDone clock wall token m = (Ok r, m')).
Proof.
  intros HI%device_Inv. pose proof HI as (Ht & Hm & Hs & _).
  assert (∀ {A} (op : D A) Q, wp op Q m → ∃ r m', op m = (Ok r, m')) as Hrun.
  { intros A op Q (r & m' & H & _)%st_wp_elim. eauto. }
  split; [done|]. split; [done|]. split; [by intros [_ ?]%(proj2 Hs)|].
  split; [eapply Hrun; by apply Model_Snapshot_good|].
  split; [eapply Hrun; by apply MeasurementStatus_good|].
  split; [intros; eapply Hrun; by apply Action_good|].
  split; [intros; eapply Hrun; by apply ApplyMeasurements_good|].
  split; [intros c a v x [Ha _]; eapply Hrun; by apply WriteHolding_good|].
  intros token. eapply Hrun. by apply wp_motionDone.
Qed.

(** C3. A write to a breaker or a ring main unit is accepted exactly when it
    addresses register 0 under remote control and either opens (a ring main
    unit only with a fresh measurement and no pick-up) or closes without
    lock-out, earthing or pick-up and with a fresh measurement that does not
    show both sides live; an accepted write takes the position it asks for.
    Beyond the expiry of old measurements that every operation begins with,
    the audit log and the clock position, a write that changes the position
    sets it and does the bookkeeping of a change, and any other write leaves
    the whole state as it is. *)
Theorem switch_operates cfg m address value actor :
  reachable clock wall cfg m → TKind (truth m) ≠ OLTC → is_u16 address →
  ∃ r m', WriteHolding clock wall None address value actor m = (Ok r, m') ∧
          switch_post (expired (clock (ticks m)) m) (fresh (clock (ticks m)) m) address value m r m'.
Proof.
  intros HI%device_Inv Hk [Ha _].
  destruct (st_wp_elim _ _ _ (wp_WriteHolding address value actor m HI Ha)) as (r & m' & Hw & _ & Hp & _).
  eauto.
Qed.

(** A write to a tap changer never changes the tap and starts a motion to
    [target] exactly when one of the two registers asks for this adjacent tap
    in its mode and the device is remote, idle, unblocked, without pick-up
    and freshly measured live; a motion under way is not redirected.  The tap
    itself changes only by completing a motion, to the adjacent target, or by
    a reset. *)
Theorem tap_moves cfg m :
  reachable clock wall cfg m → TKind (truth m) = OLTC →
  (∀ address value actor, is_u16 address →
     ∃ r m', WriteHolding clock wall None address value actor m = (Ok r, m') ∧
             tap_post (fresh (clock (ticks m)) m) address value m r m') ∧
  (∀ m', step clock wall m m' → Tap (truth m') ≠ Tap (truth m) →
     Tap (truth m') = 0 ∨
     Moving (truth m) = true ∧ Tap (truth m') = TargetTap (truth m) ∧
     (Tap (truth m') = Tap (truth m) + 1 ∨ Tap (truth m') = Tap (truth m) - 1)).
Proof.
  intros HI%device_Inv Hk. split.
  - intros address value actor [Ha _].
    destruct (st_wp_elim _ _ _ (wp_WriteHolding address value actor m HI Ha))
      as (r & m' & Hw & _ & _ & Hp & _). eauto.
  - intros m' Hs Hn. destruct (step_taps m m' HI Hk Hs Hn) as [[Hmv Ht]|Ht]; [right|by left].
    split; [done|]. split; [done|]. rewrite Ht.
    destruct HI as (Htr & _). unfold truth_ok in Htr. rewrite Hk in Htr.
    destruct Htr as (_ & Hadj & _). by destruct (Hadj Hmv).
Qed.

(** C33. A sample is accepted exactly when it is valid, of this device and of
    the present truth, and not a replay; any other is refused with an error and
    changes nothing but the audit log and the clock position.  An accepted sample updates the pick-up state, which starts
    over after an expiry or an interruption, and trips a closed breaker (open,
    locked out, measurements void) exactly when its current reaches the
    instantaneous threshold or the pick-up has lasted for the delay. *)
Theorem protection_trips cfg m input actor :
  reachable clock wall cfg m →
  ∃ s e m', ApplyMeasurements clock wall None input actor m = (Ok (s, e), m') ∧
    ((∃ solved, accepted input solved m ∧ apply_post (clock (ticks m)) input solved m e m') ∨
     (∀ solved, ¬ accepted input solved m) ∧ refused_post m e m').
Proof.
  intros HI%device_Inv.
  destruct (st_wp_elim _ _ _ (wp_ApplyMeasurements input actor m HI)) as ([s e] & m' & Hw & _ & Hp). eauto 10.
Qed.

(** The audit trail is complete: every change of a device's truth, by
    whatever operation, is reported by the newest entry with the truth before
    and after it, and the log keeps at most 500 entries with consecutive
    sequence numbers. *)
Theorem audit_complete cfg m m' :
  reachable clock wall cfg m → step clock wall m m' →
  audit_ok (audit m') ∧
  (truth m' ≠ truth m →
   ∃ e, last (entries (audit m')) = Some e ∧ STruth (Before e) = truth m ∧ STruth (After e) = truth m').
Proof.
  intros HI%device_Inv Hs. destruct (step_good m m' HI Hs) as [HI' Hc].
  split; [by apply Inv_audit|]. intros Hn. destruct Hc as [?|(before & Hb & e & He & <- & Ha)]; [done|].
  exists e. done.
Qed.

End Device.

(** ** Concrete devices

    A clock of one millisecond per reading, a breaker, a ring main unit and a
    tap changer after their first sample. *)
Definition demo_clock (n : nat) : Z := 1767225600 * 1000000000 + Z.of_nat n * millisecond.
Definition demo_actor : AuditContext := mkContext "10.0.0.5" "modbus" "control".

Definition demo_cfg (kind : Kind) (id : string) : Config :=
  mkConfig None kind id PositionClosed 7 (mkContext "" "" "") (mkContext "" "" "").

Definition new_device (kind : Kind) (id : string) : option Model :=
  match NewModel demo_clock (demo_cfg kind id) with inl m => Some m | inr _ => None end.

Definition demo_sample (id : string) (amps : Z) : MeasurementInput :=
  mkInput 3 id 7 1 "epoch-1" 1 "2026-01-01T00:00:00.5Z" (f64_of amps 0) (f64_of 20 0) (f64_of 20 0)
    true false (f64_of 1 0) (f64_of 1 (-2)).

Ltac device kind id :=
  let r := eval vm_compute in (new_device kind id) in
  match r with Some ?m => exact m end.

Definition breaker0 : Model := ltac:(device Breaker "f2-breaker").
Definition rmu0 : Model := ltac:(device RMU "rmu-1").
Definition oltc0 : Model := ltac:(device OLTC "oltc-1").

Definition sample_on (m : Model) (amps : Z) : Model :=
  (ApplyMeasurements demo_clock 0 None (demo_sample (DeviceID (truth m)) amps) demo_actor m).2.

Lemma sampled_reachable kind id m amps :
  NewModel demo_clock (demo_cfg kind id) = inl m →
  reachable demo_clock 0 (demo_cfg kind id) (sample_on m amps).
Proof.
  intros Hm. exists m. split; [done|]. eapply star_step; [|apply star_refl].
  eapply step_Measurements. apply surjective_pairing.
Qed.

(** A current above the instantaneous threshold trips the breaker at once, one
    between the thresholds only picks up. *)
Example breaker_trips :
  TPosition (truth (sample_on breaker0 2000)) = PositionOpen ∧
  Lockout (truth (sample_on breaker0 2000)) = true ∧
  TPosition (truth (sample_on breaker0 1999)) = PositionClosed ∧
  PickedUp (protection (sample_on breaker0 1999)) = true ∧
  PickedUp (protection (sample_on breaker0 399)) = false.
Proof. by vm_compute. Qed.

Lemma device_interlocks_witness :
  truth_ok PositionClosed (truth (sample_on breaker0 2000)) ∧
  (Valid (measurements (sample_on breaker0 2000)) = true →
   firstSolveRevision (sample_on breaker0 2000) = Revision (truth (sample_on breaker0 2000))).
Proof.
  destruct (device_interlocks demo_clock 0 (demo_cfg Breaker "f2-breaker") (sample_on breaker0 2000))
    as (Ht & _ & Hv & _).
  - apply sampled_reachable. by vm_compute.
  - split; [exact Ht|exact Hv].
Defined.

Lemma switch_operates_witness :
  ∃ r m', WriteHolding demo_clock 0 None 0 1 demo_actor (sample_on rmu0 20) = (Ok r, m') ∧
          switch_post demo_clock (expired (demo_clock (ticks (sample_on rmu0 20))) (sample_on rmu0 20))
            (fresh (demo_clock (ticks (sample_on rmu0 20))) (sample_on rmu0 20)) 0 1
            (sample_on rmu0 20) r m'.
Proof.
  apply (switch_operates demo_clock 0 (demo_cfg RMU "rmu-1")).
  - apply sampled_reachable. by vm_compute.
  - by vm_compute.
  - unfold is_u16. lia.
Defined.

Lemma tap_moves_witness :
  ∃ r m', WriteHolding demo_clock 0 None 2 1 demo_actor (sample_on oltc0 20) = (Ok r, m') ∧
          tap_post (fresh (demo_clock (ticks (sample_on oltc0 20))) (sample_on oltc0 20)) 2 1
            (sample_on oltc0 20) r m'.
Proof.
  apply (tap_moves demo_clock 0 (demo_cfg OLTC "oltc-1")).
  - apply sampled_reachable. by vm_compute.
  - by vm_compute.
  - unfold is_u16. lia.
Defined.

Lemma protection_trips_witness :
  ∃ s e m', ApplyMeasurements demo_clock 0 None (demo_sample "f2-breaker" 2000) demo_actor breaker0
              = (Ok (s, e), m') ∧
    ((∃ solved, accepted (demo_sample "f2-breaker" 2000) solved breaker0 ∧
        apply_post (demo_clock (ticks breaker0)) (demo_sample "f2-breaker" 2000) solved breaker0 e m') ∨
     (∀ solved, ¬ accepted (demo_sample "f2-breaker" 2000) solved breaker0) ∧ refused_post breaker0 e m').
Proof.
  apply (protection_trips demo_clock 0 (demo_cfg Breaker "f2-breaker")).
  exists breaker0. split; [by vm_compute|apply star_refl].
Defined.

Lemma audit_complete_witness :
  audit_ok (audit (sample_on breaker0 2000)) ∧
  (truth (sample_on breaker0 2000) ≠ truth breaker0 →
   ∃ e, last (entries (audit (sample_on breaker0 2000))) = Some e ∧
        STruth (Before e) = truth breaker0 ∧ STruth (After e) = truth (sample_on breaker0 2000)).
Proof.
  apply (audit_complete demo_clock 0 (demo_cfg Breaker "f2-breaker")).
  - exists breaker0. split; [by vm_compute|apply star_refl].
  - eapply step_Measurements. apply surjective_pairing.
Defined.

(** A full operation of the tap changer: manual mode, a fresh sample for the
    new revision, one step up, arrival. *)
Example tap_step_up :
  let m1 := (WriteHolding demo_clock 0 None 2 1 demo_actor oltc0).2 in
  let s := demo_sample "oltc-1" 20 in
  let s := mkInput 3 "oltc-1" 7 2 (iSolverEpoch s) 1 (iSolvedAt s) (iCurrentA s) (iVoltageKV s)
             (iSourceKV s) true false (iPMW s) (iQMvar s) in
  let m2 := (ApplyMeasurements demo_clock 0 None s demo_actor m1).2 in
  let m3 := (WriteHolding demo_clock 0 None 0 2 demo_actor m2).2 in
  let m4 := (motionDone demo_clock 0 1 m3).2 in
  (Moving (truth m3), Tap (truth m3), Moving (truth m4), Tap (truth m4), timers m4)
  = (true, 0, false, 1, [1]).
Proof. by vm_compute. Qed.
