(* ===== verification/ModbusServer.v ===== *)
(** * Modbus server of the field devices (services/devices/modbus)

    The register map and the request handlers over any device that implements
    the source's [device] interface, and the connection loop.  The class
    [device] has the two methods of that interface, [DeviceLaws] what the
    server relies on; the theorems are proved against the laws and the field
    device of [FieldDevice] is an instance. *)
From S2P Require Import Prelude GoLib FieldDevice FieldDeviceInv.
From Stdlib Require Import SpecFloat.

#[local] Open Scope string_scope.
#[local] Open Scope Z_scope.

(** ** The device interface *)
Class device (D : Type) : Type := {
  dev_Snapshot : stM D Empty_set Snapshot;
  dev_WriteHolding : Z → Z → AuditContext → stM D Empty_set CommandResult
}.

(** A snapshot whose counters are of their [uint16] type. *)
Definition snapshot_typed (s : Snapshot) : Prop := is_u16 (LastRequest s) ∧ is_u16 (Heartbeat s).

Class DeviceLaws (D : Type) `{device D} (inv : D → Prop) : Prop := {
  snapshot_returns d : inv d → wp dev_Snapshot (λ s d', inv d' ∧ snapshot_typed s) d;
  write_returns d address value actor :
    inv d → is_u16 address → is_u16 value →
    wp (dev_WriteHolding address value actor) (λ r d', inv d' ∧ is_u8 (Exception r)) d
}.

(** ** Registers *)

(** [registers[i], registers[i+1] = uint16(value>>16), uint16(value)]. *)
Definition putUint32 (i : nat) (value : Z) (registers : list Z) : list Z :=
  <[(i + 1)%nat := u16 value]> (<[i := u16 (Z.shiftr value 16)]> registers).

Definition putFloat32 (i : nat) (value : float64) (registers : list Z) : list Z :=
  putUint32 i (Float32bits (to_float32 value)) registers.

Definition setBit (bit : Z) (on : bool) (registers : list Z) : list Z :=
  if on then <[1%nat := Z.lor (nth 1 registers 0) (Z.shiftl 1 bit)]> registers else registers.

Definition positionRegister (p : Position) : Z * bool :=
  match p with
  | PositionOpen => (1, true)
  | PositionClosed => (2, true)
  | OtherPosition _ => (3, false)
  end.

(** [uint16(min(65535, math.Round(v*1000)))].  The conversion of a NaN or of a
    negative number is left to the implementation by the language; accepted
    measurements have neither, and the model then gives 0. *)
Definition millivolts (v : float64) : Z :=
  match fmul v (f64_of 1000 0) with
  | S754_finite false m e => Z.min 65535 (round_half_up m e)
  | S754_infinity false => 65535
  | _ => 0
  end.

Definition nan : float64 := S754_nan.

(** The status bits and registers of each kind. *)
Definition kind_registers (s : Snapshot) (registers : list Z) : list Z :=
  let t := STruth s in
  let ms := SMeasurements s in
  let pickedUp := PickedUp (SProtection s) in
  match TKind t with
  | Breaker =>
      setBit 3 (ProtectionTripped t) (setBit 2 pickedUp (setBit 1 (Lockout t) registers))
  | RMU => setBit 3 pickedUp (setBit 2 (FaultPassage t) (setBit 1 (EarthClosed t) registers))
  | OLTC =>
      let registers := <[0%nat := u16 (Tap t)]> registers in
      let registers := setBit 1 (Auto t) registers in
      let registers := setBit 2 (Moving t) registers in
      let registers := setBit 3 (Tap t =? -8) registers in
      let registers := setBit 4 (Tap t =? 8) registers in
      let registers := setBit 5 (Blocked t || pickedUp) registers in
      let registers := setBit 7 pickedUp registers in
      let registers := setBit 6 (match SectionLive ms with Some b => b | None => false end) registers in
      let registers := <[11%nat := u16 (TargetTap t)]> registers in
      let registers := <[13%nat := match PLCRequestResult s with
                                   | RequestNone => 0 | RequestAccepted => 1 | RequestNotRemote => 2
                                   | RequestNotAuto => 3 | RequestMoving => 4 | RequestNotAdjacent => 5
                                   | RequestLimit => 6 | RequestBlocked => 7 | RequestUnarmed => 8
                                   | RequestNotEnergized => 9
                                   end]> registers in
      let registers := <[14%nat := Heartbeat s]> registers in
      match VoltageKV ms with
      | Some v => if Valid ms then <[12%nat := millivolts v]> registers else registers
      | None => registers
      end
  | OtherKind _ => registers
  end.

(** The power registers of breakers and tap changers, two per value. *)
Definition power_registers (ms : Measurements) (start : nat) (registers : list Z) : list Z :=
  let value := λ v : option float64, match v with Some x => if Valid ms then x else nan | None => nan end in
  putFloat32 (start + 4) (value (PF ms))
    (putFloat32 (start + 2) (value (QMvar ms)) (putFloat32 start (value (PMW ms)) registers)).

Definition put_optional (i : nat) (v : option float64) (registers : list Z) : list Z :=
  match v with Some x => putFloat32 i x registers | None => registers end.

Definition register_count (k : Kind) : nat :=
  match k with RMU => 13 | OLTC => 21 | _ => 17 end.

Definition inputRegisters (s : Snapshot) : list Z :=
  let t := STruth s in
  let ms := SMeasurements s in
  let registers := replicate (register_count (TKind t)) 0 in
  let registers := <[0%nat := (positionRegister (TPosition t)).1]> registers in
  let registers := setBit 0 (RemoteEnabled t) registers in
  let registers := kind_registers s registers in
  let registers := if Valid ms then <[2%nat := 1]> registers else registers in
  let '(current, voltage) :=
    match TKind t with OLTC => (VoltageKV ms, CurrentA ms) | _ => (CurrentA ms, VoltageKV ms) end in
  let registers := put_optional 3 current registers in
  let registers := put_optional 5 voltage registers in
  let registers := putUint32 7 (u32 (EventSeq t)) registers in
  let registers := putUint32 9 (Generation t) registers in
  match TKind t with
  | RMU => put_optional 11 (SourceKV ms) registers
  | OLTC => power_registers ms 15 registers
  | _ => power_registers ms 11 registers
  end.

(** ** Protocol data units *)
Definition UnitID : Z := 1.
Definition functionReadHolding : Z := 0x03.
Definition functionReadInput : Z := 0x04.
Definition functionWriteSingle : Z := 0x06.
Definition functionWriteMultiple : Z := 0x10.
Definition exceptionIllegalFunction : Z := 0x01.
Definition exceptionIllegalAddress : Z := 0x02.
Definition exceptionIllegalValue : Z := 0x03.
Definition exceptionDeviceFailure : Z := 0x04.

(** [binary.BigEndian]. *)
Definition be16 (hi lo : Z) : Z := Z.lor lo (Z.shiftl hi 8).
Definition put_be16 (v : Z) : list Z := [u8 (Z.shiftr v 8); u8 v].

Definition exception (function code : Z) : list Z := [Z.lor function 0x80; code].

Definition registerResponse (function : Z) (registers : list Z) : list Z :=
  function :: u8 (2 * zlen registers) :: concat (put_be16 <$> registers).

(** [registers[address:end]] behind the common checks of the read handlers. *)
Definition read_window (function : Z) (registers : list Z) (address quantity : Z) : list Z :=
  let end_ := address + quantity in
  if (quantity =? 0) || (125 <? quantity) || (zlen registers <? end_)
  then exception function exceptionIllegalAddress
  else registerResponse function (take (Z.to_nat quantity) (drop (Z.to_nat address) registers)).

Definition holdingRegisters (s : Snapshot) : list Z :=
  match TKind (STruth s) with
  | OLTC => [0; LastRequest s; if Auto (STruth s) then 2 else 1]
  | _ => [(positionRegister (TPosition (STruth s))).1]
  end.

Section Server.
Context {D : Type} `{device D} (zones_Context : string → AuditContext).

Definition P (A : Type) : Type := stM D Empty_set A.

(** [write]: the exception code of a refused write, or 0. *)
Definition write (address value : Z) (peer : string) : P Z :=
  let? result := dev_WriteHolding address value (zones_Context peer) in
  if negb (Exception result =? 0) then st_ret (Exception result)
  else if negb (Accepted result) then st_ret exceptionDeviceFailure
  else st_ret 0.

Definition readHolding (pdu : list Z) : P (list Z) :=
  match pdu with
  | [_; a1; a0; q1; q0] =>
      let? s := dev_Snapshot in
      st_ret (read_window functionReadHolding (holdingRegisters s) (be16 a1 a0) (be16 q1 q0))
  | _ => st_ret (exception functionReadHolding exceptionIllegalValue)
  end.

Definition readInput (pdu : list Z) : P (list Z) :=
  match pdu with
  | [_; a1; a0; q1; q0] =>
      let? s := dev_Snapshot in
      st_ret (read_window functionReadInput (inputRegisters s) (be16 a1 a0) (be16 q1 q0))
  | _ => st_ret (exception functionReadInput exceptionIllegalValue)
  end.

Definition writeSingle (pdu : list Z) (peer : string) : P (list Z) :=
  match pdu with
  | [_; a1; a0; v1; v0] =>
      let? code := write (be16 a1 a0) (be16 v1 v0) peer in
      if negb (code =? 0) then st_ret (exception functionWriteSingle code) else st_ret pdu
  | _ => st_ret (exception functionWriteSingle exceptionIllegalValue)
  end.

(** [pdu[i]], a panic outside the slice. *)
Definition at_ (pdu : list Z) (i : nat) : P Z := deref (pdu !! i).

Definition writeMultiple (pdu : list Z) (peer : string) : P (list Z) :=
  if (length pdu <? 6)%nat then st_ret (exception functionWriteMultiple exceptionIllegalValue)
  else
    let? q1 := at_ pdu 3 in
    let? q0 := at_ pdu 4 in
    let? n := at_ pdu 5 in
    if negb (be16 q1 q0 =? 1) || negb (n =? 2) || negb (length pdu =? 8)%nat
    then st_ret (exception functionWriteMultiple exceptionIllegalValue)
    else
      let? a1 := at_ pdu 1 in
      let? a0 := at_ pdu 2 in
      let address := be16 a1 a0 in
      let? refused := (if negb (address =? 1) then st_ret true
                       else let? s := dev_Snapshot in
                            st_ret (negb (bool_decide (TKind (STruth s) = OLTC)))) in
      if refused : bool then st_ret (exception functionWriteMultiple exceptionIllegalAddress)
      else
        let? v1 := at_ pdu 6 in
        let? v0 := at_ pdu 7 in
        let? code := write address (be16 v1 v0) peer in
        if negb (code =? 0) then st_ret (exception functionWriteMultiple code)
        else st_ret (take 5 pdu).

Definition HandlePDU (pdu : list Z) (peer : string) : P (list Z) :=
  match pdu with
  | [] => st_ret [0x80; exceptionIllegalValue]
  | function :: _ =>
      if function =? functionReadHolding then readHolding pdu
      else if function =? functionReadInput then readInput pdu
      else if function =? functionWriteSingle then writeSingle pdu peer
      else if function =? functionWriteMultiple then writeMultiple pdu peer
      else st_ret (exception function exceptionIllegalFunction)
  end.

(** ** The connection loop

    [r] is what the peer sends before it closes; the octets of each response
    are the elements of the result.  [accepts n] tells whether the [n]-th
    response could be written. *)
Definition response_frame (t1 t0 unit_ : Z) (response : list Z) : list Z :=
  put_be16 (be16 t1 t0) ++ put_be16 0 ++ put_be16 (u16 (1 + zlen response)) ++ unit_ :: response.

Fixpoint ServeConn (fuel : nat) (accepts : nat → bool) (n : nat) (peer : string) (r : list Z)
    : P (list (list Z)) :=
  match fuel with
  | O => λ d, (Diverge, d)
  | S fuel' =>
      match read_full 7 r with
      | inr _ => st_ret []
      | inl (header, r1) =>
          let? t1 := at_ header 0 in
          let? t0 := at_ header 1 in
          let? p1 := at_ header 2 in
          let? p0 := at_ header 3 in
          let? l1 := at_ header 4 in
          let? l0 := at_ header 5 in
          let? unit_ := at_ header 6 in
          let length_ := be16 l1 l0 in
          if negb (be16 p1 p0 =? 0) || (length_ <? 2) || (254 <? length_) then st_ret []
          else
            match read_full (Z.to_nat length_ - 1) r1 with
            | inr _ => st_ret []
            | inl (pdu, r2) =>
                if negb (unit_ =? UnitID) then ServeConn fuel' accepts n peer r2
                else
                  let? response := HandlePDU pdu peer in
                  let frame := response_frame t1 t0 unit_ response in
                  if accepts n then
                    let? more := ServeConn fuel' accepts (S n) peer r2 in
                    st_ret (frame :: more)
                  else st_ret []
            end
      end
  end.

End Server.

(** ** Typing of the registers *)
Lemma lor_u16 a b : is_u16 a → is_u16 b → is_u16 (Z.lor a b).
Proof.
  unfold is_u16. intros Ha Hb. split; [apply Z.lor_nonneg; lia|].
  destruct (Z.eq_dec (Z.lor a b) 0) as [->|Hn]; [lia|].
  assert (0 ≤ Z.lor a b) by (apply Z.lor_nonneg; lia).
  change 65536 with (2 ^ 16). apply Z.log2_lt_pow2; [lia|]. rewrite Z.log2_lor by lia.
  apply Z.max_lub_lt.
  - destruct (Z.eq_dec a 0) as [->|]; [done|]. apply Z.log2_lt_pow2; lia.
  - destruct (Z.eq_dec b 0) as [->|]; [done|]. apply Z.log2_lt_pow2; lia.
Qed.

(** [n] registers, each of the [uint16] type. *)
Definition regs_ok (n : nat) (r : list Z) : Prop := length r = n ∧ Forall is_u16 r.

Lemma regs_insert n i v r : regs_ok n r → is_u16 v → regs_ok n (<[i := v]> r).
Proof. intros [Hl Hf] Hv. split; [by rewrite length_insert|]. by apply Forall_insert. Qed.

Lemma regs_put32 n i v r : regs_ok n r → regs_ok n (putUint32 i v r).
Proof. intros Hr. unfold putUint32. apply regs_insert; [apply regs_insert; [done|]|]; apply u16_range. Qed.

Lemma regs_float n i v r : regs_ok n r → regs_ok n (putFloat32 i v r).
Proof. apply regs_put32. Qed.

Lemma regs_optional n i v r : regs_ok n r → regs_ok n (put_optional i v r).
Proof. destruct v; [apply regs_float|done]. Qed.

Lemma regs_bit n bit on r : regs_ok n r → 0 ≤ bit < 16 → regs_ok n (setBit bit on r).
Proof.
  intros Hr Hb. unfold setBit. destruct on; [|done]. apply regs_insert; [done|]. apply lor_u16.
  - destruct Hr as [_ Hf]. destruct r as [|a [|b r]]; cbn; [split; lia..|].
    by apply Forall_cons in Hf as [_ [Hf _]%Forall_cons].
  - rewrite Z.shiftl_1_l. unfold is_u16. split; [lia|]. change 65536 with (2 ^ 16).
    apply Z.pow_lt_mono_r; lia.
Qed.

Lemma regs_if n (b : bool) x y : regs_ok n x → regs_ok n y → regs_ok n (if b then x else y).
Proof. by destruct b. Qed.

Lemma millivolts_u16 v : is_u16 (millivolts v).
Proof.
  unfold millivolts, is_u16. destruct (fmul _ _) as [| [] | |[] m e]; try lia.
  assert (0 ≤ round_half_up m e); [|lia]. unfold round_half_up. case_if.
  - apply Z.shiftl_nonneg. lia.
  - apply Z.shiftr_nonneg. assert (0 ≤ Z.shiftl 1 (- e - 1)); [apply Z.shiftl_nonneg|]; lia.
Qed.

Create HintDb modbus discriminated.
#[export] Hint Resolve regs_insert regs_put32 regs_float regs_optional regs_bit regs_if
  u16_range millivolts_u16 : modbus.
#[export] Hint Extern 1 (0 ≤ _ < 16) => lia : modbus.
#[export] Hint Extern 1 (is_u16 _) => (unfold is_u16; lia) : modbus.

Lemma kind_registers_ok n s r : regs_ok n r → snapshot_typed s → regs_ok n (kind_registers s r).
Proof.
  intros Hr [_ Hh]. unfold kind_registers. destruct (TKind (STruth s)); auto 20 with modbus.
  match goal with |- context [<[14%nat := ?h]> ?x] =>
    assert (regs_ok n (<[14%nat := h]> x)) as Hbase; [|revert Hbase; generalize (<[14%nat := h]> x)]
  end.
  - apply regs_insert; [|done]. apply regs_insert; [|destruct (PLCRequestResult s); auto with modbus].
    auto 30 with modbus.
  - intros x Hx. destruct (VoltageKV (SMeasurements s)); auto with modbus.
Qed.

Lemma inputRegisters_ok s :
  snapshot_typed s → regs_ok (register_count (TKind (STruth s))) (inputRegisters s).
Proof.
  intros Hs. unfold inputRegisters. set (n := register_count _).
  assert (regs_ok n (replicate n 0)) as H0.
  { split; [apply length_replicate|]. apply Forall_replicate. unfold is_u16. lia. }
  assert (is_u16 (positionRegister (TPosition (STruth s))).1) as Hp
    by (destruct (TPosition (STruth s)); cbn; unfold is_u16; lia).
  assert (regs_ok n (kind_registers s (setBit 0 (RemoteEnabled (STruth s))
            (<[0%nat := (positionRegister (TPosition (STruth s))).1]> (replicate n 0))))) as Hk
    by (apply kind_registers_ok; auto with modbus).
  revert Hk. generalize (kind_registers s (setBit 0 (RemoteEnabled (STruth s))
            (<[0%nat := (positionRegister (TPosition (STruth s))).1]> (replicate n 0)))).
  intros r Hk. clearbody n.
  destruct (TKind (STruth s)); unfold power_registers; auto 20 with modbus.
Qed.

Lemma holdingRegisters_ok s : snapshot_typed s →
  Forall is_u16 (holdingRegisters s) ∧ (1 ≤ length (holdingRegisters s) ≤ 3)%nat.
Proof.
  intros [Hl _]. unfold holdingRegisters.
  assert (is_u16 (positionRegister (TPosition (STruth s))).1)
    by (destruct (TPosition (STruth s)); cbn; unfold is_u16; lia).
  destruct (TKind (STruth s)); (split; [|cbn; lia]);
    repeat first [apply Forall_nil_2|apply Forall_cons_2]; try done; try case_if; unfold is_u16; lia.
Qed.

(** ** Responses *)
Lemma be16_range hi lo : is_u8 hi → is_u8 lo → is_u16 (be16 hi lo).
Proof. intros. by apply le16_range. Qed.

Lemma put_be16_ok v : bytes_ok (put_be16 v).
Proof. unfold put_be16. repeat apply Forall_cons_2; try apply u8_range. apply Forall_nil_2. Qed.

Lemma put_be16_read v : is_u16 v → be16 (u8 (Z.shiftr v 8)) (u8 v) = v.
Proof. apply le16_bytes. Qed.

Lemma concat_be16 l :
  bytes_ok (concat (put_be16 <$> l)) ∧ length (concat (put_be16 <$> l)) = (2 * length l)%nat.
Proof.
  induction l as [|v l [IHb IHl]]; [split; [apply Forall_nil_2|done]|]. cbn [fmap list_fmap concat]. split.
  - apply bytes_ok_app. split; [apply put_be16_ok|done].
  - rewrite length_app, IHl. cbn. lia.
Qed.

(** A response PDU: octets, at least a function and a code, within a frame. *)
Definition response_ok (resp : list Z) : Prop :=
  bytes_ok resp ∧ (2 ≤ length resp ≤ 253)%nat.

Lemma exception_ok function code : is_u8 function → is_u8 code → response_ok (exception function code).
Proof.
  intros Hf Hc. split; [|cbn; lia]. unfold exception. repeat apply Forall_cons_2; [|done|apply Forall_nil_2].
  unfold is_u8 in *. split; [apply Z.lor_nonneg; lia|].
  destruct (Z.eq_dec (Z.lor function 0x80) 0) as [->|]; [lia|].
  assert (0 ≤ Z.lor function 0x80) by (apply Z.lor_nonneg; lia).
  change 256 with (2 ^ 8). apply Z.log2_lt_pow2; [lia|]. rewrite Z.log2_lor by lia.
  apply Z.max_lub_lt; [|by vm_compute].
  destruct (Z.eq_dec function 0) as [->|]; [done|]. apply Z.log2_lt_pow2; lia.
Qed.

Lemma read_window_ok function regs address quantity :
  is_u8 function → 0 ≤ address → 0 ≤ quantity → response_ok (read_window function regs address quantity).
Proof.
  intros Hf Ha Hq. unfold read_window. case_if; [by apply exception_ok|]. bool_facts.
  unfold registerResponse. set (w := take _ _).
  assert (zlen w = quantity) as Hw.
  { subst w. unfold zlen in *. rewrite length_take, length_drop. lia. }
  destruct (concat_be16 w) as [Hb Hl]. split.
  - apply Forall_cons_2; [done|]. apply Forall_cons_2; [apply u8_range|done].
  - cbn [length]. rewrite Hl. unfold zlen in Hw. lia.
Qed.

Section ServerFacts.
Context {D : Type} {dev : device D} {inv : D → Prop} {laws : DeviceLaws D inv}.
Context (zones_Context : string → AuditContext).

Lemma wp_at pdu i (Q : Z → D → Prop) d :
  (i < length pdu)%nat → bytes_ok pdu → (∀ v, pdu !! i = Some v → is_u8 v → Q v d) →
  wp (at_ pdu i) Q d.
Proof.
  intros Hi Hb HQ. destruct (lookup_lt_is_Some_2 pdu i Hi) as [v Hv]. unfold at_.
  eapply st_wp_deref; [exact Hv|]. apply HQ; [done|]. by eapply bytes_ok_lookup.
Qed.

Lemma wp_write address value peer d :
  inv d → is_u16 address → is_u16 value →
  wp (write zones_Context address value peer) (λ code d', inv d' ∧ is_u8 code) d.
Proof.
  intros Hd Ha Hv. apply st_wp_bind. eapply st_wp_mono; [by apply write_returns|].
  intros r d' [Hd' He]. case_if; [by apply st_wp_ret|]. case_if; by apply st_wp_ret.
Qed.

Lemma HandlePDU_returns pdu peer d :
  inv d → bytes_ok pdu → wp (HandlePDU zones_Context pdu peer) (λ resp d', inv d' ∧ response_ok resp) d.
Proof.
  intros Hd Hb. unfold HandlePDU.
  assert (∀ f c, is_u8 f → is_u8 c →
    wp (st_ret (exception f c) : P (list Z)) (λ resp d', inv d' ∧ response_ok resp) d) as Hexc.
  { intros f c Hf Hc. apply st_wp_ret. split; [done|by apply exception_ok]. }
  destruct pdu as [|function rest]; [apply st_wp_ret; split; [done|by apply (exception_ok 0)]|].
  pose proof (Forall_inv Hb) as Hfun.
  case_if; [|case_if; [|case_if; [|case_if; [|by apply Hexc]]]].
  - unfold readHolding. destruct rest as [|a1 [|a0 [|q1 [|q0 []]]]]; try by apply Hexc.
    repeat (apply Forall_cons in Hb as [? Hb]).
    apply st_wp_bind. eapply st_wp_mono; [by apply snapshot_returns|]. intros s d' [Hd' _]. apply st_wp_ret.
    split; [done|]. by apply read_window_ok; [|apply be16_range|apply be16_range].
  - unfold readInput. destruct rest as [|a1 [|a0 [|q1 [|q0 []]]]]; try by apply Hexc.
    repeat (apply Forall_cons in Hb as [? Hb]).
    apply st_wp_bind. eapply st_wp_mono; [by apply snapshot_returns|]. intros s d' [Hd' _]. apply st_wp_ret.
    split; [done|]. by apply read_window_ok; [|apply be16_range|apply be16_range].
  - unfold writeSingle. destruct rest as [|a1 [|a0 [|v1 [|v0 []]]]]; try by apply Hexc.
    pose proof Hb as Hb0. repeat (apply Forall_cons in Hb as [? Hb]).
    apply st_wp_bind. eapply st_wp_mono; [by apply wp_write; [|apply be16_range|apply be16_range]|].
    intros code d' [Hd' Hc]. case_if; apply st_wp_ret; (split; [done|]); [by apply exception_ok|].
    split; [done|]. cbn. lia.
  - unfold writeMultiple. case_if; [by apply Hexc|]. bool_facts.
    set (pdu := function :: rest) in *.
    do 3 (apply st_wp_bind, wp_at; [lia|done|]; intros ? _ ?).
    case_if; [by apply Hexc|]. bool_facts.
    do 2 (apply st_wp_bind, wp_at; [lia|done|]; intros ? _ ?). cbv zeta.
    apply st_wp_bind. eapply (st_wp_mono _ (λ _ d', inv d')).
    { case_if; [by apply st_wp_ret|]. apply st_wp_bind. eapply st_wp_mono; [by apply snapshot_returns|].
      intros s d' [? _]. by apply st_wp_ret. }
    intros refused d' Hd'. case_if; [apply st_wp_ret; split; [done|by apply exception_ok]|].
    do 2 (apply st_wp_bind, wp_at; [lia|done|]; intros ? _ ?).
    apply st_wp_bind. eapply st_wp_mono; [by apply wp_write; [|apply be16_range|apply be16_range]|].
    intros code d'' [Hd'' Hc]. case_if; apply st_wp_ret; (split; [done|]); [by apply exception_ok|].
    split; [by apply bytes_ok_take|]. rewrite length_take. lia.
Qed.

(** A response frame: transaction identifier, protocol 0, length, unit 1. *)
Definition mbap_ok (frame : list Z) : Prop :=
  ∃ transaction resp, is_u16 transaction ∧ response_ok resp ∧
    frame = (put_be16 transaction ++ [0; 0] ++ put_be16 (1 + zlen resp) ++ UnitID :: resp)%list.

Lemma ServeConn_returns fuel accepts n peer r d :
  inv d → bytes_ok r → (length r < fuel)%nat →
  wp (ServeConn zones_Context fuel accepts n peer r) (λ frames d', inv d' ∧ Forall mbap_ok frames) d.
Proof.
  revert n r d. induction fuel as [|fuel IH]; intros n r d Hd Hb Hf; [lia|]. cbn [ServeConn].
  destruct (read_full 7 r) as [[h r1]|e] eqn:Hr; [|by apply st_wp_ret].
  apply read_full_inl in Hr as [-> Hh]. apply bytes_ok_app in Hb as [Hhb Hb].
  do 7 (apply st_wp_bind, wp_at; [lia|done|]; intros ? _ ?). cbv zeta.
  case_if; [by apply st_wp_ret|].
  destruct (read_full _ r1) as [[pdu r2]|e] eqn:Hr; [|by apply st_wp_ret].
  apply read_full_inl in Hr as [-> Hl]. apply bytes_ok_app in Hb as [Hpb Hb].
  rewrite !length_app in Hf. case_if; [apply IH; [done|done|lia]|].
  apply st_wp_bind. eapply st_wp_mono; [by apply HandlePDU_returns|]. intros resp d' [Hd' Hresp].
  destruct (accepts n); [|by apply st_wp_ret].
  apply st_wp_bind. eapply st_wp_mono; [apply IH; [done|done|lia]|]. intros more d'' [Hd'' Hm]. apply st_wp_ret.
  split; [done|]. apply Forall_cons_2; [|done]. bool_facts. subst.
  eexists _, resp. split; [by apply (be16_range v v0)|]. split; [done|].
  unfold response_frame.
  assert (u16 (1 + zlen resp) = 1 + zlen resp) as ->; [|done].
  unfold u16. apply Z.mod_small. destruct Hresp as [_ Hn]. unfold zlen. lia.
Qed.

End ServerFacts.

(** ** The field device as a [device] *)
Section FieldDeviceInstance.
Context (clock : nat → Z) (wall : Z).

#[export] Instance field_device : device Model := {|
  dev_Snapshot := Model_Snapshot clock wall;
  dev_WriteHolding := λ address value actor, WriteHolding clock wall None address value actor
|}.

Lemma snapshotLocked_typed m :
  is_u16 (lastRequest m) →
  wp (snapshotLocked clock) (λ s m', m' = frame m (audit m) (S (ticks m)) ∧ snapshot_typed s) m.
Proof. intros Hl. split; [done|]. split; [done|apply u16_range]. Qed.

#[export] Instance field_device_laws : DeviceLaws Model Inv.
Proof.
  split.
  - intros m HI. apply st_wp_bind, wp_Now. cbv beta. apply st_wp_bind, wp_expireLocked; [exact (Inv_audit _ HI)|].
    intros a n Ha. cbv beta.
    pose proof (Inv_frame _ a n (Inv_expired (clock (ticks m)) (set_ticks (S (ticks m)) m) HI) Ha) as HI1.
    eapply st_wp_mono; [apply snapshotLocked_typed; apply HI1|]. intros s m' [-> Hs]. split; [|done].
    exact (Inv_frame _ _ _ HI1 (Inv_audit _ HI1)).
  - intros m address value actor HI [Ha _] _.
    eapply st_wp_mono; [by apply (WriteHolding_good clock wall None)|]. intros r m' [[HI' _] He]. done.
Qed.

End FieldDeviceInstance.

Section Claims.
Context {D : Type} {dev : device D} {inv : D → Prop} {laws : DeviceLaws D inv}.

(** Whatever octets a peer sends, the Modbus server of a device that keeps
    the interface's laws serves the connection to its end without a panic,
    keeps the device's invariant, and answers only with well-formed frames: a
    [uint16] transaction identifier, protocol 0, a matching length of at most
    254 and unit 1. *)
Theorem modbus_serves (zones_Context : string → AuditContext) (accepts : nat → bool) (peer : string)
    (r : list Z) (d : D) :
  inv d → bytes_ok r →
  ∃ frames d', ServeConn zones_Context (S (length r)) accepts 0 peer r d = (Ok frames, d') ∧
    inv d' ∧ Forall mbap_ok frames.
Proof.
  intros Hd Hb. pose proof (ServeConn_returns zones_Context (S (length r)) accepts 0 peer r d Hd Hb
    ltac:(lia)) as Hw.
  destruct (st_wp_elim _ _ _ Hw) as (frames & d' & H1 & H2 & H3). eauto 10.
Qed.

End Claims.

(** A read of all holding registers of the sampled tap changer. *)
Definition demo_request : list Z := [0x12; 0x34; 0; 0; 0; 6; 1; 3; 0; 0; 0; 3].

Lemma modbus_serves_witness :
  ∃ frames d', ServeConn (H := field_device demo_clock 0) (λ p, mkContext p "modbus" "it")
                 (S (length demo_request)) (λ _, true) 0 "10.0.0.5:50200" demo_request oltc0
               = (Ok frames, d') ∧ Inv d' ∧ Forall mbap_ok frames.
Proof.
  apply (modbus_serves (dev := field_device demo_clock 0) (inv := Inv)).
  - apply (device_Inv demo_clock 0 (demo_cfg OLTC "oltc-1")).
    exists oltc0. split; [by vm_compute|apply star_refl].
  - apply (bool_decide_unpack _). by vm_compute.
Defined.

Example demo_response :
  (ServeConn (H := field_device demo_clock 0) (λ p, mkContext p "modbus" "it")
     (S (length demo_request)) (λ _, true) 0 "10.0.0.5:50200" demo_request oltc0).1
  = Ok [[0x12; 0x34; 0; 0; 0; 9; 1; 3; 6; 0; 0; 0; 0; 0; 2]].
Proof. by vm_compute. Qed.
