(* ===== verification/ModbusMaster.v ===== *)
(** * The Modbus master of the remote terminal unit
    (services/iec104/internal/modbus/master.go)

    One transaction at a time over one connection, and its composition with
    the server of [ModbusServer].  The connection is the list of octets
    received and not read yet; [net] is the network with the peer behind it:
    what happens to the octets written, and the octets that arrive for it.
    Name resolution and dialling are outside the model; [Connect] leaves a
    connection without unread octets. *)
From S2P Require Import Prelude GoLib FieldDevice FieldDeviceInv ModbusServer.

#[local] Open Scope string_scope.
#[local] Open Scope Z_scope.

Inductive Status : Type := StatusOK | Timeout | IOError | StatusException.

Record MResult : Type := mkMResult { RStatus : Status; ExceptionCode : Z }.

(** Outcome of [SetDeadline] and the write loop. *)
Inductive sent : Type :=
| DeadlineError
| WriteError
| Sent (reply : list Z).

Record Master (D : Type) : Type := mkMaster {
  txid : Z;
  conn : option (list Z);
  peer_state : D
}.
Arguments mkMaster {D}.
Arguments txid {D}.
Arguments conn {D}.
Arguments peer_state {D}.

Section Master.
Context {D : Type} (net : list Z → D → sent * D) (unit_ : Z).

Definition MM (A : Type) : Type := stM (Master D) Empty_set A.

Definition result (s : Status) : MResult := mkMResult s 0.

Definition request_frame (id : Z) (pdu : list Z) : list Z :=
  (put_be16 id ++ [0; 0] ++ put_be16 (u16 (zlen pdu + 1)) ++ unit_ :: pdu)%list.

(** [io.ReadFull(m.conn, make([]byte, n))]; a failed read has taken what there
    was. *)
Definition read_conn (n : nat) : MM (option (list Z)) :=
  λ m, match conn m with
       | None => (Panic, m)
       | Some buf =>
           match read_full n buf with
           | inl (a, rest) => (Ok (Some a), mkMaster (txid m) (Some rest) (peer_state m))
           | inr _ => (Ok None, mkMaster (txid m) (Some []) (peer_state m))
           end
       end.

Definition transact (pdu : list Z) : MM (option (list Z) * MResult) :=
  let? m := st_get in
  match conn m with
  | None => st_ret (None, result IOError)
  | Some buf =>
      let id := u16 (txid m + 1) in
      do? st_upd (λ m, mkMaster id (conn m) (peer_state m)) in
      let (s, d') := net (request_frame id pdu) (peer_state m) in
      match s with
      | DeadlineError => st_ret (None, result IOError)
      | WriteError =>
          do? st_upd (λ m, mkMaster id (conn m) d') in
          st_ret (None, result Timeout)
      | Sent reply =>
          do? st_upd (λ m, mkMaster id (Some (buf ++ reply)%list) d') in
          let? hdr := read_conn 7 in
          match hdr with
          | Some [t1; t0; p1; p0; n1; n0; u] =>
              let n := be16 n1 n0 in
              if negb (be16 t1 t0 =? id) || negb (be16 p1 p0 =? 0) || (n <? 2) || (254 <? n) ||
                 negb (u =? unit_)
              then st_ret (None, result IOError)
              else
                let? response := read_conn (Z.to_nat n - 1) in
                match response with
                | Some r => st_ret (Some r, result StatusOK)
                | None => st_ret (None, result Timeout)
                end
          | _ => st_ret (None, result Timeout)
          end
      end
  end.

(** [binary.BigEndian.Uint16(r[2+i*2:])] for every [i]. *)
Fixpoint words (r : list Z) : list Z :=
  match r with
  | hi :: lo :: r' => be16 hi lo :: words r'
  | _ => []
  end.

Definition is_exception (fc : Z) (r : list Z) : option Z :=
  match r with
  | b0 :: b1 :: _ => if b0 =? Z.lor fc 0x80 then Some b1 else None
  | _ => None
  end.

Definition read (fc address count : Z) : MM (option (list Z) * MResult) :=
  if (count <? 1) || (125 <? count) then st_ret (None, result IOError)
  else
    let pdu := fc :: (put_be16 address ++ put_be16 count)%list in
    let? '(r, res) := transact pdu in
    match RStatus res, r with
    | StatusOK, Some r =>
        match is_exception fc r with
        | Some code => st_ret (None, mkMResult StatusException code)
        | None =>
            match r with
            | b0 :: b1 :: data =>
                if negb (zlen r =? 2 + count * 2) || negb (b0 =? fc) || negb (b1 =? count * 2)
                then st_ret (None, result IOError)
                else st_ret (Some (words data), result StatusOK)
            | _ => st_ret (None, result IOError)
            end
        end
    | StatusOK, None => st_ret (None, result IOError)
    | _, _ => st_ret (None, res)
    end.

Definition ReadHolding (address count : Z) := read 3 address count.
Definition ReadInput (address count : Z) := read 4 address count.

Definition WriteSingle (address value : Z) : MM MResult :=
  let pdu := 6 :: (put_be16 address ++ put_be16 value)%list in
  let? '(r, res) := transact pdu in
  match RStatus res, r with
  | StatusOK, Some r =>
      match is_exception 6 r with
      | Some code => st_ret (mkMResult StatusException code)
      | None =>
          match r with
          | [b0; a1; a0; v1; v0] =>
              if negb (b0 =? 6) || negb (be16 a1 a0 =? u16 address) || negb (be16 v1 v0 =? value)
              then st_ret (result IOError) else st_ret (result StatusOK)
          | _ => st_ret (result IOError)
          end
      end
  | StatusOK, None => st_ret (result IOError)
  | _, _ => st_ret res
  end.

(** [Close]. *)
Definition Close (m : Master D) : Master D := mkMaster (txid m) None (peer_state m).

End Master.

(** ** The server behind the connection *)
Section Composition.
Context {D : Type} {dev : device D} {inv : D → Prop} {laws : DeviceLaws D inv}.
Context (zones_Context : string → AuditContext) (peer : string).

(** The octets a served request brings back. *)
Definition server_net (req : list Z) (d : D) : sent * D :=
  match ServeConn zones_Context (S (length req)) (λ _, true) 0 peer req d with
  | (Ok frames, d') => (Sent (concat frames), d')
  | (_, d') => (WriteError, d')
  end.

Lemma read_full_all (a : list Z) : read_full (length a) a = inl (a, []).
Proof. pose proof (read_full_app a []) as H. by rewrite app_nil_r in H. Qed.

(** A connection that carries one request answers it with one frame. *)
Lemma ServeConn_one id pdu resp d d' :
  is_u16 id → (1 ≤ length pdu ≤ 253)%nat →
  HandlePDU zones_Context pdu peer d = (Ok resp, d') →
  ServeConn zones_Context (S (length (request_frame UnitID id pdu))) (λ _, true) 0 peer
    (request_frame UnitID id pdu) d
  = (Ok [response_frame (u8 (Z.shiftr id 8)) (u8 id) UnitID resp], d').
Proof.
  intros Hid Hl Hh. unfold request_frame.
  assert (u16 (zlen pdu + 1) = zlen pdu + 1) as ->
    by (unfold u16; apply Z.mod_small; unfold zlen; lia).
  set (hdr := [u8 (Z.shiftr id 8); u8 id; 0; 0; u8 (Z.shiftr (zlen pdu + 1) 8); u8 (zlen pdu + 1); UnitID]).
  change (put_be16 id ++ [0; 0] ++ put_be16 (zlen pdu + 1) ++ UnitID :: pdu)%list with (hdr ++ pdu)%list.
  cbn [ServeConn]. change 7%nat with (length hdr) at 1. rewrite read_full_app.
  unfold st_bind, at_, deref. cbn [hdr lookup list_lookup].
  rewrite put_be16_read by (unfold is_u16, zlen; lia).
  change (be16 0 0) with 0. cbn [Z.eqb negb orb].
  rewrite (proj2 (Z.ltb_ge (zlen pdu + 1) 2)), (proj2 (Z.ltb_ge 254 (zlen pdu + 1)))
    by (unfold zlen; lia). cbn [orb].
  replace (Z.to_nat (zlen pdu + 1) - 1)%nat with (length pdu) by (unfold zlen; lia).
  rewrite read_full_all. cbn [UnitID Z.eqb Pos.eqb negb].
  rewrite Hh. destruct (length (hdr ++ pdu)) as [|n] eqn:Hn; [by rewrite length_app in Hn|].
  done.
Qed.

(** The transaction returns the response the server computes. *)
Lemma transact_served id pdu resp d d' :
  (1 ≤ length pdu ≤ 253)%nat → response_ok resp →
  HandlePDU zones_Context pdu peer d = (Ok resp, d') →
  transact server_net UnitID pdu (mkMaster id (Some []) d)
  = (Ok (Some resp, result StatusOK), mkMaster (u16 (id + 1)) (Some []) d').
Proof.
  intros Hl [Hb Hr] Hh. unfold transact, st_bind, st_get. cbn [conn txid peer_state].
  unfold st_upd. unfold server_net. rewrite (ServeConn_one _ _ resp d d') by (done || apply u16_range).
  cbn [concat app]. rewrite app_nil_r. cbn [app].
  assert (u16 (1 + zlen resp) = 1 + zlen resp) as Hz
    by (unfold u16; apply Z.mod_small; unfold zlen; lia).
  unfold response_frame. rewrite Hz, put_be16_read by apply u16_range.
  set (tx := u16 (id + 1)).
  set (hdr := [u8 (Z.shiftr tx 8); u8 tx; 0; 0; u8 (Z.shiftr (1 + zlen resp) 8); u8 (1 + zlen resp); UnitID]).
  change (put_be16 tx ++ put_be16 0 ++ put_be16 (1 + zlen resp) ++ UnitID :: resp)%list
    with (hdr ++ resp)%list.
  unfold read_conn at 1. cbn [conn txid peer_state]. change 7%nat with (length hdr). rewrite read_full_app.
  unfold hdr. rewrite !put_be16_read by (unfold is_u16, zlen; lia || apply u16_range).
  rewrite Z.eqb_refl. change (be16 0 0 =? 0) with true. cbn [negb orb].
  rewrite (proj2 (Z.ltb_ge (1 + zlen resp) 2)), (proj2 (Z.ltb_ge 254 (1 + zlen resp)))
    by (unfold zlen; lia). cbn [orb]. change (UnitID =? UnitID) with true. cbn [negb].
  replace (Z.to_nat (1 + zlen resp) - 1)%nat with (length resp) by (unfold zlen; lia).
  unfold read_conn. cbn [conn txid peer_state].
  by rewrite read_full_all.
Qed.

Lemma words_be16 l : Forall is_u16 l → words (concat (put_be16 <$> l)) = l.
Proof.
  induction 1 as [|v l Hv _ IH]; [done|]. cbn [fmap list_fmap concat put_be16 app words].
  rewrite IH, put_be16_read by done. done.
Qed.

(** The answers the master is owed, as functions of the device's answers. *)
Definition read_answer (registers : list Z) (address count : Z) : option (list Z) * MResult :=
  if zlen registers <? address + count then (None, mkMResult StatusException exceptionIllegalAddress)
  else (Some (take (Z.to_nat count) (drop (Z.to_nat address) registers)), result StatusOK).

Definition write_answer (r : CommandResult) : MResult :=
  if negb (Exception r =? 0) then mkMResult StatusException (Exception r)
  else if negb (Accepted r) then mkMResult StatusException exceptionDeviceFailure
  else result StatusOK.

Lemma read_served fc registers address count id d d' :
  fc = 3 ∨ fc = 4 → is_u16 address → 1 ≤ count ≤ 125 → Forall is_u16 registers →
  HandlePDU zones_Context (fc :: (put_be16 address ++ put_be16 count)%list) peer d
    = (Ok (read_window fc registers address count), d') →
  read server_net UnitID fc address count (mkMaster id (Some []) d)
  = (Ok (read_answer registers address count), mkMaster (u16 (id + 1)) (Some []) d').
Proof.
  intros Hfc Ha Hc Hregs Hh. unfold read.
  rewrite (proj2 (Z.ltb_ge count 1)), (proj2 (Z.ltb_ge 125 count)) by lia. cbn [orb].
  unfold st_bind at 1.
  erewrite transact_served; [|cbn; lia| |exact Hh].
  2:{ apply read_window_ok; [unfold is_u8; lia|apply Ha|lia]. }
  cbn [RStatus result]. unfold read_window, read_answer.
  rewrite (proj2 (Z.eqb_neq count 0)), (proj2 (Z.ltb_ge 125 count)) by lia. cbn [orb].
  destruct (Z.ltb_spec (zlen registers) (address + count)) as [Hlt|Hge].
  { by destruct Hfc as [-> | ->]. }
  set (w := take _ _).
  assert (zlen w = count) as Hw.
  { subst w. unfold zlen in *. rewrite length_take, length_drop. destruct Ha. lia. }
  assert (Forall is_u16 w) as Hwf by (subst w; by apply Forall_take, Forall_drop).
  unfold registerResponse. rewrite Hw.
  assert (u8 (2 * count) = 2 * count) as -> by (unfold u8; apply Z.mod_small; lia).
  destruct (concat_be16 w) as [_ Hlen].
  assert (is_exception fc (fc :: 2 * count :: concat (put_be16 <$> w)) = None) as ->
    by by destruct Hfc as [-> | ->].
  assert (zlen (fc :: 2 * count :: concat (put_be16 <$> w)) = 2 + count * 2) as ->
    by (unfold zlen in *; cbn [length]; rewrite Hlen; lia).
  rewrite !Z.eqb_refl, (proj2 (Z.eqb_eq (2 * count) (count * 2))) by lia. cbn [negb orb].
  by rewrite words_be16.
Qed.

Lemma reads_refine id address count d :
  inv d → is_u16 address → 1 ≤ count ≤ 125 →
  ∃ s d', dev_Snapshot d = (Ok s, d') ∧
    ReadInput server_net UnitID address count (mkMaster id (Some []) d)
      = (Ok (read_answer (inputRegisters s) address count), mkMaster (u16 (id + 1)) (Some []) d') ∧
    ReadHolding server_net UnitID address count (mkMaster id (Some []) d)
      = (Ok (read_answer (holdingRegisters s) address count), mkMaster (u16 (id + 1)) (Some []) d').
Proof.
  intros Hd Ha Hc.
  destruct (st_wp_elim _ _ _ (snapshot_returns d Hd)) as (s & d' & Hs & _ & Ht).
  exists s, d'. split; [done|].
  assert (∀ fc regs, HandlePDU zones_Context (fc :: (put_be16 address ++ put_be16 count)%list) peer d
    = (Ok (read_window fc regs (be16 (u8 (Z.shiftr address 8)) (u8 address))
           (be16 (u8 (Z.shiftr count 8)) (u8 count))), d') →
    HandlePDU zones_Context (fc :: (put_be16 address ++ put_be16 count)%list) peer d
    = (Ok (read_window fc regs address count), d')) as Hpdu.
  { intros fc regs. rewrite !put_be16_read by (done || unfold is_u16; lia). done. }
  split; (apply read_served; [lia|done|done| |apply Hpdu]).
  - apply (inputRegisters_ok s Ht).
  - unfold HandlePDU. cbn [Z.eqb functionReadHolding functionReadInput Pos.eqb app put_be16].
    unfold readInput, st_bind. cbn [put_be16]. by rewrite Hs.
  - apply (holdingRegisters_ok s Ht).
  - unfold HandlePDU. cbn [Z.eqb functionReadHolding functionReadInput Pos.eqb app put_be16].
    unfold readHolding, st_bind. cbn [put_be16]. by rewrite Hs.
Qed.

(** The octets the server answers to a single write. *)
Definition write_response (pdu : list Z) (r : CommandResult) : list Z :=
  match write_answer r with
  | mkMResult StatusOK _ => pdu
  | mkMResult _ code => exception functionWriteSingle code
  end.

Lemma write_handled address value r d d' :
  is_u16 address → is_u16 value →
  dev_WriteHolding address value (zones_Context peer) d = (Ok r, d') →
  let pdu := 6 :: (put_be16 address ++ put_be16 value)%list in
  HandlePDU zones_Context pdu peer d = (Ok (write_response pdu r), d').
Proof.
  intros Ha Hv Hw pdu. unfold pdu, HandlePDU, write_response, write_answer.
  cbn [Z.eqb functionReadHolding functionReadInput functionWriteSingle Pos.eqb app put_be16].
  unfold writeSingle, write, st_bind. cbn [put_be16]. rewrite !put_be16_read by done. rewrite Hw.
  destruct (Z.eqb_spec (Exception r) 0) as [->|Hn]; cbn [negb].
  - by destruct (Accepted r).
  - cbn. by rewrite (proj2 (Z.eqb_neq _ _) Hn).
Qed.

Lemma write_refines id address value d :
  inv d → is_u16 address → is_u16 value →
  ∃ r d', dev_WriteHolding address value (zones_Context peer) d = (Ok r, d') ∧
    WriteSingle server_net UnitID address value (mkMaster id (Some []) d)
      = (Ok (write_answer r), mkMaster (u16 (id + 1)) (Some []) d').
Proof.
  intros Hd Ha Hv.
  destruct (st_wp_elim _ _ _ (write_returns d address value (zones_Context peer) Hd Ha Hv))
    as (r & d' & Hw & _ & He).
  exists r, d'. split; [done|]. unfold WriteSingle, st_bind at 1.
  erewrite transact_served; [|cbn; lia| |by apply write_handled].
  - cbn [RStatus result]. unfold write_response, write_answer.
    destruct (Z.eqb_spec (Exception r) 0) as [->|Hn]; cbn [negb]; [|done].
    destruct (Accepted r); cbn [negb]; [|done].
    unfold put_be16, result. cbn [is_exception app Z.eqb Pos.eqb Z.lor Pos.lor]. cbn [negb orb].
    rewrite !put_be16_read by done. unfold u16. rewrite Z.mod_small by done.
    by rewrite !Z.eqb_refl.
  - unfold write_response, write_answer. destruct (negb (Exception r =? 0)); [by apply exception_ok|].
    destruct (Accepted r); cbn [negb]; [|by apply exception_ok].
    split; [|cbn; lia]. apply Forall_cons_2; [done|]. apply bytes_ok_app. split; apply put_be16_ok.
Qed.

(** C34. Over one connection to the server, each call of the master is the
    corresponding call of the device: a read returns exactly the registers of
    the device's snapshot or an address exception, a write reports success
    exactly when the device accepted it and otherwise the device's exception
    or a device failure; the device is left as its own method leaves it, the
    connection without stray octets and the transaction counter advanced. *)
Theorem modbus_refines_device (id address count value : Z) (d : D) :
  inv d → is_u16 address → 1 ≤ count ≤ 125 → is_u16 value →
  let m := mkMaster id (Some []) d in
  let after := mkMaster (u16 (id + 1)) (Some []) in
  (∃ s d', dev_Snapshot d = (Ok s, d') ∧
     ReadInput server_net UnitID address count m
       = (Ok (read_answer (inputRegisters s) address count), after d') ∧
     ReadHolding server_net UnitID address count m
       = (Ok (read_answer (holdingRegisters s) address count), after d')) ∧
  (∃ r d', dev_WriteHolding address value (zones_Context peer) d = (Ok r, d') ∧
     WriteSingle server_net UnitID address value m = (Ok (write_answer r), after d')).
Proof.
  intros Hd Ha Hc Hv m after. split; [by apply reads_refine|by apply write_refines].
Qed.

End Composition.

(** The remote terminal unit reads and operates the sampled ring main unit. *)
Lemma modbus_refines_device_witness :
  ∃ r d', dev_WriteHolding (device := field_device demo_clock 0) 0 1
            (mkContext "10.0.0.5:502" "modbus" "control") (sample_on rmu0 20) = (Ok r, d') ∧
    WriteSingle (server_net (dev := field_device demo_clock 0)
                   (λ p, mkContext p "modbus" "control") "10.0.0.5:502") UnitID 0 1
      (mkMaster 65535 (Some []) (sample_on rmu0 20))
    = (Ok (write_answer r), mkMaster (u16 (65535 + 1)) (Some []) d').
Proof.
  assert (Inv (sample_on rmu0 20)) as HI.
  { apply (device_Inv demo_clock 0 (demo_cfg RMU "rmu-1")), sampled_reachable. by vm_compute. }
  destruct (modbus_refines_device (dev := field_device demo_clock 0) (inv := Inv)
    (λ p, mkContext p "modbus" "control") "10.0.0.5:502" 65535 0 1 1 (sample_on rmu0 20) HI)
    as [_ (r & d' & H1 & H2)]; [unfold is_u16; lia|lia|unfold is_u16; lia|].
  exists r, d'. split; [exact H1|exact H2].
Defined.
