(* ===== verification/PointMap.v ===== *)
(** * The point map of the IEC 104 stations
    (services/iec104/internal/pointmap)

    The JSON reader that keeps the order and duplicates of keys ([json.go]),
    the strict validating parser ([load.go], [points.go]) and the resolved map
    ([types.go]).  A [json.Decoder] is the list of the tokens it delivers; past
    the last one it reports an error, and [io.EOF] when [complete].  The
    parser records its first failure and goes on with zero values, as the
    source does; the messages of [fmt.Errorf] are the constructors of
    [map_error]. *)
From S2P Require Import Prelude GoLib.
From Stdlib Require Import SpecFloat.

#[local] Open Scope string_scope.
#[local] Open Scope Z_scope.

(** ** JSON values *)
Inductive value : Type :=
| JNull
| JBool (b : bool)
| JNumber (n : float64)
| JString (s : string)
| JArray (a : list value)
| JObject (o : list (string * value)).

Notation object := (list (string * value)).

Inductive token : Type :=
| TOpenObject | TCloseObject | TOpenArray | TCloseArray
| TNull | TBool (b : bool) | TNumber (n : float64) | TString (s : string).

(** [d.More()]. *)
Definition More (d : list token) : bool :=
  match d with
  | [] | TCloseObject :: _ | TCloseArray :: _ => false
  | _ => true
  end.

(** [readValue].  A closing delimiter where a value has to stand is an error
    of the decoder.  The mutual loops take one unit of fuel per call. *)
Fixpoint readValue (fuel : nat) (d : list token) : outcome unit (value * list token) :=
  match fuel with
  | O => Diverge
  | S fuel =>
      match d with
      | [] | TCloseObject :: _ | TCloseArray :: _ => Err tt
      | TOpenObject :: d => let! '(o, d) := readFields fuel d in Ok (JObject o, d)
      | TOpenArray :: d => let! '(a, d) := readElements fuel d in Ok (JArray a, d)
      | TNull :: d => Ok (JNull, d)
      | TBool b :: d => Ok (JBool b, d)
      | TNumber n :: d => Ok (JNumber n, d)
      | TString s :: d => Ok (JString s, d)
      end
  end
with readFields (fuel : nat) (d : list token) : outcome unit (object * list token) :=
  match fuel with
  | O => Diverge
  | S fuel =>
      if negb (More d) then
        match d with [] => Err tt | _ :: d => Ok ([], d) end
      else
        match d with
        | TString key :: d =>
            let! '(v, d) := readValue fuel d in
            let! '(o, d) := readFields fuel d in
            Ok ((key, v) :: o, d)
        | _ => Panic
        end
  end
with readElements (fuel : nat) (d : list token) : outcome unit (list value * list token) :=
  match fuel with
  | O => Diverge
  | S fuel =>
      if negb (More d) then
        match d with [] => Err tt | _ :: d => Ok ([], d) end
      else
        let! '(v, d) := readValue fuel d in
        let! '(a, d) := readElements fuel d in
        Ok (v :: a, d)
  end.

(** The tokens of a document, whether the decoder ends with [io.EOF] behind
    them, and whether the document holds a NUL octet. *)
Record document : Type := mkDocument { tokens : list token; complete : bool; has_nul : bool }.

Definition read_fuel (d : list token) : nat := 2 * length d + 2.

Definition parseJSON (doc : document) : outcome unit value :=
  guard_err tt (has_nul doc)
    (let! '(v, d) := readValue (read_fuel (tokens doc)) (tokens doc) in
     guard_err tt (negb (complete doc && bool_decide (d = []))) (Ok v)).

(** ** The map *)
Inductive Table : Type := Input | Holding | OtherTable (s : string).

Inductive Kind : Type :=
| DoublePoint | SinglePoint | Float | StepPosition
| DoubleCommand | RegulatingStep | SingleCommand
| InvalidKind (s : string).

Inductive Format : Type := DP | Bit | U16 | I16 | Step | F32 | OtherFormat (s : string).

#[export] Instance Table_eq_dec : EqDecision Table.
Proof. solve_decision. Defined.
#[export] Instance Kind_eq_dec : EqDecision Kind.
Proof. solve_decision. Defined.
#[export] Instance Format_eq_dec : EqDecision Format.
Proof. solve_decision. Defined.

Definition Table_of (s : string) : Table :=
  if (s =? "input")%string then Input else if (s =? "holding")%string then Holding else OtherTable s.

Definition Kind_of (s : string) : Kind :=
  if (s =? "double-point")%string then DoublePoint
  else if (s =? "single-point")%string then SinglePoint
  else if (s =? "float")%string then Float
  else if (s =? "step-position")%string then StepPosition
  else if (s =? "double-command")%string then DoubleCommand
  else if (s =? "regulating-step")%string then RegulatingStep
  else if (s =? "single-command")%string then SingleCommand
  else InvalidKind s.

Definition Format_of (s : string) : Format :=
  if (s =? "dp")%string then DP
  else if (s =? "bit")%string then Bit
  else if (s =? "u16")%string then U16
  else if (s =? "i16")%string then I16
  else if (s =? "step")%string then Step
  else if (s =? "f32")%string then F32
  else OtherFormat s.

Record Timers : Type := mkTimers { T0 : Z; T1 : Z; T2 : Z; T3 : Z; K : Z; W : Z }.

Record Clock : Type := mkClock {
  Clock_URL : string; Clock_PollMS : Z; Clock_StaleAfterMS : Z; SyncedStatus : list string
}.

Definition StatusSynced (c : Clock) (s : string) : bool :=
  existsb (λ status, (status =? s)%string) (SyncedStatus c).

Record Device : Type := mkDevice {
  Device_ID : string; Host : string;
  Port : Z; Unit : Z; PollMS : Z; TimeoutMS : Z; StaleAfterMS : Z;
  PollTable : Table; PollStart : Z; PollCount : Z;
  HasHeartbeat : bool; HeartbeatAddress : Z; HeartbeatStaleMS : Z;
  HasMeasurementsValid : bool; MVTable : Table; MVAddress : Z; MVBit : Z
}.

Record Point : Type := mkPoint {
  Point_ID : string; Point_ASDU : string; Point_Unit : string;
  Point_IOA : Z; Point_Kind : Kind; Measurement : bool; CyclicMS : Z;
  Deadband : float64; HasDeadband : bool; HasLimits : bool; LimitLow : float64; LimitHigh : float64;
  Point_DeviceIndex : Z; Point_Table : Table; Point_Address : Z; Point_Format : Format; Point_Bit : Z;
  Scale : float64; TransientAddress : Z; TransientBit : Z
}.

Record Command : Type := mkCommand {
  Command_ID : string; Command_ASDU : string; FeedbackID : string;
  Command_IOA : Z; Command_Kind : Kind; SBO : bool;
  Command_DeviceIndex : Z; FeedbackIndex : Z; Command_Table : Table; Command_Address : Z
}.

Record Map : Type := mkMap {
  Schema : Z; CA : Z; Map_Timers : Timers;
  SelectTimeoutMS : Z; ReconnectIntervalMS : Z; GIIntervalMS : Z;
  Map_Clock : Clock; Devices : list Device; Points : list Point; Commands : list Command
}.

Definition find_by {A} (f : A → Z) (ioa : Z) (l : list A) : option A := List.find (λ x, f x =? ioa) l.
Definition PointByIOA (m : Map) (ioa : Z) : option Point := find_by Point_IOA ioa (Points m).
Definition CommandByIOA (m : Map) (ioa : Z) : option Command := find_by Command_IOA ioa (Commands m).

(** The loops of [deviceIndex] and [pointIndex]: the first position, or -1. *)
Fixpoint index_from {A} (f : A → string) (id : string) (i : Z) (l : list A) : Z :=
  match l with
  | [] => -1
  | x :: l' => if (f x =? id)%string then i else index_from f id (i + 1) l'
  end.
Definition deviceIndex (devices : list Device) (id : string) : Z := index_from Device_ID id 0 devices.
Definition pointIndex (points : list Point) (id : string) : Z := index_from Point_ID id 0 points.

(** ** The parser *)
Inductive map_error : Type :=
| TooLarge | InvalidJSON | NotObject (where_ : string)
| MissingKey (where_ key : string) | DuplicateKey (where_ key : string) | UnknownKey (where_ key : string)
| NotInteger (where_ key : string) | NotNumber (where_ key : string) | NotBoolean (where_ key : string)
| NotString (where_ key : string) | TooLong (where_ key : string)
| BadTable (where_ : string) | BadArray (key : string) | BadKind (where_ : string) | BadASDU (where_ : string)
| TooMany (what : string) | BadSyncedStatus | BadPoll (id : string)
| PollOverflow (id : string) | NotAnObject (id what : string) | OutsidePoll (id what : string)
| BadPoint (id what : string) | UnknownDevice (id : string) | UnknownFeedback (id : string)
| BadCommand (id : string) | DuplicateDevice | DuplicatePoint (id : string) | DuplicateID (id : string).

(** The parser's state is its first error. *)
Definition P (A : Type) : Type := stM (option map_error) Empty_set A.

Definition fail (e : map_error) : P unit :=
  st_upd (λ err, match err with None => Some e | Some _ => err end).
Definition fail_if (b : bool) (e : map_error) : P unit := st_when b (fail e).

Definition get (o : object) (key : string) : option value :=
  snd <$> List.find (λ f, (f.1 =? key)%string) o.
Definition exists_key (o : object) (key : string) : bool := bool_decide (is_Some (get o key)).

Definition as_object (v : value) : object * bool :=
  match v with JObject o => (o, true) | _ => ([], false) end.
Definition as_array (v : value) : list value * bool :=
  match v with JArray a => (a, true) | _ => ([], false) end.
Definition as_string (v : value) : string * bool :=
  match v with JString s => (s, true) | _ => ("", false) end.

(** A missing key reads as nil, which is also what JSON's null reads as. *)
Definition required (o : object) (where_ key : string) : P value :=
  match get o key with
  | Some v => st_ret v
  | None => do? fail (MissingKey where_ key) in st_ret JNull
  end.

Fixpoint keys_loop (where_ : string) (allowed seen : list string) (o : object) : P unit :=
  match o with
  | [] => st_ret tt
  | (key, _) :: o' =>
      do? fail_if (bool_decide (key ∈ seen)) (DuplicateKey where_ key) in
      do? fail_if (negb (bool_decide (key ∈ allowed))) (UnknownKey where_ key) in
      keys_loop where_ allowed (key :: seen) o'
  end.
Definition keys (o : object) (where_ : string) (allowed : list string) : P unit :=
  keys_loop where_ allowed [] o.

(** The integer part of a finite number, as [math.Modf] clears the fraction
    bits; [math.Floor]; [int] of an integral float. *)
Definition Modf (x : float64) : float64 :=
  match x with
  | S754_finite s m e =>
      if 0 <=? e then x
      else match Z.shiftl (Z.shiftr (Z.pos m) (- e)) (- e) with
           | Z.pos m' => S754_finite s m' e
           | _ => S754_zero s
           end
  | _ => x
  end.
Definition Floor (x : float64) : float64 :=
  match x with
  | S754_finite true m e =>
      let y := S754_finite false m e in
      let d := Modf y in
      SFopp (if SFeqb d y then d else fadd d (f64_of 1 0))
  | _ => Modf x
  end.
Definition int_of (x : float64) : Z :=
  match x with
  | S754_finite s m e =>
      let a := Z.shiftl (Z.pos m) e in if s then - a else a
  | _ => 0
  end.

Definition integer (o : object) (where_ key : string) (low high : Z) : P Z :=
  let? v := required o where_ key in
  match v with
  | JNumber n =>
      if IsNaN n || IsInf n || SFltb n (f64_of low 0) || SFltb (f64_of high 0) n ||
         negb (SFeqb (Floor n) n)
      then do? fail (NotInteger where_ key) in st_ret 0
      else st_ret (int_of n)
  | _ => do? fail (NotInteger where_ key) in st_ret 0
  end.

Definition number (o : object) (where_ key : string) : P float64 :=
  let? v := required o where_ key in
  match v with
  | JNumber n => do? fail_if (IsNaN n || IsInf n) (NotNumber where_ key) in st_ret n
  | _ => do? fail (NotNumber where_ key) in st_ret (S754_zero false)
  end.

Definition boolean (o : object) (where_ key : string) : P bool :=
  let? v := required o where_ key in
  match v with
  | JBool b => st_ret b
  | _ => do? fail (NotBoolean where_ key) in st_ret false
  end.

Definition str (o : object) (where_ key : string) (cap : nat) : P string :=
  let? v := required o where_ key in
  match v with
  | JString s => do? fail_if (cap <=? String.length s)%nat (TooLong where_ key) in st_ret s
  | _ => do? fail (NotString where_ key) in st_ret ""
  end.

Definition table (o : object) (where_ : string) : P Table :=
  let? s := str o where_ "table" 16 in
  do? fail_if (negb (s =? "input")%string && negb (s =? "holding")%string) (BadTable where_) in
  st_ret (Table_of s).

Definition section_ (o : object) (where_ key : string) : P object :=
  let? v := required o where_ key in
  let '(s, ok) := as_object v in
  do? fail_if (negb ok) (NotObject key) in st_ret s.

Definition array (o : object) (key : string) (nonempty : bool) : P (list value) :=
  let? v := required o "root" key in
  let '(a, ok) := as_array v in
  do? fail_if (negb ok || (nonempty && (length a =? 0)%nat)) (BadArray key) in st_ret a.

Definition kind (o : object) (where_ : string) (command : bool) : P Kind :=
  let? s := str o where_ "kind" 32 in
  let k := Kind_of s in
  let valid := if command then bool_decide (k ∈ [DoubleCommand; RegulatingStep; SingleCommand])
               else bool_decide (k ∈ [DoublePoint; SinglePoint; Float; StepPosition]) in
  do? fail_if (negb valid) (BadKind where_) in st_ret k.

Definition asdu_of (k : Kind) : string :=
  match k with
  | DoublePoint => "M_DP_TB_1" | SinglePoint => "M_SP_TB_1" | Float => "M_ME_NC_1"
  | StepPosition => "M_ST_TB_1" | DoubleCommand => "C_DC_NA_1"
  | RegulatingStep => "C_RC_NA_1" | SingleCommand => "C_SC_NA_1" | InvalidKind _ => ""
  end.
Definition asdu (where_ : string) (k : Kind) (a : string) : P unit :=
  fail_if (negb (a =? asdu_of k)%string) (BadASDU where_).

Fixpoint clock_statuses (a : list value) (out : list string) : P (list string) :=
  match a with
  | [] => st_ret out
  | v :: a' =>
      if (length out =? 8)%nat then do? fail (TooMany "synced_status") in st_ret out
      else
        let '(s, ok) := as_string v in
        if negb ok || (16 <=? String.length s)%nat then do? fail BadSyncedStatus in st_ret out
        else clock_statuses a' (out ++ [s])%list
  end.

Definition clock (root : object) : P Clock :=
  let? c := section_ root "root" "clock" in
  do? keys c "clock" ["url"; "poll_ms"; "stale_after_ms"; "synced_status"] in
  let? url := str c "clock" "url" 256 in
  let? poll := integer c "clock" "poll_ms" 10 600000 in
  let? stale := integer c "clock" "stale_after_ms" 10 600000 in
  let? v := required c "clock" "synced_status" in
  let '(a, ok) := as_array v in
  do? fail_if (negb ok || (length a =? 0)%nat) BadSyncedStatus in
  let? statuses := clock_statuses a [] in
  st_ret (mkClock url poll stale statuses).

(** The optional blocks of a device: present, address, limit; present, table,
    address, bit. *)
Definition heartbeat (d : object) (id : string) (start count : Z) : P (bool * Z * Z) :=
  match get d "heartbeat" with
  | None => st_ret (false, 0, 0)
  | Some v =>
      let '(h, ok) := as_object v in
      do? fail_if (negb ok) (NotAnObject id "heartbeat") in
      do? keys h "heartbeat" ["address"; "stale_after_ms"] in
      let? address := integer h "heartbeat" "address" start (start + count - 1) in
      let? stale := integer h "heartbeat" "stale_after_ms" 10 600000 in
      st_ret (true, address, stale)
  end.

Definition measurements_valid (d : object) (id : string) (poll : Table) (start count : Z)
    : P (bool * Table * Z * Z) :=
  match get d "measurements_valid" with
  | None => st_ret (false, OtherTable "", 0, 0)
  | Some v =>
      let '(mv, ok) := as_object v in
      do? fail_if (negb ok) (NotAnObject id "measurements_valid") in
      do? keys mv "measurements_valid" ["table"; "address"; "bit"] in
      let? t := table mv "measurements_valid" in
      let? address := integer mv "measurements_valid" "address" 0 65535 in
      let? bit := integer mv "measurements_valid" "bit" 0 15 in
      do? fail_if (negb (bool_decide (t = poll)) || (address <? start) || (start + count <=? address))
            (OutsidePoll id "measurements_valid") in
      st_ret (true, t, address, bit)
  end.

Definition device (v : value) : P Device :=
  let '(d, ok) := as_object v in
  do? fail_if (negb ok) (NotObject "devices") in
  do? keys d "device" ["id"; "host"; "port"; "unit"; "poll_ms"; "timeout_ms"; "stale_after_ms";
                       "measurements_valid"; "poll"; "heartbeat"] in
  let? id := str d "device" "id" 64 in
  let? host := str d "device" "host" 64 in
  let? port := integer d "device" "port" 1 65535 in
  let? unit_ := integer d "device" "unit" 0 255 in
  let? pollMS := integer d "device" "poll_ms" 10 600000 in
  let? timeoutMS := integer d "device" "timeout_ms" 10 600000 in
  let? staleMS := integer d "device" "stale_after_ms" 10 600000 in
  let? v := required d "device" "poll" in
  let '(poll, ok) := as_object v in
  do? fail_if (negb ok) (BadPoll id) in
  do? keys poll "poll" ["table"; "start"; "count"] in
  let? t := table poll "poll" in
  let? start := integer poll "poll" "start" 0 65535 in
  let? count := integer poll "poll" "count" 1 125 in
  do? fail_if (65536 <? start + count) (PollOverflow id) in
  let? '(hb, hba, hbs) := heartbeat d id start count in
  let? '(mv, mvt, mva, mvb) := measurements_valid d id t start count in
  st_ret (mkDevice id host port unit_ pollMS timeoutMS staleMS t start count hb hba hbs mv mvt mva mvb).

(** The parts of [point] behind the envelope, in its order. *)
Definition point_deadband (o : object) (id : string) : P (float64 * bool) :=
  if exists_key o "deadband" then
    let? d := number o "point" "deadband" in
    do? fail_if (SFltb d (S754_zero false)) (BadPoint id "deadband") in
    st_ret (d, true)
  else st_ret (S754_zero false, false).

Definition point_cyclic (o : object) (id : string) (k : Kind) : P Z :=
  if bool_decide (k = Float) then integer o "point" "cyclic_ms" 1000 3600000
  else do? fail_if (exists_key o "cyclic_ms") (BadPoint id "cyclic_ms") in st_ret 0.

Definition point_limits (o : object) (id : string) (k : Kind) (unit_ : string)
    : P (bool * float64 * float64) :=
  match get o "limits" with
  | None => st_ret (false, S754_zero false, S754_zero false)
  | Some v =>
      let '(l, ok) := as_object v in
      do? fail_if (negb (bool_decide (k = Float)) || negb (unit_ =? "kV")%string || negb ok)
            (BadPoint id "limits") in
      do? keys l "limits" ["low"; "high"] in
      let? low := number l "limits" "low" in
      let? high := number l "limits" "high" in
      do? fail_if (SFleb high low) (BadPoint id "limits") in
      st_ret (true, low, high)
  end.

Definition source_scale (s : object) (id : string) (f : Format) : P float64 :=
  if exists_key s "scale" then
    do? fail_if (negb (bool_decide (f = U16)) && negb (bool_decide (f = I16))) (BadPoint id "scale") in
    number s "source" "scale"
  else st_ret (f64_of 1 0).

Definition source_transient (s : object) (id : string) (f : Format) : P (Z * Z) :=
  if bool_decide (f = Step) then
    let '(t, ok) := match get s "transient" with Some v => as_object v | None => ([], false) end in
    do? fail_if (negb ok) (BadPoint id "step") in
    do? keys t "transient" ["address"; "bit"] in
    let? a := integer t "transient" "address" 0 65535 in
    let? b := integer t "transient" "bit" 0 15 in
    st_ret (a, b)
  else
    do? fail_if (exists_key s "transient") (BadPoint id "transient") in st_ret (0, 0).

Definition source_bit (s : object) (id : string) (f : Format) : P Z :=
  if bool_decide (f = Bit) then integer s "source" "bit" 0 15
  else do? fail_if (exists_key s "bit") (BadPoint id "bit") in st_ret 0.

Definition kind_format (k : Kind) (f : Format) : bool :=
  negb ((bool_decide (k = DoublePoint) && negb (bool_decide (f = DP))) ||
        (bool_decide (k = SinglePoint) && negb (bool_decide (f = Bit))) ||
        (bool_decide (k = StepPosition) && negb (bool_decide (f = Step))) ||
        (bool_decide (k = Float) && negb (bool_decide (f = F32)) && negb (bool_decide (f = U16)) &&
         negb (bool_decide (f = I16)))).

Definition optional_str (o : object) (where_ key : string) (cap : nat) : P string :=
  if exists_key o key then str o where_ key cap else st_ret "".
Definition optional_boolean (o : object) (where_ key : string) : P bool :=
  if exists_key o key then boolean o where_ key else st_ret false.

Definition point (v : value) : P (Point * string) :=
  let '(o, ok) := as_object v in
  do? fail_if (negb ok) (NotObject "points") in
  do? keys o "point" ["id"; "ioa"; "kind"; "asdu"; "unit"; "deadband"; "cyclic_ms"; "measurement";
                      "source"; "limits"] in
  let? id := str o "point" "id" 64 in
  let? ioa := integer o "point" "ioa" 1 0xffffff in
  let? k := kind o "point" false in
  let? a := str o "point" "asdu" 16 in
  do? asdu id k a in
  let? unit_ := optional_str o "point" "unit" 16 in
  let? measurement := optional_boolean o "point" "measurement" in
  let? '(deadband, hasDeadband) := point_deadband o id in
  do? fail_if (negb (bool_decide (k = Float)) && (hasDeadband || measurement))
        (BadPoint id "measurement") in
  let? cyclic := point_cyclic o id k in
  let? '(hasLimits, low, high) := point_limits o id k unit_ in
  let? v := required o "point" "source" in
  let '(s, ok) := as_object v in
  do? fail_if (negb ok) (BadPoint id "source") in
  do? keys s "source" ["device"; "table"; "address"; "format"; "bit"; "scale"; "transient"] in
  let? v := required s "source" "device" in
  let '(dev, ok) := as_string v in
  do? fail_if (negb ok) (BadPoint id "device") in
  let? t := table s "source" in
  let? address := integer s "source" "address" 0 65535 in
  let? fs := str s "source" "format" 8 in
  let f := Format_of fs in
  do? fail_if (match f with OtherFormat _ => true | _ => false end) (BadPoint id "format") in
  let? scale := source_scale s id f in
  let? '(ta, tb) := source_transient s id f in
  let? bit := source_bit s id f in
  do? fail_if (negb (kind_format k f)) (BadPoint id "kind") in
  st_ret (mkPoint id a unit_ ioa k measurement cyclic deadband hasDeadband hasLimits low high
            0 t address f bit scale ta tb, dev).

Definition feedback_kind (k : Kind) : Kind :=
  match k with
  | DoubleCommand => DoublePoint
  | RegulatingStep => StepPosition
  | SingleCommand => SinglePoint
  | _ => InvalidKind ""
  end.

Definition index {S E A} (l : list A) (i : Z) : stM S E A :=
  deref (if i <? 0 then None else l !! Z.to_nat i).

Definition command (v : value) (devices : list Device) (points : list Point) : P Command :=
  let '(o, ok) := as_object v in
  do? fail_if (negb ok) (NotObject "commands") in
  do? keys o "command" ["id"; "ioa"; "kind"; "asdu"; "sbo"; "target"; "feedback"] in
  let? id := str o "command" "id" 64 in
  let? ioa := integer o "command" "ioa" 1 0xffffff in
  let? k := kind o "command" true in
  let? a := str o "command" "asdu" 16 in
  do? asdu id k a in
  let? sbo := boolean o "command" "sbo" in
  let? fb := str o "command" "feedback" 64 in
  let? v := required o "command" "target" in
  let '(t, ok) := as_object v in
  do? fail_if (negb ok) (NotAnObject id "target") in
  do? keys t "target" ["device"; "table"; "address"] in
  let? tb := table t "target" in
  let? address := integer t "target" "address" 0 65535 in
  let? v := required t "target" "device" in
  let '(dev, ok) := as_string v in
  do? fail_if (negb ok) (NotString id "target.device") in
  let di := deviceIndex devices dev in
  do? fail_if (di <? 0) (UnknownDevice id) in
  let fi := pointIndex points fb in
  do? fail_if (fi <? 0) (UnknownFeedback id) in
  let c := mkCommand id a fb ioa k sbo di fi tb address in
  let? err := st_get in
  match err with
  | Some _ => st_ret c
  | None =>
      let? pt := index points fi in
      do? fail_if (negb (bool_decide (tb = Holding)) || negb sbo ||
                   negb (bool_decide (Point_Kind pt = feedback_kind k)) ||
                   negb (Point_DeviceIndex pt =? di)) (BadCommand id) in
      st_ret c
  end.

(** ** Parse *)
Definition set_DeviceIndex (i : Z) (p : Point) : Point :=
  mkPoint (Point_ID p) (Point_ASDU p) (Point_Unit p) (Point_IOA p) (Point_Kind p) (Measurement p)
    (CyclicMS p) (Deadband p) (HasDeadband p) (HasLimits p) (LimitLow p) (LimitHigh p)
    i (Point_Table p) (Point_Address p) (Point_Format p) (Point_Bit p) (Scale p)
    (TransientAddress p) (TransientBit p).

Fixpoint parse_devices (vs : list value) (devices : list Device) : P (list Device) :=
  match vs with
  | [] => st_ret devices
  | v :: vs' =>
      let? err := st_get in
      match err with
      | Some _ => st_ret devices
      | None =>
          if (length devices =? 8)%nat then do? fail (TooMany "devices") in st_ret devices
          else let? d := device v in parse_devices vs' (devices ++ [d])%list
      end
  end.

(** Whether the source of a point lies in the poll block of its device. *)
Definition in_poll (d : Device) (pt : Point) : bool :=
  let end_ := Point_Address pt + 1 + (if bool_decide (Point_Format pt = F32) then 1 else 0) in
  negb (negb (bool_decide (Point_Table pt = PollTable d)) || (Point_Address pt <? PollStart d) ||
        (PollStart d + PollCount d <? end_) ||
        (bool_decide (Point_Format pt = Step) &&
         ((TransientAddress pt <? PollStart d) || (PollStart d + PollCount d <=? TransientAddress pt)))).

Fixpoint parse_points (devices : list Device) (vs : list value) (points : list Point)
    : P (list Point) :=
  match vs with
  | [] => st_ret points
  | v :: vs' =>
      let? err := st_get in
      match err with
      | Some _ => st_ret points
      | None =>
          if (length points =? 64)%nat then do? fail (TooMany "points") in st_ret points
          else
            let? '(pt, dev) := point v in
            let? err := st_get in
            match err with
            | Some _ => st_ret points
            | None =>
                let di := deviceIndex devices dev in
                if di <? 0 then do? fail (UnknownDevice (Point_ID pt)) in st_ret points
                else
                  let pt := set_DeviceIndex di pt in
                  let? d := index devices di in
                  do? fail_if (negb (in_poll d pt)) (OutsidePoll (Point_ID pt) "source") in
                  do? fail_if (0 <=? pointIndex points (Point_ID pt)) (DuplicatePoint (Point_ID pt)) in
                  parse_points devices vs' (points ++ [pt])%list
            end
      end
  end.

Fixpoint parse_commands (devices : list Device) (points : list Point) (vs : list value)
    (commands : list Command) : P (list Command) :=
  match vs with
  | [] => st_ret commands
  | v :: vs' =>
      let? err := st_get in
      match err with
      | Some _ => st_ret commands
      | None =>
          if (length commands =? 16)%nat then do? fail (TooMany "commands") in st_ret commands
          else
            let? c := command v devices points in
            parse_commands devices points vs' (commands ++ [c])%list
      end
  end.

(** The pairwise check of the device names. *)
Fixpoint unique_devices (seen : list string) (devices : list Device) : P unit :=
  match devices with
  | [] => st_ret tt
  | d :: devices' =>
      do? fail_if (bool_decide (Device_ID d ∈ seen)) DuplicateDevice in
      unique_devices (Device_ID d :: seen) devices'
  end.

(** The closure [check] over the names and addresses in order. *)
Fixpoint unique_ids (ids : list string) (ioas : list Z) (l : list (string * Z)) : P unit :=
  match l with
  | [] => st_ret tt
  | (id, ioa) :: l' =>
      do? fail_if (bool_decide (id ∈ ids) || bool_decide (ioa ∈ ioas)) (DuplicateID id) in
      unique_ids (id :: ids) (ioa :: ioas) l'
  end.

Definition map_ids (points : list Point) (commands : list Command) : list (string * Z) :=
  ((λ p, (Point_ID p, Point_IOA p)) <$> points) ++ ((λ c, (Command_ID c, Command_IOA c)) <$> commands).

Definition parse_timers (root : object) : P Timers :=
  let? t := section_ root "root" "timers" in
  do? keys t "timers" ["t0_s"; "t1_s"; "t2_s"; "t3_s"; "k"; "w"] in
  let? t0 := integer t "timers" "t0_s" 1 255 in
  let? t1 := integer t "timers" "t1_s" 1 255 in
  let? t2 := integer t "timers" "t2_s" 1 255 in
  let? t3 := integer t "timers" "t3_s" 1 255 in
  let? k := integer t "timers" "k" 1 32767 in
  let? w := integer t "timers" "w" 1 32767 in
  st_ret (mkTimers t0 t1 t2 t3 k w).

Definition parse_command_list (root : object) (devices : list Device) (points : list Point)
    : P (list Command) :=
  let? err := st_get in
  match get root "commands", err with
  | Some v, None =>
      let '(a, ok) := as_array v in
      do? fail_if (negb ok) (BadArray "commands") in
      parse_commands devices points a []
  | _, _ => st_ret []
  end.

Definition parse_root (root : object) : P Map :=
  do? keys root "root" ["schema"; "ca"; "timers"; "select_timeout_ms"; "reconnect_interval_ms";
                        "gi_interval_ms"; "clock"; "devices"; "points"; "commands"] in
  let? schema := integer root "root" "schema" 2 2 in
  let? ca := integer root "root" "ca" 1 65535 in
  let? timers := parse_timers root in
  let? sel := integer root "root" "select_timeout_ms" 1 600000 in
  let? rec := integer root "root" "reconnect_interval_ms" 1 600000 in
  let? gi := integer root "root" "gi_interval_ms" 60000 86400000 in
  let? c := clock root in
  let? dvs := array root "devices" true in
  let? devices := parse_devices dvs [] in
  let? pvs := array root "points" true in
  let? points := parse_points devices pvs [] in
  let? commands := parse_command_list root devices points in
  do? unique_devices [] devices in
  do? unique_ids [] [] (map_ids points commands) in
  st_ret (mkMap schema ca timers sel rec gi c devices points commands).

(** [Parse] on a file of [size] octets. *)
Definition Parse (size : Z) (doc : document) : outcome map_error Map :=
  guard_err TooLarge ((size =? 0) || (1048576 <? size))
    (match parseJSON doc with
     | Ok (JObject root) =>
         match parse_root root None with
         | (Ok m, None) => Ok m
         | (Ok _, Some e) => Err e
         | (Diverge, _) => Diverge
         | (_, _) => Panic
         end
     | Ok _ => Err (NotObject "root")
     | Err _ => Err InvalidJSON
     | Panic => Panic
     | Diverge => Diverge
     end).

(** ** Reading is inverse to printing *)
Fixpoint print (v : value) : list token :=
  match v with
  | JNull => [TNull]
  | JBool b => [TBool b]
  | JNumber n => [TNumber n]
  | JString s => [TString s]
  | JArray a => TOpenArray :: (concat (print <$> a) ++ [TCloseArray])%list
  | JObject o =>
      TOpenObject :: (concat ((λ f, TString f.1 :: print f.2) <$> o) ++ [TCloseObject])%list
  end.

Section value_ind.
Context (Q : value → Prop).
Context (Hnull : Q JNull) (Hbool : ∀ b, Q (JBool b)) (Hnum : ∀ n, Q (JNumber n))
  (Hstr : ∀ s, Q (JString s)) (Harr : ∀ a, Forall Q a → Q (JArray a))
  (Hobj : ∀ o : object, Forall (λ f, Q f.2) o → Q (JObject o)).

Fixpoint value_nested_ind (v : value) : Q v :=
  match v with
  | JNull => Hnull
  | JBool b => Hbool b
  | JNumber n => Hnum n
  | JString s => Hstr s
  | JArray a =>
      Harr a ((fix go l : Forall Q l :=
        match l with
        | [] => Forall_nil_2 _
        | v :: l' => Forall_cons_2 _ _ _ (value_nested_ind v) (go l')
        end) a)
  | JObject o =>
      Hobj o ((fix go (l : object) : Forall (λ f, Q f.2) l :=
        match l with
        | [] => Forall_nil_2 _
        | f :: l' => Forall_cons_2 _ _ _ (value_nested_ind f.2) (go l')
        end) o)
  end.
End value_ind.

(** What a reader makes of a prefix of printed values: the value when it is
    complete, an error otherwise. *)
Definition reads {A} (r : outcome unit (A * list token)) (a : A) (pr d : list token) : Prop :=
  (∃ rest, d = (pr ++ rest)%list ∧ r = Ok (a, rest)) ∨ ((length d < length pr)%nat ∧ r = Err tt).

Definition prefix_of_app (d pr : list token) : Prop := ∃ more rest, (d ++ more = pr ++ rest)%list.

Lemma print_cons v : ∃ t ts, print v = t :: ts ∧ More (t :: ts) = true.
Proof. destruct v; cbn; eauto. Qed.

Lemma print_length v : (1 ≤ length (print v))%nat.
Proof. destruct v; cbn; lia. Qed.

(** [d] begins like [pr]: one continues the other. *)
Lemma reads_nil {A} (r : outcome unit (A * list token)) a pr :
  pr ≠ [] → r = Err tt → reads r a pr [].
Proof. intros Hpr ->. right. destruct pr; [done|]. cbn. split; [lia|done]. Qed.

Lemma reads_list_elements a : Forall (λ v, ∀ fuel d, prefix_of_app d (print v) →
    (2 * length d + 1 ≤ fuel)%nat → reads (readValue fuel d) v (print v) d) a →
  ∀ fuel d, prefix_of_app d (concat (print <$> a) ++ [TCloseArray])%list →
    (2 * length d + 2 ≤ fuel)%nat →
    reads (readElements fuel d) a (concat (print <$> a) ++ [TCloseArray])%list d.
Proof.
  induction 1 as [|v a Hv _ IH]; intros fuel d (more & rest & Hd) Hf;
    (destruct fuel as [|fuel]; [lia|]).
  - destruct d as [|t d]; [by apply reads_nil|]. injection Hd as -> Hd. left. by exists d.
  - destruct d as [|t d]; [apply reads_nil; [|done]; cbn; pose proof (print_length v); destruct (print v); [cbn in *; lia|done]|].
    cbn [fmap list_fmap concat] in *. rewrite <- app_assoc in *.
    assert (More (t :: d) = true) as Hm.
    { destruct (print_cons v) as (t' & ts & Hp & Hm). rewrite Hp in Hd. injection Hd as -> _. by destruct t'. }
    cbn [readElements]. rewrite Hm. cbn [negb].
    destruct (Hv fuel (t :: d)) as [(d1 & Hd1 & Hr)|[Hlt Hr]].
    + exists more. rewrite Hd, <- app_assoc. eauto.
    + lia.
    + rewrite Hr. cbn [bind]. rewrite Hd1 in Hd. rewrite <- !app_assoc in Hd. apply app_inv_head in Hd.
      pose proof (print_length v). assert (length (t :: d) = (length (print v) + length d1)%nat) as Hl
        by (rewrite Hd1, length_app; done).
      destruct (IH fuel d1) as [(d2 & Hd2 & Hr2)|[Hlt2 Hr2]].
      * exists more, rest. by rewrite <- app_assoc.
      * cbn [length] in *. lia.
      * left. exists d2. rewrite Hr2. split; [|done]. rewrite Hd1, Hd2, <- !app_assoc. done.
      * right. rewrite Hr2. split; [|done]. rewrite Hl, length_app. lia.
    + right. rewrite Hr. split; [|done]. rewrite length_app. lia.
Qed.

Lemma reads_list_fields (o : object) : Forall (λ f, ∀ fuel d, prefix_of_app d (print f.2) →
    (2 * length d + 1 ≤ fuel)%nat → reads (readValue fuel d) f.2 (print f.2) d) o →
  let pr := (concat ((λ f, TString f.1 :: print f.2) <$> o) ++ [TCloseObject])%list in
  ∀ fuel d, prefix_of_app d pr → (2 * length d + 2 ≤ fuel)%nat → reads (readFields fuel d) o pr d.
Proof.
  induction 1 as [|[k v] o Hv _ IH]; intros pr fuel d (more & rest & Hd) Hf;
    (destruct fuel as [|fuel]; [lia|]).
  - destruct d as [|t d]; [by apply reads_nil|]. injection Hd as -> Hd. left. by exists d.
  - subst pr. destruct d as [|t d]; [by apply reads_nil|].
    cbn [fmap list_fmap concat fst snd app] in *. injection Hd as -> Hd. rewrite <- app_assoc in *.
    cbn [readFields More negb].
    destruct (Hv fuel d) as [(d1 & Hd1 & Hr)|[Hlt Hr]].
    + exists more. rewrite Hd, <- app_assoc. eauto.
    + cbn [length] in *. lia.
    + cbn [snd] in *. rewrite Hr. cbn [bind]. rewrite Hd1 in Hd. rewrite <- !app_assoc in Hd. apply app_inv_head in Hd.
      pose proof (print_length v). assert (length d = (length (print v) + length d1)%nat) as Hl
        by (rewrite Hd1, length_app; done).
      destruct (IH fuel d1) as [(d2 & Hd2 & Hr2)|[Hlt2 Hr2]].
      * exists more, rest. by rewrite <- app_assoc.
      * cbn [length] in *. lia.
      * left. exists d2. cbn zeta in *. rewrite Hr2. cbn [bind]. split; [|done].
        cbn [app]. f_equal. rewrite Hd1, Hd2, <- !app_assoc. done.
      * right. rewrite Hr2. split; [|done]. cbn [length]. rewrite Hl, length_app. cbn zeta in *. lia.
    + right. cbn [snd] in *. rewrite Hr. split; [|done]. cbn [length]. rewrite length_app. lia.
Qed.

Lemma reads_value v : ∀ fuel d, prefix_of_app d (print v) → (2 * length d + 1 ≤ fuel)%nat →
  reads (readValue fuel d) v (print v) d.
Proof.
  induction v as [|b|n|s|a IH|o IH] using value_nested_ind; intros fuel d (more & rest & Hd) Hf;
    (destruct fuel as [|fuel]; [lia|]);
    (destruct d as [|t d]; [by apply reads_nil|]); cbn [print app] in Hd; injection Hd as -> Hd;
    try (left; by exists d).
  - cbn [readValue].
    destruct (reads_list_elements a IH fuel d) as [(d1 & -> & ->)|[Hl ->]];
      [by exists more, rest|cbn in *; lia|left; by exists d1|right].
    cbn [print length]. split; [lia|done].
  - cbn [readValue].
    destruct (reads_list_fields o IH fuel d) as [(d1 & -> & ->)|[Hl ->]];
      [by exists more, rest|cbn in *; lia|left; by exists d1|right].
    cbn [print length]. split; [lia|done].
Qed.

(** The decoder's promise: it delivers a prefix of printed values. *)
Definition decoder_ok (doc : document) : Prop :=
  ∃ vs more, (tokens doc ++ more = concat (print <$> vs))%list.

Lemma parseJSON_spec doc : decoder_ok doc →
  parseJSON doc = Err tt ∨
  ∃ v, tokens doc = print v ∧ complete doc = true ∧ has_nul doc = false ∧ parseJSON doc = Ok v.
Proof.
  intros (vs & more & Hd). unfold parseJSON. destruct (has_nul doc); [by left|]. cbn [guard_err].
  destruct vs as [|v vs].
  { destruct (tokens doc); [by left|done]. }
  cbn [fmap list_fmap concat] in Hd.
  destruct (reads_value v (read_fuel (tokens doc)) (tokens doc)) as [(d & Ht & Hr)|[_ Hr]].
  { by exists more, (concat (print <$> vs)). }
  { unfold read_fuel. lia. }
  2:{ left. by rewrite Hr. }
  rewrite Hr. cbn [bind]. destruct (complete doc) eqn:Hc; [|by left]. case_bool_decide as Hnil; [|by left].
  right. exists v. rewrite Ht, Hnil, app_nil_r. done.
Qed.

(** A complete document reads as the value it prints. *)
Lemma parseJSON_print v : parseJSON (mkDocument (print v) true false) = Ok v.
Proof.
  unfold parseJSON. cbn [has_nul guard_err tokens complete].
  destruct (reads_value v (read_fuel (print v)) (print v)) as [(d & Ht & ->)|[Hl _]].
  { exists [], []. done. }
  { unfold read_fuel. lia. }
  2:{ lia. }
  cbn [bind andb]. rewrite <- (app_nil_r (print v)) in Ht at 1. apply app_inv_head in Ht as <-.
  by rewrite bool_decide_true.
Qed.
