(* ===== verification/PointMapValid.v ===== *)
(** * What a loaded point map guarantees

    [map_valid] collects the properties the stations rely on without checking
    them again: ranges, indices, addresses inside the poll block, uniqueness.
    The parser's first error is its whole error state, so the program logic
    here ([ok]) states what is known when no error has been recorded, together
    with the absence of panics in every case. *)
From S2P Require Import Prelude GoLib PointMap.
From Stdlib Require Import SpecFloat.

#[local] Open Scope string_scope.
#[local] Open Scope Z_scope.

(** ** Binary64 numbers as integers scaled by 2^1074 *)
Definition f64_valid (x : float64) : Prop := valid_binary 53 1024 x = true.

Definition scaled (m : positive) (e : Z) : Z := Z.pos m * 2 ^ (e + 1074).

Lemma digits2_bounds m : 2 ^ (Z.pos (digits2_pos m) - 1) ≤ Z.pos m < 2 ^ Z.pos (digits2_pos m).
Proof.
  induction m as [m IH|m IH|]; cbn [digits2_pos]; [| |done];
    rewrite Pos2Z.inj_succ; replace (Z.succ (Z.pos (digits2_pos m)) - 1) with (Z.pos (digits2_pos m)) by lia;
    rewrite Z.pow_succ_r by lia;
    replace (2 ^ Z.pos (digits2_pos m)) with (2 * 2 ^ (Z.pos (digits2_pos m) - 1)) in *
      by (rewrite <- Z.pow_succ_r by lia; f_equal; lia);
    lia.
Qed.

(** A canonical number has at most 53 digits, exactly 53 above the least
    exponent. *)
Lemma valid_digits s m e : f64_valid (S754_finite s m e) →
  -1074 ≤ e ∧ Z.pos m < 2 ^ 53 ∧ (-1074 < e → 2 ^ 52 ≤ Z.pos m).
Proof.
  unfold f64_valid. cbn [valid_binary]. unfold bounded, canonical_mantissa, fexp, emin.
  intros H. apply andb_true_iff in H as [H _]. apply Z.eqb_eq in H.
  pose proof (digits2_bounds m) as [Hl Hu]. change (3 - 1024 - 53) with (-1074) in H.
  assert (Z.pos (digits2_pos m) ≤ 53) by lia.
  assert (2 ^ Z.pos (digits2_pos m) ≤ 2 ^ 53) by (apply Z.pow_le_mono_r; lia).
  split_and!; [lia|lia|]. intros He.
  assert (Z.pos (digits2_pos m) = 53) as Hd by lia. rewrite Hd in Hl. exact Hl.
Qed.

Lemma scaled_lt m1 e1 m2 e2 :
  f64_valid (S754_finite false m1 e1) → f64_valid (S754_finite false m2 e2) → e1 < e2 →
  scaled m1 e1 < scaled m2 e2.
Proof.
  intros H1 H2 He. apply valid_digits in H1 as (Hm1 & Hu & _). apply valid_digits in H2 as (Hm2 & _ & Hl).
  unfold scaled. specialize (Hl ltac:(lia)).
  apply Z.lt_le_trans with (2 ^ 53 * 2 ^ (e1 + 1074)); [apply Z.mul_lt_mono_pos_r; lia|].
  apply Z.le_trans with (2 ^ 52 * 2 ^ (e2 + 1074)); [|apply Z.mul_le_mono_nonneg_r; lia].
  rewrite <- !Z.pow_add_r by lia. apply Z.pow_le_mono_r; lia.
Qed.

Lemma compare_scaled m1 e1 m2 e2 :
  f64_valid (S754_finite false m1 e1) → f64_valid (S754_finite false m2 e2) →
  SFcompare (S754_finite false m1 e1) (S754_finite false m2 e2)
  = Some (scaled m1 e1 ?= scaled m2 e2).
Proof.
  intros H1 H2. cbn [SFcompare]. destruct (Z.compare_spec e1 e2) as [->|Hlt|Hgt].
  - f_equal. unfold scaled. apply valid_digits in H1 as (He & _).
    rewrite <- Zmult_compare_compat_r by lia. done.
  - f_equal. symmetry. apply Z.compare_lt_iff. by apply scaled_lt.
  - f_equal. symmetry. apply Z.compare_gt_iff. by apply scaled_lt.
Qed.

(** Integers below 2^53 convert exactly. *)
Lemma iter_xO m k : Z.pos (Pos.iter xO m k) = Z.pos m * 2 ^ Z.pos k.
Proof.
  induction k as [|k IH] using Pos.peano_ind; [cbn; lia|].
  rewrite Pos.iter_succ, Pos2Z.inj_xO, IH, Pos2Z.inj_succ, Z.pow_succ_r by lia. lia.
Qed.

Lemma digits_iter_xO m k : Z.pos (digits2_pos (Pos.iter xO m k)) = Z.pos (digits2_pos m) + Z.pos k.
Proof.
  induction k as [|k IH] using Pos.peano_ind; [cbn; lia|].
  rewrite Pos.iter_succ. cbn [digits2_pos]. rewrite !Pos2Z.inj_succ, IH. lia.
Qed.

Lemma round_canonical m e : f64_valid (S754_finite false m e) →
  binary_round_aux 53 1024 false (Z.pos m) e loc_Exact = S754_finite false m e.
Proof.
  unfold f64_valid. cbn [valid_binary]. unfold bounded, canonical_mantissa. intros H.
  apply andb_true_iff in H as [H He]. apply Z.eqb_eq in H.
  unfold binary_round_aux, shr_fexp. cbn [Zdigits2]. rewrite H, Z.sub_diag. cbn [shr].
  cbn [shr_record_of_loc shr_m loc_of_shr_record round_nearest_even Zdigits2]. rewrite H, Z.sub_diag. cbn [shr shr_m].
  by rewrite He.
Qed.

Lemma f64_of_pos m : Z.pos m < 2 ^ 53 → ∃ m' e,
  f64_of (Z.pos m) 0 = S754_finite false m' e ∧ f64_valid (S754_finite false m' e) ∧
  scaled m' e = Z.pos m * 2 ^ 1074.
Proof.
  intros Hm. pose proof (digits2_bounds m) as [Hl _].
  assert (Z.pos (digits2_pos m) ≤ 53) as Hd.
  { destruct (Z.le_gt_cases (Z.pos (digits2_pos m)) 53) as [|Hgt]; [done|].
    assert (2 ^ 53 ≤ 2 ^ (Z.pos (digits2_pos m) - 1)) by (apply Z.pow_le_mono_r; lia). lia. }
  unfold f64_of, binary_normalize, binary_round.
  assert (fexp 53 1024 (Z.pos (digits2_pos m) + 0) = Z.pos (digits2_pos m) - 53) as ->
    by (unfold fexp, emin; lia).
  unfold shl_align. rewrite Z.sub_0_r. destruct (Z.pos (digits2_pos m) - 53) as [|p|k] eqn:Hk; [|lia|].
  - exists m, 0. assert (f64_valid (S754_finite false m 0)) as Hv.
    { unfold f64_valid. cbn [valid_binary]. unfold bounded, canonical_mantissa, fexp, emin.
      apply andb_true_iff. split; [apply Z.eqb_eq; lia|done]. }
    rewrite round_canonical by done. done.
  - exists (Pos.iter xO m k), (Z.neg k).
    assert (f64_valid (S754_finite false (Pos.iter xO m k) (Z.neg k))) as Hv.
    { unfold f64_valid. cbn [valid_binary]. unfold bounded, canonical_mantissa, fexp, emin.
      apply andb_true_iff. rewrite digits_iter_xO. split; [apply Z.eqb_eq; lia|apply Z.leb_le; lia]. }
    rewrite round_canonical by done. split_and!; [done|done|].
    unfold scaled. rewrite iter_xO, <- Z.mul_assoc, <- Z.pow_add_r by lia. do 2 f_equal. lia.
Qed.

(** What the parser's comparisons and its integrality test establish. *)
Definition f64_integer (n : float64) (low high : Z) : bool :=
  negb (IsNaN n || IsInf n || SFltb n (f64_of low 0) || SFltb (f64_of high 0) n ||
        negb (SFeqb (Floor n) n)).

Lemma int_of_scaled m e : Modf (S754_finite false m e) = S754_finite false m e → -1074 ≤ e →
  scaled m e = int_of (S754_finite false m e) * 2 ^ 1074.
Proof.
  intros H He. unfold scaled. cbn [int_of Modf] in *. case_if_in H; bool_facts.
  { rewrite Z.shiftl_mul_pow2, <- Z.mul_assoc, <- Z.pow_add_r by lia. done. }
  rewrite <- (Z.opp_involutive e) at 2. rewrite Z.shiftl_opp_r.
  destruct (Z.shiftl (Z.shiftr (Z.pos m) (- e)) (- e)) eqn:Hs; simplify_eq.
  replace (Z.pos m) with (Z.shiftr (Z.pos m) (- e) * 2 ^ (- e)) at 1
    by (rewrite <- Z.shiftl_mul_pow2 by lia; done).
  rewrite <- Z.mul_assoc, <- Z.pow_add_r by lia. do 2 f_equal. lia.
Qed.

Lemma Modf_integral m e :
  SFeqb (Modf (S754_finite false m e)) (S754_finite false m e) = true →
  Modf (S754_finite false m e) = S754_finite false m e.
Proof.
  cbn [Modf]. case_if; [done|].
  destruct (Z.shiftl (Z.shiftr (Z.pos m) (- e)) (- e)) as [|m'|m'] eqn:Hs; [done| |done].
  unfold SFeqb. cbn [SFcompare]. rewrite Z.compare_refl. change (Pos.compare_cont Eq m' m) with (m' ?= m)%positive.
  destruct (Pos.compare_spec m' m) as [->| |]; done.
Qed.

Lemma f64_integer_spec n low high : f64_valid n → 0 ≤ low < 2 ^ 53 → 0 ≤ high < 2 ^ 53 →
  f64_integer n low high = true → low ≤ int_of n ≤ high.
Proof.
  intros Hn Hlow Hhigh H. unfold f64_integer in H. apply negb_true_iff in H.
  bool_facts. rename H2 into Hl, H1 into Hh, H0 into Hi.
  assert (∀ z, 0 ≤ z < 2 ^ 53 → z = 0 ∧ f64_of z 0 = S754_zero false ∨ 0 < z ∧ ∃ m' e',
    f64_of z 0 = S754_finite false m' e' ∧ f64_valid (S754_finite false m' e') ∧
    scaled m' e' = z * 2 ^ 1074) as Hz.
  { intros z Hz. destruct z as [|z|z]; [by left| |lia]. right. split; [done|]. apply f64_of_pos. lia. }
  destruct n as [s|s| |s m e]; try done.
  - cbn [int_of]. destruct (Hz low Hlow) as [[-> _]|(_ & m' & e' & Hf & _)]; [lia|].
    by rewrite Hf in Hl.
  - destruct s.
    { by destruct (Hz low Hlow) as [[_ Hf]|(_ & m' & e' & Hf & _)]; rewrite Hf in Hl. }
    cbn [Floor] in Hi. apply Modf_integral in Hi. pose proof (valid_digits _ _ _ Hn) as (He & _).
    pose proof (int_of_scaled _ _ Hi He) as Hv. assert (0 < 2 ^ 1074) as Hp by done.
    split.
    + destruct (Hz low Hlow) as [[-> _]|(_ & m' & e' & Hf & Hv' & Hs')].
      { cbn [int_of]. by apply Z.shiftl_nonneg. }
      rewrite Hf in Hl. unfold SFltb in Hl. rewrite compare_scaled in Hl by done.
      destruct (Z.compare_spec (scaled m e) (scaled m' e')); [| done|]; nia.
    + destruct (Hz high Hhigh) as [[_ Hf]|(_ & m' & e' & Hf & Hv' & Hs')]; rewrite Hf in Hh; [done|].
      unfold SFltb in Hh. rewrite compare_scaled in Hh by done.
      destruct (Z.compare_spec (scaled m' e') (scaled m e)); [| done|]; nia.
Qed.

(** ** A logic for the parser

    [ok H m Q]: started with no error only where [H] holds, [m] returns; when
    it leaves no error there was none before and its result satisfies [Q]. *)
Definition ok {A} (H : Prop) (m : P A) (Q : A → Prop) : Prop :=
  ∀ err, (err = None → H) → wp m (λ a err', err' = None → err = None ∧ Q a) err.

Section Rules.
Context (H : Prop).

Lemma ok_ret {A} (a : A) (Q : A → Prop) : (H → Q a) → ok H (st_ret a) Q.
Proof. intros HQ err Herr. apply st_wp_ret. auto. Qed.

Lemma ok_bind {A B} (m : P A) (k : A → P B) Q1 Q :
  ok H m Q1 → (∀ a, ok (H ∧ Q1 a) (k a) Q) → ok H (st_bind m k) Q.
Proof.
  intros Hm Hk err Herr. apply st_wp_bind. eapply st_wp_mono; [by apply Hm|]. cbn.
  intros a err1 H1. eapply st_wp_mono; [apply Hk|]; cbn.
  - intros E. destruct (H1 E) as [E0 ?]. auto.
  - intros b err2 H2 E. destruct (H2 E) as [E1 ?]. destruct (H1 E1). auto.
Qed.

Lemma ok_fail e Q : ok H (fail e) Q.
Proof. intros err Herr. apply st_wp_upd. by destruct err. Qed.

Lemma ok_fail_ret {A} e (a : A) Q : ok H (do? fail e in st_ret a) Q.
Proof. intros err Herr. by destruct err. Qed.

Lemma ok_fail_if b e : ok H (fail_if b e) (λ _, b = false).
Proof.
  intros err Herr. unfold fail_if. destruct b; unfold wp; cbn; [by destruct err|auto].
Qed.

Lemma ok_get {A} (k : option map_error → P A) Q :
  (H → ok H (k None) Q) → (∀ e, ok False (k (Some e)) Q) → ok H (st_bind st_get k) Q.
Proof.
  intros H1 H2 [e|] Herr; apply st_wp_bind, st_wp_get; [by apply H2|apply H1; auto].
Qed.

Lemma ok_index {A} (l : list A) i Q : (0 ≤ i < zlen l) →
  (∀ a, l !! Z.to_nat i = Some a → Q a) → ok H (index l i) Q.
Proof.
  intros Hi HQ err Herr. unfold index. rewrite (proj2 (Z.ltb_ge i 0)) by lia.
  destruct (lookup_lt_is_Some_2 l (Z.to_nat i)) as [a Ha]; [unfold zlen in Hi; lia|].
  eapply st_wp_deref; [done|]. auto.
Qed.

Lemma ok_mono {A} (H' : Prop) (m : P A) (Q Q' : A → Prop) :
  ok H' m Q' → (H → H') → (∀ a, Q' a → Q a) → ok H m Q.
Proof.
  intros Hm HH HQ err Herr. eapply st_wp_mono; [apply Hm; auto|]. cbn.
  intros a e1 H1 E. destruct (H1 E). auto.
Qed.
Lemma ok_conseq {A} (m : P A) (Q Q' : A → Prop) : ok H m Q' → (∀ a, Q' a → Q a) → ok H m Q.
Proof. intros Hm HQ. by eapply ok_mono. Qed.
Lemma ok_frame {A} (m : P A) (Q Q' : A → Prop) : ok H m Q' → (H → ∀ a, Q' a → Q a) → ok H m Q.
Proof.
  intros Hm HQ err Herr. eapply st_wp_mono; [by apply Hm|]. cbn. intros a e1 H1 E. destruct (H1 E). auto.
Qed.
End Rules.

(** ** Values of the Go types: JSON numbers are binary64 *)
Fixpoint value_typed (v : value) : Prop :=
  match v with
  | JNumber n => f64_valid n
  | JArray a => (fix all l := match l with [] => True | v :: l' => value_typed v ∧ all l' end) a
  | JObject o =>
      (fix all (l : object) := match l with [] => True | f :: l' => value_typed f.2 ∧ all l' end) o
  | _ => True
  end.

Definition object_typed (o : object) : Prop := Forall (λ f, value_typed f.2) o.

Lemma typed_object o : value_typed (JObject o) ↔ object_typed o.
Proof.
  induction o as [|f o IH]; [by split; [constructor|]|]. unfold object_typed.
  rewrite Forall_cons. by rewrite <- IH.
Qed.
Lemma typed_array a : value_typed (JArray a) ↔ Forall value_typed a.
Proof. induction a as [|v a IH]; [by split; [constructor|]|]. by rewrite Forall_cons, <- IH. Qed.

Lemma typed_get o key v : object_typed o → get o key = Some v → value_typed v.
Proof.
  unfold get, object_typed. intros Ho Hg. apply fmap_Some in Hg as ([k w] & Hf & ->).
  apply List.find_some in Hf as [Hin _]. rewrite Forall_forall in Ho. apply (Ho (k, w)).
  by apply list_elem_of_In.
Qed.

Lemma typed_as_object v : value_typed v → object_typed (as_object v).1.
Proof. destruct v; cbn [as_object fst]; try (intros; by apply Forall_nil_2). apply typed_object. Qed.
Lemma typed_as_array v : value_typed v → Forall value_typed (as_array v).1.
Proof. destruct v; cbn [as_array fst]; try (intros; by apply Forall_nil_2). apply typed_array. Qed.

(** ** The scalar readers *)
Section Readers.
Context (H : Prop) (o : object) (where_ key : string).

Lemma ok_required : (H → object_typed o) → ok H (required o where_ key) value_typed.
Proof.
  intros Ho. unfold required. destruct (get o key) as [v|] eqn:Hg; [|apply ok_fail_ret].
  apply ok_ret. intros h. by eapply typed_get; [apply Ho|].
Qed.

Lemma ok_integer low high : (H → object_typed o ∧ 0 ≤ low < 2 ^ 53 ∧ 0 ≤ high < 2 ^ 53) →
  ok H (integer o where_ key low high) (λ n, low ≤ n ≤ high).
Proof.
  intros Hp. unfold integer. eapply ok_bind; [apply ok_required; tauto|].
  intros v. destruct v; try apply ok_fail_ret. case_if; [apply ok_fail_ret|].
  apply ok_ret. intros [h Hv]. destruct (Hp h) as (_ & Hlo & Hhi).
  apply f64_integer_spec; [done|done|done|]. unfold f64_integer. by rewrite Hif.
Qed.

Lemma ok_required_any : ok H (required o where_ key) (λ _, True).
Proof. unfold required. destruct (get o key); [by apply ok_ret|apply ok_fail_ret]. Qed.

Lemma ok_number : ok H (number o where_ key) (λ n, IsNaN n = false ∧ IsInf n = false).
Proof.
  eapply ok_bind; [apply ok_required_any|]. intros v. destruct v; try apply ok_fail_ret.
  eapply ok_bind; [apply ok_fail_if|]. intros []. apply ok_ret. intros [_ Hn]. by apply orb_false_iff.
Qed.

Lemma ok_boolean : ok H (boolean o where_ key) (λ _, True).
Proof.
  eapply ok_bind; [apply ok_required_any|]. intros v. destruct v; try apply ok_fail_ret. by apply ok_ret.
Qed.

Lemma ok_str cap : ok H (str o where_ key cap) (λ s, (String.length s < cap)%nat).
Proof.
  eapply ok_bind; [apply ok_required_any|]. intros v. destruct v; try apply ok_fail_ret.
  eapply ok_bind; [apply ok_fail_if|]. intros []. apply ok_ret. intros [_ Hn]. by bool_facts.
Qed.

Lemma ok_keys allowed : ok H (keys o where_ allowed) (λ _, True).
Proof.
  unfold keys. generalize (@nil string). induction o as [|[k v] o' IH]; intros seen; cbn [keys_loop].
  { by apply ok_ret. }
  eapply ok_bind; [apply ok_fail_if|]. intros []. eapply ok_bind; [apply ok_fail_if|]. intros [].
  eapply ok_mono; [apply IH|tauto|done].
Qed.

End Readers.

Lemma ok_table H o where_ : ok H (table o where_) (λ t, t = Input ∨ t = Holding).
Proof.
  eapply ok_bind; [apply ok_str|]. intros s. eapply ok_bind; [apply ok_fail_if|]. intros [].
  apply ok_ret. intros [_ Hs]. unfold Table_of.
  destruct (s =? "input")%string; [by left|]. destruct (s =? "holding")%string; [by right|done].
Qed.

Lemma ok_section H o where_ key : (H → object_typed o) → ok H (section_ o where_ key) object_typed.
Proof.
  intros Ho. eapply ok_bind; [by apply ok_required|]. intros v.
  pose proof (typed_as_object v) as T. destruct (as_object v) as [s b].
  eapply ok_bind; [apply ok_fail_if|]. intros []. apply ok_ret. tauto.
Qed.

Lemma ok_array H o key nonempty : (H → object_typed o) →
  ok H (array o key nonempty) (λ a, Forall value_typed a ∧ (nonempty = true → a ≠ [])).
Proof.
  intros Ho. eapply ok_bind; [by apply ok_required|]. intros v.
  pose proof (typed_as_array v) as T. destruct (as_array v) as [s b].
  eapply ok_bind; [apply ok_fail_if|]. intros []. apply ok_ret. intros [[_ Hv] Hb].
  split; [by apply T|]. intros -> ->. by apply orb_false_iff in Hb as [_ Hb].
Qed.

Definition monitoring (k : Kind) : Prop := k ∈ [DoublePoint; SinglePoint; Float; StepPosition].
Definition commanding (k : Kind) : Prop := k ∈ [DoubleCommand; RegulatingStep; SingleCommand].

Lemma ok_kind H o where_ command :
  ok H (kind o where_ command) (λ k, if command : bool then commanding k else monitoring k).
Proof.
  eapply ok_bind; [apply ok_str|]. intros s. eapply ok_bind; [apply ok_fail_if|]. intros [].
  apply ok_ret. intros [_ Hk]. apply negb_false_iff in Hk. by destruct command; apply bool_decide_eq_true in Hk.
Qed.

Lemma ok_asdu H where_ k a : ok H (asdu where_ k a) (λ _, a = asdu_of k).
Proof.
  eapply ok_mono; [apply ok_fail_if|done|]. cbn. intros [] Hb. apply negb_false_iff in Hb.
  by apply String.eqb_eq.
Qed.

(** ** Validity *)
Record device_valid (d : Device) : Prop := {
  dv_port : 1 ≤ Port d ≤ 65535;
  dv_unit : 0 ≤ Unit d ≤ 255;
  dv_poll : 10 ≤ PollMS d ≤ 600000;
  dv_timeout : 10 ≤ TimeoutMS d ≤ 600000;
  dv_stale : 10 ≤ StaleAfterMS d ≤ 600000;
  dv_table : PollTable d = Input ∨ PollTable d = Holding;
  dv_start : 0 ≤ PollStart d;
  dv_count : 1 ≤ PollCount d ≤ 125;
  dv_end : PollStart d + PollCount d ≤ 65536;
  dv_heartbeat : HasHeartbeat d = true →
    PollStart d ≤ HeartbeatAddress d < PollStart d + PollCount d ∧ 10 ≤ HeartbeatStaleMS d ≤ 600000;
  dv_measurements : HasMeasurementsValid d = true →
    MVTable d = PollTable d ∧ PollStart d ≤ MVAddress d < PollStart d + PollCount d ∧ 0 ≤ MVBit d ≤ 15
}.

(** What a point promises by itself, and in the poll block of its device. *)
Record point_ok (p : Point) : Prop := {
  pv_ioa : 1 ≤ Point_IOA p ≤ 0xffffff;
  pv_kind : monitoring (Point_Kind p);
  pv_asdu : Point_ASDU p = asdu_of (Point_Kind p);
  pv_format : kind_format (Point_Kind p) (Point_Format p) = true;
  pv_cyclic : Point_Kind p = Float → 1000 ≤ CyclicMS p ≤ 3600000;
  pv_measurement : Measurement p = true → Point_Kind p = Float;
  pv_deadband : IsNaN (Deadband p) = false ∧ IsInf (Deadband p) = false ∧
                SFltb (Deadband p) (S754_zero false) = false;
  pv_scale : IsNaN (Scale p) = false ∧ IsInf (Scale p) = false;
  pv_bit : Point_Format p = Bit → 0 ≤ Point_Bit p ≤ 15;
  pv_transient : Point_Format p = Step → 0 ≤ TransientBit p ≤ 15
}.

Definition point_valid (devices : list Device) (p : Point) : Prop :=
  point_ok p ∧ 0 ≤ Point_DeviceIndex p ∧
  ∃ d, devices !! Z.to_nat (Point_DeviceIndex p) = Some d ∧ in_poll d p = true.

Definition command_valid (devices : list Device) (points : list Point) (c : Command) : Prop :=
  1 ≤ Command_IOA c ≤ 0xffffff ∧ commanding (Command_Kind c) ∧
  Command_ASDU c = asdu_of (Command_Kind c) ∧ SBO c = true ∧ Command_Table c = Holding ∧
  0 ≤ Command_Address c ≤ 65535 ∧ 0 ≤ Command_DeviceIndex c < zlen devices ∧
  0 ≤ FeedbackIndex c ∧ ∃ p, points !! Z.to_nat (FeedbackIndex c) = Some p ∧
    Point_Kind p = feedback_kind (Command_Kind c) ∧ Point_DeviceIndex p = Command_DeviceIndex c.

Record map_valid (m : Map) : Prop := {
  mv_schema : Schema m = 2;
  mv_ca : 1 ≤ CA m ≤ 65535;
  mv_timers : 1 ≤ T0 (Map_Timers m) ≤ 255 ∧ 1 ≤ T1 (Map_Timers m) ≤ 255 ∧ 1 ≤ T2 (Map_Timers m) ≤ 255 ∧
              1 ≤ T3 (Map_Timers m) ≤ 255 ∧ 1 ≤ K (Map_Timers m) ≤ 32767 ∧ 1 ≤ W (Map_Timers m) ≤ 32767;
  mv_select : 1 ≤ SelectTimeoutMS m ≤ 600000;
  mv_reconnect : 1 ≤ ReconnectIntervalMS m ≤ 600000;
  mv_gi : 60000 ≤ GIIntervalMS m ≤ 86400000;
  mv_devices : Forall device_valid (Devices m);
  mv_points : Forall (point_valid (Devices m)) (Points m);
  mv_commands : Forall (command_valid (Devices m) (Points m)) (Commands m);
  mv_sizes : (1 ≤ length (Devices m) ≤ 8)%nat ∧ (1 ≤ length (Points m) ≤ 64)%nat ∧
             (length (Commands m) ≤ 16)%nat;
  mv_device_ids : NoDup (Device_ID <$> Devices m);
  mv_ids : NoDup (fst <$> map_ids (Points m) (Commands m));
  mv_ioas : NoDup (snd <$> map_ids (Points m) (Commands m))
}.

(** ** The parser's parts

    [ok_next] takes one statement; the facts of a range or of the typing of a
    value are among those collected so far. *)
Ltac collect :=
  cbn [fst snd] in *; intros; destruct_and?;
  repeat match goal with
  | Hp : ?H → _, h : ?H |- _ => specialize (Hp h); destruct_and?
  end.
Ltac facts := solve [collect; try done; repeat split; auto; lia].
Ltac ok_leaf :=
  first [ apply ok_asdu | apply ok_fail_if | apply ok_keys | apply ok_number | apply ok_boolean | apply ok_str
        | apply ok_table | apply ok_kind | apply ok_required; facts
        | apply ok_integer; facts | apply ok_section; facts | apply ok_array; facts ].
Ltac ok_next :=
  lazymatch goal with
  | |- ok _ (match as_object ?v with _ => _ end) _ =>
      let T := fresh "T" in pose proof (typed_as_object v) as T; destruct (as_object v)
  | |- ok _ (match as_array ?v with _ => _ end) _ =>
      let T := fresh "T" in pose proof (typed_as_array v) as T; destruct (as_array v)
  | |- ok _ (match as_string ?v with _ => _ end) _ => destruct (as_string v)
  | |- ok _ (st_bind st_get _) _ => apply ok_get; [|intros ?]
  | |- ok _ (st_bind _ _) _ => eapply ok_bind; [ok_leaf|intros ?]
  | |- ok _ (st_ret _) _ => apply ok_ret
  end.

Lemma ok_heartbeat H d id start count : (H → object_typed d ∧ 0 ≤ start ≤ 65535 ∧ 1 ≤ count ≤ 125) →
  ok H (heartbeat d id start count) (λ '(hb, a, s), hb = true →
    start ≤ a < start + count ∧ 10 ≤ s ≤ 600000).
Proof.
  intros Hp. unfold heartbeat. destruct (get d "heartbeat") as [v|] eqn:Hg; [|by ok_next].
  assert (H → value_typed v) as Hv by (intros h; by eapply typed_get; [apply Hp|]).
  repeat ok_next. facts.
Qed.

Lemma ok_measurements_valid H d id t start count : (H → object_typed d) →
  ok H (measurements_valid d id t start count) (λ '(mv, mt, a, b), mv = true →
    mt = t ∧ start ≤ a < start + count ∧ 0 ≤ b ≤ 15).
Proof.
  intros Hp. unfold measurements_valid. destruct (get d "measurements_valid") as [v|] eqn:Hg; [|by ok_next].
  assert (H → value_typed v) as Hv by (intros h; by eapply typed_get; [apply Hp|]).
  repeat ok_next. collect. bool_facts.
  match goal with H : bool_decide _ = true |- _ => apply bool_decide_eq_true in H end. facts.
Qed.

Lemma ok_device H v : (H → value_typed v) → ok H (device v) device_valid.
Proof.
  intros Hv. unfold device. do 18 ok_next.
  eapply ok_bind; [apply ok_heartbeat; facts|]. intros [[hb hba] hbs].
  eapply ok_bind; [apply ok_measurements_valid; facts|]. intros [[[mv mt] ma] mb].
  ok_next. collect. bool_facts. constructor; cbn; auto; lia.
Qed.

Lemma ok_point_deadband H o id : ok H (point_deadband o id) (λ '(d, has), IsNaN d = false ∧
  IsInf d = false ∧ SFltb d (S754_zero false) = false).
Proof. unfold point_deadband. case_if; repeat ok_next; facts. Qed.

Lemma ok_point_cyclic H o id k : (H → object_typed o) →
  ok H (point_cyclic o id k) (λ n, k = Float → 1000 ≤ n ≤ 3600000).
Proof.
  intros Ho. unfold point_cyclic. case_bool_decide.
  - eapply ok_conseq; [apply ok_integer; facts|auto].
  - repeat ok_next. facts.
Qed.

Lemma ok_point_limits H o id k u : ok H (point_limits o id k u) (λ _, True).
Proof. unfold point_limits. destruct (get o "limits"); repeat ok_next; done. Qed.

Lemma f64_one : IsNaN (f64_of 1 0) = false ∧ IsInf (f64_of 1 0) = false.
Proof. by vm_compute. Qed.

Lemma ok_source_scale H s id f :
  ok H (source_scale s id f) (λ x, IsNaN x = false ∧ IsInf x = false).
Proof.
  unfold source_scale. case_if; [|ok_next; intros; apply f64_one].
  ok_next. apply ok_number.
Qed.

Lemma ok_source_transient H s id f : (H → object_typed s) →
  ok H (source_transient s id f) (λ '(a, b), f = Step → 0 ≤ b ≤ 15).
Proof.
  intros Hs. unfold source_transient. case_bool_decide; [|repeat ok_next; facts].
  assert (H → object_typed (match get s "transient" with Some v => as_object v | None => ([], false) end).1) as T.
  { intros h. destruct (get s "transient") as [v|] eqn:Hg; [|by apply Forall_nil_2].
    apply typed_as_object. by eapply typed_get; [apply Hs|]. }
  destruct (match get s "transient" with Some v => as_object v | None => ([], false) end) as [t b].
  repeat ok_next. facts.
Qed.

Lemma ok_source_bit H s id f : (H → object_typed s) →
  ok H (source_bit s id f) (λ b, f = Bit → 0 ≤ b ≤ 15).
Proof.
  intros Hs. unfold source_bit. case_bool_decide.
  - eapply ok_conseq; [apply ok_integer; facts|auto].
  - repeat ok_next. facts.
Qed.

Lemma ok_optional_str H o w k cap : ok H (optional_str o w k cap) (λ _, True).
Proof. unfold optional_str. case_if; [|by ok_next]. by eapply ok_mono; [apply ok_str| |]. Qed.

Lemma ok_optional_boolean H o w k : ok H (optional_boolean o w k) (λ _, True).
Proof. unfold optional_boolean. case_if; [apply ok_boolean|by ok_next]. Qed.

Lemma ok_point H v : (H → value_typed v) → ok H (point v) (λ '(p, _), point_ok p).
Proof.
  intros Hv. unfold point. do 8 ok_next.
  eapply ok_bind; [apply ok_optional_str|]. intros u.
  eapply ok_bind; [apply ok_optional_boolean|]. intros me.
  eapply ok_bind; [apply ok_point_deadband|]. intros [db hdb]. ok_next.
  eapply ok_bind; [apply ok_point_cyclic; facts|]. intros cy.
  eapply ok_bind; [apply ok_point_limits|]. intros [[hl lo] hi].
  do 11 ok_next.
  eapply ok_bind; [apply ok_source_scale|]. intros sc.
  eapply ok_bind; [apply ok_source_transient; facts|]. intros [ta tb].
  eapply ok_bind; [apply ok_source_bit; facts|]. intros bit. do 2 ok_next.
  collect. bool_facts. constructor; cbn [Point_IOA Point_Kind Point_ASDU Point_Format CyclicMS Measurement
    Deadband Scale Point_Bit TransientBit]; auto.
  intros ->. rewrite orb_true_r, andb_true_r in *. bool_facts. by eapply bool_decide_eq_true_1.
Qed.

Lemma index_from_spec {A} (f : A → string) id l i :
  index_from f id i l = -1 ∨
  ∃ k x, l !! k = Some x ∧ f x = id ∧ index_from f id i l = i + Z.of_nat k.
Proof.
  revert i. induction l as [|x l IH]; intros i; cbn [index_from]; [by left|].
  destruct (String.eqb_spec (f x) id) as [He|He].
  - right. exists 0%nat, x. split_and!; [done|done|lia].
  - destruct (IH (i + 1)) as [->|(k & y & Hk & Hy & ->)]; [by left|].
    right. exists (S k), y. split_and!; [done|done|lia].
Qed.

Lemma index_from_none {A} (f : A → string) id l i : 0 ≤ i → index_from f id i l < 0 → id ∉ f <$> l.
Proof.
  revert i. induction l as [|x l IH]; intros i Hi; cbn [index_from]; [intros _; by apply not_elem_of_nil|].
  destruct (String.eqb_spec (f x) id) as [He|He]; [lia|]. intros Hlt. apply not_elem_of_cons.
  split; [congruence|]. by apply (IH (i + 1)); [lia|].
Qed.

Lemma found_index {A} (f : A → string) id (l : list A) : 0 ≤ index_from f id 0 l →
  0 ≤ index_from f id 0 l < zlen l ∧
  ∃ x, l !! Z.to_nat (index_from f id 0 l) = Some x.
Proof.
  destruct (index_from_spec f id l 0) as [->|(k & x & Hk & _ & ->)]; [lia|]. intros _.
  pose proof (lookup_lt_Some _ _ _ Hk). unfold zlen. split; [lia|]. exists x.
  by rewrite Z.add_0_l, Nat2Z.id.
Qed.

Lemma ok_index_found {A} H (f : A → string) id (l : list A) :
  0 ≤ index_from f id 0 l →
  ok H (index l (index_from f id 0 l)) (λ a, l !! Z.to_nat (index_from f id 0 l) = Some a).
Proof. intros Hi. by apply ok_index; [apply found_index|]. Qed.

(** A recorded error needs no more than that the rest returns. *)
Lemma ok_command H v devices points : (H → value_typed v) →
  ok H (command v devices points) (command_valid devices points).
Proof.
  intros Hv. unfold command. do 22 ok_next; [|apply ok_ret; done].
  intros HH. assert (0 ≤ deviceIndex devices s ∧ 0 ≤ pointIndex points a7) as [Hd Hp].
  { destruct_and?. bool_facts. done. }
  clear HH. eapply ok_bind; [by apply ok_index_found|]. intros pt. ok_next. ok_next. collect. bool_facts.
  unfold command_valid. cbn.
  repeat match goal with H : bool_decide _ = true |- _ => apply bool_decide_eq_true in H end.
  split_and!; auto; try lia; try apply (found_index Device_ID s devices Hd). by exists pt.
Qed.

(** ** The loops *)
Lemma ok_parse_devices H vs ds : (H → Forall value_typed vs ∧ Forall device_valid ds ∧ (length ds ≤ 8)%nat) →
  ok H (parse_devices vs ds) (λ ds', Forall device_valid ds' ∧ (length ds' ≤ 8)%nat ∧
    (vs ≠ [] ∨ ds ≠ [] → ds' ≠ [])).
Proof.
  revert H ds. induction vs as [|v vs IH]; intros H ds Hp; cbn [parse_devices].
  { ok_next. naive_solver. }
  ok_next; [|ok_next; done]. intros HH. case_if; [apply ok_fail_ret|].
  eapply ok_bind; [apply ok_device; intros h; by destruct (Hp h) as ((Hv & _)%Forall_cons & _)|].
  intros d. eapply ok_conseq; [apply IH|]; cbn.
  - intros [h Hd]. destruct (Hp h) as ((_ & Hv)%Forall_cons & Hds & Hl). bool_facts.
    split_and!; [done|by apply Forall_app; auto|]. rewrite length_app. cbn. lia.
  - intros ds' (H1 & H2 & H3). split_and!; [done|done|]. intros _. apply H3. right. by destruct ds.
Qed.

Lemma ok_parse_points H devices vs ps :
  (H → Forall value_typed vs ∧ Forall (point_valid devices) ps ∧ (length ps ≤ 64)%nat) →
  ok H (parse_points devices vs ps) (λ ps', Forall (point_valid devices) ps' ∧ (length ps' ≤ 64)%nat ∧
    (vs ≠ [] ∨ ps ≠ [] → ps' ≠ [])).
Proof.
  revert H ps. induction vs as [|v vs IH]; intros H ps Hp; cbn [parse_points].
  { ok_next. naive_solver. }
  ok_next; [|ok_next; done]. intros HH. case_if; [apply ok_fail_ret|].
  eapply ok_bind; [apply ok_point; intros h; by destruct (Hp h) as ((Hv & _)%Forall_cons & _)|].
  intros [pt dev]. ok_next; [|ok_next; done]. intros [_ Hpt].
  destruct (Z.ltb_spec (deviceIndex devices dev) 0) as [|Hd]; [apply ok_fail_ret|].
  eapply ok_bind; [by apply ok_index_found|]. intros d. ok_next. ok_next.
  eapply ok_conseq; [apply IH|]; cbn.
  - intros [[[[h _] Hl] Hin] _]. destruct (Hp h) as ((_ & Hv)%Forall_cons & Hps & Hlen). bool_facts.
    split_and!; [done| |rewrite length_app; cbn; lia]. apply Forall_app. split; [done|]. apply Forall_singleton.
    split; [by destruct Hpt; constructor|]. cbn [Point_DeviceIndex set_DeviceIndex]. split; [done|]. by exists d.
  - intros ps' (H1 & H2 & H3). split_and!; [done|done|]. intros _. apply H3. right. by destruct ps.
Qed.

Lemma ok_parse_commands H devices points vs cs :
  (H → Forall value_typed vs ∧ Forall (command_valid devices points) cs ∧ (length cs ≤ 16)%nat) →
  ok H (parse_commands devices points vs cs) (λ cs', Forall (command_valid devices points) cs' ∧
    (length cs' ≤ 16)%nat).
Proof.
  revert H cs. induction vs as [|v vs IH]; intros H cs Hp; cbn [parse_commands].
  { ok_next. naive_solver. }
  ok_next; [|ok_next; done]. intros HH. case_if; [apply ok_fail_ret|].
  eapply ok_bind; [apply ok_command; intros h; by destruct (Hp h) as ((Hv & _)%Forall_cons & _)|].
  intros c. eapply ok_conseq; [apply IH|]; cbn; [|done].
  intros [h Hc]. destruct (Hp h) as ((_ & Hv)%Forall_cons & Hcs & Hl). bool_facts.
  split_and!; [done|by apply Forall_app; auto|]. rewrite length_app. cbn. lia.
Qed.

Lemma ok_unique_devices H seen ds : ok H (unique_devices seen ds)
  (λ _, NoDup (Device_ID <$> ds) ∧ ∀ x, x ∈ seen → x ∉ Device_ID <$> ds).
Proof.
  revert H seen. induction ds as [|d ds IH]; intros H seen; cbn [unique_devices].
  { apply ok_ret. intros _. split; [by apply NoDup_nil|]. intros ? _. by apply not_elem_of_nil. }
  ok_next. eapply ok_frame; [apply IH|]. cbn. intros [_ Hn] _ [Hnd Hs].
  apply bool_decide_eq_false in Hn. split.
  - apply NoDup_cons. split; [apply Hs; by left|done].
  - intros x Hx. apply not_elem_of_cons. split; [congruence|]. apply Hs. by right.
Qed.

Lemma ok_unique_ids H ids ioas l : ok H (unique_ids ids ioas l)
  (λ _, (NoDup l.*1 ∧ ∀ x, x ∈ ids → x ∉ l.*1) ∧ (NoDup l.*2 ∧ ∀ x, x ∈ ioas → x ∉ l.*2)).
Proof.
  revert H ids ioas. induction l as [|[id ioa] l IH]; intros H ids ioas; cbn [unique_ids].
  { apply ok_ret. intros _. split; (split; [by apply NoDup_nil|]; intros ? _; by apply not_elem_of_nil). }
  ok_next. eapply ok_frame; [apply IH|]. cbn. intros [_ Hn] _ [[H1 H2] [H3 H4]].
  apply orb_false_iff in Hn as [Hn1%bool_decide_eq_false Hn2%bool_decide_eq_false].
  split; (split; [apply NoDup_cons; split; [auto using list_elem_of_here|done]|]);
    intros x Hx; apply not_elem_of_cons; (split; [congruence|auto using list_elem_of_further]).
Qed.

Lemma ok_clock_statuses H a out : ok H (clock_statuses a out) (λ _, True).
Proof.
  revert out. induction a as [|v a IH]; intros out; cbn [clock_statuses]; [by ok_next|].
  case_if; [apply ok_fail_ret|]. destruct (as_string v) as [s k]. case_if; [apply ok_fail_ret|]. apply IH.
Qed.

Lemma ok_clock H root : (H → object_typed root) → ok H (clock root) (λ _, True).
Proof.
  intros Ho. unfold clock. do 8 ok_next.
  eapply ok_bind; [apply ok_clock_statuses|]. intros ss. by ok_next.
Qed.

Lemma ok_parse_timers H root : (H → object_typed root) → ok H (parse_timers root) (λ t,
  1 ≤ T0 t ≤ 255 ∧ 1 ≤ T1 t ≤ 255 ∧ 1 ≤ T2 t ≤ 255 ∧ 1 ≤ T3 t ≤ 255 ∧ 1 ≤ K t ≤ 32767 ∧ 1 ≤ W t ≤ 32767).
Proof. intros Ho. unfold parse_timers. repeat ok_next. collect. cbn. lia. Qed.

Lemma ok_parse_command_list H root devices points : (H → object_typed root) →
  ok H (parse_command_list root devices points) (λ cs, Forall (command_valid devices points) cs ∧
    (length cs ≤ 16)%nat).
Proof.
  intros Ho. unfold parse_command_list.
  assert (ok H (st_ret []) (λ cs, Forall (command_valid devices points) cs ∧ (length cs ≤ 16)%nat)) as Hnil.
  { apply ok_ret. intros _. split; [by apply Forall_nil_2|cbn; lia]. }
  ok_next; [|destruct (get root "commands"); by ok_next].
  intros h. destruct (get root "commands") as [v|] eqn:Hg; [|exact Hnil].
  assert (value_typed v) as Hv by (eapply typed_get; [by apply Ho|done]).
  do 2 ok_next. apply ok_parse_commands. intros _. split_and!; [by apply T|by apply Forall_nil_2|cbn; lia].
Qed.

Lemma ok_parse_root root : ok (object_typed root) (parse_root root) map_valid.
Proof.
  unfold parse_root. do 3 ok_next. eapply ok_bind; [apply ok_parse_timers; facts|]. intros ts.
  do 3 ok_next. eapply ok_bind; [apply ok_clock; facts|]. intros c. ok_next.
  eapply ok_bind; [apply ok_parse_devices|].
  { collect. split_and!; [done|by apply Forall_nil_2|cbn; lia]. }
  intros ds. ok_next. eapply ok_bind; [apply ok_parse_points|].
  { collect. split_and!; [done|by apply Forall_nil_2|cbn; lia]. }
  intros ps. eapply ok_bind; [apply ok_parse_command_list; facts|]. intros cs.
  eapply ok_bind; [apply ok_unique_devices|]. intros u1.
  eapply ok_bind; [apply ok_unique_ids|]. intros u2.
  apply ok_ret. intros HH. destruct_and?.
  assert (∀ A (l : list A), l ≠ [] → (1 ≤ length l)%nat) as Hlen.
  { intros A l Hl. destruct l; [done|cbn; lia]. }
  constructor; cbn; auto; try lia.
  split_and!; auto; apply Hlen; auto.
Qed.

(** ** Documents *)
Definition token_typed (t : token) : Prop :=
  match t with TNumber n => f64_valid n | _ => True end.

Lemma typed_print v : Forall token_typed (print v) → value_typed v.
Proof.
  induction v as [|b|n|s|a IH|o IH] using value_nested_ind; cbn [print]; intros H; try done.
  - by apply Forall_cons in H as [H _].
  - apply Forall_cons in H as [_ [H _]%Forall_app]. apply typed_array.
    induction IH as [|v a Hv _ IH]; [by apply Forall_nil_2|].
    cbn in H. apply Forall_app in H as [H1 H2]. apply Forall_cons. auto.
  - apply Forall_cons in H as [_ [H _]%Forall_app]. apply typed_object.
    induction IH as [|[k v] o Hv _ IH]; [by apply Forall_nil_2|].
    cbn in H. apply Forall_cons in H as [_ [H1 H2]%Forall_app]. apply Forall_cons.
    split; [by apply Hv|by apply IH].
Qed.

Lemma Parse_valid (size : Z) (doc : document) :
  decoder_ok doc → Forall token_typed (tokens doc) →
  safe (Parse size doc) ∧ ∀ m, Parse size doc = Ok m → map_valid m.
Proof.
  intros Hd Ht. unfold Parse. destruct ((size =? 0) || _); [done|]. cbn [guard_err].
  destruct (parseJSON_spec doc Hd) as [->|(v & Hv & _ & _ & ->)]; [done|].
  destruct v as [|b|n|s|a|o]; try done.
  assert (object_typed o) as Ho.
  { apply typed_object. change (value_typed (JObject o)). apply typed_print. by rewrite <- Hv. }
  pose proof (ok_parse_root o None (λ _, Ho)) as H. apply st_wp_elim in H as (m & err & -> & Hm).
  destruct err; cbn; [done|]. split; [done|]. intros m' [= <-]. by apply Hm.
Qed.

(** C38. Loading a point map neither panics nor runs away on any token stream a
    JSON decoder can deliver, and a map it accepts has every property the
    stations rely on: numbers in their ranges, devices with a poll block inside
    the register space, points read inside the poll block of an existing
    device, commands that are select-before-operate on a holding register with
    feedback of the matching kind from the same device, and unique names and
    object addresses. *)
Theorem pointmap_loads (size : Z) (doc : document) :
  decoder_ok doc → Forall token_typed (tokens doc) →
  safe (Parse size doc) ∧ ∀ m, Parse size doc = Ok m → map_valid m.
Proof. apply Parse_valid. Qed.

(** ** A loaded map

    The feeder breaker of the European substation, its position and its
    command. *)
Definition num (z : Z) : value := JNumber (f64_of z 0).

Definition demo_timers : value :=
  JObject [("t0_s", num 10); ("t1_s", num 15); ("t2_s", num 10); ("t3_s", num 20); ("k", num 12); ("w", num 8)].
Definition demo_clock_section : value :=
  JObject [("url", JString "http://10.30.30.50:8080/api/state"); ("poll_ms", num 1000);
           ("stale_after_ms", num 5000); ("synced_status", JArray [JString "locked"])].
Definition demo_device : value :=
  JObject [("id", JString "feeder-breaker"); ("host", JString "10.40.40.20"); ("port", num 502);
           ("unit", num 1); ("poll_ms", num 500); ("timeout_ms", num 1000); ("stale_after_ms", num 3000);
           ("measurements_valid", JObject [("table", JString "input"); ("address", num 2); ("bit", num 0)]);
           ("poll", JObject [("table", JString "input"); ("start", num 0); ("count", num 17)])].
Definition demo_position : value :=
  JObject [("id", JString "feeder-breaker-position"); ("ioa", num 1001); ("kind", JString "double-point");
           ("asdu", JString "M_DP_TB_1");
           ("source", JObject [("device", JString "feeder-breaker"); ("table", JString "input");
                               ("address", num 0); ("format", JString "dp")])].
Definition demo_current : value :=
  JObject [("id", JString "feeder-current"); ("ioa", num 2001); ("kind", JString "float");
           ("asdu", JString "M_ME_NC_1"); ("unit", JString "A"); ("deadband", num 2);
           ("measurement", JBool true); ("cyclic_ms", num 10000);
           ("source", JObject [("device", JString "feeder-breaker"); ("table", JString "input");
                               ("address", num 3); ("format", JString "f32")])].
Definition demo_command : value :=
  JObject [("id", JString "feeder-breaker-command"); ("ioa", num 3001); ("kind", JString "double-command");
           ("asdu", JString "C_DC_NA_1"); ("sbo", JBool true);
           ("target", JObject [("device", JString "feeder-breaker"); ("table", JString "holding");
                               ("address", num 0)]);
           ("feedback", JString "feeder-breaker-position")].
Definition demo_root : value :=
  JObject [("schema", num 2); ("ca", num 1); ("timers", demo_timers); ("select_timeout_ms", num 5000);
           ("reconnect_interval_ms", num 2000); ("gi_interval_ms", num 900000); ("clock", demo_clock_section);
           ("devices", JArray [demo_device]); ("points", JArray [demo_position; demo_current]);
           ("commands", JArray [demo_command])].
Definition demo_document : document := mkDocument (print demo_root) true false.

Definition token_typedb (t : token) : bool :=
  match t with TNumber n => valid_binary 53 1024 n | _ => true end.

Lemma token_typedb_spec ts : forallb token_typedb ts = true → Forall token_typed ts.
Proof.
  intros H. apply Forall_forall. intros t Ht. rewrite forallb_forall in H.
  specialize (H t (proj1 (list_elem_of_In _ _) Ht)). by destruct t.
Qed.

Definition demo_map : option Map :=
  Eval vm_compute in match Parse 2000 demo_document with Ok m => Some m | _ => None end.

Lemma pointmap_loads_witness :
  safe (Parse 2000 demo_document) ∧
  ∃ m, Parse 2000 demo_document = Ok m ∧ Some m = demo_map ∧ map_valid m.
Proof.
  destruct (pointmap_loads 2000 demo_document) as [Hs Hv].
  - exists [demo_root], []. cbn [fmap list_fmap concat tokens demo_document]. by rewrite !app_nil_r.
  - apply token_typedb_spec. by vm_compute.
  - split; [exact Hs|].
    destruct (Parse 2000 demo_document) as [m| | |] eqn:Hp; [|by vm_compute in Hp ..].
    exists m. split; [done|]. split; [|by apply Hv]. vm_compute in Hp. by injection Hp as <-.
Defined.

Definition demo : Map := Eval vm_compute in match demo_map with Some m => m | None => mkMap 0 0 (mkTimers 0 0 0 0 0 0) 0 0 0 (mkClock "" 0 0 []) [] [] [] end.
Lemma demo_valid : map_valid demo.
Proof.
  apply (Parse_valid 2000 demo_document).
  - exists [demo_root], []. cbn [fmap list_fmap concat tokens demo_document]. by rewrite !app_nil_r.
  - apply token_typedb_spec. by vm_compute.
  - by vm_compute.
Qed.

(** A direct command and an unknown key are refused. *)
Example direct_command_refused :
  (parse_command_list [("commands", JArray [JObject [("id", JString "c"); ("ioa", num 1);
     ("kind", JString "double-command"); ("asdu", JString "C_DC_NA_1"); ("sbo", JBool false);
     ("feedback", JString "feeder-breaker-position");
     ("target", JObject [("table", JString "holding"); ("address", num 0);
                         ("device", JString "feeder-breaker")])]])]
     (match demo_map with Some m => Devices m | None => [] end)
     (match demo_map with Some m => Points m | None => [] end) None).2 = Some (BadCommand "c").
Proof. by vm_compute. Qed.
