(* ===== verification/StationClock.v ===== *)
(** * The station clock (services/iec104/internal/stationclock)

    The clock of the remote terminal unit and the control centre: UTC from a GPS
    receiver, extrapolated with the monotonic clock of the host, and a mark that
    says whether it is synchronised.

    A reading of the host's clock has a wall part and a monotonic part, as a
    Go [time.Time] from [time.Now] has; [Sub] uses the monotonic parts.  The
    transport ([Fetch]), the decoding of its body and [url.Parse] are
    parameters. *)
From S2P Require Import Prelude GoLib PointMap.
From stdpp Require Import pretty.

#[local] Open Scope string_scope.
#[local] Open Scope list_scope.
#[local] Open Scope Z_scope.

(** ** Reported times *)
Definition is_digit (c : ascii) : bool := match GoLib.digit c with Some _ => true | None => false end.
Definition chars (s : string) : list ascii := String.list_ascii_of_string s.
Definition at_most (hi c : ascii) : bool := is_digit c && (nat_of_ascii c <=? nat_of_ascii hi)%nat.
(** [([01][0-9]|2[0-3])] and [[0-5][0-9]]. *)
Definition hour_pair (a b : ascii) : bool := (at_most "1" a && is_digit b) || (Ascii.eqb a "2" && at_most "3" b).
Definition minute_pair (a b : ascii) : bool := at_most "5" a && is_digit b.
(** [(Z|[+-]([01][0-9]|2[0-3]):[0-5][0-9])] up to the end of the text. *)
Definition zone_syntax (s : list ascii) : bool :=
  match s with
  | [z] => Ascii.eqb z "Z"
  | [g; h1; h2; c; m1; m2] =>
      (Ascii.eqb g "+" || Ascii.eqb g "-") && hour_pair h1 h2 && Ascii.eqb c ":" && minute_pair m1 m2
  | _ => false
  end.
Fixpoint span_digits (s : list ascii) : list ascii * list ascii :=
  match s with
  | c :: s' => if is_digit c then let '(d, r) := span_digits s' in (c :: d, r) else ([], s)
  | [] => ([], [])
  end.
Definition fraction_syntax (s : list ascii) : bool :=
  match s with
  | c :: s' =>
      if Ascii.eqb c "." then let '(d, r) := span_digits s' in negb (length d =? 0)%nat && zone_syntax r
      else zone_syntax s
  | [] => false
  end.
Definition reportedTimeSyntax (s : string) : bool :=
  match chars s with
  | y1 :: y2 :: y3 :: y4 :: c1 :: m1 :: m2 :: c2 :: d1 :: d2 :: t :: h1 :: h2 :: c3
    :: i1 :: i2 :: c4 :: s1 :: s2 :: rest =>
      forallb is_digit [y1; y2; y3; y4; m1; m2; d1; d2] && Ascii.eqb c1 "-" && Ascii.eqb c2 "-" && Ascii.eqb t "T" &&
      Ascii.eqb c3 ":" && Ascii.eqb c4 ":" && hour_pair h1 h2 && minute_pair i1 i2 && minute_pair s1 s2 && fraction_syntax rest
  | _ => false
  end.

(** [time.Parse(time.RFC3339Nano, s)] on a text of this syntax: the local time,
    less the offset of its zone. *)
Definition two (a b : ascii) : Z := default 0 (GoLib.number 0 [a; b]).
Definition split_zone (s : list ascii) : list ascii * Z :=
  match rev s with
  | m2 :: m1 :: c :: h2 :: h1 :: g :: r =>
      if Ascii.eqb c ":" && (Ascii.eqb g "+" || Ascii.eqb g "-") && negb (Ascii.eqb m2 "Z") then
        let off := (two h1 h2 * 60 + two m1 m2) * 60 in
        (rev ("Z"%char :: r), if Ascii.eqb g "-" then - off else off)
      else (s, 0)
  | _ => (s, 0)
  end.
Definition parse_reported (s : string) : option Z :=
  let '(local, off) := split_zone (chars s) in
  t ← parse_RFC3339 (String.string_of_list_ascii local); Some (t - off * 1000000000).

(** ** The clock *)
Record reading : Type := mkReading { wall : Z; mono : Z }.
Definition Sub (a b : reading) : Z := time_Sub (mono a) (mono b).
Definition zero_reading : reading := mkReading zero_time 0.

Record station_clock : Type := mkStation {
  config : Clock; base : Z; baseAt : reading; lastOK : reading; haveBase : bool; lastSynced : bool
}.
Definition New (config : Clock) : station_clock := mkStation config 0 zero_reading zero_reading false false.
(** [t.Truncate(time.Millisecond)]. *)
Definition truncate_ms (t : Z) : Z := t - t mod millisecond.

Definition Now (c : station_clock) (now : reading) : Z * bool :=
  let fresh := negb (wall (lastOK c) =? zero_time) && (Sub now (lastOK c) <=? Clock_StaleAfterMS (config c) * millisecond) in
  let utc := if haveBase c then base c + Sub now (baseAt c) else wall now in
  (truncate_ms utc, fresh && lastSynced c).

Inductive clock_error : Type :=
| BadURL | FetchError (e : string) | DecodeError (e : string) | MissingFields | InvalidSyntax | InvalidTime.

(** The budget of a poll and the pause after it, in nanoseconds. *)
Definition budget (c : Clock) : Z := Z.min (Clock_PollMS c * millisecond) (2 * 1000000000).
Definition interval (c : Clock) : Z := Z.quot (Clock_PollMS c + 49) 50 * 50 * millisecond.

Section Poll.
(** The scheme and the host name of a URL; the status and the time of a body. *)
Context {body : Type} (url_parse : string → option (string * string)) (decode : body → string + option string * option string).

Definition url_ok (c : Clock) : bool :=
  match url_parse (Clock_URL c) with
  | Some (scheme, host) => (scheme =? "http")%string && negb (host =? "")%string
  | None => false
  end.
(** What a response says: its status and its time, if it is accepted. *)
Definition sample (c : Clock) (fetched : string + body) : outcome clock_error (string * Z) :=
  if negb (url_ok c) then Err BadURL
  else match fetched with
       | inl e => Err (FetchError e)
       | inr b =>
           match decode b with
           | inl e => Err (DecodeError e)
           | inr (Some status, Some t) =>
               if negb (reportedTimeSyntax t) then Err InvalidSyntax
               else match parse_reported t with
                    | None => Err InvalidTime
                    | Some utc => Ok (status, utc)
                    end
           | inr _ => Err MissingFields
           end
       end.
(** [Poll]; [now] is the reading after the response. *)
Definition Poll (c : station_clock) (fetched : string + body) (now : reading) : outcome clock_error unit * station_clock :=
  match sample (config c) fetched with
  | Ok (status, utc) => (Ok tt, mkStation (config c) (truncate_ms utc) now now true (StatusSynced (config c) status))
  | Err e => (Err e, c)
  | Panic => (Panic, c)
  | Diverge => (Diverge, c)
  end.
End Poll.

(** ** The reported times of the tests *)
Example reported_times :
  (λ s, if reportedTimeSyntax s then parse_reported s else None) <$>
    ["2026-10-23T12:00:00Z"; "2026-10-23T14:30:00+02:30"; "2026-10-23T09:30:00-02:30"; "2026-10-23T12:00:00-00:00";
     "2026-10-23T12:00:00.123987654321Z"; "2026-10-23T23:59:59+23:59"] =
  [Some 1792756800000000000; Some 1792756800000000000; Some 1792756800000000000; Some 1792756800000000000;
   Some 1792756800123987654; Some 1792713659000000000].
Proof. vm_compute. reflexivity. Qed.
Example refused_times :
  Forall (λ s, (if reportedTimeSyntax s then parse_reported s else None) = None)
    ["2026-10-23t12:00:00Z"; "2026-10-23 12:00:00Z"; "2026-10-23T12:00:00"; "2026-10-23T2:00:00Z"; "2026-10-23T12:00:00,123Z";
     "2026-10-23T12:00:00.Z"; "2026-00-23T12:00:00Z"; "2026-13-23T12:00:00Z"; "2026-10-00T12:00:00Z"; "2026-02-29T12:00:00Z";
     "2026-10-23T24:00:00Z"; "2016-12-31T23:59:60Z"; "2026-10-23T12:00:00+24:00"; "2026-10-23T12:00:00+00:60";
     "2026-10-23T12:00:00+0100"; " 2026-10-23T12:00:00Z"; "2026-10-23T12:00:00Zjunk"; ""].
Proof. repeat constructor. Qed.

(** ** The clock is its last accepted sample *)
Section ClockCorrect.
Context {body : Type} (url_parse : string → option (string * string)) (decode : body → string + option string * option string).

(** A poll: the response and the reading after it. *)
Definition poll : Type := (string + body) * reading.
Definition polls (c : Clock) (l : list poll) : station_clock :=
  foldl (λ s p, (Poll url_parse decode s p.1 p.2).2) (New c) l.
(** The samples that the polls accept, in order. *)
Definition accepted (c : Clock) (l : list poll) : list (string * Z * reading) :=
  omap (λ p, match sample url_parse decode c p.1 with Ok (st, t) => Some (st, t, p.2) | _ => None end) l.
(** What a clock with these samples shows: the host's time without a mark
    before the first one; then the last sample, extrapolated, marked as long as
    it is fresh and its status is one of the configured ones. *)
Definition shows (c : Clock) (samples : list (string * Z * reading)) (now : reading) : Z * bool :=
  match last samples with
  | None => (truncate_ms (wall now), false)
  | Some (st, t, q) =>
      (truncate_ms (truncate_ms t + Sub now q), (Sub now q <=? Clock_StaleAfterMS c * millisecond) && StatusSynced c st)
  end.

Lemma polls_spec c l :
  let s := polls c l in
  config s = c ∧
  match last (accepted c l) with
  | None => s = New c
  | Some (st, t, q) => s = mkStation c (truncate_ms t) q q true (StatusSynced c st)
  end.
Proof.
  cbn zeta. induction l as [|p l IH] using rev_ind; [done|].
  assert (polls c (l ++ [p]) = (Poll url_parse decode (polls c l) p.1 p.2).2) as -> by (unfold polls; by rewrite foldl_app).
  destruct IH as [Hc IH]. unfold accepted in *. rewrite omap_app. cbn [omap list_omap].
  unfold Poll. rewrite Hc. destruct (sample url_parse decode c p.1) as [[st t]|e| |]; cbn [snd config]; rewrite ?app_nil_r; try by split.
  by rewrite last_snoc.
Qed.

(** The station clock refines its samples: after any polls at readings of a host
    clock that is past the year 1, [Now] shows the last accepted sample,
    extrapolated with the monotonic clock whatever the wall clock does, and is
    marked synchronised exactly while the sample is fresh and its status is a
    configured one; failed polls and refused samples change nothing. *)
Theorem clock_refines (c : Clock) (l : list poll) (now : reading) :
  Forall (λ p, wall p.2 ≠ zero_time) l →
  Now (polls c l) now = shows c (accepted c l) now.
Proof.
  intros Hw. destruct (polls_spec c l) as [Hc H]. unfold shows.
  destruct (last (accepted c l)) as [[[st t] q]|] eqn:E; rewrite H; [|done]. unfold Now. cbn.
  assert (wall q ≠ zero_time) as Hq.
  { apply last_Some in E as [l' E]. assert ((st, t, q) ∈ accepted c l) as Hin by (rewrite E; set_solver).
    apply list_elem_of_omap in Hin as (p & Hp & Hs). rewrite Forall_forall in Hw. destruct (sample _ _ _ _) as [[? ?]| | |]; [|done..].
    injection Hs as <- <- <-. by apply Hw. }
  apply Z.eqb_neq in Hq. rewrite Hq. done.
Qed.
(** While no sample is accepted in between, the clock goes with the monotonic
    clock: it never runs backwards. *)
Theorem clock_monotone (c : Clock) (l : list poll) (a b : reading) :
  accepted c l ≠ [] → Forall (λ p, wall p.2 ≠ zero_time) l → mono a <= mono b →
  (Now (polls c l) a).1 <= (Now (polls c l) b).1.
Proof.
  intros Hne Hw Hab. rewrite !clock_refines by done. unfold shows.
  destruct (last (accepted c l)) as [[[st t] q]|] eqn:E; [|by apply last_None in E]. cbn [fst].
  assert (Sub a q <= Sub b q) by (unfold Sub, time_Sub; lia).
  assert (∀ x y, x <= y → truncate_ms x <= truncate_ms y) as Ht; [|apply Ht; lia].
  intros x y Hxy. unfold truncate_ms, millisecond. Z.div_mod_to_equations. lia.
Qed.
End ClockCorrect.

(** A receiver that is locked, then unreachable. *)
Definition small_clock : Clock := mkClock "http://gps/" 500 3000 ["locked"].
Definition small_polls : list (@poll (string * string)) :=
  [(inr ("locked", "2026-10-23T12:00:00Z"), mkReading 5000000000 1000000000); (inl "offline", mkReading 0 2000000000)].
Example clock_runs :
  let now := Now (polls (λ _, Some ("http", "gps")) (λ b, inr (Some b.1, Some b.2)) small_clock small_polls) in
  now (mkReading 7 4000000000) = (1792756803000000000, true) ∧ now (mkReading 7 4000000001) = (1792756803000000000, false).
Proof. vm_compute. by split. Qed.
