(* ===== verification/Rtu.v ===== *)
(** * The remote terminal unit (services/iec104/internal/rtu)

    The gateway between IEC 104 clients and the Modbus field devices: the
    process image and its reports, selection and execution of commands, the
    polling worker of each device.  The model lock makes every handler, every
    tick and every locked section of a worker one transition of [RTU]; the
    southbound transaction between two locked sections of a worker is outside
    the lock, so that other transitions come in between.

    [nows] and [utcs] count the readings of the monotonic clock and of the
    station clock; [sent_] lists the messages handed to connections, oldest
    first, by connection.  Connections are their identifiers.  Log lines and
    the peer names that only they use are not modelled.  A [float32] is its
    bit pattern; times are [Z], without the overflow of [int64]. *)
From S2P Require Import Prelude GoLib Iec104Types Iec104Time Iec104Elements Iec104Asdu PointMap.
From S2P Require Import ModbusMaster.
From Stdlib Require Import SpecFloat.

#[local] Open Scope string_scope.
#[local] Open Scope Z_scope.

(** ** State *)
Record pointState : Type := mkPointState {
  dp : Z;
  repDP : Z;
  sp : bool;
  repSP : bool;
  f : Z;
  repF : Z;
  step_ : Z;
  repStep : Z;
  transient : bool;
  repTransient : bool;
  unreachable : bool;
  measurementInvalid : bool;
  valueInvalid : bool;
  heartbeatStale : bool;
  repQuality : Z;
  nextCyclic : Z;
  lastValueEvent : Z
}.

Record deviceState : Type := mkDeviceState {
  lastOK : Z;
  pollStart : Z;
  heartbeatChanged : Z;
  pollSeq : Z;
  heartbeat_ : Z;
  dev_unreachable : bool
}.

Record selection : Type := mkSelection {
  sel_active : bool;
  sel_index : Z;
  sel_value : Z;
  sel_qu : Z;
  sel_id : Z;
  sel_deadline : Z;
  selectedAt : Z;
  sel_pollSeq : Z
}.

Inductive commandPhase : Type := commandStart | commandWrite | commandWriting | commandFeedback.

#[export] Instance commandPhase_eq_dec : EqDecision commandPhase.
Proof. solve_decision. Defined.

Record pendingCommand : Type := mkPending {
  active : bool;
  index_ : Z;
  value_ : Z;
  expected : Z;
  id_ : Z;
  request : Message;
  phase : commandPhase;
  afterPoll : Z;
  afterTime : Z;
  deadline : Z
}.

Record RTU : Type := mkRTU {
  points : list pointState;
  devices : list deviceState;
  started : list Z;
  sel : selection;
  pending : pendingCommand;
  sendFailed : Z;
  buildFailed : Z;
  nows : nat;
  utcs : nat;
  sent_ : list (Z * Message);
  closes : list Z
}.

Definition set_dp (v : Z) (s : pointState) : pointState :=
    mkPointState v (repDP s) (sp s) (repSP s) (f s) (repF s) (step_ s) (repStep s) (transient s)
    (repTransient s) (unreachable s) (measurementInvalid s) (valueInvalid s) (heartbeatStale s)
    (repQuality s) (nextCyclic s) (lastValueEvent s).
Definition set_sp (v : bool) (s : pointState) : pointState :=
    mkPointState (dp s) (repDP s) v (repSP s) (f s) (repF s) (step_ s) (repStep s) (transient s)
    (repTransient s) (unreachable s) (measurementInvalid s) (valueInvalid s) (heartbeatStale s)
    (repQuality s) (nextCyclic s) (lastValueEvent s).
Definition set_f (v : Z) (s : pointState) : pointState :=
    mkPointState (dp s) (repDP s) (sp s) (repSP s) v (repF s) (step_ s) (repStep s) (transient s)
    (repTransient s) (unreachable s) (measurementInvalid s) (valueInvalid s) (heartbeatStale s)
    (repQuality s) (nextCyclic s) (lastValueEvent s).
Definition set_step (v : Z) (s : pointState) : pointState :=
    mkPointState (dp s) (repDP s) (sp s) (repSP s) (f s) (repF s) v (repStep s) (transient s)
    (repTransient s) (unreachable s) (measurementInvalid s) (valueInvalid s) (heartbeatStale s)
    (repQuality s) (nextCyclic s) (lastValueEvent s).
Definition set_transient (v : bool) (s : pointState) : pointState :=
    mkPointState (dp s) (repDP s) (sp s) (repSP s) (f s) (repF s) (step_ s) (repStep s) v
    (repTransient s) (unreachable s) (measurementInvalid s) (valueInvalid s) (heartbeatStale s)
    (repQuality s) (nextCyclic s) (lastValueEvent s).
Definition set_unreachable (v : bool) (s : pointState) : pointState :=
    mkPointState (dp s) (repDP s) (sp s) (repSP s) (f s) (repF s) (step_ s) (repStep s) (transient s)
    (repTransient s) v (measurementInvalid s) (valueInvalid s) (heartbeatStale s) (repQuality s)
    (nextCyclic s) (lastValueEvent s).
Definition set_measurementInvalid (v : bool) (s : pointState) : pointState :=
    mkPointState (dp s) (repDP s) (sp s) (repSP s) (f s) (repF s) (step_ s) (repStep s) (transient s)
    (repTransient s) (unreachable s) v (valueInvalid s) (heartbeatStale s) (repQuality s) (nextCyclic
    s) (lastValueEvent s).
Definition set_valueInvalid (v : bool) (s : pointState) : pointState :=
    mkPointState (dp s) (repDP s) (sp s) (repSP s) (f s) (repF s) (step_ s) (repStep s) (transient s)
    (repTransient s) (unreachable s) (measurementInvalid s) v (heartbeatStale s) (repQuality s)
    (nextCyclic s) (lastValueEvent s).
Definition set_heartbeatStale (v : bool) (s : pointState) : pointState :=
    mkPointState (dp s) (repDP s) (sp s) (repSP s) (f s) (repF s) (step_ s) (repStep s) (transient s)
    (repTransient s) (unreachable s) (measurementInvalid s) (valueInvalid s) v (repQuality s)
    (nextCyclic s) (lastValueEvent s).
Definition set_nextCyclic (v : Z) (s : pointState) : pointState :=
    mkPointState (dp s) (repDP s) (sp s) (repSP s) (f s) (repF s) (step_ s) (repStep s) (transient s)
    (repTransient s) (unreachable s) (measurementInvalid s) (valueInvalid s) (heartbeatStale s)
    (repQuality s) v (lastValueEvent s).
Definition set_lastValueEvent (v : Z) (s : pointState) : pointState :=
    mkPointState (dp s) (repDP s) (sp s) (repSP s) (f s) (repF s) (step_ s) (repStep s) (transient s)
    (repTransient s) (unreachable s) (measurementInvalid s) (valueInvalid s) (heartbeatStale s)
    (repQuality s) (nextCyclic s) v.
Definition set_dev_unreachable (v : bool) (d : deviceState) : deviceState :=
  mkDeviceState (lastOK d) (pollStart d) (heartbeatChanged d) (pollSeq d) (heartbeat_ d) v.
Definition set_expected (v : Z) (p : pendingCommand) : pendingCommand :=
    mkPending (active p) (index_ p) (value_ p) v (id_ p) (request p) (phase p) (afterPoll p)
    (afterTime p) (deadline p).
Definition set_id (v : Z) (p : pendingCommand) : pendingCommand :=
    mkPending (active p) (index_ p) (value_ p) (expected p) v (request p) (phase p) (afterPoll p)
    (afterTime p) (deadline p).
Definition set_phase (v : commandPhase) (p : pendingCommand) : pendingCommand :=
    mkPending (active p) (index_ p) (value_ p) (expected p) (id_ p) (request p) v (afterPoll p)
    (afterTime p) (deadline p).
Definition set_points (v : list pointState) (r : RTU) : RTU :=
    mkRTU v (devices r) (started r) (sel r) (pending r) (sendFailed r) (buildFailed r) (nows r) (utcs
    r) (sent_ r) (closes r).
Definition set_devices (v : list deviceState) (r : RTU) : RTU :=
    mkRTU (points r) v (started r) (sel r) (pending r) (sendFailed r) (buildFailed r) (nows r) (utcs
    r) (sent_ r) (closes r).
Definition set_started (v : list Z) (r : RTU) : RTU :=
    mkRTU (points r) (devices r) v (sel r) (pending r) (sendFailed r) (buildFailed r) (nows r) (utcs
    r) (sent_ r) (closes r).
Definition set_sel (v : selection) (r : RTU) : RTU :=
    mkRTU (points r) (devices r) (started r) v (pending r) (sendFailed r) (buildFailed r) (nows r)
    (utcs r) (sent_ r) (closes r).
Definition set_pending (v : pendingCommand) (r : RTU) : RTU :=
    mkRTU (points r) (devices r) (started r) (sel r) v (sendFailed r) (buildFailed r) (nows r) (utcs
    r) (sent_ r) (closes r).


Definition no_selection : selection := mkSelection false 0 0 0 0 0 0 0.
Definition no_pending : pendingCommand :=
  mkPending false 0 0 0 0 NilMessage commandStart 0 0 0.

Definition initial_point : pointState :=
  mkPointState 3 3 false false 0 0 0 0 false false true false false false (Z.lor Invalid NotTopical) 0 0.
Definition initial_device : deviceState := mkDeviceState 0 0 0 0 0 false.

(** [New]. *)
Definition New (pm : Map) : RTU :=
  mkRTU (replicate (length (Points pm)) initial_point) (replicate (length (Devices pm)) initial_device)
    [] no_selection no_pending 0 0 0 0 [] [].

(** ** Binary32 values *)
Definition f32_exponent (b : Z) : Z := Z.land (Z.shiftr b 23) 255.
Definition f32_fraction (b : Z) : Z := Z.land b 0x7FFFFF.

(** [float64(x)] of a [float32]. *)
Definition f64_of_bits (b : Z) : float64 :=
  let s := has b 0x80000000 in
  let signed z := if s then - z else z in
  if f32_exponent b =? 255 then
    if f32_fraction b =? 0 then S754_infinity s else S754_nan
  else if (f32_exponent b =? 0) && (f32_fraction b =? 0) then S754_zero s
  else if f32_exponent b =? 0 then f64_of (signed (f32_fraction b)) (-149)
  else f64_of (signed (f32_fraction b + 0x800000)) (f32_exponent b - 150).

Definition fsub : float64 → float64 → float64 := SFsub 53 1024.

(** [RegistersToFloat]. *)
Definition RegistersToFloat (hi lo : Z) : Z := Z.lor (Z.shiftl hi 16) lo.

(** ** The southbound master *)
Class Master_ (M : Type) : Type := {
  m_Resolve : string → Z → M → Status * M;
  m_Connect : Z → M → Status * M;
  m_IsConnected : M → bool;
  m_Close : M → M;
  m_ReadInput : Z → Z → Z → M → (list Z * MResult) * M;
  m_ReadHolding : Z → Z → Z → M → (list Z * MResult) * M;
  m_WriteSingle : Z → Z → Z → M → MResult * M
}.

(** What the workers rely on: a read with status OK has the registers asked
    for. *)
Class MasterLaws (M : Type) `{Master_ M} : Prop := {
  read_input_ok address count timeout m regs r m' :
    m_ReadInput address count timeout m = ((regs, r), m') → RStatus r = StatusOK →
    zlen regs = count;
  read_holding_ok address count timeout m regs r m' :
    m_ReadHolding address count timeout m = ((regs, r), m') → RStatus r = StatusOK →
    zlen regs = count
}.

#[export] Instance Status_eq_dec : EqDecision Status.
Proof. solve_decision. Defined.

(** ** Operations under the model lock

    [clock n] is the [n]-th reading of [opts.Now], [station n] the [n]-th of
    [opts.Clock.Now] (UTC and synchronisation); [admits n] tells whether the
    [n]-th [Send] succeeds. *)
Section RTU.
Context (pm : Map) (clock : nat → Z) (station : nat → civil * bool) (admits : nat → bool).

Definition R (A : Type) : Type := stM RTU iec_error A.

Definition lift {A} (o : outcome iec_error A) : R A := λ r, (o, r).

Definition Now : R Z :=
  λ r, (Ok (clock (nows r)),
        mkRTU (points r) (devices r) (started r) (sel r) (pending r) (sendFailed r) (buildFailed r)
          (S (nows r)) (utcs r) (sent_ r) (closes r)).
Definition Clock_Now : R (civil * bool) :=
  λ r, (Ok (station (utcs r)),
        mkRTU (points r) (devices r) (started r) (sel r) (pending r) (sendFailed r) (buildFailed r)
          (nows r) (S (utcs r)) (sent_ r) (closes r)).

(** [buildError] on what a call returned: the error is counted. *)
Definition build (m : R unit) : R unit :=
  λ r, match m r with
       | (Err _, r') =>
           (Ok tt, mkRTU (points r') (devices r') (started r') (sel r') (pending r') (sendFailed r')
                     (buildFailed r' + 1) (nows r') (utcs r') (sent_ r') (closes r'))
       | res => res
       end.

(** Reading and writing the element of a slice. *)
Definition point_at (i : Z) : R pointState := let? r := st_get in index (points r) i.
Definition device_at (i : Z) : R deviceState := let? r := st_get in index (devices r) i.
Definition put_point (i : Z) (s : pointState) : R unit :=
  st_upd (λ r, set_points (<[Z.to_nat i := s]> (points r)) r).
Definition put_device (i : Z) (d : deviceState) : R unit :=
  st_upd (λ r, set_devices (<[Z.to_nat i := d]> (devices r)) r).

(** *** Reports *)
Definition pointQuality (s : pointState) (p : Point) : Z :=
  let q := if unreachable s then Z.lor Invalid NotTopical else 0 in
  if valueInvalid s || heartbeatStale s || (Measurement p && measurementInvalid s)
  then Z.lor q Invalid else q.

(** The value of a point, without time tag. *)
Definition plain_element (p : Point) (s : pointState) : outcome iec_error (Z * Element) :=
  let q := pointQuality s p in
  match Point_Kind p with
  | PointMap.SinglePoint => Ok (M_SP_NA_1, Iec104Elements.SinglePoint (if sp s then Z.lor q 1 else q))
  | PointMap.DoublePoint => Ok (M_DP_NA_1, Iec104Elements.DoublePoint (Z.lor q (dp s)))
  | PointMap.StepPosition =>
      let! v := NewVTI (i8 (step_ s)) (transient s) in
      Ok (M_ST_NA_1, Iec104Elements.StepPosition v q)
  | PointMap.Float => Ok (M_ME_NC_1, Iec104Elements.Float (f s) q)
  | _ => Ok (0, OtherElement)
  end.

Definition timed_type (t : Z) : Z :=
  if t =? M_SP_NA_1 then M_SP_TB_1 else if t =? M_DP_NA_1 then M_DP_TB_1
  else if t =? M_ST_NA_1 then M_ST_TB_1 else t.

Definition element (i : Z) (timed : bool) : R (Z * Element) :=
  let? p := index (Points pm) i in
  let? s := point_at i in
  let? '(typ, e) := lift (plain_element p s) in
  if timed && negb (bool_decide (Point_Kind p = PointMap.Float)) then
    let? '(utc, synced) := Clock_Now in
    st_ret (timed_type typ, Timed e (CP56FromTime utc (negb synced)))
  else st_ret (typ, e).

Definition send (conn : Z) (m : Message) : R unit :=
  st_upd (λ r, mkRTU (points r) (devices r) (started r) (sel r) (pending r)
                 (if admits (length (sent_ r)) then sendFailed r else sendFailed r + 1)
                 (buildFailed r) (nows r) (utcs r) (sent_ r ++ [(conn, m)])%list (closes r)).

Fixpoint send_all (conns : list Z) (m : Message) : R unit :=
  match conns with
  | [] => st_ret tt
  | c :: conns' => do? send c m in send_all conns' m
  end.
Definition broadcast (m : Message) : R unit := let? r := st_get in send_all (started r) m.

(** The reported values of a point follow its values. *)
Definition reported (p : Point) (s : pointState) : pointState :=
  mkPointState (dp s) (dp s) (sp s) (sp s) (f s) (f s) (step_ s) (step_ s) (transient s) (transient s)
    (unreachable s) (measurementInvalid s) (valueInvalid s) (heartbeatStale s) (pointQuality s p)
    (nextCyclic s) (lastValueEvent s).

Definition reportPoint (i cot : Z) : R unit :=
  build
    (let? '(typ, e) := element i true in
     let? p := index (Points pm) i in
     do? broadcast (ASDUMessage (mkASDU
           (mkHeader typ false 0 cot false false 0 (u16 (CA pm)))
           [mkObject (u32 (Point_IOA p)) e])) in
     let? s := point_at i in
     put_point i (reported p s)).

(** The loops of [evaluate] over the devices and the points from [i]. *)
Fixpoint evaluate_devices (now : Z) (i : Z) (devs : list Device) : R unit :=
  match devs with
  | [] => st_ret tt
  | dev :: devs' =>
      let? s := device_at i in
      do? put_device i (set_dev_unreachable
            ((lastOK s =? 0) || (StaleAfterMS dev <? now - lastOK s)) s) in
      evaluate_devices now (i + 1) devs'
  end.

(** Whether the value of a point has to be reported. *)
Definition value_changed (now : Z) (p : Point) (s : pointState) : bool :=
  match Point_Kind p with
  | PointMap.SinglePoint => negb (Bool.eqb (sp s) (repSP s))
  | PointMap.DoublePoint => negb (dp s =? repDP s)
  | PointMap.StepPosition =>
      negb (step_ s =? repStep s) || negb (Bool.eqb (transient s) (repTransient s))
  | PointMap.Float =>
      (1000 <=? now - lastValueEvent s) &&
      negb (SFeqb (f64_of_bits (f s)) (f64_of_bits (repF s))) &&
      SFleb (Deadband p) (SFabs (fsub (f64_of_bits (f s)) (f64_of_bits (repF s))))
  | _ => false
  end.

Fixpoint evaluate_points (now : Z) (i : Z) (pts : list Point) : R unit :=
  match pts with
  | [] => st_ret tt
  | p :: pts' =>
      let? s := point_at i in
      let? d := device_at (Point_DeviceIndex p) in
      let? dev := index (Devices pm) (Point_DeviceIndex p) in
      let s := set_heartbeatStale
                 (HasHeartbeat dev &&
                  ((heartbeatChanged d =? 0) || (HeartbeatStaleMS dev <=? now - heartbeatChanged d)))
                 (set_unreachable (dev_unreachable d) s) in
      do? put_point i s in
      let qChanged := negb (pointQuality s p =? repQuality s) in
      do? st_when (qChanged || value_changed now p s)
            (do? reportPoint i Spontaneous in
             st_when (bool_decide (Point_Kind p = PointMap.Float) && negb qChanged)
               (let? s := point_at i in put_point i (set_lastValueEvent now s))) in
      evaluate_points now (i + 1) pts'
  end.

(** *** The image: interrogation and cyclic reports *)
Definition flush (conn : option Z) (b : option Builder) : R unit :=
  match b, conn with
  | None, _ => st_ret tt
  | Some b, None => broadcast (ASDUMessage (Builder_ASDU b))
  | Some b, Some c => send c (ASDUMessage (Builder_ASDU b))
  end.

(** Appending an object, with a new builder when the current one is full. *)
Definition append_image (conn : option Z) (b : option Builder) (h : Header) (o : Object) : R Builder :=
  let? b := match b with
            | Some b => st_ret b
            | None => lift (NewBuilder DefaultParams h)
            end in
  match Append b o with
  | Err ErrFull =>
      do? flush conn (Some b) in
      let? b := lift (NewBuilder DefaultParams h) in
      lift (Append b o)
  | res => lift res
  end.

Definition set_cyclic (now : Z) (p : Point) (s : pointState) : pointState :=
  mkPointState (dp s) (repDP s) (sp s) (repSP s) (f s) (f s) (step_ s) (repStep s) (transient s)
    (repTransient s) (unreachable s) (measurementInvalid s) (valueInvalid s) (heartbeatStale s)
    (pointQuality s p) (now + CyclicMS p) (lastValueEvent s).

Fixpoint image_points (conn : option Z) (oa : Z) (cyclic : bool) (now : Z) (k : Kind) (i : Z)
    (pts : list Point) (b : option Builder) : R (option Builder) :=
  match pts with
  | [] => st_ret b
  | p :: pts' =>
      if negb (bool_decide (Point_Kind p = k)) || (cyclic && negb (bool_decide (k = PointMap.Float)))
      then image_points conn oa cyclic now k (i + 1) pts' b
      else
        let? s := point_at i in
        let s := if cyclic && (nextCyclic s =? 0) then set_nextCyclic (now + CyclicMS p) s else s in
        do? st_when cyclic (put_point i s) in
        if cyclic && (now <? nextCyclic s)
        then image_points conn oa cyclic now k (i + 1) pts' b
        else
          let? '(typ, e) := element i false in
          let h := mkHeader typ false 0 (if cyclic then Periodic else InterrogatedStation)
                     false false oa (u16 (CA pm)) in
          let? b := append_image conn b h (mkObject (u32 (Point_IOA p)) e) in
          do? st_when cyclic (let? s := point_at i in put_point i (set_cyclic now p s)) in
          image_points conn oa cyclic now k (i + 1) pts' (Some b)
  end.

Fixpoint image_kinds (conn : option Z) (oa : Z) (cyclic : bool) (now : Z) (ks : list Kind) : R unit :=
  match ks with
  | [] => st_ret tt
  | k :: ks' =>
      let? b := image_points conn oa cyclic now k 0 (Points pm) None in
      do? flush conn b in
      image_kinds conn oa cyclic now ks'
  end.

Definition image_order : list Kind :=
  [PointMap.SinglePoint; PointMap.DoublePoint; PointMap.StepPosition; PointMap.Float].

Definition reportImage (conn : option Z) (oa : Z) (cyclic : bool) (now : Z) : R unit :=
  image_kinds conn oa cyclic now image_order.

Definition evaluate (now : Z) : R unit :=
  do? evaluate_devices now 0 (Devices pm) in
  do? evaluate_points now 0 (Points pm) in
  build (reportImage None 0 true now).

(** *** Replies *)
Definition reply (conn : Z) (request : Message) (cot : Z) (negative : bool) : R unit :=
  build (let? m := lift (Mirror request cot negative) in send conn m).

Definition clearSelection : R unit := st_upd (set_sel no_selection).
Definition finishCommand : R unit := st_upd (set_pending no_pending).

(** [connection]: a started connection by its identifier. *)
Definition pendingReply (cot : Z) (negative : bool) : R unit :=
  let? r := st_get in
  st_when (bool_decide (id_ (pending r) ∈ started r))
    (reply (id_ (pending r)) (request (pending r)) cot negative).

(** *** Commands *)

(** The outcome of a selection or an execution that passed the qualifier
    check. *)
Definition select_command (conn : Z) (request : Message) (c : Command) (index_ value qu now : Z)
    (owns : bool) : R unit :=
  let? r := st_get in
  let negative := reply conn request ActivationCon true in
  if negb (SBO c) then negative
  else if active (pending r) then negative
  else if sel_active (sel r) && negb owns then negative
  else
    let? d := device_at (Command_DeviceIndex c) in
    do? st_upd (set_sel (mkSelection true index_ value qu conn (now + SelectTimeoutMS pm) now
                           (pollSeq d))) in
    reply conn request ActivationCon false.

Definition execute_command (conn : Z) (request : Message) (h : Header) (c : Command)
    (index_ value qu now : Z) (owns : bool) : R unit :=
  let? r := st_get in
  let negative := reply conn request ActivationCon true in
  if SBO c && negb owns then negative
  else if SBO c && (negb (value =? sel_value (sel r)) || negb (qu =? sel_qu (sel r))) then
    do? clearSelection in negative
  else if active (pending r) then negative
  else
    build
      (let? owned := lift (Mirror request (Cause h) (Negative h)) in
       do? clearSelection in
       let? dev := index (Devices pm) (Command_DeviceIndex c) in
       st_upd (set_pending (mkPending true index_ value 0 conn owned commandStart
                              (sel_pollSeq (sel r)) (selectedAt (sel r)) (now + TimeoutMS dev)))).

Definition handleCommand (conn : Z) (request : Message) (index_ value qu : Z) (selectCommand : bool)
    : R unit :=
  let? c := index (Commands pm) index_ in
  let? now := Now in
  let? r := st_get in
  do? st_when (sel_active (sel r) && (sel_deadline (sel r) <=? now)) clearSelection in
  let? r := st_get in
  let owns := sel_active (sel r) && (sel_id (sel r) =? conn) && (sel_index (sel r) =? index_) in
  let? h := lift (Message_GetHeader request) in
  if Cause h =? Deactivation then
    if owns then
      do? clearSelection in reply conn request DeactivationCon (Negative h)
    else reply conn request DeactivationCon true
  else if negb (qu =? 0) ||
          (negb (bool_decide (Command_Kind c = PointMap.SingleCommand)) &&
           negb (value =? 1) && negb (value =? 2))
  then reply conn request ActivationCon true
  else if selectCommand then select_command conn request c index_ value qu now owns
  else execute_command conn request h c index_ value qu now owns.

(** Whether a feedback point shows the expected value. *)
Definition feedback_matches (k : Kind) (s : pointState) (expected : Z) : bool :=
  (bool_decide (k = PointMap.DoubleCommand) && (dp s =? expected)) ||
  (bool_decide (k = PointMap.SingleCommand) && ((if sp s then 1 else 0) =? expected)) ||
  (bool_decide (k = RegulatingStep) && (step_ s =? expected) && negb (transient s)).

(** Whether the image of the feedback point is newer than the command. *)
Definition fresh (now : Z) (p : pendingCommand) (d : deviceState) (dev : Device) (s : pointState)
    (fb : Point) : bool :=
  (afterPoll p <? pollSeq d) && (afterTime p <? pollStart d) && negb (lastOK d =? 0) &&
  (now - lastOK d <? StaleAfterMS dev) && (pointQuality s fb =? 0).

Definition advanceCommand (now : Z) : R unit :=
  let? r := st_get in
  let p := pending r in
  if negb (active p) then st_ret tt
  else
    let? c := index (Commands pm) (index_ p) in
    let? fb := index (Points pm) (FeedbackIndex c) in
    let? dev := index (Devices pm) (Command_DeviceIndex c) in
    let? d := device_at (Command_DeviceIndex c) in
    let? s := point_at (FeedbackIndex c) in
    let isfresh := fresh now p d dev s fb in
    if (bool_decide (phase p = commandStart) || bool_decide (phase p = commandWrite)) &&
       (deadline p <=? now) then
      do? pendingReply ActivationCon true in finishCommand
    else if bool_decide (phase p = commandStart) && isfresh then
      if bool_decide (Command_Kind c = RegulatingStep) then
        let expected := if value_ p =? 1 then step_ s - 1 else step_ s + 1 in
        do? st_upd (set_pending (set_expected expected p)) in
        if transient s then
          do? pendingReply ActivationCon true in finishCommand
        else st_upd (set_pending (set_phase commandWrite (set_expected expected p)))
      else st_upd (set_pending (set_phase commandWrite (set_expected (value_ p) p)))
    else if bool_decide (phase p = commandFeedback) then
      if deadline p <=? now then
        do? pendingReply ActivationTerm true in finishCommand
      else if isfresh && feedback_matches (Command_Kind c) s (expected p) then
        do? reportPoint (FeedbackIndex c) ReturnRemote in
        do? pendingReply ActivationTerm false in
        finishCommand
      else st_ret tt
    else st_ret tt.

Definition tick : R unit :=
  let? now := Now in
  let? r := st_get in
  do? st_when (sel_active (sel r) && (sel_deadline (sel r) <=? now)) clearSelection in
  do? evaluate now in
  advanceCommand now.

(** *** Connections *)
Inductive EventKind : Type := Opened | Started | Stopped | Closed.

(** [r.started[index] = r.started[last]; r.started = r.started[:last]]. *)
Definition swap_remove (i : nat) (l : list Z) : list Z :=
  match last l with
  | Some x => take (length l - 1) (<[i := x]> l)
  | None => []
  end.

Definition find_started (conn : Z) (l : list Z) : option nat :=
  fst <$> list_find (λ c, c = conn) l.

Definition connectionEvent (conn : Z) (kind : EventKind) : R unit :=
  let? r := st_get in
  match kind, find_started conn (started r) with
  | Opened, _ => st_ret tt
  | Started, Some _ => st_ret tt
  | Started, None =>
      if (length (started r) =? 8)%nat then st_ret tt
      else st_upd (set_started (started r ++ [conn])%list)
  | (Stopped | Closed), None => st_ret tt
  | (Stopped | Closed), Some i =>
      do? st_when (sel_active (sel r) && (sel_id (sel r) =? conn)) clearSelection in
      do? st_when (active (pending r) && (id_ (pending r) =? conn))
            (st_upd (set_pending (set_id 0 (pending r)))) in
      st_upd (set_started (swap_remove i (started r)))
  end.

(** *** Received messages *)
Definition interrogation (conn : Z) (m : Message) (h : Header) : R unit :=
  if Count h =? 0 then
    st_upd (λ r, mkRTU (points r) (devices r) (started r) (sel r) (pending r) (sendFailed r)
                   (buildFailed r) (nows r) (utcs r) (sent_ r) (closes r ++ [conn])%list)
  else if Cause h =? Deactivation then reply conn m DeactivationCon true
  else
    match m with
    | ASDUMessage (mkASDU _ (o :: _)) =>
        match Element_ o with
        | Interrogation q =>
            if negb (q =? 20) then reply conn m ActivationCon true
            else
              do? reply conn m ActivationCon false in
              do? build (reportImage (Some conn) (Originator h) false 0) in
              reply conn m ActivationTerm false
        | _ => reply conn m ActivationCon true
        end
    | _ => reply conn m UnknownIOA true
    end.

Definition command_type (k : Kind) : Z :=
  match k with
  | PointMap.DoubleCommand => C_DC_NA_1
  | RegulatingStep => C_RC_NA_1
  | PointMap.SingleCommand => C_SC_NA_1
  | _ => 0
  end.

(** The qualifier of a command element. *)
Definition qualifier (e : Element) : Z :=
  match e with
  | Iec104Elements.DoubleCommand q | RegulatingCommand q | Iec104Elements.SingleCommand q => q
  | _ => 0
  end.

(** The index of the command [CommandByIOA] points to. *)
Definition command_index (ioa : Z) : option (nat * Command) :=
  list_find (λ c, Command_IOA c = ioa) (Commands pm).

Definition command_message (conn : Z) (m : Message) (h : Header) : R unit :=
  if negb (Cause h =? Activation) && negb (Cause h =? Deactivation)
  then reply conn m UnknownCause true
  else
    match m with
    | ASDUMessage (mkASDU _ [o]) =>
        match command_index (Address o) with
        | None => reply conn m UnknownIOA true
        | Some (i, c) =>
            if negb (Type_ h =? command_type (Command_Kind c)) || Test h
            then reply conn m ActivationCon true
            else
              let q := qualifier (Element_ o) in
              let value := CQ_State q in
              let value := if bool_decide (Command_Kind c = PointMap.SingleCommand)
                           then Z.land value 1 else value in
              handleCommand conn m (Z.of_nat i) value (CQ_QU q) (CQ_Select q)
        end
    | _ => reply conn m UnknownIOA true
    end.

Definition receive (conn : Z) (m : Message) : R unit :=
  let? h := lift (Message_GetHeader m) in
  if Type_ h =? C_IC_NA_1 then interrogation conn m h
  else if (Type_ h =? C_DC_NA_1) || (Type_ h =? C_RC_NA_1) || (Type_ h =? C_SC_NA_1)
  then command_message conn m h
  else st_ret tt.

(** *** The image of a device *)
Definition bit_set (register bit : Z) : bool := negb (Z.land (Z.shiftr register bit) 1 =? 0).

Definition apply_value (p : Point) (base : Z) (regs : list Z) (s : pointState) : R pointState :=
  let s := set_valueInvalid false s in
  let address := Point_Address p - base in
  match Point_Format p with
  | DP => let? w := index regs address in st_ret (set_dp (Z.land w 3) s)
  | Bit => let? w := index regs address in st_ret (set_sp (bit_set w (Point_Bit p)) s)
  | F32 =>
      let? hi := index regs address in
      let? lo := index regs (address + 1) in
      st_ret (set_f (RegistersToFloat hi lo) s)
  | U16 =>
      let? w := index regs address in
      st_ret (set_f (Float32bits (to_float32 (fmul (f64_of w 0) (Scale p)))) s)
  | I16 =>
      let? w := index regs address in
      st_ret (set_f (Float32bits (to_float32 (fmul (f64_of (i16 w) 0) (Scale p)))) s)
  | Step =>
      let? w := index regs address in
      let value := i16 w in
      let invalid := (value <? -64) || (63 <? value) in
      let s := set_valueInvalid invalid s in
      let s := if negb invalid then set_step value s else s in
      let? t := index regs (TransientAddress p - base) in
      st_ret (set_transient (bit_set t (TransientBit p)) s)
  | OtherFormat _ => st_ret s
  end.

Definition applyPoint (i : Z) (regs : list Z) : R unit :=
  let? p := index (Points pm) i in
  let? s := point_at i in
  let? dev := index (Devices pm) (Point_DeviceIndex p) in
  let? s := apply_value p (PollStart dev) regs s in
  let v := f64_of_bits (f s) in
  put_point i (if bool_decide (Point_Kind p = PointMap.Float) && (IsNaN v || IsInf v)
               then set_f 0 (set_valueInvalid true s) else s).

Fixpoint apply_points (d : Z) (regs : list Z) (valid : bool) (i : Z) (pts : list Point) : R unit :=
  match pts with
  | [] => st_ret tt
  | p :: pts' =>
      do? st_when (Point_DeviceIndex p =? d)
            (do? applyPoint i regs in
             st_when (Measurement p)
               (let? s := point_at i in put_point i (set_measurementInvalid (negb valid) s))) in
      apply_points d regs valid (i + 1) pts'
  end.

(** The locked part of [pollDevice] on a successful read. *)
Definition apply_poll (d : Z) (regs : list Z) (started : Z) : R unit :=
  let? dev := index (Devices pm) d in
  let? s := device_at d in
  let? now := Now in
  let s := mkDeviceState now started (heartbeatChanged s) (u64 (pollSeq s + 1)) (heartbeat_ s)
             (dev_unreachable s) in
  let? s :=
    (if HasHeartbeat dev then
       let? hb := index regs (HeartbeatAddress dev - PollStart dev) in
       st_ret (if (heartbeatChanged s =? 0) || negb (hb =? heartbeat_ s)
               then mkDeviceState (lastOK s) (pollStart s) (lastOK s) (pollSeq s) hb (dev_unreachable s)
               else s)
     else st_ret s) in
  do? put_device d s in
  let? valid :=
    (if HasMeasurementsValid dev then
       let? w := index regs (MVAddress dev - PollStart dev) in st_ret (bit_set w (MVBit dev))
     else st_ret true) in
  apply_points d regs valid 0 (Points pm).

(** The locked parts of [writeCommand]: what to write, and what the outcome
    of the write does. *)
Definition write_register (k : Kind) (value : Z) : Z :=
  if bool_decide (k = PointMap.SingleCommand) then (if value =? 0 then 1 else 2) else value.

Definition write_begin (d : Z) : R (option (Command * Device * Z)) :=
  let? r := st_get in
  let p := pending r in
  if negb (active p) || negb (bool_decide (phase p = commandWrite)) then st_ret None
  else
    let? c := index (Commands pm) (index_ p) in
    if negb (Command_DeviceIndex c =? d) then st_ret None
    else
      let? now := Now in
      if deadline p <=? now then
        do? pendingReply ActivationCon true in
        do? finishCommand in
        st_ret None
      else
        do? st_upd (set_pending (set_phase commandWriting p)) in
        let? dev := index (Devices pm) d in
        st_ret (Some (c, dev, write_register (Command_Kind c) (value_ p))).

Definition write_end (d : Z) (c : Command) (dev : Device) (result : MResult) : R unit :=
  match RStatus result with
  | StatusOK =>
      do? pendingReply ActivationCon false in
      let? ds := device_at d in
      let? now := Now in
      let? now' := Now in
      st_upd (λ r, let p := pending r in
        set_pending (mkPending (active p) (index_ p) (value_ p) (expected p) (id_ p) (request p)
                       commandFeedback (pollSeq ds) now
                       (now' + (if bool_decide (Command_Kind c = RegulatingStep) then 5000
                                else TimeoutMS dev))) r)
  | StatusException => do? pendingReply ActivationCon true in finishCommand
  | _ => finishCommand
  end.

(** ** The device workers

    A worker's position between two locked sections: at the top of its loop,
    in the southbound write, behind the command part, in the southbound read
    (with the two readings before it). *)
Inductive position : Type :=
| AtTop
| Writing (c : Command) (dev : Device) (value : Z)
| Written
| Polling (start began : Z).

Record worker (M : Type) : Type := mkWorker {
  nextPoll : Z;
  nextConnect : Z;
  resolved : bool;
  backoff : Z;
  master : M;
  pc : position
}.
End RTU.

Arguments mkWorker {M}.
Arguments nextPoll {M}.
Arguments nextConnect {M}.
Arguments resolved {M}.
Arguments backoff {M}.
Arguments master {M}.
Arguments pc {M}.

Section Workers.
Context (pm : Map) (clock : nat → Z) (station : nat → civil * bool) (admits : nat → bool).
Context {M : Type} `{Master_ M}.

Definition initialBackoff : Z := Z.min (ReconnectIntervalMS pm) 250.
Definition new_worker (m : M) : worker M := mkWorker 0 0 false initialBackoff m AtTop.

Definition next_backoff (b : Z) : Z :=
  if b <? Z.quot (ReconnectIntervalMS pm) 2 then b * 2 else ReconnectIntervalMS pm.

(** Resolution and connection at the top of the loop. *)
Definition connect (dev : Device) (w : worker M) : R (worker M) :=
  let? now := Now clock in
  if negb (m_IsConnected (master w)) && (nextConnect w <=? now) then
    let '(st, ok, m) :=
      if resolved w then (StatusOK, true, master w)
      else let (st, m) := m_Resolve (Host dev) (Port dev) (master w) in
           (st, bool_decide (st = StatusOK), m) in
    let '(st, m) := if bool_decide (st = StatusOK) then m_Connect 250 m else (st, m) in
    if bool_decide (st = StatusOK) then
      st_ret (mkWorker (nextPoll w) (nextConnect w) ok initialBackoff m (pc w))
    else
      let? now := Now clock in
      st_ret (mkWorker (nextPoll w) (now + backoff w) ok (next_backoff (backoff w)) m (pc w))
  else st_ret w.

Definition set_pc (p : position) (w : worker M) : worker M :=
  mkWorker (nextPoll w) (nextConnect w) (resolved w) (backoff w) (master w) p.
Definition set_master (m : M) (w : worker M) : worker M :=
  mkWorker (nextPoll w) (nextConnect w) (resolved w) (backoff w) m (pc w).

(** A transaction that may have left the connection out of step closes it. *)
Definition close_on (st : Status) (m : M) : M :=
  match st with Timeout | IOError => m_Close m | _ => m end.

Definition poll_read (dev : Device) (m : M) : (list Z * MResult) * M :=
  if bool_decide (PollTable dev = Input)
  then m_ReadInput (PollStart dev) (PollCount dev) (TimeoutMS dev) m
  else m_ReadHolding (PollStart dev) (PollCount dev) (TimeoutMS dev) m.

(** The loop of [deviceWorker] up to the next point where another goroutine
    can take the lock. *)
Definition worker_step (d : Z) (w : worker M) : R (worker M) :=
  let? dev := index (Devices pm) d in
  match pc w with
  | AtTop =>
      let? w := connect dev w in
      if m_IsConnected (master w) then
        let? wr := write_begin pm clock admits d in
        st_ret (set_pc (match wr with Some (c, dv, v) => Writing c dv v | None => Written end) w)
      else st_ret w
  | Writing c dv v =>
      let (res, m) := m_WriteSingle (Command_Address c) (u16 v) (TimeoutMS dv) (master w) in
      do? write_end clock admits d c dv res in
      st_ret (set_pc Written (set_master (close_on (RStatus res) m) w))
  | Written =>
      let? now := Now clock in
      if nextPoll w <=? now then
        let? start := Now clock in
        let? began := Now clock in
        st_ret (set_pc (Polling start began) w)
      else st_ret (set_pc AtTop w)
  | Polling start began =>
      let '((regs, res), m) := poll_read dev (master w) in
      let w := set_master (close_on (RStatus res) m) w in
      if bool_decide (RStatus res = StatusOK) then
        do? apply_poll pm clock d regs began in
        st_ret (mkWorker (start + PollMS dev) (nextConnect w) (resolved w) (backoff w) (master w) AtTop)
      else
        let? now := Now clock in
        st_ret (mkWorker (start + PollMS dev) (now + backoff w) (resolved w) (backoff w) (master w) AtTop)
  end.

(** ** The station *)
Record Station : Type := mkStation { rtu : RTU; workers : list (worker M) }.

Inductive input : Type :=
| Connection (conn : Z) (kind : EventKind)
| Receive (conn : Z) (m : Message)
| Tick
| Worker (d : nat).

Definition on_rtu (m : R unit) (s : Station) : outcome iec_error Station :=
  match m (rtu s) with
  | (Ok _, r) => Ok (mkStation r (workers s))
  | (Err e, _) => Err e
  | (Panic, _) => Panic
  | (Diverge, _) => Diverge
  end.

Definition step (i : input) (s : Station) : outcome iec_error Station :=
  match i with
  | Connection conn kind => on_rtu (connectionEvent conn kind) s
  | Receive conn m => on_rtu (receive pm clock station admits conn m) s
  | Tick => on_rtu (tick pm clock station admits) s
  | Worker d =>
      match workers s !! d with
      | None => Ok s
      | Some w =>
          match worker_step (Z.of_nat d) w (rtu s) with
          | (Ok w', r) => Ok (mkStation r (<[d := w']> (workers s)))
          | (Err e, _) => Err e
          | (Panic, _) => Panic
          | (Diverge, _) => Diverge
          end
      end
  end.

Definition init (masters : list M) : Station := mkStation (New pm) (new_worker <$> masters).

(** A run: the inputs taken with the states that met them, newest first, and
    the state it leads to. *)
Inductive run (masters : list M) : list (input * Station) → Station → Prop :=
| run_nil : run masters [] (init masters)
| run_cons i hist s s' : run masters hist s → step i s = Ok s' → run masters ((i, s) :: hist) s'.
End Workers.

Arguments mkStation {M}.
Arguments rtu {M}.
Arguments workers {M}.
