(* ===== verification/RtuInv.v ===== *)
(** * The remote terminal unit: invariants and correctness

    Every transition of the station returns on a valid map; a field write is
    the consequence of a selection and a matching execution by one connection;
    a positive termination is backed by a poll that began after the write; an
    interrogation reports every point once. *)
From S2P Require Import Prelude GoLib Iec104Types Iec104Time Iec104Elements Iec104Asdu PointMap.
From S2P Require Import PointMapValid ModbusMaster Rtu.

#[local] Open Scope string_scope.
#[local] Open Scope Z_scope.

(** ** A logic for operations that may fail

    [wpe m Q X r]: from [r] the operation returns with [Q] or fails with [X];
    it does not panic. *)
Section WPE.
Definition wpe {A} (m : R A) (Q : A → RTU → Prop) (X : RTU → Prop) (r : RTU) : Prop :=
  match m r with
  | (Ok a, r') => Q a r'
  | (Err _, r') => X r'
  | _ => False
  end.

Context {A B : Type} (X : RTU → Prop).

Lemma wpe_ret (a : A) Q r : Q a r → wpe (st_ret a) Q X r.
Proof. done. Qed.
Lemma wpe_bind (m : R A) (k : A → R B) Q r :
  wpe m (λ a, wpe (k a) Q X) X r → wpe (st_bind m k) Q X r.
Proof. unfold wpe, st_bind. by destruct (m r) as [[a| e | |] r']. Qed.
Lemma wpe_get Q r : Q r r → wpe st_get Q X r.
Proof. done. Qed.
Lemma wpe_upd f Q r : Q tt (f r) → wpe (st_upd f) Q X r.
Proof. done. Qed.
Lemma wpe_lift (o : outcome iec_error A) Q r :
  safe o → (∀ a, o = Ok a → Q a r) → (∀ e, o = Err e → X r) → wpe (lift o) Q X r.
Proof. unfold wpe, lift. destruct o; naive_solver. Qed.
Lemma wpe_when (b : bool) m Q r :
  (b = true → wpe m Q X r) → (b = false → Q tt r) → wpe (st_when b m) Q X r.
Proof. destruct b; intros H1 H2; [by apply H1|by apply H2]. Qed.
Lemma wpe_index (l : list A) i Q r : 0 ≤ i < zlen l →
  (∀ a, l !! Z.to_nat i = Some a → Q a r) → wpe (index l i) Q X r.
Proof.
  intros Hi HQ. unfold index, wpe, deref. rewrite (proj2 (Z.ltb_ge i 0)) by lia.
  destruct (lookup_lt_is_Some_2 l (Z.to_nat i)) as [a Ha]; [unfold zlen in Hi; lia|].
  rewrite Ha. auto.
Qed.
Lemma wpe_mono (m : R A) (Q Q' : A → RTU → Prop) (X' : RTU → Prop) r :
  wpe m Q' X' r → (∀ a r', Q' a r' → Q a r') → (∀ r', X' r' → X r') → wpe m Q X r.
Proof. unfold wpe. destruct (m r) as [[a| e | |] r']; auto. Qed.
Lemma wpe_elim (m : R A) Q r :
  wpe m Q (λ _, False) r → ∃ a r', m r = (Ok a, r') ∧ Q a r'.
Proof. unfold wpe. destruct (m r) as [[a| e | |] r'] eqn:H; try done. eauto. Qed.
End WPE.

Definition failed (r : RTU) : RTU :=
  mkRTU (points r) (devices r) (started r) (sel r) (pending r) (sendFailed r) (buildFailed r + 1)
    (nows r) (utcs r) (sent_ r) (closes r).

Lemma wpe_build X (m : R unit) Q r :
  wpe m Q (λ r', Q tt (failed r')) r → wpe (build m) Q X r.
Proof. unfold wpe, build. by destruct (m r) as [[[]| e | |] r']. Qed.

(** ** What an operation leaves alone *)

(** The parts of the state that commands and connections use. *)
Definition control (r : RTU) := (sel r, pending r, started r, nows r, closes r).

(** The values of a point, with and without the flags the evaluation sets. *)
Definition raw_of (s : pointState) :=
  (dp s, sp s, f s, step_ s, transient s, measurementInvalid s, valueInvalid s).
Definition value_of (s : pointState) := (raw_of s, unreachable s, heartbeatStale s).
Definition raw_device (d : deviceState) :=
  (lastOK d, pollStart d, heartbeatChanged d, pollSeq d, heartbeat_ d).

(** [r'] has sent more than [r]: to connections with messages satisfying [P],
    or messages satisfying [Pm]. *)
Definition sends_to (P : Z * Message → Prop) (r r' : RTU) : Prop :=
  ∃ l, sent_ r' = (sent_ r ++ l)%list ∧ Forall P l.
Definition sends (Pm : Message → Prop) : RTU → RTU → Prop := sends_to (λ x, Pm x.2).

(** Reporting changes baselines and sends; evaluation also sets the flags. *)
Record reports_by (Pm : Message → Prop) (r r' : RTU) : Prop := {
  rp_values : value_of <$> points r' = value_of <$> points r;
  rp_devices : devices r' = devices r;
  rp_control : control r' = control r;
  rp_sent : sends Pm r r'
}.
Record moves_by (Pm : Message → Prop) (r r' : RTU) : Prop := {
  mv_values : raw_of <$> points r' = raw_of <$> points r;
  mv_raw : raw_device <$> devices r' = raw_device <$> devices r;
  mv_control : control r' = control r;
  mv_sent : sends Pm r r'
}.

#[export] Instance sends_to_preorder P : PreOrder (sends_to P).
Proof.
  split; [intros r; exists []; by rewrite app_nil_r|].
  intros r1 r2 r3 (l1 & H1 & F1) (l2 & H2 & F2). exists (l1 ++ l2)%list.
  rewrite H2, H1, app_assoc. split; [done|by apply Forall_app].
Qed.
#[export] Instance sends_preorder Pm : PreOrder (sends Pm).
Proof. apply sends_to_preorder. Qed.
#[export] Instance reports_preorder Pm : PreOrder (reports_by Pm).
Proof.
  split; [intros r; by constructor|]. intros r1 r2 r3 [] []. constructor; etrans; eauto.
Qed.
#[export] Instance moves_preorder Pm : PreOrder (moves_by Pm).
Proof.
  split; [intros r; by constructor|]. intros r1 r2 r3 [] []. constructor; etrans; eauto.
Qed.

Lemma sends_to_none P r r' : sent_ r' = sent_ r → sends_to P r r'.
Proof. intros H. exists []. by rewrite H, app_nil_r. Qed.
Lemma sends_none Pm r r' : sent_ r' = sent_ r → sends Pm r r'.
Proof. apply sends_to_none. Qed.
#[export] Hint Resolve sends_none sends_to_none : go.

Lemma sends_to_mono (P P' : Z * Message → Prop) r r' : (∀ x, P x → P' x) → sends_to P r r' → sends_to P' r r'.
Proof. intros H (l & Hl & Hf). exists l. split; [done|]. by eapply Forall_impl. Qed.
Lemma sends_mono (Pm Pm' : Message → Prop) r r' : (∀ m, Pm m → Pm' m) → sends Pm r r' → sends Pm' r r'.
Proof. intros H. apply sends_to_mono. auto. Qed.

Lemma reports_moves (Pm Pm' : Message → Prop) r r' : (∀ m, Pm m → Pm' m) → reports_by Pm r r' → moves_by Pm' r r'.
Proof.
  intros HP [Hv Hd Hc Hs]. constructor; [|by rewrite Hd|done|by eapply sends_mono].
  change raw_of with ((λ x : _ * bool * bool, x.1.1) ∘ value_of). rewrite !list_fmap_compose. by rewrite Hv.
Qed.

Lemma reports_failed Pm r : reports_by Pm r (failed r).
Proof. constructor; auto with go. Qed.

(** Reports of values, as opposed to answers to commands. *)
Definition is_report (m : Message) : Prop :=
  ∃ h os, m = ASDUMessage (mkASDU h os) ∧
    Cause h ∈ [Spontaneous; ReturnRemote; Periodic; InterrogatedStation].
Notation reports := (reports_by is_report).
Notation moves := (moves_by is_report).

Lemma reports_move r r' : reports r r' → moves r r'.
Proof. by apply reports_moves. Qed.
#[export] Hint Resolve reports_move reports_failed : go.

(** ** The process image *)
Section Image.
Context (pm : Map) (clock : nat → Z) (station : nat → civil * bool) (admits : nat → bool).
Context (Hpm : map_valid pm).

(** The image has an entry per point and device; positions fit a VTI. *)
Record shape (r : RTU) : Prop := {
  sh_points : length (points r) = length (Points pm);
  sh_devices : length (devices r) = length (Devices pm);
  sh_steps : Forall (λ s, -64 ≤ step_ s ≤ 63) (points r)
}.

Lemma shape_moves Pm r r' : shape r → moves_by Pm r r' → shape r'.
Proof.
  intros [Hp Hd Hs] [Hv Hr _ _]. constructor.
  - by rewrite <- Hp, <- (length_fmap raw_of), Hv, length_fmap.
  - by rewrite <- Hd, <- (length_fmap raw_device), Hr, length_fmap.
  - assert (step_ <$> points r' = step_ <$> points r) as He.
    { change step_ with ((λ x : Z * bool * Z * Z * bool * bool * bool, x.1.1.1.2) ∘ raw_of).
      rewrite !list_fmap_compose. by rewrite Hv. }
    assert (Forall (λ z, -64 ≤ z ≤ 63) (step_ <$> points r')) as Hf by (rewrite He; by apply Forall_fmap).
    by apply Forall_fmap in Hf.
Qed.

Lemma shape_point r i p : shape r → Points pm !! i = Some p →
  ∃ s, points r !! i = Some s ∧ -64 ≤ step_ s ≤ 63.
Proof.
  intros [Hp _ Hs] Hi. destruct (lookup_lt_is_Some_2 (points r) i) as [s Hsi].
  { rewrite Hp. by eapply lookup_lt_Some. }
  exists s. split; [done|]. by eapply Forall_lookup_1 in Hs.
Qed.

Lemma zlen_lookup {A} (l : list A) i x : l !! i = Some x → 0 ≤ Z.of_nat i < zlen l.
Proof. intros H%lookup_lt_Some. unfold zlen. lia. Qed.

Lemma point_kind i p : Points pm !! i = Some p → monitoring (Point_Kind p).
Proof. intros H. pose proof (mv_points _ Hpm) as Hf. eapply Forall_lookup_1 in Hf as [Hok _]; [|done]. apply Hok. Qed.

(** Accesses to known entries. *)
Lemma wpe_index_nat {A} X (l : list A) i a Q (r : RTU) :
  l !! i = Some a → Q a r → wpe (index l (Z.of_nat i)) Q X r.
Proof.
  intros Hi HQ. apply wpe_index; [by eapply zlen_lookup|]. intros b. rewrite Nat2Z.id. congruence.
Qed.
Lemma wpe_point_at X i s Q r : points r !! i = Some s → Q s r → wpe (point_at (Z.of_nat i)) Q X r.
Proof. intros Hi HQ. apply wpe_bind, wpe_get. by eapply wpe_index_nat. Qed.
Lemma wpe_device_at X i d Q r : devices r !! i = Some d → Q d r → wpe (device_at (Z.of_nat i)) Q X r.
Proof. intros Hi HQ. apply wpe_bind, wpe_get. by eapply wpe_index_nat. Qed.

(** A point of a valid map has an element. *)
Lemma plain_element_ok p s : monitoring (Point_Kind p) → -64 ≤ step_ s ≤ 63 →
  ∃ typ e, plain_element p s = Ok (typ, e).
Proof.
  intros Hk Hs. unfold plain_element, monitoring in *. cbv zeta.
  destruct (Point_Kind p); try (by eauto); try set_solver.
  assert (i8 (step_ s) = step_ s) as ->.
  { unfold i8, signed. change (2 ^ 8) with 256. change (2 ^ (8 - 1)) with 128.
    destruct (Z.ltb_spec (step_ s mod 256) 128); modlia. }
  unfold NewVTI. rewrite (proj2 (Z.ltb_ge _ _)), (proj2 (Z.ltb_ge _ _)) by lia. cbn. eauto.
Qed.

Lemma wpe_element i timed p s X r (Q : Z * Element → RTU → Prop) :
  Points pm !! i = Some p → points r !! i = Some s → -64 ≤ step_ s ≤ 63 →
  (∀ typ e ut, plain_element p s = Ok (typ, e) →
     (timed = false → ut = utcs r) →
     let te := if timed && negb (bool_decide (Point_Kind p = PointMap.Float)) then
       (timed_type typ, Timed e (CP56FromTime (station (utcs r)).1 (negb (station (utcs r)).2)))
       else (typ, e) in
     Q te (mkRTU (points r) (devices r) (started r) (sel r) (pending r) (sendFailed r) (buildFailed r)
              (nows r) ut (sent_ r) (closes r))) →
  wpe (element pm station (Z.of_nat i) timed) Q X r.
Proof.
  intros Hp Hs Hr HQ. unfold element.
  destruct (plain_element_ok p s) as (typ & e & He); [by eapply point_kind|done|].
  apply wpe_bind. eapply wpe_index_nat; [done|]. apply wpe_bind. eapply wpe_point_at; [done|].
  apply wpe_bind, wpe_lift; rewrite He; [done| |done]. intros te [= <-].
  specialize (HQ typ e). destruct (timed && _) eqn:Ht.
  - apply wpe_bind. unfold Clock_Now. unfold wpe at 1. destruct (station (utcs r)) as [utc synced].
    apply wpe_ret. apply (HQ (S (utcs r))); [done|]. intros ->. done.
  - apply wpe_ret. destruct r. by apply HQ.
Qed.

(** *** Sending *)
Definition sending (l : list (Z * Message)) (sf : Z) (r : RTU) : RTU :=
  mkRTU (points r) (devices r) (started r) (sel r) (pending r) sf (buildFailed r) (nows r) (utcs r)
    (sent_ r ++ l)%list (closes r).

Lemma reports_sending (Pm : Message → Prop) l sf r : Forall (λ x, Pm x.2) l → reports_by Pm r (sending l sf r).
Proof. intros Hl. constructor; [done|done|done|]. by exists l. Qed.

Lemma wpe_send X c m Q r : (∀ sf, Q tt (sending [(c, m)] sf r)) → wpe (send admits c m) Q X r.
Proof. intros HQ. apply wpe_upd. apply HQ. Qed.

Lemma wpe_send_all X cs m Q r :
  (∀ sf, Q tt (sending ((λ c, (c, m)) <$> cs) sf r)) → wpe (send_all admits cs m) Q X r.
Proof.
  revert r. induction cs as [|c cs IH]; intros r HQ; cbn [send_all].
  { apply wpe_ret. specialize (HQ (sendFailed r)). unfold sending in HQ. rewrite app_nil_r in HQ. by destruct r. }
  apply wpe_bind, wpe_send. intros sf. apply IH. intros sf'. specialize (HQ sf').
  unfold sending in *. cbn in *. by rewrite <- app_assoc.
Qed.

Lemma wpe_broadcast X m Q r :
  (∀ sf, Q tt (sending ((λ c, (c, m)) <$> started r) sf r)) → wpe (broadcast admits m) Q X r.
Proof. intros HQ. apply wpe_bind, wpe_get. by apply wpe_send_all. Qed.

(** A report of point [i] with its current value. *)
Definition reports_point (cot : Z) (p : Point) (s : pointState) (m : Message) : Prop :=
  ∃ typ e h e', plain_element p s = Ok (typ, e) ∧
    m = ASDUMessage (mkASDU h [mkObject (u32 (Point_IOA p)) e']) ∧ Cause h = cot ∧
    (e' = e ∨ ∃ t, e' = Timed e t).

Lemma insert_values i s s' r : points r !! i = Some s → value_of s' = value_of s →
  value_of <$> <[i := s']> (points r) = value_of <$> points r.
Proof.
  intros Hi Hv. rewrite list_fmap_insert, Hv. apply list_insert_id. by rewrite list_lookup_fmap, Hi.
Qed.

Lemma reportPoint_ok i cot p s X r : cot = Spontaneous ∨ cot = ReturnRemote →
  Points pm !! i = Some p → points r !! i = Some s → -64 ≤ step_ s ≤ 63 →
  wpe (reportPoint pm station admits (Z.of_nat i) cot) (λ _ r',
    reports r r' ∧ points r' = <[i := reported p s]> (points r) ∧
    ∃ m, reports_point cot p s m ∧ sent_ r' = (sent_ r ++ ((λ c, (c, m)) <$> started r))%list) X r.
Proof.
  intros Hcot Hp Hs Hr. apply wpe_build, wpe_bind.
  eapply wpe_element; [done|done|done|]. intros typ e ut He _ te. cbv zeta in te.
  set (r1 := mkRTU _ _ _ _ _ _ _ _ _ _ _).
  destruct te as [typ' e'] eqn:Ete. subst te. apply wpe_bind. eapply wpe_index_nat; [done|].
  apply wpe_bind, wpe_broadcast. intros sf. apply wpe_bind. eapply wpe_point_at; [done|].
  apply wpe_upd. rewrite Nat2Z.id. split_and!.
  - constructor; [|done|done|].
    + cbn [points set_points sending r1]. by eapply insert_values.
    + eexists. split; [done|]. apply Forall_fmap, Forall_true. intros c. cbn.
      do 2 eexists. split; [done|]. cbn. destruct Hcot as [-> | ->]; set_solver.
  - done.
  - eexists. split; [|done]. do 4 eexists. split_and!; [exact He|done|done|].
    destruct (true && _); injection Ete as <- <-; eauto.
Qed.

(** *** Evaluation *)
Lemma evaluate_devices_ok now i devs X r : shape r → (i + length devs = length (Devices pm))%nat →
  wpe (evaluate_devices now (Z.of_nat i) devs) (λ _ r', moves r r' ∧ points r' = points r ∧
    sent_ r' = sent_ r) X r.
Proof.
  revert i r. induction devs as [|dev devs IH]; intros i r Hsh Hi; cbn [evaluate_devices].
  { apply wpe_ret. done. }
  destruct (lookup_lt_is_Some_2 (devices r) i) as [d Hd].
  { rewrite (sh_devices _ Hsh). cbn in Hi. lia. }
  apply wpe_bind. eapply wpe_device_at; [done|]. apply wpe_bind, wpe_upd. rewrite Nat2Z.id.
  replace (Z.of_nat i + 1) with (Z.of_nat (S i)) by lia.
  set (r1 := set_devices _ r). assert (moves r r1) as Hm.
  { constructor; [done| |done|by apply sends_none]. cbn [devices set_devices r1]. rewrite list_fmap_insert.
    apply list_insert_id. by rewrite list_lookup_fmap, Hd. }
  eapply wpe_mono; [apply IH|..].
  - by eapply shape_moves.
  - cbn in Hi. lia.
  - intros [] r' (H1 & H2 & H3). split_and!; [by etrans|by rewrite H2|by rewrite H3].
  - done.
Qed.

(** The baselines of a point agree with its value: nothing is left to report
    but what the deadband of a float hides. *)
Definition settled (p : Point) (s : pointState) : Prop :=
  repQuality s = pointQuality s p ∧
  match Point_Kind p with
  | PointMap.SinglePoint => repSP s = sp s
  | PointMap.DoublePoint => repDP s = dp s
  | PointMap.StepPosition => repStep s = step_ s ∧ repTransient s = transient s
  | _ => True
  end.

Lemma settled_reported p s : settled p (reported p s).
Proof. split; [done|]. by destruct (Point_Kind p). Qed.

Lemma settled_unchanged now p s :
  negb (pointQuality s p =? repQuality s) || value_changed now p s = false → settled p s.
Proof.
  unfold settled, value_changed. intros H. apply orb_false_iff in H as [Hq Hv]. bool_facts. split; [done|].
  destruct (Point_Kind p); try done; bool_facts; try done.
  - symmetry. by apply eqb_prop.
  - split; [done|]. symmetry. by apply eqb_prop.
Qed.

Definition flagged (now : Z) (dev : Device) (d : deviceState) (s : pointState) : pointState :=
  set_heartbeatStale
    (HasHeartbeat dev && ((heartbeatChanged d =? 0) || (HeartbeatStaleMS dev <=? now - heartbeatChanged d)))
    (set_unreachable (dev_unreachable d) s).

(** The points from [i] on are settled, the others as they were. *)
Definition evaluated (i : nat) (r r' : RTU) : Prop :=
  moves r r' ∧ (∀ j, (j < i)%nat → points r' !! j = points r !! j) ∧
  (∀ j p s, (i ≤ j)%nat → Points pm !! j = Some p → points r' !! j = Some s → settled p s).

Lemma point_device i p : Points pm !! i = Some p → ∃ k dev, Point_DeviceIndex p = Z.of_nat k ∧
  Devices pm !! k = Some dev ∧ in_poll dev p = true.
Proof.
  intros H. pose proof (mv_points _ Hpm) as Hf. eapply Forall_lookup_1 in Hf as (_ & H0 & dev & Hd & Hin); [|done].
  exists (Z.to_nat (Point_DeviceIndex p)), dev. split_and!; [lia|done|done].
Qed.

Lemma moves_put_point i s s' r : points r !! i = Some s → raw_of s' = raw_of s →
  moves r (set_points (<[i := s']> (points r)) r).
Proof.
  intros Hi Hv. constructor; [|done|done|by apply sends_none]. cbn. rewrite list_fmap_insert, Hv. apply list_insert_id.
  by rewrite list_lookup_fmap, Hi.
Qed.

(** One point of the evaluation loop: flags, and a report when due. *)
Lemma evaluate_point_ok now i p s dev d r X (Q : unit → RTU → Prop) :
  Points pm !! i = Some p → points r !! i = Some s → -64 ≤ step_ s ≤ 63 →
  let s1 := flagged now dev d s in
  let qChanged := negb (pointQuality s1 p =? repQuality s1) in
  (∀ r' s', moves r r' → settled p s' → points r' = <[i := s']> (points r) → Q tt r') →
  wpe (do? put_point (Z.of_nat i) s1 in
       st_when (qChanged || value_changed now p s1)
         (do? reportPoint pm station admits (Z.of_nat i) Spontaneous in
          st_when (bool_decide (Point_Kind p = PointMap.Float) && negb qChanged)
            (let? s := point_at (Z.of_nat i) in put_point (Z.of_nat i) (set_lastValueEvent now s)))) Q X r.
Proof.
  intros Hp Hs Hr s1 q HQ. apply wpe_bind, wpe_upd. rewrite Nat2Z.id.
  pose proof (lookup_lt_Some _ _ _ Hs) as Hlt.
  set (r1 := set_points _ r). assert (moves r r1) as Hm by by eapply moves_put_point.
  assert (points r1 !! i = Some s1) as Hs1 by by apply list_lookup_insert_eq.
  apply wpe_when.
  - intros _. apply wpe_bind. eapply wpe_mono; [eapply reportPoint_ok; [by left|exact Hp|exact Hs1|done]|..]; [|done].
    intros [] r2 (H1 & H2 & _). cbn [points set_points r1] in H2. rewrite list_insert_insert_eq in H2.
    assert (moves r r2) as Hm2 by (etrans; [exact Hm|by apply reports_move]).
    apply wpe_when; intros _.
    + apply wpe_bind. eapply wpe_point_at; [rewrite H2; by apply list_lookup_insert_eq|].
      apply wpe_upd. rewrite Nat2Z.id. apply (HQ _ (set_lastValueEvent now (reported p s1))).
      * etrans; [exact Hm2|]. apply moves_put_point with (s := reported p s1); [|done].
        rewrite H2. by apply list_lookup_insert_eq.
      * split; [done|]. by destruct (Point_Kind p).
      * cbn. rewrite H2. by rewrite list_insert_insert_eq.
    + eapply HQ; [exact Hm2|apply settled_reported|done].
  - intros Hno. eapply HQ; [exact Hm| |done]. by eapply settled_unchanged.
Qed.

Lemma evaluate_points_ok now i pts X r : shape r → drop i (Points pm) = pts →
  wpe (evaluate_points pm station admits now (Z.of_nat i) pts) (λ _ r', evaluated i r r') X r.
Proof.
  revert i r. induction pts as [|p pts IH]; intros i r Hsh Hd; cbn [evaluate_points].
  { apply wpe_ret. split_and!; [done|done|]. intros j p s Hj Hp _. exfalso.
    apply lookup_lt_Some in Hp. assert (length (drop i (Points pm)) = 0%nat) as Hl by by rewrite Hd.
    rewrite length_drop in Hl. lia. }
  assert (Points pm !! i = Some p) as Hp.
  { pose proof (lookup_drop (Points pm) i 0) as Hl. rewrite Hd, Nat.add_0_r in Hl. by symmetry. }
  assert (drop (S i) (Points pm) = pts) as Hd'.
  { replace (S i) with (i + 1)%nat by lia. by rewrite <- drop_drop, Hd. }
  destruct (shape_point r i p Hsh Hp) as (s & Hs & Hr).
  destruct (point_device i p Hp) as (k & dev & Hk & Hdev & _).
  destruct (lookup_lt_is_Some_2 (devices r) k) as [d Hdk].
  { rewrite (sh_devices _ Hsh). by eapply lookup_lt_Some. }
  apply wpe_bind. eapply wpe_point_at; [done|]. apply wpe_bind. rewrite Hk. eapply wpe_device_at; [done|].
  apply wpe_bind. eapply wpe_index_nat; [done|].
  replace (Z.of_nat i + 1) with (Z.of_nat (S i)) by lia.
  set (rest := evaluate_points _ _ _ _ _ _).
  match goal with |- wpe (st_bind ?m1 (λ _, st_bind ?m2 (λ _, rest))) ?Q ?X r =>
    enough (wpe (st_bind m1 (λ _, m2)) (λ _, wpe rest Q X) X r) as H end.
  { revert H. unfold wpe, st_bind. cbn. by destruct (st_when _ _ _) as [[[]| | |] ?]. }
  eapply (evaluate_point_ok now i p s dev d); [done|done|done|].
  intros r' s' Hm Hset Hpts. eapply wpe_mono; [apply IH; [by eapply shape_moves|exact Hd']|..]; [|done].
  intros [] r2 (Hm2 & Hlt & Hge). split_and!; [by etrans| |].
  - intros j Hj. rewrite Hlt by lia. rewrite Hpts. apply list_lookup_insert_ne. lia.
  - intros j p' s'' Hj Hp' Hs''. destruct (decide (j = i)) as [->|Hne]; [|apply (Hge j p' s''); [lia|done|done]].
    pose proof (lookup_lt_Some _ _ _ Hs). rewrite Hlt, Hpts, list_lookup_insert_eq in Hs'' by lia. by simplify_eq.
Qed.

(** *** The image *)
Definition kind_type (k : Kind) : Z :=
  match k with
  | PointMap.SinglePoint => M_SP_NA_1
  | PointMap.DoublePoint => M_DP_NA_1
  | PointMap.StepPosition => M_ST_NA_1
  | PointMap.Float => M_ME_NC_1
  | _ => 0
  end.

Definition image_header (k : Kind) (cyclic : bool) (oa : Z) : Header :=
  mkHeader (kind_type k) false 0 (if cyclic then Periodic else InterrogatedStation) false false oa
    (u16 (CA pm)).

Lemma plain_element_type p s typ e : monitoring (Point_Kind p) → plain_element p s = Ok (typ, e) →
  typ = kind_type (Point_Kind p) ∧ ∃ payload, encodeElement e = Ok (typ, payload) ∧ (length payload ≤ 5)%nat.
Proof.
  unfold plain_element, monitoring. cbv zeta. intros Hk He.
  destruct (Point_Kind p); try (exfalso; set_solver); cbn [bind] in He.
  - injection He as <- <-. split; [done|]. eexists. split; [done|]. cbn. lia.
  - injection He as <- <-. split; [done|]. eexists. split; [done|]. cbn. lia.
  - injection He as <- <-. split; [done|]. eexists. split; [done|]. cbn. lia.
  - apply bind_Ok in He as (v & _ & [= <- <-]). split; [done|]. eexists. split; [done|]. cbn. lia.
Qed.

(** A builder of the image of kind [k]. *)
Definition image_builder (k : Kind) (cyclic : bool) (oa : Z) (b : Builder) : Prop :=
  builder_inv b ∧ bparams b = DefaultParams ∧ AHeader (basdu b) = image_header k cyclic oa.

Lemma image_new k cyclic oa : monitoring k → ∃ b, NewBuilder DefaultParams (image_header k cyclic oa) = Ok b ∧
  image_builder k cyclic oa b ∧ Objects (basdu b) = [] ∧ bsize b = 6%nat.
Proof.
  intros Hk.
  assert (0 ≤ u16 (CA pm) < 65536) as Hca by apply u16_range.
  assert (NewBuilder DefaultParams (image_header k cyclic oa) =
    Ok (mkBuilder DefaultParams (mkASDU (image_header k cyclic oa) []) 6)) as Hb.
  { unfold NewBuilder, encodeHeader. cbn [Params_Validate DefaultParams set_Count image_header Count Cause
      CommonAddress COTSize CASize IOASize Originator Type_ Sequence].
    change (maxAddress (ca_width DefaultParams)) with 65535.
    rewrite (proj2 (Z.ltb_ge 65535 _)) by lia.
    unfold monitoring in Hk. destruct k; try (exfalso; set_solver); by destruct cyclic. }
  eexists. split; [exact Hb|]. apply NewBuilder_inv in Hb as (Hi & _). split; [|done]. done.
Qed.

Lemma image_append k cyclic oa b o payload : image_builder k cyclic oa b → monitoring k →
  encodeElement (Element_ o) = Ok (kind_type k, payload) → (length payload ≤ 5)%nat →
  0 ≤ Address o ≤ 0xffffff →
  ((∃ b', Append b o = Ok b') ∨ Append b o = Err ErrFull) ∧
  (Objects (basdu b) = [] → bsize b = 6%nat → ∃ b', Append b o = Ok b').
Proof.
  intros (Hinv & Hp & Hh) Hk He Hl Ha. unfold Append. rewrite He, Hp, Hh. cbn [bind image_header Type_ Sequence].
  rewrite Z.eqb_refl. cbn [negb guard_err andb orb].
  change (maxAddress (ioa_width DefaultParams)) with 0xffffff.
  rewrite (proj2 (Z.ltb_ge _ (Address o))) by lia. cbn [guard_err].
  assert (isFileType (kind_type k) = false) as ->.
  { unfold monitoring in Hk. destruct k; try (exfalso; set_solver); done. }
  cbn [andb]. rewrite orb_false_r. split.
  - destruct (_ || _); [by right|left; by eexists].
  - intros Ho Hs. rewrite Ho, Hs. cbn [length Nat.eqb orb].
    change (ioa_width DefaultParams) with 3%nat. unfold MaxASDUSize.
    rewrite (proj2 (Nat.ltb_ge _ _)) by lia. by eexists.
Qed.

Definition targets (conn : option Z) (r : RTU) : list Z :=
  match conn with Some c => [c] | None => started r end.
Definition emit (tg : list Z) (ms : list Message) : list (Z * Message) :=
  concat ((λ m, (λ c, (c, m)) <$> tg) <$> ms).
Definition msg_objects (m : Message) : list Object :=
  match m with ASDUMessage a => Objects a | _ => [] end.
Definition image_msg (k : Kind) (cyclic : bool) (oa : Z) (m : Message) : Prop :=
  ∃ b, image_builder k cyclic oa b ∧ m = ASDUMessage (Builder_ASDU b).
Definition open_builder (k : Kind) (cyclic : bool) (oa : Z) (b : option Builder) : Prop :=
  match b with Some b => image_builder k cyclic oa b | None => True end.
Definition open_objects (b : option Builder) : list Object :=
  match b with Some b => Objects (basdu b) | None => [] end.

Lemma emit_reports k cyclic oa tg ms : Forall (image_msg k cyclic oa) ms →
  Forall (λ x, is_report x.2) (emit tg ms).
Proof.
  intros Hms. unfold emit. apply Forall_concat, Forall_fmap. eapply Forall_impl; [exact Hms|].
  cbn. intros m (b & (_ & _ & Hh) & ->). apply Forall_fmap, Forall_true. intros c. cbn.
  do 2 eexists. split; [done|]. unfold ASDU_GetHeader. rewrite Hh. destruct cyclic; cbn; set_solver.
Qed.

Lemma sending_nil r : sending [] (sendFailed r) r = r.
Proof. unfold sending. rewrite app_nil_r. by destruct r. Qed.
Lemma sending_sending l l' sf sf' r : sending l' sf' (sending l sf r) = sending (l ++ l') sf' r.
Proof. unfold sending. cbn. by rewrite app_assoc. Qed.
Lemma emit_app tg ms ms' : emit tg (ms ++ ms') = (emit tg ms ++ emit tg ms')%list.
Proof. unfold emit. by rewrite fmap_app, concat_app. Qed.

Lemma flush_ok X k cyclic oa conn b Q r : open_builder k cyclic oa b →
  (∀ ms sf, Forall (image_msg k cyclic oa) ms → concat (msg_objects <$> ms) = open_objects b →
     Q tt (sending (emit (targets conn r) ms) sf r)) → wpe (flush admits conn b) Q X r.
Proof.
  intros Hb HQ. destruct b as [b|]; cbn [flush].
  - assert (Forall (image_msg k cyclic oa) [ASDUMessage (Builder_ASDU b)]) as Hf
      by (apply Forall_singleton; by exists b).
    specialize (HQ [ASDUMessage (Builder_ASDU b)]). cbn [fmap list_fmap concat] in HQ.
    unfold emit in HQ. cbn [fmap list_fmap concat] in HQ. setoid_rewrite app_nil_r in HQ.
    destruct conn as [c|]; [apply wpe_send|apply wpe_broadcast]; intros sf; apply HQ; done.
  - apply wpe_ret. specialize (HQ [] (sendFailed r) ltac:(by apply Forall_nil_2) eq_refl).
    unfold emit in HQ. cbn in HQ. by rewrite sending_nil in HQ.
Qed.

Lemma append_image_ok X k cyclic oa conn b o payload Q r :
  open_builder k cyclic oa b → monitoring k → encodeElement (Element_ o) = Ok (kind_type k, payload) →
  (length payload ≤ 5)%nat → 0 ≤ Address o ≤ 0xffffff →
  (∀ b' ms sf, image_builder k cyclic oa b' → Forall (image_msg k cyclic oa) ms →
     (concat (msg_objects <$> ms) ++ Objects (basdu b'))%list = (open_objects b ++ [o])%list →
     Q b' (sending (emit (targets conn r) ms) sf r)) →
  wpe (append_image admits conn b (image_header k cyclic oa) o) Q X r.
Proof.
  intros Hb Hk He Hl Ha HQ. unfold append_image.
  destruct (image_new k cyclic oa Hk) as (b0 & Hnew & Hb0 & Ho0 & Hs0).
  assert (∀ b1 b2, image_builder k cyclic oa b1 → Append b1 o = Ok b2 → image_builder k cyclic oa b2 ∧
    Objects (basdu b2) = (Objects (basdu b1) ++ [o])%list) as Happ.
  { intros b1 b2 (Hi & Hp & Hh) H. apply Append_inv in H as (H1 & H2 & H3 & H4); [|done].
    split; [|done]. split_and!; [done|by rewrite H2|by rewrite H3]. }
  apply wpe_bind. apply wpe_mono with (X' := λ _, False)
    (Q' := λ b1 r1, r1 = r ∧ image_builder k cyclic oa b1 ∧ Objects (basdu b1) = open_objects b); [|..|done].
  { destruct b as [b|]; [done|]. unfold wpe, lift. by rewrite Hnew. }
  intros b1 r1 (-> & Hb1 & Hob1). rewrite <- Hob1 in HQ.
  destruct (image_append k cyclic oa b1 o payload Hb1 Hk He Hl Ha) as [[[b2 H2]|H2] _]; rewrite H2.
  - destruct (Happ b1 b2 Hb1 H2) as [Hi2 Ho2]. unfold wpe, lift.
    specialize (HQ b2 [] (sendFailed r) Hi2 ltac:(by apply Forall_nil_2) Ho2). by rewrite sending_nil in HQ.
  - apply wpe_bind. eapply (flush_ok _ k cyclic oa); [exact Hb1|]. intros ms sf Hms Hcm.
    apply wpe_bind. unfold wpe at 1, lift. rewrite Hnew.
    destruct (image_append k cyclic oa b0 o payload Hb0 Hk He Hl Ha) as [_ Hf].
    destruct (Hf Ho0 Hs0) as [b3 H3]. unfold wpe. rewrite H3.
    destruct (Happ b0 b3 Hb0 H3) as [Hi3 Ho3]. apply HQ; [done|done|]. by rewrite Hcm, Ho3, Ho0.
Qed.

(** Whether the image of kind [k] takes a point, and the object it takes. *)
Definition due (cyclic : bool) (now : Z) (k : Kind) (p : Point) (s : pointState) : bool :=
  bool_decide (Point_Kind p = k) &&
  (negb cyclic || (bool_decide (k = PointMap.Float) && negb (nextCyclic s =? 0) && (nextCyclic s <=? now))).

Definition image_object (cyclic : bool) (now : Z) (k : Kind) (ps : Point * pointState) : option Object :=
  if due cyclic now k ps.1 ps.2 then
    match plain_element ps.1 ps.2 with
    | Ok (_, e) => Some (mkObject (u32 (Point_IOA ps.1)) e)
    | _ => None
    end
  else None.

Definition image_objects (cyclic : bool) (now : Z) (k : Kind) (i : nat) (r : RTU) : list Object :=
  omap (image_object cyclic now k) (drop i (zip (Points pm) (points r))).

(** What the image leaves of the points: values and settled baselines, and
    everything when it is not cyclic. *)
Record imaged (cyclic : bool) (i : nat) (r r' : RTU) : Prop := {
  im_reports : reports r r';
  im_still : cyclic = false → points r' = points r;
  im_before : ∀ j, (j < i)%nat → points r' !! j = points r !! j;
  im_settled : ∀ j p s s', Points pm !! j = Some p → points r !! j = Some s → points r' !! j = Some s' →
    settled p s → settled p s'
}.

Lemma imaged_refl cyclic i r : imaged cyclic i r r.
Proof. constructor; [done|done|done|]. intros. by simplify_eq. Qed.

Lemma imaged_trans cyclic i i' r1 r2 r3 : (i' ≤ i)%nat → shape r1 → imaged cyclic i' r1 r2 → imaged cyclic i r2 r3 →
  imaged cyclic i' r1 r3.
Proof.
  intros Hi Hsh [A1 A2 A3 A4] [B1 B2 B3 B4]. constructor; [by etrans| | |].
  - intros Hc. by rewrite B2, A2.
  - intros j Hj. rewrite B3, A3 by lia. done.
  - intros j p s s' Hp Hs Hs' Hset.
    destruct (shape_point r2 j p) as (s2 & Hs2 & _); [|done|].
    { eapply shape_moves; [exact Hsh|]. by apply reports_move. }
    eauto.
Qed.

Lemma imaged_sending cyclic i l sf r : Forall (λ x, is_report x.2) l → imaged cyclic i r (sending l sf r).
Proof. intros Hl. constructor; [by apply reports_sending|done|done|]. intros. cbn in *. by simplify_eq. Qed.

Lemma imaged_put cyclic i s s' p r : points r !! i = Some s → Points pm !! i = Some p →
  value_of s' = value_of s → cyclic = true → (settled p s → settled p s') →
  imaged cyclic i r (set_points (<[i := s']> (points r)) r).
Proof.
  intros Hi Hp Hv Hc Hset. constructor.
  - constructor; [|done|done|by apply sends_none]. by eapply insert_values.
  - by rewrite Hc.
  - intros j Hj. cbn. apply list_lookup_insert_ne. lia.
  - intros j p' s1 s2 Hp' Hs1 Hs2. cbn in Hs2. destruct (decide (j = i)) as [->|Hne].
    + rewrite list_lookup_insert_eq in Hs2 by (by eapply lookup_lt_Some). by simplify_eq.
    + rewrite list_lookup_insert_ne in Hs2 by done. by simplify_eq.
Qed.

Lemma image_objects_same cyclic now k i r r' : drop i (points r') = drop i (points r) →
  image_objects cyclic now k i r' = image_objects cyclic now k i r.
Proof. intros H. unfold image_objects. by rewrite !zip_with_drop, H. Qed.

Lemma image_objects_cons cyclic now k i p s r : Points pm !! i = Some p → points r !! i = Some s →
  image_objects cyclic now k i r =
  match image_object cyclic now k (p, s) with
  | Some o => o :: image_objects cyclic now k (S i) r
  | None => image_objects cyclic now k (S i) r
  end.
Proof.
  intros Hp Hs. unfold image_objects. rewrite (drop_S _ (p, s)); [done|].
  apply lookup_zip_with_Some. by exists p, s.
Qed.

Lemma point_address i p : Points pm !! i = Some p → u32 (Point_IOA p) = Point_IOA p ∧
  0 ≤ u32 (Point_IOA p) ≤ 0xffffff.
Proof.
  intros Hp. pose proof (mv_points _ Hpm) as Hf. eapply Forall_lookup_1 in Hf as [Hok _]; [|done].
  pose proof (pv_ioa _ Hok). unfold u32. rewrite Z.mod_small by lia. lia.
Qed.

(** The objects of the messages sent and of the open builder are those of the
    points taken. *)
Definition image_post (conn : option Z) (oa : Z) (cyclic : bool) (now : Z) (k : Kind) (i : nat)
    (b : option Builder) (r : RTU) (b' : option Builder) (r' : RTU) : Prop :=
  open_builder k cyclic oa b' ∧ imaged cyclic i r r' ∧
  ∃ ms, Forall (image_msg k cyclic oa) ms ∧ sent_ r' = (sent_ r ++ emit (targets conn r) ms)%list ∧
    (concat (msg_objects <$> ms) ++ open_objects b')%list =
    (open_objects b ++ image_objects cyclic now k i r)%list.

(** One point done: its objects [o] are in messages or in the open builder. *)
Definition advanced (conn : option Z) (oa : Z) (cyclic : bool) (k : Kind) (i : nat) (o : list Object)
    (b : option Builder) (r : RTU) (b1 : option Builder) (r1 : RTU) : Prop :=
  open_builder k cyclic oa b1 ∧ imaged cyclic i r r1 ∧ drop (S i) (points r1) = drop (S i) (points r) ∧
  ∃ ms, Forall (image_msg k cyclic oa) ms ∧ sent_ r1 = (sent_ r ++ emit (targets conn r) ms)%list ∧
    (concat (msg_objects <$> ms) ++ open_objects b1)%list = (open_objects b ++ o)%list.

Lemma advanced_still conn oa cyclic k i b r r1 : open_builder k cyclic oa b → imaged cyclic i r r1 →
  drop (S i) (points r1) = drop (S i) (points r) → sent_ r1 = sent_ r →
  advanced conn oa cyclic k i [] b r b r1.
Proof.
  intros Hb Hi Hd Hs. split_and!; [done|done|done|]. exists []. unfold emit. cbn. rewrite !app_nil_r.
  split_and!; [by apply Forall_nil_2|done|done].
Qed.

Lemma image_post_step conn oa cyclic now k i b b1 r r1 b' r' o :
  shape r → advanced conn oa cyclic k i o b r b1 r1 →
  image_objects cyclic now k i r = (o ++ image_objects cyclic now k (S i) r)%list →
  image_post conn oa cyclic now k (S i) b1 r1 b' r' → image_post conn oa cyclic now k i b r b' r'.
Proof.
  intros Hsh (Hb1 & Him & Hdrop & ms & Hms & Hs & Ho) Hobj (Hb & Him' & ms' & Hms' & Hs' & Ho').
  split_and!; [done|by eapply imaged_trans; [|done|exact Him|exact Him']; lia|].
  exists (ms ++ ms')%list. split_and!; [by apply Forall_app| |].
  - rewrite Hs', Hs, emit_app, app_assoc. f_equal. destruct Him as [[_ _ Hc _] _ _ _].
    destruct conn; [done|]. cbn [targets]. unfold control in Hc. by injection Hc as _ _ -> _ _.
  - rewrite fmap_app, concat_app, <- app_assoc, Ho', (image_objects_same _ _ _ _ _ _ Hdrop), Hobj.
    by rewrite !app_assoc, Ho.
Qed.

Lemma quality_value p s s' : value_of s' = value_of s → pointQuality s' p = pointQuality s p.
Proof.
  unfold value_of, raw_of, pointQuality. intros H. injection H as _ _ _ _ _ Hm Hi Hu Hh. by rewrite Hm, Hi, Hu, Hh.
Qed.
Lemma plain_element_value p s s' : value_of s' = value_of s → plain_element p s' = plain_element p s.
Proof.
  intros H. unfold plain_element. rewrite (quality_value p s s' H).
  unfold value_of, raw_of in H. injection H as Hd Hs Hf Hst Ht _ _ _ _. by rewrite Hd, Hs, Hf, Hst, Ht.
Qed.
Lemma step_value s s' : value_of s' = value_of s → step_ s' = step_ s.
Proof. by unfold value_of, raw_of; intros [=]. Qed.
Lemma settled_cyclic now p s : settled p s → settled p (set_cyclic now p s).
Proof. unfold settled. intros [_ H]. split; [done|]. by destruct (Point_Kind p). Qed.

(** A point taken: its element appended, its cyclic schedule moved. *)
Lemma image_take_ok {B} conn oa cyclic now k i p s s1 b X r (rest : option Builder → R B) Q :
  shape r → monitoring k → open_builder k cyclic oa b → Point_Kind p = k → Points pm !! i = Some p →
  points r !! i = Some s → value_of s1 = value_of s → (settled p s → settled p s1) →
  (∀ typ e b1 r1, plain_element p s = Ok (typ, e) →
     advanced conn oa cyclic k i [mkObject (u32 (Point_IOA p)) e] b r (Some b1) r1 →
     wpe (rest (Some b1)) Q X r1) →
  wpe (do? st_when cyclic (put_point (Z.of_nat i) s1) in
       let? '(typ, e) := element pm station (Z.of_nat i) false in
       let h := mkHeader typ false 0 (if cyclic then Periodic else InterrogatedStation) false false oa (u16 (CA pm)) in
       let? b := append_image admits conn b h (mkObject (u32 (Point_IOA p)) e) in
       do? st_when cyclic (let? s := point_at (Z.of_nat i) in put_point (Z.of_nat i) (set_cyclic now p s)) in
       rest (Some b)) Q X r.
Proof.
  intros Hsh Hk Hb Hkind Hp Hs Hv Hset HQ. pose proof (lookup_lt_Some _ _ _ Hs) as Hlt.
  set (r0 := if cyclic then set_points (<[i := s1]> (points r)) r else r).
  assert (imaged cyclic i r r0 ∧ drop (S i) (points r0) = drop (S i) (points r) ∧ sent_ r0 = sent_ r ∧
    ∃ s2, points r0 !! i = Some s2 ∧ value_of s2 = value_of s) as (Him0 & Hd0 & Hs0 & s2 & Hs2 & Hv2).
  { subst r0. destruct cyclic; [|split_and!; [apply imaged_refl|done|done|by exists s]].
    split_and!; [by eapply imaged_put|cbn; apply drop_insert_lt; lia|done|].
    exists s1. split; [by apply list_lookup_insert_eq|done]. }
  assert (wpe (st_when cyclic (put_point (Z.of_nat i) s1)) (λ _ r', r' = r0) X r) as Hput.
  { subst r0. destruct cyclic; [|done]. apply wpe_upd. by rewrite Nat2Z.id. }
  apply wpe_bind. eapply wpe_mono; [exact Hput| |done]. intros [] ? ->.
  subst k. destruct (shape_point r i p Hsh Hp) as (s' & Hs' & Hr).
  rewrite Hs in Hs'. injection Hs' as <-.
  apply wpe_bind. eapply wpe_element; [exact Hp|exact Hs2|rewrite (step_value s s2 Hv2); exact Hr|].
  intros typ e ut He Hut. rewrite (Hut eq_refl). cbn [andb]. rewrite (plain_element_value p s s2) in He by done.
  set (r0' := mkRTU _ _ _ _ _ _ _ _ _ _ _). assert (r0' = r0) as -> by (subst r0'; by destruct r0).
  destruct (plain_element_type p s typ e Hk He) as (-> & payload & Hpay & Hlen).
  destruct (point_address i p Hp) as [_ Ha].
  apply wpe_bind. eapply (append_image_ok X _ cyclic oa conn b _ payload); [done|done|exact Hpay|done|exact Ha|].
  intros b' ms sf Hb' Hms Hobj. set (r1 := sending _ _ _).
  assert (started r0 = started r) as Hst.
  { destruct Him0 as [[_ _ Hc _] _ _ _]. unfold control in Hc. by injection Hc. }
  assert (imaged cyclic i r r1) as Him1 by (eapply (imaged_trans cyclic i i); [lia|done|exact Him0|by eapply imaged_sending, emit_reports]).
  assert (sent_ r1 = (sent_ r ++ emit (targets conn r) ms)%list) as Hs1.
  { cbn. rewrite Hs0. destruct conn; [done|]. cbn [targets]. by rewrite Hst. }
  apply wpe_bind. apply wpe_when; intros Hc.
  - apply wpe_bind. eapply wpe_point_at; [exact Hs2|]. apply wpe_upd. rewrite Nat2Z.id.
    eapply HQ; [exact He|]. split_and!; [done| | |].
    + eapply (imaged_trans cyclic i i); [lia|done|exact Him1|].
      apply imaged_put with (s := s2) (p := p); [done|done|done|done|apply settled_cyclic].
    + cbn. rewrite drop_insert_lt by lia. exact Hd0.
    + exists ms. split_and!; [done|done|exact Hobj].
  - eapply HQ; [exact He|]. split_and!; [done|done|exact Hd0|].
    exists ms. split_and!; [done|done|exact Hobj].
Qed.

Lemma image_points_ok conn oa cyclic now k i pts b X r :
  shape r → monitoring k → drop i (Points pm) = pts → open_builder k cyclic oa b →
  wpe (image_points pm station admits conn oa cyclic now k (Z.of_nat i) pts b)
    (image_post conn oa cyclic now k i b r) X r.
Proof.
  intros Hsh Hk. revert i b r Hsh. induction pts as [|p pts IH]; intros i b r Hsh Hd Hb; cbn [image_points].
  { apply wpe_ret. split_and!; [done|apply imaged_refl|]. exists []. cbn. rewrite app_nil_r.
    split_and!; [by apply Forall_nil_2|done|]. unfold image_objects. rewrite zip_with_drop, Hd. cbn.
    by rewrite app_nil_r. }
  assert (Points pm !! i = Some p) as Hp.
  { pose proof (lookup_drop (Points pm) i 0) as Hl. rewrite Hd, Nat.add_0_r in Hl. by symmetry. }
  assert (drop (S i) (Points pm) = pts) as Hd'.
  { replace (S i) with (i + 1)%nat by lia. by rewrite <- drop_drop, Hd. }
  destruct (shape_point r i p Hsh Hp) as (s & Hs & _).
  pose proof (image_objects_cons cyclic now k i p s r Hp Hs) as Hcons.
  unfold image_object in Hcons. cbn [fst snd] in Hcons.
  replace (Z.of_nat i + 1) with (Z.of_nat (S i)) by lia.
  assert (∀ b1 r1 o, advanced conn oa cyclic k i o b r b1 r1 →
    image_objects cyclic now k i r = (o ++ image_objects cyclic now k (S i) r)%list →
    wpe (image_points pm station admits conn oa cyclic now k (Z.of_nat (S i)) pts b1)
      (image_post conn oa cyclic now k i b r) X r1) as Hgo.
  { intros b1 r1 o Ha Hob. eapply wpe_mono; [apply IH|..]; [|done|apply Ha| |done].
    - eapply shape_moves; [exact Hsh|]. apply reports_move, Ha.
    - intros b2 r2. by eapply image_post_step. }
  assert (∀ r1, imaged cyclic i r r1 → drop (S i) (points r1) = drop (S i) (points r) → sent_ r1 = sent_ r →
    due cyclic now k p s = false →
    wpe (image_points pm station admits conn oa cyclic now k (Z.of_nat (S i)) pts b)
      (image_post conn oa cyclic now k i b r) X r1) as Hskip.
  { intros r1 Him Hdr Hse Hdue. apply Hgo with (o := []); [by apply advanced_still|]. by rewrite Hcons, Hdue. }
  destruct (negb (bool_decide (Point_Kind p = k)) || (cyclic && negb (bool_decide (k = PointMap.Float)))) eqn:Hsel.
  { apply Hskip; [apply imaged_refl|done|done|]. unfold due.
    destruct (bool_decide (Point_Kind p = k)), cyclic, (bool_decide (k = PointMap.Float)); done. }
  apply orb_false_iff in Hsel as [Hkind Hcyc]. apply negb_false_iff, bool_decide_eq_true in Hkind.
  apply wpe_bind. eapply wpe_point_at; [done|].
  set (s1 := if cyclic && _ then _ else s).
  assert (value_of s1 = value_of s ∧ (settled p s → settled p s1)) as [Hv1 Hset1]
    by (subst s1; destruct (cyclic && (nextCyclic s =? 0)); (split; [done|exact (λ h, h)])).
  assert (cyclic = true → 1000 ≤ CyclicMS p) as Hper.
  { intros ->. pose proof (mv_points _ Hpm) as Hf. eapply Forall_lookup_1 in Hf as [Hok _]; [|exact Hp].
    apply negb_false_iff, bool_decide_eq_true in Hcyc. apply (pv_cyclic _ Hok). congruence. }
  assert (due cyclic now k p s = negb (cyclic && (now <? nextCyclic s1))) as Hdue.
  { unfold due. rewrite Hkind, bool_decide_true by done. subst s1. destruct cyclic; [|done].
    cbn [andb negb orb] in *. apply negb_false_iff in Hcyc. rewrite Hcyc. specialize (Hper eq_refl).
    destruct (Z.eqb_spec (nextCyclic s) 0) as [Hz|Hz]; cbn [negb andb nextCyclic set_nextCyclic].
    - rewrite (proj2 (Z.ltb_lt _ _)) by lia. done.
    - by rewrite Z.leb_antisym. }
  destruct (cyclic && (now <? nextCyclic s1)) eqn:Hnd.
  - apply andb_true_iff in Hnd as [-> _]. apply wpe_bind, wpe_upd. rewrite Nat2Z.id.
    apply Hskip; [by apply imaged_put with (s := s) (p := p)|cbn; apply drop_insert_lt; lia|done|by rewrite Hdue].
  - eapply (image_take_ok conn oa cyclic now k i p s s1); [done..|].
    intros typ e b1 r1 He Ha. eapply Hgo; [exact Ha|]. by rewrite Hcons, Hdue, He.
Qed.

Lemma image_kinds_ok conn oa cyclic now ks X r : shape r → Forall monitoring ks →
  wpe (image_kinds pm station admits conn oa cyclic now ks) (λ _ r', imaged cyclic 0 r r' ∧
    (cyclic = false → ∃ mss, Forall2 (λ k ms, Forall (image_msg k cyclic oa) ms ∧
       concat (msg_objects <$> ms) = image_objects cyclic now k 0 r) ks mss ∧
       sent_ r' = (sent_ r ++ emit (targets conn r) (concat mss))%list)) X r.
Proof.
  revert r. induction ks as [|k ks IH]; intros r Hsh Hks; cbn [image_kinds].
  { apply wpe_ret. split; [apply imaged_refl|]. intros _. exists []. split; [constructor|]. cbn. by rewrite app_nil_r. }
  apply Forall_cons in Hks as [Hk Hks].
  apply wpe_bind. eapply wpe_mono; [apply (image_points_ok conn oa cyclic now k 0); done|..]; [|done].
  intros b r1 (Hb & Him & ms & Hms & Hs & Ho). apply wpe_bind.
  eapply (flush_ok _ k cyclic oa); [exact Hb|]. intros ms' sf Hms' Ho'.
  set (r2 := sending _ _ _).
  assert (imaged cyclic 0 r r2) as Him2
    by (eapply (imaged_trans cyclic 0 0); [lia|done|exact Him|by eapply imaged_sending, emit_reports]).
  assert (targets conn r1 = targets conn r ∧ targets conn r2 = targets conn r) as [Ht1 Ht2].
  { destruct conn; [done|]. cbn. destruct Him as [[_ _ Hc _] _ _ _]. unfold control in Hc.
    injection Hc as _ _ Hst _ _. by rewrite Hst. }
  eapply wpe_mono; [apply IH; [|done]|..]; [| |done].
  { eapply shape_moves; [exact Hsh|]. apply reports_move, Him2. }
  intros [] r' [Him3 Hm3]. split; [eapply (imaged_trans cyclic 0 0); [lia|done|exact Him2|exact Him3]|].
  intros Hc. destruct (Hm3 Hc) as (mss & Hall & Hs3).
  assert (points r2 = points r) as Hpts by by apply (im_still _ _ _ _ Him2).
  exists ((ms ++ ms') :: mss)%list. split.
  - constructor.
    + split; [by apply Forall_app|]. rewrite fmap_app, concat_app, Ho', Ho. done.
    + eapply Forall2_impl; [exact Hall|]. cbn. intros k' ms2 [H1 H2]. split; [done|].
      rewrite H2. apply image_objects_same. by rewrite Hpts.
  - rewrite Hs3, Ht2. cbn [concat]. rewrite !emit_app, !app_assoc. f_equal. cbn. by rewrite Hs, Ht1.
Qed.

(** *** A whole evaluation: every baseline follows *)
Lemma evaluate_ok now X r : shape r →
  wpe (evaluate pm station admits now) (λ _ r', moves r r' ∧
    ∀ j p s, Points pm !! j = Some p → points r' !! j = Some s → settled p s) X r.
Proof.
  intros Hsh. unfold evaluate. apply wpe_bind. change 0 with (Z.of_nat 0).
  eapply wpe_mono; [apply evaluate_devices_ok; done|..]; [|done]. intros [] r1 (Hm1 & _ & _).
  pose proof (shape_moves _ _ _ Hsh Hm1) as Hsh1.
  apply wpe_bind. eapply wpe_mono; [apply evaluate_points_ok; done|..]; [|done]. intros [] r2 (Hm2 & _ & Hset).
  pose proof (shape_moves _ _ _ Hsh1 Hm2) as Hsh2. assert (moves r r2) as Hm by by etrans.
  apply wpe_build. eapply wpe_mono; [apply (image_kinds_ok None 0 true now image_order)|..].
  - exact Hsh2.
  - unfold image_order, monitoring. repeat (apply Forall_cons; split; [set_solver|]). by apply Forall_nil_2.
  - intros [] r3 [[Hr _ _ Hk] _]. split; [etrans; [exact Hm|by apply reports_move]|].
    intros j p s Hp Hs. destruct (shape_point r2 j p Hsh2 Hp) as (s2 & Hs2 & _).
    eapply Hk; [exact Hp|exact Hs2|exact Hs|]. eapply Hset; [lia|exact Hp|exact Hs2].
  - exact (λ _ h, h).
Qed.

(** An interrogation sends the image to the asking connection. *)
Lemma interrogation_image_ok conn oa X r : shape r →
  wpe (reportImage pm station admits (Some conn) oa false 0) (λ _ r',
    imaged false 0 r r' ∧ ∃ mss, Forall2 (λ k ms, Forall (image_msg k false oa) ms ∧
       concat (msg_objects <$> ms) = image_objects false 0 k 0 r) image_order mss ∧
       sent_ r' = (sent_ r ++ ((λ m, (conn, m)) <$> concat mss))%list) X r.
Proof.
  intros Hsh. eapply wpe_mono; [apply (image_kinds_ok (Some conn) oa false 0 image_order); [exact Hsh|]|..].
  - unfold image_order, monitoring. repeat (apply Forall_cons; split; [set_solver|]). by apply Forall_nil_2.
  - intros [] r' [Him Hm]. split; [done|]. destruct (Hm eq_refl) as (mss & Hall & Hs). exists mss.
    split; [done|]. rewrite Hs. f_equal. unfold emit. cbn [targets].
    clear. induction (concat mss) as [|m ms IH]; [done|]. exact (f_equal (cons (conn, m)) IH).
  - exact (λ _ h, h).
Qed.

(** ** Commands *)

(** Operations that answer and leave the image alone. *)
Record quiet (r r' : RTU) : Prop := {
  qu_points : points r' = points r;
  qu_devices : devices r' = devices r;
  qu_started : started r' = started r;
  qu_nows : (nows r ≤ nows r')%nat;
  qu_sent : sends (λ _, True) r r'
}.

#[export] Instance quiet_preorder : PreOrder quiet.
Proof.
  split; [intros r; constructor; reflexivity|]. intros r1 r2 r3 [] []. constructor; etrans; eauto.
Qed.

(** A reply: nothing but a message. *)
Record replied (r r' : RTU) : Prop := {
  re_quiet : quiet r r';
  re_sel : sel r' = sel r;
  re_pending : pending r' = pending r;
  re_nows : nows r' = nows r
}.

#[export] Instance replied_preorder : PreOrder replied.
Proof.
  split; [intros r; constructor; reflexivity|]. intros r1 r2 r3 [] []. constructor; etrans; eauto.
Qed.

Lemma reply_ok conn m cot negative X r :
  wpe (reply admits conn m cot negative) (λ _ r', replied r r' ∧
    ∀ m', Mirror m cot negative = Ok m' → sent_ r' = (sent_ r ++ [(conn, m')])%list) X r.
Proof.
  apply wpe_build, wpe_bind, wpe_lift; [apply Mirror_safe| |].
  - intros m' Hm. apply wpe_send. intros sf. split; [|by intros ? [= <-]%(eq_trans (eq_sym Hm))].
    constructor; [|done..]. constructor; [done..|]. eexists. split; [done|]. by apply Forall_singleton.
  - intros e He. split; [|by rewrite He]. constructor; [|done..]. constructor; auto with go.
Qed.

Lemma pendingReply_ok cot negative X r :
  wpe (pendingReply admits cot negative) (λ _ r', replied r r') X r.
Proof.
  apply wpe_bind, wpe_get, wpe_when; intros _; [|done].
  eapply wpe_mono; [apply reply_ok| |done]. by intros [] r' [? _].
Qed.

Definition ticked (r : RTU) : RTU :=
  mkRTU (points r) (devices r) (started r) (sel r) (pending r) (sendFailed r) (buildFailed r)
    (S (nows r)) (utcs r) (sent_ r) (closes r).
Lemma wpe_Now X (Q : Z → RTU → Prop) r : Q (clock (nows r)) (ticked r) → wpe (Now clock) Q X r.
Proof. done. Qed.
Lemma quiet_ticked r : quiet r (ticked r).
Proof. constructor; cbn; auto with go. Qed.
Lemma quiet_sel x r : quiet r (set_sel x r).
Proof. constructor; cbn; auto with go. Qed.
Lemma quiet_pending x r : quiet r (set_pending x r).
Proof. constructor; cbn; auto with go. Qed.
#[local] Hint Resolve re_quiet quiet_ticked quiet_sel quiet_pending : go.

(** The activation of a configured command in a message: its index, the value
    and whether it selects. *)
Definition activation (m : Message) : option (nat * Z * bool) :=
  match m with
  | ASDUMessage (mkASDU h [o]) =>
      match command_index pm (Address o) with
      | Some (i, c) =>
          let q := qualifier (Element_ o) in
          let value := if bool_decide (Command_Kind c = PointMap.SingleCommand)
                       then Z.land (CQ_State q) 1 else CQ_State q in
          if (Type_ h =? command_type (Command_Kind c)) && negb (Test h) && (Cause h =? Activation) &&
             (CQ_QU q =? 0)
          then Some (i, value, CQ_Select q) else None
      | None => None
      end
  | _ => None
  end.

Definition expire (now : Z) (s : selection) : selection :=
  if sel_active s && (sel_deadline s <=? now) then no_selection else s.

(** The copy of a request that a pending command keeps for its answers. *)
Definition keeps (m owned : Message) : Prop :=
  ∃ h, Message_GetHeader m = Ok h ∧ Mirror m (Cause h) (Negative h) = Ok owned.

(** What a command message does to the selection and the pending command. *)
Inductive commanded (conn : Z) (m : Message) (now : Z) (s0 : selection) (p0 : pendingCommand)
    : selection → pendingCommand → Prop :=
| cmd_same : commanded conn m now s0 p0 (expire now s0) p0
| cmd_clear : commanded conn m now s0 p0 no_selection p0
| cmd_select i v seq :
    activation m = Some (i, v, true) →
    commanded conn m now s0 p0
      (mkSelection true (Z.of_nat i) v 0 conn (now + SelectTimeoutMS pm) now seq) p0
| cmd_execute i v owned deadline :
    activation m = Some (i, v, false) → active p0 = false →
    sel_active (expire now s0) = true → sel_id s0 = conn → sel_index s0 = Z.of_nat i →
    sel_value s0 = v → keeps m owned →
    commanded conn m now s0 p0 no_selection
      (mkPending true (Z.of_nat i) v 0 conn owned commandStart (sel_pollSeq s0) (selectedAt s0) deadline).

Lemma command_device i c : Commands pm !! i = Some c → SBO c = true ∧
  ∃ k dev, Command_DeviceIndex c = Z.of_nat k ∧ Devices pm !! k = Some dev.
Proof.
  intros Hc. pose proof (mv_commands _ Hpm) as Hf.
  eapply Forall_lookup_1 in Hf as (_ & _ & _ & Hs & _ & _ & Hd & _); [|done]. split; [done|].
  destruct (lookup_lt_is_Some_2 (Devices pm) (Z.to_nat (Command_DeviceIndex c))) as [dev Hdev].
  { unfold zlen in Hd. lia. }
  exists (Z.to_nat (Command_DeviceIndex c)), dev. split; [lia|done].
Qed.

Section Command.
Context (conn : Z) (m : Message) (i : nat) (c : Command) (v qu now : Z) (h : Header) (r r1 : RTU).
Context (Hc : Commands pm !! i = Some c) (Hsh : shape r) (Hh : Message_GetHeader m = Ok h).
Context (Hq : quiet r r1) (Hsel : sel r1 = expire now (sel r)) (Hpend : pending r1 = pending r).
Let Post (r' : RTU) := quiet r r' ∧ commanded conn m now (sel r) (pending r) (sel r') (pending r').

Lemma command_reply cot negative X r2 :
  quiet r r2 → commanded conn m now (sel r) (pending r) (sel r2) (pending r2) →
  wpe (reply admits conn m cot negative) (λ _, Post) X r2.
Proof.
  intros Hq2 Hcmd. eapply wpe_mono; [apply reply_ok| |done]. intros [] r' [[Hr Hs Hp _] _].
  split; [by etrans|]. by rewrite Hs, Hp.
Qed.

Lemma same_commanded : commanded conn m now (sel r) (pending r) (sel r1) (pending r1).
Proof. rewrite Hsel, Hpend. constructor. Qed.

Lemma select_command_ok owns X : activation m = Some (i, v, true) →
  wpe (select_command pm admits conn m c (Z.of_nat i) v 0 now owns) (λ _, Post) X r1.
Proof.
  intros Ha. pose proof same_commanded as Hsame. unfold select_command. apply wpe_bind, wpe_get.
  destruct (negb (SBO c)); [by apply command_reply|].
  destruct (active (pending r1)); [by apply command_reply|].
  destruct (sel_active (sel r1) && negb owns); [by apply command_reply|].
  destruct (command_device i c Hc) as (_ & k & dev & Hk & Hdev).
  destruct (lookup_lt_is_Some_2 (devices r1) k) as [d Hd].
  { rewrite (qu_devices _ _ Hq), (sh_devices _ Hsh). by eapply lookup_lt_Some. }
  apply wpe_bind. rewrite Hk. eapply wpe_device_at; [exact Hd|]. apply wpe_bind, wpe_upd.
  apply command_reply; [etrans; [exact Hq|apply quiet_sel]|]. cbn. rewrite Hpend. by apply cmd_select.
Qed.

Lemma execute_command_ok X : activation m = Some (i, v, false) →
  let owns := sel_active (sel r1) && (sel_id (sel r1) =? conn) && (sel_index (sel r1) =? Z.of_nat i) in
  wpe (execute_command pm admits conn m h c (Z.of_nat i) v 0 now owns) (λ _, Post) X r1.
Proof.
  intros Ha owns. pose proof same_commanded as Hsame. unfold execute_command. apply wpe_bind, wpe_get.
  destruct (command_device i c Hc) as (Hsbo & k & dev & Hk & Hdev). rewrite Hsbo. cbn [andb].
  destruct (negb owns) eqn:Hown; [by apply command_reply|].
  destruct (negb (v =? _) || _) eqn:Hval.
  { apply wpe_bind, wpe_upd. apply command_reply; [etrans; [exact Hq|apply quiet_sel]|].
    cbn. rewrite Hpend. constructor. }
  destruct (active (pending r1)) eqn:Hact; [by apply command_reply|].
  apply wpe_build, wpe_bind, wpe_lift; [apply Mirror_safe| |].
  - intros owned Hown'. apply wpe_bind, wpe_upd. apply wpe_bind. rewrite Hk. eapply wpe_index_nat; [exact Hdev|].
    apply wpe_upd. split.
    { etrans; [exact Hq|]. etrans; [apply quiet_sel|apply quiet_pending]. }
    cbn [sel pending set_sel set_pending]. subst owns. bool_facts.
    assert (sel_active (expire now (sel r)) = true) as Hx by by rewrite <- Hsel.
    assert (sel r1 = sel r) as Heq.
    { rewrite Hsel. revert Hx. unfold expire. by destruct (sel_active (sel r) && _). }
    rewrite Heq. apply cmd_execute; [done|by rewrite <- Hpend|done|by rewrite <- Heq..|by exists h].
  - intros e _. split; [|exact Hsame]. etrans; [exact Hq|]. constructor; auto with go.
Qed.
End Command.

Lemma handleCommand_ok conn m i c v qu selc h X r : shape r → Commands pm !! i = Some c →
  Message_GetHeader m = Ok h → (Cause h ≠ Deactivation → qu = 0 → activation m = Some (i, v, selc)) →
  wpe (handleCommand pm clock admits conn m (Z.of_nat i) v qu selc) (λ _ r', quiet r r' ∧
    commanded conn m (clock (nows r)) (sel r) (pending r) (sel r') (pending r')) X r.
Proof.
  intros Hsh Hc Hh Ha. unfold handleCommand. apply wpe_bind. eapply wpe_index_nat; [exact Hc|].
  apply wpe_bind, wpe_Now. apply wpe_bind, wpe_get. set (now := clock (nows r)). apply wpe_bind.
  eapply wpe_mono with (Q' := λ _ r1, quiet r r1 ∧ sel r1 = expire now (sel r) ∧ pending r1 = pending r)
    (X' := λ _, False); [|..|done].
  { apply wpe_when; intros He; unfold expire; cbn [sel ticked] in He; rewrite He; [apply wpe_upd|].
    - split_and!; [etrans; [apply quiet_ticked|apply quiet_sel]|done|done].
    - split_and!; [apply quiet_ticked|done|done]. }
  intros [] r1 (Hq & Hsel & Hp). apply wpe_bind, wpe_get.
  set (owns := sel_active _ && _ && _). apply wpe_bind. unfold lift, wpe at 1. rewrite Hh.
  pose proof (same_commanded conn m now r r1 Hsel Hp) as Hsame.
  destruct (Z.eqb_spec (Cause h) Deactivation) as [Hd|Hd].
  { destruct owns; [|by apply command_reply]. apply wpe_bind, wpe_upd.
    apply command_reply; [etrans; [exact Hq|apply quiet_sel]|]. cbn. rewrite Hp. constructor. }
  destruct (Z.eqb_spec qu 0) as [->|Hqu]; [|by apply command_reply]. cbn [negb orb].
  destruct (negb (bool_decide _) && _ && _); [by apply command_reply|].
  specialize (Ha Hd eq_refl). destruct selc.
  - by apply select_command_ok.
  - by apply execute_command_ok.
Qed.

(** What a received message leaves of the image and the connections. *)
Record handled (r r' : RTU) : Prop := {
  ha_points : raw_of <$> points r' = raw_of <$> points r;
  ha_devices : raw_device <$> devices r' = raw_device <$> devices r;
  ha_started : started r' = started r;
  ha_nows : (nows r ≤ nows r')%nat;
  ha_sent : sends (λ _, True) r r'
}.

#[export] Instance handled_preorder : PreOrder handled.
Proof.
  split; [intros r; constructor; reflexivity|]. intros r1 r2 r3 [] []. constructor; etrans; eauto.
Qed.

Lemma quiet_handled r r' : quiet r r' → handled r r'.
Proof. intros [Hp Hd Hs Hn Hse]. constructor; [by rewrite Hp|by rewrite Hd|done|done|done]. Qed.
Lemma moves_handled Pm r r' : moves_by Pm r r' → handled r r'.
Proof.
  intros [Hp Hd Hc Hs]. unfold control in Hc. injection Hc as _ _ Hst Hn _.
  constructor; [done|done|done|by rewrite Hn|by eapply sends_mono].
Qed.

Lemma shape_handled r r' : shape r → handled r r' → shape r'.
Proof.
  intros Hsh [Hp Hd _ _ Hs].
  apply (shape_moves (λ _, True) (mkRTU (points r) (devices r) (started r') (sel r') (pending r')
    (sendFailed r) (buildFailed r) (nows r') (utcs r) (sent_ r) (closes r'))).
  - by destruct Hsh; constructor.
  - by constructor.
Qed.

Lemma interrogation_ok conn m h X r : shape r →
  wpe (interrogation pm station admits conn m h) (λ _ r', handled r r' ∧ sel r' = sel r ∧
    pending r' = pending r) X r.
Proof.
  intros Hsh. unfold interrogation.
  assert (∀ cot negative, wpe (reply admits conn m cot negative) (λ _ r', handled r r' ∧ sel r' = sel r ∧
    pending r' = pending r) X r) as Hreply.
  { intros. eapply wpe_mono; [apply reply_ok| |done]. intros [] r' [[Hq Hs Hp _] _].
    split; [by apply quiet_handled|done]. }
  destruct (Count h =? 0).
  { apply wpe_upd. split; [|done]. constructor; cbn; auto with go. }
  destruct (Cause h =? Deactivation); [done|].
  destruct m as [[h0 os]|raw|]; [|done|done]. destruct os as [|o os]; [done|].
  destruct (Element_ o); try done. destruct (negb (QOI =? 20)); [done|].
  apply wpe_bind. eapply wpe_mono; [apply reply_ok| |done]. intros [] r1 [[Hq Hs Hp _] _].
  assert (shape r1) as Hsh1 by (eapply shape_handled; [exact Hsh|by apply quiet_handled]).
  apply wpe_bind, wpe_build.
  eapply wpe_mono; [apply (interrogation_image_ok conn (Originator h) (λ _, False)); exact Hsh1| |done].
  intros [] r2 [Him _]. assert (moves r1 r2) as Hm by apply reports_move, Him.
  pose proof (mv_control _ _ _ Hm) as Hc. unfold control in Hc. injection Hc as Hs2 Hp2 _ _ _.
  eapply wpe_mono; [apply reply_ok| |done]. intros [] r3 [[Hq3 Hs3 Hp3 _] _]. split; [|by rewrite Hs3, Hs2, Hs, Hp3, Hp2, Hp].
  etrans; [by apply quiet_handled|]. etrans; [by eapply moves_handled|by apply quiet_handled].
Qed.

Lemma command_index_spec ioa i c : command_index pm ioa = Some (i, c) → Commands pm !! i = Some c.
Proof. by intros (H & _)%list_find_Some. Qed.

Lemma command_message_ok conn m h X r : shape r → Message_GetHeader m = Ok h →
  wpe (command_message pm clock admits conn m h) (λ _ r', handled r r' ∧
    ((sel r' = sel r ∧ pending r' = pending r) ∨
     commanded conn m (clock (nows r)) (sel r) (pending r) (sel r') (pending r'))) X r.
Proof.
  intros Hsh Hh. unfold command_message.
  assert (∀ cot negative, wpe (reply admits conn m cot negative) (λ _ r', handled r r' ∧
    ((sel r' = sel r ∧ pending r' = pending r) ∨
     commanded conn m (clock (nows r)) (sel r) (pending r) (sel r') (pending r'))) X r) as Hreply.
  { intros. eapply wpe_mono; [apply reply_ok| |done]. intros [] r' [[Hq Hs Hp _] _].
    split; [by apply quiet_handled|by left]. }
  destruct (negb (Cause h =? Activation) && negb (Cause h =? Deactivation)) eqn:Hcause; [done|].
  destruct m as [[h0 os]|raw|]; [|done|done]. destruct os as [|o [|o' os]]; [done| |done].
  injection Hh as <-.
  destruct (command_index pm (Address o)) as [[i c]|] eqn:Hi; [|done].
  destruct (negb _ || _) eqn:Htype; [done|].
  eapply wpe_mono; [eapply handleCommand_ok| |done].
  - exact Hsh.
  - by eapply command_index_spec.
  - done.
  - intros Hd Hq. cbn [activation Cause Type_ Test ASDU_GetHeader set_Count AHeader] in *. rewrite Hi.
    apply orb_false_iff in Htype as [Ht1 Ht2]. apply negb_false_iff in Ht1. rewrite Ht1, Ht2, Hq.
    destruct (Z.eqb_spec (Cause h0) Activation) as [->|]; [done|].
    cbn [negb andb] in Hcause. by rewrite (proj2 (Z.eqb_neq _ _) Hd) in Hcause.
  - cbn. intros [] r' [Hq Hc]. split; [by apply quiet_handled|by right].
Qed.

Lemma receive_ok conn m X r : shape r → m ≠ NilMessage →
  wpe (receive pm clock station admits conn m) (λ _ r', handled r r' ∧
    ((sel r' = sel r ∧ pending r' = pending r) ∨
     commanded conn m (clock (nows r)) (sel r) (pending r) (sel r') (pending r'))) X r.
Proof.
  intros Hsh Hm. unfold receive. assert (∃ h, Message_GetHeader m = Ok h) as [h Hh] by (destruct m; eauto; done).
  apply wpe_bind. unfold wpe at 1, lift. rewrite Hh. case_if.
  { eapply wpe_mono; [by apply interrogation_ok| |done]. intros [] r' (H1 & H2 & H3). auto. }
  case_if; [by apply command_message_ok|]. apply wpe_ret. split; [reflexivity|by left].
Qed.

(** ** Progress of the pending command *)

(** A positive termination, the last message of a command that succeeded. *)
Definition terminates (m : Message) : Prop :=
  ∃ h, Message_GetHeader m = Ok h ∧ Cause h = ActivationTerm ∧ Negative h = false.

(** What the code has checked when it sends one. *)
Definition evidence (now : Z) (r : RTU) : Prop :=
  let p := pending r in
  active p = true ∧ phase p = commandFeedback ∧ now < deadline p ∧
  ∃ c fb dev d s, Commands pm !! Z.to_nat (index_ p) = Some c ∧
    Points pm !! Z.to_nat (FeedbackIndex c) = Some fb ∧
    Devices pm !! Z.to_nat (Command_DeviceIndex c) = Some dev ∧
    devices r !! Z.to_nat (Command_DeviceIndex c) = Some d ∧
    points r !! Z.to_nat (FeedbackIndex c) = Some s ∧
    fresh now p d dev s fb = true ∧ feedback_matches (Command_Kind c) s (expected p) = true.

Inductive advances (now : Z) (r : RTU) : pendingCommand → Prop :=
| adv_same : advances now r (pending r)
| adv_finish : phase (pending r) ≠ commandWriting → advances now r no_pending
| adv_write c s :
    phase (pending r) = commandStart →
    Commands pm !! Z.to_nat (index_ (pending r)) = Some c →
    points r !! Z.to_nat (FeedbackIndex c) = Some s →
    advances now r (set_phase commandWrite (set_expected
      (if bool_decide (Command_Kind c = RegulatingStep) then
         (if value_ (pending r) =? 1 then step_ s - 1 else step_ s + 1)
       else value_ (pending r)) (pending r))).

Lemma mirror_terminates m cot negative m' : Mirror m cot negative = Ok m' → terminates m' →
  cot = ActivationTerm ∧ negative = false.
Proof.
  unfold Mirror. intros H (h & Hh & Hc & Hn). apply guard_err_Ok in H as [_ H].
  apply bind_Ok in H as (copy & Hcopy & H).
  destruct copy as [a|raw|]; simplify_eq; cbn in Hh; simplify_eq; try by split.
Qed.

Lemma reply_sends conn m cot negative X r (P : Z * Message → Prop) :
  (∀ m', Mirror m cot negative = Ok m' → P (conn, m')) →
  wpe (reply admits conn m cot negative) (λ _ r', replied r r' ∧ sends_to P r r') X r.
Proof.
  intros HP. apply wpe_build, wpe_bind, wpe_lift; [apply Mirror_safe| |].
  - intros m' Hm. apply wpe_send. intros sf. split.
    + constructor; [|done..]. constructor; [done..|]. eexists. split; [done|]. by apply Forall_singleton.
    + eexists. split; [done|]. apply Forall_singleton. by apply HP.
  - intros e He. split; [|by apply sends_to_none]. constructor; [|done..]. constructor; auto with go.
Qed.

(** An answer goes to the connection that owns the pending command and repeats
    its request. *)
Lemma pendingReply_sends cot negative X r (P : Z * Message → Prop) :
  (∀ m, Mirror (request (pending r)) cot negative = Ok m → P (id_ (pending r), m)) →
  wpe (pendingReply admits cot negative) (λ _ r', replied r r' ∧ sends_to P r r') X r.
Proof.
  intros HP. apply wpe_bind, wpe_get, wpe_when; intros _; [by apply reply_sends|split; reflexivity].
Qed.

(** The positive termination of the pending command [p], to its owner. *)
Definition concludes (p : pendingCommand) (x : Z * Message) : Prop :=
  x.1 = id_ p ∧ Mirror (request p) ActivationTerm false = Ok x.2.

Definition progress (now : Z) (r r' : RTU) : Prop :=
  handled r r' ∧ sel r' = sel r ∧ nows r' = nows r ∧ advances now r (pending r') ∧
  sends_to (λ x, terminates x.2 → evidence now r ∧ concludes (pending r) x) r r'.

(** A negative answer that ends the command. *)
Definition refused (r r' : RTU) : Prop :=
  quiet r r' ∧ sel r' = sel r ∧ nows r' = nows r ∧ pending r' = no_pending ∧
  sends (λ m, ¬ terminates m) r r'.

Lemma refuse_ok cot X r : wpe (do? pendingReply admits cot true in finishCommand) (λ _, refused r) X r.
Proof.
  apply wpe_bind.
  eapply wpe_mono; [apply (pendingReply_sends _ _ (λ _, False) _ (λ x, ¬ terminates x.2))| |done].
  { intros m Hm Ht. by destruct (mirror_terminates _ _ _ _ Hm Ht). }
  intros [] r1 [[Hq Hs _ Hn] Hse]. apply wpe_upd. split_and!; [|done|done|done|exact Hse].
  etrans; [exact Hq|]. apply quiet_pending.
Qed.

Lemma refused_progress now r r1 r' : phase (pending r) ≠ commandWriting → quiet r r1 → sel r1 = sel r →
  nows r1 = nows r → sent_ r1 = sent_ r → refused r1 r' → progress now r r'.
Proof.
  intros Hph Hq Hs Hn Hse (H1 & H2 & H3 & H4 & H5). split_and!; [apply quiet_handled; by etrans|congruence|congruence| |].
  - rewrite H4. by apply adv_finish.
  - apply (transitivity (y := r1)); [by apply sends_to_none|].
    eapply sends_to_mono; [|exact H5]. naive_solver.
Qed.

Lemma command_parts p r : shape r → 0 ≤ index_ p < zlen (Commands pm) →
  ∃ i c k dev d j fb s, index_ p = Z.of_nat i ∧ Commands pm !! i = Some c ∧
    Command_DeviceIndex c = Z.of_nat k ∧ Devices pm !! k = Some dev ∧ devices r !! k = Some d ∧
    FeedbackIndex c = Z.of_nat j ∧ Points pm !! j = Some fb ∧ points r !! j = Some s ∧
    -64 ≤ step_ s ≤ 63.
Proof.
  intros Hsh Hi. destruct (lookup_lt_is_Some_2 (Commands pm) (Z.to_nat (index_ p))) as [c Hc].
  { unfold zlen in Hi. lia. }
  destruct (command_device _ c Hc) as (_ & k & dev & Hk & Hdev).
  destruct (lookup_lt_is_Some_2 (devices r) k) as [d Hd].
  { rewrite (sh_devices _ Hsh). by eapply lookup_lt_Some. }
  pose proof (mv_commands _ Hpm) as Hf.
  eapply Forall_lookup_1 in Hf as (_ & _ & _ & _ & _ & _ & _ & Hfi & fb & Hfb & _); [|done].
  destruct (shape_point r _ fb Hsh Hfb) as (s & Hs & Hstep).
  exists (Z.to_nat (index_ p)), c, k, dev, d, (Z.to_nat (FeedbackIndex c)), fb, s.
  split_and!; try done; lia.
Qed.

Lemma report_not_terminates m : is_report m → ¬ terminates m.
Proof.
  intros (h & os & -> & Hc) (h' & [= <-] & Hc' & _). cbn in Hc'. rewrite Hc' in Hc. vm_compute in Hc. set_solver.
Qed.

(** The command succeeds: its feedback is reported, then its termination. *)
Lemma complete_ok now j fb s X r : evidence now r → Points pm !! j = Some fb → points r !! j = Some s →
  -64 ≤ step_ s ≤ 63 →
  wpe (do? reportPoint pm station admits (Z.of_nat j) ReturnRemote in
       do? pendingReply admits ActivationTerm false in finishCommand) (λ _, progress now r) X r.
Proof.
  intros Hev Hfb Hs Hstep. apply wpe_bind.
  eapply wpe_mono; [apply reportPoint_ok; [by right|exact Hfb|exact Hs|exact Hstep]| |done].
  intros [] r1 (Hr & _). pose proof (rp_control _ _ _ Hr) as Hc. unfold control in Hc. injection Hc as Hs1 Hp1 _ Hn1 _.
  apply wpe_bind.
  eapply wpe_mono; [apply (pendingReply_sends _ _ (λ _, False) _
    (λ x, terminates x.2 → evidence now r ∧ concludes (pending r) x))| |done].
  { rewrite Hp1. intros m Hm _. by split; [|split]. }
  intros [] r2 [[Hq Hs2 _ Hn2] Hse]. apply wpe_upd. split_and!.
  - etrans; [eapply moves_handled; by apply reports_move|]. etrans; [by apply quiet_handled|].
    apply quiet_handled, quiet_pending.
  - cbn. congruence.
  - cbn. congruence.
  - apply adv_finish. destruct Hev as (_ & -> & _). done.
  - apply (transitivity (y := r1)); [|exact Hse].
    eapply sends_to_mono; [|exact (rp_sent _ _ _ Hr)]. intros x Hm Ht. by destruct (report_not_terminates x.2).
Qed.

Lemma progress_pending now p r : advances now r p → progress now r (set_pending p r).
Proof. intros Ha. split_and!; [apply quiet_handled, quiet_pending|done|done|done|by apply sends_to_none]. Qed.

Lemma advanceCommand_ok now X r : shape r → (active (pending r) = true → 0 ≤ index_ (pending r) < zlen (Commands pm)) →
  wpe (advanceCommand pm station admits now) (λ _, progress now r) X r.
Proof.
  intros Hsh Hidx. unfold advanceCommand. apply wpe_bind, wpe_get.
  assert (progress now r r) as Hrefl.
  { split_and!; [reflexivity|done|done|constructor|reflexivity]. }
  destruct (active (pending r)) eqn:Hact; cbn [negb]; [|done]. specialize (Hidx eq_refl).
  destruct (command_parts _ r Hsh Hidx)
    as (i & c & k & dev & d & j & fb & s & Hi & Hc & Hk & Hdev & Hd & Hj & Hfb & Hs & Hstep).
  rewrite Hi. apply wpe_bind. eapply wpe_index_nat; [exact Hc|]. rewrite Hj, Hk.
  apply wpe_bind. eapply wpe_index_nat; [exact Hfb|]. apply wpe_bind. eapply wpe_index_nat; [exact Hdev|].
  apply wpe_bind. eapply wpe_device_at; [exact Hd|]. apply wpe_bind. eapply wpe_point_at; [exact Hs|].
  assert (Commands pm !! Z.to_nat (index_ (pending r)) = Some c) as Hc' by by rewrite Hi, Nat2Z.id.
  assert (points r !! Z.to_nat (FeedbackIndex c) = Some s) as Hs' by by rewrite Hj, Nat2Z.id.
  destruct (((_ || _) && _)) eqn:Hdead.
  { eapply wpe_mono; [apply refuse_ok| |done]. intros [] r'. apply refused_progress; try done.
    intros Hw. by rewrite Hw in Hdead. }
  destruct (bool_decide (phase (pending r) = commandStart) && _) eqn:Hstart.
  { apply andb_true_iff in Hstart as [Hph%bool_decide_eq_true _].
    pose proof (adv_write now r c s Hph Hc' Hs') as Hadv.
    destruct (bool_decide (Command_Kind c = RegulatingStep)); [|apply wpe_upd; by apply progress_pending].
    apply wpe_bind, wpe_upd. destruct (transient s); [|apply wpe_upd; exact (progress_pending now _ r Hadv)].
    eapply wpe_mono; [apply refuse_ok| |done]. intros [] r'. apply refused_progress; try done.
    - by rewrite Hph.
    - apply quiet_pending. }
  destruct (bool_decide (phase (pending r) = commandFeedback)) eqn:Hfeed; [|done].
  apply bool_decide_eq_true in Hfeed.
  destruct (Z.leb_spec (deadline (pending r)) now) as [Hle|Hlt].
  { eapply wpe_mono; [apply refuse_ok| |done]. intros [] r'. apply refused_progress; try done. by rewrite Hfeed. }
  destruct (fresh now (pending r) d dev s fb && _) eqn:Hf; [|done]. apply andb_true_iff in Hf as [Hf1 Hf2].
  apply (complete_ok now j fb s); [|done..]. split_and!; [done|done|done|].
  exists c, fb, dev, d, s. rewrite Hj, Hk, !Nat2Z.id. by split_and!.
Qed.

Lemma tick_ok X r : shape r → (active (pending r) = true → 0 ≤ index_ (pending r) < zlen (Commands pm)) →
  let now := clock (nows r) in
  wpe (tick pm clock station admits) (λ _ r', ∃ r2,
    moves (set_sel (expire now (sel r)) (ticked r)) r2 ∧
    (∀ j p s, Points pm !! j = Some p → points r2 !! j = Some s → settled p s) ∧
    progress now r2 r') X r.
Proof.
  intros Hsh Hidx now. unfold tick. apply wpe_bind, wpe_Now. apply wpe_bind, wpe_get. fold now. apply wpe_bind.
  set (r1 := set_sel (expire now (sel r)) (ticked r)).
  apply wpe_mono with (Q' := λ _ r', r' = r1) (X' := λ _, False); [|..|done].
  { subst r1. unfold expire. apply wpe_when; intros He; cbn [sel ticked] in He; rewrite He; [by apply wpe_upd|].
    by destruct r. }
  intros [] ? ->. assert (shape r1) as Hsh1 by by destruct Hsh.
  apply wpe_bind. eapply wpe_mono; [by apply evaluate_ok| |done]. intros [] r2 [Hm Hset].
  pose proof (mv_control _ _ _ Hm) as Hc. unfold control in Hc. injection Hc as _ Hp2 _ _ _.
  eapply wpe_mono; [apply (advanceCommand_ok now (λ _, False) r2)| |done].
  - by eapply shape_moves.
  - rewrite Hp2. exact Hidx.
  - intros [] r' Hpr. by exists r2.
Qed.

(** *** Connections *)
Definition started_ok (l : list Z) : Prop := NoDup l ∧ (length l ≤ 8)%nat.

Lemma swap_remove_perm i x (l : list Z) : l !! i = Some x → Permutation l (x :: swap_remove i l).
Proof.
  unfold swap_remove. destruct (last l) as [y|] eqn:Hl.
  2:{ apply last_None in Hl as ->. done. }
  apply last_Some in Hl as [l' ->]. rewrite length_app. cbn [length]. intros Hi.
  replace (length l' + 1 - 1)%nat with (length l') by lia.
  destruct (decide (i < length l')%nat) as [Hlt|Hge].
  - rewrite insert_app_l by done. rewrite take_app_le by (rewrite length_insert; lia).
    rewrite take_ge by (rewrite length_insert; lia). rewrite lookup_app_l in Hi by done.
    rewrite (insert_take_drop _ _ _ Hlt), <- (take_drop_middle l' i x Hi) at 1.
    rewrite <- app_assoc. cbn [app]. rewrite <- Permutation_middle. apply Permutation_cons; [done|].
    apply Permutation_app; [done|]. symmetry. apply Permutation_cons_append.
  - assert (i = length l') as ->.
    { apply lookup_lt_Some in Hi. rewrite length_app in Hi. cbn in Hi. lia. }
    rewrite lookup_app_r, Nat.sub_diag in Hi by lia. injection Hi as ->.
    rewrite insert_app_r_alt, Nat.sub_diag by lia. rewrite take_app_le, take_ge by lia.
    symmetry. apply Permutation_cons_append.
Qed.

(** What a connection event leaves; a stopped connection is forgotten. *)
Record connected (conn : Z) (r r' : RTU) : Prop := {
  cn_points : points r' = points r;
  cn_devices : devices r' = devices r;
  cn_nows : nows r' = nows r;
  cn_sent : sent_ r' = sent_ r;
  cn_started : started_ok (started r');
  cn_sel : sel r' = sel r ∨ sel r' = no_selection;
  cn_pending : pending r' = pending r ∨ pending r' = set_id 0 (pending r)
}.
Definition forgotten (conn : Z) (r' : RTU) : Prop :=
  (sel_active (sel r') = true → sel_id (sel r') ≠ conn) ∧
  (active (pending r') = true → id_ (pending r') = conn → conn = 0) ∧ conn ∉ started r'.

Lemma disconnect_ok conn i X r : started_ok (started r) → started r !! i = Some conn →
  wpe (do? st_when (sel_active (sel r) && (sel_id (sel r) =? conn)) clearSelection in
       do? st_when (active (pending r) && (id_ (pending r) =? conn))
             (st_upd (set_pending (set_id 0 (pending r)))) in
       st_upd (set_started (swap_remove i (started r))))
    (λ _ r', connected conn r r' ∧ forgotten conn r') X r.
Proof.
  intros [Hnd Hlen] Hi. pose proof (swap_remove_perm i conn _ Hi) as Hperm.
  pose proof Hnd as Hnd'. rewrite Hperm in Hnd'. apply NoDup_cons in Hnd' as [Hni Hnd'].
  assert (started_ok (swap_remove i (started r))) as Hok.
  { split; [done|]. apply Permutation_length in Hperm. cbn in Hperm. lia. }
  apply wpe_bind. apply wpe_when; intros Hs; [apply wpe_upd|]; (apply wpe_bind; apply wpe_when; intros Hp;
    [apply wpe_upd|]); apply wpe_upd; (split; [constructor; cbn; auto|]); (split_and!; cbn; [| |exact Hni]);
    try done; try congruence.
  all: intros H1 H2; rewrite H1 in *; cbn [andb] in *; bool_facts; congruence.
Qed.

Lemma connectionEvent_ok conn kind X r : started_ok (started r) →
  wpe (connectionEvent conn kind) (λ _ r', connected conn r r' ∧
    (kind = Stopped ∨ kind = Closed → conn ∈ started r → forgotten conn r')) X r.
Proof.
  intros Hst. unfold connectionEvent. apply wpe_bind, wpe_get. unfold find_started.
  assert (connected conn r r) as Hrefl by (constructor; auto).
  destruct (list_find (λ c, c = conn) (started r)) as [[i x]|] eqn:Hf; cbn [fmap option_fmap option_map fst].
  - apply list_find_Some in Hf as (Hi & -> & _).
    assert (∀ X', wpe (do? st_when (sel_active (sel r) && (sel_id (sel r) =? conn)) clearSelection in
       do? st_when (active (pending r) && (id_ (pending r) =? conn))
             (st_upd (set_pending (set_id 0 (pending r)))) in
       st_upd (set_started (swap_remove i (started r))))
      (λ _ r', connected conn r r' ∧ (kind = Stopped ∨ kind = Closed → conn ∈ started r → forgotten conn r')) X' r) as Hd.
    { intros X'. eapply wpe_mono; [by apply (disconnect_ok conn i X')| |done]. intros [] r' [H1 H2]. auto. }
    destruct kind; try exact (Hd X); apply wpe_ret; (split; [done|]); by intros [|].
  - assert (conn ∉ started r) as Hn.
    { intros Hin. apply list_find_None in Hf. rewrite Forall_forall in Hf. by apply (Hf conn Hin). }
    destruct kind; try (apply wpe_ret; split; [done|]; by intros [|]).
    destruct (Nat.eqb_spec (length (started r)) 8); [apply wpe_ret; split; [done|]; by intros [|]|].
    apply wpe_upd. split; [|by intros [|]]. constructor; cbn; auto. destruct Hst as [Hnd Hlen]. split.
    + apply NoDup_app. split_and!; [done| |apply NoDup_singleton]. intros x Hx ->%list_elem_of_singleton. done.
    + rewrite length_app. cbn. lia.
Qed.

(** *** The southbound write *)
Lemma write_begin_ok d X r : shape r → (d < length (Devices pm))%nat →
  (active (pending r) = true → 0 ≤ index_ (pending r) < zlen (Commands pm)) →
  wpe (write_begin pm clock admits (Z.of_nat d)) (λ w r', quiet r r' ∧ sel r' = sel r ∧
    match w with
    | Some (c, dev, v) =>
        active (pending r) = true ∧ phase (pending r) = commandWrite ∧
        Commands pm !! Z.to_nat (index_ (pending r)) = Some c ∧ Command_DeviceIndex c = Z.of_nat d ∧
        Devices pm !! d = Some dev ∧ v = write_register (Command_Kind c) (value_ (pending r)) ∧
        pending r' = set_phase commandWriting (pending r)
    | None => pending r' = pending r ∨ (phase (pending r) = commandWrite ∧ pending r' = no_pending)
    end) X r.
Proof.
  intros Hsh Hd Hidx. unfold write_begin. apply wpe_bind, wpe_get.
  destruct (negb (active (pending r)) || _) eqn:Hact; [apply wpe_ret; by split_and!; [|..|left]|].
  apply orb_false_iff in Hact as [Ha%negb_false_iff Hp]. apply negb_false_iff, bool_decide_eq_true in Hp.
  specialize (Hidx Ha).
  destruct (command_parts _ r Hsh Hidx) as (i & c & k & _ & _ & _ & _ & _ & Hi & Hc & Hk & _).
  destruct (lookup_lt_is_Some_2 (Devices pm) d Hd) as [dev Hdev].
  rewrite Hi. apply wpe_bind. eapply wpe_index_nat; [exact Hc|].
  destruct (Z.eqb_spec (Command_DeviceIndex c) (Z.of_nat d)) as [Hcd|Hcd]; cbn [negb];
    [|apply wpe_ret; by split_and!; [|..|left]].
  apply wpe_bind, wpe_Now. destruct (deadline (pending r) <=? _).
  - set (Q := λ _ r', _).
    enough (wpe (do? pendingReply admits ActivationCon true in finishCommand) (λ _, Q None) X (ticked r)) as H.
    { revert H. unfold wpe, st_bind, st_ret. destruct (pendingReply _ _ _ _) as [[[]| | |] ?]; done. }
    eapply wpe_mono; [apply refuse_ok| |done]. intros [] r' (H1 & H2 & _ & H4 & _). subst Q.
    split_and!; [etrans; [apply quiet_ticked|exact H1]|by rewrite H2|by right].
  - apply wpe_bind, wpe_upd. apply wpe_bind. eapply wpe_index_nat; [exact Hdev|]. apply wpe_ret.
    split_and!; try done; [etrans; [apply quiet_ticked|apply quiet_pending]|by rewrite Nat2Z.id].
Qed.

(** The outcome of the write: a positive confirmation and the wait for
    feedback, or the end of the command. *)
Lemma write_end_ok d c dev res X r : shape r → (d < length (Devices pm))%nat →
  wpe (write_end clock admits (Z.of_nat d) c dev res) (λ _ r', quiet r r' ∧ sel r' = sel r ∧
    match RStatus res with
    | StatusOK => ∃ ds, devices r !! d = Some ds ∧ let p := pending r in
        pending r' = mkPending (active p) (index_ p) (value_ p) (expected p) (id_ p) (request p)
          commandFeedback (pollSeq ds) (clock (nows r)) (clock (S (nows r)) +
            (if bool_decide (Command_Kind c = RegulatingStep) then 5000 else TimeoutMS dev))
    | _ => pending r' = no_pending
    end) X r.
Proof.
  intros Hsh Hd. unfold write_end.
  destruct (lookup_lt_is_Some_2 (devices r) d) as [ds Hds]; [by rewrite (sh_devices _ Hsh)|].
  destruct (RStatus res).
  - apply wpe_bind. eapply wpe_mono; [apply pendingReply_ok| |done]. intros [] r1 [Hq Hs Hp Hn].
    apply wpe_bind. eapply wpe_device_at; [by rewrite (qu_devices _ _ Hq)|].
    apply wpe_bind, wpe_Now. apply wpe_bind, wpe_Now. apply wpe_upd. split_and!.
    + etrans; [exact Hq|]. etrans; [apply quiet_ticked|]. etrans; [apply quiet_ticked|apply quiet_pending].
    + done.
    + exists ds. split; [done|]. cbn. by rewrite Hp, Hn.
  - apply wpe_upd. split_and!; [apply quiet_pending|done|done].
  - apply wpe_upd. split_and!; [apply quiet_pending|done|done].
  - eapply wpe_mono; [apply refuse_ok| |done]. intros [] r' (H1 & H2 & _ & H4 & _). done.
Qed.

(** *** The image of a poll *)

(** The discrete value of a point is what its registers say. *)
Definition reads_as (p : Point) (base : Z) (regs : list Z) (s : pointState) : Prop :=
  let register a := regs !! Z.to_nat (a - base) in
  match Point_Format p with
  | DP => ∃ w, register (Point_Address p) = Some w ∧ dp s = Z.land w 3
  | Bit => ∃ w, register (Point_Address p) = Some w ∧ sp s = bit_set w (Point_Bit p)
  | Step => ∃ w t, register (Point_Address p) = Some w ∧ register (TransientAddress p) = Some t ∧
      transient s = bit_set t (TransientBit p) ∧ (valueInvalid s = false → step_ s = i16 w)
  | _ => True
  end.

Lemma in_poll_spec dev p : in_poll dev p = true →
  0 ≤ Point_Address p - PollStart dev < PollCount dev ∧
  (Point_Format p = F32 → Point_Address p - PollStart dev + 1 < PollCount dev) ∧
  (Point_Format p = Step → 0 ≤ TransientAddress p - PollStart dev < PollCount dev).
Proof.
  unfold in_poll. intros H. apply negb_true_iff in H.
  apply orb_false_iff in H as [H Ht]. apply orb_false_iff in H as [H He]. apply orb_false_iff in H as [_ Ha].
  bool_facts. split_and!.
  - destruct (bool_decide _); lia.
  - destruct (bool_decide _); lia.
  - intros Hs. rewrite bool_decide_true in He by done. lia.
  - intros Hs. rewrite bool_decide_true in Ht by done. cbn in Ht. bool_facts. lia.
Qed.

Lemma apply_value_ok dev p regs s X r : in_poll dev p = true → zlen regs = PollCount dev →
  -64 ≤ step_ s ≤ 63 →
  wpe (apply_value p (PollStart dev) regs s) (λ s' r', r' = r ∧ reads_as p (PollStart dev) regs s' ∧
    -64 ≤ step_ s' ≤ 63) X r.
Proof.
  intros (Ha & Hf & Ht)%in_poll_spec Hl Hs. unfold apply_value, reads_as. rewrite <- Hl in *.
  destruct (Point_Format p) eqn:Hfmt; try (apply wpe_ret; done);
    (apply wpe_bind; apply wpe_index; [lia|]; intros w Hw).
  - apply wpe_ret. split; [done|]. split; [by exists w|done].
  - apply wpe_ret. split; [done|]. split; [by exists w|done].
  - apply wpe_ret. done.
  - apply wpe_ret. done.
  - apply wpe_bind. apply wpe_index; [by apply Ht|]. intros t Hwt. apply wpe_ret. split; [done|].
    destruct ((i16 w <? -64) || (63 <? i16 w)) eqn:Hinv; cbn [negb].
    + split; [by exists w, t|done].
    + split; [by exists w, t|]. cbn. bool_facts. lia.
  - apply wpe_bind. apply wpe_index; [specialize (Hf eq_refl); lia|]. intros w' _. by apply wpe_ret.
Qed.

Lemma applyPoint_ok i p k dev regs X r : shape r → Points pm !! i = Some p →
  Point_DeviceIndex p = Z.of_nat k → Devices pm !! k = Some dev → zlen regs = PollCount dev →
  wpe (applyPoint pm (Z.of_nat i) regs) (λ _ r', ∃ s', r' = set_points (<[i := s']> (points r)) r ∧
    reads_as p (PollStart dev) regs s' ∧ -64 ≤ step_ s' ≤ 63) X r.
Proof.
  intros Hsh Hp Hk Hdev Hl. destruct (shape_point r i p Hsh Hp) as (s & Hs & Hstep).
  destruct (point_device i p Hp) as (k' & dev' & Hk' & Hdev' & Hin).
  assert (k' = k) as -> by lia. rewrite Hdev in Hdev'. injection Hdev' as <-.
  unfold applyPoint. apply wpe_bind. eapply wpe_index_nat; [exact Hp|]. apply wpe_bind.
  eapply wpe_point_at; [exact Hs|]. rewrite Hk. apply wpe_bind. eapply wpe_index_nat; [exact Hdev|].
  apply wpe_bind. eapply wpe_mono; [by apply (apply_value_ok dev p regs s (λ _, False))| |done].
  intros s1 r1 (-> & Hr & Hst). apply wpe_upd. rewrite Nat2Z.id. eexists. split; [done|].
  destruct (bool_decide (Point_Kind p = Float) && _) eqn:Hnan; [|done]. split; [|done].
  apply andb_true_iff in Hnan as [Hfl%bool_decide_eq_true _].
  pose proof (mv_points _ Hpm) as Hall. eapply Forall_lookup_1 in Hall as [Hok _]; [|exact Hp].
  pose proof (pv_format _ Hok) as Hfmt. rewrite Hfl in Hfmt. unfold reads_as. by destruct (Point_Format p).
Qed.

Lemma shape_put i s r : shape r → -64 ≤ step_ s ≤ 63 → shape (set_points (<[i := s]> (points r)) r).
Proof.
  intros [Hp Hd Hs] Hst. constructor; cbn; [by rewrite length_insert|done|]. by apply Forall_insert.
Qed.

(** The image of device [k] is what the registers say. *)
Definition image_from (k : nat) (dev : Device) (regs : list Z) (i : nat) (l : list pointState) : Prop :=
  ∀ j p s, (i ≤ j)%nat → Points pm !! j = Some p → l !! j = Some s → Point_DeviceIndex p = Z.of_nat k →
    reads_as p (PollStart dev) regs s.

Lemma reads_measurement p base regs b s : reads_as p base regs s →
  reads_as p base regs (set_measurementInvalid b s).
Proof. done. Qed.

(** One point of the loop over a poll's registers. *)
Lemma apply_one_ok k dev regs valid i p X r : shape r → Points pm !! i = Some p →
  Devices pm !! k = Some dev → zlen regs = PollCount dev →
  wpe (st_when (Point_DeviceIndex p =? Z.of_nat k)
         (do? applyPoint pm (Z.of_nat i) regs in
          st_when (Measurement p) (let? s := point_at (Z.of_nat i) in
            put_point (Z.of_nat i) (set_measurementInvalid (negb valid) s))))
    (λ _ r', ∃ s', r' = set_points (<[i := s']> (points r)) r ∧ -64 ≤ step_ s' ≤ 63 ∧
       (Point_DeviceIndex p = Z.of_nat k → reads_as p (PollStart dev) regs s') ∧
       (Point_DeviceIndex p ≠ Z.of_nat k → points r !! i = Some s')) X r.
Proof.
  intros Hsh Hp Hdev Hl. destruct (shape_point r i p Hsh Hp) as (s & Hs & Hstep).
  pose proof (lookup_lt_Some _ _ _ Hs) as Hlt. apply wpe_when; intros Hk; bool_facts.
  - apply wpe_bind. eapply wpe_mono; [by eapply (applyPoint_ok i p k dev regs (λ _, False))| |done].
    intros [] r1 (s1 & -> & Hr & Hst). apply wpe_when; intros _; [|by exists s1; auto].
    apply wpe_bind. eapply wpe_point_at; [by apply list_lookup_insert_eq|]. apply wpe_upd. rewrite Nat2Z.id.
    exists (set_measurementInvalid (negb valid) s1). split; [cbn; by rewrite list_insert_insert_eq|].
    split; [done|]. split; [by intros _; apply reads_measurement|done].
  - exists s. split; [rewrite list_insert_id by done; by destruct r|]. by split.
Qed.

Lemma apply_points_ok k dev regs valid i pts X r : shape r → Devices pm !! k = Some dev →
  zlen regs = PollCount dev → drop i (Points pm) = pts →
  wpe (apply_points pm (Z.of_nat k) regs valid (Z.of_nat i) pts) (λ _ r', shape r' ∧
    ∃ l, r' = set_points l r ∧ (∀ j, (j < i)%nat → l !! j = points r !! j) ∧ image_from k dev regs i l ∧
      (∀ j p, Points pm !! j = Some p → Point_DeviceIndex p ≠ Z.of_nat k → l !! j = points r !! j)) X r.
Proof.
  intros Hsh Hdev Hl. revert i r Hsh. induction pts as [|p pts IH]; intros i r Hsh Hd; cbn [apply_points].
  { apply wpe_ret. split; [done|]. exists (points r). split; [by destruct r|]. split; [done|].
    split; [|done]. intros j p s Hj Hp _ _. exfalso. apply lookup_lt_Some in Hp.
    assert (length (drop i (Points pm)) = 0%nat) as Hz by by rewrite Hd. rewrite length_drop in Hz. lia. }
  assert (Points pm !! i = Some p) as Hp.
  { pose proof (lookup_drop (Points pm) i 0) as Hlk. rewrite Hd, Nat.add_0_r in Hlk. by symmetry. }
  assert (drop (S i) (Points pm) = pts) as Hd'.
  { replace (S i) with (i + 1)%nat by lia. by rewrite <- drop_drop, Hd. }
  apply wpe_bind. eapply wpe_mono; [by apply (apply_one_ok k dev regs valid i p (λ _, False))| |done].
  intros [] r1 (s' & -> & Hst & Hra & Hot). replace (Z.of_nat i + 1) with (Z.of_nat (S i)) by lia.
  eapply wpe_mono; [apply IH; [by apply shape_put|exact Hd']| |done].
  intros [] r2 (Hsh2 & l & -> & Hlt & Him & Hoth). split; [done|]. exists l. split_and!; [done| | |].
  - intros j Hj. rewrite Hlt by lia. cbn. apply list_lookup_insert_ne. lia.
  - intros j p' s'' Hj Hp' Hs'' Hk'. destruct (decide (j = i)) as [->|Hne]; [|apply (Him j); [lia|done..]].
    destruct (shape_point r i p Hsh Hp) as (s0 & Hs0 & _). pose proof (lookup_lt_Some _ _ _ Hs0).
    rewrite Hlt in Hs'' by lia. cbn in Hs''. rewrite list_lookup_insert_eq in Hs'' by done.
    rewrite Hp in Hp'. injection Hp' as <-. injection Hs'' as <-. by apply Hra.
  - intros j p' Hp' Hne. rewrite (Hoth j p') by done. cbn. destruct (decide (j = i)) as [->|Hji].
    + rewrite Hp in Hp'. injection Hp' as <-. by rewrite list_insert_id by by apply Hot.
    + by apply list_lookup_insert_ne.
Qed.

(** A successful poll: the device state and the image are of its registers. *)
Definition polled (k : nat) (dev : Device) (regs : list Z) (began : Z) (r r' : RTU) : Prop :=
  shape r' ∧ sel r' = sel r ∧ pending r' = pending r ∧ started r' = started r ∧ sent_ r' = sent_ r ∧
  (nows r ≤ nows r')%nat ∧
  (∃ d d', devices r !! k = Some d ∧ devices r' = <[k := d']> (devices r) ∧
     pollStart d' = began ∧ pollSeq d' = u64 (pollSeq d + 1)) ∧
  image_from k dev regs 0 (points r') ∧
  (∀ j p, Points pm !! j = Some p → Point_DeviceIndex p ≠ Z.of_nat k → points r' !! j = points r !! j).

Lemma device_in_poll k dev : Devices pm !! k = Some dev → device_valid dev.
Proof. intros H. pose proof (mv_devices _ Hpm) as Hf. by eapply Forall_lookup_1 in Hf. Qed.

Lemma apply_poll_ok k dev regs began X r : shape r → Devices pm !! k = Some dev →
  zlen regs = PollCount dev →
  wpe (apply_poll pm clock (Z.of_nat k) regs began) (λ _ r', polled k dev regs began r r') X r.
Proof.
  intros Hsh Hdev Hl. pose proof (device_in_poll k dev Hdev) as Hv.
  destruct (lookup_lt_is_Some_2 (devices r) k) as [d Hd].
  { rewrite (sh_devices _ Hsh). by eapply lookup_lt_Some. }
  unfold apply_poll. apply wpe_bind. eapply wpe_index_nat; [exact Hdev|]. apply wpe_bind.
  eapply wpe_device_at; [exact Hd|]. apply wpe_bind, wpe_Now. apply wpe_bind.
  eapply wpe_mono with (Q' := λ d' r', r' = ticked r ∧ pollStart d' = began ∧ pollSeq d' = u64 (pollSeq d + 1))
    (X' := λ _, False); [|..|done].
  { destruct (HasHeartbeat dev) eqn:Hhb; [|by apply wpe_ret].
    destruct (dv_heartbeat _ Hv Hhb) as [Hb _].
    apply wpe_bind. apply wpe_index; [lia|]. intros hb _. apply wpe_ret. by destruct (_ || _). }
  intros d' r1 (-> & Hst & Hseq). apply wpe_bind, wpe_upd. rewrite Nat2Z.id. apply wpe_bind.
  set (r1 := set_devices _ (ticked r)).
  eapply wpe_mono with (Q' := λ _ r', r' = r1) (X' := λ _, False); [|..|done].
  { destruct (HasMeasurementsValid dev) eqn:Hmv; [|by apply wpe_ret].
    destruct (dv_measurements _ Hv Hmv) as (_ & Hb & _).
    apply wpe_bind. apply wpe_index; [lia|]. intros w _. by apply wpe_ret. }
  intros valid ? ->. change 0 with (Z.of_nat 0).
  assert (shape r1) as Hsh1.
  { destruct Hsh as [H1 H2 H3]. constructor; cbn; [done|by rewrite length_insert|done]. }
  eapply wpe_mono; [by apply (apply_points_ok k dev regs valid 0 (Points pm) (λ _, False) r1)| |done].
  intros [] r' (Hsh' & l & -> & _ & Him & Hoth). split; [done|]. do 4 (split; [done|]).
  split; [cbn; lia|]. split; [by exists d, d'|]. split; [exact Him|exact Hoth].
Qed.
End Image.

(** ** Who sends a positive termination

    The positive termination of a control command, as opposed to that of an
    interrogation. *)
Definition finishes (m : Message) : Prop :=
  ∃ h, Message_GetHeader m = Ok h ∧ Cause h = ActivationTerm ∧ Negative h = false ∧
       Type_ h ∈ [C_DC_NA_1; C_RC_NA_1; C_SC_NA_1].

Lemma finishes_terminates m : finishes m → terminates m.
Proof. intros (h & H1 & H2 & H3 & _). by exists h. Qed.

(** An operation that sends none, whatever the state and the outcome. *)
Definition silent {A} (m : R A) : Prop := ∀ r, sends (λ m', ¬ finishes m') r (m r).2.

Lemma silent_ret {A} (a : A) : silent (st_ret a).
Proof. intros r. apply sends_none. done. Qed.
Lemma silent_get : silent st_get.
Proof. intros r. apply sends_none. done. Qed.
Lemma silent_upd g : (∀ r, sent_ (g r) = sent_ r) → silent (st_upd g).
Proof. intros H r. apply sends_none, H. Qed.
Lemma silent_lift {A} (o : outcome iec_error A) : silent (lift o).
Proof. intros r. apply sends_none. done. Qed.
Lemma silent_index {A} (l : list A) i : silent (index l i).
Proof. intros r. apply sends_none. unfold index, deref. case_if; [done|]. by destruct (l !! _). Qed.
Lemma silent_Now clock : silent (Now clock).
Proof. intros r. apply sends_none. done. Qed.
Lemma silent_bind {A B} (m : R A) (k : A → R B) : silent m → (∀ a, silent (k a)) → silent (st_bind m k).
Proof.
  intros Hm Hk r. unfold st_bind. specialize (Hm r). destruct (m r) as [[a|e| |] r1]; try exact Hm.
  cbn in Hm. etrans; [exact Hm|apply Hk].
Qed.
Lemma silent_when b m : silent m → silent (st_when b m).
Proof. intros H. destruct b; [exact H|apply silent_ret]. Qed.
Lemma silent_build m : silent m → silent (build m).
Proof.
  intros H r. unfold build. specialize (H r). destruct (m r) as [[[]|e| |] r1]; try exact H.
Qed.

Lemma silent_reply admits conn m cot negative : cot ≠ ActivationTerm ∨ negative = true →
  silent (reply admits conn m cot negative).
Proof.
  intros Hc. apply silent_build. intros r. unfold st_bind, lift.
  destruct (Mirror m cot negative) as [m'|e| |] eqn:Hm; try by apply sends_none.
  exists [(conn, m')]. split; [done|]. apply Forall_singleton. cbn.
  intros Hf%finishes_terminates. destruct (mirror_terminates _ _ _ _ Hm Hf). destruct Hc; congruence.
Qed.

#[global] Opaque silent.

Ltac silent_step := first
  [ apply silent_ret | apply silent_get | apply silent_lift | apply silent_index | apply silent_Now
  | apply silent_reply; first [left; vm_compute; discriminate|right; reflexivity]
  | apply silent_upd; intros; done
  | apply silent_bind; [|intros ?]
  | apply silent_when | apply silent_build
  | case_match ].
Ltac silent := repeat silent_step.

Section Sends.
Context (pm : Map) (clock : nat → Z) (station : nat → civil * bool) (admits : nat → bool).
Context (Hpm : map_valid pm).

Lemma silent_handleCommand conn m i v qu selc : silent (handleCommand pm clock admits conn m i v qu selc).
Proof. unfold handleCommand, select_command, execute_command, clearSelection, device_at. silent. Qed.

Lemma silent_command_message conn m h : silent (command_message pm clock admits conn m h).
Proof. unfold command_message. silent; apply silent_handleCommand. Qed.

Lemma silent_connectionEvent conn kind : silent (connectionEvent conn kind).
Proof. unfold connectionEvent, clearSelection. silent. Qed.

Lemma silent_write_begin d : silent (write_begin pm clock admits d).
Proof. unfold write_begin, finishCommand. silent. Qed.

Lemma silent_write_end d c dev res : silent (write_end clock admits d c dev res).
Proof. unfold write_end, finishCommand, device_at. silent. Qed.

Lemma silent_apply_points d regs valid i pts : silent (apply_points pm d regs valid i pts).
Proof.
  revert i. induction pts as [|p pts IH]; intros i; cbn [apply_points]; [apply silent_ret|].
  unfold applyPoint, apply_value, point_at, put_point. silent; apply IH.
Qed.

Lemma silent_apply_poll d regs began : silent (apply_poll pm clock d regs began).
Proof. unfold apply_poll, device_at, put_device. silent; apply silent_apply_points. Qed.

(** The answers to an interrogation are reports and mirrors of its request,
    which is not a control command. *)
Lemma interrogation_type m cot negative m' h : Message_GetHeader m = Ok h → Type_ h = C_IC_NA_1 →
  Mirror m cot negative = Ok m' → ¬ finishes m'.
Proof.
  unfold Mirror. intros Hh Ht H (h' & Hh' & _ & _ & Hin). apply guard_err_Ok in H as [_ H].
  apply bind_Ok in H as (copy & Hcopy & H).
  assert (Type_ h' = C_IC_NA_1) as E.
  { destruct m as [a|raw|]; [|by simplify_eq/=|done]. unfold cloneMessage, cloneASDU in Hcopy.
    apply bind_Ok in Hcopy as (u & _ & [= <-]). by simplify_eq/=. }
  rewrite E in Hin. vm_compute in Hin. set_solver.
Qed.

Lemma interrogation_sends conn m h X r : shape pm r → Message_GetHeader m = Ok h → Type_ h = C_IC_NA_1 →
  wpe (interrogation pm station admits conn m h) (λ _ r', sends (λ m', ¬ finishes m') r r') X r.
Proof.
  intros Hsh Hh Ht. unfold interrogation.
  assert (∀ r cot negative, wpe (reply admits conn m cot negative)
    (λ _ r', replied r r' ∧ sends (λ m', ¬ finishes m') r r') X r) as Hreply.
  { intros. apply reply_sends. intros m' Hm. exact (interrogation_type _ _ _ _ _ Hh Ht Hm). }
  assert (∀ cot negative, wpe (reply admits conn m cot negative)
    (λ _ r', sends (λ m', ¬ finishes m') r r') X r) as Hreply'.
  { intros. eapply wpe_mono; [apply Hreply| |done]. by intros [] r' [_ ?]. }
  destruct (Count h =? 0); [apply wpe_upd; by apply sends_none|].
  destruct (Cause h =? Deactivation); [done|].
  destruct m as [[h0 os]|raw|]; [|done|done]. destruct os as [|o os]; [done|].
  destruct (Element_ o); try done. destruct (negb (QOI =? 20)); [done|].
  apply wpe_bind. eapply wpe_mono; [apply Hreply| |done]. intros [] r1 [[Hq _ _ _] Hs1].
  assert (shape pm r1) as Hsh1 by (eapply shape_handled; [exact Hsh|by apply quiet_handled]).
  apply wpe_bind, wpe_build.
  eapply wpe_mono; [apply (interrogation_image_ok pm station admits Hpm conn (Originator h) (λ _, False)); exact Hsh1| |done].
  intros [] r2 [Him _]. assert (moves r1 r2) as Hm by apply reports_move, Him.
  eapply wpe_mono; [apply Hreply| |done]. intros [] r3 [_ Hs3].
  etrans; [exact Hs1|]. etrans; [|exact Hs3]. eapply sends_mono; [|exact (mv_sent _ _ _ Hm)].
  intros m' Hr Hf. by eapply report_not_terminates, finishes_terminates.
Qed.

Lemma receive_sends conn m r r' : shape pm r → receive pm clock station admits conn m r = (Ok tt, r') →
  sends (λ m', ¬ finishes m') r r'.
Proof.
  intros Hsh H. unfold receive, st_bind, lift in H.
  destruct (Message_GetHeader m) as [h|e| |] eqn:Hh; try done.
  destruct (Z.eqb_spec (Type_ h) C_IC_NA_1) as [Ht|Ht].
  - pose proof (interrogation_sends conn m h (λ _, False) r Hsh Hh Ht) as Hw.
    unfold wpe in Hw. by rewrite H in Hw.
  - case_if_in H.
    + pose proof (silent_command_message conn m h r) as Hs. by rewrite H in Hs.
    + injection H as <-. by apply sends_none.
Qed.
End Sends.
