(* ===== verification/RtuStation.v ===== *)
(** * The remote terminal unit: properties of every run

    The effect of each input on the station, the invariants of all reachable
    stations and what the history of inputs says about the pending command. *)
From S2P Require Import Prelude GoLib Iec104Types Iec104Time Iec104Elements Iec104Asdu PointMap.
From S2P Require Import PointMapValid ModbusMaster Rtu RtuInv.

#[local] Open Scope string_scope.
#[local] Open Scope Z_scope.

Section Station.
Context (pm : Map) (clock : nat → Z) (station : nat → civil * bool) (admits : nat → bool).
Context (Hpm : map_valid pm).
Context {M : Type} {ops : Master_ M} {laws : MasterLaws M}.
Implicit Types (s : Station (M := M)) (w : worker M) (r : RTU).

Notation step := (step pm clock station admits (M := M)).

(** ** The effect of one transition of a worker *)
Inductive worker_effect (d : nat) (w : worker M) (r : RTU) (w' : worker M) (r' : RTU) : Prop :=
| we_idle :
    (∀ c dv v, pc w ≠ Writing c dv v) → (∀ c dv v, pc w' ≠ Writing c dv v) →
    quiet r r' → sel r' = sel r →
    pending r' = pending r ∨ (phase (pending r) = commandWrite ∧ pending r' = no_pending) →
    worker_effect d w r w' r'
| we_begin c dev v :
    (∀ c dv v, pc w ≠ Writing c dv v) → pc w' = Writing c dev v →
    quiet r r' → sel r' = sel r → active (pending r) = true → phase (pending r) = commandWrite →
    Commands pm !! Z.to_nat (index_ (pending r)) = Some c → Command_DeviceIndex c = Z.of_nat d →
    Devices pm !! d = Some dev → v = write_register (Command_Kind c) (value_ (pending r)) →
    pending r' = set_phase commandWriting (pending r) →
    worker_effect d w r w' r'
| we_end c dev v res m' :
    pc w = Writing c dev v → (∀ c dv v, pc w' ≠ Writing c dv v) →
    m_WriteSingle (Command_Address c) (u16 v) (TimeoutMS dev) (master w) = (res, m') →
    quiet r r' → sel r' = sel r →
    match RStatus res with
    | StatusOK => ∃ ds, devices r !! d = Some ds ∧ let p := pending r in
        pending r' = mkPending (active p) (index_ p) (value_ p) (expected p) (id_ p) (request p)
          commandFeedback (pollSeq ds) (clock (nows r)) (clock (S (nows r)) +
            (if bool_decide (Command_Kind c = RegulatingStep) then 5000 else TimeoutMS dev))
    | _ => pending r' = no_pending
    end → worker_effect d w r w' r'
| we_poll dev start began regs res m' :
    pc w = Polling start began → (∀ c dv v, pc w' ≠ Writing c dv v) → Devices pm !! d = Some dev →
    poll_read dev (master w) = ((regs, res), m') → RStatus res = StatusOK →
    polled pm d dev regs began r r' → worker_effect d w r w' r'.

Definition backoff_ok (w : worker M) : Prop :=
  initialBackoff pm ≤ backoff w ≤ ReconnectIntervalMS pm.

Lemma backoff_range : 1 ≤ initialBackoff pm ≤ ReconnectIntervalMS pm.
Proof. pose proof (mv_reconnect _ Hpm). unfold initialBackoff. lia. Qed.

Lemma next_backoff_ok w : backoff_ok w →
  initialBackoff pm ≤ next_backoff pm (backoff w) ≤ ReconnectIntervalMS pm.
Proof.
  pose proof backoff_range. unfold backoff_ok, next_backoff. intros Hb. case_if; [|lia]. bool_facts.
  assert (Z.quot (ReconnectIntervalMS pm) 2 * 2 ≤ ReconnectIntervalMS pm).
  { pose proof (mv_reconnect _ Hpm). rewrite Z.quot_div_nonneg by lia. modlia. }
  lia.
Qed.

(** Connecting reads the clock and changes the worker. *)
Lemma connect_ok dev w X r : backoff_ok w → pc w = AtTop →
  wpe (connect pm clock dev w) (λ w' r', quiet r r' ∧ sel r' = sel r ∧ pending r' = pending r ∧
    backoff_ok w' ∧ pc w' = AtTop) X r.
Proof.
  intros Hb Hpc. pose proof backoff_range. unfold connect. apply wpe_bind, wpe_Now.
  destruct (negb _ && _); [|apply wpe_ret; split_and!; [apply quiet_ticked|done..]].
  destruct (if resolved w then _ else _) as [[st ok] m1]. destruct (if bool_decide (st = StatusOK) then _ else _) as [st' m2].
  destruct (bool_decide (st' = StatusOK)).
  - apply wpe_ret. split_and!; [apply quiet_ticked|done|done| |done]. unfold backoff_ok. cbn. lia.
  - apply wpe_bind, wpe_Now. apply wpe_ret. split_and!; [|done|done| |done].
    + etrans; apply quiet_ticked.
    + unfold backoff_ok. cbn. by apply next_backoff_ok.
Qed.

Lemma poll_read_ok dev m regs res m' : device_valid dev → poll_read dev m = ((regs, res), m') →
  RStatus res = StatusOK → zlen regs = PollCount dev.
Proof.
  intros Hv. unfold poll_read. case_bool_decide; intros H1 H2.
  - by eapply read_input_ok.
  - by eapply read_holding_ok.
Qed.

Lemma shape_quiet r r' : shape pm r → quiet r r' → shape pm r'.
Proof. intros Hs Hq. by eapply shape_handled, quiet_handled. Qed.

Definition pending_ok (p : pendingCommand) : Prop :=
  active p = true → 0 ≤ index_ p < zlen (Commands pm).

Lemma worker_top_ok d dev w X r : shape pm r → Devices pm !! d = Some dev → pending_ok (pending r) →
  backoff_ok w → pc w = AtTop →
  wpe (worker_step pm clock admits (Z.of_nat d) w) (λ w' r', worker_effect d w r w' r' ∧ backoff_ok w') X r.
Proof.
  intros Hsh Hdev Hp Hb Hpc. unfold worker_step. apply wpe_bind. eapply wpe_index_nat; [exact Hdev|].
  rewrite Hpc. apply wpe_bind. eapply wpe_mono; [by apply (connect_ok dev w (λ _, False))| |done].
  intros w1 r1 (Hq & Hs & Hp1 & Hb1 & Hpc1). destruct (m_IsConnected (master w1)).
  - apply wpe_bind. eapply wpe_mono; [apply (write_begin_ok pm clock admits Hpm d (λ _, False) r1)| |done].
    + by eapply shape_quiet.
    + by eapply lookup_lt_Some.
    + rewrite Hp1. exact Hp.
    + intros wr r2 (Hq2 & Hs2 & Hwr). apply wpe_ret. split; [|done]. assert (quiet r r2) as Hq' by by etrans.
      destruct wr as [[[c dv] v]|].
      * destruct Hwr as (H1 & H2 & H3 & H4 & H5 & H6 & H7). rewrite Hp1 in *.
        rewrite Hdev in H5. injection H5 as <-.
        eapply we_begin; try done; [by rewrite Hpc|by rewrite Hs2, Hs].
      * rewrite Hp1 in Hwr. apply we_idle; try done; [by rewrite Hpc|by rewrite Hs2, Hs].
  - apply wpe_ret. split; [|done]. apply we_idle; try done; [by rewrite Hpc|by rewrite Hpc1|by left].
Qed.

Lemma worker_step_ok d w X r : shape pm r → (d < length (Devices pm))%nat → pending_ok (pending r) →
  backoff_ok w →
  wpe (worker_step pm clock admits (Z.of_nat d) w) (λ w' r', worker_effect d w r w' r' ∧ backoff_ok w') X r.
Proof.
  intros Hsh Hd Hp Hb. destruct (lookup_lt_is_Some_2 _ _ Hd) as [dev Hdev].
  destruct (pc w) as [|c dv v| |start began] eqn:Hpc; [by eapply worker_top_ok|..];
    unfold worker_step; (apply wpe_bind; eapply wpe_index_nat; [exact Hdev|]); rewrite Hpc.
  - destruct (m_WriteSingle _ _ _ _) as [res m] eqn:Hw. apply wpe_bind.
    eapply wpe_mono; [by apply (write_end_ok pm clock admits d c dv res (λ _, False))| |done].
    intros [] r' (Hq & Hs & Hres). apply wpe_ret. split; [|done]. by eapply we_end.
  - apply wpe_bind, wpe_Now. destruct (nextPoll w <=? _).
    + apply wpe_bind, wpe_Now. apply wpe_bind, wpe_Now. apply wpe_ret. split; [|done].
      apply we_idle; try done; [by rewrite Hpc| |by left].
      etrans; [apply quiet_ticked|]. etrans; apply quiet_ticked.
    + apply wpe_ret. split; [|done]. apply we_idle; try done; [by rewrite Hpc|apply quiet_ticked|by left].
  - destruct (poll_read dev (master w)) as [[regs res] m] eqn:Hr.
    destruct (decide (RStatus res = StatusOK)) as [Hok|Hno].
    + rewrite bool_decide_true by done. apply wpe_bind.
      eapply wpe_mono; [apply (apply_poll_ok pm clock Hpm d dev regs began (λ _, False))| |done].
      * done.
      * done.
      * eapply poll_read_ok; [by eapply device_in_poll|exact Hr|done].
      * intros [] r' Hpol. apply wpe_ret. split; [|done]. by eapply we_poll.
    + rewrite bool_decide_false by done. apply wpe_bind, wpe_Now. apply wpe_ret. split; [|done].
      apply we_idle; try done; [by rewrite Hpc|apply quiet_ticked|by left].
Qed.

(** ** The station's invariant *)
Definition worker_ok (d : nat) (p : pendingCommand) (w : worker M) : Prop :=
  backoff_ok w ∧
  ∀ c dv v, pc w = Writing c dv v →
    active p = true ∧ phase p = commandWriting ∧ Commands pm !! Z.to_nat (index_ p) = Some c ∧
    Command_DeviceIndex c = Z.of_nat d ∧ Devices pm !! d = Some dv ∧
    v = write_register (Command_Kind c) (value_ p).

Record SInv (s : Station) : Prop := {
  si_shape : shape pm (rtu s);
  si_pending : pending_ok (pending (rtu s));
  si_started : started_ok (started (rtu s));
  si_workers : length (workers s) = length (Devices pm);
  si_worker : ∀ d w, workers s !! d = Some w → worker_ok d (pending (rtu s)) w
}.

Definition input_ok (i : input) : Prop :=
  match i with Receive _ m => m ≠ NilMessage | _ => True end.

(** The effect of one input. *)
Definition effect (i : input) (s s' : Station) : Prop :=
  let r := rtu s in let r' := rtu s' in
  match i with
  | Connection conn kind => workers s' = workers s ∧ connected conn r r'
  | Receive conn m => workers s' = workers s ∧ handled r r' ∧
      ((sel r' = sel r ∧ pending r' = pending r) ∨
       commanded pm conn m (clock (nows r)) (sel r) (pending r) (sel r') (pending r'))
  | Tick => workers s' = workers s ∧ ∃ r2, let now := clock (nows r) in
      moves_by is_report (set_sel (expire now (sel r)) (ticked r)) r2 ∧
      (∀ j p x, Points pm !! j = Some p → points r2 !! j = Some x → settled p x) ∧
      progress pm now r2 r'
  | Worker d =>
      match workers s !! d with
      | None => s' = s
      | Some w => ∃ w', workers s' = <[d := w']> (workers s) ∧ worker_effect d w r w' r' ∧ backoff_ok w'
      end
  end.

Lemma step_effect i s : SInv s → input_ok i → ∃ s', step i s = Ok s' ∧ effect i s s'.
Proof.
  intros [Hsh Hp Hst Hlen Hw] Hi. destruct i as [conn kind|conn m| |d]; cbn [Rtu.step effect].
  - destruct (wpe_elim _ _ _ (connectionEvent_ok conn kind (λ _, False) _ Hst)) as ([] & r' & Hr & Hc & _).
    exists (mkStation r' (workers s)). unfold on_rtu. rewrite Hr. done.
  - destruct (wpe_elim _ _ _ (receive_ok pm clock station admits Hpm conn m (λ _, False) _ Hsh Hi)) as ([] & r' & Hr & Hc).
    exists (mkStation r' (workers s)). unfold on_rtu. rewrite Hr. done.
  - destruct (wpe_elim _ _ _ (tick_ok pm clock station admits Hpm (λ _, False) _ Hsh Hp)) as ([] & r' & Hr & Hc).
    exists (mkStation r' (workers s)). unfold on_rtu. rewrite Hr. done.
  - destruct (workers s !! d) as [w|] eqn:Hd; [|by exists s].
    assert (d < length (Devices pm))%nat as Hdl by (rewrite <- Hlen; by eapply lookup_lt_Some).
    destruct (Hw d w Hd) as [Hb _].
    destruct (wpe_elim _ _ _ (worker_step_ok d w (λ _, False) _ Hsh Hdl Hp Hb)) as (w' & r' & Hr & Heff & Hb').
    exists (mkStation r' (<[d := w']> (workers s))). rewrite Hr. split; [done|]. by exists w'.
Qed.

Lemma activation_index m i v b : activation pm m = Some (i, v, b) → ∃ c, Commands pm !! i = Some c.
Proof.
  unfold activation. intros H. destruct m as [[h [|o [|]]]| |]; try done.
  destruct (command_index pm (Address o)) as [[j c]|] eqn:Hi; [|done].
  case_if_in H; [|done]. injection H as <- _ _. exists c. by eapply command_index_spec.
Qed.

(** A pending command keeps its identity: a write under way stays that of
    its command. *)
Definition same_command (p p' : pendingCommand) : Prop :=
  active p' = active p ∧ phase p' = phase p ∧ index_ p' = index_ p ∧ value_ p' = value_ p ∧
  expected p' = expected p ∧ afterPoll p' = afterPoll p ∧ afterTime p' = afterTime p.

Definition write_stable (p p' : pendingCommand) : Prop :=
  active p = true → phase p = commandWriting → same_command p p'.

Lemma worker_ok_stable d p p' w : write_stable p p' → worker_ok d p w → worker_ok d p' w.
Proof.
  intros Hst [Hb Hw]. split; [done|]. intros c dv v Hpc.
  destruct (Hw c dv v Hpc) as (H1 & H2 & H3 & H4 & H5 & H6).
  destruct (Hst H1 H2) as (E1 & E2 & E3 & E4 & _). rewrite E1, E2, E3, E4. done.
Qed.

Lemma same_command_refl p : same_command p p.
Proof. done. Qed.

Lemma commanded_stable conn m now x0 p0 x1 p1 : commanded pm conn m now x0 p0 x1 p1 →
  write_stable p0 p1 ∧ (pending_ok p0 → pending_ok p1).
Proof.
  intros H. destruct H as [| |i v seq|i v owned dl Ha Hno ? ? ? ? ?]; try (split; [by intros _ _|done]).
  split; [congruence|]. intros _ _. cbn. destruct (activation_index _ _ _ _ Ha) as [c Hc].
  by eapply zlen_lookup.
Qed.

Lemma advances_stable now r p : advances pm now r p →
  write_stable (pending r) p ∧ (pending_ok (pending r) → pending_ok p).
Proof.
  intros H. destruct H as [|Hp|c x Hp]; [split; [by intros _ _|done]|..].
  - split; [congruence|]. by intros _ H.
  - split; [congruence|done].
Qed.

Lemma lookup_workers d d' w' (l : list (worker M)) w : <[d := w']> l !! d' = Some w →
  (d' = d ∧ w = w') ∨ (d' ≠ d ∧ l !! d' = Some w).
Proof. intros [(-> & -> & _)|[? ?]]%list_lookup_insert_Some; [by left|right; auto]. Qed.

(** Only one worker writes at a time, the one of the command's device. *)
Lemma one_writer d d' p w w' c dv v c' dv' v' : worker_ok d p w → worker_ok d' p w' →
  pc w = Writing c dv v → pc w' = Writing c' dv' v' → d = d'.
Proof.
  intros [_ H] [_ H'] Hp Hp'. destruct (H _ _ _ Hp) as (_ & _ & E1 & E2 & _).
  destruct (H' _ _ _ Hp') as (_ & _ & E1' & E2' & _). rewrite E1 in E1'. injection E1' as <-. lia.
Qed.

Lemma worker_effect_ok s d w w' r' : SInv s → workers s !! d = Some w →
  worker_effect d w (rtu s) w' r' → backoff_ok w' → SInv (mkStation r' (<[d := w']> (workers s))).
Proof.
  intros [Hsh Hp Hst Hlen Hw] Hd Heff Hb.
  assert (∀ p', (∀ c dv v, pc w' ≠ Writing c dv v) → (∀ c dv v, pc w ≠ Writing c dv v) →
    write_stable (pending (rtu s)) p' → ∀ d' x, <[d := w']> (workers s) !! d' = Some x → worker_ok d' p' x) as Hidle.
  { intros p' Hn Hn' Hs d' x [[-> ->]|[Hne Hx]]%lookup_workers; [by split; [|intros c dv v Hc; destruct (Hn c dv v)]|].
    eapply worker_ok_stable; [exact Hs|by apply Hw]. }
  destruct Heff as [Hn Hn' Hq Hs Hpe|c dev v Hn Hpc Hq Hs Ha Hph Hc Hcd Hdev Hv Hpe
    |c dev v res m' Hpc Hn' Hres Hq Hs Hpe|dev start began regs res m' Hpc Hn' Hdev Hr Hok Hpol].
  - constructor; cbn [rtu workers]; [by eapply shape_quiet| |by rewrite (qu_started _ _ Hq)|by rewrite length_insert|].
    + destruct Hpe as [->|[_ ->]]; [done|]. by intros ?.
    + apply Hidle; [done|done|]. intros H1 H2. destruct Hpe as [->|[H3 _]]; [done|congruence].
  - constructor; cbn [rtu workers]; [by eapply shape_quiet|by rewrite Hpe|by rewrite (qu_started _ _ Hq)|by rewrite length_insert|].
    intros d' x [[-> ->]|[Hne Hx]]%lookup_workers; rewrite Hpe.
    + split; [done|]. intros c' dv' v' Hpc'. rewrite Hpc in Hpc'. injection Hpc' as <- <- <-. by split_and!.
    + destruct (Hw d' x Hx) as [Hbx Hx']. split; [done|]. intros c' dv' v' Hpc'.
      destruct (Hx' _ _ _ Hpc') as (_ & Hph' & _). congruence.
  - constructor; cbn [rtu workers]; [by eapply shape_quiet| |by rewrite (qu_started _ _ Hq)|by rewrite length_insert|].
    + destruct (RStatus res); [destruct Hpe as (ds & _ & ->); done|rewrite Hpe; by intros ?..].
    + intros d' x [[-> ->]|[Hne Hx]]%lookup_workers; [by split; [|intros c' dv' v' Hc; destruct (Hn' c' dv' v')]|].
      destruct (Hw d' x Hx) as [Hbx Hx']. split; [done|]. intros c' dv' v' Hpc'. exfalso. apply Hne.
      symmetry. eapply one_writer; [by apply Hw|by apply Hw|exact Hpc|exact Hpc'].
  - destruct Hpol as (Hsh' & Hs & Hpe & Hst' & _). constructor; cbn [rtu workers];
      [done|by rewrite Hpe|by rewrite Hst'|by rewrite length_insert|].
    apply Hidle; [done|by rewrite Hpc|]. by rewrite Hpe.
Qed.

Lemma effect_SInv i s s' : SInv s → effect i s s' → SInv s'.
Proof.
  intros Hinv. destruct i as [conn kind|conn m| |d]; cbn [effect].
  - destruct Hinv as [Hsh Hp Hst Hlen Hw]. intros [Hws [E1 E2 _ _ E5 _ E7]]. constructor.
    + destruct Hsh as [A1 A2 A3]. constructor; [by rewrite E1|by rewrite E2|by rewrite E1].
    + by destruct E7 as [-> | ->].
    + done.
    + by rewrite Hws.
    + rewrite Hws. intros d w Hd. eapply worker_ok_stable; [|by apply Hw]. intros _ _. by destruct E7 as [-> | ->].
  - destruct Hinv as [Hsh Hp Hst Hlen Hw]. intros (Hws & Hh & Hc).
    assert (write_stable (pending (rtu s)) (pending (rtu s')) ∧ pending_ok (pending (rtu s'))) as [Hstab Hp'].
    { destruct Hc as [[_ ->]|Hc]; [done|]. destruct (commanded_stable _ _ _ _ _ _ _ Hc). auto. }
    constructor; [by eapply shape_handled|done|by rewrite (ha_started _ _ Hh)|by rewrite Hws|].
    rewrite Hws. intros d w Hd. eapply worker_ok_stable; [exact Hstab|by apply Hw].
  - destruct Hinv as [Hsh Hp Hst Hlen Hw]. intros (Hws & r2 & Hm & _ & (Hh & _ & _ & Ha & _)).
    pose proof (mv_control _ _ _ Hm) as Hc. unfold control in Hc. injection Hc as _ Hp2 Hst2 _ _.
    apply advances_stable in Ha as [Hstab Hp']. rewrite Hp2 in *.
    constructor; [|by apply Hp'|by rewrite (ha_started _ _ Hh), Hst2|by rewrite Hws|].
    + eapply shape_handled; [|exact Hh]. eapply shape_moves; [|exact Hm]. by destruct Hsh.
    + rewrite Hws. intros d w Hd. eapply worker_ok_stable; [exact Hstab|by apply Hw].
  - destruct (workers s !! d) as [w|] eqn:Hd; [|by intros ->].
    intros (w' & Hws & Heff & Hb). pose proof (worker_effect_ok s d w w' _ Hinv Hd Heff Hb) as H.
    rewrite <- Hws in H. by destruct s'.
Qed.

Lemma step_inv i s s' : SInv s → step i s = Ok s' → effect i s s' ∧ SInv s'.
Proof.
  intros Hinv Hs. assert (input_ok i) as Hi by (destruct i as [| conn [| |]| |]; done).
  destruct (step_effect i s Hinv Hi) as (s1 & H1 & Heff). rewrite Hs in H1. injection H1 as <-.
  split; [done|by eapply effect_SInv].
Qed.

Lemma SInv_init masters : length masters = length (Devices pm) → SInv (init pm masters).
Proof.
  intros Hl. constructor; cbn; [constructor; cbn|..].
  - by rewrite length_replicate.
  - by rewrite length_replicate.
  - apply Forall_replicate. cbn. lia.
  - by intros ?.
  - split; [apply NoDup_nil_2|cbn; lia].
  - by rewrite length_fmap.
  - intros d w Hd. rewrite list_lookup_fmap in Hd. destruct (masters !! d); [|done]. injection Hd as <-.
    pose proof backoff_range.
    split; [unfold backoff_ok; cbn; lia|done].
Qed.

Lemma run_SInv masters hist s : length masters = length (Devices pm) →
  run pm clock station admits masters hist s → SInv s.
Proof.
  intros Hl. induction 1 as [|i hist s s' _ IH Hs]; [by apply SInv_init|]. by eapply step_inv.
Qed.

(** Only a tick ends a control command with success. *)
Lemma worker_step_silent d w : silent (worker_step pm clock admits d w).
Proof.
  unfold worker_step, connect.
  repeat first [apply silent_write_begin|apply silent_write_end|apply silent_apply_poll|silent_step].
Qed.

Lemma step_silent i s s' : SInv s → step i s = Ok s' → i ≠ Tick →
  sends (λ m, ¬ finishes m) (rtu s) (rtu s').
Proof.
  intros Hinv Hs Hi. destruct i as [conn kind|conn m| |d]; [| |done|]; cbn [Rtu.step] in Hs.
  - unfold on_rtu in Hs. pose proof (silent_connectionEvent conn kind (rtu s)) as H.
    destruct (connectionEvent conn kind (rtu s)) as [[[]| | |] r']; try done. by injection Hs as <-.
  - unfold on_rtu in Hs. destruct (receive _ _ _ _ _ _ _) as [[[]| | |] r'] eqn:Hr; try done. injection Hs as <-.
    by eapply receive_sends; [|apply (si_shape _ Hinv)|exact Hr].
  - destruct (workers s !! d) as [w|]; [|injection Hs as <-; by apply sends_none].
    pose proof (worker_step_silent (Z.of_nat d) w (rtu s)) as H.
    destruct (worker_step _ _ _ _ _ _) as [[w'| | |] r']; try done. by injection Hs as <-.
Qed.

(** ** What the history says *)
Definition entry : Type := input * Station (M := M).

(** An entry that activates command [i] with value [v] at clock reading [t]. *)
Definition activates (select : bool) (conn : Z) (i : nat) (v t : Z) (e : entry) : Prop :=
  ∃ m, e.1 = Receive conn m ∧ activation pm m = Some (i, v, select) ∧ t = clock (nows (rtu e.2)).

(** A connection selected command [i] with value [v] and executed it with the
    same value within the time limit. *)
Definition authorised (hist : list entry) (conn : Z) (i : nat) (v : Z) : Prop :=
  ∃ h1 e2 h2 e1 h3 t1 t2, hist = (h1 ++ e2 :: h2 ++ e1 :: h3)%list ∧
    activates false conn i v t2 e2 ∧ activates true conn i v t1 e1 ∧ t2 < t1 + SelectTimeoutMS pm.

Definition selection_known (hist : list entry) (x : selection) : Prop :=
  sel_active x = true → ∃ h1 e h2 i v, hist = (h1 ++ e :: h2)%list ∧
    activates true (sel_id x) i v (selectedAt x) e ∧ sel_index x = Z.of_nat i ∧ sel_value x = v ∧
    sel_deadline x = selectedAt x + SelectTimeoutMS pm.

Definition pending_known (hist : list entry) (p : pendingCommand) : Prop :=
  active p = true → ∃ conn i v, authorised hist conn i v ∧ index_ p = Z.of_nat i ∧ value_ p = v ∧
    (id_ p = conn ∨ id_ p = 0).

Lemma selection_known_cons e hist x : selection_known hist x → selection_known (e :: hist) x.
Proof. intros H Ha. destruct (H Ha) as (h1 & e' & h2 & i & v & -> & ?). by exists (e :: h1), e', h2, i, v. Qed.
Lemma authorised_cons e hist conn i v : authorised hist conn i v → authorised (e :: hist) conn i v.
Proof.
  intros (h1 & e2 & h2 & e1 & h3 & t1 & t2 & -> & ?). by exists (e :: h1), e2, h2, e1, h3, t1, t2.
Qed.
Lemma pending_known_same e hist p p' : pending_known hist p →
  (active p' = true → active p = true ∧ index_ p' = index_ p ∧ value_ p' = value_ p ∧
     (id_ p' = id_ p ∨ id_ p' = 0)) → pending_known (e :: hist) p'.
Proof.
  intros H Hs Ha. destruct (Hs Ha) as (H1 & H2 & H3 & H4). destruct (H H1) as (conn & i & v & Hau & E1 & E2 & E3).
  exists conn, i, v. split; [by apply authorised_cons|]. rewrite H2, H3. split_and!; [done|done|].
  destruct H4 as [->| ->]; [done|by right].
Qed.

Record known (hist : list entry) (s : Station (M := M)) : Prop := {
  kn_sel : selection_known hist (sel (rtu s));
  kn_pending : pending_known hist (pending (rtu s))
}.

Lemma expire_known hist e now x : selection_known hist x → selection_known (e :: hist) (expire now x).
Proof. intros H. unfold expire. case_if; [done|by apply selection_known_cons]. Qed.

Lemma commanded_known hist e conn m x0 p0 x1 p1 s :
  e = (Receive conn m, s) → selection_known hist x0 → pending_known hist p0 →
  commanded pm conn m (clock (nows (rtu s))) x0 p0 x1 p1 →
  selection_known (e :: hist) x1 ∧ pending_known (e :: hist) p1.
Proof.
  intros -> Hx Hp Hc.
  assert (pending_known ((Receive conn m, s) :: hist) p0) as Hp'
    by (eapply pending_known_same; [exact Hp|naive_solver]).
  destruct Hc as [| |i v seq Ha|i v owned dl Ha Hno Hact Hid Hidx Hval Hkeep].
  - split; [by apply expire_known|done].
  - done.
  - split; [|done]. intros _. exists [], (Receive conn m, s), hist, i, v. split_and!; try done. by exists m.
  - split; [done|]. intros _. unfold expire in Hact. destruct (sel_active x0 && _) eqn:Hexp; [done|].
    destruct (Hx Hact) as (h1 & e1 & h2 & i' & v' & -> & Hsel & Hi' & Hv' & Hdl).
    exists conn, i, v. split_and!; [|done|done|by left].
    exists [], (Receive conn m, s), h1, e1, h2, (selectedAt x0), (clock (nows (rtu s))).
    split_and!; [done|by exists m| |].
    + rewrite Hid in Hsel. assert (i' = i) as <- by lia. congruence.
    + rewrite Hact in Hexp. cbn in Hexp. bool_facts. lia.
Qed.

(** How the worker's step moves the pending command's identity. *)
Lemma worker_effect_pending d w r w' r' : worker_effect d w r w' r' →
  sel r' = sel r ∧ (active (pending r') = true → active (pending r) = true ∧
    index_ (pending r') = index_ (pending r) ∧ value_ (pending r') = value_ (pending r) ∧
    id_ (pending r') = id_ (pending r) ∧ request (pending r') = request (pending r)).
Proof.
  intros [_ _ _ Hs Hpe|c dev v _ _ _ Hs _ _ _ _ _ _ Hpe|c dev v res m' _ _ _ _ Hs Hpe
    |dev start began regs res m' _ _ _ _ _ (_ & Hs & Hpe & _)]; (split; [done|]).
  - by destruct Hpe as [->|[_ ->]].
  - by rewrite Hpe.
  - destruct (RStatus res); [destruct Hpe as (ds & _ & ->); done|by rewrite Hpe..].
  - by rewrite Hpe.
Qed.

Lemma effect_known i s s' hist : known hist s → effect i s s' → known ((i, s) :: hist) s'.
Proof.
  intros [Hx Hp] Heff. destruct i as [conn kind|conn m| |d]; cbn [effect] in Heff.
  - destruct Heff as [_ [_ _ _ _ _ E6 E7]]. split.
    + destruct E6 as [-> | ->]; [by apply selection_known_cons|done].
    + eapply pending_known_same; [exact Hp|]. destruct E7 as [-> | ->]; cbn; auto.
  - destruct Heff as (_ & _ & [[E1 E2]|Hc]).
    + split; [rewrite E1; by apply selection_known_cons|]. rewrite E2. eapply pending_known_same; [exact Hp|auto].
    + destruct (commanded_known hist _ conn m _ _ _ _ s eq_refl Hx Hp Hc). by split.
  - destruct Heff as (_ & r2 & Hm & _ & (_ & Hs & _ & Ha & _)).
    pose proof (mv_control _ _ _ Hm) as Hc. unfold control in Hc. injection Hc as Hs2 Hp2 _ _ _. split.
    + rewrite Hs, Hs2. by apply expire_known.
    + eapply pending_known_same; [exact Hp|]. cbn [sel pending set_sel ticked] in Hp2.
      destruct Ha as [|_|c x _ _ _]; [rewrite Hp2; auto|done|cbn; rewrite Hp2; auto].
  - destruct (workers s !! d) as [w|] eqn:Hd.
    + destruct Heff as (w' & _ & Heff & _). apply worker_effect_pending in Heff as [Hs Hpe]. split.
      * rewrite Hs. by apply selection_known_cons.
      * eapply pending_known_same; [exact Hp|]. naive_solver.
    + rewrite Heff. split; [by apply selection_known_cons|]. eapply pending_known_same; [exact Hp|auto].
Qed.

Lemma run_known masters hist s : length masters = length (Devices pm) →
  run pm clock station admits masters hist s → known hist s.
Proof.
  intros Hl Hrun. induction Hrun as [|i hist s s' Hrun IH Hs].
  - split; by intros ?.
  - eapply effect_known; [exact IH|]. eapply step_inv; [by eapply run_SInv|done].
Qed.

(** *** The life of the pending command

    The pending command was accepted by the execution [ex] of the request
    [req] while no other was pending, after its selection; in every state met
    since then it is the pending command. *)
Definition pends (i : nat) (v : Z) (e : entry) : Prop :=
  let p := pending (rtu e.2) in active p = true ∧ index_ p = Z.of_nat i ∧ value_ p = v.

Definition executed (conn : Z) (i : nat) (v : Z) (req : Message) (hist : list entry) : Prop :=
  ∃ ex h1 sl h2 t, hist = (ex :: h1 ++ sl :: h2)%list ∧
    ex.1 = Receive conn req ∧ activation pm req = Some (i, v, false) ∧
    active (pending (rtu ex.2)) = false ∧ activates true conn i v t sl ∧
    clock (nows (rtu ex.2)) < t + SelectTimeoutMS pm.

Definition begun (hist : list entry) (p : pendingCommand) : Prop :=
  active p = true → ∃ h0 hx conn i v req, hist = (h0 ++ hx)%list ∧ executed conn i v req hx ∧
    Forall (pends i v) h0 ∧ index_ p = Z.of_nat i ∧ value_ p = v ∧ (id_ p = conn ∨ id_ p = 0) ∧
    keeps req (request p).

Lemma begun_same e hist p p' : begun hist p → pending (rtu e.2) = p →
  (active p' = true → active p = true ∧ index_ p' = index_ p ∧ value_ p' = value_ p ∧
     (id_ p' = id_ p ∨ id_ p' = 0) ∧ request p' = request p) → begun (e :: hist) p'.
Proof.
  intros H He Hs Ha. destruct (Hs Ha) as (H1 & H2 & H3 & H4 & H5).
  destruct (H H1) as (h0 & hx & conn & i & v & req & -> & Hx & Hf & E1 & E2 & E3 & E4).
  exists (e :: h0), hx, conn, i, v, req. rewrite H2, H3, H5. split_and!; try done.
  - apply Forall_cons. split; [|done]. unfold pends. by rewrite He.
  - destruct H4 as [->| ->]; [done|by right].
Qed.

Lemma begun_commanded hist conn m x1 p1 s : selection_known hist (sel (rtu s)) → begun hist (pending (rtu s)) →
  commanded pm conn m (clock (nows (rtu s))) (sel (rtu s)) (pending (rtu s)) x1 p1 →
  begun ((Receive conn m, s) :: hist) p1.
Proof.
  intros Hx Hp Hc. destruct Hc as [| |i v seq Ha|i v owned dl Ha Hno Hact Hid Hidx Hval Hkeep];
    try (by eapply begun_same; [exact Hp|done|auto 6]).
  intros _. unfold expire in Hact. destruct (sel_active _ && _) eqn:Hexp; [done|].
  destruct (Hx Hact) as (h1 & e1 & h2 & i' & v' & -> & Hsel & Hi' & Hv' & Hdl).
  exists [], ((Receive conn m, s) :: h1 ++ e1 :: h2)%list, conn, i, v, m. split_and!; try done; [|by left].
  exists (Receive conn m, s), h1, e1, h2, (selectedAt (sel (rtu s))). split_and!; try done.
  - rewrite Hid in Hsel. assert (i' = i) as <- by lia. congruence.
  - rewrite Hact in Hexp. cbn in Hexp |- *. bool_facts. lia.
Qed.

Lemma run_begun masters hist s : length masters = length (Devices pm) →
  run pm clock station admits masters hist s → begun hist (pending (rtu s)).
Proof.
  intros Hl Hrun. induction Hrun as [|i hist s s' Hrun IH Hs]; [by intros ?|].
  pose proof (kn_sel _ _ (run_known _ _ _ Hl Hrun)) as Hsel.
  destruct (step_inv i s s' (run_SInv _ _ _ Hl Hrun) Hs) as [Heff _].
  destruct i as [conn kind|conn m| |d]; cbn [effect] in Heff.
  - destruct Heff as [_ [_ _ _ _ _ _ E7]]. eapply begun_same; [exact IH|done|].
    destruct E7 as [-> | ->]; cbn; auto 6.
  - destruct Heff as (_ & _ & [[_ E2]|Hc]); [rewrite E2; eapply begun_same; [exact IH|done|auto 6]|].
    by eapply begun_commanded.
  - destruct Heff as (_ & r2 & Hm & _ & (_ & _ & _ & Ha & _)).
    pose proof (mv_control _ _ _ Hm) as Hc. unfold control in Hc. injection Hc as _ Hp2 _ _ _.
    cbn [sel pending set_sel ticked] in Hp2. eapply begun_same; [exact IH|done|].
    destruct Ha as [|_|c x _ _ _]; [rewrite Hp2; auto 6|done|cbn; rewrite Hp2; auto 6].
  - destruct (workers s !! d) as [w|] eqn:Hd; [|rewrite Heff; eapply begun_same; [exact IH|done|auto 6]].
    destruct Heff as (w' & _ & Heff & _). apply worker_effect_pending in Heff as [_ Hpe].
    eapply begun_same; [exact IH|done|]. intros Ha. destruct (Hpe Ha) as (H1 & H2 & H3 & H4 & H5). auto 6.
Qed.

(** ** At most one field write per execution *)
Definition writes_now (e : entry) : bool :=
  match e.1 with
  | Worker d => match workers e.2 !! d with
                | Some w => match pc w with Writing _ _ _ => true | _ => false end
                | None => false
                end
  | _ => false
  end.
Definition executes_now (e : entry) : bool :=
  match e.1 with
  | Receive _ m => match activation pm m with Some (_, _, false) => true | _ => false end
  | _ => false
  end.
Definition count (f : entry → bool) (hist : list entry) : nat := length (List.filter f hist).

Lemma count_cons f e hist : count f (e :: hist) = ((if f e then 1 else 0) + count f hist)%nat.
Proof. unfold count. cbn. by destruct (f e). Qed.

(** The write of a pending command is still to be finished. *)
Definition unwritten (p : pendingCommand) : bool :=
  active p && negb (bool_decide (phase p = commandFeedback)).
Definition owed (p : pendingCommand) : nat := if unwritten p then 1 else 0.

Lemma unwritten_executed conn m now x0 p0 x1 p1 e : e.1 = Receive conn m →
  commanded pm conn m now x0 p0 x1 p1 → (owed p1 ≤ owed p0 + (if executes_now e then 1 else 0))%nat.
Proof.
  intros He [| |i v seq Ha|i v owned dl Ha Hno _ _ _ _ _]; try lia.
  unfold executes_now. rewrite He, Ha. unfold owed. destruct (unwritten _), (unwritten _); lia.
Qed.

Lemma advances_owed now r p : advances pm now r p → (owed p ≤ owed (pending r))%nat.
Proof.
  intros [|_|c x Hph _ _]; [done|cbn; lia|]. unfold owed, unwritten. cbn. rewrite Hph. done.
Qed.

(** A worker's step pays for the write it finishes. *)
Lemma worker_owed d w r w' r' : worker_ok d (pending r) w → worker_effect d w r w' r' →
  (owed (pending r') + (match pc w with Writing _ _ _ => 1 | _ => 0 end) ≤ owed (pending r))%nat.
Proof.
  intros [_ Hw] [Hn _ _ _ Hpe|c dev v Hn _ _ _ _ Hph _ _ _ _ Hpe|c dev v res m' Hpc _ _ _ _ Hpe
    |dev start began regs res m' Hpc _ _ _ _ (_ & _ & Hpe & _)].
  - destruct (pc w) as [|c dv v| |]; [|by destruct (Hn c dv v)|..];
      (destruct Hpe as [->|[_ ->]]; [lia|cbn; lia]).
  - destruct (pc w) as [|c' dv' v'| |]; [|by destruct (Hn c' dv' v')|..]; rewrite Hpe;
      unfold owed, unwritten; cbn [active phase set_phase]; rewrite Hph, !bool_decide_false by done; lia.
  - rewrite Hpc. destruct (Hw _ _ _ Hpc) as (Ha & Hph & _).
    assert (owed (pending r) = 1%nat) as -> by (unfold owed, unwritten; by rewrite Ha, Hph).
    destruct (RStatus res); [destruct Hpe as (ds & _ & ->)|rewrite Hpe; cbn; lia..].
    unfold owed, unwritten. cbn [active phase]. rewrite Ha, bool_decide_true by done. done.
  - rewrite Hpc, Hpe. lia.
Qed.

Lemma run_writes masters hist s : length masters = length (Devices pm) →
  run pm clock station admits masters hist s →
  (count writes_now hist + owed (pending (rtu s)) ≤ count executes_now hist)%nat.
Proof.
  intros Hl Hrun. induction Hrun as [|i hist s s' Hrun IH Hs]; [cbn; lia|].
  pose proof (run_SInv _ _ _ Hl Hrun) as Hinv. destruct (step_inv i s s' Hinv Hs) as [Heff _].
  rewrite !count_cons. destruct i as [conn kind|conn m| |d]; cbn [effect] in Heff; unfold writes_now at 1; cbn [fst snd].
  - destruct Heff as [_ [_ _ _ _ _ _ E7]]. cbn [executes_now fst].
    assert (owed (pending (rtu s')) = owed (pending (rtu s))) as ->; [|lia].
    by destruct E7 as [-> | ->].
  - destruct Heff as (_ & _ & [[_ E2]|Hc]); [rewrite E2; lia|].
    eapply (unwritten_executed _ _ _ _ _ _ _ (Receive conn m, s) eq_refl) in Hc. lia.
  - destruct Heff as (_ & r2 & Hm & _ & (_ & _ & _ & Ha & _)). apply advances_owed in Ha.
    pose proof (mv_control _ _ _ Hm) as Hc. unfold control in Hc. injection Hc as _ Hp2 _ _ _.
    rewrite Hp2 in Ha. cbn [pending set_sel ticked] in Ha. cbn [executes_now fst]. lia.
  - cbn [executes_now fst]. destruct (workers s !! d) as [w|] eqn:Hd; [|rewrite Heff; lia].
    destruct Heff as (w' & _ & Heff & _). apply worker_owed in Heff; [|by apply (si_worker _ Hinv)].
    destruct (pc w); lia.
Qed.

(** ** Feedback *)

(** The field write of command [c] that its device confirmed at [t], and a
    successful poll of a device. *)
Definition confirms (d : nat) (c : Command) (v t : Z) (e : entry) : Prop :=
  e.1 = Worker d ∧ ∃ w dv res m', workers e.2 !! d = Some w ∧ pc w = Writing c dv v ∧
    m_WriteSingle (Command_Address c) (u16 v) (TimeoutMS dv) (master w) = (res, m') ∧
    RStatus res = StatusOK ∧ t = clock (nows (rtu e.2)).
Definition polls (d : nat) (dev : Device) (began : Z) (regs : list Z) (e : entry) : Prop :=
  e.1 = Worker d ∧ ∃ w start res m', workers e.2 !! d = Some w ∧ pc w = Polling start began ∧
    poll_read dev (master w) = ((regs, res), m') ∧ RStatus res = StatusOK.

(** The image of a device is that of a poll of [hist]. *)
Definition image_known (hist : list entry) (d : nat) (dev : Device) (ds : deviceState) (r : RTU) : Prop :=
  ∃ a e b regs, hist = (a ++ e :: b)%list ∧ polls d dev (pollStart ds) regs e ∧
    image_from pm d dev regs 0 (points r).

Definition feedback_known (hist : list entry) (r : RTU) : Prop :=
  let p := pending r in
  active p = true → phase p = commandFeedback →
  ∃ h1 e h2 c d dev ds v, hist = (h1 ++ e :: h2)%list ∧ confirms d c v (afterTime p) e ∧
    Forall (λ e', active (pending (rtu e'.2)) = true) (h1 ++ [e])%list ∧
    Commands pm !! Z.to_nat (index_ p) = Some c ∧ Command_DeviceIndex c = Z.of_nat d ∧
    Devices pm !! d = Some dev ∧ v = write_register (Command_Kind c) (value_ p) ∧
    devices r !! d = Some ds ∧ (pollSeq ds = afterPoll p ∨ image_known h1 d dev ds r).

Lemma reads_as_raw p base regs x x' : raw_of x' = raw_of x → reads_as p base regs x → reads_as p base regs x'.
Proof.
  unfold raw_of, reads_as. intros H. injection H as H1 H2 _ H4 H5 _ H7. by rewrite H1, H2, H4, H5, H7.
Qed.

Lemma fmap_lookup {A B} (f : A → B) (l l' : list A) (i : nat) x' : f <$> l' = f <$> l → l' !! i = Some x' →
  ∃ x, l !! i = Some x ∧ f x' = f x.
Proof.
  intros H Hi. assert ((f <$> l) !! i = Some (f x')) as Hf by by rewrite <- H, list_lookup_fmap, Hi.
  rewrite list_lookup_fmap in Hf. destruct (l !! i) as [x|]; [|done]. injection Hf as Hf. by exists x.
Qed.

Lemma image_from_raw k dev regs l l' : raw_of <$> l' = raw_of <$> l →
  image_from pm k dev regs 0 l → image_from pm k dev regs 0 l'.
Proof.
  intros H Him j p x' Hj Hp Hx Hk. destruct (fmap_lookup raw_of l l' j x' H Hx) as (x & Hx0 & Hr).
  eapply reads_as_raw; [exact Hr|]. by eapply Him.
Qed.

(** Steps that keep the command, the device states and the values. *)
Lemma feedback_known_same e hist r r' :
  feedback_known hist r → rtu e.2 = r → same_command (pending r) (pending r') →
  raw_of <$> points r' = raw_of <$> points r → raw_device <$> devices r' = raw_device <$> devices r →
  feedback_known (e :: hist) r'.
Proof.
  intros H He (E1 & E2 & E3 & E4 & _ & E5 & E6) Hpts Hdev Ha Hp. rewrite E1 in Ha. rewrite E2 in Hp.
  destruct (H Ha Hp) as (h1 & e1 & h2 & c & d & dev & ds & v & -> & Hcf & Hact & Hc & Hcd & Hd & Hv & Hds & Himg).
  assert (∃ ds', devices r' !! d = Some ds' ∧ raw_device ds' = raw_device ds) as (ds' & Hds' & Hraw).
  { destruct (fmap_lookup raw_device (devices r') (devices r) d ds (eq_sym Hdev) Hds) as (x & Hx & Hr). by exists x. }
  unfold raw_device in Hraw. injection Hraw as _ Hps _ Hseq _.
  exists (e :: h1), e1, h2, c, d, dev, ds', v. rewrite E3, E4, E5, E6, Hseq. split_and!; try done.
  { apply Forall_cons. by rewrite He. }
  destruct Himg as [->|(a & e' & b & regs & -> & Hpo & Him)]; [by left|right].
  exists (e :: a), e', b, regs. rewrite Hps. split_and!; [done|done|]. by eapply image_from_raw.
Qed.

Lemma feedback_known_vacuous hist r :
  active (pending r) = false ∨ phase (pending r) ≠ commandFeedback → feedback_known hist r.
Proof. intros H Ha Hp. destruct H; congruence. Qed.

(** A poll refreshes the image of its device and leaves the others alone. *)
Lemma feedback_known_poll e hist d dev regs began r r' :
  feedback_known hist r → rtu e.2 = r → Devices pm !! d = Some dev → polls d dev began regs e →
  polled pm d dev regs began r r' → feedback_known (e :: hist) r'.
Proof.
  intros H He Hdev Hpo (_ & _ & Hp & _ & _ & _ & (ds0 & ds1 & Hds0 & Hds1 & Hst & _) & Him & Hoth) Ha Hph.
  rewrite Hp in *.
  destruct (H Ha Hph) as (h1 & e1 & h2 & c & d1 & dev1 & ds & v & -> & Hcf & Hact & Hc & Hcd & Hd & Hv & Hds & Himg).
  assert (Forall (λ e', active (pending (rtu e'.2)) = true) ((e :: h1) ++ [e1])%list) as Hact'
    by (apply Forall_cons; by rewrite He).
  destruct (decide (d1 = d)) as [->|Hne].
  - rewrite Hdev in Hd. injection Hd as <-. exists (e :: h1), e1, h2, c, d, dev, ds1, v.
    split_and!; try done; [rewrite Hds1; by eapply list_lookup_insert_eq, lookup_lt_Some|].
    right. exists [], e, h1, regs. by rewrite Hst.
  - exists (e :: h1), e1, h2, c, d1, dev1, ds, v. split_and!; try done; [by rewrite Hds1, list_lookup_insert_ne|].
    destruct Himg as [->|(a & e' & b & regs' & -> & Hpo' & Him')]; [by left|right].
    exists (e :: a), e', b, regs'. split_and!; [done|done|]. intros j p x Hj Hpj Hx Hk.
    eapply Him'; [exact Hj|exact Hpj| |exact Hk]. rewrite <- (Hoth j p); [done|done|]. rewrite Hk. lia.
Qed.

Lemma worker_feedback s d w w' r' hist : SInv s → workers s !! d = Some w →
  feedback_known hist (rtu s) → worker_effect d w (rtu s) w' r' →
  feedback_known ((Worker d, s) :: hist) r'.
Proof.
  intros Hinv Hd H Heff. destruct (si_worker _ Hinv d w Hd) as [_ Hw].
  destruct Heff as [_ _ Hq _ Hpe|c dev v _ _ _ _ _ _ _ _ _ _ Hpe|c dev v res m' Hpc _ Hres Hq _ Hpe
    |dev start began regs res m' Hpc _ Hdev Hr Hok Hpol].
  - destruct Hpe as [Hpe|[_ Hpe]]; [|apply feedback_known_vacuous; left; by rewrite Hpe].
    eapply feedback_known_same; [exact H|done|by rewrite Hpe|by rewrite (qu_points _ _ Hq)|by rewrite (qu_devices _ _ Hq)].
  - apply feedback_known_vacuous. right. by rewrite Hpe.
  - destruct (Hw _ _ _ Hpc) as (Hact & _ & H3 & H4 & H5 & H6).
    destruct (RStatus res) eqn:Hst; try (apply feedback_known_vacuous; left; by rewrite Hpe).
    destruct Hpe as (ds & Hds & Hpe). intros _ _. rewrite Hpe. cbn.
    exists [], (Worker d, s), hist, c, d, dev, ds, v. split_and!; try done.
    + split; [done|]. exists w, dev, res, m'. by split_and!.
    + by apply Forall_singleton.
    + by rewrite (qu_devices _ _ Hq).
    + by left.
  - eapply feedback_known_poll; [exact H|done|exact Hdev| |exact Hpol]. split; [done|]. by exists w, start, res, m'.
Qed.

Lemma commanded_pending conn m now x0 p0 x1 p1 : commanded pm conn m now x0 p0 x1 p1 →
  p1 = p0 ∨ phase p1 = commandStart.
Proof. intros []; auto. Qed.

Lemma run_feedback masters hist s : length masters = length (Devices pm) →
  run pm clock station admits masters hist s → feedback_known hist (rtu s).
Proof.
  intros Hl Hrun. induction Hrun as [|i hist s s' Hrun IH Hs]; [by apply feedback_known_vacuous; left|].
  pose proof (run_SInv _ _ _ Hl Hrun) as Hinv. destruct (step_inv i s s' Hinv Hs) as [Heff _].
  destruct i as [conn kind|conn m| |d]; cbn [effect] in Heff.
  - destruct Heff as [_ [E1 E2 _ _ _ _ E7]]. eapply feedback_known_same; [exact IH|done| |by rewrite E1|by rewrite E2].
    by destruct E7 as [-> | ->].
  - destruct Heff as (_ & Hh & [[_ E2]|Hc]).
    + eapply feedback_known_same; [exact IH|done|by rewrite E2|by apply Hh|by apply Hh].
    + destruct (commanded_pending _ _ _ _ _ _ _ Hc) as [E2|E2].
      * eapply feedback_known_same; [exact IH|done|by rewrite E2|by apply Hh|by apply Hh].
      * apply feedback_known_vacuous. right. by rewrite E2.
  - destruct Heff as (_ & r2 & Hm & _ & (Hh & _ & _ & Ha & _)).
    pose proof (mv_control _ _ _ Hm) as Hc. unfold control in Hc. injection Hc as _ Hp2 _ _ _.
    inversion Ha as [Hpe|Hpw Hpe|c x Hph _ _ Hpe].
    + eapply feedback_known_same; [exact IH|done|by rewrite <- Hpe, Hp2| |].
      * by rewrite (ha_points _ _ Hh), (mv_values _ _ _ Hm).
      * by rewrite (ha_devices _ _ Hh), (mv_raw _ _ _ Hm).
    + apply feedback_known_vacuous. left. by rewrite <- Hpe.
    + apply feedback_known_vacuous. right. by rewrite <- Hpe.
  - destruct (workers s !! d) as [w|] eqn:Hd; [|rewrite Heff; by eapply feedback_known_same].
    destruct Heff as (w' & _ & Heff & _). by eapply worker_feedback.
Qed.

(** ** The expected feedback *)
Definition expected_ok (p : pendingCommand) : Prop :=
  active p = true → phase p ≠ commandStart →
  ∀ c, Commands pm !! Z.to_nat (index_ p) = Some c → Command_Kind c ≠ RegulatingStep →
  expected p = value_ p.

Lemma expected_ok_same p p' : same_command p p' → expected_ok p → expected_ok p'.
Proof.
  unfold expected_ok. intros (E1 & E2 & E3 & E4 & E5 & _) H. by rewrite E1, E2, E3, E4, E5.
Qed.

Lemma worker_expected d w r w' r' : worker_effect d w r w' r' →
  (∀ c dv v, pc w = Writing c dv v → phase (pending r) = commandWriting) →
  expected_ok (pending r) → expected_ok (pending r').
Proof.
  intros Heff Hw H. destruct Heff as [_ _ _ _ Hpe|c dev v _ _ _ _ _ Hph _ _ _ _ Hpe|c dev v res m' Hpc _ _ _ _ Hpe
    |dev start began regs res m' _ _ _ _ _ (_ & _ & Hpe & _)].
  - by destruct Hpe as [->|[_ ->]].
  - rewrite Hpe. intros Ha _ c' Hc Hk. apply (H Ha) with (c := c'); [by rewrite Hph|done..].
  - destruct (RStatus res); try by rewrite Hpe. destruct Hpe as (ds & _ & ->). cbn.
    intros Ha _ c' Hc Hk. apply (H Ha) with (c := c'); [by rewrite (Hw _ _ _ Hpc)|done..].
  - by rewrite Hpe.
Qed.

Lemma run_expected masters hist s : length masters = length (Devices pm) →
  run pm clock station admits masters hist s → expected_ok (pending (rtu s)).
Proof.
  intros Hl Hrun. induction Hrun as [|i hist s s' Hrun IH Hs]; [done|].
  pose proof (run_SInv _ _ _ Hl Hrun) as Hinv. destruct (step_inv i s s' Hinv Hs) as [Heff _].
  destruct i as [conn kind|conn m| |d]; cbn [effect] in Heff.
  - destruct Heff as [_ [_ _ _ _ _ _ E7]]. eapply expected_ok_same; [|exact IH]. by destruct E7 as [-> | ->].
  - destruct Heff as (_ & _ & [[_ E2]|Hc]); [by rewrite E2|].
    destruct (commanded_pending _ _ _ _ _ _ _ Hc) as [->|E2]; [done|]. by intros _ H.
  - destruct Heff as (_ & r2 & Hm & _ & (_ & _ & _ & Ha & _)).
    pose proof (mv_control _ _ _ Hm) as Hc. unfold control in Hc. injection Hc as _ Hp2 _ _ _.
    destruct Ha as [|_|c x _ Hc _]; [by rewrite Hp2|done|]. intros _ _ c' Hc' Hk. cbn in *.
    rewrite Hc in Hc'. injection Hc' as <-. by rewrite bool_decide_false.
  - destruct (workers s !! d) as [w|] eqn:Hd; [|by rewrite Heff]. destruct Heff as (w' & _ & Heff & _).
    eapply worker_expected; [exact Heff| |exact IH]. intros c dv v Hpc.
    by destruct (proj2 (si_worker _ Hinv d w Hd) _ _ _ Hpc) as (_ & Hph & _).
Qed.

(** ** The write under way has a worker *)
Definition writer_known (s : Station (M := M)) : Prop :=
  active (pending (rtu s)) = true → phase (pending (rtu s)) = commandWriting →
  ∃ d w c dv v, workers s !! d = Some w ∧ pc w = Writing c dv v.

Lemma writer_known_same s s' : workers s' = workers s →
  same_command (pending (rtu s)) (pending (rtu s')) → writer_known s → writer_known s'.
Proof. unfold writer_known. intros -> (E1 & E2 & _). by rewrite E1, E2. Qed.

Lemma writer_known_idle d w w' s r' : workers s !! d = Some w → (∀ c dv v, pc w ≠ Writing c dv v) →
  pending r' = pending (rtu s) → writer_known s → writer_known (mkStation r' (<[d := w']> (workers s))).
Proof.
  intros Hd Hn Hp H. unfold writer_known. cbn. rewrite Hp. intros Ha Hph.
  destruct (H Ha Hph) as (d1 & w1 & c & dv & v & Hd1 & Hpc). exists d1, w1, c, dv, v. split; [|done].
  rewrite list_lookup_insert_ne; [done|]. intros ->. rewrite Hd in Hd1. injection Hd1 as ->. by destruct (Hn c dv v).
Qed.

Lemma worker_writer d w w' s r' : workers s !! d = Some w → worker_effect d w (rtu s) w' r' →
  writer_known s → writer_known (mkStation r' (<[d := w']> (workers s))).
Proof.
  intros Hd Heff H. destruct Heff as [Hn _ _ _ Hpe|c dev v Hn Hpc _ _ _ _ _ _ _ _ _|c dev v res m' _ _ _ _ _ Hpe
    |dev start began regs res m' Hpc _ _ _ _ (_ & _ & Hpe & _)].
  - destruct Hpe as [Hpe|[_ Hpe]]; [by eapply writer_known_idle|]. unfold writer_known. cbn. by rewrite Hpe.
  - intros _ _. exists d, w', c, dev, v. split; [|done]. cbn. by eapply list_lookup_insert_eq, lookup_lt_Some.
  - unfold writer_known. cbn. destruct (RStatus res); [destruct Hpe as (ds & _ & ->)|rewrite Hpe..]; done.
  - eapply writer_known_idle; [exact Hd|by rewrite Hpc|done|done].
Qed.

Lemma run_writer masters hist s : length masters = length (Devices pm) →
  run pm clock station admits masters hist s → writer_known s.
Proof.
  intros Hl Hrun. induction Hrun as [|i hist s s' Hrun IH Hs]; [done|].
  pose proof (run_SInv _ _ _ Hl Hrun) as Hinv. destruct (step_inv i s s' Hinv Hs) as [Heff _].
  destruct i as [conn kind|conn m| |d]; cbn [effect] in Heff.
  - destruct Heff as [Hw [_ _ _ _ _ _ E7]]. eapply writer_known_same; [done| |exact IH]. by destruct E7 as [-> | ->].
  - destruct Heff as (Hw & _ & Hc).
    assert (pending (rtu s') = pending (rtu s) ∨ phase (pending (rtu s')) = commandStart) as [E|E].
    { destruct Hc as [[_ E]|Hc]; [by left|]. by eapply commanded_pending. }
    + eapply writer_known_same; [done|by rewrite E|exact IH].
    + intros _. by rewrite E.
  - destruct Heff as (Hw & r2 & Hm & _ & (_ & _ & _ & Ha & _)).
    pose proof (mv_control _ _ _ Hm) as Hc. unfold control in Hc. injection Hc as _ Hp2 _ _ _.
    inversion Ha as [Hpe|_ Hpe|c x _ _ _ Hpe].
    + eapply writer_known_same; [done|by rewrite <- Hpe, Hp2|exact IH].
    + intros Ha'. by rewrite <- Hpe in Ha'.
    + intros _ Hph. by rewrite <- Hpe in Hph.
  - destruct (workers s !! d) as [w|] eqn:Hd; [|by rewrite Heff]. destruct Heff as (w' & Hws & Heff & _).
    pose proof (worker_writer d w w' s _ Hd Heff IH) as H. rewrite <- Hws in H. by destruct s'.
Qed.

End Station.
