(* ===== verification/RtuCorrect.v ===== *)
(** * The remote terminal unit: its guarantees

    What every reachable station of [Rtu] guarantees, for a map that passed
    the loader and any southbound master that keeps the promise of
    [MasterLaws]; the master of [ModbusMaster] keeps it. *)
From S2P Require Import GoLib FieldDevice FieldDeviceInv Prelude Iec104Types Iec104Time Iec104Elements Iec104Asdu PointMap.
From S2P Require Import PointMapValid ModbusServer ModbusMaster Rtu RtuInv RtuStation.

#[local] Open Scope string_scope.
#[local] Open Scope Z_scope.

(** ** The master of the Modbus package as southbound master

    [resolve] and [dial] are the name service and the network. *)
Section Southbound.
Context {D : Type} (net : list Z → D → sent * D) (unit_ : Z).
Context (resolve : string → Z → Status) (dial : Z → D → Status * D).

(** What a call leaves of the master; a transaction never panics, so the
    last case is void. *)
Definition run_master {A B} (call : MM A) (value : A → B) (none : B) (m : Master D) : B * Master D :=
  match call m with
  | (Ok a, m') => (value a, m')
  | (_, m') => (none, m')
  end.

Definition registers (a : option (list Z) * MResult) : list Z * MResult := (default [] a.1, a.2).

Definition Connect (timeout : Z) (m : Master D) : Status * Master D :=
  match dial timeout (peer_state m) with
  | (StatusOK, d) => (StatusOK, mkMaster (txid m) (Some []) d)
  | (st, d) => (st, mkMaster (txid m) None d)
  end.

Definition modbus_master : Master_ (Master D) := {|
  m_Resolve host port m := (resolve host port, m);
  m_Connect := Connect;
  m_IsConnected m := bool_decide (is_Some (conn m));
  m_Close := Close;
  m_ReadInput address count _ :=
    run_master (ReadInput net unit_ address count) registers ([], result IOError);
  m_ReadHolding address count _ :=
    run_master (ReadHolding net unit_ address count) registers ([], result IOError);
  m_WriteSingle address value _ :=
    run_master (WriteSingle net unit_ address value) id (result IOError)
|}.

(** A transaction returns, whatever the network does. *)
Lemma read_conn_returns n buf (m : Master D) : conn m = Some buf →
  ∃ o buf' m', read_conn n m = (Ok o, m') ∧ conn m' = Some buf'.
Proof.
  intros H. unfold read_conn. rewrite H. destruct (read_full n buf) as [[a rest]|]; by eexists _, _, _.
Qed.

Lemma transact_returns pdu (m : Master D) : ∃ r res m', transact net unit_ pdu m = (Ok (r, res), m').
Proof.
  unfold transact, st_bind, st_get, st_upd. destruct (conn m) as [buf|] eqn:Hc; [|by eexists _, _, _].
  destruct (net _ _) as [[| |reply] d']; [by eexists _, _, _..|].
  destruct (read_conn_returns 7 (buf ++ reply) (mkMaster (u16 (txid m + 1)) (Some (buf ++ reply)%list) d') eq_refl)
    as (o & buf' & m' & -> & Hm').
  destruct o as [[|t1 [|t0 [|p1 [|p0 [|n1 [|n0 [|u [|]]]]]]]]|]; try by eexists _, _, _.
  destruct (_ || _); [by eexists _, _, _|].
  destruct (read_conn_returns (Z.to_nat (be16 n1 n0) - 1) buf' m' Hm') as (o & buf2 & m2 & -> & _).
  by destruct o; eexists _, _, _.
Qed.

Lemma words_length l : Z.of_nat (length l) mod 2 = 0 → zlen (words l) * 2 = zlen l.
Proof.
  remember (length l) as n eqn:Hn. revert l Hn. induction (lt_wf n) as [n _ IH]. intros l -> Hm.
  destruct l as [|a [|b l]]; [done|done|]. cbn [words]. unfold zlen in *. cbn [length] in *.
  enough (Z.of_nat (length (words l)) * 2 = Z.of_nat (length l)) by lia.
  eapply IH; [|done|]; [lia|]. rewrite !Nat2Z.inj_succ in Hm.
  replace (Z.succ (Z.succ (Z.of_nat (length l)))) with (Z.of_nat (length l) + 1 * 2) in Hm by lia.
  by rewrite Z.mod_add in Hm.
Qed.

Lemma read_returns fc address count (m : Master D) : ∃ a m', read net unit_ fc address count m = (Ok a, m') ∧
  (RStatus a.2 = StatusOK → zlen (default [] a.1) = count).
Proof.
  unfold read. destruct (_ || _); [by eexists _, _|]. unfold st_bind.
  destruct (transact_returns (fc :: (put_be16 address ++ put_be16 count)%list) m) as (r & res & m' & ->).
  destruct (RStatus res) eqn:Hst; try (eexists _, _; split; [done|]; cbn; congruence).
  destruct r as [r|]; [|by eexists _, _]. destruct (is_exception fc r); [by eexists _, _|].
  destruct r as [|b0 [|b1 data]]; [by eexists _, _..|].
  destruct (negb (zlen _ =? _) || _ || _) eqn:Hg; [by eexists _, _|]. eexists _, _. split; [done|]. cbn. intros _.
  bool_facts. unfold zlen in *. cbn [length] in *.
  assert (Z.of_nat (length data) = count * 2) as Hl by lia.
  pose proof (words_length data) as Hw. unfold zlen in Hw. rewrite Hl, Z.mod_mul in Hw by lia. lia.
Qed.

Lemma modbus_master_laws : @MasterLaws (Master D) modbus_master.
Proof.
  assert (∀ fc address count m regs r m',
    run_master (read net unit_ fc address count) registers ([], result IOError) m = ((regs, r), m') →
    RStatus r = StatusOK → zlen regs = count) as Hread.
  { intros fc address count m regs r m'. unfold run_master.
    destruct (read_returns fc address count m) as (a & m1 & -> & Hl). intros Heq Hok. injection Heq as <- <- _. by apply Hl. }
  split; intros address count timeout; apply Hread.
Qed.
End Southbound.

Section Correct.
Context (pm : Map) (clock : nat → Z) (station : nat → civil * bool) (admits : nat → bool).
Context (Hpm : map_valid pm).
Context {M : Type} {ops : Master_ M} {laws : MasterLaws M}.
Context (masters : list M) (Hmasters : length masters = length (Devices pm)).
Implicit Types (s : Station (M := M)) (w : worker M).

Notation step := (step pm clock station admits (M := M)).
Notation run := (run pm clock station admits masters).

(** In every reachable station every input returns: no index out of
    range, no failed handler, whatever the clients send, the connections do,
    the clocks read and the field devices answer.  The station keeps at most
    eight started connections, all different, and every reconnect back-off
    between its initial value and the configured interval. *)
Theorem rtu_total hist s (i : input) : run hist s → input_ok i →
  ∃ s', step i s = Ok s' ∧ NoDup (started (rtu s')) ∧ (length (started (rtu s')) ≤ 8)%nat ∧
    Forall (λ w, initialBackoff pm ≤ backoff w ≤ ReconnectIntervalMS pm) (workers s').
Proof.
  intros Hrun Hi. pose proof (run_SInv pm clock station admits Hpm _ _ _ Hmasters Hrun) as Hinv.
  destruct (step_effect pm clock station admits Hpm i s Hinv Hi) as (s' & Hs & _). exists s'.
  destruct (step_inv pm clock station admits Hpm i s s' Hinv Hs) as [_ Hinv'].
  destruct (si_started _ _ Hinv') as [Hnd Hl]. split_and!; [done..|].
  apply Forall_lookup. intros d w Hd. exact (proj1 (si_worker _ _ Hinv' d w Hd)).
Qed.

(** C4. A register of a field device is written only for a command that one
    connection selected and then executed, with the same value both times and
    within the selection time limit; the write goes to the device of that
    command and has the register value of that command.  There are never more
    writes than executions: no command is written twice. *)
Theorem rtu_select_before_write hist s (d : nat) w (c : Command) (dv : Device) (v : Z) :
  run hist s → workers s !! d = Some w → pc w = Writing c dv v →
  (∃ conn i value, authorised pm clock hist conn i value ∧ Commands pm !! i = Some c ∧
     Command_DeviceIndex c = Z.of_nat d ∧ Devices pm !! d = Some dv ∧
     v = write_register (Command_Kind c) value) ∧
  (count writes_now hist < count (executes_now pm) hist)%nat.
Proof.
  intros Hrun Hd Hpc. pose proof (run_SInv pm clock station admits Hpm _ _ _ Hmasters Hrun) as Hinv.
  destruct (proj2 (si_worker _ _ Hinv d w Hd) _ _ _ Hpc) as (Ha & Hph & Hc & Hcd & Hdv & Hv). split.
  - destruct (kn_pending _ _ _ _ (run_known pm clock station admits Hpm _ _ _ Hmasters Hrun) Ha)
      as (conn & i & value & Hau & Hi & Hval & _). exists conn, i, value.
    rewrite Hi, Nat2Z.id in Hc. rewrite Hval in Hv. done.
  - pose proof (run_writes pm clock station admits Hpm _ _ _ Hmasters Hrun) as H.
    assert (owed (pending (rtu s)) = 1%nat) as Ho by (unfold owed, unwritten; by rewrite Ha, Hph). lia.
Qed.

(** The value a feedback point has in a poll. *)
Definition shows (k : Kind) (fb : Point) (base : Z) (regs : list Z) (v : Z) : Prop :=
  let register a := regs !! Z.to_nat (a - base) in
  match k with
  | PointMap.DoubleCommand => ∃ x, register (Point_Address fb) = Some x ∧ Z.land x 3 = v
  | PointMap.SingleCommand => ∃ x, register (Point_Address fb) = Some x ∧
      v = if bit_set x (Point_Bit fb) then 1 else 0
  | RegulatingStep => ∃ x t, register (Point_Address fb) = Some x ∧
      register (TransientAddress fb) = Some t ∧ i16 x = v ∧ bit_set t (TransientBit fb) = false
  | _ => False
  end.

Lemma quality_valid x p : pointQuality x p = 0 → valueInvalid x = false.
Proof.
  unfold pointQuality. destruct (valueInvalid x); [|done]. cbn [orb]. by destruct (unreachable x).
Qed.

Lemma feedback_shows k fb base regs x v :
  Point_Kind fb = feedback_kind k → kind_format (Point_Kind fb) (Point_Format fb) = true →
  reads_as fb base regs x → pointQuality x fb = 0 → feedback_matches k x v = true →
  shows k fb base regs v.
Proof.
  unfold feedback_matches, shows, reads_as. intros -> Hf Hr Hq Hm. pose proof (quality_valid x fb Hq) as Hv.
  destruct k; cbn in Hm; try done; rewrite ?orb_false_r in Hm; destruct (Point_Format fb); try done.
  - destruct Hr as (w & Hw & Hs). exists w. rewrite <- Hs. by apply Z.eqb_eq in Hm.
  - destruct Hr as (w & t & Hw & Ht & Htr & Hs). exists w, t. rewrite <- Htr, <- Hs by done. by apply andb_true_iff in Hm as [?%Z.eqb_eq ?%negb_true_iff].
  - destruct Hr as (w & Hw & Hs). exists w. rewrite <- Hs. by apply Z.eqb_eq in Hm.
Qed.

(** A command's feedback point. *)
Lemma command_feedback i c fb : Commands pm !! i = Some c → Points pm !! Z.to_nat (FeedbackIndex c) = Some fb →
  Point_Kind fb = feedback_kind (Command_Kind c) ∧ Point_DeviceIndex fb = Command_DeviceIndex c ∧
  kind_format (Point_Kind fb) (Point_Format fb) = true.
Proof.
  intros Hc Hfb. pose proof (mv_commands _ Hpm) as Hf.
  eapply Forall_lookup_1 in Hf as (_ & _ & _ & _ & _ & _ & _ & _ & p & Hp & Hk & Hd); [|exact Hc].
  rewrite Hfb in Hp. injection Hp as <-. split_and!; [done|done|].
  pose proof (mv_points _ Hpm) as Hpts. eapply Forall_lookup_1 in Hpts as (Hok & _); [|exact Hfb]. apply Hok.
Qed.

(** What stands behind a termination [m] sent to [conn]: [m] mirrors the
    request that [conn] executed after selecting the command; in every state
    since the execution this command is the pending one; its device confirmed
    the write, and a poll that began later shows the value. *)
Definition backed (hist : list entry) (conn : Z) (m : Message) (expected_step : Z) : Prop :=
  ∃ h1 e2 h2 e1 h3 hx i c d dev fb v regs t began h o,
    hist = (h1 ++ e2 :: h2 ++ e1 :: h3 ++ hx)%list ∧
    Forall (pends i v) (h1 ++ e2 :: h2 ++ e1 :: h3)%list ∧
    executed pm clock conn i v (ASDUMessage (mkASDU h [o])) hx ∧
    m = ASDUMessage (mkASDU (set_Cause ActivationTerm false (set_Count 1 h)) [o]) ∧
    Commands pm !! i = Some c ∧ Command_DeviceIndex c = Z.of_nat d ∧ Devices pm !! d = Some dev ∧
    Points pm !! Z.to_nat (FeedbackIndex c) = Some fb ∧
    confirms clock d c (write_register (Command_Kind c) v) t e1 ∧ polls d dev began regs e2 ∧ t < began ∧
    shows (Command_Kind c) fb (PollStart dev) regs
      (if bool_decide (Command_Kind c = RegulatingStep) then expected_step else v).

(** The termination repeats the request. *)
Lemma mirror_asdu a cot negative m : Mirror (ASDUMessage a) cot negative = Ok m →
  m = ASDUMessage (mkASDU (set_Cause cot negative (ASDU_GetHeader a)) (Objects a)).
Proof.
  unfold Mirror, cloneMessage, cloneASDU. intros [_ H]%guard_err_Ok. apply bind_Ok in H as (copy & H1 & H2).
  apply bind_Ok in H1 as (u & _ & [= <-]). by injection H2 as <-.
Qed.

Lemma concludes_request req i v p x : activation pm req = Some (i, v, false) → keeps req (request p) →
  concludes p x → ∃ h o, req = ASDUMessage (mkASDU h [o]) ∧
    x.2 = ASDUMessage (mkASDU (set_Cause ActivationTerm false (set_Count 1 h)) [o]).
Proof.
  intros Ha (h & Hh & Hk) [_ Hx]. destruct req as [[h0 [|o [|]]]| |]; try done.
  exists h0, o. split; [done|]. apply mirror_asdu in Hk. rewrite Hk in Hx. apply mirror_asdu in Hx. done.
Qed.

(** A confirmation since which a command has been pending comes after the
    execution that made it pending. *)
Lemma confirmed_since {A} (P : A → Prop) (h0 hx h1 h2 : list A) ex e :
  (h0 ++ ex :: hx = h1 ++ e :: h2)%list → ¬ P ex → Forall P (h1 ++ [e])%list →
  ∃ h3, h0 = (h1 ++ e :: h3)%list ∧ h2 = (h3 ++ ex :: hx)%list.
Proof.
  revert h0. induction h1 as [|e' h1 IH]; intros h0 Heq Hn Hf; cbn in Hf; apply Forall_cons in Hf as [Hp Hf].
  - destruct h0 as [|e0 h0]; cbn in Heq; injection Heq as -> Heq; [done|]. by exists h0.
  - destruct h0 as [|e0 h0]; cbn in Heq; injection Heq as -> Heq; [done|].
    destruct (IH h0 Heq Hn Hf) as (h3 & -> & ->). by exists h3.
Qed.

Lemma evidence_backed hist now r x : feedback_known pm clock hist r → begun pm clock hist (pending r) →
  expected_ok pm (pending r) → evidence pm now r → concludes (pending r) x → x.1 ≠ 0 →
  backed hist x.1 x.2 (expected (pending r)).
Proof.
  intros Hf Hk He (Ha & Hph & _ & c & fb & dev & ds & y & Hc & Hfb & Hdev & Hds & Hy & Hfr & Hm) Hcon Hnz.
  destruct (Hf Ha Hph) as (h1 & e & h2 & c' & d & dev' & ds' & v & Hh & Hcf & Hact & Hc' & Hcd & Hd & Hv & Hds' & Himg).
  rewrite Hc in Hc'. injection Hc' as <-. rewrite Hcd, Nat2Z.id in *.
  rewrite Hdev in Hd. injection Hd as <-. rewrite Hds in Hds'. injection Hds' as <-.
  destruct (Hk Ha) as (h0 & hx & from & i & value & req & Hh0 & Hex & Hpends & Hi & Hval & Hid & Hkeep).
  pose proof Hex as (ex & hs & sl & ht & t & Hhx & Hrec & Hactiv & Hidle & _).
  destruct (concludes_request _ _ _ _ _ Hactiv Hkeep Hcon) as (h & o & -> & Hx).
  assert (from = x.1) as -> by (destruct Hcon as [Hc1 _]; destruct Hid; congruence).
  rewrite Hi, Nat2Z.id in Hc. destruct (command_feedback i c fb Hc Hfb) as (Hkind & Hdi & Hfmt).
  destruct (confirmed_since (λ e, active (pending (rtu e.2)) = true) h0 (hs ++ sl :: ht)%list h1 h2 ex e)
    as (h3 & -> & ->); [rewrite Hhx in Hh0; exact (eq_trans (eq_sym Hh0) Hh)|by rewrite Hidle|done|].
  unfold fresh in Hfr. bool_facts. destruct Himg as [Heq|(a & e' & b & regs & -> & Hpo & Him)]; [lia|].
  exists a, e', b, e, h3, hx, i, c, d, dev, fb, value, regs, (afterTime (pending r)), (pollStart ds), h, o.
  rewrite <- app_assoc in Hpends. split_and!; try done.
  - by rewrite Hh0, <- !app_assoc.
  - by rewrite Hv, Hval in Hcf.
  - eapply feedback_shows; [exact Hkind|exact Hfmt| |done|].
    + eapply Him; [|exact Hfb|exact Hy|congruence]. lia.
    + case_bool_decide as Hrs; [exact Hm|]. rewrite <- Hval, <- (He Ha) with (c := c); [done|by rewrite Hph| |done].
      by rewrite Hi, Nat2Z.id.
Qed.

(** C5. A positive termination of a control command tells the truth.  Only a
    tick sends one, only to the connection that owns the pending command
    (identifiers of connections begin at 1), and it mirrors the request that
    this connection executed, while no other command was pending, after
    selecting the same command with the same value in time.  From that
    execution to the tick this command was the pending one in every state, and
    meanwhile its device confirmed the write of its value, and a poll of that
    device begun after the confirmation returned registers that show the
    commanded position (for a step command the expected tap position, with the
    changer at rest). *)
Theorem rtu_termination_backed hist s s' (i : input) (conn : Z) (m : Message) :
  run ((i, s) :: hist) s' → conn ≠ 0 →
  (conn, m) ∈ drop (length (sent_ (rtu s))) (sent_ (rtu s')) → finishes m →
  i = Tick ∧ id_ (pending (rtu s)) = conn ∧
  backed ((i, s) :: hist) conn m (expected (pending (rtu s))).
Proof.
  intros Hrun Hnz Hin Hfin. inversion Hrun as [|i' h s0 s1 Hrun' Hstep]; subst.
  pose proof (run_SInv pm clock station admits Hpm _ _ _ Hmasters Hrun') as Hinv.
  assert (i = Tick) as ->.
  { assert (i ≠ Tick → False) as Hnn; [|destruct i; try done; by destruct Hnn]. intros Hne.
    destruct (step_silent pm clock station admits Hpm i s s' Hinv Hstep Hne) as (l & Hl & Hf).
    rewrite Hl, drop_app_length in Hin. rewrite Forall_forall in Hf. exact (Hf _ Hin Hfin). }
  pose proof (finishes_terminates m Hfin) as Hterm.
  destruct (step_inv pm clock station admits Hpm Tick s s' Hinv Hstep) as [Heff _].
  destruct Heff as (_ & r2 & Hm & _ & (_ & _ & _ & _ & (l2 & Hl2 & Hs2))).
  destruct (mv_sent _ _ _ Hm) as (l1 & Hl1 & Hs1). cbn [sent_ set_sel ticked] in Hl1.
  rewrite Hl2, Hl1, <- app_assoc, drop_app_length in Hin.
  pose proof (mv_control _ _ _ Hm) as Hc. unfold control in Hc. injection Hc as _ Hp2 _ _ _. cbn in Hp2.
  apply elem_of_app in Hin as [Hin|Hin].
  { rewrite Forall_forall in Hs1. exfalso. eapply report_not_terminates; [exact Hpm|exact (Hs1 _ Hin)|exact Hterm]. }
  rewrite Forall_forall in Hs2. destruct (Hs2 _ Hin Hterm) as [Hev Hcon]. split; [done|].
  split; [rewrite <- Hp2; symmetry; exact (proj1 Hcon)|]. rewrite <- Hp2.
  apply (evidence_backed _ (clock (nows (rtu s))) r2 (conn, m)); [| | |exact Hev|exact Hcon|done].
  - eapply feedback_known_same; [by eapply run_feedback|done|by rewrite Hp2|by apply Hm|by apply Hm].
  - eapply begun_same; [by eapply run_begun|done|]. rewrite Hp2. auto 6.
  - rewrite Hp2. by eapply run_expected.
Qed.

(** ** Interrogation *)

(** The current value of a point as an information object, and of all. *)
Definition point_object (ps : Point * pointState) : option Object :=
  match plain_element ps.1 ps.2 with
  | Ok (_, e) => Some (mkObject (u32 (Point_IOA ps.1)) e)
  | _ => None
  end.
Definition station_image (r : RTU) : list Object := omap point_object (zip (Points pm) (points r)).

Lemma image_partition (l : list (Point * pointState)) : Forall (λ ps, monitoring (Point_Kind ps.1)) l →
  concat ((λ k, omap (image_object false 0 k) l) <$> image_order) ≡ₚ omap point_object l.
Proof.
  unfold image_order. cbn [fmap list_fmap concat]. rewrite app_nil_r.
  induction 1 as [|ps l Hk _ IH]; [done|]. cbn [omap list_omap].
  assert (∀ k, image_object false 0 k ps =
    if bool_decide (Point_Kind ps.1 = k) then point_object ps else None) as Hi.
  { intros k. unfold image_object, due, point_object. cbn [negb orb]. by rewrite andb_true_r. }
  rewrite !Hi. destruct (point_object ps) as [o|]; [|repeat case_bool_decide; exact IH].
  unfold monitoring in Hk. destruct (Point_Kind ps.1); try (exfalso; set_solver);
    repeat case_bool_decide; try done; rewrite <- IH; cbn [app];
    rewrite <- ?Permutation_middle; done.
Qed.

Lemma image_complete r : shape pm r →
  concat ((λ k, image_objects pm false 0 k 0 r) <$> image_order) ≡ₚ station_image r ∧
  length (station_image r) = length (Points pm).
Proof.
  intros Hsh. pose proof (mv_points _ Hpm) as Hpts. split.
  - apply image_partition. apply Forall_forall. intros [p x] (i & Hi)%list_elem_of_lookup.
    apply lookup_zip_Some in Hi as [Hp _]. by eapply point_kind.
  - assert (Forall (λ ps, is_Some (point_object ps)) (zip (Points pm) (points r))) as Hall.
    { apply Forall_forall. intros [p x] (i & Hi)%list_elem_of_lookup.
      apply lookup_zip_Some in Hi as [Hp Hx]. destruct (shape_point pm r i p Hsh Hp) as (x' & Hx' & Hstep).
      rewrite Hx in Hx'. injection Hx' as <-. unfold point_object. cbn.
      destruct (plain_element_ok p x) as (typ & e & ->); [by eapply point_kind|done|]. done. }
    unfold station_image.
    assert (length (zip (Points pm) (points r)) = length (Points pm)) as <-.
    { rewrite length_zip, (sh_points _ _ Hsh). lia. }
    induction Hall as [|ps l [o Ho] _ IH]; [done|]. cbn [omap list_omap]. rewrite Ho. cbn. by f_equal.
Qed.

(** A message of the answer: it encodes within the size limit, under the
    cause, the originator and the station of the interrogation. *)
Definition image_message (oa : Z) (m : Message) : Prop :=
  ∃ a bytes, m = ASDUMessage a ∧ ASDU_MarshalBinary DefaultParams a = Ok bytes ∧
    (length bytes ≤ MaxASDUSize)%nat ∧ Cause (AHeader a) = InterrogatedStation ∧
    Originator (AHeader a) = oa ∧ CommonAddress (AHeader a) = CA pm.

Lemma image_msg_encodes k oa m : image_msg pm k false oa m → image_message oa m.
Proof.
  intros (b & (Hi & Hp & Hh) & ->). destruct (builder_marshal b Hi) as (bytes & Hm & Hl). rewrite Hp in Hm.
  exists (Builder_ASDU b), bytes. split_and!; try done.
  - rewrite Hl. apply Hi.
  - unfold Builder_ASDU. cbn. by rewrite Hh.
  - unfold Builder_ASDU. cbn. by rewrite Hh.
  - unfold Builder_ASDU. cbn. rewrite Hh. cbn. pose proof (mv_ca _ Hpm). unfold u16. apply Z.mod_small. lia.
Qed.

Lemma image_concat ks r oa mss :
  Forall2 (λ k ms, Forall (image_msg pm k false oa) ms ∧
    concat (msg_objects <$> ms) = image_objects pm false 0 k 0 r) ks mss →
  Forall (image_message oa) (concat mss) ∧
  concat (msg_objects <$> concat mss) = concat ((λ k, image_objects pm false 0 k 0 r) <$> ks).
Proof.
  induction 1 as [|k ms ks mss [Hf Ho] _ [IH1 IH2]]; [done|]. cbn [concat fmap list_fmap]. split.
  - apply Forall_app. split; [|done]. eapply Forall_impl; [exact Hf|]. apply image_msg_encodes.
  - by rewrite fmap_app, concat_app, Ho, IH2.
Qed.

Definition answer (h : Header) (o : Object) (cot : Z) : Message :=
  ASDUMessage (mkASDU (set_Cause cot false (set_Count 1 h)) [o]).

Lemma interrogation_answered conn h o X r : shape pm r → Cause h ≠ Deactivation →
  Element_ o = Interrogation 20 →
  wpe (interrogation pm station admits conn (ASDUMessage (mkASDU h [o])) (set_Count 1 h))
    (λ _ r', ∃ image, sent_ r' = (sent_ r ++ ((λ x, (conn, x)) <$>
         (answer h o ActivationCon :: image ++ [answer h o ActivationTerm])))%list ∧
       points r' = points r ∧ Forall (image_message (Originator h)) image ∧
       concat (msg_objects <$> image) ≡ₚ station_image r) X r.
Proof.
  intros Hsh Hc He. unfold interrogation.
  assert (∀ cot, cot ≤ 63 → Mirror (ASDUMessage (mkASDU h [o])) cot false = Ok (answer h o cot)) as Hm.
  { intros cot Hcot. unfold Mirror. rewrite (proj2 (Z.ltb_ge _ _)) by done. destruct o as [a e]. cbn in He. by subst e. }
  cbn [Count set_Count Cause Z.eqb]. rewrite (proj2 (Z.eqb_neq _ _)), He by done. cbn [Z.eqb Pos.eqb negb].
  apply wpe_bind. eapply wpe_mono; [apply reply_ok| |done]. intros [] r1 [[Hq _ _ _] Hs1].
  specialize (Hs1 _ (Hm ActivationCon ltac:(done))).
  assert (shape pm r1) as Hsh1 by (eapply shape_handled; [exact Hsh|by apply quiet_handled]).
  apply wpe_bind, wpe_build.
  eapply wpe_mono; [apply (interrogation_image_ok pm station admits Hpm conn (Originator h) (λ _, False)); exact Hsh1| |done].
  intros [] r2 (Him & mss & Hall & Hs2).
  eapply wpe_mono; [apply reply_ok| |done]. intros [] r3 [[Hq3 _ _ _] Hs3].
  specialize (Hs3 _ (Hm ActivationTerm ltac:(done))). destruct (image_concat _ _ _ _ Hall) as [Hf Ho].
  assert (points r1 = points r) as Hp1 by apply Hq.
  exists (concat mss). split_and!.
  - rewrite Hs3, Hs2, Hs1. cbn [fmap list_fmap]. rewrite fmap_app, <- !app_assoc. done.
  - rewrite (qu_points _ _ Hq3), (im_still _ _ _ _ _ Him) by done. done.
  - done.
  - rewrite Ho. unfold image_objects. rewrite Hp1. by apply image_complete.
Qed.

(** C35. A general interrogation is answered in full: the confirmation, then
    the current value of every point of the map exactly once, in messages that
    all encode within the size limit and carry the station's address and the
    asker's originator, then the termination; the answer goes to the asking
    connection only and leaves the process image as it was. *)
Theorem rtu_interrogation hist s (conn : Z) (h : Header) (o : Object) :
  run hist s → Type_ h = C_IC_NA_1 → Cause h ≠ Deactivation → Element_ o = Interrogation 20 →
  ∃ s' image, step (Receive conn (ASDUMessage (mkASDU h [o]))) s = Ok s' ∧
    sent_ (rtu s') = (sent_ (rtu s) ++ ((λ x, (conn, x)) <$>
      (answer h o ActivationCon :: image ++ [answer h o ActivationTerm])))%list ∧
    Forall (image_message (Originator h)) image ∧
    concat (msg_objects <$> image) ≡ₚ station_image (rtu s) ∧
    length (station_image (rtu s)) = length (Points pm) ∧
    points (rtu s') = points (rtu s).
Proof.
  intros Hrun Ht Hc He. pose proof (run_SInv pm clock station admits Hpm _ _ _ Hmasters Hrun) as Hinv.
  pose proof (si_shape _ _ Hinv) as Hsh.
  destruct (wpe_elim _ _ _ (interrogation_answered conn h o (λ _, False) _ Hsh Hc He))
    as ([] & r' & Hr & image & Hs & Hp & Hf & Ho).
  exists (mkStation r' (workers s)), image. split_and!; try done; [|by apply image_complete].
  cbn [Rtu.step]. unfold on_rtu, receive, st_bind, lift. cbn [Message_GetHeader].
  change (ASDU_GetHeader (mkASDU h [o])) with (set_Count 1 h). cbn [set_Count Type_]. rewrite Ht.
  cbn [Z.eqb Pos.eqb C_IC_NA_1]. by rewrite Hr.
Qed.

(** ** Commands end *)
Lemma advance_expired now X r : shape pm r → 0 ≤ index_ (pending r) < zlen (Commands pm) →
  active (pending r) = true → phase (pending r) ≠ commandWriting → deadline (pending r) ≤ now →
  wpe (advanceCommand pm station admits now) (λ _ r', pending r' = no_pending) X r.
Proof.
  intros Hsh Hidx Ha Hph Hd. unfold advanceCommand. apply wpe_bind, wpe_get. rewrite Ha. cbn [negb].
  destruct (command_parts pm Hpm _ r Hsh Hidx)
    as (i & c & k & dev & d & j & fb & x & Hi & Hc & Hk & Hdev & Hds & Hj & Hfb & Hx & _).
  rewrite Hi. apply wpe_bind. eapply wpe_index_nat; [exact Hc|]. rewrite Hj, Hk.
  apply wpe_bind. eapply wpe_index_nat; [exact Hfb|]. apply wpe_bind. eapply wpe_index_nat; [exact Hdev|].
  apply wpe_bind. eapply wpe_device_at; [exact Hds|]. apply wpe_bind. eapply wpe_point_at; [exact Hx|].
  rewrite (proj2 (Z.leb_le _ _) Hd).
  assert (∀ cot, wpe (do? pendingReply admits cot true in finishCommand) (λ _ r', pending r' = no_pending) X r) as Hrefuse.
  { intros cot. eapply wpe_mono; [apply (refuse_ok admits cot (λ _, False))| |done]. by intros [] r' (_ & _ & _ & H & _). }
  destruct (phase (pending r)); [exact (Hrefuse _)..|done|exact (Hrefuse _)].
Qed.

Lemma tick_expired s : SInv pm s → active (pending (rtu s)) = true →
  phase (pending (rtu s)) ≠ commandWriting → deadline (pending (rtu s)) ≤ clock (nows (rtu s)) →
  ∃ s', step Tick s = Ok s' ∧ pending (rtu s') = no_pending.
Proof.
  intros Hinv Ha Hph Hd. pose proof (si_shape _ _ Hinv) as Hsh. pose proof (si_pending _ _ Hinv Ha) as Hidx.
  enough (wpe (tick pm clock station admits) (λ _ r', pending r' = no_pending) (λ _, False) (rtu s)) as H.
  { destruct (wpe_elim _ _ _ H) as ([] & r' & Hr & Hp). exists (mkStation r' (workers s)).
    cbn [Rtu.step]. unfold on_rtu. by rewrite Hr. }
  unfold tick. apply wpe_bind, wpe_Now. apply wpe_bind, wpe_get. apply wpe_bind.
  eapply wpe_mono with (Q' := λ _ r1, shape pm r1 ∧ pending r1 = pending (rtu s)) (X' := λ _, False); [|..|done].
  { assert (shape pm (ticked (rtu s))) as Hsh1 by (eapply shape_quiet; [exact Hsh|apply quiet_ticked]).
    apply wpe_when; intros _; [apply wpe_upd|done]. split; [|done]. by eapply shape_quiet, quiet_sel. }
  intros [] r1 [Hsh1 Hp1]. apply wpe_bind.
  eapply wpe_mono; [by apply (evaluate_ok pm clock station admits Hpm _ (λ _, False))| |done].
  intros [] r2 [Hm _]. pose proof (mv_control _ _ _ Hm) as Hc. unfold control in Hc. injection Hc as _ Hp2 _ _ _.
  apply advance_expired; rewrite ?Hp2, ?Hp1; try done. by eapply shape_moves.
Qed.

Lemma writer_steps s d w c dv v : SInv pm s → workers s !! d = Some w → pc w = Writing c dv v →
  ∃ s', step (Worker d) s = Ok s' ∧
    (pending (rtu s') = no_pending ∨ phase (pending (rtu s')) = commandFeedback ∧
     deadline (pending (rtu s')) ≤ clock (S (nows (rtu s))) + Z.max 5000 (TimeoutMS dv)).
Proof.
  intros Hinv Hd Hpc. destruct (step_effect pm clock station admits Hpm (Worker d) s Hinv I) as (s' & Hs & Heff).
  exists s'. split; [done|]. cbn [effect] in Heff. rewrite Hd in Heff. destruct Heff as (w' & _ & Heff & _).
  destruct Heff as [Hn _ _ _ _|c' dev v' Hn _ _ _ _ _ _ _ _ _ _|c' dev v' res m' Hpc' _ _ _ _ Hpe|dev start began regs res m' Hpc' _ _ _ _ _];
    [by destruct (Hn c dv v)|by destruct (Hn c dv v)| |congruence].
  rewrite Hpc in Hpc'. injection Hpc' as <- <- <-.
  destruct (RStatus res); [|by left..]. destruct Hpe as (ds & _ & ->). right. split; [done|].
  cbn. case_bool_decide; lia.
Qed.

(** No command stays for ever, whatever the field does: while one is
    pending, either its deadline is set and the first tick whose clock reading
    has passed it clears the command, or its write is under way in the worker
    of its device, and the end of that write clears it or gives it a deadline
    for the feedback. *)
Theorem rtu_command_ends hist s : run hist s → active (pending (rtu s)) = true →
  (phase (pending (rtu s)) ≠ commandWriting → deadline (pending (rtu s)) ≤ clock (nows (rtu s)) →
     ∃ s', step Tick s = Ok s' ∧ pending (rtu s') = no_pending) ∧
  (phase (pending (rtu s)) = commandWriting →
     ∃ d w c dv v s', workers s !! d = Some w ∧ pc w = Writing c dv v ∧ step (Worker d) s = Ok s' ∧
       (pending (rtu s') = no_pending ∨ phase (pending (rtu s')) = commandFeedback ∧
        deadline (pending (rtu s')) ≤ clock (S (nows (rtu s))) + Z.max 5000 (TimeoutMS dv))).
Proof.
  intros Hrun Ha. pose proof (run_SInv pm clock station admits Hpm _ _ _ Hmasters Hrun) as Hinv.
  split; [by apply tick_expired|]. intros Hph.
  destruct (run_writer pm clock station admits Hpm _ _ _ Hmasters Hrun Ha Hph) as (d & w & c & dv & v & Hd & Hpc).
  destruct (writer_steps s d w c dv v Hinv Hd Hpc) as (s' & Hs & Hp). by exists d, w, c, dv, v, s'.
Qed.
End Correct.

(** ** The feeder breaker operated through the station

    The composed system: station, master, server and device model. *)

Definition breaker_net : list Z → FieldDevice.Model → sent * FieldDevice.Model :=
  server_net (dev := field_device demo_clock 0) (λ p, mkContext p "modbus" "control") "10.40.40.10:50000".
Definition breaker_master : Master_ (Master FieldDevice.Model) :=
  modbus_master breaker_net 1 (λ _ _, StatusOK) (λ _ d, (StatusOK, d)).
#[local] Existing Instance breaker_master.
#[local] Instance breaker_laws : MasterLaws (Master FieldDevice.Model).
Proof. apply modbus_master_laws. Qed.

Definition demo_masters : list (Master FieldDevice.Model) := [mkMaster 0 None (sample_on breaker0 20)].
Definition demo_clock_ms (n : nat) : Z := 1000 + 100 * Z.of_nat n.
Definition demo_station (_ : nat) : civil * bool := (mkCivil 2026 1 1 0 0 0 0, true).
Definition demo_step := step demo demo_clock_ms demo_station (λ _, true) (M := Master FieldDevice.Model).

Fixpoint demo_run (l : list input) (hist : list (input * Station)) (s : Station)
    : option (list (input * Station) * Station) :=
  match l with
  | [] => Some (hist, s)
  | i :: l' => match demo_step i s with Ok s' => demo_run l' ((i, s) :: hist) s' | _ => None end
  end.

Definition open_breaker (select : bool) : input :=
  Receive 7 (ASDUMessage (mkASDU (mkHeader C_DC_NA_1 false 1 Activation false false 0 1)
    [mkObject 3001 (Iec104Elements.DoubleCommand (if select then 129 else 1))])).

Definition demo_start : list input :=
  [Connection 7 Started; Worker 0; Worker 0; Worker 0; open_breaker true; open_breaker false;
   Worker 0; Worker 0; Worker 0; Tick; Worker 0].

Definition demo_state (l : list input) := demo_run l [] (init demo demo_masters).


Notation demo_reaches := (run demo demo_clock_ms demo_station (λ _, true) demo_masters).

Lemma demo_run_runs l hist s hist' s' : demo_reaches hist s → demo_run l hist s = Some (hist', s') →
  demo_reaches hist' s'.
Proof.
  revert hist s. induction l as [|i l IH]; intros hist s Hr; cbn [demo_run]; [by intros [= <- <-]|].
  destruct (demo_step i s) as [s1| | |] eqn:Hs; try done. apply IH. by apply run_cons.
Qed.
Lemma demo_state_runs l hist s : demo_state l = Some (hist, s) → demo_reaches hist s.
Proof. intros H. exact (demo_run_runs l _ _ _ _ (run_nil _ _ _ _ _) H). Qed.

(** What is seen of a state. *)
Definition demo_see {A} (f : Station (M := Master FieldDevice.Model) → A) (l : list input) : option A :=
  (λ x, f x.2) <$> demo_state l.
Lemma demo_seen {A} f l (a : A) : demo_see f l = Some a →
  ∃ hist s, demo_state l = Some (hist, s) ∧ demo_reaches hist s ∧ f s = a.
Proof.
  unfold demo_see. destruct (demo_state l) as [[hist s]|] eqn:H; [|done]. intros [= <-].
  exists hist, s. split_and!; [done|by eapply demo_state_runs|done].
Qed.

(** The message that finds nothing to do and the one that opens the breaker. *)
Lemma rtu_total_witness : ∃ hist s s', demo_state demo_start = Some (hist, s) ∧
  demo_step (Receive 7 (RawMessage (mkRaw (mkHeader C_DC_NA_1 false 1 Activation false false 0 1) [] None))) s = Ok s' ∧
  NoDup (started (rtu s')).
Proof.
  destruct (demo_seen (λ s, nows (rtu s)) demo_start 15%nat) as (hist & s & Hs & Hr & _); [by vm_compute|].
  destruct (rtu_total demo demo_clock_ms demo_station (λ _, true) demo_valid demo_masters eq_refl hist s
    (Receive 7 (RawMessage (mkRaw (mkHeader C_DC_NA_1 false 1 Activation false false 0 1) [] None))) Hr)
    as (s' & Hs' & Hnd & _); [done|]. exact (ex_intro _ hist (ex_intro _ s (ex_intro _ s' (conj Hs (conj Hs' Hnd))))).
Defined.

(** The register value the breaker's worker is about to write. *)
Definition demo_writing (s : Station (M := Master FieldDevice.Model)) : option Z :=
  match pc <$> (workers s !! 0%nat) with Some (Writing _ _ v) => Some v | _ => None end.

Lemma rtu_select_before_write_witness : ∃ hist s conn i v,
  demo_state demo_start = Some (hist, s) ∧ demo_writing s = Some 1 ∧
  authorised demo demo_clock_ms hist conn i v ∧
  (count writes_now hist < count (executes_now demo) hist)%nat.
Proof.
  destruct (demo_seen demo_writing demo_start (Some 1)) as (hist & s & Hs & Hr & Hw); [by vm_compute|].
  pose proof Hw as Hw'. unfold demo_writing in Hw'. destruct (workers s !! 0%nat) as [w|] eqn:Hd; [|discriminate Hw'].
  cbn [fmap option_fmap option_map] in Hw'. destruct (pc w) as [|c dv v| |] eqn:Hpc; try discriminate Hw'.
  destruct (rtu_select_before_write demo demo_clock_ms demo_station (λ _, true) demo_valid demo_masters eq_refl
    hist s 0 w c dv v Hr Hd Hpc) as [(conn & i & value & Ha & _) Hn].
  exists hist, s, conn, i, value. split; [exact Hs|]. split; [exact Hw|]. split; [exact Ha|exact Hn].
Defined.

Definition demo_answers : list input := (demo_start ++ [Worker 0; Worker 0; Worker 0])%list.

Lemma rtu_termination_backed_witness : ∃ hist s m e, demo_state demo_answers = Some (hist, s) ∧
  backed demo demo_clock_ms ((Tick, s) :: hist) 7 m e.
Proof.
  assert (demo_see (λ s, match demo_step Tick s with
      | Ok s' => (λ x : Z * Message, (x.1, Message_GetHeader x.2)) <$> last (drop (length (sent_ (rtu s))) (sent_ (rtu s')))
      | _ => None end) demo_answers =
    Some (Some (7, Ok (mkHeader C_DC_NA_1 false 1 ActivationTerm false false 0 1)))) as H by by vm_compute.
  apply demo_seen in H as (hist & s & Hs & Hr & Ht).
  destruct (demo_step Tick s) as [s'| | |] eqn:Hst; try discriminate Ht.
  destruct (last (drop _ _)) as [[conn m]|] eqn:Hl; [|discriminate Ht]. injection Ht as Hc Hh. cbn in Hc, Hh. subst conn.
  exists hist, s, m, (expected (pending (rtu s))). split; [exact Hs|].
  apply (rtu_termination_backed demo demo_clock_ms demo_station (λ _, true) demo_valid demo_masters eq_refl
    hist s s' Tick 7 m).
  - exact (run_cons _ _ _ _ _ _ _ _ _ Hr Hst).
  - discriminate.
  - exact (last_Some_elem_of _ _ Hl).
  - refine (ex_intro _ _ (conj Hh (conj eq_refl (conj eq_refl _)))). apply list_elem_of_here.
Defined.

Definition ask_all : Header := mkHeader C_IC_NA_1 false 1 Activation false false 3 1.

Lemma rtu_interrogation_witness : ∃ hist s s' image, demo_state demo_start = Some (hist, s) ∧
  demo_step (Receive 7 (ASDUMessage (mkASDU ask_all [mkObject 0 (Interrogation 20)]))) s = Ok s' ∧
  concat (msg_objects <$> image) ≡ₚ station_image demo (rtu s) ∧
  length (station_image demo (rtu s)) = 2%nat.
Proof.
  destruct (demo_seen (λ s, nows (rtu s)) demo_start 15%nat) as (hist & s & Hs & Hr & _); [by vm_compute|].
  destruct (rtu_interrogation demo demo_clock_ms demo_station (λ _, true) demo_valid demo_masters eq_refl hist s
    7 ask_all (mkObject 0 (Interrogation 20)) Hr) as (s' & image & H1 & _ & _ & H2 & H3 & _); [done..|].
  exists hist, s, s', image. split; [exact Hs|]. split; [exact H1|]. split; [exact H2|exact H3].
Defined.

Lemma rtu_command_ends_witness : ∃ hist s s', demo_state demo_start = Some (hist, s) ∧
  phase (pending (rtu s)) = commandWriting ∧ demo_step (Worker 0) s = Ok s' ∧
  (pending (rtu s') = no_pending ∨ phase (pending (rtu s')) = commandFeedback).
Proof.
  destruct (demo_seen (λ s, (active (pending (rtu s)), phase (pending (rtu s)), length (workers s))) demo_start
    (true, commandWriting, 1%nat)) as (hist & s & Hs & Hr & Hp); [by vm_compute|]. injection Hp as Ha Hph Hl.
  destruct (rtu_command_ends demo demo_clock_ms demo_station (λ _, true) demo_valid demo_masters eq_refl hist s
    Hr Ha) as [_ H]. destruct (H Hph) as (d & w & c & dv & v & s' & Hd & _ & Hst & Hres).
  exists hist, s, s'. apply lookup_lt_Some in Hd. rewrite Hl in Hd. assert (d = 0%nat) as -> by lia.
  split; [exact Hs|]. split; [exact Hph|]. split; [exact Hst|].
  destruct Hres as [Hn|[Hf _]]; [left; exact Hn|right; exact Hf].
Defined.
