(* ===== verification/ControlCentre.v ===== *)
(** * The control centre (services/iec104/internal/controlcentre)

    The controlling station of the range: the cache of the station's points,
    the state of the link, the journal, and the one command in flight.  The
    lock makes every handler, every tick of the link's loop and every locked
    section of a command one transition of [Centre]; sends, waits and the
    connection itself happen between them.

    [clock] is the sequence of readings of the clock; a time stamp is the
    reading it was made of, [None] the empty string.  A number that the API
    shows is kept as a number: the text of the JSON documents is not modelled.
    Log lines are not modelled; [clog] records the commands, what was handed to
    a connection and what was received, and is read by no transition. *)
From S2P Require Import Prelude GoLib Iec104Types Iec104Time Iec104Elements Iec104Asdu PointMap.

#[local] Open Scope string_scope.
#[local] Open Scope Z_scope.

(** ** Values *)
Inductive pvalue : Type :=
| PNil
| PName (s : string)
| PBool (b : bool)
| PStep (position : Z) (moving : bool)
| PFloat (bits : Z).
#[export] Instance pvalue_eq_dec : EqDecision pvalue.
Proof. solve_decision. Defined.

#[warnings="-register-all"]
Inductive json : Type :=
| JNull
| JBool (b : bool)
| JInt (z : Z)
| JStr (s : string)
| JTime (t : Z)
| JCivil (t : civil)
| JFloat32 (bits : Z)
| JNumber (f : float64)
| JArr (l : list json)
| JObj (l : list (string * json)).

Definition ordered (l : list (string * json)) : json := JObj l.
Definition nullable (s : string) : json := if (s =? "")%string then JNull else JStr s.
Definition nullable_time (t : option Z) : json := match t with Some t => JTime t | None => JNull end.
Definition pvalue_json (v : pvalue) : json :=
  match v with
  | PNil => JNull
  | PName s => JStr s
  | PBool b => JBool b
  | PStep p m => ordered [("value", JInt p); ("transient", JBool m)]
  | PFloat bits => JFloat32 bits
  end.

(** ** State *)

(** A command was accepted; it went on to its execution; a message was handed
    to a connection; a message was received. *)
Inductive happening : Type :=
| LCommand (id : Z) (index : nat) (value expected : Z)
| LExecute (id : Z)
| LSent (conn : nat) (a : ASDU)
| LGot (m : Message)
| LAnswer (id : Z) (status : string).

(** The cached state of a point. *)
Record cached : Type := mkCached {
  known : bool;
  value_ : pvalue;
  actual : Z;
  q : Z;
  ptransient : bool;
  stale : string;
  source : option civil;
  received_ : option Z;
  invalid : bool;
  at_ : Z;
  typ : Z;
  cot : Z
}.
Definition set_q (v : Z) (x : cached) : cached :=
  mkCached (known x) (value_ x) (actual x) v (ptransient x) (stale x) (source x) (received_ x) (invalid x) (at_
    x) (typ x) (cot x).
Definition set_stale (v : string) (x : cached) : cached :=
  mkCached (known x) (value_ x) (actual x) (q x) (ptransient x) v (source x) (received_ x) (invalid x) (at_ x)
    (typ x) (cot x).

(** The link to the station. *)
Record link : Type := mkLink {
  state : string;
  since : option Z;
  lastRx : option Z;
  lastAt : option Z;
  seq : Z;
  gi : string;
  gi_started : option Z;
  completed : option Z;
  trigger : string;
  pending_ : string;
  nextAt : option Z;
  gi_start : Z;
  next : option Z;
  giCon : bool;
  failed : bool;
  reconnect : bool;
  down : bool;
  shutdown : bool;
  reason : string
}.
Definition set_state (v : string) (x : link) : link :=
  mkLink v (since x) (lastRx x) (lastAt x) (seq x) (gi x) (gi_started x) (completed x) (trigger x) (pending_ x)
    (nextAt x) (gi_start x) (next x) (giCon x) (failed x) (reconnect x) (down x) (shutdown x) (reason x).
Definition set_since (v : option Z) (x : link) : link :=
  mkLink (state x) v (lastRx x) (lastAt x) (seq x) (gi x) (gi_started x) (completed x) (trigger x) (pending_ x)
    (nextAt x) (gi_start x) (next x) (giCon x) (failed x) (reconnect x) (down x) (shutdown x) (reason x).
Definition set_lastRx (v : option Z) (x : link) : link :=
  mkLink (state x) (since x) v (lastAt x) (seq x) (gi x) (gi_started x) (completed x) (trigger x) (pending_ x)
    (nextAt x) (gi_start x) (next x) (giCon x) (failed x) (reconnect x) (down x) (shutdown x) (reason x).
Definition set_lastAt (v : option Z) (x : link) : link :=
  mkLink (state x) (since x) (lastRx x) v (seq x) (gi x) (gi_started x) (completed x) (trigger x) (pending_ x)
    (nextAt x) (gi_start x) (next x) (giCon x) (failed x) (reconnect x) (down x) (shutdown x) (reason x).
Definition set_seq (v : Z) (x : link) : link :=
  mkLink (state x) (since x) (lastRx x) (lastAt x) v (gi x) (gi_started x) (completed x) (trigger x) (pending_
    x) (nextAt x) (gi_start x) (next x) (giCon x) (failed x) (reconnect x) (down x) (shutdown x) (reason x).
Definition set_gi (v : string) (x : link) : link :=
  mkLink (state x) (since x) (lastRx x) (lastAt x) (seq x) v (gi_started x) (completed x) (trigger x) (pending_
    x) (nextAt x) (gi_start x) (next x) (giCon x) (failed x) (reconnect x) (down x) (shutdown x) (reason x).
Definition set_gi_started (v : option Z) (x : link) : link :=
  mkLink (state x) (since x) (lastRx x) (lastAt x) (seq x) (gi x) v (completed x) (trigger x) (pending_ x)
    (nextAt x) (gi_start x) (next x) (giCon x) (failed x) (reconnect x) (down x) (shutdown x) (reason x).
Definition set_completed (v : option Z) (x : link) : link :=
  mkLink (state x) (since x) (lastRx x) (lastAt x) (seq x) (gi x) (gi_started x) v (trigger x) (pending_ x)
    (nextAt x) (gi_start x) (next x) (giCon x) (failed x) (reconnect x) (down x) (shutdown x) (reason x).
Definition set_trigger (v : string) (x : link) : link :=
  mkLink (state x) (since x) (lastRx x) (lastAt x) (seq x) (gi x) (gi_started x) (completed x) v (pending_ x)
    (nextAt x) (gi_start x) (next x) (giCon x) (failed x) (reconnect x) (down x) (shutdown x) (reason x).
Definition set_pending_ (v : string) (x : link) : link :=
  mkLink (state x) (since x) (lastRx x) (lastAt x) (seq x) (gi x) (gi_started x) (completed x) (trigger x) v
    (nextAt x) (gi_start x) (next x) (giCon x) (failed x) (reconnect x) (down x) (shutdown x) (reason x).
Definition set_nextAt (v : option Z) (x : link) : link :=
  mkLink (state x) (since x) (lastRx x) (lastAt x) (seq x) (gi x) (gi_started x) (completed x) (trigger x)
    (pending_ x) v (gi_start x) (next x) (giCon x) (failed x) (reconnect x) (down x) (shutdown x) (reason x).
Definition set_gi_start (v : Z) (x : link) : link :=
  mkLink (state x) (since x) (lastRx x) (lastAt x) (seq x) (gi x) (gi_started x) (completed x) (trigger x)
    (pending_ x) (nextAt x) v (next x) (giCon x) (failed x) (reconnect x) (down x) (shutdown x) (reason x).
Definition set_next (v : option Z) (x : link) : link :=
  mkLink (state x) (since x) (lastRx x) (lastAt x) (seq x) (gi x) (gi_started x) (completed x) (trigger x)
    (pending_ x) (nextAt x) (gi_start x) v (giCon x) (failed x) (reconnect x) (down x) (shutdown x) (reason x).
Definition set_giCon (v : bool) (x : link) : link :=
  mkLink (state x) (since x) (lastRx x) (lastAt x) (seq x) (gi x) (gi_started x) (completed x) (trigger x)
    (pending_ x) (nextAt x) (gi_start x) (next x) v (failed x) (reconnect x) (down x) (shutdown x) (reason x).
Definition set_failed (v : bool) (x : link) : link :=
  mkLink (state x) (since x) (lastRx x) (lastAt x) (seq x) (gi x) (gi_started x) (completed x) (trigger x)
    (pending_ x) (nextAt x) (gi_start x) (next x) (giCon x) v (reconnect x) (down x) (shutdown x) (reason x).
Definition set_reconnect (v : bool) (x : link) : link :=
  mkLink (state x) (since x) (lastRx x) (lastAt x) (seq x) (gi x) (gi_started x) (completed x) (trigger x)
    (pending_ x) (nextAt x) (gi_start x) (next x) (giCon x) (failed x) v (down x) (shutdown x) (reason x).
Definition set_down (v : bool) (x : link) : link :=
  mkLink (state x) (since x) (lastRx x) (lastAt x) (seq x) (gi x) (gi_started x) (completed x) (trigger x)
    (pending_ x) (nextAt x) (gi_start x) (next x) (giCon x) (failed x) (reconnect x) v (shutdown x) (reason x).
Definition set_shutdown (v : bool) (x : link) : link :=
  mkLink (state x) (since x) (lastRx x) (lastAt x) (seq x) (gi x) (gi_started x) (completed x) (trigger x)
    (pending_ x) (nextAt x) (gi_start x) (next x) (giCon x) (failed x) (reconnect x) (down x) v (reason x).
Definition set_reason (v : string) (x : link) : link :=
  mkLink (state x) (since x) (lastRx x) (lastAt x) (seq x) (gi x) (gi_started x) (completed x) (trigger x)
    (pending_ x) (nextAt x) (gi_start x) (next x) (giCon x) (failed x) (reconnect x) (down x) (shutdown x) v.

Record entry : Type := mkEntry_ { e_seq : Z; e_at : Z; e_kind : string; e_detail : json }.

(** The command in flight. *)
Record tracker : Type := mkTracker {
  active_ : bool;
  t_index : nat;
  t_expected : Z;
  t_value : Z;
  t_seq : Z;
  t_phase : string;
  t_deadline : Z;
  selectCon : Z;
  executeCon : Z;
  selectCause : Z;
  executeCause : Z;
  t_selected : option Z;
  t_executed : option Z;
  t_con : option Z;
  t_term : option Z;
  feedbackAt : option Z;
  terminated_ : bool;
  negative_ : bool;
  feedback_ : bool;
  feedbackValue : pvalue
}.
Definition set_t_phase (v : string) (x : tracker) : tracker :=
  mkTracker (active_ x) (t_index x) (t_expected x) (t_value x) (t_seq x) v (t_deadline x) (selectCon x)
    (executeCon x) (selectCause x) (executeCause x) (t_selected x) (t_executed x) (t_con x) (t_term x)
    (feedbackAt x) (terminated_ x) (negative_ x) (feedback_ x) (feedbackValue x).
Definition set_selectCon (v : Z) (x : tracker) : tracker :=
  mkTracker (active_ x) (t_index x) (t_expected x) (t_value x) (t_seq x) (t_phase x) (t_deadline x) v
    (executeCon x) (selectCause x) (executeCause x) (t_selected x) (t_executed x) (t_con x) (t_term x)
    (feedbackAt x) (terminated_ x) (negative_ x) (feedback_ x) (feedbackValue x).
Definition set_executeCon (v : Z) (x : tracker) : tracker :=
  mkTracker (active_ x) (t_index x) (t_expected x) (t_value x) (t_seq x) (t_phase x) (t_deadline x) (selectCon
    x) v (selectCause x) (executeCause x) (t_selected x) (t_executed x) (t_con x) (t_term x) (feedbackAt x)
    (terminated_ x) (negative_ x) (feedback_ x) (feedbackValue x).
Definition set_selectCause (v : Z) (x : tracker) : tracker :=
  mkTracker (active_ x) (t_index x) (t_expected x) (t_value x) (t_seq x) (t_phase x) (t_deadline x) (selectCon
    x) (executeCon x) v (executeCause x) (t_selected x) (t_executed x) (t_con x) (t_term x) (feedbackAt x)
    (terminated_ x) (negative_ x) (feedback_ x) (feedbackValue x).
Definition set_executeCause (v : Z) (x : tracker) : tracker :=
  mkTracker (active_ x) (t_index x) (t_expected x) (t_value x) (t_seq x) (t_phase x) (t_deadline x) (selectCon
    x) (executeCon x) (selectCause x) v (t_selected x) (t_executed x) (t_con x) (t_term x) (feedbackAt x)
    (terminated_ x) (negative_ x) (feedback_ x) (feedbackValue x).
Definition set_t_executed (v : option Z) (x : tracker) : tracker :=
  mkTracker (active_ x) (t_index x) (t_expected x) (t_value x) (t_seq x) (t_phase x) (t_deadline x) (selectCon
    x) (executeCon x) (selectCause x) (executeCause x) (t_selected x) v (t_con x) (t_term x) (feedbackAt x)
    (terminated_ x) (negative_ x) (feedback_ x) (feedbackValue x).
Definition set_t_con (v : option Z) (x : tracker) : tracker :=
  mkTracker (active_ x) (t_index x) (t_expected x) (t_value x) (t_seq x) (t_phase x) (t_deadline x) (selectCon
    x) (executeCon x) (selectCause x) (executeCause x) (t_selected x) (t_executed x) v (t_term x) (feedbackAt x)
    (terminated_ x) (negative_ x) (feedback_ x) (feedbackValue x).
Definition set_t_term (v : option Z) (x : tracker) : tracker :=
  mkTracker (active_ x) (t_index x) (t_expected x) (t_value x) (t_seq x) (t_phase x) (t_deadline x) (selectCon
    x) (executeCon x) (selectCause x) (executeCause x) (t_selected x) (t_executed x) (t_con x) v (feedbackAt x)
    (terminated_ x) (negative_ x) (feedback_ x) (feedbackValue x).
Definition set_feedbackAt (v : option Z) (x : tracker) : tracker :=
  mkTracker (active_ x) (t_index x) (t_expected x) (t_value x) (t_seq x) (t_phase x) (t_deadline x) (selectCon
    x) (executeCon x) (selectCause x) (executeCause x) (t_selected x) (t_executed x) (t_con x) (t_term x) v
    (terminated_ x) (negative_ x) (feedback_ x) (feedbackValue x).
Definition set_terminated_ (v : bool) (x : tracker) : tracker :=
  mkTracker (active_ x) (t_index x) (t_expected x) (t_value x) (t_seq x) (t_phase x) (t_deadline x) (selectCon
    x) (executeCon x) (selectCause x) (executeCause x) (t_selected x) (t_executed x) (t_con x) (t_term x)
    (feedbackAt x) v (negative_ x) (feedback_ x) (feedbackValue x).
Definition set_negative_ (v : bool) (x : tracker) : tracker :=
  mkTracker (active_ x) (t_index x) (t_expected x) (t_value x) (t_seq x) (t_phase x) (t_deadline x) (selectCon
    x) (executeCon x) (selectCause x) (executeCause x) (t_selected x) (t_executed x) (t_con x) (t_term x)
    (feedbackAt x) (terminated_ x) v (feedback_ x) (feedbackValue x).
Definition set_feedback_ (v : bool) (x : tracker) : tracker :=
  mkTracker (active_ x) (t_index x) (t_expected x) (t_value x) (t_seq x) (t_phase x) (t_deadline x) (selectCon
    x) (executeCon x) (selectCause x) (executeCause x) (t_selected x) (t_executed x) (t_con x) (t_term x)
    (feedbackAt x) (terminated_ x) (negative_ x) v (feedbackValue x).
Definition set_feedbackValue (v : pvalue) (x : tracker) : tracker :=
  mkTracker (active_ x) (t_index x) (t_expected x) (t_value x) (t_seq x) (t_phase x) (t_deadline x) (selectCon
    x) (executeCon x) (selectCause x) (executeCause x) (t_selected x) (t_executed x) (t_con x) (t_term x)
    (feedbackAt x) (terminated_ x) (negative_ x) (feedback_ x) v.

(** The control centre; [creadings] counts the readings of its clock, [clog] records what it did. *)
Record Centre : Type := mkCentre {
  cpoints : list cached;
  clink : link;
  ctracker : tracker;
  journal : list entry;
  journalSeq : Z;
  snapshotSeq : Z;
  commandSeq : Z;
  session : option nat;
  sendFailures : Z;
  historian : bool;
  queue : list json;
  clastOK : option Z;
  failures : Z;
  dropped : Z;
  creadings : nat;
  clog : list happening
}.
Definition set_cpoints (v : list cached) (x : Centre) : Centre :=
  mkCentre v (clink x) (ctracker x) (journal x) (journalSeq x) (snapshotSeq x) (commandSeq x) (session x)
    (sendFailures x) (historian x) (queue x) (clastOK x) (failures x) (dropped x) (creadings x) (clog x).
Definition set_clink (v : link) (x : Centre) : Centre :=
  mkCentre (cpoints x) v (ctracker x) (journal x) (journalSeq x) (snapshotSeq x) (commandSeq x) (session x)
    (sendFailures x) (historian x) (queue x) (clastOK x) (failures x) (dropped x) (creadings x) (clog x).
Definition set_ctracker (v : tracker) (x : Centre) : Centre :=
  mkCentre (cpoints x) (clink x) v (journal x) (journalSeq x) (snapshotSeq x) (commandSeq x) (session x)
    (sendFailures x) (historian x) (queue x) (clastOK x) (failures x) (dropped x) (creadings x) (clog x).
Definition set_journal (v : list entry) (x : Centre) : Centre :=
  mkCentre (cpoints x) (clink x) (ctracker x) v (journalSeq x) (snapshotSeq x) (commandSeq x) (session x)
    (sendFailures x) (historian x) (queue x) (clastOK x) (failures x) (dropped x) (creadings x) (clog x).
Definition set_journalSeq (v : Z) (x : Centre) : Centre :=
  mkCentre (cpoints x) (clink x) (ctracker x) (journal x) v (snapshotSeq x) (commandSeq x) (session x)
    (sendFailures x) (historian x) (queue x) (clastOK x) (failures x) (dropped x) (creadings x) (clog x).
Definition set_snapshotSeq (v : Z) (x : Centre) : Centre :=
  mkCentre (cpoints x) (clink x) (ctracker x) (journal x) (journalSeq x) v (commandSeq x) (session x)
    (sendFailures x) (historian x) (queue x) (clastOK x) (failures x) (dropped x) (creadings x) (clog x).
Definition set_commandSeq (v : Z) (x : Centre) : Centre :=
  mkCentre (cpoints x) (clink x) (ctracker x) (journal x) (journalSeq x) (snapshotSeq x) v (session x)
    (sendFailures x) (historian x) (queue x) (clastOK x) (failures x) (dropped x) (creadings x) (clog x).
Definition set_session (v : option nat) (x : Centre) : Centre :=
  mkCentre (cpoints x) (clink x) (ctracker x) (journal x) (journalSeq x) (snapshotSeq x) (commandSeq x) v
    (sendFailures x) (historian x) (queue x) (clastOK x) (failures x) (dropped x) (creadings x) (clog x).
Definition set_sendFailures (v : Z) (x : Centre) : Centre :=
  mkCentre (cpoints x) (clink x) (ctracker x) (journal x) (journalSeq x) (snapshotSeq x) (commandSeq x) (session
    x) v (historian x) (queue x) (clastOK x) (failures x) (dropped x) (creadings x) (clog x).
Definition set_historian (v : bool) (x : Centre) : Centre :=
  mkCentre (cpoints x) (clink x) (ctracker x) (journal x) (journalSeq x) (snapshotSeq x) (commandSeq x) (session
    x) (sendFailures x) v (queue x) (clastOK x) (failures x) (dropped x) (creadings x) (clog x).
Definition set_queue (v : list json) (x : Centre) : Centre :=
  mkCentre (cpoints x) (clink x) (ctracker x) (journal x) (journalSeq x) (snapshotSeq x) (commandSeq x) (session
    x) (sendFailures x) (historian x) v (clastOK x) (failures x) (dropped x) (creadings x) (clog x).
Definition set_clastOK (v : option Z) (x : Centre) : Centre :=
  mkCentre (cpoints x) (clink x) (ctracker x) (journal x) (journalSeq x) (snapshotSeq x) (commandSeq x) (session
    x) (sendFailures x) (historian x) (queue x) v (failures x) (dropped x) (creadings x) (clog x).
Definition set_failures (v : Z) (x : Centre) : Centre :=
  mkCentre (cpoints x) (clink x) (ctracker x) (journal x) (journalSeq x) (snapshotSeq x) (commandSeq x) (session
    x) (sendFailures x) (historian x) (queue x) (clastOK x) v (dropped x) (creadings x) (clog x).
Definition set_dropped (v : Z) (x : Centre) : Centre :=
  mkCentre (cpoints x) (clink x) (ctracker x) (journal x) (journalSeq x) (snapshotSeq x) (commandSeq x) (session
    x) (sendFailures x) (historian x) (queue x) (clastOK x) (failures x) v (creadings x) (clog x).
Definition set_creadings (v : nat) (x : Centre) : Centre :=
  mkCentre (cpoints x) (clink x) (ctracker x) (journal x) (journalSeq x) (snapshotSeq x) (commandSeq x) (session
    x) (sendFailures x) (historian x) (queue x) (clastOK x) (failures x) (dropped x) v (clog x).
Definition set_clog (v : list happening) (x : Centre) : Centre :=
  mkCentre (cpoints x) (clink x) (ctracker x) (journal x) (journalSeq x) (snapshotSeq x) (commandSeq x) (session
    x) (sendFailures x) (historian x) (queue x) (clastOK x) (failures x) (dropped x) (creadings x) v.

Definition empty_tracker : tracker := mkTracker false 0 0 0 0 "" 0 0 0 0 0 None None None None None false false false PNil.
Definition second : Z := 1000 * millisecond.

Notation CM A := (stM Centre Empty_set A).
Definition upd_link (f : link → link) : CM unit := st_upd (λ c, set_clink (f (clink c)) c).
Definition upd_tracker (f : tracker → tracker) : CM unit := st_upd (λ c, set_ctracker (f (ctracker c)) c).
Definition get_link : CM link := λ c, (Ok (clink c), c).
Definition get_tracker : CM tracker := λ c, (Ok (ctracker c), c).
Definition log (h : happening) : CM unit := st_upd (λ c, set_clog (clog c ++ [h]) c).
Definition at_index {A} (l : list A) (i : nat) : CM A := λ c, (idx l i, c).
Definition get_point (i : nat) : CM cached := λ c, (idx (cpoints c) i, c).
Definition put_point (i : nat) (p : cached) : CM unit := st_upd (λ c, set_cpoints (<[i := p]> (cpoints c)) c).

Section Centre.
Context (pm : Map) (peer epoch : string) (clock : nat → Z).

Definition now : CM Z := λ c, (Ok (clock (creadings c)), set_creadings (S (creadings c)) c).
Definition stamp : CM (option Z) := let? t := now in st_ret (Some t).

(** [New], with the first reading of the clock. *)
Definition New : Centre :=
  let p := mkCached false PNil 0 (Z.lor Invalid NotTopical) false "never_received" None None false 0 0 0 in
  mkCentre (replicate (length (Points pm)) p)
    (mkLink "disconnected" (Some (clock 0)) None None 0 "none" None None "" "" None 0 None false false false false false "")
    empty_tracker [] 0 0 0 None 0 false [] None 0 0 1 [].

(** ** The journal *)
Definition add (kind : string) (detail : json) : CM unit :=
  let? c := st_get in
  let n := u64 (journalSeq c + 1) in
  do? st_upd (set_journalSeq n) in
  let? at_ := now in
  let e := mkEntry_ n at_ kind detail in
  st_upd (λ c, set_journal (if (length (journal c) =? 500)%nat then drop 1 (journal c) ++ [e] else journal c ++ [e]) c).

Definition pointEvent (i : nat) : CM unit :=
  let? p := get_point i in
  let? pp := at_index (Points pm) i in
  if (stale p =? "")%string then add "point_good" (ordered [("point", JStr (Point_ID pp)); ("value", pvalue_json (value_ p))])
  else add "point_stale" (ordered [("point", JStr (Point_ID pp)); ("stale_reason", JStr (stale p)); ("value", pvalue_json (value_ p))]).

(** ** The link *)

(** The loop of [ended] over the points from index [i]. *)
Fixpoint lose_points (n i : nat) : CM unit :=
  match n with
  | O => st_ret tt
  | S n' =>
      let? p := get_point i in
      let p := set_q (Z.lor (q p) (Z.lor Invalid NotTopical)) p in
      do? put_point i p in
      do? st_when (known p && negb (stale p =? "link_lost")%string)
            (do? put_point i (set_stale "link_lost" p) in pointEvent i) in
      lose_points n' (S i)
  end.

Definition is_started (l : link) : bool := (state l =? "started")%string.

Definition down_reason : CM string :=
  let? l := get_link in
  if negb (is_started l) then st_ret "connect_failed"
  else if negb (reason l =? "")%string then st_ret (reason l)
  else
    match lastAt l with
    | None => st_ret "t1_timeout"
    | Some t =>
        let? n := now in
        st_ret (if T1 (Map_Timers pm) * second <=? n - t then "t1_timeout" else "peer_closed")
    end.

Definition ended : CM unit :=
  let? l := get_link in
  do? st_when (negb (shutdown l))
        (do? st_when (is_started l || negb (down l))
               (let? r := down_reason in
                do? add "link_down" (ordered [("peer", JStr peer); ("connection_seq", JInt (seq l)); ("reason", JStr r)]) in
                upd_link (set_down true)) in
         let? c := st_get in
         st_when (is_started l) (lose_points (length (cpoints c)) 0)) in
  do? upd_link (set_state "disconnected") in
  let? t := stamp in
  upd_link (λ l, set_since t (set_gi "none" (set_giCon false (set_gi_started None (set_completed None
    (set_trigger "" (set_pending_ "" (set_nextAt None (set_next None l))))))))).

(** [t.Truncate(time.Millisecond)] of a time after the zero time. *)
Definition truncate_ms (t : Z) : Z := t - t mod millisecond.

Definition tickGI (n : Z) : CM string :=
  let? l := get_link in
  if negb (is_started l) || (gi l =? "running")%string then st_ret ""
  else
    let due := match next l with Some t => t <=? n | None => false end in
    let tr := if negb (pending_ l =? "")%string then pending_ l else if due then "periodic" else "" in
    if (tr =? "")%string then st_ret ""
    else
      do? upd_link (λ l, set_pending_ "" (set_gi "running" (set_giCon false (set_failed false (set_trigger tr
            (set_gi_start n (set_next (Some (n + GIIntervalMS pm * millisecond)) l))))))) in
      let? t := stamp in
      do? upd_link (set_gi_started t) in
      let? t := now in
      do? upd_link (set_nextAt (Some (truncate_ms t + GIIntervalMS pm * millisecond))) in
      do? add "gi_started" (ordered [("connection_seq", JInt (seq l)); ("trigger", JStr tr)]) in
      st_ret tr.

(** The loop of [watchdog] from index [i]. *)
Fixpoint watch_points (n : Z) (k i : nat) : CM unit :=
  match k with
  | O => st_ret tt
  | S k' =>
      let? p := get_point i in
      let? pp := at_index (Points pm) i in
      do? st_when (bool_decide (Point_Kind pp = Float) && known p && (stale p =? "")%string && (q p =? 0) &&
                   (3 * CyclicMS pp * millisecond <? n - at_ p))
            (do? put_point i (set_stale "not_updated" (set_q (Z.lor (q p) NotTopical) p)) in pointEvent i) in
      watch_points n k' (S i)
  end.
Definition watchdog (n : Z) : CM unit :=
  let? c := st_get in
  st_when (is_started (clink c)) (watch_points n (length (cpoints c)) 0).

Definition good (p : cached) : bool := known p && (stale p =? "")%string && (q p =? 0).

Definition giResponse (cot : Z) (negative : bool) (qoi : Z) : CM unit :=
  let? c := st_get in
  let l := clink c in
  if negb (gi l =? "running")%string || failed l then st_ret tt
  else if negb (qoi =? 20) then st_ret tt
  else if (cot =? ActivationCon) && negb negative then upd_link (set_giCon true)
  else if (cot =? ActivationTerm) && negb negative && giCon l then
    do? upd_link (set_gi "complete") in
    let? t := stamp in
    do? upd_link (set_completed t) in
    add "gi_complete" (ordered [("connection_seq", JInt (seq l)); ("points_good", JInt (Z.of_nat (length (List.filter good (cpoints c)))));
                                ("trigger", JStr (trigger l))])
  else if (cot =? ActivationCon) || (cot =? ActivationTerm) || ((UnknownType <=? cot) && (cot <=? UnknownIOA))
  then upd_link (set_failed true)
  else st_ret tt.

(** ** Documents of the API *)
Definition kind_text (k : Kind) : string :=
  match k with
  | DoublePoint => "double-point"
  | SinglePoint => "single-point"
  | Float => "float"
  | StepPosition => "step-position"
  | DoubleCommand => "double-command"
  | RegulatingStep => "regulating-step"
  | SingleCommand => "single-command"
  | InvalidKind s => s
  end.
Definition is_kind (k k' : Kind) : bool := bool_decide (k = k').

Definition pointJSON (i : nat) : CM json :=
  let? pp := at_index (Points pm) i in
  let? p := get_point i in
  let? d := at_index (Devices pm) (Z.to_nat (Point_DeviceIndex pp)) in
  let limits := if HasLimits pp then ordered [("low", JNumber (LimitLow pp)); ("high", JNumber (LimitHigh pp))] else JNull in
  let reporting := if is_kind (Point_Kind pp) Float
                   then ordered [("cyclic_ms", JInt (CyclicMS pp)); ("deadband", JNumber (Deadband pp))] else JNull in
  let ov := if is_kind (Point_Kind pp) Float || is_kind (Point_Kind pp) StepPosition then JBool (has (q p) Overflow) else JNull in
  st_ret (ordered
    [("device", JStr (Device_ID d)); ("limits", limits); ("id", JStr (Point_ID pp)); ("ioa", JInt (Point_IOA pp));
     ("kind", JStr (kind_text (Point_Kind pp))); ("asdu", if known p then JStr (TypeID_String (typ p)) else JNull);
     ("reporting", reporting); ("value", pvalue_json (value_ p));
     ("quality", ordered [("iv", JBool (has (q p) Invalid)); ("nt", JBool (has (q p) NotTopical));
                          ("sb", JBool (has (q p) Substituted)); ("bl", JBool (has (q p) Blocked)); ("ov", ov)]);
     ("stale_reason", nullable (stale p)); ("source_time", match source p with Some t => JCivil t | None => JNull end);
     ("source_time_invalid", if bool_decide (is_Some (source p)) then JBool (invalid p) else JNull);
     ("received_at", nullable_time (received_ p)); ("cot", if known p then JInt (cot p) else JNull)]).

Fixpoint pointsJSON (n i : nat) : CM (list json) :=
  match n with
  | O => st_ret []
  | S n' => let? j := pointJSON i in let? l := pointsJSON n' (S i) in st_ret (j :: l)
  end.

Definition stateJSON : CM json :=
  do? st_upd (λ c, set_snapshotSeq (u64 (snapshotSeq c + 1)) c) in
  let? c := st_get in
  let? pts := pointsJSON (length (cpoints c)) 0 in
  let l := clink c in
  let nextAt_ := if is_started l then nextAt l else None in
  let? t := now in
  st_ret (ordered
    [("schema", JInt 3); ("snapshot_seq", JInt (snapshotSeq c)); ("rendered_at", JTime t); ("cache_epoch", JStr epoch);
     ("link", ordered
        [("state", JStr (state l)); ("peer", JStr peer); ("since", nullable_time (since l)); ("last_rx_at", nullable_time (lastRx l));
         ("connection_seq", JInt (seq l));
         ("gi", ordered [("state", JStr (gi l)); ("started_at", nullable_time (gi_started l)); ("trigger", nullable (trigger l));
                         ("last_complete_at", nullable_time (completed l)); ("next_due_at", nullable_time nextAt_)])]);
     ("points", JArr pts)]).

Definition healthJSON : CM json :=
  let? c := st_get in
  st_ret (ordered [("status", JStr "ok"); ("link", JStr (state (clink c)));
    ("historian", ordered [("last_ok_at", nullable_time (clastOK c)); ("failures", JInt (failures c));
                           ("dropped_snapshots", JInt (dropped c))])]).

Definition entry_json (e : entry) : json :=
  ordered [("seq", JInt (e_seq e)); ("at", JTime (e_at e)); ("kind", JStr (e_kind e)); ("detail", e_detail e)].
Definition journalJSON (after : Z) : CM json :=
  let? c := st_get in
  let entries := entry_json <$> List.filter (λ e, after <? e_seq e) (journal c) in
  let '(latest, oldest) := match journal c with [] => (JNull, JNull) | e :: _ => (JInt (journalSeq c), JInt (e_seq e)) end in
  st_ret (ordered [("cache_epoch", JStr epoch); ("entries", JArr entries); ("latest_seq", latest); ("oldest_seq", oldest)]).

(** The snapshots for the historian, at most sixteen. *)
Definition enqueue : CM unit :=
  let? c := st_get in
  st_when (historian c)
    (let? j := stateJSON in
     st_upd (λ c,
       if (length (queue c) =? 16)%nat
       then set_queue (drop 1 (queue c) ++ [j]) (set_dropped (u64 (dropped c + 1)) c)
       else set_queue (queue c ++ [j]) c)).

(** ** Reception *)
Definition dpName (v : Z) : string :=
  if v =? 0 then "intermediate" else if v =? 1 then "open" else if v =? 2 then "closed" else "indeterminate".

(** The index of the point an address belongs to. *)
Fixpoint index_of (ioa : Z) (i : nat) (l : list Point) : option (nat * Point) :=
  match l with
  | [] => None
  | p :: l' => if Point_IOA p =? ioa then Some (i, p) else index_of ioa (S i) l'
  end.

Definition f32_finite (bits : Z) : bool := negb (Z.land (Z.shiftr bits 23) 255 =? 255).

(** What a report says of a point: value, position, quality, in motion. *)
Definition decode_report (kind : Kind) (typ : Z) (e : Element) : option (pvalue * Z * Z * bool) :=
  match e with
  | Iec104Elements.DoublePoint d =>
      if is_kind kind DoublePoint then Some (PName (dpName (DIQ_State d)), DIQ_State d, DIQ_Quality d, false) else None
  | Iec104Elements.SinglePoint s =>
      if is_kind kind SinglePoint then Some (PBool (SIQ_State s), if SIQ_State s then 1 else 0, SIQ_Quality s, false) else None
  | Iec104Elements.StepPosition v quality =>
      if is_kind kind StepPosition
      then Some (PStep (VTI_Position v) (VTI_Transient v), VTI_Position v, quality, VTI_Transient v) else None
  | Iec104Elements.Float v quality =>
      if negb (is_kind kind Float) || negb (typ =? M_ME_NC_1) then None
      else Some (if f32_finite v then PFloat v else PNil, 0, if f32_finite v then quality else Z.lor quality Invalid, false)
  | _ => None
  end.

(** The tracker waits for the feedback of its command; the report is it. *)
Definition wants_feedback (t : tracker) : bool :=
  (t_phase t =? "execute")%string && (executeCon t =? 1) && negb (terminated_ t) && negb (feedback_ t).
Definition is_feedback (t : tracker) (cause quality : Z) (moving : bool) (position : Z) : bool :=
  (cause =? 11) && (quality =? 0) && negb moving && (position =? t_expected t).

Definition stale_reason (quality : Z) (heartbeat : bool) : string :=
  if has quality NotTopical then "device_unreachable"
  else if has quality Invalid then if heartbeat then "heartbeat" else "measurement_invalid"
  else "".

Definition track_feedback (i : nat) (cause quality : Z) (moving : bool) (position : Z) (v : pvalue) (received : option Z) : CM unit :=
  let? t := get_tracker in
  st_when (active_ t)
    (let? n := now in
     st_when ((n <? t_deadline t) && wants_feedback t)
       (let? cmd := at_index (Commands pm) (t_index t) in
        st_when (bool_decide (Z.of_nat i = FeedbackIndex cmd) && is_feedback t cause quality moving position)
          (upd_tracker (λ t, set_feedback_ true (set_feedbackValue v (set_feedbackAt received t)))))).

Definition report (h : Header) (o : Object) : CM unit :=
  match index_of (Address o) 0 (Points pm) with
  | None => st_ret tt
  | Some (i, pp) =>
      let timed := match Element_ o with
                   | Timed v t => match CP56_Time t with Some utc => Some (v, Some utc, TInvalid t) | None => None end
                   | e => Some (e, None, false)
                   end in
      match timed with
      | None => st_ret tt
      | Some (e, src, inv) =>
          match decode_report (Point_Kind pp) (Type_ h) e with
          | None => st_ret tt
          | Some (v, position, quality, moving) =>
              let? p := get_point i in
              let? reason_ := (if has quality NotTopical || negb (has quality Invalid) then st_ret (stale_reason quality false)
                               else let? d := at_index (Devices pm) (Z.to_nat (Point_DeviceIndex pp)) in
                                    st_ret (stale_reason quality (HasHeartbeat d))) in
              let? rec := stamp in
              let? n := now in
              do? put_point i (mkCached true v position quality moving reason_ src rec inv n (Type_ h) (Cause h)) in
              do? st_when (negb (stale p =? reason_)%string) (pointEvent i) in
              let changed := negb (known p) || negb (bool_decide (value_ p = v)) in
              do? st_when (negb (is_kind (Point_Kind pp) Float) && changed && ((Cause h =? 3) || (Cause h =? 11)))
                    (add "status_event" (ordered
                       [("id", JStr (Point_ID pp)); ("ioa", JInt (Point_IOA pp)); ("asdu", JStr (TypeID_String (Type_ h)));
                        ("cot", JInt (Cause h)); ("value", pvalue_json v);
                        ("source_time", match src with Some t => JCivil t | None => JNull end);
                        ("source_time_invalid", match src with Some _ => JBool inv | None => JNull end)])) in
              do? track_feedback i (Cause h) quality moving position v rec in
              st_when (bool_decide (is_Some src)) enqueue
          end
      end
  end.

Definition is_unknown (cause : Z) : bool := (UnknownType <=? cause) && (cause <=? UnknownIOA).

(** A response to a command: the qualifier as in the element. *)
Definition commandResponse (h : Header) (ioa qualifier : Z) : CM unit :=
  let? t := get_tracker in
  if negb (active_ t) then st_ret tt
  else
    let? n := now in
    if negb (n <? t_deadline t) then st_ret tt
    else
      let? cmd := at_index (Commands pm) (t_index t) in
      if Test h || negb (CommonAddress h =? u16 (CA pm)) || negb (Originator h =? 0) || negb (ioa =? Command_IOA cmd) ||
         negb (TypeID_String (Type_ h) =? Command_ASDU cmd)%string then st_ret tt
      else if negb (Cause h =? ActivationCon) && negb (Cause h =? ActivationTerm) && negb (is_unknown (Cause h)) then st_ret tt
      else if negb (Z.land qualifier 0x7f =? t_value t) || negb (Bool.eqb (CQ_Select qualifier) (t_phase t =? "select")%string)
      then st_ret tt
      else if Cause h =? ActivationTerm then
        st_when (negb (CQ_Select qualifier) && (t_phase t =? "execute")%string && (executeCon t =? 1) && negb (terminated_ t))
          (let? s := stamp in
           upd_tracker (λ t, set_terminated_ true (set_negative_ (Negative h) (set_t_term s t))))
      else
        let con := if Negative h || is_unknown (Cause h) then -1 else 1 in
        if CQ_Select qualifier && (t_phase t =? "select")%string && (selectCon t =? 0)
        then upd_tracker (λ t, set_selectCon con (set_selectCause (Cause h) t))
        else st_when (negb (CQ_Select qualifier) && (t_phase t =? "execute")%string && (executeCon t =? 0))
               (let? s := stamp in
                upd_tracker (λ t, set_executeCon con (set_executeCause (Cause h) (set_t_con s t)))).

(** The loop of [handle] over the objects. *)
Fixpoint handle_objects (h : Header) (l : list Object) : CM unit :=
  match l with
  | [] => st_ret tt
  | o :: l' =>
      do? (match Element_ o with
           | Iec104Elements.DoubleCommand qualifier => commandResponse h (Address o) qualifier
           | Iec104Elements.SingleCommand qualifier => commandResponse h (Address o) qualifier
           | RegulatingCommand qualifier => commandResponse h (Address o) qualifier
           | _ => if Negative h then st_ret tt else report h o
           end) in
      handle_objects h l'
  end.

Definition message_header (m : Message) : CM Header :=
  λ c, (match m with ASDUMessage a => Ok (ASDU_GetHeader a) | RawMessage r => Ok (RHeader r) | NilMessage => Panic end, c).

Definition handle_asdu (m : Message) : CM unit :=
  let? h := message_header m in
  if Count h =? 0 then st_ret tt
  else if negb (CommonAddress h =? CA pm) then st_ret tt
  else if Test h then st_ret tt
  else
    match m with
    | ASDUMessage a =>
        if Type_ h =? C_IC_NA_1 then
          match Objects a with
          | [o] => match Element_ o with
                   | Interrogation qoi => st_when (Address o =? 0) (giResponse (Cause h) (Negative h) qoi)
                   | _ => st_ret tt
                   end
          | _ => st_ret tt
          end
        else handle_objects h (Objects a)
    | _ => st_ret tt
    end.

Inductive event : Type := Opened | Started | Stopped | Closed | ASDUReceived (m : Message).

Definition handle (e : event) : CM unit :=
  match e with
  | Opened => upd_link (λ l, set_seq (seq l + 1) l)
  | Started =>
      do? upd_link (set_state "started") in
      let? t := stamp in
      do? upd_link (λ l, set_since t (set_down false (set_pending_ "connect" l))) in
      let? l := get_link in
      add "link_up" (ordered [("peer", JStr peer); ("connection_seq", JInt (seq l))])
  | Stopped => st_ret tt
  | Closed => ended
  | ASDUReceived m => do? log (LGot m) in handle_asdu m
  end.

(** ** The loop of a connection

    The locked sections of [runSession]; [cancelled] is whether the context of
    the service has ended. *)
Definition run_begin : CM unit :=
  do? upd_link (set_state "connecting") in
  let? t := stamp in
  upd_link (λ l, set_since t (set_reconnect false (set_reason "" (set_failed false l)))).
Definition callback (cancelled : bool) (e : event) : CM unit :=
  do? st_when cancelled (upd_link (set_shutdown true)) in handle e.
Definition dial_failed (cancelled : bool) : CM unit :=
  do? st_when cancelled (upd_link (set_shutdown true)) in ended.
Definition dialed (s : option nat) : CM unit := st_upd (set_session s).
Definition tap_received : CM unit :=
  let? n := now in
  do? upd_link (set_lastAt (Some n)) in
  let? t := stamp in
  upd_link (set_lastRx t).
Definition close_reason (r : string) : CM unit := st_when (negb (r =? "")%string) (upd_link (set_reason r)).

(** One tick: close the connection with a reason, or send the interrogation
    that has become due. *)
Inductive tick_result : Type := TickClose (reason : string) | TickSend (trigger : string) | TickNothing.
Definition tick : CM tick_result :=
  let? n := now in
  let? l := get_link in
  let failed_ := failed l || ((gi l =? "running")%string && (2 * T1 (Map_Timers pm) * second <=? n - gi_start l)) in
  do? watchdog n in
  let? tr := (if negb (reconnect l) && negb failed_ then tickGI n else st_ret "") in
  st_ret (if reconnect l then TickClose "operator_reconnect"
          else if failed_ then TickClose "io_error"
          else if negb (tr =? "")%string then TickSend tr
          else TickNothing).
Definition gi_request : ASDU :=
  mkASDU (mkHeader C_IC_NA_1 false 0 6 false false 0 (u16 (CA pm))) [mkObject 0 (Interrogation 20)].
(** The interrogation is handed to the connection; a failed one is counted, and
    closes the connection when it was the first. *)
Definition send_gi (conn : nat) (sent : bool) (tr : string) : CM (option string) :=
  if sent then do? log (LSent conn gi_request) in st_ret None
  else do? st_upd (λ c, set_sendFailures (u64 (sendFailures c + 1)) c) in
       st_ret (if (tr =? "connect")%string then Some "io_error" else None).
End Centre.
