(* ===== verification/ControlCentreApi.v ===== *)
(** * The control centre: commands, API and publisher

    The requests of the API (api.go), the thread of a command (command.go), the
    publisher (historian.go) and the loop of the link (link.go), composed into
    one step function of a [World]: the centre, the threads of the commands in
    flight, the place of the link's loop, and what the current connection has
    delivered.  A step is one locked section or one action outside the lock. *)
From S2P Require Import Prelude GoLib Iec104Types Iec104Time Iec104Elements Iec104Asdu PointMap.
From stdpp Require Import pretty.
From S2P Require Import ControlCentre.

#[local] Open Scope string_scope.
#[local] Open Scope Z_scope.

(** ** Texts *)
Fixpoint truncate (s : string) (n : nat) : string :=
  match n, s with
  | S n', String a s' => String a (truncate s' n')
  | _, _ => ""
  end.
(** [strings.SplitN(s, "\x00", 2)[0]]. *)
Fixpoint before_nul (s : string) : string :=
  match s with
  | "" => ""
  | String a s' => if Ascii.eqb a "000" then "" else String a (before_nul s')
  end.
Fixpoint has_nul (s : string) : bool :=
  match s with "" => false | String a s' => Ascii.eqb a "000" || has_nul s' end.
Definition is_digit (a : ascii) : bool := (48 <=? Z.of_N (N_of_ascii a)) && (Z.of_N (N_of_ascii a) <=? 57).
Fixpoint digits (s : string) : bool :=
  match s with "" => true | String a s' => is_digit a && digits s' end.
(** [strconv.ParseUint] on at most nineteen digits. *)
Fixpoint decimal (acc : Z) (s : string) : Z :=
  match s with "" => acc | String a s' => decimal (acc * 10 + (Z.of_N (N_of_ascii a) - 48)) s' end.
(** [strings.HasPrefix] with the rest after the prefix. *)
Fixpoint after_prefix (p s : string) : option string :=
  match p, s with
  | "", _ => Some s
  | String a p', String b s' => if Ascii.eqb a b then after_prefix p' s' else None
  | _, _ => None
  end.
Definition quoted (s : string) : string := String "034" (s +:+ String "034" "").

(** ** Requests and responses *)
Record request : Type := mkRequest { r_method : string; r_path : string; r_query : string; r_body : string }.
Record response : Type := mkResponse { r_status : Z; r_json : json; r_allow : string }.
Definition failure (status : Z) (text : string) : response := mkResponse status (ordered [("error", JStr text)]) "".

(** ** The thread of a command

    [CSend] is the call of [Send] outside the lock; [CWait] is the loop of
    [wait], [woken] once it has waited. *)
Inductive wait_for : Type := ForSelect | ForExecute | ForTermination.
Inductive phase : Type :=
| CAdmit (selecting : bool)
| CSend (selecting : bool) (conn : nat) (a : ASDU)
| CSelectSent
| CWait (what : wait_for) (until : Z) (woken : bool)
| CSelectAnswered
| CExecuteAnswered
| CTerminated
| CReport (status reason : string).
Record thread : Type := mkThread {
  th_id : Z; th_index : nat; th_value : Z; th_operation : string; th_deadline : Z; th_phase : phase
}.
Definition at_phase (p : phase) (t : thread) : thread :=
  mkThread (th_id t) (th_index t) (th_value t) (th_operation t) (th_deadline t) p.

Definition done_ (w : wait_for) (t : tracker) : bool :=
  match w with
  | ForSelect => negb (selectCon t =? 0)
  | ForExecute => negb (executeCon t =? 0)
  | ForTermination => terminated_ t
  end.
(** Where the thread goes on after [wait]. *)
Definition when_done (w : wait_for) : phase :=
  match w with ForSelect => CSelectAnswered | ForExecute => CExecuteAnswered | ForTermination => CTerminated end.
Definition when_lost (w : wait_for) : phase :=
  CReport "unknown" (match w with
                     | ForSelect => "link lost before the execute was sent"
                     | ForExecute => "link lost after the execute was sent"
                     | ForTermination => "link lost before ACT-TERM"
                     end).
Definition when_timeout (w : wait_for) : phase :=
  CReport "unknown" (match w with
                     | ForSelect => "no select confirmation; execute not sent"
                     | ForExecute => "no execute confirmation within the command budget"
                     | ForTermination => "no ACT-TERM within the command budget"
                     end).
Definition send_failed (selecting : bool) : phase :=
  CReport "unknown" (if selecting then "link lost before the select was sent" else "link lost before the execute was sent").

Definition rejectionReason (phase_ : string) (cause : Z) : string :=
  if cause =? ActivationCon then phase_ +:+ " rejected (negative ACT-CON)"
  else
    let name := if cause =? UnknownType then "unknown type" else if cause =? UnknownCause then "unknown cause"
                else if cause =? UnknownCA then "unknown common address" else if cause =? UnknownIOA then "unknown IOA" else "" in
    if (name =? "")%string then phase_ +:+ " rejected (COT " +:+ pretty cause +:+ ")"
    else phase_ +:+ " rejected (" +:+ name +:+ ", COT " +:+ pretty cause +:+ ")".

(** The type and the element of a command. *)
Definition command_element (k : Kind) (qual : Z) : Z * Element :=
  match k with
  | DoubleCommand => (C_DC_NA_1, Iec104Elements.DoubleCommand qual)
  | RegulatingStep => (C_RC_NA_1, RegulatingCommand qual)
  | SingleCommand => (C_SC_NA_1, Iec104Elements.SingleCommand qual)
  | _ => (0, OtherElement)
  end.

Section Api.
Context (pm : Map) (peer epoch : string) (clock : nat → Z).
(** The members of the object a body holds, in order, with the value of each
    that is a string; [None] for a body that is not an object. *)
Context (decode : string → option (list (string * option string))).

Notation now := (now clock).
Notation stamp := (stamp clock).

(** *** [sendCommand] *)
Definition command_asdu (cmd : Command) (value : Z) (selecting : bool) : ASDU :=
  let qual := u8 value in
  let qual := if selecting then Z.lor qual 0x80 else qual in
  let '(ty, e) := command_element (Command_Kind cmd) qual in
  mkASDU (mkHeader ty false 0 6 false false 0 (u16 (CA pm))) [mkObject (u32 (Command_IOA cmd)) e].

Definition sendCommand_admit (value : Z) (selecting : bool) : CM (option (nat * ASDU)) :=
  let? c := st_get in
  let t := ctracker c in
  let? cmd := at_index (Commands pm) (t_index t) in
  match session c with
  | Some s =>
      if is_started (clink c) && (seq (clink c) =? t_seq t) then
        let? n := now in
        st_ret (if n <? t_deadline t then Some (s, command_asdu cmd value selecting) else None)
      else st_ret None
  | None => st_ret None
  end.
Definition sendCommand_sent (conn : nat) (a : ASDU) (sent : bool) : CM unit :=
  if sent then log (LSent conn a) else st_upd (λ c, set_sendFailures (u64 (sendFailures c + 1)) c).

(** *** [wait]: one pass of the loop; [None] goes on waiting *)
Inductive wait_result : Type := WDone | WLost | WTimeout.
Definition wait_pass (what : wait_for) (deadline : Z) (ended_ : bool) : CM (option wait_result) :=
  if ended_ then st_ret (Some WLost)
  else
    let? c := st_get in
    if done_ what (ctracker c) then st_ret (Some WDone)
    else
      let l := clink c in
      if negb (is_started l) || negb (seq l =? t_seq (ctracker c)) || shutdown l then st_ret (Some WLost)
      else
        let? n := now in
        st_ret (if deadline - n <=? 0 then Some WTimeout else None).

(** *** [command]: the guards and the new tracker *)
Definition command (index : nat) (value : Z) (operation : string) : CM (response + thread) :=
  let? c := st_get in
  let? cmd := at_index (Commands pm) index in
  let? fb := get_point (Z.to_nat (FeedbackIndex cmd)) in
  let l := clink c in
  if active_ (ctracker c) || reconnect l then
    st_ret (inl (failure 409 (if active_ (ctracker c) then "a command is in flight" else "an operator reconnect is pending")))
  else if negb (is_started l) then st_ret (inl (failure 503 "link not started"))
  else if bool_decide (completed l = None) || negb (known fb) || has (q fb) (Z.lor Invalid NotTopical)
  then st_ret (inl (failure 409 "feedback is stale or invalid"))
  else
    let expected := if is_kind (Command_Kind cmd) RegulatingStep
                    then if value =? 1 then actual fb - 1 else actual fb + 1 else value in
    let? n := now in
    let deadline := n + 10 * second in
    let? selected := stamp in
    let id := u64 (commandSeq c + 1) in
    do? st_upd (λ c, set_commandSeq id (set_ctracker
          (mkTracker true index expected value (seq l) "select" deadline 0 0 0 0 selected None None None None
             false false false PNil) c)) in
    do? log (LCommand id index value expected) in
    st_ret (inr (mkThread id index value operation deadline (CAdmit true))).

(** *** A step of the thread

    [ended_]: the context of the request has ended; [sent]: [Send] succeeded.
    The answer is returned by the last step. *)
Definition select_answered (id : Z) : CM phase :=
  let? t := get_tracker in
  if selectCon t =? 1 then
    do? upd_tracker (set_t_phase "execute") in
    let? s := stamp in
    do? upd_tracker (set_t_executed s) in
    do? log (LExecute id) in
    st_ret (CAdmit false)
  else st_ret (CReport "rejected" (rejectionReason "select" (selectCause t))).

Definition execute_answered (deadline : Z) : CM phase :=
  let? t := get_tracker in
  st_ret (if executeCon t =? 1 then CWait ForTermination deadline false
          else CReport "rejected" (rejectionReason "execute" (executeCause t))).

Definition terminated_answer : CM phase :=
  let? t := get_tracker in
  if negative_ t then st_ret (CReport "failed" "negative ACT-TERM")
  else if negb (feedback_ t) then
    let? cmd := at_index (Commands pm) (t_index t) in
    let? p := at_index (Points pm) (Z.to_nat (FeedbackIndex cmd)) in
    st_ret (CReport "unknown" ("no good matching COT 11 feedback for " +:+ Point_ID p +:+ " before ACT-TERM"))
  else st_ret (CReport "completed" "").

Definition finish (th : thread) (status reason_ : string) : CM response :=
  let? t := get_tracker in
  let? cmd := at_index (Commands pm) (th_index th) in
  let? feedback := (if feedback_ t
                    then let? p := at_index (Points pm) (Z.to_nat (FeedbackIndex cmd)) in
                         st_ret (ordered [("ioa", JInt (Point_IOA p)); ("value", pvalue_json (feedbackValue t));
                                          ("at", nullable_time (feedbackAt t))])
                    else st_ret JNull) in
  let result := ordered
    [("id", JStr ("cmd-" +:+ pretty (th_id th))); ("point", JStr (Command_ID cmd)); ("operation", JStr (th_operation th));
     ("result", JStr status); ("reason", nullable reason_); ("selected_at", nullable_time (t_selected t));
     ("executed_at", nullable_time (t_executed t)); ("con_at", nullable_time (t_con t)); ("term_at", nullable_time (t_term t));
     ("feedback", feedback)] in
  do? add clock "command" result in
  do? st_upd (set_ctracker empty_tracker) in
  do? log (LAnswer (th_id th) status) in
  st_ret (mkResponse 200 result "").

Definition thread_step (ended_ sent : bool) (th : thread) : CM (response + thread) :=
  let go p := st_ret (inr (at_phase p th)) in
  match th_phase th with
  | CAdmit selecting =>
      let? r := sendCommand_admit (th_value th) selecting in
      match r with
      | Some (s, a) => go (CSend selecting s a)
      | None => go (send_failed selecting)
      end
  | CSend selecting s a =>
      do? sendCommand_sent s a sent in
      go (if negb sent then send_failed selecting
          else if selecting then CSelectSent else CWait ForExecute (th_deadline th) false)
  | CSelectSent =>
      let? n := now in
      let u := n + T1 (Map_Timers pm) * second in
      go (CWait ForSelect (if th_deadline th <? u then th_deadline th else u) false)
  | CWait what u woken =>
      let? r := wait_pass what u (woken && ended_) in
      go (match r with
          | None => CWait what u true
          | Some WDone => when_done what
          | Some WLost => when_lost what
          | Some WTimeout => when_timeout what
          end)
  | CSelectAnswered => let? p := select_answered (th_id th) in go p
  | CExecuteAnswered => let? p := execute_answered (th_deadline th) in go p
  | CTerminated => let? p := terminated_answer in go p
  | CReport status reason_ => let? r := finish th status reason_ in st_ret (inl r)
  end.

(** ** [parseCommand] *)

(** The fields read so far, then the rest of the members. *)
Fixpoint parse_fields (fields : list (string * string)) (l : list (string * option string)) : string + list (string * string) :=
  match l with
  | [] => inr fields
  | (key, v) :: l' =>
      let key := before_nul key in
      if negb (key =? "point")%string && negb (key =? "operation")%string
      then inl ("unknown field " +:+ quoted (truncate key 64))
      else if bool_decide (key ∈ fst <$> fields) then inl ("duplicate field " +:+ quoted key)
      else match v with
           | None => inl (quoted key +:+ " must be a string")
           | Some s => parse_fields (fields ++ [(key, before_nul s)]) l'
           end
  end.
Definition field (k : string) (l : list (string * string)) : string :=
  match List.find (λ x, (fst x =? k)%string) l with Some (_, v) => v | None => "" end.

Definition operation_value (k : Kind) (op : string) : Z :=
  match k with
  | DoubleCommand => if (op =? "open")%string then 1 else if (op =? "close")%string then 2 else -1
  | RegulatingStep => if (op =? "lower")%string then 1 else if (op =? "raise")%string then 2 else -1
  | SingleCommand => if (op =? "manual")%string then 0 else if (op =? "auto")%string then 1 else -1
  | _ => -1
  end.

Fixpoint find_command (id : string) (i : nat) (l : list Command) : option (nat * Command) :=
  match l with
  | [] => None
  | c :: l' => if (Command_ID c =? id)%string then Some (i, c) else find_command id (S i) l'
  end.

Definition parseCommand (body : string) : string + (nat * Z * string) :=
  if has_nul body then inl "request body contains a NUL byte"
  else match decode body with
       | None => inl "request body must be a JSON object"
       | Some members =>
           match parse_fields [] members with
           | inl e => inl e
           | inr fields =>
               if negb (length fields =? 2)%nat then inl (quoted "point" +:+ " and " +:+ quoted "operation" +:+ " are required")
               else match find_command (field "point" fields) 0 (Commands pm) with
                    | None => inl ("unknown command point " +:+ quoted (truncate (field "point" fields) 64))
                    | Some (i, cmd) =>
                        let op := truncate (field "operation" fields) 15 in
                        let value := operation_value (Command_Kind cmd) op in
                        if value <? 0 then inl "operation does not fit command kind" else inr (i, value, op)
                    end
           end
       end.

(** ** [api] *)
Definition endpoint (path : string) : option string :=
  if bool_decide (path ∈ ["/api/health"; "/api/state"; "/api/journal"]) then Some "GET"
  else if bool_decide (path ∈ ["/api/commands"; "/api/gi"; "/api/reconnect"]) then Some "POST"
  else None.

Definition journal_after (query : string) : option Z :=
  if (query =? "")%string then Some 0
  else match after_prefix "after=" query with
       | None => None
       | Some s => if (s =? "")%string || (19 <? String.length s)%nat || negb (digits s) then None else Some (decimal 0 s)
       end.

Definition requested : CM (response + thread) :=
  let? t := now in
  st_ret (inl (mkResponse 202 (ordered [("trigger", JStr "operator"); ("requested_at", JTime t)]) "")).

Definition api_gi (body : string) : CM (response + thread) :=
  let? l := get_link in
  if negb (body =? "")%string then st_ret (inl (failure 400 "this endpoint takes no body"))
  else if negb (is_started l) then st_ret (inl (failure 503 "link not started"))
  else if (gi l =? "running")%string || negb (pending_ l =? "")%string || reconnect l
  then st_ret (inl (failure 409 "interrogation already running"))
  else do? upd_link (set_pending_ "operator") in requested.

Definition api_reconnect (body : string) : CM (response + thread) :=
  let? c := st_get in
  let l := clink c in
  if negb (body =? "")%string then st_ret (inl (failure 400 "this endpoint takes no body"))
  else if negb (is_started l) then st_ret (inl (failure 503 "link not started; normal reconnect is already running"))
  else if reconnect l || active_ (ctracker c) then st_ret (inl (failure 409 "reconnect pending or command in flight"))
  else do? upd_link (set_reconnect true) in requested.

Definition ok_response (m : CM json) : CM (response + thread) := let? j := m in st_ret (inl (mkResponse 200 j "")).

Definition api (r : request) : CM (response + thread) :=
  match endpoint (r_path r) with
  | None => st_ret (inl (failure 404 "not found"))
  | Some m =>
      if negb (r_method r =? m)%string
      then st_ret (inl (mkResponse 405 (ordered [("error", JStr "method not allowed")]) m))
      else if negb (r_path r =? "/api/journal")%string && negb (r_query r =? "")%string
      then st_ret (inl (failure 400 "this endpoint takes no query parameters"))
      else if (r_path r =? "/api/commands")%string then
        match parseCommand (r_body r) with
        | inl e => st_ret (inl (failure 400 e))
        | inr (index, value, op) => command index value op
        end
      else if (r_path r =? "/api/health")%string then ok_response healthJSON
      else if (r_path r =? "/api/state")%string then ok_response (stateJSON pm peer epoch clock)
      else if (r_path r =? "/api/journal")%string then
        match journal_after (r_query r) with
        | None => st_ret (inl (failure 400 "the only query parameter is after=<non-negative integer>"))
        | Some after => ok_response (journalJSON epoch after)
        end
      else if (r_path r =? "/api/gi")%string then api_gi (r_body r)
      else api_reconnect (r_body r)
  end.

(** ** The publisher: one round, and the end of a push *)
Definition publish_round (next_ : option Z) : CM (option Z * option json) :=
  let? n := now in
  let due := match next_ with Some t => t <=? n | None => true end in
  do? st_when due (enqueue pm peer epoch clock) in
  let next' := if due then Some (n + second) else next_ in
  let? c := st_get in
  match queue c with
  | [] => st_ret (next', None)
  | b :: rest => do? st_upd (set_queue rest) in st_ret (next', Some b)
  end.
Definition push_end (ok : bool) : CM unit :=
  if ok then let? t := stamp in st_upd (set_clastOK t) else st_upd (λ c, set_failures (u64 (failures c + 1)) c).
Definition publish_end : CM unit := st_upd (λ c, set_queue [] (set_historian false c)).

(** ** The whole station *)

(** The place of the link's loop: between two connections, in [Dial], in the
    loop of [runSession], about to send an interrogation, about to record why
    the connection is closed, waiting for it to close, and ended because a connection could not be closed. *)
Inductive loopAt : Type :=
| Paused | Dialing | Looping (conn : nat) | Sending (conn : nat) (trigger_ : string) | Closing (reason_ : string) | Leaving | Ended.
(** What the current connection has delivered: nothing, [Opened], [Started],
    [Closed]. *)
Inductive delivered : Type := Silent | Fresh | Live | Gone.
Inductive publisher : Type := NoPublisher | Publishing (next_ : option Z) | Pushing (next_ : option Z) (body : json).

Record World : Type := mkWorld {
  centre : Centre; threads : list thread; loop : loopAt; conn : delivered; pub : publisher
}.

Inductive input : Type :=
| IConnect
| IDialFailed (cancelled : bool)
| IDialed (s : nat)
| ICallback (cancelled : bool) (e : event)
| ITap
| ITick
| ISendGI (sent : bool)
| IStartFailed
| ICancel
| IStop
| IClose
| ILeave
| IGiveUp
| IRequest (r : request)
| IThread (k : nat) (ended_ sent : bool)
| IPublish
| IPushed (ok : bool)
| IUnpublish.

#[export] Instance loopAt_eq_dec : EqDecision loopAt.
Proof. solve_decision. Defined.
#[export] Instance delivered_eq_dec : EqDecision delivered.
Proof. solve_decision. Defined.

(** The callbacks of a connection come in order: [Opened] first, messages only
    after [Started], [Closed] once and last. *)
Definition delivers (e : event) (d : delivered) : option delivered :=
  match e, d with
  | Opened, Silent => Some Fresh
  | Started, Fresh | Started, Live => Some Live
  | ASDUReceived NilMessage, _ => None
  | Stopped, Live | ASDUReceived _, Live => Some Live
  | Closed, Fresh | Closed, Live => Some Gone
  | _, _ => None
  end.

(** Run a method of the centre inside the world. *)
Definition on_centre {A} (m : CM A) (w : World) (k : A → World → World) : option World :=
  match m (centre w) with
  | (Ok a, c) => Some (k a (mkWorld c (threads w) (loop w) (conn w) (pub w)))
  | _ => None
  end.
Definition at_loop (p : loopAt) (w : World) : World := mkWorld (centre w) (threads w) p (conn w) (pub w).
Definition at_conn (d : delivered) (w : World) : World := mkWorld (centre w) (threads w) (loop w) d (pub w).
Definition at_pub (p : publisher) (w : World) : World := mkWorld (centre w) (threads w) (loop w) (conn w) p.
Definition with_threads (l : list thread) (w : World) : World := mkWorld (centre w) l (loop w) (conn w) (pub w).

(** The world after an input; the input is not possible ([inl false]), or its
    handler panics ([inl true]). *)
Definition step_input (i : input) (w : World) : bool + World :=
  let done_with {A} (m : CM A) (k : A → World → World) := match on_centre m w k with Some w' => inr w' | None => inl true end in
  match i with
  | IConnect =>
      if bool_decide (loop w = Paused) then done_with (run_begin clock) (λ _ w, at_loop Dialing (at_conn Silent w)) else inl false
  | IDialFailed cancelled =>
      if bool_decide (loop w = Dialing) && bool_decide (conn w = Silent)
      then done_with (dial_failed pm peer clock cancelled) (λ _, at_loop Paused) else inl false
  | IDialed s => if bool_decide (loop w = Dialing) then done_with (dialed (Some s)) (λ _, at_loop (Looping s)) else inl false
  | ICallback cancelled e =>
      match loop w, delivers e (conn w) with
      | Paused, _ | _, None => inl false
      | _, Some d => done_with (callback pm peer epoch clock cancelled e) (λ _, at_conn d)
      end
  | ITap => if bool_decide (loop w = Paused) then inl false else done_with (tap_received clock) (λ _ w, w)
  | ITick =>
      match loop w with
      | Looping s =>
          done_with (tick pm clock)
            (λ r, match r with
                  | TickClose reason_ => at_loop (Closing reason_)
                  | TickSend tr => at_loop (Sending s tr)
                  | TickNothing => λ w, w
                  end)
      | _ => inl false
      end
  | ISendGI sent =>
      match loop w with
      | Sending s tr =>
          done_with (send_gi pm s sent tr)
            (λ r, at_loop (match r with Some reason_ => Closing reason_ | None => Looping s end))
      | _ => inl false
      end
  | IStartFailed => match loop w with Looping _ => inr (at_loop (Closing "") w) | _ => inl false end
  | ICancel =>
      match loop w with Looping _ => done_with (upd_link (set_shutdown true)) (λ _, at_loop (Closing "")) | _ => inl false end
  | IStop => done_with (upd_link (set_shutdown true)) (λ _ w, w)
  | IClose => match loop w with Closing r => done_with (close_reason r) (λ _, at_loop Leaving) | _ => inl false end
  | ILeave =>
      match loop w with
      | Looping _ | Leaving => if bool_decide (conn w = Gone) then done_with (dialed None) (λ _, at_loop Paused) else inl false
      | _ => inl false
      end
  | IGiveUp => match loop w with Leaving => done_with (dialed None) (λ _, at_loop Ended) | _ => inl false end
  | IRequest r =>
      done_with (api r) (λ a w, match a with inl _ => w | inr th => with_threads (threads w ++ [th]) w end)
  | IThread k ended_ sent =>
      match threads w !! k with
      | None => inl false
      | Some th =>
          done_with (thread_step ended_ sent th)
            (λ a w, match a with
                    | inl _ => with_threads (delete k (threads w)) w
                    | inr th' => with_threads (<[k := th']> (threads w)) w
                    end)
      end
  | IPublish =>
      match pub w with
      | Publishing n =>
          done_with (publish_round n)
            (λ '(n', b), at_pub (match b with Some b => Pushing n' b | None => Publishing n' end))
      | _ => inl false
      end
  | IPushed ok =>
      match pub w with Pushing n _ => done_with (push_end ok) (λ _, at_pub (Publishing n)) | _ => inl false end
  | IUnpublish => match pub w with Publishing _ => done_with publish_end (λ _, at_pub NoPublisher) | _ => inl false end
  end.

(** [Serve]: the start, with or without a publisher. *)
Definition served (publishes : bool) : World :=
  mkWorld (if publishes then set_historian true (New pm clock) else New pm clock) [] Paused Silent
    (if publishes then Publishing None else NoPublisher).

Inductive reachable : World → Prop :=
| reach_start publishes : reachable (served publishes)
| reach_step i w w' : reachable w → step_input i w = inr w' → reachable w'.
End Api.
