(* ===== verification/ControlCentreInv.v ===== *)
(** * The control centre: invariants of its operations

    The cache and the journal ([body_ok]) through every method, and what each
    method leaves alone.  The loops over points are handled once, by induction
    on the number of points left. *)
From S2P Require Import Prelude GoLib Iec104Types Iec104Time Iec104Elements Iec104Asdu PointMap.
From S2P Require Import PointMapValid ControlCentre ControlCentreApi.

#[local] Open Scope string_scope.
#[local] Open Scope Z_scope.

(** ** Predicates *)

(** What the methods of the cache and the journal leave alone. *)
Record quiet (c c' : Centre) : Prop := {
  qt_link : clink c' = clink c;
  qt_tracker : ctracker c' = ctracker c;
  qt_session : session c' = session c;
  qt_seq : commandSeq c' = commandSeq c;
  qt_log : clog c' = clog c
}.
#[export] Instance quiet_preorder : PreOrder quiet.
Proof. split; [intros c; by constructor|]. intros a b c [] []. constructor; congruence. Qed.

(** The reason is empty exactly when the quality is good for use. *)
Definition cached_ok (p : cached) : Prop :=
  (stale p = "" ↔ has (q p) (Z.lor Invalid NotTopical) = false) ∧
  (known p = false → stale p ≠ "").
(** Nobody can take the point for a current value. *)
Definition point_lost (p : cached) : Prop :=
  has (q p) Invalid = true ∧ has (q p) NotTopical = true ∧ stale p ≠ "".

(** The last entries of the journal, numbered without a gap up to the newest. *)
Definition journal_ok (c : Centre) : Prop :=
  (length (journal c) ≤ 500)%nat ∧
  ∀ i e, journal c !! i = Some e →
    e_seq e = u64 (journalSeq c - Z.of_nat (length (journal c)) + 1 + Z.of_nat i).

Lemma has_lor x a b : has x (Z.lor a b) = has x a || has x b.
Proof.
  unfold has. rewrite Z.land_lor_distr_r. destruct (Z.eqb_spec (Z.land x a) 0) as [->|Ha].
  - by rewrite Z.lor_0_l.
  - destruct (Z.eqb_spec (Z.lor (Z.land x a) (Z.land x b)) 0) as [[? _]%Z.lor_eq_0_iff|]; done.
Qed.
Lemma has_lor_l x y a : has x a = true → has (Z.lor x y) a = true.
Proof.
  unfold has. intros H%negb_true_iff%Z.eqb_neq. apply negb_true_iff, Z.eqb_neq. contradict H.
  rewrite Z.land_comm, Z.land_lor_distr_r in H. apply Z.lor_eq_0_iff in H as [H _]. by rewrite Z.land_comm.
Qed.
Lemma has_lor_r x y a : has y a = true → has (Z.lor x y) a = true.
Proof. rewrite Z.lor_comm. apply has_lor_l. Qed.

Lemma stale_reason_ok quality hb : stale_reason quality hb = "" ↔ has quality (Z.lor Invalid NotTopical) = false.
Proof.
  unfold stale_reason. rewrite has_lor.
  destruct (has quality NotTopical), (has quality Invalid), hb; done.
Qed.

(** ** Methods *)
Section Methods.
Context (pm : Map) (peer epoch : string) (clock : nat → Z).
Context (Hpm : map_valid pm).

Record body_ok (c : Centre) : Prop := {
  bd_len : length (cpoints c) = length (Points pm);
  bd_points : Forall cached_ok (cpoints c);
  bd_journal : journal_ok c;
  bd_queue : (length (queue c) ≤ 16)%nat
}.
(** The cache as it was, the rest of the invariant kept. *)
Record steady (c c' : Centre) : Prop := {
  sd_quiet : quiet c c';
  sd_points : cpoints c' = cpoints c;
  sd_body : body_ok c'
}.
Lemma steady_trans a b c : steady a b → steady b c → steady a c.
Proof. intros [] []. constructor; [by etrans|congruence|done]. Qed.

(** A method that reads the clock any number of times. *)
Lemma wp_now Q c : Q (clock (creadings c)) (set_creadings (S (creadings c)) c) → wp (now clock) Q c.
Proof. done. Qed.
Lemma wp_index {A} (l : list A) i x Q (c : Centre) : l !! i = Some x → Q x c → wp (at_index l i) Q c.
Proof. intros Hi HQ. unfold wp, at_index, idx. by rewrite Hi. Qed.
Lemma wp_get_point i p Q c : cpoints c !! i = Some p → Q p c → wp (get_point i) Q c.
Proof. intros Hi HQ. unfold wp, get_point, idx. by rewrite Hi. Qed.

Lemma wp_get_link Q c : Q (clink c) c → wp get_link Q c.
Proof. done. Qed.
Lemma wp_get_tracker Q c : Q (ctracker c) c → wp get_tracker Q c.
Proof. done. Qed.
Lemma wp_stamp Q c : Q (Some (clock (creadings c))) (set_creadings (S (creadings c)) c) → wp (stamp clock) Q c.
Proof. done. Qed.

Lemma body_same c c' : cpoints c' = cpoints c → journal c' = journal c → journalSeq c' = journalSeq c →
  queue c' = queue c → body_ok c → body_ok c'.
Proof. intros H1 H2 H3 H4 [? ? Hj ?]. unfold journal_ok in *. constructor; unfold journal_ok; by rewrite ?H1, ?H2, ?H3, ?H4. Qed.
Ltac same_body :=
  match goal with H : body_ok ?c |- body_ok _ => apply (body_same c); [done|done|done|done|exact H] end.
Lemma body_point c i p : body_ok c → cached_ok p → body_ok (set_cpoints (<[i := p]> (cpoints c)) c).
Proof.
  intros [Hl Hp Hj Hq] H. constructor; cbn; [by rewrite length_insert| |done|done]. by apply Forall_insert.
Qed.
Lemma lookup_cached c i pp : body_ok c → Points pm !! i = Some pp → ∃ p, cpoints c !! i = Some p ∧ cached_ok p.
Proof.
  intros [Hl Hp _ _] H%lookup_lt_Some. rewrite <- Hl in H. apply lookup_lt_is_Some in H as [p Hi].
  exists p. split; [done|]. by eapply Forall_lookup_1.
Qed.
Lemma lookup_point c i p : body_ok c → cpoints c !! i = Some p → ∃ pp, Points pm !! i = Some pp.
Proof. intros [Hl _ _ _] H%lookup_lt_Some. rewrite Hl in H. by apply lookup_lt_is_Some in H. Qed.
Lemma lookup_device i pp : Points pm !! i = Some pp → ∃ d, Devices pm !! Z.to_nat (Point_DeviceIndex pp) = Some d.
Proof.
  intros H. pose proof (mv_points _ Hpm) as Hf. eapply Forall_lookup_1 in Hf; [|exact H].
  unfold point_valid in Hf. naive_solver.
Qed.

(** *** The journal *)
Lemma u64_shift s k : u64 (u64 (s + 1) - 1 + k) = u64 (s + k).
Proof. unfold u64. modlia. Qed.
Lemma journal_push (l : list entry) (s : Z) (e : entry) : (length l ≤ 499)%nat → e_seq e = u64 (s + 1) →
  (∀ i x, l !! i = Some x → e_seq x = u64 (s - Z.of_nat (length l) + 1 + Z.of_nat i)) →
  (length (l ++ [e]) ≤ 500)%nat ∧
  ∀ i x, (l ++ [e])%list !! i = Some x →
    e_seq x = u64 (u64 (s + 1) - Z.of_nat (length (l ++ [e])) + 1 + Z.of_nat i).
Proof.
  intros Hl He Hn. rewrite length_app. cbn [length]. split; [lia|]. intros i x Hx.
  replace (u64 (s + 1) - Z.of_nat (length l + 1) + 1 + Z.of_nat i)
    with (u64 (s + 1) - 1 + (Z.of_nat i - Z.of_nat (length l) + 1)) by lia.
  rewrite u64_shift. apply lookup_app_Some in Hx as [Hx|[Hi Hx]].
  - rewrite (Hn _ _ Hx). f_equal. lia.
  - apply list_lookup_singleton_Some in Hx as [Hi' <-]. rewrite He. f_equal. lia.
Qed.

Lemma add_ok kind detail c : body_ok c → wp (add clock kind detail) (λ _ c', steady c c') c.
Proof.
  intros Hb. unfold add. apply st_wp_bind, st_wp_get, st_wp_bind, st_wp_upd, st_wp_bind, wp_now, st_wp_upd.
  constructor; [by constructor|done|]. destruct Hb as [Hl Hp [Hj Hn] Hq]. constructor; try done.
  unfold journal_ok. cbn [journal journalSeq set_journal set_journalSeq set_creadings].
  destruct (Nat.eqb_spec (length (journal c)) 500) as [H5|H5]; apply journal_push; try done.
  - rewrite length_drop. lia.
  - intros i x Hx. rewrite lookup_drop in Hx. rewrite (Hn _ _ Hx), length_drop. f_equal. lia.
  - lia.
Qed.

Lemma pointEvent_ok i c : body_ok c → (i < length (Points pm))%nat → wp (pointEvent pm clock i) (λ _ c', steady c c') c.
Proof.
  intros Hb Hi. apply lookup_lt_is_Some in Hi as [pp Hpp]. destruct (lookup_cached c i pp Hb Hpp) as (p & Hp & _).
  unfold pointEvent. apply st_wp_bind. eapply wp_get_point; [done|]. apply st_wp_bind. eapply wp_index; [done|].
  destruct (stale p =? "")%string; by apply add_ok.
Qed.

(** *** Loops over the points *)

(** The points before [i] are unchanged, those from [i] on satisfy [P]. *)
Definition from (P : cached → Prop) (i : nat) (c c' : Centre) : Prop :=
  quiet c c' ∧ body_ok c' ∧ (∀ j, (j < i)%nat → cpoints c' !! j = cpoints c !! j) ∧
  ∀ j p, (i ≤ j)%nat → cpoints c' !! j = Some p → P p.

Lemma lookup_put (l : list cached) i p j : j ≠ i → <[i := p]> l !! j = l !! j.
Proof. intros H. by apply list_lookup_insert_ne. Qed.

Lemma lose_points_ok n i c : body_ok c → (i + n)%nat = length (Points pm) →
  wp (lose_points pm clock n i) (λ _ c', from point_lost i c c') c.
Proof.
  revert i c. induction n as [|n IH]; intros i c Hb Hi; cbn [lose_points].
  { apply st_wp_ret. split_and!; [done|done|done|]. intros j p Hj Hp%lookup_lt_Some.
    rewrite (bd_len _ Hb) in Hp. lia. }
  assert (i < length (Points pm))%nat as Hlt by lia. destruct (lookup_lt_is_Some_2 _ _ Hlt) as [pp Hpp].
  destruct (lookup_cached c i pp Hb Hpp) as (p & Hp & Hok).
  apply st_wp_bind. eapply wp_get_point; [done|]. set (p1 := set_q _ p).
  apply st_wp_bind, st_wp_upd. set (c1 := set_cpoints _ c).
  assert (has (q p1) Invalid = true ∧ has (q p1) NotTopical = true) as [Hiv Hnt] by (split; by apply has_lor_r).
  (* whatever the branch, the point is lost and the rest of the cache is as it was *)
  assert (∀ p2 c2, point_lost p2 → steady (set_cpoints (<[i := p2]> (cpoints c)) c) c2 →
    wp (lose_points pm clock n (S i)) (λ _ c', from point_lost i c c') c2) as Hgo.
  { intros p2 c2 Hp2 [Hq2 Hs2 Hb2]. eapply st_wp_mono; [apply IH; [done|lia]|].
    intros [] c3 (Hq3 & Hb3 & Hlow & Hhigh). split_and!.
    - transitivity c2; [|done]. transitivity (set_cpoints (<[i := p2]> (cpoints c)) c); [by constructor|done].
    - done.
    - intros j Hj. rewrite Hlow by lia. rewrite Hs2. apply lookup_put. lia.
    - intros j p' Hj Hp'. destruct (decide (j = i)) as [->|Hne]; [|by apply (Hhigh j); [lia|]].
      rewrite Hlow, Hs2 in Hp' by lia. cbn in Hp'. rewrite list_lookup_insert_eq in Hp' by by eapply lookup_lt_Some.
      by injection Hp' as <-. }
  apply st_wp_bind, st_wp_when.
  - intros Hc. apply st_wp_bind, st_wp_upd. set (p2 := set_stale _ p1).
    assert (point_lost p2) as Hp2 by done.
    assert (set_cpoints (<[i := p2]> (cpoints c1)) c1 = set_cpoints (<[i := p2]> (cpoints c)) c) as He.
    { unfold c1. cbn. by rewrite list_insert_insert_eq. }
    cbn [cpoints c1 set_cpoints] in He |- *. rewrite He. eapply st_wp_mono; [apply pointEvent_ok; [|done]|].
    + apply body_point; [done|]. unfold cached_ok. cbn. split; [|done]. split; [done|]. rewrite has_lor.
      fold (q p1). unfold p1 in Hiv. cbn in Hiv. rewrite Hiv. done.
    + intros [] c2 Hs2. by eapply Hgo.
  - intros Hc. assert (stale p1 ≠ "") as Hst.
    { destruct Hok as [_ Hk]. destruct (known p) eqn:Hkn; [|by apply Hk].
      apply andb_false_iff in Hc as [Hc|Hc]; [cbn in Hc; congruence|]. bool_facts.
      apply String.eqb_eq in Hc. by rewrite Hc. }
    apply (Hgo p1); [done|]. constructor; [by constructor|done|]. apply body_point; [done|].
    split; [|done]. split; [done|]. rewrite has_lor, Hiv. done.
Qed.

Lemma watch_points_ok n k i c : body_ok c → (i + k)%nat = length (Points pm) →
  wp (watch_points pm clock n k i) (λ _ c', quiet c c' ∧ body_ok c') c.
Proof.
  revert i c. induction k as [|k IH]; intros i c Hb Hi; cbn [watch_points]; [by apply st_wp_ret|].
  assert (i < length (Points pm))%nat as Hlt by lia. destruct (lookup_lt_is_Some_2 _ _ Hlt) as [pp Hpp].
  destruct (lookup_cached c i pp Hb Hpp) as (p & Hp & Hok).
  apply st_wp_bind. eapply wp_get_point; [done|]. apply st_wp_bind. eapply wp_index; [done|].
  apply st_wp_bind, st_wp_when; [|intros _; apply IH; [done|lia]].
  intros _. apply st_wp_bind, st_wp_upd. eapply st_wp_mono; [apply pointEvent_ok; [|done]|].
  - apply body_point; [done|]. split; cbn; [|done]. split; [done|].
    rewrite has_lor, (has_lor_r _ NotTopical NotTopical) by done. by rewrite orb_true_r.
  - intros [] c1 [Hq _ Hb1]. eapply st_wp_mono; [apply IH; [done|lia]|].
    intros [] c2 [Hq2 Hb2]. split; [|done]. transitivity c1; [|done]. etrans; [|exact Hq]. by constructor.
Qed.

Lemma watchdog_ok n c : body_ok c → wp (watchdog pm clock n) (λ _ c',
  quiet c c' ∧ body_ok c' ∧ (is_started (clink c) = false → cpoints c' = cpoints c)) c.
Proof.
  intros Hb. unfold watchdog. apply st_wp_bind, st_wp_get, st_wp_when; [intros Hs|done].
  eapply st_wp_mono; [apply watch_points_ok; [done|apply Hb]|]. intros [] c' []. split_and!; [done|done|congruence].
Qed.

(** *** Documents *)
Lemma pointsJSON_ok n i c : body_ok c → (i + n)%nat = length (Points pm) → wp (pointsJSON pm n i) (λ _ c', c' = c) c.
Proof.
  revert i c. induction n as [|n IH]; intros i c Hb Hi; cbn [pointsJSON]; [by apply st_wp_ret|].
  assert (i < length (Points pm))%nat as Hlt by lia. destruct (lookup_lt_is_Some_2 _ _ Hlt) as [pp Hpp].
  destruct (lookup_cached c i pp Hb Hpp) as (p & Hp & _). destruct (lookup_device i pp Hpp) as [d Hd].
  apply st_wp_bind. unfold pointJSON. apply st_wp_bind. eapply wp_index; [done|].
  apply st_wp_bind. eapply wp_get_point; [done|]. apply st_wp_bind. eapply wp_index; [done|].
  apply st_wp_ret, st_wp_bind. eapply st_wp_mono; [apply IH; [done|lia]|]. intros l c' ->. by apply st_wp_ret.
Qed.

Lemma stateJSON_ok c : body_ok c → wp (stateJSON pm peer epoch clock) (λ _ c', steady c c' ∧ queue c' = queue c ∧ historian c' = historian c) c.
Proof.
  intros Hb. unfold stateJSON. apply st_wp_bind, st_wp_upd, st_wp_bind, st_wp_get, st_wp_bind.
  set (c1 := set_snapshotSeq _ c). assert (body_ok c1) as Hb1 by same_body.
  eapply st_wp_mono; [apply pointsJSON_ok; [done|apply Hb1]|]. intros pts c2 ->.
  apply st_wp_bind, wp_now, st_wp_ret. split_and!; [|done|done]. constructor; [by constructor|done|same_body].
Qed.

Lemma enqueue_ok c : body_ok c → wp (enqueue pm peer epoch clock) (λ _ c', steady c c') c.
Proof.
  intros Hb. unfold enqueue. apply st_wp_bind, st_wp_get, st_wp_when; [intros _|by constructor].
  apply st_wp_bind. eapply st_wp_mono; [by apply stateJSON_ok|]. intros j c1 ([Hq Hs Hb1] & _ & _). apply st_wp_upd.
  assert (∀ q_ d, (length q_ ≤ 16)%nat → steady c (set_queue q_ (set_dropped d c1))) as Hset.
  { intros q_ d Hlen. constructor; [destruct Hq; by constructor|done|].
    destruct Hb1 as [H1 H2 H3 H4]. by constructor. }
  destruct Hb1 as [H1 H2 H3 H4]. case_if.
  - apply Hset. apply Nat.eqb_eq in Hif. rewrite length_app, length_drop. cbn. lia.
  - apply (Hset _ (dropped c1)). apply Nat.eqb_neq in Hif. rewrite length_app. cbn. lia.
Qed.

(** *** The link *)

(** What a method that changes the link leaves alone. *)
Record aside (c c' : Centre) : Prop := {
  as_tracker : ctracker c' = ctracker c;
  as_session : session c' = session c;
  as_seq : commandSeq c' = commandSeq c;
  as_log : clog c' = clog c
}.
#[local] Instance aside_preorder : PreOrder aside.
Proof. split; [intros c; by constructor|]. intros a b c [] []. constructor; congruence. Qed.
Lemma quiet_aside c c' : quiet c c' → aside c c'.
Proof. intros []. by constructor. Qed.
Lemma aside_link l c : aside c (set_clink l c).
Proof. by constructor. Qed.

Lemma down_reason_ok c : body_ok c → wp (down_reason pm clock) (λ _ c', steady c c') c.
Proof.
  intros Hb. assert (steady c c) as H0 by by constructor.
  unfold down_reason. apply st_wp_bind.
  apply wp_get_link. destruct (negb _); [by apply st_wp_ret|]. destruct (negb _); [by apply st_wp_ret|].
  destruct (lastAt _); [|by apply st_wp_ret]. apply st_wp_bind, wp_now, st_wp_ret.
  constructor; [by constructor|done|same_body].
Qed.

Lemma ended_ok c : body_ok c → wp (ended pm peer clock) (λ _ c',
    aside c c' ∧ body_ok c' ∧ is_started (clink c') = false ∧ completed (clink c') = None ∧ gi (clink c') = "none" ∧
    shutdown (clink c') = shutdown (clink c) ∧
    (if shutdown (clink c) || negb (is_started (clink c)) then cpoints c' = cpoints c else Forall point_lost (cpoints c'))) c.
Proof.
  intros Hb. unfold ended. apply st_wp_bind, wp_get_link. set (l := clink c).
  apply st_wp_bind. eapply (st_wp_mono _ (λ _ c', aside c c' ∧ body_ok c' ∧ shutdown (clink c') = shutdown l ∧
    (if shutdown l || negb (is_started l) then cpoints c' = cpoints c else Forall point_lost (cpoints c')))).
  2:{ intros [] c1 (Ha & Hb1 & Hs & Hp). apply st_wp_bind, st_wp_upd, st_wp_bind. unfold stamp.
    apply st_wp_bind, wp_now, st_wp_ret, st_wp_upd. split_and!; try done; [|same_body].
    destruct Ha. by constructor. }
  destruct (shutdown l) eqn:Hsd; cbn [negb st_when orb]; [by apply st_wp_ret|]. fold l in Hsd.
  apply st_wp_bind. eapply (st_wp_mono _ (λ _ c1, aside c c1 ∧ body_ok c1 ∧ shutdown (clink c1) = false ∧ cpoints c1 = cpoints c)).
  { apply st_wp_when; [|done]. intros _. apply st_wp_bind. eapply st_wp_mono; [by apply down_reason_ok|].
    intros r c1 [Hq Hp Hb1]. apply st_wp_bind. eapply st_wp_mono; [by apply add_ok|]. intros [] c2 [Hq2 Hp2 Hb2].
    apply st_wp_upd. split_and!; [|same_body| |cbn; congruence].
    - transitivity c2; [|apply aside_link]. apply quiet_aside. by transitivity c1.
    - cbn. rewrite (qt_link _ _ Hq2), (qt_link _ _ Hq). done. }
  intros [] c1 (Ha & Hb1 & Hs & Hp). apply st_wp_bind, st_wp_get, st_wp_when.
  - intros ->. cbn [negb]. eapply st_wp_mono; [apply lose_points_ok; [done|apply Hb1]|].
    intros [] c2 (Hq & Hb2 & _ & Hl). split_and!; [|done|by rewrite (qt_link _ _ Hq)|].
    + transitivity c1; [done|by apply quiet_aside].
    + apply Forall_lookup_2. intros i p Hi. apply (Hl i); [lia|done].
  - intros ->. done.
Qed.

(** What the interrogation of the station leaves of the link. *)
Record held (l l' : link) : Prop := {
  hd_state : state l' = state l;
  hd_seq : seq l' = seq l;
  hd_reconnect : reconnect l' = reconnect l;
  hd_shutdown : shutdown l' = shutdown l
}.
Lemma held_started l l' : held l l' → is_started l' = is_started l.
Proof. intros []. unfold is_started. by rewrite hd_state0. Qed.

(** The interrogation of a link that is not up is at rest. *)
Definition at_rest (l : link) : Prop := is_started l = false → gi l = "none" ∧ completed l = None.

Record stepped (c c' : Centre) : Prop := {
  st_aside : aside c c';
  st_body : body_ok c';
  st_held : held (clink c) (clink c');
  st_rest : at_rest (clink c) → at_rest (clink c')
}.
Lemma quiet_stepped c c' : quiet c c' → body_ok c' → stepped c c'.
Proof. intros Hq Hb. constructor; [by apply quiet_aside|done|by rewrite (qt_link _ _ Hq)|by rewrite (qt_link _ _ Hq)]. Qed.
Lemma stepped_quiet a b c : stepped a b → quiet b c → body_ok c → stepped a c.
Proof.
  intros [Ha Hb Hh Hr] Hq Hc. constructor; [|done|by rewrite (qt_link _ _ Hq)|by rewrite (qt_link _ _ Hq)].
  transitivity b; [done|by apply quiet_aside].
Qed.
Lemma stepped_link c l : body_ok c → held (clink c) l → is_started l = true → stepped c (set_clink l c).
Proof. intros Hb Hh Hs. constructor; [by constructor|same_body|done|]. intros _ H. cbn in H. congruence. Qed.

Lemma tickGI_ok n c : body_ok c → wp (tickGI pm clock n) (λ _ c', stepped c c' ∧ cpoints c' = cpoints c) c.
Proof.
  intros Hb. assert (stepped c c ∧ cpoints c = cpoints c) as H0 by (split; [by apply quiet_stepped|done]).
  unfold tickGI. apply st_wp_bind, wp_get_link. destruct (negb (is_started _) || _) eqn:Hs; [by apply st_wp_ret|].
  apply orb_false_iff in Hs as [Hs _]. apply negb_false_iff in Hs.
  match goal with |- context [if (?tr =? "")%string then _ else _] => destruct (tr =? "")%string end; [by apply st_wp_ret|].
  apply st_wp_bind, st_wp_upd, st_wp_bind, wp_stamp, st_wp_bind, st_wp_upd, st_wp_bind, wp_now, st_wp_bind, st_wp_upd.
  match goal with |- wp _ _ ?c' => set (c1 := c') end.
  assert (stepped c c1) as H1.
  { constructor; [by constructor|same_body|by constructor|]. intros _ H. unfold c1 in H. cbn in H.
    unfold is_started in *. cbn in H. congruence. }
  apply st_wp_bind. eapply st_wp_mono; [apply add_ok, H1|]. intros [] c2 [Hq Hp2 Hb2]. apply st_wp_ret.
  split; [by eapply stepped_quiet|done].
Qed.

Lemma centre_tick_ok c : body_ok c → wp (tick pm clock) (λ _ c',
  stepped c c' ∧ (is_started (clink c) = false → cpoints c' = cpoints c)) c.
Proof.
  intros Hb. unfold tick. apply st_wp_bind, wp_now, st_wp_bind, wp_get_link, st_wp_bind.
  set (c1 := set_creadings _ c). assert (body_ok c1) as Hb1 by same_body.
  eapply st_wp_mono; [by apply watchdog_ok|]. intros [] c2 (Hq & Hb2 & Hp2).
  assert (stepped c c2) as H2 by (apply quiet_stepped; [etrans; [|exact Hq]; by constructor|done]).
  apply st_wp_bind. eapply (st_wp_mono _ (λ _ c', stepped c2 c' ∧ cpoints c' = cpoints c2)).
  - destruct (_ && _); [by apply tickGI_ok|]. apply st_wp_ret. split; [by apply quiet_stepped|done].
  - intros tr c3 [[Ha3 Hb3 Hh3 Hr3] Hp3]. apply st_wp_ret. destruct H2 as [Ha2 _ Hh2 Hr2].
    split; [|intros Hs; rewrite Hp3; by apply Hp2]. constructor; [by transitivity c2|done| |auto]. destruct Hh2, Hh3. constructor; congruence.
Qed.

Lemma giResponse_ok cot_ negative qoi c : body_ok c → at_rest (clink c) →
  wp (giResponse clock cot_ negative qoi) (λ _ c', stepped c c') c.
Proof.
  intros Hb Hrest. assert (stepped c c) as H0 by by apply quiet_stepped.
  unfold giResponse. apply st_wp_bind, st_wp_get.
  destruct (negb (gi _ =? _)%string || _) eqn:Hg; [by apply st_wp_ret|].
  assert (is_started (clink c) = true) as Hs.
  { apply orb_false_iff in Hg as [Hg _]. apply negb_false_iff, String.eqb_eq in Hg.
    destruct (is_started _) eqn:E; [done|]. destruct (Hrest E). congruence. }
  clear Hg. destruct (negb (qoi =? 20)); [by apply st_wp_ret|].
  destruct (_ && negb negative); [apply st_wp_upd; by apply stepped_link|].
  destruct (_ && giCon _).
  - apply st_wp_bind, st_wp_upd, st_wp_bind, wp_stamp, st_wp_bind, st_wp_upd.
    match goal with |- wp _ _ ?c' => set (c1 := c') end.
    assert (stepped c c1) as H1.
    { constructor; [by constructor|same_body|by constructor|]. intros _ H. unfold c1 in H. cbn in H.
      unfold is_started in *. cbn in H. congruence. }
    eapply st_wp_mono; [apply add_ok, H1|]. intros [] c2 [Hq _ Hb2]. by eapply stepped_quiet.
  - destruct (_ || _); [apply st_wp_upd; by apply stepped_link|by apply st_wp_ret].
Qed.

(** *** The reactions of the tracker *)
Definition command_qualifier (e : Element) : option Z :=
  match e with
  | Iec104Elements.DoubleCommand qual | Iec104Elements.SingleCommand qual | RegulatingCommand qual => Some qual
  | _ => None
  end.
(** The object answers the command with that value, selecting or executing. *)
Definition answers (cmd : Command) (value : Z) (selecting : bool) (h : Header) (o : Object) : Prop :=
  ∃ qual, command_qualifier (Element_ o) = Some qual ∧ Z.land qual 0x7f = value ∧ CQ_Select qual = selecting ∧
    Address o = Command_IOA cmd ∧ TypeID_String (Type_ h) = Command_ASDU cmd ∧
    CommonAddress h = u16 (CA pm) ∧ Originator h = 0 ∧ Test h = false.
(** The object reports the position of the point as good and at rest. *)
Definition plain (e : Element) : Element := match e with Timed v _ => v | e => e end.
Definition shows (pp : Point) (position : Z) (h : Header) (o : Object) : Prop :=
  Address o = Point_IOA pp ∧ ∃ v, decode_report (Point_Kind pp) (Type_ h) (plain (Element_ o)) = Some (v, position, 0, false).

Inductive reacts (h : Header) (o : Object) (t : tracker) : tracker → Prop :=
| re_select cmd : active_ t = true → Commands pm !! t_index t = Some cmd → t_phase t = "select" → selectCon t = 0 →
    answers cmd (t_value t) true h o → Cause h = ActivationCon ∨ is_unknown (Cause h) = true →
    reacts h o t (set_selectCon (if Negative h || is_unknown (Cause h) then -1 else 1) (set_selectCause (Cause h) t))
| re_execute cmd s : active_ t = true → Commands pm !! t_index t = Some cmd → t_phase t = "execute" → executeCon t = 0 →
    answers cmd (t_value t) false h o → Cause h = ActivationCon ∨ is_unknown (Cause h) = true →
    reacts h o t (set_executeCon (if Negative h || is_unknown (Cause h) then -1 else 1) (set_executeCause (Cause h) (set_t_con s t)))
| re_terminate cmd s : active_ t = true → Commands pm !! t_index t = Some cmd → t_phase t = "execute" → executeCon t = 1 →
    terminated_ t = false → answers cmd (t_value t) false h o → Cause h = ActivationTerm →
    reacts h o t (set_terminated_ true (set_negative_ (Negative h) (set_t_term s t)))
| re_feedback cmd pp v s : active_ t = true → Commands pm !! t_index t = Some cmd → wants_feedback t = true →
    Points pm !! Z.to_nat (FeedbackIndex cmd) = Some pp → shows pp (t_expected t) h o → Cause h = 11 → Negative h = false →
    reacts h o t (set_feedback_ true (set_feedbackValue v (set_feedbackAt s t))).

(** A message makes the tracker react once. *)
Lemma reacts_once h o o' t t1 t2 : reacts h o t t1 → reacts h o' t1 t2 → False.
Proof.
  intros H1 H2. destruct H1; inversion H2; subst; clear H2;
    unfold is_unknown, UnknownType, UnknownIOA, ActivationCon, ActivationTerm, wants_feedback in *; cbn in *; bool_facts;
    repeat match goal with
    | H : String.eqb _ _ = true |- _ => apply String.eqb_eq in H
    | H : _ ∨ _ |- _ => destruct H
    | H : (if ?b then -1 else 1) = 0 |- _ => destruct b
    end; bool_facts; try congruence; try lia.
Qed.

(** *** Reception *)

(** A handler of messages: the tracker changes by [P]. *)
Record receives (P : tracker → tracker → Prop) (c c' : Centre) : Prop := {
  rc_link : clink c' = clink c;
  rc_session : session c' = session c;
  rc_seq : commandSeq c' = commandSeq c;
  rc_log : clog c' = clog c;
  rc_body : body_ok c';
  rc_tracker : ctracker c' = ctracker c ∨ P (ctracker c) (ctracker c')
}.
Lemma steady_receives P c c' : steady c c' → receives P c c'.
Proof. intros [[] ? ?]. constructor; auto. Qed.
Lemma receives_steady P a b c : receives P a b → steady b c → receives P a c.
Proof. intros [] [[] ? ?]. constructor; congruence. Qed.
Lemma steady_refl c : body_ok c → steady c c.
Proof. intros H. by constructor. Qed.
Lemma steady_now c n : body_ok c → steady c (set_creadings n c).
Proof. intros H. constructor; [by constructor|done|same_body]. Qed.

(** The command the tracker follows is one of the map. *)
Definition tracks (t : tracker) : Prop := active_ t = true → (t_index t < length (Commands pm))%nat.

Lemma index_of_Some ioa i l j pp : index_of ioa i l = Some (j, pp) → ∃ k, j = (i + k)%nat ∧ l !! k = Some pp ∧ Point_IOA pp = ioa.
Proof.
  revert i. induction l as [|p l IH]; intros i; cbn; [done|]. destruct (Z.eqb_spec (Point_IOA p) ioa) as [He|He].
  - intros [= <- <-]. exists 0%nat. split; [lia|done].
  - intros (k & -> & Hk & Hi)%IH. exists (S k). split; [lia|done].
Qed.

Lemma track_feedback_ok i h o pp quality moving position v r c : body_ok c → tracks (ctracker c) →
  Points pm !! i = Some pp → Negative h = false → Address o = Point_IOA pp →
  decode_report (Point_Kind pp) (Type_ h) (plain (Element_ o)) = Some (v, position, quality, moving) →
  wp (track_feedback pm clock i (Cause h) quality moving position v r) (λ _ c', receives (reacts h o) c c') c.
Proof.
  intros Hb Ht Hpp Hn Ha Hd. assert (receives (reacts h o) c c) as H0 by by apply steady_receives, steady_refl.
  unfold track_feedback. apply st_wp_bind, wp_get_tracker, st_wp_when; [|done]. intros Hact.
  apply st_wp_bind, wp_now. set (c1 := set_creadings _ c).
  assert (receives (reacts h o) c c1) as H1 by by apply steady_receives, steady_now.
  apply st_wp_when; [|done]. intros [_ Hw]%andb_true_iff.
  destruct (lookup_lt_is_Some_2 _ _ (Ht Hact)) as [cmd Hcmd].
  apply st_wp_bind. eapply wp_index; [done|]. apply st_wp_when; [|done].
  intros [Hi Hf]%andb_true_iff. apply bool_decide_eq_true in Hi. unfold is_feedback in Hf. bool_facts. subst.
  apply st_wp_upd. constructor; try done; [same_body|]. right.
  eapply re_feedback; [done|done|done|rewrite <- Hi, Nat2Z.id; done| |done|done]. split; [done|]. by eexists.
Qed.

Lemma report_ok h o c : body_ok c → tracks (ctracker c) → Negative h = false →
  wp (report pm peer epoch clock h o) (λ _ c', receives (reacts h o) c c') c.
Proof.
  intros Hb Ht Hn. assert (receives (reacts h o) c c) as H0 by by apply steady_receives, steady_refl.
  unfold report. destruct (index_of _ _ _) as [[i pp]|] eqn:Hi; [|by apply st_wp_ret].
  apply index_of_Some in Hi as (k & -> & Hpp & Hioa). cbn [plus] in *.
  match goal with |- context [match ?timed_ with Some _ => _ | None => st_ret tt end] => destruct timed_ as [[[e src] inv]|] eqn:Htm end;
    [|by apply st_wp_ret].
  assert (e = plain (Element_ o)) as ->.
  { destruct (Element_ o); try (by injection Htm as <- _ _). destruct (CP56_Time _); [|done]. by injection Htm as <- _ _. }
  clear Htm. destruct (decode_report _ _ _) as [[[[v position] quality] moving]|] eqn:Hd; [|by apply st_wp_ret].
  destruct (lookup_cached c k pp Hb Hpp) as (p & Hp & _). destruct (lookup_device k pp Hpp) as [d Hdv].
  apply st_wp_bind. eapply wp_get_point; [done|]. apply st_wp_bind.
  eapply (st_wp_mono _ (λ r c', c' = c ∧ (r = "" ↔ has quality (Z.lor Invalid NotTopical) = false))).
  { destruct (has quality NotTopical || _); [apply st_wp_ret; split; [done|apply stale_reason_ok]|].
    apply st_wp_bind. eapply wp_index; [done|]. apply st_wp_ret. split; [done|apply stale_reason_ok]. }
  intros r c' [-> Hr]. apply st_wp_bind, wp_stamp, st_wp_bind, wp_now, st_wp_bind, st_wp_upd.
  match goal with |- wp _ _ ?c' => set (c1 := c') end.
  assert (receives (reacts h o) c c1) as H1.
  { constructor; try done; [|by left]. eapply (body_same (set_cpoints (<[k := _]> (cpoints c)) c)); try done.
    apply body_point; [done|]. by split. }
  (* what follows up to the feedback leaves the tracker alone *)
  apply st_wp_bind. eapply (st_wp_mono _ (λ _ c2, steady c1 c2)).
  { apply st_wp_when; intros _; [|by apply steady_refl, H1]. apply pointEvent_ok; [apply H1|by eapply lookup_lt_Some]. }
  intros [] c2 H2. apply st_wp_bind. eapply (st_wp_mono _ (λ _ c3, steady c1 c3)).
  { apply st_wp_when; intros _; [|done]. eapply st_wp_mono; [apply add_ok, H2|]. intros [] c3 H3. by eapply steady_trans. }
  intros [] c3 H3. apply st_wp_bind. eapply st_wp_mono; [eapply (track_feedback_ok k h o pp); try done|].
  - apply H3.
  - destruct H3 as [[] _ _]. unfold c1 in qt_tracker0. cbn in qt_tracker0. by rewrite qt_tracker0.
  - intros [] c4 H4. assert (receives (reacts h o) c c4) as H5.
    { destruct H3 as [[] _ _], H4. unfold c1 in *. cbn in *. constructor; congruence. }
    apply st_wp_when; intros _; [|done]. eapply st_wp_mono; [apply enqueue_ok, H5|]. intros [] c5 H6.
    by eapply receives_steady.
Qed.

Ltac guard_facts :=
  repeat (bool_facts; match goal with
  | H : String.eqb _ _ = true |- _ => apply String.eqb_eq in H
  | H : Bool.eqb _ _ = true |- _ => apply eqb_prop in H
  end); bool_facts.

Lemma commandResponse_ok h o qual c : body_ok c → tracks (ctracker c) → command_qualifier (Element_ o) = Some qual →
  wp (commandResponse pm clock h (Address o) qual) (λ _ c', receives (reacts h o) c c') c.
Proof.
  intros Hb Ht Hq. assert (receives (reacts h o) c c) as H0 by by apply steady_receives, steady_refl.
  unfold commandResponse. apply st_wp_bind, wp_get_tracker. destruct (active_ _) eqn:Hact; cbn [negb]; [|by apply st_wp_ret].
  apply st_wp_bind, wp_now. set (c1 := set_creadings _ c). set (t := ctracker c) in *.
  assert (receives (reacts h o) c c1) as H1 by by apply steady_receives, steady_now.
  case_if; [by apply st_wp_ret|]. clear Hif.
  destruct (lookup_lt_is_Some_2 _ _ (Ht Hact)) as [cmd Hcmd]. apply st_wp_bind. eapply wp_index; [done|].
  destruct (Test h || _ || _ || _ || _) eqn:Hg; [by apply st_wp_ret|].
  destruct (negb (Cause h =? ActivationCon) && _ && _) eqn:Hca; [by apply st_wp_ret|].
  destruct (negb (_ =? t_value t) || _) eqn:Hv; [by apply st_wp_ret|].
  repeat match goal with H : _ || _ = false |- _ => apply orb_false_iff in H as [? ?] end.
  guard_facts.
  assert (∀ sel, CQ_Select qual = sel → answers cmd (t_value t) sel h o) as Hans by (intros sel Hsel; by exists qual).
  assert (∀ t', reacts h o t t' → receives (reacts h o) c (set_ctracker t' c1)) as Hgo.
  { intros t' Hr. constructor; try done; [same_body|]. by right. }
  case_if.
  - apply st_wp_when; [|done]. intros Hw. guard_facts. apply st_wp_bind, wp_stamp, st_wp_upd.
    eapply receives_steady; [eapply Hgo, re_terminate; eauto|].
    constructor; [by constructor|done|same_body].
  - assert (Cause h = ActivationCon ∨ is_unknown (Cause h) = true) as Hc.
    { apply andb_false_iff in Hca as [Hca|Hca]; [|right; by apply negb_false_iff].
      apply andb_false_iff in Hca as [Hca|Hca]; bool_facts; [by left|congruence]. }
    case_if.
    + guard_facts. apply st_wp_upd. eapply Hgo, re_select; eauto.
    + apply st_wp_when; [|done]. intros Hw. guard_facts. apply st_wp_bind, wp_stamp, st_wp_upd.
      eapply receives_steady; [eapply Hgo, re_execute; eauto|].
    constructor; [by constructor|done|same_body].
Qed.

Lemma reacts_tracks h o t t' : reacts h o t t' → tracks t → tracks t'.
Proof. unfold tracks. by destruct 1. Qed.

Definition reacts_to (h : Header) (l : list Object) (t t' : tracker) : Prop := ∃ o, o ∈ l ∧ reacts h o t t'.

Lemma handle_object_ok h o c : body_ok c → tracks (ctracker c) →
  wp (match Element_ o with
      | Iec104Elements.DoubleCommand qualifier => commandResponse pm clock h (Address o) qualifier
      | Iec104Elements.SingleCommand qualifier => commandResponse pm clock h (Address o) qualifier
      | RegulatingCommand qualifier => commandResponse pm clock h (Address o) qualifier
      | _ => if Negative h then st_ret tt else report pm peer epoch clock h o
      end) (λ _ c', receives (reacts h o) c c') c.
Proof.
  intros Hb Ht.
  assert (wp (if Negative h then st_ret tt else report pm peer epoch clock h o) (λ _ c', receives (reacts h o) c c') c) as Hr.
  { destruct (Negative h) eqn:Hn; [by apply st_wp_ret, steady_receives, steady_refl|by apply report_ok]. }
  destruct (Element_ o) eqn:He; try exact Hr; apply commandResponse_ok; try done; by rewrite He.
Qed.

Lemma handle_objects_ok h l c : body_ok c → tracks (ctracker c) →
  wp (handle_objects pm peer epoch clock h l) (λ _ c', receives (reacts_to h l) c c') c.
Proof.
  revert c. induction l as [|o l IH]; intros c Hb Ht; cbn [handle_objects].
  { by apply st_wp_ret, steady_receives, steady_refl. }
  apply st_wp_bind. eapply st_wp_mono; [by apply handle_object_ok|]. intros [] c1 H1.
  assert (tracks (ctracker c1)) as Ht1.
  { destruct (rc_tracker _ _ _ H1) as [->|Hr]; [done|by eapply reacts_tracks]. }
  eapply st_wp_mono; [apply IH; [apply H1|done]|]. intros [] c2 H2.
  destruct H1 as [L1 S1 Q1 G1 B1 T1'], H2 as [L2 S2 Q2 G2 B2 T2']. constructor; try congruence.
  destruct T2' as [->|(o2 & Ho2 & R2)].
  - destruct T1' as [->|R1]; [by left|]. right. exists o. split; [by left|done].
  - destruct T1' as [<-|R1]; [|by destruct (reacts_once _ _ _ _ _ _ R1 R2)].
    right. exists o2. split; [by right|done].
Qed.

(** What a message makes of the centre. *)
Record got (m : Message) (c c' : Centre) : Prop := {
  gt_session : session c' = session c;
  gt_seq : commandSeq c' = commandSeq c;
  gt_log : clog c' = clog c;
  gt_body : body_ok c';
  gt_held : held (clink c) (clink c');
  gt_rest : at_rest (clink c) → at_rest (clink c');
  gt_tracker : ctracker c' = ctracker c ∨
    ∃ a, m = ASDUMessage a ∧ reacts_to (ASDU_GetHeader a) (Objects a) (ctracker c) (ctracker c')
}.

Lemma handle_asdu_ok m c : body_ok c → tracks (ctracker c) → at_rest (clink c) → m ≠ NilMessage →
  wp (handle_asdu pm peer epoch clock m) (λ _ c', got m c c') c.
Proof.
  intros Hb Ht Hrest Hm. assert (got m c c) as H0 by (constructor; auto; by constructor).
  unfold handle_asdu. apply st_wp_bind. unfold message_header, wp at 1.
  destruct m as [a|r|]; [| |done]; repeat (case_if; [by apply st_wp_ret|]); [|by apply st_wp_ret].
  case_if.
  - destruct (Objects a) as [|o [|? ?]]; try by apply st_wp_ret.
    destruct (Element_ o); try by apply st_wp_ret. apply st_wp_when; [|done]. intros _.
    eapply st_wp_mono; [by apply giResponse_ok|]. intros [] c1 [[] ? ? ?]. constructor; auto.
  - eapply st_wp_mono; [by apply handle_objects_ok|]. intros [] c1 []. constructor; auto.
    + by rewrite rc_link0.
    + by rewrite rc_link0.
    + destruct rc_tracker0 as [?|?]; [by left|]. right. by exists a.
Qed.
End Methods.
