(* ===== verification/ControlCentreThread.v ===== *)
(** * The control centre: the exchange of a command

    The log as evidence: what has been sent and received while the thread of a
    command is in each of its phases ([in_flight]), through the reactions of
    the tracker and the steps of the thread; and the outcome of a request. *)
From S2P Require Import Prelude GoLib Iec104Types Iec104Time Iec104Elements Iec104Asdu PointMap.
From S2P Require Import PointMapValid ControlCentre ControlCentreApi ControlCentreInv.

#[local] Open Scope string_scope.
#[local] Open Scope Z_scope.

(** ** Occurrences in order *)
Fixpoint occurs (ps : list (happening → Prop)) (l : list happening) : Prop :=
  match ps with
  | [] => True
  | p :: ps' => ∃ l1 h l2, l = (l1 ++ h :: l2)%list ∧ p h ∧ occurs ps' l2
  end.

Lemma occurs_app ps l k : occurs ps l → occurs ps (l ++ k).
Proof.
  revert l. induction ps as [|p ps IH]; intros l; cbn; [done|]. intros (l1 & h & l2 & -> & Hp & Ho).
  exists l1, h, (l2 ++ k)%list. rewrite <- app_assoc. auto.
Qed.
Lemma occurs_snoc ps (p : happening → Prop) l h : occurs ps l → p h → occurs (ps ++ [p]) (l ++ [h]).
Proof.
  revert l. induction ps as [|p' ps IH]; intros l; cbn.
  - intros _ Hp. by exists l, h, [].
  - intros (l1 & h' & l2 & -> & Hp' & Ho) Hp. exists l1, h', (l2 ++ [h])%list. rewrite <- app_assoc. auto.
Qed.
Lemma occurs_before ps (p : happening → Prop) l h k : occurs [p] l → occurs ps k →
  occurs (p :: (λ x, x = h) :: ps) (l ++ h :: k).
Proof.
  intros (l1 & x & l2 & -> & Hp & _) Hk. exists l1, x, (l2 ++ h :: k)%list. rewrite <- app_assoc. split_and!; [done|done|].
  by exists l2, h, k.
Qed.

Section Correct.
Context (pm : Map) (peer epoch : string) (clock : nat → Z).
Context (decode : string → option (list (string * option string))).
Context (Hpm : map_valid pm).

Notation CHeader := ASDU_GetHeader.

(** ** The exchange of a command *)

(** A message of the station that answers the command. *)
Definition got_answer (cmd : Command) (value : Z) (selecting : bool) (cause : Z) (x : happening) : Prop :=
  ∃ a o, x = LGot (ASDUMessage a) ∧ o ∈ Objects a ∧ answers pm cmd value selecting (CHeader a) o ∧
    Cause (CHeader a) = cause ∧ Negative (CHeader a) = false.
Definition confirmed (cmd : Command) (value : Z) (selecting : bool) : happening → Prop :=
  got_answer cmd value selecting ActivationCon.
Definition terminates (cmd : Command) (value : Z) : happening → Prop := got_answer cmd value false ActivationTerm.
(** The point of the command is reported, as returned information, in the
    expected position with good quality. *)
Definition fed_back (pp : Point) (expected : Z) (x : happening) : Prop :=
  ∃ a o, x = LGot (ASDUMessage a) ∧ o ∈ Objects a ∧ shows pp expected (CHeader a) o ∧
    Cause (CHeader a) = 11 ∧ Negative (CHeader a) = false.
Definition sent_command (cmd : Command) (value : Z) (selecting : bool) (x : happening) : Prop :=
  ∃ s, x = LSent s (command_asdu pm cmd value selecting).
(** A message that executes some command. *)
Definition executes (x : happening) : Prop :=
  ∃ s a o qual, x = LSent s a ∧ o ∈ Objects a ∧ command_qualifier (Element_ o) = Some qual ∧ CQ_Select qual = false.
(** The happenings that belong to no command, and those within one. *)
Definition inside (x : happening) : Prop := match x with LCommand _ _ _ _ | LAnswer _ _ => False | _ => True end.
Definition neutral (x : happening) : Prop :=
  ¬ executes x ∧ match x with LSent _ _ | LGot _ => True | _ => False end.

(** What the log holds before [LAnswer id "completed"]. *)
Definition backed (id : Z) (l : list happening) : Prop :=
  ∃ l0 l1 index value expected cmd pp,
    l = (l0 ++ LCommand id index value expected :: l1)%list ∧ Forall inside l1 ∧
    Commands pm !! index = Some cmd ∧ Points pm !! Z.to_nat (FeedbackIndex cmd) = Some pp ∧
    occurs [sent_command cmd value true; λ x, x = LExecute id; sent_command cmd value false] l1 ∧
    occurs [confirmed cmd value true; λ x, x = LExecute id; confirmed cmd value false; fed_back pp expected; terminates cmd value] l1.
(** What it holds before a message that executes a command. *)
Definition authorised (l : list happening) (x : happening) : Prop :=
  ∃ l0 a b id index value expected cmd,
    l = (l0 ++ LCommand id index value expected :: a ++ LExecute id :: b)%list ∧ Forall inside (a ++ b) ∧
    Commands pm !! index = Some cmd ∧ sent_command cmd value false x ∧
    occurs [sent_command cmd value true] a ∧ occurs [confirmed cmd value true] a ∧
    Forall (λ y, ¬ executes y) (a ++ b).
Definition good_at (l : list happening) (x : happening) : Prop :=
  (∀ id, x = LAnswer id "completed" → backed id l) ∧ (executes x → authorised l x).
Definition history (l : list happening) : Prop := ∀ l1 x l2, l = (l1 ++ x :: l2)%list → good_at l1 x.

Lemma history_snoc l x : history l → good_at l x → history (l ++ [x]).
Proof.
  intros Hl Hx l1 y l2 He. destruct l2 as [|z l2 _] using rev_ind.
  - apply app_inj_tail in He as [<- <-]. done.
  - rewrite app_comm_cons, app_assoc in He. apply app_inj_tail in He as [-> _]. by eapply Hl.
Qed.
Lemma neutral_good l x : neutral x → good_at l x.
Proof. intros [Hx Hm]. split; [intros id ->; done|done]. Qed.

(** ** The thread in flight *)

Definition select_phase (cmd : Command) (value : Z) (p : phase) : Prop :=
  match p with
  | CAdmit true | CSelectSent | CWait ForSelect _ _ | CSelectAnswered => True
  | CSend true _ a => a = command_asdu pm cmd value true
  | CReport st _ => st ≠ "completed"
  | _ => False
  end.
Definition select_sent (p : phase) : bool :=
  match p with CSelectSent | CWait _ _ _ | CSelectAnswered => true | _ => false end.

(** Before the execution; [l] is the log since the command was accepted. *)
Record select_stage (cmd : Command) (value : Z) (t : tracker) (p : phase) (l : list happening) : Prop := {
  se_phase : select_phase cmd value p;
  se_tracker : t_phase t = "select" ∧ executeCon t = 0 ∧ terminated_ t = false ∧ feedback_ t = false;
  se_sent : select_sent p = true → occurs [sent_command cmd value true] l;
  se_con : selectCon t = 1 → occurs [confirmed cmd value true] l;
  se_none : Forall (λ y, ¬ executes y) l
}.

Definition execute_phase (cmd : Command) (value : Z) (t : tracker) (p : phase) : Prop :=
  match p with
  | CAdmit false | CWait ForExecute _ _ | CWait ForTermination _ _ | CExecuteAnswered => True
  | CSend false _ a => a = command_asdu pm cmd value false
  | CTerminated => terminated_ t = true
  | CReport st _ => st = "completed" → terminated_ t = true ∧ negative_ t = false ∧ feedback_ t = true
  | _ => False
  end.
(** The execution was sent; it has not been sent. *)
Definition once (cmd : Command) (value : Z) (l : list happening) : Prop := occurs [sent_command cmd value false] l.
Definition execute_sent (cmd : Command) (value : Z) (p : phase) (l : list happening) : Prop :=
  match p with
  | CAdmit _ | CSend _ _ _ => Forall (λ y, ¬ executes y) l
  | CReport st _ => st = "completed" → once cmd value l
  | _ => once cmd value l
  end.

(** After it: [a] is the log up to the execution, [b] the log since. *)
Record execute_stage (cmd : Command) (pp : Point) (value expected : Z) (t : tracker) (p : phase) (a b : list happening) : Prop := {
  ee_phase : execute_phase cmd value t p;
  ee_tracker : t_phase t = "execute";
  ee_sent_select : occurs [sent_command cmd value true] a;
  ee_con_select : occurs [confirmed cmd value true] a;
  ee_none : Forall (λ y, ¬ executes y) a;
  ee_sent : execute_sent cmd value p b;
  ee_con : executeCon t = 1 → occurs [confirmed cmd value false] b;
  ee_feedback : feedback_ t = true → executeCon t = 1 ∧ occurs [confirmed cmd value false; fed_back pp expected] b;
  ee_term : terminated_ t = true → executeCon t = 1;
  ee_done : terminated_ t = true → negative_ t = false → feedback_ t = true →
    occurs [confirmed cmd value false; fed_back pp expected; terminates cmd value] b
}.

Record follows (th : thread) (expected : Z) (t : tracker) : Prop := {
  fo_active : active_ t = true;
  fo_index : t_index t = th_index th;
  fo_value : t_value t = th_value th;
  fo_deadline : t_deadline t = th_deadline th;
  fo_expected : t_expected t = expected
}.
Definition in_flight (th : thread) (t : tracker) (l : list happening) : Prop :=
  ∃ cmd pp expected l0 l1,
    l = (l0 ++ LCommand (th_id th) (th_index th) (th_value th) expected :: l1)%list ∧ Forall inside l1 ∧
    Commands pm !! th_index th = Some cmd ∧ Points pm !! Z.to_nat (FeedbackIndex cmd) = Some pp ∧
    0 ≤ th_value th ≤ 2 ∧ follows th expected t ∧
    (select_stage cmd (th_value th) t (th_phase th) l1 ∨
     ∃ a b, l1 = (a ++ LExecute (th_id th) :: b)%list ∧
       execute_stage cmd pp (th_value th) expected t (th_phase th) a b).
(** At most one command, followed by the tracker. *)
Definition flight (ths : list thread) (t : tracker) (l : list happening) : Prop :=
  match ths with
  | [] => t = empty_tracker
  | [th] => in_flight th t l
  | _ => False
  end.

Lemma neutral_inside x : neutral x → inside x.
Proof. intros [_ H]. by destruct x. Qed.
Lemma got_neutral m : neutral (LGot m).
Proof. split; [|done]. by intros (s & a & o & qual & ? & _). Qed.
Lemma Forall_snoc {A} (P : A → Prop) l x : Forall P l → P x → Forall P (l ++ [x]).
Proof. intros. apply Forall_app. auto. Qed.

(** Another message: evidence stays. *)
Lemma select_stage_snoc cmd v t p l x : ¬ executes x → select_stage cmd v t p l → select_stage cmd v t p (l ++ [x]).
Proof. intros Hx []. constructor; auto using occurs_app, Forall_snoc. Qed.
Lemma execute_sent_snoc cmd v p l x : ¬ executes x → execute_sent cmd v p l → execute_sent cmd v p (l ++ [x]).
Proof. intros Hx. unfold execute_sent, once. destruct p; auto using occurs_app, Forall_snoc. Qed.
Lemma execute_stage_snoc cmd pp v e t p a b x : ¬ executes x →
  execute_stage cmd pp v e t p a b → execute_stage cmd pp v e t p a (b ++ [x]).
Proof.
  intros Hx []. constructor; auto using occurs_app, execute_sent_snoc.
  intros H. split; [by apply ee_feedback0|by apply occurs_app, ee_feedback0].
Qed.

Lemma in_flight_neutral th t l x : neutral x → in_flight th t l → in_flight th t (l ++ [x]).
Proof.
  intros Hx (cmd & pp & e & l0 & l1 & -> & Hin & Hc & Hp & Hv & Hf & Hst).
  exists cmd, pp, e, l0, (l1 ++ [x])%list. rewrite <- app_assoc. 
  split_and!; [done|by apply Forall_snoc, neutral_inside|done|done|lia|lia|done|].
  destruct Hx as [Hx _]. destruct Hst as [Hst|(a & b & -> & Hst)]; [left; by apply select_stage_snoc|].
  right. exists a, (b ++ [x])%list. rewrite <- app_assoc. split; [done|by apply execute_stage_snoc].
Qed.
Lemma flight_neutral ths t l x : neutral x → flight ths t l → flight ths t (l ++ [x]).
Proof. intros Hx. destruct ths as [|th [|? ?]]; cbn; auto using in_flight_neutral. Qed.

(** ** Reactions *)
Section Reaction.
Context (a : ASDU) (o : Object) (Ho : o ∈ Objects a).
Notation h := (CHeader a).
Notation x := (LGot (ASDUMessage a)).

Lemma confirmation_sign : Cause h = ActivationCon ∨ is_unknown (Cause h) = true →
  (if Negative h || is_unknown (Cause h) then -1 else 1) = 1 → Cause h = ActivationCon ∧ Negative h = false.
Proof.
  intros Hc Hs. destruct (Negative h), (is_unknown (Cause h)); cbn in Hs; lia.
Qed.
Lemma got_confirmed cmd v sel : answers pm cmd v sel h o → Cause h = ActivationCon ∧ Negative h = false → confirmed cmd v sel x.
Proof. intros Ha [Hc Hn]. by exists a, o. Qed.

Lemma reacts_follows th e t t' : reacts pm h o t t' → follows th e t → follows th e t'.
Proof. intros Hr []. destruct Hr; by constructor. Qed.

Lemma select_stage_reacts th e cmd t t' p l : follows th e t → Commands pm !! th_index th = Some cmd →
  select_stage cmd (th_value th) t p l → reacts pm h o t t' → select_stage cmd (th_value th) t' p (l ++ [x]).
Proof.
  intros [Hact Hi Hv _ _] Hcmd [Hp (Ht & He & Htm & Hf) Hs Hc Hn] Hr.
  destruct Hr as [cmd' ? Hcmd' ? Hs0 Ha Hca|? ? ? ? Ht'|? ? ? ? Ht'|? ? ? ? ? ? Hw]; try congruence.
  - rewrite Hi in Hcmd'. rewrite Hv in Ha. assert (cmd' = cmd) as -> by congruence. constructor; [done|done|auto using occurs_app| |].
    + intros Hs1. apply (occurs_snoc []); [done|]. by apply got_confirmed, confirmation_sign.
    + apply Forall_snoc; [done|]. apply got_neutral.
  - unfold wants_feedback in Hw. rewrite Ht in Hw. done.
Qed.

Lemma execute_phase_mono cmd v t t' p : (terminated_ t = true → terminated_ t' = true ∧ negative_ t' = negative_ t) →
  (feedback_ t = true → feedback_ t' = true) → execute_phase cmd v t p → execute_phase cmd v t' p.
Proof.
  intros Ht Hf. destruct p as [[]|[]| |[]| | | |]; try done; cbn; [by intros []%Ht|].
  intros Hp Hs. destruct (Hp Hs) as (H1 & H2 & H3). destruct (Ht H1) as [? ->]. auto.
Qed.

Lemma execute_stage_reacts th cmd pp e t t' p l b : follows th e t → Commands pm !! th_index th = Some cmd →
  Points pm !! Z.to_nat (FeedbackIndex cmd) = Some pp →
  execute_stage cmd pp (th_value th) e t p l b → reacts pm h o t t' →
  execute_stage cmd pp (th_value th) e t' p l (b ++ [x]).
Proof.
  intros [Hact Hi Hv _ He] Hcmd Hpp Hst Hr. assert (¬ executes x) as Hx by apply got_neutral.
  pose proof (execute_stage_snoc _ _ _ _ _ _ _ _ _ Hx Hst) as [Hp Ht Hss Hsc Hn Hse Hc Hf Htm Hd].
  destruct Hr as [? ? ? Ht'|cmd' s ? Hcmd' ? He0 Ha Hca|cmd' s ? Hcmd' ? He1 Hnt Ha Hca|cmd' pp' v s ? Hcmd' Hw Hpp' Hsh Hca Hng];
    [congruence|..]; rewrite Hi in Hcmd'; (assert (cmd' = cmd) as -> by congruence).
  - (* the execution is confirmed *)
    assert (feedback_ t = true → False) as Hnf by (intros H'; destruct (Hf H'); congruence).
    assert (terminated_ t = true → False) as Hnt by (intros H'; specialize (Htm H'); congruence).
    constructor; [|done|done|done|done|done| |by intros|by intros|by intros].
    + eapply execute_phase_mono; [| |exact Hp]; [by intros|done].
    + intros H1. rewrite Hv in Ha. apply (occurs_snoc []); [done|]. by apply got_confirmed, confirmation_sign.
  - (* the execution is terminated *)
    constructor; [|done|done|done|done|done|done|done|done|].
    + eapply execute_phase_mono; [| |exact Hp]; [congruence|done].
    + intros _ Hng Hfb. destruct (ee_feedback _ _ _ _ _ _ _ _ Hst Hfb) as [_ Hocc].
      apply (occurs_snoc [_; _]); [exact Hocc|]. rewrite Hv in Ha. by exists a, o.
  - (* the feedback arrives *)
    assert (pp' = pp) as -> by congruence. unfold wants_feedback in Hw. bool_facts.
    constructor; [|done|done|done|done|done|done| |done|].
    + eapply execute_phase_mono; [| |exact Hp]; done.
    + intros _. split; [done|]. apply (occurs_snoc [_]); [by apply (ee_con _ _ _ _ _ _ _ _ Hst)|].
      exists a, o. by rewrite <- He.
    + cbn. congruence.
Qed.

Lemma in_flight_reacts th t t' l : in_flight th t l → reacts pm h o t t' → in_flight th t' (l ++ [x]).
Proof.
  intros (cmd & pp & e & l0 & l1 & -> & Hin & Hc & Hp & Hv & Hf & Hst) Hr.
  exists cmd, pp, e, l0, (l1 ++ [x])%list. rewrite <- app_assoc.
  split_and!; [done|by apply Forall_snoc|done|done|lia|lia|by eapply reacts_follows|].
  destruct Hst as [Hst|(l' & b & -> & Hst)]; [left; by eapply select_stage_reacts|].
  right. exists l', (b ++ [x])%list. rewrite <- app_assoc. split; [done|by eapply execute_stage_reacts].
Qed.
End Reaction.

Lemma flight_got ths t t' l m : flight ths t l →
  (t' = t ∨ ∃ a, m = ASDUMessage a ∧ reacts_to pm (CHeader a) (Objects a) t t') → flight ths t' (l ++ [LGot m]).
Proof.
  intros Hfl [->|(a & -> & o & Ho & Hr)]; [by apply flight_neutral; [apply got_neutral|]|].
  destruct ths as [|th [|? ?]]; cbn in *; [|by eapply in_flight_reacts|done].
  subst t. by destruct Hr.
Qed.

(** ** Steps of the thread *)
Record acted (c c' : Centre) : Prop := {
  ac_link : clink c' = clink c;
  ac_session : session c' = session c;
  ac_points : cpoints c' = cpoints c;
  ac_body : body_ok pm c'
}.
(** The thread goes on, or has answered. *)
Definition goes (c : Centre) (r : response + thread) (c' : Centre) : Prop :=
  acted c c' ∧ history (clog c') ∧
  match r with
  | inr th' => in_flight th' (ctracker c') (clog c')
  | inl _ => ctracker c' = empty_tracker
  end.

Lemma in_flight_phase th t l p : 
  (∀ cmd l1, select_stage cmd (th_value th) t (th_phase th) l1 → select_stage cmd (th_value th) t p l1) →
  (∀ cmd pp e a b, execute_stage cmd pp (th_value th) e t (th_phase th) a b → execute_stage cmd pp (th_value th) e t p a b) →
  in_flight th t l → in_flight (at_phase p th) t l.
Proof.
  intros Hs He (cmd & pp & e & l0 & l1 & -> & Hin & Hc & Hp & Hv & Hf & Hst).
  exists cmd, pp, e, l0, l1. split_and!; [done|done|done|done|apply Hv|apply Hv|destruct Hf; by constructor|].
  destruct Hst as [Hst|(a & b & -> & Hst)]; [left; by apply Hs|]. right. exists a, b. split; [done|by apply He].
Qed.
Lemma in_flight_report th t l st r : st ≠ "completed" → in_flight th t l → in_flight (at_phase (CReport st r) th) t l.
Proof.
  intros Hst. apply in_flight_phase.
  - intros cmd l1 []. by constructor.
  - intros cmd pp e a b []. constructor; try done; intros ?; congruence.
Qed.

Lemma select_not_executing s cmd value : ¬ executes (LSent s (command_asdu pm cmd value true)).
Proof.
  intros (s' & a & o & qual & He & Ho & Hq & Hsel). injection He as <- <-. unfold command_asdu in Ho.
  assert (CQ_Select (Z.lor (u8 value) 0x80) = true) as Hb by (unfold CQ_Select; by apply has_lor_r).
  destruct (command_element _ _) as [ty e] eqn:Hel. cbn in Ho. apply list_elem_of_singleton in Ho as ->. cbn in Hq.
  unfold command_element in Hel. destruct (Command_Kind cmd); injection Hel as <- <-; cbn in Hq; congruence.
Qed.

(** The state when only the clock was read. *)
Lemma goes_clock c n th' : body_ok pm c → history (clog c) → in_flight th' (ctracker c) (clog c) →
  goes c (inr th') (set_creadings n c).
Proof. intros Hb Hh Hf. split_and!; [|done|done]. constructor; try done. by apply (steady_now pm c n Hb). Qed.
Lemma goes_same c th' : body_ok pm c → history (clog c) → in_flight th' (ctracker c) (clog c) → goes c (inr th') c.
Proof. intros Hb Hh Hf. by split_and!. Qed.

Section Step.
Context (c : Centre) (th : thread) (Hb : body_ok pm c) (Hh : history (clog c)).
Context (Hf : in_flight th (ctracker c) (clog c)).

Lemma flight_command : ∃ cmd, Commands pm !! th_index th = Some cmd ∧ Commands pm !! t_index (ctracker c) = Some cmd ∧
  ∃ pp, Points pm !! Z.to_nat (FeedbackIndex cmd) = Some pp.
Proof. destruct Hf as (cmd & pp & e & l0 & l1 & _ & _ & Hc & Hp & _ & [] & _). exists cmd. rewrite fo_index0. eauto. Qed.

Lemma admit_step selecting : th_phase th = CAdmit selecting →
  wp (let? r := sendCommand_admit pm clock (th_value th) selecting in
      match r with
      | Some (s, a) => st_ret (inr (at_phase (CSend selecting s a) th))
      | None => st_ret (inr (at_phase (send_failed selecting) th))
      end) (goes c) c.
Proof.
  intros Hp. destruct flight_command as (cmd & Hc & Hc' & _).
  assert (in_flight (at_phase (send_failed selecting) th) (ctracker c) (clog c)) as Hno by by apply in_flight_report.
  unfold sendCommand_admit. apply st_wp_bind, st_wp_bind, st_wp_get, st_wp_bind. eapply wp_index; [done|].
  destruct (session c) as [s|]; [|by apply st_wp_ret, st_wp_ret, goes_same].
  case_if; [|by apply st_wp_ret, st_wp_ret, goes_same].
  apply st_wp_bind, wp_now, st_wp_ret. case_if; apply st_wp_ret, goes_clock; try done.
  destruct Hf as (cmd0 & pp & e & l0 & l1 & -> & Hin & Hc0 & Hpp & Hv & Hfo & Hst).
  assert (cmd0 = cmd) as -> by congruence.
  exists cmd, pp, e, l0, l1. split_and!; [done|done|done|done|apply Hv|apply Hv|destruct Hfo; by constructor|].
  rewrite Hp in Hst. destruct Hst as [[]|(a & b & -> & [])].
  - left. destruct selecting; [|done]. by constructor.
  - right. exists a, b. split; [done|]. destruct selecting; [done|]. by constructor.
Qed.

Lemma send_select_step s a sent : th_phase th = CSend true s a →
  wp (do? sendCommand_sent s a sent in st_ret (inr (at_phase (if negb sent then send_failed true else CSelectSent) th))) (goes c) c.
Proof.
  intros Hp. apply st_wp_bind. unfold sendCommand_sent. destruct sent; apply st_wp_upd, st_wp_ret; cbn [negb].
  - destruct Hf as (cmd & pp & e & l0 & l1 & Hl & Hin & Hc0 & Hpp & Hv & Hfo & Hst). rewrite Hp in Hst.
    destruct Hst as [[Hph]|(l' & b & -> & [])]; [|done]. cbn in Hph. subst a.
    assert (neutral (LSent s (command_asdu pm cmd (th_value th) true))) as Hn by (split; [apply select_not_executing|done]).
    split_and!; [by constructor; try done; apply (body_same pm c)|by apply history_snoc; [|apply neutral_good]|].
    exists cmd, pp, e, l0, (l1 ++ [LSent s (command_asdu pm cmd (th_value th) true)])%list. cbn. rewrite Hl, <- app_assoc.
    split_and!; [done|by apply Forall_snoc|done|done|apply Hv|apply Hv|destruct Hfo; by constructor|]. left.
    constructor; [done|done| |auto using occurs_app|].
    + intros _. apply (occurs_snoc []); [done|]. by exists s.
    + apply Forall_snoc; [done|apply Hn].
  - split_and!; [by constructor; try done; apply (body_same pm c)|done|by apply in_flight_report].
Qed.

Lemma send_execute_step s a sent : th_phase th = CSend false s a →
  wp (do? sendCommand_sent s a sent in
      st_ret (inr (at_phase (if negb sent then send_failed false else CWait ForExecute (th_deadline th) false) th))) (goes c) c.
Proof.
  intros Hp. apply st_wp_bind. unfold sendCommand_sent. destruct sent; apply st_wp_upd, st_wp_ret; cbn [negb].
  - destruct Hf as (cmd & pp & e & l0 & l1 & Hl & Hin & Hc0 & Hpp & Hv & Hfo & Hst). rewrite Hp in Hst.
    destruct Hst as [[Hph]|(l' & b & -> & [Hph Ht Hss Hsc Hn Hse Hc Hfb Htm Hd])]; [done|]. cbn in Hph. subst a.
    set (x := LSent s _). apply Forall_app in Hin as Hin'. destruct Hin' as [Hin1 [_ Hin2]%Forall_cons].
    split_and!; [by constructor; try done; apply (body_same pm c)| |].
    + apply history_snoc; [done|]. split; [done|]. intros _. cbn [clog set_sendFailures]. rewrite Hl.
      exists l0, l', b, (th_id th), (th_index th), (th_value th), e, cmd. cbn in Hse.
      split_and!; [done|by apply Forall_app|done|by exists s|done|done|by apply Forall_app].
    + exists cmd, pp, e, l0, (l' ++ LExecute (th_id th) :: (b ++ [x]))%list. cbn. rewrite Hl, <- app_assoc. cbn. rewrite <- app_assoc.
      split_and!; [done| |done|done|apply Hv|apply Hv|destruct Hfo; by constructor|].
      { apply Forall_app. split; [done|]. apply Forall_cons. split; [done|by apply Forall_snoc]. }
      right. exists l', (b ++ [x])%list. split; [done|].
      constructor; [done|done|done|done|done| |auto using occurs_app| |done|auto using occurs_app].
      * apply (occurs_snoc []); [done|]. by exists s.
      * intros H. split; [by apply Hfb|by apply occurs_app, Hfb].
  - split_and!; [by constructor; try done; apply (body_same pm c)|done|by apply in_flight_report].
Qed.

Lemma select_sent_step : th_phase th = CSelectSent →
  wp (let? n := now clock in
      let u := n + T1 (Map_Timers pm) * second in
      st_ret (inr (at_phase (CWait ForSelect (if th_deadline th <? u then th_deadline th else u) false) th))) (goes c) c.
Proof.
  intros Hp. apply st_wp_bind, wp_now, st_wp_ret, goes_clock; [done|done|].
  eapply in_flight_phase; [| |exact Hf]; rewrite Hp.
  - intros cmd l1 []. constructor; auto.
  - by intros cmd pp e a b [].
Qed.

Lemma wait_step what u woken ended_ : th_phase th = CWait what u woken →
  wp (let? r := wait_pass clock what u (woken && ended_) in
      st_ret (inr (at_phase (match r with
          | None => CWait what u true
          | Some WDone => when_done what
          | Some WLost => when_lost what
          | Some WTimeout => when_timeout what
          end) th))) (goes c) c.
Proof.
  intros Hp.
  assert (in_flight (at_phase (when_lost what) th) (ctracker c) (clog c)) as Hlost by by apply in_flight_report.
  assert (in_flight (at_phase (when_timeout what) th) (ctracker c) (clog c)) as Htime by by apply in_flight_report.
  assert (in_flight (at_phase (CWait what u true) th) (ctracker c) (clog c)) as Hmore.
  { eapply in_flight_phase; [| |exact Hf]; rewrite Hp; [intros cmd l1 []|intros cmd pp e a b []]; by constructor. }
  apply st_wp_bind. unfold wait_pass. destruct (woken && ended_); [by apply st_wp_ret, st_wp_ret, goes_same|].
  apply st_wp_bind, st_wp_get. case_if.
  - apply st_wp_ret, st_wp_ret, goes_same; [done|done|]. eapply in_flight_phase; [| |exact Hf]; rewrite Hp.
    + intros cmd l1 []. destruct what; [by constructor|done|done].
    + intros cmd pp e a b []. destruct what; [done|by constructor|by constructor].
  - case_if; [by apply st_wp_ret, st_wp_ret, goes_same|]. apply st_wp_bind, wp_now, st_wp_ret, st_wp_ret, goes_clock; [done|done|].
    by case_if.
Qed.

Lemma select_answered_step : th_phase th = CSelectAnswered →
  wp (let? p := select_answered clock (th_id th) in st_ret (inr (at_phase p th))) (goes c) c.
Proof.
  intros Hp. apply st_wp_bind. unfold select_answered. apply st_wp_bind, wp_get_tracker. case_if.
  - apply st_wp_bind, st_wp_upd, st_wp_bind, wp_stamp, st_wp_bind, st_wp_upd, st_wp_bind, st_wp_upd, st_wp_ret, st_wp_ret.
    apply Z.eqb_eq in Hif.
    destruct Hf as (cmd & pp & e & l0 & l1 & Hl & Hin & Hc0 & Hpp & Hv & [] & Hst). rewrite Hp in Hst.
    destruct Hst as [[_ (Ht & He & Htm & Hfb) Hs Hc Hn]|(l' & b & -> & [])]; [|done].
    split_and!; [by constructor; try done; apply (body_same pm c)| |].
    + apply history_snoc; [done|]. split; [done|]. by intros (? & ? & ? & ? & ? & _).
    + exists cmd, pp, e, l0, (l1 ++ [LExecute (th_id th)])%list. cbn. rewrite Hl, <- app_assoc.
      split_and!; [done|by apply Forall_snoc|done|done|apply Hv|apply Hv|by constructor|].
      right. exists l1, []. split; [done|]. constructor; cbn; auto; try congruence; [by apply Hs|by apply Hc].
  - apply st_wp_ret, st_wp_ret, goes_same; [done|done|]. by apply in_flight_report.
Qed.

Lemma execute_answered_step : th_phase th = CExecuteAnswered →
  wp (let? p := execute_answered (th_deadline th) in st_ret (inr (at_phase p th))) (goes c) c.
Proof.
  intros Hp. apply st_wp_bind. unfold execute_answered. apply st_wp_bind, wp_get_tracker, st_wp_ret, st_wp_ret, goes_same; [done|done|].
  case_if; [|by apply in_flight_report]. eapply in_flight_phase; [| |exact Hf]; rewrite Hp.
  - by intros cmd l1 [].
  - intros cmd pp e a b []. by constructor.
Qed.

Lemma terminated_step : th_phase th = CTerminated →
  wp (let? p := terminated_answer pm in st_ret (inr (at_phase p th))) (goes c) c.
Proof.
  intros Hp. destruct flight_command as (cmd & _ & Hc & pp & Hpp).
  apply st_wp_bind. unfold terminated_answer. apply st_wp_bind, wp_get_tracker. case_if.
  { apply st_wp_ret, st_wp_ret, goes_same; [done|done|]. by apply in_flight_report. }
  case_if.
  { apply st_wp_bind. eapply wp_index; [done|]. apply st_wp_bind. eapply wp_index; [done|].
    apply st_wp_ret, st_wp_ret, goes_same; [done|done|]. by apply in_flight_report. }
  apply st_wp_ret, st_wp_ret, goes_same; [done|done|]. eapply in_flight_phase; [| |exact Hf]; rewrite Hp.
  - by intros cmd' l1 [].
  - apply negb_false_iff in Hif0. intros cmd' pp' e a b []. constructor; try done. by intros _.
Qed.

Lemma finish_step st r : th_phase th = CReport st r →
  wp (let? x := finish pm clock th st r in st_ret (inl x)) (goes c) c.
Proof.
  intros Hp. destruct flight_command as (cmd & Hc & _ & pp & Hpp).
  apply st_wp_bind. unfold finish. apply st_wp_bind, wp_get_tracker, st_wp_bind. eapply wp_index; [done|].
  apply st_wp_bind. eapply (st_wp_mono _ (λ _ c', c' = c)).
  { case_if; [|by apply st_wp_ret]. apply st_wp_bind. eapply wp_index; [done|]. by apply st_wp_ret. }
  intros fb c' ->. apply st_wp_bind. eapply st_wp_mono; [by apply add_ok|]. intros [] c1 [[] Hp1 Hb1].
  apply st_wp_bind, st_wp_upd, st_wp_bind, st_wp_upd, st_wp_ret, st_wp_ret.
  split_and!; [by constructor; try done; apply (body_same pm c1)| |done]. cbn. rewrite qt_log.
  apply history_snoc; [done|]. split; [|by intros (? & ? & ? & ? & ? & _)]. intros id [= <- ->].
  destruct Hf as (cmd0 & pp0 & e & l0 & l1 & Hl & Hin & Hc0 & Hpp0 & Hv & _ & Hst). rewrite Hp in Hst.
  destruct Hst as [[Hph]|(a & b & -> & [Hph Ht Hss Hsc Hn Hse Hcon Hfb Htm Hd])]; [by cbn in Hph|].
  destruct (Hph eq_refl) as (Ht1 & Ht2 & Ht3).
  exists l0, (a ++ LExecute (th_id th) :: b)%list, (th_index th), (th_value th), e, cmd0, pp0.
  split_and!; [done|done|done|done| |].
  - apply occurs_before; [done|by apply Hse].
  - apply occurs_before; [done|by apply Hd].
Qed.

Lemma thread_step_ok ended_ sent : wp (thread_step pm clock ended_ sent th) (goes c) c.
Proof.
  unfold thread_step. destruct (th_phase th) as [sel|[] s a| |what u woken| | | |st r] eqn:Hp.
  - by apply admit_step.
  - by apply (send_select_step s a).
  - by apply (send_execute_step s a).
  - by apply select_sent_step.
  - by apply wait_step.
  - by apply select_answered_step.
  - by apply execute_answered_step.
  - by apply terminated_step.
  - by apply finish_step.
Qed.
End Step.

(** ** Requests *)
Lemma operation_value_range k op : -1 ≤ operation_value k op ≤ 2.
Proof. unfold operation_value. destruct k; repeat case_if; lia. Qed.
Lemma find_command_lt id i l j cmd : find_command id i l = Some (j, cmd) → (i ≤ j < i + length l)%nat.
Proof.
  revert i. induction l as [|c l IH]; intros i; cbn; [done|]. case_if; [intros [= <- _]; lia|].
  intros H%IH. lia.
Qed.
Lemma parseCommand_ok body i v op : parseCommand pm decode body = inr (i, v, op) →
  (i < length (Commands pm))%nat ∧ 0 ≤ v ≤ 2.
Proof.
  unfold parseCommand. destruct (has_nul body); [done|]. destruct (decode body) as [ms|]; [|done].
  destruct (parse_fields [] ms) as [e|fs]; [done|]. case_if; [done|].
  destruct (find_command _ _ _) as [[j cmd]|] eqn:Hf; [|done]. apply find_command_lt in Hf.
  pose proof (operation_value_range (Command_Kind cmd) (truncate (field "operation" fs) 15)). case_if; [done|].
  bool_facts. intros [= <- <- _]. lia.
Qed.

(** When a command is accepted: no other is in flight, the link is up and not
    about to be dropped, an interrogation of this connection has completed, and
    the point that will confirm the command is current. *)
Definition acceptable (c : Centre) (index : nat) : Prop :=
  active_ (ctracker c) = false ∧ reconnect (clink c) = false ∧ is_started (clink c) = true ∧
  completed (clink c) ≠ None ∧
  ∃ cmd fb, Commands pm !! index = Some cmd ∧ cpoints c !! Z.to_nat (FeedbackIndex cmd) = Some fb ∧
    known fb = true ∧ has (q fb) Invalid = false ∧ has (q fb) NotTopical = false.

Lemma command_point i cmd : Commands pm !! i = Some cmd → ∃ pp, Points pm !! Z.to_nat (FeedbackIndex cmd) = Some pp.
Proof.
  intros H. pose proof (mv_commands _ Hpm) as Hc. eapply Forall_lookup_1 in Hc; [|done].
  unfold command_valid in Hc. destruct_and!. naive_solver.
Qed.

Definition polite (l l' : link) : Prop :=
  state l' = state l ∧ shutdown l' = shutdown l ∧ gi l' = gi l ∧ completed l' = completed l.

(** The outcome of a request. *)
Record served_as (c : Centre) (r : response + thread) (c' : Centre) : Prop := {
  sv_points : cpoints c' = cpoints c;
  sv_session : session c' = session c;
  sv_link : polite (clink c) (clink c');
  sv_body : body_ok pm c';
  sv_result : match r with
              | inl _ => ctracker c' = ctracker c ∧ clog c' = clog c
              | inr th => acceptable c (th_index th) ∧ th_phase th = CAdmit true ∧ in_flight th (ctracker c') (clog c') ∧
                          (history (clog c) → history (clog c'))
              end
}.
Lemma served_refusal c r : body_ok pm c → served_as c (inl r) c.
Proof. intros Hb. by constructor. Qed.

Lemma command_ok index value op c : body_ok pm c → (index < length (Commands pm))%nat → 0 ≤ value ≤ 2 →
  wp (command pm clock index value op) (served_as c) c.
Proof.
  intros Hb Hi Hv. apply lookup_lt_is_Some in Hi as [cmd Hc]. destruct (command_point _ _ Hc) as [pp Hpp].
  destruct (lookup_cached pm c _ _ Hb Hpp) as (fb & Hfb & _).
  unfold command. apply st_wp_bind, st_wp_get, st_wp_bind. eapply wp_index; [done|].
  apply st_wp_bind. eapply wp_get_point; [done|].
  case_if; [by apply st_wp_ret, served_refusal|]. apply orb_false_iff in Hif as [Ha Hr].
  case_if; [by apply st_wp_ret, served_refusal|]. apply negb_false_iff in Hif.
  case_if; [by apply st_wp_ret, served_refusal|]. apply orb_false_iff in Hif0 as [[Hg Hk]%orb_false_iff Hq].
  apply bool_decide_eq_false in Hg. apply negb_false_iff in Hk. rewrite has_lor in Hq. apply orb_false_iff in Hq as [Hq1 Hq2].
  apply st_wp_bind, wp_now, st_wp_bind, wp_stamp, st_wp_bind, st_wp_upd, st_wp_bind, st_wp_upd, st_wp_ret.
  constructor; [done|done|done|by apply (body_same pm c)|]. split_and!.
  - split_and!; try done. by exists cmd, fb.
  - done.
  - eexists cmd, pp, _, (clog c), []. cbn.
    split_and!; [done|by apply Forall_nil_2|done|done|lia|lia|by constructor|left].
    by constructor; cbn.
  - intros Hh. apply history_snoc; [done|]. split; [done|]. by intros (? & ? & ? & ? & ? & _).
Qed.

Lemma requested_ok c c1 : served_as c (inl (failure 0 "")) c1 → wp (requested clock) (served_as c) c1.
Proof.
  intros []. unfold requested. apply st_wp_bind, wp_now, st_wp_ret. constructor; try done.
  by apply (body_same pm c1).
Qed.

Lemma api_ok r c : body_ok pm c → wp (api pm peer epoch clock decode r) (served_as c) c.
Proof.
  intros Hb. assert (∀ x, served_as c (inl x) c) as Hno by (intros; by apply served_refusal).
  unfold api. destruct (endpoint _) as [m|]; [|by apply st_wp_ret].
  case_if; [by apply st_wp_ret|]. clear Hif. case_if; [by apply st_wp_ret|]. clear Hif. case_if.
  { destruct (parseCommand _ _ _) as [e|[[i v] op]] eqn:Hp; [by apply st_wp_ret|].
    apply parseCommand_ok in Hp as [Hi Hv]. by apply command_ok. }
  clear Hif. unfold ok_response. case_if.
  { apply st_wp_bind. unfold healthJSON. by apply st_wp_bind, st_wp_get, st_wp_ret, st_wp_ret. }
  case_if.
  { apply st_wp_bind. eapply st_wp_mono; [by apply stateJSON_ok|]. intros j c1 ([[] Hp Hb1] & _ & _). apply st_wp_ret.
    constructor; try done. unfold polite. by rewrite qt_link. }
  case_if.
  { destruct (journal_after _); [|by apply st_wp_ret]. apply st_wp_bind. unfold journalJSON. apply st_wp_bind, st_wp_get.
    destruct (journal c); by apply st_wp_ret, st_wp_ret. }
  case_if.
  - unfold api_gi. apply st_wp_bind, wp_get_link. do 3 (case_if; [by apply st_wp_ret|]).
    apply st_wp_bind, st_wp_upd, requested_ok. constructor; try done. by apply (body_same pm c).
  - unfold api_reconnect. apply st_wp_bind, st_wp_get. do 3 (case_if; [by apply st_wp_ret|]).
    apply st_wp_bind, st_wp_upd, requested_ok. constructor; try done. by apply (body_same pm c).
Qed.
End Correct.
