(* ===== verification/ControlCentreCorrect.v ===== *)
(** * The control centre: its guarantees

    What every reachable world of [ControlCentreApi] guarantees for a map that
    passed the loader: a command is reported complete only on the evidence of
    its whole exchange, an execution is sent only after its selection was
    confirmed, a cached value is never shown as current without a link, and a
    command ends. *)
From S2P Require Import Prelude GoLib Iec104Types Iec104Time Iec104Elements Iec104Asdu PointMap.
From S2P Require Import PointMapValid ControlCentre ControlCentreApi ControlCentreInv ControlCentreThread.

#[local] Open Scope string_scope.
#[local] Open Scope Z_scope.

Section World.
Context (pm : Map) (peer epoch : string) (clock : nat → Z).
Context (decode : string → option (list (string * option string))).
Context (Hpm : map_valid pm).

Notation step := (step_input pm peer epoch clock decode).
Notation reachable := (reachable pm peer epoch clock decode).

(** ** The invariant *)
Record winv (w : World) : Prop := {
  wi_body : body_ok pm (centre w);
  wi_rest : at_rest (clink (centre w));
  wi_live : is_started (clink (centre w)) = true ↔ conn w = Live;
  wi_paused : loop w = Paused → conn w ≠ Live;
  wi_points : is_started (clink (centre w)) = false → shutdown (clink (centre w)) = false →
              Forall point_lost (cpoints (centre w));
  wi_flight : flight pm (threads w) (ctracker (centre w)) (clog (centre w));
  wi_history : history pm (clog (centre w))
}.

Lemma flight_tracks ths t l : flight pm ths t l → tracks pm t.
Proof.
  destruct ths as [|th [|? ?]]; cbn; [by intros ->| |done].
  intros (cmd & pp & e & l0 & l1 & _ & _ & Hc & _ & _ & [] & _) _. rewrite fo_index. by eapply lookup_lt_Some.
Qed.

(** A method that does not panic and re-establishes the invariant. *)
Definition steps_to (r : bool + World) : Prop := r = inl false ∨ ∃ w', r = inr w' ∧ winv w'.
Lemma steps_no : steps_to (inl false).
Proof. by left. Qed.
Lemma steps_on {A} (m : CM A) (k : A → World → World) w :
  wp m (λ a c, winv (k a (mkWorld c (threads w) (loop w) (conn w) (pub w)))) (centre w) →
  steps_to (match on_centre m w k with Some w' => inr w' | None => inl true end).
Proof.
  intros (a & c & Hm & Hw)%st_wp_elim. right. unfold on_centre. rewrite Hm. eauto.
Qed.
#[local] Hint Resolve steps_no : core.

(** The invariant through a change that leaves commands and log alone. *)
Lemma winv_aside w c' loop' conn' pub' : winv w → aside (centre w) c' → body_ok pm c' → at_rest (clink c') →
  (is_started (clink c') = true ↔ conn' = Live) → (loop' = Paused → conn' ≠ Live) →
  (is_started (clink c') = false → shutdown (clink c') = false → Forall point_lost (cpoints c')) →
  winv (mkWorld c' (threads w) loop' conn' pub').
Proof. intros [] [] Hb Hr Hl Hp Hpt. constructor; cbn; try done; by rewrite ?as_tracker, ?as_log. Qed.

(** The link goes through a tick or an interrogation. *)
Lemma winv_stepped w c' loop' pub' : winv w → stepped pm (centre w) c' → cpoints c' = cpoints (centre w) ∨ is_started (clink c') = true →
  (loop' = Paused → conn w ≠ Live) → winv (mkWorld c' (threads w) loop' (conn w) pub').
Proof.
  intros Hw [Ha Hb Hh Hr] Hp Hl. pose proof (held_started _ _ Hh) as Hs. pose proof Hw as [].
  apply winv_aside; auto; [by rewrite Hs|]. intros H1 H2. destruct Hp as [->|Hp]; [|congruence].
  apply wi_points0; [congruence|]. by rewrite <- (hd_shutdown _ _ Hh).
Qed.

Lemma winv_clink w l loop' conn' pub' : winv w → at_rest l → (is_started l = true ↔ conn' = Live) → (loop' = Paused → conn' ≠ Live) →
  (is_started l = false → shutdown l = false → is_started (clink (centre w)) = false ∧ shutdown (clink (centre w)) = false) →
  ∀ n, winv (mkWorld (set_creadings n (set_clink l (centre w))) (threads w) loop' conn' pub').
Proof.
  intros Hw Hr Hl Hp Hpt n. pose proof Hw as []. apply winv_aside; auto; [by constructor|by apply (body_same pm (centre w))|].
  cbn. intros H1 H2. destruct (Hpt H1 H2). auto.
Qed.

(** The connection ends. *)
Lemma winv_ended w loop' conn' : winv w → conn' ≠ Live → ∀ c,
  aside (centre w) c → body_ok pm c → at_rest (clink c) → cpoints c = cpoints (centre w) →
  (shutdown (clink c) = false → shutdown (clink (centre w)) = false) → is_started (clink c) = is_started (clink (centre w)) →
  wp (ended pm peer clock) (λ _ c', winv (mkWorld c' (threads w) loop' conn' (pub w))) c.
Proof.
  intros Hw Hn c Ha Hb Hr Hp Hsd Hst. eapply st_wp_mono; [by apply ended_ok|].
  intros [] c' (Ha' & Hb' & Hs & Hc & Hg & Hsd' & Hpts). pose proof Hw as [].
  apply winv_aside; [done| |done|by intros _|split; congruence|done|].
  - destruct Ha, Ha'. constructor; congruence.
  - intros _ Hx. rewrite Hsd' in Hx. rewrite Hx in Hpts. cbn in Hpts.
    destruct (is_started (clink c)) eqn:E; cbn in Hpts; [done|]. rewrite Hpts, Hp. apply wi_points0; auto.
Qed.

(** The centre of a world replaced. *)
Notation with_centre c w := (mkWorld c (threads w) (loop w) (conn w) (pub w)).

Lemma winv_shutdown w : winv w → winv (with_centre (set_clink (set_shutdown true (clink (centre w))) (centre w)) w).
Proof.
  intros Hw. pose proof Hw as []. apply winv_aside; auto; [by constructor|by apply (body_same pm (centre w))|done].
Qed.

Lemma cancelled_step {A} (m : CM A) (Q : A → Centre → Prop) (cancelled : bool) w :
  winv w → (∀ c, winv (with_centre c w) → wp m Q c) →
  wp (do? st_when cancelled (upd_link (set_shutdown true)) in m) Q (centre w).
Proof.
  intros Hw Hm. apply st_wp_bind. destruct cancelled; [apply st_wp_upd|apply st_wp_ret]; apply Hm; [by apply winv_shutdown|].
  by destruct w.
Qed.

Lemma dial_failed_step w cancelled : winv w → conn w = Silent →
  wp (dial_failed pm peer clock cancelled) (λ _ c, winv (mkWorld c (threads w) Paused (conn w) (pub w))) (centre w).
Proof.
  intros Hw Hc. apply cancelled_step; [done|]. intros c Hw'. pose proof Hw' as [].
  apply (winv_ended (with_centre c w)); auto; [by rewrite Hc|by constructor].
Qed.

Lemma started_step w : winv w → loop w ≠ Paused →
  wp (handle pm peer epoch clock Started) (λ _ c, winv (mkWorld c (threads w) (loop w) Live (pub w))) (centre w).
Proof.
  intros Hw Hl. pose proof Hw as [].
  apply st_wp_bind, st_wp_upd, st_wp_bind, wp_stamp, st_wp_bind, st_wp_upd, st_wp_bind, wp_get_link.
  match goal with |- wp _ _ ?c' => set (c1 := c') end.
  assert (body_ok pm c1) as Hb1 by by apply (body_same pm (centre w)).
  eapply st_wp_mono; [by apply add_ok|]. intros [] c2 [[] Hp2 Hb2].
  assert (is_started (clink c2) = true) as Hs by (by rewrite qt_link).
  apply winv_aside; [done|by constructor|done|by intros H; rewrite Hs in H|done|done|by rewrite Hs].
Qed.

Lemma message_step w m : winv w → loop w ≠ Paused → conn w = Live → m ≠ NilMessage →
  wp (handle pm peer epoch clock (ASDUReceived m)) (λ _ c, winv (with_centre c w)) (centre w).
Proof.
  intros Hw Hl Hc Hm. pose proof Hw as []. apply st_wp_bind, st_wp_upd.
  match goal with |- wp _ _ ?c' => set (c1 := c') end.
  assert (body_ok pm c1) as Hb1 by by apply (body_same pm (centre w)).
  eapply st_wp_mono; [apply handle_asdu_ok; try done; by eapply flight_tracks|].
  intros [] c2 [Hs2 Hq2 Hl2 Hb2 Hh2 Hr2 Ht2]. pose proof (held_started _ _ Hh2) as Hs. unfold c1 in *. cbn in *.
  constructor; cbn; auto; try (rewrite Hl2).
  - by rewrite Hs.
  - intros H. rewrite Hs in H. apply wi_live0 in Hc. congruence.
  - by eapply flight_got.
  - apply history_snoc; [done|]. apply neutral_good, got_neutral.
Qed.

Lemma callback_step w cancelled e d : winv w → loop w ≠ Paused → delivers e (conn w) = Some d →
  wp (callback pm peer epoch clock cancelled e) (λ _ c, winv (mkWorld c (threads w) (loop w) d (pub w))) (centre w).
Proof.
  intros Hw Hl Hd. apply cancelled_step; [done|]. intros c Hw'. pose proof Hw' as []. cbn in *.
  destruct e as [| | | |m]; cbn in Hd.
  - (* opened *)
    assert (conn w = Silent ∧ d = Fresh) as [Hc ->] by (destruct (conn w); try done; by injection Hd as <-). apply st_wp_upd.
    apply (winv_aside (with_centre c w)); [done|by constructor|by apply (body_same pm c)|done| |done|done].
    split; [|done]. intros H. apply wi_live0 in H. congruence.
  - (* started *)
    assert (d = Live) as -> by (destruct (conn w); congruence). by apply (started_step (with_centre c w)).
  - (* stopped *)
    assert (d = conn w) as -> by (destruct (conn w); try done; by injection Hd as <-). by apply st_wp_ret.
  - (* closed *)
    assert (d = Gone) as -> by (destruct (conn w); congruence).
    apply (winv_ended (with_centre c w)); auto. by constructor.
  - (* a message *)
    assert (m ≠ NilMessage) as Hm by by destruct m.
    assert (conn w = Live ∧ d = Live) as [Hc ->] by (destruct m, (conn w); try done; by injection Hd as <-).
    rewrite <- Hc. by apply (message_step (with_centre c w)).
Qed.

Lemma winv_same w c loop' pub' : winv w → aside (centre w) c → clink c = clink (centre w) → cpoints c = cpoints (centre w) →
  body_ok pm c → (loop' = Paused → conn w ≠ Live) → winv (mkWorld c (threads w) loop' (conn w) pub').
Proof. intros Hw Ha Hl Hp Hb Hn. pose proof Hw as []. by apply winv_aside; rewrite ?Hl, ?Hp. Qed.

Lemma dialed_step w s loop' : winv w → (loop' = Paused → conn w ≠ Live) →
  wp (dialed s) (λ _ c, winv (mkWorld c (threads w) loop' (conn w) (pub w))) (centre w).
Proof. intros [] Hl. apply st_wp_upd. constructor; try done. by apply (body_same pm (centre w)). Qed.

Lemma tick_step w s : winv w → loop w = Looping s →
  wp (tick pm clock) (λ r c, winv (match r with
      | TickClose reason_ => at_loop (Closing reason_)
      | TickSend tr => at_loop (Sending s tr)
      | TickNothing => λ w, w
      end (with_centre c w))) (centre w).
Proof.
  intros Hw Hl. pose proof Hw as []. eapply st_wp_mono; [by apply centre_tick_ok|]. intros r c [Hst Hp].
  assert (∀ l, l ≠ Paused → winv (mkWorld c (threads w) l (conn w) (pub w))) as Hgo.
  { intros l Hne. apply winv_stepped; [done|done| |done].
    destruct (is_started (clink c)) eqn:E; [by right|]. left. apply Hp.
    by rewrite <- (held_started _ _ (st_held _ _ _ Hst)). }
  destruct r; apply Hgo; try done. by rewrite Hl.
Qed.

Lemma gi_neutral s : neutral (LSent s (gi_request pm)).
Proof.
  split; [|done]. intros (s' & a & o & qual & [= <- <-] & Ho & Hq & _). cbn in Ho.
  apply list_elem_of_singleton in Ho as ->. done.
Qed.
Lemma send_gi_step w s sent tr : winv w →
  wp (send_gi pm s sent tr) (λ r c, winv (at_loop (match r with Some reason_ => Closing reason_ | None => Looping s end)
    (with_centre c w))) (centre w).
Proof.
  intros Hw. pose proof Hw as []. unfold send_gi. destruct sent; apply st_wp_bind, st_wp_upd, st_wp_ret.
  - constructor; cbn; try done; [by apply (body_same pm (centre w))|by apply flight_neutral; [apply gi_neutral|]|].
    apply history_snoc; [done|]. apply neutral_good, gi_neutral.
  - apply (winv_same w); try done; [by apply (body_same pm (centre w))|]. by case_if.
Qed.

Lemma request_step w r : winv w →
  wp (api pm peer epoch clock decode r)
    (λ a c, winv (match a with inl _ => with_centre c w | inr th => with_threads (threads w ++ [th]) (with_centre c w) end)) (centre w).
Proof.
  intros Hw. pose proof Hw as []. eapply st_wp_mono; [by apply api_ok|]. intros a c [Hp Hs (H1 & H2 & H3 & H4) Hb Hr].
  assert (is_started (clink c) = is_started (clink (centre w))) as Hst by (unfold is_started; by rewrite H1).
  assert (at_rest (clink c)) as Hrest by (unfold at_rest; by rewrite Hst, H3, H4).
  destruct a as [x|th].
  - destruct Hr as [Ht Hl]. constructor; cbn; try done; by rewrite ?Hst, ?H2, ?Hp, ?Ht, ?Hl.
  - destruct Hr as ((Hact & _) & _ & Hfl & Hh).
    assert (threads w = []) as ->.
    { destruct (threads w) as [|th' [|? ?]] eqn:Hth; [done| |done]. cbn in wi_flight0.
      destruct wi_flight0 as (? & ? & ? & ? & ? & _ & _ & _ & _ & _ & [] & _). congruence. }
    constructor; cbn; try done; by rewrite ?Hst, ?H2, ?Hp; auto.
Qed.

Lemma flight_lookup ths t l k th : flight pm ths t l → ths !! k = Some th → ths = [th] ∧ k = 0%nat ∧ in_flight pm th t l.
Proof. destruct ths as [|th' [|? ?]]; cbn; try done. intros H [-> ->]%list_lookup_singleton_Some. done. Qed.

Lemma thread_world_step w k th ended_ sent : winv w → threads w !! k = Some th →
  wp (thread_step pm clock ended_ sent th)
    (λ a c, winv (match a with
                  | inl _ => with_threads (delete k (threads w)) (with_centre c w)
                  | inr th' => with_threads (<[k := th']> (threads w)) (with_centre c w)
                  end)) (centre w).
Proof.
  intros Hw Hk. pose proof Hw as []. destruct (flight_lookup _ _ _ _ _ wi_flight0 Hk) as (Hths & -> & Hfl).
  eapply st_wp_mono; [by apply thread_step_ok|]. intros a c ([H1 H2 H3 H4] & Hh & Hr). rewrite Hths.
  destruct a as [x|th']; constructor; cbn; try done; by rewrite ?H1, ?H3.
Qed.

Lemma publish_step w n : winv w →
  wp (publish_round pm peer epoch clock n)
    (λ a c, winv ((let '(n', b) := a in at_pub (match b with Some b => Pushing n' b | None => Publishing n' end))
                    (with_centre c w))) (centre w).
Proof.
  intros Hw. pose proof Hw as []. unfold publish_round. apply st_wp_bind, wp_now, st_wp_bind.
  assert (steady pm (centre w) (set_creadings (S (creadings (centre w))) (centre w))) as H0 by by apply steady_now.
  eapply (st_wp_mono _ (λ _ c, steady pm (centre w) c)).
  { apply st_wp_when; intros _; [|done]. eapply st_wp_mono; [apply enqueue_ok; [done|apply H0]|].
    intros [] c Hc. by eapply steady_trans. }
  intros [] c1 [Hq Hp Hb]. pose proof (quiet_aside _ _ Hq) as Ha. destruct Hq.
  apply st_wp_bind, st_wp_get. destruct (queue c1) as [|b rest] eqn:Hqu.
  - apply st_wp_ret. by apply (winv_same w).
  - apply st_wp_bind, st_wp_upd, st_wp_ret. apply (winv_same w); try done.
    destruct Hb as [? ? ? Hlen]. constructor; cbn; try done. rewrite Hqu in Hlen. cbn in Hlen. lia.
Qed.

(** Every input is refused or leads to a world with the invariant. *)
Lemma step_ok i w : winv w → steps_to (step i w).
Proof.
  intros Hw. pose proof Hw as []. pose proof (winv_shutdown w Hw) as Hsd.
  destruct i as [|cancelled|s|cancelled e| | |sent| | | | | | |r|k ended_ sent| |ok|]; cbn [step_input].
  - (* the loop begins a connection *)
    case_if; [|done]. apply bool_decide_eq_true in Hif. apply steps_on, st_wp_bind, st_wp_upd, st_wp_bind, wp_stamp, st_wp_upd.
    assert (is_started (clink (centre w)) = false) as Hs.
    { apply not_true_iff_false. intros E%wi_live0. by apply wi_paused0. }
    apply (winv_aside w); try done; [by apply (body_same pm (centre w))|intros _; by apply wi_rest0|].
    intros _ H. by apply wi_points0.
  - case_if; [|done]. apply andb_true_iff in Hif as [_ Hc]. apply bool_decide_eq_true in Hc.
    apply steps_on. by apply dial_failed_step.
  - case_if; [|done]. by apply steps_on, dialed_step.
  - destruct (delivers e (conn w)) as [d|] eqn:Hd; [|by destruct (loop w)].
    destruct (decide (loop w = Paused)) as [->|Hl]; [done|].
    assert (steps_to (match on_centre (callback pm peer epoch clock cancelled e) w (λ _, at_conn d) with
                      | Some w' => inr w' | None => inl true end)) as Hgo by by apply steps_on, callback_step.
    by destruct (loop w).
  - case_if; [done|]. apply steps_on, st_wp_bind, wp_now, st_wp_bind, st_wp_upd, st_wp_bind, wp_stamp, st_wp_upd.
    apply (winv_aside w); try done; by apply (body_same pm (centre w)).
  - destruct (loop w) eqn:Hl; try done. apply steps_on. by apply tick_step.
  - destruct (loop w) eqn:Hl; try done. apply steps_on. by apply send_gi_step.
  - destruct (loop w) eqn:Hl; try done. right. eexists. split; [done|]. by apply (winv_same w).
  - destruct (loop w) eqn:Hl; try done. apply steps_on, st_wp_upd. destruct Hsd. by constructor.
  - apply steps_on, st_wp_upd. by destruct w.
  - destruct (loop w) eqn:Hl; try done. apply steps_on. unfold close_reason. apply st_wp_when; intros _.
    + apply st_wp_upd. apply (winv_aside w); try done; by apply (body_same pm (centre w)).
    + by apply (winv_same w).
  - destruct (loop w) eqn:Hl; try done; (case_if; [|done]); apply bool_decide_eq_true in Hif;
      apply steps_on, dialed_step; [done|by rewrite Hif|done|by rewrite Hif].
  - destruct (loop w) eqn:Hl; try done. by apply steps_on, dialed_step.
  - apply steps_on. eapply st_wp_mono; [by apply request_step|]. by intros [x|th] c.
  - destruct (threads w !! k) as [th|] eqn:Hk; [|done]. apply steps_on.
    eapply st_wp_mono; [by apply (thread_world_step w k th)|]. by intros [x|th'] c.
  - destruct (pub w) eqn:Hpb; try done. apply steps_on. eapply st_wp_mono; [by apply publish_step|]. intros [n' b] c. by rewrite Hpb.
  - destruct (pub w) eqn:Hpb; try done. apply steps_on. unfold push_end. destruct ok.
    + apply st_wp_bind, wp_stamp, st_wp_upd. apply (winv_same w); try done. by apply (body_same pm (centre w)).
    + apply st_wp_upd. apply (winv_same w); try done. by apply (body_same pm (centre w)).
  - destruct (pub w) eqn:Hpb; try done. apply steps_on, st_wp_upd. apply (winv_same w); try done.
    destruct wi_body0. constructor; try done. cbn. lia.
Qed.

Lemma served_ok b : winv (served pm clock b).
Proof.
  assert (Forall (λ p, cached_ok p ∧ point_lost p)
            (replicate (length (Points pm)) (mkCached false PNil 0 (Z.lor Invalid NotTopical) false "never_received" None None false 0 0 0)))
    as Hf by (apply Forall_replicate; by split; split).
  assert (history pm []) as Hh by (intros l1 x l2 H; by destruct l1).
  assert (∀ c, cpoints c = cpoints (New pm clock) → journal c = [] → queue c = [] → body_ok pm c) as Hb.
  { intros c H1 H2 H3. constructor; rewrite ?H1, ?H3; cbn; [by rewrite length_replicate| |split; rewrite H2; [cbn; lia|]|lia].
    2:{ intros i e H. by rewrite lookup_nil in H. }
    eapply Forall_impl; [exact Hf|]. by intros p []. }
  destruct b; constructor; cbn; try done; try (by apply Hb); try (intros; eapply Forall_impl; [exact Hf|]; by intros p []).
Qed.

Lemma reachable_ok w : reachable w → winv w.
Proof.
  induction 1 as [b|i w w' _ IH Hs]; [apply served_ok|].
  destruct (step_ok i w IH) as [Hn|(w'' & Hs' & Hw)]; congruence.
Qed.

(** ** A command ends *)

(** A run: every input is possible in turn. *)
Fixpoint run (es : list input) (w : World) : option World :=
  match es with
  | [] => Some w
  | i :: es' => match step i w with inr w' => run es' w' | inl _ => None end
  end.
Lemma run_reachable es w w' : reachable w → run es w = Some w' → reachable w'.
Proof.
  revert w. induction es as [|i es IH]; intros w Hw; cbn; [by intros [= <-]|].
  destruct (step i w) as [b|w1] eqn:Hs; [done|]. apply IH. by eapply reach_step.
Qed.

(** No wait of a thread goes beyond its deadline. *)
Definition waits_ok (th : thread) : Prop := match th_phase th with CWait _ u _ => u ≤ th_deadline th | _ => True end.
(** The steps left once the deadline has passed. *)
Definition rank (p : phase) : nat :=
  match p with
  | CReport _ _ => 1
  | CAdmit _ | CTerminated => 2
  | CSelectAnswered | CWait ForTermination _ _ => 3
  | CExecuteAnswered | CWait ForSelect _ _ => 4
  | CSelectSent | CWait ForExecute _ _ => 5
  | CSend _ _ _ => 6
  end.
Definition overdue (th : thread) (c : Centre) : Prop := th_deadline th ≤ clock (creadings c).

(** The thread after a step, if it has not answered. *)
Definition advances (c : Centre) (th : thread) (r : response + thread) : Prop :=
  match r with
  | inl _ => True
  | inr th' => waits_ok th' ∧ th_deadline th' = th_deadline th ∧
               (overdue th c → (rank (th_phase th') < rank (th_phase th))%nat)
  end.

Ltac advance :=
  intros [= <- _]; cbn; split_and!; try done; bool_facts;
  try match goal with H : overdue ?th ?c → _ |- overdue ?th ?c → _ => intros ?%H end; lia.

Lemma thread_advances c th ended_ sent r c' : waits_ok th → t_deadline (ctracker c) = th_deadline th →
  thread_step pm clock ended_ sent th c = (Ok r, c') → advances c th r.
Proof.
  intros Hwt Hdl. assert (overdue th c → th_deadline th ≤ clock (creadings c)) as Hod by done.
  unfold thread_step, waits_ok, advances in *. unfold waits_ok.
  destruct (th_phase th) as [sel|sel s a| |what u woken| | | |st rs] eqn:Hp; unfold st_bind, st_ret, at_index.
  - unfold sendCommand_admit, st_bind, st_get, at_index, idx, now, st_ret.
    destruct (Commands pm !! _) as [cmd|]; [|done]. destruct (session c) as [s|]; [|advance]. repeat case_if; advance.
  - unfold sendCommand_sent. destruct sent, sel; advance.
  - unfold now. case_if; advance.
  - unfold wait_pass, st_bind, st_get, st_ret, now. repeat case_if; destruct what; advance.
  - unfold select_answered, st_bind, get_tracker, upd_tracker, st_upd, stamp, now, log, st_ret. case_if; advance.
  - unfold execute_answered, st_bind, get_tracker, st_ret. case_if; advance.
  - unfold terminated_answer, st_bind, get_tracker, at_index, idx, st_ret. repeat case_if; try advance.
    destruct (Commands pm !! _); [|done]. destruct (Points pm !! _); [|done]. advance.
  - destruct (finish _ _ _ _ _ c) as [[x| | |] c1]; [|done..]. by intros [= <- _].
Qed.

(** What an input does to the threads. *)
Definition own (i : input) : bool := match i with IThread _ _ _ => true | _ => false end.
Lemma on_centre_threads {A} (m : CM A) w (k : A → World → World) w' :
  (∀ a x, threads (k a x) = threads x) →
  match on_centre m w k with Some w1 => inr w1 | None => inl true end = inr (A := bool) w' → threads w' = threads w.
Proof.
  intros Hk. unfold on_centre. destruct (m (centre w)) as [[a| | |] c]; try done. intros [= <-]. by rewrite Hk.
Qed.
Lemma step_threads i w w' : step i w = inr w' →
  match i with IRequest _ | IThread _ _ _ => True | _ => threads w' = threads w end.
Proof.
  intros H. destruct i; try exact I; cbn [step_input] in H;
    repeat match type of H with
    | (if ?b then _ else _) = _ => destruct b; try done
    | match loop w with _ => _ end = _ => destruct (loop w); try done
    | match pub w with _ => _ end = _ => destruct (pub w); try done
    | match delivers ?e ?d with _ => _ end = _ => destruct (delivers e d); try done
    end; try (eapply on_centre_threads; [|exact H]; first [by intros | by intros [] ? | by intros [? [?|]] ?]); try (by injection H as <-).
Qed.

(** A request: it is answered, or it starts the only command. *)
Lemma request_outcome r w w' : winv w → step (IRequest r) w = inr w' →
  (threads w' = threads w ∧ ctracker (centre w') = ctracker (centre w) ∧ clog (centre w') = clog (centre w)) ∨
  (threads w = [] ∧ ∃ th, threads w' = [th] ∧ th_phase th = CAdmit true ∧ acceptable pm (centre w) (th_index th)).
Proof.
  intros Hw H. pose proof (request_step w r Hw) as Hr. cbn [step_input] in H. unfold on_centre in H.
  destruct (st_wp_elim _ _ _ (api_ok pm peer epoch clock decode Hpm r (centre w) (wi_body _ Hw))) as (a & c & Ha & [Hp Hs Hl Hb Hres]).
  unfold wp in Hr. rewrite Ha in H, Hr. injection H as <-. destruct a as [x|th].
  - left. by destruct Hres.
  - right. destruct Hres as (Hacc & Hph & _). pose proof (wi_flight _ Hr) as Hfl. cbn in Hfl.
    destruct (threads w) as [|th' [|? ?]]; try done. split; [done|]. by exists th.
Qed.

(** A step of the thread in flight. *)
Lemma own_outcome k ended_ sent w w' : winv w → step (IThread k ended_ sent) w = inr w' →
  ∃ th r, threads w = [th] ∧ k = 0%nat ∧
    (waits_ok th → advances (centre w) th r) ∧
    match r with inl _ => threads w' = [] | inr th' => threads w' = [th'] end.
Proof.
  intros Hw H. cbn [step_input] in H. destruct (threads w !! k) as [th|] eqn:Hk; [|done].
  destruct (flight_lookup _ _ _ _ _ (wi_flight _ Hw) Hk) as (Hths & -> & Hfl).
  unfold on_centre in H. destruct (thread_step _ _ _ _ _ _) as [[r| | |] c] eqn:Hst; try done. injection H as <-.
  exists th, r. split_and!; [done|done| |by rewrite Hths; destruct r].
  intros Hwt. eapply thread_advances; [done| |exact Hst].
  by destruct Hfl as (? & ? & ? & ? & ? & _ & _ & _ & _ & _ & [] & _).
Qed.

Lemma waits_reachable w : reachable w → Forall waits_ok (threads w).
Proof.
  induction 1 as [b|i w w' Hr IH Hs]; [by apply Forall_nil_2|]. pose proof (reachable_ok w Hr) as Hw.
  destruct i; try (pose proof (step_threads _ _ _ Hs) as He; cbn in He; by rewrite He).
  - destruct (request_outcome _ _ _ Hw Hs) as [(-> & _)|(_ & th & -> & Hp & _)]; [done|].
    apply Forall_singleton. unfold waits_ok. by rewrite Hp.
  - destruct (own_outcome _ _ _ _ _ Hw Hs) as (th & x & Hths & _ & Ha & Hx). rewrite Hths in IH.
    specialize (Ha (Forall_inv IH)). destruct x as [x|th']; rewrite Hx; [by apply Forall_nil_2|].
    by apply Forall_singleton, Ha.
Qed.

Lemma command_runs_out es w th w' : reachable w → threads w = [th] → run es w = Some w' →
  (∀ es1 w1, es1 `prefix_of` es → run es1 w = Some w1 → th_deadline th ≤ clock (creadings (centre w1))) →
  (rank (th_phase th) ≤ length (List.filter own es))%nat →
  ∃ es1 w1, es1 `prefix_of` es ∧ run es1 w = Some w1 ∧ threads w1 = [].
Proof.
  revert w th. induction es as [|i es IH]; intros w th Hr Hths Hrun Hclk Hlen.
  { cbn in Hlen. destruct (th_phase th) as [| | |[]| | | |]; cbn in Hlen; lia. }
  cbn [run] in Hrun. destruct (step i w) as [b|w1] eqn:Hs; [done|]. pose proof (reachable_ok w Hr) as Hw.
  assert (reachable w1) as Hr1 by by eapply reach_step.
  (* the rest of the run, from a thread with fewer steps left *)
  assert (∀ th', threads w1 = [th'] → th_deadline th' = th_deadline th →
    (rank (th_phase th') ≤ length (List.filter own es))%nat →
    ∃ es1 w2, es1 `prefix_of` i :: es ∧ run es1 w = Some w2 ∧ threads w2 = []) as Hgo.
  { intros th' Hth' Hdl Hrk. destruct (IH w1 th') as (es1 & w2 & Hpre & Hrun2 & Hend); try done.
    - intros es1 w2 Hpre H2. rewrite Hdl. apply (Hclk (i :: es1)); [by apply prefix_cons|]. cbn [run]. by rewrite Hs.
    - exists (i :: es1), w2. split_and!; [by apply prefix_cons|cbn [run]; by rewrite Hs|done]. }
  destruct i; try (pose proof (step_threads _ _ _ Hs) as He; cbn in He; by apply (Hgo th); [congruence|done|]).
  - destruct (request_outcome _ _ _ Hw Hs) as [(He & _)|(He & _)]; [|congruence]. by apply (Hgo th); [congruence|done|].
  - destruct (own_outcome _ _ _ _ _ Hw Hs) as (th0 & x & Hths' & _ & Ha & Hx).
    assert (th0 = th) as -> by congruence. pose proof (waits_reachable w Hr) as Hwt. rewrite Hths in Hwt.
    specialize (Ha (Forall_inv Hwt)). destruct x as [x|th'].
    + exists [IThread k ended_ sent], w1. split_and!; [by apply prefix_cons, prefix_nil|cbn [run]; by rewrite Hs|done].
    + destruct Ha as (_ & Hdl & Hrk). apply (Hgo th'); [done|done|]. cbn in Hlen.
      assert (overdue th (centre w)) as Ho by (apply (Hclk []); [apply prefix_nil|done]). specialize (Hrk Ho). lia.
Qed.

(** ** Claims *)

(** C8. A command is answered as completed only on the whole evidence: since it
    was accepted, with no other command in between, its selection and then its
    execution were sent, and the station confirmed the selection, then the
    execution, then reported the point of the command in the expected position
    with good quality as returned information, and then terminated the command
    positively, in this order. *)
Theorem centre_completed_backed (w : World) (l1 l2 : list happening) (id : Z) :
  reachable w → clog (centre w) = (l1 ++ LAnswer id "completed" :: l2)%list → backed pm id l1.
Proof. intros Hr He. by apply (wi_history _ (reachable_ok w Hr) _ _ _ He). Qed.

(** C9. An execution is sent only after the selection of the same command with
    the same value was sent and positively confirmed by the station, for the
    command accepted last, and only once. *)
Theorem centre_execute_authorised (w : World) (l1 l2 : list happening) (x : happening) :
  reachable w → clog (centre w) = (l1 ++ x :: l2)%list → executes x → authorised pm l1 x.
Proof. intros Hr He Hx. by apply (wi_history _ (reachable_ok w Hr) _ _ _ He). Qed.

(** The cache is honest: a point has no reason to be stale exactly when its
    quality is neither invalid nor not topical, a point never received is
    stale, and while the link is down every point is invalid, not topical and
    stale, unless the service is stopping. *)
Theorem centre_cache_honest (w : World) :
  reachable w →
  length (cpoints (centre w)) = length (Points pm) ∧
  (∀ p, p ∈ cpoints (centre w) →
     (stale p = "" ↔ has (q p) Invalid = false ∧ has (q p) NotTopical = false) ∧ (known p = false → stale p ≠ "") ∧
     (state (clink (centre w)) ≠ "started" → shutdown (clink (centre w)) = false →
        has (q p) Invalid = true ∧ has (q p) NotTopical = true ∧ stale p ≠ "")).
Proof.
  intros Hr. destruct (reachable_ok w Hr) as [Hb _ _ _ Hp _ _]. split; [apply Hb|]. intros p Hin.
  pose proof (proj1 (Forall_forall _ _) (bd_points _ _ Hb) p Hin) as [H1 H2]. split_and!; [|done|].
  - rewrite H1, has_lor. apply orb_false_iff.
  - intros Hs Hsd. assert (is_started (clink (centre w)) = false) as E by by apply String.eqb_neq.
    exact (proj1 (Forall_forall _ _) (Hp E Hsd) p Hin).
Qed.

(** C28. No input makes the station panic; at most one command is in flight; a
    request starts one only when none is in flight, no reconnect is pending,
    the link is up, an interrogation of this connection has completed and the
    point of the command is received and current, and any other request
    leaves the command in flight alone; the journal is the last entries, at
    most five hundred, numbered without a gap up to the newest, and at most
    sixteen snapshots wait for the historian. *)
Theorem centre_total (w : World) (i : input) :
  reachable w →
  step i w ≠ inl true ∧ (length (threads w) ≤ 1)%nat ∧ journal_ok (centre w) ∧ (length (queue (centre w)) ≤ 16)%nat ∧
  ∀ r w', i = IRequest r → step i w = inr w' →
    (threads w' = threads w ∧ ctracker (centre w') = ctracker (centre w) ∧ clog (centre w') = clog (centre w)) ∨
    (threads w = [] ∧ ∃ th, threads w' = [th] ∧ th_phase th = CAdmit true ∧ acceptable pm (centre w) (th_index th)).
Proof.
  intros Hr. pose proof (reachable_ok w Hr) as Hw. pose proof Hw as []. split_and!.
  - destruct (step_ok i w Hw) as [->|(w' & -> & _)]; done.
  - destruct (threads w) as [|th [|? ?]]; cbn in *; [lia|lia|done].
  - apply wi_body0.
  - apply wi_body0.
  - intros r w' -> Hs. by apply (request_outcome r).
Qed.

(** A command ends: once its deadline has passed, whatever else happens,
    it is answered within six steps of its own. *)
Theorem centre_command_ends (w w' : World) (th : thread) (es : list input) :
  reachable w → threads w = [th] → run es w = Some w' →
  (∀ es1 w1, es1 `prefix_of` es → run es1 w = Some w1 → th_deadline th ≤ clock (creadings (centre w1))) →
  (6 ≤ length (List.filter own es))%nat →
  ∃ es1 w1, es1 `prefix_of` es ∧ run es1 w = Some w1 ∧ threads w1 = [].
Proof.
  intros Hr Hth Hrun Hclk Hlen. eapply command_runs_out; [done|done|done|done|].
  destruct (th_phase th) as [| | |[]| | | |]; cbn; lia.
Qed.
End World.

(** ** A breaker opened from the control centre

    The link comes up, the station is interrogated, the operator opens the
    feeder breaker, and the command completes. *)
Definition lab_clock (n : nat) : Z := Z.of_nat n * millisecond.
Definition lab_decode (_ : string) : option (list (string * option string)) :=
  Some [("point", Some "feeder-breaker-command"); ("operation", Some "open")].
Definition lab_run (es : list input) : option World :=
  run demo "10.20.20.10:2404" "epoch" lab_clock lab_decode es (served demo lab_clock true).

Definition station_says (ty cause ioa : Z) (e : Element) : input :=
  ICallback false (ASDUReceived (ASDUMessage (mkASDU (mkHeader ty false 0 cause false false 0 1) [mkObject ioa e]))).
Definition lab_connect : list input :=
  [IConnect; ICallback false Opened; IDialed 0; ICallback false Started; ITap; ITick; ISendGI true;
   station_says C_IC_NA_1 7 0 (Interrogation 20); station_says M_DP_NA_1 20 1001 (Iec104Elements.DoublePoint 2);
   station_says C_IC_NA_1 10 0 (Interrogation 20)].
Definition open_request : input := IRequest (mkRequest "POST" "/api/commands" "" "{}").
Definition go : input := IThread 0 false true.
Definition lab_select : list input :=
  [open_request; go; go; go; station_says C_DC_NA_1 7 3001 (Iec104Elements.DoubleCommand 129); go; go; go].
Definition lab_execute : list input :=
  [go; station_says C_DC_NA_1 7 3001 (Iec104Elements.DoubleCommand 1); go; go; IPublish; IPushed true;
   station_says M_DP_NA_1 11 1001 (Iec104Elements.DoublePoint 1);
   station_says C_DC_NA_1 10 3001 (Iec104Elements.DoubleCommand 1); go; go; go].

Definition lab (es : list input) : World :=
  match lab_run es with Some w => w | None => served demo lab_clock true end.
Lemma lab_reachable es : reachable demo "10.20.20.10:2404" "epoch" lab_clock lab_decode (lab es).
Proof.
  unfold lab, lab_run. destruct (run _ _ _ _ _ es _) as [w|] eqn:H; [|apply reach_start].
  eapply run_reachable; [apply reach_start|exact H].
Qed.

Lemma centre_completed_backed_witness :
  let w := lab (lab_connect ++ lab_select ++ lab_execute) in
  ∃ l1, clog (centre w) = (l1 ++ [LAnswer 1 "completed"])%list ∧ backed demo 1 l1.
Proof.
  intros w. exists (removelast (clog (centre w))).
  assert (clog (centre w) = (removelast (clog (centre w)) ++ [LAnswer 1 "completed"])%list) as He by (by vm_compute).
  split; [exact He|].
  exact (centre_completed_backed demo _ _ _ _ demo_valid w _ [] 1 (lab_reachable _) He).
Defined.

Lemma centre_execute_authorised_witness :
  let w := lab (lab_connect ++ lab_select ++ [go]) in
  ∃ l1, clog (centre w) = (l1 ++ [LSent 0 (command_asdu demo (nth 0 (Commands demo) (mkCommand "" "" "" 0 DoubleCommand true 0 0 Holding 0)) 1 false)])%list ∧
    authorised demo l1 (LSent 0 (command_asdu demo (nth 0 (Commands demo) (mkCommand "" "" "" 0 DoubleCommand true 0 0 Holding 0)) 1 false)).
Proof.
  intros w. set (x := LSent 0 _). exists (removelast (clog (centre w))).
  assert (clog (centre w) = (removelast (clog (centre w)) ++ [x])%list) as He by (by vm_compute).
  split; [exact He|]. apply (centre_execute_authorised demo _ _ _ _ demo_valid w _ [] x (lab_reachable _) He).
  exists 0%nat. eexists _, _, 1. split_and!; [reflexivity|by left|by vm_compute|by vm_compute].
Defined.

(** The link is lost: the position is still shown, but nobody takes it for current. *)
Lemma centre_cache_honest_witness :
  let w := lab (lab_connect ++ [ICallback false Closed]) in
  ∃ p, cpoints (centre w) !! 0%nat = Some p ∧ value_ p = PName "closed" ∧ stale p = "link_lost" ∧
    has (q p) Invalid = true ∧ has (q p) NotTopical = true.
Proof.
  intros w. destruct (centre_cache_honest demo _ _ _ _ demo_valid w (lab_reachable _)) as [_ H].
  destruct (cpoints (centre w) !! 0%nat) as [p|] eqn:Hp; [|by vm_compute in Hp].
  exists p. assert (value_ p = PName "closed" ∧ stale p = "link_lost") as [Hv Hs].
  { vm_compute in Hp. by injection Hp as <-. }
  destruct (H p) as (_ & _ & Hd); [by eapply list_elem_of_lookup_2|].
  destruct Hd as (H1 & H2 & _); [by vm_compute|by vm_compute|].
  exact (conj eq_refl (conj Hv (conj Hs (conj H1 H2)))).
Defined.

Lemma centre_total_witness :
  let w := lab lab_connect in
  ∃ w', step_input demo "10.20.20.10:2404" "epoch" lab_clock lab_decode open_request w = inr w' ∧
    ∃ th, threads w' = [th] ∧ acceptable demo (centre w) (th_index th).
Proof.
  intros w. pose proof (centre_total demo "10.20.20.10:2404" "epoch" lab_clock lab_decode demo_valid w open_request (lab_reachable _))
    as (_ & _ & _ & _ & H).
  assert (threads w = []) as H0 by (vm_compute; reflexivity).
  assert (∃ w', step_input demo "10.20.20.10:2404" "epoch" lab_clock lab_decode open_request w = inr w' ∧ length (threads w') = 1%nat)
    as (w' & Hs & Hn) by (eexists; split; vm_compute; reflexivity).
  clearbody w. exists w'. split; [exact Hs|]. destruct (H _ w' eq_refl Hs) as [(He & _)|(_ & th & Hth & _ & Ha)].
  - exfalso. rewrite He, H0 in Hn. discriminate.
  - exists th. exact (conj Hth Ha).
Defined.

(** The confirmation of the selection overtakes the end of the call of [Send],
    and then nothing happens until the deadline. *)
Definition late_clock (n : nat) : Z := if (n <? 19)%nat then Z.of_nat n * millisecond else 60 * second.
Definition late : World :=
  match run demo "10.20.20.10:2404" "epoch" late_clock lab_decode
          (lab_connect ++ [open_request; go; station_says C_DC_NA_1 7 3001 (Iec104Elements.DoubleCommand 129)])
          (served demo late_clock true) with
  | Some w => w
  | None => served demo late_clock true
  end.
Lemma late_reachable : reachable demo "10.20.20.10:2404" "epoch" late_clock lab_decode late.
Proof.
  unfold late. destruct (run _ _ _ _ _ _ _) as [w|] eqn:H; [|apply reach_start].
  eapply run_reachable; [apply reach_start|exact H].
Qed.
(** Every world of a run meets a condition. *)
Fixpoint along (f : World → bool) (es : list input) (w : World) : bool :=
  f w && match es with
         | [] => true
         | i :: es' => match step_input demo "10.20.20.10:2404" "epoch" late_clock lab_decode i w with
                       | inr w' => along f es' w'
                       | inl _ => true
                       end
         end.
Lemma along_prefix f es w es1 w1 : along f es w = true → es1 `prefix_of` es →
  run demo "10.20.20.10:2404" "epoch" late_clock lab_decode es1 w = Some w1 → f w1 = true.
Proof.
  revert es w. induction es1 as [|i es1 IH]; intros es w Ha Hp Hr.
  - injection Hr as <-. destruct es; cbn [along] in Ha; by apply andb_true_iff in Ha as [? _].
  - destruct Hp as [k ->]. cbn [along app run] in *. destruct (step_input _ _ _ _ _ i w) as [b|w2]; [done|].
    apply andb_true_iff in Ha as [_ Ha]. eapply IH; [exact Ha|by apply prefix_app_r|done].
Qed.

Lemma centre_command_ends_witness :
  ∃ es1 w1, es1 `prefix_of` [go; go; go; go; go; go] ∧
    run demo "10.20.20.10:2404" "epoch" late_clock lab_decode es1 late = Some w1 ∧ threads w1 = [].
Proof.
  assert (∃ th, threads late = [th] ∧ th_deadline th = 10015000000) as (th & Hth & Hd)
    by (eexists; split; vm_compute; reflexivity).
  assert (∃ w', run demo "10.20.20.10:2404" "epoch" late_clock lab_decode [go; go; go; go; go; go] late = Some w') as (w' & Hr)
    by (eexists; vm_compute; reflexivity).
  assert (along (λ w, 10015000000 <=? late_clock (creadings (centre w))) [go; go; go; go; go; go] late = true) as Ha
    by (vm_compute; reflexivity).
  refine (centre_command_ends demo "10.20.20.10:2404" "epoch" late_clock lab_decode demo_valid late w' th
    [go; go; go; go; go; go] late_reachable Hth Hr _ _); [|vm_compute; lia].
  intros es1 w1 Hp H1. rewrite Hd. apply Z.leb_le. exact (along_prefix _ _ _ _ _ Ha Hp H1).
Defined.
