(* ===== verification/ControlCentreHttp.v ===== *)
(** * The control centre: requests off the wire

    The HTTP reader of the control centre (http.go): the head of a request
    found in the bytes received so far, its lines checked, the body collected,
    and the request handed to the API.  A connection is the sequence of results
    of [Read]; how the bytes are split over the calls does not matter
    ([http_chunking]).  [serveHTTP] with its slots, the write side and the drain
    after a reply are not modelled. *)
From S2P Require Import Prelude GoLib PointMap.
From S2P Require Import ControlCentre ControlCentreApi.

#[local] Open Scope string_scope.
#[local] Open Scope Z_scope.

(** ** Texts as lists of bytes *)
Definition bytes : Type := list ascii.
Notation text := String.list_ascii_of_string.
Notation "'str_of' l" := (String.string_of_list_ascii l) (at level 10, l at level 9).

Definition CR : ascii := "013".
Definition LF : ascii := "010".
Definition NUL : ascii := "000".

Fixpoint is_prefix (p l : bytes) : bool :=
  match p, l with
  | [], _ => true
  | a :: p', b :: l' => Ascii.eqb a b && is_prefix p' l'
  | _, _ => false
  end.
(** [bytes.Index]. *)
Fixpoint index (p l : bytes) : option nat :=
  if is_prefix p l then Some 0%nat
  else match l with [] => None | _ :: l' => S <$> index p l' end.
(** [strings.Split] by a separator of one or two bytes. *)
Fixpoint split1 (sep : ascii) (l : bytes) : list bytes :=
  match l with
  | [] => [[]]
  | a :: l' => if Ascii.eqb a sep then [] :: split1 sep l'
               else match split1 sep l' with x :: r => (a :: x) :: r | [] => [[a]] end
  end.
Fixpoint split_lines (l : bytes) : list bytes :=
  match l with
  | [] => [[]]
  | a :: l' =>
      match l' with
      | b :: l'' => if Ascii.eqb a CR && Ascii.eqb b LF then [] :: split_lines l''
                    else match split_lines l' with x :: r => (a :: x) :: r | [] => [[a]] end
      | [] => [[a]]
      end
  end.
(** [strings.Cut] by one byte: the part before, the part after if it occurs. *)
Fixpoint cut (sep : ascii) (l : bytes) : bytes * option bytes :=
  match l with
  | [] => ([], None)
  | a :: l' => if Ascii.eqb a sep then ([], Some l') else let '(x, r) := cut sep l' in (a :: x, r)
  end.
Fixpoint trim_left (l : bytes) : bytes :=
  match l with
  | a :: l' => if Ascii.eqb a " " || Ascii.eqb a "009" then trim_left l' else l
  | [] => []
  end.
Definition trim (l : bytes) : bytes := rev (trim_left (rev (trim_left l))).

Definition code (a : ascii) : Z := Z.of_N (N_of_ascii a).
Definition lower (a : ascii) : Z := if (65 <=? code a) && (code a <=? 90) then code a + 32 else code a.
(** [strings.EqualFold] with a text of ASCII letters and hyphens: besides the
    case, the long s and the Kelvin sign fold to the letters s and k. *)
Fixpoint equal_fold (l t : bytes) : bool :=
  match l, t with
  | [], [] => true
  | a :: l1, c :: t' =>
      if code a <? 128 then (lower a =? lower c) && equal_fold l1 t'
      else match l1 with
           | b :: l2 =>
               if (code a =? 0xC5) && (code b =? 0xBF) then (lower c =? 115) && equal_fold l2 t'
               else match l2 with
                    | d :: l3 => (code a =? 0xE2) && (code b =? 0x84) && (code d =? 0xAA) && (lower c =? 107) && equal_fold l3 t'
                    | [] => false
                    end
           | [] => false
           end
  | _, _ => false
  end.

(** ** The head of a request *)
Definition maxHeader : nat := Z.to_nat 8192.
Definition maxBody : Z := 4096.

Definition upper (a : ascii) : bool := (65 <=? code a) && (code a <=? 90).
(** The content length after one header line; -1 for none so far. *)
Definition head_line (line : bytes) (cl : Z) : response + Z :=
  if is_prefix [" "%char] line || is_prefix ["009"%char] line then inl (failure 400 "obsolete header line folding")
  else
    match cut ":" line with
    | ([], _) | (_, None) => inl (failure 400 "malformed header line")
    | (name, Some value) =>
        let value := trim value in
        if equal_fold name (text "Transfer-Encoding")
        then inl (failure 501 "Transfer-Encoding is not supported; send Content-Length")
        else if equal_fold name (text "Content-Length") then
          if (9 <? length value)%nat then inl (failure 413 "invalid Content-Length")
          else if (length value =? 0)%nat || negb (digits (str_of value)) then inl (failure 400 "invalid Content-Length")
          else
            let n := decimal 0 (str_of value) in
            if (0 <=? cl) && negb (n =? cl) then inl (failure 400 "conflicting Content-Length headers") else inr n
        else inr cl
    end.
Fixpoint head_lines (lines : list bytes) (cl : Z) : response + Z :=
  match lines with
  | [] => inr cl
  | l :: lines' => match head_line l cl with inl e => inl e | inr cl' => head_lines lines' cl' end
  end.

Definition parseHead (head : bytes) : response + (request * Z) :=
  let lines := split_lines head in
  match split1 " " (List.hd [] lines) with
  | [method; target; version] =>
      if (length method =? 0)%nat || (7 <? length method)%nat then inl (failure 400 "malformed method")
      else if negb (forallb upper method) then inl (failure 400 "malformed method")
      else if negb (is_prefix (text "HTTP/") version) then inl (failure 400 "malformed request line")
      else if negb (bool_decide (version = text "HTTP/1.0")) && negb (bool_decide (version = text "HTTP/1.1"))
      then inl (failure 505 "only HTTP/1.0 and HTTP/1.1 are supported")
      else if negb (is_prefix ["/"%char] target) then inl (failure 400 "request target must be an absolute path")
      else if (512 <=? length target)%nat then inl (failure 414 "request target too long")
      else
        match head_lines (List.tl lines) (-1) with
        | inl e => inl e
        | inr cl =>
            if (cl <? 0) && (str_of method =? "POST")%string then inl (failure 411 "POST needs a Content-Length body")
            else
              let cl := if cl <? 0 then 0 else cl in
              if maxBody <? cl then inl (failure 413 "request body too large")
              else
                let '(path, query) := cut "?" target in
                inr (mkRequest (str_of method) (str_of path) (str_of (default [] query)) "", cl)
        end
  | _ => inl (failure 400 "malformed request line")
  end.

(** ** Reading a connection

    The results of [Read] with room enough: bytes, then the error that ends
    the connection; a call with less room leaves the rest. *)
Inductive read_error : Type := TimedOut | Failed.
Record wire : Type := mkWire_ { pieces : list bytes; ending : read_error }.

Definition Read (room : nat) (c : wire) : bytes * option read_error * wire :=
  match pieces c with
  | [] => ([], Some (ending c), c)
  | p :: ps => if (length p <=? room)%nat then (p, None, mkWire_ ps (ending c))
               else (take room p, None, mkWire_ (drop room p :: ps) (ending c))
  end.

(** What becomes of the connection. *)
Inductive served_with : Type := Reply (r : response) | Dropped | Call (r : request).

Fixpoint until_nul (l : bytes) : bytes :=
  match l with [] => [] | a :: l' => if Ascii.eqb a NUL then [] else a :: until_nul l' end.
Definition head_end (buf : bytes) : option nat := index [CR; LF; CR; LF] (until_nul buf).

(** The loop for the head; [fuel] bounds the calls of [Read]. *)
Inductive head_result : Type := HeadAt (buf : bytes) (at_ : nat) (c : wire) | HeadFailed (r : served_with) | HeadStuck.
Fixpoint read_head (fuel : nat) (buf : bytes) (c : wire) : head_result :=
  match fuel with
  | O => HeadStuck
  | S fuel' =>
      if (length buf =? maxHeader)%nat then HeadFailed (Reply (failure 431 "request header too large"))
      else
        let '(d, err, c') := Read (maxHeader - length buf) c in
        let buf' := (buf ++ d)%list in
        match head_end buf' with
        | Some i => HeadAt buf' i c'
        | None =>
            match err with
            | Some TimedOut =>
                HeadFailed (if (length buf' =? 0)%nat then Dropped else Reply (failure 408 "request not received in time"))
            | Some Failed => HeadFailed Dropped
            | None => read_head fuel' buf' c'
            end
        end
  end.
(** The loop for the body. *)
Fixpoint read_body (fuel : nat) (want : nat) (got : bytes) (c : wire) : option (served_with + bytes) :=
  match fuel with
  | O => None
  | S fuel' =>
      if (want <=? length got)%nat then Some (inr got)
      else
        let '(d, err, c') := Read (want - length got) c in
        let got' := (got ++ d)%list in
        if (length got' =? want)%nat then Some (inr got')
        else match err with
             | Some TimedOut => Some (inl (Reply (failure 408 "request body not received in time")))
             | Some Failed => Some (inl Dropped)
             | None => read_body fuel' want got' c'
             end
  end.

(** A call of [Read] takes a whole piece or ends the reading. *)
Definition enough (c : wire) : nat := S (S (length (pieces c))).
Definition with_body (r : request) (b : bytes) : request := mkRequest (r_method r) (r_path r) (r_query r) (str_of b).

Definition serveConn (c : wire) : option served_with :=
  match read_head (enough c) [] c with
  | HeadStuck => None
  | HeadFailed r => Some r
  | HeadAt buf i c' =>
      match parseHead (take i buf) with
      | inl e => Some (Reply e)
      | inr (r, want) =>
          match read_body (enough c) (Z.to_nat want) (take (Z.to_nat want) (drop (i + 4) buf)) c' with
          | None => None
          | Some (inl e) => Some e
          | Some (inr b) => Some (Call (with_body r b))
          end
      end
  end.

(** ** The whole stream at once *)
Definition cut_short (e : read_error) (what : string) (some : bool) : served_with :=
  match e with
  | TimedOut => if some then Reply (failure 408 what) else Dropped
  | Failed => Dropped
  end.
(** The request at the start of the stream [s], which ends with [e]. *)
Definition serve_stream (s : bytes) (e : read_error) : served_with :=
  match head_end (take maxHeader s) with
  | None => if (maxHeader <=? length s)%nat then Reply (failure 431 "request header too large")
            else cut_short e "request not received in time" (negb (length s =? 0)%nat)
  | Some i =>
      match parseHead (take i s) with
      | inl r => Reply r
      | inr (r, want) =>
          let body := take (Z.to_nat want) (drop (i + 4) s) in
          if (length body =? Z.to_nat want)%nat then Call (with_body r body)
          else cut_short e "request body not received in time" true
      end
  end.

Lemma until_nul_app (l k : bytes) : ∃ r, until_nul (l ++ k)%list = (until_nul l ++ r)%list.
Proof.
  induction l as [|a l [r IH]]; cbn; [by eexists|]. destruct (Ascii.eqb a NUL); [by exists []|].
  exists r. by rewrite IH.
Qed.
Lemma until_nul_length l : (length (until_nul l) ≤ length l)%nat.
Proof. induction l as [|a l IH]; cbn; [done|]. destruct (Ascii.eqb a NUL); cbn; lia. Qed.
Lemma is_prefix_app p (l k : bytes) : (length p ≤ length l)%nat → is_prefix p (l ++ k)%list = is_prefix p l.
Proof.
  revert l. induction p as [|a p IH]; intros [|b l]; cbn; try done; [lia|]. intros H. rewrite IH by lia. done.
Qed.
Lemma is_prefix_length p l : is_prefix p l = true → (length p ≤ length l)%nat.
Proof.
  revert l. induction p as [|a p IH]; intros [|b l]; cbn; try done; [lia..|]. intros [_ H%IH]%andb_true_iff. lia.
Qed.
Lemma index_length p l i : index p l = Some i → (i + length p ≤ length l)%nat.
Proof.
  revert i. induction l as [|a l IH]; intros i; cbn [index]; case_if.
  - intros [= <-]. by apply is_prefix_length in Hif.
  - done.
  - intros [= <-]. by apply is_prefix_length in Hif.
  - destruct (index p l) as [j|]; [|done]. intros [= <-]. specialize (IH j eq_refl). cbn. lia.
Qed.
(** An occurrence in a text is the first one in a longer text too. *)
Lemma index_app p (l k : bytes) i : index p l = Some i → index p (l ++ k)%list = Some i.
Proof.
  intros H. pose proof (index_length _ _ _ H) as Hlen. revert i H Hlen. induction l as [|a l IH]; intros i; cbn [index app].
  - destruct (is_prefix p []) eqn:E; [|done]. intros [= <-] _. destruct p; [|done]. by destruct k.
  - change (a :: (l ++ k))%list with ((a :: l) ++ k)%list. intros H Hlen. rewrite is_prefix_app by lia. cbn [app].
    destruct (is_prefix p (a :: l)); [done|]. destruct (index p l) as [j|] eqn:Hj; [|done]. injection H as <-.
    cbn in Hlen. by rewrite (IH j) by (done || lia).
Qed.
Lemma head_end_app (l k : bytes) i : head_end l = Some i → head_end (l ++ k)%list = Some i.
Proof. unfold head_end. destruct (until_nul_app l k) as [r ->]. apply index_app. Qed.
Lemma head_end_length l i : head_end l = Some i → (i + 4 ≤ length l)%nat.
Proof. intros H%index_length. pose proof (until_nul_length l). cbn in H. lia. Qed.

(** [Read] takes the next bytes of the stream. *)
Definition rest (c : wire) : bytes := concat (pieces c).
Lemma Read_spec room c d err c' : Read room c = (d, err, c') →
  rest c = (d ++ rest c')%list ∧ (length d ≤ room)%nat ∧ ending c' = ending c ∧
  match err with
  | Some e => e = ending c ∧ d = [] ∧ rest c = [] ∧ c' = c
  | None => (length d = room ∧ length (pieces c') = length (pieces c)) ∨ S (length (pieces c')) = length (pieces c)
  end.
Proof.
  unfold Read, rest. destruct (pieces c) as [|p ps] eqn:Hp.
  { intros [= <- <- <-]. rewrite Hp. cbn. split_and!; try done. lia. }
  case_if; intros [= <- <- <-]; cbn.
  - apply Nat.leb_le in Hif. split_and!; try done. by right.
  - apply Nat.leb_gt in Hif. rewrite length_take, app_assoc, take_drop. split_and!; try done; [lia|]. left. lia.
Qed.

Lemma read_head_spec fuel buf c : head_end buf = None → (length buf ≤ maxHeader)%nat →
  (length (pieces c) + (if length buf =? maxHeader then 1 else 2) ≤ fuel)%nat →
  let s := (buf ++ rest c)%list in
  match head_end (take maxHeader s) with
  | Some i => ∃ buf' c', read_head fuel buf c = HeadAt buf' i c' ∧ s = (buf' ++ rest c')%list ∧ ending c' = ending c ∧
                (i + 4 ≤ length buf')%nat ∧ (length (pieces c') ≤ length (pieces c))%nat
  | None => read_head fuel buf c = HeadFailed
      (if (maxHeader <=? length s)%nat then Reply (failure 431 "request header too large")
       else cut_short (ending c) "request not received in time" (negb (length s =? 0)%nat))
  end.
Proof.
  revert buf c. induction fuel as [|fuel IH]; intros buf c Hb Hlen Hf s; [case_if_in Hf; lia|].
  cbn [read_head]. destruct (Nat.eqb_spec (length buf) maxHeader) as [Hfull|Hfull].
  { assert (take maxHeader s = buf) as Htk by (unfold s; by rewrite <- Hfull, take_app_length).
    rewrite Htk, Hb. subst s. rewrite length_app, (proj2 (Nat.leb_le _ _)) by lia. done. }
  destruct (Read (maxHeader - length buf) c) as [[d err] c'] eqn:Hr.
  apply Read_spec in Hr as (Hs & Hd & He & Herr). assert (s = (buf ++ d) ++ rest c')%list as Hs'.
  { unfold s. by rewrite Hs, app_assoc. }
  assert (length (buf ++ d)%list ≤ maxHeader)%nat as Hlen' by (rewrite length_app; lia).
  destruct (head_end (buf ++ d)%list) as [i|] eqn:Hi.
  - (* found *)
    assert (head_end (take maxHeader s) = Some i) as ->.
    { rewrite Hs', take_app_ge by lia. by apply head_end_app. }
    exists (buf ++ d)%list, c'. split_and!; try done; [by apply head_end_length|].
    destruct err as [e|]; [destruct Herr as (_ & _ & _ & ->); lia|lia].
  - destruct err as [e|].
    + (* the stream has ended *)
      destruct Herr as (-> & -> & Hrest & _). rewrite app_nil_r.
      assert (s = buf) as -> by (unfold s; by rewrite Hrest, app_nil_r).
      rewrite take_ge by lia. rewrite Hb, (proj2 (Nat.leb_gt _ _)) by lia.
      unfold cut_short. destruct (ending c); [|done]. by destruct (length buf =? 0)%nat.
    + (* more to read *)
      specialize (IH (buf ++ d)%list c' Hi Hlen'). cbn zeta in IH. rewrite <- Hs' in IH. rewrite He in IH.
      assert (length (pieces c') + (if length (buf ++ d)%list =? maxHeader then 1 else 2) ≤ fuel)%nat as Hf'.
      { destruct Herr as [[Hd' Hp]|Hp]; [|case_if; lia]. rewrite length_app, Hd', Hp.
        replace (length buf + (maxHeader - length buf))%nat with maxHeader by lia. rewrite Nat.eqb_refl. lia. }
      specialize (IH Hf'). destruct (head_end (take maxHeader s)) as [i|]; [|done].
      destruct IH as (buf' & c2 & H1 & H2 & H3 & H4 & H5). exists buf', c2. split_and!; try done.
      destruct Herr as [[_ Hp]|Hp]; lia.
Qed.

Lemma read_body_spec fuel want got c : (length got ≤ want)%nat → (length (pieces c) + 1 ≤ fuel)%nat →
  let b := take want (got ++ rest c)%list in
  read_body fuel want got c =
    Some (if (length b =? want)%nat then inr b else inl (cut_short (ending c) "request body not received in time" true)).
Proof.
  revert got c. induction fuel as [|fuel IH]; intros got c Hg Hf b; [lia|]. cbn [read_body]. case_if.
  { apply Nat.leb_le in Hif. assert (length got = want) as Hw by lia. unfold b. rewrite <- Hw, take_app_length.
    by rewrite Nat.eqb_refl. }
  apply Nat.leb_gt in Hif. destruct (Read (want - length got) c) as [[d err] c'] eqn:Hr.
  apply Read_spec in Hr as (Hs & Hd & He & Herr).
  assert (b = take want ((got ++ d) ++ rest c')%list) as Hb by (unfold b; by rewrite Hs, app_assoc).
  assert (length (got ++ d)%list ≤ want)%nat as Hg' by (rewrite length_app; lia).
  destruct (Nat.eqb_spec (length (got ++ d)%list) want) as [Hw|Hw].
  { rewrite Hb, <- Hw, take_app_length. by rewrite Nat.eqb_refl. }
  destruct err as [e|].
  - destruct Herr as (-> & -> & Hrest & _). assert (b = got) as ->.
    { unfold b. rewrite Hrest, app_nil_r, take_ge by lia. done. }
    rewrite (proj2 (Nat.eqb_neq _ _)) by lia. by destruct (ending c).
  - rewrite (IH (got ++ d)%list c') by (rewrite ?length_app in *; lia). by rewrite <- Hb, He.
Qed.

Lemma take_take_app {A} n (l k : list A) : take n (take n l ++ k)%list = take n (l ++ k)%list.
Proof.
  destruct (decide (n ≤ length l)%nat) as [H|H].
  - rewrite !take_app_le by (rewrite ?length_take; lia). by rewrite take_take, Nat.min_id.
  - by rewrite (take_ge l) by lia.
Qed.

Lemma serveConn_stream c : serveConn c = Some (serve_stream (rest c) (ending c)).
Proof.
  unfold serveConn, serve_stream.
  assert (head_end [] = None) as H0 by done.
  pose proof (read_head_spec (enough c) [] c H0 ltac:(cbn; lia)) as H. cbn zeta in H. cbn [app] in H.
  assert (length (pieces c) + (if length (@nil ascii) =? maxHeader then 1 else 2) ≤ enough c)%nat as Hf.
  { unfold enough. case_if; lia. }
  specialize (H Hf). destruct (head_end (take maxHeader (rest c))) as [i|]; [|by rewrite H].
  destruct H as (buf & c' & -> & Hs & He & Hi & Hp).
  assert (take i buf = take i (rest c)) as -> by (rewrite Hs, take_app_le by lia; done).
  destruct (parseHead _) as [e|[r want]]; [done|].
  rewrite read_body_spec by (rewrite ?length_take; unfold enough; lia). rewrite take_take_app, He.
  assert (drop (i + 4) (rest c) = drop (i + 4) buf ++ rest c')%list as -> by (rewrite Hs, drop_app_le by lia; done).
  by case_if.
Qed.

(** ** Accepted requests *)
Lemma decimal_nonneg acc t : 0 ≤ acc → digits t = true → 0 ≤ decimal acc t.
Proof.
  revert acc. induction t as [|a t IH]; intros acc Ha; cbn; [done|]. intros [Hd Ht]%andb_true_iff.
  apply IH; [|done]. unfold is_digit in Hd. bool_facts. lia.
Qed.

(** The header lines of an accepted request: none is a transfer encoding, and
    the content lengths are all [n]. *)
Definition plain_header (n : Z) (line : bytes) : Prop :=
  ∃ name value, cut ":" line = (name, Some value) ∧ equal_fold name (text "Transfer-Encoding") = false ∧
    (equal_fold name (text "Content-Length") = true → decimal 0 (str_of (trim value)) = n ∧ 0 ≤ n).

Lemma head_line_ok line cl cl' : -1 ≤ cl → head_line line cl = inr cl' → plain_header cl' line ∧ -1 ≤ cl' ∧ (0 ≤ cl → cl' = cl).
Proof.
  intros Hcl. unfold head_line, plain_header. case_if; [done|].
  destruct (cut ":" line) as [[|a name] [value|]] eqn:Hc; try done. cbv zeta.
  destruct (equal_fold _ (text "Transfer-Encoding")) eqn:Hte; [done|].
  destruct (equal_fold _ (text "Content-Length")) eqn:Hcle.
  - case_if; [done|]. case_if; [done|]. case_if; [done|]. intros [= <-]. apply orb_false_iff in Hif1 as [_ Hd].
    apply negb_false_iff in Hd. pose proof (decimal_nonneg 0 _ ltac:(lia) Hd) as Hn.
    split_and!; [by exists (a :: name), value|lia|]. intros H0. rewrite (proj2 (Z.leb_le _ _) H0) in Hif2. cbn in Hif2.
    apply negb_false_iff, Z.eqb_eq in Hif2. done.
  - intros [= <-]. split_and!; [|done|done]. exists (a :: name), value. by rewrite Hcle.
Qed.
Lemma head_lines_ok lines cl cl' : -1 ≤ cl → head_lines lines cl = inr cl' →
  Forall (plain_header cl') lines ∧ (0 ≤ cl → cl' = cl).
Proof.
  revert cl. induction lines as [|l lines IH]; intros cl Hcl; cbn; [intros [= <-]; split; [by apply Forall_nil_2|done]|].
  destruct (head_line l cl) as [e|cl1] eqn:Hl; [done|]. apply head_line_ok in Hl as (Hp & Hr & Hk); [|done].
  intros H. destruct (IH cl1 Hr H) as [Hf Hk']. split.
  - apply Forall_cons. split; [|done]. destruct Hp as (name & value & H1 & H2 & H3). exists name, value.
    split_and!; [done|done|]. intros Hc. destruct (H3 Hc) as [<- Hn].
    by rewrite Hk'.
  - intros H0. rewrite Hk' by (rewrite Hk; lia). by apply Hk.
Qed.

(** What reaches the API. *)
Record wellformed (head : bytes) (r : request) (want : Z) : Prop := {
  wf_want : 0 ≤ want ≤ maxBody;
  wf_method : (1 ≤ String.length (r_method r) ≤ 7)%nat ∧ forallb upper (text (r_method r)) = true;
  wf_path : is_prefix ["/"%char] (text (r_path r)) = true;
  wf_headers : Forall (plain_header want) (List.tl (split_lines head))
}.

Lemma text_str_of l : text (str_of l) = l.
Proof. apply String.list_ascii_of_string_of_list_ascii. Qed.
Lemma length_str_of l : String.length (str_of l) = length l.
Proof. induction l as [|a l IH]; cbn; [done|]. by rewrite IH. Qed.
Lemma plain_header_none l : plain_header (-1) l → plain_header 0 l.
Proof. intros (name & value & H1 & H2 & H3). exists name, value. split_and!; [done|done|]. intros [_ H]%H3. lia. Qed.

Lemma parseHead_ok head r want : parseHead head = inr (r, want) → wellformed head r want.
Proof.
  unfold parseHead. destruct (split1 " " _) as [|method [|target [|version [|? ?]]]]; try done.
  case_if; [done|]. apply orb_false_iff in Hif as [Hm0 Hm7]. apply Nat.eqb_neq in Hm0. apply Nat.ltb_ge in Hm7.
  case_if; [done|]. apply negb_false_iff in Hif. case_if; [done|]. clear Hif0. case_if; [done|]. clear Hif0.
  case_if; [done|]. apply negb_false_iff in Hif0. case_if; [done|]. clear Hif1.
  destruct (head_lines _ (-1)) as [e|cl] eqn:Hl; [done|]. case_if; [done|]. clear Hif1.
  apply head_lines_ok in Hl as [Hl _]; [|lia]. case_if; [done|]. bool_facts.
  destruct target as [|a target]; [done|]. destruct (cut "?" (a :: target)) as [path query] eqn:Hc.
  assert (is_prefix ["/"%char] path = true) as Hp.
  { cbn [is_prefix] in Hif0. rewrite andb_true_r in Hif0. apply Ascii.eqb_eq in Hif0 as <-. cbn in Hc.
    destruct (cut "?" target) as [x y]. injection Hc as <- _. done. }
  intros [= <- <-]. constructor; cbn [r_method r_path].
  - case_if_in Hif1; bool_facts; lia.
  - rewrite length_str_of, text_str_of. split; [lia|done].
  - by rewrite text_str_of.
  - eapply Forall_impl; [exact Hl|]. intros l Hpl. case_if; [|done]. bool_facts.
    destruct (decide (cl = -1)) as [->|Hne]; [by apply plain_header_none|].
    destruct Hpl as (name & value & H1 & H2 & H3). exists name, value. split_and!; [done|done|]. intros [_ ?]%H3. lia.
Qed.

Lemma is_prefix_split p l : is_prefix p l = true → ∃ r, l = (p ++ r)%list.
Proof.
  revert l. induction p as [|a p IH]; intros l; cbn; [by exists l|]. destruct l as [|b l]; [done|].
  intros [->%Ascii.eqb_eq (r & ->)%IH]%andb_true_iff. by exists r.
Qed.
Lemma index_split p l i : index p l = Some i → ∃ x y, l = (x ++ p ++ y)%list ∧ length x = i.
Proof.
  revert i. induction l as [|a l IH]; intros i; cbn [index]; case_if.
  - intros [= <-]. apply is_prefix_split in Hif as [r ->]. by exists [], r.
  - done.
  - intros [= <-]. apply is_prefix_split in Hif as [r ->]. by exists [], r.
  - destruct (index p l) as [j|]; [|done]. intros [= <-]. destruct (IH j eq_refl) as (x & y & -> & <-).
    by exists (a :: x), y.
Qed.
Lemma until_nul_prefix l : ∃ r, l = (until_nul l ++ r)%list.
Proof.
  induction l as [|a l [r IH]]; cbn; [by exists []|]. case_if; [by exists (a :: l)|]. exists r. cbn. by rewrite <- IH.
Qed.
Lemma head_end_split s i : head_end (take maxHeader s) = Some i →
  ∃ x y, s = (x ++ [CR; LF; CR; LF] ++ y)%list ∧ length x = i ∧ (i + 4 ≤ maxHeader)%nat.
Proof.
  intros H. pose proof (head_end_length _ _ H) as Hlen. rewrite length_take in Hlen.
  apply index_split in H as (x & y & Hx & Hi). destruct (until_nul_prefix (take maxHeader s)) as [r Hr].
  exists x, (y ++ r ++ drop maxHeader s)%list. split_and!; [|done|lia].
  rewrite <- (take_drop maxHeader s) at 1. rewrite Hr, Hx. by rewrite <- !app_assoc.
Qed.

(** C32. How the bytes of a request are split over the calls of [Read] does not
    matter: the reader does what the whole stream demands, it always ends, and
    what it hands to the API has a method of one to seven capital letters, an
    absolute path, and a body of at most 4096 bytes whose length every
    Content-Length header states; a request with a Transfer-Encoding header
    never gets there. *)
Theorem http_request_framing (c : wire) :
  serveConn c = Some (serve_stream (rest c) (ending c)) ∧
  ∀ r, serve_stream (rest c) (ending c) = Call r →
    ∃ head body tail, rest c = (head ++ [CR; LF; CR; LF] ++ body ++ tail)%list ∧
      (length head + 4 ≤ maxHeader)%nat ∧ r_body r = str_of body ∧ wellformed head r (zlen body).
Proof.
  split; [apply serveConn_stream|]. intros r. unfold serve_stream, cut_short.
  destruct (head_end _) as [i|] eqn:Hi; [|case_if; [done|]; destruct (ending c); [by case_if|done]].
  apply head_end_split in Hi as (x & y & Hs & <- & Hlen). rewrite Hs, take_app_length.
  destruct (parseHead x) as [e|[r0 want]] eqn:Hp; [done|]. apply parseHead_ok in Hp as Hwf.
  assert (drop (length x + 4) (x ++ [CR; LF; CR; LF] ++ y)%list = y) as ->.
  { rewrite drop_app_add. done. }
  case_if; [|by destruct (ending c)]. apply Nat.eqb_eq in Hif. intros [= <-].
  exists x, (take (Z.to_nat want) y), (drop (Z.to_nat want) y). rewrite take_drop. split_and!; [done|done|done|].
  assert (zlen (take (Z.to_nat want) y) = want) as ->. { unfold zlen. rewrite Hif. destruct Hwf. lia. }
  destruct Hwf. by constructor.
Qed.

(** A request in three pieces, and one with two lengths. *)
Example http_post_served :
  serveConn (mkWire_ [text "POST /api/comm";
                      (text "ands HTTP/1.1" ++ [CR; LF] ++ text "content-length:  2" ++ [CR; LF; CR])%list;
                      (LF :: text "{}GET")] Failed)
  = Some (Call (mkRequest "POST" "/api/commands" "" "{}")).
Proof. by vm_compute. Qed.
Example http_two_lengths :
  serveConn (mkWire_ [(text "GET /api/state HTTP/1.0" ++ [CR; LF] ++ text "Content-Length: 0" ++ [CR; LF] ++
                       text "CONTENT-LENGTH: 4" ++ [CR; LF; CR; LF])%list] TimedOut)
  = Some (Reply (failure 400 "conflicting Content-Length headers")).
Proof. by vm_compute. Qed.
