(* ===== verification/GoText.v ===== *)
(** * Text (Go's strings, sort and path/filepath)

    What the backend uses of Go's packages on strings.  A string is its bytes. *)
From Stdlib Require Import Ascii String.
From S2P Require Import Prelude GoLib.
From stdpp Require Import sorting.

#[local] Open Scope string_scope.
#[local] Open Scope Z_scope.

(** A string as its bytes. *)
Definition bytes_of (s : string) : list Z := (λ a, Z.of_nat (nat_of_ascii a)) <$> list_ascii_of_string s.

(** [strings.Join]. *)
Fixpoint join_with (sep : string) (l : list string) : string :=
  match l with
  | [] => ""
  | [s] => s
  | s :: l' => s ++ sep ++ join_with sep l'
  end.

(** [strings.Split] at a byte. *)
Fixpoint split_at (c : ascii) (s : string) : list string :=
  match s with
  | EmptyString => [""]
  | String a s' =>
      if Ascii.eqb a c then "" :: split_at c s'
      else match split_at c s' with
           | [] => [String a ""]
           | x :: l => String a x :: l
           end
  end.

(** [filepath.Clean] and [filepath.Join] on Unix; [done] is the cleaned path so
    far, last part first. *)
Definition slash : ascii := ascii_of_nat 47.
Fixpoint clean_parts (rooted : bool) (done parts : list string) : list string :=
  match parts with
  | [] => rev done
  | p :: l =>
      if (p =? "")%string || (p =? ".")%string then clean_parts rooted done l
      else if (p =? "..")%string then
        match done with
        | d :: done' =>
            if (d =? "..")%string then clean_parts rooted (".." :: done) l
            else clean_parts rooted done' l
        | [] => if rooted then clean_parts rooted [] l else clean_parts rooted [".."] l
        end
      else clean_parts rooted (p :: done) l
  end.
Definition Clean (path : string) : string :=
  let rooted := match path with String a _ => Ascii.eqb a slash | EmptyString => false end in
  let cleaned := (if rooted then "/" else "") ++ join_with "/" (clean_parts rooted [] (split_at slash path)) in
  if (cleaned =? "")%string then "." else cleaned.
Fixpoint path_join (l : list string) : string :=
  match l with
  | [] => ""
  | p :: l' => if (p =? "")%string then path_join l' else Clean (join_with "/" l)
  end.

(** [sort.Strings]. *)
Definition string_le (a b : string) : Prop := String.leb a b = true.
#[export] Instance string_le_dec : RelDecision string_le.
Proof. intros a b. unfold string_le. apply _. Defined.
Definition sort_strings : list string → list string := merge_sort string_le.

(** [strings.TrimPrefix]. *)
Fixpoint TrimPrefix (s p : string) : string :=
  match p with
  | EmptyString => s
  | String a p' =>
      match s with
      | String b s' => if Ascii.eqb a b && String.prefix p' s' then TrimPrefix s' p' else s
      | EmptyString => s
      end
  end.

(** [strings.TrimSpace]: the white space of Unicode in UTF-8. *)
Definition is_space (c : Z) : bool := (c =? 32) || ((9 <=? c) && (c <=? 13)).
Definition space_runes : list (list Z) :=
  ([[194; 133]; [194; 160]; [225; 154; 128]; [226; 128; 168]; [226; 128; 169]; [226; 128; 175];
   [226; 129; 159]; [227; 128; 128]] ++ ((λ n, [226; 128; 128 + Z.of_nat n]) <$> seq 0 11))%list.

(** Without the leading spaces; [runes] are the ones beyond ASCII. *)
Fixpoint drop_spaces (fuel : nat) (runes : list (list Z)) (s : list ascii) : list ascii :=
  match fuel, s with
  | S fuel, a :: s' =>
      let b := (λ a, Z.of_nat (nat_of_ascii a)) <$> s in
      if is_space (Z.of_nat (nat_of_ascii a)) then drop_spaces fuel runes s'
      else match List.find (λ r, bool_decide (take (List.length r) b = r)) runes with
           | Some r => drop_spaces fuel runes (drop (List.length r) s)
           | None => s
           end
  | _, _ => s
  end.
Definition TrimSpace (s : string) : string :=
  let l := list_ascii_of_string s in
  let l := drop_spaces (List.length l) space_runes l in
  string_of_list_ascii (rev (drop_spaces (List.length l) (map (@rev Z) space_runes) (rev l))).

(** [strings.EqualFold] with a text whose letters fold in ASCII only. *)
Definition lower (a : ascii) : ascii :=
  let n := nat_of_ascii a in
  if (65 <=? n)%nat && (n <=? 90)%nat then ascii_of_nat (n + 32) else a.
Definition EqualFold (s t : string) : bool :=
  bool_decide ((lower <$> list_ascii_of_string s) = (lower <$> list_ascii_of_string t)).

Example text_examples :
  TrimSpace "  lan3	" = "lan3" ∧ TrimSpace " " = "" ∧ TrimSpace " a b " = "a b" ∧ EqualFold "LAN3" "lan3" = true ∧
  TrimPrefix "/fw" "/" = "fw" ∧ TrimPrefix "fw" "/" = "fw" ∧
  path_join ["/opt//x/"; "../y"; "."; "a"] = "/opt/y/a" ∧ Clean "a/../../b" = "../b" ∧
  split_at (ascii_of_nat 44) "a,,b" = ["a"; ""; "b"].
Proof. split_and!; vm_compute; reflexivity. Qed.
