(* ===== verification/Lifecycle.v ===== *)
(** * The range lifecycle (backend/internal/lifecycle)

    The manager that switches the range from one package to another: the
    transition with its phases, the runtime record on disk, the generations
    with their registered work, the reconciliation after a restart.

    The manager's jobs run on their own goroutine beside the requests; a job
    is a resumption, one [Act] for each call of the environment and for each
    section under a lock, so that requests come in between any two of them.
    Writing the record ([Store.Save]) and the locked section that follows it
    are one [Act]: nothing else reads the disk, and no other goroutine writes
    what the section writes.  A crash may happen between any two [Act]s and
    loses everything but the disk; [Save] renames a complete file into place,
    so it happened or it did not.

    The environment is the class [Env]: Compose, the Docker engine, the
    firewall's API, the file system and the checks of the manifest and labs
    packages, each a function of the state of the world that may answer
    anything.  The world also changes by itself.  Error values are their text
    and the status of a [ConfigWriteError] among their causes. *)
From S2P Require Import Prelude GoLib GoText.
From stdpp Require Import pretty.

#[local] Open Scope string_scope.
#[local] Open Scope Z_scope.

(** ** Resumptions *)
Inductive prog (S A : Type) : Type :=
| Done (a : A)
| Act (f : S → S) (k : S → prog S A).
Arguments Done {S A}.
Arguments Act {S A}.

Fixpoint prog_bind {S A B} (m : prog S A) (k : A → prog S B) : prog S B :=
  match m with
  | Done a => k a
  | Act f n => Act f (λ s, prog_bind (n s) k)
  end.

(** One atomic step. *)
Definition act {S A} (g : S → A * S) : prog S A := Act (λ s, (g s).2) (λ s, Done (g s).1).

(** ** Errors *)
Record error : Type := mkError { Text : string; ConfigStatus : option Z }.
Definition errorf (s : string) : error := mkError s None.
(** [fmt.Errorf("...: %w", err)]. *)
Definition wrap (context : string) (e : error) : error :=
  mkError (context ++ ": " ++ Text e) (ConfigStatus e).

Inductive res (A : Type) : Type := Val (a : A) | Fail (e : error).
Arguments Val {A}.
Arguments Fail {A}.

Definition res_bind {S A B} (m : prog S (res A)) (k : A → prog S (res B)) : prog S (res B) :=
  prog_bind m (λ r, match r with Val a => k a | Fail e => Done (Fail e) end).
Definition wrapped {S A} (context : string) (m : prog S (res A)) : prog S (res A) :=
  prog_bind m (λ r, match r with Val a => Done (Val a) | Fail e => Done (Fail (wrap context e)) end).
Definition fail_when {S} (b : bool) (e : error) : prog S (res unit) :=
  Done (if b then Fail e else Val tt).

Declare Scope job_scope.
#[global] Open Scope job_scope.
Notation "'let-' x ':=' m 'in' k" := (prog_bind m (λ x, k))
  (at level 10, x name, m at level 200, k at level 200) : job_scope.
Notation "'do-' m 'in' k" := (prog_bind m (λ _ : unit, k))
  (at level 10, m at level 200, k at level 200) : job_scope.
Notation "'let&' x ':=' m 'in' k" := (res_bind m (λ x, k))
  (at level 10, x name, m at level 200, k at level 200) : job_scope.
Notation "'do&' m 'in' k" := (res_bind m (λ _ : unit, k))
  (at level 10, m at level 200, k at level 200) : job_scope.

(** [errors.Join(errs...).Error()]. *)
Definition newline : string := String (ascii_of_nat 10) EmptyString.
Definition join_errors (es : list error) : string := join_with newline (Text <$> es).

(** ** Data *)
Record Package : Type := mkPackage { Package_ID : string; Revision : Z; FirewallConfigPath : string }.

Record Service : Type := mkService {
  Container : string; Roles : list string; Endpoints : list (string * string) }.
Record Manifest : Type := mkManifest { Services : list Service }.

Definition ServiceByRole (m : Manifest) (role : string) : option Service :=
  List.find (λ s, bool_decide (role ∈ Roles s)) (Services m).
Definition Endpoint (m : Manifest) (role name : string) : option string :=
  match ServiceByRole m role with
  | None => None
  | Some s => snd <$> List.find (λ p, (p.1 =? name)%string) (Endpoints s)
  end.
Definition containerNames (m : Manifest) : list string := Container <$> Services m.

Definition RangeProject : string := "rangerdanger".

Inductive Mode : Type := ModeSource | ModeRelease.
Definition Mode_string (m : Mode) : string :=
  match m with ModeSource => "source" | ModeRelease => "release" end.
Definition ComposeFile (m : Mode) : string := "compose." ++ Mode_string m ++ ".yml".

Inductive Phase : Type :=
| PhaseNone | PhasePreflight | PhaseStopping | PhaseStarting | PhaseConfiguring | PhaseReady | PhaseFailed.
#[export] Instance Phase_eq_dec : EqDecision Phase.
Proof. solve_decision. Defined.
#[export] Instance Mode_eq_dec : EqDecision Mode.
Proof. solve_decision. Defined.

Definition Phase_string (p : Phase) : string :=
  match p with
  | PhaseNone => "none" | PhasePreflight => "preflight" | PhaseStopping => "stopping"
  | PhaseStarting => "starting" | PhaseConfiguring => "configuring" | PhaseReady => "ready"
  | PhaseFailed => "failed"
  end.

Definition persisted (p : Phase) : bool :=
  match p with
  | PhaseStopping | PhaseStarting | PhaseConfiguring | PhaseReady | PhaseFailed => true
  | _ => false
  end.

Definition RecordSchema : Z := 1.

(** The runtime record; [Containd] is the receipt of the last policy write. *)
Record RuntimeRecord : Type := mkRecord {
  Containd : option string;
  Schema : Z;
  Generation_ : Z;
  Phase_ : Phase;
  RPackage : string;
  RRevision : Z;
  RMode : option Mode;
  RRoot : string;
  RVersion : string;
  RError : string;
  RCode : string;
  RUpdatedAt : Z
}.
Definition blank_record : RuntimeRecord := mkRecord None 0 0 PhaseNone "" 0 None "" "" "" "" 0.

Record Status : Type := mkStatus {
  SContaind : option string;
  SGeneration : Z;
  SPhase : Phase;
  SPackage : string;
  Target : string;
  SMode : option Mode;
  SError : string;
  SCode : string;
  SUpdatedAt : option Z
}.

Definition statusOf (r : RuntimeRecord) : Status :=
  mkStatus (Containd r) (Generation_ r) (Phase_ r) (RPackage r) "" (RMode r) (RError r) (RCode r)
    (Some (RUpdatedAt r)).

(** ** Generations *)
Record Generation : Type := mkGeneration {
  GID : Z;
  GPackage : Package;
  GManifest : Manifest;
  GStartedAt : Z;
  GContaind : string;
  stopped : bool;
  nextID : Z;
  active : list (Z * string);
  drained : bool;
  cancelled : bool
}.

Definition NewGeneration (id : Z) (pkg : Package) (man : Manifest) (client : string) (startedAt : Z)
    : Generation := mkGeneration id pkg man startedAt client false 0 [] false false.

Definition set_active (next : Z) (l : list (Z * string)) (g : Generation) : Generation :=
  mkGeneration (GID g) (GPackage g) (GManifest g) (GStartedAt g) (GContaind g) (stopped g) next l
    (drained g) (cancelled g).

Definition closeIfDrainedLocked (g : Generation) : Generation :=
  if negb (stopped g) || (0 <? length (active g))%nat then g
  else mkGeneration (GID g) (GPackage g) (GManifest g) (GStartedAt g) (GContaind g) (stopped g)
         (nextID g) (active g) true (cancelled g).

(** The identifier a handler registers under, and the generation with it. *)
Definition Generation_Enter (name : string) (g : Generation) : option (Z * Generation) :=
  if stopped g then None
  else
    let id := u64 (nextID g + 1) in
    Some (id, set_active id ((id, name) :: filter (λ p, p.1 ≠ id) (active g)) g).

Definition leave (id : Z) (g : Generation) : Generation :=
  closeIfDrainedLocked (set_active (nextID g) (filter (λ p, p.1 ≠ id) (active g)) g).

(** The locked part of [Stop], the cancellation of the context, and the error
    that names what is still running. *)
Definition stop_locked (g : Generation) : Generation :=
  closeIfDrainedLocked
    (mkGeneration (GID g) (GPackage g) (GManifest g) (GStartedAt g) (GContaind g) true (nextID g)
       (active g) (drained g) (cancelled g)).
Definition cancel (g : Generation) : Generation :=
  mkGeneration (GID g) (GPackage g) (GManifest g) (GStartedAt g) (GContaind g) (stopped g) (nextID g)
    (active g) (drained g) true.
Definition drain_error (timeout : string) (g : Generation) : error :=
  errorf ("generation " ++ pretty (GID g) ++ " did not drain within " ++ timeout ++
          "; still running: " ++ join_with ", " (sort_strings (snd <$> active g))).

(** [Commit] runs its function exactly when the generation is live; it holds
    [commitMu], as [Stop] does, so the test and the run are one step. *)
Definition Commit (g : Generation) : bool := negb (stopped g).

(** ** The environment *)
Class Env (W : Type) : Type := {
  e_Now : W → Z * W;
  e_Catalog : W → option (list Package);
  (** The manifest and labs packages. *)
  e_LoadManifest : string → string → W → res Manifest * W;
  e_Validate : Manifest → string → W → option error;
  e_CheckTopology : Manifest → Package → option error;
  e_CheckCompose : Manifest → Mode → string → string → W → option error;
  e_CheckManagementSafety : string → option error;
  e_JSONValid : string → bool;
  e_ReadFile : string → W → res string * W;
  (** Compose and the Docker engine. *)
  e_Config : string → W → res string * W;
  e_Images : string → W → res (list string) * W;
  e_MissingImages : list string → W → res (list string) * W;
  e_Up : string → W → res unit * W;
  e_Down : W → res unit * W;
  e_MountedVolumes : W → res (list string) * W;
  e_ExistingVolumes : list string → W → res (list string) * W;
  e_ProjectResources : W → res (list string * list string) * W;
  e_ContainersNamed : list string → W → res (list string) * W;
  e_Exec : list string → W → res (Z * string) * W;
  (** The firewall's client. *)
  e_WaitReady : string → W → res unit * W;
  e_ImportConfig : string → string → W → res (list string) * W;
  e_LastApply : string → W → option string;
  (** Whether a write to the disk or a read of the routes file fails. *)
  e_Save : W → option error * W;
  e_ReadRoutes : W → option error * W;
  e_WriteRoutes : W → option error * W;
  e_RemoveRoutes : W → option error * W;
  (** Whether the drain timer fires, and the workers [Activate] starts. *)
  e_Timer : W → bool;
  e_Activate : Generation → W → list string * W
}.

(** The calls on the range and its record, with their results. *)
Inductive call : Type :=
| CSave (r : RuntimeRecord) (ok : bool)
| CMountedVolumes (r : res (list string))
| CDown (r : res unit)
| CExistingVolumes (names : list string) (r : res (list string))
| CProjectResources (r : res (list string * list string))
| CContainersNamed (names : list string) (r : res (list string))
| CUp (file : string) (r : res unit)
| CRoutes (content : option string)
| CExec (argv : list string) (r : res (Z * string))
| CWaitReady (api : string) (r : res unit)
| CImportConfig (api policy : string) (r : res (list string)).

(** The record file: absent, not decodable or with a phase that is none of the
    seven, or the record it holds. *)
Inductive Disk : Type := NoFile | Undecodable (e : error) | Stored (r : RuntimeRecord).

(** [%q] of a text without special characters. *)
Definition quoted (s : string) : string :=
  String (ascii_of_nat 34) (s ++ String (ascii_of_nat 34) EmptyString).

Definition Store_Load (path : string) (d : Disk) : res (option RuntimeRecord) :=
  match d with
  | NoFile => Val None
  | Undecodable e => Fail e
  | Stored r =>
      if negb (Schema r =? RecordSchema) then
        Fail (errorf ("runtime record " ++ path ++ ": schema " ++ pretty (Schema r) ++ ", want 1"))
      else if negb (persisted (Phase_ r)) then
        Fail (errorf ("runtime record " ++ path ++ ": phase " ++ quoted (Phase_string (Phase_ r)) ++
                      " is not a persisted phase"))
      else Val (Some r)
  end.

Record Options : Type := mkOptions {
  Root : string;
  OMode : Mode;
  DefinitionsDir : string;
  RoutesDir : string;
  ProxyContainer : string;
  DefaultPackage : string;
  Version : string;
  StorePath : string;
  DrainText : string
}.

Section Lifecycle.
Context {W : Type} `{Env W} (opts : Options).

(** The manager, the generations ever made, the disk and the environment. *)
Record state : Type := mkState {
  rec_ : option RuntimeRecord;
  loadErr : option error;
  status : Status;
  current : option nat;
  busy : bool;
  gens : list Generation;
  disk : Disk;
  routes : option string;
  log : list call;
  env : W
}.

Definition job (A : Type) : Type := prog state A.

Definition set_mem (r : option RuntimeRecord) (le : option error) (st : Status) (s : state) : state :=
  mkState r le st (current s) (busy s) (gens s) (disk s) (routes s) (log s) (env s).
Definition set_status (st : Status) (s : state) : state := set_mem (rec_ s) (loadErr s) st s.
Definition set_current (c : option nat) (s : state) : state :=
  mkState (rec_ s) (loadErr s) (status s) c (busy s) (gens s) (disk s) (routes s) (log s) (env s).
Definition set_busy (b : bool) (s : state) : state :=
  mkState (rec_ s) (loadErr s) (status s) (current s) b (gens s) (disk s) (routes s) (log s) (env s).
Definition set_gens (l : list Generation) (s : state) : state :=
  mkState (rec_ s) (loadErr s) (status s) (current s) (busy s) l (disk s) (routes s) (log s) (env s).
Definition set_disk (d : Disk) (s : state) : state :=
  mkState (rec_ s) (loadErr s) (status s) (current s) (busy s) (gens s) d (routes s) (log s) (env s).
Definition set_routes (r : option string) (s : state) : state :=
  mkState (rec_ s) (loadErr s) (status s) (current s) (busy s) (gens s) (disk s) r (log s) (env s).
Definition set_env (w : W) (s : state) : state :=
  mkState (rec_ s) (loadErr s) (status s) (current s) (busy s) (gens s) (disk s) (routes s) (log s) w.
Definition logged (c : call) (s : state) : state :=
  mkState (rec_ s) (loadErr s) (status s) (current s) (busy s) (gens s) (disk s) (routes s)
    (c :: log s) (env s).

(** A call that only reads, one on the range, and a section under a lock. *)
Definition ask {A} (op : W → A * W) : job A :=
  act (λ s, let (a, w) := op (env s) in (a, set_env w s)).
Definition perform {A} (op : W → A * W) (ev : A → call) : job A :=
  act (λ s, let (a, w) := op (env s) in (a, logged (ev a) (set_env w s))).
Definition locked {A} (g : state → A * state) : job A := act g.

Definition check (o : option error) : res unit := match o with None => Val tt | Some e => Fail e end.

(** ** The record *)
Definition record_ : job RuntimeRecord :=
  locked (λ s, (match rec_ s with Some r => r | None => blank_record end, s)).

Definition stamp (now : Z) (r : RuntimeRecord) : RuntimeRecord :=
  mkRecord (Containd r) RecordSchema (Generation_ r) (Phase_ r) (RPackage r) (RRevision r) (RMode r)
    (RRoot r) (RVersion r) (RError r) (RCode r) now.

Definition persist (r : RuntimeRecord) : job (res unit) :=
  act (λ s,
    let (now, w) := e_Now (env s) in
    let r := stamp now r in
    let (e, w) := e_Save w in
    let st := statusOf r in
    let st := match e with
              | Some err =>
                  if (RError r =? "")%string
                  then mkStatus (SContaind st) (SGeneration st) (SPhase st) (SPackage st) (Target st)
                         (SMode st) (Text err) (SCode st) (SUpdatedAt st)
                  else st
              | None => st
              end in
    (check e,
     set_mem (Some r) None st
       (logged (CSave r (match e with None => true | Some _ => false end))
          (set_disk (match e with None => Stored r | Some _ => disk s end) (set_env w s))))).

(** ** Generations in the manager's memory *)
Definition at_gen (g : nat) (f : Generation → Generation) (s : state) : state :=
  set_gens (alter f g (gens s)) s.

(** [Stop]: the locked section, the cancellation, the wait.  The wait ends
    when everything has left or the timer fires; when both have happened
    either may be taken. *)
Definition Stop (g : nat) : job (res unit) :=
  do- locked (λ s, (tt, at_gen g stop_locked s)) in
  do- locked (λ s, (tt, at_gen g cancel s)) in
  let- ended := act (λ s, (match gens s !! g with
                           | Some G => drained G && negb (e_Timer (env s))
                           | None => true
                           end, s)) in
  if ended : bool then Done (Val tt)
  else locked (λ s, (match gens s !! g with
                     | Some G => Fail (drain_error (DrainText opts) G)
                     | None => Val tt
                     end, s)).

(** ** Teardown *)
Definition names_of (l : list string) : string := "[" ++ join_with ", " l ++ "]".

Definition teardown : job (res unit) :=
  let& volumes := perform e_MountedVolumes CMountedVolumes in
  do& perform e_Down CDown in
  let& left_ := perform (e_ExistingVolumes volumes) (CExistingVolumes volumes) in
  do& fail_when (0 <? length left_)%nat
        (errorf ("project " ++ RangeProject ++ " volumes " ++ names_of left_ ++ " remain after down")) in
  let& cn := perform e_ProjectResources CProjectResources in
  fail_when ((0 <? length cn.1)%nat || (0 <? length cn.2)%nat)
    (errorf ("project " ++ RangeProject ++ " still has containers " ++ names_of cn.1 ++
             " and networks " ++ names_of cn.2 ++ " after down")).

(** ** Proxy routes *)
Definition replaceRoutes (content : string) : job (res unit) :=
  act (λ s,
    let (e, w) := e_WriteRoutes (env s) in
    match e with
    | Some err => (Fail err, set_env w s)
    | None => (Val tt, logged (CRoutes (Some content)) (set_routes (Some content) (set_env w s)))
    end).

Definition restoreRoutes (previous : option string) : job (res unit) :=
  match previous with
  | Some content => wrapped "restore previous routes" (replaceRoutes content)
  | None =>
      act (λ s,
        let (e, w) := e_RemoveRoutes (env s) in
        match e with
        | Some err => (Fail (wrap "remove rejected routes" err), set_env w s)
        | None => (Val tt, logged (CRoutes None) (set_routes None (set_env w s)))
        end)
  end.

Definition exec_text (argv : list string) : string :=
  "[" ++ join_with " " argv ++ "] in " ++ ProxyContainer opts.

Definition proxyExec (argv : list string) : job (res unit) :=
  let- r := perform (e_Exec argv) (CExec argv) in
  match r with
  | Fail e => Done (Fail (wrap (exec_text argv) e))
  | Val (code, output) =>
      fail_when (negb (code =? 0))
        (errorf (exec_text argv ++ " exited " ++ pretty code ++ ": " ++ output))
  end.

Fixpoint nginx_steps (previous : option string) (l : list (list string)) : job (res unit) :=
  match l with
  | [] => Done (Val tt)
  | argv :: l' =>
      let- r := proxyExec argv in
      match r with
      | Val _ => nginx_steps previous l'
      | Fail e =>
          let- restored := restoreRoutes previous in
          match restored with
          | Fail e' => Done (Fail (mkError (join_errors [e; e']) (ConfigStatus e)))
          | Val _ => Done (Fail e)
          end
      end
  end.

Definition nginx_commands : list (list string) := [["nginx"; "-t"]; ["nginx"; "-s"; "reload"]].

Definition installRoutes (content : string) : job (res unit) :=
  let& previous := act (λ s, let (e, w) := e_ReadRoutes (env s) in
                             (match e with
                              | Some err => Fail (wrap "read installed routes" err)
                              | None => Val (routes s)
                              end, set_env w s)) in
  do& replaceRoutes content in
  nginx_steps previous nginx_commands.

Definition routesInstalled (content : string) : job (res bool) :=
  act (λ s, let (e, w) := e_ReadRoutes (env s) in
            (match e with
             | Some err => Fail err
             | None => Val (match routes s with Some c => (c =? content)%string | None => false end)
             end, set_env w s)).

(** ** Preflight *)
Record plan : Type := mkPlan {
  pkg : Package;
  plan_manifest : Manifest;
  composeFile : string;
  plan_routes : string;
  policy : string;
  firewallAPI : string
}.

Definition Dir (id : string) : string := path_join [Root opts; "lab-definitions"; "packages"; id].

Definition checkPackage (man : Manifest) (pk : Package) (normalized : string) : job (res unit) :=
  do& ask (λ w, (match e_Validate man (Root opts) w with
                 | Some e => Fail (wrap "manifest" e) | None => Val tt end, w)) in
  do& Done (match e_CheckTopology man pk with
            | Some e => Fail (wrap "manifest against topology" e) | None => Val tt end) in
  ask (λ w, (match e_CheckCompose man (OMode opts) (Root opts) normalized w with
             | Some e => Fail (wrap ("manifest against compose " ++ Mode_string (OMode opts) ++ " model") e)
             | None => Val tt end, w)).

Definition preflight (pk : Package) : job (res plan) :=
  let& man := ask (e_LoadManifest (Root opts) (Package_ID pk)) in
  let dir := Dir (Package_ID pk) in
  let file := path_join [dir; ComposeFile (OMode opts)] in
  let& normalized := ask (e_Config file) in
  do& checkPackage man pk normalized in
  let& images := ask (e_Images file) in
  let& missing := ask (e_MissingImages images) in
  do& fail_when (0 <? length missing)%nat
        (errorf (pretty (zlen missing) ++ " image(s) missing for " ++ Mode_string (OMode opts) ++
                 " mode: " ++ join_with ", " missing)) in
  let& content := wrapped "proxy routes" (ask (e_ReadFile (path_join [dir; "nginx.routes.conf"]))) in
  let& api := Done (match Endpoint man "firewall" "api" with
                    | Some a => Val a
                    | None => Fail (errorf "manifest has no firewall service with an api endpoint")
                    end) in
  do& fail_when (FirewallConfigPath pk =? "")%string
        (errorf "package declares no default firewall policy (topology firewall_config)") in
  let& pol := wrapped "default firewall policy"
                (ask (e_ReadFile (path_join [DefinitionsDir opts; FirewallConfigPath pk]))) in
  do& fail_when (negb (e_JSONValid pol))
        (errorf ("default firewall policy " ++ FirewallConfigPath pk ++ " is not valid JSON")) in
  do& wrapped "default firewall policy" (Done (check (e_CheckManagementSafety pol))) in
  Done (Val (mkPlan pk man file content pol api)).

(** ** The switch *)
Definition seedPolicy (client : string) (p : plan) : job (res unit) :=
  do& perform (e_WaitReady client) (CWaitReady client) in
  let& _ := wrapped ("import default policy " ++ FirewallConfigPath (pkg p))
              (perform (e_ImportConfig client (policy p)) (CImportConfig client (policy p))) in
  Done (Val tt).

Definition with_phase (ph : Phase) (r : RuntimeRecord) : RuntimeRecord :=
  mkRecord (Containd r) (Schema r) (Generation_ r) ph (RPackage r) (RRevision r) (RMode r) (RRoot r)
    (RVersion r) (RError r) (RCode r) (RUpdatedAt r).
Definition with_containd (c : option string) (r : RuntimeRecord) : RuntimeRecord :=
  mkRecord c (Schema r) (Generation_ r) (Phase_ r) (RPackage r) (RRevision r) (RMode r) (RRoot r)
    (RVersion r) (RError r) (RCode r) (RUpdatedAt r).
Definition with_error (e code : string) (r : RuntimeRecord) : RuntimeRecord :=
  mkRecord (Containd r) (Schema r) (Generation_ r) (Phase_ r) (RPackage r) (RRevision r) (RMode r)
    (RRoot r) (RVersion r) e code (RUpdatedAt r).

(** The record of the new generation. *)
Definition next_record (p : plan) (r : RuntimeRecord) : RuntimeRecord :=
  mkRecord None (Schema r) (u64 (Generation_ r + 1)) (Phase_ r) (Package_ID (pkg p)) (Revision (pkg p))
    (Some (OMode opts)) (Root opts) (Version opts) "" "" (RUpdatedAt r).

Definition is_nil (l : list string) : bool := match l with [] => true | _ => false end.

(** Steps 2 to 5 up to the point where the new generation exists: the start
    time of the range. *)
Definition switch_range (p : plan) (r : RuntimeRecord) : job (res Z) :=
  let- old := locked (λ s, (current s, set_current None s)) in
  do& wrapped "stopping" (persist (with_phase PhaseStopping r)) in
  do& wrapped "stopping" (match old with Some g => Stop g | None => Done (Val tt) end) in
  do& wrapped "stopping" teardown in
  let& held := wrapped "stopping"
                 (perform (e_ContainersNamed (containerNames (plan_manifest p)))
                    (CContainersNamed (containerNames (plan_manifest p)))) in
  do& fail_when (negb (is_nil held))
        (errorf ("stopping: container names of " ++ Package_ID (pkg p) ++ " are held outside project " ++
                 RangeProject ++ ": " ++ join_with ", " held)) in
  do& wrapped "starting" (persist (with_phase PhaseStarting r)) in
  let- startedAt := ask e_Now in
  do& wrapped "starting" (perform (e_Up (composeFile p)) (CUp (composeFile p))) in
  do& wrapped "configuring" (persist (with_phase PhaseConfiguring r)) in
  do& wrapped "configuring" (installRoutes (plan_routes p)) in
  Done (Val startedAt).

(** [NewGeneration] in the store, and the workers [Activate] registers. *)
Definition new_generation (G : Generation) : job nat :=
  act (λ s, (length (gens s), set_gens (gens s ++ [G])%list s)).
Definition enter_gen (g : nat) (s : state) (name : string) : state :=
  match gens s !! g with
  | Some G => match Generation_Enter name G with
              | Some (_, G') => set_gens (<[g := G']> (gens s)) s
              | None => s
              end
  | None => s
  end.
Definition Activate (g : nat) : job unit :=
  act (λ s, match gens s !! g with
            | Some G => let (names, w) := e_Activate G (env s) in
                        (tt, fold_left (enter_gen g) names (set_env w s))
            | None => (tt, s)
            end).
Definition last_apply (client : string) : job (option string) :=
  act (λ s, (e_LastApply client (env s), s)).

(** [switchTo]: the new generation, once there is one, and the error. *)
Definition switchTo (p : plan) : job (option nat * option error) :=
  let- r0 := record_ in
  let r := next_record p r0 in
  let- started := switch_range p r in
  match started with
  | Fail e => Done (None, Some e)
  | Val startedAt =>
      let- g := new_generation (NewGeneration (Generation_ r) (pkg p) (plan_manifest p) (firewallAPI p)
                                  startedAt) in
      let- seeded := seedPolicy (firewallAPI p) p in
      match seeded with
      | Fail e => Done (Some g, Some (wrap "configuring" e))
      | Val _ =>
          let- receipt := last_apply (firewallAPI p) in
          do- Activate g in
          let- saved := persist (with_phase PhaseReady (with_containd receipt r)) in
          match saved with
          | Fail e => Done (Some g, Some (wrap "ready" e))
          | Val _ =>
              do- locked (λ s, (tt, set_current (Some g) s)) in
              Done (Some g, None)
          end
      end
  end.

Definition ConfigConflictCode : string := "containd_config_conflict".
Definition ConfigConflictMessage : string :=
  "containd configuration changed since it was read; review it and apply again".

Definition fail_ (p : plan) (g : option nat) (cause : error) : job unit :=
  let- stopped_ := match g with Some g => Stop g | None => Done (Val tt) end in
  let errs := match stopped_ with Fail e => [cause; e] | Val _ => [cause] end in
  let- down := teardown in
  let errs := match down with
              | Fail e => (errs ++ [wrap "teardown after failure" e])%list
              | Val _ => errs
              end in
  let- r := record_ in
  let- r := match g with
            | Some _ => let- receipt := last_apply (firewallAPI p) in Done (with_containd receipt r)
            | None => Done r
            end in
  let text := join_errors errs in
  let r := if bool_decide (ConfigStatus cause = Some 412)
           then with_error (ConfigConflictMessage ++ ": " ++ text) ConfigConflictCode r
           else with_error text (RCode r) r in
  let- _saved := persist (with_phase PhaseFailed r) in
  Done tt.

Definition status_failed (previous : Status) (e : string) (now : Z) : Status :=
  mkStatus (SContaind previous) (SGeneration previous) (SPhase previous) (SPackage previous)
    (Target previous) (SMode previous) e (SCode previous) (Some now).

Definition transition (pk : Package) (previous : Status) : job unit :=
  let- checked := preflight pk in
  match checked with
  | Fail e =>
      let- now := ask e_Now in
      locked (λ s, (tt, set_status
        (status_failed previous ("preflight " ++ Package_ID pk ++ ": " ++ Text e) now) s))
  | Val p =>
      let- switched := switchTo p in
      match switched with
      | (_, None) => Done tt
      | (g, Some e) => fail_ p g e
      end
  end.

(** ** Reconciliation *)
Definition recoverInterrupted (r : RuntimeRecord) (reason : string) : job unit :=
  let- down := teardown in
  let errs := match down with
              | Fail e => [errorf reason; wrap "teardown" e]
              | Val _ => [errorf reason]
              end in
  let- _saved := persist (with_phase PhaseFailed (with_error (join_errors errs) (RCode r) r)) in
  Done tt.

Definition find_package (catalog : option (list Package)) (id : string) : option Package :=
  match catalog with
  | None => None
  | Some l => List.find (λ p, (Package_ID p =? id)%string) l
  end.

Definition reconcileReady (r : RuntimeRecord) : job (res unit) :=
  do& fail_when (negb (RRoot r =? Root opts)%string || negb (bool_decide (RMode r = Some (OMode opts))))
        (errorf ("started from root " ++ RRoot r ++ " in " ++
                 match RMode r with Some m => Mode_string m | None => "" end ++
                 " mode, backend now runs root " ++ Root opts ++ " in " ++ Mode_string (OMode opts) ++ " mode")) in
  let& pk := ask (λ w, (match find_package (e_Catalog w) (RPackage r) with
                        | Some pk => Val pk
                        | None => Fail (errorf ("package " ++ RPackage r ++ " is not in the catalog"))
                        end, w)) in
  let& man := ask (e_LoadManifest (Root opts) (Package_ID pk)) in
  let& api := Done (match Endpoint man "firewall" "api" with
                    | Some a => Val a
                    | None => Fail (errorf "manifest has no firewall service with an api endpoint")
                    end) in
  let& present := perform e_ProjectResources CProjectResources in
  let absent := filter (λ name, name ∉ present.1) (containerNames man) in
  do& fail_when (negb (is_nil absent))
        (errorf ("containers absent from project " ++ RangeProject ++ ": " ++ join_with ", " absent)) in
  let& content := wrapped "package routes"
                    (ask (e_ReadFile (path_join [Dir (Package_ID pk); "nginx.routes.conf"]))) in
  let& installed := wrapped "installed routes" (routesInstalled content) in
  do& fail_when (negb installed) (errorf ("proxy routes are not the routes of " ++ Package_ID pk)) in
  do& wrapped "containd readiness" (perform (e_WaitReady api) (CWaitReady api)) in
  let- g := new_generation (NewGeneration (Generation_ r) pk man api (RUpdatedAt r)) in
  do- Activate g in
  do- locked (λ s, (tt, set_current (Some g) s)) in
  Done (Val tt).

Definition reconcile : job unit :=
  let- start := locked (λ s, ((loadErr s, match rec_ s with Some r => r | None => blank_record end), s)) in
  let r := start.2 in
  match start.1 with
  | Some e =>
      recoverInterrupted
        (mkRecord None 0 0 PhaseNone "" 0 (Some (OMode opts)) (Root opts) (Version opts) "" "" 0)
        ("runtime record unreadable (" ++ Text e ++ ")")
  | None =>
      if bool_decide (Phase_ r = PhaseReady) then
        let- adopted := reconcileReady r in
        match adopted with
        | Val _ => Done tt
        | Fail e =>
            let- _saved := persist (with_phase PhaseFailed (with_error ("range missing: " ++ Text e) (RCode r) r)) in
            Done tt
        end
      else recoverInterrupted r ("interrupted during " ++ Phase_string (Phase_ r))
  end.

(** ** The manager *)

(** A running backend: the state and the job under way. *)
Record system : Type := mkSystem { st : state; running : option (job unit) }.

(** [New], on the disk and the environment the process finds. *)
Definition New (s : state) : state :=
  match Store_Load (StorePath opts) (disk s) with
  | Fail e =>
      let (now, w) := e_Now (env s) in
      mkState None (Some e)
        (mkStatus None 0 PhaseFailed "" "" (Some (OMode opts)) (Text e) "" (Some now))
        None false [] (disk s) (routes s) (log s) w
  | Val (Some r) => mkState (Some r) None (statusOf r) None false [] (disk s) (routes s) (log s) (env s)
  | Val None =>
      mkState None None (mkStatus None 0 PhaseNone "" "" (Some (OMode opts)) "" "" None)
        None false [] (disk s) (routes s) (log s) (env s)
  end.

(** [Status]. *)
Definition Manager_Status (s : state) : Status :=
  let x := status s in
  match match current s with Some g => gens s !! g | None => None end with
  | Some G =>
      match e_LastApply (GContaind G) (env s) with
      | Some receipt => mkStatus (Some receipt) (SGeneration x) (SPhase x) (SPackage x) (Target x)
                          (SMode x) (SError x) (SCode x) (SUpdatedAt x)
      | None => x
      end
  | None => x
  end.

Definition ActivePackage (s : state) : string :=
  match rec_ s with
  | Some r => if (RPackage r =? "")%string then DefaultPackage opts else RPackage r
  | None => DefaultPackage opts
  end.

(** [Enter]: the generation and the identifier the request registered under. *)
Definition Manager_Enter (name : string) (s : state) : option (nat * Z) * state :=
  match current s with
  | None => (None, s)
  | Some g =>
      if negb (bool_decide (SPhase (status s) = PhaseReady)) &&
         negb (bool_decide (SPhase (status s) = PhasePreflight))
      then (None, s)
      else match gens s !! g with
           | None => (None, s)
           | Some G => match Generation_Enter name G with
                       | None => (None, s)
                       | Some (id, G') => (Some (g, id), set_gens (<[g := G']> (gens s)) s)
                       end
           end
  end.

(** [launchLocked]: the job, then the end of it. *)
Definition launch (m : job unit) : job unit :=
  do- m in locked (λ s, (tt, set_busy false s)).

Definition Start (s : system) : system :=
  let x := st s in
  if busy x || match loadErr x, rec_ x with
               | Some _, _ => false
               | None, None => true
               | None, Some r => bool_decide (Phase_ r = PhaseFailed)
               end
  then s
  else mkSystem (set_busy true x) (Some (launch reconcile)).

Inductive request_error : Type := ErrBusy | ErrUnknownPackage (id : string).

Definition Request (id : string) (s : system) : option request_error * system :=
  let x := st s in
  if busy x then (Some ErrBusy, s)
  else
    let id := if (id =? "")%string then ActivePackage x else id in
    match find_package (e_Catalog (env x)) id with
    | None => (Some (ErrUnknownPackage id), s)
    | Some pk =>
        let previous := status x in
        let (now, w) := e_Now (env x) in
        let x := set_env w x in
        let x := set_status (mkStatus (SContaind previous) (SGeneration previous) PhasePreflight
                               (SPackage previous) (Package_ID pk) (SMode previous) "" "" (Some now)) x in
        (None, mkSystem (set_busy true x) (Some (launch (transition pk previous))))
    end.

(** The start of a process: the server calls [New] and then [Start]. *)
Definition process (s : state) : system := Start (mkSystem (New s) None).

(** What can happen: a step of the job, the calls of handlers and workers,
    a change of the world, and the end of the process with its restart. *)
Inductive input : Type :=
| Job
| InRequest (id : string)
| InEnter (name : string)
| InGo (g : nat) (name : string)
| InLeave (g : nat) (id : Z)
| InWorld (w : W)
| Crash.

Definition step (i : input) (s : system) : system :=
  match i with
  | Job => match running s with
           | Some (Act f k) =>
               mkSystem (f (st s)) (match k (st s) with Done _ => None | m => Some m end)
           | Some (Done _) | None => s
           end
  | InRequest id => (Request id s).2
  | InEnter name => mkSystem (Manager_Enter name (st s)).2 (running s)
  | InGo g name => mkSystem (enter_gen g (st s) name) (running s)
  | InLeave g id => mkSystem (at_gen g (leave id) (st s)) (running s)
  | InWorld w => mkSystem (set_env w (st s)) (running s)
  | Crash => process (st s)
  end.

(** The first process, on an arbitrary disk. *)
Definition boot (d : Disk) (rts : option string) (w : W) : system :=
  process (mkState None None (mkStatus None 0 PhaseNone "" "" None "" "" None) None false [] d rts [] w).

Inductive reachable (d : Disk) (rts : option string) (w : W) : system → Prop :=
| reach_boot : reachable d rts w (boot d rts w)
| reach_step i s : reachable d rts w s → reachable d rts w (step i s).
End Lifecycle.
