(* ===== verification/LifecycleInv.v ===== *)
(** * The range lifecycle: its guarantees

    A rely-guarantee logic for the jobs of [Lifecycle]: between two steps of a
    job, requests and workers change the registered work and nothing else of
    what the job sees.  With it, the invariant of every reachable system, the
    order of the calls on the range, and recovery after a crash at any
    point. *)
From S2P Require Import Prelude GoLib GoText Lifecycle.

#[local] Open Scope string_scope.
#[local] Open Scope Z_scope.

Section LifecycleInv.
Context {W : Type} `{Env W} (opts : Options) (d0 : Disk).
Implicit Types (s : state (W := W)).

(** ** What jobs see *)
Definition gen_view (G : Generation) : Z * Package * bool := (GID G, GPackage G, stopped G).

Record view : Type := mkView {
  v_rec : option RuntimeRecord;
  v_loadErr : option error;
  v_status : Status;
  v_current : option nat;
  v_busy : bool;
  v_gens : list (Z * Package * bool);
  v_disk : Disk;
  v_routes : option string;
  v_log : list call
}.
Definition view_of s : view :=
  mkView (rec_ s) (loadErr s) (status s) (current s) (busy s) (gen_view <$> gens s) (disk s) (routes s)
    (log s).

(** ** The order of the calls *)
Definition call_ok (c : call) (before : list call) : Prop :=
  match c with
  | CUp file _ =>
      ∃ r names v rest, before =
        CSave r true :: CContainersNamed names (Val []) :: CProjectResources (Val ([], [])) ::
        CExistingVolumes v (Val []) :: CDown (Val tt) :: CMountedVolumes (Val v) :: rest ∧
        Phase_ r = PhaseStarting
  | CSave r _ => Phase_ r = PhaseReady →
      ∃ api policy warnings out1 out2 content r1 file rest, before =
        CImportConfig api policy (Val warnings) :: CWaitReady api (Val tt) ::
        CExec ["nginx"; "-s"; "reload"] (Val (0, out2)) :: CExec ["nginx"; "-t"] (Val (0, out1)) ::
        CRoutes (Some content) :: CSave r1 true :: CUp file (Val tt) :: rest ∧
        Phase_ r1 = PhaseConfiguring ∧ Generation_ r1 = Generation_ r ∧ RPackage r1 = RPackage r
  | _ => True
  end.

Fixpoint log_ok (l : list call) : Prop :=
  match l with
  | [] => True
  | c :: l' => call_ok c l' ∧ log_ok l'
  end.

(** A call that says nothing about phases. *)
Definition plain (c : call) : bool :=
  match c with CUp _ _ | CSave _ _ => false | _ => true end.

Lemma plain_ok c l : plain c = true → log_ok l → log_ok (c :: l).
Proof. intros Hp Hl. split; [by destruct c|done]. Qed.

(** ** The phases *)
Definition resting (p : Phase) : Prop := p = PhaseNone ∨ p = PhaseReady ∨ p = PhaseFailed.

Inductive phase_edge : Phase → Phase → Prop :=
| edge_same p : phase_edge p p
| edge_request p : resting p → phase_edge p PhasePreflight
| edge_rejected p : resting p → phase_edge PhasePreflight p
| edge_stopping : phase_edge PhasePreflight PhaseStopping
| edge_starting : phase_edge PhaseStopping PhaseStarting
| edge_configuring : phase_edge PhaseStarting PhaseConfiguring
| edge_ready : phase_edge PhaseConfiguring PhaseReady
| edge_failed p : persisted p = true → phase_edge p PhaseFailed.

(** ** The invariant *)
Definition all_stopped (v : view) : Prop := ∀ g x, v_gens v !! g = Some x → x.2 = true.

Definition record_ok (r : RuntimeRecord) : Prop := Schema r = RecordSchema ∧ persisted (Phase_ r) = true.

(** No write of the phase [stopping] failed.  When one does, the switch gives
    up before it stops the generation it has taken, and nothing stops it
    later. *)
Definition clean (l : list call) : Prop :=
  Forall (λ c, match c with CSave r ok => Phase_ r = PhaseStopping → ok = true | _ => True end) l.

Record Jv (v : view) : Prop := {
  j_unique : clean (v_log v) → ∀ g g' x x', v_gens v !! g = Some x → v_gens v !! g' = Some x' → x.2 = false → x'.2 = false → g = g';
  j_current : ∀ g, v_current v = Some g → ∃ x r, v_gens v !! g = Some x ∧ x.2 = false ∧
    v_rec v = Some r ∧ Phase_ r = PhaseReady ∧ x.1.1 = Generation_ r ∧ Package_ID x.1.2 = RPackage r ∧
    (SPhase (v_status v) = PhaseReady ∨ SPhase (v_status v) = PhasePreflight);
  j_rec : ∀ r, v_rec v = Some r → record_ok r;
  j_disk : v_disk v = d0 ∨ ∃ r, v_disk v = Stored r ∧ record_ok r;
  j_log : log_ok (v_log v)
}.

(** What a step of a job guarantees. *)
Record Ev (v v' : view) : Prop := {
  ev_edge : phase_edge (SPhase (v_status v)) (SPhase (v_status v'));
  ev_busy : v_busy v' = v_busy v;
  ev_up : ∀ file r, v_log v' = CUp file r :: v_log v → v_current v = None ∧
    (clean (v_log v) → all_stopped v) ∧ ∃ x, v_rec v = Some x ∧ Phase_ x = PhaseStarting
}.

(** Drained means stopped with nothing registered. *)
Definition gen_ok (G : Generation) : Prop := drained G = true → stopped G = true ∧ active G = [].
Definition gens_ok s : Prop := Forall gen_ok (gens s).

(** ** The logic *)
Fixpoint runs {A} (m : job (W := W) A) (Q : A → state (W := W) → Prop) s : Prop :=
  match m with
  | Done a => Q a s
  | Act f k => ∀ s', view_of s' = view_of s → gens_ok s' →
      (Jv (view_of (f s')) ∧ Ev (view_of s') (view_of (f s')) ∧ gens_ok (f s')) ∧ runs (k s') Q (f s')
  end.

Lemma runs_bind {A B} (m : job A) (k : A → job B) Q s :
  runs m (λ a, runs (k a) Q) s → runs (prog_bind m k) Q s.
Proof.
  revert s. induction m as [a|f n IH]; intros s; cbn; [done|].
  intros Hm s' Hv HK. destruct (Hm s' Hv HK) as [HJ Hr]. split; [done|by apply IH].
Qed.

Lemma runs_mono {A} (m : job A) (Q Q' : A → _ → Prop) s :
  runs m Q s → (∀ a s', Q a s' → Q' a s') → runs m Q' s.
Proof.
  intros Hm HQ. revert s Hm. induction m as [a|f n IH]; intros s; cbn; [apply HQ|].
  intros Hm s' Hv HK. destruct (Hm s' Hv HK) as [HJ Hr]. split; [done|by apply IH].
Qed.

Lemma runs_quiet {A} (m : job A) (Q : A → _ → Prop) s s' :
  view_of s' = view_of s → (∀ a, Q a s → Q a s') → runs m Q s → runs m Q s'.
Proof.
  intros Hv HQ. destruct m as [a|f n]; cbn; [apply HQ|]. intros Hm s2 Hv2 HK.
  apply Hm; [by rewrite Hv2|done].
Qed.

Lemma runs_act {A} (g : state (W := W) → A * state (W := W)) (Q : A → _ → Prop) s :
  (∀ s', view_of s' = view_of s → gens_ok s' →
     (Jv (view_of (g s').2) ∧ Ev (view_of s') (view_of (g s').2) ∧ gens_ok (g s').2) ∧ Q (g s').1 (g s').2) →
  runs (act g) Q s.
Proof. intros H' s' Hv HK. exact (H' s' Hv HK). Qed.

Lemma runs_fail_when b e Q s : (b = false → Q (Val tt) s) → (b = true → Q (Fail e) s) →
  runs (fail_when b e) Q s.
Proof. destruct b; cbn; auto. Qed.

(** A step that leaves the view but for plain calls. *)
Definition calls (l : list call) (v : view) : view :=
  mkView (v_rec v) (v_loadErr v) (v_status v) (v_current v) (v_busy v) (v_gens v) (v_disk v) (v_routes v)
    (l ++ v_log v)%list.

Lemma clean_app l l' : clean (l ++ l') → clean l'.
Proof. by intros [_ H']%Forall_app. Qed.
Lemma clean_cons c l : clean (c :: l) → clean l.
Proof. apply (clean_app [c]). Qed.

Lemma Jv_plain c v : plain c = true → Jv v → Jv (calls [c] v).
Proof.
  intros Hc [H1 H2 H3 H4 H5]. constructor; try done; [|by apply plain_ok].
  intros Hcl. exact (H1 (clean_cons _ _ Hcl)).
Qed.

Lemma Ev_plain c v : plain c = true → Ev v (calls [c] v).
Proof. intros Hc. constructor; [constructor|done|]. intros file r [= ->]. done. Qed.

Lemma Ev_same_log v v' : phase_edge (SPhase (v_status v)) (SPhase (v_status v')) → v_log v' = v_log v →
  v_busy v' = v_busy v → Ev v v'.
Proof. intros He Hl Hb. constructor; [done|done|]. intros file r Hc. rewrite Hl in Hc. apply (f_equal length) in Hc. cbn in Hc. lia. Qed.
Lemma Ev_refl v : Ev v v.
Proof. apply Ev_same_log; constructor. Qed.

Lemma gens_ok_same s s' : gens s' = gens s → gens_ok s → gens_ok s'.
Proof. unfold gens_ok. by intros ->. Qed.

Lemma runs_perform {A} (op : W → A * W) ev Q s : Jv (view_of s) → (∀ a, plain (ev a) = true) →
  (∀ a s', view_of s' = calls [ev a] (view_of s) → Jv (view_of s') → Q a s') → runs (perform op ev) Q s.
Proof.
  intros HJ Hp HQ. apply runs_act. intros s' Hv HK. destruct (op (env s')) as [a w]. cbn [fst snd].
  assert (view_of (logged (ev a) (set_env w s')) = calls [ev a] (view_of s)) as Hv'.
  { change (calls [ev a] (view_of s') = calls [ev a] (view_of s)). by rewrite Hv. }
  assert (Jv (calls [ev a] (view_of s))) as HJ' by by apply Jv_plain.
  rewrite Hv', Hv. split; [split_and!|apply HQ; by rewrite ?Hv'].
  - done.
  - by apply Ev_plain.
  - by eapply gens_ok_same; [|exact HK].
Qed.

Lemma runs_still {A} (g : state (W := W) → A * state (W := W)) (Q : A → _ → Prop) s : Jv (view_of s) →
  (∀ s', view_of s' = view_of s → view_of (g s').2 = view_of s ∧ gens (g s').2 = gens s' ∧ Q (g s').1 (g s').2) →
  runs (act g) Q s.
Proof.
  intros HJ Hg. apply runs_act. intros s' Hv HK. destruct (Hg s' Hv) as (H1 & H2 & H3).
  split; [|done]. rewrite H1, Hv. split_and!; [done|apply Ev_refl|by eapply gens_ok_same].
Qed.

Lemma runs_ask {A} (op : W → A * W) (Q : A → _ → Prop) s : Jv (view_of s) →
  (∀ a s', view_of s' = view_of s → Q a s') → runs (ask op) Q s.
Proof.
  intros HJ HQ. apply runs_still; [done|]. intros s' Hv. destruct (op (env s')) as [a w]. cbn.
  split_and!; [by rewrite <- Hv|done|]. apply HQ. by rewrite <- Hv.
Qed.

Lemma runs_record Q s : Jv (view_of s) →
  (∀ s', view_of s' = view_of s → Q (match v_rec (view_of s) with Some r => r | None => blank_record end) s') →
  runs record_ Q s.
Proof.
  intros HJ HQ. apply runs_still; [done|]. intros s' Hv. split_and!; [done|done|]. cbn.
  change (rec_ s') with (v_rec (view_of s')). rewrite Hv. by apply HQ.
Qed.

Lemma runs_res_bind {A B} (m : job (res A)) (k : A → job (res B)) Q s :
  runs m (λ r s', match r with Val a => runs (k a) Q s' | Fail e => Q (Fail e) s' end) s →
  runs (res_bind m k) Q s.
Proof. intros Hm. apply runs_bind. eapply runs_mono; [exact Hm|]. by intros [a|e] s'. Qed.

Lemma runs_wrapped {A} context (m : job (res A)) Q s :
  runs m (λ r s', match r with Val a => Q (Val a) s' | Fail e => Q (Fail (wrap context e)) s' end) s →
  runs (wrapped context m) Q s.
Proof. intros Hm. apply runs_bind. eapply runs_mono; [exact Hm|]. by intros [a|e] s'. Qed.

(** ** Saving the record *)
Definition saved (ok : bool) (r : RuntimeRecord) (x : Status) (v : view) : view :=
  mkView (Some r) None x (v_current v) (v_busy v) (v_gens v) (if ok then Stored r else v_disk v) (v_routes v)
    (CSave r ok :: v_log v).

Lemma runs_persist r Q s : Jv (view_of s) → v_current (view_of s) = None → persisted (Phase_ r) = true →
  (∀ now ok, call_ok (CSave (stamp now r) ok) (v_log (view_of s))) →
  phase_edge (SPhase (v_status (view_of s))) (Phase_ r) →
  (∀ ok e now x s', SPhase x = Phase_ r → view_of s' = saved ok (stamp now r) x (view_of s) →
     Jv (view_of s') → Q (if ok : bool then Val tt else Fail e) s') →
  runs (persist r) Q s.
Proof.
  intros HJ Hcur Hp Hc He HQ. apply runs_act. intros s' Hv HK.
  destruct (e_Now (env s')) as [now w]. destruct (e_Save w) as [e w']. cbn [fst snd].
  set (x := match e with Some err => _ | None => _ end). set (s2 := set_mem _ _ _ _).
  assert (SPhase x = Phase_ r) as Hx by (subst x; destruct e; [destruct (_ =? _)%string|]; done).
  set (ok := match e with None => true | Some _ => false end).
  assert (view_of s2 = saved ok (stamp now r) x (view_of s)) as Hv2.
  { rewrite <- Hv. subst s2 ok. by destruct e. }
  assert (Jv (view_of s2)) as HJ2.
  { rewrite Hv2. destruct HJ as [J1 J2 J3 J4 J5]. assert (record_ok (stamp now r)) as Hr by done.
    constructor;
      [intros Hcl; exact (J1 (clean_cons _ _ Hcl))|intros g Hg; change (v_current (view_of s) = Some g) in Hg; congruence|cbn..].
    - by intros ? [= <-].
    - destruct ok; [right; by eexists|done].
    - split; [exact (Hc now ok)|done]. }
  split; [split_and!|].
  - done.
  - rewrite Hv2, Hv. constructor; [cbn; by rewrite Hx|done|]. by intros file r' [= ?].
  - by eapply gens_ok_same; [|exact HK].
  - replace (check e) with (if ok then Val tt else Fail (default (errorf "") e)) by (subst ok; by destruct e).
    by eapply HQ.
Qed.

Lemma save_ok r before : Phase_ r ≠ PhaseReady → ∀ now ok, call_ok (CSave (stamp now r) ok) before.
Proof. intros Hr now ok Hp. cbn in Hp. done. Qed.

(** ** Teardown *)
Definition torn (l : list call) : Prop := ∃ v, l =
  [CProjectResources (Val ([], [])); CExistingVolumes v (Val []); CDown (Val tt); CMountedVolumes (Val v)].

Lemma length_0_ltb {A} (l : list A) : (0 <? length l)%nat = false → l = [].
Proof. by destruct l. Qed.

Lemma calls_calls l l' v : calls l (calls l' v) = calls (l ++ l') v.
Proof. unfold calls. cbn. by rewrite app_assoc. Qed.

Lemma runs_teardown (Q : res unit → _ → Prop) s : Jv (view_of s) →
  (∀ r l s', view_of s' = calls l (view_of s) → Jv (view_of s') → (r = Val tt → torn l) → Q r s') →
  runs teardown Q s.
Proof.
  intros HJ HQ. apply runs_res_bind, runs_perform; [done|done|]. intros [v|e] s1 Hv1 HJ1; [|by eapply HQ].
  apply runs_res_bind, runs_perform; [done|done|]. intros [[]|e] s2 Hv2 HJ2; [|eapply HQ; [|done|done]; by rewrite Hv2, Hv1, calls_calls].
  apply runs_res_bind, runs_perform; [done|done|]. intros [left_|e] s3 Hv3 HJ3;
    [|eapply HQ; [|done|done]; by rewrite Hv3, Hv2, Hv1, !calls_calls].
  apply runs_res_bind, runs_fail_when; intros Hl; [|eapply HQ; [|done|done]; by rewrite Hv3, Hv2, Hv1, !calls_calls].
  apply length_0_ltb in Hl as ->.
  apply runs_res_bind, runs_perform; [done|done|]. intros [[c n]|e] s4 Hv4 HJ4;
    [|eapply HQ; [|done|done]; by rewrite Hv4, Hv3, Hv2, Hv1, !calls_calls].
  assert (view_of s4 = calls [CProjectResources (Val (c, n)); CExistingVolumes v (Val []); CDown (Val tt);
    CMountedVolumes (Val v)] (view_of s)) as Hv by by rewrite Hv4, Hv3, Hv2, Hv1, !calls_calls.
  apply runs_fail_when; intros Hcn; [|by eapply HQ]. eapply HQ; [exact Hv|done|]. intros _. exists v.
  cbn [fst snd] in Hcn. apply orb_false_iff in Hcn as [->%length_0_ltb ->%length_0_ltb]. done.
Qed.

(** ** Generations *)
Definition stop_view (g : nat) (v : view) : view :=
  mkView (v_rec v) (v_loadErr v) (v_status v) (v_current v) (v_busy v)
    (alter (λ x, (x.1, true)) g (v_gens v)) (v_disk v) (v_routes v) (v_log v).

Lemma list_alter_fmap_id {A B} (f : A → B) (g : A → A) i (l : list A) :
  (∀ x, f (g x) = f x) → f <$> alter g i l = f <$> l.
Proof. intros Hg. revert i. induction l as [|x l IH]; intros [|i]; cbn; [done..|by rewrite Hg|by rewrite IH]. Qed.

Lemma gens_ok_alter f g s : (∀ G, gen_ok G → gen_ok (f G)) → gens_ok s → gens_ok (at_gen g f s).
Proof.
  intros Hf HK. unfold gens_ok, at_gen. cbn. apply Forall_lookup. intros j x Hx.
  destruct (decide (j = g)) as [->|Hne].
  - rewrite list_lookup_alter_eq in Hx. destruct (gens s !! g) as [G|] eqn:HG; [|done]. injection Hx as <-.
    apply Hf. by eapply Forall_lookup_1 in HK.
  - rewrite list_lookup_alter_ne in Hx by done. by eapply Forall_lookup_1 in HK.
Qed.

Lemma close_ok G : gen_ok G → gen_ok (closeIfDrainedLocked G).
Proof.
  intros HG. unfold closeIfDrainedLocked. destruct (negb (stopped G) || _) eqn:Hb; [done|].
  apply orb_false_iff in Hb as [Hs Ha]. intros _. cbn. apply negb_false_iff in Hs. split; [done|].
  by apply length_0_ltb.
Qed.

Lemma stop_locked_ok G : gen_ok G → gen_ok (stop_locked G).
Proof. intros HG. apply close_ok. intros Hd. cbn in *. split; [done|]. by apply HG. Qed.
Lemma gen_view_close G : gen_view (closeIfDrainedLocked G) = gen_view G.
Proof. unfold closeIfDrainedLocked. by destruct (_ || _). Qed.

Lemma view_stop g s : view_of (at_gen g stop_locked s) = stop_view g (view_of s).
Proof.
  unfold at_gen, view_of, stop_view. cbn. f_equal.
  generalize (gens s). intros l. revert g. induction l as [|G l IH]; intros [|g]; cbn; [done..| |by rewrite IH].
  f_equal. unfold stop_locked. by rewrite gen_view_close.
Qed.

Lemma lookup_stopped g g' x (l : list (Z * Package * bool)) :
  alter (λ x, (x.1, true)) g l !! g' = Some x → x.2 = false → l !! g' = Some x ∧ g' ≠ g.
Proof.
  intros Hx Hf. destruct (decide (g' = g)) as [->|Hne].
  - rewrite list_lookup_alter_eq in Hx. destruct (l !! g); [|done]. by injection Hx as <-.
  - by rewrite list_lookup_alter_ne in Hx.
Qed.

Lemma Jv_stop g v : v_current v = None → Jv v → Jv (stop_view g v).
Proof.
  intros Hc [J1 J2 J3 J4 J5]. constructor; try done.
  - intros Hcl a b x y Ha Hb Hx Hy. apply lookup_stopped in Ha as [Ha _]; [|done]. apply lookup_stopped in Hb as [Hb _]; [|done].
    by eapply J1.
  - intros g' Hg'. cbn in Hg'. congruence.
Qed.

Lemma runs_Stop g (Q : res unit → _ → Prop) s : Jv (view_of s) → v_current (view_of s) = None →
  (∀ r s', view_of s' = stop_view g (view_of s) → Jv (view_of s') → Q r s') → runs (Stop opts g) Q s.
Proof.
  intros HJ Hc HQ. pose proof (Jv_stop g _ Hc HJ) as HJs. apply runs_bind, runs_act. intros s1 Hv1 HK1.
  cbn [fst snd]. assert (view_of (at_gen g stop_locked s1) = stop_view g (view_of s)) as Hs1 by by rewrite view_stop, Hv1.
  split.
  { rewrite Hs1, Hv1. split_and!; [done|by apply Ev_same_log; [constructor|..]|]. apply gens_ok_alter; [apply stop_locked_ok|done]. }
  generalize (at_gen g stop_locked s1) Hs1. clear s1 Hv1 HK1 Hs1. intros s1 Hs1.
  apply runs_bind, runs_act. intros s2 Hv2 HK2. cbn [fst snd].
  assert (view_of (at_gen g cancel s2) = view_of s2) as Hc2.
  { unfold at_gen, view_of. cbn. f_equal. by apply list_alter_fmap_id. }
  split; [rewrite Hc2, Hv2, Hs1; split_and!; [done|apply Ev_refl|by apply gens_ok_alter]|].
  apply runs_bind, runs_still; [by rewrite Hc2, Hv2, Hs1|]. intros s3 Hv3. split_and!; [done|done|]. cbn [fst snd].
  assert (view_of s3 = stop_view g (view_of s)) as Hs3 by by rewrite Hv3, Hc2, Hv2.
  destruct (match gens s3 !! g with Some G => _ | None => _ end); [apply HQ; [done|by rewrite Hs3]|].
  apply runs_still; [by rewrite Hs3|]. intros s4 Hv4. split_and!; [exact Hv4|done|]. cbn [fst snd].
  apply HQ; by rewrite Hv4, Hs3.
Qed.

(** ** Routes *)
Definition routed (rts : option string) (l : list call) (v : view) : view :=
  mkView (v_rec v) (v_loadErr v) (v_status v) (v_current v) (v_busy v) (v_gens v) (v_disk v) rts
    (l ++ v_log v)%list.

Lemma routed_routed a b l l' v : routed a l (routed b l' v) = routed a (l ++ l') v.
Proof. unfold routed. cbn. by rewrite app_assoc. Qed.
Lemma calls_routed l b l' v : calls l (routed b l' v) = routed b (l ++ l') v.
Proof. unfold routed, calls. cbn. by rewrite app_assoc. Qed.
Lemma routed_id v : v = routed (v_routes v) [] v.
Proof. by destruct v. Qed.

Lemma Jv_routed c rts v : plain c = true → Jv v → Jv (routed rts [c] v).
Proof.
  intros Hc [H1 H2 H3 H4 H5]. constructor; try done; [|by apply plain_ok].
  intros Hcl. exact (H1 (clean_cons _ _ Hcl)).
Qed.
Lemma Ev_routed c rts v : plain c = true → Ev v (routed rts [c] v).
Proof. intros Hc. constructor; [constructor|done|]. intros file r [= ->]. done. Qed.

(** A step that changes the routes file or fails. *)
Lemma runs_routes (rts : option string) (op : W → option error * W) (we : error → error) (Q : res unit → _ → Prop) s :
  Jv (view_of s) →
  (∀ e s', view_of s' = view_of s → Q (Fail e) s') →
  (∀ s', view_of s' = routed rts [CRoutes rts] (view_of s) → Jv (view_of s') → Q (Val tt) s') →
  runs (act (λ s, let (e, w) := op (env s) in
    match e with
    | Some err => (Fail (we err), set_env w s)
    | None => (Val tt, logged (CRoutes rts) (set_routes rts (set_env w s)))
    end)) Q s.
Proof.
  intros HJ Hf Hok. apply runs_act. intros s' Hv HK. destruct (op (env s')) as [[e|] w]; cbn [fst snd].
  - assert (view_of (set_env w s') = view_of s) as Hv' by by rewrite <- Hv.
    split; [|by apply Hf]. rewrite Hv', Hv. split_and!; [done|apply Ev_refl|by eapply gens_ok_same; [|exact HK]].
  - set (s2 := logged _ _). assert (view_of s2 = routed rts [CRoutes rts] (view_of s)) as Hv' by by rewrite <- Hv.
    assert (Jv (view_of s2)) as HJ2 by (rewrite Hv'; by apply Jv_routed).
    split; [|by apply Hok]. split_and!; [done| |by eapply gens_ok_same; [|exact HK]].
    rewrite Hv', Hv. by apply Ev_routed.
Qed.

Lemma runs_proxyExec argv (Q : res unit → _ → Prop) s : Jv (view_of s) →
  (∀ x e s', view_of s' = calls [CExec argv x] (view_of s) → Jv (view_of s') → Q (Fail e) s') →
  (∀ out s', view_of s' = calls [CExec argv (Val (0, out))] (view_of s) → Jv (view_of s') → Q (Val tt) s') →
  runs (proxyExec opts argv) Q s.
Proof.
  intros HJ Hf Hok. apply runs_bind, runs_perform; [done|done|]. intros [[code out]|e] s1 Hv1 HJ1; [|by eapply Hf].
  apply runs_fail_when; intros Hb; [|by eapply Hf]. apply negb_false_iff, Z.eqb_eq in Hb as ->. by eapply Hok.
Qed.

Lemma runs_restore previous (Q : res unit → _ → Prop) s : Jv (view_of s) →
  (∀ r rts l s', view_of s' = routed rts l (view_of s) → Jv (view_of s') → Q r s') →
  runs (restoreRoutes previous) Q s.
Proof.
  intros HJ HQ.
  assert (∀ r s', view_of s' = view_of s → Q r s') as Hsame.
  { intros r s' Hv. eapply HQ; [rewrite Hv; apply routed_id|by rewrite Hv]. }
  destruct previous as [content|]; cbn [restoreRoutes].
  - apply runs_wrapped. eapply (runs_routes (Some content) e_WriteRoutes id); [done|..].
    + intros e s'. apply Hsame.
    + intros s' Hv HJ'. by eapply HQ.
  - eapply (runs_routes None e_RemoveRoutes (wrap "remove rejected routes")); [done|..].
    + intros e s'. apply Hsame.
    + intros s' Hv HJ'. by eapply HQ.
Qed.

Definition routes_calls (content : string) (l : list call) : Prop :=
  ∃ out1 out2, l = [CExec ["nginx"; "-s"; "reload"] (Val (0, out2)); CExec ["nginx"; "-t"] (Val (0, out1));
                    CRoutes (Some content)].

Lemma runs_installRoutes content (Q : res unit → _ → Prop) s : Jv (view_of s) →
  (∀ r rts l s', view_of s' = routed rts l (view_of s) → Jv (view_of s') →
     (r = Val tt → rts = Some content ∧ routes_calls content l) → Q r s') →
  runs (installRoutes opts content) Q s.
Proof.
  intros HJ HQ.
  assert (∀ e s', view_of s' = view_of s → Q (Fail e) s') as Hsame.
  { intros e s' Hv. eapply HQ; [rewrite Hv; apply routed_id|by rewrite Hv|done]. }
  apply runs_res_bind, runs_still; [done|]. intros s1 Hv1. destruct (e_ReadRoutes (env s1)) as [[e|] w]; cbn [fst snd];
    (split; [by rewrite <- Hv1|]; split; [done|]); [by apply Hsame; rewrite <- Hv1|].
  assert (view_of (set_env w s1) = view_of s) as Hv1' by by rewrite <- Hv1.
  generalize (routes s1) (set_env w s1) Hv1'. clear s1 w Hv1 Hv1'. intros previous s1 Hv1.
  apply runs_res_bind. eapply (runs_routes (Some content) e_WriteRoutes id); [by rewrite Hv1|..].
  { intros e s2 Hv2. apply Hsame. by rewrite Hv2. }
  intros s2 Hv2 HJ2. cbn [nginx_steps nginx_commands].
  assert (∀ s3 l, view_of s3 = routed (Some content) l (view_of s) → Jv (view_of s3) → ∀ e,
    runs (prog_bind (restoreRoutes previous) (λ restored, match restored with
          | Fail e' => Done (Fail (mkError (join_errors [e; e']) (ConfigStatus e)))
          | Val _ => Done (Fail e)
          end)) Q s3) as Hrest.
  { intros s3 l Hv3 HJ3 e. apply runs_bind, runs_restore; [done|]. intros r rts l' s4 Hv4 HJ4.
    destruct r; (eapply HQ; [|done|done]); by rewrite Hv4, Hv3, routed_routed. }
  apply runs_bind, runs_proxyExec; [done|..].
  { intros x e s3 Hv3 HJ3. eapply Hrest; [|done]. by rewrite Hv3, Hv2, Hv1, calls_routed. }
  intros out1 s3 Hv3 HJ3. apply runs_bind, runs_proxyExec; [done|..].
  { intros x e s4 Hv4 HJ4. eapply Hrest; [|done]. by rewrite Hv4, Hv3, Hv2, Hv1, !calls_routed. }
  intros out2 s4 Hv4 HJ4. eapply (HQ _ (Some content)); [by rewrite Hv4, Hv3, Hv2, Hv1, !calls_routed|done|].
  intros _. split; [done|]. by exists out1, out2.
Qed.

(** ** Preflight: nothing the manager owns changes *)
Lemma runs_checkPackage man pk normalized (Q : res unit → _ → Prop) s : Jv (view_of s) →
  (∀ r s', view_of s' = view_of s → Q r s') → runs (checkPackage opts man pk normalized) Q s.
Proof.
  intros HJ HQ. apply runs_res_bind, runs_ask; [done|]. intros [[]|e] s1 Hv1; [|by apply HQ].
  apply runs_res_bind. cbn [runs]. destruct (e_CheckTopology man pk); [by apply HQ|].
  apply runs_ask; [by rewrite Hv1|]. intros r s2 Hv2. apply HQ. by rewrite Hv2.
Qed.

Lemma runs_preflight pk (Q : res plan → _ → Prop) s : Jv (view_of s) →
  (∀ r s', view_of s' = view_of s → (∀ p, r = Val p → pkg p = pk) → Q r s') → runs (preflight opts pk) Q s.
Proof.
  intros HJ HQ. assert (∀ e s', view_of s' = view_of s → Q (Fail e) s') as Hf by (intros; by apply HQ).
  unfold preflight. apply runs_res_bind, runs_ask; [done|]. intros [man|e] s1 Hv1; [|by apply Hf].
  cbv zeta. apply runs_res_bind, runs_ask; [by rewrite Hv1|]. intros [normalized|e] s2 Hv2; [|apply Hf; congruence].
  apply runs_res_bind, runs_checkPackage; [by rewrite Hv2, Hv1|]. intros [[]|e] s3 Hv3; [|apply Hf; congruence].
  apply runs_res_bind, runs_ask; [by rewrite Hv3, Hv2, Hv1|]. intros [images|e] s4 Hv4; [|apply Hf; congruence].
  apply runs_res_bind, runs_ask; [by rewrite Hv4, Hv3, Hv2, Hv1|]. intros [missing|e] s5 Hv5; [|apply Hf; congruence].
  assert (view_of s5 = view_of s) as Hv by congruence. clear s1 s2 s3 s4 Hv1 Hv2 Hv3 Hv4 Hv5.
  apply runs_res_bind, runs_fail_when; intros _; [|by apply Hf].
  apply runs_res_bind, runs_wrapped, runs_ask; [by rewrite Hv|]. intros [content|e] s6 Hv6; [|apply Hf; congruence].
  apply runs_res_bind. cbn [runs]. destruct (Endpoint man "firewall" "api") as [api|]; [|apply Hf; congruence].
  apply runs_res_bind, runs_fail_when; intros _; [|apply Hf; congruence].
  apply runs_res_bind, runs_wrapped, runs_ask; [by rewrite Hv6, Hv|]. intros [pol|e] s7 Hv7; [|apply Hf; congruence].
  apply runs_res_bind, runs_fail_when; intros _; [|apply Hf; congruence].
  apply runs_res_bind, runs_wrapped. cbn [runs]. destruct (check _) as [[]|e]; [|apply Hf; congruence].
  apply HQ; [congruence|]. by intros p [= <-].
Qed.

(** ** The switch *)

(** In the middle of a job that owns the range; [og] is the one generation
    that may be live. *)
Definition only (og : option nat) (v : view) : Prop :=
  clean (v_log v) → ∀ g x, v_gens v !! g = Some x → x.2 = false → og = Some g.

Record Mid (ph : Phase) (og : option nat) (v : view) : Prop := {
  mid_J : Jv v;
  mid_current : v_current v = None;
  mid_busy : v_busy v = true;
  mid_phase : SPhase (v_status v) = ph;
  mid_only : only og v
}.

Definition with_current (c : option nat) (v : view) : view :=
  mkView (v_rec v) (v_loadErr v) (v_status v) c (v_busy v) (v_gens v) (v_disk v) (v_routes v) (v_log v).

Lemma Mid_calls ph og l v : Jv (calls l v) → Mid ph og v → Mid ph og (calls l v).
Proof.
  intros HJ [_ H1 H2 H3 H4]. constructor; try done. intros Hc. exact (H4 (clean_app l _ Hc)).
Qed.
Lemma Mid_routed ph og rts l v : Jv (routed rts l v) → Mid ph og v → Mid ph og (routed rts l v).
Proof.
  intros HJ [_ H1 H2 H3 H4]. constructor; try done. intros Hc. exact (H4 (clean_app l _ Hc)).
Qed.
Lemma Mid_saved ph og ok r x v : Jv (saved ok r x v) → Mid ph og v → Mid (SPhase x) og (saved ok r x v).
Proof.
  intros HJ [_ H1 H2 H3 H4]. constructor; try done. intros Hc. exact (H4 (clean_cons _ _ Hc)).
Qed.

Lemma Mid_stopped ph g v : Jv (stop_view g v) → Mid ph (Some g) v → Mid ph None (stop_view g v).
Proof.
  intros HJ [_ H1 H2 H3 H4]. constructor; try done. intros Hc g' x Hx Hf.
  apply lookup_stopped in Hx as [Hx Hne]; [|done]. specialize (H4 Hc g' x Hx Hf). congruence.
Qed.

(** The stopping part: from taking the old generation to the check of the
    container names. *)
Lemma runs_stop_old (old : option nat) (Q : res unit → _ → Prop) s : Mid PhaseStopping old (view_of s) →
  (∀ r s', Mid PhaseStopping None (view_of s') → Q r s') →
  runs (match old with Some g => Stop opts g | None => Done (Val tt) end) Q s.
Proof.
  intros Hm HQ. destruct old as [g|]; [|by apply HQ]. apply runs_Stop; [apply Hm|apply Hm|].
  intros r s' Hv HJ. apply HQ. rewrite Hv in *. by apply Mid_stopped.
Qed.

Lemma runs_Mid_persist r ph og Q s : Mid ph og (view_of s) → persisted (Phase_ r) = true →
  (∀ now ok, call_ok (CSave (stamp now r) ok) (v_log (view_of s))) → phase_edge ph (Phase_ r) →
  (∀ ok e now x s', view_of s' = saved ok (stamp now r) x (view_of s) →
     Mid (Phase_ r) og (view_of s') → Q (if ok : bool then Val tt else Fail e) s') →
  runs (persist r) Q s.
Proof.
  intros Hm Hp Hc He HQ. apply runs_persist; [apply Hm|apply Hm|done|done|by rewrite (mid_phase _ _ _ Hm)|].
  intros ok e now x s' Hx Hv HJ. eapply HQ; [done|]. rewrite Hv, <- Hx. eapply Mid_saved; [by rewrite <- Hv|exact Hm].
Qed.

Lemma runs_take (Q : option nat → _ → Prop) s : Jv (view_of s) → v_busy (view_of s) = true →
  only (v_current (view_of s)) (view_of s) →
  (∀ s', Mid (SPhase (v_status (view_of s))) (v_current (view_of s)) (view_of s') → Q (v_current (view_of s)) s') →
  runs (locked (λ s, (current s, set_current None s))) Q s.
Proof.
  intros HJ Hb Ho HQ. apply runs_act. intros s' Hv HK. cbn [fst snd].
  assert (view_of (set_current None s') = with_current None (view_of s)) as Hv' by by rewrite <- Hv.
  assert (Jv (with_current None (view_of s))) as HJ'.
  { destruct HJ as [J1 J2 J3 J4 J5]. by constructor. }
  split; [rewrite Hv', Hv; split_and!|].
  - done.
  - by apply Ev_same_log; [constructor|..].
  - by eapply gens_ok_same; [|exact HK].
  - change (current s') with (v_current (view_of s')). rewrite Hv. apply HQ. rewrite Hv'. by constructor.
Qed.

(** Starting: the names are free, the record says so, compose runs. *)
Definition up_log (r : RuntimeRecord) (file : string) (l : list call) : Prop :=
  ∃ r1 rest, l = CSave r1 true :: CUp file (Val tt) :: rest ∧ Phase_ r1 = PhaseConfiguring ∧
    Generation_ r1 = Generation_ r ∧ RPackage r1 = RPackage r.

Lemma Jv_up file x v r names vs rest rs : Mid PhaseStarting None v →
  v_log v = CSave r true :: CContainersNamed names (Val []) :: CProjectResources (Val ([], [])) ::
     CExistingVolumes vs (Val []) :: CDown (Val tt) :: CMountedVolumes (Val vs) :: rest →
  Phase_ r = PhaseStarting → v_rec v = Some rs → Phase_ rs = PhaseStarting →
  Jv (calls [CUp file x] v) ∧ Ev v (calls [CUp file x] v).
Proof.
  intros [HJ Hc Hb Hp Ho] Hl Hr Hrs Hph. split.
  - destruct HJ as [J1 J2 J3 J4 J5]. constructor; try done.
    + intros Hcl. exact (J1 (clean_cons _ _ Hcl)).
    + split; [|done]. by exists r, names, vs, rest.
  - constructor; [constructor|done|]. intros f y _. split; [done|]. split; [|by exists rs].
    intros Hcl g z Hz. destruct (z.2) eqn:Hf; [done|]. by specialize (Ho Hcl g z Hz Hf).
Qed.

Lemma runs_up file r names vs rest rs (Q : res unit → _ → Prop) s : Mid PhaseStarting None (view_of s) →
  v_log (view_of s) = CSave r true :: CContainersNamed names (Val []) :: CProjectResources (Val ([], [])) ::
     CExistingVolumes vs (Val []) :: CDown (Val tt) :: CMountedVolumes (Val vs) :: rest →
  Phase_ r = PhaseStarting → v_rec (view_of s) = Some rs → Phase_ rs = PhaseStarting →
  (∀ x s', view_of s' = calls [CUp file x] (view_of s) → Mid PhaseStarting None (view_of s') → Q x s') →
  runs (perform (e_Up file) (CUp file)) Q s.
Proof.
  intros Hm Hl Hr Hrs Hph HQ. apply runs_act. intros s' Hv HK. destruct (e_Up file (env s')) as [x w]. cbn [fst snd].
  assert (view_of (logged (CUp file x) (set_env w s')) = calls [CUp file x] (view_of s)) as Hv'.
  { change (calls [CUp file x] (view_of s') = calls [CUp file x] (view_of s)). by rewrite Hv. }
  destruct (Jv_up file x (view_of s) r names vs rest rs Hm Hl Hr Hrs Hph) as [HJ He].
  split; [rewrite Hv', Hv; split_and!; [done|done|by eapply gens_ok_same; [|exact HK]]|].
  apply HQ; [done|]. rewrite Hv'. by apply Mid_calls.
Qed.

Definition broken (og : option nat) (v : view) : Prop := ∃ ph, persisted ph = true ∧ Mid ph og v.

Lemma broken_Mid ph og v : Mid ph og v → persisted ph = true → broken og v.
Proof. by exists ph. Qed.

Lemma Mid_unclean ph og og' v : ¬ clean (v_log v) → Mid ph og v → Mid ph og' v.
Proof. intros Hn [H1 H2 H3 H4 H5]. constructor; try done. by intros Hc. Qed.

Definition configured (p : plan) (r : RuntimeRecord) (v : view) : Prop :=
  ∃ l rest, v_log v = (l ++ rest)%list ∧ routes_calls (plan_routes p) l ∧ up_log r (composeFile p) rest.

Lemma runs_configure p r (Q : res Z → _ → Prop) s : Mid PhaseStarting None (view_of s) →
  (∃ rest, v_log (view_of s) = CUp (composeFile p) (Val tt) :: rest) →
  (∀ e s', broken None (view_of s') → Q (Fail e) s') →
  (∀ t s', Mid PhaseConfiguring None (view_of s') → configured p r (view_of s') → Q (Val t) s') → ∀ t : Z,
  runs (do& wrapped "configuring" (persist (with_phase PhaseConfiguring r)) in
        do& wrapped "configuring" (installRoutes opts (plan_routes p)) in Done (Val t)) Q s.
Proof.
  intros Hm [rest Hl] Hf Hok t. apply runs_res_bind, runs_wrapped.
  eapply runs_Mid_persist; [exact Hm|done|by apply save_ok|constructor|].
  intros ok e now x s1 Hv1 Hm1. destruct ok; [|apply Hf; eapply broken_Mid; [eassumption|done]].
  apply runs_res_bind, runs_wrapped, runs_installRoutes; [apply Hm1|].
  intros res rts l s2 Hv2 HJ2 Hres.
  assert (Mid PhaseConfiguring None (view_of s2)) as Hm2 by (rewrite Hv2 in *; by apply Mid_routed).
  destruct res as [[]|e']; [|apply Hf; eapply broken_Mid; [eassumption|done]]. destruct (Hres eq_refl) as [_ Hrc]. apply Hok; [done|].
  exists l, (v_log (view_of s1)). split; [by rewrite Hv2|]. split; [done|].
  exists (stamp now (with_phase PhaseConfiguring r)), rest. by rewrite Hv1, <- Hl.
Qed.

Lemma runs_switch_range p r (Q : res Z → _ → Prop) s : Jv (view_of s) → v_busy (view_of s) = true →
  SPhase (v_status (view_of s)) = PhasePreflight → only (v_current (view_of s)) (view_of s) →
  (∀ e s', broken None (view_of s') → Q (Fail e) s') →
  (∀ t s', Mid PhaseConfiguring None (view_of s') → configured p r (view_of s') → Q (Val t) s') →
  runs (switch_range opts p r) Q s.
Proof.
  intros HJ Hb Hph Ho Hf Hok. unfold switch_range. apply runs_bind, runs_take; [done..|].
  generalize (v_current (view_of s)). rewrite Hph. intros old s1 Hm1.
  apply runs_res_bind, runs_wrapped. eapply runs_Mid_persist; [exact Hm1|done|by apply save_ok|apply edge_stopping|].
  intros ok e now x s2 Hv2 Hm2. destruct ok.
  2:{ apply Hf. exists PhaseStopping. split; [done|]. eapply Mid_unclean; [|exact Hm2].
      rewrite Hv2. intros [Hc _]%Forall_cons. by specialize (Hc eq_refl). }
  apply runs_res_bind, runs_wrapped, runs_stop_old; [done|]. intros [[]|e'] s3 Hm3; [|apply Hf; eapply broken_Mid; [eassumption|done]].
  apply runs_res_bind, runs_wrapped, runs_teardown; [apply Hm3|]. intros res l s4 Hv4 HJ4 Hres.
  assert (Mid PhaseStopping None (view_of s4)) as Hm4 by (rewrite Hv4 in *; by apply Mid_calls).
  destruct res as [[]|e']; [|apply Hf; eapply broken_Mid; [eassumption|done]]. destruct (Hres eq_refl) as [vs ->].
  apply runs_res_bind, runs_wrapped, runs_perform; [done|done|]. intros held s5 Hv5 HJ5.
  assert (Mid PhaseStopping None (view_of s5)) as Hm5 by (rewrite Hv5 in *; by apply Mid_calls).
  destruct held as [held|e']; [|apply Hf; eapply broken_Mid; [eassumption|done]].
  apply runs_res_bind, runs_fail_when; intros Hh; [|apply Hf; eapply broken_Mid; [eassumption|done]].
  destruct held as [|]; [|done].
  apply runs_res_bind, runs_wrapped. eapply runs_Mid_persist; [exact Hm5|done|by apply save_ok|constructor|].
  intros ok e2 now2 x2 s6 Hv6 Hm6. destruct ok; [|apply Hf; eapply broken_Mid; [eassumption|done]].
  apply runs_bind, runs_ask; [apply Hm6|]. intros t s7 Hv7. rewrite <- Hv7 in Hm6.
  apply runs_res_bind, runs_wrapped.
  eapply runs_up; [exact Hm6|by rewrite Hv7, Hv6, Hv5, Hv4|done|by rewrite Hv7, Hv6|done|].
  intros y s8 Hv8 Hm8. destruct y as [[]|e']; [|apply Hf; eapply broken_Mid; [eassumption|done]].
  apply runs_configure; [done| |done|done]. eexists. by rewrite Hv8.
Qed.

(** ** The new generation *)
Definition with_gen (x : Z * Package * bool) (v : view) : view :=
  mkView (v_rec v) (v_loadErr v) (v_status v) (v_current v) (v_busy v) (v_gens v ++ [x])%list (v_disk v)
    (v_routes v) (v_log v).

Lemma Mid_with_gen ph x v : x.2 = false → Mid ph None v → Mid ph (Some (length (v_gens v))) (with_gen x v).
Proof.
  intros Hx [[J1 J2 J3 J4 J5] H1 H2 H3 H4].
  assert (clean (v_log v) → ∀ g y, (v_gens v ++ [x])%list !! g = Some y → y.2 = false → g = length (v_gens v)) as Hu.
  { intros Hc g y [Hg|[Hg Hy]]%lookup_app_Some Hf; [by specialize (H4 Hc g y Hg Hf)|].
    apply list_lookup_singleton_Some in Hy as [Hz _]. lia. }
  constructor; try done.
  - constructor; try done.
    + intros Hc g g' y y' Hg Hg' Hy Hy'. by rewrite (Hu Hc g y Hg Hy), (Hu Hc g' y' Hg' Hy').
    + intros g Hg. cbn in Hg. congruence.
  - intros Hc g y Hg Hf. by rewrite (Hu Hc g y Hg Hf).
Qed.

Lemma runs_new_generation ph G (Q : nat → _ → Prop) s : Mid ph None (view_of s) → gen_ok G → stopped G = false →
  (∀ s', view_of s' = with_gen (gen_view G) (view_of s) →
     Mid ph (Some (length (v_gens (view_of s)))) (view_of s') → Q (length (v_gens (view_of s))) s') →
  runs (new_generation G) Q s.
Proof.
  intros Hm HG Hs HQ. apply runs_act. intros s' Hv HK. cbn [fst snd]. set (s2 := set_gens _ _).
  assert (view_of s2 = with_gen (gen_view G) (view_of s)) as Hv2.
  { rewrite <- Hv. subst s2. unfold view_of, with_gen. cbn. by rewrite fmap_app. }
  assert (Mid ph (Some (length (v_gens (view_of s)))) (view_of s2)) as Hm2.
  { rewrite Hv2. by apply Mid_with_gen. }
  split; [split_and!|].
  - apply Hm2.
  - rewrite Hv2, Hv. by apply Ev_same_log; [constructor|..].
  - unfold gens_ok. cbn. apply Forall_app. split; [exact HK|by apply Forall_singleton].
  - replace (length (gens s')) with (length (v_gens (view_of s))) by (rewrite <- Hv; cbn; by rewrite length_fmap).
    by apply HQ.
Qed.

Lemma enter_ok name G id G' : gen_ok G → Generation_Enter name G = Some (id, G') → gen_ok G' ∧ gen_view G' = gen_view G.
Proof.
  unfold Generation_Enter. intros HG He. destruct (stopped G) eqn:Hs; [done|]. injection He as <- <-.
  split; [|done]. intros Hd. cbn in Hd. destruct (HG Hd). congruence.
Qed.

Lemma fmap_insert_same {A B} (f : A → B) i x y (l : list A) : l !! i = Some x → f y = f x → f <$> <[i := y]> l = f <$> l.
Proof. intros Hi Hf. rewrite list_fmap_insert, Hf. apply list_insert_id. by rewrite list_lookup_fmap, Hi. Qed.

Lemma enter_gen_ok g name s : gens_ok s → view_of (enter_gen g s name) = view_of s ∧ gens_ok (enter_gen g s name).
Proof.
  intros HK. unfold enter_gen. destruct (gens s !! g) as [G|] eqn:HG; [|done].
  destruct (Generation_Enter name G) as [[id G']|] eqn:He; [|done].
  destruct (enter_ok name G id G') as [Hok Hv]; [by eapply Forall_lookup_1 in HK|done|]. split.
  - unfold view_of. cbn. f_equal. by eapply fmap_insert_same.
  - unfold gens_ok. cbn. by apply Forall_insert.
Qed.

Lemma enters_ok g names s : gens_ok s →
  view_of (fold_left (enter_gen g) names s) = view_of s ∧ gens_ok (fold_left (enter_gen g) names s).
Proof.
  revert s. induction names as [|name names IH]; intros s HK; [done|]. cbn.
  destruct (enter_gen_ok g name s HK) as [Hv HK']. destruct (IH _ HK') as [Hv2 HK2]. by rewrite Hv2, Hv.
Qed.

Lemma runs_Activate g (Q : unit → _ → Prop) s : Jv (view_of s) →
  (∀ s', view_of s' = view_of s → Q tt s') → runs (Activate g) Q s.
Proof.
  intros HJ HQ. apply runs_act. intros s' Hv HK.
  assert (view_of (match gens s' !! g with
    | Some G => let (names, w) := e_Activate G (env s') in (tt, fold_left (enter_gen g) names (set_env w s'))
    | None => (tt, s') end).2 = view_of s ∧ gens_ok (match gens s' !! g with
    | Some G => let (names, w) := e_Activate G (env s') in (tt, fold_left (enter_gen g) names (set_env w s'))
    | None => (tt, s') end).2) as [Hv2 HK2].
  { destruct (gens s' !! g) as [G|]; [|done]. destruct (e_Activate G (env s')) as [names w]. cbn [snd].
    destruct (enters_ok g names (set_env w s')) as [H1 H2]; [by eapply gens_ok_same; [|exact HK]|].
    split; [|done]. rewrite H1. by rewrite <- Hv. }
  destruct (match gens s' !! g with Some G => _ | None => _ end) as [[] s2]. cbn [fst snd] in *.
  split; [|by apply HQ]. rewrite Hv2, Hv. split_and!; [done|apply Ev_refl|done].
Qed.

Lemma runs_last_apply client (Q : option string → _ → Prop) s : Jv (view_of s) →
  (∀ r s', view_of s' = view_of s → Q r s') → runs (last_apply client) Q s.
Proof. intros HJ HQ. apply runs_still; [done|]. intros s' Hv. split_and!; [done|done|]. by apply HQ. Qed.

Definition seeded (api pol : string) (l : list call) : Prop :=
  ∃ ws, l = [CImportConfig api pol (Val ws); CWaitReady api (Val tt)].

Lemma runs_seedPolicy p (Q : res unit → _ → Prop) s : Jv (view_of s) →
  (∀ r l s', view_of s' = calls l (view_of s) → Jv (view_of s') →
     (r = Val tt → seeded (firewallAPI p) (policy p) l) → Q r s') →
  runs (seedPolicy (firewallAPI p) p) Q s.
Proof.
  intros HJ HQ. apply runs_res_bind, runs_perform; [done|done|]. intros [[]|e] s1 Hv1 HJ1; [|by eapply HQ].
  apply runs_res_bind, runs_wrapped, runs_perform; [done|done|]. intros [ws|e] s2 Hv2 HJ2;
    (eapply HQ; [by rewrite Hv2, Hv1, calls_calls|done|]); [|done]. intros _. by exists ws.
Qed.

(** A job at its end: the phase is a resting one, and only the serving
    generation is live. *)
Record settled (v : view) : Prop := {
  se_J : Jv v;
  se_busy : v_busy v = true;
  se_resting : resting (SPhase (v_status v));
  se_only : only (v_current v) v
}.

(** The serving generation is the one of the record. *)
Lemma runs_serve g x r (Q : unit → _ → Prop) s : Mid PhaseReady (Some g) (view_of s) →
  v_gens (view_of s) !! g = Some x → x.2 = false → v_rec (view_of s) = Some r → Phase_ r = PhaseReady →
  x.1.1 = Generation_ r → Package_ID x.1.2 = RPackage r →
  (∀ s', settled (view_of s') → SPhase (v_status (view_of s')) = PhaseReady → Q tt s') →
  runs (locked (λ s, (tt, set_current (Some g) s))) Q s.
Proof.
  intros [HJ H1 H2 H3 H4] Hx Hf Hr Hp Hg Hpk HQ. apply runs_act. intros s' Hv HK. cbn [fst snd].
  assert (view_of (set_current (Some g) s') = with_current (Some g) (view_of s)) as Hv' by by rewrite <- Hv.
  assert (Jv (with_current (Some g) (view_of s))) as HJ'.
  { destruct HJ as [J1 J2 J3 J4 J5]. constructor; try done. intros g' [= <-]. exists x, r. split_and!; try done. by left. }
  split; [rewrite Hv', Hv; split_and!; [done|by apply Ev_same_log; [constructor|..]|by eapply gens_ok_same; [|exact HK]]|].
  apply HQ; rewrite Hv'; [|exact H3]. constructor; [done|done| |done]. cbn in *. rewrite H3. right. by left.
Qed.

Lemma ready_call p r l l' rest now ok receipt : seeded (firewallAPI p) (policy p) l → routes_calls (plan_routes p) l' →
  up_log r (composeFile p) rest →
  call_ok (CSave (stamp now (with_phase PhaseReady (with_containd receipt r))) ok) (l ++ l' ++ rest).
Proof.
  intros (ws & ->) (out1 & out2 & ->) (r1 & rest' & -> & H1 & H2 & H3) _. cbn [app].
  exists (firewallAPI p), (policy p), ws, out1, out2, (plan_routes p), r1, (composeFile p), rest'. done.
Qed.

Lemma runs_switchTo p (Q : option nat * option error → _ → Prop) s : Jv (view_of s) → v_busy (view_of s) = true →
  SPhase (v_status (view_of s)) = PhasePreflight → only (v_current (view_of s)) (view_of s) →
  (∀ og e s', broken og (view_of s') → Q (og, Some e) s') →
  (∀ og s', settled (view_of s') → Q (og, None) s') →
  runs (switchTo opts p) Q s.
Proof.
  intros HJ Hb Hph Ho Hf Hok. unfold switchTo. apply runs_bind, runs_record; [done|]. intros s1 Hv1.
  cbv zeta. set (r := next_record _ _ _). apply runs_bind, runs_switch_range; rewrite ?Hv1; try done.
  { intros e s2 Hbr. by apply Hf. }
  intros t s2 Hm2 (l' & rest & Hl & Hrc & Hup). apply runs_bind.
  eapply runs_new_generation; [exact Hm2|done|done|]. set (g := length _). intros s3 Hv3 Hm3.
  apply runs_bind, runs_seedPolicy; [apply Hm3|]. intros res l s4 Hv4 HJ4 Hres.
  assert (Mid PhaseConfiguring (Some g) (view_of s4)) as Hm4 by (rewrite Hv4 in *; by apply Mid_calls).
  destruct res as [[]|e]; [|apply Hf; eapply broken_Mid; [exact Hm4|done]].
  apply runs_bind, runs_last_apply; [done|]. intros receipt s5 Hv5. rewrite <- Hv5 in Hm4.
  apply runs_bind, runs_Activate; [apply Hm4|]. intros s6 Hv6. rewrite <- Hv6 in Hm4.
  apply runs_bind. eapply runs_Mid_persist; [exact Hm4|done| |constructor|].
  { intros now ok. rewrite Hv6, Hv5, Hv4, Hv3. cbn [calls with_gen v_log]. rewrite Hl. exact (ready_call p r l l' rest now ok receipt (Hres eq_refl) Hrc Hup). }
  intros ok e now x s7 Hv7 Hm7. destruct ok; [|apply Hf; eapply broken_Mid; [exact Hm7|done]].
  apply runs_bind. eapply runs_serve; [exact Hm7| |..].
  - rewrite Hv7, Hv6, Hv5, Hv4, Hv3. cbn. subst g. apply list_lookup_middle. done.
  - done.
  - by rewrite Hv7.
  - done.
  - done.
  - done.
  - intros s8 Hs8 _. by apply Hok.
Qed.

(** The end of a failed switch. *)
Lemma runs_fail p og e (Q : unit → _ → Prop) s : broken og (view_of s) →
  (∀ s', settled (view_of s') → Q tt s') → runs (fail_ opts p og e) Q s.
Proof.
  intros (ph & Hp & Hm) HQ. unfold fail_. apply runs_bind.
  assert (runs (match og with Some g => Stop opts g | None => Done (Val tt) end)
    (λ _ s', Mid ph None (view_of s')) s) as Hstop.
  { destruct og as [g|]; [|done]. apply runs_Stop; [apply Hm|apply Hm|]. intros r s' Hv HJ. rewrite Hv in *. by apply Mid_stopped. }
  eapply runs_mono; [exact Hstop|]. clear s Hm Hstop. intros sr s1 Hm1. cbv zeta.
  apply runs_bind, runs_teardown; [apply Hm1|]. intros res l s2 Hv2 HJ2 _.
  assert (Mid ph None (view_of s2)) as Hm2 by (rewrite Hv2 in *; by apply Mid_calls).
  apply runs_bind, runs_record; [done|]. intros s3 Hv3. rewrite <- Hv3 in Hm2.
  apply runs_bind. eapply runs_mono with (Q := λ _ s', Mid ph None (view_of s')).
  { destruct og as [g|]; [|done]. apply runs_bind, runs_last_apply; [apply Hm2|]. intros r s4 Hv4. cbn. by rewrite Hv4. }
  intros r s4 Hm4. apply runs_bind.
  assert (∀ r', runs (persist (with_phase PhaseFailed r'))
    (λ a s', runs ((λ _saved, Done tt) a) Q s') s4) as Hpersist.
  { intros r'. eapply runs_Mid_persist; [exact Hm4|done|by apply save_ok|by apply edge_failed|].
    intros ok e' now x s5 Hv5 [HJ5 Hc5 Hb5 Hp5 Ho5]. apply HQ.
    constructor; [done|done|rewrite Hp5; right; by right|by rewrite Hc5]. }
  case_bool_decide; apply Hpersist.
Qed.

Definition with_status (x : Status) (v : view) : view :=
  mkView (v_rec v) (v_loadErr v) x (v_current v) (v_busy v) (v_gens v) (v_disk v) (v_routes v) (v_log v).

Lemma Jv_status x v : (v_current v = None ∨ SPhase x = PhaseReady ∨ SPhase x = PhasePreflight) → Jv v → Jv (with_status x v).
Proof.
  intros Hx [J1 J2 J3 J4 J5]. constructor; try done. intros g Hg. destruct (J2 g Hg) as (y & r & H1 & H2 & H3 & H4 & H5 & H6 & _).
  exists y, r. split_and!; try done. destruct Hx as [Hx|]; [|done]. cbn in Hg. congruence.
Qed.

Lemma runs_transition pk previous (Q : unit → _ → Prop) s : Jv (view_of s) → v_busy (view_of s) = true →
  SPhase (v_status (view_of s)) = PhasePreflight → only (v_current (view_of s)) (view_of s) →
  resting (SPhase previous) → (v_current (view_of s) = None ∨ SPhase previous = PhaseReady) →
  (∀ s', settled (view_of s') → Q tt s') → runs (transition opts pk previous) Q s.
Proof.
  intros HJ Hb Hph Ho Hr Hc HQ. unfold transition. apply runs_bind, runs_preflight; [done|].
  intros [p|e] s1 Hv1 _.
  - apply runs_bind, runs_switchTo; rewrite ?Hv1; try done.
    intros og e s2 Hbr. by apply runs_fail.
  - apply runs_bind, runs_ask; [by rewrite Hv1|]. intros now s2 Hv2. apply runs_act. intros s3 Hv3 HK3. cbn [fst snd].
    set (x := status_failed _ _ _). assert (view_of (set_status x s3) = with_status x (view_of s)) as Hv'.
    { rewrite <- Hv1, <- Hv2, <- Hv3. done. }
    assert (Jv (with_status x (view_of s))) as HJ' by (apply Jv_status; [destruct Hc; auto|done]).
    split; [rewrite Hv', Hv3, Hv2, Hv1; split_and!|].
    + done.
    + apply Ev_same_log; [|done|done]. rewrite Hph. by apply edge_rejected.
    + by eapply gens_ok_same; [|exact HK3].
    + apply HQ. rewrite Hv'. constructor; [done|done|done|exact Ho].
Qed.

(** ** Reconciliation *)
Lemma runs_recover r reason ph (Q : unit → _ → Prop) s : Mid ph None (view_of s) → persisted ph = true →
  (∀ s', settled (view_of s') → SPhase (v_status (view_of s')) = PhaseFailed → Q tt s') → runs (recoverInterrupted r reason) Q s.
Proof.
  intros Hm Hp HQ. unfold recoverInterrupted. apply runs_bind, runs_teardown; [apply Hm|]. intros res l s1 Hv1 HJ1 _.
  assert (Mid ph None (view_of s1)) as Hm1 by (rewrite Hv1 in *; by apply Mid_calls). cbv zeta. apply runs_bind.
  eapply runs_Mid_persist; [exact Hm1|done|by apply save_ok|by apply edge_failed|].
  intros ok e' now x s2 Hv2 [HJ2 Hc2 Hb2 Hp2 Ho2]. apply HQ; [|exact Hp2].
  constructor; [done|done|rewrite Hp2; right; by right|by rewrite Hc2].
Qed.

Lemma runs_ask_result {A} (op : W → A * W) (Q : A → _ → Prop) s : Jv (view_of s) →
  (∀ w s', view_of s' = view_of s → Q (op w).1 s') → runs (ask op) Q s.
Proof.
  intros HJ HQ. apply runs_still; [done|]. intros s' Hv. specialize (HQ (env s')).
  destruct (op (env s')) as [a w]. cbn in *. split_and!; [by rewrite <- Hv|done|]. apply HQ. by rewrite <- Hv.
Qed.

Lemma find_package_id catalog id pk : find_package catalog id = Some pk → Package_ID pk = id.
Proof.
  unfold find_package. destruct catalog as [l|]; [|done]. intros [_ Hid]%find_some. by apply String.eqb_eq.
Qed.

(** Adopting a ready range; what fails before leaves the view but for calls. *)
Lemma runs_adopt r pk man api (Q : res unit → _ → Prop) s : Mid PhaseReady None (view_of s) →
  v_rec (view_of s) = Some r → Phase_ r = PhaseReady → Package_ID pk = RPackage r →
  (∀ s', settled (view_of s') → SPhase (v_status (view_of s')) = PhaseReady → Q (Val tt) s') →
  runs (let- g := new_generation (NewGeneration (Generation_ r) pk man api (RUpdatedAt r)) in
        do- Activate g in
        do- locked (λ s, (tt, set_current (Some g) s)) in Done (Val tt)) Q s.
Proof.
  intros Hm Hr Hp Hpk HQ. apply runs_bind. eapply runs_new_generation; [exact Hm|done|done|].
  intros s1 Hv1 Hm1. apply runs_bind, runs_Activate; [apply Hm1|]. intros s2 Hv2. rewrite <- Hv2 in Hm1.
  apply runs_bind. eapply runs_serve;
    [exact Hm1|rewrite Hv2, Hv1; by apply list_lookup_middle|done|by rewrite Hv2, Hv1|done|done|done|exact HQ].
Qed.

Lemma runs_reconcileReady r (Q : res unit → _ → Prop) s : Mid PhaseReady None (view_of s) →
  v_rec (view_of s) = Some r → Phase_ r = PhaseReady →
  (∀ e s', Mid PhaseReady None (view_of s') → Q (Fail e) s') →
  (∀ s', settled (view_of s') → SPhase (v_status (view_of s')) = PhaseReady → Q (Val tt) s') →
  runs (reconcileReady opts r) Q s.
Proof.
  intros Hm Hr Hp Hf Hok.
  unfold reconcileReady. apply runs_res_bind, runs_fail_when; intros _; [|by apply Hf].
  apply runs_res_bind, runs_ask_result; [apply Hm|]. intros w s1 Hv1. rewrite <- Hv1 in Hm, Hr. cbn [fst].
  destruct (find_package _ _) as [pk|] eqn:Hpk; [|by apply Hf].
  apply find_package_id in Hpk.
  apply runs_res_bind, runs_ask; [apply Hm|]. intros man s2 Hv2. rewrite <- Hv2 in Hm, Hr. destruct man as [man|e]; [|by apply Hf].
  apply runs_res_bind. cbn [runs]. destruct (Endpoint man "firewall" "api") as [api|]; [|by apply Hf].
  apply runs_res_bind, runs_perform; [apply Hm|done|]. intros present s3 Hv3 HJ3.
  assert (Mid PhaseReady None (view_of s3)) as Hm3 by (rewrite Hv3 in *; by apply Mid_calls).
  assert (v_rec (view_of s3) = Some r) as Hr3 by by rewrite Hv3. destruct present as [present|e]; [|by apply Hf]. cbv zeta.
  apply runs_res_bind, runs_fail_when; intros _; [|by apply Hf].
  apply runs_res_bind, runs_wrapped, runs_ask; [done|]. intros content s4 Hv4. rewrite <- Hv4 in Hm3, Hr3.
  destruct content as [content|e]; [|by apply Hf].
  apply runs_res_bind, runs_wrapped, runs_still; [apply Hm3|]. intros s5 Hv5.
  assert (∀ w', view_of (set_env w' s5) = view_of s4) as Hv5' by (intros w'; by rewrite <- Hv5).
  destruct (e_ReadRoutes (env s5)) as [[e|] w']; cbn [fst snd]; (split; [apply Hv5'|]; split; [done|]).
  { apply Hf. by rewrite Hv5'. }
  rewrite <- (Hv5' w') in Hm3, Hr3. generalize (set_env w' s5) Hm3 Hr3.
  clear Hm3 Hr3. intros s6 Hm6 Hr6. apply runs_res_bind, runs_fail_when; intros _; [|by apply Hf].
  apply runs_res_bind, runs_wrapped, runs_perform; [apply Hm6|done|]. intros ready s7 Hv7 HJ7.
  assert (Mid PhaseReady None (view_of s7)) as Hm7 by (rewrite Hv7 in *; by apply Mid_calls).
  destruct ready as [[]|e]; [|by apply Hf]. apply runs_adopt; try done. by rewrite Hv7.
Qed.

Lemma runs_reconcile (Q : unit → _ → Prop) s ph : Mid ph None (view_of s) → persisted ph = true →
  (∀ r, v_loadErr (view_of s) = None → v_rec (view_of s) = Some r → ph = Phase_ r) →
  (∀ s', settled (view_of s') → (SPhase (v_status (view_of s')) = PhaseFailed ∨
     ph = PhaseReady ∧ SPhase (v_status (view_of s')) = PhaseReady) → Q tt s') → runs (reconcile opts) Q s.
Proof.
  intros Hm Hp Hrec HQ. unfold reconcile. apply runs_bind, runs_still; [apply Hm|]. intros s1 Hv1.
  split; [done|]. split; [done|]. cbn [fst snd]. cbv zeta.
  change (loadErr s1) with (v_loadErr (view_of s1)). change (rec_ s1) with (v_rec (view_of s1)).
  rewrite <- Hv1 in Hm, Hrec.
  assert (∀ r reason, runs (recoverInterrupted r reason) Q s1) as Hrecover.
  { intros r reason. eapply runs_recover; [exact Hm|done|]. auto. }
  destruct (v_loadErr (view_of s1)) as [e|] eqn:Hle; [apply Hrecover|].
  destruct (v_rec (view_of s1)) as [r|] eqn:Hr; cbn [snd].
  - specialize (Hrec r eq_refl eq_refl). case_bool_decide as Hready; [|apply Hrecover].
    apply runs_bind. rewrite Hrec, Hready in Hm.
    eapply runs_reconcileReady; [exact Hm|done|done| |intros s2 Hs2 Hp2; apply HQ; [done|right; split; [congruence|done]]].
    intros e s2 Hm2. apply runs_bind. eapply runs_Mid_persist; [exact Hm2|done|by apply save_ok|by apply edge_failed|].
    intros ok e' now x s3 Hv3 [HJ3 Hc3 Hb3 Hp3 Ho3]. apply HQ; [|left; exact Hp3].
    constructor; [done|done|rewrite Hp3; right; by right|by rewrite Hc3].
  - case_bool_decide; [done|]. apply Hrecover.
Qed.

(** ** Every reachable system *)
Record idle (v : view) : Prop := {
  id_J : Jv v;
  id_busy : v_busy v = false;
  id_resting : resting (SPhase (v_status v));
  id_only : only (v_current v) v
}.

Definition finishing : job (W := W) unit := locked (λ s, (tt, set_busy false s)).

Definition SI (x : system (W := W)) : Prop :=
  gens_ok (st x) ∧
  match running x with
  | None => idle (view_of (st x))
  | Some m => ∃ m0 : job unit, m = prog_bind m0 (λ _, finishing) ∧ Jv (view_of (st x)) ∧ v_busy (view_of (st x)) = true ∧
      runs m0 (λ _ s', settled (view_of s')) (st x)
  end.

Lemma settled_idle s : settled (view_of s) → idle (view_of (set_busy false s)).
Proof. intros [[J1 J2 J3 J4 J5] H2 H3 H4]. by constructor; [constructor|..]. Qed.

Lemma SI_J x : SI x → Jv (view_of (st x)).
Proof. intros [_ Hr]. destruct (running x); [by destruct Hr as (m0 & _ & HJ & _)|apply Hr]. Qed.

(** What others do between the steps of a job. *)
Lemma SI_quiet x s' : SI x → view_of s' = view_of (st x) → gens_ok s' → SI (mkSystem s' (running x)).
Proof.
  intros [HK Hr] Hv HK'. split; [done|]. cbn [running st]. destruct (running x) as [m|]; [|by rewrite Hv].
  destruct Hr as (m0 & Hm & HJ & Hb & Hruns). exists m0. rewrite Hv. split_and!; [done..|].
  eapply runs_quiet; [exact Hv|intros _; by rewrite Hv|exact Hruns].
Qed.

(** A step of the job: either still a job, or at rest. *)
Lemma SI_job x : SI x → SI (step opts Job x) ∧
  phase_edge (SPhase (v_status (view_of (st x)))) (SPhase (v_status (view_of (st (step opts Job x))))) ∧
  ∀ file r, v_log (view_of (st (step opts Job x))) = CUp file r :: v_log (view_of (st x)) →
    v_current (view_of (st x)) = None ∧ (clean (v_log (view_of (st x))) → all_stopped (view_of (st x))) ∧
    ∃ y, v_rec (view_of (st x)) = Some y ∧ Phase_ y = PhaseStarting.
Proof.
  intros Hx. pose proof Hx as [HK Hr]. unfold step.
  assert (∀ v : view, ∀ file r, v_log v = CUp file r :: v_log v → False) as Hno.
  { intros v file r Hl. apply (f_equal length) in Hl. cbn in Hl. lia. }
  destruct (running x) as [m|]; [|split; [done|split; [constructor|intros file r Hl; by apply Hno in Hl]]].
  destruct Hr as (m0 & -> & HJ & Hb & Hruns). destruct m0 as [[]|f k]; cbn [prog_bind finishing locked act fst snd st running].
  - split; [split|split].
    + by eapply gens_ok_same; [|exact HK].
    + by apply settled_idle.
    + constructor.
    + intros file r Hl. exfalso. exact (Hno (view_of (st x)) file r Hl).
  - destruct (Hruns (st x) eq_refl HK) as [(HJ' & [He Hbusy Hup] & HK') Hruns']. split; [|done].
    split; [done|]. cbn [running st]. set (m := prog_bind (k (st x)) _).
    assert (SI (mkSystem (f (st x)) (Some m))) as [_ HSI].
    { split; [done|]. exists (k (st x)). cbn [st]. split_and!; [done|done|by rewrite Hbusy|done]. }
    subst m. destruct (k (st x)) as [[]|f' k']; exact HSI.
Qed.

Lemma SI_launch m s : gens_ok s → Jv (view_of s) → v_busy (view_of s) = true →
  runs m (λ _ s', settled (view_of s')) s → SI (mkSystem s (Some (launch m))).
Proof. intros HK HJ Hb Hm. split; [done|]. by exists m. Qed.

(** The start of a process. *)
Lemma New_view s : Jv (view_of s) →
  gens (New opts s) = [] ∧ Jv (view_of (New opts s)) ∧ v_busy (view_of (New opts s)) = false ∧
  v_current (view_of (New opts s)) = None ∧ log (New opts s) = log s ∧
  match Store_Load (StorePath opts) (disk s) with
  | Fail e => loadErr (New opts s) = Some e ∧ SPhase (status (New opts s)) = PhaseFailed
  | Val None => loadErr (New opts s) = None ∧ rec_ (New opts s) = None ∧ SPhase (status (New opts s)) = PhaseNone
  | Val (Some r) => loadErr (New opts s) = None ∧ rec_ (New opts s) = Some r ∧
      SPhase (status (New opts s)) = Phase_ r ∧ persisted (Phase_ r) = true
  end.
Proof.
  intros [J1 J2 J3 J4 J5]. unfold New.
  destruct (Store_Load (StorePath opts) (disk s)) as [[r|]|e] eqn:Hl; [..|destruct (e_Now (env s)) as [now w]].
  1: assert (record_ok r) as Hr.
  1:{ unfold Store_Load in Hl. destruct (disk s) as [|e|r']; [done|done|]. destruct (Z.eqb_spec (Schema r') RecordSchema) as [Hs|]; [|done].
      cbn [negb] in Hl. destruct (persisted (Phase_ r')) eqn:Hp; [|done]. injection Hl as <-. done. }
  all: split; [done|]; split; [constructor; try done|do 3 (split; [done|]); try done].
  - by intros r' [= <-].
  - by split_and!; [..|apply Hr].
Qed.

(** Either nothing is to be done, or the record is to be reconciled. *)
Lemma process_cases s : Jv (view_of s) →
  log (st (process opts s)) = log s ∧ gens_ok (st (process opts s)) ∧
  (running (process opts s) = None ∧ idle (view_of (st (process opts s))) ∧
     match Store_Load (StorePath opts) (disk s) with
     | Val None => SPhase (v_status (view_of (st (process opts s)))) = PhaseNone
     | Val (Some _) => SPhase (v_status (view_of (st (process opts s)))) = PhaseFailed
     | Fail _ => False
     end ∨
   running (process opts s) = Some (launch (reconcile opts)) ∧
   ∃ ph, Mid ph None (view_of (st (process opts s))) ∧ persisted ph = true ∧
     match Store_Load (StorePath opts) (disk s) with
     | Val None => False
     | Val (Some r) => ph = Phase_ r
     | Fail _ => ph = PhaseFailed
     end ∧
     ∀ r, v_loadErr (view_of (st (process opts s))) = None → v_rec (view_of (st (process opts s))) = Some r →
       ph = Phase_ r).
Proof.
  intros HJ. destruct (New_view s HJ) as (Hg & HJ' & Hb & Hc & Hlog & Hcase).
  unfold process, Start. cbn [st]. set (s1 := New opts s) in *.
  assert (gens_ok s1) as HK by (unfold gens_ok; rewrite Hg; by apply Forall_nil_2).
  assert (only None (view_of s1)) as Ho by (intros _ g x Hx; cbn in Hx; by rewrite Hg in Hx).
  change (busy s1) with (v_busy (view_of s1)). rewrite Hb. cbn [orb].
  set (s2 := set_busy true s1).
  assert (∀ ph, SPhase (status s1) = ph → Mid ph None (view_of s2)) as HM.
  { intros ph Hph. destruct HJ' as [J1 J2 J3 J4 J5]. constructor; [by constructor|done..]. }
  assert (gens_ok s2) as HK2 by by eapply gens_ok_same; [|exact HK].
  assert (resting (SPhase (status s1)) → idle (view_of s1)) as Hidle.
  { intros Hrest. constructor; [done|done|done|by rewrite Hc]. }
  destruct (Store_Load _ _) as [[r|]|e].
  - destruct Hcase as (Hle & Hr & Hph & Hp). rewrite Hle, Hr. case_bool_decide as Hf; (split; [done|]; split; [done|]).
    + left. rewrite Hph, Hf in Hidle. split_and!; [done|apply Hidle; right; by right|cbn; congruence].
    + right. split; [done|]. exists (Phase_ r). split_and!; [by apply HM|done|done|]. cbn. rewrite Hr. by intros ? _ [= <-].
  - destruct Hcase as (Hle & Hr & Hph). rewrite Hle, Hr. split; [done|]. split; [done|]. left.
    rewrite Hph in Hidle. split_and!; [done|apply Hidle; by left|done].
  - destruct Hcase as (Hle & Hph). rewrite Hle. split; [done|]. split; [done|]. right. split; [done|].
    exists PhaseFailed. split_and!; [by apply HM|done|done|]. cbn. congruence.
Qed.

Lemma SI_process s : Jv (view_of s) → SI (process opts s).
Proof.
  intros HJ. destruct (process_cases s HJ) as (_ & HK & [(Hr & Hi & _)|(Hr & ph & Hm & Hp & _ & Hrec)]).
  - split; [done|]. by rewrite Hr.
  - destruct (process opts s) as [s' r]. cbn [st running] in *. subst r.
    apply SI_launch; [done|apply Hm|apply Hm|]. eapply runs_reconcile; [exact Hm|done|done|done].
Qed.

Lemma SI_request id x : SI x → SI (Request opts id x).2 ∧
  phase_edge (SPhase (v_status (view_of (st x)))) (SPhase (v_status (view_of (st (Request opts id x).2)))).
Proof.
  intros Hx. pose proof Hx as [HK Hr]. unfold Request. destruct (busy (st x)) eqn:Hb; [split; [done|constructor]|].
  destruct (find_package _ _) as [pk|]; [|split; [done|constructor]].
  destruct (e_Now (env (st x))) as [now w]. cbn [snd st].
  destruct (running x) as [m|]; [destruct Hr as (m0 & _ & _ & Hb' & _); cbn in Hb'; congruence|].
  destruct Hr as [HJ _ Hrest Ho]. set (s2 := set_busy true _).
  assert (view_of s2 = with_status (status s2) (view_of (set_busy true (st x)))) as Hv2 by done.
  assert (Jv (view_of (set_busy true (st x)))) as HJ1 by (destruct HJ; by constructor).
  assert (Jv (view_of s2)) as HJ2 by (rewrite Hv2; apply Jv_status; [right; by right|done]).
  split; [|by apply edge_request]. apply SI_launch; [by eapply gens_ok_same; [|exact HK]|done|done|].
  apply runs_transition; try done. destruct (v_current (view_of (st x))) as [g|] eqn:Hc; [right|by left].
  destruct (j_current _ HJ g Hc) as (y & r & _ & _ & _ & _ & _ & _ & [Hp|Hp]); [done|].
  rewrite Hp in Hrest. by destruct Hrest as [|[|]].
Qed.

Lemma leave_ok id G : gen_ok G → gen_ok (leave id G).
Proof.
  intros HG. apply close_ok. intros Hd. cbn in *. destruct (HG Hd) as [Hs ->]. by rewrite Hs.
Qed.

Lemma view_leave g id s : view_of (at_gen g (leave id) s) = view_of s.
Proof.
  unfold at_gen, view_of. cbn. f_equal. apply list_alter_fmap_id. intros G. unfold leave. by rewrite gen_view_close.
Qed.

Lemma Manager_Enter_quiet name s : gens_ok s →
  view_of (Manager_Enter name s).2 = view_of s ∧ gens_ok (Manager_Enter name s).2.
Proof.
  intros HK. unfold Manager_Enter. destruct (current s) as [g|]; [|done]. destruct (_ && _); [done|].
  pose proof (enter_gen_ok g name s HK) as He. unfold enter_gen in He.
  destruct (gens s !! g) as [G|]; [|done]. destruct (Generation_Enter name G) as [[id G']|]; done.
Qed.

(** Inputs other than a step of the job, a request and a crash. *)
Lemma quiet_input i x : SI x → match i with Job | InRequest _ | Crash => False | _ => True end →
  ∃ s', step opts i x = mkSystem s' (running x) ∧ view_of s' = view_of (st x) ∧ gens_ok s'.
Proof.
  intros [HK _] Hi. destruct i as [|id|name|g name|g id|w|]; try done; cbn [step]; eexists; (split; [done|]).
  - by apply Manager_Enter_quiet.
  - by apply enter_gen_ok.
  - split; [apply view_leave|]. apply gens_ok_alter; [apply leave_ok|done].
  - split; [done|]. by eapply gens_ok_same; [|exact HK].
Qed.

Lemma SI_step i x : SI x → SI (step opts i x).
Proof.
  intros Hx. destruct i as [|id|name|g name|g id|w|]; [by apply SI_job|by apply SI_request|..|apply SI_process, SI_J, Hx].
  all: match goal with |- SI (step _ ?i _) => destruct (quiet_input i x Hx I) as (s' & -> & Hv & HK) end; by apply SI_quiet.
Qed.

Lemma reachable_SI rts w x : reachable opts d0 rts w x → SI x.
Proof.
  induction 1 as [|i x _ IH]; [|by apply SI_step]. apply SI_process. constructor; try done. by left.
Qed.

Lemma log_ok_split l1 c l2 : log_ok (l1 ++ c :: l2) → call_ok c l2.
Proof. induction l1 as [|c' l1 IH]; intros [Hc Hl]; [done|by apply IH]. Qed.
End LifecycleInv.
