(* ===== verification/LifecycleCorrect.v ===== *)
(** * The range lifecycle: what it promises

    For every environment and every interleaving of jobs, requests, workers
    and crashes: who serves, in which order the range is replaced, how the
    phases follow each other, that jobs end, and that a restart recovers. *)
From S2P Require Import Prelude GoLib GoText Lifecycle LifecycleInv.

#[local] Open Scope string_scope.
#[local] Open Scope Z_scope.

Section LifecycleCorrect.
Context {W : Type} `{Env W} (opts : Options) (d0 : Disk) (rts : option string) (w0 : W).
Implicit Types (s : state (W := W)) (x : system (W := W)).

Notation reachable := (reachable opts d0 rts w0).

(** A generation and its view. *)
Lemma view_gen s g G : gens s !! g = Some G → v_gens (view_of s) !! g = Some (gen_view G).
Proof. intros HG. cbn. by rewrite list_lookup_fmap, HG. Qed.
Lemma view_gen_inv s g y : v_gens (view_of s) !! g = Some y → ∃ G, gens s !! g = Some G ∧ gen_view G = y.
Proof. cbn. rewrite list_lookup_fmap. destruct (gens s !! g) as [G|]; [|done]. intros [= <-]. by exists G. Qed.

(** C13. One range at a time.  A job runs exactly while the manager is busy.  A
    serving generation is live, is the one of a record that says ready, and is
    served in the phases ready and preflight only.  As long as no write of the
    phase stopping has failed, there is at most one live generation, and
    between jobs it is the serving one. *)
Theorem range_exclusive x : reachable x →
  (running x = None ↔ busy (st x) = false) ∧
  (∀ g, current (st x) = Some g → ∃ G r, gens (st x) !! g = Some G ∧ stopped G = false ∧
     rec_ (st x) = Some r ∧ Phase_ r = PhaseReady ∧ GID G = Generation_ r ∧
     Package_ID (GPackage G) = RPackage r ∧
     (SPhase (status (st x)) = PhaseReady ∨ SPhase (status (st x)) = PhasePreflight)) ∧
  (clean (log (st x)) → ∀ g g' G G', gens (st x) !! g = Some G → gens (st x) !! g' = Some G' →
     stopped G = false → stopped G' = false →
     g = g' ∧ (running x = None → current (st x) = Some g)).
Proof.
  intros Hx%reachable_SI. pose proof (SI_J _ _ Hx) as HJ. destruct Hx as [_ Hr]. split_and!.
  - destruct (running x) as [m|]; [destruct Hr as (m0 & _ & _ & Hb & _); cbn in Hb; by rewrite Hb|].
    split; [intros _; apply Hr|done].
  - intros g Hg. destruct (j_current _ _ HJ g Hg) as (y & r & Hy & Hs & H1 & H2 & H3 & H4 & H5).
    apply view_gen_inv in Hy as (G & HG & <-). by exists G, r.
  - intros Hc g g' G G' HG HG' Hs Hs'. apply view_gen in HG, HG'. split; [by eapply (j_unique _ _ HJ Hc)|].
    intros Hrun. rewrite Hrun in Hr. exact (id_only _ _ Hr Hc g _ HG Hs).
Qed.

(** C15. The order in which a range is replaced.  Every start of a range comes
    right after a teardown that found no container, network or volume left,
    the check that the new container names are free, and the record of the
    phase starting; at that moment nothing serves and every generation is
    stopped.  Every record that says ready comes right after the successful
    start, the installation of the routes with nginx's test and reload, the
    answer of the firewall and the import of the policy, and belongs to the
    generation and package recorded when the configuration began. *)
Theorem range_replaced x : reachable x →
  (∀ l1 c l2, log (st x) = (l1 ++ c :: l2)%list → call_ok c l2) ∧
  (∀ file r, log (st (step opts Job x)) = CUp file r :: log (st x) →
     current (st x) = None ∧ (∃ y, rec_ (st x) = Some y ∧ Phase_ y = PhaseStarting) ∧
     (clean (log (st x)) → ∀ g G, gens (st x) !! g = Some G → stopped G = true)).
Proof.
  intros Hx%reachable_SI. split.
  - intros l1 c l2 Hl. pose proof (j_log _ _ (SI_J _ _ Hx)) as Hlog. cbn in Hlog. rewrite Hl in Hlog.
    by apply log_ok_split in Hlog.
  - intros file r Hl. destruct (SI_job opts d0 x Hx) as (_ & _ & Hup).
    destruct (Hup file r Hl) as (H1 & H2 & H3). split_and!; [done|done|].
    intros Hc g G HG. exact (H2 Hc g _ (view_gen _ _ _ HG)).
Qed.

(** The phases of the status follow the lifecycle: from rest to preflight
    and back or on to stopping, then starting, configuring and ready, and to
    failed from any recorded phase; no input but a restart changes the phase
    otherwise. *)
Theorem lifecycle_phases x i : reachable x → i ≠ Crash →
  phase_edge (SPhase (status (st x))) (SPhase (status (st (step opts i x)))).
Proof.
  intros Hx%reachable_SI Hi.
  assert (match i with Job | InRequest _ | Crash => False | _ => True end →
    phase_edge (SPhase (status (st x))) (SPhase (status (st (step opts i x))))) as Hquiet.
  { intros Hq. destruct (quiet_input opts d0 i x Hx Hq) as (s' & -> & Hv & _).
    change (status (st x)) with (v_status (view_of (st x))). rewrite <- Hv. constructor. }
  destruct i as [|id|name|g name|g id|w|]; try (by apply Hquiet).
  - apply (SI_job opts d0 x Hx).
  - apply (SI_request opts d0 id x Hx).
Qed.

(** ** Jobs end *)
Fixpoint schedule (sched : nat → input) (n : nat) x : system :=
  match n with
  | O => x
  | S n => schedule (λ k, sched (S k)) n (step opts (sched O) x)
  end.

(** A schedule without crashes in which the job gets its turn again and again. *)
Definition fair (sched : nat → input (W := W)) : Prop :=
  (∀ n, sched n ≠ Crash) ∧ ∀ n, ∃ k, (n ≤ k)%nat ∧ sched k = Job.

Lemma fair_next sched : fair sched → fair (λ n, sched (S n)).
Proof.
  intros [Hc Hj]. split; [intros n; apply Hc|]. intros n. destruct (Hj (S n)) as (k & Hk & Hs).
  exists (pred k). split; [lia|]. by rewrite (Nat.succ_pred_pos k) by lia.
Qed.

(** An input that is not a step of the job leaves the job alone. *)
Lemma waits i x m : SI d0 x → running x = Some m → i ≠ Job → i ≠ Crash →
  ∃ s', step opts i x = mkSystem s' (Some m) ∧ view_of s' = view_of (st x).
Proof.
  intros Hx Hm Hj Hc.
  assert (match i with Job | InRequest _ | Crash => False | _ => True end →
    ∃ s', step opts i x = mkSystem s' (Some m) ∧ view_of s' = view_of (st x)) as Hquiet.
  { intros Hq. destruct (quiet_input opts d0 i x Hx Hq) as (s' & -> & Hv & _). exists s'. by rewrite Hm. }
  destruct i as [|id|name|g name|g id|w|]; try done; try by apply Hquiet.
  exists (st x). cbn [step]. unfold Request. pose proof Hx as [_ Hr]. rewrite Hm in Hr.
  destruct Hr as (m0 & _ & _ & Hb & _). cbn in Hb. rewrite Hb. destruct x. cbn in Hm. by subst.
Qed.

Lemma next_job (i : input (W := W)) : i = Job ∨ i ≠ Job.
Proof. by destruct i; [left|right..]. Qed.

(** The end of a job, for a property [T] of what is left of the job and of the
    view, which the steps of the job preserve. *)
Lemma ends (T : job (W := W) unit → view → Prop) :
  (∀ f k s, T (Act f k) (view_of s) → gens_ok s → T (k s) (view_of (f s))) →
  ∀ m0 sched x, SI d0 x → running x = Some (prog_bind m0 (λ _, finishing)) → T m0 (view_of (st x)) → fair sched →
  ∃ n s, running (schedule sched n x) = None ∧ T (Done tt) (view_of s) ∧
    view_of (st (schedule sched n x)) = view_of (set_busy false s).
Proof.
  intros HT m0. induction m0 as [[]|f k IH]; intros sched x Hx Hm Ht Hf.
  all: destruct (proj2 Hf O) as (j & _ & Hjob); revert sched x Hx Hm Ht Hf Hjob.
  all: induction j as [|j IHj]; intros sched x Hx Hm Ht Hf Hjob; destruct (next_job (sched O)) as [H0|H0]; try done.
  1,2: exists 1%nat, (st x); cbn [schedule]; rewrite H0; cbn [step]; by rewrite Hm.
  2,3: assert (SI d0 (step opts (sched O) x)) as Hx' by (by apply SI_step);
    rewrite H0 in Hx'; cbn [step] in Hx'; rewrite Hm in Hx'; cbn [prog_bind] in Hx'.
  2,3: destruct (IH (st x) (λ n, sched (S n)) (step opts (sched O) x)) as (n & s & Hn);
    [by rewrite H0; cbn [step]; rewrite Hm| | |by apply fair_next|by exists (S n), s].
  2,4: rewrite H0; cbn [step]; rewrite Hm; cbn [prog_bind running]; by destruct (k (st x)) as [[]|].
  2,3: rewrite H0; cbn [step]; rewrite Hm; apply HT; [done|apply Hx].
  all: destruct (waits (sched O) x _ Hx Hm H0 (proj1 Hf O)) as (s' & He & Hv).
  all: destruct (IHj (λ n, sched (S n)) (step opts (sched O) x)) as (n & s & Hn);
    [by apply SI_step|by rewrite He|by rewrite He; cbn [st]; rewrite Hv|by apply fair_next|done|by exists (S n), s].
Qed.

(** Every job ends: under any schedule in which the job gets its turn again
    and again, with any requests and workers in between and whatever the
    environment answers, the manager becomes idle. *)
Theorem jobs_end x (sched : nat → input) : reachable x → fair sched →
  ∃ n, running (schedule sched n x) = None ∧ busy (st (schedule sched n x)) = false.
Proof.
  intros Hx%reachable_SI Hf. pose proof Hx as [_ Hr]. destruct (running x) as [m|] eqn:Hm.
  - destruct Hr as (m0 & -> & _). destruct (ends (λ _ _, True)) with (m0 := m0) (sched := sched) (x := x)
      as (n & s & Hn & _ & Hv); [done..|]. exists n. split; [done|]. by apply (f_equal v_busy) in Hv.
  - exists O. split; [done|]. apply Hr.
Qed.

(** ** Recovery after a crash *)

(** What a job adds to the log satisfies [P]. *)
Fixpoint logs (P : call → Prop) {A} (m : job (W := W) A) : Prop :=
  match m with
  | Done _ => True
  | Act f k => ∀ s, (∃ l, log (f s) = (l ++ log s)%list ∧ Forall P l) ∧ logs P (k s)
  end.

Lemma logs_bind P {A B} (m : job A) (k : A → job B) : logs P m → (∀ a, logs P (k a)) → logs P (prog_bind m k).
Proof. intros Hm Hk. induction m as [a|f n IH]; [apply Hk|]. intros s. destruct (Hm s) as [Hl Hr]. split; [done|by apply IH]. Qed.
Lemma logs_res_bind P {A B} (m : job (res A)) (k : A → job (res B)) :
  logs P m → (∀ a, logs P (k a)) → logs P (res_bind m k).
Proof. intros Hm Hk. apply logs_bind; [done|]. by intros [a|e]; [apply Hk|]. Qed.
Lemma logs_wrapped P {A} context (m : job (res A)) : logs P m → logs P (wrapped context m).
Proof. intros Hm. apply logs_bind; [done|]. by intros [a|e]. Qed.

(** A step that calls nothing, and one that calls once. *)
Lemma logs_act P {A} (g : state (W := W) → A * state (W := W)) : (∀ s, log (g s).2 = log s) → logs P (act g).
Proof. intros Hg s. split; [|done]. exists []. by split; [apply Hg|]. Qed.
Lemma logs_ask P {A} (op : W → A * W) : logs P (ask op).
Proof. apply logs_act. intros s. by destruct (op (env s)). Qed.
Lemma logs_perform P {A} (op : W → A * W) ev : (∀ a, P (ev a)) → logs P (perform op ev).
Proof. intros HP s. split; [|done]. cbn. destruct (op (env s)) as [a w]. exists [ev a]. split; [done|]. by repeat constructor. Qed.
Lemma logs_persist (P : call → Prop) r : (∀ now ok, P (CSave (stamp now r) ok)) → logs P (persist r).
Proof.
  intros HP s. split; [|done]. cbn. destruct (e_Now (env s)) as [now w]. destruct (e_Save w) as [e w'].
  eexists [_]. split; [done|]. repeat constructor. apply HP.
Qed.
Lemma logs_Activate P g : logs P (Activate g).
Proof.
  apply logs_act. intros s. destruct (gens s !! g) as [G|]; [|done]. destruct (e_Activate G (env s)) as [names w]. cbn [snd].
  change (log s) with (log (set_env w s)). generalize (set_env w s). clear s. induction names as [|name names IH]; intros s; [done|].
  cbn. rewrite IH. unfold enter_gen. destruct (gens s !! g) as [G'|]; [|done]. by destruct (Generation_Enter name G') as [[]|].
Qed.

(** The calls of a recovery: it starts nothing, touches neither the routes nor
    the policy, and records nothing but a failure. *)
Definition recovering (c : call) : Prop :=
  match c with
  | CUp _ _ | CRoutes _ | CExec _ _ | CImportConfig _ _ _ | CContainersNamed _ _ => False
  | CSave r _ => Phase_ r = PhaseFailed
  | _ => True
  end.

Lemma logs_teardown : logs recovering teardown.
Proof.
  apply logs_res_bind; [by apply logs_perform|]. intros v. apply logs_res_bind; [by apply logs_perform|]. intros _.
  apply logs_res_bind; [by apply logs_perform|]. intros l. apply logs_res_bind; [done|]. intros _.
  apply logs_res_bind; [by apply logs_perform|done].
Qed.

Lemma logs_reconcileReady r : logs recovering (reconcileReady opts r).
Proof.
  unfold reconcileReady. apply logs_res_bind; [done|]. intros _. apply logs_res_bind; [apply logs_ask|]. intros pk.
  apply logs_res_bind; [apply logs_ask|]. intros man. apply logs_res_bind; [done|]. intros api.
  apply logs_res_bind; [by apply logs_perform|]. intros present. cbv zeta. apply logs_res_bind; [done|]. intros _.
  apply logs_res_bind; [apply logs_wrapped, logs_ask|]. intros content.
  apply logs_res_bind; [apply logs_wrapped, logs_act; intros s; by destruct (e_ReadRoutes (env s))|]. intros b.
  apply logs_res_bind; [done|]. intros _. apply logs_res_bind; [apply logs_wrapped; by apply logs_perform|]. intros _.
  apply logs_bind; [by apply logs_act|]. intros g. apply logs_bind; [apply logs_Activate|]. intros _.
  apply logs_bind; [by apply logs_act|done].
Qed.

Lemma logs_reconcile : logs recovering (reconcile opts).
Proof.
  assert (∀ r reason, logs recovering (recoverInterrupted r reason)) as Hrec.
  { intros r reason. apply logs_bind; [apply logs_teardown|]. intros d. cbv zeta.
    apply logs_bind; [by apply logs_persist|done]. }
  apply logs_bind; [by apply logs_act|]. intros [[e|] r]; [apply Hrec|]. cbn [fst snd]. cbv zeta.
  case_bool_decide; [|apply Hrec]. apply logs_bind; [apply logs_reconcileReady|]. intros [a|e]; [done|].
  apply logs_bind; [by apply logs_persist|done].
Qed.

(** What is left of a job and the view it runs from, for [ends]. *)
Definition left_with (P : call → Prop) (Q : view → Prop) (l0 : list call) (m : job (W := W) unit) (v : view) : Prop :=
  (∀ s, view_of s = v → runs d0 m (λ _ s', Q (view_of s')) s) ∧ logs P m ∧
  ∃ l, v_log v = (l ++ l0)%list ∧ Forall P l.

Lemma left_with_step P Q l0 f k s : left_with P Q l0 (Act f k) (view_of s) → gens_ok s →
  left_with P Q l0 (k s) (view_of (f s)).
Proof.
  intros (Hr & Hl & l & Hv & HF) HK. destruct (Hl s) as [(l' & Hl' & HF') Hk].
  destruct (Hr s eq_refl s eq_refl HK) as [_ Hrs]. split_and!; [|done|].
  - intros s' Hs'. eapply runs_quiet; [exact Hs'|intros _; by rewrite Hs'|exact Hrs].
  - exists (l' ++ l)%list. split; [|by apply Forall_app]. cbn in *. by rewrite Hl', Hv, app_assoc.
Qed.

(** C16. Recovery.  Whenever the process dies and starts again, under any fair
    schedule the new process comes to rest.  Until then it starts nothing,
    changes neither the routes nor the policy, and writes no record but one
    that says failed.  Without a record the phase is none, with an unreadable
    one it is failed; a recorded range is ready again only if the record said
    ready, and failed otherwise. *)
Theorem crash_recovers x (sched : nat → input) : reachable x → fair sched →
  ∃ n l, let y := schedule sched n (step opts Crash x) in
    running y = None ∧ busy (st y) = false ∧
    log (st y) = (l ++ log (st x))%list ∧ Forall recovering l ∧
    match Store_Load (StorePath opts) (disk (st x)) with
    | Val None => SPhase (status (st y)) = PhaseNone
    | Val (Some r) => SPhase (status (st y)) = PhaseFailed ∨
                      Phase_ r = PhaseReady ∧ SPhase (status (st y)) = PhaseReady
    | Fail _ => SPhase (status (st y)) = PhaseFailed
    end.
Proof.
  intros Hx%reachable_SI Hf. pose proof (SI_J _ _ Hx) as HJ. cbn [step].
  pose proof (SI_process opts d0 (st x) HJ) as HS.
  destruct (process_cases opts d0 (st x) HJ) as (Hlog & HK & [(Hr & Hi & Hph)|(Hr & ph & Hm & Hp & Hload & Hrec)]).
  - exists O, []. cbn [schedule]. split_and!; [done|apply Hi|done|by constructor|].
    destruct (Store_Load _ _) as [[r|]|e]; [by left|done|done].
  - set (Q v := SPhase (v_status v) = PhaseFailed ∨ ph = PhaseReady ∧ SPhase (v_status v) = PhaseReady).
    destruct (ends (left_with recovering Q (log (st x)))) with (m0 := reconcile opts) (sched := sched)
      (x := process opts (st x)) as (n & s & Hn & (HQ & _ & l & Hl & HF) & Hv); [apply left_with_step|done|done| |done|].
    + split_and!; [|apply logs_reconcile|exists []; split; [exact Hlog|by constructor]].
      intros s Hs. eapply runs_reconcile; [by rewrite Hs|done|by rewrite Hs|]. by intros s' _ HQ.
    + specialize (HQ s eq_refl). cbn [runs] in HQ. subst Q. cbv beta in HQ. exists n, l. cbv zeta.
      set (y := schedule sched n _) in *.
      assert (status (st y) = v_status (view_of s)) as -> by by apply (f_equal v_status) in Hv.
      split_and!; [done|by apply (f_equal v_busy) in Hv|by apply (f_equal v_log) in Hv; cbn in *; congruence|done|].
      destruct (Store_Load _ _) as [[r|]|e]; [|done|].
      * subst ph. exact HQ.
      * subst ph. by destruct HQ as [|[? _]].
Qed.
End LifecycleCorrect.

(** ** A concrete range *)
Definition demo_manifest : Manifest :=
  mkManifest [mkService "fw" ["firewall"] [("api", "http://fw:8080")]].
Definition demo_package : Package := mkPackage "substation" 3 "policies/base.json".

(** A world that is a clock; the save at time [n] fails when [fails n]. *)
Definition demo (fails : Z → bool) : Env Z := {|
  e_Now w := (w + 1, w + 1);
  e_Catalog _ := Some [demo_package];
  e_LoadManifest _ _ w := (Val demo_manifest, w);
  e_Validate _ _ _ := None;
  e_CheckTopology _ _ := None;
  e_CheckCompose _ _ _ _ _ := None;
  e_CheckManagementSafety _ := None;
  e_JSONValid _ := true;
  e_ReadFile p w := (Val p, w);
  e_Config _ w := (Val "{}", w);
  e_Images _ w := (Val ["containd"], w);
  e_MissingImages _ w := (Val [], w);
  e_Up _ w := (Val tt, w);
  e_Down w := (Val tt, w);
  e_MountedVolumes w := (Val [], w);
  e_ExistingVolumes _ w := (Val [], w);
  e_ProjectResources w := (Val ([], []), w);
  e_ContainersNamed _ w := (Val [], w);
  e_Exec _ w := (Val (0, ""), w);
  e_WaitReady _ w := (Val tt, w);
  e_ImportConfig _ _ w := (Val [], w);
  e_LastApply _ _ := Some "receipt";
  e_Save w := (if fails w then Some (errorf "no space left on device") else None, w);
  e_ReadRoutes w := (None, w);
  e_WriteRoutes w := (None, w);
  e_RemoveRoutes w := (None, w);
  e_Timer _ := false;
  e_Activate _ w := (["poller"], w)
|}.
Definition demo_options : Options :=
  mkOptions "/opt/rangerdanger" ModeRelease "/opt/rangerdanger/lab-definitions" "/routes" "proxy"
    "substation" "1.0" "/data/range.json" "15s".

Definition demo_run (fails : Z → bool) (inputs : list input) : system (W := Z) :=
  let _ := demo fails in
  fold_left (λ x i, step demo_options i x) inputs (boot demo_options NoFile None 0).

Lemma demo_run_reachable fails inputs : @reachable Z (demo fails) demo_options NoFile None 0 (demo_run fails inputs).
Proof.
  unfold demo_run. rewrite <- (rev_involutive inputs). induction (rev inputs) as [|i l IH]; cbn; [constructor|].
  rewrite fold_left_app. by apply reach_step.
Qed.

(** A request and steps of its job. *)
Definition switch (n : nat) : list (input (W := Z)) := InRequest "substation" :: repeat Job n.
Definition never (_ : Z) : bool := false.

Definition demo_job : nat → input (W := Z) := λ _, Job.
Lemma demo_fair : fair demo_job.
Proof. split; [done|]. intros n. by exists n. Qed.

(** The switch to the package of the catalog ends ready, with one generation
    that serves. *)
Lemma range_exclusive_witness :
  current (st (demo_run never (switch 40))) = Some O ∧
  ∃ G r, gens (st (demo_run never (switch 40))) !! O = Some G ∧ stopped G = false ∧
    rec_ (st (demo_run never (switch 40))) = Some r ∧ Phase_ r = PhaseReady ∧ GID G = Generation_ r.
Proof.
  destruct (@range_exclusive Z (demo never) demo_options NoFile None 0 (demo_run never (switch 40))
              (demo_run_reachable never (switch 40))) as (_ & Hs & _).
  assert (current (st (demo_run never (switch 40))) = Some O) as Hc by (vm_compute; reflexivity).
  destruct (Hs O Hc) as (G & r & H1 & H2 & H3 & H4 & H5 & _).
  split; [exact Hc|]. exists G, r. exact (conj H1 (conj H2 (conj H3 (conj H4 H5)))).
Defined.

Lemma range_replaced_witness :
  log (st (demo_run never (switch 19))) =
    CUp "/opt/rangerdanger/lab-definitions/packages/substation/compose.release.yml" (Val tt) ::
    log (st (demo_run never (switch 18))) ∧
  current (st (demo_run never (switch 18))) = None.
Proof.
  destruct (@range_replaced Z (demo never) demo_options NoFile None 0 (demo_run never (switch 18))
              (demo_run_reachable never (switch 18))) as (_ & Hup).
  split; [vm_compute; reflexivity|].
  eapply Hup. vm_compute. reflexivity.
Defined.

Lemma lifecycle_phases_witness :
  phase_edge PhasePreflight PhaseStopping ∧ SPhase (status (st (demo_run never (switch 10)))) = PhasePreflight.
Proof.
  pose proof (@lifecycle_phases Z (demo never) demo_options NoFile None 0 (demo_run never (switch 10)) Job
                (demo_run_reachable never (switch 10))) as He.
  split; [|vm_compute; reflexivity].
  assert (Job (W := Z) ≠ Crash) as Hj by discriminate. specialize (He Hj). vm_compute in He. exact He.
Defined.

Lemma jobs_end_witness :
  busy (st (demo_run never (switch 5))) = true ∧
  ∃ n, busy (st (@schedule Z (demo never) demo_options demo_job n (demo_run never (switch 5)))) = false.
Proof.
  split; [vm_compute; reflexivity|].
  destruct (@jobs_end Z (demo never) demo_options NoFile None 0 (demo_run never (switch 5)) demo_job
              (demo_run_reachable never (switch 5)) demo_fair) as (n & _ & Hn).
  exists n. exact Hn.
Defined.

(** A crash while the range is configured. *)
Lemma crash_recovers_witness :
  SPhase (status (st (demo_run never (switch 25)))) = PhaseConfiguring ∧
  ∃ n, SPhase (status (st (@schedule Z (demo never) demo_options demo_job n
                             (@step Z (demo never) demo_options Crash (demo_run never (switch 25)))))) = PhaseFailed.
Proof.
  split; [vm_compute; reflexivity|].
  destruct (@crash_recovers Z (demo never) demo_options NoFile None 0 (demo_run never (switch 25)) demo_job
              (demo_run_reachable never (switch 25)) demo_fair) as (n & l & _ & _ & _ & _ & Hp).
  exists n. cbv zeta in Hp.
  assert (∃ r, Store_Load (StorePath demo_options) (disk (st (demo_run never (switch 25)))) = Val (Some r) ∧
    Phase_ r = PhaseConfiguring) as (r & Hr & Hc) by (eexists; split; [vm_compute; reflexivity|reflexivity]).
  rewrite Hr in Hp. destruct Hp as [Hp|[Hready _]]; [exact Hp|]. rewrite Hc in Hready. discriminate Hready.
Defined.

(** A failed write of the phase stopping leaks the generation.  There is a
    run in which that write fails: the job ends, the range is removed and
    recorded as failed, nothing serves, but the old generation was never
    stopped: its context is not cancelled, its worker is still registered and
    its completions still publish.  The next switch succeeds beside it, and
    two generations are live. *)
Example failed_save_leaks_generation : ∃ fails inputs,
  let x := demo_run fails inputs in
  let y := fold_left (λ x i, @step Z (demo fails) demo_options i x) (switch 60) x in
  running x = None ∧ SPhase (status (st x)) = PhaseFailed ∧ current (st x) = None ∧
  (∃ G, gens (st x) = [G] ∧ Commit G = true ∧ cancelled G = false ∧ (snd <$> active G) = ["poller"]) ∧
  running y = None ∧ SPhase (status (st y)) = PhaseReady ∧
  Commit <$> gens (st y) = [true; true].
Proof.
  exists (λ w, w =? 8), (switch 60 ++ switch 60)%list. cbv zeta.
  split_and!; try (vm_compute; reflexivity).
  eexists. split_and!; vm_compute; reflexivity.
Qed.
