(* ===== verification/LifecycleEngine.v ===== *)
(** * The range's engine and Compose runner (lifecycle/engine.go, compose.go)

    What the manager asks of Docker ([DockerEngine] over the client library)
    and the Compose command lines with the parsing of their output
    ([ComposeCLI]); both give the operations of [Env].  The client library and
    the Compose binary are parameters, the class [DockerAPI] with the
    documented meaning of its filters in [DockerLaws]. *)
From S2P Require Import Prelude GoLib GoText Lifecycle.
From stdpp Require Import sorting pretty.

#[local] Open Scope string_scope.
#[local] Open Scope Z_scope.

(** ** Lists of names *)

(** The loop with its [seen] map: the elements kept, each once. *)
Fixpoint first_seen (seen l : list string) : list string :=
  match l with
  | [] => []
  | x :: l' =>
      if (x =? "")%string || bool_decide (x ∈ seen) then first_seen seen l'
      else x :: first_seen (x :: seen) l'
  end.

(** ** The client library *)
Record Mount : Type := mkMount { Mount_Type : string; Mount_Name : string }.
Record ContainerSummary : Type := mkContainer {
  CID : string; Names : list string; Labels : list (string * string); Mounts : list Mount }.

(** The arguments of [filters.NewArgs], in order. *)
Definition Args : Type := list (string * string).

Inductive inspected : Type := Found | NotFound | InspectError (e : error).

Class DockerAPI (W : Type) : Type := {
  ImageInspectWithRaw : string → W → inspected * W;
  ContainerList : Args → W → res (list ContainerSummary) * W;
  NetworkList : Args → W → res (list string) * W;
  VolumeInspect : string → W → inspected * W;
  (** stdout, stderr, exit code. *)
  ExecCommand : string → list string → Z → W → res (string * string * Z) * W
}.

Definition projectLabel : string := "com.docker.compose.project".
Definition oneoffLabel : string := "com.docker.compose.oneoff".
Definition execTimeoutSec : Z := 30.

Definition containerName (c : ContainerSummary) : string :=
  match Names c with
  | [] => CID c
  | n :: _ => TrimPrefix n "/"
  end.

Definition projectContainerFilters (project : string) : Args :=
  [("label", projectLabel ++ "=" ++ project); ("label", oneoffLabel)].

Section Engine.
Context {W : Type} `{DockerAPI W}.

Fixpoint MissingImages (refs : list string) (w : W) : res (list string) * W :=
  match refs with
  | [] => (Val [], w)
  | ref :: refs' =>
      let (r, w) := ImageInspectWithRaw ref w in
      match r with
      | InspectError e => (Fail (wrap ("inspect image " ++ ref) e), w)
      | NotFound => let (l, w) := MissingImages refs' w in
                    (match l with Val l => Val (ref :: l) | Fail e => Fail e end, w)
      | Found => MissingImages refs' w
      end
  end.

Definition ProjectResources (project : string) (w : W) : res (list string * list string) * W :=
  let label := [("label", projectLabel ++ "=" ++ project)] in
  let (containers, w) := ContainerList (projectContainerFilters project) w in
  match containers with
  | Fail e => (Fail (wrap ("list containers of project " ++ project) e), w)
  | Val containers =>
      let (networks, w) := NetworkList label w in
      match networks with
      | Fail e => (Fail (wrap ("list networks of project " ++ project) e), w)
      | Val networks => (Val (sort_strings (containerName <$> containers), sort_strings networks), w)
      end
  end.

Definition volume_names (c : ContainerSummary) : list string :=
  Mount_Name <$> filter (λ m, Mount_Type m = "volume") (Mounts c).

Definition MountedVolumes (project : string) (w : W) : res (list string) * W :=
  let (containers, w) := ContainerList (projectContainerFilters project) w in
  match containers with
  | Fail e => (Fail (wrap ("list containers of project " ++ project) e), w)
  | Val containers => (Val (sort_strings (first_seen [] (mjoin (volume_names <$> containers)))), w)
  end.

Fixpoint ExistingVolumes (names : list string) (w : W) : res (list string) * W :=
  match names with
  | [] => (Val [], w)
  | name :: names' =>
      let (r, w) := VolumeInspect name w in
      match r with
      | InspectError e => (Fail (wrap ("inspect volume " ++ name) e), w)
      | NotFound => ExistingVolumes names' w
      | Found => let (l, w) := ExistingVolumes names' w in
                 (match l with Val l => Val (name :: l) | Fail e => Fail e end, w)
      end
  end.

Definition name_filters (names : list string) : Args := (λ n, ("name", "^/" ++ n ++ "$")) <$> names.

Definition ContainersNamed (names : list string) (w : W) : res (list string) * W :=
  match names with
  | [] => (Val [], w)
  | _ =>
      let (containers, w) := ContainerList (name_filters names) w in
      match containers with
      | Fail e => (Fail (wrap "list containers by name" e), w)
      | Val containers => (Val (sort_strings (filter (λ n, n ∈ names) (containerName <$> containers))), w)
      end
  end.

Definition Exec (container : string) (argv : list string) (w : W) : res (Z * string) * W :=
  let (r, w) := ExecCommand container argv execTimeoutSec w in
  match r with
  | Fail e => (Fail e, w)
  | Val (stdout, stderr, code) => (Val (code, TrimSpace (stdout ++ stderr)), w)
  end.
End Engine.

(** ** Compose *)
Record ComposeCLI : Type := mkComposeCLI { Project : string; CRoot : string }.

(** [upWaitTimeout] in seconds. *)
Definition upWaitTimeout : Z := 300.

Definition modelArgs (c : ComposeCLI) (file : string) : list string :=
  ["-p"; Project c; "--project-directory"; CRoot c; "-f"; file].
Definition configArgs (c : ComposeCLI) (file : string) : list string :=
  (modelArgs c file ++ ["config"; "--format"; "json"])%list.
Definition imagesArgs (c : ComposeCLI) (file : string) : list string :=
  (modelArgs c file ++ ["config"; "--images"])%list.
Definition upArgs (c : ComposeCLI) (file : string) : list string :=
  (modelArgs c file ++ ["up"; "-d"; "--wait"; "--wait-timeout"; pretty upWaitTimeout;
                        "--no-build"; "--pull"; "never"])%list.
Definition downArgs (c : ComposeCLI) : list string := ["-p"; Project c; "down"; "-v"; "--remove-orphans"].

Section Compose.
Context {W : Type} (run : list string → W → res string * W) (c : ComposeCLI).

Definition Compose_Config (file : string) (w : W) : res string * W := run (configArgs c file) w.

Definition image_lines (out : string) : list string :=
  first_seen [] (TrimSpace <$> split_at (ascii_of_nat 10) out).
Definition Images (file : string) (w : W) : res (list string) * W :=
  let (out, w) := run (imagesArgs c file) w in
  match out with
  | Fail e => (Fail e, w)
  | Val out => (Val (image_lines out), w)
  end.

Definition Up (file : string) (w : W) : res unit * W :=
  let (out, w) := run (upArgs c file) w in
  (match out with Fail e => Fail e | Val _ => Val tt end, w).
Definition Down (w : W) : res unit * W :=
  let (out, w) := run (downArgs c) w in
  (match out with Fail e => Fail e | Val _ => Val tt end, w).
End Compose.

(** ** The manager's environment over both *)
Definition docker_env {W : Type} `{DockerAPI W} (run : list string → W → res string * W) (c : ComposeCLI)
    (opts : Options) (base : Env W) : Env W := {|
  e_Now := e_Now; e_Catalog := e_Catalog; e_LoadManifest := e_LoadManifest; e_Validate := e_Validate;
  e_CheckTopology := e_CheckTopology; e_CheckCompose := e_CheckCompose;
  e_CheckManagementSafety := e_CheckManagementSafety; e_JSONValid := e_JSONValid; e_ReadFile := e_ReadFile;
  e_Config := Compose_Config run c; e_Images := Images run c; e_MissingImages := MissingImages;
  e_Up := Up run c; e_Down := Down run c;
  e_MountedVolumes := MountedVolumes RangeProject; e_ExistingVolumes := ExistingVolumes;
  e_ProjectResources := ProjectResources RangeProject; e_ContainersNamed := ContainersNamed;
  e_Exec := Exec (ProxyContainer opts);
  e_WaitReady := e_WaitReady; e_ImportConfig := e_ImportConfig; e_LastApply := e_LastApply;
  e_Save := e_Save; e_ReadRoutes := e_ReadRoutes; e_WriteRoutes := e_WriteRoutes;
  e_RemoveRoutes := e_RemoveRoutes; e_Timer := e_Timer; e_Activate := e_Activate
|}.

(** ** What the daemon promises *)

(** The labels of a resource of a project, and of a container Compose made. *)
Definition labelled (p : string) (ls : list (string * string)) : Prop := (projectLabel, p) ∈ ls.
Definition in_project (p : string) (c : ContainerSummary) : Prop :=
  labelled p (Labels c) ∧ ∃ v, (oneoffLabel, v) ∈ Labels c.

(** The daemon's contents: containers, networks with their labels, volumes.
    The laws are the Engine API's documentation of its list filters and its
    inspections, and that these calls change nothing. *)
Class DockerLaws (W : Type) `{DockerAPI W} : Type := {
  contents : W → list ContainerSummary * list (string * list (string * string)) * list string;
  names_slash : ∀ w c, c ∈ (contents w).1.1 → ∃ n rest, Names c = String slash n :: rest;
  list_project : ∀ p w l w', ContainerList (projectContainerFilters p) w = (Val l, w') →
    ∀ c, c ∈ l ↔ c ∈ (contents w).1.1 ∧ in_project p c;
  list_named : ∀ names w l w', ContainerList (name_filters names) w = (Val l, w') →
    (∀ c, c ∈ l → c ∈ (contents w).1.1) ∧
    ∀ c n, c ∈ (contents w).1.1 → n ∈ names → String slash n ∈ Names c → c ∈ l;
  list_networks : ∀ p w l w', NetworkList [("label", projectLabel ++ "=" ++ p)] w = (Val l, w') →
    ∀ n, n ∈ l ↔ ∃ ls, (n, ls) ∈ (contents w).1.2 ∧ labelled p ls;
  inspect_volume : ∀ v w r w', VolumeInspect v w = (r, w') →
    match r with Found => v ∈ (contents w).2 | NotFound => v ∉ (contents w).2 | InspectError _ => True end;
  list_stable : ∀ args w r w', ContainerList args w = (r, w') → contents w' = contents w;
  networks_stable : ∀ args w r w', NetworkList args w = (r, w') → contents w' = contents w;
  volume_stable : ∀ v w r w', VolumeInspect v w = (r, w') → contents w' = contents w
}.

(** ** Lists *)
Lemma elem_of_sort_strings x l : x ∈ sort_strings l ↔ x ∈ l.
Proof. unfold sort_strings. by rewrite merge_sort_Permutation. Qed.

Lemma sort_strings_nil l : sort_strings l = [] → l = [].
Proof.
  intros Hs. destruct l as [|x l]; [done|]. assert (x ∈ sort_strings (x :: l)) as Hx by (apply elem_of_sort_strings; by left).
  rewrite Hs in Hx. by apply elem_of_nil in Hx.
Qed.

Lemma elem_of_first_seen x seen l : x ∈ first_seen seen l ↔ x ∈ l ∧ x ≠ "" ∧ x ∉ seen.
Proof.
  revert seen. induction l as [|y l IH]; intros seen; cbn; [rewrite elem_of_nil; naive_solver|].
  destruct (String.eqb_spec y "") as [->|Hy]; cbn [orb]; [rewrite IH, elem_of_cons; naive_solver|].
  case_bool_decide as Hs; rewrite ?elem_of_cons, IH, ?elem_of_cons; [naive_solver|].
  destruct (decide (x = y)) as [->|]; naive_solver.
Qed.

Lemma first_seen_NoDup seen l : NoDup (first_seen seen l).
Proof.
  revert seen. induction l as [|y l IH]; intros seen; cbn; [constructor|]. destruct (_ || _); [done|].
  constructor; [|done]. rewrite elem_of_first_seen, elem_of_cons. naive_solver.
Qed.

Section Exact.
Context {W : Type} `{DockerLaws W}.

Lemma ProjectResources_nil p w w' : ProjectResources p w = (Val ([], []), w') →
  contents w' = contents w ∧ (∀ c, c ∈ (contents w).1.1 → ¬ in_project p c) ∧
  (∀ n ls, (n, ls) ∈ (contents w).1.2 → ¬ labelled p ls).
Proof.
  unfold ProjectResources. destruct (ContainerList _ w) as [[cs|e] w1] eqn:Hc; [|done].
  destruct (NetworkList _ w1) as [[ns|e] w2] eqn:Hn; [|done]. intros [= Hcs Hns <-].
  apply sort_strings_nil, fmap_nil_inv in Hcs as ->. apply sort_strings_nil in Hns as ->.
  pose proof (list_stable _ _ _ _ Hc) as E1. pose proof (networks_stable _ _ _ _ Hn) as E2.
  pose proof (list_project _ _ _ _ Hc) as L1. pose proof (list_networks _ _ _ _ Hn) as L2. rewrite E1 in L2.
  split; [congruence|]. split.
  - intros c Hin Hp. by apply (elem_of_nil c), L1.
  - intros n ls Hin Hp. apply (elem_of_nil n), L2. by exists ls.
Qed.

Lemma MountedVolumes_val p w vs w' : MountedVolumes p w = (Val vs, w') → contents w' = contents w ∧
  ∀ v, v ∈ vs ↔ v ≠ "" ∧ ∃ c, c ∈ (contents w).1.1 ∧ in_project p c ∧ mkMount "volume" v ∈ Mounts c.
Proof.
  unfold MountedVolumes. destruct (ContainerList _ w) as [[cs|e] w1] eqn:Hc; [|done]. intros [= <- <-].
  split; [by eapply list_stable|]. pose proof (list_project _ _ _ _ Hc) as L1.
  intros v. rewrite elem_of_sort_strings, elem_of_first_seen, list_elem_of_join. split.
  - intros ((vs & Hv & (c & -> & Hin)%list_elem_of_fmap) & Hne & _). split; [done|]. exists c.
    apply L1 in Hin as [Hin Hp]. split_and!; [done..|]. unfold volume_names in Hv.
    apply list_elem_of_fmap in Hv as ([t v'] & -> & [Ht Hm]%list_elem_of_filter). cbn in *. by subst t.
  - intros (Hne & c & Hin & Hp & Hm). split; [|split; [done|apply not_elem_of_nil]]. exists (volume_names c). split.
    + apply list_elem_of_fmap. exists (mkMount "volume" v). split; [done|]. by apply list_elem_of_filter.
    + apply list_elem_of_fmap. exists c. split; [done|]. by apply L1.
Qed.

Lemma ExistingVolumes_val vs w l w' : ExistingVolumes vs w = (Val l, w') → contents w' = contents w ∧
  ∀ v, v ∈ l ↔ v ∈ vs ∧ v ∈ (contents w).2.
Proof.
  revert w l. induction vs as [|v vs IH]; intros w l; cbn.
  { intros [= <- <-]. split; [done|]. intros v. rewrite elem_of_nil. naive_solver. }
  destruct (VolumeInspect v w) as [r w1] eqn:Hv. pose proof (volume_stable _ _ _ _ Hv) as E.
  pose proof (inspect_volume _ _ _ _ Hv) as L. destruct r as [| |e]; [|intros Hr|done].
  - destruct (ExistingVolumes vs w1) as [[l1|e] w2] eqn:Hr; [|done]. intros [= <- <-].
    destruct (IH _ _ Hr) as [E2 Hl]. split; [congruence|]. intros u. rewrite !elem_of_cons, Hl, E.
    split; [intros [->|[Hu Hc]]; (split; [tauto|done])|intros [[->|Hu] Hc]; tauto].
  - destruct (IH _ _ Hr) as [E2 Hl]. split; [congruence|]. intros u. rewrite elem_of_cons, Hl, E.
    split; [tauto|]. intros [[->|Hu] Hc]; [done|tauto].
Qed.

Lemma TrimPrefix_slash n : TrimPrefix (String slash n) "/" = n.
Proof. by destruct n. Qed.

Lemma ContainersNamed_val names w held w' : ContainersNamed names w = (Val held, w') → contents w' = contents w ∧
  ∀ n, n ∈ held ↔ n ∈ names ∧ ∃ c, c ∈ (contents w).1.1 ∧ containerName c = n.
Proof.
  unfold ContainersNamed. destruct names as [|n0 names]; [intros [= <- <-]|].
  { split; [done|]. intros n. rewrite elem_of_nil. naive_solver. }
  generalize (n0 :: names). clear n0 names. intros names.
  destruct (ContainerList _ w) as [[cs|e] w1] eqn:Hc; [|done]. intros [= <- <-].
  split; [by eapply list_stable|]. destruct (list_named _ _ _ _ Hc) as [L1 L2].
  intros n. rewrite elem_of_sort_strings, list_elem_of_filter, list_elem_of_fmap. split.
  - intros (Hn & c & -> & Hin). split; [done|]. exists c. auto.
  - intros (Hn & c & Hin & Hname). split; [done|]. exists c. split; [done|].
    destruct (names_slash w c Hin) as (m & rest & Hm). unfold containerName in Hname. rewrite Hm, TrimPrefix_slash in Hname.
    subst m. apply (L2 c n Hin Hn). rewrite Hm. by left.
Qed.

(** ** A job on its own, from its start to its end *)
Fixpoint run_job {A} (m : job (W := W) A) (s : state (W := W)) : A * state (W := W) :=
  match m with
  | Done a => (a, s)
  | Act f k => run_job (k s) (f s)
  end.

Lemma run_bind {A B} (m : job A) (k : A → job B) s : run_job (prog_bind m k) s = run_job (k (run_job m s).1) (run_job m s).2.
Proof. revert s. induction m as [a|f n IH]; intros s; [done|]. apply IH. Qed.

Lemma run_res_bind {A B} (m : job (res A)) (k : A → job (res B)) s b s' : run_job (res_bind m k) s = (Val b, s') →
  ∃ a s1, run_job m s = (Val a, s1) ∧ run_job (k a) s1 = (Val b, s').
Proof.
  unfold res_bind. rewrite run_bind. destruct (run_job m s) as [[a|e] s1]; cbn [fst snd]; [|done]. by exists a, s1.
Qed.

Lemma run_perform {A} (op : W → A * W) ev s a s' : run_job (perform op ev) s = (a, s') → op (env s) = (a, env s').
Proof. cbn. destruct (op (env s)) as [x w]. by intros [= <- <-]. Qed.

Context (run : list string → W → res string * W) (c : ComposeCLI) (opts : Options) (base : Env W).

(** What the manager does before it starts a range: the teardown and the check
    of the container names. *)
Definition clear_range (names : list string) : job (W := W) (res (list string)) :=
  let _ := docker_env run c opts base in
  do& teardown in
  perform (e_ContainersNamed names) (CContainersNamed names).

(** The range is gone before the next one starts.  On a daemon whose list
    filters and inspections do what the Engine API documents, and whatever
    Compose does: when the teardown succeeds and no container name is held, the
    daemon has no container and no network of the range project, none of the
    volumes the range's containers mounted, and no container with a name the
    new range needs. *)
Theorem teardown_complete names s s' : run_job (clear_range names) s = (Val [], s') →
  let after := contents (env s') in
  (∀ x, x ∈ after.1.1 → ¬ in_project RangeProject x ∧ containerName x ∉ names) ∧
  (∀ n ls, (n, ls) ∈ after.1.2 → ¬ labelled RangeProject ls) ∧
  (∀ x v, x ∈ (contents (env s)).1.1 → in_project RangeProject x → mkMount "volume" v ∈ Mounts x → v ≠ "" →
     v ∉ after.2).
Proof.
  unfold clear_range. intros ([] & s1 & Ht & Hn%run_perform)%run_res_bind. unfold teardown in Ht.
  apply run_res_bind in Ht as (vs & s2 & Hm%run_perform & Ht). apply run_res_bind in Ht as ([] & s3 & _ & Ht).
  apply run_res_bind in Ht as (left_ & s4 & Hx%run_perform & Ht). apply run_res_bind in Ht as ([] & s5 & Hl & Ht).
  apply run_res_bind in Ht as ([cs ns] & s6 & Hp%run_perform & Ht). cbn in Hm, Hx, Hp, Hn.
  destruct left_ as [|]; [|done]. injection Hl as <-. cbn in Ht. destruct cs as [|], ns as [|]; try done. injection Ht as <-.
  apply MountedVolumes_val in Hm as [_ Hm]. apply ExistingVolumes_val in Hx as [E1 Hx].
  apply ProjectResources_nil in Hp as (E2 & Hc & Hnet). apply ContainersNamed_val in Hn as [E3 Hnames].
  rewrite E2 in E3, Hnames. cbv zeta. rewrite E3. split_and!.
  - intros x Hin. split; [by apply Hc|]. intros Hname. apply (elem_of_nil (containerName x)), Hnames. split; [done|by exists x].
  - done.
  - intros x v Hin Hpr Hmt Hne Hv. apply (elem_of_nil v), Hx. rewrite E1 in Hv. split; [|done].
    apply Hm. split; [done|]. by exists x.
Qed.
End Exact.

(** ** A daemon with one range, up or down *)
Definition sample_container : ContainerSummary :=
  mkContainer "4f2a" ["/fw"] [(projectLabel, RangeProject); (oneoffLabel, "False")] [mkMount "volume" "data"].
Definition sample_contents (up : bool) : list ContainerSummary * list (string * list (string * string)) * list string :=
  if up then ([sample_container], [("range_net", [(projectLabel, RangeProject)])], ["data"]) else ([], [], []).

#[export] Instance sample_docker : DockerAPI bool := {|
  ImageInspectWithRaw _ up := (Found, up);
  ContainerList args up :=
    (if bool_decide (args = projectContainerFilters RangeProject) ||
        match args with [] => true | (k, _) :: _ => (k =? "name")%string end
     then Val (sample_contents up).1.1 else Fail (errorf "unknown filter"), up);
  NetworkList args up :=
    (if bool_decide (args = [("label", projectLabel ++ "=" ++ RangeProject)])
     then Val (sample_contents up).1.2.*1 else Fail (errorf "unknown filter"), up);
  VolumeInspect v up := (if bool_decide (v ∈ (sample_contents up).2) then Found else NotFound, up);
  ExecCommand _ _ _ up := (Val ("", "", 0), up)
|}.

Lemma project_filter_inj p q : projectContainerFilters p = projectContainerFilters q → p = q.
Proof. intros [= Hp]. done. Qed.

Lemma network_filter_inj p q :
  [("label", projectLabel ++ "=" ++ p)] = [("label", projectLabel ++ "=" ++ q)] → p = q.
Proof. intros [= Hp]. done. Qed.

#[export] Instance sample_laws : DockerLaws bool.
Proof.
  refine {| contents := sample_contents |}; cbn.
  - intros [] c Hc; [|by apply elem_of_nil in Hc]. apply list_elem_of_singleton in Hc as ->. by eexists "fw", [].
  - intros p w l w'. case_bool_decide as Hp; [apply (project_filter_inj p RangeProject) in Hp as ->|done].
    intros [= <- <-] c. destruct w; [|by rewrite elem_of_nil; naive_solver]. cbn. rewrite list_elem_of_singleton.
    split; [|naive_solver]. intros ->. split; [done|]. split; [by left|]. exists "False". right. by left.
  - intros names w l w'. destruct (_ || _); [|done]. intros [= <- <-]. auto.
  - intros p w l w'. case_bool_decide as Hp; [apply (network_filter_inj p RangeProject) in Hp as ->|done].
    intros [= <- <-] n. destruct w; cbn; [|rewrite elem_of_nil; split; [done|]; by intros (ls & ?%elem_of_nil & _)].
    rewrite list_elem_of_singleton. split.
    + intros ->. eexists. split; [by left|by left].
    + intros (ls & [= -> _]%list_elem_of_singleton & _). done.
  - intros v w r w'. case_bool_decide; by intros [= <- <-].
  - by intros args w r w' [= <- <-].
  - by intros args w r w' [= <- <-].
  - by intros v w r w' [= <- <-].
Defined.

Definition sample_run (argv : list string) (up : bool) : res string * bool :=
  (Val "", if bool_decide ("down" ∈ argv) then false else up).
Definition sample_cli : ComposeCLI := mkComposeCLI RangeProject "/opt/rangerdanger".

(** A manager whose range is up, with nothing else of its environment used. *)
Definition sample_env : Env bool := {|
  e_Now w := (0, w); e_Catalog _ := None; e_LoadManifest _ _ w := (Val (mkManifest []), w);
  e_Validate _ _ _ := None; e_CheckTopology _ _ := None; e_CheckCompose _ _ _ _ _ := None;
  e_CheckManagementSafety _ := None; e_JSONValid _ := true; e_ReadFile p w := (Val p, w);
  e_Config _ w := (Val "", w); e_Images _ w := (Val [], w); e_MissingImages _ w := (Val [], w);
  e_Up _ w := (Val tt, w); e_Down w := (Val tt, w); e_MountedVolumes w := (Val [], w);
  e_ExistingVolumes _ w := (Val [], w); e_ProjectResources w := (Val ([], []), w);
  e_ContainersNamed _ w := (Val [], w); e_Exec _ w := (Val (0, ""), w);
  e_WaitReady _ w := (Val tt, w); e_ImportConfig _ _ w := (Val [], w); e_LastApply _ _ := None;
  e_Save w := (None, w); e_ReadRoutes w := (None, w); e_WriteRoutes w := (None, w);
  e_RemoveRoutes w := (None, w); e_Timer _ := false; e_Activate _ w := ([], w)
|}.
Definition sample_options : Options :=
  mkOptions "/opt/rangerdanger" ModeRelease "" "" "proxy" "" "" "" "".
Definition sample_state : state (W := bool) :=
  mkState None None (mkStatus None 0 PhaseNone "" "" None "" "" None) None false [] NoFile None [] true.

Lemma teardown_complete_witness :
  let s' := (run_job (clear_range sample_run sample_cli sample_options sample_env ["fw"]) sample_state).2 in
  (contents (env sample_state)).2 = ["data"] ∧ "data" ∉ (contents (env s')).2.
Proof.
  cbv zeta. split; [reflexivity|].
  assert ((run_job (clear_range sample_run sample_cli sample_options sample_env ["fw"]) sample_state).1 = Val []) as Hv
    by (vm_compute; reflexivity).
  pose proof (teardown_complete sample_run sample_cli sample_options sample_env ["fw"] sample_state
    (run_job (clear_range sample_run sample_cli sample_options sample_env ["fw"]) sample_state).2) as Hx.
  destruct Hx as (_ & _ & Hvol); [rewrite (surjective_pairing (run_job _ _)), Hv; reflexivity|].
  apply (Hvol sample_container "data"); [by left| |by left|discriminate].
  split; [by left|]. exists "False". right. by left.
Defined.
