(* ===== verification/NetIP.v ===== *)
(** * Addresses and prefixes (Go's net/netip)

    What the plans use of [net/netip]: [ParseAddr] with its IPv4 and IPv6
    grammars, [ParsePrefix], [Prefix.Contains].  An address is its family, its
    bits as a number and its zone. *)
From Stdlib Require Import Ascii String.
From S2P Require Import Prelude GoLib GoText.

#[local] Open Scope Z_scope.
#[local] Open Scope list_scope.

Record Addr : Type := mkAddr { is4 : bool; bits : Z; zone : list Z }.
Record Prefix : Type := mkPrefix { prefix_addr : Addr; prefix_bits : Z }.

#[export] Instance Addr_eq_dec : EqDecision Addr.
Proof. solve_decision. Defined.

Definition dot : Z := 46.
Definition colon : Z := 58.
Definition percent : Z := 37.
Definition slash_byte : Z := 47.

Definition dec_digit (c : Z) : option Z := if (48 <=? c) && (c <=? 57) then Some (c - 48) else None.
Definition hex_digit (c : Z) : option Z :=
  if (48 <=? c) && (c <=? 57) then Some (c - 48)
  else if (97 <=? c) && (c <=? 102) then Some (c - 97 + 10)
  else if (65 <=? c) && (c <=? 70) then Some (c - 65 + 10)
  else None.

(** [parseIPv4Fields]: the value so far and its number of digits, the fields
    before it (last first), and the text left. *)
Fixpoint ipv4_fields (val digLen : Z) (done : list Z) (s : list Z) : option (list Z) :=
  match s with
  | [] => if (length done <? 3)%nat || (digLen =? 0) then None else Some (rev (val :: done))
  | c :: s' =>
      match dec_digit c with
      | Some d =>
          if (digLen =? 1) && (val =? 0) then None
          else let val := val * 10 + d in
               if 255 <? val then None else ipv4_fields val (digLen + 1) done s'
      | None =>
          if c =? dot then
            if (digLen =? 0) || (length done =? 3)%nat then None
            else ipv4_fields 0 0 (val :: done) s'
          else None
      end
  end.
Definition parse_ipv4_bytes (s : list Z) : option (list Z) := ipv4_fields 0 0 [] s.

(** The number a list of octets writes, most significant first. *)
Definition of_octets (l : list Z) : Z := fold_left (λ acc b, acc * 256 + b) l 0.

Definition parseIPv4 (s : list Z) : option Addr :=
  l ← parse_ipv4_bytes s; Some (mkAddr true (of_octets l) []).

(** One group of hexadecimal digits: its value, the number of digits, the rest. *)
Fixpoint hex_group (acc off : Z) (s : list Z) : option (Z * Z * list Z) :=
  match s with
  | [] => Some (acc, off, [])
  | c :: s' =>
      match hex_digit c with
      | None => Some (acc, off, s)
      | Some d =>
          let acc := acc * 16 + d in
          if (3 <? off) || (65535 <? acc) then None else hex_group acc (off + 1) s'
      end
  end.

(** The loop of [parseIPv6]; [ip] are the octets so far, [ellipsis] where the
    zeros go. *)
Fixpoint ipv6_loop (fuel : nat) (ip : list Z) (ellipsis : option nat) (s : list Z)
    : option (list Z * option nat * list Z) :=
  match fuel with
  | O => None
  | S fuel =>
      if (16 <=? length ip)%nat then Some (ip, ellipsis, s)
      else
        match hex_group 0 0 s with
        | None => None
        | Some (acc, off, rest) =>
            if off =? 0 then None
            else if match rest with c :: _ => c =? dot | [] => false end then
              if match ellipsis with None => negb (length ip =? 12)%nat | Some _ => false end then None
              else if (16 <? length ip + 4)%nat then None
              else l ← parse_ipv4_bytes s; Some ((ip ++ l)%list, ellipsis, [])
            else
              let ip := (ip ++ [Z.shiftr acc 8; acc mod 256])%list in
              match rest with
              | [] => Some (ip, ellipsis, [])
              | c :: rest =>
                  if negb (c =? colon) then None
                  else match rest with
                       | [] => None
                       | c :: rest' =>
                           if c =? colon then
                             match ellipsis with
                             | Some _ => None
                             | None =>
                                 match rest' with
                                 | [] => Some (ip, Some (length ip), [])
                                 | _ => ipv6_loop fuel ip (Some (length ip)) rest'
                                 end
                             end
                           else ipv6_loop fuel ip ellipsis rest
                       end
              end
        end
  end.

(** The text before and after the first [%], if there is one. *)
Fixpoint cut_byte (c : Z) (s : list Z) : list Z * option (list Z) :=
  match s with
  | [] => ([], None)
  | b :: s' => if b =? c then ([], Some s') else let (l, r) := cut_byte c s' in (b :: l, r)
  end.

Definition ipv6_finish (zone : list Z) (r : list Z * option nat * list Z) : option Addr :=
  let '(ip, ellipsis, s) := r in
  match s with
  | _ :: _ => None
  | [] =>
      match ellipsis with
      | None => if (length ip <? 16)%nat then None else Some (mkAddr false (of_octets ip) zone)
      | Some e =>
          if (length ip <? 16)%nat then
            Some (mkAddr false (of_octets (take e ip ++ repeat 0 (16 - length ip) ++ drop e ip)) zone)
          else None
      end
  end.

Definition parseIPv6 (s : list Z) : option Addr :=
  let (s, z) := cut_byte percent s in
  match z with
  | Some [] => None
  | _ =>
      let zone := default [] z in
      match s with
      | a :: b :: s' =>
          if (a =? colon) && (b =? colon) then
            match s' with
            | [] => Some (mkAddr false 0 zone)
            | _ => ipv6_loop 9 [] (Some O) s' ≫= ipv6_finish zone
            end
          else ipv6_loop 9 [] None s ≫= ipv6_finish zone
      | _ => ipv6_loop 9 [] None s ≫= ipv6_finish zone
      end
  end.

Fixpoint addr_family (s : list Z) : option bool :=
  match s with
  | [] => None
  | c :: s' => if c =? dot then Some true else if c =? colon then Some false
               else if c =? percent then None else addr_family s'
  end.

Definition parse_addr_bytes (s : list Z) : option Addr :=
  match addr_family s with
  | None => None
  | Some true => parseIPv4 s
  | Some false => parseIPv6 s
  end.
Definition ParseAddr (s : string) : option Addr := parse_addr_bytes (bytes_of s).

(** [strconv.Atoi] on a nonempty text of digits. *)
Fixpoint digits_value (acc : Z) (s : list Z) : option Z :=
  match s with
  | [] => Some acc
  | c :: s' => match dec_digit c with Some d => digits_value (acc * 10 + d) s' | None => None end
  end.

Definition parse_prefix_bits (s : list Z) : option Z :=
  match s with
  | [] => None
  | [c] => dec_digit c
  | c :: _ => if (c <? 49) || (57 <? c) then None else digits_value 0 s
  end.

Definition bit_len (a : Addr) : Z := if is4 a then 32 else 128.

(** The text before and after the last slash. *)
Definition cut_last (s : list Z) : option (list Z * list Z) :=
  match cut_byte slash_byte (rev s) with
  | (_, None) => None
  | (after, Some before) => Some (rev before, rev after)
  end.

Definition ParsePrefix (s : string) : option Prefix :=
  '(a, b) ← cut_last (bytes_of s);
  ip ← parse_addr_bytes a;
  if negb (is4 ip) && negb (length (zone ip) =? 0)%nat then None
  else n ← parse_prefix_bits b;
       if bit_len ip <? n then None else Some (mkPrefix ip n).

Definition Prefix_Contains (p : Prefix) (ip : Addr) : bool :=
  (length (zone ip) =? 0)%nat && Bool.eqb (is4 (prefix_addr p)) (is4 ip) &&
  (Z.shiftr (Z.lxor (bits ip) (bits (prefix_addr p))) (bit_len ip - prefix_bits p) =? 0).

(** ** What the tests of the library say *)
#[local] Open Scope string_scope.
#[local] Open Scope Z_scope.
Definition within (p a : string) : option bool :=
  p ← ParsePrefix p; a ← ParseAddr a; Some (Prefix_Contains p a).

Example parse_examples :
  ((λ a, (is4 a, bits a)) <$> ParseAddr "10.30.0.5") = Some (true, 169738245) ∧
  ParseAddr "10.030.0.5" = None ∧ ParseAddr "1.2.3" = None ∧ ParseAddr "1.2.3.4.5" = None ∧ ParseAddr "1.2.3.256" = None ∧
  ((λ a, (is4 a, bits a)) <$> ParseAddr "::1") = Some (false, 1) ∧
  ((λ a, bits a) <$> ParseAddr "2001:db8::8:800:200c:417a") = Some 42540766411282592856906245548098208122 ∧
  ((λ a, bits a) <$> ParseAddr "::ffff:1.2.3.4") = Some 281470698652420 ∧
  ((λ a, zone a) <$> ParseAddr "fe80::1%eth0") = Some [101; 116; 104; 48] ∧
  ParseAddr "1:2:3:4:5:6:7:8:9" = None ∧ ParseAddr "1:2:3:4:5:6:7::8" = None ∧ ParseAddr ":1::" = None ∧
  ParseAddr "fe80::1%" = None ∧
  (prefix_bits <$> ParsePrefix "10.30.0.0/16") = Some 16 ∧ ParsePrefix "10.30.0.0/016" = None ∧
  ParsePrefix "10.30.0.0/33" = None ∧ ParsePrefix "10.30.0.0/+8" = None ∧ ParsePrefix "fe80::1%a/64" = None ∧
  within "10.30.0.9/16" "10.30.255.1" = Some true ∧
  within "10.30.0.9/16" "10.31.0.9" = Some false ∧
  within "0.0.0.0/0" "::" = Some false.
Proof. split_and!; vm_compute; reflexivity. Qed.
