(* ===== verification/Policy.v ===== *)
(** * Policy documents (backend/internal/labs/policy.go)

    The checks every containd policy passes before it is loaded or applied:
    the management safety of its document and, under a package's ICS mode, the
    places of its [ics] keys.

    A JSON document is its tree, with the keys of an object in the order of the
    text, duplicates included, as the decoder's tokens show them.  Decoding a
    document into a Go struct is a parameter. *)
From S2P Require Import Prelude GoLib GoText.
From stdpp Require Import pretty.

#[local] Open Scope string_scope.
#[local] Open Scope Z_scope.

(** ** Documents *)
#[warnings="-register-all"]
Inductive json : Type :=
| JNull
| JBool (b : bool)
| JNum (text : string)
| JStr (s : string)
| JArr (l : list json)
| JObj (l : list (string * json)).

(** The value of a key in a Go map decoded from an object: the last one. *)
Definition key_value {A} (k : string) (l : list (string * A)) : option A :=
  snd <$> List.find (λ p, (p.1 =? k)%string) (rev l).

(** [json.Unmarshal] of a raw value into a string; a missing value is an error,
    null leaves the empty string. *)
Definition unmarshal_string (v : option json) : option string :=
  match v with
  | Some (JStr s) => Some s
  | Some JNull => Some ""
  | _ => None
  end.
(** ... and into a map of raw values. *)
Definition unmarshal_map (v : json) : option (list (string * json)) :=
  match v with
  | JObj l => Some l
  | JNull => Some []
  | _ => None
  end.

Definition ICSRulesAllowed : string := "allowed".
Definition ICSRulesForbidden : string := "forbidden".
Definition ICSRulesMonitor : string := "monitor".
Definition icsKey : string := "ics".

Definition monitorPolicyICS (raw : json) : bool :=
  match unmarshal_map raw with
  | None => false
  | Some predicate =>
      match unmarshal_string (key_value "protocol" predicate), unmarshal_string (key_value "mode" predicate) with
      | Some protocol, Some mode => negb (TrimSpace protocol =? "")%string && (mode =? "monitor")%string
      | _, _ => false
      end
  end.

(** [strings.ReplaceAll] of one byte, and [escapePointer]. *)
Fixpoint replace_byte (c : ascii) (by_ : string) (s : string) : string :=
  match s with
  | EmptyString => ""
  | String a s' => (if Ascii.eqb a c then by_ else String a "") ++ replace_byte c by_ s'
  end.
Definition tilde : ascii := ascii_of_nat 126.
Definition escapePointer (token : string) : string := replace_byte slash "~1" (replace_byte tilde "~0" token).

(** The pointers of the [ics] keys that are not allowed, in order. *)
Fixpoint walkKeys (monitor : bool) (pointer : string) (ruleObject : bool) (v : json) : list string :=
  match v with
  | JObj l =>
      (fix keys (l : list (string * json)) : list string :=
         match l with
         | [] => []
         | (key, x) :: l' =>
             let child := pointer ++ "/" ++ escapePointer key in
             ((if (key =? icsKey)%string
               then if monitor && ruleObject && monitorPolicyICS x then [] else [child]
               else []) ++
              walkKeys monitor child false x ++ keys l')%list
         end) l
  | JArr l =>
      (fix items (index : Z) (l : list json) : list string :=
         match l with
         | [] => []
         | x :: l' =>
             (walkKeys monitor (pointer ++ "/" ++ pretty index) (pointer =? "/firewall/rules")%string x ++
              items (index + 1) l')%list
         end) 0 l
  | _ => []
  end.

(** ** Management safety *)
Record Interface : Type := mkInterface {
  If_Name : string; If_Zone : string; Device : string; If_Type : string; Parent : string;
  AddressMode : string; Gateway : string; VLANID : Z; Members : list string; If_Addresses : list string;
  Access : list (string * option bool)
}.
Record PortForward : Type := mkForward { F_Enabled : bool; IngressZone : string; ListenPort : Z }.

(** The fields of a policy that [CheckManagementSafety] reads. *)
Record PolicyDoc : Type := mkDoc {
  Interfaces : list Interface;
  EnableHTTP : option bool;
  RedirectHTTPToHTTPS : option bool;
  ListenAddr : string;
  HTTPListenAddr : string;
  Gateways : list json;
  Routes : list json;
  RouteRules : list json;
  NAT_Enabled : bool;
  EgressZone : string;
  NAT_SourceZones : list string;
  PortForwards : list PortForward;
  Proxy_Forward : bool;
  Proxy_Reverse : bool;
  Wireguard : bool;
  Openvpn : bool
}.

(** The fields whose errors name them; [reject] of the source. *)
Inductive policy_error : Type :=
| UnknownMode (mode : string)
| InvalidJSON
| NotAnObject
| ManagementFields
| Reject (field : string)
| Forbidden (pointers : list string).

Definition interface_settings (i : Interface) : list (string * bool) :=
  [("device", negb (Device i =? "")%string);
   ("type", negb (If_Type i =? "")%string && negb (If_Type i =? "physical")%string);
   ("parent", negb (Parent i =? "")%string);
   ("vlanId", negb (VLANID i =? 0));
   ("members", (0 <? length (Members i))%nat);
   ("addressMode", negb (AddressMode i =? "")%string);
   ("addresses", (0 <? length (If_Addresses i))%nat);
   ("gateway", negb (Gateway i =? "")%string)].

Definition flag_off (i : Interface) (flag : string) : bool :=
  match key_value flag (Access i) with Some (Some b) => negb b | _ => false end.

Definition check_interface (field : string) (i : Interface) : option policy_error :=
  match
    if (If_Name i =? "lan3")%string then
      if negb (If_Zone i =? "lan3")%string then Some (field ++ "/zone")
      else match List.find (flag_off i) ["mgmt"; "http"; "https"; "ssh"] with
           | Some flag => Some (field ++ "/access/" ++ flag)
           | None => None
           end
    else if (If_Zone i =? "lan3")%string then Some (field ++ "/zone") else None
  with
  | Some f => Some (Reject f)
  | None =>
      match List.find snd (interface_settings i) with
      | Some (name, _) => Some (Reject (field ++ "/" ++ name))
      | None => None
      end
  end.

(** The number of interfaces named lan3. *)
Fixpoint check_interfaces (index : Z) (names : list string) (l : list Interface) : outcome policy_error Z :=
  match l with
  | [] => Ok 0
  | i :: l' =>
      let field := "interfaces/" ++ pretty index in
      if bool_decide (If_Name i ∈ names) then Err (Reject (field ++ "/name"))
      else match check_interface field i with
           | Some e => Err e
           | None =>
               let! n := check_interfaces (index + 1) (If_Name i :: names) l' in
               Ok (if (If_Name i =? "lan3")%string then n + 1 else n)
           end
  end.

Definition listener_ok (s : string) : bool :=
  bool_decide (s ∈ [""; ":8080"; "0.0.0.0:8080"; "10.99.99.2:8080"]).
Definition is_lan3 (zone : string) : bool := EqualFold (TrimSpace zone) "lan3".

Definition forward_refused (f : PortForward) : bool :=
  F_Enabled f &&
  ((TrimSpace (IngressZone f) =? "")%string || is_lan3 (IngressZone f) ||
   (ListenPort f =? 8080) || (ListenPort f =? 8443) || (ListenPort f =? 2222)).
Fixpoint check_forwards (index : Z) (l : list PortForward) : outcome policy_error unit :=
  match l with
  | [] => Ok tt
  | f :: l' => if forward_refused f then Err (Reject ("firewall/nat/portForwards/" ++ pretty index))
               else check_forwards (index + 1) l'
  end.

Definition CheckManagementSafety (doc : PolicyDoc) : outcome policy_error unit :=
  let! count := check_interfaces 0 [] (Interfaces doc) in
  guard_err (Reject "interfaces/lan3") (negb (count =? 1))
  (guard_err (Reject "system/mgmt/enableHTTP") (match EnableHTTP doc with Some b => negb b | None => false end)
  (guard_err (Reject "system/mgmt/redirectHTTPToHTTPS") (match RedirectHTTPToHTTPS doc with Some b => b | None => false end)
  (guard_err (Reject "system/mgmt/listenAddr") (negb (listener_ok (ListenAddr doc)))
  (guard_err (Reject "system/mgmt/httpListenAddr") (negb (listener_ok (HTTPListenAddr doc)))
  (guard_err (Reject "routing/gateways") (0 <? length (Gateways doc))%nat
  (guard_err (Reject "routing/routes") (0 <? length (Routes doc))%nat
  (guard_err (Reject "routing/rules") (0 <? length (RouteRules doc))%nat
  (guard_err (Reject "firewall/nat/egressZone") (NAT_Enabled doc && is_lan3 (EgressZone doc))
  (guard_err (Reject "firewall/nat/sourceZones") (NAT_Enabled doc && (length (NAT_SourceZones doc) =? 0)%nat)
  (guard_err (Reject "firewall/nat/sourceZones") (NAT_Enabled doc && existsb is_lan3 (NAT_SourceZones doc))
  (let! _ := check_forwards 0 (PortForwards doc) in
   guard_err (Reject "services/proxy") (Proxy_Forward doc || Proxy_Reverse doc)
   (guard_err (Reject "services/vpn") (Wireguard doc || Openvpn doc) (Ok tt))))))))))))).

(** ** The lint *)
Section Lint.
Context (decode_doc : json → option PolicyDoc).

Definition check_safety (data : json) : outcome policy_error unit :=
  match decode_doc data with
  | None => Err ManagementFields
  | Some doc => CheckManagementSafety doc
  end.

(** [LintPolicy] of the bytes' tree; [None] is text that is not JSON. *)
Definition LintPolicy (data : option json) (icsRules : string) : outcome policy_error unit :=
  guard_err (UnknownMode icsRules)
    (negb (bool_decide (icsRules ∈ [ICSRulesAllowed; ICSRulesForbidden; ICSRulesMonitor])))
  (match data with
   | None => Err InvalidJSON
   | Some document =>
       guard_err NotAnObject (match document with JObj _ => false | _ => true end)
       (let! _ := check_safety document in
        if (icsRules =? ICSRulesAllowed)%string then Ok tt
        else match walkKeys (icsRules =? ICSRulesMonitor)%string "" false document with
             | [] => Ok tt
             | problems => Err (Forbidden problems)
             end)
   end).
End Lint.
