(* ===== verification/PolicyCorrect.v ===== *)
(** * Policy documents: what the lint promises

    The token walk with its textual JSON pointers is equivalent to a statement
    about paths in the document: under [forbidden] there is no [ics] key at
    all, under [monitor] each one belongs to a firewall rule and names a
    protocol in monitor mode. *)
From S2P Require Import Prelude GoLib GoText Policy.
From stdpp Require Import pretty.

#[local] Open Scope string_scope.
#[local] Open Scope Z_scope.

(** ** Paths *)
Inductive token : Type := Key (k : string) | Index (i : nat).

Inductive at_path : json → list token → json → Prop :=
| at_here v : at_path v [] v
| at_key l k x p y : (k, x) ∈ l → at_path x p y → at_path (JObj l) (Key k :: p) y
| at_index l i x p y : l !! i = Some x → at_path x p y → at_path (JArr l) (Index i :: p) y.

(** A rule of the firewall. *)
Definition rule_path (p : list token) : Prop := ∃ i, p = [Key "firewall"; Key "rules"; Index i].

(** ** Pointers *)
Definition token_text (t : token) : string :=
  match t with Key k => escapePointer k | Index i => pretty (Z.of_nat i) end.
Fixpoint render (p : list token) : string :=
  match p with [] => "" | t :: p' => "/" ++ token_text t ++ render p' end.

Lemma string_app_cons a s t : String a s ++ t = String a (s ++ t).
Proof. reflexivity. Qed.
Lemma string_app_nil_l s : "" ++ s = s.
Proof. reflexivity. Qed.
Lemma string_app_nil s : s ++ "" = s.
Proof. induction s as [|a s IH]; [done|]. by rewrite string_app_cons, IH. Qed.
Lemma string_app_assoc a b c : (a ++ b) ++ c = a ++ b ++ c.
Proof. induction a as [|x a IH]; [done|]. by rewrite !string_app_cons, IH. Qed.

Lemma render_snoc p t : render (p ++ [t]) = render p ++ "/" ++ token_text t.
Proof.
  induction p as [|u p IH]; [by cbn [app render]; rewrite string_app_nil|]. cbn [app render]. by rewrite IH, !string_app_assoc.
Qed.

Fixpoint has_char (c : ascii) (s : string) : bool :=
  match s with EmptyString => false | String a s' => Ascii.eqb a c || has_char c s' end.

Lemma has_char_app c s t : has_char c (s ++ t) = has_char c s || has_char c t.
Proof. induction s as [|a s IH]; [done|]. rewrite string_app_cons. cbn. by rewrite IH, orb_assoc. Qed.

Lemma replace_byte_app c r s t : replace_byte c r (s ++ t) = replace_byte c r s ++ replace_byte c r t.
Proof. induction s as [|a s IH]; [done|]. rewrite string_app_cons. cbn. by rewrite IH, string_app_assoc. Qed.

Definition escape_char (a : ascii) : string :=
  if Ascii.eqb a tilde then "~0" else if Ascii.eqb a slash then "~1" else String a "".

Lemma escape_cons a s : escapePointer (String a s) = escape_char a ++ escapePointer s.
Proof.
  unfold escapePointer, escape_char. cbn [replace_byte]. rewrite replace_byte_app. f_equal.
  destruct (Ascii.eqb_spec a tilde) as [->|]; [done|]. cbn [replace_byte]. by rewrite string_app_nil.
Qed.

Lemma escape_no_slash s : has_char slash (escapePointer s) = false.
Proof.
  induction s as [|a s IH]; [done|]. rewrite escape_cons, has_char_app, IH, orb_false_r. unfold escape_char.
  destruct (Ascii.eqb a tilde); [done|]. destruct (Ascii.eqb a slash) eqn:Ha; [done|]. cbn. by rewrite Ha.
Qed.

Lemma escape_plain s : has_char tilde (escapePointer s) = false → escapePointer s = s.
Proof.
  induction s as [|a s IH]; [done|]. rewrite escape_cons, has_char_app. unfold escape_char.
  destruct (Ascii.eqb a tilde); [done|]. destruct (Ascii.eqb a slash); [done|].
  intros [_ Hs]%orb_false_iff. by rewrite string_app_cons, IH.
Qed.

Definition is_digit (a : ascii) : bool := (48 <=? nat_of_ascii a)%nat && (nat_of_ascii a <=? 57)%nat.
Fixpoint all_digits (s : string) : bool :=
  match s with EmptyString => true | String a s' => is_digit a && all_digits s' end.

Lemma pretty_char_digit n : is_digit (pretty_N_char n) = true.
Proof. destruct n as [|p]; [done|]. by do 4 (try destruct p as [p|p|]). Qed.

Lemma pretty_go_digits x : ∀ s, all_digits s = true → all_digits (pretty_N_go x s) = true.
Proof.
  induction (N.lt_wf_0 x) as [x _ IH]. intros s Hs. assert (x = 0 ∨ 0 < x)%N as [->|Hx] by lia; [done|].
  rewrite pretty_N_go_step by done. apply IH; [by apply N.div_lt|]. cbn [all_digits]. by rewrite Hs, pretty_char_digit.
Qed.

Lemma pretty_index_digits i : all_digits (pretty (Z.of_nat i)) = true.
Proof.
  destruct i as [|i]; [done|]. change (pretty (Z.of_nat (S i))) with (pretty (N.pos (Pos.of_succ_nat i))).
  unfold pretty, pretty_N. case_decide; [done|]. by apply pretty_go_digits.
Qed.

Lemma digits_no_char c s : is_digit c = false → all_digits s = true → has_char c s = false.
Proof.
  intros Hc. induction s as [|a s IH]; [done|]. cbn. intros [Ha Hs]%andb_true_iff. rewrite IH by done.
  destruct (Ascii.eqb_spec a c) as [->|]; [congruence|done].
Qed.

Lemma token_no_slash t : has_char slash (token_text t) = false.
Proof. destruct t as [k|i]; [apply escape_no_slash|]. by apply digits_no_char, pretty_index_digits. Qed.

(** A token whose text is a plain word is that key. *)
Lemma token_word t w : token_text t = w → has_char tilde w = false → all_digits w = false → t = Key w.
Proof.
  intros <- Ht Hd. destruct t as [k|i]; cbn in *; [by rewrite escape_plain|]. by rewrite pretty_index_digits in Hd.
Qed.

Lemma cut_slash a b p y : has_char slash a = false → has_char slash b = false →
  (y = "" ∨ ∃ y', y = String slash y') → a ++ render p = b ++ y → a = b ∧ render p = y.
Proof.
  intros Ha Hb Hy. revert b Hb. induction a as [|x a IH]; intros b Hb He.
  - destruct b as [|z b]; [done|]. cbn in Hb. apply orb_false_iff in Hb as [Hz _].
    destruct p as [|t p]; [done|]. cbn [render] in He. rewrite !string_app_cons, string_app_nil_l in He. injection He as <- _. done.
  - cbn in Ha. apply orb_false_iff in Ha as [Hx Ha]. destruct b as [|z b].
    + rewrite string_app_cons, string_app_nil_l in He. destruct Hy as [->|[y' ->]]; [done|]. injection He as -> _. done.
    + cbn in Hb. rewrite !string_app_cons in He. apply orb_false_iff in Hb as [_ Hb]. injection He as -> He. destruct (IH Ha b Hb He) as [-> ->]. done.
Qed.

Lemma render_rules p : render p = "/firewall/rules" ↔ p = [Key "firewall"; Key "rules"].
Proof.
  split; [|by intros ->]. destruct p as [|t p]; [done|]. cbn [render]. intros He.
  injection He as He. destruct (cut_slash (token_text t) "firewall" p "/rules") as [Ht Hp];
    [apply token_no_slash|done|right; by eexists|exact He|]. apply token_word in Ht as ->; [|done|done].
  destruct p as [|u p]; [done|]. cbn [render] in Hp. injection Hp as Hp.
  destruct (cut_slash (token_text u) "rules" p "") as [Hu Hq]; [apply token_no_slash|done|by left|exact Hp|].
  apply token_word in Hu as ->; [|done|done]. by destruct p.
Qed.

(** ** The walk *)
Section json_induction.
Context (P : json → Prop) (Hnull : P JNull) (Hbool : ∀ b, P (JBool b)) (Hnum : ∀ s, P (JNum s)) (Hstr : ∀ s, P (JStr s))
  (Harr : ∀ l, Forall P l → P (JArr l)) (Hobj : ∀ l, Forall (λ p, P p.2) l → P (JObj l)).
Fixpoint json_induction (v : json) : P v :=
  match v with
  | JNull => Hnull
  | JBool b => Hbool b
  | JNum s => Hnum s
  | JStr s => Hstr s
  | JArr l => Harr l ((fix go l : Forall P l :=
      match l with [] => Forall_nil_2 _ | x :: l' => Forall_cons_2 _ _ _ (json_induction x) (go l') end) l)
  | JObj l => Hobj l ((fix go l : Forall (λ p, P p.2) l :=
      match l with [] => Forall_nil_2 _ | (k, x) :: l' => Forall_cons_2 _ (k, x) _ (json_induction x) (go l') end) l)
  end.
End json_induction.

Section loops.
Context (m : bool) (pointer : string).
Fixpoint walk_keys (ro : bool) (l : list (string * json)) : list string :=
  match l with
  | [] => []
  | (key, x) :: l' =>
      let child := pointer ++ "/" ++ escapePointer key in
      ((if (key =? icsKey)%string then if m && ro && monitorPolicyICS x then [] else [child] else []) ++
       walkKeys m child false x ++ walk_keys ro l')%list
  end.
Fixpoint walk_items (index : Z) (l : list json) : list string :=
  match l with
  | [] => []
  | x :: l' => (walkKeys m (pointer ++ "/" ++ pretty index) (pointer =? "/firewall/rules")%string x ++
                walk_items (index + 1) l')%list
  end.
End loops.

Lemma walk_obj m pointer ro l : walkKeys m pointer ro (JObj l) = [] ↔
  ∀ k x, (k, x) ∈ l → (k = icsKey → m = true ∧ ro = true ∧ monitorPolicyICS x = true) ∧
    walkKeys m (pointer ++ "/" ++ escapePointer k) false x = [].
Proof.
  assert (walkKeys m pointer ro (JObj l) = walk_keys m pointer ro l) as ->.
  { cbn [walkKeys]. induction l as [|[k x] l IH]; [done|]. cbn [walk_keys]. by rewrite <- IH. }
  induction l as [|[k x] l IH].
  { split; [|done]. intros _ k x Hin. by apply elem_of_nil in Hin. }
  cbn [walk_keys]. cbv zeta. split.
  - intros [Hk [Hx Hl]%app_nil]%app_nil k' x' [[= -> ->]|Hin]%elem_of_cons; [|by apply IH].
    split; [|done]. intros ->. rewrite String.eqb_refl in Hk. destruct m, ro, (monitorPolicyICS x); done.
  - intros Hall. destruct (Hall k x) as [Hk Hx]; [by left|]. rewrite Hx.
    rewrite (proj2 IH) by (intros; apply Hall; by right). rewrite !app_nil_r.
    destruct (String.eqb_spec k icsKey) as [->|]; [|done]. by destruct (Hk eq_refl) as (-> & -> & ->).
Qed.

Lemma walk_arr m pointer ro l : walkKeys m pointer ro (JArr l) = [] ↔
  ∀ i x, l !! i = Some x →
    walkKeys m (pointer ++ "/" ++ pretty (Z.of_nat i)) (pointer =? "/firewall/rules")%string x = [].
Proof.
  change (walkKeys m pointer ro (JArr l)) with (walk_items m pointer 0 l).
  assert (∀ l n, walk_items m pointer (Z.of_nat n) l = [] ↔ ∀ i x, l !! i = Some x →
    walkKeys m (pointer ++ "/" ++ pretty (Z.of_nat (n + i))) (pointer =? "/firewall/rules")%string x = []) as Hgen.
  { clear l. induction l as [|x l IH]; intros n; [done|]. cbn [walk_items].
    replace (Z.of_nat n + 1) with (Z.of_nat (S n)) by lia. split.
    - intros [Hx Hl]%app_nil [|i] y Hy; [injection Hy as <-; by rewrite Nat.add_0_r|].
      rewrite Nat.add_succ_r. by apply (proj1 (IH (S n)) Hl i).
    - intros Hall. pose proof (Hall O x eq_refl) as H0. rewrite Nat.add_0_r in H0. rewrite H0. apply IH. intros i y Hy.
      specialize (Hall (S i) y Hy). by rewrite Nat.add_succ_r in Hall. }
  exact (Hgen l O).
Qed.

Lemma not_rule_key q k : ¬ rule_path (q ++ [Key k]).
Proof. intros [i Hi]. destruct q as [|? [|? [|? [|]]]]; done. Qed.
Lemma rule_index q i : rule_path (q ++ [Index i]) ↔ q = [Key "firewall"; Key "rules"].
Proof. split; [|intros ->; by exists i]. intros [j Hj]. destruct q as [|? [|? [|? [|]]]]; cbn in Hj; try done. by injection Hj as -> -> _. Qed.

Lemma walk_nil m v : ∀ q ro, (ro = true ↔ rule_path q) →
  walkKeys m (render q) ro v = [] ↔
  ∀ p x, at_path v (p ++ [Key icsKey]) x → m = true ∧ rule_path (q ++ p) ∧ monitorPolicyICS x = true.
Proof.
  induction v as [|b|s|s|l IH|l IH] using json_induction; intros q ro Hro.
  1-4: split; [|done]; intros _ p x Hp; destruct p; inversion Hp.
  - rewrite walk_arr. rewrite Forall_lookup in IH.
    assert (∀ i, (render q =? "/firewall/rules")%string = true ↔ rule_path (q ++ [Index i])) as Hq.
    { intros i. by rewrite String.eqb_eq, render_rules, rule_index. }
    split.
    + intros Hall p x Hp. destruct p as [|t p]; inversion Hp as [|?|? i y ? ? Hi Hy]; subst.
      specialize (Hall i y Hi). change (pretty (Z.of_nat i)) with (token_text (Index i)) in Hall. rewrite <- render_snoc in Hall.
      destruct (proj1 (IH i y Hi _ _ (Hq i)) Hall p x Hy) as (H1 & H2 & H3). by rewrite <- app_assoc in H2.
    + intros Hall i y Hi. change (pretty (Z.of_nat i)) with (token_text (Index i)). rewrite <- render_snoc.
      apply (IH i y Hi _ _ (Hq i)). intros p x Hp. rewrite <- app_assoc. apply Hall. cbn. by apply (at_index l i y).
  - rewrite walk_obj. rewrite Forall_forall in IH.
    assert (∀ k, false = true ↔ rule_path (q ++ [Key k])) as Hk by (intros k; split; [done|]; by intros ?%not_rule_key).
    split.
    + intros Hall p x Hp. destruct p as [|t p]; inversion Hp as [|? k y ? ? Hin Hy|]; subst.
      * destruct (Hall icsKey y Hin) as [Hics _]. inversion Hy; subst. destruct (Hics eq_refl) as (-> & Hr & ->).
        rewrite app_nil_r. by apply Hro in Hr.
      * destruct (Hall k y Hin) as [_ Hw]. change (escapePointer k) with (token_text (Key k)) in Hw. rewrite <- render_snoc in Hw.
        destruct (proj1 (IH (k, y) Hin _ _ (Hk k)) Hw p x Hy) as (H1 & H2 & H3). by rewrite <- app_assoc in H2.
    + intros Hall k y Hin. split.
      * intros ->. destruct (Hall [] y) as (H1 & H2 & H3); [apply (at_key l icsKey y); [done|constructor]|].
        rewrite app_nil_r in H2. by apply Hro in H2.
      * change (escapePointer k) with (token_text (Key k)). rewrite <- render_snoc.
        apply (IH (k, y) Hin _ _ (Hk k)). intros p x Hp. rewrite <- app_assoc. apply Hall. cbn. by apply (at_key l k y).
Qed.

(** ** Management safety *)
Record interface_safe (i : Interface) : Prop := {
  safe_zone : If_Name i = "lan3" ↔ If_Zone i = "lan3";
  safe_access : If_Name i = "lan3" → ∀ flag, flag ∈ ["mgmt"; "http"; "https"; "ssh"] →
    key_value flag (Access i) ≠ Some (Some false);
  safe_binding : Device i = "" ∧ (If_Type i = "" ∨ If_Type i = "physical") ∧ Parent i = "" ∧ VLANID i = 0 ∧
    Members i = [] ∧ AddressMode i = "" ∧ If_Addresses i = [] ∧ Gateway i = ""
}.

(** The management network keeps its interface, address, routes and listener. *)
Record management_safe (doc : PolicyDoc) : Prop := {
  ms_names : NoDup (If_Name <$> Interfaces doc);
  ms_lan3 : "lan3" ∈ (If_Name <$> Interfaces doc);
  ms_interfaces : Forall interface_safe (Interfaces doc);
  ms_http : EnableHTTP doc ≠ Some false ∧ RedirectHTTPToHTTPS doc ≠ Some true;
  ms_listen : listener_ok (ListenAddr doc) = true ∧ listener_ok (HTTPListenAddr doc) = true;
  ms_routes : Gateways doc = [] ∧ Routes doc = [] ∧ RouteRules doc = [];
  ms_nat : NAT_Enabled doc = true → is_lan3 (EgressZone doc) = false ∧ NAT_SourceZones doc ≠ [] ∧
    ∀ z, z ∈ NAT_SourceZones doc → is_lan3 z = false;
  ms_forwards : ∀ f, f ∈ PortForwards doc → F_Enabled f = true →
    TrimSpace (IngressZone f) ≠ "" ∧ is_lan3 (IngressZone f) = false ∧
    ListenPort f ≠ 8080 ∧ ListenPort f ≠ 8443 ∧ ListenPort f ≠ 2222;
  ms_services : Proxy_Forward doc = false ∧ Proxy_Reverse doc = false ∧ Wireguard doc = false ∧ Openvpn doc = false
}.

Lemma guard_ok {E} (e : E) b (k : outcome E unit) : guard_err e b k = Ok tt ↔ b = false ∧ k = Ok tt.
Proof. destruct b; cbn; naive_solver. Qed.

Lemma find_none_iff {A} (f : A → bool) l : List.find f l = None ↔ ∀ x, x ∈ l → f x = false.
Proof.
  split.
  - intros Hn x Hx. apply (find_none f l Hn). by apply list_elem_of_In.
  - intros Hall. destruct (List.find f l) as [x|] eqn:Hf; [|done]. apply find_some in Hf as [Hin Hf].
    apply list_elem_of_In, Hall in Hin. congruence.
Qed.

Lemma length_ltb_nil {A} (l : list A) : (0 <? length l)%nat = false ↔ l = [].
Proof. by destruct l. Qed.
Lemma neqb_nil s : negb (s =? "")%string = false ↔ s = "".
Proof. rewrite negb_false_iff. apply String.eqb_eq. Qed.

Lemma settings_ok i : List.find snd (interface_settings i) = None ↔
  Device i = "" ∧ (If_Type i = "" ∨ If_Type i = "physical") ∧ Parent i = "" ∧ VLANID i = 0 ∧
    Members i = [] ∧ AddressMode i = "" ∧ If_Addresses i = [] ∧ Gateway i = "".
Proof.
  rewrite find_none_iff. unfold interface_settings. rewrite <- Forall_forall, !Forall_cons, Forall_nil. cbn [snd].
  rewrite !neqb_nil, !length_ltb_nil, andb_false_iff, neqb_nil, !negb_false_iff, Z.eqb_eq, String.eqb_eq. tauto.
Qed.

Lemma check_interface_ok field i : check_interface field i = None ↔ interface_safe i.
Proof.
  unfold check_interface.
  assert (List.find (flag_off i) ["mgmt"; "http"; "https"; "ssh"] = None ↔
    ∀ flag, flag ∈ ["mgmt"; "http"; "https"; "ssh"] → key_value flag (Access i) ≠ Some (Some false)) as Hflags.
  { rewrite find_none_iff. apply forall_proper. intros flag. unfold flag_off.
    destruct (key_value flag (Access i)) as [[[]|]|]; cbn; split; intros Hx Hin; try done; try (by specialize (Hx Hin)); by apply Hx in Hin. }
  pose proof (settings_ok i) as Hset.
  destruct (String.eqb_spec (If_Name i) "lan3") as [Hn|Hn], (String.eqb_spec (If_Zone i) "lan3") as [Hz|Hz]; cbn [negb].
  - destruct (List.find (flag_off i) _) as [flag|].
    { split; [done|]. intros [_ Ha _]. by discriminate (proj2 Hflags (Ha Hn)). }
    destruct (List.find snd _) as [[name b]|]; (split; [try done|intros [? ? Hb]; by try discriminate (proj2 Hset Hb)]).
    intros _. constructor; [done|by intros _; apply Hflags|by apply Hset].
  - split; [done|]. intros [Hi _ _]. by apply Hi in Hn.
  - split; [done|]. intros [Hi _ _]. by apply Hi in Hz.
  - destruct (List.find snd _) as [[name b]|]; (split; [try done|intros [? ? Hb]; by try discriminate (proj2 Hset Hb)]).
    intros _. constructor; [done|done|by apply Hset].
Qed.

Lemma check_interfaces_ok l : ∀ index names n, check_interfaces index names l = Ok n ↔
  NoDup (If_Name <$> l) ∧ (∀ i, i ∈ l → If_Name i ∉ names) ∧ Forall interface_safe l ∧
  n = (if bool_decide ("lan3" ∈ (If_Name <$> l)) then 1 else 0).
Proof.
  induction l as [|i l IH]; intros index names n; cbn [check_interfaces fmap list_fmap].
  { split; [|by intros (_ & _ & _ & ->)]. intros [= <-]. split_and!; [constructor| |constructor|done]. intros i Hi. by apply elem_of_nil in Hi. }
  cbv zeta. destruct (bool_decide_reflect (If_Name i ∈ names)) as [Hin|Hin].
  { split; [done|]. intros (_ & Hnot & _). exfalso. apply (Hnot i); [by left|done]. }
  pose proof (check_interface_ok ("interfaces/" ++ pretty index) i) as Hi.
  destruct (check_interface _ i) as [e|].
  { split; [done|]. intros (_ & _ & [Hs _]%Forall_cons & _). by apply Hi in Hs. }
  specialize (IH (index + 1) (If_Name i :: names)).
  rewrite NoDup_cons, Forall_cons, bool_decide_decide. split.
  - intros Hr. destruct (check_interfaces _ _ l) as [k|e| |] eqn:Hk; try done. cbn in Hr. injection Hr as <-.
    destruct (proj1 (IH k) eq_refl) as (Hnd & Hnot & Hs & ->). split_and!; [|done| |by apply Hi|done|].
    + intros (j & Hj & Hl)%list_elem_of_fmap. apply (Hnot j Hl). rewrite <- Hj. by left.
    + intros j [->|Hj]%elem_of_cons; [done|]. intros Hn. apply (Hnot j Hj). by right.
    + destruct (String.eqb_spec (If_Name i) "lan3") as [He|He].
      * rewrite bool_decide_eq_false_2; [by rewrite decide_True by (rewrite He; by left)|].
        intros (j & Hj & Hl)%list_elem_of_fmap. apply (Hnot j Hl). rewrite <- Hj, He. by left.
      * case_bool_decide as Hm; [rewrite decide_True by (by right)|rewrite decide_False]; [done|done|].
        intros [Heq|Hm']%elem_of_cons; [congruence|done].
  - intros ((Hni & Hnd) & Hnot & (Hsi & Hs) & ->).
    rewrite (proj2 (IH _)) by (split_and!; [done| |done|reflexivity]; intros j Hj [Heq|Hn]%elem_of_cons;
      [apply Hni; rewrite <- Heq; by apply list_elem_of_fmap_2|apply (Hnot j); [by right|done]]). cbn. f_equal.
    destruct (String.eqb_spec (If_Name i) "lan3") as [He|He].
    + rewrite bool_decide_eq_false_2 by (by rewrite <- He). by rewrite decide_True by (rewrite He; by left).
    + case_bool_decide as Hm; [rewrite decide_True by (by right)|rewrite decide_False]; [done|done|].
      intros [Heq|Hm']%elem_of_cons; [congruence|done].
Qed.

Lemma forward_ok f : forward_refused f = false ↔ (F_Enabled f = true →
    TrimSpace (IngressZone f) ≠ "" ∧ is_lan3 (IngressZone f) = false ∧
    ListenPort f ≠ 8080 ∧ ListenPort f ≠ 8443 ∧ ListenPort f ≠ 2222).
Proof.
  unfold forward_refused. rewrite andb_false_iff, !orb_false_iff, String.eqb_neq, !Z.eqb_neq.
  destruct (F_Enabled f); naive_solver.
Qed.

Lemma check_forwards_ok l : ∀ index, check_forwards index l = Ok tt ↔ ∀ f, f ∈ l → forward_refused f = false.
Proof.
  induction l as [|f l IH]; intros index; cbn [check_forwards].
  { split; [|done]. intros _ f Hf. by apply elem_of_nil in Hf. }
  destruct (forward_refused f) eqn:Hf.
  - split; [done|]. intros Hall. specialize (Hall f). rewrite Hf in Hall. by discriminate Hall; left.
  - rewrite IH. split; [|intros Hall g Hg; apply Hall; by right]. intros Hall g [->|Hg]%elem_of_cons; [done|by apply Hall].
Qed.

Lemma opt_false_ok (o : option bool) : match o with Some b => negb b | None => false end = false ↔ o ≠ Some false.
Proof. by destruct o as [[]|]. Qed.
Lemma opt_true_ok (o : option bool) : match o with Some b => b | None => false end = false ↔ o ≠ Some true.
Proof. by destruct o as [[]|]. Qed.

Lemma nat_sources_ok b l : b && existsb is_lan3 l = false ↔ (b = true → ∀ z, z ∈ l → is_lan3 z = false).
Proof.
  rewrite andb_false_iff. destruct b; [|by split; [|left]]. split.
  - intros [|He]; [done|]. intros _ z Hz. destruct (is_lan3 z) eqn:Hl; [|done].
    assert (existsb is_lan3 l = true) as Ht by (apply existsb_exists; exists z; split; [by apply list_elem_of_In|done]). congruence.
  - intros Hall. right. apply not_true_iff_false. intros (z & Hz & Hl)%existsb_exists.
    apply list_elem_of_In in Hz. rewrite (Hall eq_refl z Hz) in Hl. done.
Qed.

Lemma andb_ok b c : b && c = false ↔ (b = true → c = false).
Proof. destruct b, c; naive_solver. Qed.
Lemma length_eqb_nil {A} (l : list A) : (length l =? 0)%nat = false ↔ l ≠ [].
Proof. by destruct l. Qed.

Lemma bind_unit_ok {E} (m k : outcome E unit) : (let! _ := m in k) = Ok tt ↔ m = Ok tt ∧ k = Ok tt.
Proof. destruct m as [[]|e| |]; cbn; naive_solver. Qed.

Lemma safety_exact doc : CheckManagementSafety doc = Ok tt ↔ management_safe doc.
Proof.
  unfold CheckManagementSafety. destruct (check_interfaces 0 [] (Interfaces doc)) as [n|e| |] eqn:Hi.
  2-4: split; [done|]; intros [H1 H2 H3 _ _ _ _ _ _];
    (rewrite (proj2 (check_interfaces_ok (Interfaces doc) 0 [] 1)) in Hi; [discriminate Hi|]);
    rewrite bool_decide_eq_true_2 by done; split_and!; try done; intros i _; apply not_elem_of_nil.
  apply check_interfaces_ok in Hi as (Hnd & _ & Hs & ->). cbn [bind].
  rewrite !guard_ok, bind_unit_ok, check_forwards_ok, !guard_ok, opt_false_ok, opt_true_ok, !negb_false_iff, !length_ltb_nil.
  rewrite nat_sources_ok, !andb_ok, length_eqb_nil, !orb_false_iff, Z.eqb_eq.
  split.
  - intros (Hl & H1 & H2 & H3 & H4 & H5 & H6 & H7 & H8 & H9 & H10 & H11 & [H12 H13] & [H14 H15] & _). constructor.
    + done.
    + case_bool_decide; done.
    + done.
    + by split.
    + by split.
    + by split_and!.
    + intros Hn. split_and!; [by apply H8|by apply H9|by apply H10].
    + intros f Hf. apply forward_ok. by apply H11.
    + by split_and!.
  - intros [_ Hl _ [H1 H2] [H3 H4] (H5 & H6 & H7) Hn Hf (H8 & H9 & H10 & H11)].
    rewrite bool_decide_eq_true_2 by done. split_and!; try done; try (intros Hen; by destruct (Hn Hen) as (? & ? & ?)).
    intros f Hin. by apply forward_ok, Hf.
Qed.

(** C18. The lint accepts exactly the safe documents.  A policy passes if and
    only if its mode is known, it is an object whose management part is safe
    (one interface lan3 with its own zone and access, no static binding, no
    route, NAT, port forward or listener that could take the management
    network), and its [ics] keys, at every depth and duplicates included, are
    where the mode wants them: nowhere under forbidden, and under monitor only
    in a rule of the firewall, with a protocol and the mode monitor. *)
Theorem lint_exact decode_doc v mode : LintPolicy decode_doc (Some v) mode = Ok tt ↔
  mode ∈ [ICSRulesAllowed; ICSRulesForbidden; ICSRulesMonitor] ∧ (∃ l, v = JObj l) ∧
  (∃ doc, decode_doc v = Some doc ∧ management_safe doc) ∧
  (mode = ICSRulesForbidden → ∀ p x, ¬ at_path v (p ++ [Key icsKey]) x) ∧
  (mode = ICSRulesMonitor → ∀ p x, at_path v (p ++ [Key icsKey]) x → rule_path p ∧ monitorPolicyICS x = true).
Proof.
  unfold LintPolicy. rewrite guard_ok, negb_false_iff, bool_decide_eq_true, guard_ok, bind_unit_ok.
  assert (match v with JObj _ => false | _ => true end = false ↔ ∃ l, v = JObj l) as -> by (destruct v; naive_solver).
  assert (check_safety decode_doc v = Ok tt ↔ ∃ doc, decode_doc v = Some doc ∧ management_safe doc) as ->.
  { unfold check_safety. destruct (decode_doc v) as [doc|]; [rewrite safety_exact|]; naive_solver. }
  assert (false = true ↔ rule_path []) as Hroot by (split; [done|]; intros [i Hi]; done).
  pose proof (λ m, walk_nil m v [] false Hroot) as Hwalk. cbn [render app] in Hwalk.
  assert (∀ problems : list string, match problems with [] => Ok tt | s :: l => Err (Forbidden (s :: l)) end = Ok tt ↔ problems = []) as Hp
    by (by intros []).
  split.
  - intros (Hm & Hobj & Hdoc & Hr). split_and!; try done.
    + intros ->. cbn in Hr. apply Hp in Hr. intros p x Hx. by destruct (proj1 (Hwalk false) Hr p x Hx).
    + intros ->. cbn in Hr. apply Hp in Hr. intros p x Hx. by destruct (proj1 (Hwalk true) Hr p x Hx).
  - intros (Hm & Hobj & Hdoc & Hf & Hmon). split_and!; try done.
    rewrite !elem_of_cons, elem_of_nil in Hm. destruct Hm as [->|[->|[->|[]]]]; [done|..]; cbn; apply Hp, Hwalk.
    + intros p x Hx. by destruct (Hf eq_refl p x).
    + intros p x Hx. by split; [|apply Hmon].
Qed.
