(* ===== verification/Plan.v ===== *)
(** * Exercise plans (backend/internal/labs/plan*.go)

    The firewall program an exercise team compiles from the actions it chose:
    the plan's data, its validation, the compilation to an ordered rule list
    and the first-match evaluation of the plan's proof tuples.

    An error is the format and the arguments of the source's [fmt.Errorf].  A
    slice is an [option] list where the code tells nil from empty.  A Go map is
    the list of its entries in the order an iteration happens to take; the
    theorems hold for every order.  [encoding/json] and the YAML library are
    not modelled below the level of fields: documents are the trees of
    [Policy], and decoding one into a struct is a parameter. *)
From S2P Require Import Prelude GoLib GoText NetIP Policy.
From stdpp Require Import pretty.

#[local] Open Scope string_scope.
#[local] Open Scope Z_scope.

(** ** Errors *)
Inductive plan_error : Type :=
| Errorf (format : string) (args : list string)
| Wrapf (format : string) (args : list string) (cause : plan_error)
| Lint (e : policy_error).

Notation M := (outcome plan_error).

(** A loop that ends at the first error. *)
Fixpoint each {A} (f : A → M unit) (l : list A) : M unit :=
  match l with
  | [] => Ok tt
  | x :: l' => let! _ := f x in each f l'
  end.
Fixpoint foldM {A S} (f : S → A → M S) (s : S) (l : list A) : M S :=
  match l with
  | [] => Ok s
  | x :: l' => let! s := f s x in foldM f s l'
  end.
(** [if err := m; err != nil { return fmt.Errorf(format, args..., err) }]. *)
Definition wrapping {A} (format : string) (args : list string) (m : M A) : M A :=
  match m with Err e => Err (Wrapf format args e) | _ => m end.

Definition is_some {A} (o : option A) : bool := match o with Some _ => true | None => false end.
Definition contains (l : list string) (x : string) : bool := bool_decide (x ∈ l).
Definition containsZ (l : list Z) (x : Z) : bool := bool_decide (x ∈ l).
(** [len] of a slice that may be nil, and its elements. *)
Definition elems {A} (o : option (list A)) : list A := default [] o.
Definition len {A} (o : option (list A)) : Z := zlen (elems o).

(** ** Data *)
Record PlanICS : Type := mkICS {
  Protocol : string;
  FunctionCode : option (list Z);
  UnitID : option Z;
  Addresses : option (list string);
  ObjectClasses : option (list Z);
  ReadOnly : bool;
  WriteOnly : option bool;
  Direction : string;
  ICS_Mode : string;
  TypeIDs : option (list Z);
  Classes : option (list string);
  CA : option (list Z);
  IOA : option (list (Z * Z));
  COT : option (list Z);
  Originators : option (list Z);
  Negative : option bool;
  Test_ : option bool;
  SelectExecute : string;
  CommandStates : option (list Z);
  CommandQualifiers : option (list Z)
}.

Record PlanProtocol : Type := mkProtocol { Proto_Name : string; Port : string }.

Record PlanRule : Type := mkRule {
  Rule_ID : string;
  Rule_Description : string;
  SourceZones : list string;
  DestZones : list string;
  Sources : list string;
  Destinations : list string;
  Protocols : list PlanProtocol;
  ICS : option PlanICS;
  Action : string;
  Log : bool
}.

Record PlanSlot : Type := mkSlot {
  Required : option PlanRule;
  Slot_Action : string;
  Selected : option (list PlanRule);
  Deferred : option (list PlanRule)
}.

Record PlanDetect : Type := mkDetect {
  Detect_Rules : list PlanRule;
  Detect_Log : list string;
  Detect_ICS : option (list (string * PlanICS))
}.

Inductive Verdict : Type := VerdictAllow | VerdictDeny.
#[export] Instance Verdict_eq_dec : EqDecision Verdict.
Proof. solve_decision. Defined.

(** [Expect] is the text of the file. *)
Record PlanProof : Type := mkProof {
  Proof_ID : string;
  From : string;
  To : string;
  Network : string;
  Proof_Port : Z;
  Category : string;
  Expect : string;
  Owners : option (list string);
  Labs : list string;
  Note : string
}.

Record CurriculumPlan : Type := mkPlan {
  Rules : list PlanSlot;
  Detect : option (list (string * PlanDetect));
  Proof_ : list PlanProof
}.

Record DecisionRole : Type := mkTeam { Team_Name : string; CapacityHours : Z }.
Record DecisionAction : Type := mkAction { Action_ID : string; EffortHours : Z; Roles : list string }.
Record Curriculum : Type := mkCurriculum {
  Plan : option CurriculumPlan;
  BudgetHours : Z;
  Teams : list DecisionRole;
  Catalog : list DecisionAction;
  LabRoles : list (string * string)
}.

Record NetworkYAML : Type := mkNetwork { Net_ID : string; CIDR : string; Subnet : string; Zone : string }.
Record NodeYAML : Type := mkNode { Node_ID : string; Networks : list string; IP : string }.
Record Package : Type := mkPackage {
  Nodes : list NodeYAML;
  Template_Networks : list NetworkYAML;
  ICSRules : string;
  planEnvelope : option json
}.

Inductive PlanActionKind : Type := PlanActionEnforce | PlanActionDetect | PlanActionOnly.
#[export] Instance PlanActionKind_eq_dec : EqDecision PlanActionKind.
Proof. solve_decision. Defined.

Record PlanAction : Type := mkPlanAction { PA_ID : string; Kind : PlanActionKind; Chosen : bool }.
Record PlanOrigin : Type := mkOrigin { Origin_Kind : string; Origin_Action : string }.
Record CompiledPlanRule : Type := mkCompiled { Rule : PlanRule; Origin : PlanOrigin }.

Record PlanTuple : Type := mkTuple {
  SrcZone : string; DstZone : string; SrcIP : string; DstIP : string; Tuple_Protocol : string; Tuple_Port : Z }.
Record PlanRoute : Type := mkRoute { Tuple : PlanTuple; SourceNetwork : string; Bridged : bool }.

Record PlanExpectation : Type := mkExpectation {
  E_Proof : PlanProof;
  PlanVerdict : Verdict;
  HardenedVerdict : Verdict;
  E_Bridged : bool
}.
Record CompiledPlan : Type := mkCompiledPlan {
  Config : json;
  CRules : list CompiledPlanRule;
  Actions : list PlanAction;
  Label : string;
  Expectations : list PlanExpectation
}.

(** ** Evaluation *)
Definition planVerdict (action : string) : Verdict :=
  if (action =? "ALLOW")%string then VerdictAllow else VerdictDeny.

Definition planZoneMatches (zones : list string) (zone : string) : bool :=
  match zones with [] => true | _ => contains zones zone end.

Definition selector_matches (ip : Addr) (selector : string) : bool :=
  match ParseAddr selector with Some a => bool_decide (a = ip) | None => false end ||
  match ParsePrefix selector with Some p => Prefix_Contains p ip | None => false end.
Definition planAddressMatches (selectors : list string) (value : string) : bool :=
  match selectors with
  | [] => true
  | _ => match ParseAddr value with
         | None => false
         | Some ip => existsb (selector_matches ip) selectors
         end
  end.

Definition planPort (value part : string) : M Z :=
  match bytes_of part with
  | [] => Err (Errorf "invalid port %q" [value])
  | l => match digits_value 0 l with
         | Some port => if (port <? 1) || (65535 <? port) then Err (Errorf "invalid port %q" [value]) else Ok port
         | None => Err (Errorf "invalid port %q" [value])
         end
  end.
Definition dash : ascii := ascii_of_nat 45.
Definition planPortRange (value : string) : M (Z * Z) :=
  match split_at dash value with
  | [a] => let! p := planPort value a in Ok (p, p)
  | [a; b] =>
      let! low := planPort value a in
      let! high := planPort value b in
      if high <? low then Err (Errorf "invalid port range %q" [value]) else Ok (low, high)
  | _ => Err (Errorf "invalid port %q" [value])
  end.

Definition protocol_matches (name : string) (port : Z) (p : PlanProtocol) : bool :=
  (Proto_Name p =? name)%string &&
  ((Port p =? "")%string ||
   match planPortRange (Port p) with Ok (low, high) => (low <=? port) && (port <=? high) | _ => false end).
Definition planProtocolMatches (protocols : list PlanProtocol) (name : string) (port : Z) : bool :=
  match protocols with [] => true | _ => existsb (protocol_matches name port) protocols end.

(** The rules that do not decide. *)
Definition transparent (r : PlanRule) : bool :=
  (Action r =? "RATE_LIMIT")%string || (Action r =? "TAG")%string ||
  match ICS r with Some p => (ICS_Mode p =? "monitor")%string | None => false end.
Definition rule_matches (r : PlanRule) (t : PlanTuple) : bool :=
  planZoneMatches (SourceZones r) (SrcZone t) && planZoneMatches (DestZones r) (DstZone t) &&
  planAddressMatches (Sources r) (SrcIP t) && planAddressMatches (Destinations r) (DstIP t) &&
  planProtocolMatches (Protocols r) (Tuple_Protocol t) (Tuple_Port t).

Fixpoint Evaluate (rules : list PlanRule) (defaultAction : string) (t : PlanTuple) : Verdict :=
  match rules with
  | [] => planVerdict defaultAction
  | r :: rules' =>
      if transparent r then Evaluate rules' defaultAction t
      else if negb (rule_matches r t) then Evaluate rules' defaultAction t
      else planVerdict (Action r)
  end.

Definition planNetworkPrefix (n : NetworkYAML) : option Prefix :=
  ParsePrefix (if (Subnet n =? "")%string then CIDR n else Subnet n).

(** The last element with the property, as a loop without break finds it. *)
Definition find_last {A} (f : A → bool) (l : list A) : option A := List.find f (rev l).

Definition network_prefixes (l : list NetworkYAML) : M (list (NetworkYAML * Prefix)) :=
  foldM (λ acc n, match planNetworkPrefix n with
                  | None => Err (Errorf "network %s: invalid subnet" [Net_ID n])
                  | Some p => Ok (acc ++ [(n, p)])%list
                  end) [] l.

Definition ResolvePlanTuple (pkg : Package) (proof : PlanProof) : M PlanRoute :=
  match find_last (λ n, (Node_ID n =? From proof)%string) (Nodes pkg),
        find_last (λ n, (Node_ID n =? To proof)%string) (Nodes pkg) with
  | Some source, Some target =>
      match ParseAddr (IP source) with
      | None => Err (Errorf "proof %s: invalid source IP %q" [Proof_ID proof; IP source])
      | Some ip =>
          let! nets := network_prefixes (Template_Networks pkg) in
          let destination := find_last (λ n, (Net_ID n =? Network proof)%string) (Template_Networks pkg) in
          match fst <$> filter (λ np, Prefix_Contains np.2 ip = true) nets with
          | [src] =>
              if negb (contains (Networks source) (Net_ID src)) || (Zone src =? "")%string
              then Err (Errorf "proof %s: source IP network is not an attached teaching zone" [Proof_ID proof])
              else
                match destination with
                | Some destination =>
                    if (Zone destination =? "")%string || negb (contains (Networks target) (Network proof))
                    then Err (Errorf "proof %s: unknown or unattached destination network %s" [Proof_ID proof; Network proof])
                    else
                      match ParseAddr (IP target), planNetworkPrefix destination with
                      | Some dstIP, Some prefix =>
                          if Prefix_Contains prefix dstIP then
                            Ok (mkRoute (mkTuple (Zone src) (Zone destination) (IP source) (IP target) "tcp" (Proof_Port proof))
                                  (Net_ID src) (Net_ID src =? Net_ID destination)%string)
                          else Err (Errorf "proof %s: destination IP is not in network %s" [Proof_ID proof; Network proof])
                      | _, _ => Err (Errorf "proof %s: destination IP is not in network %s" [Proof_ID proof; Network proof])
                      end
                | None => Err (Errorf "proof %s: unknown or unattached destination network %s" [Proof_ID proof; Network proof])
                end
          | l => Err (Errorf "proof %s: source IP must match exactly one topology network, got %d"
                        [Proof_ID proof; pretty (zlen l)])
          end
      end
  | _, _ => Err (Errorf "proof %s: unknown source or destination node" [Proof_ID proof])
  end.

Definition evaluatePlanRoute (rules : list PlanRule) (defaultAction : string) (r : PlanRoute) : Verdict :=
  if Bridged r then VerdictAllow else Evaluate rules defaultAction (Tuple r).

(** ** Validation of predicates *)
Definition validateGenericPlanICS (p : PlanICS) : M unit :=
  let! _ := each (λ code, guard_err (Errorf "ics functionCode must be in 0..255" []) ((code <? 0) || (255 <? code)) (Ok tt))
              (elems (FunctionCode p)) in
  guard_err (Errorf "invalid ics protocol %q" [Protocol p]) (negb (contains [""; "modbus"; "dnp3"; "iec104"] (Protocol p)))
  (guard_err (Errorf "invalid ics direction %q" [Direction p]) (negb (contains [""; "request"; "response"] (Direction p)))
  (guard_err (Errorf "invalid ics mode %q" [ICS_Mode p]) (negb (contains [""; "monitor"; "enforce"] (ICS_Mode p)))
  (guard_err (Errorf "ics mode requires a protocol" []) (negb (ICS_Mode p =? "")%string && (Protocol p =? "")%string)
  (guard_err (Errorf "ics unitId is Modbus-only" []) (is_some (UnitID p) && negb (Protocol p =? "modbus")%string)
  (guard_err (Errorf "ics addresses require modbus; DNP3 point indexes require unsupported groups" [])
     (negb (len (Addresses p) =? 0) && negb (Protocol p =? "modbus")%string)
  (guard_err (Errorf "ics objectClasses require unsupported cip" []) (negb (len (ObjectClasses p) =? 0))
  (guard_err (Errorf "ics cannot be both readOnly and writeOnly" [])
     (ReadOnly p && match WriteOnly p with Some b => b | None => false end)
  (Ok tt)))))))).

Definition range_fields (p : PlanICS) : list (string * option (list Z) * Z * Z) :=
  [("typeIds", TypeIDs p, 1, 255); ("ca", CA p, 0, 65534); ("cot", COT p, 1, 63);
   ("originators", Originators p, 0, 255); ("commandQualifiers", CommandQualifiers p, 0, 31)].

Definition nil_or_nonempty {A} (o : option (list A)) : bool := match o with Some [] => false | _ => true end.

Definition check_range (f : string * option (list Z) * Z * Z) : M unit :=
  let '(name, values, min, max) := f in
  guard_err (Errorf "ics %s must not be empty" [name]) (negb (nil_or_nonempty values))
  (each (λ v, guard_err (Errorf "ics %s must be in %d..%d" [name; pretty min; pretty max])
                ((v <? min) || (max <? v)) (Ok tt)) (elems values)).

(** The spans before one, and the loop over all of them. *)
Fixpoint check_spans (previous : list (Z * Z)) (l : list (Z * Z)) : M unit :=
  match l with
  | [] => Ok tt
  | (start, end_) :: l' =>
      guard_err (Errorf "ics ioa must be ordered in 0..16777215" [])
        ((start <? 0) || (16777215 <? end_) || (end_ <? start))
      (guard_err (Errorf "ics ioa ranges must not overlap" [])
         (existsb (λ q, (start <=? q.2) && (q.1 <=? end_)) previous)
      (check_spans (previous ++ [(start, end_)]) l'))
  end.

(** [subset] of [validatePlanICS]. *)
Definition subset_types (p : PlanICS) (allowed : list Z) : bool := forallb (containsZ allowed) (elems (TypeIDs p)).

Definition check_commandStates (p : PlanICS) : M unit :=
  match CommandStates p with
  | None => Ok tt
  | Some states =>
      guard_err (Errorf "ics commandStates requires nonempty states and explicit typeIds" [])
        ((zlen states =? 0) || (len (TypeIDs p) =? 0))
      (let! mm := if negb (subset_types p [45; 58]) then
                    if negb (subset_types p [46; 47; 59; 60])
                    then Err (Errorf "ics commandStates requires typeIds in one state domain" [])
                    else Ok (1, 2)
                  else Ok (0, 1) in
       each (λ s, guard_err (Errorf "ics commandStates must be in %d..%d" [pretty mm.1; pretty mm.2])
                    ((s <? mm.1) || (mm.2 <? s)) (Ok tt)) states)
  end.

Definition validatePlanICS (p : PlanICS) : M unit :=
  let! _ := validateGenericPlanICS p in
  if negb (Protocol p =? "iec104")%string then
    guard_err (Errorf "ics IEC selectors are iec104-only" [])
      (is_some (TypeIDs p) || is_some (Classes p) || is_some (CA p) || is_some (IOA p) || is_some (COT p) ||
       is_some (Originators p) || is_some (Negative p) || is_some (Test_ p) || negb (SelectExecute p =? "")%string ||
       is_some (CommandStates p) || is_some (CommandQualifiers p)) (Ok tt)
  else
    guard_err (Errorf "ics generic selectors are forbidden on iec104" [])
      (is_some (FunctionCode p) || is_some (UnitID p) || is_some (Addresses p) || is_some (ObjectClasses p) ||
       is_some (WriteOnly p))
    (let! _ := each check_range (range_fields p) in
     guard_err (Errorf "ics classes must not be empty" []) (negb (nil_or_nonempty (Classes p)))
     (let! _ := each (λ c, guard_err (Errorf "invalid ics class %q" [c])
                             (negb (contains ["monitor"; "control"; "system"; "unknown"] c)) (Ok tt)) (elems (Classes p)) in
      guard_err (Errorf "ics ioa must not be empty" []) (negb (nil_or_nonempty (IOA p)))
      (let! _ := check_spans [] (elems (IOA p)) in
       guard_err (Errorf "ics selectExecute requires select/execute and compatible typeIds" [])
         (negb (SelectExecute p =? "")%string &&
          (negb (contains ["select"; "execute"] (SelectExecute p)) ||
           negb (subset_types p [45; 46; 47; 48; 49; 50; 58; 59; 60; 61; 62; 63])))
       (let! _ := check_commandStates p in
        guard_err (Errorf "ics commandQualifiers requires explicit compatible typeIds" [])
          (is_some (CommandQualifiers p) &&
           ((len (TypeIDs p) =? 0) || negb (subset_types p [45; 46; 47; 58; 59; 60]))) (Ok tt))))).

(** ** Validation of rules *)
Definition validatePlanProtocol (p : PlanProtocol) : M unit :=
  guard_err (Errorf "invalid protocol %q" [Proto_Name p]) (negb (contains ["tcp"; "udp"; "icmp"; "icmpv6"] (Proto_Name p)))
  (if (Port p =? "")%string then Ok tt
   else guard_err (Errorf "protocol %s cannot have a port" [Proto_Name p])
          (negb (Proto_Name p =? "tcp")%string && negb (Proto_Name p =? "udp")%string)
        (let! _ := planPortRange (Port p) in Ok tt)).

Definition validatePlanRule (zones : list string) (icsRules : string) (r : PlanRule) : M unit :=
  guard_err (Errorf "id must not be empty" []) (TrimSpace (Rule_ID r) =? "")%string
  (guard_err (Errorf "invalid action %q" [Action r]) (negb (contains ["ALLOW"; "DENY"] (Action r)))
  (let! _ := each (λ z, guard_err (Errorf "unknown zone %q" [z]) (negb (contains zones z)) (Ok tt))
               (SourceZones r ++ DestZones r) in
   let! _ := each (λ v, guard_err (Errorf "invalid IP or CIDR %q" [v])
                          (negb (is_some (ParseAddr v)) && negb (is_some (ParsePrefix v))) (Ok tt))
               (Sources r ++ Destinations r) in
   let! _ := each validatePlanProtocol (Protocols r) in
   match ICS r with
   | None => Ok tt
   | Some p =>
       guard_err (Errorf "ics key is forbidden" []) (icsRules =? ICSRulesForbidden)%string
       (guard_err (Errorf "ics requires protocol and mode monitor" [])
          ((icsRules =? ICSRulesMonitor)%string &&
           ((Protocol p =? "")%string || negb (ICS_Mode p =? "monitor")%string))
       (validatePlanICS p))
   end)).

(** ** Validation of plans *)
Definition fail_if {A} (b : bool) (format : string) (args : list string) (k : M A) : M A :=
  guard_err (Wrapf "plan: " [] (Errorf format args)) b k.

Notation kinds_map := (gmap string PlanActionKind).
Notation rules_map := (gmap string PlanRule).

Definition catalog_action (teams : list string) (kinds : kinds_map) (a : DecisionAction) : M kinds_map :=
  fail_if (Action_ID a =? "")%string "catalog action id must not be empty" []
  (fail_if (is_some (kinds !! Action_ID a)) "duplicate catalog action %s" [Action_ID a]
  (fail_if (EffortHours a <=? 0) "catalog action %s effort_hours must be greater than zero" [Action_ID a]
  (fail_if (zlen (Roles a) =? 0) "catalog action %s needs a team" [Action_ID a]
  (let! _ := each (λ role, fail_if (negb (contains teams role)) "catalog action %s references unknown team %q"
                             [Action_ID a; role] (Ok tt)) (Roles a) in
   Ok (<[Action_ID a := PlanActionOnly]> kinds))))).

Definition claim (id : string) (kind : PlanActionKind) (kinds : kinds_map) : M kinds_map :=
  match kinds !! id with
  | None => Err (Errorf "plan: unknown action %s" [id])
  | Some PlanActionOnly => Ok (<[id := kind]> kinds)
  | Some _ => Err (Errorf "plan: action %s occurs in more than one slot or kind" [id])
  end.

Definition plan_zones (pkg : Package) : list string :=
  "lan3" :: filter (λ z, z ≠ "") (Zone <$> Template_Networks pkg).

Definition addRule (pkg : Package) (rules : rules_map) (r : PlanRule) : M rules_map :=
  guard_err (Errorf "plan: duplicate rule id %s" [Rule_ID r]) (is_some (rules !! Rule_ID r))
  (let! _ := wrapping "plan rule %s: %w" [Rule_ID r] (validatePlanRule (plan_zones pkg) (ICSRules pkg) r) in
   Ok (<[Rule_ID r := r]> rules)).

Definition slot_rule (pkg : Package) (rules : rules_map) (r : PlanRule) : M rules_map :=
  fail_if ((ICSRules pkg =? ICSRulesMonitor)%string && is_some (ICS r)) "ics key is forbidden on slot rules under monitor" []
    (addRule pkg rules r).

Definition check_slot (pkg : Package) (st : kinds_map * rules_map) (slot : PlanSlot) : M (kinds_map * rules_map) :=
  let (kinds, rules) := st in
  match Required slot with
  | Some r =>
      fail_if ((ICSRules pkg =? ICSRulesMonitor)%string && is_some (ICS r)) "ics key is forbidden on required rules under monitor" []
      (fail_if (negb (Slot_Action slot =? "")%string || is_some (Selected slot) || is_some (Deferred slot))
         "required slot cannot declare action, selected or deferred" []
      (let! rules := addRule pkg rules r in Ok (kinds, rules)))
  | None =>
      fail_if ((Slot_Action slot =? "")%string || negb (is_some (Selected slot)) || (len (Deferred slot) =? 0))
        "action slot needs action, explicit selected and nonempty deferred" []
      (let! kinds := claim (Slot_Action slot) PlanActionEnforce kinds in
       let! rules := foldM (slot_rule pkg) rules (elems (Selected slot) ++ elems (Deferred slot)) in
       Ok (kinds, rules))
  end.

Definition log_target (id : string) (rules : rules_map) (seen : list string) (target : string) : M (list string) :=
  fail_if (negb (is_some (rules !! target))) "detect action %s targets unknown rule %s" [id; target]
  (fail_if (contains seen target) "detect action %s repeats log target %s" [id; target] (Ok (target :: seen))).

Definition detect_rule (pkg : Package) (id : string) (allIDs : list string) (r : PlanRule) : M (list string) :=
  fail_if (match ICS r with
           | None => true
           | Some p => (Protocol p =? "")%string || negb (ICS_Mode p =? "monitor")%string
           end) "detect action %s rules require ics protocol and mode monitor" [id]
  (fail_if (contains allIDs (Rule_ID r)) "duplicate rule id %s" [Rule_ID r]
  (let! _ := wrapping "plan: detect rule %s: %v" [Rule_ID r] (validatePlanRule (plan_zones pkg) (ICSRules pkg) r) in
   Ok (Rule_ID r :: allIDs))).

(** [owners]: the rules that have an overlay. *)
Definition detect_overlay (id : string) (rules : rules_map) (owners : list string) (e : string * PlanICS) : M (list string) :=
  let (target, p) := e in
  match rules !! target with
  | None => Err (Wrapf "plan: " [] (Errorf "detect action %s targets unknown rule %s" [id; target]))
  | Some r =>
      fail_if (contains owners target || is_some (ICS r)) "conflicting ics overlays for rule %s" [target]
      (let! _ := wrapping "plan: detect action %s: %v" [id] (validatePlanICS p) in
       Ok (target :: owners))
  end.

Definition check_detect (pkg : Package) (rules : rules_map) (st : kinds_map * list string * list string)
    (e : string * PlanDetect) : M (kinds_map * list string * list string) :=
  let '(kinds, allIDs, owners) := st in
  let (id, d) := e in
  let! kinds := claim id PlanActionDetect kinds in
  fail_if ((zlen (Detect_Log d) =? 0) && (len (Detect_ICS d) =? 0) && (zlen (Detect_Rules d) =? 0))
    "detect action %s must declare metadata" [id]
  (let! _ := foldM (log_target id rules) [] (Detect_Log d) in
   fail_if (contains [ICSRulesForbidden; ICSRulesMonitor] (ICSRules pkg) && is_some (Detect_ICS d))
     "detect action %s: ics key is forbidden" [id]
   (let! allIDs := foldM (detect_rule pkg id) allIDs (Detect_Rules d) in
    let! owners := foldM (detect_overlay id rules) owners (elems (Detect_ICS d)) in
    Ok (kinds, allIDs, owners))).

Definition proof_owner (proof : PlanProof) (kinds : kinds_map) (seen : list string) (owner : string) : M (list string) :=
  fail_if (negb (bool_decide (kinds !! owner = Some PlanActionEnforce)) || contains seen owner)
    "proof %s has unknown, non-enforce or duplicate owner %s" [Proof_ID proof; owner] (Ok (owner :: seen)).

Definition lab_role (c : Curriculum) (role : string) : string := default "" (key_value role (LabRoles c)).

Definition check_proof (pkg : Package) (c : Curriculum) (kinds : kinds_map) (ids : list string) (proof : PlanProof)
    : M (list string) :=
  fail_if ((TrimSpace (Proof_ID proof) =? "")%string || contains ids (Proof_ID proof)) "empty or duplicate proof id %q" [Proof_ID proof]
  (fail_if (negb (contains ["authorized"; "unauthorized"] (Category proof))) "proof %s has invalid category %q"
     [Proof_ID proof; Category proof]
  (fail_if (negb (contains ["allow"; "deny"] (Expect proof))) "proof %s has invalid expect %q" [Proof_ID proof; Expect proof]
  (fail_if ((Proof_Port proof <? 1) || (65535 <? Proof_Port proof) || negb (is_some (Owners proof)))
     "proof %s needs a valid port and explicit owners" [Proof_ID proof]
  (let! route := ResolvePlanTuple pkg proof in
   fail_if (Bridged route && negb (len (Owners proof) =? 0)) "bridged proof %s cannot have owners" [Proof_ID proof]
   (let! _ := foldM (proof_owner proof kinds) [] (elems (Owners proof)) in
    let! _ := each (λ role, fail_if (lab_role c role =? "")%string "proof %s references unknown lab role %s"
                              [Proof_ID proof; role] (Ok tt)) (Labs proof) in
    Ok (Proof_ID proof :: ids)))))).

Definition validatePlan (pkg : Package) (c : Curriculum) : M kinds_map :=
  match Plan c with
  | Some plan =>
      fail_if ((zlen (Rules plan) =? 0) || negb (is_some (Detect plan)) || (zlen (Proof_ plan) =? 0))
        "rules, detect and proof must be explicit, with nonempty rules and proof" []
      (fail_if ((BudgetHours c <=? 0) || (zlen (Teams c) =? 0) || (zlen (Catalog c) =? 0))
         "budget, teams and catalog must not be empty" []
      (let! _ := each (λ t, fail_if (CapacityHours t <=? 0) "team %q capacity_hours must be greater than zero"
                              [Team_Name t] (Ok tt)) (Teams c) in
       let! kinds := foldM (catalog_action (Team_Name <$> Teams c)) ∅ (Catalog c) in
       let! kr := foldM (check_slot pkg) (kinds, ∅) (Rules plan) in
       let rules := kr.2 in
       let! ko := foldM (check_detect pkg rules) (kr.1, (map_to_list rules).*1, []) (elems (Detect plan)) in
       let kinds := ko.1.1 in
       let! _ := foldM (check_proof pkg c kinds) [] (Proof_ plan) in
       Ok kinds))
  | None => Err (Wrapf "plan: " [] (Errorf "rules, detect and proof must be explicit, with nonempty rules and proof" []))
  end.

(** ** Predicates as documents *)
Definition JInt (z : Z) : json := JNum (pretty z).
(** [omitempty]: what a slice, a string or a flag becomes. *)
Definition slice_field {A} (f : A → json) (o : option (list A)) : option json :=
  match o with Some (x :: l) => Some (JArr (f <$> x :: l)) | _ => None end.
Definition string_field (s : string) : option json := if (s =? "")%string then None else Some (JStr s).
Definition bool_field (b : bool) : option json := if b then Some (JBool true) else None.

Definition ics_fields (p : PlanICS) : list (string * option json) :=
  [("protocol", string_field (Protocol p));
   ("functionCode", slice_field JInt (FunctionCode p));
   ("unitId", JInt <$> UnitID p);
   ("addresses", slice_field JStr (Addresses p));
   ("objectClasses", slice_field JInt (ObjectClasses p));
   ("readOnly", bool_field (ReadOnly p));
   ("writeOnly", JBool <$> WriteOnly p);
   ("direction", string_field (Direction p));
   ("mode", string_field (ICS_Mode p));
   ("typeIds", slice_field JInt (TypeIDs p));
   ("classes", slice_field JStr (Classes p));
   ("ca", slice_field JInt (CA p));
   ("ioa", slice_field (λ r, JObj [("start", JInt r.1); ("end", JInt r.2)]) (IOA p));
   ("cot", slice_field JInt (COT p));
   ("originators", slice_field JInt (Originators p));
   ("negative", JBool <$> Negative p);
   ("test", JBool <$> Test_ p);
   ("selectExecute", string_field (SelectExecute p));
   ("commandStates", slice_field JInt (CommandStates p));
   ("commandQualifiers", slice_field JInt (CommandQualifiers p))].

Definition present (l : list (string * option json)) : list (string * json) :=
  omap (λ kv, v ← kv.2; Some (kv.1, v)) l.
Definition encode_ics (p : PlanICS) : json := JObj (present (ics_fields p)).

Definition encode_protocol (p : PlanProtocol) : json :=
  JObj (present [("name", Some (JStr (Proto_Name p))); ("port", string_field (Port p))]).
Definition encode_rule (r : PlanRule) : json :=
  JObj (present
    [("id", Some (JStr (Rule_ID r)));
     ("description", string_field (Rule_Description r));
     ("sourceZones", slice_field JStr (Some (SourceZones r)));
     ("destZones", slice_field JStr (Some (DestZones r)));
     ("sources", slice_field JStr (Some (Sources r)));
     ("destinations", slice_field JStr (Some (Destinations r)));
     ("protocols", slice_field encode_protocol (Some (Protocols r)));
     ("ics", encode_ics <$> ICS r);
     ("action", Some (JStr (Action r)));
     ("log", bool_field (Log r))]).

(** A YAML node: a scalar with its tag and text, a sequence, a mapping with the
    text of its keys, an alias. *)
#[warnings="-register-all"]
Inductive ynode : Type :=
| YScalar (tag value : string)
| YSeq (l : list ynode)
| YMap (l : list (string * ynode))
| YAlias.

(** The node the YAML reader makes of a document with integers only. *)
Fixpoint node_of (v : json) : ynode :=
  match v with
  | JNull => YScalar "!!null" "null"
  | JBool b => YScalar "!!bool" (if b then "true" else "false")
  | JNum s => YScalar "!!int" s
  | JStr s => YScalar "!!str" s
  | JArr l => YSeq (map node_of l)
  | JObj l => YMap (map (λ kv, (kv.1, node_of kv.2)) l)
  end.

Definition iecPlanLists : list string :=
  ["typeIds"; "classes"; "ca"; "ioa"; "cot"; "originators"; "commandStates"; "commandQualifiers"].
Definition iecPlanScalars : list string := ["negative"; "test"; "selectExecute"].
Definition iecForbiddenKeys : list string := ["functionCode"; "unitId"; "addresses"; "objectClasses"; "writeOnly"].

Definition node_tag (n : ynode) : string :=
  match n with YScalar t _ => t | YSeq _ => "!!seq" | YMap _ => "!!map" | YAlias => "" end.
Definition node_value (n : ynode) : string := match n with YScalar _ v => v | _ => "" end.

Fixpoint ioa_keys (seen : list string) (l : list (string * ynode)) : M unit :=
  match l with
  | [] => Ok tt
  | (key, v) :: l' =>
      guard_err (Errorf "ics ioa requires integer start and end" [])
        (negb (contains ["start"; "end"] key) || contains seen key || negb (node_tag v =? "!!int")%string)
      (ioa_keys (key :: seen) l')
  end.
Definition checkPlanIOANode (n : ynode) : M unit :=
  match n with
  | YMap l => guard_err (Errorf "ics ioa requires exactly start and end" []) (negb (zlen l =? 2)) (ioa_keys [] l)
  | _ => Err (Errorf "ics ioa requires exactly start and end" [])
  end.

Definition check_item (key : string) (item : ynode) : M unit :=
  guard_err (Errorf "ics %s must not contain null" [key]) (node_tag item =? "!!null")%string
  (guard_err (Errorf "ics classes must contain strings" []) ((key =? "classes")%string && negb (node_tag item =? "!!str")%string)
  (guard_err (Errorf "ics %s must contain integers" [key])
     (negb (key =? "classes")%string && negb (key =? "ioa")%string && negb (node_tag item =? "!!int")%string)
  (if (key =? "ioa")%string then checkPlanIOANode item else Ok tt))).

Definition check_iec_field (fields : list (string * ynode)) (protocol key : string) : M unit :=
  match key_value key fields with
  | None => Ok tt
  | Some field =>
      guard_err (Errorf "ics %s is iec104-only" [key]) (negb (protocol =? "iec104")%string)
      (guard_err (Errorf "ics %s must not be null" [key]) (node_tag field =? "!!null")%string
      (guard_err (Errorf "ics %s must be a boolean" [key])
         (contains ["negative"; "test"] key && negb (node_tag field =? "!!bool")%string)
      (guard_err (Errorf "ics selectExecute must be a string" [])
         ((key =? "selectExecute")%string && negb (node_tag field =? "!!str")%string)
      (if contains iecPlanLists key then
         match field with
         | YSeq (x :: l) => each (check_item key) (x :: l)
         | _ => Err (Errorf "ics %s must be a nonempty array" [key])
         end
       else Ok tt))))
  end.

Definition known_ics_key (key : string) : bool :=
  contains iecPlanLists key || contains iecPlanScalars key || contains iecForbiddenKeys key ||
  contains ["protocol"; "readOnly"; "direction"; "mode"] key.

Fixpoint ics_keys (seen : list string) (l : list (string * ynode)) : M unit :=
  match l with
  | [] => Ok tt
  | (key, _) :: l' =>
      guard_err (Errorf "unknown ics field %s" [key]) (negb (known_ics_key key))
      (guard_err (Errorf "duplicate ics key %s" [key]) (contains seen key) (ics_keys (key :: seen) l'))
  end.

Definition checkPlanICSNode (n : ynode) : M unit :=
  match n with
  | YMap fields =>
      let! _ := ics_keys [] fields in
      let protocol := default "" (node_value <$> key_value "protocol" fields) in
      let! _ := (if (protocol =? "iec104")%string then
                   each (λ key, guard_err (Errorf "ics %s is forbidden on iec104 by presence" [key])
                                  (is_some (key_value key fields)) (Ok tt)) iecForbiddenKeys
                 else Ok tt) in
      let! _ := each (check_iec_field fields protocol) (iecPlanLists ++ iecPlanScalars) in
      guard_err (Errorf "ics selectExecute must be select or execute" [])
        (match key_value "selectExecute" fields with Some f => (node_value f =? "")%string | None => false end) (Ok tt)
  | _ => Err (Errorf "ics must be an object" [])
  end.

(** Marshalling and unmarshalling a predicate: empty slices come back nil. *)
Definition norm {A} (o : option (list A)) : option (list A) := match o with Some [] => None | _ => o end.
Definition norm_ics (p : PlanICS) : PlanICS :=
  mkICS (Protocol p) (norm (FunctionCode p)) (UnitID p) (norm (Addresses p)) (norm (ObjectClasses p)) (ReadOnly p)
    (WriteOnly p) (Direction p) (ICS_Mode p) (norm (TypeIDs p)) (norm (Classes p)) (norm (CA p)) (norm (IOA p))
    (norm (COT p)) (norm (Originators p)) (Negative p) (Test_ p) (SelectExecute p) (norm (CommandStates p))
    (norm (CommandQualifiers p)).
Definition UnmarshalJSON (p : PlanICS) : M PlanICS :=
  let! _ := checkPlanICSNode (node_of (encode_ics p)) in
  let! _ := validatePlanICS (norm_ics p) in
  Ok (norm_ics p).

Definition with_ics (o : option PlanICS) (r : PlanRule) : PlanRule :=
  mkRule (Rule_ID r) (Rule_Description r) (SourceZones r) (DestZones r) (Sources r) (Destinations r) (Protocols r) o
    (Action r) (Log r).
Definition with_log (b : bool) (r : PlanRule) : PlanRule :=
  mkRule (Rule_ID r) (Rule_Description r) (SourceZones r) (DestZones r) (Sources r) (Destinations r) (Protocols r) (ICS r)
    (Action r) b.

Definition copy_rule (c : CompiledPlanRule) : M CompiledPlanRule :=
  match ICS (Rule c) with
  | None => Ok c
  | Some p => let! q := UnmarshalJSON p in Ok (mkCompiled (with_ics (Some q) (Rule c)) (Origin c))
  end.

(** ** Compilation *)
Definition plan_actions (c : Curriculum) (kinds : kinds_map) (chosen : string → bool) : list PlanAction :=
  (λ a, mkPlanAction (Action_ID a) (default PlanActionOnly (kinds !! Action_ID a)) (chosen (Action_ID a))) <$> Catalog c.

Definition plan_label (actions : list PlanAction) : string :=
  let technical := filter (λ a, Kind a ≠ PlanActionOnly) actions in
  let selected := filter (λ a, Chosen a = true) technical in
  if (zlen selected =? 0) then "weak"
  else if (zlen selected =? zlen technical) then "hardened" else "partial".

Definition slot_rules (chosen : string → bool) (slot : PlanSlot) : list CompiledPlanRule :=
  match Required slot with
  | Some r => [mkCompiled r (mkOrigin "required" "")]
  | None =>
      let (variant, kind) := if chosen (Slot_Action slot) then (elems (Selected slot), "selected")
                             else (elems (Deferred slot), "deferred") in
      (λ r, mkCompiled r (mkOrigin kind (Slot_Action slot))) <$> variant
  end.

Definition overlay (d : PlanDetect) (c : CompiledPlanRule) : CompiledPlanRule :=
  let r := Rule c in
  let r := if contains (Detect_Log d) (Rule_ID r) then with_log true r else r in
  let r := match key_value (Rule_ID r) (elems (Detect_ICS d)) with Some p => with_ics (Some p) r | None => r end in
  mkCompiled r (Origin c).

Definition apply_detect (detects : list (string * PlanDetect)) (rules : list CompiledPlanRule) (a : PlanAction)
    : list CompiledPlanRule :=
  if negb (bool_decide (Kind a = PlanActionDetect)) || negb (Chosen a) then rules
  else
    let d := default (mkDetect [] [] None) (key_value (PA_ID a) detects) in
    overlay d <$> (rules ++ ((λ r, mkCompiled r (mkOrigin "observe" (PA_ID a))) <$> Detect_Rules d))%list.

(** The entries of a Go map built from a list of assignments, in the order in
    which it is marshalled. *)
Definition map_entries (l : list (string * json)) : list (string * json) :=
  omap (λ k, v ← key_value k l; Some (k, v)) (sort_strings (remove_dups l.*1)).

Definition plan_config (envelope firewall : list (string * json)) (rules : list PlanRule) : json :=
  let firewall := JObj (map_entries (firewall ++ [("rules", JArr (encode_rule <$> rules))])%list) in
  JObj (map_entries (envelope ++ [("firewall", firewall)])%list).

Fixpoint mapM_ {A B} (f : A → M B) (l : list A) : M (list B) :=
  match l with
  | [] => Ok []
  | x :: l' => let! y := f x in let! ys := mapM_ f l' in Ok (y :: ys)
  end.

Section Compile.
Context (decode_doc : json → option PolicyDoc) (decode_rules : option json → M (option (list PlanRule))).

(** [decode_rules] is the strict [json.Decoder]; the slice it fills may stay nil. *)
Definition decodePlanRules (data : option json) : M (list PlanRule) :=
  let! rules := decode_rules data in
  match rules with None => Err (Errorf "rules must be an array" []) | Some rules => Ok rules end.

Definition expectation (pkg : Package) (emitted hardened : list PlanRule) (defaultAction : string) (proof : PlanProof)
    : M PlanExpectation :=
  let! route := ResolvePlanTuple pkg proof in
  Ok (mkExpectation proof (evaluatePlanRoute emitted defaultAction route)
        (evaluatePlanRoute hardened defaultAction route) (Bridged route)).

(** The envelope: its entries, the firewall's entries, the default action and
    the rules of the reference policy. *)
Definition open_envelope (pkg : Package) : M (list (string * json) * list (string * json) * string * list PlanRule) :=
  match planEnvelope pkg ≫= unmarshal_map with
  | None => Err (Errorf "plan: missing or invalid improved policy envelope: %w" [])
  | Some envelope =>
      match key_value "firewall" envelope with
      | Some (JObj firewall) =>
          match unmarshal_string (key_value "defaultAction" firewall) with
          | Some defaultAction =>
              guard_err (Errorf "plan: invalid improved defaultAction" []) (negb (contains ["ALLOW"; "DENY"] defaultAction))
              (let! hardened := wrapping "plan: improved rules: %w" [] (decodePlanRules (key_value "rules" firewall)) in
               Ok (envelope, firewall, defaultAction, hardened))
          | None => Err (Errorf "plan: invalid improved defaultAction" [])
          end
      | _ => Err (Errorf "plan: improved policy needs a firewall object" [])
      end
  end.

Definition compiled_rules (c : Curriculum) (plan : CurriculumPlan) (kinds : kinds_map) (chosen : string → bool)
    : list CompiledPlanRule :=
  fold_left (apply_detect (elems (Detect plan))) (plan_actions c kinds chosen) (mjoin (slot_rules chosen <$> Rules plan)).

Definition CompilePlan (pkg : Package) (c : Curriculum) (actionIDs : list string) : M CompiledPlan :=
  let! kinds := validatePlan pkg c in
  let! _ := each (λ id, guard_err (Errorf "plan: unknown action %s" [id]) (negb (is_some (kinds !! id))) (Ok tt)) actionIDs in
  match Plan c with
  | None => Panic
  | Some plan =>
      let chosen id := contains actionIDs id in
      let actions := plan_actions c kinds chosen in
      let! rules := mapM_ copy_rule (compiled_rules c plan kinds chosen) in
      let! e := open_envelope pkg in
      let '(envelope, firewall, defaultAction, hardened) := e in
      let emitted := Rule <$> rules in
      let config := plan_config envelope firewall emitted in
      let! _ := match LintPolicy decode_doc (Some config) (ICSRules pkg) with
                | Ok _ => Ok tt
                | Err x => Err (Lint x)
                | Panic => Panic
                | Diverge => Diverge
                end in
      let! expectations := mapM_ (expectation pkg emitted hardened defaultAction) (Proof_ plan) in
      Ok (mkCompiledPlan config rules actions (plan_label actions) expectations)
  end.
End Compile.
