(* ===== verification/PlanIcs.v ===== *)
(** * Exercise plans: predicates survive their round trip

    A predicate that [validatePlanICS] accepts is accepted again after
    marshalling and unmarshalling, with its raw document checked for the
    presence of keys, and comes back the same but for empty slices. *)
From S2P Require Import Prelude GoLib GoText NetIP Policy PolicyCorrect Plan.
From stdpp Require Import pretty.

#[local] Open Scope string_scope.
#[local] Open Scope Z_scope.

(** ** Loops *)
Lemma each_ok {A} (f : A → M unit) l : each f l = Ok tt ↔ ∀ x, x ∈ l → f x = Ok tt.
Proof.
  induction l as [|y l IH]; cbn [each].
  { split; [|done]. intros _ x Hx. by apply elem_of_nil in Hx. }
  rewrite bind_unit_ok, IH. split.
  - intros [Hy Hl] x [->|Hx]%elem_of_cons; [done|by apply Hl].
  - intros Hall. split; [apply Hall; by left|]. intros x Hx. apply Hall. by right.
Qed.

(** ** Normal forms *)
Lemma elems_norm {A} (o : option (list A)) : elems (norm o) = elems o.
Proof. by destruct o as [[|]|]. Qed.
Lemma len_norm {A} (o : option (list A)) : len (norm o) = len o.
Proof. unfold len. by rewrite elems_norm. Qed.
Lemma norm_same {A} (o : option (list A)) : nil_or_nonempty o = true → norm o = o.
Proof. by destruct o as [[|]|]. Qed.
Lemma is_some_false {A} (o : option A) : is_some o = false ↔ o = None.
Proof. by destruct o. Qed.

Lemma generic_norm p : validateGenericPlanICS (norm_ics p) = validateGenericPlanICS p.
Proof. unfold validateGenericPlanICS. cbn -[each norm elems len]. by rewrite elems_norm, !len_norm. Qed.

Lemma check_range_nonempty name o min max : check_range (name, o, min, max) = Ok tt → nil_or_nonempty o = true.
Proof. unfold check_range. rewrite guard_ok, negb_false_iff. by intros [? _]. Qed.

(** What the code relies on: a valid IEC predicate has no generic selector and
    no empty slice, any other one has no IEC selector. *)
Definition ics_shape (p : PlanICS) : Prop :=
  if (Protocol p =? "iec104")%string then
    FunctionCode p = None ∧ UnitID p = None ∧ Addresses p = None ∧ ObjectClasses p = None ∧ WriteOnly p = None ∧ norm_ics p = p
  else
    TypeIDs p = None ∧ Classes p = None ∧ CA p = None ∧ IOA p = None ∧ COT p = None ∧ Originators p = None ∧
    Negative p = None ∧ Test_ p = None ∧ SelectExecute p = "" ∧ CommandStates p = None ∧ CommandQualifiers p = None.

Lemma commandStates_nonempty p : check_commandStates p = Ok tt → nil_or_nonempty (CommandStates p) = true.
Proof. unfold check_commandStates. by destruct (CommandStates p) as [[|]|]. Qed.

Lemma valid_shape p : validatePlanICS p = Ok tt → ics_shape p.
Proof.
  unfold validatePlanICS, ics_shape. rewrite bind_unit_ok. intros [_ Hp].
  destruct (Protocol p =? "iec104")%string; cbn [negb] in Hp.
  - rewrite guard_ok, !orb_false_iff, !is_some_false in Hp. destruct Hp as [((((H1 & H2) & H3) & H4) & H5) Hp].
    rewrite bind_unit_ok, each_ok in Hp. destruct Hp as [Hr Hp].
    rewrite guard_ok, negb_false_iff, bind_unit_ok, guard_ok, negb_false_iff, bind_unit_ok, guard_ok, bind_unit_ok in Hp.
    destruct Hp as (Hc & _ & Hi & _ & _ & Hs & _). apply commandStates_nonempty in Hs.
    assert (∀ name o min max, (name, o, min, max) ∈ range_fields p → norm o = o) as Hn.
    { intros name o min max Hin. eapply norm_same, check_range_nonempty, Hr, Hin. }
    split_and!; try done. unfold norm_ics. rewrite (norm_same (Classes p)), (norm_same (IOA p)), (norm_same (CommandStates p)) by done.
    rewrite (Hn "typeIds" (TypeIDs p) 1 255), (Hn "ca" (CA p) 0 65534), (Hn "cot" (COT p) 1 63), (Hn "originators" (Originators p) 0 255),
      (Hn "commandQualifiers" (CommandQualifiers p) 0 31) by (unfold range_fields; rewrite !elem_of_cons; tauto).
    rewrite H1, H3, H4. destruct p; cbn in *. by subst.
  - rewrite guard_ok, !orb_false_iff, !is_some_false, neqb_nil in Hp. tauto.
Qed.

Lemma valid_norm p : validatePlanICS p = Ok tt → validatePlanICS (norm_ics p) = Ok tt.
Proof.
  intros Hp. pose proof (valid_shape p Hp) as Hs. unfold ics_shape in Hs.
  destruct (Protocol p =? "iec104")%string eqn:He; [destruct Hs as (_ & _ & _ & _ & _ & ->); done|].
  unfold validatePlanICS in *. rewrite generic_norm, bind_unit_ok in *. destruct Hp as [Hg Hp]. split; [done|].
  change (Protocol (norm_ics p)) with (Protocol p). rewrite He in *. cbn [negb] in *.
  destruct Hs as (H1 & H2 & H3 & H4 & H5 & H6 & H7 & H8 & H9 & H10 & H11).
  cbn [norm_ics TypeIDs Classes CA IOA COT Originators Negative Test_ SelectExecute CommandStates CommandQualifiers].
  by rewrite H1, H2, H3, H4, H5, H6, H7, H8, H9, H10, H11.
Qed.

(** ** Objects *)
Lemma key_value_elem {A} k (v : A) l : key_value k l = Some v → (k, v) ∈ l.
Proof.
  unfold key_value. destruct (List.find _ (rev l)) as [[k' v']|] eqn:Hf; [|done]. intros [= <-].
  apply find_some in Hf as [Hin Hk]. apply String.eqb_eq in Hk. cbn in *. subst k'. apply list_elem_of_In, in_rev. done.
Qed.
Lemma key_value_none {A} k (l : list (string * A)) : key_value k l = None ↔ k ∉ l.*1.
Proof.
  unfold key_value. destruct (List.find _ (rev l)) as [[k' v']|] eqn:Hf; cbn; split; try done.
  - intros Hk. apply find_some in Hf as [Hin Hq]. apply String.eqb_eq in Hq. cbn in Hq. subst k'. destruct Hk.
    apply list_elem_of_fmap. exists (k, v'). split; [done|]. by apply list_elem_of_In, in_rev.
  - intros _ (kv & -> & Hin)%list_elem_of_fmap. pose proof (proj1 (find_none_iff _ _) Hf kv) as Hq. cbn in Hq.
    rewrite String.eqb_refl in Hq. discriminate Hq. by apply list_elem_of_In, in_rev; rewrite rev_involutive; apply list_elem_of_In.
Qed.
Lemma key_value_unique {A} k (v : A) l : NoDup l.*1 → (k, v) ∈ l → key_value k l = Some v.
Proof.
  intros Hnd Hin. destruct (key_value k l) as [v'|] eqn:Hk.
  - apply key_value_elem in Hk. f_equal. apply list_elem_of_lookup in Hin as [i Hi], Hk as [j Hj].
    assert (l.*1 !! i = Some k) as Hi1 by by rewrite list_lookup_fmap, Hi. assert (l.*1 !! j = Some k) as Hj1 by by rewrite list_lookup_fmap, Hj.
    rewrite (NoDup_lookup _ _ _ _ Hnd Hi1 Hj1) in Hi. congruence.
  - apply key_value_none in Hk. destruct Hk. apply list_elem_of_fmap. by exists (k, v).
Qed.
Lemma key_value_map {A B} (f : A → B) k l : key_value k ((λ kv, (kv.1, f kv.2)) <$> l) = f <$> key_value k l.
Proof.
  unfold key_value.
  assert (rev ((λ kv, (kv.1, f kv.2)) <$> l) = (λ kv : string * A, (kv.1, f kv.2)) <$> rev l) as -> by (symmetry; apply map_rev).
  induction (rev l) as [|[k' v] l' IH]; [done|]. cbn. by destruct (k' =? k)%string.
Qed.

Lemma present_elem k v l : (k, v) ∈ present l ↔ (k, Some v) ∈ l.
Proof.
  unfold present. rewrite list_elem_of_omap. split.
  - intros ([k' [v'|]] & Hin & Hv); [|done]. cbn in Hv. injection Hv as <- <-. done.
  - intros Hin. by exists (k, Some v).
Qed.
Lemma present_keys k l : k ∈ (present l).*1 → k ∈ l.*1.
Proof. intros ([k' v] & -> & Hin%present_elem)%list_elem_of_fmap. apply list_elem_of_fmap. by exists (k', Some v). Qed.
Lemma present_NoDup l : NoDup l.*1 → NoDup (present l).*1.
Proof.
  induction l as [|[k [v|]] l IH]; cbn; [done|..]; rewrite NoDup_cons; intros [Hk Hl]; [|by apply IH].
  change (NoDup (k :: (present l).*1)). rewrite NoDup_cons. split; [|by apply IH]. by intros Hp%present_keys.
Qed.
Lemma present_value k o l : NoDup l.*1 → (k, o) ∈ l → key_value k (present l) = o.
Proof.
  intros Hnd Hin. destruct o as [v|].
  - apply key_value_unique; [by apply present_NoDup|by apply present_elem].
  - apply key_value_none. intros ([k' v] & -> & Hv%present_elem)%list_elem_of_fmap.
    apply list_elem_of_lookup in Hin as [i Hi], Hv as [j Hj]. cbn in Hj.
    assert (l.*1 !! i = Some k') as Hi1 by by rewrite list_lookup_fmap, Hi. assert (l.*1 !! j = Some k') as Hj1 by by rewrite list_lookup_fmap, Hj.
    rewrite (NoDup_lookup _ _ _ _ Hnd Hi1 Hj1) in Hi. congruence.
Qed.

(** ** The raw check of a marshalled predicate *)
Definition ics_names : list string :=
  ["protocol"; "functionCode"; "unitId"; "addresses"; "objectClasses"; "readOnly"; "writeOnly"; "direction"; "mode";
   "typeIds"; "classes"; "ca"; "ioa"; "cot"; "originators"; "negative"; "test"; "selectExecute"; "commandStates";
   "commandQualifiers"].

Lemma ics_fields_names p : (ics_fields p).*1 = ics_names.
Proof. reflexivity. Qed.
Lemma ics_names_NoDup : NoDup ics_names.
Proof. apply (bool_decide_unpack _). vm_compute. exact I. Qed.

Definition node_fields (p : PlanICS) : list (string * ynode) :=
  (λ kv, (kv.1, node_of kv.2)) <$> present (ics_fields p).
Lemma node_of_ics p : node_of (encode_ics p) = YMap (node_fields p).
Proof. unfold node_fields, encode_ics. by generalize (present (ics_fields p)). Qed.

Lemma node_field p k o : (k, o) ∈ ics_fields p → key_value k (node_fields p) = node_of <$> o.
Proof.
  intros Hin. unfold node_fields. rewrite key_value_map, (present_value k o); [done| |done].
  rewrite ics_fields_names. apply ics_names_NoDup.
Qed.

Lemma ics_keys_ok l : ∀ seen, NoDup l.*1 → (∀ k, k ∈ l.*1 → known_ics_key k = true ∧ k ∉ seen) → ics_keys seen l = Ok tt.
Proof.
  induction l as [|[k v] l IH]; intros seen Hnd Hk; [done|]. cbn [ics_keys].
  cbn [fmap list_fmap fst] in Hnd. apply NoDup_cons in Hnd as [Hnk Hnd]. destruct (Hk k) as [H1 H2]; [by left|].
  rewrite !guard_ok. split_and!; [by rewrite H1|by apply bool_decide_eq_false_2|]. apply IH; [done|].
  intros k' Hk'. destruct (Hk k') as [H3 H4]; [by right|]. split; [done|]. intros [->|?]%elem_of_cons; done.
Qed.

Lemma node_fields_keys p : ics_keys [] (node_fields p) = Ok tt.
Proof.
  assert ((node_fields p).*1 = (present (ics_fields p)).*1) as Hkeys.
  { unfold node_fields. rewrite <- list_fmap_compose. by apply list_fmap_ext. }
  apply ics_keys_ok; rewrite Hkeys.
  - apply present_NoDup. rewrite ics_fields_names. apply ics_names_NoDup.
  - intros k Hk%present_keys. rewrite ics_fields_names in Hk. split; [|apply not_elem_of_nil].
    revert k Hk. apply Forall_forall, (bool_decide_unpack _). vm_compute. exact I.
Qed.

(** The list and scalar fields of an IEC predicate. *)
Lemma iec_slice_ok p key {A} (f : A → json) o : (key, slice_field f o) ∈ ics_fields p → key ∈ iecPlanLists →
  (∀ x, check_item key (node_of (f x)) = Ok tt) → check_iec_field (node_fields p) "iec104" key = Ok tt.
Proof.
  intros Hin Hkey Hitem. unfold check_iec_field. rewrite (node_field p key _ Hin).
  destruct o as [[|x l]|]; [done| |done]. cbn [slice_field fmap option_fmap option_map].
  change (node_of (JArr (f <$> x :: l))) with (YSeq (node_of <$> (f <$> x :: l))).
  assert (contains ["negative"; "test"] key = false ∧ (key =? "selectExecute")%string = false ∧ contains iecPlanLists key = true) as (H1 & H2 & H3).
  { revert key Hkey Hin Hitem. refine (proj1 (Forall_forall _ _) _). apply (Forall_impl (λ k, contains ["negative"; "test"] k = false ∧ (k =? "selectExecute")%string = false ∧ contains iecPlanLists k = true)).
    - apply (bool_decide_unpack _). vm_compute. exact I.
    - done. }
  rewrite H1, H2, H3. cbn [andb guard_err node_tag]. cbn -[each check_item].
  apply each_ok. intros y Hy. rewrite <- list_fmap_compose in Hy.
  assert (∃ z, y = node_of (f z)) as [z ->]; [|apply Hitem].
  apply elem_of_cons in Hy as [->|Hy]; [by exists x|]. apply list_elem_of_fmap in Hy as (z & -> & _). by exists z.
Qed.

Lemma int_item_ok key z : key ∈ ["typeIds"; "ca"; "cot"; "originators"; "commandStates"; "commandQualifiers"] →
  check_item key (node_of (JInt z)) = Ok tt.
Proof. intros Hk. unfold check_item. cbn [node_of JInt node_tag]. rewrite !elem_of_cons, elem_of_nil in Hk. by destruct Hk as [->|[->|[->|[->|[->|[->|[]]]]]]]. Qed.
Lemma class_item_ok c : check_item "classes" (node_of (JStr c)) = Ok tt.
Proof. reflexivity. Qed.
Lemma ioa_item_ok (r : Z * Z) : check_item "ioa" (node_of (JObj [("start", JInt r.1); ("end", JInt r.2)])) = Ok tt.
Proof. reflexivity. Qed.

Ltac ics_field := unfold ics_fields; repeat first [apply list_elem_of_here|apply list_elem_of_further].

Lemma string_field_protocol p : default "" (node_value <$> key_value "protocol" (node_fields p)) = Protocol p.
Proof.
  rewrite (node_field p "protocol" (string_field (Protocol p))) by ics_field. unfold string_field.
  destruct (String.eqb_spec (Protocol p) "") as [->|]; done.
Qed.

Lemma bool_scalar_ok p key o : (key, JBool <$> o) ∈ ics_fields p → key ∈ ["negative"; "test"] →
  check_iec_field (node_fields p) "iec104" key = Ok tt.
Proof.
  intros Hin Hk. unfold check_iec_field. rewrite (node_field p key _ Hin). destruct o as [b|]; [|done].
  rewrite !elem_of_cons, elem_of_nil in Hk. by destruct Hk as [->|[->|[]]], b.
Qed.

Lemma select_scalar_ok p : check_iec_field (node_fields p) "iec104" "selectExecute" = Ok tt.
Proof.
  unfold check_iec_field. rewrite (node_field p "selectExecute" (string_field (SelectExecute p))) by ics_field.
  unfold string_field. by destruct (_ =? _)%string.
Qed.

Ltac int_slice o :=
  apply (iec_slice_ok _ _ JInt o); [ics_field|by apply (bool_decide_unpack _)|];
  intros z; by apply int_item_ok, (bool_decide_unpack _).

Lemma iec_fields_ok p : each (check_iec_field (node_fields p) "iec104") (iecPlanLists ++ iecPlanScalars) = Ok tt.
Proof.
  apply each_ok. intros key Hkey. unfold iecPlanLists, iecPlanScalars in Hkey. cbn [app] in Hkey.
  rewrite !elem_of_cons, elem_of_nil in Hkey.
  destruct Hkey as [->|[->|[->|[->|[->|[->|[->|[->|[->|[->|[->|[]]]]]]]]]]]].
  - int_slice (TypeIDs p).
  - apply (iec_slice_ok p _ JStr (Classes p)); [ics_field|by apply (bool_decide_unpack _)|]. apply class_item_ok.
  - int_slice (CA p).
  - apply (iec_slice_ok p _ (λ r : Z * Z, JObj [("start", JInt r.1); ("end", JInt r.2)]) (IOA p)); [ics_field|by apply (bool_decide_unpack _)|]. apply ioa_item_ok.
  - int_slice (COT p).
  - int_slice (Originators p).
  - int_slice (CommandStates p).
  - int_slice (CommandQualifiers p).
  - apply (bool_scalar_ok p _ (Negative p)); [ics_field|by apply (bool_decide_unpack _)].
  - apply (bool_scalar_ok p _ (Test_ p)); [ics_field|by apply (bool_decide_unpack _)].
  - apply select_scalar_ok.
Qed.

Lemma absent p k o : (k, o) ∈ ics_fields p → o = None → key_value k (node_fields p) = None.
Proof. intros Hin ->. by rewrite (node_field p k None Hin). Qed.

Ltac no_field p o H := apply (absent p _ o); [ics_field|by rewrite H].

Lemma forbidden_absent p : FunctionCode p = None → UnitID p = None → Addresses p = None → ObjectClasses p = None → WriteOnly p = None →
  ∀ k, k ∈ iecForbiddenKeys → key_value k (node_fields p) = None.
Proof.
  intros H1 H2 H3 H4 H5 k Hk. unfold iecForbiddenKeys in Hk. rewrite !elem_of_cons, elem_of_nil in Hk.
  destruct Hk as [->|[->|[->|[->|[->|[]]]]]].
  - no_field p (slice_field JInt (FunctionCode p)) H1.
  - no_field p (JInt <$> UnitID p) H2.
  - no_field p (slice_field JStr (Addresses p)) H3.
  - no_field p (slice_field JInt (ObjectClasses p)) H4.
  - no_field p (JBool <$> WriteOnly p) H5.
Qed.

Lemma iec_absent p : (Protocol p =? "iec104")%string = false → ics_shape p →
  ∀ k, k ∈ (iecPlanLists ++ iecPlanScalars)%list → key_value k (node_fields p) = None.
Proof.
  intros He Hs k Hk. unfold ics_shape in Hs. rewrite He in Hs. destruct Hs as (H1 & H2 & H3 & H4 & H5 & H6 & H7 & H8 & H9 & H10 & H11).
  unfold iecPlanLists, iecPlanScalars in Hk. cbn [app] in Hk. rewrite !elem_of_cons, elem_of_nil in Hk.
  destruct Hk as [->|[->|[->|[->|[->|[->|[->|[->|[->|[->|[->|[]]]]]]]]]]]].
  - no_field p (slice_field JInt (TypeIDs p)) H1.
  - no_field p (slice_field JStr (Classes p)) H2.
  - no_field p (slice_field JInt (CA p)) H3.
  - no_field p (slice_field (λ r : Z * Z, JObj [("start", JInt r.1); ("end", JInt r.2)]) (IOA p)) H4.
  - no_field p (slice_field JInt (COT p)) H5.
  - no_field p (slice_field JInt (Originators p)) H6.
  - no_field p (slice_field JInt (CommandStates p)) H10.
  - no_field p (slice_field JInt (CommandQualifiers p)) H11.
  - no_field p (JBool <$> Negative p) H7.
  - no_field p (JBool <$> Test_ p) H8.
  - no_field p (string_field (SelectExecute p)) H9.
Qed.

Lemma raw_check p : ics_shape p → checkPlanICSNode (node_of (encode_ics p)) = Ok tt.
Proof.
  intros Hs. rewrite node_of_ics. unfold checkPlanICSNode. rewrite bind_unit_ok. split; [apply node_fields_keys|]. cbv zeta.
  rewrite string_field_protocol, !bind_unit_ok, guard_ok. pose proof (iec_absent p) as Habs. unfold ics_shape in Hs.
  assert (match key_value "selectExecute" (node_fields p) with Some f => (node_value f =? "")%string | None => false end = false) as ->.
  { rewrite (node_field p "selectExecute" (string_field (SelectExecute p))) by ics_field. unfold string_field.
    destruct (String.eqb_spec (SelectExecute p) "") as [|Hne]; [done|]. cbn. by apply String.eqb_neq. }
  destruct (String.eqb_spec (Protocol p) "iec104") as [He|He].
  - destruct Hs as (H1 & H2 & H3 & H4 & H5 & _). split_and!; [|rewrite He; apply iec_fields_ok|done|done].
    apply each_ok. intros k Hk. by rewrite (forbidden_absent p H1 H2 H3 H4 H5 k Hk).
  - split_and!; [done| |done|done]. apply each_ok. intros k Hk. unfold check_iec_field.
    rewrite Habs; [done..| |done]. unfold ics_shape. by rewrite (proj2 (String.eqb_neq _ _) He).
Qed.

(** A valid predicate survives its round trip. *)
Lemma ics_copy p : validatePlanICS p = Ok tt → UnmarshalJSON p = Ok (norm_ics p).
Proof.
  intros Hp. unfold UnmarshalJSON. rewrite (raw_check p (valid_shape p Hp)). cbn [bind].
  by rewrite (valid_norm p Hp).
Qed.
