(* ===== verification/PlanInv.v ===== *)
(** * Exercise plans: what validation establishes

    The facts about the rules, overlays and actions of a plan that
    [validatePlan] accepts, and what compilation keeps of them. *)
From S2P Require Import Prelude GoLib GoText NetIP Policy PolicyCorrect Plan PlanIcs.
From stdpp Require Import pretty.

#[local] Open Scope string_scope.
#[local] Open Scope Z_scope.
#[local] Open Scope list_scope.

(** ** Loops *)
Lemma foldM_ind {A S} (f : S → A → M S) (P : list A → S → Prop) s l s' :
  P [] s → (∀ done x s s', P done s → x ∈ l → f s x = Ok s' → P (done ++ [x]) s') → foldM f s l = Ok s' → P l s'.
Proof.
  intros H0 Hstep. rewrite <- (app_nil_l l) at 2. revert s H0. generalize (@nil A) as done.
  induction l as [|x l IH]; intros done s Hs Hf; [injection Hf as <-; by rewrite app_nil_r|].
  cbn [foldM] in Hf. apply bind_Ok in Hf as (s1 & Hx & Hf). rewrite cons_middle, app_assoc.
  eapply IH; [|by eapply Hstep; [..|by left|]|done]. intros d y t t' Ht Hy. apply Hstep; [done|by right].
Qed.

Lemma foldM_step {A S} (f : S → A → M S) s x l s' : foldM f s (x :: l) = Ok s' ↔ ∃ t, f s x = Ok t ∧ foldM f t l = Ok s'.
Proof. cbn [foldM]. apply bind_Ok. Qed.

Lemma wrapping_ok {A} fm args (m : M A) a : wrapping fm args m = Ok a ↔ m = Ok a.
Proof. by destruct m. Qed.
Lemma fail_if_ok {A} b fm args (k : M A) a : fail_if b fm args k = Ok a ↔ b = false ∧ k = Ok a.
Proof. apply guard_err_Ok. Qed.

Lemma contains_false l x : contains l x = false ↔ x ∉ l.
Proof. apply bool_decide_eq_false. Qed.
Lemma contains_true l x : contains l x = true ↔ x ∈ l.
Proof. apply bool_decide_eq_true. Qed.
Lemma is_some_true {A} (o : option A) : is_some o = true ↔ is_Some o.
Proof. destruct o; cbn; [split; [by eexists|done]|]. split; [done|]. by intros [? ?]. Qed.

(** ** Rules of the slots *)
Definition slot_all (slot : PlanSlot) : list PlanRule :=
  match Required slot with Some r => [r] | None => elems (Selected slot) ++ elems (Deferred slot) end.

(** What the map of rules holds after the rules [rs]. *)
Record rules_ok (pkg : Package) (rs : list PlanRule) (rules : rules_map) : Prop := {
  ro_nodup : NoDup (Rule_ID <$> rs);
  ro_lookup : ∀ id r, rules !! id = Some r ↔ r ∈ rs ∧ Rule_ID r = id;
  ro_valid : ∀ r, r ∈ rs → validatePlanRule (plan_zones pkg) (ICSRules pkg) r = Ok tt ∧
    (ICSRules pkg = ICSRulesMonitor → ICS r = None)
}.

Lemma rules_ok_nil pkg : rules_ok pkg [] ∅.
Proof.
  constructor; [constructor| |].
  - intros id r. rewrite lookup_empty. split; [done|]. by intros [Hr%elem_of_nil _].
  - intros r Hr. by apply elem_of_nil in Hr.
Qed.

Lemma addRule_ok pkg rs rules r rules' : rules_ok pkg rs rules → (ICSRules pkg = ICSRulesMonitor → ICS r = None) →
  addRule pkg rules r = Ok rules' → rules_ok pkg (rs ++ [r]) rules'.
Proof.
  intros [H1 H2 H3] Hm Ha. unfold addRule in Ha. apply guard_err_Ok in Ha as [Hd Ha]. apply is_some_false in Hd.
  apply bind_Ok in Ha as ([] & Hv%wrapping_ok & Ha). injection Ha as <-.
  assert (∀ r', r' ∈ rs → Rule_ID r' ≠ Rule_ID r) as Hne.
  { intros r' Hr' He. pose proof (proj2 (H2 (Rule_ID r') r') (conj Hr' eq_refl)) as Hl. rewrite He in Hl. congruence. }
  constructor.
  - rewrite fmap_app. apply NoDup_app. split_and!; [done| |apply NoDup_singleton].
    intros x (r' & -> & Hr')%list_elem_of_fmap Hx. apply list_elem_of_singleton in Hx. by apply (Hne r').
  - intros id r'. rewrite elem_of_app, list_elem_of_singleton. destruct (decide (id = Rule_ID r)) as [->|Hid].
    + rewrite lookup_insert_eq. split; [intros [= <-]; tauto|]. intros [[Hin| ->] He]; [by destruct (Hne r')|done].
    + rewrite lookup_insert_ne by done. rewrite H2. split; [tauto|]. intros [[Hin| ->] He]; [done|congruence].
  - intros r' [Hr'|Hr'%list_elem_of_singleton]%elem_of_app; [by apply H3|by subst].
Qed.

(** Kinds of actions only grow. *)
Definition kinds_le (k k' : kinds_map) : Prop :=
  (∀ a, is_Some (k !! a) ↔ is_Some (k' !! a)) ∧ ∀ a x, x ≠ PlanActionOnly → k !! a = Some x → k' !! a = Some x.
#[export] Instance kinds_le_po : PreOrder kinds_le.
Proof.
  split; [by intros k|]. intros a b c [H1 H2] [H3 H4]. split; [intros x; by rewrite H1|]. auto.
Qed.

Lemma claim_ok id kind k k' : claim id kind k = Ok k' → k !! id = Some PlanActionOnly ∧ k' = <[id := kind]> k ∧ kinds_le k k'.
Proof.
  unfold claim. destruct (k !! id) as [[]|] eqn:Hk; try done. intros [= <-]. split_and!; [done|done|]. split.
  - intros a. rewrite lookup_insert_is_Some. destruct (decide (id = a)) as [<-|]; [rewrite Hk; split; [by left|by eexists]|].
    split; [by right|]. intros [|[_ ?]]; done.
  - intros a x Hx Ha. destruct (decide (a = id)) as [->|]; [congruence|]. by rewrite lookup_insert_ne.
Qed.

(** The actions that choose a slot's variant. *)
Definition enforced (slots : list PlanSlot) (a : string) : Prop :=
  ∃ slot, slot ∈ slots ∧ Required slot = None ∧ Slot_Action slot = a.

Lemma enforced_snoc slots slot a : enforced slots a → enforced (slots ++ [slot]) a.
Proof. intros (s & Hs & H). exists s. split; [apply elem_of_app; by left|done]. Qed.

Record slots_ok (pkg : Package) (k0 : kinds_map) (done : list PlanSlot) (st : kinds_map * rules_map) : Prop := {
  so_rules : rules_ok pkg (mjoin (slot_all <$> done)) st.2;
  so_kinds : kinds_le k0 st.1;
  so_enforce : ∀ slot, slot ∈ done → Required slot = None → st.1 !! Slot_Action slot = Some PlanActionEnforce;
  so_detect : ∀ a, st.1 !! a = Some PlanActionDetect → k0 !! a = Some PlanActionDetect;
  so_owner : ∀ a, st.1 !! a = Some PlanActionEnforce → k0 !! a = Some PlanActionEnforce ∨ enforced done a
}.

Lemma slot_rules_ok pkg rs0 rules0 l rules : rules_ok pkg rs0 rules0 → foldM (slot_rule pkg) rules0 l = Ok rules →
  rules_ok pkg (rs0 ++ l) rules.
Proof.
  intros H0 Hf. eapply (foldM_ind (slot_rule pkg) (λ done rules, rules_ok pkg (rs0 ++ done) rules)); [by rewrite app_nil_r| |exact Hf].
  intros done r s s' Hs _ Hr. rewrite app_assoc. unfold slot_rule in Hr. apply fail_if_ok in Hr as [Hm Hr].
  eapply addRule_ok; [done| |done]. intros He. rewrite He in Hm. by apply is_some_false.
Qed.

Lemma check_slot_ok pkg k0 done slot st st' : slots_ok pkg k0 done st → check_slot pkg st slot = Ok st' →
  slots_ok pkg k0 (done ++ [slot]) st'.
Proof.
  intros [H1 H2 H3 H4 H5] Hs. destruct st as [kinds rules]. unfold check_slot in Hs. cbn [fst snd] in *.
  assert (mjoin (slot_all <$> done ++ [slot]) = mjoin (slot_all <$> done) ++ slot_all slot) as Hj.
  { rewrite fmap_app, join_app. cbn. by rewrite app_nil_r. }
  destruct (Required slot) as [r|] eqn:Hr.
  - apply fail_if_ok in Hs as [Hm Hs]. apply fail_if_ok in Hs as [_ Hs]. apply bind_Ok in Hs as (rules' & Ha & Hs).
    injection Hs as <-. constructor; cbn [fst snd].
    + rewrite Hj. unfold slot_all at 2. rewrite Hr. eapply addRule_ok; [done| |done].
      intros He. rewrite He in Hm. by apply is_some_false.
    + done.
    + intros s [Hin| ->%list_elem_of_singleton]%elem_of_app Hq; [by apply H3|congruence].
    + done.
    + intros a [Hx|Hx]%H5; [by left|right; by apply enforced_snoc].
  - apply fail_if_ok in Hs as [_ Hs]. apply bind_Ok in Hs as (kinds' & (Hk & -> & Hle)%claim_ok & Hs).
    apply bind_Ok in Hs as (rules' & Hf & Hs). injection Hs as <-. constructor; cbn [fst snd].
    + rewrite Hj. unfold slot_all at 2. rewrite Hr. by eapply slot_rules_ok.
    + by transitivity kinds.
    + intros s [Hin| ->%list_elem_of_singleton]%elem_of_app Hq; [|by rewrite lookup_insert_eq].
      by apply (proj2 Hle), H3.
    + intros a. destruct (decide (a = Slot_Action slot)) as [->|]; [by rewrite lookup_insert_eq|].
      rewrite lookup_insert_ne by done. apply H4.
    + intros a. destruct (decide (a = Slot_Action slot)) as [->|].
      * intros _. right. exists slot. split_and!; [apply elem_of_app; right; by left|done|done].
      * rewrite lookup_insert_ne by done. intros [Ha|Ha]%H5; [by left|right; by apply enforced_snoc].
Qed.

Lemma check_slots_ok pkg k0 slots st : foldM (check_slot pkg) (k0, ∅) slots = Ok st → slots_ok pkg k0 slots st.
Proof.
  apply foldM_ind.
  - constructor; cbn [fst snd]; [apply rules_ok_nil|done| |done|by left]. intros s Hs. by apply elem_of_nil in Hs.
  - intros done slot s s' Hs _. by apply check_slot_ok.
Qed.

(** ** Detections *)
Definition slot_ids (rules : rules_map) (id : string) : Prop := is_Some (rules !! id).

Record detect_ok (pkg : Package) (rules : rules_map) (d : PlanDetect) : Prop := {
  dt_rules : ∀ r, r ∈ Detect_Rules d → validatePlanRule (plan_zones pkg) (ICSRules pkg) r = Ok tt ∧
    ¬ slot_ids rules (Rule_ID r) ∧ ∃ p, ICS r = Some p ∧ Protocol p ≠ "" ∧ ICS_Mode p = "monitor";
  dt_overlays : ∀ t p, (t, p) ∈ elems (Detect_ICS d) → validatePlanICS p = Ok tt ∧ ∃ r, rules !! t = Some r ∧ ICS r = None;
  dt_mode : ICSRules pkg = ICSRulesForbidden ∨ ICSRules pkg = ICSRulesMonitor → Detect_ICS d = None;
  dt_log : ∀ t, t ∈ Detect_Log d → slot_ids rules t
}.

Definition observed (done : list (string * PlanDetect)) : list string :=
  mjoin ((λ e, Rule_ID <$> Detect_Rules e.2) <$> done).

Record detects_ok (pkg : Package) (rules : rules_map) (k0 : kinds_map) (done : list (string * PlanDetect))
    (st : kinds_map * list string * list string) : Prop := {
  ds_each : ∀ id d, (id, d) ∈ done → detect_ok pkg rules d;
  ds_keys : NoDup done.*1;
  ds_kinds : kinds_le k0 st.1.1;
  ds_detect : ∀ a, st.1.1 !! a = Some PlanActionDetect ↔ k0 !! a = Some PlanActionDetect ∨ a ∈ done.*1;
  ds_enforce : ∀ a, st.1.1 !! a = Some PlanActionEnforce → k0 !! a = Some PlanActionEnforce;
  ds_observed : NoDup (observed done);
  ds_ids : ∀ id, id ∈ st.1.2 ↔ slot_ids rules id ∨ id ∈ observed done
}.

(** The rules of one detection, with the identifiers taken so far. *)
Lemma detect_rules_ok pkg id l ids ids' : foldM (detect_rule pkg id) ids l = Ok ids' →
  NoDup (Rule_ID <$> l) ∧ (∀ r, r ∈ l → validatePlanRule (plan_zones pkg) (ICSRules pkg) r = Ok tt ∧ Rule_ID r ∉ ids ∧
    ∃ p, ICS r = Some p ∧ Protocol p ≠ "" ∧ ICS_Mode p = "monitor") ∧
  ∀ x, x ∈ ids' ↔ x ∈ ids ∨ x ∈ (Rule_ID <$> l).
Proof.
  apply (foldM_ind (detect_rule pkg id) (λ done s, NoDup (Rule_ID <$> done) ∧ (∀ r, r ∈ done → validatePlanRule (plan_zones pkg) (ICSRules pkg) r = Ok tt ∧
    Rule_ID r ∉ ids ∧ ∃ p, ICS r = Some p ∧ Protocol p ≠ "" ∧ ICS_Mode p = "monitor") ∧ ∀ x, x ∈ s ↔ x ∈ ids ∨ x ∈ (Rule_ID <$> done))).
  { split_and!; [constructor| |].
    - intros r Hr. by apply elem_of_nil in Hr.
    - intros x. rewrite elem_of_nil. tauto. }
  intros done r s s' (H1 & H2 & H3) _ Hr. unfold detect_rule in Hr.
  apply fail_if_ok in Hr as [Hi Hr]. apply fail_if_ok in Hr as [Hd Hr]. apply contains_false in Hd. rewrite H3 in Hd.
  apply bind_Ok in Hr as ([] & Hv%wrapping_ok & Hr). injection Hr as <-. rewrite fmap_app. cbn [fmap list_fmap].
  split_and!.
  - apply NoDup_app. split_and!; [done| |apply NoDup_singleton]. intros x Hx He. apply list_elem_of_singleton in He as ->. tauto.
  - intros r' [Hr'|Hr'%list_elem_of_singleton]%elem_of_app; [by apply H2|subst r']. split_and!; [done|tauto|].
    destruct (ICS r) as [p|]; [|done]. apply orb_false_iff in Hi as [Hp Hm]. exists p. split_and!; [done| |].
    + by apply String.eqb_neq.
    + apply String.eqb_eq. by apply negb_false_iff.
  - intros x. rewrite elem_of_cons, elem_of_app, list_elem_of_singleton, H3. tauto.
Qed.

Lemma detect_overlays_ok id rules l owners owners' : foldM (detect_overlay id rules) owners l = Ok owners' →
  ∀ t p, (t, p) ∈ l → validatePlanICS p = Ok tt ∧ ∃ r, rules !! t = Some r ∧ ICS r = None.
Proof.
  apply (foldM_ind (detect_overlay id rules) (λ done _, ∀ t p, (t, p) ∈ done → validatePlanICS p = Ok tt ∧ ∃ r, rules !! t = Some r ∧ ICS r = None)).
  { intros t p Ht. by apply elem_of_nil in Ht. }
  intros done [t0 p0] s s' Hs _ He t p [Ht|Ht]%elem_of_app; [by apply Hs|]. apply list_elem_of_singleton in Ht as [= -> ->].
  unfold detect_overlay in He. destruct (rules !! t0) as [r|] eqn:Hr; [|done]. apply fail_if_ok in He as [Ho He].
  apply orb_false_iff in Ho as [_ Ho]. apply bind_Ok in He as ([] & Hv%wrapping_ok & _). split; [done|]. exists r. by apply is_some_false in Ho.
Qed.

Lemma log_targets_ok id rules l seen seen' : foldM (log_target id rules) seen l = Ok seen' → ∀ t, t ∈ l → slot_ids rules t.
Proof.
  apply (foldM_ind (log_target id rules) (λ done _, ∀ t, t ∈ done → slot_ids rules t)).
  { intros t Ht. by apply elem_of_nil in Ht. }
  intros done t0 s s' Hs _ Hl t [Ht|Ht%list_elem_of_singleton]%elem_of_app; [by apply Hs|]. subst t.
  unfold log_target in Hl. apply fail_if_ok in Hl as [Hl _]. by apply negb_false_iff, is_some_true in Hl.
Qed.

Lemma observed_snoc done e : observed (done ++ [e]) = observed done ++ (Rule_ID <$> Detect_Rules e.2).
Proof. unfold observed. rewrite fmap_app, join_app. cbn. by rewrite app_nil_r. Qed.

Lemma check_detect_ok pkg rules k0 done e st st' : detects_ok pkg rules k0 done st → check_detect pkg rules st e = Ok st' →
  detects_ok pkg rules k0 (done ++ [e]) st'.
Proof.
  intros [H1 H2 H3 H4 HE H5 H6] Hc. destruct st as [[kinds ids] owners], e as [id d]. cbn [fst snd] in *.
  unfold check_detect in Hc. apply bind_Ok in Hc as (kinds' & (Hk & -> & Hle)%claim_ok & Hc).
  apply fail_if_ok in Hc as [_ Hc]. apply bind_Ok in Hc as (seen0 & Hlog & Hc). apply fail_if_ok in Hc as [Hmode Hc].
  apply bind_Ok in Hc as (ids' & Hr & Hc). apply bind_Ok in Hc as (owners' & Ho & Hc). injection Hc as <-.
  apply detect_rules_ok in Hr as (R1 & R2 & R3).
  assert (id ∉ done.*1) as Hnew.
  { intros Hin. rewrite (proj2 (H4 id)) in Hk; [done|by right]. }
  constructor; cbn [fst snd].
  - intros id' d' [Hin|Hin]%elem_of_app; [by eapply H1|]. apply list_elem_of_singleton in Hin as [= -> ->]. constructor.
    + intros r Hr. destruct (R2 r Hr) as (V1 & V2 & V3). rewrite H6 in V2. split_and!; [done|tauto|done].
    + by eapply detect_overlays_ok.
    + intros Hm. destruct (contains _ (ICSRules pkg)) eqn:He; [by apply is_some_false in Hmode|].
      apply contains_false in He. destruct He. rewrite !elem_of_cons. tauto.
    + by eapply log_targets_ok.
  - rewrite fmap_app. apply NoDup_app. split_and!; [done| |apply NoDup_singleton]. intros x Hx He.
    apply list_elem_of_singleton in He as ->. done.
  - by transitivity kinds.
  - intros a. rewrite fmap_app, elem_of_app. cbn [fmap list_fmap fst]. rewrite list_elem_of_singleton.
    destruct (decide (a = id)) as [->|Ha]; [rewrite lookup_insert_eq; tauto|]. rewrite lookup_insert_ne by done. rewrite H4. tauto.
  - intros a. destruct (decide (a = id)) as [->|Ha]; [by rewrite lookup_insert_eq|]. rewrite lookup_insert_ne by done. apply HE.
  - rewrite observed_snoc. apply NoDup_app. split_and!; [done| |done].
    intros x Hx (r & -> & Hr)%list_elem_of_fmap. destruct (R2 r Hr) as (_ & V2 & _). rewrite H6 in V2. tauto.
  - intros x. rewrite R3, H6, observed_snoc, elem_of_app. cbn [snd]. tauto.
Qed.

Lemma check_detects_ok pkg rules k0 l st : foldM (check_detect pkg rules) (k0, (map_to_list rules).*1, []) l = Ok st →
  detects_ok pkg rules k0 l st.
Proof.
  apply foldM_ind.
  - constructor; cbn [fst snd].
    + intros id d Hin. by apply elem_of_nil in Hin.
    + constructor.
    + done.
    + intros a. split; [by left|]. by intros [|Ha%elem_of_nil].
    + done.
    + constructor.
    + intros id. split.
      * intros ([k v] & -> & Hin)%list_elem_of_fmap. left. apply elem_of_map_to_list in Hin. by exists v.
      * intros [[v Hv]|Hx%elem_of_nil]; [|done]. apply list_elem_of_fmap. exists (id, v). split; [done|]. by apply elem_of_map_to_list.
  - intros done e s s' Hs _. by apply check_detect_ok.
Qed.

(** ** The catalog *)
Lemma catalog_ok teams l kinds : foldM (catalog_action teams) ∅ l = Ok kinds →
  NoDup (Action_ID <$> l) ∧ (∀ a, is_Some (kinds !! a) ↔ a ∈ (Action_ID <$> l)) ∧ ∀ a k, kinds !! a = Some k → k = PlanActionOnly.
Proof.
  apply (foldM_ind (catalog_action teams) (λ done kinds, NoDup (Action_ID <$> done) ∧
    (∀ a, is_Some (kinds !! a) ↔ a ∈ (Action_ID <$> done)) ∧ ∀ a k, kinds !! a = Some k → k = PlanActionOnly)).
  { split_and!; [constructor| |by intros a k; rewrite lookup_empty].
    intros a. rewrite lookup_empty, elem_of_nil. split; [by intros [? ?]|done]. }
  intros done x s s' (H1 & H2 & H3) _ Hc. unfold catalog_action in Hc.
  apply fail_if_ok in Hc as [_ Hc]. apply fail_if_ok in Hc as [Hd Hc]. apply is_some_false in Hd.
  do 2 apply fail_if_ok in Hc as [_ Hc]. apply bind_Ok in Hc as (seen0 & _ & Hc). injection Hc as <-.
  rewrite fmap_app. cbn [fmap list_fmap]. split_and!.
  - apply NoDup_app. split_and!; [done| |apply NoDup_singleton]. intros y Hy He. apply list_elem_of_singleton in He as ->.
    apply H2 in Hy as [? Hy]. congruence.
  - intros a. rewrite lookup_insert_is_Some, elem_of_app, list_elem_of_singleton, <- H2.
    destruct (decide (Action_ID x = a)) as [->|]; [tauto|]. split; [intros [|[_ ?]]; tauto|]. intros [|He]; [tauto|congruence].
  - intros a k. destruct (decide (a = Action_ID x)) as [->|]; [rewrite lookup_insert_eq; congruence|].
    rewrite lookup_insert_ne by done. apply H3.
Qed.

Lemma check_proofs_ok pkg c kinds l ids : foldM (check_proof pkg c kinds) [] l = Ok ids →
  ∀ p, p ∈ l → ∃ route, ResolvePlanTuple pkg p = Ok route.
Proof.
  apply (foldM_ind (check_proof pkg c kinds) (λ done _, ∀ p, p ∈ done → ∃ route, ResolvePlanTuple pkg p = Ok route)).
  { intros p Hp. by apply elem_of_nil in Hp. }
  intros done x s s' Hs _ Hx p [Hp|Hp%list_elem_of_singleton]%elem_of_app; [by apply Hs|]. subst p. unfold check_proof in Hx.
  do 4 apply fail_if_ok in Hx as [_ Hx]. apply bind_Ok in Hx as (route & Hr & _). by exists route.
Qed.

(** ** A valid plan *)
Record plan_ok (pkg : Package) (c : Curriculum) (plan : CurriculumPlan) (rules : rules_map) (kinds : kinds_map) : Prop := {
  po_plan : Plan c = Some plan;
  po_rules : rules_ok pkg (mjoin (slot_all <$> Rules plan)) rules;
  po_enforce : ∀ a, kinds !! a = Some PlanActionEnforce ↔ enforced (Rules plan) a;
  po_each : ∀ id d, (id, d) ∈ elems (Detect plan) → detect_ok pkg rules d;
  po_keys : NoDup (elems (Detect plan)).*1;
  po_detect : ∀ a, kinds !! a = Some PlanActionDetect ↔ a ∈ (elems (Detect plan)).*1;
  po_observed : NoDup (observed (elems (Detect plan)));
  po_catalog : NoDup (Action_ID <$> Catalog c);
  po_known : ∀ a, is_Some (kinds !! a) ↔ a ∈ (Action_ID <$> Catalog c);
  po_proofs : ∀ p, p ∈ Proof_ plan → ∃ route, ResolvePlanTuple pkg p = Ok route
}.

Lemma validatePlan_ok pkg c kinds : validatePlan pkg c = Ok kinds → ∃ plan rules, plan_ok pkg c plan rules kinds.
Proof.
  unfold validatePlan. destruct (Plan c) as [plan|] eqn:Hp; [|done]. intros Hv.
  do 2 apply fail_if_ok in Hv as [_ Hv]. apply bind_Ok in Hv as (? & _ & Hv). apply bind_Ok in Hv as (k0 & Hc & Hv).
  apply bind_Ok in Hv as ([k1 rules] & Hs & Hv). cbv zeta in Hv. cbn [fst snd] in Hv.
  apply bind_Ok in Hv as (st & Hd & Hv). apply bind_Ok in Hv as (ids & Hproofs & Hv). injection Hv as <-.
  apply catalog_ok in Hc as (C1 & C2 & C3). apply check_slots_ok in Hs as [S1 S2 S3 S4 S5]. cbn [fst snd] in *.
  apply check_detects_ok in Hd as [D1 D2 D3 D4 DE D5 D6]. exists plan, rules. constructor; try done.
  - intros a. split.
    + intros [Ha|Ha]%DE%S5; [by apply C3 in Ha|done].
    + intros (slot & Hin & Hr & <-). by apply (proj2 D3), S3.
  - intros a. rewrite D4. split; [|by right]. intros [Ha|]; [|done]. by apply S4, C3 in Ha.
  - intros a. rewrite <- C2. rewrite (proj1 S2 a). symmetry. apply D3.
  - by eapply check_proofs_ok.
Qed.

(** ** What a rule is but for its detection metadata *)
Definition core (r : PlanRule) : PlanRule := with_ics None (with_log false r).

Lemma core_id r r' : core r = core r' → Rule_ID r = Rule_ID r'.
Proof. by intros [= ->]. Qed.
Lemma core_action r r' : core r = core r' → Action r = Action r'.
Proof. by intros [= _ _ _ _ _ _ _ ->]. Qed.
Lemma core_matches r r' t : core r = core r' → rule_matches r t = rule_matches r' t.
Proof. by intros [= _ _ Hs Hd Ha Hb Hp _]; unfold rule_matches; rewrite Hs, Hd, Ha, Hb, Hp. Qed.

Definition ics_ok (mode : string) (o : option PlanICS) : Prop :=
  match o with
  | None => True
  | Some p => mode ≠ ICSRulesForbidden ∧ (mode = ICSRulesMonitor → Protocol p ≠ "" ∧ ICS_Mode p = "monitor") ∧
              validatePlanICS p = Ok tt
  end.

Lemma rule_valid zones mode r : validatePlanRule zones mode r = Ok tt ↔
  validatePlanRule zones mode (core r) = Ok tt ∧ ics_ok mode (ICS r).
Proof.
  unfold validatePlanRule. cbn [core with_ics with_log Rule_ID Action SourceZones DestZones Sources Destinations Protocols ICS].
  rewrite !guard_ok, !bind_unit_ok.
  assert (match ICS r with
    | None => Ok tt
    | Some p => guard_err (Errorf "ics key is forbidden" []) (mode =? ICSRulesForbidden)%string
        (guard_err (Errorf "ics requires protocol and mode monitor" [])
          ((mode =? ICSRulesMonitor)%string && ((Protocol p =? "")%string || negb (ICS_Mode p =? "monitor")%string))
          (validatePlanICS p))
    end = Ok tt ↔ ics_ok mode (ICS r)) as ->; [|tauto].
  destruct (ICS r) as [p|]; cbn [ics_ok]; [|tauto].
  rewrite !guard_ok, String.eqb_neq, andb_ok, String.eqb_eq, orb_false_iff, String.eqb_neq, negb_false_iff, String.eqb_eq. tauto.
Qed.

(** ** Overlays *)
Lemma overlay_core d c : core (Rule (overlay d c)) = core (Rule c).
Proof. unfold overlay. cbv zeta. cbn [Rule]. destruct (contains _ _), (key_value _ _); done. Qed.
Lemma overlay_origin d c : Origin (overlay d c) = Origin c.
Proof. done. Qed.
Lemma overlay_ics d c : ICS (Rule (overlay d c)) =
  match key_value (Rule_ID (Rule c)) (elems (Detect_ICS d)) with Some p => Some p | None => ICS (Rule c) end.
Proof. unfold overlay. cbv zeta. cbn [Rule]. destruct (contains _ _); cbn [with_log Rule_ID]; by destruct (key_value _ _). Qed.

(** A rule of a slot after overlays, and an observation rule after them. *)
Record overlaid (detects : list (string * PlanDetect)) (c c0 : CompiledPlanRule) : Prop := {
  ov_core : core (Rule c) = core (Rule c0);
  ov_origin : Origin c = Origin c0;
  ov_ics : ICS (Rule c) = ICS (Rule c0) ∨ ∃ id d p, (id, d) ∈ detects ∧ (Rule_ID (Rule c0), p) ∈ elems (Detect_ICS d) ∧ ICS (Rule c) = Some p
}.

Record observing (detects : list (string * PlanDetect)) (past : list string) (c : CompiledPlanRule) : Prop := {
  ob_rule : ∃ id d r, id ∈ past ∧ (id, d) ∈ detects ∧ r ∈ Detect_Rules d ∧ core (Rule c) = core r ∧ ICS (Rule c) = ICS r
}.

Lemma overlaid_overlay detects id d c c0 : (id, d) ∈ detects → overlaid detects c c0 → overlaid detects (overlay d c) c0.
Proof.
  intros Hd [H1 H2 H3]. constructor; [by rewrite overlay_core|done|]. rewrite overlay_ics, (core_id _ _ H1).
  destruct (key_value _ _) as [p|] eqn:Hk; [|done]. right. exists id, d, p. split_and!; [done|by apply key_value_elem|done].
Qed.

Section Fold.
Context (pkg : Package) (c : Curriculum) (plan : CurriculumPlan) (rules : rules_map) (kinds : kinds_map).
Context (Hplan : plan_ok pkg c plan rules kinds).
Notation detects := (elems (Detect plan)).

Lemma observing_overlay past id d x : (id, d) ∈ detects → observing detects past x → observing detects past (overlay d x).
Proof.
  intros Hd [(id' & d' & r & H1 & H2 & H3 & H4 & H5)]. constructor. exists id', d', r. split_and!; try done; [by rewrite overlay_core|].
  rewrite overlay_ics. destruct (key_value _ _) as [p|] eqn:Hk; [|done]. exfalso. apply key_value_elem in Hk.
  destruct (dt_overlays _ _ _ (po_each _ _ _ _ _ Hplan _ _ Hd) _ _ Hk) as (_ & r' & Hr' & _).
  destruct (dt_rules _ _ _ (po_each _ _ _ _ _ Hplan _ _ H2) r H3) as (_ & Hn & _). apply Hn. rewrite <- (core_id _ _ H4). by exists r'.
Qed.

Lemma NoDup_join {A B} (f : A → list B) l : NoDup (mjoin (f <$> l)) → (∀ x, x ∈ l → NoDup (f x)) ∧
  ∀ i j x y b, l !! i = Some x → l !! j = Some y → b ∈ f x → b ∈ f y → i = j.
Proof.
  induction l as [|a l IH]; cbn; [split; [intros x Hx; by apply elem_of_nil in Hx|done]|].
  intros (H1 & H2 & H3)%NoDup_app. destruct (IH H3) as [I1 I2]. split.
  - intros x [->|Hx]%elem_of_cons; auto.
  - assert (∀ j y b, l !! j = Some y → b ∈ f a → b ∈ f y → False) as Hcross.
    { intros j y b Hj Ha Hy. apply (H2 b Ha). apply list_elem_of_join. exists (f y). split; [done|].
      apply list_elem_of_fmap. exists y. split; [done|]. by eapply list_elem_of_lookup_2. }
    intros [|i] [|j] x y b Hx Hy Hbx Hby; cbn in Hx, Hy; [done|..].
    + injection Hx as <-. by destruct (Hcross j y b).
    + injection Hy as <-. by destruct (Hcross i x b).
    + f_equal. by eapply I2.
Qed.

(** Identifiers of observation rules belong to one detection. *)
Lemma observed_owner id d id' d' x : (id, d) ∈ detects → (id', d') ∈ detects →
  x ∈ (Rule_ID <$> Detect_Rules d) → x ∈ (Rule_ID <$> Detect_Rules d') → id = id'.
Proof.
  intros H1 H2 X1 X2. apply list_elem_of_lookup in H1 as [i Hi], H2 as [j Hj].
  destruct (NoDup_join _ _ (po_observed _ _ _ _ _ Hplan)) as [_ Hu].
  rewrite (Hu i j (id, d) (id', d') x Hi Hj X1 X2) in Hi. congruence.
Qed.

(** After the actions [past], in the order of the catalog. *)
Record folded (base : list CompiledPlanRule) (past : list string) (l : list CompiledPlanRule) : Prop := {
  fo_split : ∃ A B, l = A ++ B ∧ Forall2 (overlaid detects) A base ∧ Forall (observing detects past) B ∧
    NoDup (Rule_ID ∘ Rule <$> B)
}.

Lemma Forall2_fmap_overlay id d A base : (id, d) ∈ detects → Forall2 (overlaid detects) A base →
  Forall2 (overlaid detects) (overlay d <$> A) base.
Proof. intros Hd HA. apply Forall2_fmap_l. eapply Forall2_impl; [exact HA|]. intros x y. by apply (overlaid_overlay _ id). Qed.

Lemma ids_overlay d (l : list CompiledPlanRule) : Rule_ID ∘ Rule <$> (overlay d <$> l) = Rule_ID ∘ Rule <$> l.
Proof.
  rewrite <- list_fmap_compose. apply list_fmap_ext. intros i x _. cbn. apply core_id, overlay_core.
Qed.

Lemma apply_detect_folded base past l a : folded base past l → PA_ID a ∉ past →
  (Kind a = PlanActionDetect → kinds !! PA_ID a = Some PlanActionDetect) →
  folded base (past ++ [PA_ID a]) (apply_detect detects l a).
Proof.
  intros [(A & B & -> & HA & HB & Hnd)] Hnew Hkind.
  assert (∀ x, observing detects past x → observing detects (past ++ [PA_ID a]) x) as Hmono.
  { intros x [(id' & d' & r & H1 & H2)]. constructor. exists id', d', r. split; [|done]. apply elem_of_app. by left. }
  unfold apply_detect. case_bool_decide as Hk; cbn [negb orb]; [destruct (Chosen a); cbn [negb]|].
  2,3: constructor; exists A, B; split_and!; try done; eapply Forall_impl; [exact HB|exact Hmono].
  apply Hkind, (po_detect _ _ _ _ _ Hplan) in Hk. apply list_elem_of_fmap in Hk as ([id d] & Hid & Hin). cbn in Hid. subst id.
  rewrite (key_value_unique (PA_ID a) d) by (done || apply Hplan). cbv zeta. cbn [default].
  set (new := (λ r, mkCompiled r (mkOrigin "observe" (PA_ID a))) <$> Detect_Rules d).
  assert (Forall (observing detects (past ++ [PA_ID a])) (B ++ new)) as HBn.
  { apply Forall_app. split; [eapply Forall_impl; [exact HB|exact Hmono]|]. apply Forall_fmap, Forall_forall. intros r Hr. constructor.
    exists (PA_ID a), d, r. split_and!; try done. apply elem_of_app. right. by left. }
  constructor. exists (overlay d <$> A), (overlay d <$> (B ++ new)). split_and!.
  - rewrite <- fmap_app. by rewrite app_assoc.
  - by eapply Forall2_fmap_overlay.
  - apply Forall_fmap. eapply Forall_impl; [exact HBn|]. intros x. by apply (observing_overlay _ (PA_ID a)).
  - rewrite ids_overlay, fmap_app. subst new. rewrite <- list_fmap_compose. change ((Rule_ID ∘ Rule) ∘ _) with Rule_ID.
    apply NoDup_app. split_and!; [done| |].
    + intros x (b & -> & Hb)%list_elem_of_fmap Hx. rewrite Forall_forall in HB.
      destruct (HB b Hb) as [(id' & d' & r & P1 & P2 & P3 & P4 & _)]. cbn in Hx. rewrite (core_id _ _ P4) in Hx.
      assert (PA_ID a = id') as He; [|by rewrite He in Hnew]. eapply (observed_owner (PA_ID a) d id' d' (Rule_ID r) Hin P2 Hx).
      apply list_elem_of_fmap. by exists r.
    + destruct (NoDup_join _ _ (po_observed _ _ _ _ _ Hplan)) as [Hn _]. apply (Hn (PA_ID a, d) Hin).
Qed.

Lemma fold_folded base chosen l past : ∀ s, folded base past s → NoDup (past ++ (Action_ID <$> l)) →
  folded base (past ++ (Action_ID <$> l))
    (fold_left (apply_detect detects)
       ((λ a, mkPlanAction (Action_ID a) (default PlanActionOnly (kinds !! Action_ID a)) (chosen (Action_ID a))) <$> l) s).
Proof.
  revert past. induction l as [|a l IH]; intros past s Hs Hnd.
  { change (Action_ID <$> []) with (@nil string). by rewrite app_nil_r. }
  cbn [fold_left fmap list_fmap] in *. rewrite cons_middle, app_assoc in *. apply IH; [|done]. apply NoDup_app in Hnd as (Hnd & _ & _).
  apply (apply_detect_folded base past s (mkPlanAction _ _ _) Hs).
  - apply NoDup_app in Hnd as (_ & Hd & _). intros Hin. apply (Hd _ Hin). by left.
  - intros He. change (default PlanActionOnly (kinds !! Action_ID a) = PlanActionDetect) in He.
    change (kinds !! Action_ID a = Some PlanActionDetect). destruct (kinds !! Action_ID a) as [k|]; [|done]. f_equal. exact He.
Qed.

(** The compiled rules: the slots' rules with overlays, then observations. *)
Lemma compiled_folded chosen : folded (mjoin (slot_rules chosen <$> Rules plan)) (Action_ID <$> Catalog c)
  (compiled_rules c plan kinds chosen).
Proof.
  apply (fold_folded _ chosen (Catalog c) []).
  - constructor. exists (mjoin (slot_rules chosen <$> Rules plan)), []. split_and!; [by rewrite app_nil_r| |constructor|constructor].
    apply Forall_Forall2_diag, Forall_forall. intros x _. constructor; [done|done|by left].
  - cbn. apply Hplan.
Qed.
End Fold.
