(* ===== verification/PlanCorrect.v ===== *)
(** * Exercise plans: the compiled rules and their document

    The rules a plan compiles to are valid and distinct and survive their copy;
    their verdict is that of the slots' rules; and the [ics] keys of the
    document made of them are those of the rules, so that the lint of one
    selection's document carries over to another's. *)
From S2P Require Import Prelude GoLib GoText NetIP Policy PolicyCorrect Plan PlanIcs PlanInv.
From stdpp Require Import pretty.

#[local] Open Scope string_scope.
#[local] Open Scope Z_scope.
#[local] Open Scope list_scope.

(** ** Copies *)
Definition copied (x : CompiledPlanRule) : CompiledPlanRule :=
  mkCompiled (with_ics (norm_ics <$> ICS (Rule x)) (Rule x)) (Origin x).

Lemma copy_ok x mode : ics_ok mode (ICS (Rule x)) → copy_rule x = Ok (copied x).
Proof.
  unfold copy_rule, copied. destruct (ICS (Rule x)) as [p|] eqn:Hi.
  - intros (_ & _ & Hv). by rewrite (ics_copy p Hv).
  - intros _. destruct x as [[] o]. cbn in *. by subst.
Qed.
Lemma copied_core x : core (Rule (copied x)) = core (Rule x).
Proof. done. Qed.

Lemma mapM_ok {A B} (f : A → M B) (g : A → B) l : (∀ x, x ∈ l → f x = Ok (g x)) → mapM_ f l = Ok (g <$> l).
Proof.
  induction l as [|x l IH]; intros Hf; [done|]. cbn [mapM_]. rewrite Hf by by left. cbn [bind].
  rewrite IH by (intros y Hy; apply Hf; by right). done.
Qed.
Lemma mapM_returns {A B} (f : A → M B) l : (∀ x, x ∈ l → ∃ y, f x = Ok y) → ∃ ys, mapM_ f l = Ok ys.
Proof.
  induction l as [|x l IH]; intros Hf; [by eexists|]. cbn [mapM_]. destruct (Hf x) as [y Hy]; [by left|]. rewrite Hy. cbn [bind].
  destruct IH as [ys ->]; [intros z Hz; apply Hf; by right|]. by eexists.
Qed.

Lemma copied_ics_ok mode o : ics_ok mode o → ics_ok mode (norm_ics <$> o).
Proof. destruct o as [p|]; [|done]. intros (H1 & H2 & H3). split_and!; [done|done|by apply valid_norm]. Qed.

(** ** Choices *)
Lemma slot_rules_ext f g slot : (Required slot = None → f (Slot_Action slot) = g (Slot_Action slot)) → slot_rules f slot = slot_rules g slot.
Proof. unfold slot_rules. destruct (Required slot); [done|]. intros H. by rewrite H. Qed.

Lemma base_ext f g l : (∀ slot, slot ∈ l → Required slot = None → f (Slot_Action slot) = g (Slot_Action slot)) →
  mjoin (slot_rules f <$> l) = mjoin (slot_rules g <$> l).
Proof.
  induction l as [|s l IH]; intros H; [done|]. cbn. rewrite (slot_rules_ext f g s) by (intros; apply H; [by left|done]).
  f_equal. apply IH. intros; apply H; [by right|done].
Qed.

Lemma actions_ext c kinds f g : (∀ a, f a = g a) → plan_actions c kinds f = plan_actions c kinds g.
Proof. intros H. apply list_fmap_ext. intros i a _. by rewrite H. Qed.

Lemma compiled_ext c plan kinds f g : (∀ a, f a = g a) → compiled_rules c plan kinds f = compiled_rules c plan kinds g.
Proof. intros H. unfold compiled_rules. rewrite (actions_ext c kinds f g H), (base_ext f g) by (intros; apply H). done. Qed.

Section Compiled.
Context (pkg : Package) (c : Curriculum) (plan : CurriculumPlan) (rules : rules_map) (kinds : kinds_map).
Context (Hplan : plan_ok pkg c plan rules kinds).
Notation detects := (elems (Detect plan)).
Notation all_rules := (mjoin (slot_all <$> Rules plan)).
Notation base chosen := (mjoin (slot_rules chosen <$> Rules plan)).
Notation zones := (plan_zones pkg).
Notation mode := (ICSRules pkg).

Lemma slot_sublist chosen slot : Rule <$> slot_rules chosen slot `sublist_of` slot_all slot.
Proof.
  unfold slot_rules, slot_all. destruct (Required slot); [done|].
  destruct (chosen (Slot_Action slot)); rewrite <- list_fmap_compose, list_fmap_id.
  - by apply sublist_inserts_r.
  - by apply sublist_inserts_l.
Qed.

Lemma base_sublist chosen : Rule <$> base chosen `sublist_of` all_rules.
Proof.
  induction (Rules plan) as [|s l IH]; [done|]. cbn. rewrite fmap_app. apply sublist_app; [apply slot_sublist|exact IH].
Qed.

Lemma base_rule chosen x : x ∈ base chosen → Rule x ∈ all_rules.
Proof.
  intros Hx. eapply elem_of_sublist; [|apply (base_sublist chosen)]. apply list_elem_of_fmap. by exists x.
Qed.

Lemma base_NoDup chosen : NoDup (Rule_ID ∘ Rule <$> base chosen).
Proof.
  rewrite list_fmap_compose. eapply sublist_NoDup; [apply Hplan|]. apply fmap_sublist, base_sublist.
Qed.

Lemma slot_id r : r ∈ all_rules → rules !! Rule_ID r = Some r.
Proof. intros Hr. by apply (ro_lookup _ _ _ (po_rules _ _ _ _ _ Hplan)). Qed.

Lemma overlaid_valid chosen x x0 : x0 ∈ base chosen → overlaid detects x x0 → validatePlanRule zones mode (Rule x) = Ok tt.
Proof.
  intros H0 [H1 _ H3]. destruct (ro_valid _ _ _ (po_rules _ _ _ _ _ Hplan) _ (base_rule _ _ H0)) as [Hv _].
  apply rule_valid in Hv as [Hc Hi]. apply rule_valid. rewrite H1. split; [done|]. destruct H3 as [->|(id & d & p & Hd & Hp & ->)]; [done|].
  destruct (po_each _ _ _ _ _ Hplan _ _ Hd) as [_ Ho Hm _]. destruct (Ho _ _ Hp) as [Hpv _].
  assert (Detect_ICS d ≠ None) as Hne by (intros He; rewrite He in Hp; by apply elem_of_nil in Hp).
  split_and!; [|intros Hmon|done].
  - intros Hf. apply Hne, Hm. by left.
  - exfalso. apply Hne, Hm. by right.
Qed.

Lemma observing_valid past x : observing detects past x → validatePlanRule zones mode (Rule x) = Ok tt ∧
  ¬ slot_ids rules (Rule_ID (Rule x)) ∧ ∃ p, ICS (Rule x) = Some p ∧ ICS_Mode p = "monitor".
Proof.
  intros [(id & d & r & _ & Hd & Hr & Hcore & Hics)]. destruct (po_each _ _ _ _ _ Hplan _ _ Hd) as [Hrules _ _ _].
  destruct (Hrules r Hr) as ([Hc Hi]%rule_valid & Hid & p & Hp & _ & Hmon). split_and!.
  - apply rule_valid. by rewrite Hcore, Hics.
  - by rewrite (core_id _ _ Hcore).
  - exists p. by rewrite Hics.
Qed.

Lemma Forall2_elem {A B} (P : A → B → Prop) l k x : Forall2 P l k → x ∈ l → ∃ y, y ∈ k ∧ P x y.
Proof.
  intros HF Hx. apply list_elem_of_lookup in Hx as [i Hi]. destruct (Forall2_lookup_l _ _ _ _ _ HF Hi) as (y & Hy & HP).
  exists y. split; [by eapply list_elem_of_lookup_2|done].
Qed.

Lemma compiled_valid chosen x : x ∈ compiled_rules c plan kinds chosen → validatePlanRule zones mode (Rule x) = Ok tt.
Proof.
  destruct (compiled_folded _ _ _ _ _ Hplan chosen) as [(A & B & -> & HA & HB & _)]. intros [Hx|Hx]%elem_of_app.
  - destruct (Forall2_elem _ _ _ _ HA Hx) as (x0 & H0 & Ho). by eapply overlaid_valid.
  - rewrite Forall_forall in HB. by destruct (observing_valid _ _ (HB x Hx)).
Qed.

Lemma overlaid_ids A chosen : Forall2 (overlaid detects) A (base chosen) → Rule_ID ∘ Rule <$> A = Rule_ID ∘ Rule <$> base chosen.
Proof.
  intros HA. induction HA as [|x y l k [Hc _ _] _ IH]; [done|]. cbn. f_equal; [by apply core_id|exact IH].
Qed.

Lemma compiled_NoDup chosen : NoDup (Rule_ID ∘ Rule <$> compiled_rules c plan kinds chosen).
Proof.
  destruct (compiled_folded _ _ _ _ _ Hplan chosen) as [(A & B & -> & HA & HB & Hnd)]. rewrite fmap_app. apply NoDup_app.
  split_and!; [rewrite (overlaid_ids A chosen HA); apply base_NoDup| |done].
  intros id Hid (x & Hx & Hin)%list_elem_of_fmap. rewrite (overlaid_ids A chosen HA) in Hid.
  apply list_elem_of_fmap in Hid as (y & Hy & Hb). rewrite Forall_forall in HB. destruct (observing_valid _ _ (HB x Hin)) as (_ & Hn & _).
  apply Hn. exists (Rule y). cbn in Hx, Hy. rewrite <- Hx, Hy. by eapply slot_id, base_rule.
Qed.

Lemma copy_compiled chosen : mapM_ copy_rule (compiled_rules c plan kinds chosen) = Ok (copied <$> compiled_rules c plan kinds chosen).
Proof. apply mapM_ok. intros x Hx. eapply copy_ok. by apply compiled_valid, rule_valid in Hx as [_ ?]. Qed.

(** ** The verdict of the compiled rules is the verdict of the slots *)
Definition no_monitor_overlay : Prop := ∀ id d t p, (id, d) ∈ detects → (t, p) ∈ elems (Detect_ICS d) → ICS_Mode p ≠ "monitor".

Lemma Evaluate_transparent l k default t : Forall (λ r, transparent r = true) k → Evaluate (l ++ k) default t = Evaluate l default t.
Proof.
  intros Hk. induction l as [|r l IH]; cbn; [|by rewrite IH]. induction Hk as [|r k Hr _ IH]; [done|]. cbn. by rewrite Hr.
Qed.

Lemma Evaluate_same l k default t : Forall2 (λ r r', core r = core r' ∧ transparent r = transparent r') l k →
  Evaluate l default t = Evaluate k default t.
Proof.
  induction 1 as [|r r' l k [Hc Ht] _ IH]; [done|]. cbn. by rewrite Ht, (core_matches r r' t Hc), (core_action r r' Hc), IH.
Qed.

Lemma overlaid_transparent chosen x x0 : no_monitor_overlay → x0 ∈ base chosen → overlaid detects x x0 →
  transparent (Rule (copied x)) = transparent (Rule x0).
Proof.
  intros Hno H0 [H1 _ H3]. unfold transparent. cbn [copied Rule with_ics Action ICS]. rewrite (core_action _ _ H1).
  destruct H3 as [->|(id & d & p & Hd & Hp & ->)]; [by destruct (ICS (Rule x0))|].
  destruct (dt_overlays _ _ _ (po_each _ _ _ _ _ Hplan _ _ Hd) _ _ Hp) as (_ & r & Hr & Hn).
  rewrite (slot_id _ (base_rule _ _ H0)) in Hr. injection Hr as ->. rewrite Hn. cbn.
  by rewrite (proj2 (String.eqb_neq _ _) (Hno _ _ _ _ Hd Hp)).
Qed.

Lemma compiled_verdict chosen default t : no_monitor_overlay →
  Evaluate (Rule <$> (copied <$> compiled_rules c plan kinds chosen)) default t = Evaluate (Rule <$> base chosen) default t.
Proof.
  intros Hno. destruct (compiled_folded _ _ _ _ _ Hplan chosen) as [(A & B & -> & HA & HB & _)]. rewrite !fmap_app.
  rewrite Evaluate_transparent.
  - apply Evaluate_same. rewrite <- list_fmap_compose. apply Forall2_fmap.
    assert (∀ x0, x0 ∈ base chosen → x0 ∈ base chosen) as Hself by done. revert HA Hself. generalize (base chosen) at 1 2 4 as k.
    intros k HA. induction HA as [|x x0 l k Hx _ IH]; intros Hin; [constructor|]. constructor; [|apply IH; intros; apply Hin; by right].
    split; [cbn; by destruct Hx|]. eapply overlaid_transparent; [done|apply Hin; by left|done].
  - rewrite <- list_fmap_compose. apply Forall_fmap. eapply Forall_impl; [exact HB|]. intros x Hx.
    destruct (observing_valid _ _ Hx) as (_ & _ & p & Hp & Hm). unfold transparent. cbn. rewrite Hp. cbn. rewrite Hm. cbn.
    by rewrite orb_true_r.
Qed.
End Compiled.

(** ** The document of a compiled plan *)
Lemma map_entries_elem k v l : (k, v) ∈ map_entries l ↔ key_value k l = Some v.
Proof.
  unfold map_entries. rewrite list_elem_of_omap. split.
  - intros (k' & _ & Hv). destruct (key_value k' l) as [v'|] eqn:Hk; [|done]. cbn in Hv. by injection Hv as -> ->.
  - intros Hk. exists k. split; [|by rewrite Hk]. unfold sort_strings. rewrite sorting.merge_sort_Permutation, elem_of_remove_dups.
    apply key_value_elem in Hk. apply list_elem_of_fmap. by exists (k, v).
Qed.

Lemma key_value_snoc {A} k k' (v : A) l : key_value k (l ++ [(k', v)]) = if (k' =? k)%string then Some v else key_value k l.
Proof. unfold key_value. rewrite rev_app_distr. cbn. by destruct (k' =? k)%string. Qed.

Definition plain_json (v : json) : Prop := ∀ q x, ¬ at_path v (q ++ [Key icsKey]) x.

Lemma at_path_obj l q x : at_path (JObj l) (q ++ [Key icsKey]) x →
  (q = [] ∧ (icsKey, x) ∈ l) ∨ ∃ k y q', q = Key k :: q' ∧ (k, y) ∈ l ∧ at_path y (q' ++ [Key icsKey]) x.
Proof.
  destruct q as [|t q]; intros Hp; inversion Hp as [|? k y ? ? Hin Hy|]; subst.
  - inversion Hy; subst. by left.
  - right. by exists k, y, q.
Qed.

Lemma plain_str s : plain_json (JStr s).
Proof. intros [|t q] x Hp; inversion Hp. Qed.
Lemma plain_int z : plain_json (JInt z).
Proof. intros [|t q] x Hp; inversion Hp. Qed.
Lemma plain_bool b : plain_json (JBool b).
Proof. intros [|t q] x Hp; inversion Hp. Qed.
Lemma plain_arr l : (∀ y, y ∈ l → plain_json y) → plain_json (JArr l).
Proof.
  intros Hl [|t q] x Hp; inversion Hp as [| |? i y ? ? Hi Hy]; subst. eapply (Hl y); [by eapply list_elem_of_lookup_2|exact Hy].
Qed.
Lemma plain_obj l : (∀ k y, (k, y) ∈ l → k ≠ icsKey ∧ plain_json y) → plain_json (JObj l).
Proof.
  intros Hl q x [[-> Hin]|(k & y & q' & -> & Hin & Hy)]%at_path_obj; [by destruct (Hl _ _ Hin)|].
  destruct (Hl _ _ Hin) as [_ Hp]. by eapply Hp.
Qed.
#[local] Arguments slice_field : simpl never.
Lemma plain_slice {A} (f : A → json) o v : (∀ x, plain_json (f x)) → slice_field f o = Some v → plain_json v.
Proof.
  intros Hf. destruct o as [[|x l]|]; [done| |done]. intros [= <-]. apply plain_arr. intros y [->|Hy]%elem_of_cons; [done|].
  apply list_elem_of_fmap in Hy as (z & -> & _). done.
Qed.
Lemma plain_string s v : string_field s = Some v → plain_json v.
Proof. unfold string_field. destruct (_ =? _)%string; [done|]. intros [= <-]. apply plain_str. Qed.
Lemma plain_flag b v : bool_field b = Some v → plain_json v.
Proof. destruct b; [|done]. intros [= <-]. apply plain_bool. Qed.
Lemma plain_fmap {A} (f : A → json) o v : (∀ x, plain_json (f x)) → f <$> o = Some v → plain_json v.
Proof. intros Hf. destruct o as [x|]; [|done]. intros [= <-]. apply Hf. Qed.

Lemma plain_ioa (r : Z * Z) : plain_json (JObj [("start", JInt r.1); ("end", JInt r.2)]).
Proof. apply plain_obj. intros k y Hin. rewrite !elem_of_cons, elem_of_nil in Hin. destruct Hin as [[= -> ->]|[[= -> ->]|[]]]; (split; [done|apply plain_int]). Qed.

#[local] Hint Resolve plain_str plain_int plain_bool plain_ioa : plain.

Ltac plain_field H := first [eapply plain_string; exact H|eapply plain_flag; exact H|eapply plain_slice; [|exact H]; intros; cbv beta; auto with plain
  |eapply plain_fmap; [|exact H]; eauto with plain|injection H as ->; eauto with plain|rewrite <- H; auto with plain].

Lemma encode_ics_plain p : plain_json (encode_ics p).
Proof.
  apply plain_obj. intros k y Hin%present_elem. split.
  - intros ->. assert (icsKey ∈ (ics_fields p).*1) as Hk by (apply list_elem_of_fmap; by exists (icsKey, Some y)).
    rewrite ics_fields_names in Hk. revert Hk. apply (bool_decide_unpack _). vm_compute. exact I.
  - unfold ics_fields in Hin. rewrite !elem_of_cons, elem_of_nil in Hin.
    repeat destruct Hin as [[= -> Hv]|Hin]; [symmetry in Hv; plain_field Hv..|done].
Qed.

Lemma encode_protocol_plain p : plain_json (encode_protocol p).
Proof.
  apply plain_obj. intros k y Hin%present_elem. rewrite !elem_of_cons, elem_of_nil in Hin.
  destruct Hin as [[= -> ->]|[[= -> Hv]|[]]]; (split; [done|]); [apply plain_str|symmetry in Hv; plain_field Hv].
Qed.
#[local] Hint Resolve encode_protocol_plain : plain.

(** The only [ics] key of a rule's document is the rule's. *)
Lemma encode_rule_ics r q x : at_path (encode_rule r) (q ++ [Key icsKey]) x → q = [] ∧ ∃ p, ICS r = Some p ∧ x = encode_ics p.
Proof.
  intros [[-> Hin]|(k & y & q' & -> & Hin & Hy)]%at_path_obj; apply present_elem in Hin; rewrite !elem_of_cons, elem_of_nil in Hin.
  - split; [done|]. repeat destruct Hin as [[= Hv]|Hin]; try done. destruct (ICS r) as [p|]; [|done]. injection Hv as ->. by exists p.
  - exfalso. revert Hy. repeat destruct Hin as [[= -> Hv]|Hin]; [symmetry in Hv..|done].
    all: try (assert (plain_json y) as Hp by plain_field Hv; apply Hp).
    destruct (ICS r) as [p|]; [|done]. injection Hv as <-. apply encode_ics_plain.
Qed.

Lemma config_paths env fw rs rs0 p x : at_path (plan_config env fw rs) (p ++ [Key icsKey]) x →
  at_path (plan_config env fw rs0) (p ++ [Key icsKey]) x ∨
  ∃ i r ics, p = [Key "firewall"; Key "rules"; Index i] ∧ r ∈ rs ∧ ICS r = Some ics ∧ x = encode_ics ics.
Proof.
  unfold plan_config. cbv zeta.
  assert (∀ rs k v, (k, v) ∈ map_entries (env ++ [("firewall", JObj (map_entries (fw ++ [("rules", JArr (encode_rule <$> rs))])))]) →
    (k = "firewall" ∧ v = JObj (map_entries (fw ++ [("rules", JArr (encode_rule <$> rs))]))) ∨ k ≠ "firewall" ∧ key_value k env = Some v) as Hout.
  { intros rs' k v Hin%map_entries_elem. rewrite key_value_snoc in Hin. destruct (String.eqb_spec "firewall" k) as [<-|]; [|by right].
    injection Hin as <-. by left. }
  assert (∀ rs k v, k ≠ "firewall" → key_value k env = Some v →
    (k, v) ∈ map_entries (env ++ [("firewall", JObj (map_entries (fw ++ [("rules", JArr (encode_rule <$> rs))])))])) as Hsame.
  { intros rs' k v Hk Hv. apply map_entries_elem. rewrite key_value_snoc. by destruct (String.eqb_spec "firewall" k) as [<-|]. }
  intros [[-> Hin]|(k & y & q & -> & Hin & Hy)]%at_path_obj; apply Hout in Hin.
  { destruct Hin as [[? _]|[Hk Hv]]; [done|]. left. eapply at_key; [by apply Hsame|constructor]. }
  destruct Hin as [[-> ->]|[Hk Hv]]; [|left; eapply at_key; [by apply Hsame|exact Hy]].
  assert ((∀ rs k v, k ≠ "rules" → (k, v) ∈ map_entries (fw ++ [("rules", JArr (encode_rule <$> rs))]) →
    ∀ rs0, (k, v) ∈ map_entries (fw ++ [("rules", JArr (encode_rule <$> rs0))]))) as Hfw.
  { intros rs1 k v Hk Hin%map_entries_elem rs2. apply map_entries_elem. rewrite key_value_snoc in *. by destruct (String.eqb_spec "rules" k) as [<-|]. }
  assert (∀ rs, ("firewall", JObj (map_entries (fw ++ [("rules", JArr (encode_rule <$> rs))]))) ∈
    map_entries (env ++ [("firewall", JObj (map_entries (fw ++ [("rules", JArr (encode_rule <$> rs))])))])) as Hf.
  { intros rs'. apply map_entries_elem. by rewrite key_value_snoc. }
  apply at_path_obj in Hy as [[-> Hin]|(k & z & q' & -> & Hin & Hz)].
  { left. cbn. eapply at_key; [apply Hf|]. eapply at_key; [by eapply Hfw|constructor]. }
  destruct (String.eqb_spec k "rules") as [->|Hk]; [right|left; cbn; eapply at_key; [apply Hf|]; eapply at_key; [by eapply Hfw|exact Hz]].
  apply map_entries_elem in Hin. rewrite key_value_snoc in Hin. injection Hin as <-.
  destruct q' as [|t q']; cbn [app] in Hz; inversion Hz as [| |? i y ? ? Hi Hy]; subst.
  rewrite list_lookup_fmap in Hi. destruct (rs !! i) as [r|] eqn:Hr; [|done]. injection Hi as <-.
  apply encode_rule_ics in Hy as [-> (ics & Hics & ->)]. exists i, r, ics. split_and!; [done|by eapply list_elem_of_lookup_2|done|done].
Qed.

Lemma encode_monitor p : validatePlanICS p = Ok tt → Protocol p ≠ "" → ICS_Mode p = "monitor" → monitorPolicyICS (encode_ics p) = true.
Proof.
  intros Hv Hp Hm. unfold monitorPolicyICS, encode_ics. cbn [unmarshal_map].
  rewrite (present_value "protocol" (string_field (Protocol p)));
    [|rewrite ics_fields_names; apply ics_names_NoDup|ics_field].
  rewrite (present_value "mode" (string_field (ICS_Mode p))); [|rewrite ics_fields_names; apply ics_names_NoDup|ics_field].
  unfold string_field. rewrite Hm, (proj2 (String.eqb_neq _ _) Hp). cbn [unmarshal_string String.eqb].
  unfold validatePlanICS in Hv. apply bind_unit_ok in Hv as [Hg _]. unfold validateGenericPlanICS in Hg.
  rewrite bind_unit_ok, guard_ok, negb_false_iff, contains_true in Hg. destruct Hg as (_ & Hin & _).
  rewrite !elem_of_cons, elem_of_nil in Hin. by destruct Hin as [?|[->|[->|[->|[]]]]].
Qed.

(** The lint of a document with other rules. *)
Lemma lint_rules decode_doc mode env fw rs rs0 : decode_doc (plan_config env fw rs) = decode_doc (plan_config env fw rs0) →
  (∀ r, r ∈ rs → ics_ok mode (ICS r)) → LintPolicy decode_doc (Some (plan_config env fw rs0)) mode = Ok tt →
  LintPolicy decode_doc (Some (plan_config env fw rs)) mode = Ok tt.
Proof.
  intros Hd Hrs. unfold LintPolicy, check_safety. rewrite Hd, !guard_ok, !bind_unit_ok.
  intros (H1 & _ & H2 & H3). split_and!; [done|done|done|]. destruct (mode =? ICSRulesAllowed)%string eqn:Ha; [done|].
  set (m := (mode =? ICSRulesMonitor)%string) in *.
  assert (false = true ↔ rule_path []) as Hroot by (split; [done|]; by intros [i Hi]).
  assert (walkKeys m "" false (plan_config env fw rs) = []) as ->; [|done].
  assert (walkKeys m "" false (plan_config env fw rs0) = []) as Hw by (by destruct (walkKeys m "" false (plan_config env fw rs0))).
  change "" with (render []) in *. apply (walk_nil m _ [] false Hroot). intros p x [Hx|(i & r & ics & -> & Hr & Hi & ->)]%(config_paths _ _ _ rs0).
  - by apply (proj1 (walk_nil m _ [] false Hroot) Hw).
  - specialize (Hrs r Hr). rewrite Hi in Hrs. destruct Hrs as (Hnf & Hmon & Hv).
    assert (mode = ICSRulesMonitor) as He.
    { apply negb_false_iff, bool_decide_eq_true in H1. rewrite !elem_of_cons, elem_of_nil in H1.
      destruct H1 as [->|[->|[->|[]]]]; done. }
    destruct (Hmon He) as [Hp Hm]. split_and!; [by subst m mode|by exists i|by apply encode_monitor].
Qed.
