(* ===== verification/PlanCompile.v ===== *)
(** * Exercise plans: what compilation promises

    The compiled rules are given in closed form: the chosen variants of the
    slots with the chosen detections laid over them, then the observation rules
    of those detections.  The result depends on the set of chosen actions only,
    every selection compiles, and detection does not change what passes. *)
From S2P Require Import Prelude GoLib GoText NetIP Policy PolicyCorrect Plan PlanIcs PlanInv PlanCorrect.
From stdpp Require Import pretty.

#[local] Open Scope string_scope.
#[local] Open Scope Z_scope.
#[local] Open Scope list_scope.

(** ** The closed form *)
Definition chosen_detect (plan : CurriculumPlan) (chosen : string → bool) (a : DecisionAction) : option (string * PlanDetect) :=
  if chosen (Action_ID a) then d ← key_value (Action_ID a) (elems (Detect plan)); Some (Action_ID a, d) else None.
Definition chosen_detects (plan : CurriculumPlan) (c : Curriculum) (chosen : string → bool) : list (string * PlanDetect) :=
  omap (chosen_detect plan chosen) (Catalog c).
Definition logged (ds : list (string * PlanDetect)) : list string := mjoin ((λ e, Detect_Log e.2) <$> ds).
Definition overlays (ds : list (string * PlanDetect)) : list (string * PlanICS) := mjoin ((λ e, elems (Detect_ICS e.2)) <$> ds).
Definition observe (e : string * PlanDetect) : list CompiledPlanRule :=
  (λ r, mkCompiled r (mkOrigin "observe" e.1)) <$> Detect_Rules e.2.
Definition observations (ds : list (string * PlanDetect)) : list CompiledPlanRule := mjoin (observe <$> ds).

(** One rule of a slot under the detections [ds]. *)
Definition with_detections (ds : list (string * PlanDetect)) (x : CompiledPlanRule) : CompiledPlanRule :=
  let r := Rule x in
  mkCompiled
    (with_ics (match key_value (Rule_ID r) (overlays ds) with Some p => Some p | None => ICS r end)
       (with_log (Log r || contains (logged ds) (Rule_ID r)) r))
    (Origin x).

Definition expected_slot (chosen : string → bool) (slot : PlanSlot) : list CompiledPlanRule :=
  match Required slot with
  | Some r => [mkCompiled r (mkOrigin "required" "")]
  | None =>
      if chosen (Slot_Action slot) then (λ r, mkCompiled r (mkOrigin "selected" (Slot_Action slot))) <$> elems (Selected slot)
      else (λ r, mkCompiled r (mkOrigin "deferred" (Slot_Action slot))) <$> elems (Deferred slot)
  end.
Lemma slot_exact chosen slot : slot_rules chosen slot = expected_slot chosen slot.
Proof. unfold slot_rules, expected_slot. destruct (Required slot); [done|]. by destruct (chosen _). Qed.

Definition expected_rules (plan : CurriculumPlan) (c : Curriculum) (chosen : string → bool) : list CompiledPlanRule :=
  let ds := chosen_detects plan c chosen in
  (with_detections ds <$> mjoin (expected_slot chosen <$> Rules plan)) ++ observations ds.

Lemma mjoin_snoc {A B} (f : A → list B) l x : mjoin (f <$> l ++ [x]) = mjoin (f <$> l) ++ f x.
Proof. rewrite fmap_app, join_app. cbn. by rewrite app_nil_r. Qed.

Lemma key_value_app {A} k (l l' : list (string * A)) :
  key_value k (l ++ l') = match key_value k l' with Some v => Some v | None => key_value k l end.
Proof.
  induction l' as [|[k' v] l' IH] using rev_ind; [by rewrite app_nil_r|]. rewrite app_assoc, !key_value_snoc.
  by destruct (k' =? k)%string.
Qed.

Lemma contains_app l l' x : contains (l ++ l') x = contains l x || contains l' x.
Proof. apply Bool.eq_iff_eq_true. rewrite orb_true_iff, !contains_true. apply elem_of_app. Qed.

Lemma with_no_detections x : with_detections [] x = x.
Proof. unfold with_detections. cbn. rewrite orb_false_r. by destruct x as [[] o]. Qed.

Lemma overlay_with ds e x : overlay e.2 (with_detections ds x) = with_detections (ds ++ [e]) x.
Proof.
  unfold overlay, with_detections, logged, overlays. cbv zeta. rewrite !mjoin_snoc, contains_app, key_value_app.
  destruct x as [r o]. cbn [Rule Origin with_ics with_log Rule_ID].
  destruct (contains (Detect_Log e.2) (Rule_ID r)); cbn [with_ics with_log Rule_ID ICS Log];
    destruct (key_value (Rule_ID r) (elems (Detect_ICS e.2))); cbn; by rewrite ?orb_true_r, ?orb_false_r.
Qed.

Section Exact.
Context (pkg : Package) (c : Curriculum) (plan : CurriculumPlan) (rules : rules_map) (kinds : kinds_map).
Context (Hplan : plan_ok pkg c plan rules kinds).
Notation detects := (elems (Detect plan)).

Lemma overlay_observed id d x : (id, d) ∈ detects → ¬ slot_ids rules (Rule_ID (Rule x)) → overlay d x = x.
Proof.
  intros Hd Hx. destruct (po_each _ _ _ _ _ Hplan _ _ Hd) as [_ Ho _ Hl]. unfold overlay. cbv zeta.
  rewrite (proj2 (contains_false _ _)) by (intros Hin; by apply Hx, Hl).
  rewrite (proj2 (key_value_none _ _)); [by destruct x|]. intros ([t p] & He & Hin)%list_elem_of_fmap. cbn in He. subst t.
  destruct (Ho _ _ Hin) as (_ & r & Hr & _). apply Hx. by exists r.
Qed.

Lemma overlay_observations id d ds : (id, d) ∈ detects → (∀ e, e ∈ ds → e ∈ detects) → overlay d <$> observations ds = observations ds.
Proof.
  intros Hd Hds. rewrite <- (list_fmap_id (observations ds)) at 2. apply list_fmap_ext. intros i x Hx. apply (overlay_observed id); [done|].
  apply list_elem_of_lookup_2, list_elem_of_join in Hx as (l & Hx & ([id' d'] & -> & He)%list_elem_of_fmap).
  apply list_elem_of_fmap in Hx as (r & -> & Hr). cbn.
  by destruct (dt_rules _ _ _ (po_each _ _ _ _ _ Hplan _ _ (Hds _ He)) r Hr) as (_ & ? & _).
Qed.

Lemma fold_exact (base : list CompiledPlanRule) chosen (l : list DecisionAction) : (∀ a, a ∈ l → is_Some (kinds !! Action_ID a)) → ∀ ds, (∀ e, e ∈ ds → e ∈ detects) →
  let new := omap (chosen_detect plan chosen) l in
  fold_left (apply_detect detects)
    ((λ a, mkPlanAction (Action_ID a) (default PlanActionOnly (kinds !! Action_ID a)) (chosen (Action_ID a))) <$> l)
    ((with_detections ds <$> base) ++ observations ds) =
  (with_detections (ds ++ new) <$> base) ++ observations (ds ++ new).
Proof.
  induction l as [|a l IH]; intros Hl ds Hds; cbn [omap list_omap fold_left fmap list_fmap]; cbv zeta; [by rewrite app_nil_r|].
  assert (∀ x, x ∈ l → is_Some (kinds !! Action_ID x)) as Hl' by (intros x Hx; apply Hl; by right).
  set (pick := chosen_detect plan chosen a). unfold chosen_detect in pick. subst pick. unfold apply_detect at 2. cbn [Kind Chosen PA_ID].
  destruct (key_value (Action_ID a) detects) as [d|] eqn:Hd.
  - apply key_value_elem in Hd as Hin. assert (kinds !! Action_ID a = Some PlanActionDetect) as ->.
    { apply (po_detect _ _ _ _ _ Hplan), list_elem_of_fmap. by exists (Action_ID a, d). }
    rewrite bool_decide_eq_true_2 by done. cbn [negb orb default]. destruct (chosen (Action_ID a)); cbn [negb]; [|by apply IH].
    cbn [mbind option_bind].
    rewrite <- app_assoc, fmap_app, <- list_fmap_compose, cons_middle, app_assoc.
    rewrite <- (IH Hl' (ds ++ [(Action_ID a, d)])).
    2: { intros e [He|He%list_elem_of_singleton]%elem_of_app; [by apply Hds|by subst]. }
    do 2 f_equal.
    + apply list_fmap_ext. intros i x _. apply (overlay_with ds (Action_ID a, d)).
    + change (overlay d <$> mjoin (observe <$> ds) ++ observe (Action_ID a, d) = observations (ds ++ [(Action_ID a, d)])).
      rewrite <- mjoin_snoc. apply (overlay_observations (Action_ID a)); [done|].
      intros e [He|He%list_elem_of_singleton]%elem_of_app; [by apply Hds|by subst].
  - cbn [mbind option_bind]. replace (if chosen (Action_ID a) then None else None) with (@None (string * PlanDetect)) by by destruct (chosen _).
    rewrite bool_decide_eq_false_2; [by apply IH|]. destruct (Hl a) as [k Hk]; [by left|]. rewrite Hk. cbn. intros ->.
    apply (po_detect _ _ _ _ _ Hplan) in Hk. by apply key_value_none in Hd.
Qed.

Lemma compiled_exact chosen : compiled_rules c plan kinds chosen = expected_rules plan c chosen.
Proof.
  unfold compiled_rules, expected_rules, plan_actions. cbv zeta.
  rewrite <- (list_fmap_ext _ _ _ (λ _ slot _, slot_exact chosen slot)), <- (fold_exact _ chosen (Catalog c)) with (ds := []).
  - f_equal. change (observations []) with (@nil CompiledPlanRule). rewrite app_nil_r.
    rewrite <- (list_fmap_id (mjoin _)) at 1. apply list_fmap_ext. intros i x _. symmetry. apply with_no_detections.
  - intros a Ha. apply (po_known _ _ _ _ _ Hplan), list_elem_of_fmap. by exists a.
  - intros e He. by apply elem_of_nil in He.
Qed.
End Exact.

(** ** Labels *)
Lemma filter_all {A} (P : A → Prop) `{∀ x, Decision (P x)} l : zlen (filter P l) = zlen l ↔ ∀ x, x ∈ l → P x.
Proof.
  unfold zlen. split.
  - intros Hl x Hx. destruct (decide (P x)) as [|Hn]; [done|]. pose proof (length_filter_lt P l x Hx Hn). lia.
  - intros Hall. induction l as [|x l IH]; [done|]. rewrite filter_cons_True by (apply Hall; by left). cbn [length].
    specialize (IH ltac:(intros y Hy; apply Hall; by right)). lia.
Qed.
Lemma filter_none {A} (P : A → Prop) `{∀ x, Decision (P x)} l : filter P l = [] ↔ ∀ x, x ∈ l → ¬ P x.
Proof.
  split; [intros Hl x Hx HP; by eapply filter_nil_not_elem_of|]. intros Hall. apply elem_of_nil_inv.
  intros x [HP Hx]%list_elem_of_filter. by apply (Hall x).
Qed.
Lemma zlen_nil_iff {A} (l : list A) : zlen l = 0 ↔ l = [].
Proof. destruct l; [done|]. unfold zlen. cbn. split; [lia|done]. Qed.

(** The actions that change the compiled plan. *)
Definition technical (plan : CurriculumPlan) (a : string) : Prop :=
  enforced (Rules plan) a ∨ a ∈ (elems (Detect plan)).*1.

Section Label.
Context (pkg : Package) (c : Curriculum) (plan : CurriculumPlan) (rules : rules_map) (kinds : kinds_map).
Context (Hplan : plan_ok pkg c plan rules kinds).

Lemma technical_kind a : technical plan a ↔ ∃ k, kinds !! a = Some k ∧ k ≠ PlanActionOnly.
Proof.
  unfold technical. rewrite <- (po_enforce _ _ _ _ _ Hplan), <- (po_detect _ _ _ _ _ Hplan). split.
  - intros [->| ->]; by eexists.
  - intros ([] & -> & Hk); [by left|by right|done].
Qed.

Lemma technical_action chosen a : technical plan a ↔
  ∃ x, x ∈ filter (λ x, Kind x ≠ PlanActionOnly) (plan_actions c kinds chosen) ∧ PA_ID x = a ∧ Chosen x = chosen a.
Proof.
  rewrite technical_kind. split.
  - intros (k & Hk & Hne). assert (a ∈ (Action_ID <$> Catalog c)) as (b & -> & Hb)%list_elem_of_fmap.
    { apply (po_known _ _ _ _ _ Hplan). by exists k. }
    eexists. rewrite list_elem_of_filter. split_and!; [|by apply list_elem_of_fmap; exists b|done|done]. cbn. by rewrite Hk.
  - intros (x & [Hne (b & -> & Hb)%list_elem_of_fmap]%list_elem_of_filter & <- & _). cbn in *.
    destruct (kinds !! Action_ID b) as [k|]; [by exists k|done].
Qed.

Lemma label_cases chosen : let label := plan_label (plan_actions c kinds chosen) in
  (label = "weak" ↔ ∀ a, technical plan a → chosen a = false) ∧
  (label = "hardened" ↔ (∃ a, technical plan a) ∧ ∀ a, technical plan a → chosen a = true) ∧
  (label = "weak" ∨ label = "partial" ∨ label = "hardened").
Proof.
  cbv zeta. unfold plan_label. cbv zeta. pose proof (technical_action chosen) as Htech.
  assert (∀ x, x ∈ filter (λ x, Kind x ≠ PlanActionOnly) (plan_actions c kinds chosen) → Chosen x = chosen (PA_ID x)) as Hch.
  { intros x [_ (b & -> & _)%list_elem_of_fmap]%list_elem_of_filter. done. }
  set (tech := filter _ (plan_actions c kinds chosen)) in *. clearbody tech.
  assert ((∀ a, technical plan a → chosen a = false) ↔ zlen (filter (λ x, Chosen x = true) tech) = 0) as ->.
  { rewrite zlen_nil_iff, filter_none. split.
    - intros Hall x Hx Hc. assert (technical plan (PA_ID x)) as Ht by (apply Htech; exists x; auto).
      specialize (Hch x Hx). rewrite (Hall _ Ht) in Hch. congruence.
    - intros Hall a (x & Hx & <- & Hc)%Htech. specialize (Hall x Hx). by destruct (chosen (PA_ID x)). }
  assert ((∀ a, technical plan a → chosen a = true) ↔ zlen (filter (λ x, Chosen x = true) tech) = zlen tech) as ->.
  { rewrite filter_all. split.
    - intros Hall x Hx. rewrite Hch by done. apply Hall, Htech. exists x. auto.
    - intros Hall a (x & Hx & <- & <-)%Htech. by apply Hall. }
  assert ((∃ a, technical plan a) ↔ zlen tech ≠ 0) as ->.
  { rewrite zlen_nil_iff. split.
    - intros (a & (x & Hx & _)%Htech) ->. by apply elem_of_nil in Hx.
    - destruct tech as [|x tech]; [done|]. intros _. exists (PA_ID x). apply Htech. exists x. split_and!; [by left|done|by apply Hch; left]. }
  destruct (Z.eqb_spec (zlen (filter (λ x, Chosen x = true) tech)) 0) as [H0|H0],
    (Z.eqb_spec (zlen (filter (λ x, Chosen x = true) tech)) (zlen tech)) as [H1|H1]; split_and!; (split || idtac);
    auto; try done; try lia; intros; split_and!; lia.
Qed.
End Label.

(** ** Compilations that succeed *)
Section Compilation.
Context (decode_doc : json → option PolicyDoc) (decode_rules : option json → M (option (list PlanRule))).
Notation Compile := (CompilePlan decode_doc decode_rules).

(** What is fixed before the selection is looked at. *)
Record prepared (pkg : Package) (c : Curriculum) (plan : CurriculumPlan) (rules : rules_map) (kinds : kinds_map)
    (env fw : list (string * json)) (default : string) (hardened : list PlanRule) : Prop := {
  pr_valid : validatePlan pkg c = Ok kinds;
  pr_plan : plan_ok pkg c plan rules kinds;
  pr_open : open_envelope decode_rules pkg = Ok (env, fw, default, hardened)
}.

Definition emitted (plan : CurriculumPlan) (c : Curriculum) (kinds : kinds_map) (ids : list string) : list CompiledPlanRule :=
  copied <$> compiled_rules c plan kinds (contains ids).

Lemma known_ok (kinds : kinds_map) ids :
  each (λ id, guard_err (Errorf "plan: unknown action %s" [id]) (negb (is_some (kinds !! id))) (Ok tt)) ids = Ok tt ↔
  ∀ a, a ∈ ids → is_Some (kinds !! a).
Proof.
  rewrite each_ok. split; intros H a Ha.
  - specialize (H a Ha). apply guard_ok in H as [H _]. by apply negb_false_iff, is_some_true in H.
  - apply guard_ok. split; [|done]. by apply negb_false_iff, is_some_true, H.
Qed.

Lemma compile_prepared pkg c ids r : Compile pkg c ids = Ok r →
  ∃ plan rules kinds env fw default hardened, prepared pkg c plan rules kinds env fw default hardened.
Proof.
  unfold CompilePlan. intros (kinds & Hv & Hc)%bind_Ok. apply bind_Ok in Hc as (? & _ & Hc).
  destruct (validatePlan_ok pkg c kinds Hv) as (plan & rules & Hplan). rewrite (po_plan _ _ _ _ _ Hplan) in Hc. cbv zeta in Hc.
  apply bind_Ok in Hc as (? & _ & Hc). apply bind_Ok in Hc as ([[[env fw] default] hardened] & Ho & _).
  by exists plan, rules, kinds, env, fw, default, hardened.
Qed.

Lemma compile_iff pkg c plan rules kinds env fw default hardened ids r :
  prepared pkg c plan rules kinds env fw default hardened →
  let out := emitted plan c kinds ids in
  let config := plan_config env fw (Rule <$> out) in
  let actions := plan_actions c kinds (contains ids) in
  Compile pkg c ids = Ok r ↔
  (∀ a, a ∈ ids → a ∈ (Action_ID <$> Catalog c)) ∧
  LintPolicy decode_doc (Some config) (ICSRules pkg) = Ok tt ∧
  ∃ es, mapM_ (expectation pkg (Rule <$> out) hardened default) (Proof_ plan) = Ok es ∧
    r = mkCompiledPlan config out actions (plan_label actions) es.
Proof.
  intros [Hv Hplan Ho]. cbv zeta. unfold CompilePlan. rewrite Hv. cbn [bind].
  rewrite (po_plan _ _ _ _ _ Hplan). cbv zeta. setoid_rewrite <- (po_known _ _ _ _ _ Hplan). rewrite <- known_ok.
  destruct (each _ ids) as [[]|e| |]; cbn [bind]; [|split; [done|by intros [? _]]..].
  rewrite (copy_compiled _ _ _ _ _ Hplan). cbn [bind]. rewrite Ho. cbn [bind]. unfold emitted.
  destruct (LintPolicy _ _ _) as [[]|e| |]; cbn [bind]; [|split; [done|by intros (_ & ? & _)]..].
  destruct (mapM_ _ _) as [es|e| |]; cbn [bind]; [|split; [done|by intros (_ & _ & es & ? & _)]..].
  split; [|by intros (_ & _ & es' & [= ->] & ->)]. intros [= <-]. split_and!; [done|done|]. by exists es.
Qed.

Lemma emitted_ext ids ids' : (∀ a, a ∈ ids ↔ a ∈ ids') → ∀ a, contains ids a = contains ids' a.
Proof. intros H a. apply Bool.eq_iff_eq_true. by rewrite !contains_true. Qed.

(** The order and the repetition of the chosen actions are immaterial: two
    selections of the same set of actions give the same compiled plan, its
    configuration and the order of its rules included. *)
Theorem compile_canonical pkg c ids ids' r : (∀ a, a ∈ ids ↔ a ∈ ids') → Compile pkg c ids = Ok r → Compile pkg c ids' = Ok r.
Proof.
  intros Hids Hr. destruct (compile_prepared _ _ _ _ Hr) as (plan & rules & kinds & env & fw & def & hard & Hp).
  apply (compile_iff _ _ _ _ _ _ _ _ _ _ _ Hp) in Hr. apply (compile_iff _ _ _ _ _ _ _ _ _ _ _ Hp). cbv zeta in *.
  pose proof (emitted_ext ids ids' Hids) as He. unfold emitted in *.
  rewrite <- (compiled_ext c plan kinds _ _ He), <- (actions_ext c kinds _ _ He). destruct Hr as [Hk Hr]. split; [|exact Hr].
  intros a Ha. by apply Hk, Hids.
Qed.

(** C17. A compiled plan holds exactly the rules its selection stands for, in
    order: each slot's required rule, or its selected variant when its action is
    chosen and its deferred variant when not, with the log flags and predicates
    of the chosen detections laid over them by rule identifier; then the
    observation rules of the chosen detections in catalog order.  Every rule
    passes validation, no identifier occurs twice, and the label is weak when no
    technical action is chosen, hardened when every one is. *)
Theorem compile_exact pkg c ids r : Compile pkg c ids = Ok r → ∃ plan, Plan c = Some plan ∧
  CRules r = copied <$> expected_rules plan c (contains ids) ∧
  NoDup (Rule_ID ∘ Rule <$> CRules r) ∧
  (∀ x, x ∈ CRules r → validatePlanRule (plan_zones pkg) (ICSRules pkg) (Rule x) = Ok tt) ∧
  (Label r = "weak" ↔ ∀ a, technical plan a → a ∉ ids) ∧
  (Label r = "hardened" ↔ (∃ a, technical plan a) ∧ ∀ a, technical plan a → a ∈ ids) ∧
  (Label r = "weak" ∨ Label r = "partial" ∨ Label r = "hardened").
Proof.
  intros Hr. destruct (compile_prepared _ _ _ _ Hr) as (plan & rules & kinds & env & fw & def & hard & Hp).
  apply (compile_iff _ _ _ _ _ _ _ _ _ _ _ Hp) in Hr. cbv zeta in Hr. destruct Hr as (_ & _ & es & _ & ->). destruct Hp as [_ Hplan _].
  exists plan. cbn [CRules Label]. unfold emitted.
  destruct (label_cases _ _ _ _ _ Hplan (contains ids)) as (Hw & Hh & Hl). setoid_rewrite contains_false in Hw. setoid_rewrite contains_true in Hh.
  split_and!; [apply Hplan|by rewrite (compiled_exact _ _ _ _ _ Hplan)| | |exact Hw|exact Hh|done].
  - rewrite <- list_fmap_compose. apply (compiled_NoDup _ _ _ _ _ Hplan).
  - intros x (y & -> & Hy)%list_elem_of_fmap. apply (compiled_valid _ _ _ _ _ Hplan), rule_valid in Hy as [Hc Hi].
    apply rule_valid. split; [done|by apply copied_ics_ok].
Qed.

(** When the plan compiles for a team that chose nothing, it compiles for
    every selection of catalog actions, in any order: no choice can lead to an
    error, given that the management fields of a policy do not depend on its
    firewall rules. *)
Theorem selections_compile pkg c r0 ids :
  (∀ env fw rs rs', decode_doc (plan_config env fw rs) = decode_doc (plan_config env fw rs')) →
  Compile pkg c [] = Ok r0 → (∀ a, a ∈ ids → a ∈ (Action_ID <$> Catalog c)) → ∃ r, Compile pkg c ids = Ok r.
Proof.
  intros Hdoc H0 Hids. destruct (compile_prepared _ _ _ _ H0) as (plan & rules & kinds & env & fw & def & hard & Hp).
  apply (compile_iff _ _ _ _ _ _ _ _ _ _ _ Hp) in H0. cbv zeta in H0. destruct H0 as (_ & Hlint & _). pose proof (pr_plan _ _ _ _ _ _ _ _ _ Hp) as Hplan.
  assert (∃ es, mapM_ (expectation pkg (Rule <$> emitted plan c kinds ids) hard def) (Proof_ plan) = Ok es) as [es Hes].
  { apply mapM_returns. intros p (route & Hroute)%(po_proofs _ _ _ _ _ Hplan). unfold expectation. rewrite Hroute. by eexists. }
  eexists. apply (compile_iff _ _ _ _ _ _ _ _ _ _ _ Hp). split_and!; [done| |by exists es].
  eapply lint_rules; [apply Hdoc| |exact Hlint]. intros r (x & -> & (y & -> & Hy)%list_elem_of_fmap)%list_elem_of_fmap.
  apply copied_ics_ok. by apply (compiled_valid _ _ _ _ _ Hplan), rule_valid in Hy as [_ ?].
Qed.

Lemma no_overlay_unless_allowed pkg c plan rules kinds : plan_ok pkg c plan rules kinds →
  contains [ICSRulesAllowed; ICSRulesForbidden; ICSRulesMonitor] (ICSRules pkg) = true →
  (ICSRules pkg = ICSRulesAllowed → no_monitor_overlay plan) → no_monitor_overlay plan.
Proof.
  intros Hplan Hm Ha. rewrite contains_true, !elem_of_cons, elem_of_nil in Hm. destruct Hm as [Hm|Hm]; [by apply Ha|].
  intros id d t p Hd Hp. rewrite (dt_mode _ _ _ (po_each _ _ _ _ _ Hplan _ _ Hd)) in Hp by tauto. by apply elem_of_nil in Hp.
Qed.

Lemma expectation_ext pkg l l' hard def ps : (∀ t, Evaluate l def t = Evaluate l' def t) →
  mapM_ (expectation pkg l hard def) ps = mapM_ (expectation pkg l' hard def) ps.
Proof.
  intros H. induction ps as [|p ps IH]; [done|]. cbn [mapM_]. rewrite IH. unfold expectation.
  destruct (ResolvePlanTuple pkg p) as [route|e| |]; [|done..]. cbn [bind]. unfold evaluatePlanRoute. by rewrite H.
Qed.

(** Detection does not change what passes: two selections that agree on the
    actions of the slots give the same expectations, whatever detections they
    add, provided that where the package allows ICS rules no detection lays a
    monitor-mode predicate over a rule. *)
Theorem detection_transparent pkg c plan ids ids' r r' :
  Plan c = Some plan → Compile pkg c ids = Ok r → Compile pkg c ids' = Ok r' →
  (∀ a, enforced (Rules plan) a → (a ∈ ids ↔ a ∈ ids')) →
  (ICSRules pkg = ICSRulesAllowed → no_monitor_overlay plan) →
  Expectations r = Expectations r'.
Proof.
  intros Hpl Hr Hr' Hag Hno. destruct (compile_prepared _ _ _ _ Hr) as (plan' & rules & kinds & env & fw & def & hard & Hp).
  pose proof (pr_plan _ _ _ _ _ _ _ _ _ Hp) as Hplan. assert (plan' = plan) as -> by (pose proof (po_plan _ _ _ _ _ Hplan); congruence).
  apply (compile_iff _ _ _ _ _ _ _ _ _ _ _ Hp) in Hr. cbv zeta in Hr. destruct Hr as (_ & Hl & es & Hes & ->).
  apply (compile_iff _ _ _ _ _ _ _ _ _ _ _ Hp) in Hr'. cbv zeta in Hr'. destruct Hr' as (_ & _ & es' & Hes' & ->). cbn [Expectations].
  assert (no_monitor_overlay plan) as Hmon.
  { eapply no_overlay_unless_allowed; [done| |done]. unfold LintPolicy in Hl. apply guard_ok in Hl as [Hl _]. by apply negb_false_iff in Hl. }
  enough (Ok (E := plan_error) es = Ok es') as [= ->] by done. rewrite <- Hes, <- Hes'. apply expectation_ext. intros t.
  unfold emitted. rewrite !(compiled_verdict _ _ _ _ _ Hplan) by done. do 2 f_equal. apply base_ext. intros slot Hs Hreq.
  apply Bool.eq_iff_eq_true. rewrite !contains_true. apply Hag. by exists slot.
Qed.
End Compilation.

(** ** A small exercise *)
Module PlanExample.
Definition ics (mode : string) : PlanICS :=
  mkICS "modbus" (Some [5; 6]) None None None false None "request" mode None None None None None None None None "" None None.
Definition rule (id : string) (sources : list string) (action : string) (p : option PlanICS) : PlanRule :=
  mkRule id "" ["it"] ["ot"] sources [] [mkProtocol "tcp" "502"] p action false.

(** Deferred: anyone may reach the controller; selected: only the engineering
    host may.  The detection lays a predicate of [mode] over the broad rule and
    adds an observation rule. *)
Definition plan (mode : string) : CurriculumPlan :=
  mkPlan
    [mkSlot None "pin" (Some [rule "pinned" ["10.0.1.5"] "ALLOW" None]) (Some [rule "broad" [] "ALLOW" None]);
     mkSlot (Some (rule "rest" [] "DENY" None)) "" None None]
    (Some [("watch", mkDetect [rule "seen" [] "ALLOW" (Some (ics "monitor"))] ["broad"] (Some [("broad", ics mode)]))])
    [mkProof "write" "hmi" "plc" "field" 502 "unauthorized" "deny" (Some ["pin"]) ["baseline"] ""].
Definition curriculum (mode : string) : Curriculum :=
  mkCurriculum (Some (plan mode)) 40 [mkTeam "network" 40]
    [mkAction "watch" 4 ["network"]; mkAction "pin" 8 ["network"]; mkAction "meet" 1 ["network"]] [("baseline", "1.1")].
Definition envelope : json :=
  JObj [("firewall", JObj [("defaultAction", JStr "DENY"); ("rules", JArr [])]); ("system", JObj [])].
Definition pkg : Package :=
  mkPackage [mkNode "hmi" ["office"] "10.0.1.9"; mkNode "plc" ["field"] "10.0.2.7"]
    [mkNetwork "office" "10.0.1.0/24" "" "it"; mkNetwork "field" "10.0.2.0/24" "" "ot"] ICSRulesAllowed (Some envelope).

(** A policy with the management interface only; no reference rules. *)
Definition doc : PolicyDoc :=
  mkDoc [mkInterface "lan3" "lan3" "" "" "" "" "" 0 [] [] []] None None "" "" [] [] [] false "" [] [] false false false false.
Definition decode_doc (_ : json) : option PolicyDoc := Some doc.
Definition decode_rules (_ : option json) : M (option (list PlanRule)) := Ok (Some []).
Definition compile (mode : string) (ids : list string) : M CompiledPlan := CompilePlan decode_doc decode_rules pkg (curriculum mode) ids.

Definition summary (m : M CompiledPlan) : option (list (string * string) * string * list Verdict) :=
  match m with
  | Ok r => Some ((λ x, (Rule_ID (Rule x), Origin_Kind (Origin x))) <$> CRules r, Label r, PlanVerdict <$> Expectations r)
  | _ => None
  end.

Lemma compiles : summary (compile "" []) = Some ([("broad", "deferred"); ("rest", "required")], "weak", [VerdictAllow]) ∧
  summary (compile "" ["watch"; "pin"]) =
    Some ([("pinned", "selected"); ("rest", "required"); ("seen", "observe")], "hardened", [VerdictDeny]) ∧
  compile "" ["meet"; "sleep"] = Err (Errorf "plan: unknown action %s" ["sleep"]).
Proof. vm_compute. auto. Qed.

(** The result of a compilation that succeeds. *)
Definition result (m : M CompiledPlan) : CompiledPlan :=
  match m with Ok r => r | _ => mkCompiledPlan JNull [] [] "" [] end.
Lemma result_ok m : is_some (summary m) = true → m = Ok (result m).
Proof. by destruct m. Qed.

Lemma canonical_witness : compile "" ["pin"; "watch"] = compile "" ["watch"; "pin"; "watch"].
Proof.
  rewrite (result_ok (compile "" ["pin"; "watch"])) by (vm_compute; reflexivity). symmetry.
  apply (compile_canonical decode_doc decode_rules pkg (curriculum "") ["pin"; "watch"]).
  - intros a. rewrite !elem_of_cons, elem_of_nil. tauto.
  - apply result_ok. vm_compute. reflexivity.
Defined.

Lemma exact_witness : NoDup (Rule_ID ∘ Rule <$> CRules (result (compile "" ["watch"]))).
Proof.
  destruct (compile_exact decode_doc decode_rules pkg (curriculum "") ["watch"] (result (compile "" ["watch"]))) as (p & _ & _ & H & _).
  - apply result_ok. vm_compute. reflexivity.
  - exact H.
Defined.

Lemma selections_witness : ∃ r, compile "" ["meet"; "watch"] = Ok r.
Proof.
  apply (selections_compile decode_doc decode_rules pkg (curriculum "") (result (compile "" []))).
  - intros env fw rs rs'. reflexivity.
  - apply result_ok. vm_compute. reflexivity.
  - intros a. cbn. rewrite !elem_of_cons, elem_of_nil. tauto.
Defined.

Lemma transparent_witness : Expectations (result (compile "" ["pin"])) = Expectations (result (compile "" ["watch"; "pin"])).
Proof.
  apply (detection_transparent decode_doc decode_rules pkg (curriculum "") (plan "") ["pin"] ["watch"; "pin"]).
  - reflexivity.
  - apply result_ok. vm_compute. reflexivity.
  - apply result_ok. vm_compute. reflexivity.
  - intros a (slot & Hin & Hr & <-). cbn in Hin. rewrite !elem_of_cons, elem_of_nil in Hin.
    destruct Hin as [->|[->|[]]]; [|done]. cbn. rewrite !elem_of_cons, elem_of_nil. tauto.
  - intros _ id d t p Hd Hp. cbn in Hd. apply list_elem_of_singleton in Hd as [= -> ->]. cbn in Hp.
    by apply list_elem_of_singleton in Hp as [= -> ->].
Defined.

(** A predicate laid over a rule is not only metadata: when a detection
    gives an enforcing rule a predicate in monitor mode, choosing that detection
    alone takes the rule out of the decision and the verdict of a proof changes
    from allow to deny, in a plan that validates and compiles both ways. *)
Theorem monitor_overlay_changes_verdict :
  summary (compile "monitor" []) = Some ([("broad", "deferred"); ("rest", "required")], "weak", [VerdictAllow]) ∧
  summary (compile "monitor" ["watch"]) =
    Some ([("broad", "deferred"); ("rest", "required"); ("seen", "observe")], "partial", [VerdictDeny]).
Proof. vm_compute. auto. Qed.
End PlanExample.
