(* ===== verification/Manifest.v ===== *)
(** * Package manifests (backend/internal/manifest)

    The deployment manifest of a range package and the checks that the backend
    and the linter run on it: the manifest against itself ([Validate]), against
    the platform's and the package's Compose models, against the curriculum's
    topology, and the two modes of a package against each other.

    A problem or an error is the format and the arguments of the source's
    [fmt.Sprintf] or [fmt.Errorf].  A Go map is the list of its entries, with
    distinct keys, in the order an iteration happens to take; a map built by
    the code is a [gmap].  Decoding JSON and YAML is not modelled: a Compose
    model, a policy and a YAML file are their decoded trees.  [url.Parse], the
    files of the package and the working directory are parameters. *)
From S2P Require Import Prelude GoLib GoText NetIP Policy.
From stdpp Require Import pretty.

#[local] Open Scope string_scope.
#[local] Open Scope Z_scope.

(** ** Errors *)
Record problem : Type := Problem { p_format : string; p_args : list string }.
Notation M := (outcome problem).
Definition fails (b : bool) (format : string) (args : list string) : list problem :=
  if b then [Problem format args] else [].
(** [if b { return fmt.Errorf(format, args...) }]. *)
Definition fail_if (b : bool) (format : string) (args : list string) : M unit :=
  if b then Err (Problem format args) else Ok tt.
(** A loop that returns the first error. *)
Fixpoint each {A} (f : A → M unit) (l : list A) : M unit :=
  match l with
  | [] => Ok tt
  | x :: l' => let! _ := f x in each f l'
  end.
(** A loop that collects problems and threads a state. *)
Fixpoint scan {P S A} (f : S → A → list P * S) (s : S) (l : list A) : list P * S :=
  match l with
  | [] => ([], s)
  | x :: l' => let '(p, s) := f s x in let '(ps, s) := scan f s l' in ((p ++ ps)%list, s)
  end.
Definition is_empty (s : string) : bool := (s =? "")%string.

(** ** Data *)
Record Network : Type := mkNetwork {
  N_Key : string; N_Name : string; Subnet : string; Gateway : string;
  Platform : bool; Delivery : bool; N_Zone : string
}.
Record Interface : Type := mkInterface { I_Network : string; I_IPv4 : string }.
Record Service : Type := mkService {
  S_Key : string; Container : string; Node : string; S_Roles : list string;
  Interfaces : list Interface; Endpoints : list (string * string)
}.
Record Manifest : Type := mkManifest {
  M_Schema : Z; Package : string; Networks : list Network; Services : list Service
}.
Definition no_network : Network := mkNetwork "" "" "" "" false false "".

Definition Schema : Z := 2.
Definition RangeProject : string := "rangerdanger".
Definition PlatformProject : string := "rangerdanger-platform".
Definition Roles : list string :=
  ["firewall"; "rtac"; "rtu"; "control-centre"; "plc"; "hmi"; "hmi-poller"; "historian"; "time-source"; "field-device";
   "process-solver"; "attacker"; "jump-host"; "engineering-ws"; "corporate-ws"].
Definition EndpointSim : string := "sim".

(** The first entry of a map. *)
Definition entry {A} (k : string) (l : list (string * A)) : option A :=
  snd <$> List.find (λ p, (p.1 =? k)%string) l.
Definition Endpoint_of (s : Service) (name : string) : string := default "" (entry name (Endpoints s)).

Definition ServiceByRole (m : Manifest) (role : string) : option Service :=
  List.find (λ s, bool_decide (role ∈ S_Roles s)) (Services m).
Definition ServiceByNode (m : Manifest) (node : string) : option Service :=
  List.find (λ s, negb (is_empty (Node s)) && (Node s =? node)%string) (Services m).
Fixpoint service_with (name : string) (l : list Service) : option (Service * string) :=
  match l with
  | [] => None
  | s :: l' => match entry name (Endpoints s) with Some url => Some (s, url) | None => service_with name l' end
  end.
Definition ServiceWithEndpoint (m : Manifest) (name : string) : option (Service * string) := service_with name (Services m).
Definition Endpoint (m : Manifest) (role name : string) : option string :=
  s ← ServiceByRole m role; entry name (Endpoints s).

(** ** Addresses (Go's net) *)
Definition ParseIP (s : string) : option Addr :=
  a ← ParseAddr s; if (length (zone a) =? 0)%nat then Some a else None.
(** [ip.To4()], also of an IPv4 address in IPv6 form. *)
Definition To4 (a : Addr) : option Z :=
  if is4 a then Some (bits a) else if Z.shiftr (bits a) 32 =? 0xffff then Some (bits a mod 2 ^ 32) else None.
Definition ipv4 (s : string) : option Z := ParseIP s ≫= To4.

Definition dtoi (s : list Z) : option Z :=
  match s with
  | [] => None
  | _ => n ← digits_value 0 s; if 0xFFFFFF <=? n then None else Some n
  end.
(** [parseIPv4Subnet]: the address and the number of leading bits that
    [Contains] compares; the mask of an address in IPv6 form is cut to its last
    four bytes. *)
Definition parseIPv4Subnet (s : string) : option (Z * Z) :=
  match cut_byte slash_byte (bytes_of s) with
  | (a, Some m) =>
      ip ← parse_addr_bytes a;
      if negb (length (zone ip) =? 0)%nat then None
      else n ← dtoi m;
           if bit_len ip <? n then None
           else v ← To4 ip; Some (v, if is4 ip then n else Z.max 0 (n - 96))
  | (_, None) => None
  end.
Definition subnet_contains (p : Z * Z) (ip : Z) : bool := Z.shiftr (Z.lxor p.1 ip) (32 - p.2) =? 0.

(** ** Delivery networks *)
Record desktop : Type := mkDesktop {
  d_name : string; d_subnet : string; d_gateway : string; proxyIP : string; desktopIP : string; d_service : string
}.
Definition deliveryDesktops : list (string * desktop) :=
  [("desk_corp_net", mkDesktop "rangerdanger_desk_corp" "10.98.1.0/28" "10.98.1.1" "10.98.1.2" "10.98.1.3" "corp_ws");
   ("desk_vendor_net", mkDesktop "rangerdanger_desk_vendor" "10.98.2.0/28" "10.98.2.1" "10.98.2.2" "10.98.2.3" "vendor_jump");
   ("desk_eng_net", mkDesktop "rangerdanger_desk_eng" "10.98.3.0/28" "10.98.3.1" "10.98.3.2" "10.98.3.3" "eng_workstation")].
Definition desktop_of (k : string) : desktop := default (mkDesktop "" "" "" "" "" "") (entry k deliveryDesktops).

Definition checkDeliveryNetwork (n : Network) : list problem :=
  let want := entry (N_Key n) deliveryDesktops in
  if negb (Delivery n) then fails (bool_decide (is_Some want)) "network %q must be a delivery network" [N_Key n]
  else
    (fails (match want with
           | None => true
           | Some w => negb (N_Name n =? d_name w)%string || negb (Subnet n =? d_subnet w)%string || negb (Gateway n =? d_gateway w)%string
           end) "delivery network %q must use its fixed platform name and IPAM" [N_Key n] ++
     fails (negb (Platform n) || negb (is_empty (N_Zone n)))
       "delivery network %q must be platform-owned and have no zone" [N_Key n])%list.

(** ** [Validate]: the networks *)
Definition mgmt_name : string := "rangerdanger_mgmt_net".
Definition is_management (n : Network) : bool := Platform n && negb (Delivery n) && (N_Name n =? mgmt_name)%string.

Record net_state : Type := mkNet { ns_networks : gmap string Network; ns_names : gmap string string; ns_management : Z }.

Definition check_gateway (n : Network) : list problem :=
  match ipv4 (Gateway n) with
  | None => [Problem "network %q has invalid IPv4 gateway %q" [N_Key n; Gateway n]]
  | Some g =>
      match parseIPv4Subnet (Subnet n) with
      | Some p => fails (negb (subnet_contains p g)) "network %q gateway %q is outside subnet %q" [N_Key n; Gateway n; Subnet n]
      | None => []
      end
  end.

Definition check_network (s : net_state) (n : Network) : list problem * net_state :=
  let '(p1, nets) :=
    if is_empty (N_Key n) then ([Problem "network key is empty" []], ns_networks s)
    else match ns_networks s !! N_Key n with
         | Some _ => ([Problem "duplicate network key %q" [N_Key n]], ns_networks s)
         | None => ([], <[N_Key n := n]> (ns_networks s))
         end in
  let '(p2, names) :=
    if is_empty (N_Name n) then ([Problem "network %q has an empty name" [N_Key n]], ns_names s)
    else match ns_names s !! N_Name n with
         | Some previous => ([Problem "networks %q and %q share name %q" [previous; N_Key n; N_Name n]], ns_names s)
         | None => ([], <[N_Name n := N_Key n]> (ns_names s))
         end in
  let count := if is_management n then ns_management s + 1 else ns_management s in
  let p3 := fails (Platform n && negb ((N_Name n =? mgmt_name)%string && negb (Delivery n)) && negb (Delivery n))
              "non-delivery platform network %q must be named rangerdanger_mgmt_net" [N_Key n] in
  let p4 := fails (negb (bool_decide (is_Some (parseIPv4Subnet (Subnet n)))))
              "network %q has invalid IPv4 subnet %q" [N_Key n; Subnet n] in
  ((p1 ++ p2 ++ p3 ++ checkDeliveryNetwork n ++ p4 ++ check_gateway n)%list, mkNet nets names count).

(** ** [Validate]: the services *)
Record svc_state : Type := mkSvc {
  ss_services : gset string; ss_containers : gmap string string; ss_nodes : gmap string string;
  ss_ips : gmap string string; ss_mgmt : gmap string string; ss_delivery : gmap string Z
}.
(** The part of the state that the interfaces of a service change. *)
Record if_state : Type := mkIf {
  is_seen : gset string; is_ips : gmap string string; is_mgmt : gmap string string; is_delivery : gmap string Z
}.

Definition check_role (key : string) (seen : gset string) (role : string) : list problem * gset string :=
  ((fails (negb (bool_decide (role ∈ Roles))) "service %q has unknown role %q" [key; role] ++
    fails (bool_decide (role ∈ seen)) "service %q repeats role %q" [key; role])%list, {[role]} ∪ seen).

Definition check_delivery_node (sv : Service) (i : Interface) (n : Network) : list problem :=
  let d := desktop_of (N_Key n) in
  (fails (negb (I_IPv4 i =? desktopIP d)%string) "delivery node %q must use its reserved desktop IP" [S_Key sv] ++
   fails (negb (S_Key sv =? d_service d)%string || is_empty (Node sv))
     "delivery network %q only permits its designated desktop node" [N_Key n] ++
   fails (negb (length (Endpoints sv) =? 0)%nat) "delivery node %q must not declare endpoints" [S_Key sv])%list.

Definition check_interface (nets : gmap string Network) (sv : Service) (s : if_state) (i : Interface) : list problem * if_state :=
  match nets !! I_Network i with
  | None => ([Problem "service %q interface references undeclared network %q" [S_Key sv; I_Network i]], s)
  | Some n =>
      let p1 := fails (bool_decide (I_Network i ∈ is_seen s)) "service %q repeats interface on network %q" [S_Key sv; I_Network i] in
      let seen := {[I_Network i]} ∪ is_seen s in
      match ipv4 (I_IPv4 i) with
      | None => ((p1 ++ [Problem "service %q has invalid IPv4 address %q on %q" [S_Key sv; I_IPv4 i; I_Network i]])%list,
                 mkIf seen (is_ips s) (is_mgmt s) (is_delivery s))
      | Some ip =>
          let p2 := match parseIPv4Subnet (Subnet n) with
                    | Some p => fails (negb (subnet_contains p ip)) "service %q IP %q is outside network %q subnet %q"
                                  [S_Key sv; I_IPv4 i; I_Network i; Subnet n]
                    | None => []
                    end in
          let p3 := fails (I_IPv4 i =? Gateway n)%string "service %q IP %q uses network %q gateway" [S_Key sv; I_IPv4 i; I_Network i] in
          let '(p4, ips) := match is_ips s !! I_IPv4 i with
                            | Some previous => ([Problem "IP %q is shared by %s and %s" [I_IPv4 i; previous; S_Key sv]], is_ips s)
                            | None => ([], <[I_IPv4 i := S_Key sv]> (is_ips s))
                            end in
          let mgmt := if is_management n then <[S_Key sv := I_IPv4 i]> (is_mgmt s) else is_mgmt s in
          let '(p5, delivery) :=
            if Delivery n then (check_delivery_node sv i n, <[N_Key n := default 0 (is_delivery s !! N_Key n) + 1]> (is_delivery s))
            else ([], is_delivery s) in
          ((p1 ++ p2 ++ p3 ++ p4 ++ p5)%list, mkIf seen ips mgmt delivery)
      end
  end.

Definition mgmt_of (mgmt : gmap string string) (key : string) : string := default "" (mgmt !! key).

(** A name that at most one service may have: the problems, and the owners after it. *)
Definition claim (empty : list problem) (shared : string → problem) (owners : gmap string string) (name owner : string) :
    list problem * gmap string string :=
  if is_empty name then (empty, owners)
  else match owners !! name with
       | Some previous => ([shared previous], owners)
       | None => ([], <[name := owner]> owners)
       end.
Definition claim_key (keys : gset string) (key : string) : list problem * gset string :=
  if is_empty key then ([Problem "service key is empty" []], keys)
  else if bool_decide (key ∈ keys) then ([Problem "duplicate service key %q" [key]], keys)
  else ([], {[key]} ∪ keys).
Definition check_isolation (nets : gmap string Network) (mgmt : gmap string string) (sv : Service) : list problem :=
  concat ((λ i, fails (Delivery (default no_network (nets !! I_Network i)) && negb (is_empty (mgmt_of mgmt (S_Key sv))))
                  "delivery node %q must not attach to management" [S_Key sv]) <$> Interfaces sv).
Definition check_desktops (seen : gset string) (sv : Service) : list problem :=
  concat ((λ kd, fails ((S_Key sv =? d_service kd.2)%string && negb (bool_decide (kd.1 ∈ seen)))
                   "desktop %q must attach to delivery network %q" [S_Key sv; kd.1]) <$> deliveryDesktops).

Definition check_service (nets : gmap string Network) (s : svc_state) (sv : Service) : list problem * svc_state :=
  let '(p1, keys) := claim_key (ss_services s) (S_Key sv) in
  let '(p2, containers) :=
    claim [Problem "service %q has an empty container name" [S_Key sv]]
      (λ previous, Problem "services %q and %q share container %q" [previous; S_Key sv; Container sv])
      (ss_containers s) (Container sv) (S_Key sv) in
  let '(p3, nodes) :=
    claim [] (λ previous, Problem "services %q and %q share node %q" [previous; S_Key sv; Node sv])
      (ss_nodes s) (Node sv) (S_Key sv) in
  let '(p4, _) := scan (check_role (S_Key sv)) ∅ (S_Roles sv) in
  let '(p5, st) := scan (check_interface nets sv) (mkIf ∅ (ss_ips s) (ss_mgmt s) (ss_delivery s)) (Interfaces sv) in
  ((p1 ++ p2 ++ p3 ++ p4 ++ p5 ++ check_isolation nets (is_mgmt st) sv ++ check_desktops (is_seen st) sv)%list,
   mkSvc keys containers nodes (is_ips st) (is_mgmt st) (is_delivery st)).

(** ** [Validate]: the whole manifest *)
Definition singleHolderRoles : list string := ["rtu"; "control-centre"; "process-solver"].

Definition check_holders (services : list Service) (role : string) : list problem :=
  let holders := S_Key <$> List.filter (λ sv, bool_decide (role ∈ S_Roles sv)) services in
  fails (1 <? Z.of_nat (length holders)) "role %q is held by %s; at most one service may hold it" [role; join_with ", " holders].
Definition check_sim (sv : Service) : list problem :=
  match entry EndpointSim (Endpoints sv) with
  | None => []
  | Some _ => fails (negb (bool_decide ("field-device" ∈ S_Roles sv)) && negb (bool_decide ("time-source" ∈ S_Roles sv)))
                "service %q has a %s endpoint but neither the %s nor %s role"
                [S_Key sv; EndpointSim; "field-device"; "time-source"]
  end.
Definition checkSingleHolders (services : list Service) : list problem :=
  (concat (check_holders services <$> singleHolderRoles) ++ concat (check_sim <$> services))%list.

(** [len(l) > 1] for each counted delivery network; the order of the entries is
    that of the map. *)
Definition check_users (users : gmap string Z) : list problem :=
  concat ((λ kc, fails (1 <? kc.2) "delivery network %q has %d range nodes; at most one is allowed" [kc.1; pretty kc.2])
            <$> map_to_list users).

Definition is_firewall_api (sv : Service) : bool :=
  bool_decide ("firewall" ∈ S_Roles sv) && negb (is_empty (Endpoint_of sv "api")).

(** [ip.Equal]: an IPv4 address and its IPv6 form are equal. *)
Definition To16 (a : Addr) : Z := if is4 a then 0xffff * 2 ^ 32 + bits a else bits a.
Definition IP_Equal (a b : option Addr) : bool :=
  match a, b with
  | Some x, Some y => To16 x =? To16 y
  | None, None => true
  | _, _ => false
  end.

Inductive file_status : Type := Unavailable (err : string) | Regular | Irregular.

Definition FileName : string := "manifest.json".
Definition RoutesFile : string := "nginx.routes.conf".
Definition ModeSource : string := "source".
Definition ModeRelease : string := "release".
Definition ComposeFile (mode : string) : string := "compose." +:+ mode +:+ ".yml".
Definition Dir (root packageID : string) : string := path_join [root; "lab-definitions"; "packages"; packageID].
Definition packageFiles : list string :=
  ["package.yml"; FileName; ComposeFile ModeSource; ComposeFile ModeRelease; RoutesFile].

Section Validate.
(** [url.Parse]: the scheme and the host name; [os.Stat]: the status of a path. *)
Context (url_parse : string → option (string * string)) (stat : string → file_status).

Definition check_endpoint (mgmt : gmap string string) (sv : Service) (e : string * string) : list problem :=
  match url_parse e.2 with
  | None => [Problem "service %q endpoint %q is not an absolute URL" [S_Key sv; e.1]]
  | Some (scheme, host) =>
      if is_empty scheme || is_empty host then [Problem "service %q endpoint %q is not an absolute URL" [S_Key sv; e.1]]
      else
        let own := mgmt_of mgmt (S_Key sv) in
        fails (negb (bool_decide (is_Some (ipv4 host))) || is_empty own || negb (IP_Equal (ParseIP host) (ParseIP own)))
          "service %q endpoint %q host %q must be its management IP %q" [S_Key sv; e.1; host; own]
  end.

Definition check_file (dir name : string) : list problem :=
  match stat (path_join [dir; name]) with
  | Unavailable err => [Problem "required package file %s is unavailable: %v" [name; err]]
  | Regular => []
  | Irregular => [Problem "required package file %s is not a regular file" [name]]
  end.
Definition check_files (m : Manifest) (root : string) : list problem :=
  if is_empty root then [Problem "installation root is empty" []]
  else if is_empty (Package m) then []
  else concat (check_file (Dir root (Package m)) <$> packageFiles).

Definition validate_networks (m : Manifest) : list problem * net_state := scan check_network (mkNet ∅ ∅ 0) (Networks m).
Definition validate_services (nets : gmap string Network) (m : Manifest) : list problem * svc_state :=
  scan (check_service nets) (mkSvc ∅ ∅ ∅ ∅ ∅ ∅) (Services m).
Definition validate_endpoints (mgmt : gmap string string) (m : Manifest) : list problem :=
  concat ((λ sv, concat (check_endpoint mgmt sv <$> Endpoints sv)) <$> Services m).

(** The problems of a manifest; none is the nil error. *)
Definition Validate (m : option Manifest) (root : string) : list problem :=
  match m with
  | None => [Problem "manifest is nil" []]
  | Some m =>
      let p1 := fails (negb (M_Schema m =? Schema)) "schema must be %d, got %d" [pretty Schema; pretty (M_Schema m)] in
      let p2 := fails (is_empty (Package m)) "package id is empty" [] in
      let '(p3, ns) := validate_networks m in
      let p4 := fails (negb (ns_management ns =? 1)) "manifest must declare exactly one management platform network, got %d"
                  [pretty (ns_management ns)] in
      let '(p5, ss) := validate_services (ns_networks ns) m in
      let p6 := check_users (ss_delivery ss) in
      let p7 := validate_endpoints (ss_mgmt ss) m in
      let p8 := fails (negb (existsb is_firewall_api (Services m))) "a firewall service with an api endpoint is required" [] in
      (p1 ++ p2 ++ p3 ++ p4 ++ p5 ++ p6 ++ p7 ++ p8 ++ checkSingleHolders (Services m) ++ check_files m root)%list
  end.
End Validate.
