(* ===== verification/ManifestCompose.v ===== *)
(** * Manifests against Compose models and the topology (backend/internal/manifest)

    The checks that compare a package manifest with what surrounds it: the
    platform's and the package's Compose models as `docker compose config`
    normalises them ([CheckPlatform], [CheckCompose]), the raw Compose file
    ([checkRawCompose]), the curriculum's topology ([CheckTopology]), the
    firewall's interface names ([CheckFirewallInterfaces]), the two modes of a
    package ([checkCrossMode]) and two packages ([CheckCrossPackage]).

    A decoded JSON document is its tree; an object decoded into a Go map has
    distinct keys, in the order an iteration happens to take.  Decoding itself,
    the working directory and the YAML parser are parameters; where the code
    wraps a decoding error, the model passes it on as it is. *)
From S2P Require Import Prelude GoLib GoText NetIP Policy Manifest.
From stdpp Require Import pretty.

#[local] Open Scope string_scope.
#[local] Open Scope Z_scope.

(** ** Compose models *)
Record composeAttachment : Type := mkAttachment { A_IPv4 : string; InterfaceName : string }.
Record composeVolume : Type := mkVolume { V_Type : string; V_Source : string; V_Target : string }.
Record composeService : Type := mkComposeService {
  ContainerName : string; CS_Networks : list (string * composeAttachment);
  Ports : list string;  (** the [host_ip] of each published port *)
  CS_Volumes : list composeVolume
}.
(** [IPAM] is the configuration list of a non-nil [ipam]: subnet and gateway. *)
Record composeNetwork : Type := mkComposeNetwork {
  CN_Name : string; External : bool; Internal : bool; IPAM : option (list (string * string))
}.
Record composeModel : Type := mkModel {
  ProjectName : string; CM_Services : list (string * composeService); CM_Networks : list (string * composeNetwork);
  CM_Volumes : list (string * json); ServicesRaw : list (string * list (string * json))
}.
Definition no_attachment : composeAttachment := mkAttachment "" "".

Definition networkIPAM (n : composeNetwork) : string * string * bool :=
  match IPAM n with
  | Some [(subnet, gateway)] => (subnet, gateway, negb (is_empty subnet) && negb (is_empty gateway))
  | _ => ("", "", false)
  end.

(** [object[key].(map[string]any)], with an empty map where there is none. *)
Definition as_map (v : option json) : option (list (string * json)) :=
  match v with Some (JObj l) => Some l | _ => None end.
Definition mapValue (object : list (string * json)) (key : string) : list (string * json) :=
  default [] (as_map (entry key object)).
Definition stringValue (v : option json) : string := match v with Some (JStr s) => s | _ => "" end.

(** ** Decoding *)
Section Decode.
Context {doc : Type}.
(** [json.Unmarshal] into the model's fields, and [Decode] into a [map[string]any]
    with [UseNumber], nil for the document `null`. *)
Context (unmarshal_model : doc → string + composeModel) (decode_any : doc → string + option (list (string * json))).

Definition decodeJSONMap (data : doc) : M (list (string * json)) :=
  match decode_any data with
  | inl e => Err (Problem "%w" [e])
  | inr None => Err (Problem "normalized Compose must be a JSON object" [])
  | inr (Some l) => Ok l
  end.

Definition decodeCompose (data : doc) : M composeModel :=
  match unmarshal_model data with
  | inl e => Err (Problem "%w" [e])
  | inr model =>
      let! raw := decodeJSONMap data in
      Ok (mkModel (ProjectName model) (CM_Services model) (CM_Networks model) (CM_Volumes model)
            (omap (λ kv, l ← as_map (Some kv.2); Some (kv.1, l)) (mapValue raw "services")))
  end.
End Decode.

(** ** The platform model *)
Definition range_ips (m : Manifest) (key : string) : gmap string string :=
  foldl (λ acc sv, foldl (λ acc i, if (I_Network i =? key)%string then <[I_IPv4 i := S_Key sv]> acc else acc) acc (Interfaces sv))
    ∅ (Services m).

Definition check_attachment (platform : Network) (ips : gmap string string) (serviceKey : string)
    (a : string * composeAttachment) : M unit :=
  if negb (a.1 =? N_Key platform)%string || is_empty (A_IPv4 a.2) then Ok tt
  else match ips !! A_IPv4 a.2 with
       | Some owner => Err (Problem "platform service %q IP %q collides with range service %q" [serviceKey; A_IPv4 a.2; owner])
       | None => Ok tt
       end.
Definition check_platform_service (platform : Network) (ips : gmap string string) (s : string * composeService) : M unit :=
  let! _ := fail_if (Delivery platform && bool_decide (is_Some (entry (N_Key platform) (CS_Networks s.2))) && negb (s.1 =? "proxy")%string)
              "delivery network %q only permits the platform proxy" [N_Key platform] in
  each (check_attachment platform ips s.1) (CS_Networks s.2).
Definition proxy_attached (model : composeModel) (platform : Network) : bool :=
  match entry "proxy" (CM_Services model) with
  | None => false
  | Some proxy =>
      (A_IPv4 (default no_attachment (entry (N_Key platform) (CS_Networks proxy))) =? proxyIP (desktop_of (N_Key platform)))%string
  end.

Definition checkPlatformNetwork (m : Manifest) (model : composeModel) (platform : Network) : M unit :=
  match entry (N_Key platform) (CM_Networks model) with
  | None => Err (Problem "platform Compose is missing network %q" [N_Key platform])
  | Some n =>
      let! _ := fail_if (negb (CN_Name n =? N_Name platform)%string) "platform network %q name %q does not match manifest %q"
                  [N_Key platform; CN_Name n; N_Name platform] in
      let! _ := fail_if (External n) "platform network %q must be owned by the platform project" [N_Key platform] in
      let! _ := fail_if (Delivery platform && negb (Internal n)) "delivery network %q must be internal" [N_Key platform] in
      let '(subnet, gateway, hasIPAM) := networkIPAM n in
      let! _ := fail_if (negb hasIPAM || negb (subnet =? Subnet platform)%string || negb (gateway =? Gateway platform)%string)
                  "platform network %q IPAM is %q/%q, want %q/%q" [N_Key platform; subnet; gateway; Subnet platform; Gateway platform] in
      let! _ := each (check_platform_service platform (range_ips m (N_Key platform))) (CM_Services model) in
      fail_if (Delivery platform && negb (proxy_attached model platform))
        "delivery network %q must attach the proxy at its reserved IP" [N_Key platform]
  end.

Definition CheckPlatform (m : option Manifest) (decoded : M composeModel) : M unit :=
  match m with
  | None => Err (Problem "manifest is nil" [])
  | Some m =>
      let! model := decoded in
      let! _ := fail_if (negb (ProjectName model =? PlatformProject)%string) "platform Compose project is %q, want %q"
                  [ProjectName model; PlatformProject] in
      let! _ := each (checkPlatformNetwork m model) (List.filter Platform (Networks m)) in
      fail_if (length (List.filter Platform (Networks m)) =? 0)%nat "manifest has no platform network" []
  end.

(** ** The topology, with the fields that the checks read *)
Record NodeYAML : Type := mkNode { Nd_ID : string; Nd_Container : string }.
Record NetworkYAML : Type := mkNetYAML { Nw_ID : string; Nw_Zone : string }.
Record curriculum : Type := mkCurriculum {
  C_ID : string; Template_ID : string; T_Nodes : list NodeYAML; T_Networks : list NetworkYAML
}.

(** A loop that returns the first error and threads a state. *)
Fixpoint run {S A} (f : S → A → M S) (s : S) (l : list A) : M S :=
  match l with
  | [] => Ok s
  | x :: l' => let! s := f s x in run f s l'
  end.

Definition add_node (s : gmap string NodeYAML * gmap string NodeYAML) (n : NodeYAML) :
    M (gmap string NodeYAML * gmap string NodeYAML) :=
  let! _ := fail_if (bool_decide (is_Some (s.1 !! Nd_ID n))) "topology has duplicate node id %q" [Nd_ID n] in
  let nodes := <[Nd_ID n := n]> s.1 in
  if is_empty (Nd_Container n) then Ok (nodes, s.2)
  else match s.2 !! Nd_Container n with
       | Some previous => Err (Problem "topology nodes %q and %q share container %q" [Nd_ID previous; Nd_ID n; Nd_Container n])
       | None => Ok (nodes, <[Nd_Container n := n]> s.2)
       end.

Definition check_node (nodes : gmap string NodeYAML) (sv : Service) : M unit :=
  if is_empty (Node sv) then Ok tt
  else match nodes !! Node sv with
       | None => Err (Problem "service %q references topology node %q which does not exist" [S_Key sv; Node sv])
       | Some n => fail_if (negb (is_empty (Nd_Container n)) && negb (Nd_Container n =? Container sv)%string)
                     "service %q container %q does not match topology node %q container %q"
                     [S_Key sv; Container sv; Nd_ID n; Nd_Container n]
       end.
(** A map filled by a loop over a list: the last element of each key. *)
Definition by_key {A} (key : A → string) (l : list A) : gmap string A := foldl (λ acc x, <[key x := x]> acc) ∅ l.

Definition check_container (services : gmap string Service) (cn : string * NodeYAML) : M unit :=
  match services !! cn.1 with
  | None => Err (Problem "topology node %q container %q has no manifest service" [Nd_ID cn.2; cn.1])
  | Some sv => fail_if (negb (Node sv =? Nd_ID cn.2)%string) "topology node %q container %q maps to service %q with node %q"
                 [Nd_ID cn.2; cn.1; S_Key sv; Node sv]
  end.

Definition add_zone (zones : gset string) (n : NetworkYAML) : M (gset string) :=
  if is_empty (Nw_Zone n) then Ok zones
  else let! _ := fail_if (is_empty (Nw_ID n)) "topology zone %q has no network id" [Nw_Zone n] in
       let! _ := fail_if (bool_decide (Nw_ID n ∈ zones)) "topology has duplicate zone network id %q" [Nw_ID n] in
       Ok ({[Nw_ID n]} ∪ zones).
Definition add_manifest_zone (zones manifestZones : gset string) (n : Network) : M (gset string) :=
  if is_empty (N_Zone n) then Ok manifestZones
  else let! _ := fail_if (negb (bool_decide (N_Zone n ∈ zones))) "manifest network %q references unknown topology zone %q"
                   [N_Key n; N_Zone n] in
       Ok ({[N_Zone n]} ∪ manifestZones).

Definition CheckTopology (m : option Manifest) (pkg : curriculum) : M unit :=
  match m with
  | None => Err (Problem "manifest is nil" [])
  | Some m =>
      let! _ := fail_if (negb (Package m =? C_ID pkg)%string) "manifest package %q does not match curriculum package %q"
                  [Package m; C_ID pkg] in
      let! _ := fail_if (is_empty (Template_ID pkg)) "curriculum package %q has no topology id" [C_ID pkg] in
      let! topo := run add_node (∅, ∅) (T_Nodes pkg) in
      let! _ := each (check_node topo.1) (Services m) in
      let! _ := each (check_container (by_key Container (Services m))) (map_to_list topo.2) in
      let! zones := run add_zone ∅ (T_Networks pkg) in
      let! manifestZones := run (add_manifest_zone zones) ∅ (Networks m) in
      let missing := List.filter (λ z, negb (bool_decide (z ∈ manifestZones))) (elements zones) in
      fail_if (negb (length missing =? 0)%nat) "topology zones %s are missing from the manifest"
        [join_with ", " (sort_strings missing)]
  end.

(** ** The safety of a Compose model *)
Definition IsAbs (path : string) : bool := match path with String a _ => Ascii.eqb a slash | EmptyString => false end.
(** [filepath.Abs], with the working directory or its error. *)
Definition Abs (cwd : string + string) (path : string) : M string :=
  if IsAbs path then Ok (Clean path)
  else match cwd with
       | inl e => Err (Problem "%w" [e])
       | inr wd => Ok (path_join [wd; path])
       end.

(** The elements of a cleaned path: none of "." and "/". *)
Definition elems (path : string) : list string :=
  List.filter (λ p, negb (is_empty p) && negb (p =? ".")%string) (split_at slash path).
Fixpoint strip_common (b t : list string) : list string * list string :=
  match b, t with
  | x :: b', y :: t' => if (x =? y)%string then strip_common b' t' else (b, t)
  | _, _ => (b, t)
  end.
(** [filepath.Rel] on Unix to an absolute target: up from the base and down to
    the target. *)
Definition Rel (basePath targPath : string) : option string :=
  let base := Clean basePath in
  let targ := Clean targPath in
  if (targ =? base)%string then Some "."
  else if negb (Bool.eqb (IsAbs base) (IsAbs targ)) then None
  else let '(b, t) := strip_common (elems base) (elems targ) in
       if match b with x :: _ => (x =? "..")%string | [] => false end then None
       else Some (join_with "/" (((λ _, "..") <$> b) ++ t)%list).

(** [filepath.Base] of a cleaned path. *)
Definition Base (path : string) : string :=
  match rev (elems path) with
  | x :: _ => x
  | [] => if IsAbs path then "/" else "."
  end.
Definition isDockerSocket (path : string) : bool :=
  let clean := Clean path in
  (clean =? "/var/run/docker.sock")%string || (clean =? "/run/docker.sock")%string || (Base clean =? "docker.sock")%string.

Definition outside (root source : string) : bool :=
  match Rel root (Clean source) with
  | None => true
  | Some r => (r =? "..")%string || String.prefix "../" r
  end.
Definition check_volume (root serviceKey : string) (v : composeVolume) : M unit :=
  let! _ := fail_if ((V_Type v =? "volume")%string && negb (is_empty (V_Source v))) "service %q uses named volume %q"
              [serviceKey; V_Source v] in
  if negb (V_Type v =? "bind")%string then Ok tt
  else
    let! _ := fail_if (isDockerSocket (V_Source v) || isDockerSocket (V_Target v)) "service %q binds the Docker socket" [serviceKey] in
    let! _ := fail_if (negb (IsAbs (V_Source v))) "service %q bind source %q is not resolved to an absolute path"
                [serviceKey; V_Source v] in
    fail_if (outside root (V_Source v)) "service %q bind source %q is outside installation root %q" [serviceKey; V_Source v; root].
Definition check_port (serviceKey host : string) : M unit :=
  fail_if (negb (host =? "127.0.0.1")%string) "service %q published port binds %q, want 127.0.0.1" [serviceKey; host].
Definition check_service_safety (root : string) (s : string * composeService) : M unit :=
  let! _ := each (check_port s.1) (Ports s.2) in each (check_volume root s.1) (CS_Volumes s.2).
Definition checkComposeSafety (cwd : string + string) (model : composeModel) (root : string) : M unit :=
  let! root := Abs cwd root in
  let! _ := each (check_service_safety root) (CM_Services model) in
  fail_if (negb (length (CM_Volumes model) =? 0)%nat) "Compose declares named volumes" [].

(** ** Raw Compose files *)
Inductive yaml_kind : Type := DocumentNode | SequenceNode | MappingNode | ScalarNode | AliasNode.
#[export] Instance yaml_kind_dec : EqDecision yaml_kind.
Proof. solve_decision. Defined.
#[warnings="-register-all"]
Inductive yaml_node : Type := YNode (kind : yaml_kind) (value : string) (content : list yaml_node).
Definition y_kind (n : yaml_node) : yaml_kind := let 'YNode k _ _ := n in k.
Definition y_value (n : yaml_node) : string := let 'YNode _ v _ := n in v.
Definition y_content (n : yaml_node) : list yaml_node := let 'YNode _ _ c := n in c.

(** The keys of a mapping stand at the even places, each followed by its value. *)
Fixpoint findYAMLKey (key : string) (n : yaml_node) : bool :=
  let 'YNode kind _ content := n in
  (match kind with
   | MappingNode =>
       (fix pairs (l : list yaml_node) : bool :=
          match l with
          | k :: v :: l' => (y_value k =? key)%string || findYAMLKey key v || pairs l'
          | _ => false
          end) content
   | _ => false
   end) ||
  (fix children (l : list yaml_node) : bool :=
     match l with
     | c :: l' => findYAMLKey key c || children l'
     | [] => false
     end) content.

(** The last value of a key at the top of a mapping, as the loop leaves it. *)
Fixpoint last_value (key acc : string) (l : list yaml_node) : string :=
  match l with
  | k :: v :: l' => last_value key (if (y_value k =? key)%string then y_value v else acc) l'
  | _ => acc
  end.

Definition checkRawCompose (file : string → string + (string + yaml_node)) (path expectedName : string) : M unit :=
  match file path with
  | inl e => Err (Problem "read raw Compose file %s: %w" [path; e])
  | inr (inl e) => Err (Problem "parse raw Compose file %s: %w" [path; e])
  | inr (inr document) =>
      match y_content document with
      | [root] =>
          let! _ := fail_if (negb (bool_decide (y_kind root = MappingNode)))
                      "raw Compose file %s must contain one mapping document" [path] in
          let name := last_value "name" "" (y_content root) in
          let! _ := fail_if (negb (name =? expectedName)%string) "raw Compose file %s top-level name is %q, want %q"
                      [path; name; expectedName] in
          each (λ forbidden, fail_if (findYAMLKey forbidden root) "raw Compose file %s uses forbidden %q" [path; forbidden])
            ["profiles"; "extends"; "include"]
      | _ => Err (Problem "raw Compose file %s must contain one mapping document" [path])
      end
  end.
Definition CheckRawCompose (file : string → string + (string + yaml_node)) (path : string) : M unit :=
  checkRawCompose file path RangeProject.
Definition CheckRawPlatformCompose (file : string → string + (string + yaml_node)) (path : string) : M unit :=
  checkRawCompose file path PlatformProject.

(** ** The range model *)
Definition check_iface (key : string) (actual : composeService) (i : Interface) : M unit :=
  match entry (I_Network i) (CS_Networks actual) with
  | None => Err (Problem "service %q is missing network %q" [key; I_Network i])
  | Some a => fail_if (negb (A_IPv4 a =? I_IPv4 i)%string) "service %q network %q IPv4 %q does not match manifest %q"
                [key; I_Network i; A_IPv4 a; I_IPv4 i]
  end.
Definition check_compose_service (model : composeModel) (ks : string * Service) : M unit :=
  match entry ks.1 (CM_Services model) with
  | None => Err (Problem "Compose is missing manifest service %q" [ks.1])
  | Some actual =>
      let! _ := fail_if (negb (ContainerName actual =? Container ks.2)%string) "service %q container_name %q does not match manifest %q"
                  [ks.1; ContainerName actual; Container ks.2] in
      let! _ := fail_if (negb (length (CS_Networks actual) =? length (Interfaces ks.2))%nat)
                  "service %q has %d Compose network attachments, manifest has %d"
                  [ks.1; pretty (length (CS_Networks actual)); pretty (length (Interfaces ks.2))] in
      each (check_iface ks.1 actual) (Interfaces ks.2)
  end.
Definition check_compose_network (model : composeModel) (kn : string * Network) : M unit :=
  match entry kn.1 (CM_Networks model) with
  | None => Err (Problem "Compose is missing manifest network %q" [kn.1])
  | Some actual =>
      let n := kn.2 in
      let! _ := fail_if (negb (CN_Name actual =? N_Name n)%string) "network %q name %q does not match manifest %q"
                  [kn.1; CN_Name actual; N_Name n] in
      if Platform n then
        let! _ := fail_if (negb (External actual)) "platform network %q must be external in a range Compose file" [kn.1] in
        fail_if (match IPAM actual with Some (_ :: _) => true | _ => false end)
          "external platform network %q must not declare IPAM in a range Compose file" [kn.1]
      else
        let! _ := fail_if (External actual) "range network %q must not be external" [kn.1] in
        let '(subnet, gateway, hasIPAM) := networkIPAM actual in
        fail_if (negb hasIPAM || negb (subnet =? Subnet n)%string || negb (gateway =? Gateway n)%string)
          "network %q IPAM is %q/%q, want %q/%q" [kn.1; subnet; gateway; Subnet n; Gateway n]
  end.

Definition CheckCompose (file : string → string + (string + yaml_node)) (cwd : string + string)
    (m : option Manifest) (mode : string) (root : string) (decoded : M composeModel) : M unit :=
  match m with
  | None => Err (Problem "manifest is nil" [])
  | Some m =>
      let! _ := fail_if (negb (mode =? ModeSource)%string && negb (mode =? ModeRelease)%string) "unsupported Compose mode %q" [mode] in
      let! _ := CheckRawCompose file (path_join [Dir root (Package m); ComposeFile mode]) in
      let! model := decoded in
      let! _ := fail_if (negb (ProjectName model =? RangeProject)%string) "range Compose project is %q, want %q"
                  [ProjectName model; RangeProject] in
      let wantServices := by_key S_Key (Services m) in
      let! _ := fail_if (negb (length (CM_Services model) =? size wantServices)%nat)
                  "Compose service set has %d services, manifest has %d"
                  [pretty (length (CM_Services model)); pretty (size wantServices)] in
      let! _ := each (check_compose_service model) (map_to_list wantServices) in
      let wantNetworks := by_key N_Key (Networks m) in
      let! _ := fail_if (negb (length (CM_Networks model) =? size wantNetworks)%nat)
                  "Compose network set has %d networks, manifest has %d"
                  [pretty (length (CM_Networks model)); pretty (size wantNetworks)] in
      let! _ := each (check_compose_network model) (map_to_list wantNetworks) in
      checkComposeSafety cwd model root
  end.

(** ** The two modes of a package *)
(** [reflect.DeepEqual] of decoded values. *)
Fixpoint DeepEqual (left right : json) : bool :=
  match left, right with
  | JNull, JNull => true
  | JBool a, JBool b => Bool.eqb a b
  | JNum a, JNum b | JStr a, JStr b => (a =? b)%string
  | JArr l, JArr r =>
      (fix items (l r : list json) : bool :=
         match l, r with
         | [], [] => true
         | x :: l', y :: r' => DeepEqual x y && items l' r'
         | _, _ => false
         end) l r
  | JObj l, JObj r =>
      (length l =? length r)%nat &&
      (fix keys (l : list (string * json)) : bool :=
         match l with
         | [] => true
         | (k, x) :: l' => match entry k r with Some y => DeepEqual x y | None => false end && keys l'
         end) l
  | _, _ => false
  end.

Definition child_path (path key : string) : string := if is_empty path then key else path +:+ "." +:+ key.
Definition index_path (path : string) (index : Z) : string := path +:+ "[" +:+ pretty index +:+ "]".
(** The keys of both maps, sorted. *)
Definition both_keys (l r : list string) : list string :=
  sort_strings (l ++ List.filter (λ k, negb (bool_decide (k ∈ l))) r)%list.
(** The loop over the keys; [subs] holds the comparison of each left value. *)
Fixpoint first_key (subs : list (string * (json → string → string))) (r : list (string * json)) (path : string)
    (keys : list string) : string :=
  match keys with
  | [] => ""
  | key :: keys' =>
      let child := child_path path key in
      match entry key subs, entry key r with
      | Some sub, Some y =>
          let difference := sub y child in
          if is_empty difference then first_key subs r path keys' else difference
      | _, _ => child
      end
  end.
(** ... and over the common indices of two slices. *)
Fixpoint first_item (subs : list (json → string → string)) (r : list json) (path : string) (index : Z) : string :=
  match subs, r with
  | sub :: subs', y :: r' =>
      let difference := sub y (index_path path index) in
      if is_empty difference then first_item subs' r' path (index + 1) else difference
  | [], [] => ""
  | _, _ => index_path path index
  end.
Definition leaf_difference (left right : json) (path : string) : string :=
  if DeepEqual left right then "" else if is_empty path then "$" else path.

Fixpoint firstDifference (left : json) : json → string → string :=
  match left with
  | JObj l =>
      let subs := (fix go (l : list (string * json)) : list (string * (json → string → string)) :=
                     match l with [] => [] | (k, x) :: l' => (k, firstDifference x) :: go l' end) l in
      λ right path,
        match right with
        | JObj r => first_key subs r path (both_keys (fst <$> l) (fst <$> r))
        | _ => leaf_difference left right path
        end
  | JArr l =>
      let subs := (fix go (l : list json) : list (json → string → string) :=
                     match l with [] => [] | x :: l' => firstDifference x :: go l' end) l in
      λ right path,
        match right with
        | JArr r => first_item subs r path 0
        | _ => leaf_difference left right path
        end
  | _ => leaf_difference left
  end.

(** [delete(m, key)], and a change of the map that a key holds, if it holds one. *)
Definition del (key : string) (l : list (string * json)) : list (string * json) :=
  List.filter (λ kv, negb (kv.1 =? key)%string) l.
Definition on_map (f : list (string * json) → list (string * json)) (v : json) : json :=
  match v with JObj l => JObj (f l) | _ => v end.
Definition at_key (key : string) (f : json → json) (l : list (string * json)) : list (string * json) :=
  (λ kv, (kv.1, if (kv.1 =? key)%string then f kv.2 else kv.2)) <$> l.
Definition strip_service (l : list (string * json)) : list (string * json) := del "pull_policy" (del "build" (del "image" l)).
(** The services of a model without what may differ between the modes. *)
Definition strip_services (platform : bool) (l : list (string * json)) : list (string * json) :=
  let l := (λ kv, (kv.1, on_map strip_service kv.2)) <$> l in
  if platform then at_key "backend" (on_map (at_key "environment" (on_map (del "RANGERDANGER_MODE")))) l else l.
Definition strip_modes (platform : bool) (l : list (string * json)) : list (string * json) :=
  at_key "services" (on_map (strip_services platform)) l.

Section CrossMode.
Context {doc : Type}.
Context (unmarshal_model : doc → string + composeModel) (decode_any : doc → string + option (list (string * json))).

Definition checkCrossMode (source release : doc) (platform : bool) : M unit :=
  let! _ := decodeCompose unmarshal_model decode_any source in
  let! _ := decodeCompose unmarshal_model decode_any release in
  let! left := decodeJSONMap decode_any source in
  let! right := decodeJSONMap decode_any release in
  let path := firstDifference (JObj (strip_modes platform left)) (JObj (strip_modes platform right)) "" in
  fail_if (negb (is_empty path))
    (if platform
     then "source and release platform Compose differ at %s outside image, build, pull_policy, and backend RANGERDANGER_MODE"
     else "source and release Compose differ at %s outside image, build, and pull_policy") [path].
Definition CheckCrossMode (source release : doc) : M unit := checkCrossMode source release false.

Definition check_mode (name mode : string) (data : doc) : M unit :=
  let! model := decodeJSONMap decode_any data in
  match as_map (entry "backend" (mapValue model "services")) with
  | None => Err (Problem "%s platform Compose differs at services.backend: service is missing" [name])
  | Some backend =>
      match as_map (entry "environment" backend) with
      | None => Err (Problem "%s platform Compose differs at services.backend.environment.RANGERDANGER_MODE: environment is missing" [name])
      | Some environment =>
          fail_if (match entry "RANGERDANGER_MODE" environment with Some (JStr s) => negb (s =? mode)%string | _ => true end)
            "%s platform Compose differs at services.backend.environment.RANGERDANGER_MODE: got %v, want %q" [name; mode]
      end
  end.
Definition CheckPlatformCrossMode (source release : doc) : M unit :=
  let! _ := check_mode "source" ModeSource source in
  let! _ := check_mode "release" ModeRelease release in
  checkCrossMode source release true.

(** ** Two packages *)
Definition image_of (model : composeModel) (key : string) (raw : list (string * json)) : string :=
  let image := stringValue (entry "image" raw) in if is_empty image then ProjectName model +:+ "-" +:+ key else image.
Definition check_shared (packageA packageB : string) (modelA modelB : composeModel) (key : string) : M unit :=
  let a := default [] (entry key (ServicesRaw modelA)) in
  let b := default [] (entry key (ServicesRaw modelB)) in
  match entry "build" a, entry "build" b with
  | None, None => Ok tt
  | Some buildA, Some buildB =>
      let! _ := fail_if (negb (DeepEqual buildA buildB)) "shared service %q has inconsistent source build between %s and %s"
                  [key; packageA; packageB] in
      let expected := RangeProject +:+ "-" +:+ key in
      fail_if (negb (image_of modelA key a =? expected)%string || negb (image_of modelB key b =? expected)%string)
        "shared built service %q must produce image %q" [key; expected]
  | _, _ => Err (Problem "shared service %q has inconsistent source build between %s and %s" [key; packageA; packageB])
  end.
Definition shared_keys (modelA modelB : composeModel) : list string :=
  sort_strings (List.filter (λ k, bool_decide (is_Some (entry k (CM_Services modelB)))) (fst <$> CM_Services modelA)).
Definition CheckCrossPackage (packageA : string) (sourceA : doc) (packageB : string) (sourceB : doc) : M unit :=
  let! modelA := decodeCompose unmarshal_model decode_any sourceA in
  let! modelB := decodeCompose unmarshal_model decode_any sourceB in
  let! _ := fail_if (negb (ProjectName modelA =? RangeProject)%string || negb (ProjectName modelB =? RangeProject)%string)
              "source Compose projects for %s and %s must both be named %q" [packageA; packageB; RangeProject] in
  each (check_shared packageA packageB modelA modelB) (shared_keys modelA modelB).
End CrossMode.

(** ** The interface names of the firewall *)
Definition ManagementInterface : string := "lan3".

Definition firewallInterfaceName (n : Network) (zones : gmap string string) : M string :=
  if is_management n then Ok ManagementInterface
  else if is_empty (N_Zone n)
       then Err (Problem "firewall attaches to network %q, which is neither management nor a teaching zone" [N_Key n])
       else let zone := default "" (zones !! N_Zone n) in
            if is_empty zone then Err (Problem "firewall network %q topology network %q has no containd zone" [N_Key n; N_Zone n])
            else Ok zone.

Definition check_pin (firewall : string) (service : composeService) (networks : gmap string Network) (zones : gmap string string)
    (owners : gmap string string) (i : Interface) : M (gmap string string) :=
  match entry (I_Network i) (CS_Networks service) with
  | None => Err (Problem "firewall service %q is missing network %q" [firewall; I_Network i])
  | Some a =>
      let name := InterfaceName a in
      let! _ := fail_if (is_empty name) "firewall service %q network %q has no interface_name" [firewall; I_Network i] in
      match owners !! name with
      | Some owner => Err (Problem "firewall networks %q and %q share interface_name %q" [owner; I_Network i; name])
      | None =>
          let! want := firewallInterfaceName (default no_network (networks !! I_Network i)) zones in
          let! _ := fail_if (negb (name =? want)%string) "firewall network %q interface_name is %q, want %q" [I_Network i; name; want] in
          Ok (<[name := I_Network i]> owners)
      end
  end.

Section Firewall.
Context {doc : Type} (policy_interfaces : doc → string + list string).

Definition policyInterfaceNames (data : doc) : M (list string) :=
  match policy_interfaces data with
  | inl e => Err (Problem "decode interfaces: %w" [e])
  | inr names => Ok (sort_strings names)
  end.
Definition check_policy_names (policies : list (string * doc)) (pinned : list string) (name : string) : M unit :=
  match entry name policies with
  | None => Ok tt
  | Some data =>
      let! declared := policyInterfaceNames data in
      fail_if (negb (bool_decide (declared = pinned)))
        "policy %s declares interfaces [%s], firewall interface_name values are [%s]"
        [name; join_with " " declared; join_with " " pinned]
  end.

Definition CheckFirewallInterfaces (m : option Manifest) (pkg : curriculum) (policies : list (string * doc))
    (decoded : M composeModel) : M unit :=
  match m with
  | None => Err (Problem "manifest is nil" [])
  | Some m =>
      match ServiceByRole m "firewall" with
      | None => Err (Problem "manifest has no firewall service" [])
      | Some firewall =>
          let! model := decoded in
          match entry (S_Key firewall) (CM_Services model) with
          | None => Err (Problem "Compose is missing firewall service %q" [S_Key firewall])
          | Some service =>
              let zones := foldl (λ acc n, <[Nw_ID n := Nw_Zone n]> acc) ∅ (T_Networks pkg) in
              let networks := by_key N_Key (Networks m) in
              let! owners := run (check_pin (S_Key firewall) service networks zones) ∅ (Interfaces firewall) in
              let pinned := sort_strings (fst <$> map_to_list owners) in
              each (check_policy_names policies pinned) (sort_strings (fst <$> policies))
          end
      end
  end.
End Firewall.

(** ** Loading a manifest *)
(** [readUniqueJSONValue] on a text that is one JSON value: the first duplicate
    key and the path of its object. *)
Fixpoint readUniqueJSONValue (path : string) (v : json) : M unit :=
  match v with
  | JObj l =>
      (fix keys (seen : list string) (l : list (string * json)) : M unit :=
         match l with
         | [] => Ok tt
         | (name, x) :: l' =>
             if bool_decide (name ∈ seen) then Err (Problem "duplicate JSON key %q at %s" [name; path])
             else let! _ := readUniqueJSONValue (path +:+ "." +:+ name) x in keys (name :: seen) l'
         end) [] l
  | JArr l =>
      (fix items (index : Z) (l : list json) : M unit :=
         match l with
         | [] => Ok tt
         | x :: l' => let! _ := readUniqueJSONValue (index_path path index) x in items (index + 1) l'
         end) 0 l
  | _ => Ok tt
  end.
Definition rejectDuplicateJSONKeys (data : json) : M unit := readUniqueJSONValue "$" data.

(** A file is an error, a text that does not scan, or a value with a mark for
    what follows it; [decode] is the strict decoding of a value into the struct. *)
Definition Load (file : string → string + (string + json * bool)) (decode : json → string + Manifest) (root packageID : string) :
    M Manifest :=
  let path := path_join [Dir root packageID; FileName] in
  match file path with
  | inl e => Err (Problem "read manifest: %w" [e])
  | inr (inl e) => Err (Problem "decode %s: %w" [path; e])
  | inr (inr (data, trailing)) =>
      let! _ := rejectDuplicateJSONKeys data in
      match decode data with
      | inl e => Err (Problem "decode %s: %w" [path; e])
      | inr m =>
          let! _ := fail_if trailing "decode %s: trailing data after the manifest object" [path] in
          let! _ := fail_if (negb (M_Schema m =? Schema)) "%s: schema %d, want %d" [path; pretty (M_Schema m); pretty Schema] in
          let! _ := fail_if (negb (Package m =? packageID)%string) "%s: package %q does not match directory %q"
                      [path; Package m; packageID] in
          Ok m
      end
  end.
