(* ===== verification/ManifestCorrect.v ===== *)
(** * What an accepted manifest satisfies

    [Validate] collects no problem exactly when the manifest is valid in the
    declarative sense of [manifest_valid]. *)
From S2P Require Import Prelude GoLib GoText NetIP Policy Manifest.
From stdpp Require Import pretty.

#[local] Open Scope string_scope.
#[local] Open Scope list_scope.
#[local] Open Scope Z_scope.

(** ** Loops that collect problems *)
Lemma fails_nil b f a : fails b f a = [] ↔ b = false.
Proof. by destruct b. Qed.
Lemma is_empty_spec s : is_empty s = true ↔ s = "".
Proof. apply String.eqb_eq. Qed.
Lemma is_empty_false s : is_empty s = false ↔ s ≠ "".
Proof. apply String.eqb_neq. Qed.
Lemma concat_nil {A B} (f : A → list B) (l : list A) : concat (f <$> l) = [] ↔ Forall (λ x, f x = []) l.
Proof.
  induction l as [|x l IH]; cbn; [split; auto|]. rewrite app_nil, Forall_cons. by rewrite <- IH.
Qed.

(** [ok] at each element, given the elements before it. *)
Fixpoint along {A} (ok : list A → A → Prop) (l1 l : list A) : Prop :=
  match l with
  | [] => True
  | x :: l' => ok l1 x ∧ along ok (l1 ++ [x])%list l'
  end.

Lemma scan_clean {P S A} (f : S → A → list P * S) (inv : list A → S → Prop) (ok : list A → A → Prop) :
  (∀ l1 s x, inv l1 s → ((f s x).1 = [] ↔ ok l1 x) ∧ (ok l1 x → inv (l1 ++ [x])%list (f s x).2)) →
  ∀ l l1 s, inv l1 s → ((scan f s l).1 = [] ↔ along ok l1 l) ∧ (along ok l1 l → inv (l1 ++ l)%list (scan f s l).2).
Proof.
  intros Hf l. induction l as [|x l IH]; intros l1 s Hinv; cbn; [by rewrite app_nil_r|].
  destruct (Hf l1 s x Hinv) as [Hp Hi]. destruct (f s x) as [p s']. cbn in *.
  assert (ok l1 x → ((scan f s' l).1 = [] ↔ along ok (l1 ++ [x])%list l) ∧
    (along ok (l1 ++ [x])%list l → inv (l1 ++ x :: l)%list (scan f s' l).2)) as Hr.
  { intros Hok. specialize (IH (l1 ++ [x])%list s' (Hi Hok)). by rewrite <- app_assoc in IH. }
  destruct (scan f s' l) as [ps s'']. cbn in *. rewrite app_nil. split; [|intros [Hok Hal]; by apply Hr].
  split; intros [Ha Hb]; [apply Hp in Ha|assert (p = []) by by apply Hp]; split; try done; by apply Hr.
Qed.

Lemma along_and {A} (P Q : list A → A → Prop) l1 l : along (λ l x, P l x ∧ Q l x) l1 l ↔ along P l1 l ∧ along Q l1 l.
Proof. revert l1. induction l as [|x l IH]; intros l1; cbn; [tauto|]. rewrite IH. tauto. Qed.
Lemma along_forall {A} (P : A → Prop) l1 l : along (λ _ x, P x) l1 l ↔ Forall P l.
Proof. revert l1. induction l as [|x l IH]; intros l1; cbn; [split; auto|]. by rewrite Forall_cons, IH. Qed.
Lemma along_fresh {A} (g : A → list string) l1 l :
  NoDup (concat (g <$> l1)) →
  along (λ l x, NoDup (g x) ∧ ∀ a, a ∈ g x → a ∉ concat (g <$> l)) l1 l ↔ NoDup (concat (g <$> l1 ++ l)).
Proof.
  revert l1. induction l as [|x l IH]; intros l1 Hn; cbn [along]; [by rewrite app_nil_r|].
  assert (NoDup (concat (g <$> l1 ++ [x])) ↔ NoDup (g x) ∧ ∀ a, a ∈ g x → a ∉ concat (g <$> l1)) as Hx.
  { rewrite fmap_app, concat_app, NoDup_app. cbn. rewrite app_nil_r. naive_solver. }
  rewrite <- Hx. specialize (IH (l1 ++ [x])). rewrite <- app_assoc in IH. cbn in IH. split.
  - intros [H1 H2]. by apply IH.
  - intros H. assert (NoDup (concat (g <$> l1 ++ [x]))) as H1.
    { change (x :: l) with ([x] ++ l) in H. rewrite app_assoc, (fmap_app _ (l1 ++ [x])), concat_app, NoDup_app in H. apply H. }
    split; [done|]. by apply IH.
Qed.
Lemma along_impl {A} (P Q : list A → A → Prop) l1 l : (∀ l x, P l x ↔ Q l x) → along P l1 l ↔ along Q l1 l.
Proof. intros H. revert l1. induction l as [|x l IH]; intros l1; cbn; [done|]. by rewrite IH, H. Qed.
Lemma along_distinct {A} (g : A → string) l : along (λ l x, g x ∉ g <$> l) [] l ↔ NoDup (g <$> l).
Proof.
  assert (∀ l : list A, concat ((λ x, [g x]) <$> l) = g <$> l) as Hc by (intros l'; induction l'; cbn; congruence).
  rewrite <- (Hc l), <- (along_fresh (λ x, [g x]) [] l) by constructor.
  apply along_impl. intros l' x. rewrite Hc. split.
  - intros H. split; [apply NoDup_singleton|]. intros a Ha. by apply list_elem_of_singleton in Ha as ->.
  - intros [_ H]. apply H. by apply list_elem_of_singleton.
Qed.

(** ** What a valid manifest is *)
Definition delivery_ok (n : Network) : Prop :=
  if Delivery n
  then ∃ w, entry (N_Key n) deliveryDesktops = Some w ∧ N_Name n = d_name w ∧ Subnet n = d_subnet w ∧ Gateway n = d_gateway w ∧
         Platform n = true ∧ N_Zone n = ""
  else entry (N_Key n) deliveryDesktops = None.
(** A platform network is the management network or a delivery network, and
    the gateway of a network is in its subnet. *)
Record network_ok (n : Network) : Prop := {
  net_key : N_Key n ≠ "";
  net_name : N_Name n ≠ "";
  net_kind : Platform n = true → is_management n = true ∨ Delivery n = true;
  net_delivery : delivery_ok n;
  net_ipam : ∃ p g, parseIPv4Subnet (Subnet n) = Some p ∧ ipv4 (Gateway n) = Some g ∧ subnet_contains p g = true
}.

(** [k] names the network [n] of the list. *)
Definition names (l : list Network) (k : string) (n : Network) : Prop := n ∈ l ∧ N_Key n = k.
Definition on_management (l : list Network) (i : Interface) : Prop := ∃ n, names l (I_Network i) n ∧ is_management n = true.
Definition on_delivery (l : list Network) (i : Interface) : Prop := ∃ n, names l (I_Network i) n ∧ Delivery n = true.

(** A desktop on a delivery network: the designated node at its reserved
    address, with nothing the backend calls. *)
Definition desktop_ok (sv : Service) (i : Interface) (n : Network) : Prop :=
  Delivery n = true →
  I_IPv4 i = desktopIP (desktop_of (N_Key n)) ∧ S_Key sv = d_service (desktop_of (N_Key n)) ∧ Node sv ≠ "" ∧ Endpoints sv = [].
Definition interface_ok (l : list Network) (sv : Service) (i : Interface) : Prop :=
  ∃ n p ip, names l (I_Network i) n ∧ parseIPv4Subnet (Subnet n) = Some p ∧ ipv4 (I_IPv4 i) = Some ip ∧
    subnet_contains p ip = true ∧ I_IPv4 i ≠ Gateway n ∧ desktop_ok sv i n.

Record service_ok (l : list Network) (sv : Service) : Prop := {
  svc_key : S_Key sv ≠ "";
  svc_container : Container sv ≠ "";
  svc_roles : NoDup (S_Roles sv) ∧ Forall (.∈ Roles) (S_Roles sv);
  svc_networks : NoDup (I_Network <$> Interfaces sv);
  svc_interfaces : Forall (interface_ok l sv) (Interfaces sv);
  svc_isolated : ∀ i j, i ∈ Interfaces sv → j ∈ Interfaces sv → on_delivery l i → on_management l j → False;
  svc_desktop : ∀ k d, (k, d) ∈ deliveryDesktops → S_Key sv = d_service d → k ∈ I_Network <$> Interfaces sv
}.

Definition addresses (sv : Service) : list string := I_IPv4 <$> Interfaces sv.
Definition node_list (sv : Service) : list string := if is_empty (Node sv) then [] else [Node sv].

(** ** The networks *)
Record net_inv (l : list Network) (s : net_state) : Prop := {
  inv_networks : ∀ k n, ns_networks s !! k = Some n ↔ names l k n;
  inv_names : ∀ k, is_Some (ns_names s !! k) ↔ k ∈ N_Name <$> l;
  inv_count : ns_management s = Z.of_nat (length (List.filter is_management l))
}.
Definition net_step (l : list Network) (n : Network) : Prop := network_ok n ∧ N_Key n ∉ N_Key <$> l ∧ N_Name n ∉ N_Name <$> l.

Lemma names_snoc l x k n : names (l ++ [x]) k n ↔ names l k n ∨ (n = x ∧ N_Key x = k).
Proof. unfold names. rewrite elem_of_app, list_elem_of_singleton. naive_solver. Qed.
Lemma names_fresh l k : k ∉ N_Key <$> l ↔ ∀ n, ¬ names l k n.
Proof.
  rewrite list_elem_of_fmap. split; [intros H n [H1 H2]; apply H; eauto|].
  intros H (n & -> & Hn). by apply (H n).
Qed.

Lemma checkDeliveryNetwork_nil n : checkDeliveryNetwork n = [] ↔ delivery_ok n.
Proof.
  unfold checkDeliveryNetwork, delivery_ok. destruct (Delivery n); cbn [negb].
  - rewrite app_nil, !fails_nil. destruct (entry _ _) as [w|].
    + rewrite !orb_false_iff, !negb_false_iff, !String.eqb_eq, is_empty_spec. naive_solver.
    + naive_solver.
  - rewrite fails_nil, bool_decide_eq_false, <- eq_None_not_Some. done.
Qed.
Lemma check_gateway_nil n : fails (negb (bool_decide (is_Some (parseIPv4Subnet (Subnet n))))) "network %q has invalid IPv4 subnet %q" [N_Key n; Subnet n] = [] ∧ check_gateway n = [] ↔
  ∃ p g, parseIPv4Subnet (Subnet n) = Some p ∧ ipv4 (Gateway n) = Some g ∧ subnet_contains p g = true.
Proof.
  unfold check_gateway. rewrite fails_nil, negb_false_iff, bool_decide_eq_true.
  destruct (parseIPv4Subnet _) as [p|], (ipv4 _) as [g|]; try (split; [intros [[? ?] ?]|intros (? & ? & ? & ? & ?)]; done).
  rewrite fails_nil, negb_false_iff. split; [intros [_ H]; by exists p, g|]. intros (? & ? & [= <-] & [= <-] & H). by split; [eexists|].
Qed.
Lemma management_kind n :
  Platform n && negb ((N_Name n =? mgmt_name)%string && negb (Delivery n)) && negb (Delivery n) = false ↔
  (Platform n = true → is_management n = true ∨ Delivery n = true).
Proof. unfold is_management. destruct (Platform n), (Delivery n), (N_Name n =? mgmt_name)%string; naive_solver. Qed.

Lemma check_network_clean l s n :
  net_inv l s → ((check_network s n).1 = [] ↔ net_step l n) ∧ (net_step l n → net_inv (l ++ [n]) (check_network s n).2).
Proof.
  intros [Hn Hm Hc]. unfold check_network, net_step.
  assert (N_Key n ∉ N_Key <$> l ↔ ns_networks s !! N_Key n = None) as Hk.
  { rewrite names_fresh, eq_None_not_Some. unfold is_Some. setoid_rewrite Hn. naive_solver. }
  assert (N_Name n ∉ N_Name <$> l ↔ ns_names s !! N_Name n = None) as Hm' by by rewrite <- Hm, eq_None_not_Some.
  rewrite Hk, Hm'. split.
  - transitivity (is_empty (N_Key n) = false ∧ ns_networks s !! N_Key n = None ∧ is_empty (N_Name n) = false ∧
      ns_names s !! N_Name n = None ∧ (Platform n = true → is_management n = true ∨ Delivery n = true) ∧ delivery_ok n ∧
      ∃ p g, parseIPv4Subnet (Subnet n) = Some p ∧ ipv4 (Gateway n) = Some g ∧ subnet_contains p g = true).
    + rewrite <- checkDeliveryNetwork_nil, <- check_gateway_nil, <- management_kind, <- (fails_nil _ "" []).
      destruct (is_empty (N_Key n)), (ns_networks s !! N_Key n), (is_empty (N_Name n)), (ns_names s !! N_Name n); cbn [fst];
        try (split; [discriminate|naive_solver]).
      rewrite !app_nil, !fails_nil. naive_solver.
    + rewrite !is_empty_false. split; [intros (? & ? & ? & ? & ? & ? & ?); split; [by split|done]|]. intros ([] & ? & ?). done.
  - intros ([] & Ek & ->). rewrite Ek. apply is_empty_false in net_key0, net_name0. rewrite net_key0, net_name0. cbn [snd]. split; cbn.
    + intros k n'. rewrite names_snoc, lookup_insert_Some, Hn. split; [naive_solver|].
      intros [H|[-> H]]; [right|by left]. split; [|done]. intros <-. by apply (proj1 (names_fresh _ _) (proj2 Hk Ek) n').
    + intros k. rewrite fmap_app, elem_of_app, lookup_insert_is_Some', Hm. set_solver.
    + rewrite List.filter_app, length_app. cbn. destruct (is_management n); cbn; lia.
Qed.

Lemma validate_networks_clean m :
  ((validate_networks m).1 = [] ↔
     Forall network_ok (Networks m) ∧ NoDup (N_Key <$> Networks m) ∧ NoDup (N_Name <$> Networks m)) ∧
  ((validate_networks m).1 = [] → net_inv (Networks m) (validate_networks m).2).
Proof.
  destruct (scan_clean check_network net_inv net_step check_network_clean (Networks m) [] (mkNet ∅ ∅ 0)) as [H1 H2].
  { split; cbn; [|intros k; rewrite lookup_empty; set_solver|done].
    intros k n. rewrite lookup_empty. unfold names. set_solver. }
  unfold validate_networks. rewrite H1. split; [|done].
  unfold net_step. rewrite along_and, along_and, along_forall, !along_distinct. done.
Qed.

(** ** The services *)
Lemma check_role_clean key roles :
  (scan (check_role key) ∅ roles).1 = [] ↔ NoDup roles ∧ Forall (.∈ Roles) roles.
Proof.
  destruct (scan_clean (check_role key) (λ l s, ∀ r, r ∈ s ↔ r ∈ l) (λ l r, r ∉ id <$> l ∧ r ∈ Roles)) with roles (@nil string) (∅ : gset string)
    as [H1 _]; [|set_solver|].
  - intros l s r Hs. cbn. rewrite list_fmap_id, app_nil, !fails_nil, negb_false_iff, bool_decide_eq_true, bool_decide_eq_false, Hs.
    split; [naive_solver|]. intros _ r'. set_solver.
  - rewrite H1, along_and, along_forall, along_distinct, list_fmap_id. done.
Qed.

Section Services.
Context (L : list Network) (nets : gmap string Network).
Hypothesis Hnets : ∀ k n, nets !! k = Some n ↔ names L k n.
Hypothesis Hone : ∀ n1 n2, n1 ∈ L → n2 ∈ L → is_management n1 = true → is_management n2 = true → N_Key n1 = N_Key n2.
Hypothesis Hok : Forall network_ok L.

Lemma names_unique k n1 n2 : names L k n1 → names L k n2 → n1 = n2.
Proof. rewrite <- !Hnets. congruence. Qed.
Lemma names_parse k n : names L k n → ∃ p, parseIPv4Subnet (Subnet n) = Some p.
Proof. intros [Hn _]. rewrite Forall_forall in Hok. destruct (net_ipam n (Hok n Hn)) as (p & _ & H & _). eauto. Qed.
Lemma on_management_one i j : on_management L i → on_management L j → I_Network i = I_Network j.
Proof. intros (n1 & [H1 <-] & E1) (n2 & [H2 <-] & E2). by apply Hone. Qed.

(** What has been seen of the services before, [prev], and of the interfaces
    [li] of the service [sv]. *)
Definition mgmt_ip (sv : Service) (li : list Interface) (k ip : string) : Prop :=
  k = S_Key sv ∧ ∃ i, i ∈ li ∧ I_IPv4 i = ip ∧ on_management L i.
Record if_inv (prev : list Service) (sv : Service) (li : list Interface) (s : if_state) : Prop := {
  inv_seen : ∀ k, k ∈ is_seen s ↔ k ∈ I_Network <$> li;
  inv_ips : ∀ a, is_Some (is_ips s !! a) ↔ a ∈ concat (addresses <$> prev) ∨ a ∈ I_IPv4 <$> li;
  inv_mgmt : ∀ k ip, is_mgmt s !! k = Some ip ↔ (∃ sv', sv' ∈ prev ∧ mgmt_ip sv' (Interfaces sv') k ip) ∨ mgmt_ip sv li k ip;
  inv_users : ∀ k c, is_delivery s !! k = Some c → c <= 1 ∧
    ((k ∈ I_Network <$> li ∧ S_Key sv = d_service (desktop_of k)) ∨ ∃ sv', sv' ∈ prev ∧ S_Key sv' = d_service (desktop_of k))
}.
Definition if_step (prev : list Service) (sv : Service) (li : list Interface) (i : Interface) : Prop :=
  interface_ok L sv i ∧ I_Network i ∉ I_Network <$> li ∧ I_IPv4 i ∉ I_IPv4 <$> li ∧ I_IPv4 i ∉ concat (addresses <$> prev).

Lemma check_delivery_node_nil sv i n : (if Delivery n then check_delivery_node sv i n else []) = [] ↔ desktop_ok sv i n.
Proof.
  unfold desktop_ok, check_delivery_node. destruct (Delivery n); [|naive_solver].
  rewrite !app_nil, !fails_nil, orb_false_iff, !negb_false_iff, !String.eqb_eq, is_empty_false, Nat.eqb_eq, length_zero_iff_nil.
  naive_solver.
Qed.

Lemma check_interface_nil prev sv li s i : if_inv prev sv li s → (check_interface nets sv s i).1 = [] ↔ if_step prev sv li i.
Proof.
  intros [Hseen Hips _ _]. unfold check_interface, if_step, interface_ok.
  assert (I_Network i ∉ I_Network <$> li ↔ bool_decide (I_Network i ∈ is_seen s) = false) as ->
    by by rewrite bool_decide_eq_false, Hseen.
  assert (I_IPv4 i ∉ I_IPv4 <$> li ∧ I_IPv4 i ∉ concat (addresses <$> prev) ↔ is_ips s !! I_IPv4 i = None) as ->
    by (rewrite eq_None_not_Some, Hips; naive_solver).
  destruct (nets !! I_Network i) as [n|] eqn:En; [|split; [done|]; intros [(n & ? & ? & Hn & _) _]; apply Hnets in Hn; congruence].
  apply Hnets in En. destruct (names_parse _ _ En) as [p Ep]. rewrite Ep.
  destruct (ipv4 (I_IPv4 i)) as [ip|] eqn:Eip.
  - transitivity (bool_decide (I_Network i ∈ is_seen s) = false ∧ subnet_contains p ip = true ∧ I_IPv4 i ≠ Gateway n ∧
      is_ips s !! I_IPv4 i = None ∧ desktop_ok sv i n).
    + rewrite <- check_delivery_node_nil. destruct (is_ips s !! I_IPv4 i), (Delivery n); cbn [fst];
        rewrite ?app_nil, !fails_nil, negb_false_iff, String.eqb_neq; naive_solver.
    + split; [intros (? & ? & ? & ? & ?); split; [|done]; by exists n, p, ip|].
      intros [(n' & p' & ip' & Hn' & Hp' & [= <-] & ?) ?]. rewrite (names_unique _ _ _ Hn' En) in *. naive_solver congruence.
  - split; [cbn [fst]; rewrite app_nil; naive_solver|]. intros [(? & ? & ? & ? & ? & ? & ?) ?]. done.
Qed.

Lemma check_interface_inv prev sv li s i :
  S_Key sv ∉ S_Key <$> prev → if_inv prev sv li s → if_step prev sv li i →
  if_inv prev sv (li ++ [i]) (check_interface nets sv s i).2.
Proof.
  intros Hkey [Hseen Hips Hmg Hus] ((n & p & ip & Hn & Hp & Hip & _ & _ & Hd) & Hfn & Hfi & Hfp). unfold check_interface.
  assert (nets !! I_Network i = Some n) as En by by apply Hnets. rewrite En, Hip.
  assert (is_ips s !! I_IPv4 i = None) as Ei by (rewrite eq_None_not_Some, Hips; naive_solver). rewrite Ei.
  assert (on_management L i ↔ is_management n = true) as Em.
  { split; [intros (n' & Hn' & ?); by rewrite (names_unique _ _ _ Hn Hn')|intros ?; by exists n]. }
  assert (N_Key n = I_Network i) as Ek by apply Hn.
  match goal with |- if_inv _ _ _ (let '(_, _) := ?x in _).2 =>
    assert (∀ k c, x.2 !! k = Some c → c <= 1 ∧
      ((k ∈ I_Network <$> li ++ [i] ∧ S_Key sv = d_service (desktop_of k)) ∨ ∃ sv', sv' ∈ prev ∧ S_Key sv' = d_service (desktop_of k))) as Hx; [|destruct x] end.
  { intros k c. rewrite fmap_app, elem_of_app. cbn.
    destruct (Delivery n) eqn:Ed; cbn; [|intros H; apply Hus in H; naive_solver].
    rewrite lookup_insert_Some. intros [[<- <-]|[_ H]]; [|apply Hus in H; naive_solver].
    destruct (Hd Ed) as (_ & Es & _).
    destruct (is_delivery s !! N_Key n) as [c|] eqn:Ec; cbn; [exfalso|rewrite Ek in *; set_solver by lia].
    apply Hus in Ec as [_ [[H _]|(sv' & Hsv & H)]]; [by rewrite Ek in H|].
    apply Hkey, list_elem_of_fmap. exists sv'. by rewrite Es, H. }
  split; cbn [is_seen is_ips is_mgmt is_delivery snd]; [| | |done].
  - intros k. rewrite fmap_app, elem_of_app, elem_of_union, Hseen. clear. set_solver.
  - intros a. rewrite fmap_app, elem_of_app, lookup_insert_is_Some', Hips. clear. set_solver.
  - intros k a. unfold mgmt_ip in *.
    assert ((∃ j, j ∈ li ++ [i] ∧ I_IPv4 j = a ∧ on_management L j) ↔
      (∃ j, j ∈ li ∧ I_IPv4 j = a ∧ on_management L j) ∨ (I_IPv4 i = a ∧ on_management L i)) as ->.
    { setoid_rewrite elem_of_app. setoid_rewrite list_elem_of_singleton. naive_solver. }
    rewrite Em. destruct (is_management n) eqn:E; [|rewrite Hmg; assert (¬ false = true) by done; tauto].
    rewrite lookup_insert_Some, Hmg. split; [naive_solver|].
    assert (∀ sv', sv' ∈ prev → S_Key sv' ≠ S_Key sv) as Hk by (intros sv' ? E'; apply Hkey, list_elem_of_fmap; exists sv'; by rewrite E').
    intros [(sv' & Hsv & -> & H)|[-> [(j & Hj & <- & Hmj)|[<- _]]]]; [right|exfalso|by left].
    + split; [by apply not_eq_sym, Hk|]. left. eauto.
    + apply Hfn. rewrite (on_management_one i j) by by try apply Em. apply list_elem_of_fmap. eauto.
Qed.

Record svc_inv (prev : list Service) (s : svc_state) : Prop := {
  inv_keys : ∀ k, k ∈ ss_services s ↔ k ∈ S_Key <$> prev;
  inv_containers : ∀ k, is_Some (ss_containers s !! k) ↔ k ∈ Container <$> prev;
  inv_nodes : ∀ k, is_Some (ss_nodes s !! k) ↔ k ∈ concat (node_list <$> prev);
  inv_addresses : ∀ a, is_Some (ss_ips s !! a) ↔ a ∈ concat (addresses <$> prev);
  inv_management : ∀ k ip, ss_mgmt s !! k = Some ip ↔ ∃ sv, sv ∈ prev ∧ mgmt_ip sv (Interfaces sv) k ip;
  inv_delivery : ∀ k c, ss_delivery s !! k = Some c → c <= 1 ∧ ∃ sv, sv ∈ prev ∧ S_Key sv = d_service (desktop_of k)
}.
Definition if_start (s : svc_state) : if_state := mkIf ∅ (ss_ips s) (ss_mgmt s) (ss_delivery s).
Definition fresh_in (g : Service → list string) (prev : list Service) (sv : Service) : Prop :=
  NoDup (g sv) ∧ ∀ a, a ∈ g sv → a ∉ concat (g <$> prev).

Lemma if_inv_start prev sv s : svc_inv prev s → if_inv prev sv [] (if_start s).
Proof.
  intros [_ _ _ Ha Hm Hd]. split; cbn; [set_solver| | |].
  - intros a. rewrite Ha. set_solver.
  - intros k ip. rewrite Hm. unfold mgmt_ip. set_solver.
  - intros k c H. apply Hd in H as [? ?]. by split; [|right].
Qed.
Lemma if_step_all prev sv l :
  along (if_step prev sv) [] l ↔
  Forall (interface_ok L sv) l ∧ NoDup (I_Network <$> l) ∧ NoDup (I_IPv4 <$> l) ∧ Forall (λ i, I_IPv4 i ∉ concat (addresses <$> prev)) l.
Proof. unfold if_step. by rewrite !along_and, !along_forall, !along_distinct. Qed.

Lemma scan_interfaces prev sv s :
  svc_inv prev s → S_Key sv ∉ S_Key <$> prev →
  let r := scan (check_interface nets sv) (if_start s) (Interfaces sv) in
  let ok := Forall (interface_ok L sv) (Interfaces sv) ∧ NoDup (I_Network <$> Interfaces sv) ∧ fresh_in addresses prev sv in
  (r.1 = [] ↔ ok) ∧ (ok → if_inv prev sv (Interfaces sv) r.2).
Proof.
  intros Hs Hk. cbn zeta.
  destruct (scan_clean (check_interface nets sv) (if_inv prev sv) (if_step prev sv)) with (Interfaces sv) (@nil Interface) (if_start s)
    as [H1 H2]; [|by apply if_inv_start|].
  - intros l st i Hi. split; [by apply check_interface_nil|]. by apply check_interface_inv.
  - assert (fresh_in addresses prev sv ↔
      NoDup (I_IPv4 <$> Interfaces sv) ∧ Forall (λ i, I_IPv4 i ∉ concat (addresses <$> prev)) (Interfaces sv)) as ->.
    { unfold fresh_in. rewrite Forall_forall. setoid_rewrite list_elem_of_fmap. naive_solver. }
    rewrite <- if_step_all. by split.
Qed.

Lemma ipv4_nonempty a ip : ipv4 a = Some ip → a ≠ "".
Proof. intros H ->. by vm_compute in H. Qed.

(** The management address of the service, once its interfaces are accepted. *)
Lemma mgmt_of_spec prev sv st :
  S_Key sv ∉ S_Key <$> prev → Forall (interface_ok L sv) (Interfaces sv) → if_inv prev sv (Interfaces sv) st →
  is_empty (mgmt_of (is_mgmt st) (S_Key sv)) = false ↔ ∃ j, j ∈ Interfaces sv ∧ on_management L j.
Proof.
  intros Hk Hi [_ _ Hm _]. rewrite is_empty_false. unfold mgmt_of. split.
  - destruct (is_mgmt st !! S_Key sv) as [ip|] eqn:E; [|done]. intros _.
    apply Hm in E as [(sv' & Hsv & E' & H)|(_ & j & Hj & _ & ?)]; [|by exists j].
    destruct Hk. rewrite E'. apply list_elem_of_fmap. eauto.
  - intros (j & Hj & Hmj). assert (is_mgmt st !! S_Key sv = Some (I_IPv4 j)) as -> by (apply Hm; right; split; eauto).
    rewrite Forall_forall in Hi. destruct (Hi j Hj) as (n & p & ip & _ & _ & H & _). by eapply ipv4_nonempty.
Qed.

Definition svc_step (prev : list Service) (sv : Service) : Prop :=
  service_ok L sv ∧ S_Key sv ∉ S_Key <$> prev ∧ Container sv ∉ Container <$> prev ∧ fresh_in node_list prev sv ∧
  fresh_in addresses prev sv.

Lemma delivery_lookup i : Delivery (default no_network (nets !! I_Network i)) = true ↔ on_delivery L i.
Proof.
  unfold on_delivery. setoid_rewrite <- Hnets. destruct (nets !! I_Network i) as [n|]; cbn; [naive_solver|].
  split; [done|]. intros (? & ? & ?). done.
Qed.
Lemma isolated_nil prev sv st :
  S_Key sv ∉ S_Key <$> prev → Forall (interface_ok L sv) (Interfaces sv) → if_inv prev sv (Interfaces sv) st →
  check_isolation nets (is_mgmt st) sv = [] ↔
  ∀ i j, i ∈ Interfaces sv → j ∈ Interfaces sv → on_delivery L i → on_management L j → False.
Proof.
  intros Hk Hi Hst. unfold check_isolation. rewrite concat_nil, Forall_forall. setoid_rewrite fails_nil.
  pose proof (mgmt_of_spec prev sv st Hk Hi Hst) as Hm. split.
  - intros H i j Hi' Hj Hd Hmj. specialize (H i Hi'). apply delivery_lookup in Hd. rewrite Hd in H. cbn in H.
    apply negb_false_iff in H. rewrite (proj2 Hm) in H; [done|]. eauto.
  - intros H i Hi'. apply andb_false_iff. destruct (Delivery _) eqn:Ed; [right|by left]. apply delivery_lookup in Ed.
    destruct (is_empty _) eqn:Em; [done|]. destruct (proj1 Hm eq_refl) as (j & Hj & Hmj). destruct (H i j Hi' Hj Ed Hmj).
Qed.
Lemma desktops_nil sv (seen : gset string) :
  (∀ k, k ∈ seen ↔ k ∈ I_Network <$> Interfaces sv) →
  check_desktops seen sv = [] ↔
  ∀ k d, (k, d) ∈ deliveryDesktops → S_Key sv = d_service d → k ∈ I_Network <$> Interfaces sv.
Proof.
  intros Hs. unfold check_desktops. rewrite concat_nil, Forall_forall. setoid_rewrite fails_nil. split.
  - intros H k d Hkd E. specialize (H _ Hkd). cbn in H. apply String.eqb_eq in E. rewrite E in H. cbn in H.
    rewrite negb_false_iff, bool_decide_eq_true in H. by apply Hs.
  - intros H [k d] Hkd. cbn. destruct (String.eqb_spec (S_Key sv) (d_service d)) as [E|]; [|done]. cbn.
    rewrite negb_false_iff, bool_decide_eq_true. apply Hs. by apply (H k d).
Qed.

Lemma node_fresh prev sv s :
  svc_inv prev s → fresh_in node_list prev sv ↔ is_empty (Node sv) = true ∨ ss_nodes s !! Node sv = None.
Proof.
  intros [_ _ Hn _ _ _]. unfold fresh_in, node_list at 1 2. rewrite eq_None_not_Some, Hn.
  destruct (is_empty (Node sv)).
  - split; [by left|]. intros _. split; [constructor|set_solver].
  - setoid_rewrite list_elem_of_singleton. split; [naive_solver|]. intros [?|H]; [done|].
    split; [apply NoDup_singleton|naive_solver].
Qed.

Lemma claim_nil empty shared owners name owner :
  (claim empty shared owners name owner).1 = [] ↔ if is_empty name then empty = [] else owners !! name = None.
Proof. unfold claim. destruct (is_empty name), (owners !! name); naive_solver. Qed.
Lemma claim_key_nil keys key : (claim_key keys key).1 = [] ↔ is_empty key = false ∧ key ∉ keys.
Proof. unfold claim_key. destruct (is_empty key); [naive_solver|]. case_bool_decide; naive_solver. Qed.

Lemma check_service_nil prev s sv : svc_inv prev s → (check_service nets s sv).1 = [] ↔ svc_step prev sv.
Proof.
  intros Hs. unfold check_service. change (mkIf ∅ _ _ _) with (if_start s).
  pose proof (scan_interfaces prev sv s Hs) as Hif. pose proof (check_role_clean (S_Key sv) (S_Roles sv)) as Hr.
  pose proof (node_fresh prev sv s Hs) as Hn. destruct Hs as [Hkeys Hcont _ _ _ _].
  assert (Container sv ∉ Container <$> prev ↔ ss_containers s !! Container sv = None) as Hc
    by by rewrite eq_None_not_Some, Hcont.
  destruct (scan (check_role _) _ _) as [p4 ?], (scan (check_interface _ _) _ _) as [p5 st]. cbn in Hif, Hr.
  pose proof (claim_key_nil (ss_services s) (S_Key sv)) as H1. destruct (claim_key _ _) as [p1 ?].
  match goal with |- context [claim ?e ?f (ss_containers s) ?n ?k] =>
    pose proof (claim_nil e f (ss_containers s) n k) as H2; destruct (claim e f (ss_containers s) n k) as [p2 ?] end.
  match goal with |- context [claim ?e ?f (ss_nodes s) ?n ?k] =>
    pose proof (claim_nil e f (ss_nodes s) n k) as H3; destruct (claim e f (ss_nodes s) n k) as [p3 ?] end.
  cbn [fst] in *. rewrite !app_nil, H1, H2, H3, Hkeys, Hr. unfold svc_step. rewrite Hn, Hc.
  rewrite is_empty_false. clear H1 H2 H3 Hr Hn Hc Hkeys Hcont. split.
  - intros ((Hk1 & Hk) & Hc1 & Hnd & Hro & H5 & H6 & H7). destruct (Hif Hk) as [Hif1 Hif2].
    apply Hif1 in H5. destruct (H5) as (Hi & Hnn & Ha). specialize (Hif2 H5).
    rewrite (isolated_nil prev sv st Hk Hi Hif2) in H6. rewrite (desktops_nil sv _ (inv_seen _ _ _ _ Hif2)) in H7.
    destruct (is_empty (Container sv)) eqn:Ec; [done|]. apply is_empty_false in Ec.
    split; [by split|]. destruct (is_empty (Node sv)); auto.
  - intros ([Hk1 Hc1 ? ? ? ? ?] & Hk & Hc2 & Hnd & Ha). destruct (Hif Hk) as [Hif1 Hif2].
    assert (Forall (interface_ok L sv) (Interfaces sv) ∧ NoDup (I_Network <$> Interfaces sv) ∧ fresh_in addresses prev sv) as H5
      by done.
    specialize (Hif2 H5). apply Hif1 in H5. apply is_empty_false in Hc1. rewrite Hc1.
    split; [done|]. split; [done|]. split; [destruct (is_empty (Node sv)); naive_solver|]. split; [done|]. split; [done|].
    split; [by apply (isolated_nil prev)|by apply (desktops_nil sv _ (inv_seen _ _ _ _ Hif2))].
Qed.

Lemma claim_dom empty shared owners name owner k :
  (claim empty shared owners name owner).1 = [] →
  is_Some ((claim empty shared owners name owner).2 !! k) ↔ is_Some (owners !! k) ∨ (is_empty name = false ∧ k = name).
Proof.
  unfold claim. destruct (is_empty name); [naive_solver|]. destruct (owners !! name); [done|]. intros _. cbn [snd].
  rewrite lookup_insert_is_Some'. naive_solver.
Qed.

Lemma check_service_inv prev s sv : svc_inv prev s → svc_step prev sv → svc_inv (prev ++ [sv]) (check_service nets s sv).2.
Proof.
  intros Hs Hstep. pose proof (proj2 (check_service_nil prev s sv Hs) Hstep) as Hnil. revert Hnil. unfold check_service.
  change (mkIf ∅ _ _ _) with (if_start s). destruct Hstep as ([] & Hk & Hc & Hn & Ha).
  destruct (scan_interfaces prev sv s Hs Hk) as [_ Hif]. specialize (Hif (conj svc_interfaces0 (conj svc_networks0 Ha))).
  destruct (scan (check_interface _ _) _ _) as [p5 st], (scan (check_role _) _ _) as [p4 ?]. cbn [snd] in Hif.
  destruct Hs as [Hkeys Hcont Hnode _ _ _], Hif as [_ Hips Hmg Hus].
  assert ((claim_key (ss_services s) (S_Key sv)).2 = {[S_Key sv]} ∪ ss_services s) as Ekeys.
  { unfold claim_key. apply is_empty_false in svc_key0. rewrite svc_key0, bool_decide_eq_false_2; [done|]. by rewrite Hkeys. }
  destruct (claim_key _ _) as [p1 ?]. cbn [snd] in Ekeys. subst.
  match goal with |- context [claim ?e ?f (ss_containers s) ?n ?k] =>
    pose proof (λ k', claim_dom e f (ss_containers s) n k k') as H2; destruct (claim e f (ss_containers s) n k) as [p2 ?] end.
  match goal with |- context [claim ?e ?f (ss_nodes s) ?n ?k] =>
    pose proof (λ k', claim_dom e f (ss_nodes s) n k k') as H3; destruct (claim e f (ss_nodes s) n k) as [p3 ?] end.
  cbn [fst snd] in *. rewrite !app_nil. intros (_ & -> & -> & _). split; cbn; intros k.
  - rewrite fmap_app, elem_of_app, elem_of_union, Hkeys. clear. set_solver.
  - rewrite H2, Hcont, fmap_app, elem_of_app by done. apply is_empty_false in svc_container0. rewrite svc_container0. clear. set_solver.
  - rewrite H3, Hnode, fmap_app, concat_app, elem_of_app by done. cbn. rewrite app_nil_r. unfold node_list.
    clear. destruct (is_empty (Node sv)); set_solver.
  - rewrite Hips, fmap_app, concat_app, elem_of_app. cbn. by rewrite app_nil_r.
  - intros ip. rewrite Hmg. setoid_rewrite elem_of_app. setoid_rewrite list_elem_of_singleton. clear. naive_solver.
  - intros c H. apply Hus in H as [? H]. split; [done|]. setoid_rewrite elem_of_app. setoid_rewrite list_elem_of_singleton.
    destruct H as [[_ ?]|(sv' & ? & ?)]; eauto.
Qed.

Lemma validate_services_clean m :
  ((validate_services nets m).1 = [] ↔
     Forall (service_ok L) (Services m) ∧ NoDup (S_Key <$> Services m) ∧ NoDup (Container <$> Services m) ∧
     NoDup (concat (node_list <$> Services m)) ∧ NoDup (concat (addresses <$> Services m))) ∧
  ((validate_services nets m).1 = [] → svc_inv (Services m) (validate_services nets m).2).
Proof.
  destruct (scan_clean (check_service nets) svc_inv svc_step) with (Services m) (@nil Service) (mkSvc ∅ ∅ ∅ ∅ ∅ ∅)
    as [H1 H2]; [|split; cbn; intros; rewrite ?lookup_empty in *; set_solver|].
  - intros prev s sv Hs. split; [by apply check_service_nil|by apply check_service_inv].
  - unfold validate_services. rewrite H1. split; [|done]. unfold svc_step.
    rewrite !along_and, along_forall, !along_distinct. unfold fresh_in. by rewrite !along_fresh by constructor.
Qed.
End Services.

(** ** The whole manifest *)
Section Valid.
Context (url_parse : string → option (string * string)) (stat : string → file_status).

(** The host of an endpoint is the address of the service on the management
    network. *)
Definition endpoint_ok (l : list Network) (sv : Service) (e : string * string) : Prop :=
  ∃ scheme host, url_parse e.2 = Some (scheme, host) ∧ scheme ≠ "" ∧ host ≠ "" ∧ is_Some (ipv4 host) ∧
    ∃ i, i ∈ Interfaces sv ∧ on_management l i ∧ IP_Equal (ParseIP host) (ParseIP (I_IPv4 i)) = true.
Definition sim_ok (sv : Service) : Prop :=
  is_Some (entry EndpointSim (Endpoints sv)) → "field-device" ∈ S_Roles sv ∨ "time-source" ∈ S_Roles sv.
Definition holders (m : Manifest) (role : string) : list Service :=
  List.filter (λ sv, bool_decide (role ∈ S_Roles sv)) (Services m).

Record manifest_valid (m : Manifest) (root : string) : Prop := {
  valid_schema : M_Schema m = Schema;
  valid_package : Package m ≠ "";
  valid_networks : Forall network_ok (Networks m);
  valid_network_keys : NoDup (N_Key <$> Networks m);
  valid_network_names : NoDup (N_Name <$> Networks m);
  valid_management : length (List.filter is_management (Networks m)) = 1%nat;
  valid_services : Forall (service_ok (Networks m)) (Services m);
  valid_keys : NoDup (S_Key <$> Services m);
  valid_containers : NoDup (Container <$> Services m);
  valid_nodes : NoDup (concat (node_list <$> Services m));
  valid_addresses : NoDup (concat (addresses <$> Services m));
  valid_endpoints : ∀ sv e, sv ∈ Services m → e ∈ Endpoints sv → endpoint_ok (Networks m) sv e;
  valid_firewall : ∃ sv, sv ∈ Services m ∧ "firewall" ∈ S_Roles sv ∧ Endpoint_of sv "api" ≠ "";
  valid_holders : ∀ role, role ∈ singleHolderRoles → (length (holders m role) <= 1)%nat;
  valid_sims : Forall sim_ok (Services m);
  valid_files : root ≠ "" ∧ ∀ name, name ∈ packageFiles → stat (path_join [Dir root (Package m); name]) = Regular
}.

Lemma filter_one {A} (f : A → bool) (l : list A) (x y : A) :
  length (List.filter f l) = 1%nat → x ∈ l → y ∈ l → f x = true → f y = true → x = y.
Proof.
  intros Hl Hx Hy Ex Ey. assert (x ∈ List.filter f l ∧ y ∈ List.filter f l) as [H1 H2].
  { rewrite !list_elem_of_In, !filter_In, <- !list_elem_of_In. done. }
  destruct (List.filter f l) as [|a [|]]; [done| |done]. apply list_elem_of_singleton in H1, H2. congruence.
Qed.
Lemma fmap_one {A} (f : A → string) (l : list A) (x y : A) : NoDup (f <$> l) → x ∈ l → y ∈ l → f x = f y → x = y.
Proof.
  induction l as [|a l IH]; cbn; [set_solver|]. rewrite NoDup_cons, list_elem_of_fmap. intros [Hn Hl].
  rewrite !elem_of_cons. intros [->|Hx] [->|Hy] E; [done| | |by apply IH]; destruct Hn; eauto.
Qed.

Lemma check_users_nil (users : gmap string Z) : (∀ k c, users !! k = Some c → c <= 1) → check_users users = [].
Proof.
  intros H. unfold check_users. apply concat_nil, Forall_forall. intros [k c] Hk.
  apply elem_of_map_to_list in Hk. apply fails_nil, Z.ltb_ge. by apply (H k).
Qed.

Lemma check_endpoint_nil m l s sv e :
  NoDup (S_Key <$> Services m) → Forall (service_ok l) (Services m) → svc_inv l (Services m) s → sv ∈ Services m →
  (∀ n1 n2, n1 ∈ l → n2 ∈ l → is_management n1 = true → is_management n2 = true → N_Key n1 = N_Key n2) →
  check_endpoint url_parse (ss_mgmt s) sv e = [] ↔ endpoint_ok l sv e.
Proof.
  intros Hk Hok Hs Hsv Hone. unfold check_endpoint, endpoint_ok.
  assert (∀ ip, ss_mgmt s !! S_Key sv = Some ip ↔ ∃ i, i ∈ Interfaces sv ∧ I_IPv4 i = ip ∧ on_management l i) as Hm.
  { intros ip. rewrite (inv_management _ _ _ Hs). unfold mgmt_ip. split; [|naive_solver].
    intros (sv' & Hsv' & E & H). by rewrite (fmap_one S_Key (Services m) sv sv'). }
  destruct (url_parse e.2) as [[scheme host]|]; [|naive_solver].
  destruct (is_empty scheme) eqn:E1; [apply is_empty_spec in E1; cbn; naive_solver|].
  destruct (is_empty host) eqn:E2; [apply is_empty_spec in E2; cbn; naive_solver|]. apply is_empty_false in E1, E2. cbn [orb].
  rewrite fails_nil, !orb_false_iff, !negb_false_iff, bool_decide_eq_true, is_empty_false. unfold mgmt_of. split.
  - destruct (ss_mgmt s !! S_Key sv) as [ip|] eqn:E; cbn; [|naive_solver].
    destruct (proj1 (Hm ip) eq_refl) as (i & Hi & <- & ?). intros [[? ?] ?]. exists scheme, host. naive_solver.
  - intros (? & ? & [= <- <-] & _ & _ & ? & i & Hi & Hmi & Heq).
    rewrite (proj2 (Hm (I_IPv4 i))) by eauto. cbn. split; [|done]. split; [done|].
    rewrite Forall_forall in Hok. pose proof (svc_interfaces _ _ (Hok sv Hsv)) as H. rewrite Forall_forall in H.
    destruct (H i Hi) as (? & ? & ip & _ & _ & Hip & _). by eapply ipv4_nonempty.
Qed.

Lemma single_holders_nil m :
  checkSingleHolders (Services m) = [] ↔
  (∀ role, role ∈ singleHolderRoles → (length (holders m role) <= 1)%nat) ∧ Forall sim_ok (Services m).
Proof.
  unfold checkSingleHolders. rewrite app_nil, !concat_nil, !Forall_forall. unfold check_holders, check_sim, sim_ok.
  setoid_rewrite fails_nil. setoid_rewrite Z.ltb_ge. setoid_rewrite length_fmap. split; intros [H1 H2]; split.
  - intros role Hr. specialize (H1 role Hr). unfold holders. lia.
  - intros sv Hsv. specialize (H2 sv Hsv). destruct (entry _ _); [|by intros [? ?]]. intros _.
    apply fails_nil in H2. rewrite andb_false_iff, !negb_false_iff, !bool_decide_eq_true in H2. done.
  - intros role Hr. specialize (H1 role Hr). unfold holders in H1. lia.
  - intros sv Hsv. specialize (H2 sv Hsv). destruct (entry _ _); [|done].
    apply fails_nil. rewrite andb_false_iff, !negb_false_iff, !bool_decide_eq_true. eauto.
Qed.
Lemma check_files_nil m root :
  Package m ≠ "" →
  check_files stat m root = [] ↔
  root ≠ "" ∧ ∀ name, name ∈ packageFiles → stat (path_join [Dir root (Package m); name]) = Regular.
Proof.
  intros Hp. unfold check_files. apply is_empty_false in Hp. rewrite Hp.
  destruct (is_empty root) eqn:E; [apply is_empty_spec in E; naive_solver|apply is_empty_false in E].
  rewrite concat_nil, Forall_forall. unfold check_file. split; [intros H; split; [done|]; intros name Hn; specialize (H name Hn)|intros [_ H] name Hn; rewrite (H name Hn); done].
  by destruct (stat _).
Qed.
Lemma firewall_api m :
  existsb is_firewall_api (Services m) = true ↔ ∃ sv, sv ∈ Services m ∧ "firewall" ∈ S_Roles sv ∧ Endpoint_of sv "api" ≠ "".
Proof.
  rewrite existsb_exists. setoid_rewrite <- list_elem_of_In. unfold is_firewall_api.
  setoid_rewrite andb_true_iff. setoid_rewrite bool_decide_eq_true. setoid_rewrite negb_true_iff. by setoid_rewrite is_empty_false.
Qed.
Lemma validate_endpoints_nil m mgmt :
  validate_endpoints url_parse mgmt m = [] ↔ ∀ sv e, sv ∈ Services m → e ∈ Endpoints sv → check_endpoint url_parse mgmt sv e = [].
Proof.
  unfold validate_endpoints. rewrite concat_nil, Forall_forall. setoid_rewrite concat_nil. setoid_rewrite Forall_forall. naive_solver.
Qed.

Lemma management_one l : length (List.filter is_management l) = 1%nat →
  ∀ n1 n2, n1 ∈ l → n2 ∈ l → is_management n1 = true → is_management n2 = true → N_Key n1 = N_Key n2.
Proof. intros Hl n1 n2 ? ? ? ?. f_equal. by eapply filter_one. Qed.
(** The parts of [Validate], each in the terms of the specification. *)
Lemma Validate_parts m root :
  Validate url_parse stat (Some m) root = [] ↔
  let ns := (validate_networks m).2 in let ss := (validate_services (ns_networks ns) m).2 in
  M_Schema m = Schema ∧ Package m ≠ "" ∧ (validate_networks m).1 = [] ∧ ns_management ns = 1 ∧
  (validate_services (ns_networks ns) m).1 = [] ∧ check_users (ss_delivery ss) = [] ∧
  (∀ sv e, sv ∈ Services m → e ∈ Endpoints sv → check_endpoint url_parse (ss_mgmt ss) sv e = []) ∧
  (∃ sv, sv ∈ Services m ∧ "firewall" ∈ S_Roles sv ∧ Endpoint_of sv "api" ≠ "") ∧
  ((∀ role, role ∈ singleHolderRoles → (length (holders m role) <= 1)%nat) ∧ Forall sim_ok (Services m)) ∧
  check_files stat m root = [].
Proof.
  unfold Validate. destruct (validate_networks m) as [p3 ns]. cbn zeta. cbn [fst snd].
  destruct (validate_services (ns_networks ns) m) as [p5 ss]. cbn [fst snd].
  by rewrite !app_nil, !fails_nil, !negb_false_iff, !Z.eqb_eq, is_empty_false, single_holders_nil, validate_endpoints_nil, firewall_api.
Qed.

Lemma validate_sound m root : Validate url_parse stat (Some m) root = [] → manifest_valid m root.
Proof.
  rewrite Validate_parts. cbn zeta. destruct (validate_networks_clean m) as [Hn Hni].
  intros (Es & Ep & E3 & Ec & E5 & _ & E7 & Efw & [Eh Esim] & Ef).
  destruct (proj1 Hn E3) as (Hok & Hk & Hnm). destruct (Hni E3) as [Hnets _ Hc].
  assert (length (List.filter is_management (Networks m)) = 1%nat) as Hl by lia. pose proof (management_one _ Hl) as Ho.
  destruct (validate_services_clean (Networks m) _ Hnets Ho Hok m) as [Hs Hsi].
  destruct (proj1 Hs E5) as (Hsok & Hsk & Hsc & Hsn & Hsa). specialize (Hsi E5).
  split; try done; [|by apply (check_files_nil m root Ep)].
  intros sv e Hsv He. eapply check_endpoint_nil; eauto.
Qed.
Lemma validate_complete m root : manifest_valid m root → Validate url_parse stat (Some m) root = [].
Proof.
  rewrite Validate_parts. cbn zeta. destruct (validate_networks_clean m) as [Hn Hni]. intros [].
  assert ((validate_networks m).1 = []) as E3 by by apply Hn. destruct (Hni E3) as [Hnets _ Hc].
  pose proof (management_one _ valid_management0) as Ho.
  destruct (validate_services_clean (Networks m) _ Hnets Ho valid_networks0 m) as [Hs Hsi].
  assert ((validate_services (ns_networks (validate_networks m).2) m).1 = []) as E5 by by apply Hs. specialize (Hsi E5).
  do 3 (split; [done|]). split; [rewrite Hc, valid_management0; done|]. split; [done|].
  split; [apply check_users_nil; intros k c H; by apply (inv_delivery _ _ _ Hsi) in H as [? _]|].
  split; [intros sv e Hsv He; eapply check_endpoint_nil; eauto|].
  split; [done|]. split; [done|]. by apply check_files_nil.
Qed.

(** C20. Validation decides validity: [Validate] reports no problem for a
    manifest exactly when the manifest is valid. That is, the schema and package
    id are right and the package's files are regular files; network and service
    keys, network names, containers, nodes and addresses are unique; exactly
    one management network exists and every gateway and interface address lies
    in its subnet; delivery networks are the platform's reserved bridges, used
    only by their designated desktops, which have no management interface and
    no endpoints; every endpoint is at its service's own management address;
    a firewall with an API exists and the single-holder roles have one holder. *)
Theorem validate_exact (m : Manifest) (root : string) :
  Validate url_parse stat (Some m) root = [] ↔ manifest_valid m root.
Proof. split; [apply validate_sound|apply validate_complete]. Qed.

Lemma entry_In {A} k (w : A) l : entry k l = Some w → (k, w) ∈ l.
Proof.
  unfold entry. destruct (List.find _ l) as [[k' w']|] eqn:Ef; [|done]. intros [= ->].
  apply find_some in Ef as [Hin Ek]. apply String.eqb_eq in Ek as <-. by apply list_elem_of_In.
Qed.
Lemma desktop_service_inj k1 k2 w1 w2 :
  entry k1 deliveryDesktops = Some w1 → entry k2 deliveryDesktops = Some w2 → d_service w1 = d_service w2 → k1 = k2.
Proof.
  intros H1%entry_In H2%entry_In. unfold deliveryDesktops in *. rewrite !elem_of_cons in H1, H2.
  destruct H1 as [[= -> ->]|[[= -> ->]|[[= -> ->]|[]%not_elem_of_nil]]], H2 as [[= -> ->]|[[= -> ->]|[[= -> ->]|[]%not_elem_of_nil]]]; done.
Qed.

(** What validity says of a service [sv] on a delivery network [n]. *)
Lemma delivery_node m root sv i n :
  manifest_valid m root → n ∈ Networks m → Delivery n = true → sv ∈ Services m → i ∈ Interfaces sv → I_Network i = N_Key n →
  service_ok (Networks m) sv ∧ (∃ w, entry (N_Key n) deliveryDesktops = Some w ∧ I_IPv4 i = desktopIP w ∧ S_Key sv = d_service w) ∧
  Node sv ≠ "" ∧ Endpoints sv = [].
Proof.
  intros Hv Hn Hd Hsv Hi Ei. pose proof (valid_services _ _ Hv) as Hs. rewrite Forall_forall in Hs. specialize (Hs sv Hsv).
  split; [done|]. pose proof (svc_interfaces _ _ Hs) as Hif. rewrite Forall_forall in Hif.
  destruct (Hif i Hi) as (n' & p & ip & [Hn' Ek] & _ & _ & _ & _ & Hdk).
  assert (n' = n) as -> by (apply (fmap_one N_Key (Networks m)); [apply Hv|done|done|congruence]).
  destruct (Hdk Hd) as (E1 & E2 & E3 & E4). split; [|done].
  pose proof (valid_networks _ _ Hv) as Hok. rewrite Forall_forall in Hok. pose proof (net_delivery _ (Hok n Hn)) as Hdo.
  unfold delivery_ok in Hdo. rewrite Hd in Hdo. destruct Hdo as (w & Ew & _). exists w.
  unfold desktop_of in E1, E2. rewrite Ew in E1, E2. done.
Qed.

(** C21. Desktops are isolated: in a manifest that validates, the service on a
    delivery network [n] is its only range node, sits at the reserved desktop
    address, declares nothing for the backend to call, has no interface on the
    management network and none on another delivery network, so that no desktop
    is a path from one delivery bridge to the platform or to another bridge. *)
Theorem delivery_isolated (m : Manifest) (root : string) (n : Network) (sv : Service) (i : Interface) :
  Validate url_parse stat (Some m) root = [] →
  n ∈ Networks m → Delivery n = true → sv ∈ Services m → i ∈ Interfaces sv → I_Network i = N_Key n →
  (∃ w, (N_Key n, w) ∈ deliveryDesktops ∧ I_IPv4 i = desktopIP w) ∧ Endpoints sv = [] ∧
  (∀ sv' i', sv' ∈ Services m → i' ∈ Interfaces sv' → I_Network i' = N_Key n → sv' = sv) ∧
  (∀ i', i' ∈ Interfaces sv → on_management (Networks m) i' → False) ∧
  (∀ i', i' ∈ Interfaces sv → on_delivery (Networks m) i' → I_Network i' = N_Key n).
Proof.
  intros Hv%validate_sound Hn Hd Hsv Hi Ei.
  destruct (delivery_node m root sv i n) as (Hs & (w & Ew & Eip & Es) & _ & Ee); [done..|].
  split; [exists w; split; [|done]|split; [done|split; [|split]]].
  - by apply entry_In.
  - intros sv' i' Hsv' Hi' Ei'. destruct (delivery_node m root sv' i' n) as (_ & (w' & Ew' & _ & Es') & _); [done..|].
    apply (fmap_one S_Key (Services m)); [apply Hv|done|done|congruence].
  - intros i' Hi' Hm. apply (svc_isolated _ _ Hs i i' Hi Hi'); [by exists n|done].
  - intros i' Hi' (n' & [Hn' Ek'] & Hd').
    destruct (delivery_node m root sv i' n') as (_ & (w' & Ew' & _ & Es') & _); [done..|].
    rewrite <- Ek'. apply (desktop_service_inj _ _ w' w); [done|done|congruence].
Qed.
End Valid.

(** ** A small range *)
Definition range_networks : list Network :=
  [mkNetwork "mgmt" mgmt_name "10.99.0.0/24" "10.99.0.1" true false "";
   mkNetwork "desk_corp_net" "rangerdanger_desk_corp" "10.98.1.0/28" "10.98.1.1" true true "";
   mkNetwork "corp" "rangerdanger_corp" "10.10.0.0/24" "10.10.0.1" false false "corporate"].
Definition range_services : list Service :=
  [mkService "fw" "rd-fw" "firewall" ["firewall"] [mkInterface "mgmt" "10.99.0.2"; mkInterface "corp" "10.10.0.2"]
     [("api", "http://10.99.0.2:8080")];
   mkService "corp_ws" "rd-corp" "corp-ws" ["corporate-ws"] [mkInterface "corp" "10.10.0.10"; mkInterface "desk_corp_net" "10.98.1.3"] []].
Definition small_range : Manifest := mkManifest 2 "lab" range_networks range_services.
(** The URLs and the files of the example. *)
Definition small_urls (s : string) : option (string * string) :=
  if (s =? "http://10.99.0.2:8080")%string then Some ("http", "10.99.0.2") else None.
Definition all_regular (path : string) : file_status := Regular.

Lemma delivery_isolated_witness :
  Validate small_urls all_regular (Some small_range) "/opt" = [] ∧
  (∀ sv' i', sv' ∈ range_services → i' ∈ Interfaces sv' → I_Network i' = "desk_corp_net" → S_Key sv' = "corp_ws").
Proof.
  assert (Validate small_urls all_regular (Some small_range) "/opt" = []) as H by (vm_compute; reflexivity).
  split; [exact H|]. intros sv' i' H1 H2 H3.
  pose proof (delivery_isolated small_urls all_regular small_range "/opt"
    (mkNetwork "desk_corp_net" "rangerdanger_desk_corp" "10.98.1.0/28" "10.98.1.1" true true "")
    (mkService "corp_ws" "rd-corp" "corp-ws" ["corporate-ws"]
       [mkInterface "corp" "10.10.0.10"; mkInterface "desk_corp_net" "10.98.1.3"] [])
    (mkInterface "desk_corp_net" "10.98.1.3") H
    (list_elem_of_further _ _ _ (list_elem_of_here _ _)) eq_refl
    (list_elem_of_further _ _ _ (list_elem_of_here _ _)) (list_elem_of_further _ _ _ (list_elem_of_here _ _)) eq_refl) as Hr.
  rewrite (proj1 (proj2 (proj2 Hr)) sv' i' H1 H2 H3). reflexivity.
Defined.

(** Addresses are compared as text: the same IPv4 address written in its IPv6
    form passes the uniqueness check. *)
Definition shared_address : Manifest :=
  mkManifest 2 "lab" range_networks
    (range_services ++ [mkService "hist" "rd-hist" "" ["historian"] [mkInterface "corp" "::ffff:10.10.0.10"] []])%list.
Example mapped_address_accepted :
  Validate small_urls all_regular (Some shared_address) "/opt" = [] ∧ ipv4 "::ffff:10.10.0.10" = ipv4 "10.10.0.10".
Proof. split; vm_compute; reflexivity. Qed.
