(* ===== verification/ManifestComposeCorrect.v ===== *)
(** * What an accepted deployment satisfies

    The paths of bind mounts, the features of a raw Compose file, the agreement
    of a manifest with its Compose model and its topology, and of the two modes
    of a package with each other. *)
From S2P Require Import Prelude GoLib GoText NetIP Policy Manifest ManifestCompose ManifestCorrect.
From stdpp Require Import pretty.

#[local] Open Scope string_scope.
#[local] Open Scope list_scope.
#[local] Open Scope Z_scope.

(** ** Loops that return the first error *)
Lemma fail_if_Ok b f a : fail_if b f a = Ok tt ↔ b = false.
Proof. by destruct b. Qed.
Lemma then_ok {B} (m : M unit) (k : M B) v : bind m (λ _, k) = Ok v ↔ m = Ok tt ∧ k = Ok v.
Proof. rewrite bind_Ok. split; [intros ([] & ? & ?); done|]. intros [? ?]. by exists tt. Qed.
Lemma each_all_ok {A} (f : A → M unit) l : each f l = Ok tt ↔ Forall (λ x, f x = Ok tt) l.
Proof. induction l as [|x l IH]; cbn; [split; auto|]. by rewrite then_ok, Forall_cons, IH. Qed.

(** ** Cleaned absolute paths *)
Definition slash_free (s : string) : Prop := split_at slash s = [s].
(** An element of a cleaned absolute path. *)
Definition plain (s : string) : Prop := slash_free s ∧ s ≠ "" ∧ s ≠ "." ∧ s ≠ "..".

Lemma split_slash_free s : Forall slash_free (split_at slash s).
Proof.
  induction s as [|a s IH]; cbn; [by repeat constructor|]. destruct (Ascii.eqb a slash) eqn:E; [by constructor|].
  destruct (split_at slash s) as [|x l]; inversion IH as [|? ? Hx Hl]; subst; constructor; try done; unfold slash_free in *; cbn;
    rewrite E; [done|by rewrite Hx].
Qed.
Lemma split_cons x s : slash_free x → split_at slash (x +:+ String slash s) = x :: split_at slash s.
Proof.
  unfold slash_free. induction x as [|a x IH]; [done|]. change (String a x +:+ String slash s) with (String a (x +:+ String slash s)).
  cbn [split_at]. destruct (Ascii.eqb a slash); [done|].
  destruct (split_at slash x) as [|y l] eqn:E; [by destruct x; cbn in E; [|destruct (Ascii.eqb _ _), (split_at slash x)]|].
  intros [= -> ->]. by rewrite IH.
Qed.
Lemma split_join l : l ≠ [] → Forall slash_free l → split_at slash (join_with "/" l) = l.
Proof.
  induction l as [|x [|y l] IH]; intros Hl H; inversion H; subst; [done|done|].
  change (join_with "/" (x :: y :: l)) with (x +:+ String slash (join_with "/" (y :: l))).
  by rewrite split_cons, IH.
Qed.

Lemma clean_parts_plain done_ parts :
  Forall plain done_ → Forall slash_free parts → Forall plain (clean_parts true done_ parts).
Proof.
  revert done_. induction parts as [|p parts IH]; intros done_ Hd Hp; cbn; [by apply Forall_rev|].
  inversion Hp as [|? ? Hp1 Hp2]; subst. destruct (String.eqb_spec p ""); [by apply IH|]. destruct (String.eqb_spec p "."); [by apply IH|].
  cbn [orb]. destruct (String.eqb_spec p ".."); [|by apply IH; [constructor|]].
  destruct done_ as [|d done_]; [by apply IH|]. inversion Hd as [|? ? Hd1 Hd2]; subst.
  destruct (String.eqb_spec d ".."); [by destruct Hd1 as (_ & _ & _ & ?)|by apply IH].
Qed.
Lemma clean_parts_id done_ parts : Forall plain parts → clean_parts true done_ parts = rev done_ ++ parts.
Proof.
  revert done_. induction parts as [|p parts IH]; intros done_ Hp; cbn; [by rewrite app_nil_r|].
  inversion Hp as [|? ? (_ & H1 & H2 & H3) Hp2]; subst. apply String.eqb_neq in H1, H2, H3. rewrite H1, H2, H3. cbn.
  rewrite IH by done. cbn. by rewrite <- app_assoc.
Qed.

(** The elements of an absolute path. *)
Definition path_parts (path : string) : list string := clean_parts true [] (split_at slash path).
Lemma path_parts_plain path : Forall plain (path_parts path).
Proof. apply clean_parts_plain; [constructor|apply split_slash_free]. Qed.
Lemma Clean_abs path : IsAbs path = true → Clean path = "/" +:+ join_with "/" (path_parts path).
Proof. unfold Clean, IsAbs, path_parts. by destruct path as [|a path]; [|intros ->]. Qed.
Lemma split_rooted l : Forall plain l → split_at slash ("/" +:+ join_with "/" l) = "" :: (if decide (l = []) then [""] else l).
Proof.
  intros H. change ("/" +:+ join_with "/" l) with (String slash (join_with "/" l)). cbn [split_at]. rewrite Ascii.eqb_refl. f_equal.
  case_decide as E; [by subst|]. apply split_join; [done|]. eapply Forall_impl; [done|]. by intros x [? _].
Qed.
Lemma elems_Clean path : IsAbs path = true → elems (Clean path) = path_parts path.
Proof.
  intros Ha. pose proof (path_parts_plain path) as Hp. rewrite Clean_abs by done. unfold elems. rewrite split_rooted by done.
  case_decide as E; [by rewrite E|]. change (List.filter ?f ("" :: ?l)) with (List.filter f l). clear E.
  induction Hp as [|x l (_ & H1 & H2 & _) Hl IH]; [done|]. cbn [List.filter].
  apply is_empty_false in H1. apply String.eqb_neq in H2. rewrite H1, H2. cbn [negb andb]. by rewrite IH.
Qed.
Lemma Clean_idemp path : IsAbs path = true → Clean (Clean path) = Clean path.
Proof.
  intros Ha. pose proof (path_parts_plain path) as Hp. rewrite (Clean_abs path Ha). rewrite Clean_abs by done. do 2 f_equal.
  unfold path_parts at 1. rewrite split_rooted by done. cbn. case_decide as E; [by rewrite E|]. by rewrite clean_parts_id.
Qed.
Lemma IsAbs_Clean path : IsAbs path = true → IsAbs (Clean path) = true.
Proof. intros Ha. by rewrite Clean_abs. Qed.

Lemma strip_common_spec b t :
  ∃ c, b = c ++ (strip_common b t).1 ∧ t = c ++ (strip_common b t).2 ∧
    (b `prefix_of` t → (strip_common b t).1 = []).
Proof.
  revert t. induction b as [|x b IH]; intros t; cbn; [by exists []|]. destruct t as [|y t].
  - exists []. split; [done|]. split; [done|]. intros H. by apply prefix_nil_inv in H.
  - destruct (String.eqb_spec x y) as [<-|Hxy].
    + destruct (IH t) as (c & Hb & Ht & Hp). exists (x :: c). cbn. rewrite <- Hb, <- Ht. split; [done|]. split; [done|].
      intros H. by apply Hp, (prefix_cons_inv_2 _ _ _ _ H).
    + exists []. split; [done|]. split; [done|]. intros H. by apply prefix_cons_inv_1 in H.
Qed.
Lemma up_outside l : let r := join_with "/" (".." :: l) in (r =? "..")%string || String.prefix "../" r = true.
Proof.
  destruct l as [|x l]; [done|]. cbn zeta. apply orb_true_iff. right.
  change (join_with "/" (".." :: x :: l)) with ("../" +:+ join_with "/" (x :: l)). generalize (join_with "/" (x :: l)) as s.
  intros s. by destruct s.
Qed.
Lemma prefix_app p r : String.prefix p r = true → ∃ s, r = p +:+ s.
Proof.
  revert r. induction p as [|a p IH]; intros r; [by exists r|]. destruct r as [|b r]; [done|].
  cbn [String.prefix]. destruct (ascii_dec a b) as [<-|]; [|done]. intros H. apply IH in H as [s ->]. by exists s.
Qed.
Lemma down_inside l : Forall plain l → let r := join_with "/" l in (r =? "..")%string || String.prefix "../" r = false.
Proof.
  intros Hl r. apply not_true_is_false. intros H. destruct l as [|x l]; [done|].
  assert (split_at slash r = x :: l) as Hs. { apply split_join; [done|]. eapply Forall_impl; [exact Hl|]. by intros ? [? _]. }
  inversion Hl as [|? ? (_ & _ & _ & Hx) _]; subst. apply orb_true_iff in H as [H|H].
  - apply String.eqb_eq in H. rewrite H in Hs. by injection Hs as <-.
  - apply prefix_app in H as [s' H]. change ("../" +:+ s') with (".." +:+ String slash s') in H. rewrite H, split_cons in Hs by done. by injection Hs as <-.
Qed.

(** [source] is in the directory [root]. *)
Definition inside (root source : string) : Prop := path_parts root `prefix_of` path_parts source.
Lemma outside_spec root source :
  IsAbs root = true → IsAbs source = true → outside root source = false ↔ inside root source.
Proof.
  intros Hr Hs. unfold outside, Rel, inside. rewrite Clean_idemp by done.
  pose proof (path_parts_plain root) as Hpr. pose proof (path_parts_plain source) as Hps.
  destruct (String.eqb_spec (Clean source) (Clean root)) as [E|_].
  - split; [intros _|done]. rewrite <- (elems_Clean root), <- (elems_Clean source), E by done. done.
  - rewrite !IsAbs_Clean, !elems_Clean by done. cbn [Bool.eqb negb].
    destruct (strip_common_spec (path_parts root) (path_parts source)) as (c & Hb & Ht & Hc).
    destruct (strip_common _ _) as [b t]. cbn [fst snd] in *. destruct b as [|x b].
    + split; [intros _; rewrite Hb, Ht, app_nil_r; by eexists|]. intros _. apply down_inside.
      rewrite Ht in Hps. by apply Forall_app in Hps as [_ ?].
    + rewrite Hb in Hpr. apply Forall_app in Hpr as [_ Hx]. inversion Hx as [|? ? (_ & _ & _ & Hn) _]; subst.
      apply String.eqb_neq in Hn. rewrite Hn. split; [|intros H; by apply Hc in H].
      intros H. cbn [fmap list_fmap app] in H. by rewrite (up_outside (((λ _, "..") <$> b) ++ t)) in H.
Qed.

Lemma Abs_spec cwd root r :
  (∀ wd, cwd = inr wd → IsAbs wd = true) → Abs cwd root = Ok r → IsAbs r = true.
Proof.
  intros Hw. unfold Abs. destruct (IsAbs root) eqn:Er; [intros [= <-]; by apply IsAbs_Clean|].
  destruct cwd as [|wd]; [done|]. intros [= <-]. specialize (Hw wd eq_refl). destruct wd as [|a wd]; [done|].
  change (path_join [String a wd; root]) with (Clean (String a wd +:+ "/" +:+ root)). by apply IsAbs_Clean.
Qed.

(** ** Maps *)
Lemma entry_Some {A} k (x : A) l : NoDup l.*1 → entry k l = Some x ↔ (k, x) ∈ l.
Proof.
  intros Hn. split; [apply entry_In|]. unfold entry. induction l as [|[k' y] l IH]; [set_solver|].
  cbn in Hn. apply NoDup_cons in Hn as [Hk Hn]. cbn [List.find fst]. rewrite elem_of_cons.
  destruct (String.eqb_spec k' k) as [->|Hne]; (intros [E|H]; [simplify_eq/=; try done|]).
  - destruct Hk. apply list_elem_of_fmap. by exists (k, x).
  - by apply IH.
Qed.
Lemma entry_is_Some {A} k (l : list (string * A)) : is_Some (entry k l) ↔ k ∈ l.*1.
Proof.
  unfold entry. induction l as [|[k' y] l IH]; [cbn; rewrite elem_of_nil; split; [by intros [? ?]|done]|].
  cbn [List.find fst fmap list_fmap]. rewrite elem_of_cons. destruct (String.eqb_spec k' k) as [->|Hne]; [naive_solver|].
  rewrite IH. naive_solver.
Qed.

Lemma by_key_spec {A} (f : A → string) (l : list A) :
  NoDup (f <$> l) → size (by_key f l) = length l ∧ ∀ k x, by_key f l !! k = Some x ↔ x ∈ l ∧ f x = k.
Proof.
  induction l as [|x l IH] using rev_ind; [intros _; split; [done|]; intros k x; unfold by_key; cbn; rewrite lookup_empty; set_solver|].
  rewrite fmap_app, NoDup_app. intros (Hl & Hx & _). destruct (IH Hl) as [Hs Hm]. clear IH.
  assert (by_key f (l ++ [x]) = <[f x := x]> (by_key f l)) as -> by (unfold by_key; by rewrite foldl_app).
  assert (f x ∉ f <$> l) as Hf by (intros H; apply (Hx _ H); set_solver).
  assert (by_key f l !! f x = None) as Hn.
  { apply eq_None_not_Some. intros [y Hy]. apply Hm in Hy as [? E]. apply Hf, list_elem_of_fmap. eauto. }
  split; [rewrite map_size_insert_None, Hs, length_app by done; cbn; lia|]. intros k y.
  rewrite lookup_insert_Some, Hm, elem_of_app, list_elem_of_singleton. split; [naive_solver|].
  intros [[Hy | ->] <-]; [right|by left]. split; [|done]. intros E. apply Hf, list_elem_of_fmap. eauto.
Qed.

Lemma same_set {A} (l k : list A) : NoDup l → (∀ x, x ∈ l → x ∈ k) → length k = length l → ∀ x, x ∈ k → x ∈ l.
Proof.
  intros Hn Hs Hl x Hx. assert (l ≡ₚ k) as H; [|by rewrite H].
  apply submseteq_length_Permutation; [by apply NoDup_submseteq|lia].
Qed.

(** ** The range model *)
Definition attachment_ok (actual : composeService) (i : Interface) : Prop :=
  ∃ a, entry (I_Network i) (CS_Networks actual) = Some a ∧ A_IPv4 a = I_IPv4 i.
Definition service_agrees (model : composeModel) (sv : Service) : Prop :=
  ∃ actual, entry (S_Key sv) (CM_Services model) = Some actual ∧ ContainerName actual = Container sv ∧
    length (CS_Networks actual) = length (Interfaces sv) ∧ Forall (attachment_ok actual) (Interfaces sv).
(** A platform network is external, and a range network is created with the
    manifest's addresses. *)
Definition network_agrees (model : composeModel) (n : Network) : Prop :=
  ∃ actual, entry (N_Key n) (CM_Networks model) = Some actual ∧ CN_Name actual = N_Name n ∧ External actual = Platform n ∧
    if Platform n then IPAM actual = None ∨ IPAM actual = Some []
    else IPAM actual = Some [(Subnet n, Gateway n)] ∧ Subnet n ≠ "" ∧ Gateway n ≠ "".

Lemma check_compose_service_ok model sv : check_compose_service model (S_Key sv, sv) = Ok tt ↔ service_agrees model sv.
Proof.
  unfold check_compose_service, service_agrees. cbn [fst snd].
  destruct (entry _ _) as [actual|]; [|split; [done|intros (? & ? & _); done]].
  rewrite !then_ok, !fail_if_Ok, !negb_false_iff, String.eqb_eq, Nat.eqb_eq, each_all_ok.
  assert (∀ i, check_iface (S_Key sv) actual i = Ok tt ↔ attachment_ok actual i) as Hi.
  { intros i. unfold check_iface, attachment_ok. destruct (entry _ _) as [a|]; [|naive_solver].
    rewrite fail_if_Ok, negb_false_iff, String.eqb_eq. naive_solver. }
  setoid_rewrite Hi. naive_solver.
Qed.
Lemma check_compose_network_ok model n : check_compose_network model (N_Key n, n) = Ok tt ↔ network_agrees model n.
Proof.
  unfold check_compose_network, network_agrees. cbn [fst snd].
  destruct (entry _ _) as [[name ext int ipam]|]; [|split; [done|intros (? & ? & _); done]].
  transitivity (name = N_Name n ∧ ext = Platform n ∧
    if Platform n then ipam = None ∨ ipam = Some [] else ipam = Some [(Subnet n, Gateway n)] ∧ Subnet n ≠ "" ∧ Gateway n ≠ "").
  - rewrite then_ok, fail_if_Ok, negb_false_iff. cbn [CN_Name External IPAM networkIPAM]. rewrite String.eqb_eq.
    destruct (Platform n).
    + rewrite then_ok, !fail_if_Ok, negb_false_iff. destruct ipam as [[|]|]; naive_solver.
    + rewrite then_ok, fail_if_Ok. unfold networkIPAM. cbn [IPAM]. destruct ipam as [[|[s g] [|]]|]; cbv beta iota;
        rewrite ?fail_if_Ok; [naive_solver| |naive_solver..].
      rewrite !orb_false_iff, !negb_false_iff, andb_true_iff, !negb_true_iff, !is_empty_false, !String.eqb_eq. naive_solver.
  - split; [intros (? & ? & ?); by eexists|]. intros (actual & [= <-] & ?). done.
Qed.

(** *** Sets of names as permutations *)
Lemma perm_iff {A} (l k : list A) : NoDup l → (length k = length l ∧ ∀ x, x ∈ l → x ∈ k) ↔ k ≡ₚ l.
Proof.
  intros Hn. split.
  - intros [Hl Hs]. symmetry. apply submseteq_length_Permutation; [by apply NoDup_submseteq|lia].
  - intros H. split; [by rewrite H|]. intros x. by rewrite H.
Qed.
Definition attached (s : composeService) : list (string * string) := (λ a, (a.1, A_IPv4 a.2)) <$> CS_Networks s.
Definition wanted (sv : Service) : list (string * string) := (λ i, (I_Network i, I_IPv4 i)) <$> Interfaces sv.

Lemma attachments_exact actual sv :
  NoDup (CS_Networks actual).*1 → NoDup (I_Network <$> Interfaces sv) →
  length (CS_Networks actual) = length (Interfaces sv) ∧ Forall (attachment_ok actual) (Interfaces sv) ↔ attached actual ≡ₚ wanted sv.
Proof.
  intros Ha Hi. assert (NoDup (wanted sv)) as Hw.
  { apply (NoDup_fmap_1 fst). unfold wanted. by rewrite <- list_fmap_compose. }
  rewrite <- (perm_iff _ _ Hw). unfold attached, wanted. rewrite !length_fmap, Forall_forall. apply and_iff_compat_l.
  assert (∀ i, attachment_ok actual i ↔ (I_Network i, I_IPv4 i) ∈ attached actual) as H.
  { intros i. unfold attachment_ok, attached. setoid_rewrite entry_Some; [|done]. rewrite list_elem_of_fmap. split.
    - intros (a & Hin & E). exists (I_Network i, a). cbn. by rewrite E.
    - intros ([k a] & [= -> E] & Hin). by exists a. }
  setoid_rewrite H. split.
  - intros Hall x Hx. apply list_elem_of_fmap in Hx as (i & -> & Hin). by apply Hall.
  - intros Hall i Hin. apply Hall, list_elem_of_fmap. eauto.
Qed.

(** *** Safety *)
Definition volume_safe (root : string) (v : composeVolume) : Prop :=
  (V_Type v = "volume" → V_Source v = "") ∧
  (V_Type v = "bind" →
   isDockerSocket (V_Source v) = false ∧ isDockerSocket (V_Target v) = false ∧ IsAbs (V_Source v) = true ∧ inside root (V_Source v)).
Definition service_safe (root : string) (s : composeService) : Prop :=
  Forall (eq "127.0.0.1") (Ports s) ∧ Forall (volume_safe root) (CS_Volumes s).
(** What the services may publish and mount. *)
Definition model_safe (root : string) (model : composeModel) : Prop :=
  Forall (service_safe root) (CM_Services model).*2 ∧ CM_Volumes model = [].

Lemma check_volume_ok root key v : IsAbs root = true → check_volume root key v = Ok tt ↔ volume_safe root v.
Proof.
  intros Hr. unfold check_volume, volume_safe. rewrite then_ok, fail_if_Ok, andb_false_iff, negb_false_iff, String.eqb_neq, is_empty_spec.
  destruct (String.eqb_spec (V_Type v) "bind") as [E|E]; cbn [negb]; [|destruct (decide (V_Type v = "volume")); naive_solver].
  rewrite !then_ok, !fail_if_Ok, orb_false_iff, negb_false_iff, E. split.
  - intros (_ & [? ?] & ? & Ho). rewrite outside_spec in Ho by done. done.
  - intros (_ & H). destruct (H eq_refl) as (? & ? & ? & Hi). split; [by left|]. split; [done|]. split; [done|]. by apply outside_spec.
Qed.
Lemma checkComposeSafety_ok cwd model root :
  (∀ wd, cwd = inr wd → IsAbs wd = true) →
  checkComposeSafety cwd model root = Ok tt ↔ ∃ r, Abs cwd root = Ok r ∧ model_safe r model.
Proof.
  intros Hw. unfold checkComposeSafety, model_safe. rewrite bind_Ok. apply exist_proper. intros r.
  assert (∀ P Q R : Prop, (P → (Q ↔ R)) → P ∧ Q ↔ P ∧ R) as Hand by tauto. apply Hand. intros Hr. apply Abs_spec in Hr; [|done].
  rewrite then_ok, fail_if_Ok, negb_false_iff, Nat.eqb_eq, length_zero_iff_nil, each_all_ok, Forall_fmap. apply and_iff_compat_r.
  apply Forall_iff. intros s. unfold check_service_safety, service_safe, compose. rewrite then_ok, !each_all_ok.
  unfold check_port. setoid_rewrite fail_if_Ok. setoid_rewrite negb_false_iff. setoid_rewrite String.eqb_eq.
  setoid_rewrite check_volume_ok; [|done]. rewrite !Forall_forall. naive_solver.
Qed.

(** ** Raw files *)
Section YamlInd.
Context (P : yaml_node → Prop) (H : ∀ kind value content, Forall P content → P (YNode kind value content)).
Fixpoint yaml_rec (n : yaml_node) : P n :=
  let 'YNode kind value content := n in
  H kind value content
    ((fix go (l : list yaml_node) : Forall P l :=
        match l with [] => Forall_nil_2 P | x :: l' => Forall_cons_2 P x l' (yaml_rec x) (go l') end) content).
End YamlInd.

(** A mapping somewhere in the tree has the key. *)
Inductive has_key (key : string) : yaml_node → Prop :=
| key_here value pre k x post :
    Nat.Even (length pre) → y_value k = key → has_key key (YNode MappingNode value (pre ++ k :: x :: post))
| key_below kind value content c : c ∈ content → has_key key c → has_key key (YNode kind value content).

(** The children of a node that have the key below them, and the keys of a mapping. *)
Section Children.
Context (key : string).
Fixpoint some_child (l : list yaml_node) : bool :=
  match l with c :: l' => findYAMLKey key c || some_child l' | [] => false end.
Fixpoint some_pair (l : list yaml_node) : bool :=
  match l with k :: v :: l' => (y_value k =? key)%string || findYAMLKey key v || some_pair l' | _ => false end.
End Children.
Lemma findYAMLKey_eq key kind value content :
  findYAMLKey key (YNode kind value content) =
  match kind with MappingNode => some_pair key content | _ => false end || some_child key content.
Proof. reflexivity. Qed.

Lemma some_child_spec key l : some_child key l = true ↔ ∃ c, c ∈ l ∧ findYAMLKey key c = true.
Proof.
  induction l as [|c l IH]; cbn; [set_solver|]. rewrite orb_true_iff, IH. setoid_rewrite elem_of_cons. naive_solver.
Qed.
Lemma some_pair_spec key l :
  some_pair key l = true → (∃ pre k x post, Nat.Even (length pre) ∧ y_value k = key ∧ l = pre ++ k :: x :: post) ∨
    ∃ c, c ∈ l ∧ findYAMLKey key c = true.
Proof.
  revert l. fix IH 1. intros [|k [|x l]]; cbn [some_pair]; [done|done|]. rewrite !orb_true_iff, String.eqb_eq.
  intros [[E|E]|E].
  - left. exists [], k, x, l. by split; [exists 0%nat|].
  - right. exists x. split; [set_solver|done].
  - destruct (IH l E) as [(pre & k' & x' & post & [m Hm] & Hk & ->)|(c & Hc & Hf)]; [left|right].
    + exists (k :: x :: pre), k', x', post. split; [exists (S m); cbn; lia|]. by split.
    + exists c. split; [set_solver|done].
Qed.
Lemma some_pair_found key pre k x post :
  Nat.Even (length pre) → y_value k = key → some_pair key (pre ++ k :: x :: post) = true.
Proof.
  intros [m Hm] Hk. revert pre Hm. induction m as [|m IH]; intros pre Hm.
  - destruct pre; [|done]. cbn. by rewrite Hk, String.eqb_refl.
  - destruct pre as [|a [|b pre]]; cbn in Hm; [lia|lia|]. cbn [app some_pair]. rewrite (IH pre) by lia. by rewrite orb_true_r.
Qed.
Lemma findYAMLKey_spec key n : findYAMLKey key n = true ↔ has_key key n.
Proof.
  split.
  - induction n as [kind value content IH] using yaml_rec. rewrite Forall_forall in IH. rewrite findYAMLKey_eq, orb_true_iff.
    assert ((∃ c, c ∈ content ∧ findYAMLKey key c = true) → has_key key (YNode kind value content)) as Hc.
    { intros (c & Hin & Hf). apply (key_below _ _ _ _ c); auto. }
    intros [H|H]; [|by apply Hc, some_child_spec]. destruct kind; try done.
    apply some_pair_spec in H as [(pre & k & x & post & He & Hk & ->)|H]; [by apply key_here|by apply Hc].
  - induction 1 as [value pre k x post He Hk|kind value content c Hc Hk IH]; rewrite findYAMLKey_eq, orb_true_iff.
    + left. by apply some_pair_found.
    + right. apply some_child_spec. eauto.
Qed.

Definition raw_ok (expectedName : string) (document : yaml_node) : Prop :=
  ∃ value content, y_content document = [YNode MappingNode value content] ∧ last_value "name" "" content = expectedName ∧
    ∀ key, key ∈ ["profiles"; "extends"; "include"] → ¬ has_key key (YNode MappingNode value content).
Lemma checkRawCompose_ok file path name :
  checkRawCompose file path name = Ok tt ↔ ∃ document, file path = inr (inr document) ∧ raw_ok name document.
Proof.
  unfold checkRawCompose, raw_ok. destruct (file path) as [|[|document]]; [naive_solver..|].
  destruct (y_content document) as [|[kind value content] [|]] eqn:E;
    [split; [done|]; intros (? & [= <-] & ? & ? & E' & _); congruence| |split; [done|]; intros (? & [= <-] & ? & ? & E' & _); congruence].
  rewrite then_ok, fail_if_Ok, then_ok, fail_if_Ok, !negb_false_iff, bool_decide_eq_true, String.eqb_eq, each_all_ok, Forall_forall.
  setoid_rewrite fail_if_Ok. setoid_rewrite <- not_true_iff_false. setoid_rewrite findYAMLKey_spec. cbn [y_kind y_content]. split.
  - intros (-> & ? & ?). exists document. split; [done|]. by exists value, content.
  - intros (? & [= <-] & value' & content' & E' & ? & ?). rewrite E in E'. injection E' as -> -> ->. done.
Qed.

(** ** The deployment *)
Section Deployment.
Context (file : string → string + (string + yaml_node)) (cwd : string + string).
(** [os.Getwd] returns a rooted path. *)
Hypothesis cwd_rooted : ∀ wd, cwd = inr wd → IsAbs wd = true.

(** The keys of a Go map are distinct. *)
Record go_maps (model : composeModel) : Prop := {
  distinct_services : NoDup (CM_Services model).*1;
  distinct_networks : NoDup (CM_Networks model).*1;
  distinct_attachments : Forall (λ s, NoDup (CS_Networks s).*1) (CM_Services model).*2
}.
(** The same services, in the same containers, on the same networks at the same
    addresses; the same networks; and nothing unsafe. *)
Record deployment_ok (m : Manifest) (mode root : string) (model : composeModel) : Prop := {
  dep_mode : mode = ModeSource ∨ mode = ModeRelease;
  dep_raw : ∃ document, file (path_join [Dir root (Package m); ComposeFile mode]) = inr (inr document) ∧ raw_ok RangeProject document;
  dep_project : ProjectName model = RangeProject;
  dep_services : (CM_Services model).*1 ≡ₚ S_Key <$> Services m;
  dep_attached : ∀ sv, sv ∈ Services m → ∃ actual, (S_Key sv, actual) ∈ CM_Services model ∧
    ContainerName actual = Container sv ∧ attached actual ≡ₚ wanted sv;
  dep_networks : (CM_Networks model).*1 ≡ₚ N_Key <$> Networks m;
  dep_created : ∀ n, n ∈ Networks m → network_agrees model n;
  dep_safe : ∃ r, Abs cwd root = Ok r ∧ model_safe r model
}.

Lemma by_key_each {A B} (f : A → string) (check : string * A → M unit) (P : A → Prop) (l : list A) (have : list (string * B)) :
  NoDup (f <$> l) → (∀ x, check (f x, x) = Ok tt ↔ P x) → (∀ x, P x → is_Some (entry (f x) have)) →
  length have = size (by_key f l) ∧ each check (map_to_list (by_key f l)) = Ok tt ↔ have.*1 ≡ₚ f <$> l ∧ ∀ x, x ∈ l → P x.
Proof.
  intros Hn Hc Hp. destruct (by_key_spec f l Hn) as [Hs Hm]. rewrite Hs, each_all_ok, Forall_forall, <- (perm_iff _ _ Hn), !length_fmap.
  assert ((∀ kx, kx ∈ map_to_list (by_key f l) → check kx = Ok tt) ↔ ∀ x, x ∈ l → P x) as ->.
  { split.
    - intros H x Hx. apply Hc, H, elem_of_map_to_list, Hm. done.
    - intros H [k x] Hk. apply elem_of_map_to_list, Hm in Hk as [Hx <-]. by apply Hc, H. }
  split; [|naive_solver]. intros [Hl H]. split; [|done]. split; [done|].
  intros k Hk. apply list_elem_of_fmap in Hk as (x & -> & Hx). by apply entry_is_Some, Hp, H.
Qed.

Lemma service_agrees_exact m root model sv url_parse stat :
  manifest_valid url_parse stat m root → go_maps model → sv ∈ Services m →
  service_agrees model sv ↔
  ∃ actual, (S_Key sv, actual) ∈ CM_Services model ∧ ContainerName actual = Container sv ∧ attached actual ≡ₚ wanted sv.
Proof.
  intros Hv [Hs _ Ha] Hsv. unfold service_agrees. apply exist_proper. intros actual. rewrite entry_Some by done.
  pose proof (valid_services _ _ _ _ Hv) as Hok. rewrite Forall_forall in Hok. rewrite Forall_forall in Ha.
  split; intros (Hin & Hc & H); (split; [done|]; split; [done|]).
  all: apply (attachments_exact actual sv); [apply Ha, list_elem_of_fmap; by exists (S_Key sv, actual)|apply (Hok sv Hsv)|done].
Qed.

(** C19. Deployments agree with their manifest: for a valid manifest and the
    decoded Compose model, [CheckCompose] accepts exactly when the raw file is
    one mapping named for the range that uses none of the forbidden features at
    any depth, the model has the manifest's services in their containers with
    exactly the manifest's attachments and addresses, has the manifest's
    networks (platform ones external, range ones created with the manifest's
    subnet and gateway), publishes ports on the loopback address only, mounts no
    named volume and no Docker socket, and binds only absolute paths inside the
    installation root. *)
Theorem compose_exact url_parse stat (m : Manifest) (mode root : string) (model : composeModel) :
  Validate url_parse stat (Some m) root = [] → go_maps model →
  CheckCompose file cwd (Some m) mode root (Ok model) = Ok tt ↔ deployment_ok m mode root model.
Proof.
  intros Hv%validate_sound Hg. unfold CheckCompose, CheckRawCompose. cbn [bind].
  rewrite !then_ok, !fail_if_Ok, !negb_false_iff, andb_false_iff, !negb_false_iff, !String.eqb_eq, !Nat.eqb_eq, checkRawCompose_ok,
    checkComposeSafety_ok by done.
  assert (length (CM_Services model) = size (by_key S_Key (Services m)) ∧
    each (check_compose_service model) (map_to_list (by_key S_Key (Services m))) = Ok tt ↔
    (CM_Services model).*1 ≡ₚ S_Key <$> Services m ∧ ∀ sv, sv ∈ Services m → service_agrees model sv) as Hs.
  { apply by_key_each; [apply Hv|apply check_compose_service_ok|]. intros sv (a & H & _). by rewrite H. }
  assert (length (CM_Networks model) = size (by_key N_Key (Networks m)) ∧
    each (check_compose_network model) (map_to_list (by_key N_Key (Networks m))) = Ok tt ↔
    (CM_Networks model).*1 ≡ₚ N_Key <$> Networks m ∧ ∀ n, n ∈ Networks m → network_agrees model n) as Hn.
  { apply by_key_each; [apply Hv|apply check_compose_network_ok|]. intros n (a & H & _). by rewrite H. }
  split.
  - intros (? & ? & ? & H1 & H2 & H3 & H4 & ?). destruct (proj1 Hs (conj H1 H2)) as [? Hsv], (proj1 Hn (conj H3 H4)).
    split; try done. intros sv Hin. by apply (service_agrees_exact m root model sv url_parse stat); [| | |apply Hsv].
  - intros []. assert (∀ sv, sv ∈ Services m → service_agrees model sv) as Hsv.
    { intros sv Hin. apply (service_agrees_exact m root model sv url_parse stat); auto. }
    destruct (proj2 Hs (conj dep_services0 Hsv)), (proj2 Hn (conj dep_networks0 dep_created0)). done.
Qed.
End Deployment.

(** *** The small range, deployed *)
Definition small_model : composeModel :=
  mkModel RangeProject
    [("corp_ws", mkComposeService "rd-corp" [("desk_corp_net", mkAttachment "10.98.1.3" ""); ("corp", mkAttachment "10.10.0.10" "")]
        ["127.0.0.1"] [mkVolume "bind" "/opt/labs/../labs/home" "/home"]);
     ("fw", mkComposeService "rd-fw" [("mgmt", mkAttachment "10.99.0.2" "lan3"); ("corp", mkAttachment "10.10.0.2" "lan1")] [] [])]
    [("mgmt", mkComposeNetwork mgmt_name true false None);
     ("desk_corp_net", mkComposeNetwork "rangerdanger_desk_corp" true false None);
     ("corp", mkComposeNetwork "rangerdanger_corp" false false (Some [("10.10.0.0/24", "10.10.0.1")]))] [] [].
Definition small_raw (path : string) : string + (string + yaml_node) :=
  inr (inr (YNode DocumentNode "" [YNode MappingNode "" [YNode ScalarNode "name" []; YNode ScalarNode "rangerdanger" []]])).

Lemma compose_exact_witness :
  CheckCompose small_raw (inr "/opt") (Some small_range) "source" "labs" (Ok small_model) = Ok tt ∧
  deployment_ok small_raw (inr "/opt") small_range "source" "labs" small_model.
Proof.
  assert (Validate small_urls all_regular (Some small_range) "labs" = []) as Hv by (vm_compute; reflexivity).
  assert (CheckCompose small_raw (inr "/opt") (Some small_range) "source" "labs" (Ok small_model) = Ok tt) as Hc
    by (vm_compute; reflexivity).
  assert (go_maps small_model) as Hg.
  { split; [| |repeat apply Forall_cons_2; [| |apply Forall_nil_2]]; apply (bool_decide_unpack _); vm_compute; exact I. }
  assert (∀ wd, @inr string string "/opt" = inr wd → IsAbs wd = true) as Hw by (intros wd [= <-]; reflexivity).
  split; [exact Hc|]. exact (proj1 (compose_exact small_raw (inr "/opt") Hw small_urls all_regular small_range "source" "labs" small_model Hv Hg) Hc).
Defined.
