(* ===== verification/ManifestModes.v ===== *)
(** * The two modes of a package (backend/internal/manifest)

    [firstDifference] finds a difference exactly when two decoded models are not
    deeply equal, so that [checkCrossMode] accepts exactly the pairs of models
    that are equal without their mode-specific fields. *)
From S2P Require Import Prelude GoLib GoText NetIP Policy PolicyCorrect Manifest ManifestCompose ManifestCorrect ManifestComposeCorrect.
From stdpp Require Import pretty.

#[local] Open Scope string_scope.
#[local] Open Scope list_scope.
#[local] Open Scope Z_scope.

(** A value decoded into Go maps: the keys of each are distinct. *)
#[warnings="-register-all"]
Inductive go_value : json → Prop :=
| go_null : go_value JNull
| go_bool b : go_value (JBool b)
| go_num t : go_value (JNum t)
| go_str s : go_value (JStr s)
| go_arr l : Forall go_value l → go_value (JArr l)
| go_obj l : NoDup l.*1 → Forall (go_value ∘ snd) l → go_value (JObj l).

(** ** Deep equality *)
Lemma DeepEqual_arr l r : DeepEqual (JArr l) (JArr r) = true ↔ Forall2 (λ x y, DeepEqual x y = true) l r.
Proof.
  revert r. induction l as [|x l IH]; intros [|y r].
  - split; [constructor|done].
  - split; [done|by inversion 1].
  - split; [done|by inversion 1].
  - change (DeepEqual (JArr (x :: l)) (JArr (y :: r))) with (DeepEqual x y && DeepEqual (JArr l) (JArr r)).
    by rewrite andb_true_iff, IH, Forall2_cons.
Qed.
Lemma DeepEqual_obj l r :
  DeepEqual (JObj l) (JObj r) = true ↔
  length l = length r ∧ ∀ k x, (k, x) ∈ l → ∃ y, entry k r = Some y ∧ DeepEqual x y = true.
Proof.
  cbn [DeepEqual]. rewrite andb_true_iff, Nat.eqb_eq. apply and_iff_compat_l.
  induction l as [|[k x] l IH]; [split; [set_solver|done]|]. rewrite andb_true_iff, IH. setoid_rewrite elem_of_cons. split.
  - intros [H1 H2] k' x' [[= -> ->]|Hin]; [|by apply H2]. destruct (entry k r) as [y|]; [eauto|done].
  - intros H. split; [|eauto]. destruct (H k x) as (y & -> & ?); [by left|done].
Qed.
(** ... of two maps: each key is in both, with equal values, or in neither. *)
Lemma DeepEqual_maps l r :
  NoDup l.*1 → NoDup r.*1 →
  DeepEqual (JObj l) (JObj r) = true ↔
  ∀ k, k ∈ l.*1 ∨ k ∈ r.*1 → ∃ x y, entry k l = Some x ∧ entry k r = Some y ∧ DeepEqual x y = true.
Proof.
  intros Hl Hr. rewrite DeepEqual_obj. split.
  - intros [Hlen H] k Hk. assert (k ∈ l.*1) as Hkl.
    { destruct Hk as [?|Hk]; [done|]. revert k Hk. apply same_set; [done| |by rewrite !length_fmap].
      intros k Hk. apply list_elem_of_fmap in Hk as ([k' x] & E & Hin). cbn in E. subst k'. apply entry_is_Some. destruct (H k x Hin) as (y & -> & _). done. }
    apply list_elem_of_fmap in Hkl as ([k' x] & E & Hin). cbn in E. subst k'. destruct (H k x Hin) as (y & Hy & Heq).
    exists x, y. split; [by apply entry_Some|done].
  - intros H. split.
    + assert (l.*1 ≡ₚ r.*1) as Hp; [|by apply Permutation_length in Hp; rewrite !length_fmap in Hp].
      apply NoDup_Permutation; [done|done|]. intros k. rewrite <- !entry_is_Some. split.
      all: intros Hk; destruct (H k) as (x & y & Ex & Ey & _); [apply entry_is_Some in Hk; tauto|by rewrite ?Ex, ?Ey].
    + intros k x Hin. destruct (H k) as (x' & y & Hx & Hy & Heq); [left; apply list_elem_of_fmap; by exists (k, x)|].
      apply entry_Some in Hin; [|done]. exists y. split; [done|]. congruence.
Qed.

(** ** The first difference *)
Lemma child_path_nonempty path key : path ≠ "" ∨ key ≠ "" → child_path path key ≠ "".
Proof.
  unfold child_path. destruct (is_empty path) eqn:E.
  - apply is_empty_spec in E. naive_solver.
  - intros _. apply is_empty_false in E. by destruct path.
Qed.
Lemma index_path_nonempty path i : index_path path i ≠ "".
Proof. unfold index_path. by destruct path. Qed.
Lemma leaf_difference_nil left right path : leaf_difference left right path = "" ↔ DeepEqual left right = true.
Proof.
  unfold leaf_difference. destruct (DeepEqual left right); [done|]. destruct (is_empty path) eqn:E; [done|].
  apply is_empty_false in E. done.
Qed.

Lemma first_key_nil subs r path keys :
  (∀ k, k ∈ keys → child_path path k ≠ "") →
  first_key subs r path keys = "" ↔
  ∀ k, k ∈ keys → ∃ sub y, entry k subs = Some sub ∧ entry k r = Some y ∧ sub y (child_path path k) = "".
Proof.
  induction keys as [|k keys IH]; intros Hc; cbn [first_key]; [split; [set_solver|done]|].
  assert (child_path path k ≠ "") as Hk by (apply Hc; set_solver). specialize (IH (λ k' H, Hc k' (list_elem_of_further _ _ _ H))).
  setoid_rewrite elem_of_cons.
  destruct (entry k subs) as [sub|] eqn:Es, (entry k r) as [y|] eqn:Ey; try (split; [done|]; intros H; destruct (H k) as (? & ? & ? & ? & _); [by left|congruence]).
  destruct (is_empty _) eqn:E.
  - apply is_empty_spec in E. rewrite IH. split; [intros H k' [-> | ?]; eauto|]. intros H k' Hk'. apply H. by right.
  - apply is_empty_false in E. split; [done|]. intros H. destruct (H k) as (? & ? & ? & ? & ?); [by left|congruence].
Qed.
Lemma first_item_nil subs r path i :
  first_item subs r path i = "" ↔
  length subs = length r ∧
  ∀ j sub y, subs !! j = Some sub → r !! j = Some y → sub y (index_path path (i + Z.of_nat j)) = "".
Proof.
  revert r i. induction subs as [|sub subs IH]; intros [|y r] i; cbn [first_item].
  - split; [by split|done].
  - split; [by intros ?%index_path_nonempty|by intros [? _]].
  - split; [by intros ?%index_path_nonempty|by intros [? _]].
  - destruct (is_empty _) eqn:E.
    + apply is_empty_spec in E. rewrite IH. cbn [length]. split; intros [Hl H]; (split; [lia|]).
      * intros [|j] s' y' Hs Hy; cbn in Hs, Hy; [simplify_eq; by rewrite Z.add_0_r|].
        replace (i + Z.of_nat (S j)) with (i + 1 + Z.of_nat j) by lia. by apply H.
      * intros j s' y' Hs Hy. replace (i + 1 + Z.of_nat j) with (i + Z.of_nat (S j)) by lia. by apply (H (S j)).
    + apply is_empty_false in E. split; [done|]. intros [_ H]. destruct E. specialize (H 0%nat sub y eq_refl eq_refl).
      by rewrite Z.add_0_r in H.
Qed.

Lemma firstDifference_obj l r path :
  firstDifference (JObj l) (JObj r) path =
  first_key ((λ kx, (kx.1, firstDifference kx.2)) <$> l) r path (both_keys l.*1 r.*1).
Proof.
  cbn [firstDifference]. f_equal. induction l as [|[k x] l IH]; [done|]. cbn. by rewrite IH.
Qed.
Lemma firstDifference_arr l r path :
  firstDifference (JArr l) (JArr r) path = first_item (firstDifference <$> l) r path 0.
Proof. reflexivity. Qed.
Lemma entry_fmap {A B} (f : A → B) k (l : list (string * A)) : entry k ((λ kx, (kx.1, f kx.2)) <$> l) = f <$> entry k l.
Proof.
  unfold entry. induction l as [|[k' x] l IH]; [done|]. cbn [fmap list_fmap List.find fst snd].
  destruct (k' =? k)%string; [done|]. exact IH.
Qed.
Lemma both_keys_spec k l r : k ∈ both_keys l r ↔ k ∈ l ∨ k ∈ r.
Proof.
  unfold both_keys, sort_strings. rewrite sorting.merge_sort_Permutation, elem_of_app.
  rewrite (list_elem_of_In (List.filter _ _)), filter_In, <- list_elem_of_In, negb_true_iff, bool_decide_eq_false.
  destruct (decide (k ∈ l)); tauto.
Qed.

(** At the top of a document, where the path is empty, no key is empty. *)
Definition top_ok (path : string) (v : json) : Prop :=
  path ≠ "" ∨ match v with JObj l => "" ∉ l.*1 | _ => True end.
Lemma firstDifference_nil left right path :
  go_value left → go_value right → top_ok path left → top_ok path right →
  firstDifference left right path = "" ↔ DeepEqual left right = true.
Proof.
  revert right path. induction left as [|b|t|s|l IH|l IH] using json_induction; intros right path Hl Hr Htl Htr;
    try apply leaf_difference_nil.
  - destruct right as [| | | |r|]; try apply leaf_difference_nil.
    rewrite firstDifference_arr, first_item_nil, DeepEqual_arr, length_fmap. setoid_rewrite list_lookup_fmap.
    inversion Hl as [| | | |? Hl'|]; subst. inversion Hr as [| | | |? Hr'|]; subst. rewrite Forall_forall in IH.
    rewrite Forall_forall in Hl'. rewrite Forall_forall in Hr'. rewrite Forall2_same_length_lookup.
    apply and_iff_compat_l. split.
    + intros H j x y Hx Hy. specialize (H j (firstDifference x) y). rewrite Hx in H.
      rewrite <- (IH x (list_elem_of_lookup_2 _ _ _ Hx) y (index_path path (0 + Z.of_nat j))); [by apply H| | |left|left];
        eauto using list_elem_of_lookup_2, index_path_nonempty.
    + intros H j sub y Hs Hy. destruct (l !! j) as [x|] eqn:Hx; [|done]. injection Hs as <-.
      apply (IH x (list_elem_of_lookup_2 _ _ _ Hx)); [| |left|left|by eapply H];
        eauto using list_elem_of_lookup_2, index_path_nonempty.
  - destruct right as [| | | | |r]; try apply leaf_difference_nil.
    inversion Hl as [| | | | |? Hnl Hl']; subst. inversion Hr as [| | | | |? Hnr Hr']; subst.
    rewrite Forall_forall in IH. rewrite Forall_forall in Hl'. rewrite Forall_forall in Hr'.
    assert (∀ k, k ∈ both_keys l.*1 r.*1 → child_path path k ≠ "") as Hc.
    { intros k Hk. apply both_keys_spec in Hk. apply child_path_nonempty. unfold top_ok in Htl, Htr.
      destruct (decide (k = "")) as [->|]; [|by right]. left. tauto. }
    rewrite firstDifference_obj, first_key_nil by done. rewrite DeepEqual_maps by done. setoid_rewrite entry_fmap.
    split.
    + intros H k Hk. pose proof (proj2 (both_keys_spec k _ _) Hk) as Hkb. destruct (H k Hkb) as (sub & y & Hs & Hy & Hd).
      destruct (entry k l) as [x|] eqn:Hx; [|done]. injection Hs as <-. exists x, y. split; [done|]. split; [done|].
      apply entry_In in Hx, Hy. apply (IH _ Hx y (child_path path k)); [apply (Hl' _ Hx)|apply (Hr' _ Hy)|left|left|done]; by apply Hc.
    + intros H k Hk. pose proof (proj1 (both_keys_spec k _ _) Hk) as Hk'. destruct (H k Hk') as (x & y & Hx & Hy & Hd).
      exists (firstDifference x), y. rewrite Hx. split; [done|]. split; [done|]. apply entry_In in Hx, Hy.
      apply (IH _ Hx y (child_path path k)); [apply (Hl' _ Hx)|apply (Hr' _ Hy)|left|left|done]; by apply Hc.
Qed.

(** ** Models without their mode-specific fields *)
Definition same_value (a b : option json) : Prop :=
  match a, b with
  | Some x, Some y => DeepEqual x y = true
  | None, None => True
  | _, _ => False
  end.
Definition mode_fields : list string := ["image"; "build"; "pull_policy"].
(** Two services are equal in every other field. *)
Definition same_service (a b : option json) : Prop :=
  match a, b with
  | Some (JObj x), Some (JObj y) => ∀ field, field ∉ mode_fields → same_value (entry field x) (entry field y)
  | _, _ => same_value a b
  end.
Definition same_services (a b : option json) : Prop :=
  match a, b with
  | Some (JObj x), Some (JObj y) => ∀ name, same_service (entry name x) (entry name y)
  | _, _ => same_value a b
  end.
Definition same_model (l r : list (string * json)) : Prop :=
  same_services (entry "services" l) (entry "services" r) ∧
  ∀ k, k ≠ "services" → same_value (entry k l) (entry k r).

Lemma DeepEqual_entries l r :
  NoDup l.*1 → NoDup r.*1 → DeepEqual (JObj l) (JObj r) = true ↔ ∀ k, same_value (entry k l) (entry k r).
Proof.
  intros Hl Hr. rewrite DeepEqual_maps by done. split; intros H k.
  - destruct (entry k l) as [x|] eqn:El, (entry k r) as [y|] eqn:Er; cbn; try done.
    all: destruct (H k) as (? & ? & ? & ? & ?);
      [|congruence]; first [left; apply entry_is_Some; by rewrite El|right; apply entry_is_Some; by rewrite Er].
  - rewrite <- !entry_is_Some. specialize (H k). destruct (entry k l) as [x|], (entry k r) as [y|]; cbn in H; try done; [eauto|].
    by intros [[? ?]|[? ?]].
Qed.
Lemma same_on_map f a b :
  same_value (on_map f <$> a) (on_map f <$> b) ↔
  match a, b with Some (JObj x), Some (JObj y) => DeepEqual (JObj (f x)) (JObj (f y)) = true | _, _ => same_value a b end.
Proof. by destruct a as [[]|], b as [[]|]. Qed.

Lemma entry_del k key l : entry k (del key l) = if (k =? key)%string then None else entry k l.
Proof.
  unfold entry, del. induction l as [|[k' x] l IH]; [by destruct (k =? key)%string|]. cbn [List.filter List.find fst].
  destruct (String.eqb_spec k' key) as [->|Hne]; cbn [negb List.find fst].
  - rewrite IH. destruct (String.eqb_spec k key) as [->|Hk]; [done|]. destruct (String.eqb_spec key k) as [->|]; done.
  - destruct (String.eqb_spec k' k) as [->|Hk]; [|exact IH]. by destruct (String.eqb_spec k key).
Qed.
Lemma entry_strip k l : entry k (strip_service l) = if decide (k ∈ mode_fields) then None else entry k l.
Proof.
  unfold strip_service, mode_fields. rewrite !entry_del.
  destruct (String.eqb_spec k "pull_policy"), (String.eqb_spec k "build"), (String.eqb_spec k "image"), (decide (k ∈ _)) as [Hi|Hi];
    try done; set_solver.
Qed.
Lemma entry_at_key k key f l : entry k (at_key key f l) = (λ v, if (k =? key)%string then f v else v) <$> entry k l.
Proof.
  unfold entry, at_key. induction l as [|[k' x] l IH]; [done|]. cbn [fmap list_fmap List.find fst].
  destruct (String.eqb_spec k' k) as [->|]; [done|]. exact IH.
Qed.
Lemma del_keys key l : NoDup l.*1 → NoDup (del key l).*1.
Proof.
  unfold del. induction l as [|[k x] l IH]; [done|]. cbn [fmap list_fmap fst List.filter]. rewrite NoDup_cons. intros [Hk Hl].
  destruct (negb _); [|by apply IH]. cbn [fmap list_fmap fst]. constructor; [|by apply IH].
  intros H. apply Hk. apply list_elem_of_fmap in H as (y & -> & Hy). apply list_elem_of_fmap. exists y. split; [done|].
  by apply list_elem_of_In, filter_In in Hy as [?%list_elem_of_In _].
Qed.
Lemma strip_service_keys l : NoDup l.*1 → NoDup (strip_service l).*1.
Proof. intros H. by repeat apply del_keys. Qed.
Lemma fmap_keys (f : string * json → json) (l : list (string * json)) : ((λ kv, (kv.1, f kv)) <$> l).*1 = l.*1.
Proof. induction l as [|x l IH]; [done|]. cbn. by rewrite IH. Qed.

(** The distinct keys of an object inside a decoded value. *)
Lemma go_entry l k x : go_value (JObj l) → entry k l = Some (JObj x) → NoDup x.*1 ∧ go_value (JObj x).
Proof.
  intros H E. inversion H as [| | | | |? _ Hl]; subst. rewrite Forall_forall in Hl. apply entry_In, Hl in E. cbn in E.
  inversion E; subst. done.
Qed.

Lemma strip_modes_equal l r :
  go_value (JObj l) → go_value (JObj r) →
  DeepEqual (JObj (strip_modes false l)) (JObj (strip_modes false r)) = true ↔ same_model l r.
Proof.
  intros Hl Hr. inversion Hl as [| | | | |? Hnl _]; subst. inversion Hr as [| | | | |? Hnr _]; subst.
  unfold strip_modes at 1 2. unfold at_key. rewrite DeepEqual_entries by by rewrite fmap_keys. setoid_rewrite entry_at_key.
  assert (same_value (on_map (strip_services false) <$> entry "services" l) (on_map (strip_services false) <$> entry "services" r) ↔
    same_services (entry "services" l) (entry "services" r)) as Hs.
  { rewrite same_on_map. unfold same_services.
    destruct (entry "services" l) as [[| | | | |x]|] eqn:El; try done. destruct (entry "services" r) as [[| | | | |y]|] eqn:Er; try done.
    destruct (go_entry _ _ _ Hl El) as [Hx Hgx], (go_entry _ _ _ Hr Er) as [Hy Hgy].
    unfold strip_services. rewrite DeepEqual_entries by by rewrite fmap_keys.
    setoid_rewrite (entry_fmap (on_map strip_service)). setoid_rewrite same_on_map. apply forall_proper. intros name.
    unfold same_service. destruct (entry name x) as [[| | | | |a]|] eqn:Ea; try done.
    destruct (entry name y) as [[| | | | |b]|] eqn:Eb; try done.
    destruct (go_entry _ _ _ Hgx Ea) as [Ha _], (go_entry _ _ _ Hgy Eb) as [Hb _].
    rewrite DeepEqual_entries by by apply strip_service_keys. setoid_rewrite entry_strip. apply forall_proper. intros field.
    destruct (decide (field ∈ mode_fields)); [split; [done|by intros]|]. split; [by intros|]. intros H. by apply H. }
  unfold same_model. rewrite <- Hs. split.
  - intros H. split; [apply (H "services")|]. intros k Hk. specialize (H k). apply String.eqb_neq in Hk. rewrite Hk in H.
    by rewrite !option_fmap_id in H.
  - intros [H1 H2] k. destruct (String.eqb_spec k "services") as [->|Hk]; [done|]. rewrite !option_fmap_id. by apply H2.
Qed.

Section CrossModeCorrect.
Context {doc : Type}.
Context (unmarshal_model : doc → string + composeModel) (decode_any : doc → string + option (list (string * json))).

Lemma decodes data model l :
  unmarshal_model data = inr model → decode_any data = inr (Some l) →
  (∃ model', decodeCompose unmarshal_model decode_any data = Ok model') ∧ decodeJSONMap decode_any data = Ok l.
Proof. intros H1 H2. unfold decodeCompose, decodeJSONMap. rewrite H1, H2. eauto. Qed.

(** The modes of a package differ only in how images are obtained: for two
    models that decode, with distinct keys and no empty key at the top,
    [CheckCrossMode] accepts exactly when the models are deeply equal outside
    their services and, for each service of either model, the other has it too
    and agrees in every field but image, build and pull_policy. *)
Theorem cross_mode_exact (source release : doc) modelS modelR l r :
  unmarshal_model source = inr modelS → unmarshal_model release = inr modelR →
  decode_any source = inr (Some l) → decode_any release = inr (Some r) →
  go_value (JObj l) → go_value (JObj r) → "" ∉ l.*1 → "" ∉ r.*1 →
  CheckCrossMode unmarshal_model decode_any source release = Ok tt ↔ same_model l r.
Proof.
  intros Hs Hr Hl Hrr Gl Gr El Er. unfold CheckCrossMode, checkCrossMode.
  destruct (decodes source _ _ Hs Hl) as [[? ->] ->]. destruct (decodes release _ _ Hr Hrr) as [[? ->] ->]. cbn [bind].
  rewrite fail_if_Ok, negb_false_iff, is_empty_spec, <- strip_modes_equal by done.
  assert (∀ l, go_value (JObj l) → go_value (JObj (strip_modes false l))) as Hgo; [|apply firstDifference_nil; auto;
    right; unfold strip_modes, at_key; by rewrite fmap_keys].
  clear. intros l H. inversion H as [| | | | |? Hn Hf]; subst. constructor; [unfold strip_modes, at_key; by rewrite fmap_keys|].
  unfold strip_modes, at_key. apply Forall_fmap. eapply Forall_impl; [exact Hf|]. intros [k v] Hv. cbn in *.
  destruct (k =? "services")%string; [|done]. destruct v as [| | | | |s]; try done. cbn. inversion Hv as [| | | | |? Hns Hfs]; subst.
  constructor; [by rewrite fmap_keys|]. apply Forall_fmap. eapply Forall_impl; [exact Hfs|]. intros [k' v'] Hv'. cbn in *.
  destruct v' as [| | | | |x]; try done. cbn. inversion Hv' as [| | | | |? Hnx Hfx]; subst.
  constructor; [by apply strip_service_keys|]. unfold strip_service, del. rewrite !Forall_forall in *. intros y.
  rewrite !list_elem_of_In, !filter_In, <- !list_elem_of_In. intros [[[Hy _] _] _]. by apply Hfx.
Qed.
End CrossModeCorrect.

(** A source and a release model of one service. *)
Definition mode_model (image : list (string * json)) : list (string * json) :=
  [("name", JStr "rangerdanger"); ("services", JObj [("fw", JObj (("container_name", JStr "rd-fw") :: image))])].
Definition mode_docs (source : bool) : list (string * json) :=
  mode_model (if source then [("build", JStr ".")] else [("image", JStr "ghcr.io/fw"); ("pull_policy", JStr "always")]).
Definition any_model (d : bool) : string + composeModel := inr (mkModel RangeProject [] [] [] []).

Lemma cross_mode_exact_witness :
  CheckCrossMode any_model (λ d, inr (Some (mode_docs d))) true false = Ok tt ∧ same_model (mode_docs true) (mode_docs false).
Proof.
  assert (CheckCrossMode any_model (λ d, inr (Some (mode_docs d))) true false = Ok tt) as H by (vm_compute; reflexivity).
  split; [exact H|].
  apply (cross_mode_exact any_model (λ d, inr (Some (mode_docs d))) true false _ _ (mode_docs true) (mode_docs false)
    eq_refl eq_refl eq_refl eq_refl); [| | | |exact H].
  - repeat constructor; apply (bool_decide_unpack _); vm_compute; exact I.
  - repeat constructor; apply (bool_decide_unpack _); vm_compute; exact I.
  - apply (bool_decide_unpack _); vm_compute; exact I.
  - apply (bool_decide_unpack _); vm_compute; exact I.
Defined.

(** An empty key at the top ends the comparison without a difference. *)
Example empty_key_hides_difference :
  firstDifference (JObj [("", JNull); ("services", JNull)]) (JObj [("services", JStr "other")]) "" = "".
Proof. vm_compute. reflexivity. Qed.
