(* ===== verification/ManifestTopology.v ===== *)
(** * Manifests and the topology (backend/internal/manifest)

    What [CheckTopology] and [CheckFirewallInterfaces] accept: the services of a
    valid manifest that are nodes of the topology, the zones it teaches, and the
    names of the firewall's interfaces. *)
From S2P Require Import Prelude GoLib GoText NetIP Policy Manifest ManifestCompose ManifestCorrect ManifestComposeCorrect.
From stdpp Require Import pretty.

#[local] Open Scope string_scope.
#[local] Open Scope list_scope.
#[local] Open Scope Z_scope.

(** ** Loops that return the first error and thread a state *)
Lemma run_ok {S A} (f : S → A → M S) (inv : list A → S → Prop) (ok : list A → A → Prop) :
  (∀ l1 s x, inv l1 s → (∀ s', f s x = Ok s' → ok l1 x ∧ inv (l1 ++ [x]) s') ∧ (ok l1 x → ∃ s', f s x = Ok s')) →
  ∀ l l1 s, inv l1 s →
    (∀ s', run f s l = Ok s' → along ok l1 l ∧ inv (l1 ++ l) s') ∧ (along ok l1 l → ∃ s', run f s l = Ok s').
Proof.
  intros Hf l. induction l as [|x l IH]; intros l1 s Hinv; cbn.
  - rewrite app_nil_r. split; [by intros s' [= <-]|by exists s].
  - destruct (Hf l1 s x Hinv) as [H1 H2]. split.
    + intros s' H. apply bind_Ok in H as (s1 & E1 & H). destruct (H1 s1 E1) as [Hok Hi].
      destruct (IH (l1 ++ [x]) s1 Hi) as [H3 _]. destruct (H3 s' H) as [Ha Hi']. by rewrite <- app_assoc in Hi'.
    + intros [Hok Ha]. destruct (H2 Hok) as [s1 E1]. rewrite E1. cbn. destruct (H1 s1 E1) as [_ Hi].
      by apply (IH (l1 ++ [x]) s1 Hi).
Qed.

(** ** The nodes and the zones of the topology *)
Definition container_list (n : NodeYAML) : list string := if is_empty (Nd_Container n) then [] else [Nd_Container n].
Definition zone_list (n : NetworkYAML) : list string := if is_empty (Nw_Zone n) then [] else [Nw_ID n].

Record node_inv (l : list NodeYAML) (s : gmap string NodeYAML * gmap string NodeYAML) : Prop := {
  inv_node : ∀ k n, s.1 !! k = Some n ↔ n ∈ l ∧ Nd_ID n = k;
  inv_container : ∀ k n, s.2 !! k = Some n ↔ n ∈ l ∧ Nd_Container n = k ∧ k ≠ ""
}.
Lemma container_fresh l (c : gmap string NodeYAML) n :
  (∀ k n, c !! k = Some n ↔ n ∈ l ∧ Nd_Container n = k ∧ k ≠ "") →
  (is_empty (Nd_Container n) = true ∨ c !! Nd_Container n = None) ↔
  NoDup (container_list n) ∧ ∀ a, a ∈ container_list n → a ∉ concat (container_list <$> l).
Proof.
  intros Hc. unfold container_list at 1 2. destruct (is_empty (Nd_Container n)) eqn:E.
  - split; [|by left]. intros _. split; [constructor|set_solver].
  - apply is_empty_false in E. setoid_rewrite list_elem_of_singleton.
    assert (c !! Nd_Container n = None ↔ Nd_Container n ∉ concat (container_list <$> l)) as H.
    { rewrite eq_None_not_Some. apply not_iff_compat. rewrite list_elem_of_In, in_concat. setoid_rewrite <- list_elem_of_In. split.
      - intros [n' (Hn & Ec & _)%Hc]. exists (container_list n'). split; [apply list_elem_of_fmap; eauto|].
        unfold container_list. rewrite Ec. apply is_empty_false in E. rewrite E. set_solver.
      - intros (x & Hx & Hin). apply list_elem_of_fmap in Hx as (n' & -> & Hn). exists n'. apply Hc. split; [done|].
        split; [|done]. unfold container_list in Hin. destruct (is_empty _); set_solver. }
    rewrite H. split; [intros [?|?]; [done|]; split; [apply NoDup_singleton|naive_solver]|naive_solver].
Qed.
Definition node_step (l : list NodeYAML) (n : NodeYAML) : Prop :=
  Nd_ID n ∉ Nd_ID <$> l ∧ NoDup (container_list n) ∧ ∀ a, a ∈ container_list n → a ∉ concat (container_list <$> l).

Lemma add_node_ok l s n :
  node_inv l s → (∀ s', add_node s n = Ok s' → node_step l n ∧ node_inv (l ++ [n]) s') ∧ (node_step l n → ∃ s', add_node s n = Ok s').
Proof.
  intros [Hn Hc]. unfold add_node.
  assert (Nd_ID n ∉ Nd_ID <$> l ↔ bool_decide (is_Some (s.1 !! Nd_ID n)) = false) as Hk.
  { rewrite bool_decide_eq_false. apply not_iff_compat. rewrite list_elem_of_fmap. unfold is_Some. setoid_rewrite Hn. naive_solver. }
  assert (node_step l n ↔ bool_decide (is_Some (s.1 !! Nd_ID n)) = false ∧
    (is_empty (Nd_Container n) = true ∨ s.2 !! Nd_Container n = None)) as Hst
    by (unfold node_step; by rewrite <- (container_fresh l s.2 n Hc), Hk).
  destruct (bool_decide (is_Some (s.1 !! Nd_ID n))) eqn:Eb; cbn [fail_if bind]; [naive_solver|].
  assert (∀ k n', <[Nd_ID n := n]> s.1 !! k = Some n' ↔ n' ∈ l ++ [n] ∧ Nd_ID n' = k) as Hn'.
  { intros k n'. rewrite lookup_insert_Some, Hn, elem_of_app, list_elem_of_singleton. split; [naive_solver|].
    intros [[Hin | ->] <-]; [right|by left]. split; [|done]. intros E. apply (proj2 Hk eq_refl). rewrite E.
    apply list_elem_of_fmap. eauto. }
  destruct (is_empty (Nd_Container n)) eqn:E; [split; [|eauto]; intros s' [= <-]; (split; [apply Hst; split; [done|by left]|])|].
  - apply is_empty_spec in E. split; [exact Hn'|]. intros k n'. cbn. rewrite Hc, elem_of_app, list_elem_of_singleton. naive_solver.
  - apply is_empty_false in E. destruct (s.2 !! Nd_Container n) as [p|] eqn:Ec; [naive_solver|].
    split; [|eauto]. intros s' [= <-]. split; [apply Hst; split; [done|by right]|]. split; [exact Hn'|]. intros k n'. cbn.
    rewrite lookup_insert_Some, Hc, elem_of_app, list_elem_of_singleton. split; [naive_solver|].
    intros ([Hin | ->] & <- & Hk'); [right|by left]. split; [|done]. intros Eq.
    assert (s.2 !! Nd_Container n = Some n') by (apply Hc; by rewrite Eq). congruence.
Qed.
Lemma topology_nodes l :
  (∀ s, run add_node (∅, ∅) l = Ok s → (NoDup (Nd_ID <$> l) ∧ NoDup (concat (container_list <$> l))) ∧ node_inv l s) ∧
  (NoDup (Nd_ID <$> l) → NoDup (concat (container_list <$> l)) → ∃ s, run add_node (∅, ∅) l = Ok s).
Proof.
  destruct (run_ok add_node node_inv node_step add_node_ok l [] (∅, ∅)) as [H1 H2].
  { split; intros k n; cbn; rewrite lookup_empty; set_solver. }
  assert (along node_step [] l ↔ NoDup (Nd_ID <$> l) ∧ NoDup (concat (container_list <$> l))) as Ha.
  { unfold node_step. rewrite along_and, along_distinct. by rewrite (along_fresh container_list [] l) by constructor. }
  split; [intros s Hs; destruct (H1 s Hs); by rewrite <- Ha|]. intros ? ?. apply H2, Ha. done.
Qed.

Definition zone_step (l : list NetworkYAML) (n : NetworkYAML) : Prop :=
  (Nw_Zone n ≠ "" → Nw_ID n ≠ "") ∧ NoDup (zone_list n) ∧ ∀ a, a ∈ zone_list n → a ∉ concat (zone_list <$> l).
Lemma topology_zones l :
  (∀ s, run add_zone ∅ l = Ok s → Forall (λ n, Nw_Zone n ≠ "" → Nw_ID n ≠ "") l ∧ NoDup (concat (zone_list <$> l)) ∧
    ∀ z, z ∈ s ↔ z ∈ concat (zone_list <$> l)) ∧
  (Forall (λ n, Nw_Zone n ≠ "" → Nw_ID n ≠ "") l → NoDup (concat (zone_list <$> l)) → ∃ s, run add_zone ∅ l = Ok s).
Proof.
  destruct (run_ok add_zone (λ l s, ∀ z, z ∈ s ↔ z ∈ concat (zone_list <$> l)) zone_step) with l (@nil NetworkYAML) (∅ : gset string)
    as [H1 H2]; [|set_solver|].
  - intros l1 s n Hs. unfold add_zone, zone_step.
    assert (∀ z, z ∈ concat (zone_list <$> l1 ++ [n]) ↔ z ∈ s ∨ z ∈ zone_list n) as Hsn.
    { intros z. rewrite fmap_app, concat_app, elem_of_app, <- Hs. cbn [fmap list_fmap concat]. by rewrite app_nil_r. }
    setoid_rewrite Hsn. setoid_rewrite <- Hs. clear Hs Hsn. unfold zone_list. destruct (is_empty (Nw_Zone n)) eqn:E.
    + apply is_empty_spec in E. split; [|eauto]. intros s' [= <-]. split; [|set_solver].
      split; [done|]. split; [constructor|set_solver].
    + apply is_empty_false in E. destruct (is_empty (Nw_ID n)) eqn:Ei; cbn [fail_if bind]; [apply is_empty_spec in Ei; naive_solver|].
      apply is_empty_false in Ei. case_bool_decide as Hz; cbn [fail_if bind].
      * split; [done|]. intros (_ & _ & H). destruct (H (Nw_ID n)); [set_solver|done].
      * split; [|eauto]. intros s' [= <-]. split; [|set_solver]. split; [done|]. split; [apply NoDup_singleton|set_solver].
  - assert (along zone_step [] l ↔ Forall (λ n, Nw_Zone n ≠ "" → Nw_ID n ≠ "") l ∧ NoDup (concat (zone_list <$> l))) as Ha.
    { unfold zone_step. rewrite along_and, along_forall. by rewrite (along_fresh zone_list [] l) by constructor. }
    split; [intros s Hs; destruct (H1 s Hs) as [?%Ha ?]; naive_solver|]. intros ? ?. by apply H2, Ha.
Qed.
Lemma manifest_zones zones l :
  (∀ s, run (add_manifest_zone zones) ∅ l = Ok s → Forall (λ n, N_Zone n ≠ "" → N_Zone n ∈ zones) l ∧
    ∀ z, z ∈ s ↔ z ≠ "" ∧ z ∈ N_Zone <$> l) ∧
  (Forall (λ n, N_Zone n ≠ "" → N_Zone n ∈ zones) l → ∃ s, run (add_manifest_zone zones) ∅ l = Ok s).
Proof.
  destruct (run_ok (add_manifest_zone zones) (λ l s, ∀ z, z ∈ s ↔ z ≠ "" ∧ z ∈ N_Zone <$> l)
    (λ _ n, N_Zone n ≠ "" → N_Zone n ∈ zones)) with l (@nil Network) (∅ : gset string) as [H1 H2]; [|set_solver|].
  - intros l1 s n Hs. unfold add_manifest_zone. setoid_rewrite fmap_app. setoid_rewrite elem_of_app.
    destruct (is_empty (N_Zone n)) eqn:E.
    + apply is_empty_spec in E. split; [|eauto]. intros s' [= <-]. set_solver.
    + apply is_empty_false in E. case_bool_decide; cbn; [|naive_solver]. split; [|eauto]. intros s' [= <-]. set_solver.
  - setoid_rewrite along_forall in H1. rewrite along_forall in H2. done.
Qed.

(** ** The topology of a package *)
Record topology_ok (m : Manifest) (pkg : curriculum) : Prop := {
  top_package : Package m = C_ID pkg;
  top_template : Template_ID pkg ≠ "";
  top_ids : NoDup (Nd_ID <$> T_Nodes pkg);
  top_containers : NoDup (concat (container_list <$> T_Nodes pkg));
  (** A service that is a node is one of the topology's, in the same container. *)
  top_nodes : ∀ sv, sv ∈ Services m → Node sv ≠ "" →
    ∃ n, n ∈ T_Nodes pkg ∧ Nd_ID n = Node sv ∧ (Nd_Container n = "" ∨ Nd_Container n = Container sv);
  (** A node with a container is a service. *)
  top_services : ∀ n, n ∈ T_Nodes pkg → Nd_Container n ≠ "" →
    ∃ sv, sv ∈ Services m ∧ Container sv = Nd_Container n ∧ Node sv = Nd_ID n;
  top_zone_ids : Forall (λ n, Nw_Zone n ≠ "" → Nw_ID n ≠ "") (T_Networks pkg);
  top_zones : NoDup (concat (zone_list <$> T_Networks pkg));
  (** The zones that the manifest's networks teach are those of the topology. *)
  top_taught : ∀ z, z ∈ concat (zone_list <$> T_Networks pkg) ↔ z ≠ "" ∧ z ∈ N_Zone <$> Networks m
}.

Lemma check_node_ok (nodes : gmap string NodeYAML) (l : list NodeYAML) sv :
  (∀ k n, nodes !! k = Some n ↔ n ∈ l ∧ Nd_ID n = k) →
  check_node nodes sv = Ok tt ↔
  (Node sv ≠ "" → ∃ n, n ∈ l ∧ Nd_ID n = Node sv ∧ (Nd_Container n = "" ∨ Nd_Container n = Container sv)).
Proof.
  intros Hn. unfold check_node. destruct (is_empty (Node sv)) eqn:E; [apply is_empty_spec in E; naive_solver|apply is_empty_false in E].
  destruct (nodes !! Node sv) as [n|] eqn:En.
  - rewrite fail_if_Ok, andb_false_iff, !negb_false_iff, is_empty_spec, String.eqb_eq. pose proof (proj1 (Hn _ _) En) as [? ?]. split; [eauto|].
    clear - Hn En E. intros H. destruct (H E) as (n' & Hin & Eid & H'). assert (nodes !! Node sv = Some n') by by apply Hn. simplify_eq. done.
  - split; [done|]. intros H. destruct (H E) as (n & Hin & Eid & _). assert (nodes !! Node sv = Some n) by by apply Hn. congruence.
Qed.
Lemma check_containers_ok (containers : gmap string NodeYAML) (l : list NodeYAML) services :
  NoDup (Container <$> services) →
  (∀ k n, containers !! k = Some n ↔ n ∈ l ∧ Nd_Container n = k ∧ k ≠ "") →
  each (check_container (by_key Container services)) (map_to_list containers) = Ok tt ↔
  ∀ n, n ∈ l → Nd_Container n ≠ "" → ∃ sv, sv ∈ services ∧ Container sv = Nd_Container n ∧ Node sv = Nd_ID n.
Proof.
  intros Hs Hc. destruct (by_key_spec Container services Hs) as [_ Hm]. rewrite each_all_ok, Forall_forall. unfold check_container. split.
  - intros H n Hin Hne. specialize (H (Nd_Container n, n)). cbn in H.
    rewrite elem_of_map_to_list, Hc in H. specialize (H (conj Hin (conj eq_refl Hne))).
    destruct (by_key Container services !! Nd_Container n) as [sv|] eqn:E; [|done]. apply Hm in E as [? ?].
    rewrite fail_if_Ok, negb_false_iff, String.eqb_eq in H. eauto.
  - intros H [k n] Hin. apply elem_of_map_to_list, Hc in Hin as (Hin & <- & Hne). cbn.
    destruct (H n Hin Hne) as (sv & Hsv & Ec & En). rewrite (proj2 (Hm (Nd_Container n) sv)) by done.
    by rewrite fail_if_Ok, negb_false_iff, String.eqb_eq.
Qed.
Lemma missing_nil (zones taught : gset string) :
  (length (List.filter (λ z, negb (bool_decide (z ∈ taught))) (elements zones)) =? 0)%nat = true ↔ zones ⊆ taught.
Proof.
  rewrite Nat.eqb_eq, length_zero_iff_nil. split.
  - intros H z Hz. destruct (decide (z ∈ taught)) as [|Hn]; [done|]. exfalso. apply (in_nil (a := z)). rewrite <- H.
    apply filter_In. rewrite <- list_elem_of_In, elem_of_elements, bool_decide_eq_false_2 by done. done.
  - intros H. destruct (List.filter _ _) as [|z l] eqn:E; [done|]. assert (In z (z :: l)) as Hz by by left.
    rewrite <- E in Hz. apply filter_In in Hz as [Hz%list_elem_of_In Hb]. apply elem_of_elements, H in Hz.
    by rewrite bool_decide_eq_true_2 in Hb.
Qed.

(** C40. The manifest and the topology describe the same range: for a valid
    manifest, [CheckTopology] accepts exactly when the package ids agree, the
    template has an id, the topology's node ids, containers and zones are
    unique, each network with a zone has an id, each service
    with a node is a topology node in the same container, each topology node
    with a container is the service of that container, and the zones of the
    manifest's networks are exactly the zones of the topology. *)
Theorem topology_exact url_parse stat (m : Manifest) (root : string) (pkg : curriculum) :
  Validate url_parse stat (Some m) root = [] → CheckTopology (Some m) pkg = Ok tt ↔ topology_ok m pkg.
Proof.
  intros Hv%validate_sound. unfold CheckTopology. rewrite !then_ok, !fail_if_Ok, negb_false_iff, String.eqb_eq, is_empty_false.
  destruct (topology_nodes (T_Nodes pkg)) as [Hn1 Hn2], (topology_zones (T_Networks pkg)) as [Hz1 Hz2].
  pose proof (valid_containers _ _ _ _ Hv) as Hvc. split.
  - intros (Hp & Ht & H). apply bind_Ok in H as (topo & Htopo & H). destruct (Hn1 topo Htopo) as [[? ?] [Hin Hic]].
    rewrite !then_ok, each_all_ok, (check_containers_ok _ _ _ Hvc Hic) in H. destruct H as (Hs & Hc & H).
    apply bind_Ok in H as (zones & Hzones & H). destruct (Hz1 zones Hzones) as (Hzi & Hzn & Hz).
    apply bind_Ok in H as (taught & Htaught & H). destruct (manifest_zones zones (Networks m)) as [Hm _].
    destruct (Hm taught Htaught) as [Hall Ht']. rewrite fail_if_Ok, negb_false_iff, missing_nil in H.
    split; try done.
    + rewrite Forall_forall in Hs. intros sv Hsv. by apply (check_node_ok topo.1 (T_Nodes pkg) sv Hin), Hs.
    + intros z. rewrite <- Hz. split; [by intros ?%H%Ht'|]. intros [Hne Hzz]. apply list_elem_of_fmap in Hzz as (n & -> & Hnn).
      rewrite Forall_forall in Hall. by apply Hall.
  - intros []. do 2 (split; [done|]). destruct (Hn2 top_ids0 top_containers0) as [topo Htopo]. destruct (Hn1 topo Htopo) as [_ [Hin Hic]].
    rewrite Htopo. cbn [bind]. rewrite !then_ok, each_all_ok, (check_containers_ok _ _ _ Hvc Hic).
    split; [rewrite Forall_forall; intros sv Hsv; apply (check_node_ok topo.1 (T_Nodes pkg) sv Hin); auto|]. split; [done|].
    destruct (Hz2 top_zone_ids0 top_zones0) as [zones Hzones]. destruct (Hz1 zones Hzones) as (_ & _ & Hz). rewrite Hzones. cbn [bind].
    destruct (manifest_zones zones (Networks m)) as [Hm1 Hm2]. destruct Hm2 as [taught Htaught].
    { rewrite Forall_forall. intros n Hn Hne. apply Hz, top_taught0. split; [done|]. apply list_elem_of_fmap. eauto. }
    destruct (Hm1 taught Htaught) as [_ Ht']. rewrite Htaught. cbn [bind]. rewrite fail_if_Ok, negb_false_iff, missing_nil.
    intros z. rewrite Hz, Ht', top_taught0. done.
Qed.

(** A topology of the small range. *)
Definition small_topology : curriculum :=
  mkCurriculum "lab" "lab-topology"
    [mkNode "firewall" "rd-fw"; mkNode "corp-ws" "rd-corp"; mkNode "internet" ""]
    [mkNetYAML "corporate" "lan1"; mkNetYAML "notes" ""].
Lemma topology_exact_witness : CheckTopology (Some small_range) small_topology = Ok tt ∧ topology_ok small_range small_topology.
Proof.
  assert (Validate small_urls all_regular (Some small_range) "/opt" = []) as Hv by (vm_compute; reflexivity).
  assert (CheckTopology (Some small_range) small_topology = Ok tt) as Hc by (vm_compute; reflexivity).
  split; [exact Hc|]. exact (proj1 (topology_exact small_urls all_regular small_range "/opt" small_topology Hv) Hc).
Defined.

(** ** The interface names of the firewall *)
(** The name that the Compose service gives the attachment of an interface. *)
Definition pin (service : composeService) (i : Interface) : string :=
  InterfaceName (default no_attachment (entry (I_Network i) (CS_Networks service))).
Definition topology_zone (pkg : curriculum) : gmap string string := foldl (λ acc n, <[Nw_ID n := Nw_Zone n]> acc) ∅ (T_Networks pkg).
(** The interface of a network: management, or the topology's zone. *)
Definition interface_name (pkg : curriculum) (n : Network) (name : string) : Prop :=
  if is_management n then name = ManagementInterface else N_Zone n ≠ "" ∧ topology_zone pkg !! N_Zone n = Some name ∧ name ≠ "".

Lemma firewallInterfaceName_ok pkg n name : firewallInterfaceName n (topology_zone pkg) = Ok name → interface_name pkg n name.
Proof.
  unfold firewallInterfaceName, interface_name. destruct (is_management n); [by intros [= <-]|].
  destruct (is_empty (N_Zone n)) eqn:E; [done|]. apply is_empty_false in E. destruct (topology_zone pkg !! N_Zone n) as [z|]; [|done]. cbv zeta. cbn [from_option id].
  destruct (is_empty z) eqn:Ez; [done|]. apply is_empty_false in Ez. by intros [= <-].
Qed.

Section Firewall.
Context {doc : Type} (policy_interfaces : doc → string + list string).

Definition pin_step (key : string) (service : composeService) (networks : gmap string Network) (pkg : curriculum)
    (l : list Interface) (i : Interface) : Prop :=
  pin service i ∉ pin service <$> l ∧ pin service i ≠ "" ∧
  interface_name pkg (default no_network (networks !! I_Network i)) (pin service i).
Lemma check_pin_ok key service networks pkg l owners i owners' :
  (∀ k, is_Some (owners !! k) ↔ k ∈ pin service <$> l) →
  check_pin key service networks (topology_zone pkg) owners i = Ok owners' →
  pin_step key service networks pkg l i ∧ ∀ k, is_Some (owners' !! k) ↔ k ∈ pin service <$> l ++ [i].
Proof.
  intros Ho. unfold check_pin, pin_step. destruct (entry (I_Network i) _) as [a|] eqn:Ea; [|done].
  assert (pin service i = InterfaceName a) as Ep by (unfold pin; by rewrite Ea).
  rewrite Ep.
  rewrite then_ok, fail_if_Ok, is_empty_false. intros [Hne H]. destruct (owners !! InterfaceName a) as [o|] eqn:Eo; [done|].
  apply bind_Ok in H as (want & Hw & H). rewrite then_ok, fail_if_Ok, negb_false_iff, String.eqb_eq in H. destruct H as [<- [= <-]].
  split; [split; [|split; [done|by apply firewallInterfaceName_ok]]|].
  - rewrite <- Ho, Eo. by intros [? ?].
  - intros k. rewrite lookup_insert_is_Some', Ho, fmap_app, elem_of_app. cbn [fmap list_fmap].
    rewrite Ep, list_elem_of_singleton. naive_solver.
Qed.
Lemma check_pins key service networks pkg l owners :
  run (check_pin key service networks (topology_zone pkg)) ∅ l = Ok owners →
  NoDup (pin service <$> l) ∧ Forall (λ i, pin service i ≠ "" ∧
    interface_name pkg (default no_network (networks !! I_Network i)) (pin service i)) l ∧
  (map_to_list owners).*1 ≡ₚ pin service <$> l.
Proof.
  assert (∀ l1 s, (∀ k, is_Some (s !! k) ↔ k ∈ pin service <$> l1) → ∀ o,
    run (check_pin key service networks (topology_zone pkg)) s l = Ok o →
    along (pin_step key service networks pkg) l1 l ∧ ∀ k, is_Some (o !! k) ↔ k ∈ pin service <$> l1 ++ l) as H.
  { induction l as [|i l IH]; intros l1 s Hs o H; cbn in H; [injection H as <-; by rewrite app_nil_r|].
    apply bind_Ok in H as (s' & E & H). destruct (check_pin_ok _ _ _ _ _ _ _ _ Hs E) as [Hst Hi].
    destruct (IH (l1 ++ [i]) s' Hi o H) as [Ha Ho]. split; [by split|]. intros k. by rewrite Ho, <- app_assoc. }
  intros Hr. destruct (H [] ∅) with owners as [Ha Ho]; [intros k; rewrite lookup_empty; set_solver|done|].
  unfold pin_step in Ha. rewrite along_and, along_distinct in Ha. destruct Ha as [Hn Ha].
  split; [done|]. split; [by apply along_forall in Ha|]. apply NoDup_Permutation; [apply NoDup_fst_map_to_list|done|].
  intros k. rewrite <- Ho, <- elem_of_dom. rewrite list_elem_of_fmap, elem_of_dom. split.
  - intros ([k' v] & -> & Hin). apply elem_of_map_to_list in Hin. by exists v.
  - intros [v Hv]. exists (k, v). split; [done|]. by apply elem_of_map_to_list.
Qed.

(** Firewall interfaces are pinned: when [CheckFirewallInterfaces] accepts
    a valid manifest, its firewall service gives each of its networks a
    different interface name, [lan3] for management and the topology's zone for
    a teaching network, and every policy of the package decodes and declares
    exactly these interfaces. *)
Theorem firewall_pinned url_parse stat (m : Manifest) (root : string) (pkg : curriculum) (policies : list (string * doc)) model :
  Validate url_parse stat (Some m) root = [] → NoDup policies.*1 →
  CheckFirewallInterfaces policy_interfaces (Some m) pkg policies (Ok model) = Ok tt →
  ∃ firewall service, ServiceByRole m "firewall" = Some firewall ∧ entry (S_Key firewall) (CM_Services model) = Some service ∧
    NoDup (pin service <$> Interfaces firewall) ∧
    (∀ i, i ∈ Interfaces firewall → ∃ n, names (Networks m) (I_Network i) n ∧ interface_name pkg n (pin service i)) ∧
    (∀ name data, (name, data) ∈ policies →
       ∃ declared, policy_interfaces data = inr declared ∧ declared ≡ₚ pin service <$> Interfaces firewall).
Proof.
  intros Hv%validate_sound Hp. unfold CheckFirewallInterfaces. cbn [bind].
  destruct (ServiceByRole m "firewall") as [fw|] eqn:Ef; [|done].
  destruct (entry (S_Key fw) (CM_Services model)) as [service|] eqn:Es; [|done]. fold (topology_zone pkg). intros H.
  apply bind_Ok in H as (owners & Ho & H). destruct (check_pins _ _ _ _ _ _ Ho) as (Hn & Hall & Hperm).
  exists fw, service. split; [done|]. split; [done|]. split; [done|]. split.
  - intros i Hi. rewrite Forall_forall in Hall. destruct (Hall i Hi) as [_ Hname].
    assert (fw ∈ Services m) as Hfw. { unfold ServiceByRole in Ef. apply find_some in Ef as [? _]. by apply list_elem_of_In. }
    pose proof (valid_services _ _ _ _ Hv) as Hs. rewrite Forall_forall in Hs. pose proof (svc_interfaces _ _ (Hs fw Hfw)) as Hif.
    rewrite Forall_forall in Hif. destruct (Hif i Hi) as (n & _ & _ & Hnm & _). exists n. split; [done|].
    destruct (by_key_spec N_Key (Networks m) (valid_network_keys _ _ _ _ Hv)) as [_ Hk].
    rewrite (proj2 (Hk (I_Network i) n)) in Hname by apply Hnm. done.
  - intros name data Hin. rewrite each_all_ok, Forall_forall in H. specialize (H name). unfold check_policy_names in H.
    rewrite (proj2 (entry_Some name data policies Hp) Hin) in H. unfold policyInterfaceNames in H.
    destruct (policy_interfaces data) as [e|declared]; cbn [bind] in H.
    + discriminate H. unfold sort_strings. rewrite sorting.merge_sort_Permutation. apply list_elem_of_fmap. by exists (name, data).
    + exists declared. split; [done|]. rewrite fail_if_Ok, negb_false_iff, bool_decide_eq_true in H. unfold sort_strings in H.
      rewrite <- (sorting.merge_sort_Permutation string_le declared), H, (sorting.merge_sort_Permutation string_le); [done|].
      rewrite sorting.merge_sort_Permutation. apply list_elem_of_fmap. by exists (name, data).
Qed.
End Firewall.

Lemma firewall_pinned_witness :
  ∃ service, entry "fw" (CM_Services small_model) = Some service ∧
    ["lan1"; "lan3"] ≡ₚ pin service <$> [mkInterface "mgmt" "10.99.0.2"; mkInterface "corp" "10.10.0.2"].
Proof.
  assert (Validate small_urls all_regular (Some small_range) "/opt" = []) as Hv by (vm_compute; reflexivity).
  assert (CheckFirewallInterfaces (λ d : list string, inr d) (Some small_range) small_topology [("base", ["lan1"; "lan3"])] (Ok small_model)
    = Ok tt) as Hc by (vm_compute; reflexivity).
  destruct (firewall_pinned (λ d : list string, inr d) small_urls all_regular small_range "/opt" small_topology
    [("base", ["lan1"; "lan3"])] small_model Hv (NoDup_singleton _) Hc) as (fw & service & Hf & Hs & _ & _ & H).
  injection Hf as <-. exists service. split; [exact Hs|].
  destruct (H "base" ["lan1"; "lan3"] (list_elem_of_here _ _)) as (declared & Hd & Hp). injection Hd as <-. exact Hp.
Defined.
