(* ===== verification/LabValidate.v ===== *)
(** * Validation of scenarios (backend/internal/labs/validate.go)

    The checks that a package's scenarios pass when they are loaded: identifiers,
    references to nodes, policies, validators and capabilities, the structured
    actions with their device commands and exec allowlist, and that every probe
    resolves to one route of the topology.

    An issue is its place and the format and arguments of its text.  A Go map
    that is iterated is the list of its entries; the values of a check are JSON
    trees. *)
From Stdlib Require Import SpecFloat.
From S2P Require Import Prelude GoLib GoText NetIP Policy Manifest Plan.
From stdpp Require Import pretty.

#[local] Open Scope string_scope.
#[local] Open Scope list_scope.
#[local] Open Scope Z_scope.

(** ** Data *)
Record ProbeTarget : Type := mkTarget { Tg_From : string; Tg_Host : string; Tg_Port : Z }.
Record StepActionCmd : Type := mkCmd { Cmd_Device : string; Cmd_Command : string; Cmd_Value : option float64 }.
Record StepRun : Type := mkRun { Run_Node : string; Run_Command : string }.
Record StepAction : Type := mkStepAction {
  Act_Type : string; Act_Flow : string; Act_Config : string; Act_Expect : list (string * json);
  Act_Targets : list ProbeTarget; Act_Commands : list StepActionCmd; Act_Run : list StepRun
}.
Record ScenarioStep : Type := mkStep {
  Step_ID : string; Step_Title : string; Step_Expected : string; Step_Action : option StepAction; Step_Node : string
}.
Record ScenarioYAML : Type := mkScenario {
  Sc_ID : string; Sc_Name : string; Sc_Order : string; Sc_Nodes : list string; Sc_Steps : list ScenarioStep; Sc_Validator : string
}.
(** The topology, with the fields that the checks read: its networks and nodes
    as in the plans, and the identifiers of its flows. *)
Record LabYAML : Type := mkLab { Lab_Networks : list NetworkYAML; Lab_Nodes : list NodeYAML; Lab_Flows : list string }.

(** ** The exec allowlist *)
Definition allowedCommandPrefixes : list string :=
  ["nmap"; "mbpoll"; "dnp3poll"; "dnp3cmd"; "iec104cmd"; "curl"; "tshark"; "tcpdump"; "nc"; "ping"; "traceroute"; "wget"; "cat";
   "ls"; "ip"; "ss"; "netstat"].
Definition IsAllowedCommand (cmd : string) : bool :=
  let trimmed := TrimSpace cmd in
  existsb (λ prefix, String.prefix (prefix +:+ " ") trimmed || (trimmed =? prefix)%string) allowedCommandPrefixes.

(** ** Networks *)
Definition check_purdue (n : string * string * option Z) : list problem :=
  let '(id, purdue, target) := n in
  fails (is_empty (TrimSpace purdue)) "network %q: purdue must not be empty" [id] ++
  match target with
  | Some sl => fails ((sl <? 1) || (4 <? sl)) "network %q: target_sl must be 1-4, got %d" [id; pretty sl]
  | None => []
  end.
Definition ValidateNetworks (networks : list (string * string * option Z)) : list problem := concat (check_purdue <$> networks).

(** ** Vocabularies *)
Definition CapabilityProcessElectrical : string := "process.electrical".
Definition CapabilityPolicyContaind : string := "policy.containd".
Definition CapabilityProcessTruth : string := "process.truth".

(** [valueCommands] is [None] where the map is nil. *)
Record actionVocabulary : Type := mkVocabulary {
  commands : list (string * list string); checkKeys : list string; valueCommands : option (list string)
}.
Definition rmu_commands : list string := ["set_local"; "set_remote"; "earth_close"; "earth_open"; "reset_fault_passage"; "reset"].
Definition truthVocabulary : actionVocabulary :=
  mkVocabulary
    [("breaker", ["reset_lockout"; "reset"]); ("f2-breaker", ["reset_lockout"; "reset"]); ("rmu-1", rmu_commands); ("rmu-2", rmu_commands);
     ("oltc-1", ["set_local"; "set_remote"; "block"; "unblock"; "reset"]);
     ("process", ["fault_s1"; "fault_s2"; "clear_fault"; "set_load"; "set_source"; "reset"]); ("gps", ["set_offset"; "reset_offset"])]
    ["breaker_closed"; "supply_present"; "cc_link_fresh"; "rmu_normal"; "oltc_auto"; "firewall_config"]
    (Some ["set_load"; "set_source"; "set_offset"]).
Definition electricalVocabulary : actionVocabulary :=
  mkVocabulary
    [("relay", ["trip"; "close"; "lockout"; "unlock"; "inject_fault"; "clear_fault"; "set_current"; "set_voltage"]);
     ("recloser", ["open"; "close"; "enable_reclose"; "disable_reclose"; "reset_lockout"; "inject_fault"; "clear_fault"]);
     ("regulator", ["raise_tap"; "lower_tap"; "set_manual"; "set_auto"; "set_setpoint"; "set_tap"]);
     ("capbank", ["switch_in"; "switch_out"; "set_auto"; "set_manual"; "reset_lockout"; "set_thresh_low"; "set_thresh_high"])]
    ["breaker_closed"; "loads_energized"; "recloser_closed"; "reclose_enabled"; "voltage_normal"; "firewall_config"] None.
Definition capabilityVocabularies : list (string * actionVocabulary) :=
  [(CapabilityProcessTruth, truthVocabulary); (CapabilityProcessElectrical, electricalVocabulary)].
Fixpoint vocabularyFor (capabilities : list string) : option actionVocabulary :=
  match capabilities with
  | [] => None
  | c :: l => match entry c capabilityVocabularies with Some v => Some v | None => vocabularyFor l end
  end.

(** ** Device commands *)
Definition prefixed (prefix : string) (p : problem) : problem := Problem (prefix +:+ p_format p) (p_args p).
Definition command_problems (vocabulary : list (string * list string)) (device command : string) : list problem :=
  fails (is_empty command) "command name must not be empty" [] ++
  (if is_empty device then [Problem "command device must not be empty" []]
   else match entry device vocabulary with
        | None => [Problem "unknown device %q" [device]]
        | Some l => if is_empty command then []
                    else fails (negb (bool_decide (command ∈ l))) "unknown command %q for device %q" [command; device]
        end).
Definition ratio (m n : Z) : float64 := fdiv (f64_of m 0) (f64_of n 0).
Definition value_problems (required : list string) (command : string) (value : option float64) : list problem :=
  match bool_decide (command ∈ required), value with
  | true, Some v =>
      if IsNaN v || IsInf v then [Problem "value must be finite" []]
      else if (command =? "set_load")%string && (SFltb v (ratio 1 5) || SFltb (ratio 3 1) v)
           then [Problem "set_load value must be 0.2…3.0" []]
           else if (command =? "set_source")%string && (SFltb v (ratio 9 10) || SFltb (ratio 11 10) v)
                then [Problem "set_source value must be 0.90…1.10" []] else []
  | false, None => []
  | _, _ => [Problem "value is required exactly for set_load, set_source and set_offset" []]
  end.
(** [actionVocabulary.validateCommand], without the prefix of its texts. *)
Definition validateCommand (v : actionVocabulary) (device command : string) (value : option float64) : list problem :=
  command_problems (commands v) device command ++
  match valueCommands v with None => [] | Some required => value_problems required command value end.
Definition ValidateTruthCommand (device command : string) (value : option float64) : list problem :=
  validateCommand truthVocabulary device command value.

(** ** Actions *)
Definition validActionTypes : list string := ["sequence"; "firewall"; "check"; "decision"; "probe"; "session-cut"].
Definition vocabularyActionTypes : list string := ["sequence"; "check"].
Definition ExpectedConfigHardened : string := "hardened".
Definition HardenedPolicy : string := "improved".

Section Actions.
(** The names of the package's policies and the identifiers of its nodes. *)
Context (policies nodeIDs : list string).

Definition has (name : string) : bool := bool_decide (name ∈ policies).
Definition policy_list : string := join_with ", " (sort_strings policies).
Definition validExpectedConfig (value : string) : bool :=
  if (value =? ExpectedConfigHardened)%string then has HardenedPolicy else has value.

Fixpoint indexed {A} (f : Z → A → list problem) (i : Z) (l : list A) : list problem :=
  match l with [] => [] | x :: l' => f i x ++ indexed f (i + 1) l' end.
Definition place (what : string) (i : Z) : string := what +:+ "[" +:+ pretty i +:+ "] ".

Definition check_expect (v : actionVocabulary) (expect : list (string * json)) (key : string) : list problem :=
  if negb (bool_decide (key ∈ checkKeys v)) then [Problem "unknown check key %q" [key]]
  else if (key =? "firewall_config")%string then
    match entry key expect with
    | Some (JStr config) =>
        fails (negb (has config)) "check firewall_config must be one of the package policies (%s), got %q" [policy_list; config]
    | _ => [Problem "check firewall_config value must be a string" []]
    end
  else match entry key expect with
       | Some (JBool _) => []
       | _ => [Problem "check %s value must be a boolean" [key]]
       end.
Definition check_run (i : Z) (r : StepRun) : list problem :=
  prefixed (place "run" i) <$>
    (fails (is_empty (Run_Node r) || negb (bool_decide (Run_Node r ∈ nodeIDs))) "unknown node %q" [Run_Node r] ++
     (if is_empty (TrimSpace (Run_Command r)) then [Problem "command must not be empty" []]
      else fails (negb (IsAllowedCommand (Run_Command r))) "command %q is not in the exec allowlist" [Run_Command r])).
Definition probe_source (stepNode : string) (t : ProbeTarget) : string := if is_empty (Tg_From t) then stepNode else Tg_From t.
Definition has_colon (s : string) : bool := bool_decide (colon ∈ bytes_of s).
Definition check_target (stepNode : string) (i : Z) (t : ProbeTarget) : list problem :=
  prefixed (place "targets" i) <$>
    (fails (negb (bool_decide (is_Some (ipv4 (Tg_Host t)))) || has_colon (Tg_Host t)) "host must be a valid IPv4 address" [] ++
     fails ((Tg_Port t <? 1) || (65535 <? Tg_Port t)) "port must be 1-65535" [] ++
     (let source := probe_source stepNode t in
      if is_empty source then [Problem "must have a source (step node or from)" []]
      else fails (negb (bool_decide (source ∈ nodeIDs))) "unknown source node %q" [source])).

Definition typed_problems (a : StepAction) (stepNode : string) (v : actionVocabulary) : list problem :=
  if (Act_Type a =? "sequence")%string then
    fails (length (Act_Commands a) =? 0)%nat "sequence must contain at least one command" [] ++
    indexed (λ i c, prefixed (place "commands" i) <$> validateCommand v (Cmd_Device c) (Cmd_Command c) (Cmd_Value c)) 0 (Act_Commands a)
  else if (Act_Type a =? "firewall")%string then
    fails (negb (has (Act_Config a))) "firewall config must be one of the package policies (%s), got %q" [policy_list; Act_Config a]
  else if (Act_Type a =? "check")%string then
    fails (length (Act_Expect a) =? 0)%nat "check expect must not be empty" [] ++
    concat (check_expect v (Act_Expect a) <$> sort_strings (Act_Expect a).*1) ++
    indexed check_run 0 (Act_Run a)
  else if (Act_Type a =? "probe")%string then
    fails (negb (length (Act_Expect a) =? 0)%nat) "probe expect must be empty" [] ++
    fails (length (Act_Targets a) =? 0)%nat "probe must contain at least one target" [] ++
    indexed (check_target stepNode) 0 (Act_Targets a)
  else [].
(** [vocabulary] is nil only where the action does not use it. *)
Definition no_vocabulary : actionVocabulary := mkVocabulary [] [] None.
Definition validateAction (a : StepAction) (stepNode : string) (vocabulary : option actionVocabulary) : list problem :=
  if negb (bool_decide (Act_Type a ∈ validActionTypes)) then [Problem "unsupported action type %q" [Act_Type a]]
  else if bool_decide (Act_Type a ∈ vocabularyActionTypes) && negb (bool_decide (is_Some vocabulary))
       then [Problem "%s actions need a package capability with an action vocabulary (%s)" [Act_Type a; CapabilityProcessElectrical]]
       else fails (negb (length (Act_Run a) =? 0)%nat && negb (Act_Type a =? "check")%string)
              "run is only valid on check actions, not %q" [Act_Type a] ++
            typed_problems a stepNode (default no_vocabulary vocabulary).
End Actions.

(** ** Probes *)
Definition probe_proof (source target network : string) (port : Z) : PlanProof :=
  mkProof "probe" source target network port "" "" None [] "".
Definition lab_package (template : LabYAML) : Package := mkPackage (Lab_Nodes template) (Lab_Networks template) "" None.
Definition ResolveProbeTuple (template : LabYAML) (source host : string) (port : Z) : M PlanRoute :=
  match ParseAddr host with
  | None => Err (Errorf "host %q is not a valid IPv4 address" [host])
  | Some address =>
      if negb (is4 address) then Err (Errorf "host %q is not a valid IPv4 address" [host])
      else match filter (λ n, ParseAddr (IP n) = Some address) (Lab_Nodes template) with
           | [target] =>
               let! nets := network_prefixes (Lab_Networks template) in
               match fst <$> filter (λ np, Prefix_Contains np.2 address = true) nets with
               | [destination] =>
                   ResolvePlanTuple (lab_package template) (probe_proof source (Node_ID target) (Net_ID destination) port)
               | l => Err (Errorf "host %s must resolve to exactly one topology network, got %d" [host; pretty (zlen l)])
               end
           | l => Err (Errorf "host %s must match exactly one topology node primary IP, got %d" [host; pretty (zlen l)])
           end
  end.

(** ** The whole lab *)
Record issue : Type := mkIssue { scenarioID : string; stepIndex : Z; i_title : string; i_problem : problem }.

Definition slug_char (c : ascii) : bool :=
  let n := nat_of_ascii c in ((97 <=? n) && (n <=? 122) || (48 <=? n) && (n <=? 57))%nat.
(** [^[a-z0-9]+(-[a-z0-9]+)*$]. *)
Definition slugPattern (s : string) : bool :=
  forallb (λ part, negb (is_empty part) && forallb slug_char (String.list_ascii_of_string part)) (split_at "-"%char s).
Definition slugRule : string := "lowercase letters and digits separated by single hyphens".

Section Lab.
Context (def : LabYAML) (capabilities policies : list string) (validators : list (string * list string)).

Definition node_ids : list string := Node_ID <$> Lab_Nodes def.
Definition check_probe (stepNode : string) (i : Z) (t : ProbeTarget) : list problem :=
  let source := probe_source stepNode t in
  if is_empty source || negb (bool_decide (source ∈ node_ids)) || negb (bool_decide (is_Some (ipv4 (Tg_Host t)))) then []
  else match ResolveProbeTuple def source (Tg_Host t) (Tg_Port t) with
       | Ok _ => []
       | _ => [Problem "targets[%d] cannot resolve policy tuple: %v" [pretty i]]
       end.
Definition action_problems (step : ScenarioStep) (a : StepAction) : list problem :=
  validateAction policies node_ids a (Step_Node step) (vocabularyFor capabilities) ++
  (if (Act_Type a =? "probe")%string then indexed (check_probe (Step_Node step)) 0 (Act_Targets a) else []) ++
  (if (Act_Type a =? "session-cut")%string then
     fails (negb (bool_decide (CapabilityPolicyContaind ∈ capabilities))) "session-cut requires policy.containd" [] ++
     fails (negb (bool_decide (Act_Flow a ∈ Lab_Flows def))) "unknown session-cut flow %q" [Act_Flow a]
   else []).
Definition step_problems (seen : gset string) (step : ScenarioStep) : list problem :=
  (if is_empty (Step_ID step) then [Problem "step id must not be empty" []]
   else if negb (slugPattern (Step_ID step)) then [Problem "step id %q must be %s" [Step_ID step; slugRule]]
   else fails (bool_decide (Step_ID step ∈ seen)) "step id %q must be unique within the scenario" [Step_ID step]) ++
  fails (is_empty (Step_Title step)) "step title must not be empty" [] ++
  fails (negb (is_empty (Step_Expected step)) && negb (validExpectedConfig policies (Step_Expected step)))
    "expected_config must be one of the package policies (%s) or %s, got %q"
    [policy_list policies; ExpectedConfigHardened; Step_Expected step] ++
  fails (negb (is_empty (Step_Node step)) && negb (bool_decide (Step_Node step ∈ node_ids))) "unknown node %q" [Step_Node step] ++
  match Step_Action step with None => [] | Some a => action_problems step a end.
Definition check_step (sc : ScenarioYAML) (s : Z * gset string) (step : ScenarioStep) : list issue * (Z * gset string) :=
  (mkIssue (Sc_ID sc) s.1 (Step_Title step) <$> step_problems s.2 step, (s.1 + 1, {[Step_ID step]} ∪ s.2)).

Definition validator_problems (sc : ScenarioYAML) : list problem :=
  if is_empty (Sc_Validator sc) then []
  else match entry (Sc_Validator sc) validators with
       | None => [Problem "unknown validator %q" [Sc_Validator sc]]
       | Some required =>
           concat ((λ c, fails (negb (bool_decide (c ∈ capabilities)))
                           "validator %q requires capability %q, which the package does not declare" [Sc_Validator sc; c]) <$> required)
       end.
Definition scenario_problems (seen : gset string) (sc : ScenarioYAML) : list problem :=
  (if is_empty (Sc_ID sc) then [Problem "scenario id must not be empty" []]
   else fails (negb (slugPattern (Sc_ID sc))) "scenario id must be %s" [slugRule]) ++
  fails (is_empty (Sc_Name sc)) "scenario name must not be empty" [] ++
  fails (is_empty (Sc_Order sc)) "scenario order must not be empty" [] ++
  fails (bool_decide (Sc_ID sc ∈ seen)) "scenario id must be unique within the package" [] ++
  validator_problems sc ++
  concat ((λ n, fails (negb (bool_decide (n ∈ node_ids))) "unknown scenario node %q" [n]) <$> Sc_Nodes sc).
Definition context_title (sc : ScenarioYAML) : string :=
  match Sc_Steps sc with
  | step :: _ => if is_empty (Step_Title step) then "<scenario>" else Step_Title step
  | [] => "<scenario>"
  end.
Definition check_scenario (seen : gset string) (sc : ScenarioYAML) : list issue * gset string :=
  ((mkIssue (Sc_ID sc) 0 (context_title sc) <$> scenario_problems seen sc) ++ (scan (check_step sc) (0, ∅) (Sc_Steps sc)).1,
   {[Sc_ID sc]} ∪ seen).
End Lab.

(** The issues of a lab; none is the nil error. *)
Definition ValidateLab (def : LabYAML) (scenarios : list ScenarioYAML) (capabilities policies : list string)
    (validators : list (string * list string)) : list issue :=
  (scan (check_scenario def capabilities policies validators) ∅ scenarios).1.

(** ** Decisions *)
Definition is_decision (step : ScenarioStep) : bool :=
  match Step_Action step with Some a => (Act_Type a =? "decision")%string | None => false end.
(** The first decision outside the planning scenario, and the number of decisions
    before it.  [planning] is the scenario of the curriculum's planning role, if
    the package has a curriculum. *)
Fixpoint scan_decisions (planning : option string) (sc : ScenarioYAML) (i count : Z) (steps : list ScenarioStep) : issue + Z :=
  match steps with
  | [] => inr count
  | step :: l =>
      if negb (is_decision step) then scan_decisions planning sc (i + 1) count l
      else if bool_decide (planning = Some (Sc_ID sc)) then scan_decisions planning sc (i + 1) (count + 1) l
      else inl (mkIssue (Sc_ID sc) i (Step_Title step) (Problem "decision must belong to the package curriculum role planning" []))
  end.
Fixpoint all_decisions (planning : option string) (count : Z) (l : list ScenarioYAML) : issue + Z :=
  match l with
  | [] => inr count
  | sc :: l' =>
      match scan_decisions planning sc 0 count (Sc_Steps sc) with
      | inl e => inl e
      | inr count => all_decisions planning count l'
      end
  end.
Definition validateDecision (planning : option string) (scenarios : list ScenarioYAML) : list problem :=
  match all_decisions planning 0 scenarios with
  | inl e => [i_problem e]
  | inr count => fails (bool_decide (is_Some planning) && negb (count =? 1))
                   "curriculum: planning role must contain exactly one decision action, got %d" [pretty count]
  end.
