(* ===== verification/LabCorrect.v ===== *)
(** * What accepted scenarios satisfy

    [ValidateLab] finds no issue exactly in the labs that are valid in the
    declarative sense of [lab_valid]. *)
From Stdlib Require Import SpecFloat.
From S2P Require Import Prelude GoLib GoText NetIP Policy Manifest ManifestCorrect Plan LabValidate.
From stdpp Require Import pretty.

#[local] Open Scope string_scope.
#[local] Open Scope list_scope.
#[local] Open Scope Z_scope.

(** ** Words *)
Lemma split_nonempty c s : split_at c s ≠ [].
Proof. destruct s; cbn [split_at]; [done|]. destruct (Ascii.eqb _ _); [done|]. by destruct (split_at c s). Qed.
Lemma split_head c s w : head (split_at c s) = Some w → s = w ∨ ∃ r, s = w +:+ String c r.
Proof.
  revert w. induction s as [|a s IH]; intros w; cbn [split_at]; [intros [= <-]; by left|].
  destruct (Ascii.eqb_spec a c) as [->|_]; [intros [= <-]; right; by exists s|].
  destruct (split_at c s) as [|x l] eqn:E; [by apply split_nonempty in E|]. intros [= <-].
  destruct (IH x eq_refl) as [-> | [r ->]]; [by left|right; by exists r].
Qed.
Lemma head_word c w r : split_at c w = [w] → head (split_at c (w +:+ String c r)) = Some w.
Proof.
  revert r. induction w as [|a w IH]; intros r; [intros _; change ("" +:+ String c r) with (String c r); cbn [split_at]; by rewrite Ascii.eqb_refl|].
  change (String a w +:+ String c r) with (String a (w +:+ String c r)). cbn [split_at].
  destruct (Ascii.eqb a c); [done|]. destruct (split_at c w) as [|x l] eqn:E; [by apply split_nonempty in E|]. intros [= -> ->].
  specialize (IH r eq_refl). destruct (split_at c (w +:+ String c r)); [done|]. injection IH as ->. done.
Qed.
Definition space : ascii := ascii_of_nat 32.
(** The first word of a command, without the space around it. *)
Definition first_word (cmd : string) : option string := head (split_at space (TrimSpace cmd)).
Lemma tools_words : Forall (λ t, split_at space t = [t]) allowedCommandPrefixes.
Proof. repeat constructor. Qed.
Lemma prefix_spec p r : String.prefix p r = true ↔ ∃ s, r = p +:+ s.
Proof.
  revert r. induction p as [|a p IH]; intros r; [split; [by exists r|by destruct r]|]. destruct r as [|b r]; [split; [done|by intros [? ?]]|].
  cbn [String.prefix]. destruct (ascii_dec a b) as [<-|Hne].
  - rewrite IH. split; intros [s H]; [exists s; by rewrite H|exists s]. by injection H as ->.
  - split; [done|]. intros [s H]. by injection H as ->.
Qed.
Lemma allowed_spec cmd : IsAllowedCommand cmd = true ↔ ∃ tool, tool ∈ allowedCommandPrefixes ∧ first_word cmd = Some tool.
Proof.
  unfold IsAllowedCommand, first_word. rewrite existsb_exists. setoid_rewrite <- list_elem_of_In. apply exist_proper. intros tool.
  pose proof tools_words as Hw. rewrite Forall_forall in Hw. split; intros [Hin H]; (split; [done|]); specialize (Hw tool Hin).
  - apply orb_true_iff in H as [H|H].
    + apply prefix_spec in H as [s ->].
      replace ((tool +:+ " ") +:+ s) with (tool +:+ String space s); [by apply head_word|].
      clear. induction tool as [|a t IH]; [done|]. change (String a (t +:+ String space s) = String a ((t +:+ " ") +:+ s)). by rewrite IH.
    + apply String.eqb_eq in H as ->. by rewrite Hw.
  - apply orb_true_iff. apply split_head in H as [-> | [r ->]]; [right; apply String.eqb_refl|left].
    apply prefix_spec. exists r. clear. induction tool as [|a t IH]; [done|].
    change (String a (t +:+ String space r) = String a ((t +:+ " ") +:+ r)). by rewrite IH.
Qed.

(** ** Indexed loops *)
Lemma map_nil {A B} (f : A → B) l : f <$> l = [] ↔ l = [].
Proof. by destruct l. Qed.
Lemma indexed_nil {A} (f : Z → A → list problem) (P : A → Prop) i l :
  (∀ i x, f i x = [] ↔ P x) → indexed f i l = [] ↔ Forall P l.
Proof.
  intros Hf. revert i. induction l as [|x l IH]; intros i; cbn; [split; auto|]. by rewrite app_nil, Hf, IH, Forall_cons.
Qed.

(** ** Actions *)
Definition value_ok (required : list string) (command : string) (value : option float64) : Prop :=
  match value with
  | None => command ∉ required
  | Some v =>
      command ∈ required ∧ IsNaN v = false ∧ IsInf v = false ∧
      (command = "set_load" → SFltb v (ratio 1 5) = false ∧ SFltb (ratio 3 1) v = false) ∧
      (command = "set_source" → SFltb v (ratio 9 10) = false ∧ SFltb (ratio 11 10) v = false)
  end.
(** A command of the vocabulary, with a value exactly where it takes one. *)
Definition command_ok (v : actionVocabulary) (device command : string) (value : option float64) : Prop :=
  device ≠ "" ∧ command ≠ "" ∧ (∃ l, entry device (commands v) = Some l ∧ command ∈ l) ∧
  match valueCommands v with None => True | Some required => value_ok required command value end.

Lemma value_problems_nil required command value : value_problems required command value = [] ↔ value_ok required command value.
Proof.
  unfold value_problems, value_ok. case_bool_decide as Hc; destruct value as [v|]; [|naive_solver..].
  destruct (IsNaN v); [naive_solver|]. destruct (IsInf v); [naive_solver|]. cbn [orb].
  destruct (String.eqb_spec command "set_load") as [->|H1]; cbn [andb].
  - destruct (SFltb v _), (SFltb _ v); cbn [orb]; naive_solver.
  - destruct (String.eqb_spec command "set_source") as [->|H2]; cbn [andb]; [|naive_solver].
    destruct (SFltb v _), (SFltb _ v); cbn [orb]; naive_solver.
Qed.
Lemma validateCommand_nil v device command value : validateCommand v device command value = [] ↔ command_ok v device command value.
Proof.
  unfold validateCommand, command_problems, command_ok. rewrite !app_nil, fails_nil, is_empty_false.
  assert (match valueCommands v with Some required => value_problems required command value | None => [] end = [] ↔
    match valueCommands v with Some required => value_ok required command value | None => True end) as ->.
  { destruct (valueCommands v); [apply value_problems_nil|done]. }
  destruct (is_empty device) eqn:Ed; [apply is_empty_spec in Ed; naive_solver|apply is_empty_false in Ed].
  destruct (entry device (commands v)) as [l|]; [|naive_solver].
  destruct (is_empty command) eqn:Ec; [apply is_empty_spec in Ec; naive_solver|].
  rewrite fails_nil, negb_false_iff, bool_decide_eq_true. naive_solver.
Qed.

(** A command authored for a node is one the exec endpoint runs. *)
Definition run_ok (nodeIDs : list string) (r : StepRun) : Prop :=
  Run_Node r ≠ "" ∧ Run_Node r ∈ nodeIDs ∧ ∃ tool, tool ∈ allowedCommandPrefixes ∧ first_word (Run_Command r) = Some tool.
Lemma check_run_nil nodeIDs i r : check_run nodeIDs i r = [] ↔ run_ok nodeIDs r.
Proof.
  unfold check_run, run_ok. rewrite map_nil, app_nil, fails_nil, orb_false_iff, negb_false_iff, bool_decide_eq_true, is_empty_false.
  rewrite <- allowed_spec. destruct (is_empty (TrimSpace (Run_Command r))) eqn:E.
  - apply is_empty_spec in E. split; [naive_solver|]. intros (_ & _ & H). unfold IsAllowedCommand in H. by rewrite E in H.
  - rewrite fails_nil, negb_false_iff. naive_solver.
Qed.
Definition expect_ok (policies : list string) (v : actionVocabulary) (expect : list (string * json)) (key : string) : Prop :=
  key ∈ checkKeys v ∧
  if (key =? "firewall_config")%string then ∃ config, entry key expect = Some (JStr config) ∧ config ∈ policies
  else ∃ b, entry key expect = Some (JBool b).
Lemma check_expect_nil policies v expect key : check_expect policies v expect key = [] ↔ expect_ok policies v expect key.
Proof.
  unfold check_expect, expect_ok, has. case_bool_decide as Hk; cbn [negb]; [|naive_solver].
  destruct (key =? "firewall_config")%string; (destruct (entry key expect) as [[]|]; [..|naive_solver]); try naive_solver.
  rewrite fails_nil, negb_false_iff, bool_decide_eq_true. naive_solver.
Qed.

Definition source_ok (nodeIDs : list string) (stepNode : string) (t : ProbeTarget) : Prop :=
  probe_source stepNode t ≠ "" ∧ probe_source stepNode t ∈ nodeIDs.
Definition host_ok (t : ProbeTarget) : Prop := is_Some (ipv4 (Tg_Host t)) ∧ has_colon (Tg_Host t) = false ∧ 1 <= Tg_Port t <= 65535.
Lemma check_target_nil nodeIDs stepNode i t :
  check_target nodeIDs stepNode i t = [] ↔ host_ok t ∧ source_ok nodeIDs stepNode t.
Proof.
  unfold check_target, host_ok, source_ok.
  rewrite map_nil, !app_nil, !fails_nil, !orb_false_iff, negb_false_iff, bool_decide_eq_true, !Z.ltb_ge.
  destruct (is_empty (probe_source stepNode t)) eqn:E; [apply is_empty_spec in E; naive_solver|apply is_empty_false in E].
  rewrite fails_nil, negb_false_iff, bool_decide_eq_true. naive_solver.
Qed.

(** ** Routes

    One element of a list satisfies a predicate; and the last that does. *)
Definition only {A} (P : A → Prop) (l : list A) (x : A) : Prop :=
  ∃ pre post, l = pre ++ x :: post ∧ P x ∧ ∀ y, y ∈ pre ++ post → ¬ P y.
Definition last_of {A} (P : A → Prop) (l : list A) (x : A) : Prop :=
  ∃ pre post, l = pre ++ x :: post ∧ P x ∧ ∀ y, y ∈ post → ¬ P y.

Lemma filter_empty {A} (P : A → Prop) `{∀ x, Decision (P x)} l : filter P l = [] ↔ ∀ y, y ∈ l → ¬ P y.
Proof.
  split; [|intros Hn; destruct (filter P l) as [|x r] eqn:E; [done|]].
  - intros E y Hy Hp. apply (not_elem_of_nil (A := A) y). rewrite <- E. by apply list_elem_of_filter.
  - assert (x ∈ filter P l) as Hx by (rewrite E; left). apply list_elem_of_filter in Hx as [? ?]. naive_solver.
Qed.
Lemma filter_only {A} (P : A → Prop) `{∀ x, Decision (P x)} l x : filter P l = [x] ↔ only P l x.
Proof.
  split.
  - induction l as [|y l IH]; [done|]. rewrite filter_cons. case_decide as Hy.
    + intros [= -> Hl]. exists [], l. rewrite filter_empty in Hl. done.
    + intros (pre & post & -> & Hx & Hn)%IH. exists (y :: pre), post. split_and!; [done..|]. set_solver.
  - intros (pre & post & -> & Hx & Hn). rewrite filter_app, filter_cons, decide_True by done.
    rewrite (proj2 (filter_empty P pre)), (proj2 (filter_empty P post)); set_solver.
Qed.
Lemma find_last_of {A} (f : A → bool) l x : find_last f l = Some x ↔ last_of (λ y, f y = true) l x.
Proof.
  unfold find_last. revert x. induction l as [|y l IH] using rev_ind; intros x.
  - split; [done|]. by intros ([|] & ? & [=] & _).
  - rewrite rev_unit. cbn [List.find]. destruct (f y) eqn:E.
    + split.
      * intros [= <-]. exists l, []. split_and!; [done..|]. set_solver.
      * intros (pre & post & Hl & Hx & Hn). destruct post as [|z post _] using rev_ind; [by apply app_inj_tail in Hl as [_ ->]|].
        rewrite app_comm_cons, app_assoc in Hl. apply app_inj_tail in Hl as [_ ->]. exfalso. apply (Hn z); set_solver.
    + rewrite IH. split.
      * intros (pre & post & -> & Hx & Hn). exists pre, (post ++ [y]). split; [by rewrite <- app_assoc|]. split; [done|].
        intros z [?| ->%list_elem_of_singleton]%elem_of_app; [by apply Hn|congruence].
      * intros (pre & post & Hl & Hx & Hn). destruct post as [|z post _] using rev_ind; [apply app_inj_tail in Hl as [_ ->]; congruence|].
        rewrite app_comm_cons, app_assoc in Hl. apply app_inj_tail in Hl as [-> ->]. exists pre, post. split_and!; [done..|set_solver].
Qed.

(** The address lies in the network. *)
Definition covers (ip : Addr) (n : NetworkYAML) : Prop := ∃ p, planNetworkPrefix n = Some p ∧ Prefix_Contains p ip = true.
#[local] Instance covers_dec ip n : Decision (covers ip n).
Proof.
  destruct (planNetworkPrefix n) as [p|] eqn:E; [destruct (Prefix_Contains p ip) eqn:C|].
  - left. by exists p.
  - right. intros (q & ? & ?). congruence.
  - right. intros (q & ? & ?). congruence.
Defined.
Definition subnets_valid (l : list NetworkYAML) : Prop := ∀ n, n ∈ l → is_Some (planNetworkPrefix n).

(** The source of a route: the last node of that identifier, whose address lies
    in one network, a zone that it is attached to. *)
Definition source_end (nodes : list NodeYAML) (nets : list NetworkYAML) (source : string) : Prop :=
  ∃ node ip src, last_of (λ n, Node_ID n = source) nodes node ∧ ParseAddr (IP node) = Some ip ∧
    only (covers ip) nets src ∧ Net_ID src ∈ Networks node ∧ Zone src ≠ "".
(** Its end: a node that is attached to the network, a zone, and has its address
    in it. *)
Definition target_end (nodes : list NodeYAML) (nets : list NetworkYAML) (target network : string) : Prop :=
  ∃ node ip net, last_of (λ n, Node_ID n = target) nodes node ∧ ParseAddr (IP node) = Some ip ∧
    last_of (λ n, Net_ID n = network) nets net ∧ covers ip net ∧ network ∈ Networks node ∧ Zone net ≠ "".

(** A probe that resolves to one route: the host is the address of one node and
    lies in one network, and a route goes from the source to both. *)
Definition route_ok (nodes : list NodeYAML) (nets : list NetworkYAML) (source host : string) : Prop :=
  subnets_valid nets ∧ ∃ address target dest,
    ParseAddr host = Some address ∧ is4 address = true ∧
    only (λ n, ParseAddr (IP n) = Some address) nodes target ∧ only (covers address) nets dest ∧
    source_end nodes nets source ∧ target_end nodes nets (Node_ID target) (Net_ID dest).

Definition net_prefix (n : NetworkYAML) : option (NetworkYAML * Prefix) := pair n <$> planNetworkPrefix n.
Lemma prefixes_fold l acc nets :
  foldM (λ acc n, match planNetworkPrefix n with
                  | None => Err (Errorf "network %s: invalid subnet" [Net_ID n])
                  | Some p => Ok (acc ++ [(n, p)])
                  end) acc l = Ok nets ↔ subnets_valid l ∧ nets = acc ++ omap net_prefix l.
Proof.
  revert acc. induction l as [|n l IH]; intros acc; cbn [foldM omap list_omap].
  - unfold subnets_valid. rewrite app_nil_r. split; [intros [= ->]; set_solver|intros [_ ->]; done].
  - assert (subnets_valid (n :: l) ↔ is_Some (planNetworkPrefix n) ∧ subnets_valid l) as -> by (unfold subnets_valid; set_solver).
    unfold net_prefix at 1. destruct (planNetworkPrefix n) as [p|]; cbn [bind fmap option_fmap option_map].
    + rewrite IH, <- app_assoc. naive_solver.
    + split; [done|]. by intros [[[? [=]] _] _].
Qed.
Lemma prefixes_spec l nets : network_prefixes l = Ok nets ↔ subnets_valid l ∧ nets = omap net_prefix l.
Proof. apply prefixes_fold. Qed.
Lemma prefixes_filter ip l : subnets_valid l →
  fst <$> filter (λ np, Prefix_Contains np.2 ip = true) (omap net_prefix l) = filter (covers ip) l.
Proof.
  intros Hv. induction l as [|n l IH]; [done|]. cbn [omap list_omap].
  destruct (Hv n) as [p Hp]; [left|]. specialize (IH ltac:(intros ? ?; apply Hv; by right)).
  unfold net_prefix at 1. rewrite Hp. cbn [fmap option_fmap option_map]. rewrite !filter_cons. cbn [snd].
  destruct (decide (Prefix_Contains p ip = true)) as [Hc|Hc].
  - rewrite decide_True by by exists p. cbn. by f_equal.
  - rewrite decide_False; [done|]. intros (q & ? & ?). congruence.
Qed.

Lemma find_named {A} (name : A → string) x l y :
  find_last (λ n, (name n =? x)%string) l = Some y ↔ last_of (λ n, name n = x) l y.
Proof.
  rewrite find_last_of. unfold last_of. setoid_rewrite String.eqb_eq. done.
Qed.

Lemma plan_resolves pkg proof :
  (∃ route, ResolvePlanTuple pkg proof = Ok route) ↔
  subnets_valid (Template_Networks pkg) ∧ source_end (Nodes pkg) (Template_Networks pkg) (From proof) ∧
  target_end (Nodes pkg) (Template_Networks pkg) (To proof) (Network proof).
Proof.
  unfold ResolvePlanTuple. split.
  - intros [route H]. destruct (find_last _ _) as [node|] eqn:H1 in H; [|done].
    destruct (find_last _ _) as [tnode|] eqn:H2 in H; [|done].
    destruct (ParseAddr (IP node)) as [ip|] eqn:Hip; [|done].
    apply bind_Ok in H as (nets & [Hv ->]%prefixes_spec & H). rewrite prefixes_filter in H by done.
    destruct (filter _ (Template_Networks pkg)) as [|src [|]] eqn:Hs; [done| |done]. apply filter_only in Hs.
    destruct (negb _ || _) eqn:Hz in H; [done|]. destruct (find_last _ _) as [net|] eqn:H3 in H; [|done].
    destruct (_ || negb _) eqn:Hz' in H; [done|]. destruct (ParseAddr (IP tnode)) as [ip'|] eqn:Hip'; [|done].
    destruct (planNetworkPrefix net) as [p|] eqn:Hp; [|done]. destruct (Prefix_Contains p ip') eqn:Hc; [|done].
    unfold contains in *. apply orb_false_iff in Hz as [Hz1 Hz2], Hz' as [Hz3 Hz4].
    apply negb_false_iff, bool_decide_eq_true in Hz1, Hz4. apply String.eqb_neq in Hz2, Hz3.
    apply find_named in H1, H2, H3.
    split; [done|]. split; [by exists node, ip, src|]. exists tnode, ip', net. split_and!; try done. by exists p.
  - intros (Hv & (node & ip & src & H1 & Hip & Hs & Hin & Hz) & tnode & ip' & net & H2 & Hip' & H3 & (p & Hp & Hc) & Hin' & Hz').
    apply find_named in H1, H2, H3. rewrite H1, H2, Hip, (proj2 (prefixes_spec _ _) (conj Hv eq_refl)). cbn [bind].
    rewrite prefixes_filter by done. rewrite (proj2 (filter_only _ _ _) Hs), H3. unfold contains.
    rewrite !bool_decide_eq_true_2 by done. apply String.eqb_neq in Hz, Hz'. rewrite Hz, Hz'. cbn [negb orb].
    rewrite Hip', Hp, Hc. eauto.
Qed.

Lemma resolves_spec def source host port :
  (∃ route, ResolveProbeTuple def source host port = Ok route) ↔ route_ok (Lab_Nodes def) (Lab_Networks def) source host.
Proof.
  unfold ResolveProbeTuple. split.
  - intros [route H].
    destruct (ParseAddr host) as [address|] eqn:Ha; [|done]. destruct (is4 address) eqn:H4; [|done]. cbn [negb] in H.
    destruct (filter _ (Lab_Nodes def)) as [|target [|]] eqn:Ht; [done| |done]. apply filter_only in Ht.
    apply bind_Ok in H as (nets & [Hv ->]%prefixes_spec & H). rewrite prefixes_filter in H by done.
    destruct (filter _ (Lab_Networks def)) as [|dest [|]] eqn:Hd; [done| |done]. apply filter_only in Hd.
    destruct (proj1 (plan_resolves _ _) (ex_intro _ _ H)) as (_ & Hs & He).
    split; [done|]. by exists address, target, dest.
  - intros (Hv & address & target & dest & Ha & H4 & Ht & Hd & Hs & He).
    rewrite Ha, H4, (proj2 (filter_only _ _ _) Ht), (proj2 (prefixes_spec _ _) (conj Hv eq_refl)). cbn [negb bind].
    rewrite prefixes_filter, (proj2 (filter_only _ _ _) Hd) by done. by apply plan_resolves.
Qed.

Section LabValid.
Context (def : LabYAML) (capabilities policies : list string) (validators : list (string * list string)).
Notation ids := (node_ids def).

(** A probe from a known node to an IPv4 address that resolves to one route. *)
Definition target_ok (stepNode : string) (t : ProbeTarget) : Prop :=
  host_ok t ∧ source_ok ids stepNode t ∧
  route_ok (Lab_Nodes def) (Lab_Networks def) (probe_source stepNode t) (Tg_Host t).
Record action_ok (stepNode : string) (a : StepAction) : Prop := {
  act_type : Act_Type a ∈ validActionTypes;
  act_run : Act_Run a = [] ∨ Act_Type a = "check";
  act_sequence : Act_Type a = "sequence" → ∃ v, vocabularyFor capabilities = Some v ∧ Act_Commands a ≠ [] ∧
    Forall (λ c, command_ok v (Cmd_Device c) (Cmd_Command c) (Cmd_Value c)) (Act_Commands a);
  act_firewall : Act_Type a = "firewall" → Act_Config a ∈ policies;
  act_check : Act_Type a = "check" → ∃ v, vocabularyFor capabilities = Some v ∧ Act_Expect a ≠ [] ∧
    Forall (expect_ok policies v (Act_Expect a)) (Act_Expect a).*1 ∧ Forall (run_ok ids) (Act_Run a);
  act_probe : Act_Type a = "probe" → Act_Expect a = [] ∧ Act_Targets a ≠ [] ∧ Forall (target_ok stepNode) (Act_Targets a);
  act_cut : Act_Type a = "session-cut" → CapabilityPolicyContaind ∈ capabilities ∧ Act_Flow a ∈ Lab_Flows def
}.

Lemma nonempty_length {A} (l : list A) : (length l =? 0)%nat = false ↔ l ≠ [].
Proof. by destruct l. Qed.
Lemma empty_length {A} (l : list A) : (length l =? 0)%nat = true ↔ l = [].
Proof. by destruct l. Qed.
Lemma check_probe_nil stepNode i t : host_ok t → source_ok ids stepNode t →
  check_probe def stepNode i t = [] ↔ route_ok (Lab_Nodes def) (Lab_Networks def) (probe_source stepNode t) (Tg_Host t).
Proof.
  rewrite <- (resolves_spec def _ _ (Tg_Port t)). intros (Hh & _) [Hs1 Hs2]. unfold check_probe. apply is_empty_false in Hs1. rewrite Hs1, !bool_decide_eq_true_2 by done. cbn [negb orb].
  destruct (ResolveProbeTuple _ _ _ _); naive_solver.
Qed.
Lemma targets_nil stepNode l :
  indexed (check_target ids stepNode) 0 l = [] ∧ indexed (check_probe def stepNode) 0 l = [] ↔ Forall (target_ok stepNode) l.
Proof.
  rewrite (indexed_nil _ _ 0 l (check_target_nil ids stepNode)). generalize 0. induction l as [|t l IH]; intros i; cbn; [naive_solver|].
  rewrite app_nil, !Forall_cons, <- (IH (i + 1)). unfold target_ok. split.
  - intros [[[? ?] ?] [Hp ?]]. apply check_probe_nil in Hp; [|done..]. done.
  - intros [(? & ? & Hr) [? ?]]. apply (check_probe_nil stepNode i) in Hr; [|done..]. done.
Qed.


(** The text of an action, by its type. *)
Lemma action_ok_type stepNode a t :
  Act_Type a = t → t ∈ validActionTypes →
  action_ok stepNode a ↔
  (Act_Run a = [] ∨ t = "check") ∧
  (t = "sequence" → ∃ v, vocabularyFor capabilities = Some v ∧ Act_Commands a ≠ [] ∧
    Forall (λ c, command_ok v (Cmd_Device c) (Cmd_Command c) (Cmd_Value c)) (Act_Commands a)) ∧
  (t = "firewall" → Act_Config a ∈ policies) ∧
  (t = "check" → ∃ v, vocabularyFor capabilities = Some v ∧ Act_Expect a ≠ [] ∧
    Forall (expect_ok policies v (Act_Expect a)) (Act_Expect a).*1 ∧ Forall (run_ok ids) (Act_Run a)) ∧
  (t = "probe" → Act_Expect a = [] ∧ Act_Targets a ≠ [] ∧ Forall (target_ok stepNode) (Act_Targets a)) ∧
  (t = "session-cut" → CapabilityPolicyContaind ∈ capabilities ∧ Act_Flow a ∈ Lab_Flows def).
Proof. intros <- Ht. split; [intros []; done|]. intros (? & ? & ? & ? & ? & ?). by split. Qed.
Lemma run_only (b : bool) a :
  fails (negb (length (Act_Run a) =? 0)%nat && negb b) "run is only valid on check actions, not %q" [Act_Type a] = [] ↔
  Act_Run a = [] ∨ b = true.
Proof. by rewrite fails_nil, andb_false_iff, !negb_false_iff, empty_length. Qed.

Lemma sequence_nil v a :
  fails (length (Act_Commands a) =? 0)%nat "sequence must contain at least one command" [] ++
    indexed (λ i c, prefixed (place "commands" i) <$> validateCommand v (Cmd_Device c) (Cmd_Command c) (Cmd_Value c)) 0 (Act_Commands a) = [] ↔
  Act_Commands a ≠ [] ∧ Forall (λ c, command_ok v (Cmd_Device c) (Cmd_Command c) (Cmd_Value c)) (Act_Commands a).
Proof.
  rewrite app_nil, fails_nil, nonempty_length.
  rewrite (indexed_nil _ (λ c, command_ok v (Cmd_Device c) (Cmd_Command c) (Cmd_Value c))); [done|].
  intros i c. by rewrite map_nil, validateCommand_nil.
Qed.
Lemma check_nil v a :
  fails (length (Act_Expect a) =? 0)%nat "check expect must not be empty" [] ++
    concat (check_expect policies v (Act_Expect a) <$> sort_strings (Act_Expect a).*1) ++ indexed (check_run ids) 0 (Act_Run a) = [] ↔
  Act_Expect a ≠ [] ∧ Forall (expect_ok policies v (Act_Expect a)) (Act_Expect a).*1 ∧ Forall (run_ok ids) (Act_Run a).
Proof.
  rewrite !app_nil, fails_nil, nonempty_length, ManifestCorrect.concat_nil, (indexed_nil _ _ 0 _ (check_run_nil ids)). unfold sort_strings.
  rewrite sorting.merge_sort_Permutation. setoid_rewrite check_expect_nil. done.
Qed.
Ltac absurd_types := repeat match goal with H : @eq string _ _ |- _ => discriminate H end.
Ltac by_type E b :=
  rewrite E; replace (bool_decide (_ ∈ vocabularyActionTypes)) with b by (vm_compute; reflexivity);
  cbn [String.eqb Ascii.eqb Bool.eqb andb].
Lemma action_problems_nil step a :
  action_problems def capabilities policies step a = [] ↔ action_ok (Step_Node step) a.
Proof.
  unfold action_problems, validateAction. rewrite !app_nil.
  case_bool_decide as Ht; cbn [negb]; [|split; [naive_solver|]; intros []; done].
  rewrite (action_ok_type (Step_Node step) a (Act_Type a)) by done. unfold typed_problems, has.
  unfold validActionTypes in Ht. rewrite !elem_of_cons in Ht.
  pose proof (run_only true a) as Hrt. pose proof (run_only false a) as Hrf.
  destruct Ht as [E|[E|[E|[E|[E|[E|[]%not_elem_of_nil]]]]]]; rewrite E in Hrt, Hrf.
  - by_type E true. destruct (vocabularyFor capabilities) as [v|].
    + rewrite bool_decide_eq_true_2 by done. cbn [negb default from_option id]. rewrite app_nil, Hrf, sequence_nil. split.
      * intros ([[?|?] Hs] & _ & _); [|done]. split; [by left|]. split; [eauto|]. repeat split; intros; absurd_types.
      * intros ([?|?] & Hs & _); absurd_types. destruct (Hs eq_refl) as (v' & [= <-] & ?). auto.
    + rewrite bool_decide_eq_false_2 by (by intros [? ?]). cbn [negb]. split; [intros (? & _); done|].
      intros (_ & Hs & _). destruct (Hs eq_refl) as (? & ? & _). done.
  - by_type E false. rewrite app_nil, Hrf, fails_nil, negb_false_iff, bool_decide_eq_true. split.
    + intros ([[?|?] Hs] & _ & _); [|done]. split; [by left|]. repeat split; intros; absurd_types. done.
    + intros ([?|?] & _ & Hs & _); absurd_types. auto.
  - by_type E true. destruct (vocabularyFor capabilities) as [v|].
    + rewrite bool_decide_eq_true_2 by done. cbn [negb default from_option id]. rewrite app_nil, Hrt, check_nil. split.
      * intros ([_ Hs] & _ & _). split; [by right|]. do 2 (split; [intros; absurd_types|]). split; [eauto|].
        repeat split; intros; absurd_types.
      * intros (_ & _ & _ & Hs & _). destruct (Hs eq_refl) as (v' & [= <-] & ?). auto.
    + rewrite bool_decide_eq_false_2 by (by intros [? ?]). cbn [negb]. split; [intros (? & _); done|].
      intros (_ & _ & _ & Hs & _). destruct (Hs eq_refl) as (? & ? & _). done.
  - by_type E false. rewrite app_nil, Hrf. split.
    + intros ([[?|?] _] & _ & _); [|done]. split; [by left|]. repeat split; intros; absurd_types.
    + intros ([?|?] & _); absurd_types. auto.
  - by_type E false. rewrite !app_nil, Hrf, !fails_nil, negb_false_iff, empty_length, nonempty_length. split.
    + intros ([[?|?] (He & Hn & Ht)] & Hp & _); [|done]. split; [by left|]. do 3 (split; [intros; absurd_types|]).
      split; [|intros; absurd_types]. intros _. split; [done|]. split; [done|]. by apply targets_nil.
    + intros ([?|?] & _ & _ & _ & Hs & _); absurd_types. destruct (Hs eq_refl) as (? & ? & Ht). apply targets_nil in Ht as [? ?]. auto 6.
  - by_type E false. rewrite !app_nil, Hrf, !fails_nil, !negb_false_iff, !bool_decide_eq_true. split.
    + intros ([[?|?] _] & _ & Hs); [|done]. split; [by left|]. do 4 (split; [intros; absurd_types|]). intros _. done.
    + intros ([?|?] & _ & _ & _ & _ & Hs); absurd_types. specialize (Hs eq_refl). auto.
Qed.

(** ** Steps and scenarios *)
Record step_ok (step : ScenarioStep) : Prop := {
  stp_id : slugPattern (Step_ID step) = true;
  stp_title : Step_Title step ≠ "";
  stp_config : Step_Expected step = "" ∨ validExpectedConfig policies (Step_Expected step) = true;
  stp_node : Step_Node step = "" ∨ Step_Node step ∈ ids;
  stp_action : ∀ a, Step_Action step = Some a → action_ok (Step_Node step) a
}.
Lemma slug_nonempty s : slugPattern s = true → s ≠ "".
Proof. by intros H ->. Qed.
Lemma step_problems_nil seen step :
  step_problems def capabilities policies seen step = [] ↔ step_ok step ∧ Step_ID step ∉ seen.
Proof.
  unfold step_problems. rewrite !app_nil, !fails_nil, is_empty_false, !andb_false_iff, !negb_false_iff, bool_decide_eq_true, !is_empty_spec.
  assert (match Step_Action step with None => [] | Some a => action_problems def capabilities policies step a end = [] ↔
    ∀ a, Step_Action step = Some a → action_ok (Step_Node step) a) as ->.
  { destruct (Step_Action step) as [a|]; [rewrite action_problems_nil|]; naive_solver. }
  destruct (is_empty (Step_ID step)) eqn:E.
  - apply is_empty_spec in E. split; [naive_solver|]. intros [Hst _]. destruct (slug_nonempty _ (stp_id _ Hst) E).
  - destruct (slugPattern (Step_ID step)) eqn:Es; cbn [negb]; [|split; [naive_solver|]; intros [[] _]; congruence].
    rewrite fails_nil, bool_decide_eq_false. split; [intros (? & ? & ? & ? & ?); split; [by split|done]|]. intros [[] ?]. done.
Qed.
Lemma steps_nil sc steps :
  (scan (check_step def capabilities policies sc) (0, ∅) steps).1 = [] ↔ Forall step_ok steps ∧ NoDup (Step_ID <$> steps).
Proof.
  destruct (scan_clean (check_step def capabilities policies sc) (λ l s, ∀ k, k ∈ s.2 ↔ k ∈ Step_ID <$> l)
    (λ l step, step_ok step ∧ Step_ID step ∉ Step_ID <$> l)) with steps (@nil ScenarioStep) (0, ∅ : gset string) as [H _]; [|set_solver|].
  - intros l s step Hs. unfold check_step. cbn [fst snd]. rewrite map_nil, step_problems_nil, Hs. split; [done|].
    intros _ k. rewrite fmap_app, elem_of_app, elem_of_union, Hs. clear. set_solver.
  - by rewrite H, along_and, along_forall, along_distinct.
Qed.

Record scenario_ok (sc : ScenarioYAML) : Prop := {
  scn_id : slugPattern (Sc_ID sc) = true;
  scn_name : Sc_Name sc ≠ "";
  scn_order : Sc_Order sc ≠ "";
  scn_validator : Sc_Validator sc = "" ∨
    ∃ required, entry (Sc_Validator sc) validators = Some required ∧ ∀ c, c ∈ required → c ∈ capabilities;
  scn_nodes : ∀ n, n ∈ Sc_Nodes sc → n ∈ ids;
  scn_steps : Forall step_ok (Sc_Steps sc);
  scn_step_ids : NoDup (Step_ID <$> Sc_Steps sc)
}.
Lemma all_known (P : string → bool) (f : string → list problem) l :
  (∀ x, f x = [] ↔ P x = true) → concat (f <$> l) = [] ↔ ∀ x, x ∈ l → P x = true.
Proof. intros Hf. rewrite ManifestCorrect.concat_nil, Forall_forall. by setoid_rewrite Hf. Qed.
Lemma scenario_problems_nil seen sc :
  scenario_problems def capabilities validators seen sc = [] ∧
    (scan (check_step def capabilities policies sc) (0, ∅) (Sc_Steps sc)).1 = [] ↔ scenario_ok sc ∧ Sc_ID sc ∉ seen.
Proof.
  unfold scenario_problems. rewrite steps_nil, !app_nil, !fails_nil, !is_empty_false, bool_decide_eq_false.
  assert (validator_problems capabilities validators sc = [] ↔ Sc_Validator sc = "" ∨
    ∃ required, entry (Sc_Validator sc) validators = Some required ∧ ∀ c, c ∈ required → c ∈ capabilities) as ->.
  { unfold validator_problems. destruct (is_empty (Sc_Validator sc)) eqn:E; [apply is_empty_spec in E; naive_solver|apply is_empty_false in E].
    destruct (entry _ _) as [required|]; [|naive_solver].
    rewrite (all_known (λ c, bool_decide (c ∈ capabilities))) by (intros x; by rewrite fails_nil, negb_false_iff).
    setoid_rewrite bool_decide_eq_true. naive_solver. }
  rewrite (all_known (λ n, bool_decide (n ∈ ids))) by (intros x; by rewrite fails_nil, negb_false_iff). setoid_rewrite bool_decide_eq_true.
  destruct (is_empty (Sc_ID sc)) eqn:E.
  - apply is_empty_spec in E. split; [naive_solver|]. intros [Hst _]. destruct (slug_nonempty _ (scn_id _ Hst) E).
  - rewrite fails_nil, negb_false_iff. split; [intros ((? & ? & ? & ? & ? & ?) & ? & ?); split; [by split|done]|]. intros [[] ?]. done.
Qed.
End LabValid.

(** A valid lab: every scenario and step is well-formed and refers to what the
    package has, and identifiers are unique. *)
Definition lab_valid (def : LabYAML) (scenarios : list ScenarioYAML) (capabilities policies : list string)
    (validators : list (string * list string)) : Prop :=
  Forall (scenario_ok def capabilities policies validators) scenarios ∧ NoDup (Sc_ID <$> scenarios).

(** C22. Scenario validation decides validity: [ValidateLab] finds no issue
    exactly when every scenario has a slug, a name, an order, known nodes, a
    validator whose capabilities the package declares and distinct step ids,
    and every step's action is one that can run: device commands of the
    package's vocabulary with a value exactly where one is taken and in its
    range, named policies, checks of known keys with values of their type,
    authored commands whose first word is an allowed tool on a known node, and
    probes from a known node to an IPv4 host that resolves to exactly one route
    of the topology. *)
Theorem lab_exact def scenarios capabilities policies validators :
  ValidateLab def scenarios capabilities policies validators = [] ↔ lab_valid def scenarios capabilities policies validators.
Proof.
  unfold ValidateLab, lab_valid.
  destruct (scan_clean (check_scenario def capabilities policies validators) (λ l s, ∀ k, k ∈ s ↔ k ∈ Sc_ID <$> l)
    (λ l sc, scenario_ok def capabilities policies validators sc ∧ Sc_ID sc ∉ Sc_ID <$> l))
    with scenarios (@nil ScenarioYAML) (∅ : gset string) as [H _]; [|set_solver|].
  - intros l s sc Hs. unfold check_scenario. cbn [fst snd]. rewrite app_nil, map_nil, scenario_problems_nil, Hs. split; [done|].
    intros _ k. rewrite fmap_app, elem_of_app, elem_of_union, Hs. clear. set_solver.
  - by rewrite H, along_and, along_forall, along_distinct.
Qed.

(** ** Decisions *)
Definition decisions (sc : ScenarioYAML) : Z := Z.of_nat (length (List.filter is_decision (Sc_Steps sc))).
Definition decision_place (planning : option string) (sc : ScenarioYAML) : Prop :=
  decisions sc = 0 ∨ planning = Some (Sc_ID sc).
Lemma scan_decisions_spec planning sc i count steps :
  match scan_decisions planning sc i count steps with
  | inl _ => List.filter is_decision steps ≠ [] ∧ planning ≠ Some (Sc_ID sc)
  | inr n => n = count + Z.of_nat (length (List.filter is_decision steps)) ∧
             (List.filter is_decision steps = [] ∨ planning = Some (Sc_ID sc))
  end.
Proof.
  revert i count. induction steps as [|step l IH]; intros i count; cbn [scan_decisions List.filter]; [split; [cbn; lia|by left]|].
  destruct (is_decision step); cbn [negb]; [|apply IH]. case_bool_decide as Hp; [|done].
  specialize (IH (i + 1) (count + 1)). destruct (scan_decisions _ _ _ _ _) as [e|n]; [by destruct IH|].
  destruct IH as [-> _]. cbn [length]. split; [lia|by right].
Qed.
(** Decisions belong to the planning scenario, which has exactly one. *)
Theorem decision_exact planning scenarios :
  validateDecision planning scenarios = [] ↔
  Forall (decision_place planning) scenarios ∧
  (is_Some planning → foldr (λ sc acc, decisions sc + acc) 0 scenarios = 1).
Proof.
  assert (∀ count, match all_decisions planning count scenarios with
    | inl _ => ¬ Forall (decision_place planning) scenarios
    | inr n => n = count + foldr (λ sc acc, decisions sc + acc) 0 scenarios ∧ Forall (decision_place planning) scenarios
    end) as H.
  { induction scenarios as [|sc l IH]; intros count; cbn [all_decisions foldr]; [split; [lia|constructor]|].
    pose proof (scan_decisions_spec planning sc 0 count (Sc_Steps sc)) as Hs. unfold decision_place in *.
    destruct (scan_decisions _ _ _ _ _) as [e|n].
    - rewrite Forall_cons. unfold decisions. intros [[Hz|Hz] _]; [|by apply Hs]. destruct Hs as [Hs _]. apply Hs, length_zero_iff_nil. lia.
    - destruct Hs as [-> Hs]. specialize (IH (count + Z.of_nat (length (List.filter is_decision (Sc_Steps sc))))).
      destruct (all_decisions _ _ _) as [e|n]; rewrite Forall_cons; [naive_solver|]. destruct IH as [-> ?]. unfold decisions.
      split; [lia|]. split; [|done]. destruct Hs as [Hz|?]; [left; by rewrite Hz|by right]. }
  specialize (H 0). unfold validateDecision. destruct (all_decisions _ _ _) as [e|n]; [naive_solver|].
  destruct H as [-> Hp]. rewrite fails_nil, andb_false_iff, negb_false_iff, bool_decide_eq_false, Z.eqb_eq, Z.add_0_l.
  destruct planning; [|naive_solver]. split; [|naive_solver]. intros [Hn|?]; [by destruct Hn|done].
Qed.

(** ** A small lab *)
Definition small_lab : LabYAML :=
  mkLab [mkNetwork "corp" "10.10.0.0/24" "" "corporate"; mkNetwork "ot" "" "10.20.0.0/24" "control"]
    [mkNode "kali" ["corp"] "10.10.0.5"; mkNode "rtu" ["ot"] "10.20.0.9"] ["poll"].
Definition no_action (type : string) : StepAction := mkStepAction type "" "" [] [] [] [].
Definition small_scenarios : list ScenarioYAML :=
  [mkScenario "recon" "Reconnaissance" "1" ["kali"]
     [mkStep "probe" "Probe the station" "" (Some (mkStepAction "probe" "" "" [] [mkTarget "" "10.20.0.9" 2404] [] [])) "kali";
      mkStep "fault" "Inject" "" (Some (mkStepAction "sequence" "" "" [] [] [mkCmd "process" "set_load" (Some (ratio 3 2))] [])) "";
      mkStep "look" "Look" "hardened"
        (Some (mkStepAction "check" "" "" [("breaker_closed", JBool true)] [] [] [mkRun "kali" " nmap -p 2404 10.20.0.9"])) "";
      mkStep "cut" "Cut" "" (Some (mkStepAction "session-cut" "poll" "" [] [] [] [])) ""] ""].
Example small_lab_valid :
  ValidateLab small_lab small_scenarios [CapabilityProcessTruth; CapabilityPolicyContaind] ["improved"] [] = [] ∧
  length (ValidateLab small_lab small_scenarios [CapabilityProcessTruth] [] []) = 2%nat.
Proof. vm_compute. by split. Qed.
