(* ===== verification/SimShared.v ===== *)
(** * What the substation simulators share (services/shared/types.go)

    The audit log with its zones, the command request, the conversions and
    texts of the Go language the simulators use, and the way an outstation
    drives the points of a simulator: serving a frame is a sequence of
    [Operate] calls, so that a fact every call preserves survives any traffic.

    A simulator keeps its device state, its audit log and the clock it reads;
    each handler is one step, as it holds the state's mutex. *)
From Stdlib Require Import Ascii String SpecFloat.
From S2P Require Import Prelude GoLib Dnp3Link Dnp3Transport Dnp3App Dnp3Outstation.
From stdpp Require Import pretty gmap strings.

#[local] Open Scope string_scope.
#[local] Open Scope list_scope.
#[local] Open Scope Z_scope.

(** ** Texts *)

(** [strings.ToLower], as far as letters of ASCII come out of it: besides the
    capital letters these are the Kelvin sign (E2 84 AA) and the dotted capital
    I (C4 B0).  No other character has an ASCII lower case. *)
Fixpoint ToLower (s : list ascii) : list ascii :=
  match s with
  | [] => []
  | a :: s' =>
      let n := nat_of_ascii a in
      if ((65 <=? n) && (n <=? 90))%nat then ascii_of_nat (n + 32) :: ToLower s'
      else
        match s' with
        | b :: s2 =>
            if ((n =? 0xC4) && (nat_of_ascii b =? 0xB0))%nat then "i"%char :: ToLower s2
            else
              match s2 with
              | c :: s3 =>
                  if ((n =? 0xE2) && (nat_of_ascii b =? 0x84) && (nat_of_ascii c =? 0xAA))%nat
                  then "k"%char :: ToLower s3
                  else a :: ToLower s'
              | [] => a :: ToLower s'
              end
        | [] => [a]
        end
  end.

(** [strings.Contains]. *)
Fixpoint contains (s sub : list ascii) : bool :=
  bool_decide (take (List.length sub) s = sub) ||
  match s with
  | [] => false
  | _ :: s' => contains s' sub
  end.

(** [fmt.Sprintf("%.0f", x)] and [fmt.Sprintf("%.1f", x)]: the multiple of the
    last digit, halves to even. *)
Definition scaled (by_ : Z) (m : positive) (e : Z) : Z :=
  let n := by_ * Z.pos m in
  if 0 <=? e then Z.shiftl n e
  else
    let d := Z.shiftl 1 (- e) in
    let q := n / d in
    let r := 2 * (n mod d) in
    if (d <? r) || ((r =? d) && Z.odd q) then q + 1 else q.

Definition float_text (zero : string) (digits : positive → Z → string) (x : float64) : string :=
  let sign (s : bool) := if s then "-" else "" in
  match x with
  | S754_nan => "NaN"
  | S754_infinity s => if s then "-Inf" else "+Inf"
  | S754_zero s => sign s +:+ zero
  | S754_finite s m e => sign s +:+ digits m e
  end.

Definition fixed0 : float64 → string := float_text "0" (λ m e, pretty (scaled 1 m e)).
Definition fixed1 : float64 → string :=
  float_text "0.0" (λ m e, let t := scaled 10 m e in pretty (t / 10) +:+ "." +:+ pretty (t mod 10)).

(** ** Conversions from [float64]

    The fraction is discarded; what a conversion gives for a value its type
    cannot represent is left to the implementation by the language. *)
Class Conversions : Type := {
  other_uint16 : float64 → Z;
  other_int16 : float64 → Z;
  other_int : float64 → Z;
  other_uint16_ok x : is_u16 (other_uint16 x)
}.

Definition truncated (x : float64) : option Z :=
  match x with
  | S754_zero _ => Some 0
  | S754_finite s m e =>
      let n := if 0 <=? e then Z.shiftl (Z.pos m) e else Z.shiftr (Z.pos m) (- e) in
      Some (if s then - n else n)
  | _ => None
  end.

Definition to_uint16 `{Conversions} (x : float64) : Z :=
  match truncated x with
  | Some n => if (0 <=? n) && (n <? 65536) then n else other_uint16 x
  | None => other_uint16 x
  end.

Definition to_int `{Conversions} (x : float64) : Z :=
  match truncated x with
  | Some n => if (- 2 ^ 63 <=? n) && (n <? 2 ^ 63) then n else other_int x
  | None => other_int x
  end.

Definition to_int16 `{Conversions} (x : float64) : Z :=
  match truncated x with
  | Some n => if (- 2 ^ 15 <=? n) && (n <? 2 ^ 15) then n else other_int16 x
  | None => other_int16 x
  end.

(** [float32(n)] and [float32(x)], as the bits a point reports. *)
Definition float32_int (n : Z) : Z := Float32bits (binary_normalize 24 128 n 0 false).
Definition float32_bits (x : float64) : Z := Float32bits (to_float32 x).

(** [math.Float32frombits]; a binary32 is a binary64. *)
Definition Float32frombits (bits : Z) : float64 :=
  let s := Z.testbit bits 31 in
  let e := Z.land (Z.shiftr bits 23) 0xFF in
  let m := Z.land bits 0x7FFFFF in
  let signed_ (m : Z) := if s then - m else m in
  if e =? 0xFF then if m =? 0 then S754_infinity s else S754_nan
  else if e =? 0 then binary_normalize 53 1024 (signed_ m) (-149) s
  else binary_normalize 53 1024 (signed_ (m + 0x800000)) (e - 150) s.

Definition boolToUint16 (b : bool) : Z := if b then 1 else 0.

(** ** The audit log *)
Record AuditEntry : Type := mkAuditEntry {
  Timestamp : Z;
  Source : string;
  SourceZone : string;
  Target : string;
  Command : string;
  Result : string;
  Detail : string;
  ProcessImpact : string
}.

Record AuditLog : Type := mkAuditLog {
  entries : list AuditEntry;
  max_entries : Z
}.

Definition NewAuditLog (m : Z) : AuditLog := mkAuditLog [] m.

Definition ClassifyZone (source : string) : string :=
  if (source =? "")%string then "unknown"
  else
    let s := ToLower (list_ascii_of_string source) in
    let has t := contains s (list_ascii_of_string t) in
    if String.prefix "10.10.10." source then "enterprise"
    else if String.prefix "10.20.20." source then "vendor"
    else if String.prefix "10.30.30." source then "ot_ops"
    else if String.prefix "10.40.40." source then "field"
    else if String.prefix "10.50.50." source then "physics"
    else if has "kali" || has "enterprise" then "enterprise"
    else if has "vendor" || has "jump" then "vendor"
    else if has "compromised" || has "openplc" || has "hmi" then "ot_ops"
    else if has "rtac" || has "reset-script" || has "scenario-script" then "ot_ops"
    else if has "web-ui" then "operator"
    else "unknown".

(** [Add]; [now] is the reading of [time.Now]. *)
Definition Add (now : Z) (e : AuditEntry) (a : AuditLog) : AuditLog :=
  let e := mkAuditEntry (if Timestamp e =? zero_time then now else Timestamp e) (Source e)
             (if (SourceZone e =? "")%string then ClassifyZone (Source e) else SourceZone e)
             (Target e) (Command e) (Result e) (Detail e) (ProcessImpact e) in
  let l := entries a ++ [e] in
  mkAuditLog (if max_entries a <? zlen l then drop (Z.to_nat (zlen l - max_entries a)) l else l) (max_entries a).

Definition Entries (a : AuditLog) : list AuditEntry := entries a.

(** ** Commands *)
Record CommandRequest : Type := mkCommandRequest {
  Cmd : string;
  Cmd_Source : string;
  Cmd_Value : float64
}.

(** A request: the decoded body, if it decodes, and the peer's address. *)
Record http_request : Type := mkRequest {
  body : option CommandRequest;
  RemoteAddr : string
}.

(** [http.Error(w, "bad request", 400)] or the object written. *)
Inductive reply : Type :=
| BadRequest
| Reply (result detail : string).

Definition SourceFromRequest (r : http_request) (cmd : CommandRequest) : string :=
  if negb (Cmd_Source cmd =? "")%string then Cmd_Source cmd else RemoteAddr r.

(** ** Values

    A Go [any] as the simulators put them into maps and as JSON decodes them:
    [ANum] is a float64, [AInt] an int, [AOther] an array or an object. *)
Inductive any : Type :=
| ANull
| ABool (b : bool)
| AInt (n : Z)
| ANum (f : float64)
| AStr (s : string)
| AOther.

(** What a decoder makes of an encoded value: a number is a float64. *)
Definition decoded (v : any) : any := match v with AInt n => ANum (f64_of n 0) | _ => v end.

(** A map literal. *)
Definition table (l : list (string * any)) : gmap string any := list_to_map l.

(** ** A simulator *)
Record sim (S : Type) : Type := mkSim {
  state : S;
  audit : AuditLog;
  clock : Z
}.
Arguments mkSim {S}.
Arguments state {S}.
Arguments audit {S}.
Arguments clock {S}.

Definition with_state {S} (f : S → S) (p : sim S) : sim S := mkSim (f (state p)) (audit p) (clock p).

(** [audit.Add(shared.AuditEntry{...})] with the fields the simulators set. *)
Definition record_ {S} (source target command result detail impact : string) (p : sim S) : sim S :=
  mkSim (state p)
    (Add (clock p) (mkAuditEntry zero_time source "" target command result detail impact) (audit p)) (clock p).

Definition at_time {S} (now : Z) (p : sim S) : sim S := mkSim (state p) (audit p) now.

Lemma state_record {S} a b c d e f (p : sim S) : state (record_ a b c d e f p) = state p.
Proof. done. Qed.

(** ** Control codes of the outstation *)
Definition CROBLatchOn : Z := 0x03.
Definition CROBLatchOff : Z := 0x04.
Definition CROBPulseOn : Z := 0x01.
Definition CROBPulseOff : Z := 0x02.
Definition CROBClosePulse : Z := 0x41.
Definition CROBTripPulse : Z := 0x81.
Definition CROBStatusBlocked : Z := 0x07.

Definition trips_code (code : Z) : bool :=
  (code =? CROBTripPulse) || (code =? CROBLatchOff) || (code =? CROBPulseOff).
Definition closes_code (code : Z) : bool :=
  (code =? CROBClosePulse) || (code =? CROBLatchOn) || (code =? CROBPulseOn).

(** ** The points of a simulator behind the outstation

    [operated cfg d d']: one [Operate] call of a point of [cfg]. *)
Section Operated.
Context {D : Type} (cfg : OutstationConfig D).

Inductive operated (d : D) : D → Prop :=
| operated_binary index code : operated d (operateBinaryOutput (BinaryOutputs cfg) index code d).2
| operated_analog index value : operated d (operateAnalogOutput (AnalogOutputs cfg) index value d).2.

Lemma binary_step index code d status d' :
  operateBinaryOutput (BinaryOutputs cfg) index code d = (status, d') → operated d d'.
Proof. intros H. change d' with (status, d').2. rewrite <- H. constructor. Qed.

Lemma analog_step index value d status d' :
  operateAnalogOutput (AnalogOutputs cfg) index value d = (status, d') → operated d d'.
Proof. intros H. change d' with (status, d').2. rewrite <- H. constructor. Qed.

Lemma direct_crob_runs pos d out out' d' :
  direct_crob cfg pos d out = Ok (out', d') → rtc operated d d'.
Proof.
  revert d out. induction pos as [|po pos IH]; intros d out; cbn [direct_crob]; [by intros [= _ <-]|].
  destruct (ParseCROB (PData po)) as [[cc ok]| | |]; cbn [bind]; try done. destruct ok; cbn [negb]; [|apply IH].
  destruct (operateBinaryOutput _ _ _ _) as [status d1] eqn:Hop. intros H.
  eapply rtc_l; [by eapply binary_step|by eapply IH].
Qed.

Lemma direct_analog_runs pos d out out' d' :
  direct_analog cfg pos d out = Ok (out', d') → rtc operated d d'.
Proof.
  revert d out. induction pos as [|po pos IH]; intros d out; cbn [direct_analog]; [by intros [= _ <-]|].
  destruct (ParseAnalogOutputCmd (PData po)) as [[v ok]| | |]; cbn [bind]; try done. destruct ok; cbn [negb]; [|apply IH].
  destruct (operateAnalogOutput _ _ _ _) as [status d1] eqn:Hop. intros H.
  eapply rtc_l; [by eapply analog_step|by eapply IH].
Qed.

Lemma direct_objects_run objs d out iin r d' :
  direct_objects cfg objs d out iin = Ok (r, d') → rtc operated d d'.
Proof.
  revert d out iin. induction objs as [|oh objs IH]; intros d out iin; cbn [direct_objects]; [by intros [= _ <-]|].
  repeat case_if.
  - destruct (direct_crob _ _ _ _) as [[o d1]| | |] eqn:H1; cbn [bind]; try done.
    intros H. etrans; [by eapply direct_crob_runs|by eapply IH].
  - destruct (direct_analog _ _ _ _) as [[o d1]| | |] eqn:H1; cbn [bind]; try done.
    intros H. etrans; [by eapply direct_analog_runs|by eapply IH].
  - apply IH.
Qed.

Lemma sbo_operate_runs group po d status d' :
  sbo_operate cfg group po d = Ok (status, d') → operated d d'.
Proof.
  unfold sbo_operate. case_if.
  - destruct (idx (PData po) 0); cbn [bind]; try done. intros [= H]. by eapply binary_step.
  - destruct (ParseAnalogOutputCmd (PData po)) as [[v ok]| | |]; cbn [bind]; try done.
    intros [= H]. by eapply analog_step.
Qed.

Lemma sbo_object_runs now selectOnly group po p d r d' :
  sbo_object cfg now selectOnly group po p d = Ok (r, d') → rtc operated d d'.
Proof.
  unfold sbo_object. destruct selectOnly; [case_if; by intros [= _ <-]|].
  destruct (takeSelection p group (Index po)) as [[e|] p']; [|by intros [= _ <-]].
  case_if; [|by intros [= _ <-]].
  destruct (sbo_operate _ _ _ _) as [[status d1]| | |] eqn:Hop; cbn [bind]; try done.
  intros [= _ <-]. by apply rtc_once, (sbo_operate_runs group po d status).
Qed.

Lemma sbo_prefixed_runs now selectOnly group variation pos p d out r d' :
  sbo_prefixed cfg now selectOnly group variation pos p d out = Ok (r, d') → rtc operated d d'.
Proof.
  revert p d out. induction pos as [|po pos IH]; intros p d out; cbn [sbo_prefixed]; [by intros [= _ <-]|].
  destruct (sbo_object _ _ _ _ _ _ _) as [[[status p1] d1]| | |] eqn:Hop; cbn [bind]; try done.
  intros H. etrans; [by eapply sbo_object_runs|by eapply IH].
Qed.

Lemma sbo_objects_run now selectOnly objs p d out iin r d' :
  sbo_objects cfg now selectOnly objs p d out iin = Ok (r, d') → rtc operated d d'.
Proof.
  revert p d out iin. induction objs as [|oh objs IH]; intros p d out iin; cbn [sbo_objects]; [by intros [= _ <-]|].
  case_if; [apply IH|].
  destruct (sbo_prefixed _ _ _ _ _ _ _ _ _) as [[[o p1] d1]| | |] eqn:Hop; cbn [bind]; try done.
  intros H. etrans; [by eapply sbo_prefixed_runs|by eapply IH].
Qed.

Lemma dispatch_runs now st cs apdu failed r st' cs' :
  dispatch cfg now st cs apdu failed = Ok (r, st', cs') → rtc operated (device st) (device st').
Proof.
  unfold dispatch, handleDirectOperate, handleOperate, handleSelect, handleSBO.
  repeat case_if; try (by intros [= _ <- _]); intros H.
  - destruct (direct_objects _ _ _ _ _) as [[[o i] d1]| | |] eqn:H1; cbn [bind] in H; try done.
    injection H as _ <- _. by eapply direct_objects_run.
  - destruct (direct_objects _ _ _ _ _) as [[[o i] d1]| | |] eqn:H1; cbn [bind] in H; try done.
    injection H as _ <- _. by eapply direct_objects_run.
  - destruct (sbo_objects _ _ _ _ _ _ _ _) as [[[[o i] p] d1]| | |] eqn:H1; cbn [bind] in H; try done.
    injection H as _ <- _. by eapply sbo_objects_run.
  - destruct (sbo_objects _ _ _ _ _ _ _ _) as [[[[o i] p] d1]| | |] eqn:H1; cbn [bind] in H; try done.
    injection H as _ <- _. by eapply sbo_objects_run.
  - unfold handleWrite in H. destruct (Objects apdu) as [|oh objs]; cbn [bind] in H; [by injection H as _ <- _|].
    destruct (write_check _) as [[iin|]| | |]; cbn [bind] in H; try done; by injection H as _ <- _.
Qed.

(** Whatever a frame holds, serving it only operates points. *)
Lemma serve_frame_runs now c frame c' v :
  serve_frame cfg now c frame = Ok (c', v) →
  rtc operated (device (c_station c)) (device (c_station c')).
Proof.
  unfold serve_frame. do 2 (case_if; [by intros [= <- _]|]). intros H.
  destruct (ProcessSegment _ _) as [tr [appData|]]; [|by injection H as <- _].
  match type of H with bind ?q _ = _ => destruct q as [[[apdu failed]|]| | |] end; cbn [bind] in H; try done;
    [|by injection H as <- _].
  destruct (dispatch _ _ _ _ _ _) as [[[resp st'] cs']| | |] eqn:Hd; cbn [bind] in H; try done.
  apply dispatch_runs in Hd.
  destruct resp as [[o i]|]; [|by injection H as <- _].
  destruct (WriteLinkFrame _); simplify_eq; try done.
Qed.

(** A whole connection. *)
Lemma handleConn_runs fuel times n c r st ws :
  handleConn fuel cfg times n c r = Ok (st, ws) → rtc operated (device (c_station c)) (device st).
Proof.
  revert n c r st ws. induction fuel as [|fuel IH]; intros n c r st ws; cbn [handleConn];
    (destruct (ReadLinkFrame r) as [[frame r']| | |]; [|by intros [= <- _]|done|done]); [done|].
  destruct (serve_frame _ _ _ _) as [[c' v]| | |] eqn:Hs; cbn [bind]; try done.
  apply serve_frame_runs in Hs. destruct v; [| |by intros [= <- _]].
  - intros H. etrans; [done|by eapply IH].
  - destruct (handleConn fuel _ _ _ _ _) as [[st1 ws1]| | |] eqn:Hc; cbn [bind]; try done.
    intros [= <- _]. etrans; [done|by eapply IH].
Qed.

(** What every [Operate] call preserves survives a connection. *)
Lemma connection_preserves (P : D → Prop) :
  (∀ d d', operated d d' → P d → P d') →
  ∀ fuel times n c r st ws,
    handleConn fuel cfg times n c r = Ok (st, ws) → P (device (c_station c)) → P (device st).
Proof.
  intros HP fuel times n c r st ws H. apply handleConn_runs in H. induction H; eauto.
Qed.

End Operated.

Example zones :
  ClassifyZone "10.40.40.21:502" = "field" ∧ ClassifyZone "Kali-01" = "enterprise" ∧
  ClassifyZone "modbus-tcp" = "unknown" ∧ ClassifyZone "" = "unknown" ∧ ClassifyZone "web-UI" = "operator".
Proof. by vm_compute. Qed.
Example tenths_text :
  fixed1 (f64_of 1176 0) = "1176.0" ∧ fixed1 (f64_of (-1) (-2)) = "-0.2" ∧ fixed1 (f64_of 3 (-2)) = "0.8" ∧
  fixed1 (fdiv (f64_of 1176 0) (f64_of 10 0)) = "117.6" ∧ fixed0 (f64_of 5 (-1)) = "2" ∧ fixed0 (f64_of 7 (-1)) = "4".
Proof. by vm_compute. Qed.
Example float32_round : to_uint16 (H := Build_Conversions (λ _, 0) (λ _, 0) (λ _, 0) (λ _, conj (Z.le_refl 0) eq_refl))
    (Float32frombits (float32_bits (f64_of 255 (-1)))) = 127.
Proof. by vm_compute. Qed.
