(* ===== verification/SimModbus.v ===== *)
(** * The Modbus server of the substation simulators
    (services/recloser-sim/modbus.go and its siblings)

    The read handlers over the images a simulator gives and the connection
    loop over the handlers of any simulator.  The addresses are [uint16]: the
    sum of a start address and a quantity wraps around, which the bound check
    of the source does not see.  A [Panic] is not recovered in the source and
    ends the process. *)
From S2P Require Import Prelude GoLib FieldDevice ModbusServer.

#[local] Open Scope Z_scope.

Definition fcReadCoils : Z := 0x01.
Definition fcReadHoldingRegisters : Z := 0x03.
Definition fcReadInputRegisters : Z := 0x04.
Definition fcWriteSingleCoil : Z := 0x05.
Definition fcWriteSingleRegister : Z := 0x06.

(** A handler's result: an answer or a panic. *)
Notation result := (outcome Empty_set).

Definition exception_ (fc code : Z) : list Z := ModbusServer.exception fc code.

(** The two words behind [if len(data) < 4]. *)
Definition words (data : list Z) : option (Z * Z) :=
  match data with
  | a1 :: a0 :: b1 :: b0 :: _ => Some (be16 a1 a0, be16 b1 b0)
  | _ => None
  end.

(** [b[i] = v]. *)
Definition store (b : list Z) (i v : Z) : result (list Z) :=
  if (0 <=? i) && (i <? zlen b) then Ok (<[Z.to_nat i := v]> b) else Panic.

(** [binary.BigEndian.PutUint16(b[i:], v)]. *)
Definition put_word (b : list Z) (i v : Z) : result (list Z) :=
  if (0 <=? i) && (i + 2 <=? zlen b)
  then Ok (<[Z.to_nat i := u8 (Z.shiftr v 8)]> (<[Z.to_nat (i + 1) := u8 v]> b)) else Panic.

(** [make([]byte, n)] with the first two octets set. *)
Definition response (n fc count : Z) : result (list Z) :=
  let! resp := store (replicate (Z.to_nat n) 0) 0 fc in store resp 1 count.

(** ** Reads *)
Fixpoint coil_loop (n : nat) (coils : list bool) (startAddr i : Z) (resp : list Z) : result (list Z) :=
  match n with
  | O => Ok resp
  | S n' =>
      let! on := idx coils (Z.to_nat (u16 (startAddr + i))) in
      let! resp' :=
        if on then
          let k := u16 (2 + i / 8) in
          let! old := idx resp (Z.to_nat k) in store resp k (Z.lor old (Z.shiftl 1 (i mod 8)))
        else Ok resp in
      coil_loop n' coils startAddr (i + 1) resp'
  end.

Definition read_bits (fc : Z) (coils : list bool) (data : list Z) : result (list Z) :=
  match words data with
  | None => Ok (exception_ fc 0x03)
  | Some (startAddr, quantity) =>
      if zlen coils <? u16 (startAddr + quantity) then Ok (exception_ fc 0x02)
      else
        let byteCount := u16 (quantity + 7) / 8 in
        let! resp := response (u16 (2 + byteCount)) fc (u8 byteCount) in
        coil_loop (Z.to_nat quantity) coils startAddr 0 resp
  end.

Fixpoint register_loop (n : nat) (regs : list Z) (startAddr i : Z) (resp : list Z) : result (list Z) :=
  match n with
  | O => Ok resp
  | S n' =>
      let! v := idx regs (Z.to_nat (u16 (startAddr + i))) in
      let! resp' := put_word resp (u16 (2 + u16 (i * 2))) v in
      register_loop n' regs startAddr (i + 1) resp'
  end.

Definition read_registers (fc : Z) (regs : list Z) (data : list Z) : result (list Z) :=
  match words data with
  | None => Ok (exception_ fc 0x03)
  | Some (startAddr, quantity) =>
      if zlen regs <? u16 (startAddr + quantity) then Ok (exception_ fc 0x02)
      else
        let! resp := response (u16 (2 + u16 (quantity * 2))) fc (u8 (u16 (quantity * 2))) in
        register_loop (Z.to_nat quantity) regs startAddr 0 resp
  end.

(** The answer to an accepted write repeats the request. *)
Definition echo (fc addr value : Z) : list Z := fc :: put_be16 addr ++ put_be16 value.

(** ** The connection *)
Class modbus_sim (D : Type) : Type := {
  md_read_coils : list Z → D → result (list Z);
  md_read_holding : list Z → D → result (list Z);
  md_read_input : list Z → D → result (list Z);
  md_write_coil : list Z → D → list Z * D;
  md_write_register : list Z → D → list Z * D
}.

(** The switch on the function code. *)
Definition handle_function {D} `{modbus_sim D} (fc : Z) (data : list Z) (d : D) : result (list Z) * D :=
  if fc =? fcReadCoils then (md_read_coils data d, d)
  else if fc =? fcReadHoldingRegisters then (md_read_holding data d, d)
  else if fc =? fcReadInputRegisters then (md_read_input data d, d)
  else if fc =? fcWriteSingleCoil then let (r, d') := md_write_coil data d in (Ok r, d')
  else if fc =? fcWriteSingleRegister then let (r, d') := md_write_register data d in (Ok r, d')
  else (Ok [Z.lor fc 0x80; 0x01], d).

Section Connection.
Context {D : Type} (handle : Z → list Z → D → result (list Z) * D).

(** The loop on what the peer sends before it closes: the frames written.
    [handle] is the switch on the function code.  [fuel] bounds the requests;
    each takes at least eight octets. *)
Fixpoint serve_conn (fuel : nat) (r : list Z) (d : D) : result (list (list Z)) * D :=
  match fuel with
  | O => (Diverge, d)
  | S fuel' =>
      match read_full 7 r with
      | inl ([t1; t0; p1; p0; l1; l0; _], r1) =>
          let length_ := be16 l1 l0 in
          if negb (be16 p1 p0 =? 0) || (length_ <? 2) || (253 <? length_) then (Ok [], d)
          else
            match read_full (Z.to_nat (length_ - 1)) r1 with
            | inl (fc :: data, r2) =>
                let (resp, d') := handle fc data d in
                match resp with
                | Ok resp =>
                    let frame := put_be16 (be16 t1 t0) ++ put_be16 0 ++ put_be16 (u16 (1 + zlen resp)) ++ 1 :: resp in
                    let (more, d2) := serve_conn fuel' r2 d' in
                    ((let! frames := more in Ok (frame :: frames)), d2)
                | Err e => (Err e, d')
                | Panic => (Panic, d')
                | Diverge => (Diverge, d')
                end
            | _ => (Ok [], d)
            end
      | _ => (Ok [], d)
      end
  end.
End Connection.

Example coils_window :
  read_bits 1 [true; false; true; true; false] [0; 1; 0; 3] = Ok [1; 1; 6] ∧
  read_bits 1 [true; false; true; true; false] [0; 1; 0; 5] = Ok [0x81; 2] ∧
  read_bits 1 [true; false] [0xFF; 0xFF; 0; 1] = Panic ∧
  read_registers 4 [7; 0x1234] [0; 0; 0; 2] = Ok [4; 4; 0; 7; 0x12; 0x34].
Proof. by vm_compute. Qed.

(** ** What the loops compute *)
Section Loops.
Implicit Types (resp : list Z).

(** The [j]-th coil of a response. *)
Definition coil_bit (resp : list Z) (j : Z) : bool :=
  match resp !! Z.to_nat (2 + j / 8) with Some b => Z.testbit b (j mod 8) | None => false end.

Lemma store_ok b i v : 0 ≤ i < zlen b → store b i v = Ok (<[Z.to_nat i := v]> b).
Proof. intros Hi. unfold store. by replace ((0 <=? i) && (i <? zlen b)) with true by lia. Qed.

Lemma response_ok_ n fc count :
  2 ≤ n → response n fc count = Ok (fc :: count :: replicate (Z.to_nat (n - 2)) 0).
Proof.
  intros Hn. unfold response. replace (Z.to_nat n) with (S (S (Z.to_nat (n - 2)))) by lia.
  cbn [replicate]. rewrite store_ok by (unfold zlen; cbn; lia). cbn [bind].
  change (Z.to_nat 0) with 0%nat. by rewrite store_ok by (unfold zlen; rewrite length_insert; cbn; lia).
Qed.

Lemma response_either n fc count : response n fc count = Panic ∨ ∃ b, response n fc count = Ok b.
Proof. unfold response, store. case_if; cbn [bind]; [case_if|]; eauto. Qed.

Lemma coil_bit_store resp i j old :
  0 ≤ i → 0 ≤ j → resp !! Z.to_nat (2 + i / 8) = Some old →
  coil_bit (<[Z.to_nat (2 + i / 8) := Z.lor old (Z.shiftl 1 (i mod 8))]> resp) j = coil_bit resp j || (i =? j).
Proof.
  intros Hi Hj Hold. unfold coil_bit.
  destruct (decide (i / 8 = j / 8)) as [He|He].
  - rewrite <- He, list_lookup_insert_eq by (by eapply lookup_lt_Some). rewrite Hold, Z.lor_spec. f_equal.
    pose proof (Z.mod_pos_bound i 8). pose proof (Z.mod_pos_bound j 8).
    pose proof (Z.div_mod i 8). pose proof (Z.div_mod j 8).
    rewrite Z.shiftl_spec by lia. destruct (i =? j) eqn:Hij.
    + by replace (j mod 8 - i mod 8) with 0 by lia.
    + destruct (decide (j mod 8 < i mod 8)); [by apply Z.testbit_neg_r; lia|].
      change 1 with (2 ^ 0). rewrite Z.pow2_bits_eqb by lia. lia.
  - rewrite list_lookup_insert_ne by (pose proof (Z.div_pos i 8); pose proof (Z.div_pos j 8); lia).
    replace (i =? j) with false by (destruct (i =? j) eqn:Hb; [apply Z.eqb_eq in Hb; congruence|done]).
    by rewrite orb_false_r.
Qed.

Lemma lor_bit_u8 old k : is_u8 old → 0 ≤ k < 8 → is_u8 (Z.lor old (Z.shiftl 1 k)).
Proof.
  intros Hold Hk. rewrite Z.shiftl_1_l.
  assert (2 ^ k ≤ 2 ^ 7) by (apply Z.pow_le_mono_r; lia). pose proof (Z.pow_pos_nonneg 2 k).
  change (2 ^ 7) with 128 in *. assert (Hn : 0 ≤ Z.lor old (2 ^ k)) by (apply Z.lor_nonneg; unfold is_u8 in *; lia).
  split; [done|]. destruct (Z.eq_dec (Z.lor old (2 ^ k)) 0) as [->|Hne]; [lia|].
  change 256 with (2 ^ 8). apply Z.log2_lt_pow2; [lia|]. rewrite Z.log2_lor by (unfold is_u8 in *; lia).
  apply Z.max_lub_lt.
  - destruct (Z.eq_dec old 0) as [->|]; [done|]. apply Z.log2_lt_pow2; [|change (2 ^ 8) with 256]; unfold is_u8 in *; lia.
  - rewrite Z.log2_pow2 by lia. lia.
Qed.

Lemma coil_loop_ok n coils start i resp :
  0 ≤ start → 0 ≤ i → start + i + Z.of_nat n ≤ zlen coils → zlen coils < 65536 →
  (∀ j, i ≤ j < i + Z.of_nat n → 2 + j / 8 < zlen resp) → bytes_ok resp →
  ∃ resp', coil_loop n coils start i resp = Ok resp' ∧ length resp' = length resp ∧ bytes_ok resp' ∧
    take 2 resp' = take 2 resp ∧
    ∀ j, 0 ≤ j → coil_bit resp' j =
      coil_bit resp j || ((i <=? j) && (j <? i + Z.of_nat n) && default false (coils !! Z.to_nat (start + j))).
Proof.
  revert i resp. induction n as [|n IH]; intros i resp Hs Hi Hn Hc Hlen Hb; cbn [coil_loop].
  { exists resp. repeat split; try done. intros j Hj.
    destruct (Z.leb_spec i j), (Z.ltb_spec j (i + Z.of_nat 0)); [lia|by rewrite orb_false_r..]. }
  unfold u16. rewrite (Z.mod_small (start + i)) by lia.
  destruct (lookup_lt_is_Some_2 coils (Z.to_nat (start + i))) as [on Hon]; [unfold zlen in *; lia|].
  unfold idx at 1. rewrite Hon. cbn [bind].
  assert (Hk : 2 + i / 8 < zlen resp) by (apply Hlen; lia).
  assert (0 ≤ i / 8) by (apply Z.div_pos; lia).
  assert (i / 8 < 8192) by (apply Z.div_lt_upper_bound; lia).
  set (resp1 := if on then <[Z.to_nat (2 + i / 8) := Z.lor (resp !!! Z.to_nat (2 + i / 8)) (Z.shiftl 1 (i mod 8))]> resp
                else resp).
  assert (Hstep : (if on then let! old := idx resp (Z.to_nat ((2 + i / 8) mod 65536)) in
                     store resp ((2 + i / 8) mod 65536) (Z.lor old (Z.shiftl 1 (i mod 8)))
                   else Ok resp) = Ok resp1 ∧ length resp1 = length resp ∧ bytes_ok resp1 ∧ take 2 resp1 = take 2 resp ∧
                  ∀ j, 0 ≤ j → coil_bit resp1 j = coil_bit resp j || (on && (i =? j))).
  { subst resp1. destruct on; [|repeat split; try done; intros; by rewrite orb_false_r].
    rewrite Z.mod_small by lia.
    destruct (lookup_lt_is_Some_2 resp (Z.to_nat (2 + i / 8))) as [old Hold]; [unfold zlen in *; lia|].
    unfold idx. rewrite Hold. cbn [bind]. rewrite store_ok by lia. rewrite (list_lookup_total_correct _ _ _ Hold).
    split_and!; [done|by rewrite length_insert| | |].
    - apply Forall_insert; [done|]. apply lor_bit_u8; [by eapply Forall_lookup_1|apply Z.mod_pos_bound; lia].
    - rewrite take_insert_ge by lia. done.
    - intros j Hj. by apply coil_bit_store. }
  destruct Hstep as (-> & Hl1 & Hb1 & Ht1 & Hbits). cbn [bind].
  destruct (IH (i + 1) resp1) as (resp2 & H2 & Hl2 & Hb2 & Ht2 & Hbits2); [lia|lia|lia|lia| |done|].
  { intros j Hj. unfold zlen. rewrite Hl1. apply Hlen. lia. }
  exists resp2. split_and!; [done|congruence|done|congruence|]. intros j Hj. rewrite Hbits2, Hbits by done.
  destruct (Z.eqb_spec i j) as [Heq|Hne]; [rewrite <- Heq, Hon; cbn [default from_option]|];
    repeat match goal with
           | |- context [?a <=? ?b] => destruct (Z.leb_spec a b)
           | |- context [?a <? ?b] => destruct (Z.ltb_spec a b)
           end; try lia; cbn [andb];
    by rewrite ?andb_true_r, ?andb_false_r, ?orb_false_r.
Qed.

(** Past the end of the images the loop panics before the address wraps. *)
Lemma coil_loop_panics n coils start i resp :
  0 ≤ start + i < 65536 → 65536 ≤ start + i + Z.of_nat n → zlen coils < 65536 →
  coil_loop n coils start i resp = Panic.
Proof.
  revert i resp. induction n as [|n IH]; intros i resp Hi Hn Hc; [lia|]. cbn [coil_loop].
  unfold u16 at 1. rewrite Z.mod_small by lia. unfold idx at 1.
  destruct (coils !! Z.to_nat (start + i)) as [on|] eqn:Hon; [|done]. cbn [bind].
  apply lookup_lt_Some in Hon. unfold zlen in Hc.
  assert (Hrec : ∀ r, coil_loop n coils start (i + 1) r = Panic) by (intros r; apply IH; unfold zlen; lia).
  destruct on; cbn [bind]; [|done]. unfold idx, store.
  destruct (resp !! _); cbn [bind]; [|done]. case_if; cbn [bind]; [done|done].
Qed.

Lemma put_word_middle (pre : list Z) a b suf v :
  put_word (pre ++ a :: b :: suf) (zlen pre) v = Ok (pre ++ put_be16 v ++ suf).
Proof.
  unfold put_word, put_be16, zlen. rewrite length_app. cbn [length].
  rewrite !(proj2 (Z.leb_le _ _)) by lia. cbn [andb]. f_equal.
  replace (Z.to_nat (Z.of_nat (length pre) + 1)) with (length pre + 1)%nat by lia.
  rewrite Nat2Z.id, insert_app_r, (insert_app_r_alt pre), Nat.sub_diag by lia. done.
Qed.

Lemma register_loop_ok n regs start i pre :
  0 ≤ start → 0 ≤ i → start + i + Z.of_nat n ≤ zlen regs → zlen regs < 16384 → zlen pre = 2 + 2 * i →
  register_loop n regs start i (pre ++ replicate (2 * n) 0) =
  Ok (pre ++ concat (put_be16 <$> take n (drop (Z.to_nat (start + i)) regs))).
Proof.
  revert i pre. induction n as [|n IH]; intros i pre Hs Hi Hn Hr Hp; cbn [register_loop]; [by rewrite take_0|].
  unfold u16. rewrite !Z.mod_small by (unfold zlen in *; try rewrite Z.mod_small; lia).
  destruct (lookup_lt_is_Some_2 regs (Z.to_nat (start + i))) as [v Hv]; [unfold zlen in *; lia|].
  unfold idx. rewrite Hv. cbn [bind].
  replace (2 * S n)%nat with (S (S (2 * n))) by lia. cbn [replicate].
  replace (2 + i * 2) with (zlen pre) by lia. rewrite put_word_middle. cbn [bind]. rewrite (assoc_L (++)).
  rewrite IH; [|lia|lia|unfold zlen in *; lia|done|unfold zlen in *; rewrite length_app; cbn; lia].
  rewrite (drop_S _ _ _ Hv). cbn [take fmap list_fmap concat]. replace (Z.to_nat (start + (i + 1))) with (S (Z.to_nat (start + i))) by lia.
  by rewrite (assoc_L (++)).
Qed.

Lemma register_loop_panics n regs start i resp :
  0 ≤ start + i < 65536 → 65536 ≤ start + i + Z.of_nat n → zlen regs < 65536 →
  register_loop n regs start i resp = Panic.
Proof.
  revert i resp. induction n as [|n IH]; intros i resp Hi Hn Hc; [lia|]. cbn [register_loop].
  unfold u16 at 1. rewrite Z.mod_small by lia. unfold idx.
  destruct (regs !! Z.to_nat (start + i)) as [v|] eqn:Hv; [|done]. cbn [bind].
  apply lookup_lt_Some in Hv. unfold zlen in Hc. unfold put_word.
  case_if; cbn [bind]; [|done]. apply IH; unfold zlen; lia.
Qed.
End Loops.

(** ** The read handlers, exactly *)

(** The sum of address and quantity wraps around into the image. *)
Definition wraps (start quantity n : Z) : Prop :=
  65536 ≤ start + quantity ∧ start + quantity - 65536 ≤ n.

(** A response holds the [q] coils from [start], eight to an octet and the
    first in the lowest bit; the spare bits are zero. *)
Definition coil_response (fc : Z) (coils : list bool) (start q : Z) (resp : list Z) : Prop :=
  bytes_ok resp ∧ zlen resp = 2 + (q + 7) / 8 ∧ take 2 resp = [fc; (q + 7) / 8] ∧
  ∀ j, 0 ≤ j → coil_bit resp j = (j <? q) && default false (coils !! Z.to_nat (start + j)).

Definition register_response (fc : Z) (regs : list Z) (start q : Z) : list Z :=
  fc :: 2 * q :: concat (put_be16 <$> take (Z.to_nat q) (drop (Z.to_nat start) regs)).

Section Exact.
Context (data : list Z) (start q : Z).
Hypothesis Hwords : words data = Some (start, q).
Hypothesis Hstart : is_u16 start.
Hypothesis Hq : is_u16 q.

Lemma u16_sum : u16 (start + q) = if 65536 <=? start + q then start + q - 65536 else start + q.
Proof.
  unfold u16, is_u16 in *. destruct (Z.leb_spec 65536 (start + q)); [|apply Z.mod_small; lia].
  symmetry. apply (Z.mod_unique_pos _ _ 1); lia.
Qed.

Lemma read_bits_panics fc coils : zlen coils < 65536 → wraps start q (zlen coils) → read_bits fc coils data = Panic.
Proof.
  intros Hn [Hw Hle]. unfold read_bits. rewrite Hwords, u16_sum.
  rewrite (proj2 (Z.leb_le _ _) Hw), (proj2 (Z.ltb_ge _ _) Hle). cbn zeta.
  destruct (response_either (u16 (2 + u16 (q + 7) / 8)) fc (u8 (u16 (q + 7) / 8))) as [->|[b ->]]; [done|].
  cbn [bind]. apply coil_loop_panics; unfold is_u16 in *; lia.
Qed.

Lemma read_bits_outside fc coils : zlen coils < start + q → ¬ wraps start q (zlen coils) → read_bits fc coils data = Ok [Z.lor fc 0x80; 0x02].
Proof.
  intros Hn Hw. unfold wraps in Hw. unfold read_bits. rewrite Hwords, u16_sum.
  destruct (Z.leb_spec 65536 (start + q)); by rewrite (proj2 (Z.ltb_lt _ _)) by lia.
Qed.

Lemma read_bits_inside fc coils : is_u8 fc → zlen coils ≤ 2000 → start + q ≤ zlen coils →
  ∃ resp, read_bits fc coils data = Ok resp ∧ coil_response fc coils start q resp.
Proof.
  intros Hfc Hn Hle. unfold is_u16 in *. unfold read_bits. rewrite Hwords, u16_sum.
  rewrite (proj2 (Z.leb_gt _ _)) by lia. rewrite (proj2 (Z.ltb_ge _ _)) by lia. cbn zeta.
  assert (Hc : 0 ≤ (q + 7) / 8 < 256) by (split; [apply Z.div_pos|apply Z.div_lt_upper_bound]; lia).
  unfold u16, u8. rewrite (Z.mod_small (q + 7)) by lia. rewrite !Z.mod_small by lia.
  rewrite response_ok_ by lia. cbn [bind].
  destruct (coil_loop_ok (Z.to_nat q) coils start 0
              (fc :: (q + 7) / 8 :: replicate (Z.to_nat (2 + (q + 7) / 8 - 2)) 0))
    as (resp & -> & Hl & Hb & Ht & Hbits); [lia|lia|lia|lia| | |].
  - intros j Hj. unfold zlen. cbn [length]. rewrite length_replicate.
    assert (j / 8 < (q + 7) / 8) by (apply Z.div_lt_upper_bound; [lia|]; pose proof (Z.div_mod (q + 7) 8);
      pose proof (Z.mod_pos_bound (q + 7) 8); lia). lia.
  - do 2 (constructor; [unfold is_u8 in *; lia|]). by apply Forall_replicate.
  - exists resp. split; [done|]. split_and!; [done| |by rewrite Ht|].
    + unfold zlen. rewrite Hl. cbn [length]. rewrite length_replicate. lia.
    + intros j Hj. rewrite Hbits by done. replace (coil_bit _ j) with false; [|symmetry].
      * rewrite (proj2 (Z.leb_le 0 j) Hj), Z.add_0_l, Z2Nat.id by lia. done.
      * unfold coil_bit. destruct (_ !! _) as [b|] eqn:Hlk; [|done].
        replace (Z.to_nat (2 + j / 8)) with (S (S (Z.to_nat (j / 8)))) in Hlk by (pose proof (Z.div_pos j 8); lia).
        cbn in Hlk. apply lookup_replicate in Hlk as [-> _]. by rewrite Z.bits_0.
Qed.

Lemma read_registers_panics fc regs : zlen regs < 65536 → wraps start q (zlen regs) → read_registers fc regs data = Panic.
Proof.
  intros Hn [Hw Hle]. unfold read_registers. rewrite Hwords, u16_sum.
  rewrite (proj2 (Z.leb_le _ _) Hw), (proj2 (Z.ltb_ge _ _) Hle). cbn zeta.
  destruct (response_either (u16 (2 + u16 (q * 2))) fc (u8 (u16 (q * 2)))) as [->|[b ->]]; [done|].
  cbn [bind]. apply register_loop_panics; unfold is_u16 in *; lia.
Qed.

Lemma read_registers_outside fc regs :
  zlen regs < start + q → ¬ wraps start q (zlen regs) → read_registers fc regs data = Ok [Z.lor fc 0x80; 0x02].
Proof.
  intros Hn Hw. unfold wraps in Hw. unfold read_registers. rewrite Hwords, u16_sum.
  destruct (Z.leb_spec 65536 (start + q)); by rewrite (proj2 (Z.ltb_lt _ _)) by lia.
Qed.

Lemma read_registers_inside fc regs : zlen regs ≤ 125 → start + q ≤ zlen regs →
  read_registers fc regs data = Ok (register_response fc regs start q).
Proof.
  intros Hn Hle. unfold is_u16 in *. unfold read_registers. rewrite Hwords, u16_sum.
  rewrite (proj2 (Z.leb_gt _ _)) by lia. rewrite (proj2 (Z.ltb_ge _ _)) by lia.
  unfold u16, u8. rewrite !(Z.mod_small (q * 2)) by lia. rewrite Z.mod_small by lia.
  rewrite response_ok_ by lia. cbn [bind].
  replace (Z.to_nat (2 + q * 2 - 2)) with (2 * Z.to_nat q)%nat by lia.
  change (fc :: q * 2 :: replicate (2 * Z.to_nat q) 0) with ([fc; q * 2] ++ replicate (2 * Z.to_nat q) 0).
  rewrite register_loop_ok by (unfold zlen in *; cbn [length]; lia). rewrite Z.add_0_r. unfold register_response. by replace (q * 2) with (2 * q) by lia.
Qed.
End Exact.

(** ** The loop of a connection ends

    Every request takes eight octets, so that fuel beyond the input's length
    is enough; the read handlers answer or panic. *)
Lemma coil_loop_halts n coils start i resp : coil_loop n coils start i resp ≠ Diverge.
Proof.
  revert i resp. induction n as [|n IH]; intros i resp; cbn [coil_loop]; [done|].
  unfold idx at 1. destruct (coils !! _) as [on|]; cbn [bind]; [|done]. destruct on; cbn [bind]; [|apply IH].
  unfold idx, store. destruct (resp !! _); cbn [bind]; [|done]. case_if; cbn [bind]; [apply IH|done].
Qed.

Lemma register_loop_halts n regs start i resp : register_loop n regs start i resp ≠ Diverge.
Proof.
  revert i resp. induction n as [|n IH]; intros i resp; cbn [register_loop]; [done|].
  unfold idx. destruct (regs !! _); cbn [bind]; [|done]. unfold put_word. case_if; cbn [bind]; [apply IH|done].
Qed.

Lemma read_bits_halts fc coils data : read_bits fc coils data ≠ Diverge.
Proof.
  unfold read_bits. destruct (words data) as [[start q]|]; [|done]. case_if; [done|].
  destruct (response_either (u16 (2 + u16 (q + 7) / 8)) fc (u8 (u16 (q + 7) / 8))) as [->|[b ->]]; [done|].
  apply coil_loop_halts.
Qed.

Lemma read_registers_halts fc regs data : read_registers fc regs data ≠ Diverge.
Proof.
  unfold read_registers. destruct (words data) as [[start q]|]; [|done]. case_if; [done|].
  destruct (response_either (u16 (2 + u16 (q * 2))) fc (u8 (u16 (q * 2)))) as [->|[b ->]]; [done|].
  apply register_loop_halts.
Qed.

Lemma serve_conn_ends {D} (handle : Z → list Z → D → result (list Z) * D) fuel r d :
  (∀ fc data d', (handle fc data d').1 ≠ Diverge) →
  (length r < fuel)%nat → (serve_conn handle fuel r d).1 ≠ Diverge.
Proof.
  intros Hh. revert r d. induction fuel as [|fuel IH]; intros r d Hf; [lia|]. cbn [serve_conn].
  unfold read_full at 1. destruct (Nat.leb_spec 7 (length r)); [|by destruct r].
  destruct r as [|t1 [|t0 [|p1 [|p0 [|l1 [|l0 [|u r1]]]]]]]; try (cbn in *; lia). cbn [take drop].
  rewrite take_0, drop_0. case_if; [done|]. unfold read_full. case_if; [|by destruct r1].
  destruct (take _ r1) as [|fc data]; [done|].
  specialize (Hh fc data d). destruct (handle fc data d) as [[resp| | |] d']; try done.
  specialize (IH (drop (Z.to_nat (be16 l1 l0 - 1)) r1) d').
  destruct (serve_conn handle fuel _ d') as [[frames| | |] d2]; try done.
  cbn in *. apply IH. rewrite length_drop. lia.
Qed.

(** What every request preserves survives a connection. *)
Lemma serve_conn_preserves {D} (handle : Z → list Z → D → result (list Z) * D) (P : D → Prop) :
  (∀ fc data d, P d → P (handle fc data d).2) → ∀ fuel r d, P d → P (serve_conn handle fuel r d).2.
Proof.
  intros Hh fuel. induction fuel as [|fuel IH]; intros r d Hd; cbn [serve_conn]; [done|].
  destruct (read_full 7 r) as [[[|t1 [|t0 [|p1 [|p0 [|l1 [|l0 [|u [|]]]]]]]] r1]|]; try done.
  case_if; [done|]. destruct (read_full _ r1) as [[[|fc data] r2]|]; try done.
  specialize (Hh fc data d Hd). destruct (handle fc data d) as [[resp| | |] d']; try done.
  specialize (IH r2 d' Hh). by destruct (serve_conn handle fuel r2 d').
Qed.

(** One request of a master and nothing after it. *)
Lemma serve_conn_single {D} (handle : Z → list Z → D → result (list Z) * D) fuel t1 t0 u fc data d resp d' :
  (length data ≤ 251)%nat → handle fc data d = (Ok resp, d') →
  serve_conn handle (S (S fuel)) ([t1; t0; 0; 0] ++ put_be16 (2 + zlen data) ++ u :: fc :: data) d =
  (Ok [put_be16 (be16 t1 t0) ++ put_be16 0 ++ put_be16 (u16 (1 + zlen resp)) ++ 1 :: resp], d').
Proof.
  intros Hl Hh. assert (Hb : be16 (u8 (Z.shiftr (2 + zlen data) 8)) (u8 (2 + zlen data)) = 2 + zlen data).
  { apply put_be16_read. unfold is_u16, zlen. lia. }
  cbn -[be16 u8 u16 Z.add Z.sub zlen read_full put_be16]. unfold read_full at 1. cbn -[be16 u8 u16 Z.add Z.sub zlen read_full].
  rewrite Hb. change (be16 0 0 =? 0) with true.
  rewrite !(proj2 (Z.ltb_ge _ _)) by (unfold zlen; lia). cbn [negb orb].
  unfold read_full at 1. replace (Z.to_nat (2 + zlen data - 1)) with (length (fc :: data)) by (unfold zlen; cbn; lia).
  rewrite Nat.leb_refl, take_ge, drop_ge by done. by rewrite Hh.
Qed.
