(* ===== verification/RecloserSim.v ===== *)
(** * The recloser simulator (services/recloser-sim)

    The device state, the HTTP commands, the Modbus writes and the points of
    the outstation, and the goroutines of the automatic reclosing.  A goroutine
    that sleeps is counted: [recloses] of them wait the two seconds of
    [autoReclose], [trips] the half second after an attempt.  They wake in any
    order, between any two requests. *)
From Stdlib Require Import Ascii String SpecFloat.
From S2P Require Import Prelude GoLib Dnp3App Dnp3Outstation SimShared SimModbus.
From stdpp Require Import gmap strings.

#[local] Open Scope string_scope.
#[local] Open Scope list_scope.
#[local] Open Scope Z_scope.

Record RecloserState : Type := mkRecloserState {
  Closed : bool;
  RecloseEnabled : bool;
  ShotCount : Z;
  Lockout : bool;
  FaultSeen : bool;
  AutoMode : bool;
  CommsOK : bool;
  LastCommandSource : string
}.

Definition maxShots : Z := 3.

Definition set_Closed v (s : RecloserState) : RecloserState :=
  mkRecloserState v (RecloseEnabled s) (ShotCount s) (Lockout s) (FaultSeen s) (AutoMode s) (CommsOK s) (LastCommandSource s).
Definition set_RecloseEnabled v (s : RecloserState) : RecloserState :=
  mkRecloserState (Closed s) v (ShotCount s) (Lockout s) (FaultSeen s) (AutoMode s) (CommsOK s) (LastCommandSource s).
Definition set_ShotCount v (s : RecloserState) : RecloserState :=
  mkRecloserState (Closed s) (RecloseEnabled s) v (Lockout s) (FaultSeen s) (AutoMode s) (CommsOK s) (LastCommandSource s).
Definition set_Lockout v (s : RecloserState) : RecloserState :=
  mkRecloserState (Closed s) (RecloseEnabled s) (ShotCount s) v (FaultSeen s) (AutoMode s) (CommsOK s) (LastCommandSource s).
Definition set_FaultSeen v (s : RecloserState) : RecloserState :=
  mkRecloserState (Closed s) (RecloseEnabled s) (ShotCount s) (Lockout s) v (AutoMode s) (CommsOK s) (LastCommandSource s).
Definition set_LastCommandSource v (s : RecloserState) : RecloserState :=
  mkRecloserState (Closed s) (RecloseEnabled s) (ShotCount s) (Lockout s) (FaultSeen s) (AutoMode s) (CommsOK s) v.

Definition snapshot (s : RecloserState) : gmap string any :=
  table
  [("closed", ABool (Closed s));
   ("reclose_enabled", ABool (RecloseEnabled s));
   ("shot_count", AInt (ShotCount s));
   ("lockout", ABool (Lockout s));
   ("fault_seen", ABool (FaultSeen s));
   ("auto_mode", ABool (AutoMode s));
   ("comms_ok", ABool (CommsOK s));
   ("last_command_source", AStr (LastCommandSource s))].

(** The process: the device and its sleeping goroutines. *)
Record recloser : Type := mkRecloser {
  node : sim RecloserState;
  recloses : nat;
  trips : nat
}.

Definition shape (p : recloser) : RecloserState := state (node p).
Definition update (f : RecloserState → RecloserState) (p : recloser) : recloser :=
  mkRecloser (with_state f (node p)) (recloses p) (trips p).
Definition go_autoReclose (p : recloser) : recloser := mkRecloser (node p) (S (recloses p)) (trips p).
Definition go_trip (p : recloser) : recloser := mkRecloser (node p) (recloses p) (S (trips p)).
Definition add_entry (source command result detail : string) (p : recloser) : recloser :=
  mkRecloser (record_ source "recloser-sim" command result detail "" (node p)) (recloses p) (trips p).

Definition state0 : RecloserState := mkRecloserState true true 0 false false true true "".
Definition start (now : Z) : recloser := mkRecloser (mkSim state0 (NewAuditLog 100) now) 0 0.

(** ** The reclosing sequence

    [autoReclose] after its sleep; the goroutine is no longer counted. *)
Definition autoReclose (p : recloser) : recloser :=
  let s := shape p in
  if negb (RecloseEnabled s) || Lockout s || negb (AutoMode s) then p
  else if FaultSeen s && (ShotCount s <? maxShots) then
    let p := update (set_Closed true) p in
    if FaultSeen (shape p) then go_trip p else p
  else p.

(** The function literal after its sleep. *)
Definition trip_again (p : recloser) : recloser :=
  let s := shape p in
  if FaultSeen s && Closed s then
    let p := update (λ s, set_ShotCount (ShotCount s + 1) (set_Closed false s)) p in
    if maxShots <=? ShotCount (shape p) then update (set_Lockout true) p else go_autoReclose p
  else p.

(** A sleeping goroutine wakes. *)
Inductive wakes (p : recloser) : recloser → Prop :=
| wake_reclose n : recloses p = S n → wakes p (autoReclose (mkRecloser (node p) n (trips p)))
| wake_trip n : trips p = S n → wakes p (trip_again (mkRecloser (node p) (recloses p) n)).

(** ** Commands over HTTP *)

(** The cases of [handleCommand]: the state, the result and the detail. *)
Definition inject_fault (p : recloser) : recloser * string :=
  let p := update (set_FaultSeen true) p in
  let s := shape p in
  if Closed s then
    let p := update (λ s, set_ShotCount (ShotCount s + 1) (set_Closed false s)) p in
    let s := shape p in
    if (ShotCount s <? maxShots) && RecloseEnabled s && AutoMode s then (go_autoReclose p, "fault injected")
    else if maxShots <=? ShotCount s then (update (set_Lockout true) p, "fault injected, lockout after max shots")
    else (p, "fault injected")
  else (p, "fault injected").

Definition command (cmd source : string) (p : recloser) : recloser * (string * string) :=
  let by_source (f : RecloserState → RecloserState) := update (λ s, set_LastCommandSource source (f s)) p in
  if (cmd =? "open")%string then (by_source (set_Closed false), ("executed", "recloser opened"))
  else if (cmd =? "close")%string then
    if Lockout (shape p) then (p, ("rejected", "lockout active"))
    else (by_source (λ s, set_ShotCount 0 (set_Closed true s)), ("executed", "recloser closed"))
  else if (cmd =? "enable_reclose")%string then (by_source (set_RecloseEnabled true), ("executed", "reclose enabled"))
  else if (cmd =? "disable_reclose")%string then (by_source (set_RecloseEnabled false), ("executed", "reclose disabled"))
  else if (cmd =? "reset_lockout")%string then
    (by_source (λ s, set_ShotCount 0 (set_Lockout false s)), ("executed", "lockout reset"))
  else if (cmd =? "inject_fault")%string then let (p', detail) := inject_fault p in (p', ("executed", detail))
  else if (cmd =? "clear_fault")%string then (update (set_FaultSeen false) p, ("executed", "fault cleared"))
  else (p, ("rejected", "unknown command")).

Definition handleCommand (r : http_request) (p : recloser) : reply * recloser :=
  match body r with
  | None => (BadRequest, p)
  | Some cmd =>
      let source := SourceFromRequest r cmd in
      let '(p', (result, detail)) := command (Cmd cmd) source p in
      (Reply result detail, add_entry source (Cmd cmd) result detail p')
  end.

(** ** Modbus *)
Definition getCoils (p : recloser) : list bool :=
  let s := shape p in [Closed s; RecloseEnabled s; Lockout s; FaultSeen s; AutoMode s].
Definition getHoldingRegisters (p : recloser) : list Z :=
  let s := shape p in
  [boolToUint16 (Closed s); boolToUint16 (RecloseEnabled s); u16 (ShotCount s); boolToUint16 (Lockout s)].
Definition getInputRegisters (p : recloser) : list Z :=
  let s := shape p in [u16 (ShotCount s); boolToUint16 (Lockout s)].

Definition handleReadCoils (data : list Z) (p : recloser) := read_bits fcReadCoils (getCoils p) data.
Definition handleReadHoldingRegisters (data : list Z) (p : recloser) :=
  read_registers fcReadHoldingRegisters (getHoldingRegisters p) data.
Definition handleReadInputRegisters (data : list Z) (p : recloser) :=
  read_registers fcReadInputRegisters (getInputRegisters p) data.

Definition modbus_source : string := "modbus-tcp".
Definition by_modbus (f : RecloserState → RecloserState) : recloser → recloser :=
  update (λ s, set_LastCommandSource modbus_source (f s)).

(** Coil 4 on, with its entry of the log. *)
Definition write_fault (p : recloser) : recloser :=
  let p := by_modbus (set_FaultSeen true) p in
  let detail := "FAULT INJECTED via Modbus FC5 Write Coil" in
  if Closed (shape p) then
    let p := update (λ s, set_ShotCount (ShotCount s + 1) (set_Closed false s)) p in
    let s := shape p in
    if (ShotCount s <? maxShots) && RecloseEnabled s && AutoMode s
    then add_entry modbus_source "inject_fault" "executed" detail (go_autoReclose p)
    else if maxShots <=? ShotCount s
    then add_entry modbus_source "inject_fault" "executed" "FAULT INJECTED, lockout after max shots" (update (set_Lockout true) p)
    else add_entry modbus_source "inject_fault" "executed" detail p
  else add_entry modbus_source "inject_fault" "executed" detail p.

Definition handleWriteSingleCoil (data : list Z) (p : recloser) : list Z * recloser :=
  match words data with
  | None => (exception_ fcWriteSingleCoil 0x03, p)
  | Some (coilAddr, value) =>
      if negb (value =? 0xFF00) && negb (value =? 0x0000) then (exception_ fcWriteSingleCoil 0x03, p)
      else
        let boolVal := value =? 0xFF00 in
        let ok p' := (echo fcWriteSingleCoil coilAddr value, p') in
        if coilAddr =? 0 then
          if negb boolVal then
            ok (add_entry modbus_source "write_coil_open" "executed" "recloser OPENED via Modbus FC5 Write Coil"
                  (by_modbus (set_Closed false) p))
          else if Lockout (shape p) then
            (exception_ fcWriteSingleCoil 0x04, add_entry modbus_source "write_coil_close" "rejected" "lockout active" p)
          else
            ok (add_entry modbus_source "write_coil_close" "executed" "recloser CLOSED via Modbus FC5 Write Coil"
                  (by_modbus (λ s, set_ShotCount 0 (set_Closed true s)) p))
        else if coilAddr =? 1 then
          ok (add_entry modbus_source "write_coil_reclose" "executed"
                (if boolVal then "auto-reclose ENABLED via Modbus FC5 Write Coil"
                 else "auto-reclose DISABLED via Modbus FC5 Write Coil")
                (by_modbus (set_RecloseEnabled boolVal) p))
        else if coilAddr =? 4 then
          if boolVal then ok (write_fault p)
          else
            ok (add_entry modbus_source "clear_fault" "executed" "fault CLEARED via Modbus FC5 Write Coil"
                  (by_modbus (set_FaultSeen false) p))
        else (exception_ fcWriteSingleCoil 0x02, p)
  end.

Definition handleWriteSingleRegister (data : list Z) (p : recloser) : list Z * recloser :=
  match words data with
  | None => (exception_ fcWriteSingleRegister 0x03, p)
  | Some (regAddr, value) =>
      let ok p' := (echo fcWriteSingleRegister regAddr value, p') in
      if regAddr =? 0 then
        let closedVal := negb (value =? 0) in
        if closedVal && Lockout (shape p) then
          (exception_ fcWriteSingleRegister 0x04, add_entry modbus_source "write_reg_closed" "rejected" "lockout active" p)
        else
          ok (add_entry modbus_source "write_reg_closed" "executed"
                (if closedVal then "recloser CLOSED via Modbus FC6 Write Register"
                 else "recloser OPENED via Modbus FC6 Write Register")
                (by_modbus (λ s, let s := set_Closed closedVal s in if closedVal then set_ShotCount 0 s else s) p))
      else if regAddr =? 1 then
        let enabled := negb (value =? 0) in
        ok (add_entry modbus_source "write_reg_reclose" "executed"
              (if enabled then "auto-reclose ENABLED via Modbus FC6 Write Register"
               else "auto-reclose DISABLED via Modbus FC6 Write Register")
              (by_modbus (set_RecloseEnabled enabled) p))
      else (exception_ fcWriteSingleRegister 0x02, p)
  end.

#[export] Instance recloser_modbus : modbus_sim recloser := {
  md_read_coils := handleReadCoils;
  md_read_holding := handleReadHoldingRegisters;
  md_read_input := handleReadInputRegisters;
  md_write_coil := handleWriteSingleCoil;
  md_write_register := handleWriteSingleRegister
}.

Definition handleModbusConn : nat → list Z → recloser → result (list (list Z)) * recloser :=
  serve_conn handle_function.

(** ** The outstation *)
Definition dnp3_source : string := "dnp3-tcp".
Definition by_dnp3 (f : RecloserState → RecloserState) : recloser → recloser :=
  update (λ s, set_LastCommandSource dnp3_source (f s)).

Definition operate_closed (controlCode : Z) (p : recloser) : Z * recloser :=
  if trips_code controlCode then
    (CROBStatusSuccess,
     add_entry dnp3_source "crob_open" "executed" "recloser OPENED via DNP3 CROB" (by_dnp3 (set_Closed false) p))
  else if closes_code controlCode then
    if Lockout (shape p)
    then (CROBStatusBlocked, add_entry dnp3_source "crob_close" "rejected" "lockout active" p)
    else
      (CROBStatusSuccess,
       add_entry dnp3_source "crob_close" "executed" "recloser CLOSED via DNP3 CROB"
         (by_dnp3 (λ s, set_ShotCount 0 (set_Closed true s)) p))
  else (CROBStatusNotSupported, p).

Definition operate_reclose (controlCode : Z) (p : recloser) : Z * recloser :=
  let operate (enabled : bool) :=
    (CROBStatusSuccess,
     add_entry dnp3_source "crob_reclose" "executed"
       (if enabled then "auto-reclose ENABLED via DNP3 CROB" else "auto-reclose DISABLED via DNP3 CROB")
       (by_dnp3 (set_RecloseEnabled enabled) p)) in
  if closes_code controlCode then operate true
  else if trips_code controlCode then operate false
  else (CROBStatusNotSupported, p).

Definition dnp3_config : OutstationConfig recloser := {|
  OutstationAddr := 2;
  AcceptAnyMaster := true;
  MasterAddr := 0;
  BinaryInputs := [mkBP 0 (λ p, Lockout (shape p)); mkBP 1 (λ p, FaultSeen (shape p));
                   mkBP 2 (λ p, AutoMode (shape p)); mkBP 3 (λ p, CommsOK (shape p))];
  BinaryOutputs := [mkBOP 0 (λ p, Closed (shape p)) operate_closed;
                    mkBOP 1 (λ p, RecloseEnabled (shape p)) operate_reclose];
  AnalogInputs := [mkAP 0 (λ p, float32_int (ShotCount (shape p)))];
  AnalogOutputs := []
|}.

(** ** Everything that happens to the process *)
Definition tick (now : Z) (p : recloser) : recloser := mkRecloser (at_time now (node p)) (recloses p) (trips p).

Inductive step (p : recloser) : recloser → Prop :=
| step_command r : step p (handleCommand r p).2
| step_modbus fc data : step p (handle_function fc data p).2
| step_operate p' : operated dnp3_config p p' → step p p'
| step_wake p' : wakes p p' → step p p'
| step_tick now : step p (tick now p).

Definition reachable (p : recloser) : Prop := ∃ now, rtc step (start now) p.

(** ** Safety *)
Definition safe_state (s : RecloserState) : Prop :=
  0 ≤ ShotCount s ≤ maxShots ∧ Lockout s = (ShotCount s =? maxShots) ∧
  (Closed s = true → ShotCount s < maxShots) ∧ AutoMode s = true ∧ CommsOK s = true.

Ltac unfold_recloser :=
  unfold handleCommand, command, inject_fault, handleWriteSingleCoil, handleWriteSingleRegister, write_fault,
    operate_closed, operate_reclose, autoReclose, trip_again, by_modbus, by_dnp3, add_entry, update, go_trip,
    go_autoReclose, shape, with_state, record_, maxShots in *; cbn [fst snd node state recloses trips] in *.

(** The cases of a handler: its conditions and the fields it leaves. *)
Ltac recloser_cases :=
  unfold_recloser;
  repeat match goal with
         | |- context [if ?b then _ else _] => destruct b eqn:?; cbn [fst snd node state recloses trips] in *
         end; cbn in *.

Ltac safe_cases :=
  recloser_cases; bool_facts;
  repeat match goal with H : _ = true → _ < _ |- _ => specialize (H ltac:(assumption)) end;
  split_and!; try done; try lia; try (intros; bool_facts; lia); symmetry;
  try (apply Z.eqb_eq; lia); try (apply Z.eqb_neq; lia); try congruence;
  match goal with H : Lockout ?s = _ |- _ = Lockout ?s => rewrite H end;
  repeat match goal with |- context [?a =? ?b] => destruct (Z.eqb_spec a b) end; first [done|lia].

Lemma safe_command r p : safe_state (shape p) → safe_state (shape (handleCommand r p).2).
Proof.
  unfold safe_state. intros (H1 & H2 & H3 & H4 & H5). unfold handleCommand. destruct (body r) as [cmd|]; [|done].
  safe_cases.
Qed.

Lemma safe_write_coil data p : safe_state (shape p) → safe_state (shape (handleWriteSingleCoil data p).2).
Proof.
  unfold safe_state. intros (H1 & H2 & H3 & H4 & H5). unfold handleWriteSingleCoil.
  destruct (words data) as [[a v]|]; [|done]. safe_cases.
Qed.

Lemma safe_write_register data p : safe_state (shape p) → safe_state (shape (handleWriteSingleRegister data p).2).
Proof.
  unfold safe_state. intros (H1 & H2 & H3 & H4 & H5). unfold handleWriteSingleRegister.
  destruct (words data) as [[a v]|]; [|done]. safe_cases.
Qed.

Lemma safe_wakes p p' : wakes p p' → safe_state (shape p) → safe_state (shape p').
Proof.
  unfold safe_state. intros [n Hn|n Hn] (H1 & H2 & H3 & H4 & H5); [unfold autoReclose|unfold trip_again]; safe_cases.
Qed.

Lemma safe_operated p p' : operated dnp3_config p p' → safe_state (shape p) → safe_state (shape p').
Proof.
  unfold safe_state. intros [index code|index value] (H1 & H2 & H3 & H4 & H5); [|done].
  cbn [operateBinaryOutput dnp3_config BinaryOutputs BOP_Index BOP_Operate].
  unfold operate_closed, operate_reclose. safe_cases.
Qed.

Lemma safe_function fc data p : safe_state (shape p) → safe_state (shape (handle_function fc data p).2).
Proof.
  intros Hs. unfold handle_function. repeat case_if; try done.
  - pose proof (safe_write_coil data p Hs). cbn [md_write_coil recloser_modbus]. by destruct (handleWriteSingleCoil data p).
  - pose proof (safe_write_register data p Hs). cbn [md_write_register recloser_modbus].
    by destruct (handleWriteSingleRegister data p).
Qed.

Lemma safe_step p p' : step p p' → safe_state (shape p) → safe_state (shape p').
Proof.
  intros [r|fc data|p2 Hop|p2 Hw|now]; [apply safe_command|apply safe_function|by apply safe_operated|by apply safe_wakes|done].
Qed.

Lemma safe_start now : safe_state (shape (start now)).
Proof. unfold safe_state, shape, start, maxShots; cbn. split_and!; try done; lia. Qed.

Lemma reachable_safe p : reachable p → safe_state (shape p).
Proof.
  intros [now Hr]. revert p Hr. apply rtc_ind_r; [apply safe_start|].
  intros y z _ Hs. by apply safe_step.
Qed.

(** ** Who closes the recloser and who ends a lockout *)

(** A request of an operator to close. *)
Inductive close_order (p : recloser) : recloser → Prop :=
| order_http r cmd : body r = Some cmd → Cmd cmd = "close" → close_order p (handleCommand r p).2
| order_coil data : words data = Some (0, 0xFF00) → close_order p (handleWriteSingleCoil data p).2
| order_register data value :
    words data = Some (0, value) → value ≠ 0 → close_order p (handleWriteSingleRegister data p).2
| order_dnp3 code : closes_code code = true → close_order p (operate_closed code p).2.

(** A reset over HTTP. *)
Definition reset_order (p p' : recloser) : Prop :=
  ∃ r cmd, body r = Some cmd ∧ Cmd cmd = "reset_lockout" ∧ p' = (handleCommand r p).2.

(** The attempt of a goroutine: reclosing is enabled and the shots are not used up. *)
Definition attempt (p : recloser) : Prop :=
  (0 < recloses p)%nat ∧ RecloseEnabled (shape p) = true ∧ FaultSeen (shape p) = true ∧ ShotCount (shape p) < maxShots.

Lemma command_closes r p :
  Closed (shape p) = false → Closed (shape (handleCommand r p).2) = true →
  Lockout (shape p) = false ∧ close_order p (handleCommand r p).2.
Proof.
  intros Hc. destruct (body r) as [cmd|] eqn:Hr; [|unfold handleCommand; rewrite Hr; cbn; congruence].
  destruct (Cmd cmd =? "close")%string eqn:Hcmd.
  - intros H. split; [|by eapply order_http; [|apply String.eqb_eq]].
    revert H. unfold handleCommand. rewrite Hr. recloser_cases; congruence.
  - unfold handleCommand. rewrite Hr. recloser_cases; congruence.
Qed.

Lemma coil_closes data p :
  Closed (shape p) = false → Closed (shape (handleWriteSingleCoil data p).2) = true →
  Lockout (shape p) = false ∧ close_order p (handleWriteSingleCoil data p).2.
Proof.
  intros Hc H. assert (Hx : Lockout (shape p) = false ∧ words data = Some (0, 0xFF00)).
  { revert H. unfold handleWriteSingleCoil. destruct (words data) as [[a v]|]; [|cbn; congruence].
    recloser_cases; bool_facts; intros; try congruence. split; [done|by f_equal; f_equal]. }
  destruct Hx. split; [done|by constructor].
Qed.

Lemma register_closes data p :
  Closed (shape p) = false → Closed (shape (handleWriteSingleRegister data p).2) = true →
  Lockout (shape p) = false ∧ close_order p (handleWriteSingleRegister data p).2.
Proof.
  intros Hc H. assert (Hx : Lockout (shape p) = false ∧ ∃ v, words data = Some (0, v) ∧ v ≠ 0).
  { revert H. unfold handleWriteSingleRegister. destruct (words data) as [[a v]|]; [|cbn; congruence].
    destruct (Z.eqb_spec v 0); recloser_cases; bool_facts; intros; try congruence.
    split; [done|]. exists v. split; [by f_equal; f_equal|done]. }
  destruct Hx as (? & v & ? & ?). split; [done|by econstructor].
Qed.

Lemma dnp3_closes index code p :
  Closed (shape p) = false →
  Closed (shape (operateBinaryOutput (BinaryOutputs dnp3_config) index code p).2) = true →
  Lockout (shape p) = false ∧ close_order p (operateBinaryOutput (BinaryOutputs dnp3_config) index code p).2.
Proof.
  intros Hc. cbn [operateBinaryOutput dnp3_config BinaryOutputs BOP_Index BOP_Operate].
  destruct (0 =? index); [|destruct (1 =? index); [|intros; cbn in *; congruence]].
  - intros H. assert (Hx : Lockout (shape p) = false ∧ closes_code code = true).
    { revert H. unfold operate_closed. recloser_cases; first [congruence|done]. }
    destruct Hx. split; [done|by constructor].
  - unfold operate_reclose. recloser_cases; congruence.
Qed.

Lemma wake_closes p p' :
  wakes p p' → Closed (shape p) = false → Closed (shape p') = true → Lockout (shape p) = false ∧ attempt p.
Proof.
  unfold attempt. intros [n Hn|n Hn] Hc; [unfold autoReclose|unfold trip_again]; recloser_cases; bool_facts; intros;
    try congruence. split_and!; try done. lia.
Qed.

Lemma step_closes p p' :
  step p p' → Closed (shape p) = false → Closed (shape p') = true →
  Lockout (shape p) = false ∧ (close_order p p' ∨ wakes p p' ∧ attempt p).
Proof.
  intros Hs Hc Hc'. destruct Hs as [r|fc data|p' [index code|index value]|p' Hw|now].
  - destruct (command_closes r p); auto.
  - unfold handle_function in *. cbn [md_write_coil md_write_register recloser_modbus] in *. repeat case_if; try (cbn in *; congruence).
    + destruct (coil_closes data p) as [? ?]; destruct (handleWriteSingleCoil data p); auto.
    + destruct (register_closes data p) as [? ?]; destruct (handleWriteSingleRegister data p); auto.
  - destruct (dnp3_closes index code p); auto.
  - cbn in *. congruence.
  - destruct (wake_closes p p' Hw); auto.
  - unfold tick, shape in *. cbn in *. congruence.
Qed.

Lemma step_unlocks p p' :
  step p p' → Lockout (shape p) = true → Lockout (shape p') = false → reset_order p p'.
Proof.
  intros Hs Hl Hl'. destruct Hs as [r|fc data|p' [index code|index value]|p' [n Hn|n Hn]|now].
  - destruct (body r) as [cmd|] eqn:Hr; [|unfold handleCommand in Hl'; rewrite Hr in Hl'; cbn in *; congruence].
    destruct (Cmd cmd =? "reset_lockout")%string eqn:Hcmd; [exists r, cmd; split_and!; try done; by apply String.eqb_eq|].
    exfalso. revert Hl'. unfold handleCommand. rewrite Hr. recloser_cases; congruence.
  - exfalso. revert Hl'. unfold handle_function. cbn [md_write_coil md_write_register recloser_modbus].
    unfold handleWriteSingleCoil, handleWriteSingleRegister.
    destruct (words data) as [[a v]|]; recloser_cases; congruence.
  - exfalso. revert Hl'. cbn [operateBinaryOutput dnp3_config BinaryOutputs BOP_Index BOP_Operate].
    unfold operate_closed, operate_reclose. recloser_cases; congruence.
  - cbn in *. congruence.
  - exfalso. revert Hl'. unfold autoReclose. recloser_cases; congruence.
  - exfalso. revert Hl'. unfold trip_again. recloser_cases; congruence.
  - unfold tick, shape in *. cbn in *. congruence.
Qed.

(** C6. In every state the recloser reaches under any interleaving of HTTP
    commands, Modbus requests, DNP3 controls and its own timers, the shot count
    is between 0 and 3, the lockout stands exactly at the third shot, and a
    locked-out recloser is open.  In any step, a lockout ends only by a
    reset command over HTTP (no Modbus or DNP3 request and no timer ends it),
    and the recloser closes only when not locked out, by an operator's close
    request or by a timer's attempt with reclosing enabled, a fault present and
    shots left. *)
Theorem recloser_interlocks p p' :
  reachable p → step p p' →
  (0 ≤ ShotCount (shape p) ≤ 3 ∧ (Lockout (shape p) = true ↔ ShotCount (shape p) = 3) ∧
   (Lockout (shape p) = true → Closed (shape p) = false)) ∧
  (Lockout (shape p) = true → Lockout (shape p') = false → reset_order p p') ∧
  (Closed (shape p) = false → Closed (shape p') = true →
   Lockout (shape p) = false ∧ (close_order p p' ∨ wakes p p' ∧ attempt p)).
Proof.
  intros Hr Hs. apply reachable_safe in Hr as (H1 & H2 & H3 & _). unfold maxShots in *. split_and!.
  - lia.
  - lia.
  - rewrite H2. split; [by intros ?%Z.eqb_eq|by intros ->].
  - rewrite H2. intros Hl%Z.eqb_eq. destruct (Closed (shape p)); [|done]. specialize (H3 eq_refl). lia.
  - by apply step_unlocks.
  - by apply step_closes.
Qed.

Definition post (cmd source : string) : http_request :=
  mkRequest (Some (mkCommandRequest cmd source (S754_zero false))) "10.30.30.20:41000".

Lemma recloser_interlocks_witness :
  let p := (handleCommand (post "inject_fault" "") (start 0)).2 in
  let p' := autoReclose (mkRecloser (node p) 0 (trips p)) in
  step p p' ∧ Closed (shape p') = true ∧ Lockout (shape p) = false.
Proof.
  intros p p'.
  assert (Hs : step p p') by (apply step_wake, (wake_reclose p 0); vm_compute; reflexivity).
  assert (Hr : reachable p) by (exists 0; eapply rtc_l; [apply (step_command _ (post "inject_fault" ""))|apply rtc_refl]).
  split; [exact Hs|]. split; [vm_compute; reflexivity|].
  exact (proj1 (proj2 (proj2 (recloser_interlocks p p' Hr Hs)) ltac:(vm_compute; reflexivity) ltac:(vm_compute; reflexivity))).
Defined.

(** ** The reclosing sequence under a fault *)

(** While the fault lasts, reclosing is enabled and there is no lockout, some
    goroutine will act. *)
Definition pending_action (p : recloser) : Prop :=
  let s := shape p in
  FaultSeen s = true ∧ RecloseEnabled s = true ∧
  (Lockout s = false → if Closed s then (0 < trips p)%nat else (0 < recloses p)%nat).

(** What the goroutines can still do. *)
Definition budget (p : recloser) : Z :=
  2 * Z.of_nat (recloses p) + Z.of_nat (trips p) + 2 * (maxShots - ShotCount (shape p)).

Lemma wake_budget p p' : safe_state (shape p) → wakes p p' → 0 ≤ budget p' < budget p.
Proof.
  intros Hs Hw. pose proof (safe_wakes _ _ Hw Hs) as Hs'. unfold safe_state, budget, maxShots in *.
  split; [lia|]. destruct Hw as [n Hn|n Hn]; rewrite Hn; [unfold autoReclose in *|unfold trip_again in *];
    recloser_cases; lia.
Qed.

Lemma wake_pending p p' : safe_state (shape p) → wakes p p' → pending_action p → pending_action p'.
Proof.
  unfold safe_state, pending_action. intros (H1 & H2 & H3 & H4 & H5) Hw (Hf & He & Hp).
  destruct Hw as [n Hn|n Hn]; unfold_recloser.
  - rewrite He, H4. destruct (Lockout (state (node p))) eqn:Hl; cbn; [split_and!; try done; congruence|].
    symmetry in H2. apply Z.eqb_neq in H2. rewrite Hf, (proj2 (Z.ltb_lt _ _)) by lia. cbn. rewrite Hf. cbn.
    split_and!; try done. intros _. lia.
  - rewrite Hf. destruct (Closed (state (node p))) eqn:Hc; cbn; [|by rewrite Hc].
    case_if; cbn; split_and!; try done. intros _. lia.
Qed.

Lemma pending_quiet p : pending_action p → (∀ p', ¬ wakes p p') → Lockout (shape p) = true.
Proof.
  intros (_ & _ & Hp) Hq. destruct (Lockout (shape p)); [done|]. specialize (Hp eq_refl). exfalso.
  destruct (Closed (shape p)).
  - destruct (trips p) as [|n] eqn:Hn; [lia|]. by eapply Hq, wake_trip.
  - destruct (recloses p) as [|n] eqn:Hn; [lia|]. by eapply Hq, wake_reclose.
Qed.

Lemma wakes_runs n p p' :
  nsteps wakes n p p' → safe_state (shape p) → pending_action p →
  safe_state (shape p') ∧ pending_action p' ∧ Z.of_nat n ≤ budget p - budget p'.
Proof.
  induction 1 as [p|n p p1 p' Hw _ IH]; intros Hs Hp; [split_and!; try done; lia|].
  destruct (IH (safe_wakes _ _ Hw Hs) (wake_pending _ _ Hs Hw Hp)) as (? & ? & ?).
  pose proof (wake_budget _ _ Hs Hw). split_and!; try done; lia.
Qed.

(** Without a fault the goroutines leave the device alone. *)
Lemma wakes_cleared p p' : rtc wakes p p' → FaultSeen (shape p) = false → shape p' = shape p.
Proof.
  induction 1 as [|p p1 p' Hw _ IH]; intros Hf; [done|].
  assert (shape p1 = shape p) as Heq.
  { destruct Hw as [n Hn|n Hn]; [unfold autoReclose|unfold trip_again]; recloser_cases; bool_facts; congruence. }
  rewrite IH; [done|by rewrite Heq].
Qed.

Lemma injected_pending p source :
  safe_state (shape p) → Closed (shape p) = true → RecloseEnabled (shape p) = true →
  pending_action (command "inject_fault" source p).1.
Proof.
  unfold safe_state, pending_action. intros (H1 & H2 & H3 & H4 & H5) Hc He.
  specialize (H3 Hc). unfold_recloser. cbn. rewrite Hc. cbn. rewrite He, H4, !andb_true_r.
  destruct (Z.ltb_spec (ShotCount (state (node p)) + 1) 3); cbn; [by split_and!; try done; intros; lia|].
  rewrite (proj2 (Z.leb_le _ _)) by lia. by cbn.
Qed.

(** C14. A fault injected into a closed recloser with reclosing enabled: if it
    persists, then however the timers are scheduled they act at most a bounded
    number of times and the recloser ends open and locked out at three shots.
    If it is cleared at any point of the sequence, the position, the shot
    count and the lockout stay as they are at that moment: in particular a
    recloser whose fault is cleared while it is open never closes again by
    itself. *)
Theorem recloser_sequence p source source' :
  reachable p → Closed (shape p) = true → RecloseEnabled (shape p) = true →
  let p1 := (command "inject_fault" source p).1 in
  (∀ n p2, nsteps wakes n p1 p2 → Z.of_nat n ≤ 2 * Z.of_nat (recloses p) + Z.of_nat (trips p) + 6) ∧
  (∀ p2, rtc wakes p1 p2 → (∀ p3, ¬ wakes p2 p3) →
     Lockout (shape p2) = true ∧ Closed (shape p2) = false ∧ ShotCount (shape p2) = 3) ∧
  (∀ p2 p3, rtc wakes p1 p2 → rtc wakes (command "clear_fault" source' p2).1 p3 →
     Closed (shape p3) = Closed (shape p2) ∧ ShotCount (shape p3) = ShotCount (shape p2) ∧
     Lockout (shape p3) = Lockout (shape p2)).
Proof.
  intros Hr Hc He p1. apply reachable_safe in Hr as Hs.
  assert (Hs1 : safe_state (shape p1)).
  { assert (p1' : shape p1 = shape (handleCommand (mkRequest (Some (mkCommandRequest "inject_fault" source S754_nan)) "") p).2).
    { unfold p1, handleCommand. cbn [body Cmd]. destruct (command "inject_fault" _ p) as [q [a b]] eqn:Hq.
      unfold command in *. cbn in *. destruct (inject_fault p); by simplify_eq. }
    rewrite p1'. by apply safe_command. }
  assert (Hp1 : pending_action p1) by by apply injected_pending.
  assert (Hb : budget p1 ≤ 2 * Z.of_nat (recloses p) + Z.of_nat (trips p) + 6).
  { destruct Hs as (H1 & _ & H3 & _). specialize (H3 Hc). unfold p1, budget. unfold_recloser. cbn. rewrite Hc. cbn.
    case_if; cbn; [lia|]. case_if; cbn; lia. }
  split_and!.
  - intros n p2 Hn. destruct (wakes_runs _ _ _ Hn Hs1 Hp1) as (Hs2 & _ & ?).
    destruct Hs2 as (? & _). unfold budget in *. unfold maxShots in *. lia.
  - intros p2 [n Hn]%rtc_nsteps Hq. destruct (wakes_runs _ _ _ Hn Hs1 Hp1) as ((H1 & H2 & H3 & _) & Hp2 & _).
    pose proof (pending_quiet _ Hp2 Hq) as Hl. split; [done|]. rewrite Hl in H2. symmetry in H2. apply Z.eqb_eq in H2.
    split; [|done]. destruct (Closed (shape p2)); [|done]. specialize (H3 eq_refl). lia.
  - intros p2 p3 _ Hw. apply wakes_cleared in Hw; [|done]. by rewrite Hw.
Qed.

Lemma recloser_sequence_witness :
  let p1 := (command "inject_fault" "lab" (start 0)).1 in
  Closed (shape p1) = false ∧
  ∀ p3, rtc wakes (command "clear_fault" "lab" p1).1 p3 → Closed (shape p3) = false.
Proof.
  intros p1. split; [vm_compute; reflexivity|]. intros p3 Hw.
  destruct (recloser_sequence (start 0) "lab" "lab" ltac:(exists 0; apply rtc_refl) eq_refl eq_refl) as (_ & _ & H).
  exact (proj1 (H p1 p3 (rtc_refl _ _) Hw)).
Defined.
