(* ===== verification/RelaySim.v ===== *)
(** * The relay simulator (services/relay-sim)

    The breaker with its remote-control switch and lockout: the HTTP commands,
    the Modbus writes and the point of the outstation.  Measurements are
    binary64 numbers. *)
From Stdlib Require Import Ascii String SpecFloat.
From S2P Require Import Prelude GoLib Dnp3App Dnp3Outstation SimShared SimModbus.
From stdpp Require Import pretty gmap strings.

#[local] Open Scope string_scope.
#[local] Open Scope list_scope.
#[local] Open Scope Z_scope.

Record RelayState : Type := mkRelayState {
  BreakerClosed : bool;
  RemoteControlEnabled : bool;
  Lockout : bool;
  FaultSeen : bool;
  MeasuredCurrent : float64;
  MeasuredVoltage : float64;
  CommsOK : bool;
  LastCommandSource : string
}.

Definition set_BreakerClosed v (s : RelayState) : RelayState :=
  mkRelayState v (RemoteControlEnabled s) (Lockout s) (FaultSeen s) (MeasuredCurrent s) (MeasuredVoltage s) (CommsOK s) (LastCommandSource s).
Definition set_Lockout v (s : RelayState) : RelayState :=
  mkRelayState (BreakerClosed s) (RemoteControlEnabled s) v (FaultSeen s) (MeasuredCurrent s) (MeasuredVoltage s) (CommsOK s) (LastCommandSource s).
Definition set_FaultSeen v (s : RelayState) : RelayState :=
  mkRelayState (BreakerClosed s) (RemoteControlEnabled s) (Lockout s) v (MeasuredCurrent s) (MeasuredVoltage s) (CommsOK s) (LastCommandSource s).
Definition set_MeasuredCurrent v (s : RelayState) : RelayState :=
  mkRelayState (BreakerClosed s) (RemoteControlEnabled s) (Lockout s) (FaultSeen s) v (MeasuredVoltage s) (CommsOK s) (LastCommandSource s).
Definition set_MeasuredVoltage v (s : RelayState) : RelayState :=
  mkRelayState (BreakerClosed s) (RemoteControlEnabled s) (Lockout s) (FaultSeen s) (MeasuredCurrent s) v (CommsOK s) (LastCommandSource s).
Definition set_LastCommandSource v (s : RelayState) : RelayState :=
  mkRelayState (BreakerClosed s) (RemoteControlEnabled s) (Lockout s) (FaultSeen s) (MeasuredCurrent s) (MeasuredVoltage s) (CommsOK s) v.

Definition snapshot (s : RelayState) : gmap string any :=
  table
  [("breaker_closed", ABool (BreakerClosed s));
   ("remote_control_enabled", ABool (RemoteControlEnabled s));
   ("lockout", ABool (Lockout s));
   ("fault_seen", ABool (FaultSeen s));
   ("measured_current_a", ANum (MeasuredCurrent s));
   ("measured_voltage_kv", ANum (MeasuredVoltage s));
   ("comms_ok", ABool (CommsOK s));
   ("last_command_source", AStr (LastCommandSource s))].

Definition state0 : RelayState :=
  mkRelayState true true false false (f64_of 120 0) (fdiv (f64_of 1247 0) (f64_of 100 0)) true "".
Definition start (now : Z) : sim RelayState := mkSim state0 (NewAuditLog 100) now.

Section Relay.
Context `{Conversions}.

(** ** Commands over HTTP *)

(** The cases of [handleCommand]: the state, the result and the detail.
    [switch] is the body the cases trip and close share. *)
Definition command (cmd source : string) (value : float64) (p : sim RelayState) : sim RelayState * (string * string) :=
  let by_source (f : RelayState → RelayState) := with_state (λ s, set_LastCommandSource source (f s)) p in
  let switch (closed : bool) (detail : string) :=
    if negb (RemoteControlEnabled (state p)) then (p, ("rejected", "remote control disabled"))
    else if Lockout (state p) then (p, ("rejected", "lockout active"))
    else (by_source (set_BreakerClosed closed), ("executed", detail)) in
  if (cmd =? "trip")%string then switch false "breaker opened"
  else if (cmd =? "close")%string then switch true "breaker closed"
  else if (cmd =? "lockout")%string then
    (by_source (λ s, set_BreakerClosed false (set_Lockout true s)), ("executed", "lockout engaged, breaker open"))
  else if (cmd =? "unlock")%string then (by_source (set_Lockout false), ("executed", "lockout cleared"))
  else if (cmd =? "inject_fault")%string then
    let p' := by_source (set_FaultSeen true) in
    if BreakerClosed (state p')
    then (with_state (set_BreakerClosed false) p', ("executed", "fault injected — overcurrent trip, breaker opened"))
    else (p', ("executed", "fault injected (breaker already open)"))
  else if (cmd =? "clear_fault")%string then (with_state (set_FaultSeen false) p, ("executed", "fault cleared"))
  else if (cmd =? "set_current")%string then (with_state (set_MeasuredCurrent value) p, ("executed", ""))
  else if (cmd =? "set_voltage")%string then (with_state (set_MeasuredVoltage value) p, ("executed", ""))
  else (p, ("rejected", "unknown command")).

Definition handleCommand (r : http_request) (p : sim RelayState) : reply * sim RelayState :=
  match body r with
  | None => (BadRequest, p)
  | Some cmd =>
      let source := SourceFromRequest r cmd in
      let '(p', (result, detail)) := command (Cmd cmd) source (Cmd_Value cmd) p in
      (Reply result detail, record_ source "relay-sim" (Cmd cmd) result detail "" p')
  end.

(** ** Modbus *)
Definition getCoils (p : sim RelayState) : list bool :=
  let s := state p in [BreakerClosed s; RemoteControlEnabled s; Lockout s; FaultSeen s].
Definition getHoldingRegisters (p : sim RelayState) : list Z :=
  let s := state p in
  [boolToUint16 (BreakerClosed s); boolToUint16 (RemoteControlEnabled s); boolToUint16 (Lockout s)].
Definition getInputRegisters (p : sim RelayState) : list Z :=
  let s := state p in
  [to_uint16 (fmul (MeasuredCurrent s) (f64_of 10 0)); to_uint16 (fmul (MeasuredVoltage s) (f64_of 100 0))].

Definition handleReadCoils (data : list Z) (p : sim RelayState) := read_bits fcReadCoils (getCoils p) data.
Definition handleReadHoldingRegisters (data : list Z) (p : sim RelayState) :=
  read_registers fcReadHoldingRegisters (getHoldingRegisters p) data.
Definition handleReadInputRegisters (data : list Z) (p : sim RelayState) :=
  read_registers fcReadInputRegisters (getInputRegisters p) data.

Definition modbus_source : string := "modbus-tcp".
Definition entry (command result detail : string) : sim RelayState → sim RelayState :=
  record_ modbus_source "relay-sim" command result detail "".

(** The end of the two write handlers: the guards, the switch and the echo. *)
Definition switch_breaker (fc addr value : Z) (closedVal : bool) (command how : string) (p : sim RelayState)
    : list Z * sim RelayState :=
  if negb (RemoteControlEnabled (state p)) then
    (exception_ fc 0x04, entry command "rejected" "remote control disabled" p)
  else if Lockout (state p) then (exception_ fc 0x04, entry command "rejected" "lockout active" p)
  else
    (echo fc addr value,
     entry command "executed" ((if closedVal then "breaker CLOSED via Modbus " else "breaker OPENED via Modbus ") +:+ how)
       (with_state (λ s, set_LastCommandSource modbus_source (set_BreakerClosed closedVal s)) p)).

Definition handleWriteSingleCoil (data : list Z) (p : sim RelayState) : list Z * sim RelayState :=
  match words data with
  | None => (exception_ fcWriteSingleCoil 0x03, p)
  | Some (coilAddr, value) =>
      if negb (coilAddr =? 0) then (exception_ fcWriteSingleCoil 0x02, p)
      else if negb (value =? 0xFF00) && negb (value =? 0x0000) then (exception_ fcWriteSingleCoil 0x03, p)
      else switch_breaker fcWriteSingleCoil coilAddr value (value =? 0xFF00) "write_coil_breaker" "FC5 Write Coil" p
  end.

Definition handleWriteSingleRegister (data : list Z) (p : sim RelayState) : list Z * sim RelayState :=
  match words data with
  | None => (exception_ fcWriteSingleRegister 0x03, p)
  | Some (regAddr, value) =>
      if negb (regAddr =? 0) then (exception_ fcWriteSingleRegister 0x02, p)
      else switch_breaker fcWriteSingleRegister regAddr value (negb (value =? 0)) "write_reg_breaker" "FC6 Write Register" p
  end.

#[export] Instance relay_modbus : modbus_sim (sim RelayState) := {
  md_read_coils := handleReadCoils;
  md_read_holding := handleReadHoldingRegisters;
  md_read_input := handleReadInputRegisters;
  md_write_coil := handleWriteSingleCoil;
  md_write_register := handleWriteSingleRegister
}.

Definition handleModbusConn : nat → list Z → sim RelayState → result (list (list Z)) * sim RelayState :=
  serve_conn handle_function.

(** ** The outstation *)
Definition dnp3_source : string := "dnp3-tcp".

Definition operate_breaker (controlCode : Z) (p : sim RelayState) : Z * sim RelayState :=
  let log := record_ dnp3_source "relay-sim" "crob_breaker" in
  let operate (closedVal : bool) (action : string) :=
    (CROBStatusSuccess,
     log "executed" ("breaker " +:+ action +:+ " via DNP3 CROB") ""
       (with_state (λ s, set_LastCommandSource dnp3_source (set_BreakerClosed closedVal s)) p)) in
  if negb (RemoteControlEnabled (state p)) then (CROBStatusBlocked, log "rejected" "remote control disabled" "" p)
  else if Lockout (state p) then (CROBStatusBlocked, log "rejected" "lockout active" "" p)
  else if trips_code controlCode then operate false "TRIP"
  else if closes_code controlCode then operate true "CLOSE"
  else (CROBStatusNotSupported, p).

Definition dnp3_config : OutstationConfig (sim RelayState) := {|
  OutstationAddr := 1;
  AcceptAnyMaster := true;
  MasterAddr := 0;
  BinaryInputs := [mkBP 0 (λ p, RemoteControlEnabled (state p)); mkBP 1 (λ p, Lockout (state p));
                   mkBP 2 (λ p, FaultSeen (state p)); mkBP 3 (λ p, CommsOK (state p))];
  BinaryOutputs := [mkBOP 0 (λ p, BreakerClosed (state p)) operate_breaker];
  AnalogInputs := [mkAP 0 (λ p, float32_bits (MeasuredCurrent (state p)));
                   mkAP 1 (λ p, float32_bits (MeasuredVoltage (state p)))];
  AnalogOutputs := []
|}.

(** ** Everything that happens to the process *)
Inductive step (p : sim RelayState) : sim RelayState → Prop :=
| step_command r : step p (handleCommand r p).2
| step_modbus fc data : step p (handle_function fc data p).2
| step_operate p' : operated dnp3_config p p' → step p p'
| step_tick now : step p (at_time now p).

Definition reachable (p : sim RelayState) : Prop := ∃ now, rtc step (start now) p.

(** ** Safety *)
Ltac relay_cases :=
  unfold handleCommand, command, handleWriteSingleCoil, handleWriteSingleRegister, switch_breaker, entry,
    operate_breaker, with_state, record_, at_time in *; cbn [fst snd state] in *;
  repeat match goal with
         | |- context [if ?b then _ else _] => destruct b eqn:?; cbn [fst snd state] in *
         end; cbn in *.

(** What changes the breaker or ends the lockout, on the states. *)
Definition relay_safe (s : RelayState) : Prop :=
  RemoteControlEnabled s = true ∧ CommsOK s = true ∧ (Lockout s = true → BreakerClosed s = false).

(** Locked out, the state keeps its lockout unless a request unlocks. *)
Definition unlock_request (p p' : sim RelayState) : Prop :=
  ∃ r cmd, body r = Some cmd ∧ Cmd cmd = "unlock" ∧ p' = (handleCommand r p).2.

Lemma relay_step p p' :
  step p p' → relay_safe (state p) →
  relay_safe (state p') ∧
  (Lockout (state p) = true → unlock_request p p' ∨ Lockout (state p') = true ∧ BreakerClosed (state p') = false).
Proof.
  unfold relay_safe. intros Hs (H1 & H2 & H3). destruct Hs as [r|fc data|p' [index code|index value]|now].
  - destruct (body r) as [cmd|] eqn:Hr; [|unfold handleCommand; rewrite Hr; cbn; auto].
    destruct (Cmd cmd =? "unlock")%string eqn:Hu.
    + split; [unfold handleCommand; rewrite Hr; relay_cases; bool_facts; intuition congruence|].
      left. exists r, cmd. split_and!; try done. by apply String.eqb_eq.
    + unfold handleCommand. rewrite Hr. relay_cases; bool_facts; intuition congruence.
  - unfold handle_function. cbn [md_write_coil md_write_register relay_modbus].
    unfold handleWriteSingleCoil, handleWriteSingleRegister.
    destruct (words data) as [[a v]|]; relay_cases; bool_facts; intuition congruence.
  - cbn [operateBinaryOutput dnp3_config BinaryOutputs BOP_Index BOP_Operate].
    unfold operate_breaker. relay_cases; bool_facts; intuition congruence.
  - cbn. intuition.
  - cbn. intuition.
Qed.

Lemma relay_reachable p : reachable p → relay_safe (state p).
Proof.
  intros [now Hr]. revert p Hr. apply rtc_ind_r; [by repeat split|].
  intros y z _ Hs Hy. by eapply relay_step.
Qed.

(** In every reachable state a locked-out breaker is open, and the lockout ends
    only by an unlock command over HTTP.  Remote control is never disabled:
    the branches that refuse for it are dead. *)
Theorem relay_lockout p p' :
  reachable p → step p p' →
  RemoteControlEnabled (state p) = true ∧ (Lockout (state p) = true → BreakerClosed (state p) = false) ∧
  (Lockout (state p) = true → unlock_request p p' ∨ Lockout (state p') = true ∧ BreakerClosed (state p') = false).
Proof.
  intros Hr%relay_reachable Hs. destruct (relay_step _ _ Hs Hr) as [_ Hl]. destruct Hr as (? & _ & ?). done.
Qed.

End Relay.
