(* ===== verification/CapbankSim.v ===== *)
(** * The capacitor bank simulator (services/capbank-sim)

    The switched bank whose contacts wear: six operations lock it out until a
    reset.  The HTTP commands, the Modbus writes and the points of the
    outstation. *)
From Stdlib Require Import Ascii String SpecFloat.
From S2P Require Import Prelude GoLib Dnp3App Dnp3Outstation SimShared SimModbus.
From stdpp Require Import pretty gmap strings.

#[local] Open Scope string_scope.
#[local] Open Scope list_scope.
#[local] Open Scope Z_scope.

Record CapbankState : Type := mkCapbankState {
  SwitchedIn : bool;
  AutoMode : bool;
  KvarRating : float64;
  VoltageThreshLow : float64;
  VoltageThreshHigh : float64;
  CommsOK : bool;
  Alarm : bool;
  SwitchCount : Z;
  Lockout : bool;
  LastCommandSource : string
}.

Definition maxSwitchCount : Z := 6.

Definition set_SwitchedIn v (s : CapbankState) : CapbankState :=
  mkCapbankState v (AutoMode s) (KvarRating s) (VoltageThreshLow s) (VoltageThreshHigh s) (CommsOK s) (Alarm s) (SwitchCount s) (Lockout s) (LastCommandSource s).
Definition set_AutoMode v (s : CapbankState) : CapbankState :=
  mkCapbankState (SwitchedIn s) v (KvarRating s) (VoltageThreshLow s) (VoltageThreshHigh s) (CommsOK s) (Alarm s) (SwitchCount s) (Lockout s) (LastCommandSource s).
Definition set_VoltageThreshLow v (s : CapbankState) : CapbankState :=
  mkCapbankState (SwitchedIn s) (AutoMode s) (KvarRating s) v (VoltageThreshHigh s) (CommsOK s) (Alarm s) (SwitchCount s) (Lockout s) (LastCommandSource s).
Definition set_VoltageThreshHigh v (s : CapbankState) : CapbankState :=
  mkCapbankState (SwitchedIn s) (AutoMode s) (KvarRating s) (VoltageThreshLow s) v (CommsOK s) (Alarm s) (SwitchCount s) (Lockout s) (LastCommandSource s).
Definition set_Alarm v (s : CapbankState) : CapbankState :=
  mkCapbankState (SwitchedIn s) (AutoMode s) (KvarRating s) (VoltageThreshLow s) (VoltageThreshHigh s) (CommsOK s) v (SwitchCount s) (Lockout s) (LastCommandSource s).
Definition set_SwitchCount v (s : CapbankState) : CapbankState :=
  mkCapbankState (SwitchedIn s) (AutoMode s) (KvarRating s) (VoltageThreshLow s) (VoltageThreshHigh s) (CommsOK s) (Alarm s) v (Lockout s) (LastCommandSource s).
Definition set_Lockout v (s : CapbankState) : CapbankState :=
  mkCapbankState (SwitchedIn s) (AutoMode s) (KvarRating s) (VoltageThreshLow s) (VoltageThreshHigh s) (CommsOK s) (Alarm s) (SwitchCount s) v (LastCommandSource s).
Definition set_LastCommandSource v (s : CapbankState) : CapbankState :=
  mkCapbankState (SwitchedIn s) (AutoMode s) (KvarRating s) (VoltageThreshLow s) (VoltageThreshHigh s) (CommsOK s) (Alarm s) (SwitchCount s) (Lockout s) v.

Definition snapshot (s : CapbankState) : gmap string any :=
  table
  [("switched_in", ABool (SwitchedIn s));
   ("auto_mode", ABool (AutoMode s));
   ("kvar_rating", ANum (KvarRating s));
   ("voltage_thresh_low_v", ANum (VoltageThreshLow s));
   ("voltage_thresh_high_v", ANum (VoltageThreshHigh s));
   ("comms_ok", ABool (CommsOK s));
   ("alarm", ABool (Alarm s));
   ("switch_count", AInt (SwitchCount s));
   ("lockout", ABool (Lockout s));
   ("last_command_source", AStr (LastCommandSource s))].

Definition state0 : CapbankState :=
  mkCapbankState false true (f64_of 300 0) (f64_of 114 0) (f64_of 126 0) true false 0 false "".
Definition start (now : Z) : sim CapbankState := mkSim state0 (NewAuditLog 100) now.

(** One operation of the contacts. *)
Definition operate_switch (on : bool) (source : string) (s : CapbankState) : CapbankState :=
  let s := set_LastCommandSource source (set_SwitchCount (SwitchCount s + 1) (set_SwitchedIn on s)) in
  if maxSwitchCount <=? SwitchCount s then set_Alarm true (set_Lockout true s) else s.

Definition reset (source : string) (s : CapbankState) : CapbankState :=
  set_LastCommandSource source (set_SwitchCount 0 (set_Alarm false (set_Lockout false s))).

Section Capbank.
Context `{Conversions}.

(** ** Commands over HTTP *)

(** The cases of [handleCommand]: the state, the result and the detail, and
    the impact. *)
Definition command (cmd source : string) (value : float64) (p : sim CapbankState)
    : sim CapbankState * (string * string * string) :=
  let by_source (f : CapbankState → CapbankState) := with_state (λ s, set_LastCommandSource source (f s)) p in
  let switch (on : bool) (what : string) :=
    let p' := with_state (operate_switch on source) p in
    (p', (("executed", "capacitor bank " +:+ what +:+ " (switch count: " +:+ pretty (SwitchCount (state p')) +:+ ")"),
          if maxSwitchCount <=? SwitchCount (state p') then "capbank locked out — switch count exceeded" else "")) in
  if (cmd =? "switch_in")%string then
    if Lockout (state p) then (p, (("rejected", "capbank in lockout — reset required"), ""))
    else if SwitchedIn (state p) then (p, (("executed", "already switched in (no-op)"), ""))
    else switch true "energized"
  else if (cmd =? "switch_out")%string then
    if Lockout (state p) then (p, (("rejected", "capbank in lockout — reset required"), ""))
    else if negb (SwitchedIn (state p)) then (p, (("rejected", "already switched out"), ""))
    else switch false "de-energized"
  else if (cmd =? "set_auto")%string then (by_source (set_AutoMode true), (("executed", "auto mode enabled"), ""))
  else if (cmd =? "set_manual")%string then (by_source (set_AutoMode false), (("executed", "manual mode enabled"), ""))
  else if (cmd =? "reset_lockout")%string then
    (with_state (reset source) p, (("executed", "lockout reset, switch count cleared"), ""))
  else if (cmd =? "set_thresh_low")%string then
    (by_source (set_VoltageThreshLow value), (("executed", "low voltage threshold set to " +:+ fixed1 value +:+ "V"), ""))
  else if (cmd =? "set_thresh_high")%string then
    (by_source (set_VoltageThreshHigh value), (("executed", "high voltage threshold set to " +:+ fixed1 value +:+ "V"), ""))
  else (p, (("rejected", "unknown command"), "")).

Definition handleCommand (r : http_request) (p : sim CapbankState) : reply * sim CapbankState :=
  match body r with
  | None => (BadRequest, p)
  | Some cmd =>
      let source := SourceFromRequest r cmd in
      let '(p', (result, detail, impact)) := command (Cmd cmd) source (Cmd_Value cmd) p in
      (Reply result detail, record_ source "capbank-sim" (Cmd cmd) result detail impact p')
  end.

(** ** Modbus *)
Definition getCoils (p : sim CapbankState) : list bool :=
  let s := state p in [SwitchedIn s; AutoMode s; Lockout s; Alarm s].
Definition getHoldingRegisters (p : sim CapbankState) : list Z :=
  let s := state p in
  [boolToUint16 (SwitchedIn s); boolToUint16 (AutoMode s); to_uint16 (fmul (VoltageThreshLow s) (f64_of 10 0));
   to_uint16 (fmul (VoltageThreshHigh s) (f64_of 10 0))].
Definition getInputRegisters (p : sim CapbankState) : list Z :=
  let s := state p in
  [to_uint16 (fmul (KvarRating s) (f64_of 10 0)); u16 (SwitchCount s); boolToUint16 (Lockout s)].

Definition handleReadCoils (data : list Z) (p : sim CapbankState) := read_bits fcReadCoils (getCoils p) data.
Definition handleReadHoldingRegisters (data : list Z) (p : sim CapbankState) :=
  read_registers fcReadHoldingRegisters (getHoldingRegisters p) data.
Definition handleReadInputRegisters (data : list Z) (p : sim CapbankState) :=
  read_registers fcReadInputRegisters (getInputRegisters p) data.

Definition modbus_source : string := "modbus".
Definition entry (command result detail : string) : sim CapbankState → sim CapbankState :=
  record_ modbus_source "capbank-sim" command result detail "".
Definition by_modbus (f : CapbankState → CapbankState) : sim CapbankState → sim CapbankState :=
  with_state (λ s, set_LastCommandSource modbus_source (f s)).

Definition handleWriteSingleCoil (data : list Z) (p : sim CapbankState) : list Z * sim CapbankState :=
  match words data with
  | None => (exception_ fcWriteSingleCoil 0x03, p)
  | Some (coilAddr, value) =>
      if negb (value =? 0xFF00) && negb (value =? 0x0000) then (exception_ fcWriteSingleCoil 0x03, p)
      else
        let on := value =? 0xFF00 in
        if coilAddr =? 0 then
          if Lockout (state p) then
            (exception_ fcWriteSingleCoil 0x04, entry "write_coil_switched_in" "rejected" "capbank in lockout" p)
          else
            (echo fcWriteSingleCoil coilAddr value,
             entry "write_coil_switched_in" "executed" ((if on then "switch_in" else "switch_out") +:+ " via Modbus")
               (with_state (operate_switch on modbus_source) p))
        else if coilAddr =? 1 then
          (echo fcWriteSingleCoil coilAddr value,
           entry "write_coil_auto_mode" "executed" "auto_mode set via Modbus" (by_modbus (set_AutoMode on) p))
        else (exception_ fcWriteSingleCoil 0x02, p)
  end.

Definition handleWriteSingleRegister (data : list Z) (p : sim CapbankState) : list Z * sim CapbankState :=
  match words data with
  | None => (exception_ fcWriteSingleRegister 0x03, p)
  | Some (regAddr, value) =>
      let ok p' := (echo fcWriteSingleRegister regAddr value, p') in
      let volts := fdiv (f64_of value 0) (f64_of 10 0) in
      if regAddr =? 0 then
        if Lockout (state p) then (exception_ fcWriteSingleRegister 0x04, p)
        else ok (entry "write_reg_switched_in" "executed" ""
                   (with_state (operate_switch (negb (value =? 0)) modbus_source) p))
      else if regAddr =? 2 then ok (entry "write_reg_thresh_low" "executed" "" (by_modbus (set_VoltageThreshLow volts) p))
      else if regAddr =? 3 then ok (entry "write_reg_thresh_high" "executed" "" (by_modbus (set_VoltageThreshHigh volts) p))
      else (exception_ fcWriteSingleRegister 0x02, p)
  end.

#[export] Instance capbank_modbus : modbus_sim (sim CapbankState) := {
  md_read_coils := handleReadCoils;
  md_read_holding := handleReadHoldingRegisters;
  md_read_input := handleReadInputRegisters;
  md_write_coil := handleWriteSingleCoil;
  md_write_register := handleWriteSingleRegister
}.

Definition handleModbusConn : nat → list Z → sim CapbankState → result (list (list Z)) * sim CapbankState :=
  serve_conn handle_function.

(** ** The outstation *)
Definition dnp3_source : string := "dnp3-tcp".
Definition dnp3_entry (command : string) : sim CapbankState → sim CapbankState :=
  record_ dnp3_source "capbank-sim" command "executed" "via DNP3 CROB" "".

Definition operate_bank (controlCode : Z) (p : sim CapbankState) : Z * sim CapbankState :=
  let operate (switchIn : bool) :=
    if Bool.eqb switchIn (SwitchedIn (state p)) then (CROBStatusSuccess, p)
    else
      (CROBStatusSuccess,
       dnp3_entry (if switchIn then "switch_in" else "switch_out") (with_state (operate_switch switchIn dnp3_source) p)) in
  if Lockout (state p) then (CROBStatusBlocked, p)
  else if closes_code controlCode then operate true
  else if trips_code controlCode then operate false
  else (CROBStatusNotSupported, p).

Definition operate_mode (controlCode : Z) (p : sim CapbankState) : Z * sim CapbankState :=
  let operate (autoOn : bool) :=
    (CROBStatusSuccess,
     dnp3_entry (if autoOn then "set_auto" else "set_manual")
       (with_state (λ s, set_LastCommandSource dnp3_source (set_AutoMode autoOn s)) p)) in
  if closes_code controlCode then operate true
  else if trips_code controlCode then operate false
  else (CROBStatusNotSupported, p).

Definition operate_reset (_ : Z) (p : sim CapbankState) : Z * sim CapbankState :=
  (CROBStatusSuccess, dnp3_entry "reset_lockout" (with_state (reset dnp3_source) p)).

Definition dnp3_config : OutstationConfig (sim CapbankState) := {|
  OutstationAddr := 4;
  AcceptAnyMaster := true;
  MasterAddr := 0;
  BinaryInputs := [mkBP 0 (λ p, SwitchedIn (state p)); mkBP 1 (λ p, AutoMode (state p)); mkBP 2 (λ p, Lockout (state p));
                   mkBP 3 (λ p, Alarm (state p)); mkBP 4 (λ p, CommsOK (state p))];
  BinaryOutputs := [mkBOP 0 (λ p, SwitchedIn (state p)) operate_bank; mkBOP 1 (λ p, AutoMode (state p)) operate_mode;
                    mkBOP 2 (λ p, Lockout (state p)) operate_reset];
  AnalogInputs := [mkAP 0 (λ p, float32_bits (KvarRating (state p))); mkAP 1 (λ p, float32_int (SwitchCount (state p)))];
  AnalogOutputs := []
|}.

(** ** Everything that happens to the process *)
Inductive step (p : sim CapbankState) : sim CapbankState → Prop :=
| step_command r : step p (handleCommand r p).2
| step_modbus fc data : step p (handle_function fc data p).2
| step_operate p' : operated dnp3_config p p' → step p p'
| step_tick now : step p (at_time now p).

Definition reachable (p : sim CapbankState) : Prop := ∃ now, rtc step (start now) p.

(** ** Wear *)
Definition bank_safe (s : CapbankState) : Prop :=
  0 ≤ SwitchCount s ≤ maxSwitchCount ∧ Lockout s = (SwitchCount s =? maxSwitchCount) ∧ Alarm s = Lockout s.

(** What a step does to the contacts: nothing, one counted operation of a bank
    that is not locked out, or a reset. *)
Definition bank_step (s s' : CapbankState) : Prop :=
  (SwitchedIn s' = SwitchedIn s ∧ SwitchCount s' = SwitchCount s ∧ Lockout s' = Lockout s ∧ Alarm s' = Alarm s) ∨
  (Lockout s = false ∧ SwitchCount s' = SwitchCount s + 1 ∧
   Lockout s' = (SwitchCount s' =? maxSwitchCount) ∧ Alarm s' = Lockout s') ∨
  (SwitchedIn s' = SwitchedIn s ∧ SwitchCount s' = 0 ∧ Lockout s' = false ∧ Alarm s' = false).

Lemma operate_switch_step on source s :
  bank_safe s → Lockout s = false → bank_step s (operate_switch on source s).
Proof.
  unfold bank_safe, bank_step, operate_switch, maxSwitchCount. cbn. intros (H1 & H2 & H3) Hl. right; left.
  rewrite Hl in *. symmetry in H2. apply Z.eqb_neq in H2. case_if; cbn; bool_facts; split_and!; try done; try congruence; symmetry.
  - apply Z.eqb_eq. lia.
  - rewrite Hl. apply Z.eqb_neq. lia.
Qed.

Lemma bank_step_safe s s' : bank_safe s → bank_step s s' → bank_safe s'.
Proof.
  unfold bank_safe, bank_step, maxSwitchCount. intros (H1 & H2 & H3) [(E1 & E2 & E3 & E4)|[(E1 & E2 & E3 & E4)|(E1 & E2 & E3 & E4)]].
  - rewrite E2, E3, E4. done.
  - rewrite E1 in H2. symmetry in H2. apply Z.eqb_neq in H2. split_and!; try done; lia.
  - rewrite E2, E3, E4. split_and!; try done; lia.
Qed.

Ltac bank_cases :=
  repeat match goal with
         | |- context [if ?b then _ else _] => destruct b eqn:?; cbn [fst snd state] in *
         end;
  try (apply operate_switch_step; [done|assumption]);
  first [left; by cbn | right; right; by cbn].

Lemma step_contacts p p' : step p p' → bank_safe (state p) → bank_step (state p) (state p').
Proof.
  intros Hs Hb. destruct Hs as [r|fc data|p' [index code|index value]|now].
  - unfold handleCommand, command. destruct (body r) as [cmd|]; [|by left]. cbn [fst snd state record_ with_state]. bank_cases.
  - unfold handle_function. cbn [md_write_coil md_write_register capbank_modbus].
    unfold handleWriteSingleCoil, handleWriteSingleRegister. destruct (words data) as [[a v]|]; bank_cases.
  - cbn [operateBinaryOutput dnp3_config BinaryOutputs BOP_Index BOP_Operate].
    unfold operate_bank, operate_mode, operate_reset. bank_cases.
  - by left.
  - by left.
Qed.

Lemma bank_reachable p : reachable p → bank_safe (state p).
Proof.
  intros [now Hr]. revert p Hr. apply rtc_ind_r; [unfold bank_safe, maxSwitchCount; cbn; split_and!; try done; lia|].
  intros y z _ Hs Hy. by eapply bank_step_safe, step_contacts.
Qed.

(** In every reachable state the count is at most six, and lockout and alarm
    stand exactly at the sixth operation.  Every change of position is counted
    and happens to a bank that is not locked out; the lockout ends with the
    count at zero and the contacts where they are. *)
Theorem capbank_wear p p' :
  reachable p → step p p' →
  bank_safe (state p) ∧
  (SwitchedIn (state p') ≠ SwitchedIn (state p) →
   Lockout (state p) = false ∧ SwitchCount (state p') = SwitchCount (state p) + 1) ∧
  (Lockout (state p) = true → Lockout (state p') = false →
   SwitchCount (state p') = 0 ∧ SwitchedIn (state p') = SwitchedIn (state p)).
Proof.
  intros Hr%bank_reachable Hs. split; [done|]. destruct (step_contacts _ _ Hs Hr) as [Hc|[Hc|Hc]]; intuition congruence.
Qed.

(** A Modbus write of the present position is counted too: six of them lock
    the bank out without moving a contact. *)
Example modbus_wears_out :
  let p := Nat.iter 6 (λ p, (handleWriteSingleCoil [0; 0; 0; 0] p).2) (start 0) in
  SwitchedIn (state p) = false ∧ SwitchCount (state p) = 6 ∧ Lockout (state p) = true.
Proof. by vm_compute. Qed.

End Capbank.
