(* ===== verification/RegulatorSim.v ===== *)
(** * The voltage regulator simulator (services/regulator-sim)

    The tap changer with its voltage alarm: the HTTP commands, the Modbus
    writes and the points of the outstation.  The estimated voltage is computed
    in binary64, as in the source. *)
From Stdlib Require Import Ascii String SpecFloat.
From S2P Require Import Prelude GoLib Dnp3App Dnp3Outstation SimShared SimModbus.
From stdpp Require Import pretty gmap strings.

#[local] Open Scope string_scope.
#[local] Open Scope list_scope.
#[local] Open Scope Z_scope.

Record RegulatorState : Type := mkRegulatorState {
  TapPosition : Z;
  VoltageSetpoint : float64;
  ManualMode : bool;
  CommsOK : bool;
  Alarm : bool;
  LastCommandSource : string
}.

Definition minTap : Z := -16.
Definition maxTap : Z := 16.
Definition voltsPerTap : float64 := f64_of 3 (-2).

Definition set_TapPosition v (s : RegulatorState) : RegulatorState :=
  mkRegulatorState v (VoltageSetpoint s) (ManualMode s) (CommsOK s) (Alarm s) (LastCommandSource s).
Definition set_VoltageSetpoint v (s : RegulatorState) : RegulatorState :=
  mkRegulatorState (TapPosition s) v (ManualMode s) (CommsOK s) (Alarm s) (LastCommandSource s).
Definition set_ManualMode v (s : RegulatorState) : RegulatorState :=
  mkRegulatorState (TapPosition s) (VoltageSetpoint s) v (CommsOK s) (Alarm s) (LastCommandSource s).
Definition set_Alarm v (s : RegulatorState) : RegulatorState :=
  mkRegulatorState (TapPosition s) (VoltageSetpoint s) (ManualMode s) (CommsOK s) v (LastCommandSource s).
Definition set_LastCommandSource v (s : RegulatorState) : RegulatorState :=
  mkRegulatorState (TapPosition s) (VoltageSetpoint s) (ManualMode s) (CommsOK s) (Alarm s) v.

Definition snapshot (s : RegulatorState) : gmap string any :=
  table
  [("tap_position", AInt (TapPosition s));
   ("voltage_setpoint_v", ANum (VoltageSetpoint s));
   ("manual_mode", ABool (ManualMode s));
   ("comms_ok", ABool (CommsOK s));
   ("alarm", ABool (Alarm s));
   ("last_command_source", AStr (LastCommandSource s));
   ("voltage_offset_v", ANum (fmul (f64_of (TapPosition s) 0) voltsPerTap))].

Definition state0 : RegulatorState := mkRegulatorState 0 (f64_of 120 0) false true false "".
Definition start (now : Z) : sim RegulatorState := mkSim state0 (NewAuditLog 100) now.

(** [117.6 + float64(tap)*voltsPerTap] and the alarm. *)
Definition estimatedV (tap : Z) : float64 :=
  fadd (fdiv (f64_of 1176 0) (f64_of 10 0)) (fmul (f64_of tap 0) voltsPerTap).
Definition voltage_alarm (v : float64) : bool := SFltb v (f64_of 108 0) || SFltb (f64_of 132 0) v.

(** The tap is taken and the alarm set. *)
Definition take_tap (tap : Z) (source : string) (s : RegulatorState) : RegulatorState :=
  set_Alarm (voltage_alarm (estimatedV tap)) (set_LastCommandSource source (set_TapPosition tap s)).

Definition out_of_range (tap : Z) : bool := (tap <? minTap) || (maxTap <? tap).

Section Regulator.
Context `{Conversions}.

(** ** Commands over HTTP *)

(** The cases of [handleCommand]: the state, the result and the detail. *)
Definition command (cmd source : string) (value : float64) (p : sim RegulatorState)
    : sim RegulatorState * (string * string) :=
  let by_source (f : RegulatorState → RegulatorState) := with_state (λ s, set_LastCommandSource source (f s)) p in
  let tap := TapPosition (state p) in
  if (cmd =? "raise_tap")%string then
    if maxTap <=? tap then (p, ("rejected", "already at max tap"))
    else (with_state (take_tap (tap + 1) source) p, ("executed", "tap raised to " +:+ pretty (tap + 1)))
  else if (cmd =? "lower_tap")%string then
    if tap <=? minTap then (p, ("rejected", "already at min tap"))
    else (with_state (take_tap (tap - 1) source) p, ("executed", "tap lowered to " +:+ pretty (tap - 1)))
  else if (cmd =? "set_manual")%string then (by_source (set_ManualMode true), ("executed", "manual mode enabled"))
  else if (cmd =? "set_auto")%string then (by_source (set_ManualMode false), ("executed", "auto mode enabled"))
  else if (cmd =? "set_setpoint")%string then (by_source (set_VoltageSetpoint value), ("executed", "setpoint updated"))
  else if (cmd =? "set_tap")%string then
    let tap := to_int value in
    if out_of_range tap then (p, ("rejected", "tap out of range"))
    else
      (with_state (take_tap tap source) p,
       ("executed", if voltage_alarm (estimatedV tap)
                    then "tap set — VOLTAGE ALARM: estimated " +:+ fixed1 (estimatedV tap) +:+ "V" else "tap set directly"))
  else (p, ("rejected", "unknown command")).

Definition handleCommand (r : http_request) (p : sim RegulatorState) : reply * sim RegulatorState :=
  match body r with
  | None => (BadRequest, p)
  | Some cmd =>
      let source := SourceFromRequest r cmd in
      let '(p', (result, detail)) := command (Cmd cmd) source (Cmd_Value cmd) p in
      (Reply result detail, record_ source "regulator-sim" (Cmd cmd) result detail "" p')
  end.

(** ** Modbus *)
Definition getCoils (p : sim RegulatorState) : list bool := [ManualMode (state p); Alarm (state p)].
Definition getHoldingRegisters (p : sim RegulatorState) : list Z :=
  let s := state p in
  [u16 (i16 (TapPosition s)); boolToUint16 (ManualMode s); to_uint16 (fmul (VoltageSetpoint s) (f64_of 10 0))].
Definition getInputRegisters (p : sim RegulatorState) : list Z :=
  let s := state p in
  [u16 (i16 (TapPosition s)); to_uint16 (fmul (fmul (f64_of (TapPosition s) 0) voltsPerTap) (f64_of 10 0))].

Definition handleReadCoils (data : list Z) (p : sim RegulatorState) := read_bits fcReadCoils (getCoils p) data.
Definition handleReadHoldingRegisters (data : list Z) (p : sim RegulatorState) :=
  read_registers fcReadHoldingRegisters (getHoldingRegisters p) data.
Definition handleReadInputRegisters (data : list Z) (p : sim RegulatorState) :=
  read_registers fcReadInputRegisters (getInputRegisters p) data.

Definition modbus_source : string := "modbus".
Definition entry (command detail : string) : sim RegulatorState → sim RegulatorState :=
  record_ modbus_source "regulator-sim" command "executed" detail "".
Definition by_modbus (f : RegulatorState → RegulatorState) : sim RegulatorState → sim RegulatorState :=
  with_state (λ s, set_LastCommandSource modbus_source (f s)).
Definition mode_text (manualOn : bool) (how : string) : string :=
  (if manualOn then "manual mode enabled via " else "auto mode enabled via ") +:+ how.

(** The text of a tap change. *)
Definition tap_text (tap : Z) (how : string) : string :=
  let v := estimatedV tap in
  "tap set to " +:+ pretty tap +:+ " via " +:+ how +:+
  (if voltage_alarm v then " — VOLTAGE ALARM: est. " +:+ fixed1 v +:+ "V" else " (est. " +:+ fixed1 v +:+ "V)").

Definition handleWriteSingleCoil (data : list Z) (p : sim RegulatorState) : list Z * sim RegulatorState :=
  match words data with
  | None => (exception_ fcWriteSingleCoil 0x03, p)
  | Some (coilAddr, value) =>
      if negb (coilAddr =? 0) then (exception_ fcWriteSingleCoil 0x02, p)
      else if negb (value =? 0xFF00) && negb (value =? 0x0000) then (exception_ fcWriteSingleCoil 0x03, p)
      else
        let manualOn := value =? 0xFF00 in
        (echo fcWriteSingleCoil coilAddr value,
         entry "write_coil_manual_mode" (mode_text manualOn "Modbus") (by_modbus (set_ManualMode manualOn) p))
  end.

Definition handleWriteSingleRegister (data : list Z) (p : sim RegulatorState) : list Z * sim RegulatorState :=
  match words data with
  | None => (exception_ fcWriteSingleRegister 0x03, p)
  | Some (regAddr, value) =>
      if regAddr =? 0 then
        let tap := i16 value in
        if out_of_range tap then (exception_ fcWriteSingleRegister 0x03, p)
        else
          (echo fcWriteSingleRegister regAddr value,
           entry "write_reg_tap_position" (tap_text tap "Modbus") (with_state (take_tap tap modbus_source) p))
      else if regAddr =? 1 then
        let manualOn := negb (value =? 0) in
        (echo fcWriteSingleRegister regAddr value,
         entry "write_reg_manual_mode" (mode_text manualOn "Modbus") (by_modbus (set_ManualMode manualOn) p))
      else (exception_ fcWriteSingleRegister 0x02, p)
  end.

#[export] Instance regulator_modbus : modbus_sim (sim RegulatorState) := {
  md_read_coils := handleReadCoils;
  md_read_holding := handleReadHoldingRegisters;
  md_read_input := handleReadInputRegisters;
  md_write_coil := handleWriteSingleCoil;
  md_write_register := handleWriteSingleRegister
}.

Definition handleModbusConn : nat → list Z → sim RegulatorState → result (list (list Z)) * sim RegulatorState :=
  serve_conn handle_function.

(** ** The outstation *)
Definition dnp3_source : string := "dnp3-tcp".
Definition dnp3_entry (command detail : string) : sim RegulatorState → sim RegulatorState :=
  record_ dnp3_source "regulator-sim" command "executed" detail "".

Definition operate_mode (controlCode : Z) (p : sim RegulatorState) : Z * sim RegulatorState :=
  let operate (manualOn : bool) :=
    (CROBStatusSuccess,
     dnp3_entry "crob_manual_mode" (mode_text manualOn "DNP3 CROB")
       (with_state (λ s, set_LastCommandSource dnp3_source (set_ManualMode manualOn s)) p)) in
  if closes_code controlCode then operate true
  else if trips_code controlCode then operate false
  else (CROBStatusNotSupported, p).

(** The value arrives as the bits of a [float32]. *)
Definition operate_tap (bits : Z) (p : sim RegulatorState) : Z * sim RegulatorState :=
  let tap := to_int (Float32frombits bits) in
  if out_of_range tap then (0x04, p)
  else (0, dnp3_entry "analog_output_tap" (tap_text tap "DNP3") (with_state (take_tap tap dnp3_source) p)).

Definition dnp3_config : OutstationConfig (sim RegulatorState) := {|
  OutstationAddr := 3;
  AcceptAnyMaster := true;
  MasterAddr := 0;
  BinaryInputs := [mkBP 0 (λ p, Alarm (state p)); mkBP 1 (λ p, CommsOK (state p))];
  BinaryOutputs := [mkBOP 0 (λ p, ManualMode (state p)) operate_mode];
  AnalogInputs := [mkAP 0 (λ p, float32_bits (VoltageSetpoint (state p)));
                   mkAP 1 (λ p, float32_bits (fmul (f64_of (TapPosition (state p)) 0) voltsPerTap))];
  AnalogOutputs := [mkAOP 0 (λ p, float32_int (TapPosition (state p))) operate_tap]
|}.

(** ** Everything that happens to the process *)
Inductive step (p : sim RegulatorState) : sim RegulatorState → Prop :=
| step_command r : step p (handleCommand r p).2
| step_modbus fc data : step p (handle_function fc data p).2
| step_operate p' : operated dnp3_config p p' → step p p'
| step_tick now : step p (at_time now p).

Definition reachable (p : sim RegulatorState) : Prop := ∃ now, rtc step (start now) p.

(** ** The tap and the alarm *)
Definition tap_safe (s : RegulatorState) : Prop :=
  minTap ≤ TapPosition s ≤ maxTap ∧ Alarm s = voltage_alarm (estimatedV (TapPosition s)).

Lemma take_tap_safe tap source s : minTap ≤ tap ≤ maxTap → tap_safe (take_tap tap source s).
Proof. done. Qed.

Lemma in_range tap : out_of_range tap = false → minTap ≤ tap ≤ maxTap.
Proof. unfold out_of_range. intros Hr. bool_facts. done. Qed.

Ltac tap_cases :=
  repeat match goal with
         | |- context [if ?b then _ else _] => destruct b eqn:?; cbn [fst snd state] in *
         end;
  match goal with
  | |- context [take_tap] => apply take_tap_safe; first [by apply in_range | unfold minTap, maxTap in *; bool_facts; lia]
  | H : tap_safe _ |- _ => exact H
  end.

Lemma tap_step p p' : step p p' → tap_safe (state p) → tap_safe (state p').
Proof.
  intros Hs Hb. pose proof (proj1 Hb) as Ht. destruct Hs as [r|fc data|p' [index code|index value]|now]; [| | | |exact Hb].
  - unfold handleCommand, command. destruct (body r) as [cmd|]; [|exact Hb]. tap_cases.
  - unfold handle_function. cbn [md_write_coil md_write_register regulator_modbus].
    unfold handleWriteSingleCoil, handleWriteSingleRegister. destruct (words data) as [[a v]|]; tap_cases.
  - cbn [operateBinaryOutput dnp3_config BinaryOutputs BOP_Index BOP_Operate]. unfold operate_mode. tap_cases.
  - cbn [operateAnalogOutput dnp3_config AnalogOutputs AOP_Index AOP_Operate]. unfold operate_tap. tap_cases.
Qed.

Lemma tap_reachable p : reachable p → tap_safe (state p).
Proof.
  intros [now Hr]. revert p Hr. apply rtc_ind_r; [by split|]. intros y z _ Hs. by apply tap_step.
Qed.

Lemma all_taps (P : Z → Prop) tap :
  Forall P ((λ n, Z.of_nat n - 16) <$> seq 0 33) → minTap ≤ tap ≤ maxTap → P tap.
Proof.
  rewrite Forall_forall. unfold minTap, maxTap. intros Hall Ht. apply Hall, list_elem_of_fmap.
  exists (Z.to_nat (tap + 16)). split; [lia|]. apply elem_of_seq. lia.
Qed.

(** The alarm in whole taps: thirteen or more steps down. *)
Lemma alarm_taps tap : minTap ≤ tap ≤ maxTap → voltage_alarm (estimatedV tap) = (tap <=? -13).
Proof. apply (all_taps (λ t, voltage_alarm (estimatedV t) = (t <=? -13))), (bool_decide_unpack _). vm_compute. exact I. Qed.

Lemma never_high tap : minTap ≤ tap ≤ maxTap → SFltb (f64_of 132 0) (estimatedV tap) = false.
Proof. apply (all_taps (λ t, SFltb (f64_of 132 0) (estimatedV t) = false)), (bool_decide_unpack _). vm_compute. exact I. Qed.

(** In every reachable state the tap is between -16 and 16, whatever a request
    holds and however the conversion of an unrepresentable value comes out, and
    the alarm stands exactly at -13 and below.  The alarm for too high a
    voltage (above 132 V) is never raised: 16 taps up are 129.6 V. *)
Theorem regulator_range p :
  reachable p → -16 ≤ TapPosition (state p) ≤ 16 ∧ Alarm (state p) = (TapPosition (state p) <=? -13) ∧
  SFltb (f64_of 132 0) (estimatedV (TapPosition (state p))) = false.
Proof.
  intros [Ht Ha]%tap_reachable. rewrite Ha. split; [done|]. split; [by apply alarm_taps|by apply never_high].
Qed.

End Regulator.
