(* ===== verification/SimCorrect.v ===== *)
(** * The substation simulators: reads, crashes and connections

    What a Modbus read of a simulator returns, exactly, and that the whole
    connections of the two protocols stay within the steps the invariants of
    the simulators are proved for. *)
From Stdlib Require Import String.
From S2P Require Import Prelude GoLib ModbusServer Dnp3Outstation SimShared SimModbus RecloserSim RelaySim CapbankSim RegulatorSim.

#[local] Open Scope Z_scope.

(** C30. A read of the simulators' Modbus servers with at least four octets of
    address and quantity: if the window lies inside the image, the response
    holds exactly the values of the window, coils packed from the lowest bit
    with zeros behind them and registers in network order (also none, for the
    quantity zero); if the sum of address and quantity, which is computed in
    sixteen bits, wraps around into the image, the handler panics and takes the
    process with it; any other window is refused with the illegal-address
    exception. *)
Theorem sim_reads_exact coils regs fb fc data start q :
  is_u8 fb → zlen coils ≤ 2000 → zlen regs ≤ 125 →
  words data = Some (start, q) → is_u16 start → is_u16 q →
  (start + q ≤ zlen coils → ∃ resp, read_bits fb coils data = Ok resp ∧ coil_response fb coils start q resp) ∧
  (start + q ≤ zlen regs → read_registers fc regs data = Ok (register_response fc regs start q)) ∧
  (read_bits fb coils data = Panic ↔ wraps start q (zlen coils)) ∧
  (read_registers fc regs data = Panic ↔ wraps start q (zlen regs)) ∧
  (zlen coils < start + q → ¬ wraps start q (zlen coils) → read_bits fb coils data = Ok [Z.lor fb 0x80; 0x02]) ∧
  (zlen regs < start + q → ¬ wraps start q (zlen regs) → read_registers fc regs data = Ok [Z.lor fc 0x80; 0x02]).
Proof.
  intros Hfc Hc Hr Hw Hs Hq. split_and!.
  - by apply read_bits_inside.
  - by apply read_registers_inside.
  - split; [|apply read_bits_panics; try done; lia]. intros Hp.
    destruct (decide (start + q ≤ zlen coils)) as [Hin|Hout].
    + destruct (read_bits_inside data start q Hw Hs Hq fb coils Hfc Hc Hin) as (resp & Hok & _). congruence.
    + destruct (Z.leb_spec 65536 (start + q)); destruct (Z.leb_spec (start + q - 65536) (zlen coils)); [done|exfalso..];
        rewrite (read_bits_outside data start q Hw Hs Hq fb coils) in Hp; unfold wraps; first [lia|congruence].
  - split; [|apply read_registers_panics; try done; lia]. intros Hp.
    destruct (decide (start + q ≤ zlen regs)) as [Hin|Hout].
    + rewrite (read_registers_inside data start q Hw Hs Hq fc regs Hr Hin) in Hp. congruence.
    + destruct (Z.leb_spec 65536 (start + q)); destruct (Z.leb_spec (start + q - 65536) (zlen regs)); [done|exfalso..];
        rewrite (read_registers_outside data start q Hw Hs Hq fc regs) in Hp; unfold wraps; first [lia|congruence].
  - by apply read_bits_outside.
  - by apply read_registers_outside.
Qed.

Lemma sim_reads_exact_witness :
  let p := RecloserSim.start 0 in
  read_bits fcReadCoils (RecloserSim.getCoils p) [0xFF; 0xFF; 0; 1] = Panic ∧
  read_registers fcReadInputRegisters (RecloserSim.getInputRegisters p) [0xFF; 0xFF; 0; 1] = Panic.
Proof.
  intros p.
  destruct (sim_reads_exact (RecloserSim.getCoils p) (RecloserSim.getInputRegisters p) fcReadCoils fcReadInputRegisters
              [0xFF; 0xFF; 0; 1] 0xFFFF 1 ltac:(unfold is_u8, fcReadCoils; lia)
              ltac:(vm_compute; discriminate) ltac:(vm_compute; discriminate) eq_refl
              ltac:(unfold is_u16; lia) ltac:(unfold is_u16; lia)) as (_ & _ & Hc & Hr & _ & _).
  split; [apply Hc|apply Hr]; split; vm_compute; discriminate.
Defined.

(** One request of twelve octets, a read of the coil 65535, ends any of the
    four processes in any state. *)
Definition crash_request : list Z := [0; 1; 0; 0; 0; 6; 1; 1; 0xFF; 0xFF; 0; 1].

Theorem read_request_crashes `{Conversions} fuel recloser_ relay_ capbank_ regulator_ :
  RecloserSim.handleModbusConn (S fuel) crash_request recloser_ = (Panic, recloser_) ∧
  RelaySim.handleModbusConn (S fuel) crash_request relay_ = (Panic, relay_) ∧
  CapbankSim.handleModbusConn (S fuel) crash_request capbank_ = (Panic, capbank_) ∧
  RegulatorSim.handleModbusConn (S fuel) crash_request regulator_ = (Panic, regulator_).
Proof. by split_and!. Qed.

(** ** Connections of the recloser stay within its steps *)
Lemma recloser_reachable_step p p' : RecloserSim.reachable p → RecloserSim.step p p' → RecloserSim.reachable p'.
Proof. intros [now Hr] Hs. exists now. by eapply rtc_r. Qed.

(** A whole Modbus connection, and a whole DNP3 connection whatever its
    octets, leave a recloser in a reachable state. *)
Theorem recloser_connections p fuel r :
  RecloserSim.reachable p →
  RecloserSim.reachable (RecloserSim.handleModbusConn fuel r p).2 ∧
  ∀ fuel' times n restarted octets st ws,
    handleConn fuel' RecloserSim.dnp3_config times n (newConn (mkStation p restarted)) octets = Ok (st, ws) →
    RecloserSim.reachable (device st).
Proof.
  intros Hp. split.
  - unfold RecloserSim.handleModbusConn. apply (serve_conn_preserves _ RecloserSim.reachable); [|done]. intros fc data d Hd.
    eapply recloser_reachable_step; [done|apply RecloserSim.step_modbus].
  - intros fuel' times n restarted octets st ws Hc.
    eapply (connection_preserves _ RecloserSim.reachable); [|done|done].
    intros d d' Ho Hd. eapply recloser_reachable_step; [done|by apply RecloserSim.step_operate].
Qed.
