(* ===== verification/RtacSim.v ===== *)
(** * The RTAC simulator (services/rtac-sim)

    The supervisory controller: it polls the field devices, pushes their states
    to the power-flow service, keeps the last accepted solution with its
    freshness, runs the automatic controls, forwards commands and serves its
    image over Modbus and DNP3.  The other processes are a [network]: what a
    request to them returns and what it changes. *)
From Stdlib Require Import Ascii String SpecFloat.
From S2P Require Import Prelude GoLib ModbusServer Dnp3App Dnp3Outstation SimModbus SimShared.
From stdpp Require Import pretty gmap strings.

#[local] Open Scope string_scope.
#[local] Open Scope list_scope.
#[local] Open Scope Z_scope.

Record DeviceEndpoint : Type := mkEndpoint {
  Name : string;
  URL : string
}.

Record LabOverride : Type := mkLab {
  Active : bool;
  GeneralPct : float64;
  CriticalPct : float64;
  PowerFactor : float64
}.

Record PhysicsStatus : Type := mkPhysics {
  Stale : bool;
  ConsecutiveFailures : Z;
  LastGoodAt : Z;
  SolvedAt : string;
  LastError : string
}.

Record AggregatedState : Type := mkAgg {
  Devices : gmap string (gmap string any);
  Electrical : gmap string any;
  Physics : PhysicsStatus;
  LastPoll : Z;
  DeviceComms : gmap string bool;
  Lab : LabOverride
}.

Definition set_Devices v (a : AggregatedState) := mkAgg v (Electrical a) (Physics a) (LastPoll a) (DeviceComms a) (Lab a).
Definition set_Physics v (a : AggregatedState) := mkAgg (Devices a) (Electrical a) v (LastPoll a) (DeviceComms a) (Lab a).
Definition set_LastPoll v (a : AggregatedState) := mkAgg (Devices a) (Electrical a) (Physics a) v (DeviceComms a) (Lab a).
Definition set_DeviceComms v (a : AggregatedState) := mkAgg (Devices a) (Electrical a) (Physics a) (LastPoll a) v (Lab a).
Definition set_Lab v (a : AggregatedState) := mkAgg (Devices a) (Electrical a) (Physics a) (LastPoll a) (DeviceComms a) v.

(** The process. *)
Record rtac : Type := mkRtac {
  base : sim AggregatedState;
  lastCapAutoSwitch : Z
}.
Definition agg (p : rtac) : AggregatedState := state (base p).
Definition update (f : AggregatedState → AggregatedState) (p : rtac) : rtac :=
  mkRtac (with_state f (base p)) (lastCapAutoSwitch p).

Definition agg0 : AggregatedState :=
  mkAgg ∅ ∅ (mkPhysics true 0 zero_time "" "") zero_time ∅ (mkLab false (S754_zero false) (S754_zero false) (f64_of 1 0)).
Definition start (now : Z) : rtac := mkRtac (mkSim agg0 (NewAuditLog 500) now) zero_time.

(** ** The environment *)
Definition envOr (env : gmap string string) (key fallback : string) : string :=
  match env !! key with
  | Some v => if negb (v =? "")%string then v else fallback
  | None => fallback
  end.

Definition fieldDevices (env : gmap string string) : list DeviceEndpoint :=
  [mkEndpoint "relay" ("http://" +:+ envOr env "RELAY_SIM_HOST" "relay-sim:8080");
   mkEndpoint "recloser" ("http://" +:+ envOr env "RECLOSER_SIM_HOST" "recloser-sim:8080");
   mkEndpoint "regulator" ("http://" +:+ envOr env "REGULATOR_SIM_HOST" "regulator-sim:8080");
   mkEndpoint "capbank" ("http://" +:+ envOr env "CAPBANK_SIM_HOST" "capbank-sim:8080")].

Definition deviceURL (env : gmap string string) (name : string) : string :=
  match List.find (λ d, (Name d =? name)%string) (fieldDevices env) with
  | Some d => URL d
  | None => ""
  end.

(** The body of a reply under [json.Unmarshal]: not an object, null, or an
    object, [representable] when every number of it is a binary64, without
    which decoding into [map[string]any] fails. *)
Inductive json_body : Type :=
| NoObject
| NullBody
| ObjectBody (fields : gmap string any) (representable : bool).

(** The processes the RTAC talks to.  [get_state] is a GET of a device's state,
    [post_command] a POST of a command, [push_state] the POST to the power-flow
    service; a failed exchange has its error's text. *)
Class network (W : Type) : Type := {
  get_state : string → W → option json_body;
  post_command : string → CommandRequest → W → (string + json_body) * W;
  push_state : gmap string (gmap string any) → LabOverride → W → (string + Z * json_body) * W
}.

(** ** Values of a map *)
Definition boolFromMap (m : gmap string any) (key : string) : bool :=
  match m !! key with Some (ABool b) => b | _ => false end.
Definition floatFromMap (m : gmap string any) (key : string) : float64 :=
  match m !! key with Some (ANum f) => f | _ => S754_zero false end.

(** ** The power flow *)
Definition physicsStaleAfter : Z := 3.

Definition physicsIsStale (s : PhysicsStatus) : bool :=
  (LastGoodAt s =? zero_time) || (physicsStaleAfter <=? ConsecutiveFailures s).

(** The checks on a reply: the accepted electrical values or an error. *)
Definition accept_reply (status : Z) (body : json_body) (pushErr : option string) : string + gmap string any :=
  match pushErr with
  | Some e => inl e
  | None =>
      if (status <? 200) || (300 <=? status) then inl ("physics push returned HTTP status " +:+ pretty status)
      else
        match body with
        | ObjectBody fields representable =>
            match fields !! "converged" with
            | Some (ABool true) =>
                if representable then inr fields else inl "physics reply is not a JSON object"
            | _ => inl "physics reply did not report converged=true"
            end
        | _ => inl "physics reply is not a JSON object"
        end
  end.

Definition applyPhysicsReply (a : AggregatedState) (status : Z) (body : json_body) (pushErr : option string) (now : Z)
    : AggregatedState * option string :=
  match accept_reply status body pushErr with
  | inl e =>
      let s := Physics a in
      let s := mkPhysics (Stale s) (ConsecutiveFailures s + 1) (LastGoodAt s) (SolvedAt s) e in
      (set_Physics (mkPhysics (physicsIsStale s) (ConsecutiveFailures s) (LastGoodAt s) (SolvedAt s) (LastError s)) a, Some e)
  | inr electrical =>
      let solvedAt := match electrical !! "solved_at" with Some (AStr s) => s | _ => "" end in
      (mkAgg (Devices a) electrical (mkPhysics false 0 now solvedAt "") (LastPoll a) (DeviceComms a) (Lab a), None)
  end.

(** ** Polling *)
Definition poll_device (name : string) (answer : option json_body) (a : AggregatedState) : AggregatedState :=
  let store m := set_DeviceComms (<[name := true]> (DeviceComms a)) (set_Devices (<[name := m]> (Devices a)) a) in
  match answer with
  | None => set_DeviceComms (<[name := false]> (DeviceComms a)) a
  | Some (ObjectBody m true) => store m
  | Some NullBody => store ∅
  | Some _ => a
  end.

Section Rtac.
Context {W : Type} `{network W} (env : gmap string string).

(** The loop over the devices. *)
Definition poll_all (w : W) (a : AggregatedState) : AggregatedState :=
  fold_left (λ a d, poll_device (Name d) (get_state (URL d) w) a) (fieldDevices env) a.

(** One cycle; [solved] and [now] are the readings of the clock. The four
    requests of a cycle are answered from one state [w] of the field: a
    device that changes between two requests of the same cycle is not
    modelled. *)
Definition poll_cycle (solved now : Z) (p : rtac) (w : W) : rtac * W :=
  let a := poll_all w (agg p) in
  let (answer, w') := push_state (Devices a) (Lab a) w in
  let '(status, body, pushErr) :=
    match answer with
    | inl e => (0, NoObject, Some e)
    | inr (status, body) => (status, body, None)
    end in
  let (a', _) := applyPhysicsReply a status body pushErr solved in
  (update (λ _, set_LastPoll now a') p, w').
End Rtac.

(** ** Alarms *)
Definition device_bool (a : AggregatedState) (device key : string) : bool :=
  match Devices a !! device with Some m => boolFromMap m key | None => false end.

Definition hasCommLoss (a : AggregatedState) : bool :=
  existsb (λ kv, negb kv.2) (map_to_list (DeviceComms a)).
Definition isBreakerOpenUnexpected (a : AggregatedState) : bool :=
  match Devices a !! "relay" with Some m => negb (boolFromMap m "breaker_closed") | None => false end.
Definition isRecloseDisabled (a : AggregatedState) : bool :=
  match Devices a !! "recloser" with Some m => negb (boolFromMap m "reclose_enabled") | None => false end.
Definition isLowVoltageCritical (a : AggregatedState) : bool :=
  match Electrical a !! "critical_load_voltage_v" with
  | Some (ANum v) => SFltb (S754_zero false) v && SFltb v (f64_of 114 0)
  | _ => false
  end.
Definition isHighVoltageCritical (a : AggregatedState) : bool :=
  match Electrical a !! "critical_load_voltage_v" with Some (ANum v) => SFltb (f64_of 126 0) v | _ => false end.

(** ** Tags

    The maps are joined from the left: an entry of an earlier one is one written
    later. *)
Definition prefixed (prefix : string) (m : gmap string any) : gmap string any := kmap (λ k, prefix +:+ k) m.

Definition tags (a : AggregatedState) : gmap string any :=
  let device name prefix := match Devices a !! name with Some m => prefixed prefix m | None => ∅ end in
  let stale := physicsIsStale (Physics a) in
  table [("alarm.comm_loss", ABool (hasCommLoss a)); ("alarm.breaker_open_unexpected", ABool (isBreakerOpenUnexpected a));
         ("alarm.reclose_disabled", ABool (isRecloseDisabled a)); ("alarm.low_voltage_critical", ABool (isLowVoltageCritical a));
         ("alarm.high_voltage_critical", ABool (isHighVoltageCritical a)); ("alarm.physics_stale", ABool stale)] ∪
  kmap (λ d, "comms." +:+ d +:+ ".ok") (ABool <$> DeviceComms a) ∪
  table [("physics.stale", ABool stale); ("physics.consecutive_failures", AInt (ConsecutiveFailures (Physics a)));
         ("physics.solved_at", AStr (SolvedAt (Physics a))); ("physics.last_error", AStr (LastError (Physics a)))] ∪
  prefixed "electrical." (Electrical a) ∪
  device "capbank" "feeder.capbank." ∪ device "regulator" "feeder.regulator." ∪
  device "recloser" "feeder.recloser." ∪ device "relay" "substation.breaker.".

Definition handleTags (p : rtac) : gmap string any * Z := (tags (agg p), LastPoll (agg p)).

(** ** Automatic control *)
Section Control.
Context `{Conversions}.

Definition intFromMap (m : gmap string any) (key : string) : Z :=
  match m !! key with Some (ANum f) => to_int f | Some (AInt n) => n | _ => 0 end.

Definition regSetpointDefaultV : float64 := f64_of 120 0.
Definition regDeadbandV : float64 := f64_of 3 (-1).
Definition regTapMin : Z := -16.
Definition regTapMax : Z := 16.
Definition capPFTarget : float64 := fdiv (f64_of 95 0) (f64_of 100 0).
Definition capVHighDefaultV : float64 := f64_of 126 0.
Definition capAutoDwellSec : Z := 30.

Record autoCmd : Type := mkAutoCmd {
  auto_device : string;
  auto_command : string
}.

Definition fsub : float64 → float64 → float64 := SFsub 53 1024.
Definition fzero : float64 := S754_zero false.
Definition or_default (v default_ : float64) : float64 := if SFeqb v fzero then default_ else v.

Definition regulator_decision (a : AggregatedState) : list autoCmd :=
  match Devices a !! "regulator" with
  | Some reg =>
      if negb (boolFromMap reg "manual_mode") && boolFromMap (Electrical a) "critical_load_energized" then
        let v := floatFromMap (Electrical a) "critical_load_voltage_v" in
        let setpoint := or_default (floatFromMap reg "voltage_setpoint_v") regSetpointDefaultV in
        let tap := intFromMap reg "tap_position" in
        if SFltb fzero v && SFltb v (fsub setpoint regDeadbandV) && (tap <? regTapMax) then [mkAutoCmd "regulator" "raise_tap"]
        else if SFltb fzero v && SFltb (fadd setpoint regDeadbandV) v && (regTapMin <? tap) then [mkAutoCmd "regulator" "lower_tap"]
        else []
      else []
  | None => []
  end.

Definition capbank_decision (a : AggregatedState) (last now : Z) : list autoCmd :=
  match Devices a !! "capbank" with
  | Some cb =>
      if boolFromMap cb "auto_mode" && negb (boolFromMap cb "lockout") &&
         boolFromMap (Electrical a) "general_load_energized" &&
         (capAutoDwellSec * 1000000000 <? time_Sub now last) then
        let pf := floatFromMap (Electrical a) "power_factor" in
        let vload := floatFromMap (Electrical a) "downstream_voltage_v" in
        let vhigh := or_default (floatFromMap cb "voltage_thresh_high_v") capVHighDefaultV in
        let in_ := boolFromMap cb "switched_in" in
        if negb in_ && SFltb fzero pf && SFltb pf capPFTarget && SFltb vload vhigh then [mkAutoCmd "capbank" "switch_in"]
        else if in_ && SFltb vhigh vload then [mkAutoCmd "capbank" "switch_out"]
        else []
      else []
  | None => []
  end.

Definition autoControlDecisions (a : AggregatedState) (last now : Z) : list autoCmd :=
  if physicsIsStale (Physics a) then [] else regulator_decision a ++ capbank_decision a last now.

Definition autoImpact (device command : string) : string :=
  let k := device +:+ "/" +:+ command in
  if (k =? "regulator/raise_tap")%string then "AVR raised tap to hold voltage setpoint"
  else if (k =? "regulator/lower_tap")%string then "AVR lowered tap to hold voltage setpoint"
  else if (k =? "capbank/switch_in")%string then "auto-switched cap bank in to correct power factor"
  else if (k =? "capbank/switch_out")%string then "auto-switched cap bank out (over-voltage)"
  else "automatic control response".

(** [audit.Add] with a zone of the caller's. *)
Definition add_entry (source zone target command result detail impact : string) (p : rtac) : rtac :=
  mkRtac (mkSim (agg p)
            (SimShared.Add (clock (base p)) (mkAuditEntry zero_time source zone target command result detail impact) (audit (base p)))
            (clock (base p)))
         (lastCapAutoSwitch p).

Context {W : Type} `{network W} (env : gmap string string).

Definition issue (c : autoCmd) (pw : rtac * W) : rtac * W :=
  let (p, w) := pw in
  let url := deviceURL env (auto_device c) in
  if (url =? "")%string then (p, w)
  else
    let (answer, w') := post_command url (mkCommandRequest (auto_command c) "rtac-auto" fzero) w in
    match answer with
    | inl _ => (p, w')
    | inr _ =>
        let p' := add_entry "rtac-auto" "auto" (auto_device c) (auto_command c) "executed" "automatic control response"
                    (autoImpact (auto_device c) (auto_command c)) p in
        (if (auto_device c =? "capbank")%string then mkRtac (base p') (clock (base p')) else p', w')
    end.

(** The commands of a cycle; the clock is read when the decisions are made. *)
Definition runAutoControls (p : rtac) (w : W) : rtac * W :=
  fold_left (λ pw c, issue c pw) (autoControlDecisions (agg p) (lastCapAutoSwitch p) (clock (base p))) (p, w).

(** ** Commands *)
Definition deriveProcessImpact (a : AggregatedState) (device command result sourceZone : string) : string :=
  if negb (result =? "executed")%string then "no process change — command " +:+ result
  else
    let totalKW := fadd (floatFromMap (Electrical a) "general_load_kw") (floatFromMap (Electrical a) "critical_load_kw") in
    let kw := fixed0 totalKW in
    let zoneLabel :=
      if negb (sourceZone =? "ot_ops")%string && negb (sourceZone =? "operator")%string
      then " [from " +:+ sourceZone +:+ " zone]" else "" in
    let k := device +:+ "/" +:+ command in
    if (k =? "relay/trip")%string then
      "feeder breaker OPENED — " +:+ kw +:+ " kW load de-energized, all downstream customers without power" +:+ zoneLabel
    else if (k =? "relay/close")%string then "feeder breaker CLOSED — downstream loads re-energized"
    else if (k =? "relay/lockout")%string then
      "breaker LOCKED OUT — " +:+ kw +:+ " kW offline, manual intervention required to restore" +:+ zoneLabel
    else if (k =? "relay/inject_fault")%string then
      "feeder fault — overcurrent relay TRIPPED the breaker, " +:+ kw +:+ " kW de-energized, manual close required to restore"
      +:+ zoneLabel
    else if (k =? "recloser/disable_reclose")%string then
      "auto-reclose DISABLED — next fault will cause sustained outage (" +:+ kw +:+ " kW at risk)" +:+ zoneLabel
    else if (k =? "recloser/enable_reclose")%string then "auto-reclose ENABLED — transient faults will self-clear"
    else if (k =? "recloser/open")%string then "recloser OPENED — " +:+ kw +:+ " kW downstream load de-energized" +:+ zoneLabel
    else if (k =? "recloser/close")%string then "recloser CLOSED — downstream loads re-energized"
    else if (k =? "recloser/inject_fault")%string then "fault injected — recloser will trip and attempt auto-reclose sequence"
    else if (k =? "regulator/set_tap")%string then
      "voltage regulator tap changed — critical load voltage will shift" +:+ zoneLabel
    else if (k =? "regulator/raise_tap")%string then "tap RAISED — critical load voltage increases ~0.75V"
    else if (k =? "regulator/lower_tap")%string then "tap LOWERED — critical load voltage decreases ~0.75V"
    else if (k =? "regulator/set_manual")%string then
      "regulator set to MANUAL — automatic voltage regulation disabled" +:+ zoneLabel
    else if (k =? "regulator/set_auto")%string then "regulator set to AUTO — automatic voltage regulation active"
    else if (k =? "capbank/switch_in")%string then
      "capacitor bank SWITCHED IN — reactive power injected, voltage rises" +:+ zoneLabel
    else if (k =? "capbank/switch_out")%string then
      "capacitor bank SWITCHED OUT — reactive power removed, voltage drops" +:+ zoneLabel
    else if (k =? "capbank/set_auto")%string then
      "capacitor bank AUTO — switches automatically to correct power factor / support voltage"
    else if (k =? "capbank/set_manual")%string then
      "capacitor bank MANUAL — automatic correction disabled, operator controls switching" +:+ zoneLabel
    else "command executed".

(** [fmt.Sprintf("%v", v)]; [text] is that of a number, an array or an object. *)
Definition sprint (text : any → string) (v : option any) : string :=
  match v with
  | None | Some ANull => "<nil>"
  | Some (AStr s) => s
  | Some (ABool b) => if b then "true" else "false"
  | Some v => text v
  end.

Inductive rtac_reply : Type :=
| RBadRequest
| RUnknownDevice
| RBadGateway (err : string)
| RForwarded (result detail : option any) (process_impact source_zone : string).

Definition handleCommand (text : any → string) (device : string) (r : http_request) (p : rtac) (w : W)
    : rtac_reply * rtac * W :=
  match body r with
  | None => (RBadRequest, p, w)
  | Some cmd =>
      let source := SourceFromRequest r cmd in
      let url := deviceURL env device in
      if (url =? "")%string then (RUnknownDevice, p, w)
      else
        let zone := ClassifyZone source in
        let (answer, w') := post_command url (mkCommandRequest (Cmd cmd) source (Cmd_Value cmd)) w in
        match answer with
        | inl e =>
            (RBadGateway e,
             add_entry source zone device (Cmd cmd) "error" e "command delivery failed — no process change" p, w')
        | inr b =>
            let m := match b with ObjectBody m _ => m | _ => ∅ end in
            let result := sprint text (m !! "result") in
            let impact := deriveProcessImpact (agg p) device (Cmd cmd) result zone in
            (RForwarded (m !! "result") (m !! "detail") impact zone,
             add_entry source zone device (Cmd cmd) result (sprint text (m !! "detail")) impact p, w')
        end
  end.
End Control.

(** ** The load override *)
Record lab_request : Type := mkLabRequest {
  req_Active : option bool;
  req_GeneralPct : option float64;
  req_CriticalPct : option float64;
  req_PowerFactor : option float64;
  req_Source : string;
  AuditCommand : string;
  AuditTarget : string;
  AuditDetail : string
}.

Definition handleLabControl (req : option lab_request) (p : rtac) : option LabOverride * rtac :=
  match req with
  | None => (None, p)
  | Some q =>
      let l := Lab (agg p) in
      let lab := mkLab (default (Active l) (req_Active q)) (default (GeneralPct l) (req_GeneralPct q))
                   (default (CriticalPct l) (req_CriticalPct q)) (default (PowerFactor l) (req_PowerFactor q)) in
      let p := update (set_Lab lab) p in
      let source := if (req_Source q =? "")%string then "lab-control" else req_Source q in
      (Some lab,
       if negb (AuditCommand q =? "")%string
       then add_entry source "lab-control" (AuditTarget q) (AuditCommand q) "executed" (AuditDetail q) (AuditDetail q) p
       else p)
  end.

(** ** The image over Modbus *)
Section Image.
Context `{Conversions}.

Definition comms (a : AggregatedState) (device : string) : bool := default false (DeviceComms a !! device).

Definition getCoils (p : rtac) : list bool :=
  let a := agg p in
  [device_bool a "relay" "breaker_closed"; device_bool a "recloser" "closed";
   boolFromMap (Electrical a) "general_load_energized"; boolFromMap (Electrical a) "critical_load_energized";
   device_bool a "recloser" "reclose_enabled"; device_bool a "relay" "remote_control_enabled";
   match Devices a !! "regulator" with Some m => negb (boolFromMap m "manual_mode") | None => false end;
   comms a "relay"; comms a "recloser"; comms a "regulator";
   device_bool a "capbank" "switched_in"; device_bool a "capbank" "auto_mode"; comms a "capbank"].

Definition getDiscreteInputs (p : rtac) : list bool :=
  let a := agg p in
  [hasCommLoss a; isBreakerOpenUnexpected a; isRecloseDisabled a; isLowVoltageCritical a;
   device_bool a "relay" "fault_seen"; device_bool a "relay" "lockout";
   device_bool a "recloser" "fault_seen"; device_bool a "recloser" "lockout";
   device_bool a "regulator" "alarm"; device_bool a "capbank" "lockout"; device_bool a "capbank" "alarm"].

(** A number of a device's map under a conversion, 0 without it. *)
Definition device_number (a : AggregatedState) (device key : string) (conv : float64 → Z) : Z :=
  match Devices a !! device with
  | Some m => match m !! key with Some (ANum f) => conv f | _ => 0 end
  | None => 0
  end.

Definition getHoldingRegisters (p : rtac) : list Z :=
  let a := agg p in
  let bit device key := boolToUint16 (device_bool a device key) in
  [bit "relay" "breaker_closed"; bit "recloser" "closed"; bit "recloser" "reclose_enabled";
   device_number a "regulator" "tap_position" (λ f, u16 (to_int16 f)); bit "regulator" "manual_mode";
   device_number a "recloser" "shot_count" to_uint16; bit "relay" "lockout"; bit "recloser" "lockout";
   bit "capbank" "switched_in"; bit "capbank" "auto_mode"; device_number a "capbank" "switch_count" to_uint16;
   bit "capbank" "lockout"].

Definition floatToScaled (scale : Z) (f : float64) : Z := to_uint16 (fmul f (f64_of scale 0)).

Definition getInputRegisters (p : rtac) : list Z :=
  let a := agg p in
  let elec key scale := match Electrical a !! key with Some (ANum f) => floatToScaled scale f | _ => 0 end in
  [elec "substation_bus_voltage_v" 10; elec "downstream_voltage_v" 10; elec "critical_load_voltage_v" 10;
   elec "feeder_current_a" 10; elec "general_load_kw" 1; elec "critical_load_kw" 1;
   device_number a "relay" "measured_current_a" (floatToScaled 10);
   device_number a "relay" "measured_voltage_kv" (floatToScaled 100);
   device_number a "capbank" "kvar_rating" (floatToScaled 10)].

Definition fcReadDiscreteInputs : Z := 0x02.

Definition handleReadCoils (data : list Z) (p : rtac) := read_bits fcReadCoils (getCoils p) data.
Definition handleReadDiscreteInputs (data : list Z) (p : rtac) := read_bits fcReadDiscreteInputs (getDiscreteInputs p) data.
Definition handleReadHoldingRegisters (data : list Z) (p : rtac) :=
  read_registers fcReadHoldingRegisters (getHoldingRegisters p) data.
Definition handleReadInputRegisters (data : list Z) (p : rtac) :=
  read_registers fcReadInputRegisters (getInputRegisters p) data.

Definition read_function (fc : Z) (data : list Z) (p : rtac) : result (list Z) * rtac :=
  ((if fc =? fcReadCoils then handleReadCoils data p
    else if fc =? fcReadDiscreteInputs then handleReadDiscreteInputs data p
    else if fc =? fcReadHoldingRegisters then handleReadHoldingRegisters data p
    else if fc =? fcReadInputRegisters then handleReadInputRegisters data p
    else Ok [Z.lor fc 0x80; 0x01]), p).

Definition handleModbusConn : nat → list Z → rtac → result (list (list Z)) * rtac := serve_conn read_function.

(** ** The image over DNP3 *)
Definition any_float (v : option any) : Z :=
  match v with Some (ANum f) => float32_bits f | Some (AInt n) => float32_int n | _ => 0 end.
Definition aggElecFloat (key : string) (p : rtac) : Z := any_float (Electrical (agg p) !! key).
Definition aggDeviceFloat (device key : string) (p : rtac) : Z :=
  match Devices (agg p) !! device with Some m => any_float (m !! key) | None => 0 end.
Definition aggDeviceBool (device key : string) (p : rtac) : bool := device_bool (agg p) device key.
Definition aggComms (device : string) (p : rtac) : bool := comms (agg p) device.

Definition dnp3_config : OutstationConfig rtac := {|
  OutstationAddr := 10;
  AcceptAnyMaster := true;
  MasterAddr := 0;
  BinaryInputs :=
    [mkBP 0 (aggDeviceBool "relay" "breaker_closed"); mkBP 1 (aggDeviceBool "recloser" "closed");
     mkBP 2 (λ p, boolFromMap (Electrical (agg p)) "general_load_energized");
     mkBP 3 (λ p, boolFromMap (Electrical (agg p)) "critical_load_energized");
     mkBP 4 (aggDeviceBool "recloser" "reclose_enabled"); mkBP 5 (aggDeviceBool "relay" "remote_control_enabled");
     mkBP 6 (λ p, negb (aggDeviceBool "regulator" "manual_mode" p));
     mkBP 7 (aggComms "relay"); mkBP 8 (aggComms "recloser"); mkBP 9 (aggComms "regulator");
     mkBP 10 (aggDeviceBool "relay" "fault_seen"); mkBP 11 (aggDeviceBool "relay" "lockout");
     mkBP 12 (aggDeviceBool "recloser" "fault_seen"); mkBP 13 (aggDeviceBool "recloser" "lockout");
     mkBP 14 (aggDeviceBool "regulator" "alarm")];
  BinaryOutputs := [];
  AnalogInputs :=
    [mkAP 0 (aggElecFloat "substation_bus_voltage_v"); mkAP 1 (aggElecFloat "downstream_voltage_v");
     mkAP 2 (aggElecFloat "critical_load_voltage_v"); mkAP 3 (aggElecFloat "feeder_current_a");
     mkAP 4 (aggElecFloat "general_load_kw"); mkAP 5 (aggElecFloat "critical_load_kw");
     mkAP 6 (aggDeviceFloat "regulator" "tap_position"); mkAP 7 (aggDeviceFloat "recloser" "shot_count")];
  AnalogOutputs := []
|}.
End Image.

(** ** The Modbus poller

    [answer] is what the device's server sends back before the deadline, on a
    connection that could be opened. *)
Inductive poll_result : Type := Polled | PollFailed (e : io_error).

Definition read_request (unitID startAddr count : Z) : list Z :=
  put_be16 1 ++ put_be16 0 ++ put_be16 6 ++ [unitID; 0x03] ++ put_be16 startAddr ++ put_be16 count.

Definition modbusReadHolding (answer : list Z → list Z) (unitID startAddr count : Z) : poll_result :=
  match read_full 9 (answer (read_request unitID startAddr count)) with
  | inr e => PollFailed e
  | inl (header, rest) =>
      let byteCount := nth 8 header 0 in
      if (0 <? byteCount) && (byteCount <=? 250) then
        match read_full (Z.to_nat byteCount) rest with
        | inr e => PollFailed e
        | inl _ => Polled
        end
      else Polled
  end.
