(* ===== verification/Substation.v ===== *)
(** * The substation: the RTAC and its field devices together

    The four device simulators as the network of the RTAC, with its default
    host names.  Every step of a device, of the RTAC's goroutines and of its
    HTTP handlers is a step of the system; the answer of the power-flow service
    and the devices that cannot be reached are arbitrary in each. *)
From Stdlib Require Import Ascii String SpecFloat.
From S2P Require Import Prelude GoLib ModbusServer Dnp3App Dnp3Outstation SimModbus SimShared RecloserSim RelaySim CapbankSim RegulatorSim RtacSim.
From stdpp Require Import gmap strings sorting.

#[local] Open Scope string_scope.
#[local] Open Scope list_scope.
#[local] Open Scope Z_scope.

Section Substation.
Context `{Conversions}.

(** ** The Modbus poller against a device *)

(** What a server sends in answer to a request. *)
Definition answers {D} (handle : Z → list Z → D → result (list Z) * D) (d : D) (request : list Z) : list Z :=
  match (serve_conn handle (S (S (length request))) request d).1 with
  | Ok frames => concat frames
  | _ => []
  end.

Lemma poll_exact {D} (handle : Z → list Z → D → result (list Z) * D) (d : D) (regs : list Z) (count : Z) :
  (∀ data, handle fcReadHoldingRegisters data d = (read_registers fcReadHoldingRegisters regs data, d)) →
  zlen regs ≤ 125 → is_u16 count →
  modbusReadHolding (answers handle d) 1 0 count = Polled ↔ count ≤ zlen regs.
Proof.
  intros Hh Hr Hc. unfold modbusReadHolding.
  set (data := [0; 0; u8 (Z.shiftr count 8); u8 count]).
  assert (Hreq : read_request 1 0 count = [0; 1; 0; 0] ++ put_be16 (2 + zlen data) ++ 1 :: fcReadHoldingRegisters :: data) by done.
  assert (Hw : words data = Some (0, count)) by (cbn; by rewrite put_be16_read).
  assert (Ha : ∀ resp, read_registers fcReadHoldingRegisters regs data = Ok resp →
    answers handle d (read_request 1 0 count) =
    put_be16 (be16 0 1) ++ put_be16 0 ++ put_be16 (u16 (1 + zlen resp)) ++ 1 :: resp).
  { intros resp Hresp. unfold answers. rewrite Hreq.
    erewrite (serve_conn_single handle); [cbn [fst concat]; by rewrite app_nil_r|cbn; lia|by rewrite Hh, Hresp]. }
  assert (H0 : is_u16 0) by (unfold is_u16; lia).
  destruct (Z.leb_spec count (zlen regs)) as [Hle|Hgt].
  - assert (Hin := read_registers_inside data 0 count Hw H0 Hc fcReadHoldingRegisters regs Hr Hle).
    rewrite (Ha _ Hin). split; [done|intros _]. unfold register_response, fcReadHoldingRegisters.
    unfold read_full at 1. cbn [length app put_be16 Nat.leb take drop nth].
    destruct (Z.ltb_spec 0 (2 * count)); cbn [andb]; [|done]. rewrite (proj2 (Z.leb_le _ _)) by lia.
    unfold read_full. unfold is_u16 in Hc.
    replace (Z.to_nat (2 * count) <=? _)%nat with true; [done|]. symmetry. apply Nat.leb_le.
    rewrite !drop_0.
    assert (Hlen : ∀ l : list Z, length (concat (put_be16 <$> l)) = (2 * length l)%nat).
    { induction l as [|x l IH]; [done|]. cbn. rewrite IH. lia. }
    rewrite Hlen, length_take. unfold zlen in *. lia.
  - assert (Hout := read_registers_outside data 0 count Hw H0 Hc fcReadHoldingRegisters regs ltac:(lia)
                      ltac:(unfold wraps, is_u16 in *; lia)).
    rewrite (Ha _ Hout). split; [|lia]. done.
Qed.

(** C31. A poll of the RTAC's Modbus master (unit 1, from register 0) of a field
    device in any state succeeds exactly when the device has as many holding
    registers as the poll asks for.  The devices have three or four, the poll
    asks for ten: every poll is answered with an exception whose code the
    master takes for a byte count, so that it waits for octets that never come
    and fails. *)
Theorem rtac_poll_exact relay recloser_ regulator capbank count :
  is_u16 count →
  (modbusReadHolding (answers handle_function (relay : sim RelayState)) 1 0 count = Polled ↔ count ≤ 3) ∧
  (modbusReadHolding (answers handle_function (recloser_ : recloser)) 1 0 count = Polled ↔ count ≤ 4) ∧
  (modbusReadHolding (answers handle_function (regulator : sim RegulatorState)) 1 0 count = Polled ↔ count ≤ 3) ∧
  (modbusReadHolding (answers handle_function (capbank : sim CapbankState)) 1 0 count = Polled ↔ count ≤ 4).
Proof.
  intros Hc. split_and!.
  - by apply (poll_exact _ _ (RelaySim.getHoldingRegisters relay)).
  - by apply (poll_exact _ _ (RecloserSim.getHoldingRegisters recloser_)).
  - by apply (poll_exact _ _ (RegulatorSim.getHoldingRegisters regulator)).
  - by apply (poll_exact _ _ (CapbankSim.getHoldingRegisters capbank)).
Qed.

(** ** The system *)
Record field : Type := mkField {
  f_relay : sim RelayState;
  f_recloser : recloser;
  f_regulator : sim RegulatorState;
  f_capbank : sim CapbankState
}.

Definition env : gmap string string := ∅.
Definition rtac_address : string := "10.30.30.20:40000".

Definition state_body (m : gmap string any) : json_body := ObjectBody (decoded <$> m) true.
Definition reply_body (r : reply) : json_body :=
  match r with
  | BadRequest => NoObject
  | Reply result detail => ObjectBody (table [("result", AStr result); ("detail", AStr detail)]) true
  end.

Definition device_state (url : string) (w : field) : json_body :=
  if (url =? deviceURL env "relay")%string then state_body (RelaySim.snapshot (state (f_relay w)))
  else if (url =? deviceURL env "recloser")%string then state_body (RecloserSim.snapshot (shape (f_recloser w)))
  else if (url =? deviceURL env "regulator")%string then state_body (RegulatorSim.snapshot (state (f_regulator w)))
  else if (url =? deviceURL env "capbank")%string then state_body (CapbankSim.snapshot (state (f_capbank w)))
  else NoObject.

Definition device_command (url : string) (cmd : CommandRequest) (w : field) : json_body * field :=
  let r := mkRequest (Some cmd) rtac_address in
  if (url =? deviceURL env "relay")%string then
    let (a, d) := RelaySim.handleCommand r (f_relay w) in
    (reply_body a, mkField d (f_recloser w) (f_regulator w) (f_capbank w))
  else if (url =? deviceURL env "recloser")%string then
    let (a, d) := RecloserSim.handleCommand r (f_recloser w) in
    (reply_body a, mkField (f_relay w) d (f_regulator w) (f_capbank w))
  else if (url =? deviceURL env "regulator")%string then
    let (a, d) := RegulatorSim.handleCommand r (f_regulator w) in
    (reply_body a, mkField (f_relay w) (f_recloser w) d (f_capbank w))
  else if (url =? deviceURL env "capbank")%string then
    let (a, d) := CapbankSim.handleCommand r (f_capbank w) in
    (reply_body a, mkField (f_relay w) (f_recloser w) (f_regulator w) d)
  else (NoObject, w).

(** [solver] answers the push; [fate] is what happens to a request to a URL:
    it is lost, its answer is lost, or all goes well. *)
Inductive fate_of : Type := RequestLost | AnswerLost | Served.

Definition field_network (solver : gmap string (gmap string any) → LabOverride → string + Z * json_body)
    (fate : string → fate_of) : network field := {|
  get_state url w := match fate url with Served => Some (device_state url w) | _ => None end;
  post_command url cmd w :=
    match fate url with
    | RequestLost => (inl "request failed", w)
    | AnswerLost => (inl "timeout", (device_command url cmd w).2)
    | Served => let (b, w') := device_command url cmd w in (inr b, w')
    end;
  push_state devices lab w := (solver devices lab, w)
|}.

Record substation : Type := mkSubstation {
  sys_rtac : rtac;
  sys_field : field
}.

Definition system_start (now : Z) : substation :=
  mkSubstation (RtacSim.start now)
    (mkField (RelaySim.start now) (RecloserSim.start now) (RegulatorSim.start now) (CapbankSim.start now)).

Definition rtac_tick (now : Z) (p : rtac) : rtac := mkRtac (at_time now (base p)) (lastCapAutoSwitch p).

Inductive sys_step (s : substation) : substation → Prop :=
| sys_relay d :
    RelaySim.step (f_relay (sys_field s)) d →
    sys_step s (mkSubstation (sys_rtac s) (mkField d (f_recloser (sys_field s)) (f_regulator (sys_field s)) (f_capbank (sys_field s))))
| sys_recloser d :
    RecloserSim.step (f_recloser (sys_field s)) d →
    sys_step s (mkSubstation (sys_rtac s) (mkField (f_relay (sys_field s)) d (f_regulator (sys_field s)) (f_capbank (sys_field s))))
| sys_regulator d :
    RegulatorSim.step (f_regulator (sys_field s)) d →
    sys_step s (mkSubstation (sys_rtac s) (mkField (f_relay (sys_field s)) (f_recloser (sys_field s)) d (f_capbank (sys_field s))))
| sys_capbank d :
    CapbankSim.step (f_capbank (sys_field s)) d →
    sys_step s (mkSubstation (sys_rtac s) (mkField (f_relay (sys_field s)) (f_recloser (sys_field s)) (f_regulator (sys_field s)) d))
| sys_poll solver fate solved now p w :
    poll_cycle (H := field_network solver fate) env solved now (sys_rtac s) (sys_field s) = (p, w) →
    sys_step s (mkSubstation p w)
| sys_auto solver fate p w :
    runAutoControls (H0 := field_network solver fate) env (sys_rtac s) (sys_field s) = (p, w) →
    sys_step s (mkSubstation p w)
| sys_command solver fate text device r answer p w :
    RtacSim.handleCommand (H0 := field_network solver fate) env text device r (sys_rtac s) (sys_field s) = (answer, p, w) →
    sys_step s (mkSubstation p w)
| sys_lab req : sys_step s (mkSubstation (handleLabControl req (sys_rtac s)).2 (sys_field s))
| sys_tick now :
    clock (base (sys_rtac s)) ≤ now → sys_step s (mkSubstation (rtac_tick now (sys_rtac s)) (sys_field s)).

Definition sys_reachable (s : substation) : Prop := ∃ now, rtc sys_step (system_start now) s.

(** ** The devices keep their invariants under the RTAC *)
Definition field_ok (w : field) : Prop :=
  RelaySim.reachable (f_relay w) ∧ RecloserSim.reachable (f_recloser w) ∧
  RegulatorSim.reachable (f_regulator w) ∧ CapbankSim.reachable (f_capbank w).

Lemma reach_r {A} (R : A → A → Prop) (start_ : Z → A) (x y : A) :
  (∃ now, rtc R (start_ now) x) → R x y → ∃ now, rtc R (start_ now) y.
Proof. intros [now Hr] Hs. exists now. by eapply rtc_r. Qed.

Lemma device_command_ok url cmd w : field_ok w → field_ok (device_command url cmd w).2.
Proof.
  intros (H1 & H2 & H3 & H4). unfold device_command. repeat case_if.
  - assert (Hs := RelaySim.step_command (f_relay w) (mkRequest (Some cmd) rtac_address)).
    destruct (RelaySim.handleCommand _ _). repeat split; try done. by eapply reach_r.
  - assert (Hs := RecloserSim.step_command (f_recloser w) (mkRequest (Some cmd) rtac_address)).
    destruct (RecloserSim.handleCommand _ _). repeat split; try done. by eapply reach_r.
  - assert (Hs := RegulatorSim.step_command (f_regulator w) (mkRequest (Some cmd) rtac_address)).
    destruct (RegulatorSim.handleCommand _ _). repeat split; try done. by eapply reach_r.
  - assert (Hs := CapbankSim.step_command (f_capbank w) (mkRequest (Some cmd) rtac_address)).
    destruct (CapbankSim.handleCommand _ _). repeat split; try done. by eapply reach_r.
  - done.
Qed.

Lemma post_ok solver fate url cmd w :
  field_ok w → field_ok (post_command (network := field_network solver fate) url cmd w).2.
Proof.
  intros Hw. pose proof (device_command_ok url cmd w Hw). cbn. destruct (fate url); try done.
  by destruct (device_command url cmd w).
Qed.

Lemma issue_ok solver fate c p w :
  field_ok w → field_ok (issue (H0 := field_network solver fate) env c (p, w)).2.
Proof.
  intros Hw. unfold issue. case_if; [done|].
  pose proof (post_ok solver fate (deviceURL env (auto_device c)) (mkCommandRequest (auto_command c) "rtac-auto" fzero) w Hw).
  destruct (post_command _ _ _) as [[e|b] w']; done.
Qed.

Lemma issues_ok solver fate cmds p w :
  field_ok w → field_ok (fold_left (λ pw c, issue (H0 := field_network solver fate) env c pw) cmds (p, w)).2.
Proof.
  revert p w. induction cmds as [|c cmds IH]; intros p w Hw; cbn [fold_left]; [done|].
  pose proof (issue_ok solver fate c p w Hw). destruct (issue _ _ _) as [p' w']. by apply IH.
Qed.

Lemma poll_cycle_field solver fate solved now p w :
  (poll_cycle (H := field_network solver fate) env solved now p w).2 = w.
Proof. unfold poll_cycle. cbn. by destruct (solver _ _) as [e|[st b]]; destruct (applyPhysicsReply _ _ _ _ _). Qed.

Lemma sys_step_ok s s' : sys_step s s' → field_ok (sys_field s) → field_ok (sys_field s').
Proof.
  intros Hs Hok. assert (Hok' := Hok). destruct Hok' as (H1 & H2 & H3 & H4).
  destruct Hs as [d Hd|d Hd|d Hd|d Hd|solver fate solved now p w Hp|solver fate p w Hp|solver fate text device_ r answer p w Hp|req|now Hn];
    cbn [sys_field]; try (repeat split; try done; by eapply reach_r).
  - replace w with (p, w).2 by done. rewrite <- Hp. by rewrite poll_cycle_field.
  - replace w with (p, w).2 by done. rewrite <- Hp. by apply issues_ok.
  - revert Hp. unfold RtacSim.handleCommand. destruct (body r) as [cmd|]; [|by intros [= _ _ <-]].
    case_if; [by intros [= _ _ <-]|].
    match goal with |- context [post_command ?u ?c ?w0] => pose proof (post_ok solver fate u c w0 Hok);
      destruct (post_command u c w0) as [[e|b] w'] end; by intros [= _ _ <-].
Qed.

Lemma sys_reachable_ok s : sys_reachable s → field_ok (sys_field s).
Proof.
  intros [now Hr]. revert s Hr. apply rtc_ind_r; [repeat split; exists now; apply rtc_refl|].
  intros y z _ Hs. by apply sys_step_ok.
Qed.

(** ** The RTAC's image *)

(** The communication flags are those of the field devices. *)
Definition device_names : list string := ["relay"; "recloser"; "regulator"; "capbank"].
Definition comms_ok (a : AggregatedState) : Prop := ∀ k, is_Some (DeviceComms a !! k) → k ∈ device_names.

Lemma poll_device_comms name answer a : name ∈ device_names → comms_ok a → comms_ok (poll_device name answer a).
Proof.
  intros Hn Ha. assert (Hi : ∀ b, comms_ok (set_DeviceComms (<[name := b]> (DeviceComms a)) a)).
  { intros b k. cbn. destruct (decide (k = name)) as [->|Hne]; [done|]. rewrite lookup_insert_ne by done. apply Ha. }
  destruct answer as [[| |m []]|]; cbn [poll_device]; first [apply (Hi true) | apply (Hi false) | done].
Qed.

Lemma apply_comms a status b e now : DeviceComms (applyPhysicsReply a status b e now).1 = DeviceComms a.
Proof. unfold applyPhysicsReply. by destruct (accept_reply status b e). Qed.

Lemma apply_devices a status b e now : Devices (applyPhysicsReply a status b e now).1 = Devices a.
Proof. unfold applyPhysicsReply. by destruct (accept_reply status b e). Qed.

(** A cycle keeps what its polls stored. *)
Lemma poll_cycle_agg solver fate solved now p w :
  let a := poll_all (H := field_network solver fate) env w (agg p) in
  let q := (poll_cycle (H := field_network solver fate) env solved now p w).1 in
  Devices (agg q) = Devices a ∧ DeviceComms (agg q) = DeviceComms a.
Proof.
  intros a q. subst q. unfold poll_cycle. fold a.
  destruct (push_state (Devices a) (Lab a) w) as [answer w']. destruct answer as [e|[st b]];
    match goal with |- context [applyPhysicsReply ?x ?y ?z ?u ?v] =>
      pose proof (apply_comms x y z u v); pose proof (apply_devices x y z u v); destruct (applyPhysicsReply x y z u v) end; done.
Qed.

Lemma issue_agg solver fate c pw : agg (issue (H0 := field_network solver fate) env c pw).1 = agg pw.1.
Proof.
  destruct pw as [p w]. unfold issue. case_if; [done|]. destruct (post_command _ _ _) as [[e|b] w']; [done|]. by case_if.
Qed.

Lemma issues_agg solver fate cmds pw :
  agg (fold_left (λ pw c, issue (H0 := field_network solver fate) env c pw) cmds pw).1 = agg pw.1.
Proof. revert pw. induction cmds as [|c cmds IH]; intros pw; cbn [fold_left]; [done|]. by rewrite IH, issue_agg. Qed.

Lemma handleCommand_agg solver fate text d r p w answer p' w' :
  RtacSim.handleCommand (H0 := field_network solver fate) env text d r p w = (answer, p', w') → agg p' = agg p.
Proof.
  unfold RtacSim.handleCommand. destruct (body r) as [cmd|]; [|by intros [= _ <- _]]. case_if; [by intros [= _ <- _]|].
  destruct (post_command _ _ _) as [[e|b] w1]; by intros [= _ <- _].
Qed.

Lemma sys_step_comms s s' : sys_step s s' → comms_ok (agg (sys_rtac s)) → comms_ok (agg (sys_rtac s')).
Proof.
  intros Hs Hok.
  destruct Hs as [d Hd|d Hd|d Hd|d Hd|solver fate solved now p w Hp|solver fate p w Hp|solver fate text d r answer p w Hp|req|now Hn];
    cbn [sys_rtac]; try done.
  - destruct (poll_cycle_agg solver fate solved now (sys_rtac s) (sys_field s)) as [_ Hc]. rewrite Hp in Hc. cbn in Hc.
    unfold comms_ok. rewrite Hc. unfold poll_all. cbn [fold_left fieldDevices Name].
    repeat (apply poll_device_comms; [apply (bool_decide_unpack _); vm_compute; exact I|]). done.
  - replace (agg p) with (agg (sys_rtac s)); [done|]. symmetry.
    pose proof (issues_agg solver fate (autoControlDecisions (agg (sys_rtac s)) (lastCapAutoSwitch (sys_rtac s)) (clock (base (sys_rtac s))))
                  (sys_rtac s, sys_field s)) as Hi. fold (runAutoControls (H0 := field_network solver fate) env (sys_rtac s) (sys_field s)) in Hi.
    by rewrite Hp in Hi.
  - by rewrite (handleCommand_agg _ _ _ _ _ _ _ _ _ _ Hp).
  - unfold handleLabControl. destruct req as [q|]; [|done]. cbn [snd]. case_if; done.
Qed.

Lemma sys_reachable_comms s : sys_reachable s → comms_ok (agg (sys_rtac s)).
Proof.
  intros [now Hr]. revert s Hr. apply rtc_ind_r; [|intros y z _ Hs; by apply sys_step_comms].
  intros k [v Hv]. change ((∅ : gmap string bool) !! k = Some v) in Hv. by rewrite lookup_empty in Hv.
Qed.

(** Small whole numbers survive the way through JSON. *)
Lemma small_numbers n : -16 ≤ n ≤ 16 → truncated (f64_of n 0) = Some n.
Proof. apply (all_taps (λ n, truncated (f64_of n 0) = Some n)), (bool_decide_unpack _). vm_compute. exact I. Qed.

Lemma small_uint16 n : 0 ≤ n ≤ 16 → to_uint16 (f64_of n 0) = n.
Proof.
  intros Hn. unfold to_uint16. rewrite small_numbers by lia.
  by rewrite (proj2 (Z.leb_le _ _)), (proj2 (Z.ltb_lt _ _)) by lia.
Qed.

Lemma small_int16 n : -16 ≤ n ≤ 16 → to_int16 (f64_of n 0) = n.
Proof.
  intros Hn. unfold to_int16. rewrite small_numbers by lia.
  by rewrite (proj2 (Z.leb_le _ _)), (proj2 (Z.ltb_lt _ _)) by lia.
Qed.

Lemma small_float32 n : -16 ≤ n ≤ 16 → float32_bits (f64_of n 0) = float32_int n.
Proof. apply (all_taps (λ n, float32_bits (f64_of n 0) = float32_int n)), (bool_decide_unpack _). vm_compute. exact I. Qed.

Definition all_served : string → fate_of := λ _, Served.

(** A cycle in which every device answers stores the four states. *)
Lemma served_cycle solver solved now p w q :
  (poll_cycle (H := field_network solver all_served) env solved now p w).1 = q → comms_ok (agg p) →
  Devices (agg q) !! "relay" = Some (decoded <$> RelaySim.snapshot (state (f_relay w))) ∧
  Devices (agg q) !! "recloser" = Some (decoded <$> RecloserSim.snapshot (shape (f_recloser w))) ∧
  Devices (agg q) !! "regulator" = Some (decoded <$> RegulatorSim.snapshot (state (f_regulator w))) ∧
  Devices (agg q) !! "capbank" = Some (decoded <$> CapbankSim.snapshot (state (f_capbank w))) ∧
  ∀ k, k ∈ device_names ∧ DeviceComms (agg q) !! k = Some true ∨ k ∉ device_names ∧ DeviceComms (agg q) !! k = None.
Proof.
  intros <- Hc. destruct (poll_cycle_agg solver all_served solved now p w) as [-> ->].
  change (poll_all (H := field_network solver all_served) env w (agg p)) with
    (poll_device "capbank" (Some (state_body (CapbankSim.snapshot (state (f_capbank w)))))
      (poll_device "regulator" (Some (state_body (RegulatorSim.snapshot (state (f_regulator w)))))
        (poll_device "recloser" (Some (state_body (RecloserSim.snapshot (shape (f_recloser w)))))
          (poll_device "relay" (Some (state_body (RelaySim.snapshot (state (f_relay w))))) (agg p))))).
  cbn [poll_device state_body set_DeviceComms set_Devices Devices DeviceComms].
  split_and!; try (by rewrite ?lookup_insert_ne, lookup_insert_eq by done).
  intros k. destruct (decide (k ∈ device_names)) as [Hk|Hk]; [left|right]; (split; [done|]).
  - unfold device_names in Hk. rewrite !elem_of_cons in Hk.
    destruct Hk as [->|[->|[->|[->|Hk]]]]; [..|by apply not_elem_of_nil in Hk];
      by rewrite ?lookup_insert_ne, lookup_insert_eq by done.
  - unfold device_names in Hk. rewrite !not_elem_of_cons in Hk. destruct Hk as (H1 & H2 & H3 & H4 & _).
    rewrite !lookup_insert_ne by done. apply eq_None_not_Some. intros Hs%Hc.
    unfold device_names in Hs. set_solver.
Qed.

(** A number of the power-flow solution under a conversion, 0 without it. *)
Definition solved_number (elec : gmap string any) (conv : float64 → Z) (key : string) : Z :=
  match elec !! key with Some (ANum f) => conv f | _ => 0 end.

(** C29. In any reachable state of the substation, when a poll cycle gets an
    answer from all four devices, the RTAC's Modbus and DNP3 images show exactly
    their present states: positions, modes, lockouts, faults and alarms, the
    communication flags all set and no communication loss, the measured current
    and voltage and the rating in the scaled units of the devices' own
    registers, and the tap position, the shot count and the switch count as
    whole numbers, although they travel as JSON numbers.  The electrical points
    show the values of the last power-flow solution, zero for an absent one. *)
Theorem rtac_mirrors s solver solved now p w :
  sys_reachable s →
  poll_cycle (H := field_network solver all_served) env solved now (sys_rtac s) (sys_field s) = (p, w) →
  let relay := state (f_relay (sys_field s)) in
  let recl := shape (f_recloser (sys_field s)) in
  let reg := state (f_regulator (sys_field s)) in
  let cap := state (f_capbank (sys_field s)) in
  let elec := Electrical (agg p) in
  getCoils p =
    [BreakerClosed relay; Closed recl; boolFromMap elec "general_load_energized"; boolFromMap elec "critical_load_energized";
     RecloseEnabled recl; RemoteControlEnabled relay; negb (ManualMode reg); true; true; true;
     SwitchedIn cap; CapbankSim.AutoMode cap; true] ∧
  getDiscreteInputs p =
    [false; negb (BreakerClosed relay); negb (RecloseEnabled recl);
     match elec !! "critical_load_voltage_v" with
     | Some (ANum v) => SFltb (f64_of 0 0) v && SFltb v (f64_of 114 0)
     | _ => false
     end;
     FaultSeen relay; RelaySim.Lockout relay; RecloserSim.FaultSeen recl; RecloserSim.Lockout recl;
     RegulatorSim.Alarm reg; CapbankSim.Lockout cap; CapbankSim.Alarm cap] ∧
  RtacSim.getInputRegisters p =
    (solved_number elec (λ f, to_uint16 (fmul f (f64_of 10 0))) <$>
       ["substation_bus_voltage_v"; "downstream_voltage_v"; "critical_load_voltage_v"; "feeder_current_a"]) ++
    (solved_number elec (λ f, to_uint16 (fmul f (f64_of 1 0))) <$> ["general_load_kw"; "critical_load_kw"]) ++
    RelaySim.getInputRegisters (f_relay (sys_field s)) ++ take 1 (CapbankSim.getInputRegisters (f_capbank (sys_field s))) ∧
  getHoldingRegisters p =
    [boolToUint16 (BreakerClosed relay); boolToUint16 (Closed recl); boolToUint16 (RecloseEnabled recl);
     u16 (TapPosition reg); boolToUint16 (ManualMode reg); ShotCount recl; boolToUint16 (RelaySim.Lockout relay);
     boolToUint16 (RecloserSim.Lockout recl); boolToUint16 (SwitchedIn cap); boolToUint16 (CapbankSim.AutoMode cap);
     SwitchCount cap; boolToUint16 (CapbankSim.Lockout cap)] ∧
  ((λ q, BP_Read q p) <$> BinaryInputs dnp3_config) =
    [BreakerClosed relay; Closed recl; boolFromMap elec "general_load_energized"; boolFromMap elec "critical_load_energized";
     RecloseEnabled recl; RemoteControlEnabled relay; negb (ManualMode reg); true; true; true;
     FaultSeen relay; RelaySim.Lockout relay; RecloserSim.FaultSeen recl; RecloserSim.Lockout recl; RegulatorSim.Alarm reg] ∧
  ((λ q, AP_Read q p) <$> AnalogInputs dnp3_config) =
    ((λ key, any_float (elec !! key)) <$>
       ["substation_bus_voltage_v"; "downstream_voltage_v"; "critical_load_voltage_v"; "feeder_current_a";
        "general_load_kw"; "critical_load_kw"]) ++
    [float32_int (TapPosition reg); float32_int (ShotCount recl)].
Proof.
  intros Hr Hp relay recl reg cap elec.
  assert (Hq : (poll_cycle (H := field_network solver all_served) env solved now (sys_rtac s) (sys_field s)).1 = p) by by rewrite Hp.
  destruct (served_cycle _ _ _ _ _ _ Hq (sys_reachable_comms s Hr)) as (H1 & H2 & H3 & H4 & Hk).
  apply sys_reachable_ok in Hr as (_ & Hrec%reachable_safe & Hreg%tap_reachable & Hcap%bank_reachable).
  destruct Hrec as [Hshot _]. destruct Hreg as [Htap _]. destruct Hcap as [Hcount _].
  assert (Hcomms : ∀ k, k ∈ device_names → comms (agg p) k = true).
  { intros k Hin. unfold comms. destruct (Hk k) as [[_ ->]|[Hn _]]; done. }
  assert (Hloss : hasCommLoss (agg p) = false).
  { unfold hasCommLoss. apply not_true_iff_false. intros Hex. apply existsb_exists in Hex as ([k v] & Hin & Hv).
    apply list_elem_of_In, elem_of_map_to_list in Hin. destruct (Hk k) as [[_ Heq]|[_ Heq]]; rewrite Heq in Hin; by simplify_eq. }
  assert (Hc : comms (agg p) "relay" = true ∧ comms (agg p) "recloser" = true ∧ comms (agg p) "regulator" = true ∧
               comms (agg p) "capbank" = true).
  { split_and!; apply Hcomms; apply (bool_decide_unpack _); vm_compute; exact I. }
  destruct Hc as (Hc1 & Hc2 & Hc3 & Hc4).
  split_and!.
  - unfold getCoils, device_bool. by rewrite H1, H2, H3, H4, Hc1, Hc2, Hc3, Hc4.
  - unfold getDiscreteInputs, device_bool, isBreakerOpenUnexpected, isRecloseDisabled. by rewrite Hloss, H1, H2, H3, H4.
  - unfold RtacSim.getInputRegisters, device_number. by rewrite H1, H4.
  - unfold getHoldingRegisters, device_bool, device_number. rewrite H1, H2, H3, H4.
    change ((decoded <$> RegulatorSim.snapshot _) !! "tap_position") with (Some (ANum (f64_of (TapPosition reg) 0))).
    change ((decoded <$> RecloserSim.snapshot _) !! "shot_count") with (Some (ANum (f64_of (ShotCount recl) 0))).
    change ((decoded <$> CapbankSim.snapshot _) !! "switch_count") with (Some (ANum (f64_of (SwitchCount cap) 0))).
    cbv beta iota zeta. unfold maxShots, maxSwitchCount, minTap, maxTap in *.
    rewrite small_int16, !small_uint16 by (subst recl cap reg; lia). reflexivity.
  - cbn [fmap list_fmap dnp3_config BinaryInputs BP_Read]. unfold aggDeviceBool, device_bool, aggComms.
    by rewrite H1, H2, H3, Hc1, Hc2, Hc3.
  - cbn [fmap list_fmap dnp3_config AnalogInputs AP_Read app]. unfold aggDeviceFloat, aggElecFloat. rewrite H2, H3.
    change (any_float ((decoded <$> RegulatorSim.snapshot _) !! "tap_position")) with (float32_bits (f64_of (TapPosition reg) 0)).
    change (any_float ((decoded <$> RecloserSim.snapshot _) !! "shot_count")) with (float32_bits (f64_of (ShotCount recl) 0)).
    unfold maxShots, minTap, maxTap in *. rewrite !small_float32 by (subst recl reg; lia). reflexivity.
Qed.

(** ** Automatic control *)

(** The entries of automatic switches of the capacitor bank. *)
Definition auto_switch (e : AuditEntry) : Prop := SourceZone e = "auto" ∧ Target e = "capbank".
#[local] Instance auto_switch_dec e : Decision (auto_switch e) := ltac:(unfold auto_switch; apply _).

Definition dwell : Z := capAutoDwellSec * 1000000000.
Definition switch_times (l : list AuditEntry) : list Z := Timestamp <$> filter auto_switch l.
Definition spaced (l : list Z) : Prop := StronglySorted (λ a b, a + dwell < b) l.

Definition dwell_ok (p : rtac) : Prop :=
  spaced (switch_times (entries (audit (base p)))) ∧
  Forall (λ t, t ≤ lastCapAutoSwitch p) (switch_times (entries (audit (base p)))).

Lemma spaced_drop n l : spaced (switch_times l) → spaced (switch_times (drop n l)).
Proof.
  unfold spaced, switch_times. rewrite <- (take_drop n l) at 1. rewrite filter_app, fmap_app.
  generalize (Timestamp <$> filter auto_switch (take n l)). intros pre. induction pre as [|x pre IH]; [done|].
  cbn. intros Hs. apply IH. by inversion Hs.
Qed.

Lemma times_drop n l t : Forall (λ x, x ≤ t) (switch_times l) → Forall (λ x, x ≤ t) (switch_times (drop n l)).
Proof.
  unfold switch_times. rewrite <- (take_drop n l) at 1. rewrite filter_app, fmap_app. by intros [_ ?]%Forall_app.
Qed.

Lemma spaced_snoc l t : spaced l → Forall (λ x, x + dwell < t) l → spaced (l ++ [t]).
Proof.
  unfold spaced. induction 1 as [|x l Hs IH Hx]; intros Hf; cbn; [repeat constructor|].
  apply Forall_cons in Hf as [Hxt Hf]. constructor; [by apply IH|]. apply Forall_app. split; [done|by repeat constructor].
Qed.

Lemma classified_zone source : ClassifyZone source ≠ "auto" ∧ ClassifyZone source ≠ "".
Proof. unfold ClassifyZone. cbv zeta. repeat case_if; done. Qed.

(** An entry that is not an automatic switch. *)
Lemma add_other source zone target command result detail impact p :
  zone ≠ "" → ¬ (zone = "auto" ∧ target = "capbank") → dwell_ok p →
  dwell_ok (RtacSim.add_entry source zone target command result detail impact p).
Proof.
  intros Hz Hn [Hs Hf]. unfold RtacSim.add_entry, SimShared.Add, dwell_ok.
  cbn [base audit entries max_entries lastCapAutoSwitch Timestamp SourceZone Source Target Command Result Detail ProcessImpact].
  rewrite (proj2 (String.eqb_neq zone "") Hz).
  match goal with |- context [entries (audit (base p)) ++ [?e]] =>
    assert (Heq : switch_times (entries (audit (base p)) ++ [e]) = switch_times (entries (audit (base p)))) end.
  { unfold switch_times. rewrite filter_app, fmap_app. rewrite filter_cons_False by exact Hn. cbn. by rewrite app_nil_r. }
  case_if; rewrite ?Heq; [|done]. split; [apply spaced_drop|apply times_drop]; by rewrite Heq.
Qed.

(** A recorded automatic switch. *)
Lemma add_switch command impact p :
  dwell_ok p → lastCapAutoSwitch p + dwell < clock (base p) →
  dwell_ok (mkRtac (base (RtacSim.add_entry "rtac-auto" "auto" "capbank" command "executed" "automatic control response" impact p))
              (clock (base p))).
Proof.
  intros [Hs Hf] Hd. unfold RtacSim.add_entry, SimShared.Add, dwell_ok.
  cbn [base audit entries max_entries lastCapAutoSwitch Timestamp SourceZone Source Target Command Result Detail ProcessImpact].
  change (("auto" =? "")%string) with false. rewrite Z.eqb_refl.
  match goal with |- context [entries (audit (base p)) ++ [?e]] =>
    assert (Heq : switch_times (entries (audit (base p)) ++ [e]) = switch_times (entries (audit (base p))) ++ [clock (base p)]) end.
  { unfold switch_times. by rewrite filter_app, fmap_app. }
  assert (H1 : spaced (switch_times (entries (audit (base p))) ++ [clock (base p)])).
  { apply spaced_snoc; [done|]. eapply Forall_impl; [done|]. cbn. intros. lia. }
  assert (H2 : Forall (λ x, x ≤ clock (base p)) (switch_times (entries (audit (base p))) ++ [clock (base p)])).
  { apply Forall_app. split; [|by repeat constructor]. eapply Forall_impl; [done|]. cbn. intros. unfold dwell, capAutoDwellSec in *. lia. }
  case_if; rewrite ?Heq; [|done]. split; [apply spaced_drop|apply times_drop]; by rewrite Heq.
Qed.

(** ** What the automatic commands touch *)
Lemma url_names : NoDup (deviceURL env <$> device_names) ∧ Forall (λ u, u ≠ "") (deviceURL env <$> device_names).
Proof. split; apply (bool_decide_unpack _); vm_compute; exact I. Qed.

Lemma post_regulator solver fate cmd w :
  let w' := (post_command (network := field_network solver fate) (deviceURL env "regulator") cmd w).2 in
  f_relay w' = f_relay w ∧ f_recloser w' = f_recloser w ∧ f_capbank w' = f_capbank w.
Proof.
  cbn [post_command field_network]. unfold device_command.
  change ((deviceURL env "regulator" =? deviceURL env "relay")%string) with false.
  change ((deviceURL env "regulator" =? deviceURL env "recloser")%string) with false.
  change ((deviceURL env "regulator" =? deviceURL env "regulator")%string) with true. cbv iota.
  destruct (RegulatorSim.handleCommand _ _). by destruct (fate _).
Qed.

Lemma post_capbank solver fate cmd w :
  let w' := (post_command (network := field_network solver fate) (deviceURL env "capbank") cmd w).2 in
  f_relay w' = f_relay w ∧ f_recloser w' = f_recloser w ∧ f_regulator w' = f_regulator w.
Proof.
  cbn [post_command field_network]. unfold device_command.
  change ((deviceURL env "capbank" =? deviceURL env "relay")%string) with false.
  change ((deviceURL env "capbank" =? deviceURL env "recloser")%string) with false.
  change ((deviceURL env "capbank" =? deviceURL env "regulator")%string) with false.
  change ((deviceURL env "capbank" =? deviceURL env "capbank")%string) with true. cbv iota.
  destruct (CapbankSim.handleCommand _ _). by destruct (fate _).
Qed.

Lemma issue_regulator solver fate command p w :
  let r := issue (H0 := field_network solver fate) env (mkAutoCmd "regulator" command) (p, w) in
  (f_relay r.2 = f_relay w ∧ f_recloser r.2 = f_recloser w ∧ f_capbank r.2 = f_capbank w) ∧
  lastCapAutoSwitch r.1 = lastCapAutoSwitch p ∧ clock (base r.1) = clock (base p) ∧ (dwell_ok p → dwell_ok r.1).
Proof.
  cbn zeta. unfold issue. cbn [auto_device auto_command].
  change ((deviceURL env "regulator" =? "")%string) with false. cbv iota.
  pose proof (post_regulator solver fate (mkCommandRequest command "rtac-auto" fzero) w) as Hp.
  destruct (post_command _ _ w) as [[e|b] w']; cbn [fst snd] in *; (split; [exact Hp|]); [done|].
  split_and!; try done. intros Hd. apply add_other; [done|by intros [_ ?]|done].
Qed.

Lemma issue_capbank solver fate command p w :
  let r := issue (H0 := field_network solver fate) env (mkAutoCmd "capbank" command) (p, w) in
  (f_relay r.2 = f_relay w ∧ f_recloser r.2 = f_recloser w ∧ f_regulator r.2 = f_regulator w) ∧
  (dwell_ok p → lastCapAutoSwitch p + dwell < clock (base p) → dwell_ok r.1).
Proof.
  cbn zeta. unfold issue. cbn [auto_device auto_command].
  change ((deviceURL env "capbank" =? "")%string) with false. cbv iota.
  pose proof (post_capbank solver fate (mkCommandRequest command "rtac-auto" fzero) w) as Hp.
  destruct (post_command _ _ w) as [[e|b] w']; cbn [fst snd] in *; (split; [exact Hp|]); [done|].
  intros Hd Hl. exact (add_switch command _ p Hd Hl).
Qed.

(** The decisions: at most one command for each of the two devices. *)
Lemma regulator_decision_cases a :
  regulator_decision a = [] ∨
  (∃ command, regulator_decision a = [mkAutoCmd "regulator" command]) ∧
  ∃ m, Devices a !! "regulator" = Some m ∧ boolFromMap m "manual_mode" = false.
Proof.
  unfold regulator_decision. destruct (Devices a !! "regulator") as [m|]; [|by left].
  destruct (boolFromMap m "manual_mode") eqn:Hm; [by left|]. cbn [negb andb].
  repeat case_if; try (by left); right; split; eauto.
Qed.

Lemma capbank_decision_cases a last now :
  capbank_decision a last now = [] ∨
  (∃ command, capbank_decision a last now = [mkAutoCmd "capbank" command]) ∧ last + dwell < now ∧
  ∃ m, Devices a !! "capbank" = Some m ∧ boolFromMap m "auto_mode" = true ∧ boolFromMap m "lockout" = false.
Proof.
  unfold capbank_decision. destruct (Devices a !! "capbank") as [m|]; [|by left].
  destruct (boolFromMap m "auto_mode") eqn:Hm; [|by left]. destruct (boolFromMap m "lockout") eqn:Hl; [by left|].
  cbn [negb andb]. destruct (boolFromMap (Electrical a) "general_load_energized"); [|by left]. cbn [andb].
  destruct (Z.ltb_spec (capAutoDwellSec * 1000000000) (time_Sub now last)) as [Hd|]; [|by left].
  assert (last + dwell < now).
  { unfold time_Sub, dwell, capAutoDwellSec, maxDuration, minDuration in *. lia. }
  repeat case_if; try (by left); right; split; eauto 6.
Qed.

(** A device changed by the automatic controls was, when polled last, in
    automatic mode (the bank also not locked out), with a fresh solution. *)
Definition auto_allowed (a : AggregatedState) (w w' : field) : Prop :=
  f_relay w' = f_relay w ∧ f_recloser w' = f_recloser w ∧
  (physicsIsStale (Physics a) = true → w' = w) ∧
  (f_regulator w' = f_regulator w ∨
   ∃ m, Devices a !! "regulator" = Some m ∧ boolFromMap m "manual_mode" = false) ∧
  (f_capbank w' = f_capbank w ∨
   ∃ m, Devices a !! "capbank" = Some m ∧ boolFromMap m "auto_mode" = true ∧ boolFromMap m "lockout" = false).

Lemma run_auto solver fate p w :
  let r := runAutoControls (H0 := field_network solver fate) env p w in
  auto_allowed (agg p) w r.2 ∧ (dwell_ok p → dwell_ok r.1).
Proof.
  cbn zeta. unfold runAutoControls, autoControlDecisions, auto_allowed.
  destruct (physicsIsStale (Physics (agg p))) eqn:Hst; [cbn; split_and!; auto|]. rewrite fold_left_app.
  destruct (capbank_decision_cases (agg p) (lastCapAutoSwitch p) (clock (base p))) as [->|((cmd & ->) & Hd & Hm)];
    (destruct (regulator_decision_cases (agg p)) as [->|((cmd' & ->) & Hm')]); cbn [fold_left].
  - split_and!; auto.
  - pose proof (issue_regulator solver fate cmd' p w) as ((? & ? & ?) & ? & ? & ?). split_and!; auto; congruence.
  - pose proof (issue_capbank solver fate cmd p w) as ((? & ? & ?) & ?). split_and!; auto; congruence.
  - pose proof (issue_regulator solver fate cmd' p w) as ((? & ? & ?) & ? & ? & ?).
    destruct (issue (H0 := field_network solver fate) env (mkAutoCmd "regulator" cmd') (p, w)) as [p1 w1]. cbn [fst snd] in *.
    pose proof (issue_capbank solver fate cmd p1 w1) as ((? & ? & ?) & Hdw).
    split_and!; auto; try congruence. intros Hok. apply Hdw; [by auto|]. congruence || lia.
Qed.

Lemma handleCommand_dwell solver fate text d r p w answer p' w' :
  RtacSim.handleCommand (H0 := field_network solver fate) env text d r p w = (answer, p', w') → dwell_ok p → dwell_ok p'.
Proof.
  unfold RtacSim.handleCommand. destruct (body r) as [cmd|]; [|by intros [= _ <- _]]. case_if; [by intros [= _ <- _]|].
  destruct (classified_zone (SourceFromRequest r cmd)) as [Hz Hz'].
  destruct (post_command _ _ _) as [[e|b] w1]; intros [= _ <- _] Hd; (apply add_other; [done|by intros [? _]|done]).
Qed.

Lemma sys_step_dwell s s' : sys_step s s' → dwell_ok (sys_rtac s) → dwell_ok (sys_rtac s').
Proof.
  intros Hs Hok.
  destruct Hs as [d Hd|d Hd|d Hd|d Hd|solver fate solved now p w Hp|solver fate p w Hp|solver fate text d r answer p w Hp|req|now Hn];
    cbn [sys_rtac]; try done.
  - revert Hp. unfold poll_cycle. destruct (push_state _ _ _) as [ans w1].
    destruct ans as [e|[st b]]; destruct (applyPhysicsReply _ _ _ _ _); by intros [= <- _].
  - destruct (run_auto solver fate (sys_rtac s) (sys_field s)) as [_ Hd]. rewrite Hp in Hd. by apply Hd.
  - by eapply handleCommand_dwell.
  - unfold handleLabControl. destruct req as [q|]; [|done]. cbn [snd]. case_if; [|done]. apply add_other; [done|by intros [? _]|done].
Qed.

Lemma sys_reachable_dwell s : sys_reachable s → dwell_ok (sys_rtac s).
Proof.
  intros [now Hr]. revert s Hr. apply rtc_ind_r; [by repeat constructor|]. intros y z _ Hs. by apply sys_step_dwell.
Qed.

(** C7. The automatic controls of the RTAC in any reachable state of the
    substation: a cycle changes no relay and no recloser, nothing at all while
    the power-flow solution is stale, the regulator only when it was last
    polled in automatic mode, and the capacitor bank only when it was last polled
    in automatic mode and not locked out.  The automatic switches of the bank
    recorded in the audit log are pairwise more than thirty seconds apart, and
    no forwarded command and no lab control is recorded as one of them. *)
Theorem rtac_auto_control s solver fate p w :
  sys_reachable s →
  runAutoControls (H0 := field_network solver fate) env (sys_rtac s) (sys_field s) = (p, w) →
  auto_allowed (agg (sys_rtac s)) (sys_field s) w ∧
  spaced (switch_times (Entries (audit (base p)))).
Proof.
  intros Hr Hp. destruct (run_auto solver fate (sys_rtac s) (sys_field s)) as [Ha Hd]. rewrite Hp in Ha, Hd.
  split; [done|]. by apply Hd, sys_reachable_dwell.
Qed.

End Substation.

#[local] Instance zero_conversions : Conversions :=
  Build_Conversions (λ _, 0) (λ _, 0) (λ _, 0) (λ _, conj (Z.le_refl 0) eq_refl).

Lemma rtac_poll_exact_witness :
  modbusReadHolding (answers handle_function (RelaySim.start 0)) 1 0 10 ≠ Polled ∧
  modbusReadHolding (answers handle_function (RecloserSim.start 0)) 1 0 10 ≠ Polled.
Proof.
  destruct (rtac_poll_exact (RelaySim.start 0) (RecloserSim.start 0) (RegulatorSim.start 0) (CapbankSim.start 0) 10
              ltac:(unfold is_u16; lia)) as (H1 & H2 & _ & _).
  split; [intros Hp; apply (proj1 H1) in Hp; lia|intros Hp; apply (proj1 H2) in Hp; lia].
Defined.

(** A solved reply with everything energised, a lagging power factor and a low voltage. *)
Definition demo_solver (_ : gmap string (gmap string any)) (_ : LabOverride) : string + Z * json_body :=
  inr (200, ObjectBody (table [("converged", ABool true); ("critical_load_energized", ABool true);
                               ("general_load_energized", ABool true); ("critical_load_voltage_v", ANum (f64_of 116 0));
                               ("power_factor", ANum (f64_of 7 (-3))); ("downstream_voltage_v", ANum (f64_of 118 0))]) true).

Definition demo_polled : substation :=
  let (p, w) := poll_cycle (H := field_network demo_solver all_served) env 5 6 (sys_rtac (system_start 0)) (sys_field (system_start 0)) in
  mkSubstation p w.

Lemma demo_polled_reachable : sys_reachable demo_polled.
Proof.
  exists 0. apply rtc_once. unfold demo_polled. destruct (poll_cycle _ _ _ _ _) as [p w] eqn:Hp.
  by eapply (sys_poll _ demo_solver all_served 5 6).
Qed.

Lemma rtac_mirrors_witness :
  getHoldingRegisters (sys_rtac demo_polled) = [1; 1; 1; 0; 0; 0; 0; 0; 0; 1; 0; 0] ∧
  drop 6 (RtacSim.getInputRegisters (sys_rtac demo_polled)) = [1200; 1247; 3000] ∧
  ((λ q, AP_Read q (sys_rtac demo_polled)) <$> AnalogInputs dnp3_config) !! 2%nat = Some (float32_int 116).
Proof.
  assert (Hr : sys_reachable (system_start 0)) by (exists 0; apply rtc_refl).
  assert (Hp : poll_cycle (H := field_network demo_solver all_served) env 5 6 (sys_rtac (system_start 0))
                 (sys_field (system_start 0)) = (sys_rtac demo_polled, sys_field demo_polled)) by reflexivity.
  destruct (rtac_mirrors (system_start 0) demo_solver 5 6 _ _ Hr Hp) as (_ & _ & Hi & Hh & _ & Ha).
  rewrite Hi, Hh, Ha. split_and!; vm_compute; reflexivity.
Defined.

(** From that state a cycle raises the tap and switches the bank in. *)
Lemma rtac_auto_control_witness :
  let (p, w) := runAutoControls (H0 := field_network demo_solver all_served) env (sys_rtac demo_polled) (sys_field demo_polled) in
  TapPosition (state (f_regulator w)) = 1 ∧ SwitchedIn (state (f_capbank w)) = true ∧
  spaced (switch_times (Entries (audit (base p)))).
Proof.
  destruct (runAutoControls (H0 := field_network demo_solver all_served) env (sys_rtac demo_polled) (sys_field demo_polled))
    as [p w] eqn:Hp.
  destruct (rtac_auto_control demo_polled demo_solver all_served p w demo_polled_reachable Hp) as [_ Hs].
  assert (Hw : w = (runAutoControls (H0 := field_network demo_solver all_served) env (sys_rtac demo_polled) (sys_field demo_polled)).2)
    by (rewrite Hp; reflexivity).
  split; [rewrite Hw; vm_compute; reflexivity|]. split; [rewrite Hw; vm_compute; reflexivity|exact Hs].
Defined.
